(* ===== verification/_CoqProject ===== *)
-Q . S2P
Prelude.v
Text.v
Hex.v
Json.v
Serde.v
ExasolType.v
DatetimeFormat.v
ColumnNode.v
FilterJson.v
Render.v
RenderFacts.v
RenderSafety.v
ArrowTypes.v
SparkTypes.v
HiveType.v
TypeMapping.v
ExactNumeric.v
CheckedDiv.v
Sharding.v
TableFilter.v
ExasolRules.v
StatementState.v
Redaction.v
AccessPlan.v
RoaringSets.v
RowDeletes.v
ScanSpec.v
ColumnNotes.v
ColumnTypes.v
BinaryFilter.v
Pruning.v
TypeRewrites.v
Projection.v
TopN.v
AggPlans.v
AggMerge.v
GroupedAgg.v
SingleGroupAgg.v
Storage.v
Connection.v
IcebergPredicate.v
DeltaPredicate.v
DeltaSchema.v
ColumnBinding.v
ScanFiles.v
ObjectLocation.v
TableIdentity.v
Permission.v
Properties.v
Resolution.v
CommonSpec.v
SealedStorage.v
DrivingSql.v
JoinLegs.v
JoinFilters.v
JoinPlanning.v
JoinSql.v
JoinRows.v
Dispatch.v
PartitionValues.v
IcebergTable.v
Declaration.v
Listing.v
Adapter.v
PartitionPredicate.v
ParquetDirectory.v
DeltaTable.v
CatalogHttp.v
CatalogSession.v
CatalogTables.v
DeletionVectors.v
DeleteReads.v
Emit.v
Rendering.v
StoreRouting.v
Export.v
ScanSql.v
ScanTable.v
ScanRun.v
ColumnReads.v
