(* ===== verification/Prelude.v ===== *)
(** * Verification of the lakehouse engine

    The engine lets an Exasol database query Iceberg, Delta and Parquet tables. Its
    adapter receives a pushdown request (JSON), resolves the files of the table and
    returns an SQL statement; that statement calls a scan UDF once per shard of the
    files, which reads Parquet with DataFusion and emits rows. This development
    models the engine's own logic on both sides as executable functions and proves
    what makes it correct: no filter is lost, no row is read twice or skipped, no text
    of a request reaches the SQL unescaped, no value is rounded or wrapped silently,
    and what one side writes the other reads back.

    The sources are the crates under src/crates: vs-expression (the expression
    translator), lakehouse-engine (adapter, scan, types) and lakehouse-catalog.

    ** How the code is modelled

    A [Result<T, UdfError>] is [result UdfError T] with the source's messages; [?] is
    [let?]. An [Option] is [option]. A panic ([unwrap], [expect], [unreachable!], an
    index) is [None] or excluded by a theorem. A Rust [String] is the list of its UTF-8
    bytes ([string]); a char-wise operation decodes them. Integers of a fixed width are
    [N] or [Z] with the wrap, saturation or check written out. A serde value is [Json],
    an object being a key-sorted list as [serde_json] keeps it; parsing and printing
    text are arguments. Hash maps are [gmap] or lists where only membership matters.
    Concurrency is a step relation whose runs are all interleavings of the atomic steps.

    Three readings are coarser than the machine's, and the theorems that depend on them
    say so: a decimal literal of a filter is the rational it is written as; the DOUBLE
    arithmetic of merged statistics is exact after an arbitrary conversion to DOUBLE; and
    a NaN or an empty text in a sort column is excluded from top-N.

    Code outside the repository is an argument or a class with the behaviour the engine
    relies on as named laws, each with an instance that satisfies them: Unicode case
    mapping, hexadecimal decoding, floats, clocks, iceberg-rust and delta-kernel values,
    the roaring decoders, Arrow arrays, DataFusion's typing, casts, plans and expression
    traversals, object stores, HTTP exchanges and AWS answers, tokio's [OnceCell], and the
    database that runs an export statement ([ExportDatabase]). Such laws are stated over
    the library's own inputs and answers, never over what the engine makes of them: the
    data skipping of delta-kernel, for instance, over the kernel's scan rows.

    ** Files

    - Prelude, Text, Hex, Json, Serde: errors, bytes and chars, JSON values and
      struct-by-struct serialization, with the lemmas and the [json] hints they share.
    - ExasolType, DatetimeFormat, ColumnNode, Render, RenderFacts, RenderSafety: the
      crate vs-expression. [Render] has one definition per arm of
      [render_expression_inner]; [RenderFacts] ties the fuel to the source's recursion and
      fixes the function table, [RenderSafety] proves the SQL lexically closed under a
      lexer with strings, quoted identifiers, parentheses and both kinds of comment.
    - ArrowTypes, SparkTypes, HiveType, TypeMapping, ExasolRules: types/ and exasol.rs.
    - ExactNumeric, CheckedDiv: scan/exasol_numeric.rs and scan/checked_div.rs.
    - Sharding, TableFilter, StatementState, ColumnNotes, Redaction, Storage: adapter/
      sharding.rs, table_filter.rs, statement_state.rs, column_notes.rs, and
      lakehouse-catalog's redaction.rs, storage.rs, creds.rs, vended.rs.
    - AccessPlan, RoaringSets, RowDeletes, DeletionVectors, DeleteReads:
      scan/row_deletes.rs and scan/deletion_vectors.rs. [DeleteReads] composes the reads
      of a shard's delete files and vectors into the positions of each data file.
    - ScanSpec, ScanFiles, CommonSpec: scan/spec.rs, the plan on the wire.
    - ColumnTypes, FilterJson, BinaryFilter, TypeRewrites, Projection, TopN: adapter/
      pushdown/support.rs, binary_filter.rs, topn.rs.
    - AggPlans, AggMerge, GroupedAgg, SingleGroupAgg, DrivingSql: the aggregate planners
      and the statements of every shape; [AggMerge] evaluates the SQL both sides emit.
    - JoinLegs, JoinFilters, JoinPlanning, JoinSql, JoinRows: adapter/pushdown/joins.
      [JoinRows] gives the join chain its meaning on rows.
    - Dispatch: adapter/pushdown/mod.rs, joins/mod.rs and empty_result.rs, the request
      handler that composes the planners; Resolution: format/mod.rs, refused_columns.rs.
    - Connection, SealedStorage, Permission, Properties, TableIdentity, ObjectLocation:
      adapter/connection.rs, permission.rs, properties.rs, tables.rs, scan/sealed.rs,
      storage_ref.rs, object_location.rs and the catalog rules they call.
    - Pruning, PartitionPredicate, IcebergPredicate, DeltaPredicate, DeltaSchema: the
      pruning predicates and the Delta schema reader. [Pruning] is the shared meaning of
      a filter in three-valued logic, with unread nodes unknown.
    - IcebergTable, DeltaTable, ParquetDirectory, CatalogTables: the table formats of
      adapter/pushdown/format, scan_catalog.rs, adapter/parquet_directory.rs and
      direct_storage.rs: what a table declares and which files a filter keeps.
    - Declaration, Listing, Adapter: adapter/mod.rs, scoped_refresh.rs,
      skipped_tables.rs, capabilities.rs: schema creation, refresh and request routing.
    - CatalogHttp, CatalogSession, CatalogTables: the clients of lakehouse-catalog, from
      the retried request to the paged listing and the neutral table.
    - ColumnBinding, ColumnReads, PartitionValues: scan/field_id_projection.rs and
      partition_values.rs. [ColumnBinding] binds a file's columns, [ColumnReads] adapts
      its arrays and the expressions over them.
    - StoreRouting, ScanTable, ScanSql, Emit, Rendering, ScanRun: one scan invocation:
      scan/object_store.rs, store_router.rs and runtime.rs (which credential serves which
      object), scan_table.rs and raw_scan.rs (the provider and its registration),
      sql_support.rs, join_scan.rs and partial_agg.rs (the statements), emit.rs and
      convert.rs (the rows), binary_hex.rs, binary_text.rs and json_render.rs (texts), and
      the drivers of scan/mod.rs.
    - Export: export.rs.

    The interfaces between components are classes: the binders of [ColumnReads] are
    proved against [DefaultAdapterLaws] and [TreeNodeLaws], the provider of [ScanTable]
    against [DeleteSourceLaws], which [DeleteReads] discharges from the laws of the store
    and the decoders.

    ** What the theorems show

    - Answers are exact: pushed aggregates, top-N, binary and timestamp comparisons
      compute what the request asks ([merged_aggregate_exact], [topn_pushdown_exact],
      [compare_binary_bytes_same_rows], [timestamp_rewrite_exact]); a join applies each
      conjunct once and binds each column to its own occurrence of a table
      ([n_scan_join_exact], [join_filter_applied_once], [detected_join_is_whole_tree],
      [qualified_columns_keep_their_leg]); no dispatch drops a predicate or a shard
      and no shard stops at a LIMIT that a wrapper has yet to group, filter or order
      ([dispatch_loses_nothing], [refused_column_never_answered]).
    - Pruning and deletes lose nothing ([partition_pruning_sound],
      [iceberg_predicate_implied], [delta_predicate_implied],
      [iceberg_plan_keeps_matching_files], [delta_plan_keeps_matching_files],
      [glue_plan_keeps_matches], [access_plan_reads_kept_rows], [shard_deletes_exact]),
      so that a shard reads each of its files once, without its deleted rows
      ([scan_reads_undeleted_rows]).
    - A file written under another schema reads as the table declares
      ([file_expressions_exact], [nested_members_read_as_declared],
      [field_id_never_bound_by_name], [folded_schema_reads_every_file]).
    - What a scan emits is what it computed, at the declared types
      ([scan_answers_its_shape], [emit_stream_exact], [partial_rows_declared],
      [binary_values_read_back], [nested_documents_exact]); an export hands each row to
      one writer ([export_hands_each_row_to_one_writer]).
    - The wire is faithful ([fan_out_delivers_shards], [scan_spec_wire_roundtrip],
      [declared_schema_roundtrip], [parse_hive_type_roundtrip],
      [relativized_shards_name_same_objects], [virtual_table_leads_back]).
    - Shapes and types are what Exasol validates ([projection_matches_select_list],
      [grouped_detection_faithful], [column_declaration_well_typed]).
    - Arithmetic is exact, as rational numbers at the declared scales, or fails
      ([combine_exact_or_overflow], [sum_never_wraps], [zero_divisor_always_raises]).
    - Texts stay texts ([render_lexically_safe], [scan_statements_closed]), but for the
      negation of a negative number ([negated_negative_opens_comment]).
    - Secrets stay in ([no_secret_survives], [each_side_reads_its_own],
      [vended_storage_scoped], [scan_reads_planned_storage]) and reads are authorized
      ([gated_reads_were_allowed], [accepted_connection_used_as_stated]).
    - Concurrent calls share one state, and references to a table one load
      ([get_or_build_agrees], [loaded_once]).
    - Loops over the network end ([catalog_retries_bounded],
      [namespace_listing_complete], [footer_read_ends]).

    ** Recursion

    Recursion over a request is structural where Rocq accepts it and otherwise takes
    the depth of the tree as fuel ([json_depth]); each such function has a lemma that
    more fuel changes nothing and that it satisfies the source's equation. The glob loop
    is bounded by the product of the lengths, the Hive parser by its input and the
    nesting limit of the source; the theorems include that the bounds suffice. The
    footer read of a delete file doubles its step count per level of fuel ([loop2]), and 64
    levels suffice because each round asks for more bytes within 64 bits. Paged and nested
    listings take a number of pages and a depth, and succeed for every catalog within them.

    ** Not modelled

    DataFusion, Arrow kernels, object stores, HTTP and AWS clients, delta-kernel and
    iceberg-rust: code outside the repository. In the repository: building their clients,
    runtimes and sessions and registering UDFs with them, semaphore permits (they bound
    concurrency, not results), the text of SDK failures, Debug, telemetry and panic output,
    and the test harness. PROJECT.json lists every component and its status. *)

From stdpp Require Import base list strings numbers gmap sorting.
From Stdlib Require Import Ascii String DecimalString DecimalN.

Local Open Scope string_scope.

(** ** Errors

    Every fallible function of the crates returns [Result<T, UdfError>]; the
    engine only ever builds [UdfError::User]. *)

Inductive result (E A : Type) : Type :=
| Ok (a : A)
| Err (e : E).
Arguments Ok {E A} _.
Arguments Err {E A} _.

Inductive UdfError : Type := User (msg : string).

#[export] Instance UdfError_eq_dec : EqDecision UdfError.
Proof. solve_decision. Defined.

#[export] Instance result_eq_dec {E A} `{EqDecision E, EqDecision A} : EqDecision (result E A).
Proof. solve_decision. Defined.

Declare Scope rust_scope.
Delimit Scope rust_scope with rust.

(** [let? x := c in k] is the [?] operator: the error of [c] is returned. *)
Notation "'let?' x ':=' c 'in' k" :=
  (match c with Ok x => k | Err e => Err e end)
  (at level 10, x pattern, c at level 100, k at level 200) : rust_scope.

Open Scope rust_scope.

Definition ok_or {E A} (o : option A) (e : E) : result E A :=
  match o with Some a => Ok a | None => Err e end.

(** [Result::ok]. *)
Definition ok {E A} (r : result E A) : option A :=
  match r with Ok a => Some a | Err _ => None end.

(** [iter.map(f).collect::<Result<Vec<_>, _>>()]: the first error wins. *)
Fixpoint try_map {A B E} (f : A -> result E B) (l : list A) : result E (list B) :=
  match l with
  | [] => Ok []
  | x :: l' => let? y := f x in let? ys := try_map f l' in Ok (y :: ys)
  end.

(** As [try_map], for closures that read the element's index (from [i] on). *)
Fixpoint try_mapi {A B E} (f : nat -> A -> result E B) (i : nat) (l : list A) : result E (list B) :=
  match l with
  | [] => Ok []
  | x :: l' => let? y := f i x in let? ys := try_mapi f (S i) l' in Ok (y :: ys)
  end.

Lemma try_map_Forall2 {A B E} (f : A -> result E B) l out : try_map f l = Ok out -> Forall2 (fun a b => f a = Ok b) l out.
Proof.
  revert out. induction l as [|a l IH]; intros out; cbn [try_map]; [intros [= <-]; constructor|].
  destruct (f a) as [b|] eqn:E1; [|done]. destruct (try_map f l) as [bs|]; [|done]. intros [= <-]. constructor; [done|by apply IH].
Qed.

Lemma try_map_elem {A B E} (f : A -> result E B) l ys x : try_map f l = Ok ys -> x ∈ l -> exists y, f x = Ok y /\ y ∈ ys.
Proof.
  intros H%try_map_Forall2 Hx. induction H as [|a b l ys Hab _ IH]; [by apply elem_of_nil in Hx|].
  apply elem_of_cons in Hx as [->|Hx]; [exists b; split; [done|by left]|]. destruct (IH Hx) as (y & Hy & Hin). exists y. split; [done|by right].
Qed.

Lemma try_map_app {A B E} (f : A -> result E B) l l' :
  try_map f (l ++ l')%list = (let? ys := try_map f l in let? ys' := try_map f l' in Ok (ys ++ ys')%list).
Proof.
  induction l as [|a l IH]; cbn; [by destruct (try_map f l')|]. rewrite IH. destruct (f a); [|done]. destruct (try_map f l); [|done].
  by destruct (try_map f l').
Qed.

Lemma try_mapi_lookup {A B E} (f : nat -> A -> result E B) i l out : try_mapi f i l = Ok out ->
  List.length out = List.length l /\ forall j x, l !! j = Some x -> exists y, out !! j = Some y /\ f (i + j)%nat x = Ok y.
Proof.
  revert i out. induction l as [|a l IH]; intros i out; cbn [try_mapi]; [by intros [= <-]|].
  destruct (f i a) as [b|] eqn:E1; [|done]. destruct (try_mapi f (S i) l) as [bs|] eqn:E2; [|done]. intros [= <-].
  destruct (IH _ _ E2) as [Hlen Hat]. split; [cbn; lia|]. intros [|j] x; cbn; [intros [= <-]; exists b; by rewrite Nat.add_0_r|].
  intros Hx. destruct (Hat j x Hx) as (y & Hy & Hf). exists y. split; [done|]. by rewrite <- Nat.add_succ_comm.
Qed.

(** ** Text

    A Rust [String] is modelled by its UTF-8 bytes, one [ascii] per byte. *)

(** The double quote character, and the strings made of quotes that Rust
    spells with escapes. *)
Definition dq_char : ascii := "034"%char.
Definition dq : string := String dq_char EmptyString.
Definition sq_char : ascii := "'"%char.

Fixpoint string_map (f : ascii -> ascii) (s : string) : string :=
  match s with
  | EmptyString => EmptyString
  | String c s' => String (f c) (string_map f s')
  end.

Fixpoint string_forallb (p : ascii -> bool) (s : string) : bool :=
  match s with
  | EmptyString => true
  | String c s' => p c && string_forallb p s'
  end.

Definition code (c : ascii) : N := N_of_ascii c.

Definition is_ascii_upper (c : ascii) : bool := (65 <=? code c)%N && (code c <=? 90)%N.
Definition is_ascii_lower (c : ascii) : bool := (97 <=? code c)%N && (code c <=? 122)%N.
Definition is_ascii_digit (c : ascii) : bool := (48 <=? code c)%N && (code c <=? 57)%N.
Definition is_ascii_hexdigit (c : ascii) : bool :=
  is_ascii_digit c
  || ((65 <=? code c)%N && (code c <=? 70)%N)
  || ((97 <=? code c)%N && (code c <=? 102)%N).

Definition ascii_upper (c : ascii) : ascii :=
  if is_ascii_lower c then ascii_of_N (code c - 32) else c.
Definition ascii_lower (c : ascii) : ascii :=
  if is_ascii_upper c then ascii_of_N (code c + 32) else c.

Definition to_ascii_uppercase : string -> string := string_map ascii_upper.
Definition to_ascii_lowercase : string -> string := string_map ascii_lower.
Definition eq_ignore_ascii_case (a b : string) : bool :=
  String.eqb (to_ascii_lowercase a) (to_ascii_lowercase b).
Definition is_ascii_str : string -> bool := string_forallb (fun c => (code c <? 128)%N).

(** [str::to_uppercase] and [str::to_lowercase] fold by the Unicode tables,
    which are data of the toolchain. The model takes them as an interface with
    the only law the engine relies on: on ASCII text they are the ASCII folds. *)
Class UnicodeCase := {
  to_uppercase : string -> string;
  to_lowercase : string -> string;
  to_uppercase_ascii s : is_ascii_str s = true -> to_uppercase s = to_ascii_uppercase s;
  to_lowercase_ascii s : is_ascii_str s = true -> to_lowercase s = to_ascii_lowercase s;
}.

(** The folds restricted to ASCII: the instance concrete runs use. *)
Definition ascii_case : UnicodeCase := {|
  to_uppercase := to_ascii_uppercase;
  to_lowercase := to_ascii_lowercase;
  to_uppercase_ascii := fun s _ => eq_refl;
  to_lowercase_ascii := fun s _ => eq_refl;
|}.

(** [str::replace] of a character by text. *)
Fixpoint replace_char (c : ascii) (by_ : string) (s : string) : string :=
  match s with
  | EmptyString => EmptyString
  | String d s' =>
      if Ascii.eqb d c then by_ ++ replace_char c by_ s' else String d (replace_char c by_ s')
  end.

(** [slice::join]. *)
Fixpoint join (sep : string) (l : list string) : string :=
  match l with
  | [] => ""
  | [s] => s
  | s :: l' => s ++ sep ++ join sep l'
  end.

Definition starts_with (pre s : string) : bool := String.prefix pre s.

(** [str::split_once] at a character. *)
Fixpoint split_once (c : ascii) (s : string) : option (string * string) :=
  match s with
  | EmptyString => None
  | String d s' =>
      if Ascii.eqb d c then Some ("", s')
      else match split_once c s' with Some (a, b) => Some (String d a, b) | None => None end
  end.

(** [str::trim_end_matches] of a character. *)
Fixpoint trim_end_matches (c : ascii) (s : string) : string :=
  match s with
  | EmptyString => EmptyString
  | String d s' =>
      match trim_end_matches c s' with
      | EmptyString => if Ascii.eqb d c then EmptyString else String d EmptyString
      | r => String d r
      end
  end.

(** [Display] of an unsigned and of a signed integer. *)
Definition show_N (n : N) : string := NilEmpty.string_of_uint (N.to_uint n).
Definition show_nat (n : nat) : string := show_N (N.of_nat n).
Definition show_Z (z : Z) : string :=
  if (z <? 0)%Z then "-" ++ show_N (Z.to_N (- z)) else show_N (Z.to_N z).

(** ** Machine integers *)

Definition u8_max : Z := 255.
Definition u32_max : Z := 4294967295.
Definition u64_max : Z := 18446744073709551615.
Definition i32_max : Z := 2147483647.
Definition i64_min : Z := -9223372036854775808.
Definition i64_max : Z := 9223372036854775807.

(** ** Automation *)

(** Facts about where a node sits in a request tree. *)
Create HintDb json discriminated.

(** ** Text lemmas *)

Lemma string_compare_refl (s : string) : String.compare s s = Eq.
Proof.
  pose proof (String.compare_antisym s s) as H. by destruct (String.compare s s).
Qed.

Lemma string_app_cons (x : ascii) (a b : string) : String x a ++ b = String x (a ++ b).
Proof. done. Qed.

Lemma string_app_nil_l (a : string) : "" ++ a = a.
Proof. done. Qed.

Lemma string_app_assoc (a b c : string) : (a ++ b) ++ c = a ++ b ++ c.
Proof. induction a as [|x a IH]; [done|]. by rewrite !string_app_cons, IH. Qed.

Lemma string_app_nil_r (a : string) : a ++ "" = a.
Proof. induction a as [|x a IH]; [done|]. by rewrite string_app_cons, IH. Qed.

Lemma string_forallb_app p a b :
  string_forallb p (a ++ b) = string_forallb p a && string_forallb p b.
Proof.
  induction a as [|x a IH]; [done|]. rewrite string_app_cons. cbn. by rewrite IH, andb_assoc.
Qed.

Lemma string_app_inv_l (a b c : string) : a ++ b = a ++ c -> b = c.
Proof. induction a as [|x a IH]; [done|]. rewrite !string_app_cons. intros [= E]. auto. Qed.

Lemma show_N_digits n : string_forallb is_ascii_digit (show_N n) = true.
Proof. unfold show_N. by induction (N.to_uint n). Qed.

Lemma show_N_inj n m : show_N n = show_N m -> n = m.
Proof.
  unfold show_N. intros E%(f_equal NilEmpty.uint_of_string).
  rewrite !NilEmpty.usu in E. apply Unsigned.to_uint_inj. congruence.
Qed.

(** Digit runs closed by the same non-digit are equal. *)
Lemma digits_delimited a b x y r r' :
  string_forallb is_ascii_digit a = true -> string_forallb is_ascii_digit b = true ->
  is_ascii_digit x = false -> is_ascii_digit y = false ->
  a ++ String x r = b ++ String y r' -> a = b /\ String x r = String y r'.
Proof.
  revert b. induction a as [|c a IH]; intros [|d b] Ha Hb Hx Hy E;
    rewrite ?string_app_nil_l, ?string_app_cons in E; cbn in Ha, Hb.
  - done.
  - injection E as -> _. by rewrite Hx in Hb.
  - injection E as -> _. by rewrite Hy in Ha.
  - injection E as -> E. apply andb_prop in Ha as [_ Ha]. apply andb_prop in Hb as [_ Hb].
    by destruct (IH b Ha Hb Hx Hy E) as [-> E'].
Qed.

Lemma show_N_delimited n m x y r r' :
  is_ascii_digit x = false -> is_ascii_digit y = false ->
  show_N n ++ String x r = show_N m ++ String y r' -> n = m /\ String x r = String y r'.
Proof.
  intros Hx Hy E. apply digits_delimited in E as [E ?]; try done; try apply show_N_digits.
  split; [by apply show_N_inj|done].
Qed.
