(* ===== verification/Text.v ===== *)
(** Text the sources read character by character: trimming, prefixes and
    suffixes, and the [str::parse] of the machine integers, with the decimal
    round trips every encoder of the crates relies on. *)

From stdpp Require Import base list strings numbers.
From Stdlib Require Import Ascii String ZArith NArith Lia ZifyBool DecimalString DecimalN DecimalFacts.
From S2P Require Import Prelude.

Local Open Scope string_scope.

(** [iter().position(..)]. *)
Fixpoint position {A} (p : A -> bool) (l : list A) : option nat :=
  match l with
  | [] => None
  | x :: l' => if p x then Some 0 else option_map S (position p l')
  end.

Definition or_else {A} (a b : option A) : option A := match a with Some _ => a | None => b end.

(** The first element that satisfies the predicate. *)
Lemma position_Some {A} (p : A -> bool) l i :
  position p l = Some i ->
  exists x, l !! i = Some x /\ p x = true /\ forall j y, j < i -> l !! j = Some y -> p y = false.
Proof.
  revert i. induction l as [|x l IH]; intros i; cbn; [done|]. destruct (p x) eqn:E.
  - intros [= <-]. exists x. split; [done|]. split; [done|]. lia.
  - destruct (position p l) as [n|]; [|done]. intros [= <-]. destruct (IH n eq_refl) as (y & Hy & Hp & Hall).
    exists y. split; [done|]. split; [done|]. intros [|j] z Hj; cbn; [by intros [= <-]|]. apply Hall. lia.
Qed.

(** ** Prefixes and suffixes *)

Fixpoint strip_prefix (pre s : string) : option string :=
  match pre, s with
  | EmptyString, _ => Some s
  | String c pre', String d s' => if Ascii.eqb c d then strip_prefix pre' s' else None
  | String _ _, EmptyString => None
  end.

(** [str::strip_suffix]. *)
Fixpoint strip_suffix (suf s : string) : option string :=
  if String.eqb s suf then Some ""
  else match s with
       | EmptyString => None
       | String c s' => option_map (String c) (strip_suffix suf s')
       end.

(** [str::split(c)]. *)
Fixpoint split_char (c : ascii) (s : string) : list string :=
  match s with
  | EmptyString => [""]
  | String d s' =>
      if Ascii.eqb d c then "" :: split_char c s'
      else match split_char c s' with [] => [String d ""] | x :: l => String d x :: l end
  end.

(** ** White space

    [char::is_whitespace] on UTF-8 bytes: what follows a leading white-space
    character. *)
Definition strip_whitespace_char (s : string) : option string :=
  match s with
  | EmptyString => None
  | String a s1 =>
      let a := code a in
      if ((9 <=? a) && (a <=? 13) || (a =? 32))%N then Some s1
      else
        match s1 with
        | EmptyString => None
        | String b s2 =>
            let b := code b in
            if ((a =? 194) && ((b =? 133) || (b =? 160)))%N then Some s2
            else
              match s2 with
              | EmptyString => None
              | String c s3 =>
                  let c := code c in
                  if ((a =? 225) && (b =? 154) && (c =? 128)
                      || (a =? 226) && (b =? 128) && ((128 <=? c) && (c <=? 138) || (c =? 168) || (c =? 169) || (c =? 175))
                      || (a =? 226) && (b =? 129) && (c =? 159)
                      || (a =? 227) && (b =? 128) && (c =? 128))%N
                  then Some s3 else None
              end
        end
  end.

(** A white-space character has at most as many bytes as the text. *)
Fixpoint trim_start_fuel (fuel : nat) (s : string) : string :=
  match fuel with
  | 0 => s
  | S fuel => match strip_whitespace_char s with Some s' => trim_start_fuel fuel s' | None => s end
  end.

Definition trim_start (s : string) : string := trim_start_fuel (String.length s) s.

(** [str::trim_end]: the shortest prefix followed only by white space. *)
Fixpoint trim_end (s : string) : string :=
  if String.eqb (trim_start s) "" then ""
  else match s with EmptyString => "" | String c s' => String c (trim_end s') end.

Definition trim (s : string) : string := trim_end (trim_start s).

(** ** Integers *)

(** The value of a run of decimal digits, leading zeros included. *)
Fixpoint digits_value (acc : N) (s : string) : N :=
  match s with
  | EmptyString => acc
  | String c s' => digits_value (10 * acc + (code c - 48))%N s'
  end.

(** [str::parse] of an unsigned integer of at most [max]: an optional plus,
    then digits. *)
Definition parse_unsigned (max : N) (s : string) : option N :=
  let digits := match s with String "+" rest => rest | _ => s end in
  if negb (String.eqb digits "") && string_forallb is_ascii_digit digits then
    let n := digits_value 0 digits in if (n <=? max)%N then Some n else None
  else None.

(** [str::parse] of a signed integer of [bits] bits. *)
Definition parse_signed (bits : Z) (s : string) : option Z :=
  let '(neg, digits) :=
    match s with
    | String "-" rest => (true, rest)
    | String "+" rest => (false, rest)
    | _ => (false, s)
    end in
  if negb (String.eqb digits "") && string_forallb is_ascii_digit digits then
    let n := Z.of_N (digits_value 0 digits) in
    let v := (if neg : bool then - n else n)%Z in
    if ((- 2 ^ (bits - 1) <=? v) && (v <? 2 ^ (bits - 1)))%Z then Some v else None
  else None.

Definition parse_i32 (s : string) : option Z := parse_signed 32 s.

Lemma digits_value_pos d acc :
  digits_value (Npos acc) (NilEmpty.string_of_uint d) = Npos (Pos.of_uint_acc d acc).
Proof.
  revert acc. induction d as [|d IH|d IH|d IH|d IH|d IH|d IH|d IH|d IH|d IH|d IH]; intros acc; [done|..];
    cbn [NilEmpty.string_of_uint digits_value Pos.of_uint_acc]; rewrite <- IH; f_equal; cbn; lia.
Qed.

Lemma digits_value_uint d : digits_value 0 (NilEmpty.string_of_uint d) = N.of_uint d.
Proof.
  induction d as [|d IH|d IH|d IH|d IH|d IH|d IH|d IH|d IH|d IH|d IH]; try done.
  all: apply digits_value_pos.
Qed.

Lemma digits_value_show n : digits_value 0 (show_N n) = n.
Proof. unfold show_N. rewrite digits_value_uint. apply Unsigned.of_to. Qed.

Lemma show_N_nonempty n : String.eqb (show_N n) "" = false.
Proof.
  apply String.eqb_neq. intros E. pose proof (digits_value_show n) as H. rewrite E in H. cbn in H.
  subst n. discriminate.
Qed.

Lemma show_N_head n : exists c s, show_N n = String c s /\ is_ascii_digit c = true.
Proof.
  pose proof (show_N_nonempty n) as Hne. pose proof (show_N_digits n) as Hd.
  destruct (show_N n) as [|c s]; [done|]. cbn in Hd. apply andb_prop in Hd as [Hc _]. eauto.
Qed.

(** Reading back the display of an unsigned integer. *)
Lemma parse_unsigned_show max n : (n <= max)%N -> parse_unsigned max (show_N n) = Some n.
Proof.
  intros Hn. unfold parse_unsigned.
  assert ((match show_N n with String "+" rest => rest | _ => show_N n end) = show_N n) as ->.
  { destruct (show_N_head n) as (c & s & -> & Hc). by destruct c as [[][][][][][][][]]. }
  rewrite show_N_nonempty, show_N_digits, digits_value_show. cbn. by rewrite (proj2 (N.leb_le _ _) Hn).
Qed.

(** Reading back the display of a signed integer. *)
Lemma parse_signed_show bits z :
  (- 2 ^ (bits - 1) <= z < 2 ^ (bits - 1))%Z -> parse_signed bits (show_Z z) = Some z.
Proof.
  intros Hz. unfold parse_signed, show_Z. destruct (Z.ltb_spec z 0) as [Hneg|Hpos].
  - rewrite string_app_cons, string_app_nil_l.
    rewrite show_N_nonempty, show_N_digits, digits_value_show. cbn [negb andb].
    rewrite Z2N.id by lia. rewrite Z.opp_involutive.
    by rewrite (proj2 (Z.leb_le _ _)), (proj2 (Z.ltb_lt _ _)) by lia.
  - assert ((match show_N (Z.to_N z) with
             | String "-" rest => (true, rest) | String "+" rest => (false, rest)
             | _ => (false, show_N (Z.to_N z)) end) = (false, show_N (Z.to_N z))) as ->.
    { destruct (show_N_head (Z.to_N z)) as (c & s & -> & Hc). by destruct c as [[][][][][][][][]]. }
    rewrite show_N_nonempty, show_N_digits, digits_value_show. cbn [negb andb].
    rewrite Z2N.id by lia.
    by rewrite (proj2 (Z.leb_le _ _)), (proj2 (Z.ltb_lt _ _)) by lia.
Qed.

Lemma strip_prefix_app pre s : strip_prefix pre (pre ++ s) = Some s.
Proof. induction pre as [|c pre IH]; [done|]. rewrite string_app_cons. cbn. by rewrite Ascii.eqb_refl. Qed.

Lemma strip_prefix_spec pre s r : strip_prefix pre s = Some r -> s = pre ++ r.
Proof.
  revert s. induction pre as [|c pre IH]; intros s; cbn; [by intros [= ->]|].
  destruct s as [|d s]; [done|]. destruct (Ascii.eqb_spec c d) as [->|]; [|done].
  intros H. by rewrite string_app_cons, <- (IH _ H).
Qed.

Lemma strip_suffix_char_app c s :
  string_forallb (fun d => negb (Ascii.eqb d c)) s = true ->
  strip_suffix (String c "") (s ++ String c "") = Some s.
Proof.
  induction s as [|d s IH]; intros H.
  - rewrite string_app_nil_l. unfold strip_suffix. by rewrite String.eqb_refl.
  - cbn in H. apply andb_prop in H as [Hd H]. rewrite string_app_cons. cbn [strip_suffix].
    destruct (String.eqb_spec (String d (s ++ String c "")) (String c "")) as [E|_].
    + injection E as -> E. by rewrite Ascii.eqb_refl in Hd.
    + by rewrite (IH H).
Qed.

(** ** Lengths *)

Lemma string_length_app a b : String.length (a ++ b) = String.length a + String.length b.
Proof. induction a as [|c a IH]; [done|]. rewrite string_app_cons. cbn. by rewrite IH. Qed.

Lemma strip_whitespace_char_shorter s s' :
  strip_whitespace_char s = Some s' -> String.length s' < String.length s.
Proof.
  destruct s as [|a s1]; [done|]. cbn. destruct (_ || _); [intros [= ->]; lia|].
  destruct s1 as [|b s2]; [done|]. destruct (_ && _); [intros [= ->]; cbn; lia|].
  destruct s2 as [|c s3]; [done|]. destruct (_ || _); [intros [= ->]; cbn; lia|done].
Qed.

Lemma trim_start_fuel_le fuel s : String.length (trim_start_fuel fuel s) <= String.length s.
Proof.
  revert s. induction fuel as [|fuel IH]; intros s; cbn; [lia|].
  destruct (strip_whitespace_char s) as [s'|] eqn:E; [|lia].
  apply strip_whitespace_char_shorter in E. specialize (IH s'). lia.
Qed.

Lemma trim_start_le s : String.length (trim_start s) <= String.length s.
Proof. apply trim_start_fuel_le. Qed.

(** Text that does not open with white space is left alone. *)
Lemma trim_start_id s : strip_whitespace_char s = None -> trim_start s = s.
Proof. unfold trim_start. destruct s; [done|]. cbn [String.length trim_start_fuel]. by intros ->. Qed.

(** A character below 128 that is not white space: one byte, not the start of
    a longer white-space character. *)
Definition is_plain_char (c : ascii) : bool :=
  let n := code c in ((32 <? n) && (n <? 128) || (n <? 9) || (13 <? n) && (n <? 32))%N.

Lemma strip_whitespace_plain c s : is_plain_char c = true -> strip_whitespace_char (String c s) = None.
Proof.
  unfold is_plain_char. cbv zeta. intros H. unfold strip_whitespace_char. cbv zeta.
  assert (((9 <=? code c) && (code c <=? 13) || (code c =? 32))%N = false) as -> by lia.
  destruct s as [|b s2]; [done|].
  assert ((code c =? 194)%N = false) as -> by lia. cbn [andb].
  destruct s2 as [|d s3]; [done|].
  assert ((code c =? 225)%N = false /\ (code c =? 226)%N = false /\ (code c =? 227)%N = false) as (-> & -> & ->) by lia.
  done.
Qed.

Lemma trim_start_plain c s : is_plain_char c = true -> trim_start (String c s) = String c s.
Proof. intros H. by apply trim_start_id, strip_whitespace_plain. Qed.

(** Text whose every character is plain is trimmed to itself. *)
Lemma trim_plain s : string_forallb is_plain_char s = true -> trim s = s.
Proof.
  intros H. unfold trim.
  assert (trim_start s = s) as -> by (destruct s; [done|]; cbn in H; apply andb_prop in H as [Hc _]; by apply trim_start_plain).
  induction s as [|c s IH]; [done|]. cbn [string_forallb] in H. apply andb_prop in H as [Hc H].
  cbn [trim_end]. rewrite trim_start_plain by done. cbn [String.eqb]. by rewrite IH.
Qed.
