(* ===== verification/Hex.v ===== *)
(** The [hex] crate, a dependency: lowercase digits, two per byte. Its two functions
    are an interface whose laws are its documentation, and from which the order of
    hex texts is shown to be the order of the bytes. *)

From stdpp Require Import base list strings numbers.
From Stdlib Require Import Ascii String NArith Lia ZifyBool.
From S2P Require Import Prelude Text.

Local Open Scope string_scope.

(** The lowercase digit of a value below 16. *)
Definition hex_digit (n : N) : ascii :=
  ascii_of_N (if (n <? 10)%N then n + 48 else n + 87)%N.

Definition byte_digits (c : ascii) : string :=
  String (hex_digit (code c / 16)) (String (hex_digit (code c mod 16)) "").

Class Hex := {
  hex_encode : string -> string;
  hex_decode : string -> option string;
  hex_encode_nil : hex_encode "" = "";
  hex_encode_cons c s : hex_encode (String c s) = byte_digits c ++ hex_encode s;
  (** Digits of either case, two per byte, and nothing else. *)
  hex_decode_spec digits bytes :
    hex_decode digits = Some bytes <-> to_ascii_lowercase digits = hex_encode bytes;
}.

(** The bytes of a byte string, in order: [Ord] on slices of [u8]. *)
Definition bytes_compare (a b : string) : comparison := String.compare a b.

Lemma hex_digit_code n : (n < 16)%N -> code (hex_digit n) = (if (n <? 10)%N then n + 48 else n + 87)%N.
Proof. intros H. unfold code, hex_digit. rewrite N_ascii_embedding; [done|]. destruct (N.ltb_spec n 10); lia. Qed.

Lemma code_lt c : (code c < 256)%N.
Proof. apply N_ascii_bounded. Qed.

Lemma ascii_compare_code a b : Ascii.compare a b = N.compare (code a) (code b).
Proof. done. Qed.

Lemma hex_digit_compare n m :
  (n < 16)%N -> (m < 16)%N -> Ascii.compare (hex_digit n) (hex_digit m) = N.compare n m.
Proof.
  intros Hn Hm. rewrite ascii_compare_code, !hex_digit_code by done.
  destruct (N.ltb_spec n 10), (N.ltb_spec m 10), (N.compare_spec n m); rewrite ?N.compare_eq_iff, ?N.compare_lt_iff, ?N.compare_gt_iff; lia.
Qed.

Section Order.
Context {H : Hex}.

Lemma string_compare_cons a s b t :
  String.compare (String a s) (String b t) =
  match Ascii.compare a b with Eq => String.compare s t | r => r end.
Proof. done. Qed.

Lemma hex_encode_compare a b : String.compare (hex_encode a) (hex_encode b) = bytes_compare a b.
Proof.
  revert b. induction a as [|c a IH]; intros [|d b]; rewrite ?hex_encode_nil, ?hex_encode_cons; try done.
  unfold byte_digits, bytes_compare in *. rewrite !string_app_cons, !string_app_nil_l, !string_compare_cons.
  pose proof (code_lt c) as Hc. pose proof (code_lt d) as Hd.
  assert (code c / 16 < 16 /\ code d / 16 < 16)%N as [? ?] by (split; apply N.Div0.div_lt_upper_bound; lia).
  assert (code c mod 16 < 16 /\ code d mod 16 < 16)%N as [? ?] by (split; apply N.mod_lt; lia).
  rewrite !hex_digit_compare, ascii_compare_code by done.
  pose proof (N.div_mod (code c) 16 ltac:(done)) as Ec. pose proof (N.div_mod (code d) 16 ltac:(done)) as Ed.
  revert Ec Ed. generalize dependent (code c / 16)%N. generalize dependent (code c mod 16)%N.
  generalize dependent (code d / 16)%N. generalize dependent (code d mod 16)%N. intros dm Hdm dq Hdq cm Hcm cq Hcq Ec Ed.
  destruct (N.compare_spec cq dq) as [E|E|E].
  - destruct (N.compare_spec cm dm) as [F|F|F].
    + assert (code c = code d) as -> by lia. rewrite N.compare_refl. apply IH.
    + symmetry. assert ((code c ?= code d)%N = Lt) as -> by (apply N.compare_lt_iff; lia). done.
    + symmetry. assert ((code c ?= code d)%N = Gt) as -> by (apply N.compare_gt_iff; lia). done.
  - symmetry. assert ((code c ?= code d)%N = Lt) as -> by (apply N.compare_lt_iff; lia). done.
  - symmetry. assert ((code c ?= code d)%N = Gt) as -> by (apply N.compare_gt_iff; lia). done.
Qed.

Lemma hex_encode_inj a b : hex_encode a = hex_encode b -> a = b.
Proof.
  intros E. apply String.compare_eq_iff. fold (bytes_compare a b). rewrite <- hex_encode_compare, E. apply string_compare_refl.
Qed.

Lemma hex_encode_lower_digit n : (n < 16)%N -> ascii_lower (hex_digit n) = hex_digit n.
Proof.
  intros Hn. unfold ascii_lower, is_ascii_upper. rewrite hex_digit_code by done.
  destruct (N.ltb_spec n 10); by rewrite (proj2 (andb_false_iff _ _)) by lia.
Qed.

Lemma hex_encode_lower b : to_ascii_lowercase (hex_encode b) = hex_encode b.
Proof.
  induction b as [|c b IH]; [by rewrite hex_encode_nil|]. rewrite hex_encode_cons. unfold byte_digits.
  rewrite !string_app_cons, string_app_nil_l. unfold to_ascii_lowercase in *. cbn [string_map].
  pose proof (code_lt c). rewrite !hex_encode_lower_digit, IH; [done|apply N.mod_lt; lia|apply N.Div0.div_lt_upper_bound; lia].
Qed.

Lemma hex_decode_encode b : hex_decode (hex_encode b) = Some b.
Proof. apply hex_decode_spec, hex_encode_lower. Qed.

Lemma hex_encode_length b : String.length (hex_encode b) = 2 * String.length b.
Proof.
  induction b as [|c b IH]; [by rewrite hex_encode_nil|]. rewrite hex_encode_cons, string_length_app, IH. cbn. lia.
Qed.
End Order.

(** ** An instance *)

Definition digit_value (c : ascii) : option N :=
  let n := code (ascii_lower c) in
  if is_ascii_digit c then Some (n - 48)%N
  else if ((97 <=? n) && (n <=? 102))%N then Some (n - 87)%N else None.

Fixpoint plain_encode (s : string) : string :=
  match s with EmptyString => "" | String c s' => byte_digits c ++ plain_encode s' end.

Fixpoint plain_decode (s : string) : option string :=
  match s with
  | EmptyString => Some ""
  | String a (String b s') =>
      x ← digit_value a; y ← digit_value b; rest ← plain_decode s'; Some (String (ascii_of_N (16 * x + y)) rest)
  | String _ EmptyString => None
  end.

Lemma hex_digit_value n : (n < 16)%N -> digit_value (hex_digit n) = Some n.
Proof.
  intros Hn. unfold digit_value. rewrite hex_encode_lower_digit by done. unfold is_ascii_digit.
  rewrite hex_digit_code by done. destruct (N.ltb_spec n 10).
  - assert (((48 <=? n + 48) && (n + 48 <=? 57))%N = true) as -> by lia. f_equal. lia.
  - assert (((48 <=? n + 87) && (n + 87 <=? 57))%N = false) as -> by lia.
    assert (((97 <=? n + 87) && (n + 87 <=? 102))%N = true) as -> by lia. f_equal. lia.
Qed.

(** A digit of either case is the lowercase digit of its value. *)
Lemma digit_value_lower c n : digit_value c = Some n -> (n < 16)%N /\ ascii_lower c = hex_digit n.
Proof.
  unfold digit_value. destruct (is_ascii_digit c) eqn:Ed.
  - intros [= <-]. unfold ascii_lower. unfold is_ascii_digit in Ed.
    assert (is_ascii_upper c = false) as -> by (unfold is_ascii_upper; lia).
    split; [lia|]. unfold hex_digit. rewrite (proj2 (N.ltb_lt _ _)) by lia.
    rewrite N.sub_add by lia. unfold code. by rewrite ascii_N_embedding.
  - destruct (_ && _)%bool eqn:E; [|done]. intros [= <-]. split; [lia|]. unfold hex_digit.
    rewrite (proj2 (N.ltb_ge _ _)) by lia. rewrite N.sub_add by lia. unfold code. by rewrite ascii_N_embedding.
Qed.

Lemma digit_value_of_lower c n : (n < 16)%N -> ascii_lower c = hex_digit n -> digit_value c = Some n.
Proof.
  intros Hn E. unfold digit_value. rewrite E, hex_digit_code by done.
  assert (is_ascii_upper c = true -> is_ascii_digit c = false) as Hud by (unfold is_ascii_upper, is_ascii_digit; lia).
  assert (is_ascii_upper c = false -> code c = if (n <? 10)%N then (n + 48)%N else (n + 87)%N) as Hl.
  { intros Hu. unfold ascii_lower in E. rewrite Hu in E. rewrite E. by apply hex_digit_code. }
  assert (is_ascii_upper c = true -> (code c + 32 = if (n <? 10) then n + 48 else n + 87)%N) as Hup.
  { intros Hu. unfold ascii_lower in E. rewrite Hu in E. rewrite <- (hex_digit_code n Hn), <- E. unfold code.
    rewrite N_ascii_embedding; [done|]. unfold is_ascii_upper, code in Hu. lia. }
  destruct (is_ascii_upper c) eqn:Eu.
  - rewrite Hud by done. specialize (Hup eq_refl). unfold is_ascii_upper in Eu. destruct (N.ltb_spec n 10); [lia|].
    assert (((97 <=? n + 87) && (n + 87 <=? 102))%N = true) as -> by lia. f_equal. lia.
  - specialize (Hl eq_refl). unfold is_ascii_digit. rewrite Hl. destruct (N.ltb_spec n 10).
    + assert (((48 <=? n + 48) && (n + 48 <=? 57))%N = true) as -> by lia. f_equal. lia.
    + assert (((48 <=? n + 87) && (n + 87 <=? 57))%N = false) as -> by lia.
      assert (((97 <=? n + 87) && (n + 87 <=? 102))%N = true) as -> by lia. f_equal. lia.
Qed.

Lemma plain_decode_spec digits bytes :
  plain_decode digits = Some bytes <-> to_ascii_lowercase digits = plain_encode bytes.
Proof.
  revert bytes. enough (forall k digits bytes, String.length digits <= k ->
    plain_decode digits = Some bytes <-> to_ascii_lowercase digits = plain_encode bytes) as Hk by eauto.
  induction k as [|k IH]; intros [|a [|b s]] bytes Hlen; cbn in Hlen; try lia.
  1, 2: cbn; split; [by intros [= <-]|by destruct bytes].
  1: cbn; split; [done|]; by destruct bytes.
  cbn [plain_decode]. unfold to_ascii_lowercase. cbn [string_map]. fold to_ascii_lowercase. split.
  - destruct (digit_value a) as [x|] eqn:Ex; [|done]. destruct (digit_value b) as [y|] eqn:Ey; [|done]. cbn.
    destruct (plain_decode s) as [rest|] eqn:Er; [|done]. cbn. intros [= <-].
    apply IH in Er; [|lia]. apply digit_value_lower in Ex as [Hx ->]. apply digit_value_lower in Ey as [Hy ->].
    cbn [plain_encode]. unfold byte_digits. rewrite !string_app_cons, string_app_nil_l.
    assert (code (ascii_of_N (16 * x + y)) = 16 * x + y)%N as -> by (unfold code; apply N_ascii_embedding; lia).
    rewrite N.mul_comm, N.div_add_l, N.div_small, N.add_0_r by lia.
    rewrite N.add_comm, N.Div0.mod_add, N.mod_small by lia. by rewrite <- Er.
  - destruct bytes as [|c bytes]; [done|]. cbn [plain_encode]. unfold byte_digits. rewrite !string_app_cons, string_app_nil_l.
    intros [= Ea Eb Es]. pose proof (code_lt c).
    apply digit_value_of_lower in Ea; [|apply N.Div0.div_lt_upper_bound; lia].
    apply digit_value_of_lower in Eb; [|apply N.mod_lt; lia].
    apply IH in Es; [|lia]. rewrite Ea, Eb. cbn. rewrite Es. cbn. do 2 f_equal.
    rewrite <- N.div_mod by done. unfold code. apply ascii_N_embedding.
Qed.

Definition plain_hex : Hex := {|
  hex_encode := plain_encode;
  hex_decode := plain_decode;
  hex_encode_nil := eq_refl;
  hex_encode_cons := fun c s => eq_refl;
  hex_decode_spec := plain_decode_spec;
|}.
