(* ===== verification/Json.v ===== *)
(** [serde_json::Value], the request trees every component reads.

    The workspace builds [serde_json] without [preserve_order], so an object is
    a [BTreeMap]: its entries are kept sorted by key, each key once. *)

From stdpp Require Import base list strings numbers.
From Stdlib Require Import Ascii String.
From S2P Require Import Prelude.

Local Open Scope string_scope.

(** The three forms of a [serde_json::Number]. A float is carried by the text
    it displays as, which is the only thing the modelled code reads of it. *)
Inductive Number : Type :=
| PosInt (n : N)
| NegInt (z : Z)
| Float (text : string).

Unset Elimination Schemes.
Inductive Json : Type :=
| JNull
| JBool (b : bool)
| JNumber (n : Number)
| JString (s : string)
| JArray (items : list Json)
| JObject (fields : list (string * Json)).
Set Elimination Schemes.

(** Induction through arrays and objects. *)
Definition Json_ind (P : Json -> Prop)
    (Hnull : P JNull) (Hbool : forall b, P (JBool b)) (Hnum : forall n, P (JNumber n))
    (Hstr : forall s, P (JString s))
    (Harr : forall l, Forall P l -> P (JArray l))
    (Hobj : forall m, Forall (fun kv => P (snd kv)) m -> P (JObject m)) :
    forall j, P j :=
  fix go (j : Json) : P j :=
    match j with
    | JNull => Hnull
    | JBool b => Hbool b
    | JNumber n => Hnum n
    | JString s => Hstr s
    | JArray l =>
        Harr l ((fix gol (l : list Json) : Forall P l :=
                   match l with
                   | [] => Forall_nil_2 _
                   | x :: l' => Forall_cons_2 _ x l' (go x) (gol l')
                   end) l)
    | JObject m =>
        Hobj m ((fix gom (m : list (string * Json)) : Forall (fun kv => P (snd kv)) m :=
                   match m with
                   | [] => Forall_nil_2 _
                   | kv :: m' => Forall_cons_2 _ kv m' (go (snd kv)) (gom m')
                   end) m)
    end.

(** ** The accessors of [Value] *)

Fixpoint map_get (key : string) (m : list (string * Json)) : option Json :=
  match m with
  | [] => None
  | (k, v) :: m' => if String.eqb k key then Some v else map_get key m'
  end.

(** [BTreeMap::insert]: replaces the value of a present key, keeps key order. *)
Fixpoint map_insert (key : string) (v : Json) (m : list (string * Json)) : list (string * Json) :=
  match m with
  | [] => [(key, v)]
  | (k, w) :: m' =>
      match String.compare key k with
      | Eq => (key, v) :: m'
      | Lt => (key, v) :: (k, w) :: m'
      | Gt => (k, w) :: map_insert key v m'
      end
  end.

(** [json!({...})] and [collect::<Map<_, _>>()]: the entries inserted in turn. *)
Definition map_of_list (l : list (string * Json)) : list (string * Json) :=
  fold_left (fun m kv => map_insert (fst kv) (snd kv) m) l [].

Definition json_object (l : list (string * Json)) : Json := JObject (map_of_list l).

(** [Value::get]: [None] on anything but an object. *)
Definition get (j : Json) (key : string) : option Json :=
  match j with JObject m => map_get key m | _ => None end.

Definition as_str (j : Json) : option string :=
  match j with JString s => Some s | _ => None end.
Definition as_array (j : Json) : option (list Json) :=
  match j with JArray l => Some l | _ => None end.
Definition as_object (j : Json) : option (list (string * Json)) :=
  match j with JObject m => Some m | _ => None end.
Definition as_bool (j : Json) : option bool :=
  match j with JBool b => Some b | _ => None end.
Definition as_u64 (j : Json) : option N :=
  match j with JNumber (PosInt n) => Some n | _ => None end.
Definition as_i64 (j : Json) : option Z :=
  match j with
  | JNumber (PosInt n) => if (Z.of_N n <=? i64_max)%Z then Some (Z.of_N n) else None
  | JNumber (NegInt z) => Some z
  | _ => None
  end.
Definition is_null (j : Json) : bool := match j with JNull => true | _ => false end.
Definition is_object (j : Json) : bool := match j with JObject _ => true | _ => false end.

Definition get_str (j : Json) (key : string) : option string := get j key ≫= as_str.
Definition get_array (j : Json) (key : string) : option (list Json) := get j key ≫= as_array.

Definition number_to_string (n : Number) : string :=
  match n with
  | PosInt n => show_N n
  | NegInt z => show_Z z
  | Float text => text
  end.

(** [Display for Value], the compact JSON text. [serde_json] is not part of the
    sources: the text of a value is an argument of the model. *)
Class JsonDisplay := { json_to_string : Json -> string }.

(** A rendering concrete runs use: scalars as [serde_json] prints them. *)
Definition scalar_display : JsonDisplay := {|
  json_to_string j :=
    match j with
    | JNull => "null"
    | JBool b => if b then "true" else "false"
    | JNumber n => number_to_string n
    | JString s => dq ++ s ++ dq
    | JArray _ => "[...]"
    | JObject _ => "{...}"
    end
|}.

(** ** Depth, the measure of every recursion over a request *)

Fixpoint json_depth (j : Json) : nat :=
  match j with
  | JArray l => S ((fix go l := match l with [] => 0 | x :: l' => Nat.max (json_depth x) (go l') end) l)
  | JObject m =>
      S ((fix go m := match m with [] => 0 | kv :: m' => Nat.max (json_depth (snd kv)) (go m') end) m)
  | _ => 1
  end.

(** [x] occurs somewhere below the root of a tree. *)
Definition shallower (x j : Json) : Prop := json_depth x < json_depth j.

Lemma array_item_shallower l x : x ∈ l -> shallower x (JArray l).
Proof.
  unfold shallower. cbn [json_depth]. induction l as [|y l IH]; intros Hin; [by apply elem_of_nil in Hin|].
  apply elem_of_cons in Hin as [->|Hin]; [lia|]. specialize (IH Hin). lia.
Qed.

Lemma map_get_elem key m v : map_get key m = Some v -> (key, v) ∈ m.
Proof.
  induction m as [|[k w] m IH]; cbn; [done|]. destruct (String.eqb_spec k key); intros H.
  - simplify_eq. by left.
  - right. auto.
Qed.

Lemma object_field_shallower m key v : map_get key m = Some v -> shallower v (JObject m).
Proof.
  unfold shallower. cbn [json_depth]. induction m as [|[k w] m IH]; cbn; [done|].
  destruct (String.eqb_spec k key); intros H; simplify_eq; [lia|]. specialize (IH H). lia.
Qed.

Lemma object_member_shallower m key v : (key, v) ∈ m -> shallower v (JObject m).
Proof.
  unfold shallower. cbn [json_depth]. induction m as [|[k w] m IH]; intros Hin; [by apply elem_of_nil in Hin|].
  apply elem_of_cons in Hin as [[= <- <-]|Hin]; cbn [snd]; [lia|]. specialize (IH Hin). lia.
Qed.

Lemma get_shallower j key v : get j key = Some v -> shallower v j.
Proof. destruct j; cbn; try done. apply object_field_shallower. Qed.

Lemma get_array_shallower j key l x : get_array j key = Some l -> x ∈ l -> shallower x j.
Proof.
  unfold get_array. destruct (get j key) as [v|] eqn:E; [|done]. cbn.
  destruct v; try done. cbn. intros [= ->] Hin.
  apply get_shallower in E. apply array_item_shallower in Hin. unfold shallower in *. lia.
Qed.

(** ** Laws of the sorted map *)

Lemma map_get_insert key v m key' :
  map_get key' (map_insert key v m) = if String.eqb key key' then Some v else map_get key' m.
Proof.
  induction m as [|[k w] m IH]; [done|]. cbn [map_insert].
  destruct (String.compare key k) eqn:E; cbn [map_get].
  - apply String.compare_eq_iff in E as <-. by destruct (String.eqb key key').
  - done.
  - rewrite IH. destruct (String.eqb_spec k key'), (String.eqb_spec key key'); try done; subst.
    by rewrite string_compare_refl in E.
Qed.

#[export] Hint Resolve get_shallower get_array_shallower : json.
