(* ===== verification/Serde.v ===== *)
(** What the derived serde code of the crates reads and writes: integers at their
    width, unit variants, the fields of a struct, and the round trips of each. *)

From stdpp Require Import base list strings numbers.
From Stdlib Require Import Ascii String ZArith NArith Lia.
From S2P Require Import Prelude Json.

Local Open Scope string_scope.

Definition from_u64 (j : Json) : option N :=
  match j with JNumber (PosInt n) => if (n <=? Z.to_N u64_max)%N then Some n else None | _ => None end.

(** A signed integer of [bits] bits. *)
Definition from_signed (bits : Z) (j : Json) : option Z :=
  z ← match j with JNumber (PosInt n) => Some (Z.of_N n) | JNumber (NegInt z) => Some z | _ => None end;
  if ((- 2 ^ (bits - 1) <=? z) && (z <? 2 ^ (bits - 1)))%Z then Some z else None.

Definition to_signed (z : Z) : Json := JNumber (if (z <? 0)%Z then NegInt z else PosInt (Z.to_N z)).
Definition to_u64 (n : N) : Json := JNumber (PosInt n).

(** A unit variant: its name, or an object of its name and [null]. *)
Definition from_unit_variant {A} (variants : list (string * A)) (j : Json) : option A :=
  name ← match j with JString s => Some s | JObject [(s, JNull)] => Some s | _ => None end;
  snd <$> List.find (fun '(n, _) => String.eqb n name) variants.

(** A derived struct reads from an object, or from an array of its leading fields
    in declaration order. *)
Definition struct_fields (names : list string) (j : Json) : option (list (string * Json)) :=
  match j with
  | JObject f => Some f
  | JArray l => if (List.length l <=? List.length names)%nat then Some (zip names l) else None
  | _ => None
  end.

(** A struct field by its key: [None] when the key is repeated, which serde refuses;
    [Some None] when it is missing. *)
Definition field (key : string) (fields : list (string * Json)) : option (option Json) :=
  match List.filter (fun kv => String.eqb kv.1 key) fields with
  | [] => Some None
  | [(_, v)] => Some (Some v)
  | _ => None
  end.

Definition required {A} (key : string) (from : Json -> option A) (fields : list (string * Json)) : option A :=
  v ← field key fields; j ← v; from j.

(** [#[serde(default)]] of an [Option]: missing and [null] are [None]. *)
Definition optional {A} (key : string) (from : Json -> option A) (fields : list (string * Json)) : option (option A) :=
  v ← field key fields;
  match v with
  | None | Some JNull => Some None
  | Some j => a ← from j; Some (Some a)
  end.

(** [skip_serializing_if = "Option::is_none"]. *)
Definition skip_none {A} (key : string) (to : A -> Json) (o : option A) : list (string * Json) :=
  match o with None => [] | Some a => [(key, to a)] end.

(** [skip_serializing_if = "Vec::is_empty"] and its [default]. *)
Definition skip_empty {A} (key : string) (to : A -> Json) (l : list A) : list (string * Json) :=
  match l with [] => [] | _ => [(key, JArray (map to l))] end.

Definition from_list {A} (from : Json -> option A) (j : Json) : option (list A) :=
  l ← as_array j; mapM from l.

Definition defaulted {A} (key : string) (absent : A) (from : Json -> option A) (fields : list (string * Json)) : option A :=
  v ← field key fields; match v with None => Some absent | Some j => from j end.

(** ** Round trips *)

Definition u64_ok (n : N) : Prop := (n <= Z.to_N u64_max)%N.
Definition signed_ok (bits z : Z) : Prop := (- 2 ^ (bits - 1) <= z < 2 ^ (bits - 1))%Z.

Lemma u64_roundtrip n : u64_ok n -> from_u64 (to_u64 n) = Some n.
Proof. intros H. unfold from_u64, to_u64. by apply N.leb_le in H as ->. Qed.

Lemma signed_roundtrip bits z : signed_ok bits z -> from_signed bits (to_signed z) = Some z.
Proof.
  intros [H1 H2]. unfold from_signed, to_signed.
  destruct (Z.ltb_spec z 0); cbn [mbind option_bind]; rewrite ?Z2N.id by lia;
    apply Z.leb_le in H1 as ->; by apply Z.ltb_lt in H2 as ->.
Qed.

Lemma mapM_roundtrip {A B} (to : A -> B) (from : B -> option A) l :
  Forall (fun a => from (to a) = Some a) l -> mapM from (map to l) = Some l.
Proof. induction 1 as [|a l Ha _ IH]; [done|]. cbn. rewrite Ha. cbn. by rewrite IH. Qed.

(** Only lists of readable items are written and read back. *)
Lemma from_list_roundtrip {A} (to : A -> Json) (from : Json -> option A) l :
  Forall (fun a => from (to a) = Some a) l -> from_list from (JArray (map to l)) = Some l.
Proof. intros H. unfold from_list. cbn. by apply mapM_roundtrip. Qed.
