(* ===== verification/ExasolType.v ===== *)
(** crates/vs-expression/src/exasol_type.rs: the Exasol SQL type the adapter
    declares, emits and casts to, its SQL spelling ([Display]) and its
    [dataType] JSON in both directions. *)

From stdpp Require Import base list strings numbers.
From Stdlib Require Import Ascii String DecimalString.
From S2P Require Import Prelude Json.

Local Open Scope string_scope.
Local Open Scope N_scope.

Definition MAX_VARCHAR_SIZE : N := 2000000.
Definition MAX_CHAR_SIZE : N := 2000.
Definition MAX_DECIMAL_PRECISION : N := 36.
Definition MAX_FRACTIONAL_DIGITS : N := 9.
Definition MAX_INTERVAL_PRECISION : N := 9.
Definition MAX_HASHTYPE_BYTES : N := 1024.
Definition BARE_TIMESTAMP_PRECISION : N := 3.
Definition U8_MAX : N := 255.
Definition U32_MAX : N := 4294967295.

(** Fields are [u8]. *)
Record Decimal : Type := MkDecimal { precision : N; scale : N }.

#[export] Instance Decimal_eq_dec : EqDecision Decimal.
Proof. solve_decision. Defined.

Definition Decimal_new (p s : N) : option Decimal :=
  if (1 <=? p) && (p <=? MAX_DECIMAL_PRECISION) && (s <=? p) then Some (MkDecimal p s) else None.

(** Precisions and fractions are [u8], sizes, bytes and the SRID [u32]. *)
Inductive ExasolType : Type :=
| Boolean
| DecimalT (d : Decimal)
| DoublePrecision
| Date
| Timestamp (precision : N)
| TimestampWithLocalTimeZone (precision : N)
| Char (size : N) (ascii : bool)
| Varchar (size : N) (ascii : bool)
| IntervalYearToMonth (precision : N)
| IntervalDayToSecond (precision fraction : N)
| Geometry (srid : N)
| Hashtype (bytes : N).

#[export] Instance ExasolType_eq_dec : EqDecision ExasolType.
Proof. solve_decision. Defined.

Definition WIDEST_VARCHAR : ExasolType := Varchar MAX_VARCHAR_SIZE false.
Definition BARE_TIMESTAMP : ExasolType := Timestamp BARE_TIMESTAMP_PRECISION.

Definition is_character (t : ExasolType) : bool :=
  match t with Char _ _ | Varchar _ _ => true | _ => false end.

Definition is_decimal (t : ExasolType) : bool :=
  match t with DecimalT _ => true | _ => false end.

Definition fractional_digits (t : ExasolType) : option N :=
  match t with Timestamp p => Some p | _ => None end.

Definition is_udf_emittable (t : ExasolType) : bool :=
  match t with
  | TimestampWithLocalTimeZone _ | IntervalYearToMonth _ | IntervalDayToSecond _ _
  | Geometry _ | Hashtype _ => false
  | _ => true
  end.

(** ** The SQL spelling *)

Definition timestamp_precision_suffix (p : N) : string :=
  if p =? BARE_TIMESTAMP_PRECISION then "" else "(" ++ show_N p ++ ")".

Definition character_set_suffix (ascii : bool) : string := if ascii then " ASCII" else "".

Definition display (t : ExasolType) : string :=
  match t with
  | Boolean => "BOOLEAN"
  | DecimalT d => "DECIMAL(" ++ show_N (precision d) ++ "," ++ show_N (scale d) ++ ")"
  | DoublePrecision => "DOUBLE PRECISION"
  | Date => "DATE"
  | Timestamp p => "TIMESTAMP" ++ timestamp_precision_suffix p
  | TimestampWithLocalTimeZone p =>
      "TIMESTAMP" ++ timestamp_precision_suffix p ++ " WITH LOCAL TIME ZONE"
  | Char n a => "CHAR(" ++ show_N n ++ ")" ++ character_set_suffix a
  | Varchar n a => "VARCHAR(" ++ show_N n ++ ")" ++ character_set_suffix a
  | IntervalYearToMonth p => "INTERVAL YEAR(" ++ show_N p ++ ") TO MONTH"
  | IntervalDayToSecond p f =>
      "INTERVAL DAY(" ++ show_N p ++ ") TO SECOND(" ++ show_N f ++ ")"
  | Geometry srid => "GEOMETRY(" ++ show_N srid ++ ")"
  | Hashtype bytes => "HASHTYPE(" ++ show_N bytes ++ " BYTE)"
  end.

(** ** To JSON *)

Definition jnat (n : N) : Json := JNumber (PosInt n).

Definition timestamp_json (p : N) (with_local_time_zone : bool) : Json :=
  let m := map_of_list [("type", JString "timestamp")] in
  let m := if with_local_time_zone then map_insert "withLocalTimeZone" (JBool true) m else m in
  let m := if negb (p =? BARE_TIMESTAMP_PRECISION)
           then map_insert "fractionalSecondsPrecision" (jnat p) m else m in
  JObject m.

Definition character_json (type_name : string) (size : N) (ascii : bool) : Json :=
  let m := map_of_list [("type", JString type_name); ("size", jnat size)] in
  JObject (if ascii then map_insert "characterSet" (JString "ASCII") m else m).

Definition exasol_type_to_json (t : ExasolType) : Json :=
  match t with
  | Boolean => json_object [("type", JString "boolean")]
  | DecimalT d =>
      json_object [("type", JString "decimal"); ("precision", jnat (precision d));
                   ("scale", jnat (scale d))]
  | DoublePrecision => json_object [("type", JString "double")]
  | Date => json_object [("type", JString "date")]
  | Timestamp p => timestamp_json p false
  | TimestampWithLocalTimeZone p => timestamp_json p true
  | Char n a => character_json "char" n a
  | Varchar n a => character_json "varchar" n a
  | IntervalYearToMonth p =>
      json_object [("type", JString "interval"); ("fromTo", JString "YEAR TO MONTH");
                   ("precision", jnat p)]
  | IntervalDayToSecond p f =>
      json_object [("type", JString "interval"); ("fromTo", JString "DAY TO SECONDS");
                   ("precision", jnat p); ("fraction", jnat f)]
  | Geometry srid => json_object [("type", JString "geometry"); ("srid", jnat srid)]
  | Hashtype bytes => json_object [("type", JString "hashtype"); ("bytesize", jnat bytes)]
  end.

(** ** From JSON *)

Section FromJson.
Context {JD : JsonDisplay}.

Definition invalid (dt : Json) (constraint : string) : UdfError :=
  User ("invalid Exasol dataType " ++ json_to_string dt ++ ": " ++ constraint).

(** [tmax] is the largest value of the field's machine type [T]. *)
Definition bounded_field (dt : Json) (key : string) (min max tmax : N) : result UdfError N :=
  ok_or
    (v ← get dt key ≫= as_u64;
     v ← (if (min <=? v) && (v <=? max) then Some v else None);
     if v <=? tmax then Some v else None)
    (invalid dt ("`" ++ key ++ "` must be an integer from " ++ show_N min ++ " to " ++ show_N max)).

Definition ascii_character_set (dt : Json) : result UdfError bool :=
  match option_map as_str (get dt "characterSet") with
  | None => Ok false
  | Some (Some set) =>
      if eq_ignore_ascii_case set "UTF8" then Ok false
      else if eq_ignore_ascii_case set "ASCII" then Ok true
      else Err (invalid dt "`characterSet` must be UTF8 or ASCII")
  | Some None => Err (invalid dt "`characterSet` must be UTF8 or ASCII")
  end.

Definition decimal_from_json (dt : Json) : result UdfError ExasolType :=
  let? p := bounded_field dt "precision" 1 MAX_DECIMAL_PRECISION U8_MAX in
  let? s := bounded_field dt "scale" 0 MAX_DECIMAL_PRECISION U8_MAX in
  ok_or (DecimalT <$> Decimal_new p s)
    (invalid dt "DECIMAL needs a precision from 1 to 36 and a scale from 0 to the precision").

Definition timestamp_from_json (dt : Json) : result UdfError ExasolType :=
  let? p :=
    match get dt "fractionalSecondsPrecision" with
    | None => Ok BARE_TIMESTAMP_PRECISION
    | Some _ => bounded_field dt "fractionalSecondsPrecision" 0 MAX_FRACTIONAL_DIGITS U8_MAX
    end in
  match get dt "withLocalTimeZone" with
  | None | Some (JBool false) => Ok (Timestamp p)
  | Some (JBool true) => Ok (TimestampWithLocalTimeZone p)
  | Some _ => Err (invalid dt "`withLocalTimeZone` must be a boolean")
  end.

Definition interval_from_json (dt : Json) : result UdfError ExasolType :=
  let? p := bounded_field dt "precision" 1 MAX_INTERVAL_PRECISION U8_MAX in
  match get_str dt "fromTo" with
  | Some from_to =>
      if String.eqb from_to "YEAR TO MONTH" then Ok (IntervalYearToMonth p)
      else if String.eqb from_to "DAY TO SECONDS" then
        let? f := bounded_field dt "fraction" 0 MAX_FRACTIONAL_DIGITS U8_MAX in
        Ok (IntervalDayToSecond p f)
      else Err (invalid dt "`fromTo` must be YEAR TO MONTH or DAY TO SECONDS")
  | None => Err (invalid dt "`fromTo` must be YEAR TO MONTH or DAY TO SECONDS")
  end.

Definition exasol_type_from_json (dt : Json) : result UdfError ExasolType :=
  let? type_name := ok_or (get_str dt "type") (invalid dt "`type` must name an Exasol type") in
  let n := to_ascii_lowercase type_name in
  if String.eqb n "boolean" then Ok Boolean
  else if String.eqb n "decimal" then decimal_from_json dt
  else if String.eqb n "double" then Ok DoublePrecision
  else if String.eqb n "date" then Ok Date
  else if String.eqb n "timestamp" then timestamp_from_json dt
  else if String.eqb n "char" then
    let? size := bounded_field dt "size" 1 MAX_CHAR_SIZE U32_MAX in
    let? a := ascii_character_set dt in
    Ok (Char size a)
  else if String.eqb n "varchar" then
    let? size := bounded_field dt "size" 1 MAX_VARCHAR_SIZE U32_MAX in
    let? a := ascii_character_set dt in
    Ok (Varchar size a)
  else if String.eqb n "interval" then interval_from_json dt
  else if String.eqb n "geometry" then
    let? srid := bounded_field dt "srid" 0 U32_MAX U32_MAX in Ok (Geometry srid)
  else if String.eqb n "hashtype" then
    let? bytes := bounded_field dt "bytesize" 1 MAX_HASHTYPE_BYTES U32_MAX in Ok (Hashtype bytes)
  else Err (invalid dt "`type` names no type Exasol defines").

End FromJson.

(** ** Specification

    Exasol's own limits, as the documentation of the constants states them. *)
Definition exasol_accepts (t : ExasolType) : Prop :=
  match t with
  | Boolean | DoublePrecision | Date => True
  | DecimalT d => 1 <= precision d <= 36 /\ scale d <= precision d
  | Timestamp p | TimestampWithLocalTimeZone p => p <= 9
  | Char n _ => 1 <= n <= 2000
  | Varchar n _ => 1 <= n <= 2000000
  | IntervalYearToMonth p => 1 <= p <= 9
  | IntervalDayToSecond p f => 1 <= p <= 9 /\ f <= 9
  | Geometry srid => srid < 2 ^ 32
  | Hashtype b => 1 <= b <= 1024
  end.

Section Facts.
Context {JD : JsonDisplay}.

Lemma bounded_field_ok dt key min max tmax v :
  bounded_field dt key min max tmax = Ok v <->
  get dt key ≫= as_u64 = Some v /\ min <= v <= max /\ v <= tmax.
Proof.
  unfold bounded_field. destruct (get dt key ≫= as_u64) as [w|]; cbn; [|naive_solver].
  destruct (N.leb_spec min w), (N.leb_spec w max); cbn; try naive_solver lia.
  destruct (N.leb_spec w tmax); cbn; naive_solver lia.
Qed.

Lemma bounded_field_present dt key min max tmax v :
  get dt key = Some (jnat v) -> min <= v <= max -> max <= tmax ->
  bounded_field dt key min max tmax = Ok v.
Proof. intros Hk Hv Hm. apply bounded_field_ok. rewrite Hk. cbn. split; [done|lia]. Qed.

Lemma bounded_field_in_range dt key min max tmax v :
  bounded_field dt key min max tmax = Ok v -> min <= v <= max.
Proof. rewrite bounded_field_ok. naive_solver. Qed.

Lemma decimal_new_valid p s d :
  Decimal_new p s = Some d -> 1 <= precision d <= 36 /\ scale d <= precision d.
Proof.
  unfold Decimal_new, MAX_DECIMAL_PRECISION.
  destruct (N.leb_spec 1 p), (N.leb_spec p 36), (N.leb_spec s p); cbn; naive_solver.
Qed.

End Facts.

(** Two numbers printed before a non-digit agree. *)
Ltac same_number :=
  match goal with
  | E : show_N ?n ++ ?a = show_N ?m ++ ?b |- _ =>
      let En := fresh "En" in let Er := fresh "Er" in
      apply show_N_delimited in E as [En Er]; [|done|done]; subst; simplify_eq
  end.

(** Reads a field of an object whose keys are literals, and decides which
    literal type name it carries. *)
Ltac eval_field :=
  match goal with
  | |- context [get ?j ?k] => let r := eval vm_compute in (get j k) in change (get j k) with r
  | |- context [get_str ?j ?k] =>
      let r := eval vm_compute in (get_str j k) in change (get_str j k) with r
  | |- context [to_ascii_lowercase ?s] =>
      let r := eval vm_compute in (to_ascii_lowercase s) in change (to_ascii_lowercase s) with r
  | |- context [bounded_field ?dt ?k ?a ?b ?c] =>
      let r := eval vm_compute in (get dt k) in
      match r with
      | Some (JNumber (PosInt ?n)) =>
          rewrite (bounded_field_present dt k a b c n); [|reflexivity|lia|lia]
      end
  end; cbn [ok_or String.eqb Ascii.eqb Bool.eqb option_map as_str].

(** Reading back the [dataType] JSON the adapter writes for a type Exasol
    accepts yields that type. *)
Theorem exasol_type_json_roundtrip {JD : JsonDisplay} t :
  exasol_accepts t -> exasol_type_from_json (exasol_type_to_json t) = Ok t.
Proof.
  intros Ht. destruct t as [|[p s]| | |q|q|n a|n a|p|p f|n|n]; cbn [exasol_accepts precision scale] in Ht;
    unfold exasol_type_to_json, timestamp_json, character_json, exasol_type_from_json,
      decimal_from_json, timestamp_from_json, interval_from_json, ascii_character_set,
      MAX_VARCHAR_SIZE, MAX_CHAR_SIZE, MAX_DECIMAL_PRECISION, MAX_FRACTIONAL_DIGITS,
      MAX_INTERVAL_PRECISION, MAX_HASHTYPE_BYTES, U8_MAX, U32_MAX in *;
    try destruct a; try destruct (N.eqb_spec q BARE_TIMESTAMP_PRECISION) as [->|]; cbn [negb precision scale];
    repeat eval_field; try reflexivity.
  unfold Decimal_new, MAX_DECIMAL_PRECISION. destruct Ht.
  by rewrite !(proj2 (N.leb_le _ _)) by lia.
Qed.

(** Whatever [dataType] JSON a request carries, the type read from it is one
    Exasol accepts: no consumer ever holds a type outside Exasol's limits. *)
Theorem exasol_type_from_json_accepted {JD : JsonDisplay} dt t :
  exasol_type_from_json dt = Ok t -> exasol_accepts t.
Proof.
  unfold exasol_type_from_json, decimal_from_json, timestamp_from_json, interval_from_json.
  intros E. destruct (get_str dt "type") as [n|]; [|done]. cbn [ok_or] in E.
  repeat first
    [ progress simplify_eq/=
    | match goal with
      | E : bounded_field _ _ _ _ _ = Ok _ |- _ => apply bounded_field_in_range in E
      | E : ok_or (DecimalT <$> Decimal_new ?p ?s) _ = Ok _ |- _ =>
          destruct (Decimal_new p s) eqn:?; [|done]
      | E : Decimal_new _ _ = Some _ |- _ => apply decimal_new_valid in E
      | E : context [match ?x with _ => _ end] |- _ => destruct x eqn:?
      end ];
    unfold MAX_VARCHAR_SIZE, MAX_CHAR_SIZE, MAX_DECIMAL_PRECISION, MAX_FRACTIONAL_DIGITS,
      MAX_INTERVAL_PRECISION, MAX_HASHTYPE_BYTES, BARE_TIMESTAMP_PRECISION, U32_MAX in *; try done; lia.
Qed.

(** The SQL spelling determines the type: no two types render alike, so a
    type written into [EMITS] or a [CAST] is read back by Exasol as declared. *)
Theorem display_injective t1 t2 : display t1 = display t2 -> t1 = t2.
Proof.
  destruct t1 as [|[p s]| | |p|p|n a|n a|p|p f|n|n], t2 as [|[p' s']| | |p'|p'|n' a'|n' a'|p'|p' f'|n'|n'];
    cbn; unfold timestamp_precision_suffix, character_set_suffix;
    try destruct a; try destruct a';
    repeat match goal with |- context [N.eqb ?p ?q] => destruct (N.eqb_spec p q) end;
    subst; intros E; try discriminate E; rewrite ?string_app_assoc in E;
    repeat first [done | apply string_app_inv_l in E | same_number].
Qed.

Lemma exasol_type_json_roundtrip_witness :
  exasol_type_from_json (JD := scalar_display)
    (exasol_type_to_json (DecimalT (MkDecimal 18 4))) = Ok (DecimalT (MkDecimal 18 4)).
Proof. apply (exasol_type_json_roundtrip (JD := scalar_display)). cbn. lia. Defined.

Lemma exasol_type_from_json_accepted_witness : exasol_accepts (Char 2000 true).
Proof.
  apply (exasol_type_from_json_accepted (JD := scalar_display)
    (json_object [("type", JString "CHAR"); ("size", jnat 2000); ("characterSet", JString "ascii")])).
  reflexivity.
Defined.

Lemma display_injective_witness : Timestamp 3 = BARE_TIMESTAMP.
Proof. apply display_injective. reflexivity. Defined.
