(* ===== verification/DatetimeFormat.v ===== *)
(** crates/vs-expression/src/datetime_format.rs: Exasol format models translated
    to strftime patterns. *)

From stdpp Require Import base list strings numbers sets.
From Stdlib Require Import Ascii String.
From S2P Require Import Prelude Text.

Local Open Scope string_scope.

Inductive FormatTarget := FDate | FTimestamp.

(** The alternatives of the regular expression
    [(?i-u)\.?FF[369]|HH24|YYYY|MM|MI|DD|SS|[-/.,;:_ ]] in the order the
    leftmost-first search tries them, in upper case. *)
Definition PARTS : list string :=
  [".FF3"; ".FF6"; ".FF9"; "FF3"; "FF6"; "FF9"; "HH24"; "YYYY"; "MM"; "MI"; "DD"; "SS";
   "-"; "/"; "."; ","; ";"; ":"; "_"; " "].

(** [s] without a prefix that equals [tok] up to ASCII case. *)
Fixpoint strip_ci (tok s : string) : option string :=
  match tok, s with
  | EmptyString, _ => Some s
  | String a tok', String b s' => if Ascii.eqb a (ascii_upper b) then strip_ci tok' s' else None
  | _, EmptyString => None
  end.

(** The match of [PARTS] at the start of [s], upper-cased, and what follows. *)
Fixpoint first_part (toks : list string) (s : string) : option (string * string) :=
  match toks with
  | [] => None
  | tok :: toks' =>
      match strip_ci tok s with Some rest => Some (tok, rest) | None => first_part toks' s end
  end.

Definition strftime_part (part : string) : string :=
  if String.eqb part ".FF3" then "%.3f"
  else if String.eqb part ".FF6" then "%.6f"
  else if String.eqb part ".FF9" then "%.9f"
  else if String.eqb part "FF3" then "%3f"
  else if String.eqb part "FF6" then "%6f"
  else if String.eqb part "FF9" then "%9f"
  else if String.eqb part "HH24" then "%H"
  else if String.eqb part "YYYY" then "%Y"
  else if String.eqb part "MM" then "%m"
  else if String.eqb part "MI" then "%M"
  else if String.eqb part "DD" then "%d"
  else if String.eqb part "SS" then "%S"
  else part.

Record PartCounts : Type := MkCounts {
  year : nat; month : nat; day : nat; hour : nat; minute : nat; second : nat; fraction : nat }.

Definition no_parts : PartCounts := MkCounts 0 0 0 0 0 0 0.

(** [str::contains]. *)
Fixpoint contains (needle s : string) : bool :=
  String.prefix needle s ||
  match s with EmptyString => false | String _ s' => contains needle s' end.

Definition add (c : PartCounts) (part : string) : PartCounts :=
  let '(MkCounts y mo d h mi se fr) := c in
  if String.eqb part "YYYY" then MkCounts (S y) mo d h mi se fr
  else if String.eqb part "MM" then MkCounts y (S mo) d h mi se fr
  else if String.eqb part "DD" then MkCounts y mo (S d) h mi se fr
  else if String.eqb part "HH24" then MkCounts y mo d (S h) mi se fr
  else if String.eqb part "MI" then MkCounts y mo d h (S mi) se fr
  else if String.eqb part "SS" then MkCounts y mo d h mi (S se) fr
  else if contains "FF" part then MkCounts y mo d h mi se (S fr)
  else c.

Definition is_supported (c : PartCounts) (target : FormatTarget) : bool :=
  let date_parts :=
    match year c, month c, day c with 1, 1, 1 => true | _, _, _ => false end in
  let time_supported :=
    match target, hour c, minute c, second c, fraction c with
    | FDate, 0, 0, 0, 0 => true
    | FTimestamp, 0, 0, 0, 0 => true
    | FTimestamp, 1, 1, 0, 0 => true
    | FTimestamp, 1, 1, 1, (0 | 1) => true
    | _, _, _, _, _ => false
    end in
  date_parts && time_supported.

(** The loop over [PARTS.find_iter(format)]. A part that does not start where the
    previous one ended, and text left after the last part, both decline, so the
    loop is a scan that stops at the first position where no part starts. *)
Fixpoint scan_parts (fuel : nat) (s pattern : string) (c : PartCounts)
    : option (string * PartCounts) :=
  match s, fuel with
  | EmptyString, _ => Some (pattern, c)
  | _, 0 => None
  | _, S fuel' =>
      match first_part PARTS s with
      | None => None
      | Some (part, rest) => scan_parts fuel' rest (pattern ++ strftime_part part) (add c part)
      end
  end.

Definition strftime_pattern (format : string) (target : FormatTarget) : option string :=
  match scan_parts (String.length format) format "" no_parts with
  | Some (pattern, c) => if is_supported c target then Some pattern else None
  | None => None
  end.

(** ** Specification *)

Definition concat_parts : list string -> string := foldr String.append "".
Definition count_parts (l : list string) : PartCounts := fold_left add l no_parts.

Lemma ascii_upper_idem c : ascii_upper (ascii_upper c) = ascii_upper c.
Proof. by destruct c as [[] [] [] [] [] [] [] []]. Qed.

Lemma strip_ci_sound tok s rest :
  strip_ci tok s = Some rest ->
  to_ascii_uppercase s = tok ++ to_ascii_uppercase rest
  /\ String.length s = String.length tok + String.length rest.
Proof.
  revert s. induction tok as [|a tok IH]; intros s; cbn; [by intros [= ->]|].
  destruct s as [|b s]; [done|]. destruct (Ascii.eqb_spec a (ascii_upper b)); [|done].
  intros [E1 E2]%IH. rewrite string_app_cons. split; [|simpl; lia].
  cbn. by rewrite E1, e.
Qed.

Lemma first_part_sound toks s tok rest :
  first_part toks s = Some (tok, rest) -> tok ∈ toks /\ strip_ci tok s = Some rest.
Proof.
  induction toks as [|t toks IH]; cbn; [done|].
  destruct (strip_ci t s) eqn:E; [intros [= <- <-]; split; [left|done]|].
  intros [??]%IH. split; [by right|done].
Qed.

Lemma scan_parts_sound fuel s pat c pat' c' :
  scan_parts fuel s pat c = Some (pat', c') ->
  exists parts, Forall (.∈ PARTS) parts /\ to_ascii_uppercase s = concat_parts parts
    /\ pat' = pat ++ concat_parts (map strftime_part parts) /\ c' = fold_left add parts c.
Proof.
  revert s pat c. induction fuel as [|fuel IH]; intros [|b s] pat c; cbn [scan_parts]; intros E;
    simplify_eq; try (exists []; by rewrite string_app_nil_r).
  destruct (first_part PARTS (String b s)) as [[tok rest]|] eqn:Ef; [|done].
  apply first_part_sound in Ef as [Hin [Hs _]%strip_ci_sound].
  apply IH in E as (parts & Hp & Hr & -> & ->). exists (tok :: parts).
  repeat split; [by constructor|by rewrite Hs, Hr|by rewrite string_app_assoc].
Qed.

(** The scan reads its input up to ASCII case. *)
Lemma strip_ci_upper tok s :
  strip_ci tok (to_ascii_uppercase s) = option_map to_ascii_uppercase (strip_ci tok s).
Proof.
  revert s. induction tok as [|a tok IH]; intros [|b s]; try done.
  cbn. rewrite ascii_upper_idem. by destruct (Ascii.eqb a (ascii_upper b)).
Qed.

Lemma first_part_upper toks s :
  first_part toks (to_ascii_uppercase s) =
  option_map (fun '(t, r) => (t, to_ascii_uppercase r)) (first_part toks s).
Proof.
  induction toks as [|t toks IH]; [done|]. cbn. rewrite strip_ci_upper.
  by destruct (strip_ci t s).
Qed.

Lemma scan_parts_upper fuel s pat c :
  scan_parts fuel (to_ascii_uppercase s) pat c = scan_parts fuel s pat c.
Proof.
  revert s pat c. induction fuel as [|fuel IH]; intros [|b s] pat c; try done.
  change (to_ascii_uppercase (String b s)) with (String (ascii_upper b) (to_ascii_uppercase s)).
  cbn [scan_parts]. change (String (ascii_upper b) _) with (to_ascii_uppercase (String b s)).
  rewrite first_part_upper. by destruct (first_part PARTS (String b s)) as [[t r]|]; cbn.
Qed.

Lemma strip_ci_exact tok u r :
  to_ascii_uppercase u = u -> strip_ci tok u = Some r -> u = tok ++ r /\ to_ascii_uppercase r = r.
Proof.
  intros Hu Hr. pose proof (strip_ci_upper tok u) as H. rewrite Hu, Hr in H. cbn in H.
  injection H as H. apply strip_ci_sound in Hr as [Hr _]. by rewrite Hu, <- H in Hr.
Qed.

(** The next part of an upper-case text that splits into parts: the head of the
    split, or the fraction a leading [.] belongs to. *)
Lemma first_part_complete tok u :
  tok ∈ PARTS -> to_ascii_uppercase u = u ->
  first_part PARTS (tok ++ u) = Some (tok, u)
  \/ exists ff u', ff ∈ ["FF3"; "FF6"; "FF9"] /\ tok = "." /\ u = ff ++ u'
       /\ first_part PARTS (tok ++ u) = Some ("." ++ ff, u').
Proof.
  unfold PARTS. rewrite !elem_of_cons, elem_of_nil.
  intros H Hu. destruct_or! H; subst; try (left; reflexivity).
  destruct (strip_ci "FF3" u) as [r|] eqn:E3; [|destruct (strip_ci "FF6" u) as [r|] eqn:E6;
    [|destruct (strip_ci "FF9" u) as [r|] eqn:E9]].
  1: pose proof (strip_ci_exact _ _ _ Hu E3) as [-> _]; right; exists "FF3", r.
  2: pose proof (strip_ci_exact _ _ _ Hu E6) as [-> _]; right; exists "FF6", r.
  3: pose proof (strip_ci_exact _ _ _ Hu E9) as [-> _]; right; exists "FF9", r.
  1-3: repeat split; set_solver.
  left. change (first_part _ _) with
    (match strip_ci "FF3" u with Some r => Some (".FF3", r) | None =>
     match strip_ci "FF6" u with Some r => Some (".FF6", r) | None =>
     match strip_ci "FF9" u with Some r => Some (".FF9", r) | None => Some (".", u) end end end).
  by rewrite E3, E6, E9.
Qed.

Lemma parts_upper parts :
  Forall (.∈ PARTS) parts -> to_ascii_uppercase (concat_parts parts) = concat_parts parts.
Proof.
  induction 1 as [|t parts Ht _ IH]; [done|]. cbn.
  assert (Happ : forall a b, to_ascii_uppercase (a ++ b) = to_ascii_uppercase a ++ to_ascii_uppercase b).
  { intros a b. induction a as [|x a IHa]; [done|]. by rewrite string_app_cons; cbn; rewrite IHa. }
  rewrite Happ, IH. f_equal. unfold PARTS in Ht. rewrite !elem_of_cons, elem_of_nil in Ht.
  by destruct_or! Ht; subst.
Qed.

(** A fraction at the head of a split is its own part. *)
Lemma fraction_head ff parts u :
  ff ∈ ["FF3"; "FF6"; "FF9"] -> Forall (.∈ PARTS) parts -> concat_parts parts = ff ++ u ->
  exists parts', parts = ff :: parts' /\ u = concat_parts parts'.
Proof.
  intros Hff Hp E. destruct Hp as [|t parts Ht _]; cbn in E.
  - rewrite !elem_of_cons, elem_of_nil in Hff. by destruct_or! Hff; subst.
  - unfold PARTS in Ht. rewrite !elem_of_cons, elem_of_nil in Ht. rewrite !elem_of_cons, elem_of_nil in Hff.
    destruct_or! Hff; subst; destruct_or! Ht; subst; try done;
      rewrite !string_app_cons in E; injection E as E; eauto.
Qed.

Lemma part_nonempty tok : tok ∈ PARTS -> exists x t, tok = String x t.
Proof. unfold PARTS. rewrite !elem_of_cons, elem_of_nil. intros H. destruct_or! H; subst; eauto. Qed.

Lemma scan_parts_step fuel tok u pat c part rest :
  tok ∈ PARTS -> first_part PARTS (tok ++ u) = Some (part, rest) ->
  scan_parts (S fuel) (tok ++ u) pat c =
  scan_parts fuel rest (pat ++ strftime_part part) (add c part).
Proof.
  intros (x & t & ->)%part_nonempty E. rewrite string_app_cons in *. cbn [scan_parts].
  by rewrite E.
Qed.

Lemma scan_parts_complete fuel parts pat c :
  Forall (.∈ PARTS) parts -> String.length (concat_parts parts) <= fuel ->
  exists pat', scan_parts fuel (concat_parts parts) pat c = Some (pat', fold_left add parts c).
Proof.
  revert parts pat c. induction fuel as [|fuel IH]; intros parts pat c Hp Hlen;
    (destruct parts as [|tok parts]; [by exists pat|]);
    inversion_clear Hp as [|?? Ht Hp']; pose proof (part_nonempty _ Ht) as (x & t & Hx);
    cbn [concat_parts foldr] in *; rewrite string_length_app, Hx in Hlen; simpl in Hlen; [lia|].
  destruct (first_part_complete tok (concat_parts parts) Ht (parts_upper _ Hp'))
    as [E|(ff & u & Hff & -> & Hu & E)]; rewrite (scan_parts_step _ _ _ _ _ _ _ Ht E); cbn [fold_left].
  - apply IH; [done|lia].
  - destruct (fraction_head _ _ _ Hff Hp' Hu) as (parts' & -> & ->).
    cbn in Hu. inversion_clear Hp' as [|?? _ Hp'']. cbn [concat_parts foldr] in Hlen.
    rewrite string_length_app in Hlen.
    assert (Hadd : add c ("." ++ ff) = add (add c ".") ff).
    { rewrite !elem_of_cons, elem_of_nil in Hff. by destruct_or! Hff; subst; destruct c. }
    rewrite Hadd. cbn [fold_left]. apply IH; [done|lia].
Qed.

(** A format is translated only when it splits, up to ASCII case, into the
    supported parts in supported numbers, and the pattern is then the
    concatenation of the parts' strftime specifiers. *)
Theorem strftime_pattern_sound format target p :
  strftime_pattern format target = Some p ->
  exists parts, Forall (.∈ PARTS) parts
    /\ to_ascii_uppercase format = concat_parts parts
    /\ is_supported (count_parts parts) target = true
    /\ p = concat_parts (map strftime_part parts).
Proof.
  unfold strftime_pattern. destruct (scan_parts _ _ _ _) as [[pat c]|] eqn:E; [|done].
  apply scan_parts_sound in E as (parts & Hp & Hs & -> & ->).
  destruct (is_supported _ _) eqn:Hsup; [|done]. intros [= <-]. by exists parts.
Qed.

(** Every format that splits into supported parts in supported numbers is
    translated: nothing the translation covers is declined. *)
Theorem strftime_pattern_complete format target parts :
  Forall (.∈ PARTS) parts -> to_ascii_uppercase format = concat_parts parts ->
  is_supported (count_parts parts) target = true ->
  is_Some (strftime_pattern format target).
Proof.
  intros Hp Hs Hsup. unfold strftime_pattern.
  assert (Hlen : String.length format = String.length (concat_parts parts)).
  { rewrite <- Hs. clear. induction format as [|x f IH]; [done|]. simpl. by rewrite IH. }
  rewrite <- scan_parts_upper, Hs, Hlen.
  destruct (scan_parts_complete _ parts "" no_parts Hp (le_n _)) as [pat ->].
  unfold count_parts in Hsup. by rewrite Hsup.
Qed.

Lemma strftime_pattern_sound_witness :
  strftime_pattern "yyyy-MM-DD HH24:MI:SS.FF3" FTimestamp = Some "%Y-%m-%d %H:%M:%S%.3f"
  /\ exists parts, Forall (.∈ PARTS) parts
       /\ to_ascii_uppercase "yyyy-MM-DD HH24:MI:SS.FF3" = concat_parts parts
       /\ is_supported (count_parts parts) FTimestamp = true
       /\ "%Y-%m-%d %H:%M:%S%.3f" = concat_parts (map strftime_part parts).
Proof. split; [reflexivity|]. by apply strftime_pattern_sound. Defined.

Lemma strftime_pattern_complete_witness : is_Some (strftime_pattern "DD.MM.YYYY" FDate).
Proof.
  apply (strftime_pattern_complete _ _ ["DD"; "."; "MM"; "."; "YYYY"]); [|reflexivity|reflexivity].
  repeat constructor; apply (bool_decide_unpack _); reflexivity.
Defined.
