(* ===== verification/ColumnNode.v ===== *)
(** crates/vs-expression/src/column_node.rs: the [column] nodes of a request
    tree, their visit, and the two alias rewrites of the join planner. *)

From stdpp Require Import base list strings numbers.
From Stdlib Require Import Ascii String.
From S2P Require Import Prelude Json.

Local Open Scope string_scope.

Definition TABLE_NAME : string := "tableName".
Definition TABLE_ALIAS : string := "tableAlias".

Record ColumnNode : Type := MkColumn {
  name : string;
  table_name : option string;
  table_alias : option string }.

Definition from_map (m : list (string * Json)) : option ColumnNode :=
  ty ← map_get "type" m;
  kind ← as_str ty;
  if negb (String.eqb kind "column") then None
  else
    let text key := map_get key m ≫= as_str in
    n ← text "name";
    Some (MkColumn n (text TABLE_NAME) (text TABLE_ALIAS)).

Definition parse (node : Json) : option ColumnNode := as_object node ≫= from_map.

Definition upper_name {UC : UnicodeCase} (c : ColumnNode) : string := to_uppercase (name c).
Definition ascii_upper_name (c : ColumnNode) : string := to_ascii_uppercase (name c).

Definition to_json (n : string) (t a : option string) : Json :=
  let m := map_of_list [("type", JString "column"); ("name", JString n)] in
  let m := match t with Some t => map_insert TABLE_NAME (JString t) m | None => m end in
  let m := match a with Some a => map_insert TABLE_ALIAS (JString a) m | None => m end in
  JObject m.

(** The nodes [f] is called on, in call order. *)
Fixpoint walk_column_nodes (tree : Json) : list ColumnNode :=
  match tree with
  | JObject m =>
      (match from_map m with Some c => [c] | None => [] end ++
      (fix go (m : list (string * Json)) : list ColumnNode :=
         match m with [] => [] | (_, v) :: m' => (walk_column_nodes v ++ go m') end) m)%list
  | JArray items =>
      (fix go (l : list Json) : list ColumnNode :=
         match l with [] => [] | x :: l' => (walk_column_nodes x ++ go l')%list end) items
  | _ => []
  end.

Fixpoint strip_table_alias (tree : Json) : Json :=
  match tree with
  | JObject m =>
      JObject ((fix go (m : list (string * Json)) :=
         match m with
         | [] => []
         | (k, v) :: m' =>
             if String.eqb k TABLE_ALIAS then go m' else (k, strip_table_alias v) :: go m'
         end) m)
  | JArray items => JArray (map strip_table_alias items)
  | other => other
  end.

Section Rewrite.
Context {E : Type} (f : ColumnNode -> result E (option string)).

(** [ColumnNode::from_map(map).map(f).transpose()?.flatten()]. *)
Definition answered_alias (m : list (string * Json)) : result E (option string) :=
  match from_map m with Some c => f c | None => Ok None end.

(** The keys of [out] are the keys of [map], so collecting keeps their order. *)
Fixpoint rewrite_table_aliases (tree : Json) : result E Json :=
  match tree with
  | JObject m =>
      let? out :=
        (fix go (m : list (string * Json)) : result E (list (string * Json)) :=
           match m with
           | [] => Ok []
           | (k, v) :: m' =>
               let? v' := rewrite_table_aliases v in
               let? out := go m' in
               Ok ((k, v') :: out)
           end) m in
      let? alias := answered_alias m in
      Ok (JObject (match alias with
                   | Some a => map_insert TABLE_ALIAS (JString a) out
                   | None => out
                   end))
  | JArray items =>
      let? items' :=
        (fix go (l : list Json) : result E (list Json) :=
           match l with
           | [] => Ok []
           | x :: l' => let? x' := rewrite_table_aliases x in let? out := go l' in Ok (x' :: out)
           end) items in
      Ok (JArray items')
  | other => Ok other
  end.
End Rewrite.

(** ** Facts *)

(** The loops of the rewrites as functions of their own. *)
Definition walk_fields (m : list (string * Json)) : list ColumnNode :=
  flat_map (fun kv => walk_column_nodes (snd kv)) m.

Definition strip_fields (m : list (string * Json)) : list (string * Json) :=
  map (fun kv => (fst kv, strip_table_alias (snd kv)))
    (filter (fun kv : string * Json => String.eqb (fst kv) TABLE_ALIAS = false) m).

Definition rewrite_field {E} (f : ColumnNode -> result E (option string)) (kv : string * Json) :
    result E (string * Json) :=
  let? v := rewrite_table_aliases f (snd kv) in Ok (fst kv, v).

Lemma walk_object m :
  walk_column_nodes (JObject m) =
  (match from_map m with Some c => [c] | None => [] end ++ walk_fields m)%list.
Proof.
  cbn. f_equal. unfold walk_fields. induction m as [|[k v] m IH]; [done|]. cbn. by rewrite IH.
Qed.

Lemma walk_array l : walk_column_nodes (JArray l) = flat_map walk_column_nodes l.
Proof. cbn. induction l as [|x l IH]; [done|]. cbn. by rewrite IH. Qed.

Lemma strip_object m : strip_table_alias (JObject m) = JObject (strip_fields m).
Proof.
  cbn. f_equal. unfold strip_fields. induction m as [|[k v] m IH]; [done|].
  rewrite filter_cons. cbn [fst snd]. rewrite IH.
  destruct (String.eqb k TABLE_ALIAS) eqn:Ek; by destruct (decide _).
Qed.

Lemma rewrite_object {E} (f : ColumnNode -> result E (option string)) m :
  rewrite_table_aliases f (JObject m) =
  (let? out := try_map (rewrite_field f) m in
   let? alias := answered_alias f m in
   Ok (JObject (match alias with Some a => map_insert TABLE_ALIAS (JString a) out | None => out end))).
Proof.
  cbn [rewrite_table_aliases].
  assert (H : forall m',
    (fix go (m : list (string * Json)) : result E (list (string * Json)) :=
       match m with
       | [] => Ok []
       | (k, v) :: m' =>
           let? v' := rewrite_table_aliases f v in let? out := go m' in Ok ((k, v') :: out)
       end) m' = try_map (rewrite_field f) m').
  { induction m' as [|[k v] m' IH]; [done|]. cbn [try_map]. rewrite <- IH.
    unfold rewrite_field. cbn. by destruct (rewrite_table_aliases f v). }
  by rewrite H.
Qed.

Lemma rewrite_array {E} (f : ColumnNode -> result E (option string)) l :
  rewrite_table_aliases f (JArray l) =
  (let? out := try_map (rewrite_table_aliases f) l in Ok (JArray out)).
Proof.
  cbn [rewrite_table_aliases].
  assert (H : forall l',
    (fix go (l : list Json) : result E (list Json) :=
       match l with
       | [] => Ok []
       | x :: l' => let? x' := rewrite_table_aliases f x in let? out := go l' in Ok (x' :: out)
       end) l' = try_map (rewrite_table_aliases f) l').
  { induction l' as [|x l' IH]; [done|]. cbn [try_map]. by rewrite <- IH. }
  by rewrite H.
Qed.

Lemma try_map_ok_cons {A B E} (f : A -> result E B) x l out :
  try_map f (x :: l) = Ok out <->
  exists y ys, f x = Ok y /\ try_map f l = Ok ys /\ out = y :: ys.
Proof.
  cbn. destruct (f x), (try_map f l); naive_solver.
Qed.

(** Alias insertion is invisible to the strip. *)
Lemma strip_fields_insert_alias v m : strip_fields (map_insert TABLE_ALIAS v m) = strip_fields m.
Proof.
  unfold strip_fields. induction m as [|[k w] m IH]; [done|]. cbn [map_insert].
  destruct (String.compare TABLE_ALIAS k) eqn:Ec.
  - apply String.compare_eq_iff in Ec as <-. by rewrite !filter_cons.
  - by rewrite filter_cons.
  - rewrite !filter_cons. destruct (decide _); cbn; by rewrite IH.
Qed.

(** Rewriting aliases changes nothing but aliases: with every [tableAlias]
    key removed, the rewritten tree is the original. *)
Theorem rewrite_only_aliases {E} (f : ColumnNode -> result E (option string)) tree out :
  rewrite_table_aliases f tree = Ok out -> strip_table_alias out = strip_table_alias tree.
Proof.
  revert out. induction tree as [| | | |l IH|m IH] using Json_ind; intros out H; try (cbn in H; by simplify_eq).
  - rewrite rewrite_array in H. destruct (try_map _ l) as [l'|] eqn:El; [|done]. simplify_eq. cbn. f_equal.
    revert l' El. induction IH as [|x l Hx _ IHl]; intros l' El; [by simplify_eq/=|].
    apply try_map_ok_cons in El as (y & ys & Hy & Hys & ->). cbn. f_equal; auto.
  - rewrite rewrite_object in H. destruct (try_map _ m) as [m'|] eqn:Em; [|done].
    destruct (answered_alias f m) as [a|]; [|done]. simplify_eq.
    assert (Hm : strip_fields m' = strip_fields m).
    { revert m' Em. unfold strip_fields. induction IH as [|[k v] m Hx _ IHm]; intros m' Em; [by simplify_eq/=|].
      apply try_map_ok_cons in Em as ([k' v'] & ys & Hy & Hys & ->).
      unfold rewrite_field in Hy. cbn in Hy, Hx.
      destruct (rewrite_table_aliases f v) eqn:Ev; [|done]. simplify_eq.
      rewrite !filter_cons. cbn. destruct (decide _); cbn; rewrite ?(Hx _ eq_refl), (IHm _ Hys); done. }
    rewrite !strip_object. destruct a; by rewrite ?strip_fields_insert_alias, Hm.
Qed.

(** A [column] node written by the planner is read back as it was given. *)
Theorem column_node_roundtrip n t a : parse (to_json n t a) = Some (MkColumn n t a).
Proof. by destruct t, a. Qed.

Lemma rewrite_only_aliases_witness :
  let tree := JArray [to_json "ID" (Some "T") None] in
  let out := JArray [to_json "ID" (Some "T") (Some "L")] in
  rewrite_table_aliases (E := UdfError) (fun _ => Ok (Some "L")) tree = Ok out
  /\ strip_table_alias out = strip_table_alias tree.
Proof. split; [reflexivity|]. by apply (rewrite_only_aliases (E := UdfError) (fun _ => Ok (Some "L"))). Defined.
