(* ===== verification/FilterJson.v ===== *)
(** crates/lakehouse-engine/src/adapter/pushdown/format/filter_json.rs: the shapes of
    a filter node every pruner and rewrite reads, and the three-valued meaning of a
    filter, against which they are proved. *)

From stdpp Require Import base sets list strings numbers.
From Stdlib Require Import Ascii String Lia.
From S2P Require Import Prelude Json ColumnNode.

Local Open Scope string_scope.

Inductive Comparison := Equal | NotEqual | Less | LessEqual | Greater | GreaterEqual.

#[export] Instance Comparison_eq_dec : EqDecision Comparison.
Proof. solve_decision. Defined.

Definition from_node_type (kind : string) : option Comparison :=
  if String.eqb kind "predicate_equal" then Some Equal
  else if String.eqb kind "predicate_notequal" then Some NotEqual
  else if String.eqb kind "predicate_less" then Some Less
  else if String.eqb kind "predicate_lessequal" then Some LessEqual
  else if String.eqb kind "predicate_greater" then Some Greater
  else if String.eqb kind "predicate_greaterequal" then Some GreaterEqual
  else None.

Definition node_type (c : Comparison) : string :=
  match c with
  | Equal => "predicate_equal"
  | NotEqual => "predicate_notequal"
  | Less => "predicate_less"
  | LessEqual => "predicate_lessequal"
  | Greater => "predicate_greater"
  | GreaterEqual => "predicate_greaterequal"
  end.

Definition with_operands_swapped (c : Comparison) : Comparison :=
  match c with
  | Less => Greater
  | LessEqual => GreaterEqual
  | Greater => Less
  | GreaterEqual => LessEqual
  | symmetric => symmetric
  end.

Definition holds (c : Comparison) (ordering : comparison) : bool :=
  match c, ordering with
  | Equal, Eq => true
  | Equal, _ => false
  | NotEqual, Eq => false
  | NotEqual, _ => true
  | Less, Lt => true
  | Less, _ => false
  | LessEqual, Gt => false
  | LessEqual, _ => true
  | Greater, Gt => true
  | Greater, _ => false
  | GreaterEqual, Lt => false
  | GreaterEqual, _ => true
  end.

Definition column_name (node : Json) : option string := ColumnNode.name <$> ColumnNode.parse node.

Definition non_empty_str (value : Json) : option string :=
  s ← as_str value; if String.eqb s "" then None else Some s.

Definition non_empty (array : Json) : option (list Json) :=
  items ← as_array array; match items with [] => None | _ => Some items end.

Definition operands (node : Json) : option (list Json) := get node "expressions" ≫= non_empty.

(** The comparison reads with the column on the left. *)
Definition comparison_operands (node : Json) (c : Comparison) : option (string * Json * Comparison) :=
  l ← get node "left";
  r ← get node "right";
  match column_name l with
  | Some column => Some (column, r, c)
  | None => column ← column_name r; Some (column, l, with_operands_swapped c)
  end.

Definition subject_column (node : Json) : option string := get node "expression" ≫= column_name.

Definition in_operands (node : Json) : option (string * list Json) :=
  column ← subject_column node;
  arguments ← get node "arguments" ≫= non_empty;
  Some (column, arguments).

Definition between_operands (node : Json) : option (string * option Json * option Json) :=
  column ← subject_column node; Some (column, get node "left", get node "right").

Lemma column_node_type node c : ColumnNode.parse node = Some c -> get_str node "type" = Some "column".
Proof.
  unfold ColumnNode.parse, ColumnNode.from_map, get_str, get. destruct node; try done. cbn.
  destruct (map_get "type" fields) as [ty|]; [|done]. cbn. destruct (as_str ty) as [kind|]; [|done]. cbn.
  by destruct (String.eqb_spec kind "column") as [->|].
Qed.

Lemma column_name_literal node kind : get_str node "type" = Some kind -> kind <> "column" -> column_name node = None.
Proof.
  intros Hk Hne. unfold column_name, ColumnNode.parse, ColumnNode.from_map. unfold get_str, get in Hk. destruct node; try done.
  cbn. destruct (map_get "type" fields) as [ty|]; [|done]. cbn in *. rewrite Hk. cbn.
  by destruct (String.eqb_spec kind "column").
Qed.

Lemma operands_array node l : operands node = Some l -> get_array node "expressions" = Some l.
Proof.
  unfold operands, get_array, non_empty. destruct (get node "expressions") as [e|]; [|done]. cbn.
  destruct (as_array e) as [items|]; [|done]. cbn. by destruct items.
Qed.

(** ** Three-valued logic

    [None] is SQL's UNKNOWN. *)

Definition and3 (a b : option bool) : option bool :=
  match a, b with
  | Some false, _ | _, Some false => Some false
  | Some true, Some true => Some true
  | _, _ => None
  end.

Definition or3 (a b : option bool) : option bool :=
  match a, b with
  | Some true, _ | _, Some true => Some true
  | Some false, Some false => Some false
  | _, _ => None
  end.

Definition not3 (a : option bool) : option bool := option_map negb a.

Definition all3 (l : list (option bool)) : option bool := foldr and3 (Some true) l.
Definition any3 (l : list (option bool)) : option bool := foldr or3 (Some false) l.

(** ** What a filter means on one row

    An operand is a value or NULL; two values compare. A node of a kind, or of a
    shape, no rule below reads may have any truth value: the meaning is a set of
    truth values, so what is proved of it holds whatever such a node computes. *)
Section Meaning.
Context {V : Type} (operand : Json -> option V) (compare : V -> V -> comparison).

Definition compare3 (c : Comparison) (a b : option V) : option bool :=
  match a, b with Some a, Some b => Some (holds c (compare a b)) | _, _ => None end.

(** One side of a range; an absent bound may compare as anything. *)
Definition bound (c : Comparison) (subject : option V) (side : option Json) (t : option bool) : Prop :=
  match side with Some e => t = compare3 c subject (operand e) | None => True end.

(** One node, given the meaning of the nodes below it. *)
Definition meaning_step (rec : Json -> option bool -> Prop) (node : Json) (t : option bool) : Prop :=
  match get_str node "type" with
  | None => True
  | Some kind =>
      if String.eqb kind "predicate_and" then
        match get_array node "expressions" with
        | Some l => exists ts, Forall2 (rec) l ts /\ t = all3 ts
        | None => True
        end
      else if String.eqb kind "predicate_or" then
        match get_array node "expressions" with
        | Some l => exists ts, Forall2 (rec) l ts /\ t = any3 ts
        | None => True
        end
      else if String.eqb kind "predicate_not" then
        match get node "expression" with
        | Some e => exists t', rec e t' /\ t = not3 t'
        | None => True
        end
      else if String.eqb kind "predicate_is_null" then
        match get node "expression" with
        | Some e => t = Some (match operand e with None => true | Some _ => false end)
        | None => True
        end
      else if String.eqb kind "predicate_is_not_null" then
        match get node "expression" with
        | Some e => t = Some (match operand e with None => false | Some _ => true end)
        | None => True
        end
      else if String.eqb kind "predicate_in_constlist" then
        match get node "expression", get_array node "arguments" with
        | Some e, Some l => t = any3 (map (fun a => compare3 Equal (operand e) (operand a)) l)
        | _, _ => True
        end
      else if String.eqb kind "predicate_between" then
        match get node "expression" with
        | Some e => exists low high, bound GreaterEqual (operand e) (get node "left") low /\
                      bound LessEqual (operand e) (get node "right") high /\ t = and3 low high
        | None => True
        end
      else
        match from_node_type kind, get node "left", get node "right" with
        | Some c, Some l, Some r => t = compare3 c (operand l) (operand r)
        | _, _, _ => True
        end
  end.

Fixpoint truth (fuel : nat) : Json -> option bool -> Prop :=
  match fuel with
  | 0 => fun _ _ => True
  | S fuel => meaning_step (truth fuel)
  end.

(** As deep as the filter is. *)
Definition means (node : Json) (t : option bool) : Prop := truth (json_depth node) node t.

Lemma Forall2_rel_ext {A B} (P Q : A -> B -> Prop) l l' :
  (forall a b, a ∈ l -> P a b <-> Q a b) -> Forall2 P l l' <-> Forall2 Q l l'.
Proof.
  intros H. split; intros F; induction F as [|a b l l' Hab _ IH]; constructor;
    try (apply H; [set_solver|done]); apply IH; intros; apply H; set_solver.
Qed.

(** Only the nodes below matter. *)
Lemma meaning_step_ext rec rec' node t :
  (forall x t, shallower x node -> rec x t <-> rec' x t) -> meaning_step rec node t <-> meaning_step rec' node t.
Proof.
  intros H. unfold meaning_step. destruct (get_str node "type") as [kind|]; [|done].
  destruct (String.eqb kind "predicate_and").
  { destruct (get_array node "expressions") as [l|] eqn:E; [|done].
    split; intros (ts & Hts & ->); exists ts; (split; [|done]);
      (eapply Forall2_rel_ext; [|exact Hts]); intros a b Ha; [symmetry|]; apply H; eauto with json. }
  destruct (String.eqb kind "predicate_or").
  { destruct (get_array node "expressions") as [l|] eqn:E; [|done].
    split; intros (ts & Hts & ->); exists ts; (split; [|done]);
      (eapply Forall2_rel_ext; [|exact Hts]); intros a b Ha; [symmetry|]; apply H; eauto with json. }
  destruct (String.eqb kind "predicate_not"); [|done].
  destruct (get node "expression") as [e|] eqn:E; [|done].
  split; intros (t' & Ht & ->); exists t'; (split; [|done]); apply H; eauto with json.
Qed.

Lemma truth_enough n m node t :
  json_depth node <= n -> json_depth node <= m -> truth n node t <-> truth m node t.
Proof.
  revert m node t. induction n as [|n IH]; intros [|m] node t Hn Hm; try (destruct node; cbn in *; lia).
  cbn [truth]. apply meaning_step_ext. intros x t' Hx. unfold shallower in Hx. apply IH; lia.
Qed.

Lemma means_unfold node t : means node t <-> meaning_step means node t.
Proof.
  unfold means at 1. rewrite (truth_enough _ (S (json_depth node))) by lia. cbn [truth].
  apply meaning_step_ext. intros x t' Hx. unfold shallower in Hx. unfold means. apply truth_enough; lia.
Qed.

Lemma means_and node l t :
  get_str node "type" = Some "predicate_and" -> get_array node "expressions" = Some l ->
  means node t <-> exists ts, Forall2 means l ts /\ t = all3 ts.
Proof. intros Hk Hl. rewrite means_unfold. unfold meaning_step. by rewrite Hk, Hl. Qed.

Lemma means_or node l t :
  get_str node "type" = Some "predicate_or" -> get_array node "expressions" = Some l ->
  means node t <-> exists ts, Forall2 means l ts /\ t = any3 ts.
Proof. intros Hk Hl. rewrite means_unfold. unfold meaning_step. by rewrite Hk, Hl. Qed.

Lemma means_not node e t :
  get_str node "type" = Some "predicate_not" -> get node "expression" = Some e ->
  means node t <-> exists t', means e t' /\ t = not3 t'.
Proof. intros Hk He. rewrite means_unfold. unfold meaning_step. by rewrite Hk, He. Qed.

Lemma means_in node e l t :
  get_str node "type" = Some "predicate_in_constlist" -> get node "expression" = Some e ->
  get_array node "arguments" = Some l ->
  means node t <-> t = any3 (map (fun a => compare3 Equal (operand e) (operand a)) l).
Proof. intros Hk He Hl. rewrite means_unfold. unfold meaning_step. by rewrite Hk, He, Hl. Qed.

Lemma means_between node e low high t :
  get_str node "type" = Some "predicate_between" -> get node "expression" = Some e ->
  get node "left" = Some low -> get node "right" = Some high ->
  means node t <-> t = and3 (compare3 GreaterEqual (operand e) (operand low)) (compare3 LessEqual (operand e) (operand high)).
Proof.
  intros Hk He Hl Hh. rewrite means_unfold. unfold meaning_step. rewrite Hk, He, Hl, Hh. cbn. split.
  - by intros (low' & high' & -> & -> & ->).
  - intros ->. eauto.
Qed.

(** A range is the conjunction of its sides, whichever are present. *)
Lemma means_range node e t :
  get_str node "type" = Some "predicate_between" -> get node "expression" = Some e ->
  means node t <->
  exists low high, bound GreaterEqual (operand e) (get node "left") low /\
    bound LessEqual (operand e) (get node "right") high /\ t = and3 low high.
Proof. intros Hk He. rewrite means_unfold. unfold meaning_step. by rewrite Hk, He. Qed.

Lemma means_is_null node e t :
  get_str node "type" = Some "predicate_is_null" -> get node "expression" = Some e ->
  means node t <-> t = Some (match operand e with None => true | Some _ => false end).
Proof. intros Hk He. rewrite means_unfold. unfold meaning_step. by rewrite Hk, He. Qed.

Lemma means_is_not_null node e t :
  get_str node "type" = Some "predicate_is_not_null" -> get node "expression" = Some e ->
  means node t <-> t = Some (match operand e with None => false | Some _ => true end).
Proof. intros Hk He. rewrite means_unfold. unfold meaning_step. by rewrite Hk, He. Qed.

Lemma means_comparison node c l r t :
  get_str node "type" = Some (node_type c) -> get node "left" = Some l -> get node "right" = Some r ->
  means node t <-> t = compare3 c (operand l) (operand r).
Proof. intros Hk Hl Hr. rewrite means_unfold. unfold meaning_step. rewrite Hk, Hl, Hr. by destruct c. Qed.
(** Some truth value is always meant. *)
Lemma means_inhabited node : exists t, means node t.
Proof.
  remember (json_depth node) as n eqn:En. assert (json_depth node <= n) as Hn by lia. clear En. revert node Hn.
  induction n as [|n IH]; intros node Hn; [destruct node; cbn in Hn; lia|].
  assert (forall l, get_array node "expressions" = Some l -> exists ts, Forall2 means l ts) as Hlist.
  { intros l El. assert (forall x, x ∈ l -> exists t, means x t) as Hx.
    { intros x Hx. apply IH. enough (shallower x node) by (unfold shallower in *; lia). eauto with json. }
    clear El. induction l as [|x l IHl]; [by exists []|].
    destruct (Hx x) as [t Ht]; [set_solver|]. destruct IHl as [ts Hts]; [set_solver|]. exists (t :: ts). by constructor. }
  setoid_rewrite means_unfold. unfold meaning_step.
  destruct (get_str node "type") as [kind|]; [|by exists None].
  destruct (String.eqb kind "predicate_and").
  { destruct (get_array node "expressions") as [l|]; [|by exists None]. destruct (Hlist l eq_refl) as [ts Hts]. eauto. }
  destruct (String.eqb kind "predicate_or").
  { destruct (get_array node "expressions") as [l|]; [|by exists None]. destruct (Hlist l eq_refl) as [ts Hts]. eauto. }
  destruct (String.eqb kind "predicate_not").
  { destruct (get node "expression") as [e|] eqn:E; [|by exists None]. destruct (IH e) as [t Ht]; [|eauto].
    enough (shallower e node) by (unfold shallower in *; lia). eauto with json. }
  assert (forall c subject side, exists t, bound c subject side t) as Hbound.
  { intros c subject [e|]; [by eexists|by exists None]. }
  destruct (String.eqb kind "predicate_between").
  { repeat case_match; try solve [by eexists | by exists None].
    destruct (Hbound GreaterEqual (operand j) (get node "left")) as [low Hlow].
    destruct (Hbound LessEqual (operand j) (get node "right")) as [high Hhigh]. eauto 10. }
  repeat case_match; solve [by eexists | by exists None].
Qed.

Lemma all3_true ts : all3 ts = Some true <-> Forall (eq (Some true)) ts.
Proof.
  induction ts as [|t ts IH]; [done|]. rewrite Forall_cons_iff, <- IH. change (all3 (t :: ts)) with (and3 t (all3 ts)). destruct t as [[]|], (all3 ts) as [[]|]; cbn; intuition congruence.
Qed.

Lemma any3_true ts : any3 ts = Some true <-> Exists (eq (Some true)) ts.
Proof.
  induction ts as [|t ts IH]; [cbn; rewrite Exists_nil; done|].
  rewrite List.Exists_cons, <- IH. change (any3 (t :: ts)) with (or3 t (any3 ts)). destruct t as [[]|], (any3 ts) as [[]|]; cbn; intuition congruence.
Qed.

(** A conjunction holds where every conjunct can, a disjunction where one can. *)
Lemma means_and_true node l :
  get_str node "type" = Some "predicate_and" -> get_array node "expressions" = Some l ->
  means node (Some true) <-> Forall (fun x => means x (Some true)) l.
Proof.
  intros Hk Hl. rewrite (means_and node l _ Hk Hl). clear Hk Hl. split.
  - intros (ts & Hts & Ht). symmetry in Ht. apply all3_true in Ht. induction Hts; [done|].
    apply Forall_cons_iff in Ht as [<- Ht]. constructor; auto.
  - intros H. exists (map (fun _ => Some true) l). split.
    + induction H; constructor; auto.
    + symmetry. apply all3_true. clear. by induction l; constructor.
Qed.

Lemma means_or_true node l :
  get_str node "type" = Some "predicate_or" -> get_array node "expressions" = Some l ->
  means node (Some true) <-> Exists (fun x => means x (Some true)) l.
Proof.
  intros Hk Hl. rewrite (means_or node l _ Hk Hl). clear Hl Hk. split.
  - intros (ts & Hts & Ht). symmetry in Ht. apply any3_true in Ht. induction Hts; [by apply Exists_nil in Ht|].
    apply List.Exists_cons in Ht as [<-|Ht]; [by left|right; auto].
  - enough (Exists (fun x => means x (Some true)) l -> exists ts, Forall2 means l ts /\ any3 ts = Some true) as H
      by (intros Hl; destruct (H Hl) as (ts & ? & ?); eauto).
    assert (forall l, exists ts, Forall2 means l ts) as Hall.
    { clear. intros l. induction l as [|x l [ts IH]]; [by exists []|]. destruct (means_inhabited x) as [t Ht].
      exists (t :: ts). by constructor. }
    induction l as [|x l IH]; intros H; [by apply Exists_nil in H|].
    apply List.Exists_cons in H as [H|H].
    + destruct (Hall l) as [ts Hts]. exists (Some true :: ts). split; [by constructor|]. done.
    + destruct (IH H) as (ts & Hts & Ht). destruct (means_inhabited x) as [t Hx]. exists (t :: ts). split; [by constructor|].
      change (any3 (t :: ts)) with (or3 t (any3 ts)). rewrite Ht. by destruct t as [[]|].
Qed.
End Meaning.

Lemma from_node_type_Some kind c : from_node_type kind = Some c -> kind = node_type c.
Proof.
  unfold from_node_type.
  repeat (match goal with |- context [String.eqb kind ?s] => destruct (String.eqb_spec kind s) as [->|] end;
          [by intros [= <-]|]).
  done.
Qed.

(** ** Truth tables *)

Lemma or3_false x : or3 (Some false) x = x.
Proof. by destruct x as [[]|]. Qed.

Lemma and3_true_l x : and3 (Some true) x = x.
Proof. by destruct x as [[]|]. Qed.

Lemma and3_true_r x : and3 x (Some true) = x.
Proof. by destruct x as [[]|]. Qed.

Lemma or3_false_r x : or3 x (Some false) = x.
Proof. by destruct x as [[]|]. Qed.

Lemma and3_assoc x y z : and3 x (and3 y z) = and3 (and3 x y) z.
Proof. by destruct x as [[]|], y as [[]|], z as [[]|]. Qed.

Lemma or3_assoc x y z : or3 x (or3 y z) = or3 (or3 x y) z.
Proof. by destruct x as [[]|], y as [[]|], z as [[]|]. Qed.

Lemma and3_Some_true a b : and3 a b = Some true <-> a = Some true /\ b = Some true.
Proof. destruct a as [[]|], b as [[]|]; cbn; intuition congruence. Qed.

Lemma or3_Some_true a b : or3 a b = Some true <-> a = Some true \/ b = Some true.
Proof. destruct a as [[]|], b as [[]|]; cbn; intuition congruence. Qed.

(** ** Comparisons *)

Lemma node_type_roundtrip c : from_node_type (node_type c) = Some c.
Proof. by destruct c. Qed.

Lemma swapped_holds c o : holds (with_operands_swapped c) (CompOpp o) = holds c o.
Proof. by destruct c, o. Qed.

Lemma compare3_swapped {V} (compare : V -> V -> comparison) c a b :
  (forall x y, compare y x = CompOpp (compare x y)) ->
  compare3 compare (with_operands_swapped c) b a = compare3 compare c a b.
Proof. intros H. destruct a, b; try done. cbn. by rewrite H, swapped_holds. Qed.

(** ** More information keeps a truth value

    [refines t t']: [t'] is [t], or [t] was unknown. Replacing an operand's unknown
    truth by a known one never changes a known result. *)
Definition refines (t t' : option bool) : Prop := t = None \/ t = t'.

Lemma refines_refl t : refines t t.
Proof. by right. Qed.

Lemma and3_refines a a' b b' : refines a a' -> refines b b' -> refines (and3 a b) (and3 a' b').
Proof. intros [->| ->] [->| ->]; destruct a' as [[]|], b' as [[]|]; unfold refines; cbn; auto. Qed.

Lemma or3_refines a a' b b' : refines a a' -> refines b b' -> refines (or3 a b) (or3 a' b').
Proof. intros [->| ->] [->| ->]; destruct a' as [[]|], b' as [[]|]; unfold refines; cbn; auto. Qed.

Lemma not3_refines a a' : refines a a' -> refines (not3 a) (not3 a').
Proof. intros [->| ->]; [by left|by right]. Qed.

Lemma all3_refines l l' : Forall2 refines l l' -> refines (all3 l) (all3 l').
Proof. induction 1; [by right|]. by apply and3_refines. Qed.

Lemma any3_refines l l' : Forall2 refines l l' -> refines (any3 l) (any3 l').
Proof. induction 1; [by right|]. by apply or3_refines. Qed.
