(* ===== verification/Render.v ===== *)
(** crates/vs-expression/src/lib.rs: the translation of an Exasol expression
    tree to SQL, in the DataFusion and in the Exasol dialect.

    [render_expression_inner] is one recursive function in the source. Here each
    of its arms is a definition over the recursive call [rec] with the dialect
    fixed, [render_node] is the dispatch on the node, and the recursion is tied
    with a fuel bound by the depth of the tree. *)

From stdpp Require Import base list strings numbers.
From Stdlib Require Import Ascii String.
From S2P Require Import Prelude Json ExasolType DatetimeFormat ColumnNode.

Local Open Scope string_scope.

Inductive Dialect := DataFusion | Exasol.

#[export] Instance Dialect_eq_dec : EqDecision Dialect.
Proof. solve_decision. Defined.

Inductive ExasolForm := VerbatimCall | Shaped.

Definition TRANSLATED_SCALAR_FNS : list (string * ExasolForm) :=
  [("ADD", Shaped); ("SUB", Shaped); ("MULT", Shaped); ("FLOAT_DIV", Shaped); ("NEG", Shaped);
   ("CAST", Shaped); ("MOD", Shaped); ("CONCAT", Shaped); ("CASE", Shaped);
   ("ABS", VerbatimCall); ("FLOOR", VerbatimCall); ("CEIL", VerbatimCall); ("SQRT", VerbatimCall);
   ("EXP", VerbatimCall); ("LN", VerbatimCall); ("SIGN", VerbatimCall); ("DEGREES", VerbatimCall);
   ("RADIANS", VerbatimCall); ("SIN", VerbatimCall); ("COS", VerbatimCall); ("TAN", VerbatimCall);
   ("ASIN", VerbatimCall); ("ACOS", VerbatimCall); ("ATAN", VerbatimCall); ("SINH", VerbatimCall);
   ("COSH", VerbatimCall); ("TANH", VerbatimCall); ("COT", VerbatimCall); ("ROUND", VerbatimCall);
   ("TRUNC", VerbatimCall); ("LOG", VerbatimCall); ("POWER", VerbatimCall); ("ATAN2", VerbatimCall);
   ("LOWER", VerbatimCall); ("UPPER", VerbatimCall); ("SUBSTR", VerbatimCall); ("TRIM", VerbatimCall);
   ("LTRIM", VerbatimCall); ("RTRIM", VerbatimCall); ("REPLACE", VerbatimCall);
   ("REPEAT", VerbatimCall); ("REVERSE", VerbatimCall); ("LPAD", VerbatimCall);
   ("RPAD", VerbatimCall); ("ASCII", VerbatimCall); ("CHR", VerbatimCall);
   ("INITCAP", VerbatimCall); ("LEFT", VerbatimCall); ("RIGHT", VerbatimCall);
   ("TRANSLATE", VerbatimCall); ("LENGTH", VerbatimCall); ("OCTET_LENGTH", VerbatimCall);
   ("UNICODE", VerbatimCall); ("UNICODECHR", VerbatimCall); ("INSTR", VerbatimCall);
   ("LOCATE", VerbatimCall); ("GREATEST", VerbatimCall); ("LEAST", VerbatimCall);
   ("NULLIF", VerbatimCall); ("NULLIFZERO", VerbatimCall); ("ZEROIFNULL", VerbatimCall);
   ("YEAR", VerbatimCall); ("MONTH", VerbatimCall); ("DAY", VerbatimCall); ("HOUR", VerbatimCall);
   ("MINUTE", VerbatimCall); ("SECOND", VerbatimCall); ("WEEK", VerbatimCall);
   ("DATE_TRUNC", VerbatimCall); ("TO_DATE", VerbatimCall); ("TO_TIMESTAMP", VerbatimCall);
   ("DAYS_BETWEEN", VerbatimCall); ("HOURS_BETWEEN", VerbatimCall);
   ("MINUTES_BETWEEN", VerbatimCall); ("SECONDS_BETWEEN", VerbatimCall)].

Definition declared_scalar_fn (n : string) : option ExasolForm :=
  snd <$> List.find (fun row => eq_ignore_ascii_case (fst row) n) TRANSLATED_SCALAR_FNS.

Definition sql_escape (s : string) : string := replace_char sq_char "''" s.

Definition quote_ident (n : string) : string := dq ++ replace_char dq_char (dq ++ dq) n ++ dq.

Definition binary_op (kind : string) : option string :=
  if kind =? "predicate_equal" then Some "="
  else if kind =? "predicate_notequal" then Some "<>"
  else if kind =? "predicate_less" then Some "<"
  else if kind =? "predicate_lessequal" then Some "<="
  else if kind =? "predicate_greater" then Some ">"
  else if kind =? "predicate_greaterequal" then Some ">="
  else None.

Definition is_empty_opt (v : option string) : bool :=
  match v with None => true | Some s => s =? "" end.

(** [matches!(x, "a" | "b" | ...)]. *)
Definition one_of (n : string) (l : list string) : bool := existsb (String.eqb n) l.

Definition is_boolean_producing (kind : string) : bool :=
  one_of kind
    ["literal_bool"; "predicate_equal"; "predicate_notequal"; "predicate_less";
     "predicate_lessequal"; "predicate_greater"; "predicate_greaterequal"; "predicate_and";
     "predicate_or"; "predicate_not"; "predicate_is_null"; "predicate_is_not_null";
     "predicate_in_constlist"; "predicate_between"; "predicate_like"].

Definition render_bool_to_string_case (bool_expr : string) : string :=
  "(CASE " ++ bool_expr ++ " WHEN TRUE THEN 'TRUE' WHEN FALSE THEN 'FALSE' ELSE NULL END)".

Definition CHECKED_FLOAT_DIV_FN : string := "vs_checked_float_div".

Definition format_decimal_exasol_style (expr_sql : string) : string :=
  "regexp_replace(regexp_replace(CAST(" ++ expr_sql ++
  " AS VARCHAR), '(\.[0-9]*[1-9])0+$', '\1'), '\.0+$', '')".

Definition datafusion_cast_target (target : ExasolType) : result UdfError string :=
  let unsupported := Err (User ("unsupported CAST target type: " ++ display target)) in
  match target with
  | Char _ _ | Varchar _ _ => Ok "VARCHAR"
  | DecimalT _ | Boolean | Date => Ok (display target)
  | DoublePrecision => Ok "DOUBLE"
  | Timestamp p =>
      if existsb (N.eqb p) [0; 3; 6; 9]%N then Ok ("TIMESTAMP(" ++ show_N p ++ ")")
      else unsupported
  | _ => unsupported
  end.

Definition render_cast_target (target : ExasolType) (dialect : Dialect) : result UdfError string :=
  match dialect with
  | Exasol => Ok (display target)
  | DataFusion => datafusion_cast_target target
  end.

Definition timestamp_literal_unit (value : option Json) : string :=
  match (value ≫= as_str) ≫= split_once "."%char with
  | Some (_, digits) =>
      if Nat.ltb 6 (String.length (trim_end_matches "0"%char digits)) then "Nanosecond"
      else "Microsecond"
  | None => "Microsecond"
  end.

Definition is_null_value (value : option Json) : bool :=
  match value with None | Some JNull => true | _ => false end.

Definition is_null_literal (arg : Json) : bool :=
  match get_str arg "type" with
  | Some t =>
      if t =? "literal_null" then true
      else if starts_with "literal_" t then is_null_value (get arg "value")
      else false
  | None => false
  end.

Section Render.
Context {UC : UnicodeCase} {JD : JsonDisplay}.

Definition json_scalar_to_string (value : Json) : string :=
  match value with
  | JString s => s
  | JNumber n => number_to_string n
  | JBool b => if b then "true" else "false"
  | JNull => ""
  | other => json_to_string other
  end.

Definition quote_literal (value : option Json) : string :=
  match value with
  | None | Some JNull => "NULL"
  | Some (JString s) => "'" ++ sql_escape s ++ "'"
  | Some other => "'" ++ sql_escape (json_scalar_to_string other) ++ "'"
  end.

Definition render_exasol_timestamp_literal (value : option Json) : string :=
  match value with
  | None | Some JNull => "NULL"
  | Some v => "TIMESTAMP " ++ quote_literal (Some v)
  end.

Definition render_exasol_tstz_literal (value : option Json) : string :=
  match value with
  | None | Some JNull => "NULL"
  | Some _ =>
      "CAST(CONVERT_TZ(" ++ render_exasol_timestamp_literal value ++
      ", 'UTC', SESSIONTIMEZONE) AS TIMESTAMP WITH LOCAL TIME ZONE)"
  end.

(** The leaves: the first [match kind] of the source. [None] falls through. *)
Definition render_literal (dialect : Dialect) (expr : Json) (kind : string) :
    option (result UdfError (option string)) :=
  let value key := get expr key in
  if kind =? "literal_null" then Some (Ok (Some "NULL"))
  else if kind =? "literal_bool" then
    let truthy :=
      match value "value" with
      | Some (JBool b) => b
      | Some (JString s) => (s =? "true") || (s =? "TRUE")
      | Some (JNumber n) =>
          match as_i64 (JNumber n) with Some z => (z =? 1)%Z | None => false end
      | _ => false
      end in
    Some (Ok (Some (if truthy then "TRUE" else "FALSE")))
  else if kind =? "literal_string" then Some (Ok (Some (quote_literal (value "value"))))
  else if (kind =? "literal_double") && bool_decide (dialect = DataFusion) then
    Some (Ok (Some
      match value "value" with
      | None | Some JNull => "NULL"
      | Some v => "CAST(" ++ quote_literal (Some v) ++ " AS DOUBLE)"
      end))
  else if (kind =? "literal_exactnumeric") || (kind =? "literal_double") then
    Some (Ok (Some
      match value "value" with
      | None | Some JNull => "NULL"
      | Some v => json_scalar_to_string v
      end))
  else if kind =? "literal_date" then Some (Ok (Some ("DATE " ++ quote_literal (value "value"))))
  else if (kind =? "literal_binary") && bool_decide (dialect = DataFusion) then
    let hex := default "" (value "value" ≫= as_str) in
    Some
      (if negb (string_forallb is_ascii_hexdigit hex) then
         Err (User ("literal_binary value '" ++ hex ++ "' is not hexadecimal"))
       else
         Ok (Some
           match value "width" ≫= as_u64 with
           | Some width => "arrow_cast(X'" ++ hex ++ "', 'FixedSizeBinary(" ++ show_N width ++ ")')"
           | None => "X'" ++ hex ++ "'"
           end))
  else if kind =? "literal_timestamp" then
    Some (Ok (Some
      match dialect with
      | Exasol => render_exasol_timestamp_literal (value "value")
      | DataFusion =>
          "arrow_cast(" ++ quote_literal (value "value") ++ ", 'Timestamp(" ++
          timestamp_literal_unit (value "value") ++ ", None)')"
      end))
  else if kind =? "literal_timestamp_utc" then
    Some (Ok (Some
      match dialect with
      | Exasol => render_exasol_tstz_literal (value "value")
      | DataFusion =>
          match value "value" with
          | None | Some JNull => "NULL"
          | Some v =>
              let raw := json_scalar_to_string v in
              "arrow_cast(" ++ quote_literal (Some (JString (raw ++ "+00:00"))) ++
              ", 'Timestamp(Microsecond, Some(" ++ dq ++ "UTC" ++ dq ++ "))')"
          end
      end))
  else if kind =? "literal_timestamputc" then
    Some (match dialect with
          | Exasol => Ok (Some (render_exasol_tstz_literal (value "value")))
          | DataFusion => Ok None
          end)
  else None.

(** The [column] leaf. *)
Definition render_column (expr : Json) : result UdfError (option string) :=
  let? column := ok_or (parse expr) (User "column node without a name") in
  let quoted := quote_ident (upper_name column) in
  Ok (Some
    match table_alias column with
    | Some alias => if alias =? "" then quoted else quote_ident alias ++ "." ++ quoted
    | None => quoted
    end).

(** ** The arms, over the recursive call *)

Section Arms.
Context (rec : Json -> result UdfError (option string)) (dialect : Dialect).

(** [render_expression_inner(e, dialect)?.ok_or_else(|| UdfError::User(msg))?]. *)
Definition rec_or (e : Json) (msg : string) : result UdfError string :=
  let? r := rec e in ok_or r (User msg).

(** [value(key).unwrap_or(&Json::Null)]. *)
Definition field_or_null (expr : Json) (key : string) : Json := default JNull (get expr key).

Definition render_args (args : list Json) : result UdfError (list string) :=
  try_mapi (fun i arg => rec_or arg ("argument[" ++ show_nat i ++ "] rendered to null")) 0 args.

Definition render_conversion_source (function : string) (source : Json) : result UdfError string :=
  rec_or source (function ++ " source rendered to null").

Definition render_to_datetime (target : FormatTarget) (args : option (list Json)) :
    result UdfError (option string) :=
  let '(node, function) :=
    match target with
    | FDate => ("TO_DATE", "to_date")
    | FTimestamp => ("TO_TIMESTAMP", "to_timestamp")
    end in
  let? args := ok_or args (User ("function_scalar " ++ node ++ " missing 'arguments'")) in
  match args with
  | [] => Err (User ("function_scalar " ++ node ++ " requires at least 1 argument"))
  | [source] =>
      let? source := render_conversion_source node source in
      Ok (Some (function ++ "(" ++ source ++ ")"))
  | [source; format] =>
      let? pattern :=
        ok_or
          (kind ← get_str format "type";
           if kind =? "literal_string" then
             model ← get_str format "value"; strftime_pattern model target
           else None)
          (User ("function_scalar " ++ node ++ " format " ++ json_to_string format ++
                 " is not a string literal with an exact strftime equivalent")) in
      let? source := render_conversion_source node source in
      Ok (Some (function ++ "(nullif(" ++ source ++ ", ''), '" ++ sql_escape pattern ++ "')"))
  | _ => Err (User ("function_scalar " ++ node ++ " accepts at most 2 arguments, got " ++
                    show_nat (List.length args)))
  end.

Definition render_cast (args : option (list Json)) (data_type : option Json) :
    result UdfError (option string) :=
  let? args := ok_or args (User "CAST missing 'arguments'") in
  match args with
  | [] => Err (User "CAST requires 1 argument")
  | arg :: _ =>
      let? inner := rec_or arg "CAST expression is null" in
      let? data_type := ok_or data_type (User "CAST missing 'dataType'") in
      let? target := exasol_type_from_json data_type in
      let? target_type := render_cast_target target dialect in
      let source_is_boolean :=
        match get_str arg "type" with Some k => is_boolean_producing k | None => false end in
      if bool_decide (dialect = DataFusion) && is_character target && source_is_boolean
      then Ok (Some (render_bool_to_string_case inner))
      else Ok (Some ("CAST(" ++ inner ++ " AS " ++ target_type ++ ")"))
  end.

Definition render_binary (expr : Json) (kind op : string) : result UdfError (option string) :=
  let? lhs := rec (field_or_null expr "left") in
  let? rhs := rec (field_or_null expr "right") in
  match lhs, rhs with
  | Some l, Some r => Ok (Some ("(" ++ l ++ " " ++ op ++ " " ++ r ++ ")"))
  | _, _ => Err (User ("binary predicate '" ++ kind ++ "' missing operand"))
  end.

(** The loop of [render_junction]: a null or empty part is dropped. *)
Fixpoint junction_parts (items : list Json) : result UdfError (list string) :=
  match items with
  | [] => Ok []
  | e :: items' =>
      let? r := rec e in
      let? parts := junction_parts items' in
      Ok (match r with Some s => if s =? "" then parts else s :: parts | None => parts end)
  end.

Definition render_junction (expressions : option Json) (op empty_value : string) :
    result UdfError string :=
  let? parts :=
    match expressions with Some (JArray items) => junction_parts items | _ => Ok [] end in
  Ok match parts with
     | [] => empty_value
     | [p] => p
     | _ => "(" ++ join op parts ++ ")"
     end.

(** The loop of [predicate_in_constlist]: null literals are skipped. *)
Fixpoint in_list_items (items : list Json) : result UdfError (list string) :=
  match items with
  | [] => Ok []
  | arg :: items' =>
      if is_null_literal arg then in_list_items items'
      else
        let? r := rec arg in
        let? rest := in_list_items items' in
        Ok (match r with Some s => s :: rest | None => rest end)
  end.

Definition render_in_constlist (expr : Json) : result UdfError (option string) :=
  let? target := rec_or (field_or_null expr "expression")
                   "predicate_in_constlist missing 'expression'" in
  let? rendered :=
    match get expr "arguments" with Some (JArray args) => in_list_items args | _ => Ok [] end in
  match rendered with
  | [] => Ok (Some "FALSE")
  | _ => Ok (Some ("(" ++ target ++ " IN (" ++ join ", " rendered ++ "))"))
  end.

Definition render_between (expr : Json) : result UdfError (option string) :=
  let? target := rec (field_or_null expr "expression") in
  let? low := rec (field_or_null expr "left") in
  let? high := rec (field_or_null expr "right") in
  match target, low, high with
  | Some t, Some l, Some h => Ok (Some ("(" ++ t ++ " BETWEEN " ++ l ++ " AND " ++ h ++ ")"))
  | _, _, _ => Err (User "predicate_between requires expression/left/right")
  end.

Definition render_like (expr : Json) : result UdfError (option string) :=
  let? lhs := rec (field_or_null expr "expression") in
  let? pattern := rec (field_or_null expr "pattern") in
  match lhs, pattern with
  | Some l, Some p =>
      if negb (is_empty_opt (get_str expr "escape_char")) then
        Ok (Some ("(" ++ l ++ " LIKE " ++ p ++ " ESCAPE " ++
                  quote_literal (get expr "escape_char") ++ ")"))
      else Ok (Some ("(" ++ l ++ " LIKE " ++ p ++ ")"))
  | _, _ => Err (User "predicate_like missing 'expression' or 'pattern'")
  end.

Definition render_predicate (expr : Json) (kind : string) :
    option (result UdfError (option string)) :=
  if kind =? "predicate_and" then
    Some (let? s := render_junction (get expr "expressions") " AND " "TRUE" in Ok (Some s))
  else if kind =? "predicate_or" then
    Some (let? s := render_junction (get expr "expressions") " OR " "FALSE" in Ok (Some s))
  else if kind =? "predicate_not" then
    Some (let? inner := rec_or (field_or_null expr "expression")
                          "predicate_not missing 'expression'" in
          Ok (Some ("(NOT " ++ inner ++ ")")))
  else if kind =? "predicate_is_null" then
    Some (let? inner := rec_or (field_or_null expr "expression")
                          "predicate_is_null missing 'expression'" in
          Ok (Some ("(" ++ inner ++ " IS NULL)")))
  else if kind =? "predicate_is_not_null" then
    Some (let? inner := rec_or (field_or_null expr "expression")
                          "predicate_is_not_null missing 'expression'" in
          Ok (Some ("(" ++ inner ++ " IS NOT NULL)")))
  else if kind =? "predicate_in_constlist" then Some (render_in_constlist expr)
  else if kind =? "predicate_between" then Some (render_between expr)
  else if kind =? "predicate_like" then Some (render_like expr)
  else None.

Definition render_extract (expr : Json) : result UdfError (option string) :=
  let? field := ok_or (get_str expr "toExtract")
                  (User "function_scalar_extract missing 'toExtract'") in
  let field := to_uppercase field in
  let? args := ok_or (get_array expr "arguments")
                 (User "function_scalar_extract missing 'arguments'") in
  match args with
  | [] => Err (User "function_scalar_extract requires 1 argument")
  | arg :: _ =>
      let? src := rec_or arg "EXTRACT source is null" in
      Ok (Some match dialect with
               | Exasol => "EXTRACT(" ++ field ++ " FROM " ++ src ++ ")"
               | DataFusion => "date_part('" ++ field ++ "', " ++ src ++ ")"
               end)
  end.

(** The [WHEN]/[THEN] loop and the optional [ELSE] of [function_scalar_case]: the
    length check leaves at most one result after the last [WHEN]. *)
Fixpoint case_branches (whens results : list Json) : result UdfError string :=
  match whens, results with
  | when :: whens', res :: results' =>
      let? when_sql := rec_or when "CASE WHEN value is null" in
      let? then_sql := rec_or res "CASE THEN result is null" in
      let? rest := case_branches whens' results' in
      Ok (" WHEN " ++ when_sql ++ " THEN " ++ then_sql ++ rest)
  | [], else_ :: _ =>
      let? else_sql := rec_or else_ "CASE ELSE result is null" in Ok (" ELSE " ++ else_sql)
  | _, [] => Ok ""
  end.

Definition render_scalar_case (expr : Json) : result UdfError (option string) :=
  let? whens := ok_or (get_array expr "arguments")
                  (User "function_scalar_case missing 'arguments'") in
  let? results := ok_or (get_array expr "results")
                    (User "function_scalar_case missing 'results'") in
  let nw := List.length whens in
  let nr := List.length results in
  if negb (Nat.eqb nr nw) && negb (Nat.eqb nr (nw + 1)) then
    Err (User ("function_scalar_case results (" ++ show_nat nr ++ ") must equal WHEN count (" ++
               show_nat nw ++ ") or +1 for ELSE"))
  else
    let? basis :=
      match get expr "basis" with
      | Some b =>
          if is_null b then Ok ""
          else let? b := rec_or b "CASE basis is null" in Ok (" " ++ b)
      | None => Ok ""
      end in
    let? branches := case_branches whens results in
    Ok (Some ("(CASE" ++ basis ++ branches ++ " END)")).

Definition render_decimal_to_varchar (expr : Json) : result UdfError (option string) :=
  let? args := ok_or (get_array expr "arguments")
                 (User "decimal_to_varchar_exasol missing 'arguments'") in
  match args with
  | [arg] =>
      let? inner := rec_or arg "decimal_to_varchar_exasol argument is null" in
      Ok (Some (format_decimal_exasol_style inner))
  | _ => Err (User ("decimal_to_varchar_exasol requires exactly 1 argument, got " ++
                    show_nat (List.length args)))
  end.

Definition render_aggregate (expr : Json) : result UdfError (option string) :=
  let? n := ok_or (get_str expr "name") (User "function_aggregate missing 'name'") in
  let n := to_uppercase n in
  match get_array expr "arguments" with
  | None | Some [] => Ok (Some (n ++ "(*)"))
  | Some args =>
      let distinct :=
        match get expr "distinct" ≫= as_bool with Some true => "DISTINCT " | _ => "" end in
      let? rendered := render_args args in
      Ok (Some (n ++ "(" ++ distinct ++ join ", " rendered ++ ")"))
  end.

(** *** [function_scalar], by name *)

Definition missing_arguments (fn : string) : UdfError :=
  User ("function_scalar " ++ fn ++ " missing 'arguments'").

Definition arity_error (fn requires : string) (args : list Json) : UdfError :=
  User ("function_scalar " ++ fn ++ " requires " ++ requires ++ ", got " ++
        show_nat (List.length args)).

(** [ADD], [SUB], [MULT], [FLOAT_DIV]. *)
Definition render_arithmetic (fn : string) (args : option (list Json)) :
    result UdfError (option string) :=
  let? args := ok_or args (missing_arguments fn) in
  match args with
  | a :: b :: _ =>
      let? lhs := rec_or a (fn ++ " left operand is null") in
      let? rhs := rec_or b (fn ++ " right operand is null") in
      if (fn =? "FLOAT_DIV") && bool_decide (dialect = DataFusion) then
        Ok (Some (CHECKED_FLOAT_DIV_FN ++ "(" ++ lhs ++ ", " ++ rhs ++ ")"))
      else
        let op := if fn =? "ADD" then "+" else if fn =? "SUB" then "-"
                  else if fn =? "MULT" then "*" else "/" in
        Ok (Some ("(" ++ lhs ++ " " ++ op ++ " " ++ rhs ++ ")"))
  | _ => Err (arity_error fn "2 arguments" args)
  end.

Definition render_neg (args : option (list Json)) : result UdfError (option string) :=
  let? args := ok_or args (missing_arguments "NEG") in
  match args with
  | [] => Err (User "function_scalar NEG requires 1 argument")
  | a :: _ =>
      let? operand := rec_or a "NEG operand is null" in
      Ok (Some ("(-" ++ operand ++ ")"))
  end.

(** [ABS] to [COT]. *)
Definition render_math (fn : string) (args : option (list Json)) :
    result UdfError (option string) :=
  let? args := ok_or args (missing_arguments fn) in
  match args with
  | [a] =>
      let df_name := if fn =? "SIGN" then "signum" else to_lowercase fn in
      let? arg := rec_or a (fn ++ " argument is null") in
      Ok (Some (df_name ++ "(" ++ arg ++ ")"))
  | _ => Err (arity_error fn "1 argument" args)
  end.

(** [ROUND], [TRUNC], [LOG]. *)
Definition render_rounding (fn : string) (args : option (list Json)) :
    result UdfError (option string) :=
  let? args := ok_or args (missing_arguments fn) in
  match args with
  | [_] | [_; _] =>
      let? rendered := render_args args in
      Ok (Some (to_lowercase fn ++ "(" ++ join ", " rendered ++ ")"))
  | _ => Err (arity_error fn "1 or 2 arguments" args)
  end.

(** [POWER], [ATAN2]. *)
Definition render_power (fn : string) (args : option (list Json)) :
    result UdfError (option string) :=
  let? args := ok_or args (missing_arguments fn) in
  match args with
  | [_; _] =>
      let? rendered := render_args args in
      Ok (Some (to_lowercase fn ++ "(" ++ join ", " rendered ++ ")"))
  | _ => Err (arity_error fn "2 arguments" args)
  end.

Definition render_mod (args : option (list Json)) : result UdfError (option string) :=
  let? args := ok_or args (missing_arguments "MOD") in
  match args with
  | [a; b] =>
      let? lhs := rec_or a "MOD left operand is null" in
      let? rhs := rec_or b "MOD right operand is null" in
      Ok (Some match dialect with
               | Exasol => "MOD(" ++ lhs ++ ", " ++ rhs ++ ")"
               | DataFusion => "(" ++ lhs ++ " % " ++ rhs ++ ")"
               end)
  | _ => Err (arity_error "MOD" "2 arguments" args)
  end.

Definition render_concat_arg (arg : Json) : result UdfError string :=
  let? r := rec_or arg "CONCAT argument rendered to null" in
  let is_bool :=
    bool_decide (dialect = DataFusion) &&
    match get_str arg "type" with Some k => is_boolean_producing k | None => false end in
  Ok (if is_bool then render_bool_to_string_case r else r).

Definition render_concat (args : option (list Json)) : result UdfError (option string) :=
  let? args := ok_or args (missing_arguments "CONCAT") in
  match args with
  | [] => Err (User "function_scalar CONCAT requires at least 1 argument, got 0")
  | _ =>
      let? rendered := try_map render_concat_arg args in
      Ok (Some match dialect with
               | Exasol => "(" ++ join " || " rendered ++ ")"
               | DataFusion => "nullif(concat(" ++ join ", " rendered ++ "), '')"
               end)
  end.

(** [LOWER] to [UNICODECHR]. *)
Definition render_string_fn (fn : string) (args : option (list Json)) :
    result UdfError (option string) :=
  let? args := ok_or args (missing_arguments fn) in
  let df_name :=
    if fn =? "LENGTH" then "character_length"
    else if fn =? "OCTET_LENGTH" then "octet_length"
    else if fn =? "UNICODE" then "ascii"
    else if fn =? "UNICODECHR" then "chr"
    else if fn =? "SUBSTR" then "substr"
    else to_lowercase fn in
  let? rendered := render_args args in
  Ok (Some (df_name ++ "(" ++ join ", " rendered ++ ")")).

Definition render_instr (args : option (list Json)) : result UdfError (option string) :=
  let? args := ok_or args (missing_arguments "INSTR") in
  match args with
  | a :: b :: _ =>
      let? str := rec_or a "INSTR string arg is null" in
      let? substr := rec_or b "INSTR substring arg is null" in
      Ok (Some ("strpos(" ++ str ++ ", " ++ substr ++ ")"))
  | _ => Err (arity_error "INSTR" "2 arguments" args)
  end.

Definition render_locate (args : option (list Json)) : result UdfError (option string) :=
  let? args := ok_or args (missing_arguments "LOCATE") in
  match args with
  | a :: b :: _ =>
      let? substr := rec_or a "LOCATE substring arg is null" in
      let? str := rec_or b "LOCATE string arg is null" in
      Ok (Some ("strpos(" ++ str ++ ", " ++ substr ++ ")"))
  | _ => Err (arity_error "LOCATE" "2 arguments" args)
  end.

(** The interleaved [cond, result, ...] loop from index [i], with the trailing
    [ELSE] of an odd count. *)
Fixpoint case_args (i : nat) (args : list Json) : result UdfError string :=
  match args with
  | c :: r :: args' =>
      let? cond := rec_or c ("CASE WHEN cond[" ++ show_nat i ++ "] is null") in
      let? res := rec_or r ("CASE THEN result[" ++ show_nat (i + 1) ++ "] is null") in
      let? rest := case_args (i + 2) args' in
      Ok (" WHEN " ++ cond ++ " THEN " ++ res ++ rest)
  | [e] => let? else_val := rec_or e "CASE ELSE value is null" in Ok (" ELSE " ++ else_val)
  | [] => Ok ""
  end.

Definition render_case_fn (args : option (list Json)) : result UdfError (option string) :=
  let? args := ok_or args (missing_arguments "CASE") in
  match args with
  | _ :: _ :: _ =>
      let? branches := case_args 0 args in
      Ok (Some ("CASE" ++ branches ++ " END"))
  | _ => Err (arity_error "CASE" "at least one WHEN branch (2 arguments)" args)
  end.

(** [GREATEST], [LEAST]. *)
Definition render_greatest (fn : string) (args : option (list Json)) :
    result UdfError (option string) :=
  let? args := ok_or args (missing_arguments fn) in
  match args with
  | [] => Err (User ("function_scalar " ++ fn ++ " requires at least 1 argument"))
  | _ =>
      let? rendered := render_args args in
      let guard := join " OR " (map (fun a => a ++ " IS NULL") rendered) in
      Ok (Some ("CASE WHEN " ++ guard ++ " THEN NULL ELSE " ++ to_lowercase fn ++ "(" ++
                join ", " rendered ++ ") END"))
  end.

(** [NULLIFZERO], [ZEROIFNULL], [NULLIF]. *)
Definition render_null_fn (fn : string) (args : option (list Json)) :
    result UdfError (option string) :=
  let? args := ok_or args (missing_arguments fn) in
  if fn =? "NULLIF" then
    match args with
    | [a; b] =>
        let? lhs := rec_or a "NULLIF first argument is null" in
        let? rhs := rec_or b "NULLIF second argument is null" in
        Ok (Some ("nullif(" ++ lhs ++ ", " ++ rhs ++ ")"))
    | _ => Err (arity_error "NULLIF" "2 arguments" args)
    end
  else
    match args with
    | [a] =>
        let? arg := rec_or a (fn ++ " argument is null") in
        Ok (Some ((if fn =? "NULLIFZERO" then "nullif(" else "coalesce(") ++ arg ++ ", 0)"))
    | _ => Err (arity_error fn "1 argument" args)
    end.

(** [YEAR] to [SECOND] and [WEEK]. *)
Definition render_date_part (fn : string) (args : option (list Json)) :
    result UdfError (option string) :=
  let? args := ok_or args (missing_arguments fn) in
  match args with
  | [a] =>
      let? src := rec_or a (fn ++ " argument is null") in
      Ok (Some ("date_part('" ++ (if fn =? "WEEK" then "week" else fn) ++ "', " ++ src ++ ")"))
  | _ => Err (arity_error fn "1 argument" args)
  end.

Definition render_date_trunc (args : option (list Json)) : result UdfError (option string) :=
  let? args := ok_or args (missing_arguments "DATE_TRUNC") in
  match args with
  | [a; b] =>
      let? unit := rec_or a "DATE_TRUNC unit is null" in
      let? src := rec_or b "DATE_TRUNC source is null" in
      Ok (Some ("date_trunc(" ++ unit ++ ", " ++ src ++ ")"))
  | _ => Err (arity_error "DATE_TRUNC" "2 arguments" args)
  end.

(** [DAYS_BETWEEN] to [SECONDS_BETWEEN]. *)
Definition render_between_fn (fn : string) (args : option (list Json)) :
    result UdfError (option string) :=
  let? args := ok_or args (missing_arguments fn) in
  match args with
  | [a; b] =>
      let? first := rec_or a (fn ++ " first argument is null") in
      let? second := rec_or b (fn ++ " second argument is null") in
      let diff := "(date_part('epoch', " ++ first ++ ") - date_part('epoch', " ++ second ++ "))" in
      Ok (Some
        (if fn =? "DAYS_BETWEEN"
         then "(CAST(" ++ first ++ " AS DATE) - CAST(" ++ second ++ " AS DATE))"
         else if fn =? "HOURS_BETWEEN" then "(" ++ diff ++ " / 3600)"
         else if fn =? "MINUTES_BETWEEN" then "(" ++ diff ++ " / 60)"
         else diff))
  | _ => Err (arity_error fn "2 arguments" args)
  end.

Definition unsupported_scalar (fn : string) : UdfError :=
  User ("unsupported scalar function: " ++ fn).

(** The per-name match. *)
Definition render_named_scalar (expr : Json) (fn : string) (args : option (list Json)) :
    result UdfError (option string) :=
  if one_of fn ["ADD"; "SUB"; "MULT"; "FLOAT_DIV"] then render_arithmetic fn args
  else if fn =? "NEG" then render_neg args
  else if fn =? "CAST" then render_cast args (get expr "dataType")
  else if one_of fn ["ABS"; "FLOOR"; "CEIL"; "SQRT"; "EXP"; "LN"; "SIGN"; "DEGREES"; "RADIANS";
                     "SIN"; "COS"; "TAN"; "ASIN"; "ACOS"; "ATAN"; "SINH"; "COSH"; "TANH"; "COT"]
  then render_math fn args
  else if one_of fn ["ROUND"; "TRUNC"; "LOG"] then render_rounding fn args
  else if one_of fn ["POWER"; "ATAN2"] then render_power fn args
  else if fn =? "MOD" then render_mod args
  else if fn =? "CONCAT" then render_concat args
  else if one_of fn ["LOWER"; "UPPER"; "SUBSTR"; "TRIM"; "LTRIM"; "RTRIM"; "REPLACE"; "REPEAT";
                     "REVERSE"; "LPAD"; "RPAD"; "ASCII"; "CHR"; "INITCAP"; "LEFT"; "RIGHT";
                     "TRANSLATE"; "LENGTH"; "OCTET_LENGTH"; "UNICODE"; "UNICODECHR"]
  then render_string_fn fn args
  else if fn =? "INSTR" then render_instr args
  else if fn =? "LOCATE" then render_locate args
  else if fn =? "CASE" then render_case_fn args
  else if one_of fn ["GREATEST"; "LEAST"] then render_greatest fn args
  else if one_of fn ["NULLIFZERO"; "ZEROIFNULL"; "NULLIF"] then render_null_fn fn args
  else if one_of fn ["YEAR"; "MONTH"; "DAY"; "HOUR"; "MINUTE"; "SECOND"; "WEEK"]
  then render_date_part fn args
  else if fn =? "DATE_TRUNC" then render_date_trunc args
  else if fn =? "TO_DATE" then render_to_datetime FDate args
  else if fn =? "TO_TIMESTAMP" then render_to_datetime FTimestamp args
  else if one_of fn ["DAYS_BETWEEN"; "HOURS_BETWEEN"; "MINUTES_BETWEEN"; "SECONDS_BETWEEN"]
  then render_between_fn fn args
  else Err (unsupported_scalar fn).

(** The gate in front of it: undeclared names are declined, and a verbatim call
    is re-emitted in the Exasol dialect. *)
Definition render_scalar (expr : Json) : result UdfError (option string) :=
  let fn := to_uppercase (default "" (get_str expr "name")) in
  let args := get_array expr "arguments" in
  match declared_scalar_fn fn, dialect with
  | None, _ => Err (unsupported_scalar fn)
  | Some VerbatimCall, Exasol =>
      let? args := ok_or args (missing_arguments fn) in
      let? rendered := render_args args in
      Ok (Some (fn ++ "(" ++ join ", " rendered ++ ")"))
  | _, _ => render_named_scalar expr fn args
  end.

(** The whole function for one node. *)
Definition render_node (expr : Json) : result UdfError (option string) :=
  if is_null expr then Ok None
  else if negb (is_object expr) then Err (User "unexpected expression node (not an object)")
  else
    match get_str expr "type" with
    | None => Err (User "expression node missing 'type' field")
    | Some kind =>
        match render_literal dialect expr kind with
        | Some r => r
        | None =>
        if kind =? "column" then render_column expr
        else
        match binary_op kind with
        | Some op => render_binary expr kind op
        | None =>
        match render_predicate expr kind with
        | Some r => r
        | None =>
            if kind =? "function_scalar_extract" then render_extract expr
            else if kind =? "function_scalar_case" then render_scalar_case expr
            else if kind =? "function_scalar_cast"
            then render_cast (get_array expr "arguments") (get expr "dataType")
            else if kind =? "decimal_to_varchar_exasol" then render_decimal_to_varchar expr
            else if kind =? "function_scalar" then render_scalar expr
            else if kind =? "function_aggregate" then render_aggregate expr
            else Err (User ("unsupported expression node type: " ++ kind))
        end end end
    end.

End Arms.

(** ** The recursion *)

Fixpoint render_fuel (fuel : nat) (dialect : Dialect) (expr : Json) :
    result UdfError (option string) :=
  match fuel with
  | 0 => Err (User "out of fuel")
  | S fuel' => render_node (render_fuel fuel' dialect) dialect expr
  end.

Definition render_expression_inner (expr : Json) (dialect : Dialect) :
    result UdfError (option string) :=
  render_fuel (json_depth expr) dialect expr.

Definition render_expression (expr : Json) : result UdfError string :=
  let? r := render_expression_inner expr DataFusion in ok_or r (User "expression node is null").

Definition render_expression_safe (expr : Json) : option string :=
  mjoin (ok (render_expression_inner expr DataFusion)).

(** [None] when rendering fails or the filter is trivially true. *)
Definition nontrivial_filter (r : result UdfError (option string)) : option string :=
  match mjoin (ok r) with
  | Some s => if (s =? "TRUE") || (s =? "NULL") then None else Some s
  | None => None
  end.

Definition render_df_filter_safe (filter_expr : Json) : option string :=
  nontrivial_filter (render_expression_inner filter_expr DataFusion).

Definition render_expression_exasol (expr : Json) : result UdfError string :=
  let? r := render_expression_inner expr Exasol in ok_or r (User "expression node is null").

Definition render_expression_exasol_safe (expr : Json) : option string :=
  mjoin (ok (render_expression_inner expr Exasol)).

Definition render_df_filter_exasol_safe (filter_expr : Json) : option string :=
  nontrivial_filter (render_expression_inner filter_expr Exasol).

End Render.
