(* ===== verification/RenderFacts.v ===== *)
(** The recursion of the renderer is well founded: [render_expression_inner]
    satisfies its own unfolding equation, so no result depends on the fuel. Then the
    translated surface: which scalar functions are translated, what the Exasol dialect
    re-emits, and how list predicates treat null literals. *)

From stdpp Require Import base list strings numbers.
From Stdlib Require Import Ascii String.
From S2P Require Import Prelude Json ExasolType DatetimeFormat ColumnNode Render.

Local Open Scope string_scope.

Section Extensionality.
Context {UC : UnicodeCase} {JD : JsonDisplay}.
Context (rec1 rec2 : Json -> result UdfError (option string)) (d : Dialect).

Definition agree (x : Json) : Prop := rec1 x = rec2 x.

Lemma rec_or_ext e msg : agree e -> rec_or rec1 e msg = rec_or rec2 e msg.
Proof. unfold agree, rec_or. by intros ->. Qed.

Lemma render_args_ext args :
  Forall agree args -> render_args rec1 args = render_args rec2 args.
Proof.
  unfold render_args. generalize 0. induction args as [|a args IH]; intros i Hargs; [done|].
  apply Forall_cons_1 in Hargs as [Ha Hargs]. cbn [try_mapi]. rewrite rec_or_ext by done.
  by rewrite IH.
Qed.

Lemma junction_parts_ext items :
  Forall agree items -> junction_parts rec1 items = junction_parts rec2 items.
Proof. induction 1 as [|x l Hx _ IH]; [done|]. cbn. by rewrite Hx, IH. Qed.

Lemma in_list_items_ext items :
  Forall agree items -> in_list_items rec1 items = in_list_items rec2 items.
Proof. induction 1 as [|x l Hx _ IH]; [done|]. cbn. by rewrite Hx, IH. Qed.

Lemma case_branches_ext whens results :
  Forall agree whens -> Forall agree results ->
  case_branches rec1 whens results = case_branches rec2 whens results.
Proof.
  intros Hw. revert results. induction Hw as [|w ws Hw _ IH]; intros [|r rs] Hr; cbn; try done;
    apply Forall_cons_1 in Hr as [Hr Hrs]; rewrite !rec_or_ext by done; [done|].
  by rewrite IH.
Qed.

Lemma case_args_ext i args :
  Forall agree args -> case_args rec1 i args = case_args rec2 i args.
Proof.
  revert i args. fix IH 2. intros i [|a [|b args]] Hargs; [done| |]; cbn;
    apply Forall_cons_1 in Hargs as [Ha Hargs]; rewrite (rec_or_ext a) by done; [done|].
  apply Forall_cons_1 in Hargs as [Hb Hargs]. rewrite (rec_or_ext b) by done.
  by rewrite IH.
Qed.

Lemma concat_args_ext args :
  Forall agree args ->
  try_map (render_concat_arg rec1 d) args = try_map (render_concat_arg rec2 d) args.
Proof.
  induction 1 as [|x l Hx _ IH]; [done|]. cbn. unfold render_concat_arg at 1 3.
  by rewrite rec_or_ext, IH.
Qed.

(** Arms over an argument list. *)
Ltac split_args :=
  repeat match goal with
  | |- context [match ?l with [] => _ | _ :: _ => _ end] => is_var l; destruct l
  | H : Forall agree (_ :: _) |- _ => apply Forall_cons_1 in H as [? H]
  end.

Ltac agreed := solve [assumption | repeat (constructor; try assumption)].

Ltac rewrite_recs :=
  repeat match goal with
  | |- context [rec_or rec1 ?a ?m] => rewrite (rec_or_ext a m) by assumption
  | |- context [render_args rec1 ?a] =>
      rewrite (render_args_ext a) by agreed
  | |- context [try_map (render_concat_arg rec1 d) ?a] =>
      rewrite (concat_args_ext a) by agreed
  | |- context [case_args rec1 ?i ?a] =>
      rewrite (case_args_ext i a) by agreed
  end.

Ltac args_arm args := destruct args as [l|]; [|reflexivity]; cbn [ok_or];
  match goal with H : forall l, Some ?a = Some l -> _ |- _ => specialize (H a eq_refl) end;
  split_args; try reflexivity; rewrite_recs; reflexivity.

Lemma named_scalar_ext expr fn args :
  (forall l, args = Some l -> Forall agree l) ->
  render_named_scalar rec1 d expr fn args = render_named_scalar rec2 d expr fn args.
Proof.
  intros H. unfold render_named_scalar.
  repeat match goal with |- (if ?b then _ else _) = _ => destruct b end; [..|reflexivity].
  all: unfold render_arithmetic, render_neg, render_cast, render_math, render_rounding,
    render_power, render_mod, render_concat, render_string_fn, render_instr, render_locate,
    render_case_fn, render_greatest, render_null_fn, render_date_part, render_date_trunc,
    render_to_datetime, render_conversion_source, render_between_fn.
  all: args_arm args.
Qed.

(** Every node the renderer descends to lies below [expr]. *)
Lemma render_node_ext expr :
  (forall x, shallower x expr -> agree x) ->
  render_node rec1 d expr = render_node rec2 d expr.
Proof.
  intros H. unfold render_node.
  destruct (is_null expr); [done|]. destruct (negb (is_object expr)); [done|].
  destruct (get_str expr "type") as [kind|] eqn:Ek; [|done].
  assert (Hnull : agree JNull).
  { apply H. unfold get_str in Ek. destruct (get expr "type") as [v|] eqn:Ev; [|done].
    apply get_shallower in Ev. unfold shallower in *. cbn in *. destruct v; cbn in *; lia. }
  assert (Hfield : forall key, agree (field_or_null expr key)).
  { intros key. unfold field_or_null. destruct (get expr key) eqn:Eg; [|exact Hnull].
    apply H. by eapply get_shallower. }
  assert (Hargs : forall key l, get_array expr key = Some l -> Forall agree l).
  { intros key l El. apply Forall_forall. intros x Hx. apply H. eapply get_array_shallower; [done|]. by apply list_elem_of_In. }
  assert (Hjson : forall key l, get expr key = Some (JArray l) -> Forall agree l).
  { intros key l El. apply (Hargs key). unfold get_array. by rewrite El. }
  destruct (render_literal d expr kind); [done|]. destruct (kind =? "column"); [done|].
  destruct (binary_op kind) as [op|].
  { unfold render_binary. by rewrite !(Hfield _). }
  assert (Hpred : render_predicate rec1 expr kind = render_predicate rec2 expr kind).
  { unfold render_predicate, render_junction, render_in_constlist, render_between, render_like.
    rewrite !(rec_or_ext (field_or_null _ _)) by apply Hfield. rewrite !(Hfield _).
    destruct (get expr "expressions") as [[]|] eqn:?, (get expr "arguments") as [[]|] eqn:?;
      rewrite ?junction_parts_ext, ?in_list_items_ext by eauto; done. }
  rewrite Hpred. destruct (render_predicate rec2 expr kind); [done|].
  repeat match goal with |- (if ?b then _ else _) = _ => destruct b end; [..|done].
  - unfold render_extract. destruct (get_str expr "toExtract"); [|done]. cbn [ok_or].
    destruct (get_array expr "arguments") as [[|a l]|] eqn:El; cbn [ok_or]; try done.
    apply Hargs, Forall_cons_1 in El as [Ha _]. by rewrite rec_or_ext.
  - unfold render_scalar_case.
    destruct (get_array expr "arguments") as [ws|] eqn:Ew; [|done].
    destruct (get_array expr "results") as [rs|] eqn:Er; [|done]. cbn [ok_or].
    rewrite (case_branches_ext ws rs) by eauto. destruct (get expr "basis") eqn:Eb; [|done].
    by rewrite rec_or_ext by eauto using get_shallower.
  - unfold render_cast. destruct (get_array expr "arguments") as [[|a l]|] eqn:El; cbn [ok_or]; try done.
    apply Hargs, Forall_cons_1 in El as [Ha _]. by rewrite rec_or_ext.
  - unfold render_decimal_to_varchar.
    destruct (get_array expr "arguments") as [[|a [|]]|] eqn:El; cbn [ok_or]; try done.
    apply Hargs, Forall_cons_1 in El as [Ha _]. by rewrite rec_or_ext.
  - unfold render_scalar. destruct (declared_scalar_fn _) as [[]|]; [..|done];
      rewrite ?named_scalar_ext by eauto; destruct d; try done.
    destruct (get_array expr "arguments") eqn:El; [|done]. cbn [ok_or].
    by rewrite render_args_ext by eauto.
  - unfold render_aggregate. destruct (get_str expr "name"); [|done]. cbn [ok_or].
    destruct (get_array expr "arguments") as [[|a l]|] eqn:El; try done.
    by rewrite render_args_ext by eauto.
Qed.

End Extensionality.

Section Recursion.
Context {UC : UnicodeCase} {JD : JsonDisplay}.

Lemma json_depth_pos j : 1 <= json_depth j.
Proof. destruct j; cbn; lia. Qed.

Lemma render_fuel_enough n m d e :
  json_depth e <= n -> json_depth e <= m -> render_fuel n d e = render_fuel m d e.
Proof.
  revert m e. induction n as [|n IH]; intros m e Hn Hm; pose proof (json_depth_pos e); [lia|].
  destruct m as [|m]; [lia|]. cbn. apply render_node_ext. intros x Hx. unfold shallower in Hx.
  apply IH; lia.
Qed.

Lemma render_inner_unfold e d :
  render_expression_inner e d = render_node (fun x => render_expression_inner x d) d e.
Proof.
  unfold render_expression_inner at 1. pose proof (json_depth_pos e).
  destruct (json_depth e) as [|n] eqn:En; [lia|]. cbn. apply render_node_ext.
  intros x Hx. unfold shallower in Hx. apply render_fuel_enough; lia.
Qed.

Lemma json_depth_ind (P : Json -> Prop) :
  (forall e, (forall x, shallower x e -> P x) -> P e) -> forall e, P e.
Proof.
  intros Hstep e. remember (json_depth e) as n eqn:En. revert e En.
  induction n as [n IH] using lt_wf_ind. intros e ->. apply Hstep. intros x Hx.
  by eapply IH.
Qed.

End Recursion.

(** The renderer terminates on every tree and satisfies the recursive
    equation of the source; no result depends on the fuel of the model. *)
Theorem render_expression_inner_equation {UC : UnicodeCase} {JD : JsonDisplay} e d :
  render_expression_inner e d = render_node (fun x => render_expression_inner x d) d e
  /\ forall fuel, json_depth e <= fuel -> render_fuel fuel d e = render_expression_inner e d.
Proof.
  split; [apply render_inner_unfold|]. intros fuel Hf. by apply render_fuel_enough.
Qed.

(** ** The translated surface *)

Section Surface.
Context {UC : UnicodeCase} {JD : JsonDisplay}.

(** The name of a [function_scalar] node, as the dispatch reads it. *)
Definition scalar_name (e : Json) : string := to_uppercase (default "" (get_str e "name")).

Lemma render_scalar_node rec d e :
  get_str e "type" = Some "function_scalar" -> render_node rec d e = render_scalar rec d e.
Proof.
  intros Hk. unfold render_node. destruct e; try (by cbn in Hk). cbn [is_null is_object negb].
  rewrite Hk. destruct d; reflexivity.
Qed.

Lemma render_in_node rec d e :
  get_str e "type" = Some "predicate_in_constlist" -> render_node rec d e = render_in_constlist rec e.
Proof.
  intros Hk. unfold render_node. destruct e; try (by cbn in Hk). cbn [is_null is_object negb].
  rewrite Hk. destruct d; reflexivity.
Qed.

(** Without arguments each arm fails on the missing list, before any rendering. *)
Definition missing_list_error (fn : string) : UdfError :=
  if fn =? "CAST" then User "CAST missing 'arguments'" else missing_arguments fn.

Lemma declared_arm rec d e n form :
  (n, form) ∈ TRANSLATED_SCALAR_FNS ->
  render_named_scalar rec d e n None = Err (missing_list_error n).
Proof.
  intros H. unfold TRANSLATED_SCALAR_FNS in H.
  repeat (apply elem_of_cons in H as [H|H]; [injection H as -> _; reflexivity|]).
  by apply elem_of_nil in H.
Qed.

(** A name that matches an arm is a declared name. *)
Definition arm_names : list string := map fst TRANSLATED_SCALAR_FNS.

Lemma undeclared_no_arm rec d e n args :
  declared_scalar_fn n = None -> render_named_scalar rec d e n args = Err (unsupported_scalar n).
Proof.
  intros H. assert (Hn : forall m, m ∈ arm_names -> (n =? m) = false).
  { intros m Hm. apply String.eqb_neq. intros ->. unfold declared_scalar_fn in H.
    destruct (List.find _ _) eqn:E; [done|]. unfold arm_names in Hm.
    apply list_elem_of_In, in_map_iff in Hm as (row & <- & Hrow).
    apply (List.find_none _ _ E) in Hrow. unfold eq_ignore_ascii_case in Hrow.
    by rewrite String.eqb_refl in Hrow. }
  unfold render_named_scalar, one_of. cbn [existsb].
  rewrite !Hn by (apply (bool_decide_unpack _); reflexivity). reflexivity.
Qed.

Lemma in_list_items_filter rec items :
  in_list_items rec (List.filter (fun x => negb (is_null_literal x)) items) = in_list_items rec items.
Proof.
  induction items as [|x l IH]; [done|]. cbn. destruct (is_null_literal x) eqn:E; cbn; [done|].
  by rewrite E, IH.
Qed.

End Surface.

(** The declared surface is exact. A scalar function whose upper-cased name
    is not declared is declined in both dialects, whatever its arguments; every
    declared name has a translation arm; and no arm exists for an undeclared name. *)
Theorem scalar_surface_exact {UC : UnicodeCase} {JD : JsonDisplay} :
  (forall e d, get_str e "type" = Some "function_scalar" ->
     declared_scalar_fn (scalar_name e) = None ->
     render_expression_inner e d = Err (unsupported_scalar (scalar_name e)))
  /\ (forall rec d e n form, (n, form) ∈ TRANSLATED_SCALAR_FNS ->
     render_named_scalar rec d e n None = Err (missing_list_error n))
  /\ (forall rec d e n args, declared_scalar_fn n = None ->
     render_named_scalar rec d e n args = Err (unsupported_scalar n)).
Proof.
  split; [|split; [apply declared_arm|apply undeclared_no_arm]].
  intros e d Hk Hd. rewrite render_inner_unfold, render_scalar_node by done.
  unfold render_scalar. fold (scalar_name e). by rewrite Hd.
Qed.

(** In the Exasol dialect a verbatim function is re-emitted as the call Exasol
    sent: its name and, in order, exactly its rendered arguments. *)
Theorem exasol_verbatim_call {UC : UnicodeCase} {JD : JsonDisplay} e args rendered :
  get_str e "type" = Some "function_scalar" ->
  declared_scalar_fn (scalar_name e) = Some VerbatimCall ->
  get_array e "arguments" = Some args ->
  Forall2 (fun a s => render_expression_inner a Exasol = Ok (Some s)) args rendered ->
  render_expression_inner e Exasol = Ok (Some (scalar_name e ++ "(" ++ join ", " rendered ++ ")")).
Proof.
  intros Hk Hd Ha Hr. rewrite render_inner_unfold, render_scalar_node by done.
  unfold render_scalar. fold (scalar_name e). rewrite Hd, Ha. cbn [ok_or].
  assert (Hargs : forall i, try_mapi (fun i arg =>
      rec_or (fun x => render_expression_inner x Exasol) arg
        ("argument[" ++ show_nat i ++ "] rendered to null")) i args = Ok rendered).
  { clear -Hr. induction Hr as [|a s args rendered Ha _ IH]; intros i; [done|]. cbn [try_mapi].
    unfold rec_or at 1. rewrite Ha. cbn [ok_or]. by rewrite IH. }
  unfold render_args. by rewrite Hargs.
Qed.

(** [IN] ignores the null literals of its list: dropping them changes no
    rendering, and a list of nothing but nulls renders as [FALSE]. *)
Theorem in_constlist_ignores_nulls {UC : UnicodeCase} {JD : JsonDisplay} e e' d items :
  get_str e "type" = Some "predicate_in_constlist" ->
  get_str e' "type" = Some "predicate_in_constlist" ->
  get e "expression" = get e' "expression" ->
  get e "arguments" = Some (JArray items) ->
  get e' "arguments" = Some (JArray (List.filter (fun x => negb (is_null_literal x)) items)) ->
  render_expression_inner e d = render_expression_inner e' d
  /\ (forallb is_null_literal items = true ->
      forall t, render_expression_inner (field_or_null e "expression") d = Ok (Some t) ->
      render_expression_inner e d = Ok (Some "FALSE")).
Proof.
  intros Hk Hk' He Ha Ha'. rewrite (render_inner_unfold e), (render_inner_unfold e').
  rewrite !render_in_node by done. unfold render_in_constlist, field_or_null. rewrite <- He, Ha, Ha'.
  rewrite in_list_items_filter. split; [done|]. intros Hnull t Ht.
  unfold rec_or. rewrite Ht. cbn [ok_or].
  assert (Hl : in_list_items (fun x => render_expression_inner x d) items = Ok []).
  { clear -Hnull. induction items as [|x l IH]; [done|]. cbn in *.
    apply andb_prop in Hnull as [-> Hl]. auto. }
  by rewrite Hl.
Qed.

(** A negative literal under [NEG] renders with two adjacent minus signs, which
    both SQL grammars read as the start of a line comment. *)
Example neg_of_negative_literal :
  render_expression (UC := ascii_case) (JD := scalar_display)
    (json_object [("type", JString "function_scalar"); ("name", JString "NEG");
                  ("arguments", JArray [json_object [("type", JString "literal_exactnumeric");
                                                     ("value", JString "-5")]])])
  = Ok "(--5)".
Proof. reflexivity. Qed.

Definition abs_call : Json :=
  json_object [("type", JString "function_scalar"); ("name", JString "abs");
               ("arguments", JArray [to_json "x" None None])].

Lemma exasol_verbatim_call_witness :
  render_expression_inner (UC := ascii_case) (JD := scalar_display) abs_call Exasol
  = Ok (Some ("ABS(" ++ dq ++ "X" ++ dq ++ ")")).
Proof.
  apply (exasol_verbatim_call (UC := ascii_case) (JD := scalar_display) abs_call
    [to_json "x" None None] [dq ++ "X" ++ dq]); try reflexivity.
  repeat constructor.
Defined.

Definition in_node (items : list Json) : Json :=
  json_object [("type", JString "predicate_in_constlist");
               ("expression", to_json "x" None None); ("arguments", JArray items)].

Definition null_literal : Json := json_object [("type", JString "literal_null")].
Definition one_literal : Json :=
  json_object [("type", JString "literal_exactnumeric"); ("value", JString "1")].

Lemma in_constlist_ignores_nulls_witness :
  render_expression_inner (UC := ascii_case) (JD := scalar_display) (in_node [one_literal; null_literal]) DataFusion
  = render_expression_inner (UC := ascii_case) (JD := scalar_display) (in_node [one_literal]) DataFusion.
Proof.
  apply (in_constlist_ignores_nulls (UC := ascii_case) (JD := scalar_display)
    _ _ _ [one_literal; null_literal]); reflexivity.
Defined.
