(* ===== verification/RenderSafety.v ===== *)
(** Lexical safety of the renderer: whatever text a request carries in string
    literals, column names, aliases, formats or binary literals, the rendered SQL
    is a closed token sequence without comments, so no value escapes its quotes and
    no text swallows what follows it. *)

From stdpp Require Import base list strings numbers.
From Stdlib Require Import Ascii String.
From S2P Require Import Prelude Json ExasolType DatetimeFormat ColumnNode Render RenderFacts.

Local Open Scope string_scope.

(** ** The lexical structure of SQL text: quoted regions, parentheses and comments *)

(** [Dash] and [Slash]: outside quotes, just after a minus or a slash, where a second
    minus or a star would open a comment. *)
Inductive mode := Plain | Dash | Slash | InString | InIdent.

(** A character outside quotes that opens no comment. *)
Definition lex_plain (k : nat) (c : ascii) : option (mode * nat) :=
  if Ascii.eqb c sq_char then Some (InString, k)
  else if Ascii.eqb c dq_char then Some (InIdent, k)
  else if Ascii.eqb c "("%char then Some (Plain, S k)
  else if Ascii.eqb c ")"%char then match k with 0 => None | S k' => Some (Plain, k') end
  else if Ascii.eqb c "-"%char then Some (Dash, k)
  else if Ascii.eqb c "/"%char then Some (Slash, k)
  else Some (Plain, k).

Definition lex_step (st : mode * nat) (c : ascii) : option (mode * nat) :=
  match st with
  | (Plain, k) => lex_plain k c
  | (Dash, k) => if Ascii.eqb c "-"%char then None else lex_plain k c
  | (Slash, k) => if Ascii.eqb c "*"%char then None else lex_plain k c
  | (InString, k) => Some (if Ascii.eqb c sq_char then (Plain, k) else (InString, k))
  | (InIdent, k) => Some (if Ascii.eqb c dq_char then (Plain, k) else (InIdent, k))
  end.

Fixpoint lex (st : mode * nat) (s : string) : option (mode * nat) :=
  match s with
  | EmptyString => Some st
  | String c s' => match lex_step st c with Some st' => lex st' s' | None => None end
  end.

(** Reading [s] outside quotes at any nesting depth ends outside quotes at the
    same depth, never closes a parenthesis it did not open and opens no comment. *)
Definition sql_closed (s : string) : Prop := forall k, lex (Plain, k) s = Some (Plain, k).

(** A character with no lexical meaning outside quotes. *)
Definition plain_char (c : ascii) : bool :=
  negb (Ascii.eqb c sq_char || Ascii.eqb c dq_char || Ascii.eqb c "("%char || Ascii.eqb c ")"%char || Ascii.eqb c "-"%char || Ascii.eqb c "/"%char).

Definition plain : string -> bool := string_forallb plain_char.

Lemma lex_app st a b :
  lex st (a ++ b) = match lex st a with Some st' => lex st' b | None => None end.
Proof.
  revert st. induction a as [|c a IH]; intros st; [done|]. rewrite string_app_cons. cbn.
  destruct (lex_step st c); [apply IH|done].
Qed.

Lemma plain_closed s : plain s = true -> sql_closed s.
Proof.
  intros H k. induction s as [|c s IH]; [done|]. cbn in H. apply andb_prop in H as [Hc Hs].
  unfold plain_char in Hc. cbn [lex lex_step]. unfold lex_plain.
  destruct (Ascii.eqb c sq_char), (Ascii.eqb c dq_char), (Ascii.eqb c "("), (Ascii.eqb c ")"), (Ascii.eqb c "-"), (Ascii.eqb c "/"); try done.
  by apply IH.
Qed.

Lemma lex_in_string s k : lex (InString, k) (sql_escape s) = Some (InString, k).
Proof.
  unfold sql_escape. induction s as [|c s IH]; [done|]. cbn [replace_char].
  destruct (Ascii.eqb c sq_char) eqn:E; [exact IH|]. cbn [lex lex_step]. by rewrite E.
Qed.

Lemma lex_in_ident s k :
  lex (InIdent, k) (replace_char dq_char (dq ++ dq) s) = Some (InIdent, k).
Proof.
  induction s as [|c s IH]; [done|]. cbn [replace_char].
  destruct (Ascii.eqb c dq_char) eqn:E; [exact IH|]. cbn [lex lex_step]. by rewrite E.
Qed.

(** Runs the lexer over text whose variable pieces are known to be closed. *)
Ltac lex_run :=
  repeat first
    [ reflexivity
    | rewrite lex_in_string | rewrite lex_in_ident
    | match goal with
      | H : sql_closed ?s |- context [lex (Plain, _) ?s] => rewrite (H _)
      end
    | progress cbn [lex lex_step lex_plain Ascii.eqb Bool.eqb sq_char dq_char dq]
    | rewrite lex_app ].

Ltac closed := intros ?k; lex_run.

Lemma closed_quoted s : sql_closed ("'" ++ sql_escape s ++ "'").
Proof. closed. Qed.

Lemma closed_quote_ident s : sql_closed (quote_ident s).
Proof. unfold quote_ident. closed. Qed.

Lemma closed_app a b : sql_closed a -> sql_closed b -> sql_closed (a ++ b).
Proof. intros Ha Hb. closed. Qed.

Lemma closed_join sep l : sql_closed sep -> Forall sql_closed l -> sql_closed (join sep l).
Proof.
  intros Hsep Hl. induction Hl as [|x [|y l] Hx Hl IH]; [done|done|].
  change (join sep (x :: y :: l)) with (x ++ sep ++ join sep (y :: l)). closed.
Qed.

Lemma closed_show_N n : sql_closed (show_N n).
Proof.
  apply plain_closed. pose proof (show_N_digits n) as H. revert H. unfold plain.
  induction (show_N n) as [|c s IH]; cbn; [done|]. intros [Hc Hs]%andb_prop. rewrite IH by done.
  by destruct c as [[] [] [] [] [] [] [] []].
Qed.

(** Case folding does not create or remove lexical characters. *)
Lemma plain_lower s : plain (to_ascii_lowercase s) = plain s.
Proof.
  unfold plain. induction s as [|c s IH]; [done|]. cbn. rewrite IH. f_equal.
  by destruct c as [[] [] [] [] [] [] [] []].
Qed.

#[local] Hint Resolve closed_quoted closed_quote_ident closed_app closed_join closed_show_N : sql.

Lemma closed_display t : sql_closed (display t).
Proof.
  destruct t as [|[p s]| | |p|p|n a|n a|p|p f|n|n]; cbn [display precision scale];
    unfold timestamp_precision_suffix, character_set_suffix;
    repeat match goal with
      | |- context [show_N ?n] =>
          lazymatch goal with H : sql_closed (show_N n) |- _ => fail | _ => pose proof (closed_show_N n) end
      | |- context [if ?b then _ else _] => destruct b
      end; closed.
Qed.

(** ** Names the renderer spells out itself *)

Lemma one_of_forall (P : string -> bool) n l : one_of n l = true -> forallb P l = true -> P n = true.
Proof.
  unfold one_of. rewrite existsb_exists. intros (x & Hx & ->%String.eqb_eq) Hl.
  by eapply forallb_forall in Hl.
Qed.

Definition fixed_name (n : string) : bool := is_ascii_str n && plain n.

Section Names.
Context {UC : UnicodeCase} {JD : JsonDisplay}.

Lemma closed_lowercase n : fixed_name n = true -> sql_closed (to_lowercase n).
Proof.
  intros [Ha Hp]%andb_prop. rewrite to_lowercase_ascii by done. apply plain_closed.
  by rewrite plain_lower.
Qed.

Lemma closed_fixed n : fixed_name n = true -> sql_closed n.
Proof. intros [_ Hp]%andb_prop. by apply plain_closed. Qed.

Lemma declared_plain n form : declared_scalar_fn n = Some form -> sql_closed n.
Proof.
  unfold declared_scalar_fn. destruct (List.find _ _) as [row|] eqn:E; [|done]. intros _.
  apply List.find_some in E as [Hin Heq]. apply String.eqb_eq in Heq. apply plain_closed.
  rewrite <- plain_lower, <- Heq, plain_lower.
  assert (H : forallb (fun row => plain (fst row)) TRANSLATED_SCALAR_FNS = true) by reflexivity.
  by eapply forallb_forall in H.
Qed.

Lemma closed_quote_literal v : sql_closed (quote_literal v).
Proof. destruct v as [[]|]; cbn [quote_literal]; auto using closed_quoted; closed. Qed.

Lemma closed_timestamp_literal v : sql_closed (render_exasol_timestamp_literal v).
Proof.
  pose proof (closed_quote_literal v). destruct v as [[]|]; cbn [render_exasol_timestamp_literal]; closed.
Qed.

Lemma closed_tstz_literal v : sql_closed (render_exasol_tstz_literal v).
Proof.
  pose proof (closed_timestamp_literal v).
  destruct v as [[]|]; cbn [render_exasol_tstz_literal]; closed.
Qed.

Lemma closed_cast_target t d s : render_cast_target t d = Ok s -> sql_closed s.
Proof.
  pose proof (closed_display t). destruct d; cbn [render_cast_target]; [|by intros [= <-]].
  destruct t; cbn [datafusion_cast_target]; try done; try (by intros [= <-]); try (intros [= <-]; closed).
  destruct (existsb _ _); [|done]. intros [= <-]. pose proof (closed_show_N precision). closed.
Qed.

End Names.

(** ** The tokens a request supplies unquoted

    Three node kinds splice request text without quoting it: the value of a
    numeric literal, the field of [EXTRACT] and the name of an aggregate. A fourth,
    [NEG], writes its minus right before what its operand renders to. *)

Definition numeric_char (c : ascii) : bool :=
  is_ascii_digit c || one_of (String c "") ["."; "+"; "-"; "e"; "E"].

(** The characters of a number, no two minuses in a row and none at the end. *)
Definition numeric_token (s : string) : bool :=
  string_forallb numeric_char s && match lex (Plain, 0) s with Some (Plain, 0) => true | _ => false end.

Definition begins_minus (s : string) : bool := match s with String c _ => Ascii.eqb c "-"%char | EmptyString => false end.

Section Tokens.
Context {UC : UnicodeCase} {JD : JsonDisplay}.

Definition node_tokens_plain (d : Dialect) (m : list (string * Json)) : bool :=
  match map_get "type" m ≫= as_str with
  | Some kind =>
      if (kind =? "literal_exactnumeric") || (kind =? "literal_double") then
        match map_get "value" m with Some v => numeric_token (json_scalar_to_string v) | None => true end
      else if kind =? "function_scalar_extract" then
        match map_get "toExtract" m ≫= as_str with
        | Some f => plain (to_uppercase f) | None => true end
      else if kind =? "function_aggregate" then
        match map_get "name" m ≫= as_str with
        | Some n => plain (to_uppercase n) | None => true end
      else if kind =? "function_scalar" then
        if to_uppercase (default "" (map_get "name" m ≫= as_str)) =? "NEG" then
          match map_get "arguments" m ≫= as_array with
          | Some (a :: _) => match render_expression_inner a d with Ok (Some s) => negb (begins_minus s) | _ => true end
          | _ => true
          end
        else true
      else true
  | None => true
  end.

(** Every number of a request is written as one, every name it leaves unquoted is plain,
    and nothing it negates renders to a text that begins with a minus. *)
Fixpoint tokens_plain (d : Dialect) (j : Json) : bool :=
  match j with
  | JObject m =>
      node_tokens_plain d m &&
      (fix go (m : list (string * Json)) :=
         match m with [] => true | (_, v) :: m' => tokens_plain d v && go m' end) m
  | JArray l =>
      (fix go (l : list Json) :=
         match l with [] => true | x :: l' => tokens_plain d x && go l' end) l
  | _ => true
  end.

Lemma tokens_plain_field d e key v : tokens_plain d e = true -> get e key = Some v -> tokens_plain d v = true.
Proof.
  destruct e as [| | | | |m]; try done. cbn [tokens_plain get]. intros [_ H]%andb_prop.
  induction m as [|[k w] m IH]; [done|]. apply andb_prop in H as [Hw Hm]. cbn.
  destruct (String.eqb k key); [by intros [= <-]|auto].
Qed.

Lemma tokens_plain_items d l : tokens_plain d (JArray l) = true -> Forall (fun x => tokens_plain d x = true) l.
Proof.
  cbn. induction l as [|x l IH]; [by constructor|]. intros [Hx Hl]%andb_prop. constructor; auto.
Qed.

Lemma plain_in_string s k : plain s = true -> lex (InString, k) s = Some (InString, k).
Proof.
  induction s as [|c s IH]; [done|]. cbn. intros [Hc Hs]%andb_prop. unfold plain_char in Hc.
  destruct (Ascii.eqb c sq_char); [done|]. auto.
Qed.

Lemma fixed_in_string n k : fixed_name n = true -> lex (InString, k) n = Some (InString, k).
Proof. intros [_ Hp]%andb_prop. by apply plain_in_string. Qed.


Lemma plain_impl (p : ascii -> bool) s :
  (forall c, p c = true -> plain_char c = true) -> string_forallb p s = true -> plain s = true.
Proof.
  intros Hp. unfold plain. induction s as [|c s IH]; [done|]. cbn. intros [Hc Hs]%andb_prop.
  by rewrite Hp, IH.
Qed.

Lemma plain_hex s : string_forallb is_ascii_hexdigit s = true -> plain s = true.
Proof. apply plain_impl. intros c. by destruct c as [[] [] [] [] [] [] [] []]. Qed.

Lemma plain_show_N n : plain (show_N n) = true.
Proof.
  apply (plain_impl is_ascii_digit); [|apply show_N_digits]. intros c.
  by destruct c as [[] [] [] [] [] [] [] []].
Qed.

Lemma node_tokens_of d e : tokens_plain d e = true -> forall m, e = JObject m -> node_tokens_plain d m = true.
Proof. intros H m ->. by apply andb_prop in H as [? _]. Qed.

(** A number has no quotes or parentheses, so its depth does not matter. *)
Lemma lex_plain_numeric k c : numeric_char c = true -> exists md, lex_plain k c = Some (md, k) /\ (forall j, lex_plain j c = Some (md, j)).
Proof. intros H. destruct c as [[] [] [] [] [] [] [] []]; try discriminate H; by eexists. Qed.

Lemma lex_numeric s md k j : string_forallb numeric_char s = true -> (md = Plain \/ md = Dash) ->
  lex (md, k) s = (fun st => (st.1, k)) <$> lex (md, j) s.
Proof.
  revert md. induction s as [|c s IH]; intros md Hs Hm; [done|]. cbn [string_forallb] in Hs. apply andb_prop in Hs as [Hc Hs].
  assert (Hp : forall md', lex_plain j c = Some (md', j) -> md' = Plain \/ md' = Dash).
  { intros md'. destruct c as [[] [] [] [] [] [] [] []]; try discriminate Hc; intros [= <-]; auto. }
  destruct (lex_plain_numeric k c Hc) as (md' & Hk & Hj). specialize (Hp md' (Hj j)).
  cbn [lex]. destruct Hm as [-> | ->]; cbn [lex_step]; [|destruct (Ascii.eqb c "-"); [done|]]; rewrite Hk, Hj; by apply IH.
Qed.

Lemma numeric_token_closed s : numeric_token s = true -> sql_closed s.
Proof.
  unfold numeric_token. intros [Hs Hl]%andb_prop k. rewrite (lex_numeric s Plain k 0) by auto.
  by destruct (lex (Plain, 0) s) as [[[] []]|].
Qed.

Lemma numeric_token_plain d e kind v :
  tokens_plain d e = true -> get_str e "type" = Some kind ->
  (kind =? "literal_exactnumeric") || (kind =? "literal_double") = true ->
  get e "value" = Some v -> sql_closed (json_scalar_to_string v).
Proof.
  destruct e as [| | | | |m]; try done. intros Ht Hk Hn Hv.
  pose proof (node_tokens_of _ _ Ht m eq_refl) as Hm.
  unfold node_tokens_plain in Hm. unfold get_str in Hk. cbn in Hk, Hv.
  rewrite Hk, Hn, Hv in Hm. by apply numeric_token_closed.
Qed.

Lemma token_plain d e kind key f :
  tokens_plain d e = true -> get_str e "type" = Some kind ->
  (kind, key) ∈ [("function_scalar_extract", "toExtract"); ("function_aggregate", "name")] ->
  get_str e key = Some f -> plain (to_uppercase f) = true.
Proof.
  destruct e as [| | | | |m]; try done.
  intros Ht Hk Hin Hf. pose proof (node_tokens_of _ _ Ht m eq_refl) as Hm.
  unfold node_tokens_plain in Hm. unfold get_str in Hk, Hf. cbn in Hk, Hf.
  rewrite !elem_of_cons, elem_of_nil in Hin. destruct_or! Hin; simplify_eq;
    rewrite Hk in Hm; cbn in Hm; by rewrite Hf in Hm.
Qed.

Lemma literal_safe d e kind s :
  tokens_plain d e = true -> get_str e "type" = Some kind ->
  render_literal d e kind = Some (Ok (Some s)) -> sql_closed s.
Proof.
  intros Ht Hk H. pose proof (closed_quote_literal (get e "value")).
  pose proof (closed_timestamp_literal (get e "value")).
  pose proof (closed_tstz_literal (get e "value")).
  unfold render_literal in H.
  repeat match type of H with
    | (if ?b then _ else _) = _ => destruct b eqn:?
    | None = _ => done
    end.
  all: repeat first
    [ progress simplify_eq
    | match type of H with
      | (if ?b then _ else _) = _ => destruct b eqn:?
      | match ?x with _ => _ end = _ => destruct x eqn:?
      end
    | match goal with
      | |- context [match get ?x ?k with _ => _ end] => destruct (get x k) as [[]|] eqn:?
      | |- context [match get ?x ?k ≫= ?f with _ => _ end] => destruct (get x k ≫= f) eqn:?
      | |- context [match ?x with DataFusion => _ | Exasol => _ end] => destruct x
      | |- context [if ?b then _ else _] => destruct b eqn:?
      end ].
  all: try (eapply numeric_token_plain; eassumption).
  all: try assumption; try (closed; fail).
  all: unfold timestamp_literal_unit; repeat case_match; try closed.
  all: match goal with H : negb (string_forallb _ _) = false |- _ => apply negb_false_iff, plain_hex in H end.
  all: rewrite plain_in_string by done; lex_run.
  rewrite plain_in_string by apply plain_show_N. lex_run.
Qed.

Lemma column_safe e s : render_column e = Ok (Some s) -> sql_closed s.
Proof.
  unfold render_column. destruct (parse e) as [c|]; [|done]. cbn [ok_or].
  pose proof (closed_quote_ident (upper_name c)). intros [= <-].
  destruct (table_alias c) as [a|]; [|done]. pose proof (closed_quote_ident a).
  destruct (a =? ""); [done|]. closed.
Qed.

(** ** Arms *)

Section Arms.
Context (rec : Json -> result UdfError (option string)) (d : Dialect).

Definition safe (x : Json) : Prop := forall s, rec x = Ok (Some s) -> sql_closed s.

Lemma rec_or_safe e msg s : safe e -> rec_or rec e msg = Ok s -> sql_closed s.
Proof. unfold safe, rec_or. intros H. destruct (rec e) as [[t|]|]; cbn; naive_solver. Qed.

Lemma render_args_safe args l : Forall safe args -> render_args rec args = Ok l -> Forall sql_closed l.
Proof.
  unfold render_args. generalize 0 as i. intros i Hargs. revert i l.
  induction Hargs as [|a args Ha _ IH]; intros i l; cbn [try_mapi]; [by intros [= <-]|].
  destruct (rec_or rec a _) as [s|] eqn:E1; [|done].
  destruct (try_mapi _ _ _) as [ys|] eqn:E2; [|done]. intros [= <-].
  constructor; [by eapply rec_or_safe|by eapply IH].
Qed.

Lemma concat_args_safe args l :
  Forall safe args -> try_map (render_concat_arg rec d) args = Ok l -> Forall sql_closed l.
Proof.
  intros Hargs. revert l.
  induction Hargs as [|a args Ha _ IH]; intros l; cbn [try_map]; [by intros [= <-]|].
  unfold render_concat_arg at 1. destruct (rec_or rec a _) as [s|] eqn:E1; [|done].
  apply rec_or_safe in E1; [|done].
  destruct (try_map _ _) as [ys|] eqn:E2; [|done]. intros [= <-]. constructor; [|by eapply IH].
  destruct (_ && _); [|done]. unfold render_bool_to_string_case. closed.
Qed.

Lemma junction_parts_safe items l :
  Forall safe items -> junction_parts rec items = Ok l -> Forall sql_closed l.
Proof.
  intros Hi. revert l. induction Hi as [|a items Ha _ IH]; intros l; cbn; [by intros [= <-]|].
  destruct (rec a) as [r|] eqn:E1; [|done].
  destruct (junction_parts rec items) as [ys|] eqn:E2; [|done]. intros [= <-].
  specialize (IH _ eq_refl). destruct r as [s|]; [|done]. destruct (s =? ""); [done|].
  constructor; auto.
Qed.

Lemma in_list_items_safe items l :
  Forall safe items -> in_list_items rec items = Ok l -> Forall sql_closed l.
Proof.
  intros Hi. revert l. induction Hi as [|a items Ha _ IH]; intros l; cbn; [by intros [= <-]|].
  destruct (is_null_literal a); [apply IH|]. destruct (rec a) as [r|] eqn:E1; [|done].
  destruct (in_list_items rec items) as [ys|] eqn:E2; [|done]. intros [= <-].
  specialize (IH _ eq_refl). destruct r as [s|]; [|done]. constructor; auto.
Qed.

Lemma case_branches_safe whens results s :
  Forall safe whens -> Forall safe results -> case_branches rec whens results = Ok s -> sql_closed s.
Proof.
  intros Hw. revert results s.
  induction Hw as [|w ws Hw _ IH]; intros [|r rs] s Hr; cbn [case_branches].
  1, 3: by intros [= <-].
  - apply Forall_cons_1 in Hr as [Hr _]. destruct (rec_or rec r _) as [e|] eqn:E; [|done].
    intros [= <-]. apply rec_or_safe in E; [|done]. closed.
  - apply Forall_cons_1 in Hr as [Hr Hrs].
    destruct (rec_or rec w _) as [a|] eqn:E1; [|done]. destruct (rec_or rec r _) as [b|] eqn:E2; [|done].
    destruct (case_branches rec ws rs) as [c|] eqn:E3; [|done]. intros [= <-].
    apply rec_or_safe in E1, E2; try done. apply IH in E3; [|done]. closed.
Qed.

Lemma case_args_safe i args s : Forall safe args -> case_args rec i args = Ok s -> sql_closed s.
Proof.
  revert i args s. fix IH 2. intros i [|a [|b args]] s Hargs; cbn [case_args].
  - by intros [= <-].
  - apply Forall_cons_1 in Hargs as [Ha _]. destruct (rec_or rec a _) as [e|] eqn:E; [|done].
    intros [= <-]. apply rec_or_safe in E; [|done]. closed.
  - apply Forall_cons_1 in Hargs as [Ha [Hb Hargs]%Forall_cons_1].
    destruct (rec_or rec a _) as [x|] eqn:E1; [|done]. destruct (rec_or rec b _) as [y|] eqn:E2; [|done].
    destruct (case_args rec _ args) as [z|] eqn:E3; [|done]. intros [= <-].
    apply rec_or_safe in E1, E2; try done. apply IH in E3; [|done]. closed.
Qed.

(** Follows the [?]s of an arm that succeeded, collecting that every piece it
    spliced is closed. *)
Ltac follow H :=
  repeat first
    [ progress simplify_eq
    | match type of H with
      | match ?x with Ok _ => _ | Err _ => _ end = _ => destruct x eqn:?; [|done]
      | match ?l with [] => _ | _ :: _ => _ end = _ => destruct l
      | (if ?b then _ else _) = _ => destruct b eqn:?
      | match ?x with Some _ => _ | None => _ end = _ => destruct x eqn:?
      | ok_or ?x _ = _ => destruct x eqn:?; cbn [ok_or] in H
      end
    | match goal with
      | H' : Forall safe (_ :: _) |- _ => apply Forall_cons_1 in H' as [? H']
      | E : rec_or rec ?a _ = Ok _ |- _ => apply rec_or_safe in E; [|assumption]
      | E : ok_or ?x _ = Ok _ |- _ => destruct x eqn:?; cbn [ok_or] in E
      | E : render_args rec ?l = Ok _ |- _ =>
          apply render_args_safe in E; [|repeat (assumption || constructor)]
      | E : try_map (render_concat_arg rec d) ?l = Ok _ |- _ =>
          apply concat_args_safe in E; [|repeat (assumption || constructor)]
      | E : case_args rec _ ?l = Ok _ |- _ =>
          apply case_args_safe in E; [|repeat (assumption || constructor)]
      | E : render_cast_target _ _ = Ok _ |- _ => apply closed_cast_target in E
      | E : one_of ?n ?l = true |- _ => apply (one_of_forall fixed_name) in E; [|reflexivity]
      end ].

(** The fixed pieces: separators, fixed names, joined lists. *)
Ltac closed_pieces :=
  repeat match goal with
  | H : Forall sql_closed ?l |- context [join ?sep ?l] =>
      lazymatch goal with
      | H : sql_closed (join sep l) |- _ => fail
      | _ => assert (sql_closed (join sep l)) by (apply closed_join; [closed|assumption])
      end
  | H : fixed_name ?n = true |- context [to_lowercase ?n] =>
      lazymatch goal with
      | H : sql_closed (to_lowercase n) |- _ => fail
      | _ => pose proof (closed_lowercase n H)
      end
  | |- context [if ?b then _ else _] => destruct b
  | |- context [match d with DataFusion => _ | Exasol => _ end] => destruct d
  end.

Lemma cast_safe args dt s :
  (forall l, args = Some l -> Forall safe l) ->
  render_cast rec d args dt = Ok (Some s) -> sql_closed s.
Proof.
  intros Hargs H. unfold render_cast in H.
  destruct args as [args|]; [|done]; cbn [ok_or] in H; specialize (Hargs _ eq_refl).
  follow H; try done; unfold render_bool_to_string_case; closed.
Qed.

Lemma minus_closed s : sql_closed s -> begins_minus s = false -> sql_closed ("(-" ++ s ++ ")").
Proof.
  intros Hs Hm k. specialize (Hs (S k)). rewrite lex_app. cbn [lex lex_step lex_plain Ascii.eqb Bool.eqb sq_char dq_char].
  destruct s as [|c s]; [done|]. cbn [begins_minus] in Hm. rewrite lex_app. cbn [lex lex_step] in *. rewrite Hm, Hs. done.
Qed.

Lemma named_scalar_safe expr fn args s :
  (forall l, args = Some l -> Forall safe l) ->
  (fn = "NEG" -> forall a l t, args = Some (a :: l) -> rec a = Ok (Some t) -> begins_minus t = false) ->
  render_named_scalar rec d expr fn args = Ok (Some s) -> sql_closed s.
Proof.
  intros Hargs Hneg H. unfold render_named_scalar in H.
  destruct (fn =? "NEG") eqn:En.
  { apply String.eqb_eq in En as ->. cbn [one_of existsb String.eqb Ascii.eqb Bool.eqb orb] in H. unfold render_neg in H.
    destruct args as [[|a l]|]; try done. cbn [ok_or] in H. specialize (Hargs _ eq_refl). apply Forall_cons_1 in Hargs as [Ha _].
    unfold rec_or in H. destruct (rec a) as [[t|]|] eqn:Ea; try done. cbn in H. injection H as <-. apply minus_closed; [by apply Ha|by eapply Hneg]. }
  repeat match type of H with (if ?b then _ else _) = _ => destruct b eqn:? end; [..|done].
  all: unfold render_arithmetic, render_neg, render_cast, render_math, render_rounding,
    render_power, render_mod, render_concat, render_string_fn, render_instr, render_locate,
    render_case_fn, render_greatest, render_null_fn, render_date_part, render_date_trunc,
    render_to_datetime, render_conversion_source, render_between_fn in H.
  all: destruct args as [args|]; [|done]; cbn [ok_or] in H; specialize (Hargs _ eq_refl).
  all: follow H; try done;
    unfold CHECKED_FLOAT_DIV_FN, render_bool_to_string_case; closed_pieces; try closed.
  - assert (sql_closed (join " OR " (map (fun x => x ++ " IS NULL") a))).
    { apply closed_join; [closed|]. clear -Heqr. induction Heqr; constructor; [closed|done]. }
    lex_run.
  - rewrite fixed_in_string by done. lex_run.
Qed.
Section Node.
Context (e : Json).
Hypothesis field_safe : forall key, safe (field_or_null e key).
Hypothesis array_safe : forall key l, get e key = Some (JArray l) -> Forall safe l.
Hypothesis rec_renders : forall x, rec x = render_expression_inner x d.

Lemma args_safe key l : get_array e key = Some l -> Forall safe l.
Proof.
  unfold get_array. destruct (get e key) as [[]|] eqn:E; cbn; try done. intros [= <-]. eauto.
Qed.

Lemma junction_safe ex op ev s :
  sql_closed op -> sql_closed ev -> (forall l, ex = Some (JArray l) -> Forall safe l) ->
  render_junction rec ex op ev = Ok s -> sql_closed s.
Proof.
  intros Hop Hev Hex H. unfold render_junction in H.
  assert (Hparts : forall parts, match ex with Some (JArray items) => junction_parts rec items | _ => Ok [] end
    = Ok parts -> Forall sql_closed parts).
  { intros parts. destruct ex as [[]|]; try (by intros [= <-]). apply junction_parts_safe. eauto. }
  destruct (match ex with Some (JArray items) => junction_parts rec items | _ => Ok [] end)
    as [parts|]; [|done]. specialize (Hparts _ eq_refl). injection H as <-.
  destruct parts as [|p [|q parts]]; [done|by apply Forall_cons_1 in Hparts as [? _]|].
  pose proof (closed_join op _ Hop Hparts). closed.
Qed.

Lemma in_constlist_safe s : render_in_constlist rec e = Ok (Some s) -> sql_closed s.
Proof.
  unfold render_in_constlist. destruct (rec_or rec _ _) as [t|] eqn:Et; [|done].
  apply rec_or_safe in Et; [|apply field_safe]. intros H.
  assert (Hl : forall l, match get e "arguments" with Some (JArray args) => in_list_items rec args | _ => Ok [] end
    = Ok l -> Forall sql_closed l).
  { intros l. destruct (get e "arguments") as [[]|] eqn:E; try (by intros [= <-]).
    apply in_list_items_safe. eauto. }
  destruct (match get e "arguments" with Some (JArray args) => in_list_items rec args | _ => Ok [] end)
    as [l|]; [|done]. specialize (Hl _ eq_refl).
  destruct l as [|x l]; injection H as <-; [closed|].
  assert (Hc : sql_closed ", ") by closed. pose proof (closed_join ", " _ Hc Hl). closed.
Qed.

Lemma field_closed key s : rec (field_or_null e key) = Ok (Some s) -> sql_closed s.
Proof. apply field_safe. Qed.

Lemma rec_or_field_closed key msg s : rec_or rec (field_or_null e key) msg = Ok s -> sql_closed s.
Proof. apply rec_or_safe, field_safe. Qed.

(** The pieces of a predicate arm. *)
Ltac fields_closed :=
  repeat match goal with
  | E : rec (field_or_null e _) = Ok (Some _) |- _ => apply field_closed in E
  | E : rec_or rec (field_or_null e _) _ = Ok _ |- _ => apply rec_or_field_closed in E
  end.

Lemma predicate_safe kind s : render_predicate rec e kind = Some (Ok (Some s)) -> sql_closed s.
Proof.
  unfold render_predicate, render_between, render_like. intros H.
  pose proof (closed_quote_literal (get e "escape_char")).
  repeat match type of H with
    | (if ?b then _ else _) = _ => destruct b eqn:?
    | None = _ => done
    end; injection H as H.
  1, 2: destruct (render_junction _ _ _ _) eqn:Ej; [|done]; injection H as <-;
    eapply junction_safe in Ej; [done|closed|closed|]; eauto.
  4: by apply in_constlist_safe.
  all: follow H; try done; fields_closed; closed.
Qed.

Lemma binary_safe kind op s :
  sql_closed op -> render_binary rec e kind op = Ok (Some s) -> sql_closed s.
Proof. unfold render_binary. intros Hop H. follow H; try done; fields_closed; closed. Qed.

Lemma extract_safe kind s :
  tokens_plain d e = true -> get_str e "type" = Some kind ->
  (kind =? "function_scalar_extract") = true ->
  render_extract rec d e = Ok (Some s) -> sql_closed s.
Proof.
  intros Ht Hk ->%String.eqb_eq H. unfold render_extract in H.
  destruct (get_str e "toExtract") as [f|] eqn:Ef; [|done]. cbn [ok_or] in H.
  assert (Hp : plain (to_uppercase f) = true).
  { eapply token_plain; [done..| |done]. by left. }
  pose proof (plain_closed _ Hp).
  destruct (get_array e "arguments") as [l|] eqn:Ea; [|done]. cbn [ok_or] in H. apply args_safe in Ea.
  follow H; try done. destruct d; [|closed]. intros k. lex_run. rewrite plain_in_string by done. lex_run.
Qed.

Lemma aggregate_safe kind s :
  tokens_plain d e = true -> get_str e "type" = Some kind ->
  (kind =? "function_aggregate") = true ->
  render_aggregate rec e = Ok (Some s) -> sql_closed s.
Proof.
  intros Ht Hk ->%String.eqb_eq H. unfold render_aggregate in H.
  destruct (get_str e "name") as [f|] eqn:Ef; [|done]. cbn [ok_or] in H.
  assert (Hp : plain (to_uppercase f) = true).
  { eapply token_plain; [done..| |done]. right. by left. }
  pose proof (plain_closed _ Hp).
  destruct (get_array e "arguments") as [l|] eqn:Ea; [apply args_safe in Ea|]; follow H; try done;
    repeat case_match; closed_pieces; closed.
Qed.

Lemma scalar_case_safe s : render_scalar_case rec e = Ok (Some s) -> sql_closed s.
Proof.
  intros H. unfold render_scalar_case in H.
  destruct (get_array e "arguments") as [ws|] eqn:Ew; [|done].
  destruct (get_array e "results") as [rs|] eqn:Er; [|done]. cbn [ok_or] in H.
  apply args_safe in Ew, Er. destruct (_ && _); [done|].
  destruct (match get e "basis" with Some b => _ | None => _ end) as [b|] eqn:Eb; [|done].
  assert (Hb : sql_closed b).
  { destruct (get e "basis") as [x|] eqn:Ex; [|by injection Eb as <-].
    destruct (is_null x); [by injection Eb as <-|].
    destruct (rec_or rec x _) as [y|] eqn:Ey; [|done]. injection Eb as <-.
    apply rec_or_safe in Ey; [closed|]. pose proof (field_safe "basis") as Hf.
    unfold field_or_null in Hf. by rewrite Ex in Hf. }
  destruct (case_branches rec ws rs) as [c|] eqn:Ec; [|done].
  apply case_branches_safe in Ec; [|done|done]. injection H as <-. closed.
Qed.

(** What [NEG] is applied to does not begin with a minus. *)
Lemma neg_operand a l t : tokens_plain d e = true -> get_str e "type" = Some "function_scalar" ->
  to_uppercase (default "" (get_str e "name")) = "NEG" -> get_array e "arguments" = Some (a :: l) -> rec a = Ok (Some t) -> begins_minus t = false.
Proof.
  intros Ht Hk Hn Ha Hr. destruct e as [| | | | |m]; try done. pose proof (node_tokens_of _ _ Ht m eq_refl) as Hm. unfold node_tokens_plain in Hm.
  unfold get_str in Hk, Hn. cbn in Hk, Hn. unfold get_array in Ha. cbn in Ha. rewrite Hk in Hm. cbn in Hm. rewrite Hn, Ha in Hm. cbn in Hm.
  rewrite <- rec_renders, Hr in Hm. by apply negb_true_iff in Hm.
Qed.

Lemma node_safe s : tokens_plain d e = true -> render_node rec d e = Ok (Some s) -> sql_closed s.
Proof.
  intros Ht H. unfold render_node in H.
  destruct (is_null e); [done|]. destruct (is_object e) eqn:Eo; [|done]. cbn [negb] in H.
  destruct (get_str e "type") as [kind|] eqn:Ek; [|done].
  destruct (render_literal d e kind) as [r|] eqn:El; [subst r; by eapply literal_safe|].
  destruct (kind =? "column"); [by eapply column_safe|].
  destruct (binary_op kind) as [op|] eqn:Eb.
  { eapply binary_safe; [|done]. unfold binary_op in Eb. repeat case_match; simplify_eq; closed. }
  destruct (render_predicate rec e kind) as [r|] eqn:Ep; [subst r; by eapply predicate_safe|].
  repeat match type of H with (if ?b then _ else _) = _ => destruct b eqn:? end; [..|done].
  - by eapply extract_safe.
  - by apply scalar_case_safe.
  - eapply cast_safe; [apply args_safe|exact H].
  - unfold render_decimal_to_varchar in H.
    destruct (get_array e "arguments") as [l|] eqn:Ea; [|done]. cbn [ok_or] in H.
    apply args_safe in Ea. unfold format_decimal_exasol_style in H. follow H; try done. closed.
  - unfold render_scalar in H. destruct (declared_scalar_fn _) as [form|] eqn:Ed; [|done].
    apply declared_plain in Ed. match goal with Hb : (kind =? "function_scalar") = true |- _ => apply String.eqb_eq in Hb; subst kind end.
    assert (Hns : render_named_scalar rec d e (to_uppercase (default "" (get_str e "name"))) (get_array e "arguments") = Ok (Some s) -> sql_closed s).
    { apply named_scalar_safe; [apply (args_safe "arguments")|]. intros Hn a l t. by apply neg_operand. }
    destruct form; [|by apply Hns]. destruct d eqn:Hd; [by apply Hns|].
    destruct (get_array e "arguments") as [l|] eqn:Ea; [|done]. cbn [ok_or] in H.
    apply args_safe in Ea. follow H; try done. closed_pieces. closed.
  - by eapply aggregate_safe.
Qed.
End Node.
End Arms.
End Tokens.

(** C1. Lexical safety: every SQL text the renderer produces, in either dialect, is
    closed: each quote it opens it closes, parentheses balance, no comment opens, and no
    string literal, identifier, alias, escape character, format or binary value reaches
    past its own quotes. The request must write its numbers as numbers and its aggregate
    names and EXTRACT fields without quotes, parentheses, minuses or slashes, and must
    not negate what renders with a leading minus. *)
Theorem render_lexically_safe {UC : UnicodeCase} {JD : JsonDisplay} e d s :
  tokens_plain d e = true -> render_expression_inner e d = Ok (Some s) -> sql_closed s.
Proof.
  revert s. induction e as [e IH] using json_depth_ind. intros s Ht H.
  rewrite render_inner_unfold in H. eapply node_safe; [..|exact Ht|exact H].
  - intros key t. unfold field_or_null. destruct (get e key) as [v|] eqn:Ev; cbn; [|done].
    apply IH; [by eapply get_shallower|by eapply tokens_plain_field].
  - intros key l El. pose proof (tokens_plain_field _ _ _ _ Ht El) as Hl.
    apply tokens_plain_items in Hl. rewrite Forall_forall in Hl |- *. intros x Hx t.
    apply IH; [|by apply Hl]. eapply get_array_shallower; [|by apply list_elem_of_In].
    unfold get_array. by rewrite El.
  - done.
Qed.

(** A negated column, a quoted quote and a quoted comment. *)
Definition hostile_request : Json :=
  json_object [("type", JString "predicate_equal");
               ("left", json_object [("type", JString "function_scalar"); ("name", JString "NEG");
                                     ("arguments", JArray [to_json ("A" ++ dq ++ "--B") None None])]);
               ("right", json_object [("type", JString "literal_string");
                                      ("value", JString "x' OR '1'='1 --")])].

Lemma render_lexically_safe_witness :
  tokens_plain (UC := ascii_case) (JD := scalar_display) DataFusion hostile_request = true
  /\ sql_closed ("((-" ++ dq ++ "A" ++ dq ++ dq ++ "--B" ++ dq ++ ") = 'x'' OR ''1''=''1 --')").
Proof.
  split; [reflexivity|].
  apply (render_lexically_safe (UC := ascii_case) (JD := scalar_display) hostile_request DataFusion); reflexivity.
Defined.

(** What the condition on [NEG] leaves out: the negation of a negative number renders as
    the beginning of a comment. *)
Definition negated_negative : Json :=
  json_object [("type", JString "function_scalar"); ("name", JString "NEG");
               ("arguments", JArray [json_object [("type", JString "literal_exactnumeric"); ("value", JString "-5")]])].

(** The renderer turns NEG of the literal -5 into (--5), whose second half is a comment to
    both dialects: the text is not closed. *)
Theorem negated_negative_opens_comment :
  render_expression_inner (UC := ascii_case) (JD := scalar_display) negated_negative Exasol = Ok (Some "(--5)")
  /\ ~ sql_closed "(--5)".
Proof. split; [reflexivity|]. intros H. by specialize (H 0). Qed.
