(* ===== verification/ArrowTypes.v ===== *)
(** What the scan's own functions share: the part of Arrow's [DataType] the engine's
    typing rules look at, and the session's record of a raised user error
    (crates/lakehouse-engine/src/scan/raised_failure.rs). *)

From stdpp Require Import base list strings numbers gmap.
From Stdlib Require Import String.
From S2P Require Import Prelude.

Inductive TimeUnit := USecond | UMillisecond | UMicrosecond | UNanosecond.

#[export] Instance TimeUnit_eq_dec : EqDecision TimeUnit.
Proof. solve_decision. Defined.

Inductive IntervalUnit := YearMonth | DayTime | MonthDayNano.

#[export] Instance IntervalUnit_eq_dec : EqDecision IntervalUnit.
Proof. solve_decision. Defined.

(** Arrow's [DataType] and [Field]. A decimal carries its precision ([u8]) and
    its scale ([i8]), a fixed width is an [i32]; the metadata of a field is a
    map of texts. *)
Inductive DataType : Type :=
| TNull
| TBoolean
| TInt8 | TInt16 | TInt32 | TInt64
| TUInt8 | TUInt16 | TUInt32 | TUInt64
| TFloat16 | TFloat32 | TFloat64
| TDecimal32 (p s : Z) | TDecimal64 (p s : Z) | TDecimal128 (p s : Z) | TDecimal256 (p s : Z)
| TDate32 | TDate64
| TTime32 (unit : TimeUnit) | TTime64 (unit : TimeUnit)
| TDuration (unit : TimeUnit) | TInterval (unit : IntervalUnit)
| TTimestamp (unit : TimeUnit) (tz : option string)
| TBinary | TFixedSizeBinary (width : Z) | TLargeBinary | TBinaryView
| TUtf8 | TLargeUtf8 | TUtf8View
| TList (item : Field) | TListView (item : Field) | TFixedSizeList (item : Field) (size : Z)
| TLargeList (item : Field) | TLargeListView (item : Field)
| TStruct (fields : list Field)
| TUnion (fields : list (Z * Field)) (dense : bool)
| TDictionary (key value : DataType)
| TMap (entries : Field) (sorted : bool)
| TRunEndEncoded (run_ends values : Field)
with Field : Type :=
| MkField (name : string) (data_type : DataType) (nullable : bool) (metadata : gmap string string).

Definition field_name (f : Field) : string := let '(MkField n _ _ _) := f in n.
Definition field_type (f : Field) : DataType := let '(MkField _ t _ _) := f in t.
Definition field_nullable (f : Field) : bool := let '(MkField _ _ b _) := f in b.
Definition field_metadata (f : Field) : gmap string string := let '(MkField _ _ _ m) := f in m.

(** [Field::with_name] and [Field::with_data_type]. *)
Definition with_name (f : Field) (n : string) : Field :=
  let '(MkField _ t b m) := f in MkField n t b m.
Definition with_data_type (f : Field) (t : DataType) : Field :=
  let '(MkField n _ b m) := f in MkField n t b m.

Fixpoint DataType_dec (a b : DataType) {struct a} : {a = b} + {a <> b}
with Field_dec (a b : Field) {struct a} : {a = b} + {a <> b}.
Proof.
  - decide equality; try (apply (decide_rel (=))).
    + exact (list_eq_dec (dec := Field_dec) fields fields0).
    + exact (list_eq_dec (dec := prod_eq_dec (EqDecision1 := Field_dec)) fields fields0).
  - decide equality; apply (decide_rel (=)).
Defined.

#[export] Instance DataType_eq_dec : EqDecision DataType := DataType_dec.
#[export] Instance Field_eq_dec : EqDecision Field := Field_dec.

Definition is_integer (t : DataType) : bool :=
  match t with
  | TInt8 | TInt16 | TInt32 | TInt64 | TUInt8 | TUInt16 | TUInt32 | TUInt64 => true
  | _ => false
  end.

Definition is_signed_integer (t : DataType) : bool :=
  match t with TInt8 | TInt16 | TInt32 | TInt64 => true | _ => false end.

Definition is_floating (t : DataType) : bool :=
  match t with TFloat16 | TFloat32 | TFloat64 => true | _ => false end.

Definition is_decimal_type (t : DataType) : bool :=
  match t with
  | TDecimal32 _ _ | TDecimal64 _ _ | TDecimal128 _ _ | TDecimal256 _ _ => true
  | _ => false
  end.

Definition is_null_type (t : DataType) : bool := match t with TNull => true | _ => false end.

(** [DataType::is_nested] and [DataType::is_binary]. *)
Fixpoint is_nested (t : DataType) : bool :=
  match t with
  | TList _ | TListView _ | TFixedSizeList _ _ | TLargeList _ | TLargeListView _ | TStruct _ | TUnion _ _ | TMap _ _ => true
  | TDictionary _ value => is_nested value
  | TRunEndEncoded _ (MkField _ value _ _) => is_nested value
  | _ => false
  end.

Definition is_binary (t : DataType) : bool :=
  match t with TBinary | TFixedSizeBinary _ | TLargeBinary | TBinaryView => true | _ => false end.

(** A scalar by its type: a NULL, or a value as the scan carries it. A float keeps
    its bits. *)
Inductive ScalarValue :=
| SvNull (t : DataType)
| SvBoolean (b : bool)
| SvInteger (t : DataType) (v : Z)
| SvFloat (t : DataType) (bits : Z)
| SvText (t : DataType) (s : string)
| SvBytes (t : DataType) (s : string).

#[export] Instance ScalarValue_eq_dec : EqDecision ScalarValue.
Proof. solve_decision. Defined.

Definition scalar_type (v : ScalarValue) : DataType :=
  match v with
  | SvNull t | SvInteger t _ | SvFloat t _ | SvText t _ | SvBytes t _ => t
  | SvBoolean _ => TBoolean
  end.

Definition is_null_scalar (v : ScalarValue) : bool := match v with SvNull _ => true | _ => false end.

Local Open Scope Z_scope.

(** The values an Arrow array of an exact type holds, as unscaled integers. *)
Definition in_type (t : DataType) (v : Z) : Prop :=
  match t with
  | TInt8 => -128 <= v < 128
  | TInt16 => -32768 <= v < 32768
  | TInt32 => -2147483648 <= v < 2147483648
  | TInt64 => -9223372036854775808 <= v < 9223372036854775808
  | TUInt8 => 0 <= v < 256
  | TUInt16 => 0 <= v < 65536
  | TUInt32 => 0 <= v < 4294967296
  | TUInt64 => 0 <= v < 18446744073709551616
  | TDecimal128 p _ => Z.abs v < 10 ^ p
  | _ => False
  end.

(** ** raised_failure.rs *)

(** [OnceLock<String>]: unset, or the failure first recorded. *)
Definition RaisedFailure : Type := option string.

(** [let _ = self.0.set(failure)]: a second [set] is refused and its refusal dropped. *)
Definition record (raised : RaisedFailure) (failure : string) : RaisedFailure :=
  match raised with None => Some failure | Some _ => raised end.

Lemma record_twice raised a b : record (record raised a) b = record raised a.
Proof. by destruct raised. Qed.
