(* ===== verification/SparkTypes.v ===== *)
(** The type systems of the table formats, as the engine reads them: Iceberg's
    [iceberg::spec::{PrimitiveType, Type}] and Spark's
    [delta_kernel::schema::{PrimitiveType, DataType, StructField}], in which Delta,
    Unity Catalog and Glue columns are typed. Both crates are dependencies: only
    their data is reproduced here, with the constructors the engine matches on. *)

From stdpp Require Import base list strings numbers gmap.
From Stdlib Require Import Ascii String ZArith.
From S2P Require Import Prelude Json.

(** ** Iceberg *)

(** Precision and scale are [u32], a fixed width is [u64]. *)
Inductive IcebergPrimitive : Type :=
| IBoolean | IInt | ILong | IFloat | IDouble
| IDecimal (precision scale : N)
| IDate | ITime
| ITimestamp | ITimestamptz | ITimestampNs | ITimestamptzNs
| IString | IUuid | IFixed (width : N) | IBinary
| IGeometry (crs : string) | IGeography (crs : string) | IUnknown.

#[export] Instance IcebergPrimitive_eq_dec : EqDecision IcebergPrimitive.
Proof. solve_decision. Defined.

(** [PrimitiveLiteral]: a float keeps its bits, an [UInt128] is a UUID. A [Literal] is
    one of these or a nested value, which the engine never opens. *)
Inductive IcebergLiteral : Type :=
| LBoolean (b : bool)
| LInt (v : Z) | LLong (v : Z)
| LFloat (bits : Z) | LDouble (bits : Z)
| LString (s : string) | LBinary (bytes : string)
| LInt128 (v : Z) | LUInt128 (v : N)
| LNested.

Inductive IcebergType : Type :=
| IPrimitive (p : IcebergPrimitive)
| IStruct (fields : list IcebergField)
| IList (element : IcebergField)
| IMap (key value : IcebergField)
| IVariant
with IcebergField : Type :=
| MkIcebergField (id : Z) (name : string) (required : bool) (field_type : IcebergType) (initial_default : option IcebergLiteral).

Definition iceberg_field_id (f : IcebergField) : Z := let '(MkIcebergField i _ _ _ _) := f in i.
Definition iceberg_field_name (f : IcebergField) : string := let '(MkIcebergField _ n _ _ _) := f in n.
Definition iceberg_field_required (f : IcebergField) : bool := let '(MkIcebergField _ _ r _ _) := f in r.
Definition iceberg_field_type (f : IcebergField) : IcebergType := let '(MkIcebergField _ _ _ t _) := f in t.
Definition iceberg_initial_default (f : IcebergField) : option IcebergLiteral := let '(MkIcebergField _ _ _ _ d) := f in d.

(** Structural induction through the members of a type. *)
Section IcebergInduction.
Variable P : IcebergType -> Prop.
Variable Hprim : forall p, P (IPrimitive p).
Variable Hstruct : forall fields, Forall (fun f => P (iceberg_field_type f)) fields -> P (IStruct fields).
Variable Hlist : forall e, P (iceberg_field_type e) -> P (IList e).
Variable Hmap : forall k v, P (iceberg_field_type k) -> P (iceberg_field_type v) -> P (IMap k v).
Variable Hvar : P IVariant.

Fixpoint iceberg_type_ind' (t : IcebergType) : P t :=
  match t with
  | IPrimitive p => Hprim p
  | IStruct fields =>
      Hstruct fields
        ((fix go (l : list IcebergField) : Forall (fun f => P (iceberg_field_type f)) l :=
            match l with
            | [] => Forall_nil_2 _
            | MkIcebergField i n r ft d :: l' => Forall_cons_2 _ (MkIcebergField i n r ft d) l' (iceberg_type_ind' ft) (go l')
            end) fields)
  | IList (MkIcebergField i n r ft d) => Hlist (MkIcebergField i n r ft d) (iceberg_type_ind' ft)
  | IMap (MkIcebergField i n r kt d) (MkIcebergField i' n' r' vt d') =>
      Hmap (MkIcebergField i n r kt d) (MkIcebergField i' n' r' vt d') (iceberg_type_ind' kt) (iceberg_type_ind' vt)
  | IVariant => Hvar
  end.
End IcebergInduction.

(** ** Spark *)

(** Decimal precision and scale are [u8]. *)
Inductive SparkPrimitive : Type :=
| SString | SLong | SInteger | SShort | SByte | SFloat | SDouble | SBoolean | SBinary
| SDate | STimestamp | STimestampNtz | SVoid | SIntervalYearMonth | SIntervalDayTime
| SDecimal (precision scale : N).

#[export] Instance SparkPrimitive_eq_dec : EqDecision SparkPrimitive.
Proof. solve_decision. Defined.

(** [MetadataValue]; a number is an [i64]. *)
Inductive MetadataValue : Type :=
| MNumber (n : Z)
| MString (s : string)
| MBoolean (b : bool)
| MOther (j : Json).

Inductive SparkType : Type :=
| SPrimitive (p : SparkPrimitive)
| SArray (element : SparkType) (contains_null : bool)
| SStruct (fields : list StructField)
| SMap (key value : SparkType) (value_contains_null : bool)
| SVariant
with StructField : Type :=
| MkStructField (name : string) (data_type : SparkType) (nullable : bool)
    (metadata : gmap string MetadataValue).

Definition spark_name (f : StructField) : string := let '(MkStructField n _ _ _) := f in n.
Definition spark_type (f : StructField) : SparkType := let '(MkStructField _ t _ _) := f in t.
Definition spark_nullable (f : StructField) : bool := let '(MkStructField _ _ b _) := f in b.
Definition spark_metadata (f : StructField) : gmap string MetadataValue :=
  let '(MkStructField _ _ _ m) := f in m.

(** [StructField::nullable]. *)
Definition nullable_field (name : string) (t : SparkType) : StructField :=
  MkStructField name t true ∅.

(** How a table's columns are named in its files ([table_features::ColumnMappingMode]). *)
Inductive ColumnMappingMode := ModeNone | ModeId | ModeName.

(** What the engine calls of [delta_kernel]: the checks its type constructors
    make, its display of a type, and its deserializers. [decimal_valid] is
    [DecimalType::try_new]; [struct_check] is [StructType::try_new], whose only
    refusals concern the names of the fields. *)
Class DeltaKernel := {
  decimal_valid : N -> N -> bool;
  struct_check : list StructField -> result string unit;
  spark_type_display : SparkType -> string;
  metadata_display : MetadataValue -> string;
  struct_field_of_json : string -> result string StructField;
  primitive_of_json : string -> option SparkPrimitive;
}.

(** The precision and scale every Delta decimal satisfies ([DecimalType::try_new]
    rejects a precision of zero or over 38 and a scale over the precision), and
    a schema whose field names differ ignoring case, which [StructType::try_new]
    accepts. *)
Class DeltaKernelLaws (DK : DeltaKernel) : Prop := {
  decimal_valid_spec p s : decimal_valid p s = true <-> (1 <= p <= 38)%N /\ (s <= p)%N;
  struct_check_distinct fields :
    NoDup (map (fun f => to_ascii_lowercase (spark_name f)) fields) ->
    Forall (fun f => is_ascii_str (spark_name f) = true) fields -> struct_check fields = Ok tt;
}.

(** Structural induction through the nested lists. *)
Section SparkInduction.
Variable P : SparkType -> Prop.
Variable Hprim : forall p, P (SPrimitive p).
Variable Harr : forall e b, P e -> P (SArray e b).
Variable Hstruct : forall fields, Forall (fun f => P (spark_type f)) fields -> P (SStruct fields).
Variable Hmap : forall k v b, P k -> P v -> P (SMap k v b).
Variable Hvar : P SVariant.

Fixpoint spark_type_ind' (t : SparkType) : P t :=
  match t with
  | SPrimitive p => Hprim p
  | SArray e b => Harr e b (spark_type_ind' e)
  | SStruct fields =>
      Hstruct fields
        ((fix go (l : list StructField) : Forall (fun f => P (spark_type f)) l :=
            match l with
            | [] => Forall_nil_2 _
            | f :: l' =>
                Forall_cons_2 (fun f => P (spark_type f)) f l'
                  (match f with MkStructField _ t _ _ => spark_type_ind' t end) (go l')
            end) fields)
  | SMap k v b => Hmap k v b (spark_type_ind' k) (spark_type_ind' v)
  | SVariant => Hvar
  end.
End SparkInduction.

(** A kernel concrete runs use: the checks as documented, every display and
    deserializer absent. *)
Definition plain_kernel : DeltaKernel := {|
  decimal_valid p s := (1 <=? p)%N && (p <=? 38)%N && (s <=? p)%N;
  struct_check fields :=
    if decide (NoDup (map (fun f => to_ascii_lowercase (spark_name f)) fields)) then Ok tt
    else Err "Duplicate field name"%string;
  spark_type_display _ := ""%string;
  metadata_display _ := ""%string;
  struct_field_of_json _ := Err "EOF while parsing a value"%string;
  primitive_of_json _ := None;
|}.

#[export] Instance plain_kernel_laws : DeltaKernelLaws plain_kernel.
Proof.
  split.
  - intros p s. cbn. rewrite !andb_true_iff, !N.leb_le. lia.
  - intros fields Hn _. cbn. by rewrite decide_True.
Qed.
