(* ===== verification/HiveType.v ===== *)
(** crates/lakehouse-engine/src/types/hive_type.rs: the recursive-descent parser
    of a Glue column's Hive type into the Spark type the engine classifies.

    The cursor's [rest] is threaded through every operation; the cursor's [depth]
    is an argument, since it is restored on every return. A failed operation ends
    the parse, so the cursor it leaves behind is never read. *)

From stdpp Require Import base list strings numbers gmap.
From Stdlib Require Import Ascii String ZArith NArith Lia.
From S2P Require Import Prelude Text SparkTypes.

Local Open Scope string_scope.

(** A parse stops with a problem of the text; [OutOfFuel] marks a recursion the
    model cut off, which [parse_hive_type_terminates] excludes. *)
Inductive Stop := OutOfFuel | Problem (problem : string).

Notation parsed A := (result Stop A).
Notation problem msg := (Err (Problem msg)).

Definition DEFAULT_DECIMAL : N * N := (10, 0)%N.
Definition MAX_NESTING_DEPTH : nat := 128.

(** ** The cursor's tokens *)

Definition position (rest : string) : string :=
  match trim_start rest with
  | "" => "at the end"
  | rest => "before '" ++ rest ++ "'"
  end.

(** [s.find(p).unwrap_or(s.len())], then [split_at]. *)
Fixpoint split_where (p : ascii -> bool) (s : string) : string * string :=
  match s with
  | EmptyString => ("", "")
  | String c s' => if p c then ("", s) else let '(a, b) := split_where p s' in (String c a, b)
  end.

Definition is_word_char (c : ascii) : bool :=
  is_ascii_digit c || is_ascii_upper c || is_ascii_lower c || Ascii.eqb c "_".

Definition word (rest : string) : string * string :=
  split_where (fun c => negb (is_word_char c)) (trim_start rest).

Definition number (rest : string) : parsed (N * string) :=
  let '(w, rest) := word rest in
  match parse_unsigned (Z.to_N u32_max) w with
  | Some n => Ok (n, rest)
  | None => problem ("is malformed: expected a number, found '" ++ w ++ "'")
  end.

(** [None] leaves the cursor where it was. *)
Definition eat (expected : ascii) (rest : string) : option string :=
  strip_prefix (String expected "") (trim_start rest).

Definition expect (expected : ascii) (rest : string) : parsed string :=
  match eat expected rest with
  | Some rest => Ok rest
  | None => problem ("is malformed: expected '" ++ String expected "' " ++ position rest)
  end.

Definition is_delimiter (c : ascii) : bool :=
  Ascii.eqb c ":" || Ascii.eqb c "," || Ascii.eqb c "<" || Ascii.eqb c ">".

Definition member_name (rest : string) : parsed (string * string) :=
  let '(name, rest') := split_where is_delimiter rest in
  let name := trim name in
  if String.eqb name "" then problem ("is malformed: expected a struct member name " ++ position rest)
  else Ok (name, rest').

Definition end_ (rest : string) : parsed unit :=
  if String.eqb (trim rest) "" then Ok tt
  else problem ("is malformed: unexpected '" ++ trim rest ++ "'").

(** ** Types *)

(** The type names that stand alone. *)
Definition PLAIN_TYPES : list (string * SparkPrimitive) :=
  [("tinyint", SByte); ("smallint", SShort); ("int", SInteger); ("integer", SInteger);
   ("bigint", SLong); ("float", SFloat); ("double", SDouble); ("boolean", SBoolean);
   ("string", SString); ("date", SDate); ("timestamp", STimestampNtz); ("binary", SBinary)].

Fixpoint plain_type (name : string) (types : list (string * SparkPrimitive)) : option SparkPrimitive :=
  match types with
  | [] => None
  | (n, p) :: types' => if String.eqb name n then Some p else plain_type name types'
  end.

Definition length_ (rest : string) : parsed (N * string) :=
  let? rest := expect "(" rest in
  let? (n, rest) := number rest in
  let? rest := expect ")" rest in
  Ok (n, rest).

Section Parser.
Context {DK : DeltaKernel}.

Definition decimal (rest : string) : parsed (SparkType * string) :=
  let? (precision, scale, rest) :=
    match eat "(" rest with
    | Some rest =>
        let? (precision, rest) := number rest in
        let? (scale, rest) :=
          match eat "," rest with
          | Some rest => number rest
          | None => Ok (0%N, rest)
          end in
        let? rest := expect ")" rest in
        Ok (precision, scale, rest)
    | None => Ok (DEFAULT_DECIMAL.1, DEFAULT_DECIMAL.2, rest)
    end in
  let invalid :=
    "is malformed: decimal(" ++ show_N precision ++ "," ++ show_N scale ++ ") is not a valid decimal" in
  if ((precision <=? 255) && (scale <=? 255))%N && decimal_valid precision scale
  then Ok (SPrimitive (SDecimal precision scale), rest)
  else problem invalid.

Definition nested {A} (depth : nat) (parse : nat -> parsed A) : parsed A :=
  if (depth =? MAX_NESTING_DEPTH)%nat
  then problem ("is malformed: it nests deeper than " ++ show_nat MAX_NESTING_DEPTH ++ " levels")
  else parse (S depth).

Definition array (data_type : string -> parsed (SparkType * string)) (rest : string) : parsed (SparkType * string) :=
  let? rest := expect "<" rest in
  let? (element, rest) := data_type rest in
  let? rest := expect ">" rest in
  Ok (SArray element true, rest).

Definition map_ (data_type : string -> parsed (SparkType * string)) (rest : string) : parsed (SparkType * string) :=
  let? rest := expect "<" rest in
  let? (key, rest) := data_type rest in
  let? rest := expect "," rest in
  let? (value, rest) := data_type rest in
  let? rest := expect ">" rest in
  Ok (SMap key value true, rest).

Definition struct_type (members : string -> parsed (list StructField * string)) (rest : string)
    : parsed (SparkType * string) :=
  let? rest := expect "<" rest in
  let? (fields, rest) := members rest in
  let? rest := expect ">" rest in
  match struct_check fields with
  | Ok _ => Ok (SStruct fields, rest)
  | Err error => problem ("is malformed: " ++ error)
  end.

(** [data_type] and the [loop] of [struct_type]. *)
Fixpoint data_type (fuel depth : nat) (rest : string) : parsed (SparkType * string) :=
  match fuel with
  | 0 => Err OutOfFuel
  | S fuel =>
      let '(w, rest) := word rest in
      let name := to_ascii_lowercase w in
      match plain_type name PLAIN_TYPES with
      | Some p => Ok (SPrimitive p, rest)
      | None =>
          if String.eqb name "varchar" || String.eqb name "char" then
            let? (_, rest) := length_ rest in Ok (SPrimitive SString, rest)
          else if String.eqb name "decimal" then decimal rest
          else if String.eqb name "array" then nested depth (fun depth => array (data_type fuel depth) rest)
          else if String.eqb name "map" then nested depth (fun depth => map_ (data_type fuel depth) rest)
          else if String.eqb name "struct" then
            nested depth (fun depth => struct_type (members fuel depth) rest)
          else if String.eqb name "" then problem ("is malformed: expected a type " ++ position rest)
          else problem ("names the unrecognized type '" ++ w ++ "'")
      end
  end
with members (fuel depth : nat) (rest : string) : parsed (list StructField * string) :=
  match fuel with
  | 0 => Err OutOfFuel
  | S fuel =>
      let? (name, rest) := member_name rest in
      let? rest := expect ":" rest in
      let? (t, rest) := data_type fuel depth rest in
      let field := nullable_field name t in
      match eat "," rest with
      | Some rest => let? (fields, rest) := members fuel depth rest in Ok (field :: fields, rest)
      | None => Ok ([field], rest)
      end
  end.

Definition hive_fuel (hive_type : string) : nat := S (String.length hive_type).

Definition parse_hive_type (hive_type : string) : parsed SparkType :=
  match (let? (t, rest) := data_type (hive_fuel hive_type) 0 hive_type in
         let? _ := end_ rest in Ok t) with
  | Ok t => Ok t
  | Err OutOfFuel => Err OutOfFuel
  | Err (Problem p) => problem ("Hive type '" ++ hive_type ++ "' " ++ p)
  end.
End Parser.

(** ** Termination *)

Lemma split_where_app p s : let '(a, b) := split_where p s in s = a ++ b.
Proof.
  induction s as [|c s IH]; cbn; [done|]. destruct (p c); [done|].
  destruct (split_where p s) as [a b]. by rewrite string_app_cons, <- IH.
Qed.

Lemma word_le rest : String.length (word rest).2 <= String.length rest.
Proof.
  unfold word. pose proof (split_where_app (fun c => negb (is_word_char c)) (trim_start rest)) as H.
  destruct (split_where _ _) as [a b]. apply (f_equal String.length) in H.
  rewrite string_length_app in H. pose proof (trim_start_le rest). cbn. lia.
Qed.

Lemma number_le rest n rest' : number rest = Ok (n, rest') -> String.length rest' <= String.length rest.
Proof.
  unfold number. pose proof (word_le rest). destruct (word rest) as [w r]. cbn in *.
  destruct (parse_unsigned _ w); [|done]. by intros [= _ <-].
Qed.

Lemma eat_lt c rest rest' : eat c rest = Some rest' -> String.length rest' < String.length rest.
Proof.
  unfold eat. intros H%strip_prefix_spec. pose proof (trim_start_le rest) as L. rewrite H in L.
  rewrite string_length_app in L. cbn in L. lia.
Qed.

Lemma expect_lt c rest rest' : expect c rest = Ok rest' -> String.length rest' < String.length rest.
Proof. unfold expect. destruct (eat c rest) eqn:E; [|done]. intros [= ->]. by apply eat_lt in E. Qed.

Lemma member_name_le rest name rest' :
  member_name rest = Ok (name, rest') -> String.length rest' <= String.length rest.
Proof.
  unfold member_name. pose proof (split_where_app is_delimiter rest) as H.
  destruct (split_where is_delimiter rest) as [a b]. destruct (String.eqb (trim a) ""); [done|].
  intros [= _ <-]. rewrite H, string_length_app. lia.
Qed.

(** [consumes s r]: [r] is not a fuel failure, and what it leaves is no longer
    than [s]. *)
Definition consumes {A} (s : string) (r : parsed (A * string)) : Prop :=
  match r with
  | Ok (_, rest) => String.length rest <= String.length s
  | Err stop => stop <> OutOfFuel
  end.

Create HintDb hive discriminated.
#[export] Hint Resolve number_le eat_lt expect_lt member_name_le word_le : hive.

(** Steps over the parser's sequencing, keeping each step's length bound. *)
Ltac hive_step :=
  match goal with
  | |- context [expect ?c ?r] =>
      let E := fresh "E" in
      destruct (expect c r) as [?rest|] eqn:E;
      [apply expect_lt in E | unfold expect in E; destruct (eat c r); [done|by injection E as <-]]
  | |- context [eat ?c ?r] =>
      let E := fresh "E" in destruct (eat c r) as [?rest|] eqn:E; [apply eat_lt in E|clear E]
  | |- context [number ?r] =>
      let E := fresh "E" in
      destruct (number r) as [[?n ?rest]|] eqn:E;
      [apply number_le in E
      | unfold number in E; destruct (word r); destruct (parse_unsigned _ _); [done|by injection E as <-]]
  end.

Section Terminates.
Context {DK : DeltaKernel}.

Lemma length_consumes rest : consumes rest (length_ rest).
Proof. unfold length_. repeat (hive_step; cbv beta iota). cbn. lia. Qed.

Lemma decimal_consumes rest : consumes rest (decimal rest).
Proof. unfold decimal. repeat (hive_step; cbv beta iota zeta); destruct (_ && _); cbn; try lia; done. Qed.

Lemma nested_consumes {A} depth rest (parse : nat -> parsed (A * string)) :
  (forall d, consumes rest (parse d)) -> consumes rest (nested depth parse).
Proof. intros H. unfold nested. by destruct (depth =? MAX_NESTING_DEPTH)%nat. Qed.

Lemma array_consumes p rest :
  (forall r, String.length r < String.length rest -> consumes r (p r)) -> consumes rest (array p rest).
Proof.
  intros H. unfold array. hive_step. specialize (H rest0 E). destruct (p rest0) as [[e r]|]; [|done]. cbn in H.
  hive_step. cbn. lia.
Qed.

Lemma map_consumes p rest :
  (forall r, String.length r < String.length rest -> consumes r (p r)) -> consumes rest (map_ p rest).
Proof.
  intros H. unfold map_. hive_step. pose proof (H rest0 E) as H1. destruct (p rest0) as [[k r]|]; [|done]. cbn in H1.
  hive_step. pose proof (H rest1 ltac:(lia)) as H2. destruct (p rest1) as [[v r']|]; [|done]. cbn in H2.
  hive_step. cbn. lia.
Qed.

Lemma struct_consumes p rest :
  (forall r, String.length r < String.length rest -> consumes r (p r)) -> consumes rest (struct_type p rest).
Proof.
  intros H. unfold struct_type. hive_step. specialize (H rest0 E). destruct (p rest0) as [[fs r]|]; [|done]. cbn in H.
  hive_step. destruct (struct_check fs); cbn; [lia|done].
Qed.

Lemma parser_consumes fuel :
  (forall depth rest, String.length rest < fuel -> consumes rest (data_type fuel depth rest)) /\
  (forall depth rest, String.length rest < fuel -> consumes rest (members fuel depth rest)).
Proof.
  induction fuel as [|fuel [IHt IHm]]; [split; intros; lia|]. split; intros depth rest Hlen.
  - cbn [data_type]. pose proof (word_le rest) as Hw. destruct (word rest) as [w r]. cbn in Hw.
    assert (forall q : parsed (SparkType * string), consumes r q -> consumes rest q) as up.
    { intros [[? ?]|]; cbn; [lia|done]. }
    destruct (plain_type _ _); [cbn; lia|]. apply up.
    destruct (_ || _). { pose proof (length_consumes r). destruct (length_ r) as [[? ?]|]; done. }
    destruct (String.eqb _ "decimal"); [apply decimal_consumes|].
    destruct (String.eqb _ "array"); [apply nested_consumes; intros d; apply array_consumes; intros; apply IHt; lia|].
    destruct (String.eqb _ "map"); [apply nested_consumes; intros d; apply map_consumes; intros; apply IHt; lia|].
    destruct (String.eqb _ "struct"); [apply nested_consumes; intros d; apply struct_consumes; intros; apply IHm; lia|].
    by destruct (String.eqb _ "").
  - cbn [members]. destruct (member_name rest) as [[name r]|] eqn:En.
    2: { unfold member_name in En. destruct (split_where _ _). destruct (String.eqb _ ""); [|done]. by injection En as <-. }
    apply member_name_le in En. hive_step.
    pose proof (IHt depth rest0 ltac:(lia)) as H. destruct (data_type fuel depth rest0) as [[t r']|]; [|done]. cbn in H.
    hive_step; [|cbn; lia].
    pose proof (IHm depth rest1 ltac:(lia)) as H'. destruct (members fuel depth rest1) as [[fs r'']|]; [|done]. cbn in *.
    lia.
Qed.

(** The parser returns on every text: the recursion is bounded by the length of
    what is left to read, whatever the text's nesting. *)
Theorem parse_hive_type_terminates hive_type : parse_hive_type hive_type <> Err OutOfFuel.
Proof.
  unfold parse_hive_type, hive_fuel.
  pose proof (proj1 (parser_consumes (S (String.length hive_type))) 0 hive_type ltac:(lia)) as H.
  destruct (data_type _ 0 hive_type) as [[t r]|[]]; cbn in H; [|done..].
  unfold end_. by destruct (String.eqb (trim r) "").
Qed.
End Terminates.

(** ** Round trip *)

(** The Hive spelling of a Spark type. *)
Definition primitive_text (p : SparkPrimitive) : string :=
  match p with
  | SByte => "tinyint" | SShort => "smallint" | SInteger => "int" | SLong => "bigint"
  | SFloat => "float" | SDouble => "double" | SBoolean => "boolean" | SString => "string"
  | SDate => "date" | STimestampNtz => "timestamp" | SBinary => "binary"
  | SDecimal p s => "decimal(" ++ show_N p ++ "," ++ show_N s ++ ")"
  | _ => ""
  end.

Fixpoint hive_text (t : SparkType) : string :=
  match t with
  | SPrimitive p => primitive_text p
  | SArray e _ => "array<" ++ hive_text e ++ ">"
  | SMap k v _ => "map<" ++ hive_text k ++ "," ++ hive_text v ++ ">"
  | SStruct fields =>
      "struct<"
      ++ join "," (map (fun f => let '(MkStructField n t _ _) := f in n ++ ":" ++ hive_text t) fields)
      ++ ">"
  | SVariant => ""
  end.

Fixpoint nesting (t : SparkType) : nat :=
  match t with
  | SArray e _ => S (nesting e)
  | SMap k v _ => S (Nat.max (nesting k) (nesting v))
  | SStruct fields => S (list_max (map (fun f => let '(MkStructField _ t _ _) := f in nesting t) fields))
  | _ => 0
  end.

Section RoundTrip.
Context {DK : DeltaKernel}.

Definition hive_primitive (p : SparkPrimitive) : Prop :=
  match p with
  | STimestamp | SVoid | SIntervalYearMonth | SIntervalDayTime => False
  | SDecimal p s => (p <= 255)%N /\ (s <= 255)%N /\ decimal_valid p s = true
  | _ => True
  end.

(** A struct member's name the grammar can carry. *)
Definition hive_name (n : string) : Prop :=
  n <> "" /\ string_forallb (fun c => is_plain_char c && negb (is_delimiter c)) n = true.

(** The types Hive spells: every nested member nullable, as the parser makes them. *)
Fixpoint hive_ok (t : SparkType) : Prop :=
  match t with
  | SPrimitive p => hive_primitive p
  | SArray e b => b = true /\ hive_ok e
  | SMap k v b => b = true /\ hive_ok k /\ hive_ok v
  | SStruct fields =>
      fields <> [] /\ struct_check fields = Ok tt /\
      foldr (fun f P => (let '(MkStructField n t b m) := f in
                         hive_name n /\ b = true /\ m = ∅ /\ hive_ok t) /\ P) True fields
  | SVariant => False
  end.

Lemma word_char_plain c : is_word_char c = true -> is_plain_char c = true.
Proof.
  unfold is_word_char, is_plain_char, is_ascii_digit, is_ascii_upper, is_ascii_lower. cbv zeta.
  destruct (Ascii.eqb_spec c "_") as [->|]; [done|]. lia.
Qed.

(** The text a word stops before. *)
Definition stops (rest : string) : Prop :=
  match rest with EmptyString => True | String c _ => is_word_char c = false /\ is_plain_char c = true end.

Lemma split_where_stop p w rest :
  string_forallb (fun c => negb (p c)) w = true ->
  match rest with EmptyString => True | String c _ => p c = true end ->
  split_where p (w ++ rest) = (w, rest).
Proof.
  induction w as [|c w IH]; intros Hw Hr.
  - rewrite string_app_nil_l. destruct rest; cbn; [done|]. by rewrite Hr.
  - cbn in Hw. apply andb_prop in Hw as [Hc Hw]. rewrite string_app_cons. cbn [split_where].
    apply negb_true_iff in Hc. by rewrite Hc, IH.
Qed.

Lemma string_forallb_impl p q s :
  (forall c, p c = true -> q c = true) -> string_forallb p s = true -> string_forallb q s = true.
Proof. intros H. induction s; cbn; [done|]. rewrite !andb_true_iff. naive_solver. Qed.

Lemma word_stop w rest :
  w <> "" -> string_forallb is_word_char w = true -> stops rest -> word (w ++ rest) = (w, rest).
Proof.
  intros Hne Hw Hr. unfold word.
  assert (trim_start (w ++ rest) = w ++ rest) as ->.
  { destruct w as [|c w]; [done|]. cbn in Hw. apply andb_prop in Hw as [Hc _]. rewrite string_app_cons.
    by apply trim_start_plain, word_char_plain. }
  apply split_where_stop.
  - eapply string_forallb_impl; [|exact Hw]. intros c ->. done.
  - destruct rest; [done|]. destruct Hr as [-> _]. done.
Qed.

Lemma eat_here c r : is_plain_char c = true -> eat c (String c r) = Some r.
Proof. intros H. unfold eat. rewrite trim_start_plain by done. cbn. by rewrite Ascii.eqb_refl. Qed.

Lemma eat_other c d r : is_plain_char d = true -> c <> d -> eat c (String d r) = None.
Proof.
  intros H Hne. unfold eat. rewrite trim_start_plain by done. cbn. by destruct (Ascii.eqb_spec c d).
Qed.

Lemma expect_here c r : is_plain_char c = true -> expect c (String c r) = Ok r.
Proof. intros H. unfold expect. by rewrite eat_here. Qed.

Lemma number_show n rest : (n <= Z.to_N u32_max)%N -> stops rest -> number (show_N n ++ rest) = Ok (n, rest).
Proof.
  intros Hn Hr. unfold number. rewrite word_stop; [|..|done].
  - by rewrite parse_unsigned_show.
  - intros E. pose proof (show_N_nonempty n) as H. by rewrite E in H.
  - eapply string_forallb_impl; [|apply show_N_digits]. intros c H. unfold is_word_char. by rewrite H.
Qed.

Lemma member_name_here n r : hive_name n -> member_name (n ++ String ":" r) = Ok (n, String ":" r).
Proof.
  intros [Hne Hn]. unfold member_name. rewrite split_where_stop; [..|done].
  - rewrite trim_plain; [by destruct (String.eqb_spec n "")|].
    eapply string_forallb_impl; [|exact Hn]. by intros c [? _]%andb_prop.
  - eapply string_forallb_impl; [|exact Hn]. by intros c [_ ?]%andb_prop.
Qed.

Lemma data_type_plain fuel depth s w rest p :
  word s = (w, rest) -> plain_type (to_ascii_lowercase w) PLAIN_TYPES = Some p ->
  data_type (S fuel) depth s = Ok (SPrimitive p, rest).
Proof. intros Hw Hp. cbn [data_type]. by rewrite Hw, Hp. Qed.

Lemma data_type_decimal fuel depth s rest :
  word s = ("decimal", rest) -> data_type (S fuel) depth s = decimal rest.
Proof. intros Hw. cbn [data_type]. by rewrite Hw. Qed.

Lemma data_type_array fuel depth s rest :
  word s = ("array", rest) ->
  data_type (S fuel) depth s = nested depth (fun depth => array (data_type fuel depth) rest).
Proof. intros Hw. cbn [data_type]. by rewrite Hw. Qed.

Lemma data_type_map fuel depth s rest :
  word s = ("map", rest) ->
  data_type (S fuel) depth s = nested depth (fun depth => map_ (data_type fuel depth) rest).
Proof. intros Hw. cbn [data_type]. by rewrite Hw. Qed.

Lemma data_type_struct fuel depth s rest :
  word s = ("struct", rest) ->
  data_type (S fuel) depth s = nested depth (fun depth => struct_type (members fuel depth) rest).
Proof. intros Hw. cbn [data_type]. by rewrite Hw. Qed.

Lemma nested_below {A} depth (parse : nat -> parsed A) :
  depth < MAX_NESTING_DEPTH -> nested depth parse = parse (S depth).
Proof. intros H. unfold nested. destruct (Nat.eqb_spec depth MAX_NESTING_DEPTH); [lia|done]. Qed.

Lemma decimal_text p s rest :
  hive_primitive (SDecimal p s) ->
  decimal ("(" ++ show_N p ++ "," ++ show_N s ++ ")" ++ rest) = Ok (SPrimitive (SDecimal p s), rest).
Proof.
  intros (Hp & Hs & Hv). unfold decimal.
  rewrite string_app_cons, string_app_nil_l, eat_here by done.
  rewrite number_show by (try done; unfold u32_max; lia). rewrite string_app_cons, string_app_nil_l, eat_here by done.
  rewrite number_show by (try done; unfold u32_max; lia). rewrite string_app_cons, string_app_nil_l, expect_here by done.
  cbv zeta. by rewrite Hv, (proj2 (N.leb_le _ _) Hp), (proj2 (N.leb_le _ _) Hs).
Qed.

(** What [data_type] must read from a text that opens with the spelling of [t]. *)
Definition reads (t : SparkType) : Prop :=
  forall fuel depth rest,
    String.length (hive_text t) < fuel -> depth + nesting t <= MAX_NESTING_DEPTH -> stops rest ->
    data_type fuel depth (hive_text t ++ rest) = Ok (t, rest).

Lemma primitive_reads p : hive_primitive p -> reads (SPrimitive p).
Proof.
  intros Hp fuel depth rest Hf _ Hr. destruct fuel as [|fuel]; [lia|].
  destruct p; try done;
    try (eapply data_type_plain; [apply word_stop; [done..|exact Hr]|reflexivity]).
  cbn [hive_text primitive_text]. rewrite !string_app_assoc.
  erewrite data_type_decimal; [apply decimal_text, Hp|].
  change ("decimal(" ++ ?x) with ("decimal" ++ "(" ++ x). by apply word_stop.
Qed.

Lemma array_reads e : reads e -> reads (SArray e true).
Proof.
  intros He fuel depth rest Hf Hd Hr. destruct fuel as [|fuel]; [lia|].
  cbn [hive_text nesting] in *. rewrite !string_length_app in Hf. cbn in Hf.
  rewrite !string_app_assoc. change ("array<" ++ ?x) with ("array" ++ String "<" x).
  erewrite data_type_array by (by apply word_stop). rewrite nested_below by lia.
  unfold array. rewrite expect_here by done. rewrite He by (try done; lia).
  rewrite string_app_cons, string_app_nil_l. by rewrite expect_here.
Qed.

Lemma map_reads k v : reads k -> reads v -> reads (SMap k v true).
Proof.
  intros Hk Hv fuel depth rest Hf Hd Hr. destruct fuel as [|fuel]; [lia|].
  cbn [hive_text nesting] in *. rewrite !string_length_app in Hf. cbn in Hf.
  rewrite !string_app_assoc. change ("map<" ++ ?x) with ("map" ++ String "<" x).
  erewrite data_type_map by (by apply word_stop). rewrite nested_below by lia.
  unfold map_. rewrite expect_here by done. rewrite Hk by (try done; lia).
  rewrite string_app_cons, string_app_nil_l, expect_here by done. rewrite Hv by (try done; lia).
  rewrite string_app_cons, string_app_nil_l. by rewrite expect_here.
Qed.

Definition member_text (f : StructField) : string :=
  let '(MkStructField n t _ _) := f in n ++ ":" ++ hive_text t.

Lemma members_read fields fuel depth rest :
  fields <> [] ->
  Forall (fun f => hive_name (spark_name f) /\ f = nullable_field (spark_name f) (spark_type f) /\
                   reads (spark_type f) /\ depth + nesting (spark_type f) <= MAX_NESTING_DEPTH) fields ->
  String.length (join "," (map member_text fields)) < fuel ->
  members fuel depth (join "," (map member_text fields) ++ String ">" rest) = Ok (fields, String ">" rest).
Proof.
  revert fuel. induction fields as [|f fields IH]; intros fuel Hne Hall Hf; [done|].
  destruct fuel as [|fuel]; [lia|].
  apply Forall_cons in Hall as [(Hn & Heq & Ht & Hd) Hall].
  destruct f as [n t b m]. cbn [spark_name spark_type] in *. injection Heq as -> ->.
  destruct fields as [|f2 fields].
  - cbn [map join member_text] in *. rewrite !string_length_app in Hf. cbn in Hf.
    rewrite !string_app_assoc, string_app_cons, string_app_nil_l.
    cbn [members]. rewrite member_name_here by done. rewrite expect_here by done.
    rewrite Ht by (try done; lia). by rewrite eat_other.
  - assert (join "," (map member_text (MkStructField n t true ∅ :: f2 :: fields))
            = n ++ ":" ++ hive_text t ++ "," ++ join "," (map member_text (f2 :: fields))) as E.
    { cbn [map join member_text]. by rewrite !string_app_assoc. }
    rewrite E in *. rewrite !string_length_app in Hf. cbn [String.length] in Hf.
    rewrite !string_app_assoc. rewrite (string_app_cons ":"), string_app_nil_l.
    cbn [members]. rewrite member_name_here by done. rewrite expect_here by done.
    rewrite (string_app_cons ","), string_app_nil_l.
    rewrite Ht by (try done; lia). rewrite eat_here by done.
    rewrite IH by (try done; lia). done.
Qed.

Lemma hive_fields_ok fields :
  foldr (fun f P => (let '(MkStructField n t b m) := f in
                     hive_name n /\ b = true /\ m = ∅ /\ hive_ok t) /\ P) True fields ->
  Forall (fun f => hive_name (spark_name f) /\ f = nullable_field (spark_name f) (spark_type f) /\
                   hive_ok (spark_type f)) fields.
Proof.
  induction fields as [|[n t b m] fields IH]; [constructor|]. cbn. intros [(Hn & -> & -> & Ht) Hall].
  constructor; auto.
Qed.

Lemma nesting_member f fields :
  f ∈ fields -> nesting (spark_type f) <= list_max (map (fun f => let '(MkStructField _ t _ _) := f in nesting t) fields).
Proof.
  unfold list_max. induction fields as [|g fields IH]; intros Hin; [by apply elem_of_nil in Hin|].
  cbn [map fold_right]. apply elem_of_cons in Hin as [->|Hin]; [destruct g; cbn [spark_type]; lia|].
  specialize (IH Hin). lia.
Qed.

Lemma struct_reads fields :
  Forall (fun f => hive_ok (spark_type f) -> reads (spark_type f)) fields ->
  hive_ok (SStruct fields) -> reads (SStruct fields).
Proof.
  intros IH (Hne & Hcheck & Hok%hive_fields_ok) fuel depth rest Hf Hd Hr. destruct fuel as [|fuel]; [lia|].
  change (hive_text (SStruct fields)) with ("struct<" ++ join "," (map member_text fields) ++ ">") in *.
  rewrite !string_length_app in Hf. cbn [String.length] in Hf. cbn [nesting] in Hd.
  rewrite !string_app_assoc. change ("struct<" ++ ?x) with ("struct" ++ String "<" x).
  erewrite data_type_struct by (by apply word_stop). rewrite nested_below by lia.
  unfold struct_type. rewrite expect_here by done. rewrite string_app_cons, string_app_nil_l.
  rewrite members_read; [|done| |lia].
  - rewrite expect_here by done. by rewrite Hcheck.
  - rewrite Forall_forall in *. intros f Hin. destruct (Hok f Hin) as (Hn & Hnull & Ht).
    split; [done|]. split; [done|]. split; [auto|]. pose proof (nesting_member f fields Hin). lia.
Qed.

Lemma hive_text_reads t : hive_ok t -> reads t.
Proof.
  induction t as [p|e b IH|fields IH|k v b IHk IHv|] using spark_type_ind'; intros Hok.
  - by apply primitive_reads.
  - destruct Hok as [-> Hok]. auto using array_reads.
  - by apply struct_reads.
  - destruct Hok as (-> & Hk & Hv). auto using map_reads.
  - done.
Qed.

(** Every Spark type Hive can spell, nested up to the parser's limit, is read back
    from its Hive spelling exactly. *)
Theorem parse_hive_type_roundtrip t :
  hive_ok t -> nesting t <= MAX_NESTING_DEPTH -> parse_hive_type (hive_text t) = Ok t.
Proof.
  intros Hok Hn. unfold parse_hive_type, hive_fuel.
  pose proof (hive_text_reads t Hok (S (String.length (hive_text t))) 0 "") as H.
  rewrite string_app_nil_r in H. rewrite H by (cbn; lia). done.
Qed.
End RoundTrip.

(** ** The nesting limit *)

Section Depth.
Context {DK : DeltaKernel}.

Definition nested_within (depth : nat) (t : SparkType) : Prop := depth + nesting t <= MAX_NESTING_DEPTH.

Lemma nested_ok {A} depth (parse : nat -> parsed A) a :
  nested depth parse = Ok a -> depth <> MAX_NESTING_DEPTH /\ parse (S depth) = Ok a.
Proof. unfold nested. by destruct (Nat.eqb_spec depth MAX_NESTING_DEPTH). Qed.

Lemma members_nesting fields depth :
  Forall (fun f => nested_within (S depth) (spark_type f)) fields -> depth < MAX_NESTING_DEPTH ->
  nested_within depth (SStruct fields).
Proof.
  unfold nested_within. cbn [nesting]. intros Hall Hd. unfold list_max.
  induction fields as [|[n t b m] fields IH]; cbn [map fold_right]; [lia|].
  apply Forall_cons in Hall as [Ht Hall]. specialize (IH Hall). cbn [spark_type] in Ht. lia.
Qed.

(** Runs the parser's sequencing in a hypothesis that it succeeds. *)
Ltac run H :=
  match type of H with
  | context [expect ?c ?r] => destruct (expect c r); [|done]
  | context [eat ?c ?r] => destruct (eat c r)
  | context [number ?r] => destruct (number r) as [[? ?]|]; [|done]
  end.

Lemma decimal_flat rest t rest' depth :
  decimal rest = Ok (t, rest') -> depth <= MAX_NESTING_DEPTH -> nested_within depth t.
Proof.
  unfold decimal. intros H Hd. repeat (run H; cbv beta iota zeta in H);
    (destruct (_ && _); [|done]); injection H as <- _; unfold nested_within; cbn [nesting]; lia.
Qed.

Lemma parser_nesting fuel :
  (forall depth rest t rest', depth <= MAX_NESTING_DEPTH ->
     data_type fuel depth rest = Ok (t, rest') -> nested_within depth t) /\
  (forall depth rest fs rest', depth <= MAX_NESTING_DEPTH ->
     members fuel depth rest = Ok (fs, rest') -> Forall (fun f => nested_within depth (spark_type f)) fs).
Proof.
  induction fuel as [|fuel [IHt IHm]]; [done|]. split; intros depth rest t rest' Hd H.
  - cbn [data_type] in H. destruct (word rest) as [w r].
    assert (forall p, nested_within depth (SPrimitive p)) as Hprim by (intros; unfold nested_within; cbn; lia).
    destruct (plain_type _ _); [by injection H as <- _|].
    destruct (_ || _). { destruct (length_ r) as [[? ?]|]; [|done]. by injection H as <- _. }
    destruct (String.eqb _ "decimal"); [by eapply decimal_flat|].
    destruct (String.eqb _ "array").
    { apply nested_ok in H as [Hne H]. unfold array in H. run H. destruct (data_type fuel _ _) as [[e r']|] eqn:E; [|done].
      run H. injection H as <- _. apply IHt in E; [|lia]. unfold nested_within in *. cbn [nesting]. lia. }
    destruct (String.eqb _ "map").
    { apply nested_ok in H as [Hne H]. unfold map_ in H. run H. destruct (data_type fuel _ _) as [[k r1]|] eqn:E1; [|done].
      run H. destruct (data_type fuel _ a0) as [[v r2]|] eqn:E2; [|done]. run H. injection H as <- _.
      apply IHt in E1; [|lia]. apply IHt in E2; [|lia]. unfold nested_within in *. cbn [nesting]. lia. }
    destruct (String.eqb _ "struct"); [|by destruct (String.eqb _ "")].
    apply nested_ok in H as [Hne H]. unfold struct_type in H. run H. destruct (members fuel _ _) as [[fs r1]|] eqn:E; [|done].
    run H. destruct (struct_check fs); [|done]. injection H as <- _. apply IHm in E; [|lia].
    apply members_nesting; [done|lia].
  - cbn [members] in H. destruct (member_name rest) as [[n r]|]; [|done]. run H.
    destruct (data_type fuel depth _) as [[t' r1]|] eqn:E; [|done]. apply IHt in E; [|done].
    run H.
    + destruct (members fuel depth _) as [[fs r2]|] eqn:E2; [|done]. apply IHm in E2; [|done].
      injection H as <- _. by constructor.
    + injection H as <- _. by constructor; [|constructor].
Qed.

(** A type the parser accepts nests at most [MAX_NESTING_DEPTH] levels, so every
    later recursion over it is bounded too. *)
Theorem parse_hive_type_nesting hive_type t :
  parse_hive_type hive_type = Ok t -> nesting t <= MAX_NESTING_DEPTH.
Proof.
  unfold parse_hive_type. destruct (data_type _ 0 hive_type) as [[t' r]|[]] eqn:E; try done.
  destruct (end_ r) as [|[]]; try done. intros [= <-].
  apply (proj1 (parser_nesting _)) in E; [exact E|apply le_0_n].
Qed.
End Depth.

(** A nested type of every shape. *)
Definition sample_type : SparkType :=
  SStruct [nullable_field "id" (SPrimitive SLong);
           nullable_field "tags" (SMap (SPrimitive SString) (SArray (SPrimitive (SDecimal 12 3)) true) true)].

Lemma parse_hive_type_roundtrip_witness :
  hive_text sample_type = "struct<id:bigint,tags:map<string,array<decimal(12,3)>>>" /\
  parse_hive_type (DK := plain_kernel) (hive_text sample_type) = Ok sample_type.
Proof.
  split; [reflexivity|]. apply (parse_hive_type_roundtrip (DK := plain_kernel)).
  - cbn. repeat split; try done; vm_compute; done.
  - vm_compute. lia.
Defined.

Lemma parse_hive_type_nesting_witness : nesting sample_type <= MAX_NESTING_DEPTH.
Proof.
  refine (parse_hive_type_nesting (DK := plain_kernel) "struct<id:bigint,tags:map<string,array<decimal(12,3)>>>" _ _).
  vm_compute. reflexivity.
Defined.
