(* ===== verification/TypeMapping.v ===== *)
(** crates/lakehouse-engine/src/types/mapping.rs: the Exasol type every catalog
    column is declared with, the Arrow type the scan reads it as, and the type
    tags the scan spec carries between the two. *)

From stdpp Require Import base list strings numbers gmap.
From Stdlib Require Import Ascii String ZArith NArith Lia ZifyBool.
From S2P Require Import Prelude Text ExasolType ArrowTypes SparkTypes HiveType.

Local Open Scope string_scope.

(** ** Arrow to Exasol *)

(** [u64::saturating_mul], then [u32::try_from]. *)
Definition hex_varchar (width : N) : ExasolType :=
  let chars := N.min (width * 2) (Z.to_N u64_max) in
  if ((chars <=? Z.to_N u32_max) && (1 <=? chars) && (chars <=? MAX_VARCHAR_SIZE))%N
  then Varchar chars false else WIDEST_VARCHAR.

Definition MAX_BINARY_BYTES : N := (MAX_VARCHAR_SIZE / 2)%N.

(** The literal declarations are inside Exasol's domain, which the source's
    [ExasolType::decimal] checks at compile time. *)
Definition decimal_type (p s : N) : ExasolType := DecimalT (MkDecimal p s).

Definition compatible_exasol_type (dt : DataType) : option ExasolType :=
  match dt with
  | TBoolean => Some Boolean
  | TInt8 | TUInt8 => Some (decimal_type 3 0)
  | TInt16 | TUInt16 => Some (decimal_type 5 0)
  | TInt32 => Some (decimal_type 10 0)
  | TInt64 | TUInt32 | TUInt64 => Some (decimal_type 20 0)
  | TFloat32 | TFloat64 => Some DoublePrecision
  | TUtf8 | TLargeUtf8 => Some WIDEST_VARCHAR
  | TDate32 => Some Date
  | TTimestamp _ _ => Some BARE_TIMESTAMP
  | TDecimal128 p s =>
      if (0 <=? s)%Z then DecimalT <$> Decimal_new (Z.to_N p) (Z.to_N s) else None
  | _ => None
  end.

Definition arrow_to_exasol_type (dt : DataType) : ExasolType :=
  match dt with
  | TFixedSizeBinary width => hex_varchar (if (0 <=? width)%Z then Z.to_N width else 0)
  | _ => default WIDEST_VARCHAR (compatible_exasol_type dt)
  end.

Definition needs_json_fallback (dt : DataType) : bool :=
  match compatible_exasol_type dt with None => true | Some _ => false end.

Definition needs_nested_json_rendering (dt : DataType) : bool :=
  match dt with
  | TList _ | TLargeList _ | TFixedSizeList _ _ | TStruct _ | TMap _ _ => true
  | _ => false
  end.

(** ** Timestamp precision *)

Inductive TimestampPrecision := Millisecond | Microsecond | Nanosecond.

Definition timestamp_literal_digits (literal : string) : nat :=
  match split_once "." literal with
  | None => 0
  | Some (_, fraction) => String.length (trim_end_matches "0" fraction)
  end.

Definition declaration (p : TimestampPrecision) : ExasolType :=
  Timestamp (match p with Millisecond => 3 | Microsecond => 6 | Nanosecond => 9 end)%N.

Definition arrow_unit (p : TimestampPrecision) : TimeUnit :=
  match p with
  | Millisecond => UMillisecond | Microsecond => UMicrosecond | Nanosecond => UNanosecond
  end.

Definition from_arrow_unit (u : TimeUnit) : TimestampPrecision :=
  match u with
  | USecond | UMillisecond => Millisecond | UMicrosecond => Microsecond | UNanosecond => Nanosecond
  end.

Definition from_declared_digits (digits : N) : TimestampPrecision :=
  if (digits <=? 3)%N then Millisecond else if (digits <=? 6)%N then Microsecond else Nanosecond.

Inductive EngineTimestampSupport := MillisecondOnly | DeclaredPrecision.

Definition FIRST_CALENDAR_VERSIONED_MAJOR : N := 2025.

(** [version.split('.').next()]: all of it without a dot. *)
Definition version_major (version : string) : string :=
  match split_once "." version with Some (major, _) => major | None => version end.

Definition from_database_version (version : string) : EngineTimestampSupport :=
  match parse_unsigned (Z.to_N u32_max) (version_major version) with
  | Some major =>
      if (major <? FIRST_CALENDAR_VERSIONED_MAJOR)%N then MillisecondOnly else DeclaredPrecision
  | None => DeclaredPrecision
  end.

Definition clamp (engine : EngineTimestampSupport) (source : TimestampPrecision) : TimestampPrecision :=
  match engine with MillisecondOnly => Millisecond | DeclaredPrecision => source end.

(** ** Iceberg *)

Definition iceberg_decimal (precision scale : N) : option Decimal :=
  if ((precision <=? 255) && (scale <=? 255))%N then Decimal_new precision scale else None.

Definition UUID_BYTES : N := 16.

Definition iceberg_primitive_to_exasol (pt : IcebergPrimitive) (engine : EngineTimestampSupport) : ExasolType :=
  match pt with
  | IBoolean => Boolean
  | IInt => decimal_type 10 0
  | ILong => decimal_type 20 0
  | IFloat | IDouble => DoublePrecision
  | IDecimal precision scale =>
      match iceberg_decimal precision scale with Some d => DecimalT d | None => WIDEST_VARCHAR end
  | IDate => Date
  | ITime => WIDEST_VARCHAR
  | ITimestamp | ITimestamptz => declaration (clamp engine Microsecond)
  | ITimestampNs | ITimestamptzNs => declaration (clamp engine Nanosecond)
  | IString | IBinary => WIDEST_VARCHAR
  | IFixed width => hex_varchar width
  | IUuid => hex_varchar UUID_BYTES
  | IGeometry _ | IGeography _ | IUnknown => WIDEST_VARCHAR
  end.

Definition iceberg_primitive_to_arrow (pt : IcebergPrimitive) : DataType :=
  match pt with
  | IBoolean => TBoolean
  | IInt => TInt32
  | ILong => TInt64
  | IFloat => TFloat32
  | IDouble => TFloat64
  | IDecimal precision scale =>
      match iceberg_decimal precision scale with
      | Some d => TDecimal128 (Z.of_N (ExasolType.precision d)) (Z.of_N (ExasolType.scale d))
      | None => TUtf8
      end
  | IDate => TDate32
  | ITime => TUtf8
  | ITimestamp => TTimestamp UMicrosecond None
  | ITimestampNs => TTimestamp UNanosecond None
  | ITimestamptz => TTimestamp UMicrosecond (Some "UTC")
  | ITimestamptzNs => TTimestamp UNanosecond (Some "UTC")
  | IString => TUtf8
  | IBinary => TBinary
  | IFixed width => TFixedSizeBinary (if (Z.of_N width <=? i32_max)%Z then Z.of_N width else i32_max)
  | IUuid => TFixedSizeBinary (Z.of_N UUID_BYTES)
  | IGeometry _ | IGeography _ | IUnknown => TUtf8
  end.

Definition iceberg_type_to_arrow (ty : IcebergType) : DataType :=
  match ty with IPrimitive pt => iceberg_primitive_to_arrow pt | _ => TUtf8 end.

Definition iceberg_type_to_exasol (ty : IcebergType) (engine : EngineTimestampSupport) : ExasolType :=
  match ty with IPrimitive pt => iceberg_primitive_to_exasol pt engine | _ => WIDEST_VARCHAR end.

(** ** Type tags *)

(** The tags without arguments, which both directions spell alike. *)
Definition arrow_type_to_tag (dt : DataType) : string :=
  match dt with
  | TBoolean => "bool"
  | TInt8 => "int8" | TInt16 => "int16" | TInt32 => "int32" | TInt64 => "int64"
  | TUInt8 => "uint8" | TUInt16 => "uint16" | TUInt32 => "uint32" | TUInt64 => "uint64"
  | TFloat32 => "float32" | TFloat64 => "float64"
  | TUtf8 => "utf8" | TLargeUtf8 => "large_utf8"
  | TDate32 => "date32"
  | TTimestamp USecond None => "timestamp_s"
  | TTimestamp UMillisecond None => "timestamp_ms"
  | TTimestamp UMicrosecond None => "timestamp_us"
  | TTimestamp UNanosecond None => "timestamp_ns"
  | TTimestamp USecond (Some _) => "timestamptz_s"
  | TTimestamp UMillisecond (Some _) => "timestamptz_ms"
  | TTimestamp UMicrosecond (Some _) => "timestamptz_us"
  | TTimestamp UNanosecond (Some _) => "timestamptz_ns"
  | TDecimal128 p s => "decimal128(" ++ show_Z p ++ "," ++ show_Z s ++ ")"
  | TBinary | TLargeBinary | TBinaryView => "binary"
  | TFixedSizeBinary width => "fixed_size_binary(" ++ show_Z width ++ ")"
  | _ => "utf8"
  end.

Definition PLAIN_TAGS : list (string * DataType) :=
  [("bool", TBoolean); ("int8", TInt8); ("int16", TInt16); ("int32", TInt32); ("int64", TInt64);
   ("uint8", TUInt8); ("uint16", TUInt16); ("uint32", TUInt32); ("uint64", TUInt64);
   ("float32", TFloat32); ("float64", TFloat64); ("utf8", TUtf8); ("large_utf8", TLargeUtf8);
   ("date32", TDate32); ("binary", TBinary);
   ("timestamp_s", TTimestamp USecond None); ("timestamp_ms", TTimestamp UMillisecond None);
   ("timestamp_us", TTimestamp UMicrosecond None); ("timestamp_ns", TTimestamp UNanosecond None);
   ("timestamptz_s", TTimestamp USecond (Some "UTC")); ("timestamptz_ms", TTimestamp UMillisecond (Some "UTC"));
   ("timestamptz_us", TTimestamp UMicrosecond (Some "UTC")); ("timestamptz_ns", TTimestamp UNanosecond (Some "UTC"))].

Fixpoint plain_tag (tag : string) (tags : list (string * DataType)) : option DataType :=
  match tags with
  | [] => None
  | (t, dt) :: tags' => if String.eqb tag t then Some dt else plain_tag tag tags'
  end.

Definition fixed_tag (tag : string) : option DataType :=
  s ← strip_prefix "fixed_size_binary(" tag;
  s ← strip_suffix ")" s;
  TFixedSizeBinary <$> parse_i32 s.

Definition decimal_tag (tag : string) : option DataType :=
  s ← strip_prefix "decimal128(" tag;
  inner ← strip_suffix ")" s;
  '(p_str, s_str) ← split_once "," inner;
  p ← parse_unsigned (Z.to_N u8_max) (trim p_str);
  s ← parse_signed 8 (trim s_str);
  Some (TDecimal128 (Z.of_N p) s).

Definition arrow_type_from_tag (tag : string) : DataType :=
  match plain_tag tag PLAIN_TAGS with
  | Some dt => dt
  | None => default TUtf8 (or_else (fixed_tag tag) (decimal_tag tag))
  end.

(** ** Catalog columns *)

Inductive ColumnSourceType : Type :=
| Iceberg (field : IcebergField)
| Unity (type_json : option string)
| Parquet (tag : string)
| Glue (hive_type : string).

Section Catalog.
Context {DK : DeltaKernel}.

Definition unity_spark_field (type_json : option string) : result string StructField :=
  let? type_json :=
    ok_or type_json "Unity Catalog reports no type_json descriptor for it, so its Spark type is unknown" in
  match struct_field_of_json type_json with
  | Ok field => Ok field
  | Err error =>
      Err ("its type_json descriptor does not parse as a Spark StructField (" ++ error ++ ")")
  end.

Definition spark_primitive_to_exasol (primitive : SparkPrimitive) (engine : EngineTimestampSupport) : ExasolType :=
  match primitive with
  | SBoolean => Boolean
  | SByte => decimal_type 3 0
  | SShort => decimal_type 5 0
  | SInteger => decimal_type 10 0
  | SLong => decimal_type 20 0
  | SFloat | SDouble => DoublePrecision
  | SDate => Date
  | STimestamp | STimestampNtz => declaration (clamp engine Microsecond)
  | SDecimal p s => match Decimal_new p s with Some d => DecimalT d | None => WIDEST_VARCHAR end
  | SString | SBinary | SVoid | SIntervalYearMonth | SIntervalDayTime => WIDEST_VARCHAR
  end.

Definition spark_type_to_exasol {E} (spark_type : result E SparkType) (engine : EngineTimestampSupport) : ExasolType :=
  match spark_type with
  | Ok (SPrimitive primitive) => spark_primitive_to_exasol primitive engine
  | _ => WIDEST_VARCHAR
  end.

Definition column_source_type_to_exasol (source_type : ColumnSourceType) (engine : EngineTimestampSupport) : ExasolType :=
  match source_type with
  | Iceberg field => iceberg_type_to_exasol (iceberg_field_type field) engine
  | Unity type_json =>
      spark_type_to_exasol
        (let? field := unity_spark_field type_json in Ok (spark_type field)) engine
  | Parquet tag =>
      match arrow_type_from_tag tag with
      | TTimestamp unit _ => declaration (clamp engine (from_arrow_unit unit))
      | other => arrow_to_exasol_type other
      end
  | Glue hive_type => spark_type_to_exasol (parse_hive_type hive_type) engine
  end.
End Catalog.

(** ** Every declaration is one Exasol takes from a UDF *)

(** A type a virtual schema column can be declared with: inside Exasol's limits
    and accepted as a UDF output. *)
Definition declarable (t : ExasolType) : Prop := exasol_accepts t /\ is_udf_emittable t = true.

Create HintDb declarable discriminated.

Lemma widest_varchar_declarable : declarable WIDEST_VARCHAR.
Proof. split; [|done]. cbn. unfold MAX_VARCHAR_SIZE. lia. Qed.

Lemma hex_varchar_declarable width : declarable (hex_varchar width).
Proof.
  unfold hex_varchar. destruct (_ && _) eqn:E; [|apply widest_varchar_declarable].
  split; [cbn [exasol_accepts]; unfold MAX_VARCHAR_SIZE in E; lia|done].
Qed.

Lemma declaration_declarable p : declarable (declaration p).
Proof. split; [by destruct p; cbn; lia|done]. Qed.

Lemma decimal_new_declarable p s d : Decimal_new p s = Some d -> declarable (DecimalT d).
Proof.
  unfold Decimal_new. destruct (_ && _) eqn:E; [|done]. intros [= <-].
  split; [|done]. cbn. unfold MAX_DECIMAL_PRECISION in E. lia.
Qed.

Lemma plain_declarable t :
  match t with
  | Boolean | DoublePrecision | Date => True
  | DecimalT d => (1 <= precision d <= 36 /\ scale d <= precision d)%N
  | Timestamp p => (p <= 9)%N
  | _ => False
  end -> declarable t.
Proof. destruct t; try done. Qed.

#[export] Hint Resolve widest_varchar_declarable hex_varchar_declarable declaration_declarable
  decimal_new_declarable : declarable.
#[export] Hint Extern 5 (declarable _) => (apply plain_declarable; vm_compute; intuition congruence) : declarable.

Lemma arrow_to_exasol_declarable dt : declarable (arrow_to_exasol_type dt).
Proof.
  destruct dt; cbn -[declarable hex_varchar Decimal_new Z.leb]; eauto with declarable.
  destruct (0 <=? s)%Z; [|apply widest_varchar_declarable].
  destruct (Decimal_new _ _) eqn:E; cbn -[declarable]; eauto with declarable.
Qed.

Lemma iceberg_to_exasol_declarable ty engine : declarable (iceberg_type_to_exasol ty engine).
Proof.
  destruct ty as [[]| | | |]; cbn -[declarable hex_varchar iceberg_decimal]; eauto with declarable.
  unfold iceberg_decimal. destruct (_ && _); [|apply widest_varchar_declarable].
  destruct (Decimal_new _ _) eqn:E; eauto with declarable.
Qed.

Lemma spark_to_exasol_declarable {E} (t : result E SparkType) engine : declarable (spark_type_to_exasol t engine).
Proof.
  destruct t as [[p| | | |]|]; try apply widest_varchar_declarable.
  destruct p; cbn -[declarable Decimal_new]; eauto with declarable.
  destruct (Decimal_new _ _) eqn:Ed; eauto with declarable.
Qed.

(** C40. Whatever a catalog reports for a column, down to text that does not parse, the
    column is declared with a type inside Exasol's limits that a UDF may emit, so
    a column type never fails the listing nor the scan's declaration. *)
Theorem column_declaration_well_typed {DK : DeltaKernel} source_type engine :
  exasol_accepts (column_source_type_to_exasol source_type engine) /\
  is_udf_emittable (column_source_type_to_exasol source_type engine) = true.
Proof.
  change (declarable (column_source_type_to_exasol source_type engine)).
  destruct source_type; cbn [column_source_type_to_exasol].
  - apply iceberg_to_exasol_declarable.
  - apply spark_to_exasol_declarable.
  - pose proof (arrow_to_exasol_declarable (arrow_type_from_tag tag)).
    destruct (arrow_type_from_tag tag); try done. apply declaration_declarable.
  - apply spark_to_exasol_declarable.
Qed.

(** ** The scan's types and the declared types agree *)

(** The Arrow type the scan reads an Iceberg column as is emitted as the very type
    the column is declared with; only a timestamp's declared digits depend on the
    engine version, and the two agree on the ones every version stores. *)
Theorem iceberg_arrow_exasol_lockstep pt :
  arrow_to_exasol_type (iceberg_primitive_to_arrow pt) = iceberg_primitive_to_exasol pt MillisecondOnly.
Proof.
  destruct pt as [| | | | |p s| | | | | | | | |width| | | |]; try done.
  - cbn [iceberg_primitive_to_arrow iceberg_primitive_to_exasol]. unfold iceberg_decimal.
    destruct (_ && _); [|done]. destruct (Decimal_new p s) as [d|] eqn:E; [|done].
    cbn. rewrite (proj2 (Z.leb_le 0 _)) by lia. rewrite !N2Z.id.
    assert (Decimal_new (precision d) (scale d) = Some d) as ->; [|done].
    unfold Decimal_new in *. destruct (_ && _) eqn:B; [|done]. injection E as <-. cbn. by rewrite B.
  - cbn [iceberg_primitive_to_arrow iceberg_primitive_to_exasol arrow_to_exasol_type].
    destruct (Z.leb_spec (Z.of_N width) i32_max) as [Hw|Hw].
    + rewrite (proj2 (Z.leb_le 0 _)) by lia. by rewrite N2Z.id.
    + unfold hex_varchar. unfold i32_max in *. cbn [Z.leb Z.compare Z.to_N].
      assert (((N.min (width * 2) (Z.to_N u64_max) <=? Z.to_N u32_max))%N = false) as ->.
      { unfold u64_max, u32_max. lia. }
      done.
Qed.

(** ** Type tags round trip *)

(** What a tag keeps of a type: every zone reads back as UTC, every variable
    binary layout as [Binary], and a type without a tag as text. *)
Definition canonical (dt : DataType) : DataType :=
  match dt with
  | TBoolean | TInt8 | TInt16 | TInt32 | TInt64 | TUInt8 | TUInt16 | TUInt32 | TUInt64
  | TFloat32 | TFloat64 | TLargeUtf8 | TDate32 | TDecimal128 _ _ | TFixedSizeBinary _
  | TTimestamp _ None => dt
  | TTimestamp u (Some _) => TTimestamp u (Some "UTC")
  | TBinary | TLargeBinary | TBinaryView => TBinary
  | _ => TUtf8
  end.

(** The machine ranges of a type's arguments. *)
Definition arguments_fit (dt : DataType) : Prop :=
  match dt with
  | TDecimal128 p s => (0 <= p <= 255 /\ -128 <= s < 128)%Z
  | TFixedSizeBinary w => (- 2 ^ 31 <= w < 2 ^ 31)%Z
  | _ => True
  end.

Lemma plain_tag_app pre rest :
  Forall (fun t => strip_prefix pre t.1 = None) PLAIN_TAGS -> plain_tag (pre ++ rest) PLAIN_TAGS = None.
Proof.
  induction PLAIN_TAGS as [|[t dt] tags IH]; intros Hall; [done|].
  apply Forall_cons in Hall as [Ht Hall]. cbn. destruct (String.eqb_spec (pre ++ rest) t) as [<-|]; [|by apply IH].
  cbn in Ht. by rewrite strip_prefix_app in Ht.
Qed.

Lemma show_Z_chars p z :
  (forall c, is_ascii_digit c = true -> p c = true) -> p "-"%char = true -> string_forallb p (show_Z z) = true.
Proof.
  intros Hd Hm. unfold show_Z.
  assert (forall n, string_forallb p (show_N n) = true) as Hn.
  { intros n. eapply string_forallb_impl; [exact Hd|apply show_N_digits]. }
  destruct (z <? 0)%Z; [|apply Hn]. rewrite string_app_cons, string_app_nil_l. cbn. by rewrite Hm, Hn.
Qed.

Lemma show_Z_plain z : trim (show_Z z) = show_Z z.
Proof.
  apply trim_plain, show_Z_chars; [|done]. intros c. unfold is_ascii_digit, is_plain_char. cbv zeta. lia.
Qed.

Lemma show_Z_lacks x z :
  is_ascii_digit x = false -> x <> "-"%char ->
  string_forallb (fun d => negb (Ascii.eqb d x)) (show_Z z) = true.
Proof.
  intros Hx Hm. apply show_Z_chars.
  - intros c Hc. destruct (Ascii.eqb_spec c x); [congruence|done].
  - by destruct (Ascii.eqb_spec "-" x); [congruence|].
Qed.

Lemma split_once_here x a b :
  string_forallb (fun d => negb (Ascii.eqb d x)) a = true -> split_once x (a ++ String x b) = Some (a, b).
Proof.
  induction a as [|c a IH]; intros Ha.
  - rewrite string_app_nil_l. cbn. by rewrite Ascii.eqb_refl.
  - cbn in Ha. apply andb_prop in Ha as [Hc Ha]. rewrite string_app_cons. cbn.
    apply negb_true_iff in Hc. by rewrite Hc, (IH Ha).
Qed.

Lemma fixed_tag_read w : (- 2 ^ 31 <= w < 2 ^ 31)%Z ->
  arrow_type_from_tag ("fixed_size_binary(" ++ show_Z w ++ ")") = TFixedSizeBinary w.
Proof.
  intros Hw. unfold arrow_type_from_tag. rewrite plain_tag_app by (by repeat constructor).
  unfold fixed_tag. rewrite strip_prefix_app. cbn [mbind option_bind].
  rewrite strip_suffix_char_app by (by apply show_Z_lacks). cbn [mbind option_bind].
  unfold parse_i32. by rewrite parse_signed_show.
Qed.

Lemma decimal_tag_read p s : (0 <= p <= 255)%Z -> (-128 <= s < 128)%Z ->
  arrow_type_from_tag ("decimal128(" ++ show_Z p ++ "," ++ show_Z s ++ ")") = TDecimal128 p s.
Proof.
  intros Hp Hs. unfold arrow_type_from_tag. rewrite plain_tag_app by (by repeat constructor).
  assert (fixed_tag ("decimal128(" ++ show_Z p ++ "," ++ show_Z s ++ ")") = None) as -> by done.
  unfold decimal_tag. rewrite strip_prefix_app. cbn [mbind option_bind or_else].
  rewrite <- !string_app_assoc. rewrite strip_suffix_char_app.
  2: { rewrite !string_forallb_app. by rewrite !show_Z_lacks. }
  cbn [mbind option_bind]. rewrite string_app_assoc, string_app_cons, string_app_nil_l.
  rewrite split_once_here by (by apply show_Z_lacks). cbn [mbind option_bind].
  rewrite !show_Z_plain. rewrite parse_signed_show by done.
  assert (show_Z p = show_N (Z.to_N p)) as ->.
  { unfold show_Z. destruct (Z.ltb_spec p 0); [lia|done]. }
  rewrite parse_unsigned_show by (unfold u8_max; lia). cbn. by rewrite Z2N.id by lia.
Qed.

(** A type tag reads back as the type it was written for, up to the layouts the
    scan spec does not carry. *)
Theorem arrow_tag_roundtrip dt :
  arguments_fit dt -> arrow_type_from_tag (arrow_type_to_tag dt) = canonical dt.
Proof.
  destruct dt as [| | | | | | | | | | | | |p s|p s|p s|p s| | |u|u|u|u|u [tz|]| |w| | | | | | | | | | | | | | |];
    intros Hfit; try reflexivity; try (by destruct u).
  - destruct Hfit. by apply decimal_tag_read.
  - by apply fixed_tag_read.
Qed.

Lemma arrow_tag_roundtrip_witness :
  arrow_type_from_tag (arrow_type_to_tag (TDecimal128 18 (-2))) = TDecimal128 18 (-2).
Proof. apply (arrow_tag_roundtrip (TDecimal128 18 (-2))). vm_compute. split; split; congruence. Defined.
