(* ===== verification/ExactNumeric.v ===== *)
(** crates/lakehouse-engine/src/scan/exasol_numeric.rs: Exasol's numeric typing in
    the scan. Exact [+], [-], [*] run on 128-bit integers, unchecked while the
    result type fits 38 digits and checked above; comparisons and combinators unify
    their operands. *)

From stdpp Require Import base list strings numbers.
From Stdlib Require Import String QArith Qfield.
From S2P Require Import Prelude ArrowTypes.

Local Open Scope string_scope.
Local Open Scope Z_scope.

Definition DECIMAL128_MAX_PRECISION : Z := 38.
Definition DECIMAL256_MAX_PRECISION : Z := 76.
Definition EXASOL_MAX_SCALE : Z := 36.
Definition EXASOL_MAX_PRECISION : Z := 36.
Definition DECIMAL128_SUM_MAX_PRECISION : Z := DECIMAL128_MAX_PRECISION - 10.

Definition numeric_overflow (detail : string) : string :=
  "data exception - numeric value out of range: " ++ detail.

(** A failure of the query, at planning or at execution, or a panic of the code. The
    planning error of a type that is not exact ends in that type's [Display], which
    is Arrow's. *)
Inductive NumError :=
| PlanError (msg : string)
| PlanTypeError (msg : string) (t : DataType)
| ExecError (msg : string)
| Panic (msg : string).

(** ** 128-bit integers *)

Definition i128_fits (z : Z) : bool := (- 2 ^ 127 <=? z) && (z <? 2 ^ 127).
Definition wrap128 (z : Z) : Z := (z + 2 ^ 127) mod 2 ^ 128 - 2 ^ 127.
Definition checked128 (z : Z) : option Z := if i128_fits z then Some z else None.

Definition wrapping_mul (a b : Z) : Z := wrap128 (a * b).
Definition wrapping_add (a b : Z) : Z := wrap128 (a + b).
Definition wrapping_sub (a b : Z) : Z := wrap128 (a - b).
Definition checked_mul (a b : Z) : option Z := checked128 (a * b).
Definition checked_add (a b : Z) : option Z := checked128 (a + b).
Definition checked_sub (a b : Z) : option Z := checked128 (a - b).

(** ** Types of exact operands *)

Definition integer_precision (t : DataType) : option Z :=
  match t with
  | TInt8 | TUInt8 => Some 3
  | TInt16 | TUInt16 => Some 5
  | TInt32 | TUInt32 => Some 10
  | TInt64 => Some 19
  | TUInt64 => Some 20
  | _ => None
  end.

Definition is_exact (t : DataType) : bool :=
  is_integer t || match t with TDecimal128 _ _ => true | _ => false end.

Definition exact_ps (t : DataType) : result NumError (Z * Z) :=
  match t with
  | TDecimal128 p s => Ok (p, s)
  | _ =>
      match integer_precision t with
      | Some p => Ok (p, 0)
      | None => Err (PlanTypeError "exact arithmetic over " t)
      end
  end.

(** ** The four operations *)

Inductive ExactOp := Widen | Add | Sub | Mul.

#[export] Instance ExactOp_eq_dec : EqDecision ExactOp.
Proof. solve_decision. Defined.

Definition op_name (op : ExactOp) : string :=
  match op with Widen => "exa_widen" | Add => "exa_add" | Sub => "exa_sub" | Mul => "exa_mul" end.

Definition arity (op : ExactOp) : nat := match op with Widen => 1 | _ => 2 end.

(** Exasol's result type before the 38-digit cap. *)
Definition result_type (op : ExactOp) (a b : Z * Z) : Z * Z :=
  let '(pa, sa) := a in let '(pb, sb) := b in
  match op with
  | Widen => (pa, sa)
  | Mul => (pa + pb, sa + sb)
  | Add | Sub =>
      let s := Z.max sa sb in
      let integer_digits := Z.max (pa - sa) (pb - sb) in
      (integer_digits + s + 1, s)
  end.

Definition apply_wrapping (op : ExactOp) (x y fx fy : Z) : Z :=
  match op with
  | Add => wrapping_add (wrapping_mul x fx) (wrapping_mul y fy)
  | Sub => wrapping_sub (wrapping_mul x fx) (wrapping_mul y fy)
  | Mul | Widen => wrapping_mul x y
  end.

Definition apply_checked (op : ExactOp) (x y fx fy : Z) : option Z :=
  match op with
  | Add => a ← checked_mul x fx; b ← checked_mul y fy; checked_add a b
  | Sub => a ← checked_mul x fx; b ← checked_mul y fy; checked_sub a b
  | Mul | Widen => checked_mul x y
  end.

(** The factors that bring both operands to the result scale. *)
Definition factors (op : ExactOp) (a b : Z * Z) : Z * Z :=
  match op with
  | Add | Sub => let s := Z.max (snd a) (snd b) in (10 ^ (s - snd a), 10 ^ (s - snd b))
  | _ => (1, 1)
  end.

(** ** Columns

    A column is its rows, a null row being [None]. *)

Notation column := (list (option Z)).

(** An operand as [Operand::of] classifies it: a non-null scalar, a signed
    integer array, or anything else widened to 128 bits. *)
Inductive Operand :=
| OScalar (v : Z)
| OInt64 (a : column)
| OWide (a : column).

(** [ColumnarValue]: a scalar or an array, of a type. *)
Inductive ColumnarValue :=
| CScalar (t : DataType) (v : option Z)
| CArray (t : DataType) (a : column).

(** [as_i128]: [to_array(rows)] with the values at 128 bits. *)
Definition as_i128 (value : ColumnarValue) (rows : nat) : column :=
  match value with CScalar _ v => replicate rows v | CArray _ a => a end.

Definition Operand_of (value : ColumnarValue) (rows : nat) : Operand :=
  match value with
  | CScalar (TDecimal128 _ _) (Some v) => OScalar v
  | CScalar TInt64 (Some v) => OScalar v
  | CArray t a => if is_signed_integer t then OInt64 a else OWide (as_i128 value rows)
  | _ => OWide (as_i128 value rows)
  end.

Definition into_wide (o : Operand) (rows : nat) : column :=
  match o with OScalar v => replicate rows (Some v) | OInt64 a => a | OWide a => a end.

(** The Arrow kernels: [unary] and [binary] keep nulls, [try_binary] stops at the
    first row that fails. *)
Definition unary (a : column) (f : Z -> Z) : column := map (option_map f) a.

Definition lift2 {B} (f : Z -> Z -> B) (x y : option Z) : option B :=
  match x, y with Some x, Some y => Some (f x y) | _, _ => None end.

Definition binary (a b : column) (f : Z -> Z -> Z) : column := zip_with (lift2 f) a b.

Fixpoint try_binary {E} (a b : column) (f : Z -> Z -> result E Z) : result E column :=
  match a, b with
  | x :: a', y :: b' =>
      let? z := match x, y with Some x, Some y => (let? z := f x y in Ok (Some z)) | _, _ => Ok None end in
      let? zs := try_binary a' b' f in
      Ok (z :: zs)
  | _, _ => Ok []
  end.

Definition overflow_detail (op : ExactOp) : string :=
  op_name op ++ " exceeds the 128-bit internal number representation".

Definition value_type (v : ColumnarValue) : DataType :=
  match v with CScalar t _ | CArray t _ => t end.

(** The unchecked kernels, picked by the operands' classes. *)
Definition apply_unchecked (left right : Operand) (rows : nat) (f : Z -> Z -> Z) : column :=
  match left, right with
  | OInt64 x, OInt64 y => binary x y f
  | OInt64 x, OScalar c => unary x (fun x => f x c)
  | OScalar c, OInt64 y => unary y (fun y => f c y)
  | OWide x, OScalar c => unary x (fun x => f x c)
  | OScalar c, OWide y => unary y (fun y => f c y)
  | l, r => binary (into_wide l rows) (into_wide r rows) f
  end.

Definition combine (op : ExactOp) (args : list ColumnarValue) (rows : nat) (raised : RaisedFailure) :
    RaisedFailure * result NumError column :=
  match args with
  | [lhs; rhs] =>
      match exact_ps (value_type lhs), exact_ps (value_type rhs) with
      | Err e, _ | Ok _, Err e => (raised, Err e)
      | Ok a, Ok b =>
          let '(fa, fb) := factors op a b in
          let left := Operand_of lhs rows in
          let right := Operand_of rhs rows in
          if fst (result_type op a b) <=? DECIMAL128_MAX_PRECISION then
            let f x y := apply_wrapping op x y fa fb in
            (raised, Ok (apply_unchecked left right rows f))
          else
            match try_binary (into_wide left rows) (into_wide right rows)
                    (fun x y => ok_or (apply_checked op x y fa fb) (overflow_detail op)) with
            | Ok out => (raised, Ok out)
            | Err detail =>
                let overflow := numeric_overflow detail in
                (record raised overflow, Err (ExecError overflow))
            end
      end
  | _ => (raised, Err (ExecError (op_name op ++ " takes two arguments")))
  end.

Definition return_type (op : ExactOp) (args : list DataType) : result NumError DataType :=
  match args with
  | [] => Err (Panic "index out of bounds: the len is 0 but the index is 0")
  | ta :: rest =>
      let? a := exact_ps ta in
      let? b := match rest with tb :: _ => exact_ps tb | [] => Ok a end in
      let '(p, s) := result_type op a b in
      if EXASOL_MAX_SCALE <? s then
        Err (PlanError "data exception - An exact numeric operation needs a too big scale")
      else Ok (TDecimal128 (Z.min p DECIMAL128_MAX_PRECISION) s)
  end.

(** ** Literals *)

(** [u128::checked_ilog10]: the fuel bounds the digits of a 128-bit number. *)
Fixpoint ilog10 (fuel : nat) (n : Z) : Z :=
  match fuel with
  | O => 0
  | S fuel' => if n <? 10 then 0 else 1 + ilog10 fuel' (n / 10)
  end.

Definition checked_ilog10 (n : Z) : option Z := if n =? 0 then None else Some (ilog10 39 n).

(** The precision [tighten_literal] gives an integer literal [v]. *)
Definition literal_digits (v : Z) : Z :=
  match checked_ilog10 (Z.abs v) with Some d => d + 1 | None => 1 end.

(** ** Unification *)

Inductive Unify := Compare | Combine.

#[export] Instance Unify_eq_dec : EqDecision Unify.
Proof. solve_decision. Defined.

(** One operand of the [common_exact] loop: [None] declines. *)
Definition common_step (how : Unify) (acc : Z * Z) (t : DataType) : option (Z * Z) :=
  let '(integer_digits, scale) := acc in
  if negb (is_exact t) then None
  else
    match exact_ps t with
    | Err _ => None
    | Ok (p, s) =>
        if s <? 0 then None
        else
          let p := match how with Compare => p | Combine => Z.min p EXASOL_MAX_PRECISION end in
          Some (Z.max integer_digits (p - s), Z.max scale s)
    end.

Fixpoint common_fold (how : Unify) (acc : Z * Z) (types : list DataType) : option (Z * Z) :=
  match types with
  | [] => Some acc
  | t :: rest =>
      if is_null_type t then common_fold how acc rest
      else acc' ← common_step how acc t; common_fold how acc' rest
  end.

Definition common_exact (types : list DataType) (how : Unify) : option (Z * Z) :=
  '(integer_digits, scale) ← common_fold how (0, 0) types;
  Some (Z.min (integer_digits + scale) DECIMAL256_MAX_PRECISION, scale).

(** What [unify] casts to, and which operands: [None] leaves all as they are. *)
Definition unify_target (types : list DataType) (how : Unify) :
    option (DataType * (DataType -> bool)) :=
  if existsb is_floating types && existsb is_decimal_type types
  then Some (TFloat64, is_decimal_type)
  else
    match how, common_exact types how with
    | Compare, Some (p, s) =>
        if DECIMAL128_MAX_PRECISION <? p then Some (TDecimal256 p s, is_exact) else None
    | Combine, Some (p, _) =>
        if EXASOL_MAX_PRECISION <? p then Some (TFloat64, is_exact) else None
    | _, None => None
    end.

(** ** The plan rewrite

    [Expr] keeps the node kinds the rule looks at; any other node is [EOther].
    Typing and casting are DataFusion's: arguments of the rewrite. *)

Inductive ScalarValue :=
| SInteger (t : DataType) (v : option Z)
| SDecimal128 (v : option Z) (p s : Z)
| SOther (t : DataType).

Inductive Operator :=
| OpEq | OpNotEq | OpLt | OpLtEq | OpGt | OpGtEq | OpIsDistinctFrom | OpIsNotDistinctFrom
| OpPlus | OpMinus | OpMultiply | OpOther.

Unset Elimination Schemes.
Inductive Expr :=
| ELiteral (v : ScalarValue)
| EBinary (left : Expr) (op : Operator) (right : Expr)
| EInList (expr : Expr) (items : list Expr) (negated : bool)
| EBetween (expr : Expr) (negated : bool) (low high : Expr)
| ECase (operand : option Expr) (when_then : list (Expr * Expr)) (else_expr : option Expr)
| EScalarFunction (func : string) (args : list Expr)
| ENegative (inner : Expr)
| EAggregateFunction (func : string) (args : list Expr)
| ECast (expr : Expr) (t : DataType)
| EOther (id : nat).
Set Elimination Schemes.

(** [value.cast_to(Decimal128(38, 0))] of an integer scalar keeps its value. *)
Definition tighten_literal (e : Expr) : Expr :=
  match e with
  | ELiteral (SInteger t (Some v)) =>
      if is_integer t then ELiteral (SDecimal128 (Some v) (literal_digits v) 0) else e
  | _ => e
  end.

Definition call (op : ExactOp) (args : list Expr) : Expr :=
  EScalarFunction (op_name op) (map tighten_literal args).

Section Rewrite.
Context (get_type : Expr -> result NumError DataType).
Context (cast_to : Expr -> DataType -> result NumError Expr).

(** [Transformed<_>] is the pair of the flag and the data. *)
Definition unify (exprs : list Expr) (how : Unify) : result NumError (bool * list Expr) :=
  let? types := try_map get_type exprs in
  match unify_target types how with
  | None => Ok (false, exprs)
  | Some (target, convert) =>
      let? unified :=
        try_map (fun '(e, t) => if convert t then cast_to e target else Ok e) (zip exprs types) in
      Ok (true, unified)
  end.

(** The [expect]s of the rewrite panic on a list of the wrong length. *)
Definition panic {A} (msg : string) : result NumError A := Err (Panic msg).

Definition rewrite_case (operand : option Expr) (when_then : list (Expr * Expr)) (else_expr : option Expr) :
    result NumError (bool * Expr) :=
  let whens := map fst when_then in
  let thens := map snd when_then in
  let? (kt, keys) := unify (option_list operand ++ whens) Compare in
  let? (rt, results) := unify (thens ++ option_list else_expr) Combine in
  let '(else', results) :=
    match else_expr with Some _ => (List.last (map Some results) None, removelast results) | None => (None, results) end in
  match operand, keys with
  | Some _, [] => panic "removal index (is 0) should be < len (is 0)"
  | Some _, k :: ks => Ok (kt || rt, ECase (Some k) (zip ks results) else')
  | None, ks => Ok (kt || rt, ECase None (zip ks results) else')
  end.

Definition is_comparison (op : Operator) : bool :=
  match op with
  | OpEq | OpNotEq | OpLt | OpLtEq | OpGt | OpGtEq | OpIsDistinctFrom | OpIsNotDistinctFrom => true
  | _ => false
  end.

Definition rewrite_binary (lhs : Expr) (op : Operator) (rhs : Expr) : result NumError (bool * Expr) :=
  if is_comparison op then
    let? (t, both) := unify [lhs; rhs] Compare in
    match both with
    | [l; r] => Ok (t, EBinary l op r)
    | _ => panic "two operands"
    end
  else
    match (match op with OpPlus => Some Add | OpMinus => Some Sub | OpMultiply => Some Mul | _ => None end) with
    | None => Ok (false, EBinary lhs op rhs)
    | Some udf =>
        let? tl := get_type lhs in
        if is_exact tl then
          let? tr := get_type rhs in
          if is_exact tr then Ok (true, call udf [lhs; rhs]) else Ok (false, EBinary lhs op rhs)
        else Ok (false, EBinary lhs op rhs)
    end.

Definition rewrite_sum (func : string) (arg : Expr) : result NumError (bool * Expr) :=
  let? t := get_type arg in
  match t with
  | TDecimal128 p s =>
      if DECIMAL128_SUM_MAX_PRECISION <? p then
        let? arg' := cast_to arg (TDecimal256 p s) in Ok (true, EAggregateFunction func [arg'])
      else Ok (false, EAggregateFunction func [arg])
  | _ =>
      if is_integer t then Ok (true, EAggregateFunction func [call Widen [arg]])
      else Ok (false, EAggregateFunction func [arg])
  end.

Definition rewrite_expr (e : Expr) : result NumError (bool * Expr) :=
  match e with
  | EBinary l op r => rewrite_binary l op r
  | EInList expr items negated =>
      let? (t, all) := unify (expr :: items) Compare in
      match all with
      | x :: rest => Ok (t, EInList x rest negated)
      | [] => panic "the tested operand"
      end
  | EBetween expr negated low high =>
      let? (t, all) := unify [expr; low; high] Compare in
      match all with
      | [x; l; h] => Ok (t, EBetween x negated l h)
      | _ => panic "three operands"
      end
  | ECase operand when_then else_expr => rewrite_case operand when_then else_expr
  | EScalarFunction func args =>
      if (func =? "greatest")%string || (func =? "least")%string || (func =? "coalesce")%string then
        let? (t, args') := unify args Combine in Ok (t, EScalarFunction func args')
      else Ok (false, e)
  | ENegative inner =>
      let? t := get_type inner in
      if is_integer t then Ok (true, ENegative (call Widen [inner])) else Ok (false, e)
  | EAggregateFunction func [arg] =>
      if (func =? "sum")%string then rewrite_sum func arg else Ok (false, e)
  | other => Ok (false, other)
  end.

End Rewrite.

(** ** Specification *)

(** The number an unscaled integer is at a scale, and the operations on numbers. *)
Definition decimal (scale unscaled : Z) : Q := (inject_Z unscaled / inject_Z (10 ^ scale))%Q.
Definition scale_of (t : DataType) : Z := match t with TDecimal128 _ s => s | _ => 0 end.
Definition number_op (op : ExactOp) (x y : Q) : Q :=
  match op with Add => x + y | Sub => x - y | Mul => x * y | Widen => x end%Q.

(** The unscaled result at the result scale, as the kernels compute it. *)
Definition exact_value (op : ExactOp) (a b : Z * Z) (x y : Z) : Z :=
  let '(fa, fb) := factors op a b in
  match op with
  | Add => x * fa + y * fb
  | Sub => x * fa - y * fb
  | Mul | Widen => x * y
  end.

(** The decimals Exasol's non-negative scales give. *)
Definition wf_exact (t : DataType) : Prop :=
  match t with TDecimal128 p s => 0 <= s <= p /\ p <= 38 | _ => is_integer t = true end.

(** A column value of [rows] rows, all of its type. *)
Definition wf_value (v : ColumnarValue) (rows : nat) : Prop :=
  wf_exact (value_type v)
  /\ List.length (as_i128 v rows) = rows
  /\ forall x, Some x ∈ as_i128 v rows -> in_type (value_type v) x.

(** A row whose computation at 128 bits leaves the range. *)
Definition row_overflows (op : ExactOp) (a b : Z * Z) (x y : Z) : Prop :=
  let '(fa, fb) := factors op a b in
  i128_fits (exact_value op a b x y) = false
  \/ (op = Add \/ op = Sub) /\ (i128_fits (x * fa) = false \/ i128_fits (y * fb) = false).

(** ** Bounds *)

Lemma i128_fits_abs z : Z.abs z < 10 ^ 38 -> i128_fits z = true.
Proof.
  intros H. assert (10 ^ 38 < 2 ^ 127) by reflexivity. unfold i128_fits.
  apply andb_true_intro. rewrite Z.leb_le, Z.ltb_lt. lia.
Qed.

Lemma fits_digits z e : Z.abs z < 10 ^ e -> e <= 38 -> i128_fits z = true.
Proof.
  intros Hz He. apply i128_fits_abs. eapply Z.lt_le_trans; [exact Hz|].
  apply Z.pow_le_mono_r; lia.
Qed.

Lemma wrap128_fits z : i128_fits z = true -> wrap128 z = z.
Proof.
  unfold i128_fits, wrap128. intros [H1%Z.leb_le H2%Z.ltb_lt]%andb_prop.
  rewrite Z.mod_small; [lia|]. assert (2 ^ 128 = 2 * 2 ^ 127) by reflexivity. lia.
Qed.

Lemma exact_ps_bound t p s v :
  wf_exact t -> exact_ps t = Ok (p, s) -> in_type t v ->
  Z.abs v < 10 ^ p /\ 0 <= s <= p /\ p <= 38.
Proof.
  intros Hwf Hps Hv. destruct t; cbn in *; try done; simplify_eq; try (split; [cbn|]; lia).
  all: lia.
Qed.

Lemma scaled_bound v p k e :
  Z.abs v < 10 ^ p -> 0 <= p -> 0 <= k -> p + k <= e -> Z.abs (v * 10 ^ k) < 10 ^ e.
Proof.
  intros Hv Hp Hk He. rewrite Z.abs_mul, (Z.abs_eq (10 ^ k)) by (apply Z.pow_nonneg; lia).
  apply Z.lt_le_trans with (10 ^ p * 10 ^ k).
  - apply Z.mul_lt_mono_pos_r; [apply Z.pow_pos_nonneg; lia|done].
  - rewrite <- Z.pow_add_r by lia. apply Z.pow_le_mono_r; lia.
Qed.

Lemma product_bound x y p q :
  Z.abs x < 10 ^ p -> Z.abs y < 10 ^ q -> 0 <= p -> 0 <= q -> Z.abs (x * y) < 10 ^ (p + q).
Proof.
  intros Hx Hy Hp Hq. rewrite Z.abs_mul, Z.pow_add_r by lia.
  apply Z.mul_lt_mono_nonneg; lia.
Qed.

(** Aligned operands of a sum stay below the digits of its result type. *)
Lemma aligned_bounds x y a b :
  Z.abs x < 10 ^ fst a -> Z.abs y < 10 ^ fst b ->
  0 <= snd a <= fst a -> 0 <= snd b <= fst b ->
  let s := Z.max (snd a) (snd b) in
  let e := Z.max (fst a - snd a) (fst b - snd b) + s in
  Z.abs (x * 10 ^ (s - snd a)) < 10 ^ e /\ Z.abs (y * 10 ^ (s - snd b)) < 10 ^ e
  /\ 2 * 10 ^ e <= 10 ^ (e + 1).
Proof.
  intros Hx Hy Ha Hb s e. split; [|split].
  - eapply scaled_bound; [done|lia..].
  - eapply scaled_bound; [done|lia..].
  - rewrite Z.pow_add_r by lia. assert (0 < 10 ^ e) by (apply Z.pow_pos_nonneg; lia). lia.
Qed.

(** Below 38 digits nothing wraps: the unchecked path computes the exact value. *)
Lemma apply_wrapping_exact op a b x y :
  Z.abs x < 10 ^ fst a -> Z.abs y < 10 ^ fst b ->
  0 <= snd a <= fst a -> 0 <= snd b <= fst b -> op <> Widen ->
  fst (result_type op a b) <= 38 ->
  apply_wrapping op x y (fst (factors op a b)) (snd (factors op a b)) = exact_value op a b x y
  /\ Z.abs (exact_value op a b x y) < 10 ^ fst (result_type op a b).
Proof.
  intros Hx Hy Ha Hb Hop Hp. destruct a as [pa sa], b as [pb sb]; cbn [fst snd] in *.
  unfold exact_value. destruct op; [done| | |]; cbn [result_type factors apply_wrapping fst snd] in *.
  3: { pose proof (product_bound x y pa pb Hx Hy ltac:(lia) ltac:(lia)) as Hm.
       split; [|done]. by apply wrap128_fits, (fits_digits _ (pa + pb)). }
  all: pose proof (aligned_bounds x y (pa, sa) (pb, sb) Hx Hy Ha Hb) as (H1 & H2 & H3);
    cbn [fst snd] in *; cbv zeta in *;
    set (e := Z.max (pa - sa) (pb - sb) + Z.max sa sb) in *;
    unfold wrapping_add, wrapping_sub, wrapping_mul;
    rewrite !(wrap128_fits (_ * _)) by (apply (fits_digits _ e); lia).
  - assert (Hs : Z.abs (x * 10 ^ (Z.max sa sb - sa) + y * 10 ^ (Z.max sa sb - sb)) < 10 ^ (e + 1)) by lia.
    split; [|done]. by apply wrap128_fits, (fits_digits _ (e + 1)).
  - assert (Hs : Z.abs (x * 10 ^ (Z.max sa sb - sa) - y * 10 ^ (Z.max sa sb - sb)) < 10 ^ (e + 1)) by lia.
    split; [|done]. by apply wrap128_fits, (fits_digits _ (e + 1)).
Qed.

Lemma checked128_spec z r : checked128 z = Some r <-> r = z /\ i128_fits z = true.
Proof. unfold checked128. destruct (i128_fits z); naive_solver. Qed.

Lemma checked128_None z : checked128 z = None <-> i128_fits z = false.
Proof. unfold checked128. destruct (i128_fits z); naive_solver. Qed.

(** The checked path returns the exact value, or a row overflows. *)
Lemma apply_checked_spec op a b x y :
  match apply_checked op x y (fst (factors op a b)) (snd (factors op a b)) with
  | Some z => z = exact_value op a b x y /\ i128_fits z = true
  | None => row_overflows op a b x y
  end.
Proof.
  unfold row_overflows, exact_value, apply_checked, checked_mul, checked_add, checked_sub.
  destruct op; cbn [factors fst snd].
  1, 4: destruct (checked128 (x * y)) eqn:E; [by apply checked128_spec in E as [-> ?]|];
    left; by apply checked128_None.
  all: set (fa := 10 ^ (Z.max (snd a) (snd b) - snd a)); set (fb := 10 ^ (Z.max (snd a) (snd b) - snd b));
    destruct (checked128 (x * fa)) as [u|] eqn:E1; cbn;
      [apply checked128_spec in E1 as [-> _]|apply checked128_None in E1; naive_solver];
    destruct (checked128 (y * fb)) as [v|] eqn:E2; cbn;
      [apply checked128_spec in E2 as [-> _]|apply checked128_None in E2; naive_solver].
  - destruct (checked128 (x * fa + y * fb)) eqn:E3; [by apply checked128_spec in E3 as [-> ?]|].
    left. by apply checked128_None.
  - destruct (checked128 (x * fa - y * fb)) eqn:E3; [by apply checked128_spec in E3 as [-> ?]|].
    left. by apply checked128_None.
Qed.

(** ** Columns *)

Lemma unary_binary_r (x : column) c f rows :
  List.length x = rows -> unary x (fun v => f v c) = binary x (replicate rows (Some c)) f.
Proof.
  intros <-. unfold unary, binary. induction x as [|v x IH]; [done|]. cbn. rewrite IH. by destruct v.
Qed.

Lemma unary_binary_l (y : column) c f rows :
  List.length y = rows -> unary y (fun v => f c v) = binary (replicate rows (Some c)) y f.
Proof.
  intros <-. unfold unary, binary. induction y as [|v y IH]; [done|]. cbn. rewrite IH. by destruct v.
Qed.

Lemma into_wide_of v rows : into_wide (Operand_of v rows) rows = as_i128 v rows.
Proof.
  destruct v as [t [v|]|t a]; cbn; [|by destruct t|by destruct (is_signed_integer t)].
  destruct t; done.
Qed.

(** The specialised kernels compute what the general one does. *)
Lemma operand_dispatch lhs rhs rows (f : Z -> Z -> Z) :
  List.length (as_i128 lhs rows) = rows -> List.length (as_i128 rhs rows) = rows ->
  apply_unchecked (Operand_of lhs rows) (Operand_of rhs rows) rows f = binary (as_i128 lhs rows) (as_i128 rhs rows) f.
Proof.
  intros Hl Hr. rewrite <- into_wide_of in Hl, Hr. rewrite <- (into_wide_of lhs), <- (into_wide_of rhs).
  destruct (Operand_of lhs rows), (Operand_of rhs rows); cbn [into_wide apply_unchecked] in *; try done;
    auto using unary_binary_l, unary_binary_r.
Qed.

Lemma binary_ext (l r : column) f g :
  (forall x y, Some x ∈ l -> Some y ∈ r -> f x y = g x y) -> binary l r f = binary l r g.
Proof.
  unfold binary. revert r. induction l as [|x l IH]; intros [|y r] H; try done. cbn. f_equal.
  - destruct x, y; cbn; try done. rewrite H; [done|left..].
  - apply IH. intros u v Hu Hv. apply H; by right.
Qed.

Lemma try_binary_spec {E} (l r : column) (f : Z -> Z -> option Z) (g : Z -> Z -> Z) (e : E) :
  (forall x y z, f x y = Some z -> z = g x y) ->
  match try_binary l r (fun x y => ok_or (f x y) e) with
  | Ok out => out = binary l r g
  | Err e' => e' = e /\ exists x y, Some x ∈ l /\ Some y ∈ r /\ f x y = None
  end.
Proof.
  intros Hf. revert r. induction l as [|x l IH]; intros [|y r]; try done. cbn.
  assert (Hrest : match try_binary l r (fun x y => ok_or (f x y) e) with
    | Ok out => out = binary l r g
    | Err e' => e' = e /\ exists x' y', Some x' ∈ x :: l /\ Some y' ∈ y :: r /\ f x' y' = None
    end).
  { specialize (IH r). destruct (try_binary l r _); [done|].
    destruct IH as [-> (u & v & Hu & Hv & Hn)]. split; [done|]. exists u, v.
    repeat split; [by right..|done]. }
  destruct x as [x|], y as [y|]; cbn; try (destruct (try_binary l r _); [by rewrite Hrest|done]).
  destruct (f x y) as [z|] eqn:Exy; cbn.
  - apply Hf in Exy as ->. destruct (try_binary l r _); [by rewrite Hrest|done].
  - split; [done|]. exists x, y. repeat split; [left..|done].
Qed.

(** ** Numbers *)

Lemma pow10_nonzero s : 0 <= s -> ~ (inject_Z (10 ^ s) == 0)%Q.
Proof. intros Hs E. unfold Qeq in E. cbn in E. assert (0 < 10 ^ s) by (apply Z.pow_pos_nonneg; lia). lia. Qed.

Lemma decimal_rescaled s k z : 0 <= s -> 0 <= k -> (decimal (s + k) (z * 10 ^ k) == decimal s z)%Q.
Proof.
  intros Hs Hk. unfold decimal. rewrite Z.pow_add_r, !inject_Z_mult by lia. field. split; by apply pow10_nonzero.
Qed.

Lemma decimal_aligned s sa z : 0 <= sa -> sa <= s -> (decimal s (z * 10 ^ (s - sa)) == decimal sa z)%Q.
Proof. intros H1 H2. rewrite <- (decimal_rescaled sa (s - sa) z) by lia. by replace (sa + (s - sa)) with s by lia. Qed.

(** The kernels' result, read at the result scale, is the result of the operation. *)
Lemma exact_value_number op a b x y : op <> Widen -> 0 <= snd a -> 0 <= snd b ->
  (decimal (snd (result_type op a b)) (exact_value op a b x y) == number_op op (decimal (snd a) x) (decimal (snd b) y))%Q.
Proof.
  intros Hop Ha Hb. destruct a as [pa sa], b as [pb sb]. cbn [snd] in *. unfold exact_value. destruct op; [done| | |]; cbn [result_type factors number_op fst snd].
  - rewrite <- (decimal_aligned (Z.max sa sb) sa x), <- (decimal_aligned (Z.max sa sb) sb y) by lia. unfold decimal. rewrite inject_Z_plus. field. apply pow10_nonzero. lia.
  - rewrite <- (decimal_aligned (Z.max sa sb) sa x), <- (decimal_aligned (Z.max sa sb) sb y) by lia. unfold decimal, Z.sub at 1. rewrite inject_Z_plus, inject_Z_opp. field. apply pow10_nonzero. lia.
  - unfold decimal. rewrite Z.pow_add_r, !inject_Z_mult by lia. field. split; by apply pow10_nonzero.
Qed.

(** A row whose computation leaves the 128-bit range at the result scale: its result, or,
    in a sum or a difference, an operand. *)
Definition leaves_range (op : ExactOp) (s sa sb x y : Z) : Prop :=
  exists w, i128_fits w = false
    /\ ((decimal s w == number_op op (decimal sa x) (decimal sb y))%Q
        \/ (op = Add \/ op = Sub) /\ ((decimal s w == decimal sa x)%Q \/ (decimal s w == decimal sb y)%Q)).

Lemma row_overflows_leaves op a b x y : op <> Widen -> 0 <= snd a -> 0 <= snd b ->
  row_overflows op a b x y -> leaves_range op (snd (result_type op a b)) (snd a) (snd b) x y.
Proof.
  intros Hop Ha Hb. unfold row_overflows. pose proof (exact_value_number op a b x y Hop Ha Hb) as He. destruct (factors op a b) as [fa fb] eqn:Ef.
  intros [H|(Hs & H)]; [exists (exact_value op a b x y); split; [done|by left]|].
  assert (Hf : fa = 10 ^ (snd (result_type op a b) - snd a) /\ fb = 10 ^ (snd (result_type op a b) - snd b)
    /\ snd a <= snd (result_type op a b) /\ snd b <= snd (result_type op a b)).
  { destruct a, b, Hs as [-> | ->]; cbn in *; injection Ef as <- <-; split_and!; try done; lia. }
  destruct Hf as (-> & -> & H1 & H2). destruct H as [H|H]; eexists; (split; [exact H|]); right; (split; [done|]).
  - left. by apply decimal_aligned.
  - right. by apply decimal_aligned.
Qed.

(** Row by row: null where an operand is null, else the number of the operation. *)
Definition rows_exact (op : ExactOp) (s sa sb : Z) (left right out : column) : Prop :=
  List.length out = Nat.min (List.length left) (List.length right)
  /\ forall i x y, left !! i = Some x -> right !! i = Some y ->
       match x, y with
       | Some x, Some y => exists z, out !! i = Some (Some z) /\ (decimal s z == number_op op (decimal sa x) (decimal sb y))%Q
       | _, _ => out !! i = Some None
       end.

Lemma binary_rows_exact op a b left right : op <> Widen -> 0 <= snd a -> 0 <= snd b ->
  rows_exact op (snd (result_type op a b)) (snd a) (snd b) left right (binary left right (exact_value op a b)).
Proof.
  intros Hop Ha Hb. unfold binary. split; [apply length_zip_with|]. intros i x y Hx Hy. rewrite lookup_zip_with, Hx, Hy. cbn.
  destruct x as [x|], y as [y|]; cbn; try done. eexists. split; [done|]. by apply exact_value_number.
Qed.

Lemma wf_exact_scale t : wf_exact t -> exists p, exact_ps t = Ok (p, scale_of t) /\ 0 <= scale_of t.
Proof. destruct t; cbn; try done; intros; eexists; (split; [done|]); lia. Qed.

(** C31. Exact arithmetic never wraps. On columns of exact types, [+], [-] and [*]
    either return, row by row, the number of the operation on the operands' numbers, read
    at the scale of the type the plan declares for the result (null where an operand is
    null), and record nothing, or fail with the overflow error, recorded for the session,
    and then the result of some row, or an operand of a sum at the result scale, really
    leaves the 128-bit range; the scalar and integer fast paths included. A number is its
    unscaled integer over the power of ten of its scale. *)
Theorem combine_exact_or_overflow op lhs rhs rows raised p s :
  op <> Widen -> wf_value lhs rows -> wf_value rhs rows ->
  return_type op [value_type lhs; value_type rhs] = Ok (TDecimal128 p s) ->
  let sa := scale_of (value_type lhs) in
  let sb := scale_of (value_type rhs) in
  match combine op [lhs; rhs] rows raised with
  | (raised', Ok out) => raised' = raised /\ rows_exact op s sa sb (as_i128 lhs rows) (as_i128 rhs rows) out
  | (raised', Err e) =>
      let overflow := numeric_overflow (overflow_detail op) in
      e = ExecError overflow /\ raised' = record raised overflow
      /\ exists x y, Some x ∈ as_i128 lhs rows /\ Some y ∈ as_i128 rhs rows /\ leaves_range op s sa sb x y
  end.
Proof.
  intros Hop (Hwl & Hll & Hvl) (Hwr & Hlr & Hvr) Hret sa sb.
  destruct (wf_exact_scale _ Hwl) as (pa & Ha & Hsa). destruct (wf_exact_scale _ Hwr) as (pb & Hb & Hsb). fold sa in Ha, Hsa. fold sb in Hb, Hsb.
  assert (s = snd (result_type op (pa, sa) (pb, sb))) as ->.
  { unfold return_type in Hret. rewrite Ha, Hb in Hret. destruct (result_type op (pa, sa) (pb, sb)) as [p' s']. destruct (_ <? s'); [done|]. by injection Hret. }
  pose proof (binary_rows_exact op (pa, sa) (pb, sb) (as_i128 lhs rows) (as_i128 rhs rows) Hop Hsa Hsb) as Hrows. cbn [snd] in Hrows.
  unfold combine. rewrite Ha, Hb.
  pose proof (apply_checked_spec op (pa, sa) (pb, sb)) as Hchk. pose proof (apply_wrapping_exact op (pa, sa) (pb, sb)) as Hwrap.
  destruct (factors op (pa, sa) (pb, sb)) as [fa fb]. cbn [fst snd] in *. cbv zeta.
  destruct (Z.leb_spec (fst (result_type op (pa, sa) (pb, sb))) DECIMAL128_MAX_PRECISION) as [Hp|Hp].
  - split; [done|]. rewrite operand_dispatch by done. rewrite (binary_ext _ _ _ (exact_value op (pa, sa) (pb, sb))); [done|]. intros x y Hx%Hvl Hy%Hvr.
    apply (exact_ps_bound _ _ _ _ Hwl Ha) in Hx as (Hx & Hxa & _). apply (exact_ps_bound _ _ _ _ Hwr Hb) in Hy as (Hy & Hyb & _). by apply Hwrap.
  - rewrite !into_wide_of.
    pose proof (try_binary_spec (as_i128 lhs rows) (as_i128 rhs rows)
      (fun x y => apply_checked op x y fa fb) (exact_value op (pa, sa) (pb, sb)) (overflow_detail op)) as H.
    assert (Hf : forall x y z, apply_checked op x y fa fb = Some z -> z = exact_value op (pa, sa) (pb, sb) x y).
    { intros x y z E. specialize (Hchk x y). rewrite E in Hchk. by destruct Hchk. }
    specialize (H Hf). destruct (try_binary _ _ _); [by rewrite H|].
    destruct H as [-> (x & y & Hx & Hy & E)]. split; [done|]. split; [done|]. exists x, y. split; [done|]. split; [done|].
    specialize (Hchk x y). rewrite E in Hchk. by apply (row_overflows_leaves op (pa, sa) (pb, sb)).
Qed.

(** The fast path on an integer column, and an overflow of the checked one. *)
Lemma combine_exact_or_overflow_witness :
  combine Add [CArray TInt64 [Some 7; None]; CScalar (TDecimal128 3 2) (Some 125)] 2 None
    = (None, Ok [Some 825; None])
  /\ (exists z, [Some 825; None] !! 0%nat = Some (Some z) /\ (decimal 2 z == decimal 0 7 + decimal 2 125)%Q)
  /\ fst (combine Mul [CArray (TDecimal128 38 0) [Some (10 ^ 37)]; CScalar TInt64 (Some 100)] 1 None)
     = Some (numeric_overflow (overflow_detail Mul)).
Proof.
  split; [reflexivity|]. split; [|reflexivity].
  pose proof (combine_exact_or_overflow Add (CArray TInt64 [Some 7; None])
    (CScalar (TDecimal128 3 2) (Some 125)) 2 None 22 2 ltac:(discriminate)) as H1.
  assert (W1 : wf_value (CArray TInt64 [Some 7; None]) 2).
  { split; [done|]. split; [done|]. intros x Hx. apply list_elem_of_In in Hx. cbn in Hx |- *. destruct Hx as [[= <-]|[[=]|[]]]. lia. }
  assert (W2 : wf_value (CScalar (TDecimal128 3 2) (Some 125)) 2).
  { split; [cbn; lia|]. split; [done|]. intros x Hx. cbn in Hx |- *.
    apply list_elem_of_In in Hx. cbn in Hx. destruct Hx as [[= <-]|[[= <-]|[]]]; lia. }
  specialize (H1 W1 W2 eq_refl). exact (proj2 (proj2 H1) 0%nat (Some 7) (Some 125) eq_refl eq_refl).
Defined.

(** The declared result type is a decimal Exasol and Arrow both hold: at most
    38 digits, a scale of at most 36. *)
Theorem return_type_bounds op args t :
  return_type op args = Ok t -> exists p s, t = TDecimal128 p s /\ p <= 38 /\ s <= 36.
Proof.
  unfold return_type. destruct args as [|ta rest]; [done|].
  destruct (exact_ps ta) as [a|]; [|done].
  destruct (match rest with [] => Ok a | tb :: _ => exact_ps tb end) as [b|]; [|done].
  destruct (result_type op a b) as [p s]. unfold EXASOL_MAX_SCALE, DECIMAL128_MAX_PRECISION.
  destruct (Z.ltb_spec 36 s); [done|]. intros [= <-]. eexists _, _. split; [done|]. lia.
Qed.

(** ** Literals *)

Lemma ilog10_spec fuel n :
  0 < n < 10 ^ Z.of_nat fuel -> 0 <= ilog10 fuel n /\ 10 ^ ilog10 fuel n <= n < 10 ^ (ilog10 fuel n + 1).
Proof.
  revert n. induction fuel as [|fuel IH]; intros n Hn; [cbn in Hn; lia|]. cbn [ilog10].
  destruct (Z.ltb_spec n 10); [cbn; lia|].
  assert (Hd : 0 < n / 10 < 10 ^ Z.of_nat fuel).
  { split; [apply Z.div_str_pos; lia|]. apply Z.div_lt_upper_bound; [lia|].
    rewrite Nat2Z.inj_succ, Z.pow_succ_r in Hn by lia. lia. }
  destruct (IH _ Hd) as (H0 & H1 & H2). set (k := ilog10 fuel (n / 10)) in *.
  replace (1 + k + 1) with (Z.succ (k + 1)) by lia. replace (1 + k) with (Z.succ k) by lia.
  rewrite !Z.pow_succ_r by lia. pose proof (Z.mul_div_le n 10 ltac:(lia)).
  pose proof (Z.mul_succ_div_gt n 10 ltac:(lia)). lia.
Qed.

(** A literal is typed by its own digits: the precision given to a 128-bit
    literal is the least one that holds it. *)
Theorem literal_digits_tight v :
  Z.abs v < 10 ^ 39 ->
  Z.abs v < 10 ^ literal_digits v
  /\ (v <> 0 -> 10 ^ (literal_digits v - 1) <= Z.abs v) /\ 1 <= literal_digits v.
Proof.
  intros Hv. unfold literal_digits, checked_ilog10. destruct (Z.eqb_spec (Z.abs v) 0) as [H0|H0].
  - split; [cbn; lia|]. split; lia.
  - destruct (ilog10_spec 39 (Z.abs v)) as (H1 & H2 & H3); [lia|].
    split; [done|]. rewrite Z.add_simpl_r. lia.
Qed.

(** ** Unification *)

Lemma common_step_grows how acc t acc' :
  0 <= snd acc -> common_step how acc t = Some acc' ->
  fst acc <= fst acc' /\ snd acc <= snd acc'
  /\ exists p s, exact_ps t = Ok (p, s) /\ 0 <= s /\ s <= snd acc'
       /\ (match how with Compare => p | Combine => Z.min p 36 end) - s <= fst acc'.
Proof.
  destruct acc as [d sc]. unfold common_step. destruct (negb (is_exact t)); [done|].
  destruct (exact_ps t) as [[p s]|] eqn:Eps; [|done]. destruct (Z.ltb_spec s 0); [done|].
  intros Hsc [= <-]. cbn [fst snd]. unfold EXASOL_MAX_PRECISION.
  split; [lia|]. split; [lia|]. exists p, s. destruct how; repeat split; lia.
Qed.

Lemma common_fold_grows how types acc acc' :
  0 <= snd acc -> common_fold how acc types = Some acc' ->
  fst acc <= fst acc' /\ snd acc <= snd acc'
  /\ forall t, t ∈ types -> is_null_type t = false ->
       exists p s, exact_ps t = Ok (p, s) /\ 0 <= s /\ s <= snd acc'
         /\ (match how with Compare => p | Combine => Z.min p 36 end) - s <= fst acc'.
Proof.
  revert acc. induction types as [|t types IH]; intros acc Hacc; cbn.
  - intros [= <-]. split; [lia|]. split; [lia|]. intros t Ht. by apply elem_of_nil in Ht.
  - destruct (is_null_type t) eqn:En.
    + intros H. apply IH in H as (H1 & H2 & H3); [|done]. split; [done|]. split; [done|].
      intros t' [->|Ht']%elem_of_cons Hn; [congruence|auto].
    + destruct (common_step how acc t) as [acc1|] eqn:E1; cbn; [|done]. intros H.
      apply common_step_grows in E1 as (G1 & G2 & p & s & Ep & Hs & Hsc & Hd); [|done].
      apply IH in H as (H1 & H2 & H3); [|lia]. split; [lia|]. split; [lia|].
      intros t' [->|Ht']%elem_of_cons Hn; [|auto]. exists p, s. repeat split; try done; lia.
Qed.

Lemma common_fold_cap types acc acc' :
  Forall (fun t => is_null_type t = true \/ wf_exact t) types -> fst acc <= 38 -> snd acc <= 38 ->
  common_fold Compare acc types = Some acc' -> fst acc' <= 38 /\ snd acc' <= 38.
Proof.
  intros Hwf. revert acc. induction Hwf as [|t types Ht _ IH]; intros [a b] Ha Hb; cbn.
  - by intros [= <-].
  - destruct (is_null_type t) eqn:En; [by apply IH|]. destruct Ht as [Ht|Ht]; [congruence|].
    unfold common_step. destruct (negb (is_exact t)); [done|].
    destruct (exact_ps t) as [[p s]|] eqn:Ep; [|done]. destruct (Z.ltb_spec s 0); [done|]. cbn.
    apply IH; cbn in *; destruct t; cbn in *; try done; simplify_eq; lia.
Qed.

(** Comparing wide exact operands is lossless: the decimal type the operands
    are cast to holds every one of their values exactly, whatever their types. *)
Theorem compare_unification_lossless types p s t v :
  Forall (fun t => is_null_type t = true \/ wf_exact t) types ->
  unify_target types Compare = Some (TDecimal256 p s, is_exact) ->
  t ∈ types -> is_null_type t = false -> in_type t v ->
  exists pt st, exact_ps t = Ok (pt, st) /\ 0 <= s - st
    /\ Z.abs (v * 10 ^ (s - st)) < 10 ^ p /\ p <= 76.
Proof.
  intros Hwf Hu Ht Hn Hv. unfold unify_target in Hu. destruct (_ && _); [done|].
  destruct (common_exact types Compare) as [[p' s']|] eqn:Ec; [|done].
  destruct (_ <? p'); [|done]. injection Hu as -> ->. unfold common_exact in Ec.
  destruct (common_fold Compare (0, 0) types) as [[d sc]|] eqn:Ef; cbn in Ec; [|done].
  injection Ec as <- <-. pose proof Ef as Hgrow.
  apply common_fold_grows in Hgrow as (H1 & H2 & H3); [|cbn; lia]. cbn [fst snd] in *.
  destruct (H3 t Ht Hn) as (pt & st & Ep & Hst & Hsc & Hd). exists pt, st.
  destruct (common_fold_cap types (0, 0) (d, sc) Hwf ltac:(cbn; lia) ltac:(cbn; lia) Ef) as [Hc1 Hc2].
  cbn [fst snd] in *.
  assert (Hwt : wf_exact t).
  { rewrite Forall_forall in Hwf. destruct (Hwf t); [by apply list_elem_of_In|congruence|done]. }
  destruct (exact_ps_bound t pt st v Hwt Ep Hv) as (Hb & Hs & Hp).
  split; [done|]. split; [lia|]. split; [|unfold DECIMAL256_MAX_PRECISION; lia].
  unfold DECIMAL256_MAX_PRECISION. rewrite Z.min_l by lia. eapply scaled_bound; [done|lia..].
Qed.

(** Two 38-digit operands of different scales need a 256-bit decimal. *)
Lemma compare_unification_lossless_witness :
  exists pt st, exact_ps (TDecimal128 38 0) = Ok (pt, st) /\ 0 <= 10 - st
    /\ Z.abs (5 * 10 ^ (10 - st)) < 10 ^ 48 /\ 48 <= 76.
Proof.
  apply (compare_unification_lossless [TDecimal128 38 0; TNull; TDecimal128 20 10] 48 10 (TDecimal128 38 0) 5).
  - constructor; [right; cbn; lia|]. constructor; [by left|]. constructor; [right; cbn; lia|constructor].
  - reflexivity.
  - left.
  - reflexivity.
  - cbn. lia.
Defined.

Lemma literal_digits_tight_witness :
  literal_digits (-250) = 3 /\ Z.abs (-250) < 10 ^ literal_digits (-250).
Proof. split; [reflexivity|]. apply (literal_digits_tight (-250)). cbn. lia. Defined.

Lemma return_type_bounds_witness :
  return_type Mul [TDecimal128 30 20; TInt64] = Ok (TDecimal128 38 20) /\ 38 <= 38 /\ 20 <= 36.
Proof.
  split; [reflexivity|].
  destruct (return_type_bounds Mul [TDecimal128 30 20; TInt64] (TDecimal128 38 20) eq_refl)
    as (p & s & [= <- <-] & H). exact H.
Defined.

(** ** The plan rewrite *)

Section RewriteFacts.
Context (get_type : Expr -> result NumError DataType).
Context (cast_to : Expr -> DataType -> result NumError Expr).

(** [y] stands where [x] stood: itself, or a cast of it. *)
Definition operand_of (x y : Expr) : Prop := y = x \/ exists t, cast_to x t = Ok y.

(** An error that typing or casting an operand raised. *)
Definition operand_error (e : NumError) : Prop :=
  (exists x, get_type x = Err e) \/ exists x t, cast_to x t = Err e.

Lemma try_map_get_type exprs :
  match try_map get_type exprs with
  | Ok types => List.length types = List.length exprs
  | Err e => operand_error e
  end.
Proof.
  induction exprs as [|x exprs IH]; [done|]. cbn. destruct (get_type x) eqn:Ex; cbn; [|left; eauto].
  destruct (try_map get_type exprs); cbn; [by rewrite IH|done].
Qed.

Lemma try_map_cast (convert : DataType -> bool) target exprs types :
  List.length types = List.length exprs ->
  match try_map (fun '(e, t) => if convert t then cast_to e target else Ok e) (zip exprs types) with
  | Ok out => Forall2 operand_of exprs out
  | Err e => operand_error e
  end.
Proof.
  revert types. induction exprs as [|x exprs IH]; intros [|t types] Hl; try done; cbn.
  - constructor.
  - specialize (IH types ltac:(cbn in Hl; lia)).
    destruct (if convert t then cast_to x target else Ok x) as [y|e] eqn:Ey; cbn.
    + destruct (try_map _ _); cbn; [|done]. constructor; [|done].
      destruct (convert t); [right; eauto|left; congruence].
    + destruct (convert t); [right; eauto|done].
Qed.

Lemma Forall2_operand_refl exprs : Forall2 operand_of exprs exprs.
Proof. induction exprs; constructor; [by left|done]. Qed.

(** [unify] keeps the operands in place, each as it is or cast. *)
Lemma unify_spec exprs how :
  match unify get_type cast_to exprs how with
  | Ok (_, out) => Forall2 operand_of exprs out
  | Err e => operand_error e
  end.
Proof.
  unfold unify. pose proof (try_map_get_type exprs) as Ht. destruct (try_map get_type exprs) as [types|]; [|done].
  cbn. destruct (unify_target types how) as [[target convert]|]; [|apply Forall2_operand_refl].
  pose proof (try_map_cast convert target exprs types Ht) as Hc. by destruct (try_map _ (zip _ _)).
Qed.

Lemma Forall2_zip_branches wt ks rs :
  Forall2 operand_of (map fst wt) ks -> Forall2 operand_of (map snd wt) rs ->
  Forall2 (fun p q => operand_of p.1 q.1 /\ operand_of p.2 q.2) wt (zip ks rs).
Proof.
  revert ks rs. induction wt as [|[w t] wt IH]; intros ks rs Hk Hr; cbn in *.
  - inversion Hk. constructor.
  - inversion Hk; inversion Hr; subst. cbn. constructor; [done|auto].
Qed.

Lemma split_else thens (el : option Expr) results :
  Forall2 operand_of (thens ++ option_list el)%list results ->
  let '(el', rs) :=
    match el with Some _ => (List.last (map Some results) None, removelast results) | None => (None, results) end in
  Forall2 operand_of thens rs /\ option_Forall2 operand_of el el'.
Proof.
  intros H. destruct el as [e|]; cbn in H.
  - apply Forall2_app_inv_l in H as (rs & l & Hrs & Hl & ->).
    inversion Hl as [|? y ? ? Hy Hnil]; subst. inversion Hnil; subst.
    rewrite map_app. cbn. rewrite List.last_last, removelast_last. split; [done|by constructor].
  - rewrite app_nil_r in H. split; [done|constructor].
Qed.

Lemma rewrite_case_keeps_branches_aux operand wt el :
  match rewrite_case get_type cast_to operand wt el with
  | Ok (_, e') => exists operand' wt' el', e' = ECase operand' wt' el'
      /\ option_Forall2 operand_of operand operand'
      /\ Forall2 (fun p q => operand_of p.1 q.1 /\ operand_of p.2 q.2) wt wt'
      /\ option_Forall2 operand_of el el'
  | Err e => operand_error e
  end.
Proof.
  unfold rewrite_case.
  pose proof (unify_spec (option_list operand ++ map fst wt)%list Compare) as Hk.
  destruct (unify _ _ (option_list operand ++ map fst wt)%list Compare) as [[kt keys]|]; [|done]. cbn.
  pose proof (unify_spec (map snd wt ++ option_list el)%list Combine) as Hr.
  destruct (unify _ _ (map snd wt ++ option_list el)%list Combine) as [[rt results]|]; [|done]. cbn.
  apply split_else in Hr.
  destruct (match el with Some _ => _ | None => _ end) as [el' rs]. destruct Hr as [Hrs Hel].
  destruct operand as [o|]; cbn in Hk.
  - inversion Hk as [|? k ? ks Ho Hks]; subst. exists (Some k), (zip ks rs), el'.
    split; [done|]. split; [by constructor|]. auto using Forall2_zip_branches.
  - exists None, (zip keys rs), el'. split; [done|]. split; [constructor|]. auto using Forall2_zip_branches.
Qed.

(** Unifying a [CASE] keeps its shape: the operand, every [WHEN] with its own
    [THEN], and the [ELSE] stand where they stood, each as it was or cast; it fails
    only where typing or casting an operand fails. *)
Theorem rewrite_case_keeps_branches operand wt el :
  match rewrite_case get_type cast_to operand wt el with
  | Ok (_, e') => exists operand' wt' el', e' = ECase operand' wt' el'
      /\ option_Forall2 operand_of operand operand'
      /\ Forall2 (fun p q => operand_of p.1 q.1 /\ operand_of p.2 q.2) wt wt'
      /\ option_Forall2 operand_of el el'
  | Err e => operand_error e
  end.
Proof. apply rewrite_case_keeps_branches_aux. Qed.

Lemma unify_arity exprs how :
  match unify get_type cast_to exprs how with
  | Ok (_, out) => List.length out = List.length exprs
  | Err e => operand_error e
  end.
Proof.
  pose proof (unify_spec exprs how) as H. destruct (unify _ _ exprs how) as [[]|]; [|done].
  symmetry. by eapply Forall2_length.
Qed.

Lemma rewrite_binary_errors lhs op rhs e :
  rewrite_binary get_type cast_to lhs op rhs = Err e -> operand_error e.
Proof.
  unfold rewrite_binary. destruct (is_comparison op).
  - pose proof (unify_arity [lhs; rhs] Compare) as H.
    destruct (unify _ _ [lhs; rhs] Compare) as [[t both]|]; cbn; [|by intros [= <-]].
    destruct both as [|l [|r [|]]]; done.
  - destruct (match op with OpPlus => _ | _ => _ end); [|done].
    destruct (get_type lhs) eqn:El; cbn; [|intros [= <-]; left; eauto].
    destruct (is_exact _); [|done].
    destruct (get_type rhs) eqn:Er; cbn; [|intros [= <-]; left; eauto]. by destruct (is_exact _).
Qed.

Lemma rewrite_sum_errors func arg e :
  rewrite_sum get_type cast_to func arg = Err e -> operand_error e.
Proof.
  unfold rewrite_sum. destruct (get_type arg) as [t|] eqn:Et; cbn; [|intros [= <-]; left; eauto].
  destruct t; cbn; try done. destruct (_ <? p); [|done].
  destruct (cast_to _ _) eqn:Ec; cbn; [done|]. intros [= <-]. right; eauto.
Qed.

(** The rewrite never panics: its [expect]s and its [remove(0)] always find
    their operands, so an error it returns is one that typing or casting an operand
    returned. *)
Theorem rewrite_expr_never_panics e :
  match rewrite_expr get_type cast_to e with Ok _ => True | Err err => operand_error err end.
Proof.
  destruct (rewrite_expr get_type cast_to e) as [|err] eqn:E; [done|]. destruct e; cbn in E; try done.
  - by apply rewrite_binary_errors in E.
  - pose proof (unify_arity (e :: items) Compare) as H.
    destruct (unify _ _ (e :: items) Compare) as [[t all]|]; cbn in E; [|by injection E as <-].
    by destruct all.
  - pose proof (unify_arity [e1; e2; e3] Compare) as H.
    destruct (unify _ _ [e1; e2; e3] Compare) as [[t all]|]; cbn in E; [|by injection E as <-].
    by destruct all as [|x [|l [|h [|]]]].
  - pose proof (rewrite_case_keeps_branches_aux operand when_then else_expr) as H. by rewrite E in H.
  - destruct (_ || _); [|done]. pose proof (unify_arity args Combine) as H.
    destruct (unify _ _ args Combine) as [[t all]|]; cbn in E; [done|by injection E as <-].
  - destruct (get_type e) eqn:Et; cbn in E; [by destruct (is_integer _)|]. injection E as <-. left; eauto.
  - destruct args as [|arg [|]]; try done. destruct (_ =? _)%string; [|done]. by apply rewrite_sum_errors in E.
Qed.

End RewriteFacts.

(** ** SUM *)

Definition sum (vs : list Z) : Z := fold_right Z.add 0 vs.

(** The accumulator of [SUM] adds with wrapping. *)
Definition wrapping_sum (vs : list Z) : Z := fold_left wrapping_add vs 0.

Lemma sum_bound p vs :
  0 <= p -> Forall (fun v => Z.abs v < 10 ^ p) vs -> Z.abs (sum vs) <= Z.of_nat (List.length vs) * 10 ^ p.
Proof. intros Hp. induction 1; cbn [sum fold_right List.length]; [lia|]. fold (sum l) in *. lia. Qed.

Lemma wrapping_sum_exact p vs acc :
  Z.abs acc + Z.of_nat (List.length vs) * 10 ^ p < 10 ^ 38 ->
  Forall (fun v => Z.abs v < 10 ^ p) vs -> fold_left wrapping_add vs acc = acc + sum vs.
Proof.
  intros Hacc Hvs. revert acc Hacc. induction Hvs as [|v vs Hv _ IH]; intros acc Hacc; cbn [sum fold_right fold_left].
  - lia.
  - cbn [List.length] in Hacc. unfold wrapping_add at 2.
    rewrite wrap128_fits by (apply i128_fits_abs; nia). rewrite IH by lia. fold (sum vs). lia.
Qed.

(** [SUM] of an exact column never wraps. Its argument becomes a 256-bit
    decimal, or a 128-bit one of at most 28 digits, and then the wrapping total of up
    to ten thousand million rows is the exact sum. *)
Theorem sum_never_wraps get_type cast_to func arg t vs e b :
  get_type arg = Ok t -> wf_exact t -> rewrite_sum get_type cast_to func arg = Ok (b, e) ->
  Z.of_nat (List.length vs) < 10 ^ 10 -> Forall (in_type t) vs ->
  (exists p s arg', t = TDecimal128 p s /\ cast_to arg (TDecimal256 p s) = Ok arg'
     /\ e = EAggregateFunction func [arg'])
  \/ wrapping_sum vs = sum vs.
Proof.
  intros Et Hwf E Hn Hvs. unfold rewrite_sum in E. rewrite Et in E. cbn in E.
  assert (Hex : exists p s, exact_ps t = Ok (p, s)) by (destruct t; cbn in *; try done; eauto).
  destruct Hex as (p & s & Ep).
  assert (Hb : Forall (fun v => Z.abs v < 10 ^ p) vs).
  { revert Hvs. apply Forall_impl. intros v Hv. by apply (exact_ps_bound t p s v). }
  assert (Hsmall : 0 <= p <= 28 -> wrapping_sum vs = sum vs).
  { intros Hp. unfold wrapping_sum. rewrite (wrapping_sum_exact p); [lia| |done].
    assert (10 ^ p <= 10 ^ 28) by (apply Z.pow_le_mono_r; lia).
    assert (10 ^ 38 = 10 ^ 10 * 10 ^ 28) by reflexivity.
    assert (0 < 10 ^ p) by (apply Z.pow_pos_nonneg; lia). nia. }
  destruct t; cbn in *; try done; simplify_eq; try (right; apply Hsmall; lia).
  unfold DECIMAL128_SUM_MAX_PRECISION, DECIMAL128_MAX_PRECISION in E.
  destruct (Z.ltb_spec (38 - 10) p); [|right; apply Hsmall; lia].
  destruct (cast_to _ _) as [arg'|] eqn:Ec; cbn in E; [|done]. simplify_eq. left. eauto 10.
Qed.

Lemma sum_never_wraps_witness : wrapping_sum [5; -7; 9223372036854775807] = sum [5; -7; 9223372036854775807].
Proof.
  destruct (sum_never_wraps (fun _ => Ok TInt64) (fun e _ => Ok e) "sum" (EOther 0) TInt64
    [5; -7; 9223372036854775807] (EAggregateFunction "sum" [call Widen [EOther 0]]) true)
    as [(p & s & arg' & [=] & _)|H]; [reflexivity|reflexivity|reflexivity|cbn; lia| |exact H].
  repeat constructor; cbn; lia.
Defined.
