(* ===== verification/CheckedDiv.v ===== *)
(** crates/lakehouse-engine/src/scan/checked_div.rs: the scalar function a pushed
    [FLOAT_DIV] renders as. Division is IEEE-754 binary64; a non-finite quotient
    fails the query, and the failure is recorded for the session. *)

From stdpp Require Import base list strings numbers.
From Stdlib Require Import String SpecFloat.
From S2P Require Import Prelude ArrowTypes ExactNumeric Render.

Local Open Scope string_scope.

(** ** [f64] *)

Notation f64 := spec_float.

Definition f64_zero : f64 := S754_zero false.
Definition f64_div (x y : f64) : f64 := SFdiv 53 1024 x y.
Definition f64_eq (x y : f64) : bool := SFeqb x y.
Definition is_finite (x : f64) : bool :=
  match x with S754_zero _ | S754_finite _ _ _ => true | _ => false end.

Definition NULL_ROW_FILLER : f64 := f64_zero.

Inductive CheckedFloatDivError :=
| ZeroDivisor (numerator divisor : f64)
| NonFiniteResult (numerator divisor quotient : f64).

(** An error and the chain of its [source]s, outermost first. *)
Inductive DynError :=
| ECheckedFloatDiv (e : CheckedFloatDivError)
| EExecution (msg : string)
| EWrapped (msg : string) (source : DynError).

Fixpoint find_checked_float_div_error (error : DynError) : option CheckedFloatDivError :=
  match error with
  | ECheckedFloatDiv e => Some e
  | EExecution _ => None
  | EWrapped _ source => find_checked_float_div_error source
  end.

(** [NullBuffer]: [true] is a valid row. *)
Notation NullBuffer := (list bool).

Definition is_null (mask : NullBuffer) (row : nat) : bool := negb (nth row mask true).

Definition NullBuffer_union (a b : option NullBuffer) : option NullBuffer :=
  match a, b with
  | Some a, Some b => Some (zip_with andb a b)
  | Some a, None | None, Some a => Some a
  | None, None => None
  end.

Record Float64Array := { values : list f64; nulls : option NullBuffer }.

Definition checked_quotient (numerator divisor : f64) : result CheckedFloatDivError f64 :=
  let quotient := f64_div numerator divisor in
  if is_finite quotient then Ok quotient
  else if f64_eq divisor f64_zero then Err (ZeroDivisor numerator divisor)
  else Err (NonFiniteResult numerator divisor quotient).

(** [nulls.is_some_and(|mask| mask.is_null(row))] *)
Definition null_at (nulls : option NullBuffer) (row : nat) : bool :=
  match nulls with Some mask => is_null mask row | None => false end.

(** The loop of [divide_checked], from [row] on. *)
Fixpoint divide_rows (row : nat) (left right : list f64) (nulls : option NullBuffer) :
    result CheckedFloatDivError (list f64) :=
  match left, right with
  | numerator :: left', divisor :: right' =>
      let? q := (if null_at nulls row then Ok NULL_ROW_FILLER else checked_quotient numerator divisor) in
      let? rest := divide_rows (S row) left' right' nulls in
      Ok (q :: rest)
  | _, _ => Ok []
  end.

Definition divide_checked (left right : list f64) (nulls : option NullBuffer) :
    result CheckedFloatDivError (list f64) :=
  divide_rows 0 left right nulls.

Section Invoke.
(** [f64]'s [Display], and Arrow's cast of an argument to [Float64]. *)
Context {V : Type} (display_f64 : f64 -> string) (as_float64 : V -> nat -> result DynError Float64Array).

Definition div_error_display (e : CheckedFloatDivError) : string :=
  match e with
  | ZeroDivisor numerator divisor =>
      "data exception - division by zero: " ++ CHECKED_FLOAT_DIV_FN ++ "(" ++ display_f64 numerator ++ ", "
      ++ display_f64 divisor ++ ") has no finite result, and Exasol's DOUBLE admits no infinite value"
  | NonFiniteResult numerator divisor quotient =>
      numeric_overflow (CHECKED_FLOAT_DIV_FN ++ "(" ++ display_f64 numerator ++ ", " ++ display_f64 divisor
        ++ ") evaluates to " ++ display_f64 quotient ++ ", and Exasol's DOUBLE admits no non-finite value")
  end.

Definition div_invoke (args : list V) (number_rows : nat) (raised : RaisedFailure) :
    RaisedFailure * result DynError Float64Array :=
  match args with
  | [lhs; rhs] =>
      match as_float64 lhs number_rows, as_float64 rhs number_rows with
      | Err e, _ | Ok _, Err e => (raised, Err e)
      | Ok l, Ok r =>
          let nulls := NullBuffer_union l.(nulls) r.(nulls) in
          match divide_checked l.(values) r.(values) nulls with
          | Ok quotients => (raised, Ok {| values := quotients; nulls := nulls |})
          | Err failure =>
              (record raised (div_error_display failure),
               Err (EWrapped "External" (ECheckedFloatDiv failure)))
          end
      end
  | _ =>
      (raised, Err (EExecution (CHECKED_FLOAT_DIV_FN ++ " takes exactly two arguments, got "
                                ++ show_nat (List.length args))))
  end.

End Invoke.

(** ** Facts *)

Lemma zero_divisor_not_finite x y : f64_eq y f64_zero = true -> is_finite (f64_div x y) = false.
Proof. destruct y as [[]|[]| |[]]; try done; by destruct x as [[]|[]| |[]]. Qed.

Lemma checked_quotient_spec x y :
  match checked_quotient x y with
  | Ok q => q = f64_div x y /\ is_finite q = true
  | Err e => is_finite (f64_div x y) = false
      /\ e = if f64_eq y f64_zero then ZeroDivisor x y else NonFiniteResult x y (f64_div x y)
  end.
Proof. unfold checked_quotient. destruct (is_finite _) eqn:E; [done|]. by destruct (f64_eq y f64_zero). Qed.

(** What a row of the result holds. *)
Definition row_divided (nulls : option NullBuffer) (row : nat) (x y q : f64) : Prop :=
  if null_at nulls row then q = f64_zero else q = f64_div x y /\ is_finite q = true.

Lemma divide_rows_spec row left right nulls :
  match divide_rows row left right nulls with
  | Ok qs => List.length qs = Nat.min (List.length left) (List.length right)
      /\ forall i x y, left !! i = Some x -> right !! i = Some y ->
           exists q, qs !! i = Some q /\ row_divided nulls (row + i) x y q
  | Err e => exists i x y, left !! i = Some x /\ right !! i = Some y
      /\ null_at nulls (row + i) = false /\ checked_quotient x y = Err e
      /\ forall j x' y', (j < i)%nat -> left !! j = Some x' -> right !! j = Some y' ->
           null_at nulls (row + j) = false -> is_finite (f64_div x' y') = true
  end.
Proof.
  revert row right. induction left as [|x left IH]; intros row [|y right]; cbn [divide_rows]; try done.
  specialize (IH (S row) right).
  destruct (if null_at nulls row then _ else _) as [q|e] eqn:Eq; cbn.
  - assert (Hq : row_divided nulls row x y q).
    { unfold row_divided. destruct (null_at nulls row); [by simplify_eq|].
      pose proof (checked_quotient_spec x y) as H. by rewrite Eq in H. }
    destruct (divide_rows (S row) left right nulls) as [qs|e]; cbn.
    + destruct IH as [Hl Hi]. split; [by rewrite Hl|]. intros [|i] u v Hu Hv; cbn in *.
      * simplify_eq. rewrite Nat.add_0_r. eauto.
      * rewrite <- Nat.add_succ_comm. eauto.
    + destruct IH as (i & u & v & Hu & Hv & Hn & He & Hbefore). exists (S i), u, v.
      rewrite <- Nat.add_succ_comm. do 4 (split; [done|]).
      intros [|j] x' y' Hj Hx' Hy' Hnj; cbn in *; [|apply (Hbefore j); [lia|done..|]; by rewrite Nat.add_succ_r in Hnj].
      simplify_eq. rewrite Nat.add_0_r in Hnj. unfold row_divided in Hq. rewrite Hnj in Hq. naive_solver congruence.
  - exists 0%nat, x, y. rewrite Nat.add_0_r. destruct (null_at nulls row); [done|].
    do 4 (split; [done|]). intros; lia.
Qed.

(** The division fails the query exactly when some row must not have a value.
    If it succeeds, every non-null row holds the IEEE quotient and that quotient is
    finite, and a null row raises nothing; if it fails, the failure is that of the
    first non-null row whose quotient is not finite, classified as a division by zero
    exactly when the divisor is a zero of either sign. *)
Theorem divide_checked_rows left right nulls :
  match divide_checked left right nulls with
  | Ok qs => List.length qs = Nat.min (List.length left) (List.length right)
      /\ forall i x y, left !! i = Some x -> right !! i = Some y ->
           exists q, qs !! i = Some q
             /\ if null_at nulls i then q = f64_zero else q = f64_div x y /\ is_finite q = true
  | Err e => exists i x y, left !! i = Some x /\ right !! i = Some y /\ null_at nulls i = false
      /\ is_finite (f64_div x y) = false
      /\ e = (if f64_eq y f64_zero then ZeroDivisor x y else NonFiniteResult x y (f64_div x y))
      /\ forall j x' y', (j < i)%nat -> left !! j = Some x' -> right !! j = Some y' ->
           null_at nulls j = false -> is_finite (f64_div x' y') = true
  end.
Proof.
  pose proof (divide_rows_spec 0 left right nulls) as H. unfold divide_checked.
  destruct (divide_rows 0 left right nulls) as [qs|e]; [exact H|].
  destruct H as (i & x & y & Hx & Hy & Hn & He & Hb). exists i, x, y.
  pose proof (checked_quotient_spec x y) as Hq. rewrite He in Hq. destruct Hq as [Hf ->]. eauto 10.
Qed.

(** A zero divisor in a non-null row always raises, whatever the other rows
    hold, and the session has a recorded failure afterwards; the raised error is
    found again under the wrapping DataFusion adds. *)
Theorem zero_divisor_always_raises {V} display (cast : V -> nat -> result DynError Float64Array)
    l r rows raised left right i x y :
  cast l rows = Ok left -> cast r rows = Ok right ->
  left.(values) !! i = Some x -> right.(values) !! i = Some y ->
  null_at (NullBuffer_union left.(nulls) right.(nulls)) i = false -> f64_eq y f64_zero = true ->
  exists failure, div_invoke display cast [l; r] rows raised
      = (record raised (div_error_display display failure),
         Err (EWrapped "External" (ECheckedFloatDiv failure)))
    /\ record raised (div_error_display display failure) <> None
    /\ find_checked_float_div_error (EWrapped "External" (ECheckedFloatDiv failure)) = Some failure.
Proof.
  intros Hl Hr Hx Hy Hn Hz. unfold div_invoke. rewrite Hl, Hr. cbv zeta.
  pose proof (divide_rows_spec 0 left.(values) right.(values) (NullBuffer_union left.(nulls) right.(nulls))) as H.
  unfold divide_checked. destruct (divide_rows 0 _ _ _) as [qs|failure].
  - destruct H as [_ H]. destruct (H i x y Hx Hy) as (q & _ & Hq). unfold row_divided in Hq.
    cbn in Hq. rewrite Hn in Hq. destruct Hq as [-> Hq]. by rewrite zero_divisor_not_finite in Hq.
  - exists failure. split; [done|]. split; [by destruct raised|done].
Qed.

(** One over minus zero in the second row, after a null row. *)
Lemma zero_divisor_always_raises_witness :
  let one := S754_finite false 1 0 in
  let left := {| values := [one; one]; nulls := None |} in
  let right := {| values := [f64_zero; S754_zero true]; nulls := Some [false; true] |} in
  exists failure, div_invoke (fun _ => "x") (fun v _ => Ok v) [left; right] 2 None
      = (record None (div_error_display (fun _ => "x") failure),
         Err (EWrapped "External" (ECheckedFloatDiv failure)))
    /\ record None (div_error_display (fun _ => "x") failure) <> None
    /\ find_checked_float_div_error (EWrapped "External" (ECheckedFloatDiv failure)) = Some failure.
Proof.
  cbv zeta. eapply (zero_divisor_always_raises _ _ _ _ _ _ _ _ 1 (S754_finite false 1 0) (S754_zero true));
    reflexivity.
Defined.
