(* ===== verification/Sharding.v ===== *)
(** crates/lakehouse-engine/src/adapter/sharding.rs and [group_count] of
    crates/lakehouse-engine/src/exasol.rs: the split of a table's files into the
    shards the parallel scan instances read. *)

From stdpp Require Import base list numbers sorting.
From Stdlib Require Import NArith Lia Permutation Sorted.
From S2P Require Import Prelude.

Local Open Scope N_scope.

Definition USIZE_MAX : N := 2 ^ 64 - 1.

(** ** exasol.rs *)

Definition MAX_GROUP_COUNT : N := 300.

Definition clamp (x lo hi : N) : N := if x <? lo then lo else if hi <? x then hi else x.

Lemma clamp_spec x lo hi :
  lo <= hi -> lo <= clamp x lo hi <= hi /\ (lo <= x -> clamp x lo hi = N.min x hi)
  /\ (lo <= x <= hi -> clamp x lo hi = x).
Proof. unfold clamp. intros H. destruct (N.ltb_spec x lo), (N.ltb_spec hi x); lia. Qed.

Definition saturating_mul (a b : N) : N := N.min (a * b) USIZE_MAX.

Definition group_count (node_count per_node upper_bound : N) : N :=
  let upper := clamp upper_bound 1 MAX_GROUP_COUNT in
  clamp (saturating_mul node_count per_node) 1 upper.

(** ** sharding.rs *)

(** The trait [ShardWeight]: a [u64] per entry. *)
Class ShardWeight (T : Type) := shard_bytes : T -> N.

#[export] Instance pair_weight {A : Type} : ShardWeight (A * N) := snd.

(** [+=] on a [u64]. *)
Definition u64_add (a b : N) : N := (a + b) mod 2 ^ 64.

Section Partition.
Context {T : Type} `{ShardWeight T}.

Definition effective_size (file : T) : N := N.max (shard_bytes file) 1.

(** [sort_by] is stable: an entry goes after those of its own weight. *)
Fixpoint insert_desc (file : T) (sorted : list T) : list T :=
  match sorted with
  | [] => [file]
  | f :: rest =>
      if effective_size f <? effective_size file then file :: sorted else f :: insert_desc file rest
  end.

Definition sort_desc (files : list T) : list T := fold_left (fun sorted f => insert_desc f sorted) files [].

Notation shard := (list T * N)%type.

(** [enumerate().min_by_key(..)]: the first of the least loads, from index [i]. *)
Fixpoint lightest (i : nat) (shards : list shard) : option (nat * N) :=
  match shards with
  | [] => None
  | (_, bytes) :: rest =>
      match lightest (S i) rest with
      | Some (j, b) => if b <? bytes then Some (j, b) else Some (i, bytes)
      | None => Some (i, bytes)
      end
  end.

Definition push (file : T) (s : shard) : shard := ((s.1 ++ [file])%list, u64_add s.2 (effective_size file)).

(** One round of the loop. The [expect] fails on no shard at all. *)
Definition assign (shards : list shard) (file : T) : option (list shard) :=
  '(idx, _) ← lightest 0 shards;
  Some (alter (push file) idx shards).

Fixpoint assign_all (shards : list shard) (files : list T) : option (list shard) :=
  match files with
  | [] => Some shards
  | f :: rest => shards' ← assign shards f; assign_all shards' rest
  end.

Definition partition_files_by_bytes (files : list T) (n : nat) : option (list (list T)) :=
  match files with
  | [] => Some []
  | _ =>
      let shard_count := Nat.min (Nat.max n 1) (List.length files) in
      shards ← assign_all (replicate shard_count ([], 0)) (sort_desc files);
      Some (map fst shards)
  end.

(** ** Specification *)

Definition load (files : list T) : N := fold_right N.add 0 (map effective_size files).

(** ** Sorting *)

Lemma insert_desc_perm f l : insert_desc f l ≡ₚ f :: l.
Proof.
  induction l as [|g l IH]; [done|]. cbn. case_match; [done|]. rewrite IH. constructor.
Qed.

Lemma fold_insert_perm files acc :
  fold_left (fun sorted f => insert_desc f sorted) files acc ≡ₚ (acc ++ files)%list.
Proof.
  revert acc. induction files as [|f files IH]; intros acc; cbn; [by rewrite app_nil_r|].
  rewrite IH, insert_desc_perm. cbn. by rewrite Permutation_middle.
Qed.

Lemma sort_desc_perm files : sort_desc files ≡ₚ files.
Proof. unfold sort_desc. by rewrite fold_insert_perm. Qed.

Lemma load_app a b : load (a ++ b)%list = load a + load b.
Proof. unfold load. rewrite map_app. induction (map effective_size a); cbn; lia. Qed.

Lemma load_perm a b : a ≡ₚ b -> load a = load b.
Proof. unfold load. induction 1; cbn in *; lia. Qed.

Lemma effective_size_pos f : 1 <= effective_size f.
Proof. unfold effective_size. lia. Qed.

Lemma load_zero l : load l = 0 -> l = [].
Proof. destruct l as [|f l]; [done|]. unfold load. cbn. pose proof (effective_size_pos f). lia. Qed.

(** ** The loop *)

Lemma lightest_spec i (shards : list shard) :
  match lightest i shards with
  | None => shards = []
  | Some (j, b) => exists k s, j = (i + k)%nat /\ shards !! k = Some s /\ s.2 = b
      /\ (forall k' s', shards !! k' = Some s' -> b <= s'.2)
      /\ (forall k' s', (k' < k)%nat -> shards !! k' = Some s' -> b < s'.2)
  end.
Proof.
  revert i. induction shards as [|[e bytes] shards IH]; intros i; [done|]. cbn [lightest].
  specialize (IH (S i)). destruct (lightest (S i) shards) as [[j b]|].
  - destruct IH as (k & s & -> & Hk & Hs & Hmin & Hfst). destruct (N.ltb_spec b bytes).
    + exists (S k), s. split; [lia|]. split; [done|]. split; [done|]. split.
      * intros [|k'] s' Hk'; cbn in Hk'; [simplify_eq; cbn; lia|eauto].
      * intros [|k'] s' Hlt Hk'; cbn in Hk'; [simplify_eq; done|]. eapply Hfst; [|done]. lia.
    + exists 0%nat, (e, bytes). split; [lia|]. split; [done|]. split; [done|]. split; [|lia].
      intros [|k'] s' Hk'; cbn in Hk'; [by simplify_eq|]. apply Hmin in Hk'. lia.
  - subst. exists 0%nat, (e, bytes). split; [lia|]. split; [done|]. split; [done|]. split; [|lia].
    intros [|k'] s' Hk'; by simplify_eq/=.
Qed.

Definition entries (shards : list shard) : list T := concat (map fst shards).

(** What the loop keeps: exact loads, balance within [w], and an empty shard only
    while no shard has two entries. *)
Record balanced (w : N) (shards : list shard) : Prop := {
  bal_loads : forall s, s ∈ shards -> s.2 = load s.1;
  bal_close : forall s s', s ∈ shards -> s' ∈ shards -> s.2 <= s'.2 + w;
  bal_spread : forall s s', s ∈ shards -> s' ∈ shards -> s.1 = [] -> (List.length s'.1 <= 1)%nat;
}.

Lemma entries_alter i f (shards : list shard) s :
  shards !! i = Some s -> entries (alter (push f) i shards) ≡ₚ f :: entries shards.
Proof.
  revert i. unfold entries. induction shards as [|t shards IH]; intros [|i] Hi; simplify_eq/=.
  - rewrite <- app_assoc. symmetry. apply Permutation_middle.
  - rewrite IH by done. symmetry. apply Permutation_middle.
Qed.

Lemma load_entries (shards : list shard) s : s ∈ shards -> load s.1 <= load (entries shards).
Proof.
  intros Hs%elem_of_Permutation. destruct Hs as [rest Hs].
  replace (load (entries shards)) with (load (entries (s :: rest))).
  - change (entries (s :: rest)) with (s.1 ++ entries rest)%list. rewrite load_app. lia.
  - apply load_perm. unfold entries. by rewrite Hs.
Qed.

Lemma elem_of_alter (shards : list shard) i f s t :
  shards !! i = Some s -> t ∈ alter (push f) i shards -> t = push f s \/ t ∈ shards.
Proof.
  intros Hi Ht. apply list_elem_of_lookup in Ht as [j Hj]. destruct (decide (j = i)) as [->|Hne].
  - rewrite list_lookup_alter_eq, Hi in Hj. injection Hj as <-. by left.
  - rewrite list_lookup_alter_ne in Hj by done. right. by eapply list_elem_of_lookup_2.
Qed.

(** A round finds a shard and keeps the invariant. *)
Lemma assign_balanced w shards f :
  shards <> [] -> balanced w shards -> effective_size f <= w ->
  load (entries shards) + effective_size f < 2 ^ 64 ->
  exists shards', assign shards f = Some shards' /\ balanced w shards'
    /\ List.length shards' = List.length shards /\ entries shards' ≡ₚ f :: entries shards.
Proof.
  intros Hne Hb Hw Hbound. unfold assign. pose proof (lightest_spec 0 shards) as Hl.
  destruct (lightest 0 shards) as [[j b]|]; [|done].
  destruct Hl as (k & s & -> & Hk & Hs & Hmin & _). cbn [mbind option_bind plus].
  assert (Hin : s ∈ shards) by (by eapply list_elem_of_lookup_2).
  assert (Hmin' : forall t, t ∈ shards -> s.2 <= t.2).
  { intros t [k' Hk']%list_elem_of_lookup. rewrite Hs. eauto. }
  pose proof (bal_loads _ _ Hb s Hin) as Hload. pose proof (load_entries shards s Hin) as Hle.
  assert (Hpush : (push f s).2 = s.2 + effective_size f).
  { cbn. unfold u64_add. rewrite N.mod_small; lia. }
  eexists. split; [done|]. split; [split|split].
  - intros t Ht. destruct (elem_of_alter _ _ _ _ _ Hk Ht) as [->|Ht']; [|by apply (bal_loads _ _ Hb)].
    rewrite Hpush. change (push f s).1 with (s.1 ++ [f])%list. rewrite load_app, Hload.
    unfold load at 3. cbn. lia.
  - intros t t' Ht Ht'.
    destruct (elem_of_alter _ _ _ _ _ Hk Ht) as [->|Hi]; destruct (elem_of_alter _ _ _ _ _ Hk Ht') as [->|Hi'];
      rewrite ?Hpush.
    + lia.
    + specialize (Hmin' _ Hi'). lia.
    + pose proof (bal_close _ _ Hb t s Hi Hin). lia.
    + by apply (bal_close _ _ Hb).
  - intros t t' Ht Ht' Hempty.
    destruct (elem_of_alter _ _ _ _ _ Hk Ht) as [->|Hi]; [cbn in Hempty; by destruct (s.1)|].
    destruct (elem_of_alter _ _ _ _ _ Hk Ht') as [->|Hi']; [|by apply (bal_spread _ _ Hb t)].
    pose proof (Hmin' t Hi) as Hz. pose proof (bal_loads _ _ Hb t Hi) as Hlt. rewrite Hempty in Hlt.
    assert (Hs0 : s.1 = []). { apply load_zero. unfold load in *. cbn in Hlt. lia. }
    cbn. by rewrite Hs0.
  - by rewrite length_alter.
  - by eapply entries_alter.
Qed.

Lemma assign_all_balanced w files shards :
  shards <> [] -> balanced w shards -> Forall (fun f => effective_size f <= w) files ->
  load (entries shards) + load files < 2 ^ 64 ->
  exists shards', assign_all shards files = Some shards' /\ balanced w shards'
    /\ List.length shards' = List.length shards /\ entries shards' ≡ₚ (files ++ entries shards)%list.
Proof.
  intros Hne Hb Hw. revert shards Hne Hb. induction Hw as [|f files Hf _ IH]; intros shards Hne Hb Hbound.
  - eexists. repeat split; try done; by apply Hb.
  - assert (Hsplit : load (f :: files) = effective_size f + load files) by done.
    destruct (assign_balanced w shards f Hne Hb Hf) as (mid & Ha & Hmid & Hlen & Hperm); [lia|].
    cbn [assign_all]. rewrite Ha. cbn [mbind option_bind].
    assert (Hmne : mid <> []) by (by destruct mid, shards).
    destruct (IH mid Hmne Hmid) as (out & Ho & Hob & Holen & Hop).
    { rewrite (load_perm _ _ Hperm). unfold load at 1. cbn. fold (load (entries shards)). lia. }
    exists out. split; [done|]. split; [done|]. split; [lia|]. rewrite Hop, Hperm. cbn.
    by rewrite Permutation_middle.
Qed.

Lemma entries_replicate n : entries (replicate n ([], 0)) = [].
Proof. unfold entries. by induction n. Qed.

Lemma initial_balanced w n : balanced w (replicate n ([], 0)).
Proof.
  split.
  - intros s [-> _]%elem_of_replicate. done.
  - intros s s' [-> _]%elem_of_replicate [-> _]%elem_of_replicate. cbn. lia.
  - intros s s' _ [-> _]%elem_of_replicate _. cbn. lia.
Qed.

Lemma concat_length_le (ls : list (list T)) :
  (forall l, l ∈ ls -> List.length l <= 1)%nat -> [] ∈ ls -> (List.length (concat ls) < List.length ls)%nat.
Proof.
  intros H1 H0. induction ls as [|l ls IH]; [by apply elem_of_nil in H0|]. cbn.
  assert (Hall : forall ls' : list (list T), (forall l, l ∈ ls' -> List.length l <= 1)%nat ->
    (List.length (concat ls') <= List.length ls')%nat).
  { clear. induction ls' as [|l ls' IH]; intros H; [done|]. cbn. rewrite length_app.
    pose proof (H l ltac:(left)). specialize (IH ltac:(intros; apply H; by right)). lia. }
  rewrite length_app. apply elem_of_cons in H0 as [<-|H0].
  - specialize (Hall ls ltac:(intros; apply H1; by right)). cbn. lia.
  - pose proof (H1 l ltac:(left)). specialize (IH ltac:(intros; apply H1; by right) H0). lia.
Qed.

(** The final state of the loop on a non-empty file list. *)
Lemma partition_shards files n w :
  files <> [] -> load files < 2 ^ 64 -> (forall f, f ∈ files -> effective_size f <= w) ->
  exists shards, partition_files_by_bytes files n = Some (map fst shards)
    /\ balanced w shards /\ entries shards ≡ₚ files
    /\ List.length shards = Nat.min (Nat.max n 1) (List.length files).
Proof.
  intros Hne Hbound Hw. unfold partition_files_by_bytes. destruct files as [|f0 rest] eqn:Ef; [done|].
  rewrite <- Ef in *. set (m := Nat.min (Nat.max n 1) (List.length files)).
  assert (Hm : (1 <= m)%nat) by (subst m; rewrite Ef; cbn; lia).
  destruct (assign_all_balanced w (sort_desc files) (replicate m ([], 0))) as (out & Ho & Hb & Hlen & Hperm).
  - by destruct m; [lia|].
  - apply initial_balanced.
  - apply Forall_forall. intros f Hf. apply Hw. revert Hf. by rewrite sort_desc_perm.
  - rewrite entries_replicate, (load_perm _ _ (sort_desc_perm files)). unfold load at 1. cbn. lia.
  - exists out. cbv zeta. rewrite Ho. split; [done|]. split; [done|]. split.
    + rewrite Hperm, entries_replicate, app_nil_r. apply sort_desc_perm.
    + by rewrite Hlen, length_replicate.
Qed.

End Partition.

(** The shards are a partition of the files: the split never fails, every file
    is in exactly one shard, no shard is empty, and there are [n] shards, or one per
    file when there are fewer files (at least one). *)
Theorem partition_is_exact {T} `{ShardWeight T} (files : list T) n :
  files <> [] -> load files < 2 ^ 64 ->
  exists shards, partition_files_by_bytes files n = Some shards
    /\ concat shards ≡ₚ files /\ [] ∉ shards
    /\ List.length shards = Nat.min (Nat.max n 1) (List.length files).
Proof.
  intros Hne Hbound.
  destruct (partition_shards files n (2 ^ 64) Hne Hbound) as (shards & E & Hb & Hperm & Hlen).
  { intros f [rest Hf]%elem_of_Permutation. rewrite (load_perm _ _ Hf) in Hbound. unfold load in Hbound.
    cbn [map fold_right] in Hbound. lia. }
  exists (map fst shards). rewrite length_map. split; [done|]. split; [done|]. split; [|done].
  intros Hempty. apply Permutation_length in Hperm. unfold entries in Hperm.
  assert (Hlt : (List.length (concat (map fst shards)) < List.length (map fst shards))%nat).
  { apply concat_length_le; [|done]. intros l (t & -> & Ht)%list_elem_of_fmap.
    apply list_elem_of_fmap in Hempty as (s & Hs & Hin). by apply (bal_spread _ _ Hb s t). }
  rewrite length_map in Hlt. lia.
Qed.

(** The split is balanced: any two shards differ by at most the weight of the
    largest file, so no instance waits on another for longer than one file takes. *)
Theorem partition_is_balanced {T} `{ShardWeight T} (files : list T) n w shards a b :
  files <> [] -> load files < 2 ^ 64 -> (forall f, f ∈ files -> effective_size f <= w) ->
  partition_files_by_bytes files n = Some shards -> a ∈ shards -> b ∈ shards ->
  load a <= load b + w.
Proof.
  intros Hne Hbound Hw E Ha Hb.
  destruct (partition_shards files n w Hne Hbound Hw) as (out & Eo & Hbal & _ & _).
  rewrite Eo in E. injection E as <-.
  apply list_elem_of_fmap in Ha as (s & -> & Hs). apply list_elem_of_fmap in Hb as (t & -> & Ht).
  rewrite <- !(bal_loads _ _ Hbal) by done. by apply (bal_close _ _ Hbal).
Qed.

(** The shard count asked for is within Exasol's round-robin range, whatever
    the node count and the option say, and is their product when that is in range. *)
Theorem group_count_range node_count per_node upper_bound :
  1 <= group_count node_count per_node upper_bound <= MAX_GROUP_COUNT
  /\ (1 <= upper_bound -> group_count node_count per_node upper_bound <= upper_bound)
  /\ (1 <= node_count * per_node <= N.min upper_bound 300 ->
      group_count node_count per_node upper_bound = node_count * per_node).
Proof.
  unfold group_count, saturating_mul, MAX_GROUP_COUNT.
  assert (Hmax : 300 <= USIZE_MAX) by (vm_compute; discriminate).
  generalize (node_count * per_node) USIZE_MAX Hmax. intros product top Htop.
  destruct (clamp_spec upper_bound 1 300 ltac:(lia)) as (Hu & Hb & Hin).
  destruct (clamp_spec (N.min product top) 1 (clamp upper_bound 1 300) ltac:(lia)) as (Hg & _ & Hg').
  split; [lia|]. split; [lia|]. intros Hp.
  assert (clamp upper_bound 1 300 = N.min upper_bound 300) by lia. rewrite Hg'; lia.
Qed.

(** Four files on two shards. *)
Lemma partition_is_exact_witness :
  partition_files_by_bytes [(1%nat, 5); (2%nat, 0); (3%nat, 7); (4%nat, 3)] 2
    = Some [[(3%nat, 7); (2%nat, 0)]; [(1%nat, 5); (4%nat, 3)]]
  /\ exists shards, partition_files_by_bytes [(1%nat, 5); (2%nat, 0); (3%nat, 7); (4%nat, 3)] 2 = Some shards
    /\ concat shards ≡ₚ [(1%nat, 5); (2%nat, 0); (3%nat, 7); (4%nat, 3)] /\ [] ∉ shards
    /\ List.length shards = 2%nat.
Proof.
  split; [reflexivity|].
  apply (partition_is_exact [(1%nat, 5); (2%nat, 0); (3%nat, 7); (4%nat, 3)] 2); [discriminate|reflexivity].
Defined.

Lemma partition_is_balanced_witness :
  load [(1%nat, 5); (4%nat, 3)] <= load [(3%nat, 7); (2%nat, 0)] + 7.
Proof.
  apply (partition_is_balanced [(1%nat, 5); (2%nat, 0); (3%nat, 7); (4%nat, 3)] 2 7
    [[(3%nat, 7); (2%nat, 0)]; [(1%nat, 5); (4%nat, 3)]]).
  - discriminate.
  - reflexivity.
  - intros f Hf. repeat (apply elem_of_cons in Hf as [->|Hf]; [vm_compute; discriminate|]).
    by apply elem_of_nil in Hf.
  - reflexivity.
  - right; left.
  - left.
Defined.
