(* ===== verification/TableFilter.v ===== *)
(** crates/lakehouse-engine/src/adapter/table_filter.rs: the glob patterns of
    [TABLE_INCLUDE] and [TABLE_EXCLUDE]. A [char] is its Unicode code point and a
    text its list of chars. *)

From stdpp Require Import base list numbers.
From Stdlib Require Import String NArith Lia.
From S2P Require Import Prelude.

Local Open Scope N_scope.

Notation char := N.
Notation text := (list char).

Definition WILDCARD_RUN : char := 42.
Definition WILDCARD_ONE : char := 63.
Definition COMMA : char := 44.
Definition EXPECTED_LIST : string := "a comma-separated list of non-empty table name patterns".

(** [struct Pattern(Vec<char>)]. *)
Notation Pattern := text.

(** The position in a text is the suffix still to read; [last_run] is the pair of
    suffixes after the last [*]. [None]: out of fuel. *)
Fixpoint match_loop (fuel : nat) (pattern name : text) (last_run : option (text * text)) : option bool :=
  match fuel with
  | O => None
  | S fuel =>
      match name with
      | [] => Some (forallb (fun c => c =? WILDCARD_RUN) pattern)
      | n :: name' =>
          let backtrack :=
            match last_run with
            | None => Some false
            | Some (run_p, run_n) => match_loop fuel run_p (tail run_n) (Some (run_p, tail run_n))
            end in
          match pattern with
          | [] => backtrack
          | c :: pattern' =>
              if c =? WILDCARD_RUN then match_loop fuel pattern' name (Some (pattern', name))
              else if (c =? WILDCARD_ONE) || (c =? n) then match_loop fuel pattern' name' last_run
              else backtrack
          end
      end
  end.

(** The product bound of the source's comment, plus the rounds outside it. *)
Definition match_fuel (pattern name : text) : nat :=
  (List.length name + 1) * (List.length pattern + 1) + List.length pattern + 1.

Definition matches (pattern : Pattern) (name : text) : option bool :=
  match_loop (match_fuel pattern name) pattern name None.

(** ** Property values *)

(** [char::is_whitespace]: the Unicode property White_Space. *)
Definition is_whitespace (c : char) : bool :=
  ((9 <=? c) && (c <=? 13)) || (c =? 32) || (c =? 133) || (c =? 160) || (c =? 5760)
  || ((8192 <=? c) && (c <=? 8202)) || (c =? 8232) || (c =? 8233) || (c =? 8239) || (c =? 8287)
  || (c =? 12288).

Fixpoint trim_start (s : text) : text :=
  match s with [] => [] | c :: s' => if is_whitespace c then trim_start s' else s end.

Definition trim (s : text) : text := reverse (trim_start (reverse (trim_start s))).

(** [str::split] at a char: always at least one entry. *)
Fixpoint split (sep : char) (s : text) : list text :=
  match s with
  | [] => [[]]
  | c :: s' =>
      if c =? sep then [] :: split sep s'
      else match split sep s' with e :: es => (c :: e) :: es | [] => [[c]] end
  end.

Section Fold.
(** [str::to_uppercase], the fold of the virtual table name. *)
Context (to_uppercase : text -> text).

Definition parse_entry (entry : text) : result string Pattern :=
  match trim entry with [] => Err EXPECTED_LIST | entry => Ok (to_uppercase entry) end.

Definition parse_patterns (raw : text) : result string (list Pattern) := try_map parse_entry (split COMMA raw).
End Fold.

(** ** The filter *)

Record TableFilter := { include : option (list Pattern); exclude : list Pattern }.

Definition TableFilter_new (include exclude : option (list Pattern)) : TableFilter :=
  {| include := include; exclude := default [] exclude |}.

(** [iter().any(..)], short-circuiting. *)
Fixpoint any_matches (patterns : list Pattern) (name : text) : option bool :=
  match patterns with
  | [] => Some false
  | p :: rest => b ← matches p name; if b : bool then Some true else any_matches rest name
  end.

Definition exposes (f : TableFilter) (virtual_table_name : text) : option bool :=
  included ← match f.(include) with None => Some true | Some ps => any_matches ps virtual_table_name end;
  if included : bool then b ← any_matches f.(exclude) virtual_table_name; Some (negb b)
  else Some false.

(** ** Specification: what a glob means *)

Inductive glob : text -> text -> Prop :=
| glob_nil : glob [] []
| glob_run_end p n : glob p n -> glob (WILDCARD_RUN :: p) n
| glob_run_take p c n : glob (WILDCARD_RUN :: p) n -> glob (WILDCARD_RUN :: p) (c :: n)
| glob_char q c p n :
    q <> WILDCARD_RUN -> q = WILDCARD_ONE \/ q = c -> glob p n -> glob (q :: p) (c :: n).

Lemma glob_run p n : glob (WILDCARD_RUN :: p) n <-> exists a b, n = (a ++ b)%list /\ glob p b.
Proof.
  split.
  - remember (WILDCARD_RUN :: p) as wp eqn:E. intros H. revert p E.
    induction H as [|p' n H _|p' c n _ IH|q c p' n Hq _ _ _]; intros p E; simplify_eq.
    + by exists [], n.
    + destruct (IH p eq_refl) as (a & b & -> & Hb). by exists (c :: a), b.
  - intros (a & b & -> & Hb). induction a as [|c a IH]; [by apply glob_run_end|by apply glob_run_take].
Qed.

Lemma glob_nil_r p : glob p [] <-> forallb (fun c => c =? WILDCARD_RUN) p = true.
Proof.
  induction p as [|c p IH]; cbn.
  - split; [done|constructor].
  - rewrite andb_true_iff, N.eqb_eq, <- IH. split.
    + inversion 1; subst; done.
    + intros [-> H]. by apply glob_run_end.
Qed.

Lemma glob_nil_l n : glob [] n <-> n = [].
Proof. split; [by inversion 1|intros ->; constructor]. Qed.

Lemma glob_one q c p n :
  q <> WILDCARD_RUN -> glob (q :: p) (c :: n) <-> (q = WILDCARD_ONE \/ q = c) /\ glob p n.
Proof. intros Hq. split; [by inversion 1|intros [? ?]; by constructor]. Qed.

(** ** The loop *)

(** A run-free piece of pattern over as many chars. *)
Definition piece (q a : text) : Prop :=
  Forall2 (fun p c => p <> WILDCARD_RUN /\ (p = WILDCARD_ONE \/ p = c)) q a.

Lemma glob_piece q a p n : piece q a -> glob (q ++ p)%list (a ++ n)%list <-> glob p n.
Proof. induction 1 as [|x c q a [Hx Hc] _ IH]; [done|]. cbn. rewrite glob_one by done. naive_solver. Qed.

Lemma glob_piece_inv q p n :
  Forall (fun x => x <> WILDCARD_RUN) q -> glob (q ++ p)%list n ->
  exists a b, n = (a ++ b)%list /\ List.length a = List.length q /\ glob p b.
Proof.
  intros Hq. revert n. induction Hq as [|x q Hx _ IH]; intros n H; cbn in H.
  - by exists [], n.
  - inversion H as [|?? |???|? c ? n' ? ? H']; subst; try done.
    destruct (IH _ H') as (a & b & -> & Hl & Hb). exists (c :: a), b. cbn. by rewrite Hl.
Qed.

(** The invariant of [last_run]: since it, one run-free piece matched. *)
Definition run_inv (pattern name : text) (last_run : option (text * text)) : Prop :=
  match last_run with
  | None => True
  | Some (run_p, run_n) => exists q a, run_p = (q ++ pattern)%list /\ run_n = (a ++ name)%list /\ piece q a
  end.

(** What the remaining rounds decide. *)
Definition answer (pattern name : text) (last_run : option (text * text)) : Prop :=
  glob pattern name
  \/ match last_run with
     | Some (run_p, _ :: run_n) => glob (WILDCARD_RUN :: run_p) run_n
     | _ => False
     end.

Lemma piece_star_free q a : piece q a -> Forall (fun x => x <> WILDCARD_RUN) q.
Proof. induction 1; constructor; naive_solver. Qed.

(** A later run makes the earlier one redundant. *)
Lemma answer_new_run p name last :
  run_inv (WILDCARD_RUN :: p) name last ->
  answer (WILDCARD_RUN :: p) name last <-> glob (WILDCARD_RUN :: p) name.
Proof.
  unfold answer, run_inv. destruct last as [[run_p run_n]|]; [|tauto].
  intros (q & a & -> & -> & Hp). split; [|tauto]. intros [H|H]; [done|].
  destruct (a ++ name)%list as [|c rest] eqn:En; [done|].
  apply glob_run in H as (u & v & -> & Hv).
  apply glob_piece_inv in Hv as (a' & b & -> & Hl & Hb); [|by eapply piece_star_free].
  apply glob_run in Hb as (x & y & -> & Hy). apply glob_run.
  assert (Hla : List.length a = List.length a') by (rewrite Hl; symmetry; by eapply Forall2_length).
  exists (drop (List.length a) (c :: u ++ a' ++ x)%list), y. split; [|done].
  rewrite <- (drop_app_length a name), En, <- drop_app_le by (cbn; rewrite !length_app; lia).
  cbn. by rewrite <- !app_assoc.
Qed.

Lemma answer_run_step p name :
  answer p name (Some (p, name)) <-> glob (WILDCARD_RUN :: p) name.
Proof.
  unfold answer. destruct name as [|c n].
  - split; [intros [H|[]]; by constructor|]. intros H. left. by inversion H.
  - split; [intros [H|H]; by constructor|]. intros H. inversion H; subst; naive_solver.
Qed.

Lemma answer_char c x p n last :
  c <> WILDCARD_RUN -> c = WILDCARD_ONE \/ c = x -> answer (c :: p) (x :: n) last <-> answer p n last.
Proof. intros Hc Hx. unfold answer. rewrite glob_one by done. tauto. Qed.

Lemma answer_dead p n last :
  ~ glob p n -> answer p n last <->
  match last with Some (rp, _ :: rn) => answer rp rn (Some (rp, rn)) | _ => False end.
Proof.
  intros H. unfold answer at 1. destruct last as [[rp [|c rn]]|]; [tauto| |tauto].
  rewrite answer_run_step. tauto.
Qed.

(** Rounds still to come, for a pattern of [width] chars and a name of [len]. *)
Definition rounds (width len : nat) (pattern : text) (last_run : option (text * text)) : nat :=
  match last_run with
  | None => (len + 1) * (width + 1) + List.length pattern
  | Some (_, run_n) => List.length run_n * (width + 1) + List.length pattern
  end.

Definition within (width len : nat) (pattern name : text) (last_run : option (text * text)) : Prop :=
  (List.length pattern <= width)%nat /\ (List.length name <= len)%nat
  /\ match last_run with
     | None => True
     | Some (run_p, run_n) => (List.length run_p <= width)%nat /\ (List.length run_n <= len)%nat
     end.

Lemma run_inv_self p n : run_inv p n (Some (p, n)).
Proof. exists [], []. repeat split; constructor. Qed.

Lemma run_inv_char c x p n last :
  c <> WILDCARD_RUN -> c = WILDCARD_ONE \/ c = x ->
  run_inv (c :: p) (x :: n) last -> run_inv p n last.
Proof.
  intros Hc Hx. destruct last as [[rp rn]|]; [|done]. intros (q & a & -> & -> & Hp).
  exists (q ++ [c])%list, (a ++ [x])%list. rewrite <- !app_assoc. repeat split; try done.
  apply Forall2_app; [done|]. constructor; [done|constructor].
Qed.

(** The run suffix of a live round is not exhausted. *)
Lemma run_inv_live p x n rp rn :
  run_inv p (x :: n) (Some (rp, rn)) -> exists y, rn = y :: tail rn.
Proof. intros (q & a & _ & -> & _). destruct a; cbn; eauto. Qed.

Lemma rounds_backtrack w len p rp rn y :
  (List.length rp <= w)%nat -> (rounds w len rp (Some (rp, rn)) < rounds w len p (Some (rp, y :: rn)))%nat.
Proof. cbn. lia. Qed.

Lemma match_loop_spec w len fuel p n last :
  run_inv p n last -> within w len p n last -> (rounds w len p last < fuel)%nat ->
  exists b, match_loop fuel p n last = Some b /\ (b = true <-> answer p n last).
Proof.
  revert p n last. induction fuel as [|fuel IH]; intros p n last Hinv Hw Hf; [lia|]. cbn [match_loop].
  destruct n as [|x n].
  { eexists. split; [done|]. rewrite <- glob_nil_r. unfold answer. destruct last as [[rp rn]|]; [|tauto].
    split; [tauto|]. intros [H|H]; [done|]. destruct rn as [|y rn]; [done|].
    destruct Hinv as (q & a & -> & Hrn & Hp). rewrite app_nil_r in Hrn. subst a.
    apply glob_run in H as (u & v & -> & Hv).
    apply glob_piece_inv in Hv as (a' & b & -> & Hl & _); [|by eapply piece_star_free].
    apply Forall2_length in Hp. cbn in Hp. rewrite !length_app in Hp. lia. }
  assert (Hback : ~ glob p (x :: n) ->
    exists b, match last with
      | None => Some false
      | Some (rp, rn) => match_loop fuel rp (tail rn) (Some (rp, tail rn))
      end = Some b /\ (b = true <-> answer p (x :: n) last)).
  { intros Hno. destruct last as [[rp rn]|].
    - destruct (run_inv_live _ _ _ _ _ Hinv) as [y Hy]. rewrite Hy in Hf, Hw |- *. cbn [tail].
      destruct Hw as (Hw1 & Hw2 & Hw3 & Hw4). cbn in Hw4.
      destruct (IH rp (tail rn) (Some (rp, tail rn))) as (b & Hb & Hans).
      + apply run_inv_self.
      + repeat split; lia.
      + pose proof (rounds_backtrack w len p rp (tail rn) y Hw3). lia.
      + exists b. split; [done|]. by rewrite answer_dead.
    - exists false. split; [done|]. rewrite answer_dead by done. done. }
  destruct Hw as (Hw1 & Hw2 & Hw3). destruct p as [|c p].
  { apply Hback. by rewrite glob_nil_l. }
  destruct (N.eqb_spec c WILDCARD_RUN) as [->|Hc].
  { destruct (IH p (x :: n) (Some (p, x :: n))) as (b & Hb & Hans).
    - apply run_inv_self.
    - cbn in *. repeat split; cbn; lia.
    - destruct last as [[rp rn]|]; cbn in *; [|nia].
      destruct Hinv as (q & a & _ & -> & _). rewrite length_app in Hf. cbn in Hf. nia.
    - exists b. split; [done|]. rewrite answer_new_run by done. by rewrite Hans, answer_run_step. }
  assert (Hstep : c = WILDCARD_ONE \/ c = x ->
    exists b, match_loop fuel p n last = Some b /\ (b = true <-> answer (c :: p) (x :: n) last)).
  { intros Hx. destruct (IH p n last) as (b & Hb & Hans).
    - by eapply (run_inv_char c x).
    - cbn in *. repeat split; [lia|lia|done].
    - destruct last as [[]|]; cbn in *; lia.
    - exists b. split; [done|]. by rewrite answer_char. }
  destruct (N.eqb_spec c WILDCARD_ONE) as [E1|H1]; cbn [orb]; [auto|].
  destruct (N.eqb_spec c x) as [E2|H2]; [auto|]. apply Hback. rewrite glob_one by done. naive_solver.
Qed.

(** The fuel is always enough and the loop decides the glob. *)
Lemma matches_decides pattern name :
  exists b, matches pattern name = Some b /\ (b = true <-> glob pattern name).
Proof.
  unfold matches.
  destruct (match_loop_spec (List.length pattern) (List.length name) (match_fuel pattern name) pattern name None)
    as (b & Hb & Hans).
  - done.
  - repeat split; lia.
  - unfold match_fuel. cbn. lia.
  - exists b. split; [done|]. rewrite Hans. unfold answer. tauto.
Qed.

Lemma any_matches_decides patterns name :
  exists b, any_matches patterns name = Some b /\ (b = true <-> Exists (fun p => glob p name) patterns).
Proof.
  induction patterns as [|p rest IH]; cbn.
  - exists false. split; [done|]. by rewrite Exists_nil.
  - destruct (matches_decides p name) as (b & -> & Hb). cbn. destruct b.
    + exists true. rewrite Exists_cons. tauto.
    + destruct IH as (b & -> & Hr). exists b. rewrite Exists_cons, Hr, <- Hb. naive_solver.
Qed.

(** Glob matching with a single backtrack point is exact and terminates: within
    the product of the lengths the loop answers, and it answers [true] exactly when
    the name matches the pattern in the declarative sense ([*] is any run, [?] any
    one char, everything else itself). *)
Theorem glob_matching_exact pattern name :
  exists b, matches pattern name = Some b /\ (b = true <-> glob pattern name).
Proof. apply matches_decides. Qed.

(** The filter exposes a table exactly when some include pattern matches it (or
    there is no include list) and no exclude pattern does. *)
Theorem exposes_exact inc exc name :
  exists b, exposes (TableFilter_new inc exc) name = Some b
    /\ (b = true <-> (forall ps, inc = Some ps -> Exists (fun p => glob p name) ps)
         /\ ~ Exists (fun p => glob p name) (default [] exc)).
Proof.
  unfold exposes, TableFilter_new. cbn [include exclude].
  destruct (any_matches_decides (default [] exc) name) as (e & He & Hexc).
  assert (Hinc : exists i, match inc with None => Some true | Some ps => any_matches ps name end = Some i
    /\ (i = true <-> forall ps, inc = Some ps -> Exists (fun p => glob p name) ps)).
  { destruct inc as [ps|]; [|by exists true].
    destruct (any_matches_decides ps name) as (i & Hi & Hspec). exists i. split; [done|]. rewrite Hspec.
    naive_solver. }
  destruct Hinc as (i & -> & Hi). cbn. rewrite He. cbn. destruct i.
  - exists (negb e). split; [done|]. rewrite <- Hi, <- Hexc. destruct e; naive_solver.
  - exists false. split; [done|]. rewrite <- Hi. naive_solver.
Qed.

(** ** Lists of patterns *)

Lemma split_nonempty sep s : split sep s <> [].
Proof. destruct s as [|c s]; [done|]. cbn. destruct (c =? sep); [done|]. by destruct (split sep s). Qed.

Lemma split_plain sep s : sep ∉ s -> split sep s = [s].
Proof.
  induction s as [|c s IH]; intros H; [done|]. cbn. apply not_elem_of_cons in H as [Hc Hs].
  rewrite IH by done. by destruct (N.eqb_spec c sep); [subst|].
Qed.

Lemma split_cons sep a s : sep ∉ a -> split sep (a ++ sep :: s)%list = a :: split sep s.
Proof.
  induction a as [|c a IH]; intros H; cbn.
  - by rewrite N.eqb_refl.
  - apply not_elem_of_cons in H as [Hc Ha]. rewrite IH by done. by destruct (N.eqb_spec c sep); [subst|].
Qed.

(** Entries written one after the other, with a separator between. *)
Fixpoint intersperse (sep : char) (entries : list text) : text :=
  match entries with
  | [] => []
  | [e] => e
  | e :: rest => (e ++ sep :: intersperse sep rest)%list
  end.

Lemma split_intersperse sep entries :
  entries <> [] -> Forall (fun e => sep ∉ e) entries -> split sep (intersperse sep entries) = entries.
Proof.
  intros Hne H. induction H as [|e rest He Hrest IH]; [done|]. destruct rest as [|e' rest].
  - by apply split_plain.
  - change (intersperse sep (e :: e' :: rest)) with (e ++ sep :: intersperse sep (e' :: rest))%list.
    rewrite split_cons by done. by rewrite IH.
Qed.

(** A pattern list reads back: the entries of a comma-separated value are
    recovered in order, each trimmed and folded, and the value is refused exactly
    when an entry is blank. *)
Theorem parse_patterns_entries upper entries :
  entries <> [] -> Forall (fun e => COMMA ∉ e) entries ->
  parse_patterns upper (intersperse COMMA entries)
    = if existsb (fun e => match trim e with [] => true | _ => false end) entries then Err EXPECTED_LIST
      else Ok (map (fun e => upper (trim e)) entries).
Proof.
  intros Hne H. unfold parse_patterns. rewrite split_intersperse by done. clear.
  induction entries as [|e rest IH]; [done|]. cbn. unfold parse_entry at 1.
  destruct (trim e); cbn; [done|]. rewrite IH. by destruct (existsb _ rest).
Qed.

(** [ a* , B?C ] *)
Lemma parse_patterns_entries_witness :
  parse_patterns (fun s => s) (intersperse COMMA [[32; 97; 42; 32]; [32; 66; 63; 67]])
    = Ok [[97; 42]; [66; 63; 67]].
Proof.
  rewrite (parse_patterns_entries (fun s => s) [[32; 97; 42; 32]; [32; 66; 63; 67]]);
    [reflexivity|discriminate|].
  repeat constructor; unfold COMMA; intros Hin;
    repeat (apply elem_of_cons in Hin as [Hin|Hin]; [discriminate|]); by apply elem_of_nil in Hin.
Defined.
