(* ===== verification/ExasolRules.v ===== *)
(** crates/lakehouse-engine/src/exasol.rs (option values and quoting) and
    crates/lakehouse-engine/src/types/widening.rs (the type two files of a table
    agree on). *)

From stdpp Require Import base list strings numbers.
From Stdlib Require Import Ascii String ZArith NArith Lia DecimalString DecimalN DecimalFacts.
From S2P Require Import Prelude Text ArrowTypes.

Local Open Scope string_scope.

(** ** exasol.rs *)

Definition catalog_connection_name (name : option string) : option string :=
  match name with Some n => if String.eqb n "" then None else Some n | None => None end.

Definition exasol_quote_ident (name : string) : string := dq ++ replace_char dq_char (dq ++ dq) name ++ dq.

Definition sql_string_literal (s : string) : string := "'" ++ replace_char sq_char "''" s ++ "'".

Definition parse_boolean (raw : string) : option bool :=
  if eq_ignore_ascii_case raw "TRUE" then Some true
  else if eq_ignore_ascii_case raw "FALSE" then Some false
  else None.

(** The trait [WholeNumber]: the accepted range. *)
Class WholeNumber := { MIN : N; MAX : N }.

Definition NonZeroU8 : WholeNumber := {| MIN := 1; MAX := 255 |}.
Definition NonZeroU16 : WholeNumber := {| MIN := 1; MAX := 65535 |}.
Definition NonZeroU32 : WholeNumber := {| MIN := 1; MAX := 4294967295 |}.
Definition NonZeroU64 : WholeNumber := {| MIN := 1; MAX := 18446744073709551615 |}.
Definition NonZeroUsize : WholeNumber := {| MIN := 1; MAX := 18446744073709551615 |}.
Definition u16_number : WholeNumber := {| MIN := 0; MAX := 65535 |}.

(** [str::parse] on digits: the integer, refused outside the type's range. *)
Definition parse_digits `{WholeNumber} (raw : string) : option N :=
  let n := digits_value 0 raw in if ((MIN <=? n) && (n <=? MAX))%N then Some n else None.

Definition parse_whole_number `{WholeNumber} (raw : string) : result string N :=
  let digits := negb (String.eqb raw "") && string_forallb is_ascii_digit raw in
  ok_or (if digits then parse_digits raw else None)
    ("a whole number from " ++ show_N MIN ++ " to " ++ show_N MAX).

(** ** widening.rs *)

Definition INT32_SOURCE_DECIMAL_PRECISION : Z := 10.
Definition INT64_SOURCE_DECIMAL_PRECISION : Z := 20.

Definition widens_decimal (from to : Z * Z) : bool :=
  let precision_growth := (fst to - fst from)%Z in
  let scale_growth := (snd to - snd from)%Z in
  ((0 <=? scale_growth) && (scale_growth <=? precision_growth))%Z.

Definition widens_to (from to : DataType) : bool :=
  match from, to with
  | (TInt8 | TInt16), (TInt32 | TInt64) => true
  | TInt32, TInt64 => true
  | TFloat32, TFloat64 => true
  | (TInt8 | TInt16 | TInt32), TFloat64 => true
  | TDecimal128 from_p from_s, TDecimal128 to_p to_s => widens_decimal (from_p, from_s) (to_p, to_s)
  | (TInt8 | TInt16 | TInt32), TDecimal128 to_p to_s =>
      widens_decimal (INT32_SOURCE_DECIMAL_PRECISION, 0%Z) (to_p, to_s)
  | TInt64, TDecimal128 to_p to_s => widens_decimal (INT64_SOURCE_DECIMAL_PRECISION, 0%Z) (to_p, to_s)
  | TDate32, TTimestamp UMicrosecond None => true
  | _, _ => false
  end.

Definition widen (left right : DataType) : option DataType :=
  if decide (left = right) then Some left
  else if widens_to left right then Some right
  else if widens_to right left then Some left
  else None.

(** ** Option values *)

(** A whole-number option is read back exactly: the decimal text of a number is
    accepted as that number when it is in the option's range and refused otherwise,
    with the message that names the range. *)
Theorem parse_whole_number_show (W : WholeNumber) n :
  parse_whole_number (show_N n)
    = if ((MIN <=? n) && (n <=? MAX))%N then Ok n
      else Err ("a whole number from " ++ show_N MIN ++ " to " ++ show_N MAX).
Proof.
  unfold parse_whole_number, parse_digits. rewrite show_N_nonempty, show_N_digits, digits_value_show. cbn.
  by destruct (_ && _).
Qed.

(** Whatever text is accepted is digits only and in range. *)
Lemma parse_whole_number_accepts (W : WholeNumber) raw n :
  parse_whole_number raw = Ok n ->
  raw <> "" /\ string_forallb is_ascii_digit raw = true /\ n = digits_value 0 raw /\ (MIN <= n <= MAX)%N.
Proof.
  unfold parse_whole_number, parse_digits. destruct (String.eqb_spec raw ""); [done|]. cbn.
  destruct (string_forallb is_ascii_digit raw); [|done].
  destruct (N.leb_spec MIN (digits_value 0 raw)), (N.leb_spec (digits_value 0 raw) MAX); cbn; try done.
  intros [= <-]. auto.
Qed.

(** ** Widening *)

Local Open Scope Z_scope.

Lemma widens_decimal_spec a b :
  widens_decimal a b = true <-> 0 <= b.2 - a.2 /\ b.2 - a.2 <= b.1 - a.1.
Proof. unfold widens_decimal. by rewrite andb_true_iff, !Z.leb_le. Qed.

Lemma widens_to_antisym a b : widens_to a b = true -> widens_to b a = true -> a = b.
Proof.
  destruct a, b; cbn; try done; rewrite ?widens_decimal_spec; cbn; intros; try (f_equal; lia);
    repeat case_match; done.
Qed.

Lemma widens_to_trans a b c : widens_to a b = true -> widens_to b c = true -> widens_to a c = true.
Proof.
  destruct a, b; cbn; try done; destruct c; cbn; try done;
    rewrite ?widens_decimal_spec; cbn; unfold INT32_SOURCE_DECIMAL_PRECISION, INT64_SOURCE_DECIMAL_PRECISION in *;
    intros; try lia; repeat case_match; done.
Qed.

(** Widening does not depend on the order of the files, and the widened type is
    an upper bound of both: each of the two is that type or widens to it. *)
Theorem widen_symmetric_upper_bound l r :
  widen l r = widen r l
  /\ (forall t, widen l r = Some t ->
        (l = t \/ widens_to l t = true) /\ (r = t \/ widens_to r t = true) /\ (t = l \/ t = r)).
Proof.
  unfold widen. split.
  - destruct (decide (l = r)) as [->|Hne]; [by rewrite decide_True|]. rewrite decide_False by done.
    destruct (widens_to l r) eqn:E1, (widens_to r l) eqn:E2; try done. f_equal. symmetry.
    by apply widens_to_antisym.
  - intros t. destruct (decide (l = r)) as [->|Hne]; [naive_solver|].
    destruct (widens_to l r) eqn:E1; [naive_solver|]. destruct (widens_to r l) eqn:E2; naive_solver.
Qed.

(** The scale of the unscaled integers of an exact type. *)
Definition exact_scale (t : DataType) : Z := match t with TDecimal128 _ s => s | _ => 0 end.

(** The target holds an exact value of the given scale without loss. *)
Definition holds (t : DataType) (v scale : Z) : Prop :=
  match t with
  | TDecimal128 p s => scale <= s /\ Z.abs (v * 10 ^ (s - scale)) < 10 ^ p
  | TFloat64 => scale = 0 /\ Z.abs v <= 2 ^ 53
  | _ => scale = 0 /\ in_type t v
  end.

Lemma scaled_in_decimal v p s p' s' :
  0 <= s -> s <= p -> Z.abs v < 10 ^ p -> widens_decimal (p, s) (p', s') = true -> holds (TDecimal128 p' s') v s.
Proof.
  intros Hs Hp Hv [H1 H2]%widens_decimal_spec. cbn in H1, H2 |- *. split; [lia|].
  rewrite Z.abs_mul, (Z.abs_eq (10 ^ _)) by (apply Z.pow_nonneg; lia).
  apply Z.lt_le_trans with (10 ^ p * 10 ^ (s' - s)).
  - apply Z.mul_lt_mono_pos_r; [apply Z.pow_pos_nonneg; lia|done].
  - rewrite <- Z.pow_add_r by lia. apply Z.pow_le_mono_r; lia.
Qed.

(** Widening loses no exact value: every integer or decimal of a type is
    represented exactly in the type it widens to, a double included. *)
Theorem widening_lossless from to v :
  in_type from v -> match from with TDecimal128 p s => 0 <= s <= p | _ => True end ->
  widens_to from to = true -> holds to v (exact_scale from).
Proof.
  intros Hv Hwf Hw. destruct from; cbn in Hv; try done; destruct to; cbn in Hw; try done.
  all: try (cbn; lia).
  all: unfold INT32_SOURCE_DECIMAL_PRECISION, INT64_SOURCE_DECIMAL_PRECISION in Hw.
  all: eapply scaled_in_decimal; [..|exact Hw]; cbn; try lia.
Qed.

Lemma widening_lossless_witness : holds (TDecimal128 12 2) (-12345) 0.
Proof. apply (widening_lossless TInt32 (TDecimal128 12 2) (-12345)); [cbn; lia|done|reflexivity]. Defined.
