(* ===== verification/StatementState.v ===== *)
(** crates/lakehouse-engine/src/adapter/statement_state.rs: the state the adapter
    keeps for one statement. Calls of [get_or_build] run concurrently: a call is a small state
    machine whose steps are the sections the code runs under a lock, and a run is any
    interleaving of them. Values behind an [Arc] are compared by identity. *)

From stdpp Require Import base list strings gmap relations.
From Stdlib Require Import String.
From S2P Require Import Prelude.

(** ** [StatementStates::get_or_build] *)

Section States.
Context {T E : Type}.

Notation states := (gmap string T).

(** [self.locked().entry(name).or_insert(built)]: the state kept, and the map. *)
Definition or_insert (m : states) (name : string) (built : T) : T * states :=
  match m !! name with Some kept => (kept, m) | None => (built, <[name := built]> m) end.

(** A call on its own: the map afterwards and the result. *)
Definition get_or_build (m : states) (name : string) (build : result E T) : states * result E T :=
  match m !! name with
  | Some state => (m, Ok state)
  | None =>
      match build with
      | Err e => (m, Err e)
      | Ok built => let '(kept, m') := or_insert m name built in (m', Ok kept)
      end
  end.

(** Where a concurrent call stands: before its first lock, in [build] (outside the
    lock), before its second lock, or returned. *)
Inductive call :=
| Entered (name : string)
| Building (name : string)
| Built (name : string) (built : T)
| Returned (name : string) (r : result E T).

Notation config := (states * gmap nat call)%type.

Inductive step : config -> config -> Prop :=
| step_hit m calls i name state :
    calls !! i = Some (Entered name) -> m !! name = Some state ->
    step (m, calls) (m, <[i := Returned name (Ok state)]> calls)
| step_miss m calls i name :
    calls !! i = Some (Entered name) -> m !! name = None ->
    step (m, calls) (m, <[i := Building name]> calls)
| step_build m calls i name built :
    calls !! i = Some (Building name) ->
    step (m, calls) (m, <[i := Built name built]> calls)
| step_build_error m calls i name e :
    calls !! i = Some (Building name) ->
    step (m, calls) (m, <[i := Returned name (Err e)]> calls)
| step_insert m calls i name built kept m' :
    calls !! i = Some (Built name built) -> or_insert m name built = (kept, m') ->
    step (m, calls) (m', <[i := Returned name (Ok kept)]> calls).

Definition all_entered (calls : gmap nat call) : Prop :=
  forall i c, calls !! i = Some c -> exists name, c = Entered name.

(** Every returned state is the one kept. *)
Definition returns_kept (c : config) : Prop :=
  forall i name state, c.2 !! i = Some (Returned name (Ok state)) -> c.1 !! name = Some state.

Lemma or_insert_spec m name built kept m' :
  or_insert m name built = (kept, m') ->
  m' !! name = Some kept /\ (forall n s, m !! n = Some s -> m' !! n = Some s)
  /\ (m !! name = None -> kept = built).
Proof.
  unfold or_insert. destruct (m !! name) as [s|] eqn:Em; intros [= <- <-]; [done|].
  split; [by rewrite lookup_insert_eq|]. split; [|done].
  intros n s Hn. rewrite lookup_insert_ne; [done|congruence].
Qed.

Lemma step_keeps_invariant c c' : step c c' -> returns_kept c -> returns_kept c'.
Proof.
  intros Hs Hinv. destruct Hs as [m calls i name state Hi Hm|m calls i name Hi Hm|m calls i name built Hi
    |m calls i name e Hi|m calls i name built kept m' Hi Ho];
    intros j n s Hj; cbn in Hj |- *; apply lookup_insert_Some in Hj as [[<- Hj]|[_ Hj]]; simplify_eq; try done;
    try (by apply (Hinv j)).
  - by apply or_insert_spec in Ho as (? & _).
  - apply or_insert_spec in Ho as (_ & Hmono & _). apply Hmono. by apply (Hinv j).
Qed.

Lemma reachable_invariant c c' : rtc step c c' -> returns_kept c -> returns_kept c'.
Proof. induction 1; eauto using step_keeps_invariant. Qed.
End States.
Arguments call : clear implicits.

(** One state per virtual schema, whatever the interleaving: two concurrent
    calls that return a state for the same name return the same one, although both
    may have built their own outside the lock. *)
Theorem get_or_build_agrees {T E} (m : gmap string T) (calls calls' : gmap nat (call T E)) m' i j name s t :
  all_entered calls -> rtc step (m, calls) (m', calls') ->
  calls' !! i = Some (Returned name (Ok s)) -> calls' !! j = Some (Returned name (Ok t)) -> s = t.
Proof.
  intros Hin Hrun Hi Hj.
  assert (Hinv : returns_kept (m', calls')).
  { eapply reachable_invariant; [exact Hrun|]. intros k n u Hk. cbn in Hk.
    by destruct (Hin _ _ Hk) as [? [=]]. }
  apply Hinv in Hi, Hj. cbn in *. congruence.
Qed.

(** Two calls that both miss: the second insert returns the first call's state. *)
Lemma get_or_build_agrees_witness :
  exists calls' : gmap nat (call nat unit),
    rtc step ((∅ : gmap string nat), {[0%nat := Entered "VS"; 1%nat := Entered "VS"]}) ({["VS"%string := 11%nat]}, calls')
    /\ calls' !! 0%nat = Some (Returned "VS" (Ok 11%nat)) /\ calls' !! 1%nat = Some (Returned "VS" (Ok 11%nat))
    /\ 11%nat = 11%nat.
Proof.
  set (calls' := {[0%nat := Returned "VS" (Ok 11%nat); 1%nat := Returned "VS" (Ok 11%nat)]} : gmap nat (call nat unit)).
  assert (Hrun : rtc step ((∅ : gmap string nat), {[0%nat := Entered "VS"; 1%nat := Entered "VS"]})
    ({["VS"%string := 11%nat]}, calls')).
  { eapply rtc_l; [apply (step_miss _ _ 0%nat "VS"); reflexivity|].
    eapply rtc_l; [apply (step_miss _ _ 1%nat "VS"); reflexivity|].
    eapply rtc_l; [apply (step_build _ _ 0%nat "VS" 10%nat); reflexivity|].
    eapply rtc_l; [apply (step_build _ _ 1%nat "VS" 11%nat); reflexivity|].
    eapply rtc_l; [apply (step_insert _ _ 1%nat "VS" 11%nat 11%nat {["VS"%string := 11%nat]}); reflexivity|].
    eapply rtc_l; [apply (step_insert _ _ 0%nat "VS" 10%nat 11%nat {["VS"%string := 11%nat]}); reflexivity|].
    apply rtc_refl. }
  exists calls'. split; [exact Hrun|]. split; [reflexivity|]. split; [reflexivity|].
  refine (get_or_build_agrees ∅ _ calls' _ 0%nat 1%nat "VS" 11%nat 11%nat _ Hrun eq_refl eq_refl).
  intros k c Hk. apply lookup_insert_Some in Hk as [[_ <-]|[_ Hk]]; [eauto|].
  apply lookup_singleton_Some in Hk as [_ <-]. eauto.
Defined.

(** ** [StatementCatalog] *)

(** Admission. *)
Notation admitted := (gset string).

Definition is_admitted (tables : admitted) (table_identifier : string) : bool :=
  bool_decide (table_identifier ∈ tables).

Definition unchecked (tables : admitted) (identifiers : list string) : list string :=
  filter (fun i => is_admitted tables i = false) identifiers.

Definition admit_tables (tables : admitted) (identifiers : list string) : admitted :=
  tables ∪ list_to_set identifiers.

(** tokio's [OnceCell] as it documents it: a cell holds a value or none; a call of
    [get_or_try_init] on a set cell returns its value and does not run the operation; on an
    empty one it runs the operation, alone on that cell, keeps a success and keeps nothing
    of an error. The calls on one cell therefore follow one another, a waiting call after
    the one it waits for: each is given the operation it would run, and answers with the
    cell afterwards, whether it ran the operation, and the result. *)
Class OnceCell (T E : Type) := {
  cell : Type;
  new_cell : cell;
  value : cell -> option T;
  get_or_try_init : cell -> (unit -> result E T) -> cell * bool * result E T;
  new_cell_empty : value new_cell = None;
  init_set c f t : value c = Some t -> get_or_try_init c f = (c, false, Ok t);
  init_empty c f : value c = None ->
    exists c', get_or_try_init c f = (c', true, f tt) /\ value c' = match f tt with Ok t => Some t | Err _ => None end;
}.

Section Loads.
Context {C T E : Type} {OC : OnceCell T E}.

(** The catalog of a statement: its connection's storage and the loads it shares. *)
Record StatementCatalog := MkStatementCatalog { connection_storage : C; loaded : gmap string cell }.

(** One reference to a table: its identifier, and the catalog client as it answers then. *)
Record Reference := MkReference { table_identifier : string; load_for_scan : string -> C -> result E T }.

(** Whether a reference loaded the table, and what it returned. *)
Notation answer := (bool * result E T)%type.

(** [entry(id).or_default()], then the shared cell. *)
Definition loaded_table (s : StatementCatalog) (r : Reference) : StatementCatalog * answer :=
  let shared := default new_cell (loaded s !! table_identifier r) in
  let '(c, ran, table) := get_or_try_init shared (fun _ => load_for_scan r (table_identifier r) (connection_storage s)) in
  (MkStatementCatalog (connection_storage s) (<[table_identifier r := c]> (loaded s)), (ran, table)).

(** References in the order in which their cells serve them. *)
Fixpoint references (s : StatementCatalog) (rs : list Reference) : StatementCatalog * list answer :=
  match rs with
  | [] => (s, [])
  | r :: rs => let '(s, a) := loaded_table s r in let '(s, l) := references s rs in (s, a :: l)
  end.

(** What the catalog would answer a reference. *)
Definition asked (connection : C) (r : Reference) : result E T := load_for_scan r (table_identifier r) connection.

(** The first load of [id] that succeeds among references. *)
Fixpoint first_load (connection : C) (id : string) (rs : list Reference) : option T :=
  match rs with
  | [] => None
  | r :: rs => if decide (table_identifier r = id) then match asked connection r with Ok t => Some t | Err _ => first_load connection id rs end
               else first_load connection id rs
  end.

(** The table a statement holds for an identifier. *)
Definition kept (s : StatementCatalog) (id : string) : option T := loaded s !! id ≫= value.

Lemma loaded_table_spec s r :
  let '(s', (ran, table)) := loaded_table s r in
  connection_storage s' = connection_storage s
  /\ (ran, table) = match kept s (table_identifier r) with Some t => (false, Ok t) | None => (true, asked (connection_storage s) r) end
  /\ forall id, kept s' id = match kept s id with
                             | Some t => Some t
                             | None => if decide (table_identifier r = id) then match asked (connection_storage s) r with Ok t => Some t | Err _ => None end else None
                             end.
Proof.
  unfold loaded_table, kept.
  assert (Hv : value (default new_cell (loaded s !! table_identifier r)) = (loaded s !! table_identifier r) ≫= value).
  { destruct (loaded s !! table_identifier r); [done|apply new_cell_empty]. }
  rewrite <- Hv. destruct (value (default _ _)) as [t|] eqn:Ec.
  - rewrite (init_set _ _ _ Ec). split; [done|]. split; [done|]. intros id. cbn [loaded]. destruct (decide (table_identifier r = id)) as [<-|Hne].
    + rewrite lookup_insert_eq, <- Hv. cbn. by rewrite Ec.
    + rewrite lookup_insert_ne by done. by destruct (loaded s !! id ≫= value).
  - destruct (init_empty _ (fun _ => asked (connection_storage s) r) Ec) as (c & Hc & Hval). fold (asked (connection_storage s) r). rewrite Hc.
    split; [done|]. split; [done|]. intros id. cbn [loaded]. destruct (decide (table_identifier r = id)) as [<-|Hne].
    + by rewrite lookup_insert_eq, <- Hv.
    + rewrite lookup_insert_ne by done. by destruct (loaded s !! id ≫= value).
Qed.

Lemma references_spec s rs k r :
  rs !! k = Some r ->
  (references s rs).2 !! k
    = Some match kept s (table_identifier r) with
           | Some t => (false, Ok t)
           | None => match first_load (connection_storage s) (table_identifier r) (take k rs) with
                     | Some t => (false, Ok t)
                     | None => (true, asked (connection_storage s) r)
                     end
           end.
Proof.
  revert s k. induction rs as [|r' rs IH]; intros s k; [done|]. cbn [references]. pose proof (loaded_table_spec s r') as Hl.
  destruct (loaded_table s r') as [s' [ran table]]. destruct Hl as (Hc & Ha & Hk). specialize (IH s'). destruct (references s' rs) as [s2 l].
  destruct k as [|k]; [intros [= <-]; cbn; by rewrite Ha|]. intros Hr. change (l !! k = Some (match kept s (table_identifier r) with
    | Some t => (false, Ok t) | None => match first_load (connection_storage s) (table_identifier r) (r' :: take k rs) with Some t => (false, Ok t) | None => (true, asked (connection_storage s) r) end end)).
  etransitivity; [exact (IH k Hr)|]. rewrite Hk, Hc. cbn [first_load].
  destruct (kept s (table_identifier r)) as [t|]; [done|]. by destruct (decide _); [destruct (asked _ r')|].
Qed.
End Loads.
Arguments StatementCatalog : clear implicits.
Arguments StatementCatalog _ _ _ {_}.
Arguments Reference : clear implicits.

(** A table is loaded once per statement: of the references to an identifier, in the order
    in which they are served, each one asks the catalog, with the statement's own storage,
    until one load succeeds; that one's table is what every later reference returns, without
    asking. A failed load is that reference's answer and keeps nothing, and no reference to
    another identifier has a part in it. *)
Theorem loaded_once {C T E} {OC : OnceCell T E} (connection : C) (rs : list (Reference C T E)) k r :
  rs !! k = Some r ->
  (references (MkStatementCatalog connection ∅) rs).2 !! k
    = Some match first_load connection (table_identifier r) (take k rs) with
           | Some t => (false, Ok t)
           | None => (true, load_for_scan r (table_identifier r) connection)
           end.
Proof. intros Hr. rewrite (references_spec _ _ _ _ Hr). unfold kept. cbn [loaded]. by rewrite lookup_empty. Qed.

(** A cell as an option. *)
Definition option_cell {T E} : OnceCell T E.
Proof.
  refine {| cell := option T; new_cell := None; value c := c;
    get_or_try_init c f := match c with Some t => (c, false, Ok t) | None => (match f tt with Ok t => Some t | Err _ => None end, true, f tt) end |}.
  - reflexivity.
  - intros c f t ->. reflexivity.
  - intros c f ->. eexists. split; reflexivity.
Defined.

(** A first load that fails, a second that succeeds, and a third reference that shares it. *)
Lemma loaded_once_witness :
  (references (OC := option_cell) (MkStatementCatalog tt ∅)
     [MkReference "t" (fun _ _ => Err tt); MkReference "t" (fun _ _ => Ok 7%nat); MkReference "u" (fun _ _ => Ok 8%nat); MkReference "t" (fun _ _ => Ok 9%nat)]).2 !! 3%nat
    = Some (false, Ok 7%nat).
Proof.
  exact (loaded_once (OC := option_cell) tt
    [MkReference "t" (fun _ _ => Err tt); MkReference "t" (fun _ _ => Ok 7%nat); MkReference "u" (fun _ _ => Ok 8%nat); MkReference "t" (fun _ _ => Ok 9%nat)]
    3%nat _ eq_refl).
Defined.

(** Permission checks are not repeated and none is skipped: the tables left to
    check are exactly those asked for that no check admitted, in their order, and
    none of them is left once they are admitted. *)
Theorem unchecked_exact tables identifiers :
  unchecked tables identifiers = filter (fun i => i ∉ tables) identifiers
  /\ unchecked (admit_tables tables (unchecked tables identifiers)) identifiers = []
  /\ forall i, is_admitted (admit_tables tables (unchecked tables identifiers)) i
       = is_admitted tables i || bool_decide (i ∈ identifiers).
Proof.
  assert (Hu : forall t i, is_admitted t i = false <-> i ∉ t).
  { intros t i. unfold is_admitted. by rewrite bool_decide_eq_false. }
  split; [|split].
  - unfold unchecked. apply list_filter_iff. intros i. apply Hu.
  - unfold unchecked at 1. apply elem_of_nil_inv. intros i [Hi%Hu Hin]%list_elem_of_filter. apply Hi.
    unfold admit_tables. destruct (decide (i ∈ tables)); [set_solver|]. apply elem_of_union_r, elem_of_list_to_set.
    unfold unchecked. apply list_elem_of_filter. by rewrite Hu.
  - intros i. unfold is_admitted, admit_tables. apply eq_bool_prop_intro. rewrite orb_True, !bool_decide_spec.
    rewrite elem_of_union, elem_of_list_to_set. unfold unchecked. rewrite list_elem_of_filter, Hu.
    destruct (decide (i ∈ tables)); tauto.
Qed.
