(* ===== verification/Redaction.v ===== *)
(** crates/lakehouse-catalog/src/redaction.rs: the removal of credentials from error
    text. Every error of the engine passes through [redact_error_text]. *)

From stdpp Require Import base list strings numbers.
From Stdlib Require Import Ascii String Lia.
From S2P Require Import Prelude.

Local Open Scope string_scope.

Definition REDACTED : string := "[REDACTED]".

(** ** Text search *)

(** [str::contains]. *)
Fixpoint contains (pat s : string) : bool :=
  String.prefix pat s || match s with EmptyString => false | String _ s' => contains pat s' end.

(** [str::replace] of a non-empty pattern: matches are taken from the left and do not
    overlap; [skip] counts the characters of a match still to drop. *)
Fixpoint replace_from (pat by_ : string) (skip : nat) (s : string) : string :=
  match s with
  | EmptyString => EmptyString
  | String c s' =>
      match skip with
      | S k => replace_from pat by_ k s'
      | O =>
          if String.prefix pat s then by_ ++ replace_from pat by_ (String.length pat - 1) s'
          else String c (replace_from pat by_ 0 s')
      end
  end.

Definition redact_secret (result secret : string) : string :=
  if negb (String.eqb secret "") && contains secret result then replace_from secret REDACTED 0 result else result.

Definition redact_secret_values (s : string) (secrets : list string) : string :=
  fold_left redact_secret secrets s.

(** ** The label pass *)

Definition CREDENTIAL_PATTERNS : list string := [
  "access_key"; "secret_key"; "session_token"; "oauth_token"; "client_secret";
  "s3.access-key-id"; "s3.secret-access-key"; "s3.session-token";
  "Authorization"; "Bearer "; "X-Amz-Security-Token"; "X-Amz-Credential";
  "AWS_ACCESS_KEY_ID"; "AWS_SECRET_ACCESS_KEY"; "AWS_SESSION_TOKEN";
  "account_key"; "sas_token"; "adls.account-key"; "adls.sas-token";
  "azure_storage_access_key"; "azure_storage_sas_key"; "sig=";
  dq ++ "sas" ++ dq ++ ":" ++ dq].

(** The characters that end a credential value. *)
Definition is_delimiter (c : ascii) : bool :=
  Ascii.eqb c dq_char || Ascii.eqb c sq_char || Ascii.eqb c " " || Ascii.eqb c "010" || Ascii.eqb c ","
  || Ascii.eqb c "&" || Ascii.eqb c "013".

(** Does [pat] match, ignoring ASCII case, at the start of [s]? *)
Fixpoint prefix_ci (pat s : string) : bool :=
  match pat, s with
  | EmptyString, _ => true
  | String p pat', String c s' => Ascii.eqb (ascii_lower p) (ascii_lower c) && prefix_ci pat' s'
  | _, _ => false
  end.

(** What the loop does with the next character: look for the label, drop the rest of
    a matched label, or drop its value up to a delimiter. *)
Inductive scan_mode := Search | Label (left_ : nat) | Value.

(** One pattern over the text, [result] from [from] on. A match re-emits the label
    as it is spelled in the list, then the marker. *)
Fixpoint redact_label (pat : string) (mode : scan_mode) (s : string) : string :=
  match s with
  | EmptyString => match mode with Search => EmptyString | Label _ | Value => pat ++ REDACTED end
  | String c s' =>
      match mode with
      | Search =>
          if prefix_ci pat s then redact_label pat (match (String.length pat - 1)%nat with O => Value | k => Label k end) s'
          else String c (redact_label pat Search s')
      | Label (S (S k)) => redact_label pat (Label (S k)) s'
      | Label _ => redact_label pat Value s'
      | Value =>
          if is_delimiter c then
            pat ++ REDACTED ++
              (if prefix_ci pat s then redact_label pat (match (String.length pat - 1)%nat with O => Value | k => Label k end) s'
               else String c (redact_label pat Search s'))
          else redact_label pat Value s'
      end
  end.

Definition redact_credentials (s : string) : string :=
  fold_left (fun result pat => redact_label pat Search result) CREDENTIAL_PATTERNS s.

Definition redact_error_text (msg : string) (secrets : list string) : string :=
  redact_credentials (redact_secret_values msg secrets).

Example redact_pairs :
  redact_credentials "GET ?ACCESS_KEY=abc&x=1 Authorization: Bearer tok, sig=zz"
    = "GET ?access_key[REDACTED]&x=1 Authorization[REDACTED] Bearer [REDACTED], sig=[REDACTED]".
Proof. vm_compute. reflexivity. Qed.

(** ** Secret values *)

(** Secrets the value pass is complete for: no bracket in them (so none overlaps the
    marker) and not a piece of the marker's word. *)
Definition plain_secret (secret : string) : bool :=
  negb (String.eqb secret "")
  && string_forallb (fun c => negb (Ascii.eqb c "[") && negb (Ascii.eqb c "]")) secret
  && negb (contains secret "REDACTED").

Notation no_bracket := (string_forallb (fun c => negb (Ascii.eqb c "[") && negb (Ascii.eqb c "]"))).

Lemma prefix_cons p c pat s : String.prefix (String p pat) (String c s) = Ascii.eqb p c && String.prefix pat s.
Proof. cbn. destruct (ascii_dec p c) as [->|Hne]; [by rewrite Ascii.eqb_refl|]. by apply Ascii.eqb_neq in Hne as ->. Qed.

Lemma contains_cons pat c s : contains pat (String c s) = String.prefix pat (String c s) || contains pat s.
Proof. done. Qed.

(** A bracket-free match at the front of the output was one of the input. *)
Lemma prefix_replace pat q s :
  no_bracket q = true -> String.prefix q (replace_from pat REDACTED 0 s) = true -> String.prefix q s = true.
Proof.
  revert q. induction s as [|c s IH]; intros q Hq; [done|]. cbn [replace_from].
  destruct (String.prefix pat (String c s)).
  - destruct q as [|x q]; [done|]. unfold REDACTED. rewrite string_app_cons, prefix_cons.
    intros [->%Ascii.eqb_eq _]%andb_prop. cbn in Hq. discriminate.
  - destruct q as [|x q]; [done|]. rewrite !prefix_cons. intros [-> H]%andb_prop. cbn in Hq.
    apply andb_prop in Hq as [_ Hq]. by rewrite IH.
Qed.

(** A bracket ends a match of a bracket-free text. *)
Lemma prefix_word q w c rest :
  no_bracket q = true -> negb (Ascii.eqb c "[") && negb (Ascii.eqb c "]") = false ->
  String.prefix q (w ++ String c rest) = true -> String.prefix q w = true.
Proof.
  intros Hq Hc. revert q Hq. induction w as [|x w IH]; intros [|y q] Hq; try done.
  - rewrite string_app_nil_l, prefix_cons. intros [->%Ascii.eqb_eq _]%andb_prop. cbn in Hq.
    by rewrite Hc in Hq.
  - rewrite string_app_cons, !prefix_cons. intros [-> H]%andb_prop. cbn in Hq.
    apply andb_prop in Hq as [_ Hq]. by rewrite IH.
Qed.

(** A match of a bracket-free text in a bracket-free word followed by a bracket lies
    in the word. *)
Lemma contains_word q w c rest :
  q <> "" -> no_bracket q = true -> negb (Ascii.eqb c "[") && negb (Ascii.eqb c "]") = false ->
  contains q (w ++ String c rest) = true -> contains q w = true \/ contains q rest = true.
Proof.
  intros Hq Hb Hc. induction w as [|x w IH].
  - rewrite string_app_nil_l, contains_cons. intros [H|H]%orb_prop; [|by right].
    destruct q as [|y q]; [done|]. rewrite prefix_cons in H. apply andb_prop in H as [->%Ascii.eqb_eq _].
    cbn in Hb. rewrite Hc in Hb. discriminate.
  - rewrite string_app_cons, !contains_cons. intros [H|H]%orb_prop.
    + left. change (String x (w ++ String c rest)) with (String x w ++ String c rest) in H.
      apply prefix_word in H; [|done..]. by rewrite H.
    + apply IH in H as [-> |H]; [left; by rewrite orb_true_r|by right].
Qed.

Lemma contains_marker q rest :
  plain_secret q = true -> contains q (REDACTED ++ rest) = true -> contains q rest = true.
Proof.
  intros [[Hne Hb]%andb_prop Hword]%andb_prop. apply negb_true_iff in Hword, Hne. apply String.eqb_neq in Hne.
  change (REDACTED ++ rest) with ("" ++ String "[" ("REDACTED" ++ String "]" rest)).
  intros [H|H]%contains_word; try done; [by destruct q|].
  apply contains_word in H as [H|H]; try done. congruence.
Qed.

(** Replacing one text never creates an occurrence of a plain secret. *)
Lemma replace_creates_nothing pat q skip s :
  plain_secret q = true -> contains q (replace_from pat REDACTED skip s) = true -> contains q s = true.
Proof.
  intros Hq. revert skip. induction s as [|c s IH]; intros skip; [done|]. rewrite contains_cons.
  cbn [replace_from]. destruct skip as [|k]; [|intros ->%IH; by rewrite orb_true_r].
  destruct (String.prefix pat (String c s)) eqn:Ep.
  - intros ->%contains_marker%IH; [by rewrite orb_true_r|done].
  - rewrite contains_cons. intros [H| ->%IH]%orb_prop; [|by rewrite orb_true_r].
    pose proof (prefix_replace pat q (String c s)) as Hp. cbn [replace_from] in Hp. rewrite Ep in Hp.
    apply andb_prop in Hq as [[_ Hb]%andb_prop _]. by rewrite Hp.
Qed.

(** ... and removes every occurrence of its own. *)
Lemma replace_removes q skip s :
  plain_secret q = true -> contains q (replace_from q REDACTED skip s) = false.
Proof.
  intros Hq. revert skip. induction s as [|c s IH]; intros skip.
  - apply not_true_is_false. cbn. rewrite orb_false_r. intros Hp. destruct q; [|done].
    by apply andb_prop in Hq as [[]%andb_prop _].
  - cbn [replace_from]. destruct skip as [|k]; [|apply IH]. destruct (String.prefix q (String c s)) eqn:Ep.
    + apply not_true_is_false. intros H%contains_marker; [|done]. by rewrite IH in H.
    + rewrite contains_cons, IH, orb_false_r. apply not_true_is_false. intros H.
      pose proof (prefix_replace q q (String c s)) as Hp. cbn [replace_from] in Hp. rewrite Ep in Hp.
      apply andb_prop in Hq as [[_ Hb]%andb_prop _]. discriminate (Hp Hb H).
Qed.

Lemma redact_secret_keeps q s secret :
  plain_secret q = true -> contains q s = false -> contains q (redact_secret s secret) = false.
Proof.
  intros Hq Hs. unfold redact_secret. destruct (_ && _); [|done]. apply not_true_is_false.
  intros H%replace_creates_nothing; congruence.
Qed.

Lemma redact_secret_removes q s : plain_secret q = true -> contains q (redact_secret s q) = false.
Proof.
  intros Hq. unfold redact_secret. destruct (String.eqb q "") eqn:E.
  - unfold plain_secret in Hq. by rewrite E in Hq.
  - cbn. destruct (contains q s) eqn:Es; [|done]. by apply replace_removes.
Qed.

Lemma redact_secrets_keep q secrets s :
  plain_secret q = true -> contains q s = false -> contains q (redact_secret_values s secrets) = false.
Proof.
  intros Hq. unfold redact_secret_values. revert s. induction secrets as [|x secrets IH]; intros s Hs; [done|].
  cbn. apply IH. by apply redact_secret_keeps.
Qed.

(** C34. No secret survives the value pass: whatever the message and the order of the
    secrets, the result contains none of them, for secrets without brackets that are
    not a piece of the marker's own word. *)
Theorem no_secret_survives msg secrets q :
  q ∈ secrets -> plain_secret q = true -> contains q (redact_secret_values msg secrets) = false.
Proof.
  intros Hin Hq. revert msg. induction secrets as [|x secrets IH]; intros msg; [by apply elem_of_nil in Hin|].
  change (redact_secret_values msg (x :: secrets)) with (redact_secret_values (redact_secret msg x) secrets).
  apply elem_of_cons in Hin as [<-|Hin].
  - apply redact_secrets_keep; [done|]. by apply redact_secret_removes.
  - by apply IH.
Qed.

Lemma no_secret_survives_witness :
  contains "hunter2" (redact_secret_values "403 key AKIA1 pw hunter2hunter2" ["AKIA1"; "hunter2"]) = false.
Proof.
  apply (no_secret_survives "403 key AKIA1 pw hunter2hunter2" ["AKIA1"; "hunter2"] "hunter2");
    [right; left|reflexivity].
Defined.

(** ** Labelled values *)

(** No match of [pat] starts inside [pre]. *)
Fixpoint unlabelled (pat pre rest : string) : bool :=
  match pre with
  | EmptyString => true
  | String _ pre' => negb (prefix_ci pat (pre ++ rest)) && unlabelled pat pre' rest
  end.

Definition closes (post : string) : bool :=
  match post with EmptyString => true | String c _ => is_delimiter c end.

Lemma redact_label_search pat pre rest :
  unlabelled pat pre rest = true ->
  redact_label pat Search (pre ++ rest) = pre ++ redact_label pat Search rest.
Proof.
  induction pre as [|c pre IH]; intros H; [done|]. cbn [unlabelled] in H.
  apply andb_prop in H as [Hno%negb_true_iff H]. rewrite string_app_cons in *. cbn [redact_label].
  by rewrite Hno, IH.
Qed.

Lemma redact_label_value pat v post :
  string_forallb (fun c => negb (is_delimiter c)) v = true -> closes post = true ->
  redact_label pat Value (v ++ post) = pat ++ REDACTED ++ redact_label pat Search post.
Proof.
  intros Hv Hp. induction v as [|c v IH]; cbn in Hv.
  - rewrite string_app_nil_l. destruct post as [|c post]; cbn [redact_label]; [by rewrite string_app_nil_r|].
    cbn in Hp. by rewrite Hp.
  - apply andb_prop in Hv as [Hc%negb_true_iff Hv]. rewrite string_app_cons. cbn [redact_label].
    rewrite Hc. auto.
Qed.

Lemma redact_label_rest pat k label rest :
  String.length label = S k -> redact_label pat (Label (S k)) (label ++ rest) = redact_label pat Value rest.
Proof.
  revert k. induction label as [|c label IH]; intros k Hl; cbn in Hl; [done|]. injection Hl as Hl.
  rewrite string_app_cons. destruct k as [|k]; cbn [redact_label].
  - by destruct label.
  - by apply IH.
Qed.

Lemma prefix_ci_app pat label rest :
  prefix_ci pat label = true -> prefix_ci pat (label ++ rest) = true.
Proof.
  revert label. induction pat as [|p pat IH]; intros [|c label] H; try done.
  rewrite string_app_cons. cbn in H |- *. apply andb_prop in H as [-> H]. by apply IH.
Qed.

(** A labelled value never reaches the output: up to the next delimiter, the
    text after a credential label in any letter case is replaced by the marker, so
    the result of the pass is a function of everything but that value. *)
Theorem label_value_hidden pat pre label v post :
  pat <> "" -> prefix_ci pat label = true -> String.length label = String.length pat ->
  unlabelled pat pre (label ++ v ++ post) = true ->
  string_forallb (fun c => negb (is_delimiter c)) v = true -> closes post = true ->
  redact_label pat Search (pre ++ label ++ v ++ post)
    = pre ++ pat ++ REDACTED ++ redact_label pat Search post.
Proof.
  intros Hne Hl Hlen Hpre Hv Hp. rewrite redact_label_search by done. f_equal.
  rewrite <- redact_label_value with (v := v) by done.
  destruct label as [|c label]; [by destruct pat|]. rewrite string_app_cons. cbn [redact_label].
  pose proof (prefix_ci_app _ _ (v ++ post) Hl) as Hm. rewrite string_app_cons in Hm. rewrite Hm.
  rewrite <- Hlen. cbn [String.length]. rewrite Nat.sub_succ, Nat.sub_0_r.
  destruct (String.length label) as [|k] eqn:Ek; [by destruct label|]. by apply redact_label_rest.
Qed.

Lemma label_value_hidden_witness :
  redact_label "secret_key" Search "http 403 SECRET_KEY=abc/def&region=eu"
    = "http 403 secret_key[REDACTED]&region=eu".
Proof.
  exact (label_value_hidden "secret_key" "http 403 " "SECRET_KEY" "=abc/def" "&region=eu"
    ltac:(discriminate) eq_refl eq_refl eq_refl eq_refl eq_refl).
Defined.
