(* ===== verification/AccessPlan.v ===== *)
(** crates/lakehouse-engine/src/scan/row_deletes.rs, [build_access_plan] and
    [access_plan_bytes]: the rows of a Parquet file that are read, given the positions
    its deletes name. A position is a [u64] as a [Z]; no sum below exceeds the file's
    row count plus one. *)

From stdpp Require Import base list numbers sorting.
From Stdlib Require Import ZArith Lia Sorted.
From S2P Require Import Prelude.

Local Open Scope Z_scope.

Inductive RowSelector := select (row_count : Z) | skip (row_count : Z).

(** [ParquetAccessPlan]: one access per row group. *)
Inductive RowGroupAccess := AScan | ASkip | ASelection (selectors : list RowSelector).

(** [while run_end < end && deleted.next_if_eq(&run_end).is_some()]. *)
Fixpoint take_run (end_ run_end : Z) (deleted : list Z) : Z * list Z :=
  match deleted with
  | d :: rest =>
      if (run_end <? end_) && (d =? run_end) then take_run end_ (run_end + 1) rest else (run_end, deleted)
  | [] => (run_end, [])
  end.

(** The [while let] of one row group: the selectors, the cursor and the deletes left.
    Every round consumes a delete, so their number is fuel enough. *)
Fixpoint group_loop (fuel : nat) (end_ cursor : Z) (selectors : list RowSelector) (deleted : list Z) :
    option (list RowSelector * Z * list Z) :=
  match deleted with
  | first :: rest =>
      if first <? end_ then
        match fuel with
        | O => None
        | S fuel =>
            let '(run_end, rest) := take_run end_ (first + 1) rest in
            let selectors := if cursor <? first then (selectors ++ [select (first - cursor)])%list else selectors in
            group_loop fuel end_ run_end (selectors ++ [skip (run_end - first)])%list rest
        end
      else Some (selectors, cursor, deleted)
  | [] => Some (selectors, cursor, [])
  end.

Definition group_access (selectors : list RowSelector) (cursor end_ : Z) : RowGroupAccess :=
  if (cursor =? end_) && (List.length selectors =? 1)%nat then ASkip
  else match selectors with
       | [] => AScan
       | _ => ASelection (if cursor <? end_ then (selectors ++ [select (end_ - cursor)])%list else selectors)
       end.

(** The loop over the row groups, by their row counts. *)
Fixpoint plan_groups (start : Z) (num_rows : list Z) (deleted : list Z) : option (list RowGroupAccess) :=
  match num_rows with
  | [] => Some []
  | rows :: groups =>
      let end_ := start + rows in
      '(selectors, cursor, deleted') ← group_loop (List.length deleted) end_ start [] deleted;
      rest ← plan_groups end_ groups deleted';
      Some (group_access selectors cursor end_ :: rest)
  end.

Definition build_access_plan (num_rows : list Z) (deletes : list Z) : option (list RowGroupAccess) :=
  plan_groups 0 num_rows deletes.

(** [size_of::<RowSelector>()]: a [usize] and a [bool]. *)
Definition ROW_SELECTOR_BYTES : nat := 16.

Definition access_plan_bytes (plan : list RowGroupAccess) : nat :=
  list_sum (map (fun a => match a with ASelection sel => List.length sel * ROW_SELECTOR_BYTES | _ => 0 end)%nat plan).

(** ** Specification: which rows are read *)

Fixpoint expand (selectors : list RowSelector) : list bool :=
  match selectors with
  | [] => []
  | select n :: rest => (replicate (Z.to_nat n) true ++ expand rest)%list
  | skip n :: rest => (replicate (Z.to_nat n) false ++ expand rest)%list
  end.

Definition reads (rows : Z) (access : RowGroupAccess) : list bool :=
  match access with
  | AScan => replicate (Z.to_nat rows) true
  | ASkip => replicate (Z.to_nat rows) false
  | ASelection selectors => expand selectors
  end.

Lemma expand_app a b : expand (a ++ b)%list = (expand a ++ expand b)%list.
Proof. induction a as [|[n|n] a IH]; cbn; [done|by rewrite IH, app_assoc..]. Qed.

Section Deletes.
Context (del : Z -> bool).

(** One flag per position of [a, b): [true] when the row is kept. *)
Definition kept (a b : Z) : list bool := map (fun i => negb (del i)) (seqZ a (b - a)).

Lemma kept_app a b c : a <= b -> b <= c -> kept a c = (kept a b ++ kept b c)%list.
Proof.
  intros Hab Hbc. unfold kept. rewrite <- map_app. f_equal.
  replace (c - a) with ((b - a) + (c - b)) by lia. rewrite seqZ_app by lia. by replace (a + (b - a)) with b by lia.
Qed.

Lemma kept_const a b v :
  (forall i, a <= i < b -> negb (del i) = v) -> kept a b = replicate (Z.to_nat (b - a)) v.
Proof.
  intros H. unfold kept. apply list_eq. intros i. rewrite list_lookup_fmap.
  destruct (decide (i < Z.to_nat (b - a))%nat) as [Hi|Hi].
  - rewrite lookup_seqZ_lt by lia. rewrite lookup_replicate_2 by lia. cbn. f_equal. apply H. lia.
  - rewrite lookup_seqZ_ge by lia. symmetry. apply lookup_replicate_None. lia.
Qed.

Lemma kept_nil a : kept a a = [].
Proof. unfold kept. by rewrite Z.sub_diag. Qed.

(** The deletes not consumed yet are those from [cursor] on. *)
Record pending (cursor : Z) (deleted : list Z) : Prop := {
  pend_sorted : StronglySorted Z.lt deleted;
  pend_from : forall x, x ∈ deleted -> cursor <= x;
  pend_all : forall x, cursor <= x -> del x = true <-> x ∈ deleted;
}.

Lemma pending_next cursor d rest :
  pending cursor (d :: rest) ->
  pending (d + 1) rest /\ cursor <= d /\ del d = true /\ forall i, cursor <= i < d -> del i = false.
Proof.
  intros [Hs Hf Ha]. apply StronglySorted_inv in Hs as [Hs Hlt]. rewrite Forall_forall in Hlt.
  assert (Hd : cursor <= d) by (apply Hf; left). split; [split|split; [done|split]].
  - done.
  - intros x Hx. apply Hlt in Hx. lia.
  - intros x Hx. rewrite Ha by lia. rewrite elem_of_cons. split; [|tauto]. intros [->|?]; [lia|done].
  - apply Ha; [done|left].
  - intros i Hi. apply not_true_is_false. rewrite Ha by lia. rewrite elem_of_cons.
    intros [->|Hin]; [lia|]. apply Hlt in Hin. lia.
Qed.

Lemma pending_later cursor cursor' deleted :
  pending cursor deleted -> cursor <= cursor' -> (forall x, x ∈ deleted -> cursor' <= x) -> pending cursor' deleted.
Proof. intros [Hs Hf Ha] Hle Hx. split; [done|done|]. intros x Hc. apply Ha. lia. Qed.

Lemma take_run_spec end_ run_end deleted :
  pending run_end deleted -> run_end <= end_ ->
  let '(run_end', rest) := take_run end_ run_end deleted in
  pending run_end' rest /\ run_end <= run_end' <= end_ /\ (List.length rest <= List.length deleted)%nat
  /\ forall i, run_end <= i < run_end' -> del i = true.
Proof.
  revert run_end. induction deleted as [|d rest IH]; intros run_end Hp Hle; cbn.
  - split; [done|]. split; [lia|]. split; [done|lia].
  - destruct (Z.ltb_spec run_end end_), (Z.eqb_spec d run_end) as [->|]; cbn;
      try (split; [done|]; split; [lia|]; split; [done|lia]).
    destruct (pending_next _ _ _ Hp) as (Hp' & _ & Hd & _). specialize (IH (run_end + 1) Hp' ltac:(lia)).
    destruct (take_run _ _ _) as [run_end' rest']. destruct IH as (H1 & H2 & H3 & H4).
    split; [done|]. split; [lia|]. split; [lia|]. intros i Hi.
    destruct (decide (i = run_end)) as [->|]; [done|]. apply H4. lia.
Qed.

(** With no delete left, every row from [cursor] on is kept. *)
Lemma pending_nil cursor end_ :
  pending cursor [] -> cursor <= end_ -> pending end_ [] /\ forall i, cursor <= i < end_ -> del i = false.
Proof.
  intros Hp Hle. split.
  - apply (pending_later cursor); [done|done|]. intros x Hx. by apply elem_of_nil in Hx.
  - intros i Hi. apply not_true_is_false. rewrite (pend_all _ _ Hp) by lia. apply not_elem_of_nil.
Qed.

(** The selectors so far end in a skip, if there are any. *)
Definition ends_in_skip (selectors : list RowSelector) : Prop :=
  selectors = [] \/ exists s n, selectors = (s ++ [skip n])%list.

Lemma group_loop_spec fuel start end_ cursor selectors deleted :
  pending cursor deleted -> start <= cursor <= end_ -> (List.length deleted <= fuel)%nat ->
  expand selectors = kept start cursor -> ends_in_skip selectors -> (selectors = [] -> cursor = start) ->
  exists selectors' cursor' deleted',
    group_loop fuel end_ cursor selectors deleted = Some (selectors', cursor', deleted')
    /\ pending end_ deleted' /\ start <= cursor' <= end_
    /\ expand selectors' = kept start cursor' /\ ends_in_skip selectors' /\ (selectors' = [] -> cursor' = start)
    /\ (forall i, cursor' <= i < end_ -> del i = false).
Proof.
  revert cursor selectors deleted.
  induction fuel as [|fuel IH]; intros cursor selectors deleted Hp Hc Hf He Hskip Hempty.
  { destruct deleted; [|cbn in Hf; lia]. cbn. eexists _, _, _. split; [done|].
    destruct (pending_nil cursor end_ Hp ltac:(lia)) as [Hend Hrest]. repeat (split; [done||lia|]). done. }
  destruct deleted as [|first rest]; cbn [group_loop].
  { eexists _, _, _. split; [done|].
    destruct (pending_nil cursor end_ Hp ltac:(lia)) as [Hend Hrest]. repeat (split; [done||lia|]). done. }
  destruct (pending_next _ _ _ Hp) as (Hp' & Hcf & Hdel & Hgap).
  destruct (Z.ltb_spec first end_) as [Hlt|Hge].
  - pose proof (take_run_spec end_ (first + 1) rest Hp' ltac:(lia)) as Hrun.
    destruct (take_run end_ (first + 1) rest) as [run_end rest']. destruct Hrun as (Hr1 & Hr2 & Hr3 & Hr4).
    apply IH; try done.
    + lia.
    + cbn in Hf. lia.
    + rewrite expand_app. cbn. rewrite app_nil_r.
      rewrite (kept_app start first run_end), (kept_app start cursor first) by lia. f_equal.
      * rewrite (kept_const cursor first true) by (intros i Hi; by rewrite Hgap).
        destruct (Z.ltb_spec cursor first).
        -- rewrite expand_app, He. cbn. by rewrite app_nil_r.
        -- replace first with cursor by lia. by rewrite Z.sub_diag, app_nil_r, He.
      * rewrite (kept_const first run_end false); [done|]. intros i Hi.
        destruct (decide (i = first)) as [->|]; [by rewrite Hdel|]. rewrite Hr4; [done|lia].
    + right. eauto.
    + intros [_ [=]]%app_nil.
  - eexists _, _, _. split; [done|]. split; [|repeat (split; [done||lia|])].
    + apply (pending_later cursor); [done|lia|]. intros x [->|Hx]%elem_of_cons; [done|].
      apply (pend_from _ _ Hp') in Hx. lia.
    + intros i Hi. apply Hgap. lia.
Qed.

Lemma ends_in_skip_single s n rows :
  ends_in_skip s -> List.length s = 1%nat -> expand s = n -> List.length n = rows -> n = replicate rows false.
Proof.
  intros [->|(s' & k & ->)] Hlen <- <-; [done|]. rewrite length_app in Hlen. cbn in Hlen.
  destruct s'; [|cbn in Hlen; lia]. cbn. rewrite app_nil_r. by rewrite length_replicate.
Qed.

(** One row group: exactly the rows not deleted are read. *)
Lemma group_access_reads start end_ selectors cursor :
  start <= cursor <= end_ -> expand selectors = kept start cursor -> ends_in_skip selectors ->
  (selectors = [] -> cursor = start) -> (forall i, cursor <= i < end_ -> del i = false) ->
  reads (end_ - start) (group_access selectors cursor end_) = kept start end_.
Proof.
  intros Hc He Hskip Hempty Hrest.
  assert (Htail : kept start end_ = (kept start cursor ++ replicate (Z.to_nat (end_ - cursor)) true)%list).
  { rewrite (kept_app start cursor end_) by lia. f_equal. apply kept_const. intros i Hi. by rewrite Hrest. }
  unfold group_access. destruct (Z.eqb_spec cursor end_) as [->|Hne];
    [destruct (Nat.eqb_spec (List.length selectors) 1) as [H1|H1]|]; cbn [andb].
  - cbn. symmetry. eapply ends_in_skip_single; [done|done|done|].
    unfold kept. by rewrite length_map, length_seqZ.
  - destruct selectors as [|s0 rest] eqn:Es; rewrite <- Es in *.
    + rewrite Hempty by done. cbn. by rewrite Z.sub_diag, kept_nil.
    + rewrite Z.ltb_irrefl. by rewrite Htail, Z.sub_diag, app_nil_r.
  - destruct selectors as [|s0 rest] eqn:Es; rewrite <- Es in *.
    + rewrite Htail, (Hempty eq_refl). by rewrite kept_nil.
    + destruct (Z.ltb_spec cursor end_); [|lia]. cbn. rewrite expand_app, He, Htail. cbn. by rewrite app_nil_r.
Qed.

Definition total (num_rows : list Z) : Z := fold_right Z.add 0 num_rows.

Lemma total_nonneg num_rows : Forall (fun r => 0 <= r) num_rows -> 0 <= total num_rows.
Proof. induction 1; cbn; [done|]. fold (total l). lia. Qed.

Lemma plan_groups_spec start num_rows deleted :
  pending start deleted -> Forall (fun r => 0 <= r) num_rows ->
  exists plan, plan_groups start num_rows deleted = Some plan
    /\ List.length plan = List.length num_rows
    /\ concat (zip_with reads num_rows plan) = kept start (start + total num_rows).
Proof.
  intros Hp Hrows. revert start deleted Hp. induction Hrows as [|rows groups Hr Hgs IH]; intros start deleted Hp.
  - exists []. cbn. rewrite Z.add_0_r, kept_nil. done.
  - cbn [plan_groups]. destruct (group_loop_spec (List.length deleted) start (start + rows) start [] deleted)
      as (sel & cur & deleted' & -> & Hp' & Hc & He & Hskip & Hempty & Hrest); try done; [lia|by rewrite kept_nil|by left|].
    cbn [mbind option_bind]. destruct (IH _ _ Hp') as (plan & -> & Hlen & Hplan). eexists. split; [done|].
    split; [cbn; lia|]. cbn [zip_with concat]. rewrite Hplan.
    replace rows with (start + rows - start) at 1 by lia. rewrite group_access_reads by done.
    change (total (rows :: groups)) with (rows + total groups). rewrite Z.add_assoc. symmetry.
    pose proof (total_nonneg groups Hgs). apply kept_app; lia.
Qed.
End Deletes.

Lemma access_plan_spec num_rows deletes :
  StronglySorted Z.lt deletes -> Forall (fun d => 0 <= d) deletes -> Forall (fun r => 0 <= r) num_rows ->
  exists plan, build_access_plan num_rows deletes = Some plan
    /\ List.length plan = List.length num_rows
    /\ concat (zip_with reads num_rows plan)
       = map (fun i => negb (bool_decide (i ∈ deletes))) (seqZ 0 (total num_rows)).
Proof.
  intros Hs Hd Hr. unfold build_access_plan.
  destruct (plan_groups_spec (fun i => bool_decide (i ∈ deletes)) 0 num_rows deletes) as (plan & -> & Hl & Hp); [|done|].
  - split; [done| |].
    + intros x Hx. rewrite Forall_forall in Hd. by apply Hd.
    + intros x _. apply bool_decide_eq_true.
  - exists plan. split; [done|]. split; [done|]. rewrite Hp. unfold kept. by rewrite Z.sub_0_r, Z.add_0_l.
Qed.

(** C35. The access plan reads exactly the rows that are not deleted: over all row
    groups in order, row [i] of the file is read if and only if no delete names
    position [i], whether its group is scanned whole, skipped or read by selectors;
    deletes past the end of the file have no effect. The plan always exists and has
    one access per row group. *)
Theorem access_plan_reads_kept_rows num_rows deletes :
  StronglySorted Z.lt deletes -> Forall (fun d => 0 <= d) deletes -> Forall (fun r => 0 <= r) num_rows ->
  exists plan, build_access_plan num_rows deletes = Some plan
    /\ List.length plan = List.length num_rows
    /\ concat (zip_with reads num_rows plan)
       = map (fun i => negb (bool_decide (i ∈ deletes))) (seqZ 0 (total num_rows)).
Proof. apply access_plan_spec. Qed.

(** Four row groups: untouched, fully deleted, partly deleted, and one whose last
    rows are deleted. *)
Lemma access_plan_reads_kept_rows_witness :
  build_access_plan [2; 2; 4; 3] [2; 3; 5; 6; 9; 10; 99]
    = Some [AScan; ASkip; ASelection [select 1; skip 2; select 1]; ASelection [select 1; skip 2]]
  /\ exists plan, build_access_plan [2; 2; 4; 3] [2; 3; 5; 6; 9; 10; 99] = Some plan
    /\ List.length plan = 4%nat
    /\ concat (zip_with reads [2; 2; 4; 3] plan)
       = map (fun i => negb (bool_decide (i ∈ [2; 3; 5; 6; 9; 10; 99]))) (seqZ 0 11).
Proof.
  split; [reflexivity|].
  apply (access_plan_reads_kept_rows [2; 2; 4; 3] [2; 3; 5; 6; 9; 10; 99]); repeat constructor; lia.
Defined.

(** ** The plan's memory *)

Lemma take_run_length end_ run_end deleted :
  (List.length (take_run end_ run_end deleted).2 <= List.length deleted)%nat.
Proof.
  revert run_end. induction deleted as [|d rest IH]; intros run_end; cbn; [done|].
  destruct (_ && _); [|done]. specialize (IH (run_end + 1)). lia.
Qed.

Lemma group_loop_size fuel end_ cursor selectors deleted selectors' cursor' deleted' :
  group_loop fuel end_ cursor selectors deleted = Some (selectors', cursor', deleted') ->
  (List.length selectors' + 2 * List.length deleted' <= List.length selectors + 2 * List.length deleted)%nat.
Proof.
  revert cursor selectors deleted. induction fuel as [|fuel IH]; intros cursor selectors [|first rest]; cbn [group_loop].
  1, 3: by intros [= <- <- <-].
  - destruct (first <? end_); [done|]. by intros [= <- <- <-].
  - destruct (first <? end_); [|by intros [= <- <- <-]].
    pose proof (take_run_length end_ (first + 1) rest) as Hl. destruct (take_run _ _ rest) as [run_end rest'].
    intros H%IH. cbn in Hl |- *. rewrite length_app in H.
    destruct (cursor <? first); rewrite ?length_app in H; cbn in H; lia.
Qed.

(** The memory accounted for a plan is linear in the deletes and the row
    groups, however the deletes are spread: at most two selectors per delete and one
    per group. *)
Theorem access_plan_bytes_linear num_rows deletes plan :
  build_access_plan num_rows deletes = Some plan ->
  (access_plan_bytes plan <= (2 * List.length deletes + List.length num_rows) * ROW_SELECTOR_BYTES)%nat.
Proof.
  unfold build_access_plan. generalize 0 as start. revert deletes plan.
  induction num_rows as [|rows groups IH]; intros deletes plan start; cbn [plan_groups].
  - intros [= <-]. cbn. lia.
  - destruct (group_loop _ _ _ _ _) as [[[sel cur] deleted']|] eqn:Eg; cbn [mbind option_bind]; [|done].
    destruct (plan_groups _ groups deleted') as [rest|] eqn:Er; cbn [mbind option_bind]; [|done].
    intros [= <-]. apply group_loop_size in Eg. apply IH in Er. unfold access_plan_bytes in *. cbn [map list_sum].
    assert (Ha : (match group_access sel cur (start + rows) with
      | ASelection s => List.length s * ROW_SELECTOR_BYTES | _ => 0 end
      <= (List.length sel + 1) * ROW_SELECTOR_BYTES)%nat).
    { unfold group_access. destruct (_ && _); [lia|]. destruct sel as [|s0 sel]; [lia|].
      destruct (cur <? _); rewrite ?length_app; cbn; lia. }
    cbn [List.length] in *. unfold ROW_SELECTOR_BYTES in *.
    match goal with |- (list_sum (?x :: ?l) <= _)%nat => change (list_sum (x :: l)) with (x + list_sum l)%nat end. lia.
Qed.

Lemma access_plan_bytes_linear_witness :
  (access_plan_bytes [ASelection [select 1; skip 1; select 2]] <= (2 * 1 + 1) * ROW_SELECTOR_BYTES)%nat.
Proof. apply (access_plan_bytes_linear [4] [1]). reflexivity. Defined.
