(* ===== verification/RoaringSets.v ===== *)
(** The two third-party interfaces the row-delete pipeline is written against: the
    position set ([roaring::RoaringTreemap]) and the memory pool's reservation
    ([datafusion::MemoryReservation]). Each is a class of operations with the laws
    its documentation gives, and an instance that satisfies them. *)

From stdpp Require Import base list strings numbers gmap sorting.
From Stdlib Require Import ZArith Lia Sorted String.
From S2P Require Import Prelude.

Local Open Scope Z_scope.

(** ** Position sets *)

(** [append] refuses what is not ascending past the maximum, with a message. *)
Class Roaring (S : Type) := {
  rb_new : S;
  rb_iter : S -> list Z;
  rb_append : S -> list Z -> result string S;
  rb_extend : S -> list Z -> S;
  rb_union : S -> S -> S;
  serialized_size : S -> Z;
}.

Definition rb_max {S} `{Roaring S} (s : S) : option Z := last (rb_iter s).
Definition rb_len {S} `{Roaring S} (s : S) : Z := Z.of_nat (List.length (rb_iter s)).

Class RoaringLaws (S : Type) `{Roaring S} := {
  rb_iter_sorted s : StronglySorted Z.lt (rb_iter s);
  rb_iter_new : rb_iter rb_new = [];
  rb_append_ascending s ps :
    StronglySorted Z.lt ps -> (forall x y, x ∈ rb_iter s -> y ∈ ps -> x < y) ->
    exists s', rb_append s ps = Ok s' /\ forall x, x ∈ rb_iter s' <-> x ∈ rb_iter s \/ x ∈ ps;
  rb_iter_extend s ps x : x ∈ rb_iter (rb_extend s ps) <-> x ∈ rb_iter s \/ x ∈ ps;
  rb_iter_union s t x : x ∈ rb_iter (rb_union s t) <-> x ∈ rb_iter s \/ x ∈ rb_iter t;
  serialized_size_nonneg s : 0 <= serialized_size s;
}.

(** ** Sorting *)

Lemma Zle_total_sort (l : list Z) : StronglySorted Z.le (merge_sort Z.le l).
Proof. apply Sorted_StronglySorted; [intros x y z; lia|]. apply Sorted_merge_sort; intros x y; lia. Qed.

(** [Vec::dedup]: neighbours only. *)
Fixpoint dedup (l : list Z) : list Z :=
  match l with
  | x :: ((y :: _) as rest) => if x =? y then dedup rest else x :: dedup rest
  | _ => l
  end.

Lemma elem_of_dedup x l : x ∈ dedup l <-> x ∈ l.
Proof.
  induction l as [|a l IH]; [done|]. destruct l as [|b l]; [done|].
  change (dedup (a :: b :: l)) with (if a =? b then dedup (b :: l) else a :: dedup (b :: l)).
  destruct (Z.eqb_spec a b) as [->|]; rewrite ?elem_of_cons, IH, ?elem_of_cons; tauto.
Qed.

Lemma dedup_sorted l : StronglySorted Z.le l -> StronglySorted Z.lt (dedup l).
Proof.
  induction 1 as [|a l Hl IH Ha]; [constructor|]. destruct l as [|b l]; [repeat constructor|].
  change (dedup (a :: b :: l)) with (if a =? b then dedup (b :: l) else a :: dedup (b :: l)).
  destruct (Z.eqb_spec a b) as [->|Hne]; [done|]. constructor; [done|]. apply Forall_forall. intros x Hx.
  rewrite elem_of_dedup in Hx. rewrite Forall_forall in Ha. pose proof (Ha b ltac:(left)) as Hab.
  apply StronglySorted_inv in Hl as [_ Hb]. rewrite Forall_forall in Hb.
  apply elem_of_cons in Hx as [->|Hx]; [lia|]. specialize (Hb _ Hx). lia.
Qed.

(** [sort_unstable(); dedup()]. *)
Definition sort_dedup (l : list Z) : list Z := dedup (merge_sort Z.le l).

Lemma elem_of_sort_dedup x l : x ∈ sort_dedup l <-> x ∈ l.
Proof. unfold sort_dedup. rewrite elem_of_dedup. by rewrite merge_sort_Permutation. Qed.

Lemma sort_dedup_sorted l : StronglySorted Z.lt (sort_dedup l).
Proof. apply dedup_sorted, Zle_total_sort. Qed.

Lemma sort_dedup_nil l : sort_dedup l = [] -> l = [].
Proof.
  intros E. destruct l as [|x l]; [done|]. assert (H : x ∈ sort_dedup (x :: l)) by (rewrite elem_of_sort_dedup; left).
  rewrite E in H. by apply elem_of_nil in H.
Qed.

(** The maximum bounds a sorted set. *)
Lemma last_bound l m x : StronglySorted Z.lt l -> last l = Some m -> x ∈ l -> x <= m.
Proof.
  intros Hs Hm Hx. induction Hs as [|a l Hs IH Ha]; [by apply elem_of_nil in Hx|].
  destruct l as [|b l].
  - cbn in Hm. injection Hm as ->. apply list_elem_of_singleton in Hx as ->. lia.
  - cbn in Hm. apply elem_of_cons in Hx as [->|Hx]; [|by apply IH].
    rewrite Forall_forall in Ha. apply last_Some in Hm as [l' Hl']. specialize (Ha m).
    rewrite Hl' in Ha. specialize (Ha ltac:(apply elem_of_app; right; by left)). lia.
Qed.

(** ** An instance: finite sets of integers, sixteen bytes and eight per position *)

#[export] Instance gset_roaring : Roaring (gset Z) := {|
  rb_new := ∅;
  rb_iter s := merge_sort Z.le (elements s);
  rb_append s ps :=
    if bool_decide (StronglySorted Z.lt ps) && forallb (fun x => forallb (fun y => x <? y) ps) (elements s)
    then Ok (s ∪ list_to_set ps) else Err "not ascending"%string;
  rb_extend s ps := s ∪ list_to_set ps;
  rb_union s t := s ∪ t;
  serialized_size s := 16 + 8 * Z.of_nat (size s);
|}.

Lemma elem_of_gset_iter (s : gset Z) x : x ∈ merge_sort Z.le (elements s) <-> x ∈ s.
Proof. rewrite merge_sort_Permutation. apply elem_of_elements. Qed.

Lemma strict_of_nodup l : StronglySorted Z.le l -> NoDup l -> StronglySorted Z.lt l.
Proof.
  induction 1 as [|a l Hl IH Ha]; intros Hn; [constructor|]. apply NoDup_cons in Hn as [Hin Hn].
  constructor; [by apply IH|]. apply Forall_forall. intros x Hx. rewrite Forall_forall in Ha.
  specialize (Ha x Hx). assert (x <> a) by congruence. lia.
Qed.

#[export] Instance gset_roaring_laws : RoaringLaws (gset Z).
Proof.
  split.
  - intros s. cbn. apply strict_of_nodup; [apply Zle_total_sort|].
    rewrite merge_sort_Permutation. apply NoDup_elements.
  - done.
  - intros s ps Hs Hlt. cbn. exists (s ∪ list_to_set ps).
    rewrite bool_decide_eq_true_2 by done. split.
    + replace (forallb _ (elements s)) with true; [done|]. symmetry. apply forallb_forall. intros x Hx.
      apply forallb_forall. intros y Hy. apply Z.ltb_lt, Hlt; [|by apply list_elem_of_In].
      apply elem_of_gset_iter, elem_of_elements. by apply list_elem_of_In.
    + intros x. rewrite !elem_of_gset_iter, elem_of_union, elem_of_list_to_set. done.
  - intros s ps x. cbn. rewrite !elem_of_gset_iter, elem_of_union, elem_of_list_to_set. done.
  - intros s t x. cbn. rewrite !elem_of_gset_iter, elem_of_union. done.
  - intros s. cbn. lia.
Qed.

(** ** The memory pool *)

(** [try_grow] of a reservation holding [reserved] bytes: [Some e] when the pool
    refuses [bytes] more. *)
Class MemoryPool := pool_refuses : Z -> Z -> option string.

(** A pool of a fixed size with one reservation. *)
Definition fixed_pool (limit : Z) : MemoryPool := fun reserved bytes =>
  if reserved + bytes <=? limit then None else Some "Resources exhausted"%string.
