(* ===== verification/RowDeletes.v ===== *)
(** crates/lakehouse-engine/src/scan/row_deletes.rs, the positional-delete side of
    phase A: the delete file's columns and row groups, the decoding of its rows into
    one position set per data file, the union of the sets, and the memory reservation
    that follows them. Positions are [u64] values as [Z]. *)

From stdpp Require Import base list strings numbers gmap sorting.
From Stdlib Require Import Ascii String ZArith Lia Sorted.
From S2P Require Import Prelude Text ExasolRules Redaction RoaringSets.

Local Open Scope string_scope.
Local Open Scope Z_scope.

Definition FIELD_ID_POSITIONAL_DELETE_FILE_PATH : Z := 2147483546.
Definition FIELD_ID_POSITIONAL_DELETE_POS : Z := 2147483545.

(** A task fails with an error or by a panic. *)
Inductive Fault := Failed (e : UdfError) | Panicked.

Notation res A := (result Fault A).
Notation fail msg := (Err (Failed (User msg))).

Definition redact (msg : string) (secrets : list string) : string := redact_error_text msg secrets.

(** ** The delete file's schema *)

(** A schema field: its name and the text of its Parquet field id, if any. *)
Record Field := { field_name : string; field_id : option string }.

Definition by_field_id (fields : list Field) (target : Z) : option nat :=
  position (fun f => bool_decide (f.(field_id) ≫= parse_i32 = Some target)) fields.

Definition by_name (fields : list Field) (name : string) : option nat :=
  position (fun f => String.eqb f.(field_name) name) fields.

Definition locate_delete_columns (fields : list Field) : res (nat * nat) :=
  let? file_path_idx :=
    ok_or (or_else (by_field_id fields FIELD_ID_POSITIONAL_DELETE_FILE_PATH) (by_name fields "file_path"))
      (Failed (User "positional-delete file has no file_path column (field-id 2147483546)")) in
  let? pos_idx :=
    ok_or (or_else (by_field_id fields FIELD_ID_POSITIONAL_DELETE_POS) (by_name fields "pos"))
      (Failed (User "positional-delete file has no pos column (field-id 2147483545)")) in
  Ok (file_path_idx, pos_idx).

(** ** Row group pruning *)

(** Byte-wise order of texts. *)
Definition bytes_le (a b : string) : bool := match String.compare a b with Gt => false | _ => true end.

(** A column chunk's statistics: of a byte array, with optional bounds, or of
    another type. *)
Inductive Statistics := ByteArrayStats (min max : option string) | OtherStats.

(** [columns]: the statistics of each column chunk, where present. *)
Definition delete_row_group_may_match (columns : list (option Statistics)) (file_path_idx : nat)
    (assigned : list string) : bool :=
  match columns !! file_path_idx with
  | Some (Some (ByteArrayStats (Some min) (Some max))) =>
      existsb (fun path => bytes_le min path && bytes_le path max) assigned
  | _ => true
  end.

(** ** The footer GET's bytes *)

Record FooterBytes := { start : Z; bytes : list Byte.byte }.

Definition footer_slice (f : FooterBytes) (range_start range_end : Z) : result string (list Byte.byte) :=
  let end_ := f.(start) + Z.of_nat (List.length f.(bytes)) in
  if (range_start <? f.(start)) || (end_ <? range_end) then
    Err ("range " ++ show_Z range_start ++ ".." ++ show_Z range_end ++ " lies outside the delete file's footer bytes")
  else
    Ok (take (Z.to_nat (range_end - range_start)) (drop (Z.to_nat (range_start - f.(start))) f.(bytes))).

(** ** The memory reservation *)

Section Positions.
Context {S : Type} `{RB : Roaring S} `{Pool : MemoryPool}.
Context (secrets : list string).

Definition reserve (reserved amount : Z) : res Z :=
  match pool_refuses reserved amount with
  | None => Ok (reserved + amount)
  | Some e => fail (redact ("the row-position delete state does not fit the memory pool: " ++ e) secrets)
  end.

(** [shrink] panics when asked for more than the reservation holds. *)
Definition shrink (reserved amount : Z) : res Z :=
  if amount <=? reserved then Ok (reserved - amount) else Err Panicked.

Definition track (reserved before after : Z) : res Z :=
  if before <? after then reserve reserved (after - before) else shrink reserved (before - after).

Notation sets := (gmap string S).

Definition add_positions (m : sets) (path : string) (positions : list Z) (reserved : Z) : res (sets * Z) :=
  match positions with
  | [] => Ok (m, reserved)
  | _ =>
      let positions := sort_dedup positions in
      let '(set, before) :=
        match m !! path with Some set => (set, serialized_size set) | None => (rb_new, 0) end in
      let past_max :=
        match rb_max set, head positions with Some max, Some p => max <? p | _, _ => true end in
      let? set' :=
        (if past_max : bool
         then match rb_append set positions with
              | Ok set' => Ok set'
              | Err e => fail ("failed to build positional-delete set for a data file: " ++ e)
              end
         else Ok (rb_extend set positions)) in
      let? reserved := track reserved before (serialized_size set') in
      Ok (<[path := set']> m, reserved)
  end.

(** ** Decoding row groups *)

Inductive PathColumn :=
| Utf8Paths (rows : list (option string))
| LargeUtf8Paths (rows : list (option string))
| OtherPaths (data_type : string).

Inductive PosColumn := Int64Pos (rows : list (option Z)) | OtherPos.

Record Batch := { file_paths : PathColumn; pos_column : PosColumn }.

(** The data files of the shard: the location a delete row names, to the URI. *)
Context (assigned : gmap string string).

(** [run]: the path of the current run and, when it is assigned, its bucket. *)
Notation run := (option (string * option (list Z))).
Notation state := (sets * Z * run)%type.

(** [add_positions] of the current bucket, which it drains. *)
Definition flush (st : state) : res state :=
  let '(m, reserved, r) := st in
  match r with
  | Some (ended, Some bucket) =>
      match assigned !! ended with
      | None => Err Panicked
      | Some uri =>
          let? (m, reserved) := add_positions m uri bucket reserved in
          Ok (m, reserved, Some (ended, Some []))
      end
  | _ => Ok st
  end.

(** A row of another path ends the run: its bucket is flushed and a run starts. *)
Definition enter_run (st : state) (path : string) : res state :=
  let same := match st.2 with Some (current, _) => String.eqb current path | None => false end in
  if same then Ok st
  else
    let? (m, reserved, _) := flush st in
    Ok (m, reserved, Some (path, match assigned !! path with Some _ => Some [] | None => None end)).

Definition row_step (st : state) (row : option string * option Z) : res state :=
  match row with
  | (_, None) | (None, Some _) => Ok st
  | (Some path, Some pos) =>
      let? (m, reserved, r) := enter_run st path in
      match r with
      | Some (p, Some bucket) =>
          if pos <? 0 then
            fail ("positional-delete file has a negative pos (" ++ show_Z pos
                  ++ "); refusing to apply a malformed delete")
          else Ok (m, reserved, Some (p, Some (bucket ++ [pos])%list))
      | r => Ok (m, reserved, r)
      end
  end.

Fixpoint row_loop (st : state) (rows : list (option string * option Z)) : res state :=
  match rows with
  | [] => Ok st
  | row :: rows => let? st := row_step st row in row_loop st rows
  end.

Definition batch_rows (b : Batch) : res (list (option string * option Z)) :=
  match b.(pos_column) with
  | OtherPos => fail "positional-delete pos column is not Int64"
  | Int64Pos pos =>
      match b.(file_paths) with
      | Utf8Paths paths | LargeUtf8Paths paths => Ok (zip paths pos)
      | OtherPaths t =>
          fail ("positional-delete file_path column has unexpected type " ++ t
                ++ " (expected Utf8 or LargeUtf8)")
      end
  end.

Fixpoint batch_loop (st : state) (batches : list (result string Batch)) : res state :=
  match batches with
  | [] => Ok st
  | Err e :: _ => fail (redact ("error decoding delete file: " ++ e) secrets)
  | Ok b :: batches =>
      let? rows := batch_rows b in
      let? st := row_loop st rows in
      let? st := flush st in
      batch_loop st batches
  end.

Definition decode_row_groups (batches : list (result string Batch)) (reserved : Z) : res (sets * Z) :=
  let? (m, reserved, _) := batch_loop (∅, reserved, None) batches in Ok (m, reserved).

(** ** Unions *)

(** [sets_by_data_file.entry(path).or_default().push(positions)] *)
Definition group_sets (l : list (string * S)) : gmap string (list S) :=
  fold_left (fun m '(path, s) => <[path := (m !!! path ++ [s])%list]> m) l ∅.

Definition total_size (l : list S) : Z := fold_right (fun s acc => serialized_size s + acc) 0 l.

(** The task of one data file. *)
Definition union_task (reserved : Z) (path : string) (members : list S) : res (string * S * Z) :=
  let before := total_size members in
  let union := fold_left rb_union members rb_new in
  let? reserved := track reserved before (serialized_size union) in
  Ok (path, union, reserved).

(** The tasks one after the other: a schedule of the spawned ones. *)
Fixpoint union_tasks (reserved : Z) (groups : list (string * list S)) : res (list (string * S) * Z) :=
  match groups with
  | [] => Ok ([], reserved)
  | (path, members) :: rest =>
      let? (path, union, reserved) := union_task reserved path members in
      let? (unions, reserved) := union_tasks reserved rest in
      Ok ((path, union) :: unions, reserved)
  end.

Definition union_by_data_file (reserved : Z) (l : list (string * S)) : res (sets * Z) :=
  let? (unions, reserved) := union_tasks reserved (map_to_list (group_sets l)) in
  Ok (list_to_map unions, reserved).

(** ** Facts *)

Context `{Laws : !RoaringLaws S}.

Definition in_set (m : sets) (uri : string) (x : Z) : Prop := exists s, m !! uri = Some s /\ x ∈ rb_iter s.

Definition map_total (m : sets) : Z := total_size (map snd (map_to_list m)).

Lemma total_size_cons s l : total_size (s :: l) = serialized_size s + total_size l.
Proof. done. Qed.

#[local] Instance total_size_proper : Proper ((≡ₚ) ==> eq) total_size.
Proof. intros a b. unfold total_size. induction 1; cbn in *; lia. Qed.

Lemma total_size_nonneg l : 0 <= total_size l.
Proof. unfold total_size. induction l as [|s l IH]; cbn in *; [done|]. pose proof (serialized_size_nonneg s). lia. Qed.

Lemma map_total_delete m path s :
  m !! path = Some s -> map_total m = serialized_size s + map_total (delete path m).
Proof.
  intros Hm. unfold map_total. pose proof (map_to_list_delete m path s Hm) as Hp.
  apply (fmap_Permutation snd) in Hp. by rewrite <- Hp.
Qed.

(** What the reservation holds for a path. *)
Definition held (m : sets) (path : string) : Z :=
  match m !! path with Some t => serialized_size t | None => 0 end.

Lemma held_le_total m path : held m path <= map_total m.
Proof.
  unfold held. destruct (m !! path) as [s|] eqn:Em.
  - rewrite (map_total_delete m path s Em). pose proof (total_size_nonneg (map snd (map_to_list (delete path m)))).
    unfold map_total. lia.
  - apply total_size_nonneg.
Qed.

Lemma map_total_insert m path s :
  map_total (<[path := s]> m)
    = serialized_size s + map_total m - held m path.
Proof.
  assert (Hd : map_total (<[path := s]> m) = serialized_size s + map_total (delete path m)).
  { rewrite (map_total_delete _ path s) by apply lookup_insert_eq. by rewrite delete_insert_eq. }
  rewrite Hd. unfold held. destruct (m !! path) as [t|] eqn:Em.
  - rewrite (map_total_delete m path t) by done. lia.
  - rewrite delete_id by done. lia.
Qed.

(** The reservation moves by the change of the set's size; it never underflows when
    it holds at least the set's size. *)
Lemma track_spec reserved before after :
  before <= reserved -> 0 <= after ->
  match track reserved before after with
  | Ok r => r = reserved - before + after
  | Err f => f <> Panicked
  end.
Proof.
  intros Hb Ha. unfold track. destruct (Z.ltb_spec before after).
  - unfold reserve. destruct (pool_refuses _ _); [done|lia].
  - unfold shrink. destruct (Z.leb_spec (before - after) reserved); lia.
Qed.

(** The set of a path is what it was, with the positions added; [append] is only
    called where it succeeds. *)
Lemma added_set set positions :
  positions <> [] ->
  exists set',
    (if match rb_max set, head (sort_dedup positions) with Some max, Some p => max <? p | _, _ => true end
     then match rb_append set (sort_dedup positions) with
          | Ok set' => Ok set'
          | Err e => fail ("failed to build positional-delete set for a data file: " ++ e)
          end
     else Ok (rb_extend set (sort_dedup positions))) = (Ok set' : res S)
    /\ forall x, x ∈ rb_iter set' <-> x ∈ rb_iter set \/ x ∈ positions.
Proof.
  intros Hne. pose proof (fun x => elem_of_sort_dedup x positions) as Hin. pose proof (sort_dedup_sorted positions) as Hs. destruct (sort_dedup positions) as [|p ps] eqn:Ep.
  { by apply sort_dedup_nil in Ep. }
  destruct (match rb_max set with Some max => _ | None => _ end) eqn:Epast.
  - destruct (rb_append_ascending set (p :: ps)) as (set' & -> & Hset); [done| |exists set'; split; [done|]; intros x; by rewrite Hset, Hin].
    intros x y Hx Hy. assert (Hpy : p <= y).
    { apply elem_of_cons in Hy as [->|Hy]; [lia|]. apply StronglySorted_inv in Hs as [_ Hs].
      rewrite Forall_forall in Hs. specialize (Hs y Hy). lia. }
    unfold rb_max in Epast. destruct (last (rb_iter set)) as [m|] eqn:El.
    + cbn in Epast. apply Z.ltb_lt in Epast. pose proof (last_bound _ _ _ (rb_iter_sorted set) El Hx). lia.
    + apply last_None in El. rewrite El in Hx. by apply elem_of_nil in Hx.
  - eexists. split; [done|]. intros x. by rewrite rb_iter_extend, Hin.
Qed.

Lemma in_set_insert m path s uri x :
  in_set (<[path := s]> m) uri x <-> uri = path /\ x ∈ rb_iter s \/ uri <> path /\ in_set m uri x.
Proof.
  unfold in_set. destruct (decide (uri = path)) as [->|Hne].
  - rewrite lookup_insert_eq. naive_solver.
  - rewrite lookup_insert_ne by done. naive_solver.
Qed.

Lemma add_positions_spec slack m path positions :
  0 <= slack ->
  match add_positions m path positions (slack + map_total m) with
  | Ok (m', reserved) => reserved = slack + map_total m'
      /\ forall uri x, in_set m' uri x <-> in_set m uri x \/ uri = path /\ x ∈ positions
  | Err f => f <> Panicked
  end.
Proof.
  intros Hslack. destruct positions as [|p ps] eqn:Eps.
  { cbn. split; [done|]. intros uri x. rewrite elem_of_nil. tauto. }
  cbn [add_positions]. rewrite <- Eps.
  set (set0 := match m !! path with Some set => set | None => rb_new end).
  replace (match m !! path with Some set => (set, serialized_size set) | None => (rb_new, 0) end)
    with (set0, held m path) by (subst set0; unfold held; by destruct (m !! path)).
  destruct (added_set set0 positions) as (set' & Eset & Hset'); [by rewrite Eps|]. rewrite Eset.
  pose proof (held_le_total m path) as Hheld.
  pose proof (track_spec (slack + map_total m) (held m path) (serialized_size set') ltac:(lia)
    (serialized_size_nonneg set')) as Ht.
  destruct (track _ _ _) as [r|f]; [|done]. split; [rewrite Ht, map_total_insert; lia|].
  intros uri x. rewrite in_set_insert, Hset'. subst set0. unfold in_set.
  destruct (decide (uri = path)) as [->|]; [|naive_solver].
  destruct (m !! path) as [s|] eqn:Em; [naive_solver|]. rewrite rb_iter_new, elem_of_nil. naive_solver.
Qed.

(** ** The decode loop *)

(** The rows seen so far delete position [x] of the data file [uri]. *)
Definition named (rows : list (option string * option Z)) (uri : string) (x : Z) : Prop :=
  exists path, (Some path, Some x) ∈ rows /\ assigned !! path = Some uri.

(** Positions waiting in the current run's bucket. *)
Definition in_bucket (r : run) (uri : string) (x : Z) : Prop :=
  exists path bucket, r = Some (path, Some bucket) /\ assigned !! path = Some uri /\ x ∈ bucket.

(** A run has a bucket exactly when its path is assigned. *)
Definition run_ok (r : run) : Prop :=
  forall path bucket, r = Some (path, bucket) -> is_Some bucket <-> is_Some (assigned !! path).

Record decoding (slack : Z) (rows : list (option string * option Z)) (st : state) : Prop := {
  dec_reserved : st.1.2 = slack + map_total st.1.1;
  dec_run : run_ok st.2;
  dec_rows : forall uri x, named rows uri x <-> in_set st.1.1 uri x \/ in_bucket st.2 uri x;
  dec_nonneg : forall uri x, named rows uri x -> 0 <= x;
}.

Lemma flush_spec slack rows st :
  0 <= slack -> decoding slack rows st ->
  match flush st with
  | Ok st' => decoding slack rows st' /\ (forall uri x, ~ in_bucket st'.2 uri x)
      /\ option_map fst st'.2 = option_map fst st.2
  | Err f => f <> Panicked
  end.
Proof.
  intros Hs [Hr Hok Hrows Hnn]. destruct st as [[m reserved] r]. cbn in Hr, Hok, Hrows. subst reserved.
  destruct r as [[ended [bucket|]]|]; cbn.
  - destruct (proj1 (Hok _ _ eq_refl) ltac:(eauto)) as [uri Huri]. rewrite Huri.
    pose proof (add_positions_spec slack m uri bucket Hs) as Ha.
    destruct (add_positions _ _ _ _) as [[m' reserved']|f]; [|done]. destruct Ha as [-> Ha].
    split; [split|split; [|done]]; cbn.
    + done.
    + intros path b [= <- <-]. split; eauto.
    + intros u x. rewrite Hrows, Ha. split.
      * intros [H|(p & b & [= <- <-] & Hu & Hx)]; [tauto|]. left. right. split; [congruence|done].
      * intros [[H|[-> Hx]]|(p & b & [= <- <-] & _ & Hx)]; [by left|right; by exists ended, bucket|].
        by apply elem_of_nil in Hx.
    + done.
    + intros u x (p & b & [= <- <-] & _ & Hx). by apply elem_of_nil in Hx.
  - split; [by split|]. split; [|done]. intros u x (p & b & [=] & _).
  - split; [by split|]. split; [|done]. intros u x (p & b & [=] & _).
Qed.

(** A row that names nothing. *)
Lemma decoding_skip slack rows st row :
  decoding slack rows st -> (forall uri x, ~ named [row] uri x) -> decoding slack (rows ++ [row])%list st.
Proof.
  intros [Hr Hok Hrows Hnn] Hno.
  assert (Hsame : forall uri x, named (rows ++ [row])%list uri x <-> named rows uri x).
  { intros uri x. unfold named in *. split; [|intros (p & Hp & Hu); exists p; rewrite elem_of_app; tauto].
    intros (p & [Hp|Hp]%elem_of_app & Hu); [eauto|]. exfalso. eapply Hno; eauto. }
  split; [done|done|intros uri x; by rewrite Hsame|intros uri x; rewrite Hsame; apply Hnn].
Qed.

(** The bucket takes the row's position. *)
Lemma decoding_push slack rows m reserved path bucket pos :
  0 <= pos -> decoding slack rows (m, reserved, Some (path, Some bucket)) ->
  decoding slack (rows ++ [(Some path, Some pos)])%list (m, reserved, Some (path, Some (bucket ++ [pos])%list)).
Proof.
  intros Hpos [Hr Hok Hrows Hnn]. cbn in *. destruct (proj1 (Hok _ _ eq_refl) ltac:(eauto)) as [u0 Hu0].
  split; cbn; [done| | |].
  - intros p b [= <- <-]. split; eauto.
  - intros uri x. unfold named in *. setoid_rewrite elem_of_app.
    assert (Hrest : in_set m uri x \/ in_bucket (Some (path, Some (bucket ++ [pos])%list)) uri x
      <-> (exists p, (Some p, Some x) ∈ rows /\ assigned !! p = Some uri) \/ uri = u0 /\ x = pos).
    { rewrite Hrows. unfold in_bucket. split.
      - intros [H|(p & b & [= <- <-] & Hu & Hx)]; [tauto|]. apply elem_of_app in Hx as [Hx|Hx]; [left; right; eauto|].
        apply list_elem_of_singleton in Hx as ->. right. split; [congruence|done].
      - intros [[H|(p & b & [= <- <-] & Hu & Hx)]|[-> ->]]; [tauto|..]; right; exists path, (bucket ++ [pos])%list;
          rewrite elem_of_app, list_elem_of_singleton; naive_solver. }
    rewrite Hrest. split.
    + intros (p & [Hp|Hp%list_elem_of_singleton] & Hu); [eauto|]. right. naive_solver congruence.
    + intros [(p & Hp & Hu)|[-> ->]]; [exists p; tauto|]. exists path. rewrite list_elem_of_singleton. tauto.
  - intros uri x (p & [Hp|Hp%list_elem_of_singleton]%elem_of_app & Hu); [apply (Hnn uri); by exists p|]. by injection Hp as -> ->.
Qed.

Lemma enter_run_spec slack rows st path :
  0 <= slack -> decoding slack rows st ->
  match enter_run st path with
  | Ok st' => decoding slack rows st' /\ exists b, st'.2 = Some (path, b)
  | Err f => f <> Panicked
  end.
Proof.
  intros Hs Hd. unfold enter_run. destruct st as [[m reserved] r].
  destruct (match r with Some (current, _) => String.eqb current path | None => false end) eqn:Esame; cbn [snd].
  - rewrite Esame. split; [done|]. destruct r as [[current b]|]; [|done]. apply String.eqb_eq in Esame as ->. eauto.
  - rewrite Esame. pose proof (flush_spec slack rows _ Hs Hd) as Hf.
    destruct (flush _) as [[[m' r'] run']|f]; [|done]. destruct Hf as ([Hr Hok Hrows Hnn] & Hno & _). cbn in *.
    split; [|eauto]. split; cbn; [done| | |done].
    + intros p bucket [= <- <-]. destruct (assigned !! path); split; intros [? ?]; eauto; discriminate.
    + intros u x. rewrite Hrows. split; intros [H|H]; try (by left); exfalso; [by eapply Hno|].
      destruct H as (p & bucket & Hp & _ & Hx). destruct (assigned !! path); simplify_eq.
      by apply elem_of_nil in Hx.
Qed.

Lemma row_step_spec slack rows st row :
  0 <= slack -> decoding slack rows st ->
  match row_step st row with
  | Ok st' => decoding slack (rows ++ [row])%list st'
  | Err f => f <> Panicked
  end.
Proof.
  intros Hs Hd. destruct row as [[path|] [pos|]]; cbn [row_step];
    try (apply decoding_skip; [done|]; intros u x (p & Hp%list_elem_of_singleton & _); done).
  pose proof (enter_run_spec slack rows st path Hs Hd) as Hstep.
  destruct (enter_run st path) as [[[m reserved] r]|f]; [|done].
  destruct Hstep as [Hd' [b Hb]]. cbn in Hb. subst r. destruct b as [bucket|].
  - destruct (Z.ltb_spec pos 0); [done|]. by apply decoding_push.
  - apply decoding_skip; [done|]. intros u x (p & Hp%list_elem_of_singleton & Hu). injection Hp as -> ->.
    pose proof (dec_run _ _ _ Hd' path None eq_refl) as Hok. by destruct (proj2 Hok ltac:(eauto)).
Qed.

Lemma row_loop_spec slack rows more st :
  0 <= slack -> decoding slack rows st ->
  match row_loop st more with
  | Ok st' => decoding slack (rows ++ more)%list st'
  | Err f => f <> Panicked
  end.
Proof.
  intros Hs. revert rows st. induction more as [|row more IH]; intros rows st Hd; cbn; [by rewrite app_nil_r|].
  pose proof (row_step_spec slack rows st row Hs Hd) as Hstep. destruct (row_step st row) as [st'|f]; [|done].
  specialize (IH _ _ Hstep). by rewrite <- app_assoc in IH.
Qed.

(** The rows of the batches, up to one that cannot be read. *)
Fixpoint all_rows (batches : list (result string Batch)) : list (option string * option Z) :=
  match batches with
  | Ok b :: rest => match batch_rows b with Ok rows => (rows ++ all_rows rest)%list | Err _ => [] end
  | _ => []
  end.

Lemma batch_rows_fault b f : batch_rows b = Err f -> f <> Panicked.
Proof. unfold batch_rows. by destruct (pos_column b); [destruct (file_paths b)|]; intros [= <-]. Qed.

Lemma batch_loop_spec slack rows batches st :
  0 <= slack -> decoding slack rows st -> (forall uri x, ~ in_bucket st.2 uri x) ->
  match batch_loop st batches with
  | Ok st' => decoding slack (rows ++ all_rows batches)%list st' /\ (forall uri x, ~ in_bucket st'.2 uri x)
  | Err f => f <> Panicked
  end.
Proof.
  intros Hs. revert rows st. induction batches as [|[b|e] batches IH]; intros rows st Hd Hno; cbn; [by rewrite app_nil_r| |done].
  destruct (batch_rows b) as [brows|f] eqn:Eb; [|by eapply batch_rows_fault].
  pose proof (row_loop_spec slack rows brows st Hs Hd) as Hl. destruct (row_loop st brows) as [st1|f]; [|done].
  pose proof (flush_spec slack _ st1 Hs Hl) as Hf. destruct (flush st1) as [st2|f]; [|done].
  destruct Hf as (Hd2 & Hno2 & _). specialize (IH _ _ Hd2 Hno2). by rewrite <- app_assoc in IH.
Qed.

Lemma decode_row_groups_spec batches reserved :
  0 <= reserved ->
  match decode_row_groups batches reserved with
  | Ok (m, reserved') => reserved' = reserved + map_total m
      /\ (forall uri x, in_set m uri x -> 0 <= x)
      /\ forall uri x, in_set m uri x <-> named (all_rows batches) uri x
  | Err f => f <> Panicked
  end.
Proof.
  intros Hs. unfold decode_row_groups.
  assert (Hd : decoding reserved [] (∅, reserved, None)).
  { split; cbn.
    - unfold map_total. rewrite map_to_list_empty. cbn. lia.
    - by intros p b [=].
    - intros u x. split; [intros (p & Hp & _); by apply elem_of_nil in Hp|].
      intros [(s & Hm & _)|(p & b & [=] & _)]. by rewrite lookup_empty in Hm.
    - intros u x (p & Hp & _). by apply elem_of_nil in Hp. }
  pose proof (batch_loop_spec reserved [] batches _ Hs Hd ltac:(intros u x (p & b & [=] & _))) as H.
  destruct (batch_loop _ _) as [[[m r] run']|f]; [|done]. destruct H as [[Hr _ Hrows Hnn] Hno]. cbn in *.
  assert (Hin : forall u x, in_set m u x <-> named (all_rows batches) u x) by (intros u x; rewrite Hrows; specialize (Hno u x); tauto).
  split; [done|]. split; [|done]. intros u x. rewrite Hin. apply Hnn.
Qed.

(** ** Unions *)

Lemma group_sets_spec_gen l m path s :
  s ∈ (fold_left (fun m '(path, s) => <[path := (m !!! path ++ [s])%list]> m) l m : gmap string (list S)) !!! path
  <-> s ∈ m !!! path \/ (path, s) ∈ l.
Proof.
  revert m. induction l as [|[p t] l IH]; intros m; cbn; [rewrite elem_of_nil; tauto|].
  rewrite IH, elem_of_cons. destruct (decide (p = path)) as [->|Hne].
  - rewrite lookup_total_insert_eq, elem_of_app, list_elem_of_singleton. naive_solver.
  - rewrite lookup_total_insert_ne by done. naive_solver.
Qed.

Lemma group_sets_spec l path s : s ∈ group_sets l !!! path <-> (path, s) ∈ l.
Proof.
  unfold group_sets. rewrite group_sets_spec_gen, lookup_total_empty. cbn. rewrite elem_of_nil. tauto.
Qed.

Lemma iter_fold_union members acc x :
  x ∈ rb_iter (fold_left rb_union members acc) <-> x ∈ rb_iter acc \/ exists s, s ∈ members /\ x ∈ rb_iter s.
Proof.
  revert acc. induction members as [|s members IH]; intros acc; cbn.
  - setoid_rewrite elem_of_nil. naive_solver.
  - rewrite IH, rb_iter_union. setoid_rewrite elem_of_cons. naive_solver.
Qed.

Definition groups_total (groups : list (string * list S)) : Z :=
  fold_right (fun g acc => total_size g.2 + acc) 0 groups.

Lemma groups_total_cons path members groups :
  groups_total ((path, members) :: groups) = total_size members + groups_total groups.
Proof. done. Qed.

#[local] Instance groups_total_proper : Proper ((≡ₚ) ==> eq) groups_total.
Proof. intros a b. unfold groups_total. induction 1; cbn in *; lia. Qed.

Lemma groups_total_nonneg groups : 0 <= groups_total groups.
Proof.
  induction groups as [|[p l] groups IH]; [done|]. rewrite groups_total_cons.
  pose proof (total_size_nonneg l). lia.
Qed.

Lemma union_tasks_spec slack groups :
  0 <= slack ->
  match union_tasks (slack + groups_total groups) groups with
  | Ok (unions, reserved) =>
      unions = map (fun g => (g.1, fold_left rb_union g.2 rb_new)) groups
      /\ reserved = slack + total_size (map snd unions)
  | Err f => f <> Panicked
  end.
Proof.
  revert slack. induction groups as [|[path members] groups IH]; intros slack Hs; cbn [union_tasks].
  - split; [done|]. cbn. lia.
  - unfold union_task. pose proof (groups_total_nonneg groups) as Hg.
    assert (Et : groups_total ((path, members) :: groups) = total_size members + groups_total groups) by done.
    pose proof (track_spec (slack + groups_total ((path, members) :: groups)) (total_size members)
      (serialized_size (fold_left rb_union members rb_new)) ltac:(lia) (serialized_size_nonneg _)) as Ht.
    destruct (track _ _ _) as [r|f]; [|done]. rewrite Et in Ht.
    set (u := fold_left rb_union members rb_new) in *. pose proof (serialized_size_nonneg u) as Hu.
    assert (Hsu : 0 <= slack + serialized_size u) by lia. specialize (IH _ Hsu).
    replace r with (slack + serialized_size u + groups_total groups) by lia.
    destruct (union_tasks _ groups) as [[unions r']|f]; [|done]. destruct IH as [-> ->]. split; [reflexivity|].
    cbn [map fst snd]. fold u. rewrite total_size_cons. lia.
Qed.

Lemma total_size_app a b : total_size (a ++ b)%list = total_size a + total_size b.
Proof. induction a as [|s a IH]; [done|]. cbn [app]. rewrite !total_size_cons. lia. Qed.

Lemma push_total (m : gmap string (list S)) path s :
  groups_total (map_to_list (<[path := (m !!! path ++ [s])%list]> m))
    = groups_total (map_to_list m) + serialized_size s.
Proof.
  rewrite <- insert_delete_eq, map_to_list_insert, groups_total_cons, total_size_app, total_size_cons
    by apply lookup_delete_eq.
  destruct (m !! path) as [old|] eqn:Em.
  - rewrite (lookup_total_correct _ _ _ Em), <- (map_to_list_delete m path old Em), groups_total_cons.
    change (total_size []) with 0. lia.
  - rewrite delete_id, lookup_total_alt, Em by done. cbn [default]. change (total_size (@inhabitant (list S) _)) with 0.
    change (total_size []) with 0. lia.
Qed.

Lemma group_sets_total l : groups_total (map_to_list (group_sets l)) = total_size (map snd l).
Proof.
  unfold group_sets. enough (Hgen : forall m, groups_total (map_to_list
    (fold_left (fun m '(path, s) => <[path := (m !!! path ++ [s])%list]> m) l m : gmap string (list S)))
    = groups_total (map_to_list m) + total_size (map snd l)).
  { rewrite Hgen. by rewrite map_to_list_empty. }
  induction l as [|[p t] l IH]; intros m; cbn [fold_left map snd].
  - change (total_size []) with 0. lia.
  - rewrite IH, push_total, total_size_cons. lia.
Qed.

Lemma union_by_data_file_spec slack l :
  0 <= slack ->
  match union_by_data_file (slack + total_size (map snd l)) l with
  | Ok (m, reserved) => reserved = slack + map_total m
      /\ forall uri x, in_set m uri x <-> exists s, (uri, s) ∈ l /\ x ∈ rb_iter s
  | Err f => f <> Panicked
  end.
Proof.
  intros Hs. unfold union_by_data_file. rewrite <- group_sets_total.
  pose proof (union_tasks_spec slack (map_to_list (group_sets l)) Hs) as Hu.
  destruct (union_tasks _ _) as [[unions r]|f]; [|done]. destruct Hu as [-> ->].
  assert (Hmap : list_to_map (map (fun g => (g.1, fold_left rb_union g.2 rb_new)) (map_to_list (group_sets l)))
    = (fun members => fold_left rb_union members rb_new) <$> group_sets l).
  { rewrite <- (list_to_map_to_list (_ <$> group_sets l)), map_to_list_fmap. done. }
  rewrite Hmap. split.
  - unfold map_total. by rewrite map_to_list_fmap, !map_map.
  - intros uri x. unfold in_set. rewrite lookup_fmap. setoid_rewrite <- group_sets_spec.
    rewrite lookup_total_alt. destruct (group_sets l !! uri) as [members|]; cbn.
    + split.
      * intros (s & [= <-] & Hx). apply iter_fold_union in Hx as [Hx|Hx]; [|done]. rewrite rb_iter_new in Hx.
        by apply elem_of_nil in Hx.
      * intros Hx. eexists. split; [done|]. apply iter_fold_union. by right.
    + split; [by intros (s & [=] & _)|]. intros (s & Hx & _). by apply elem_of_nil in Hx.
Qed.

End Positions.

(** Every positional delete of the shard is applied and nothing else is: decoding
    the row groups of delete files gives, for each data file, exactly the positions
    that rows naming an assigned location give, however the rows are batched, repeated
    or unsorted; no position is negative; the reservation grows by exactly the size of
    the sets built. It can fail, but never by a panic. *)
Theorem decode_positions_exact {S} {RB : Roaring S} {Laws : RoaringLaws S} {Pool : MemoryPool} secrets assigned batches reserved :
  0 <= reserved ->
  match decode_row_groups secrets assigned batches reserved with
  | Ok (m, reserved') => reserved' = reserved + map_total m
      /\ (forall uri x, in_set m uri x -> 0 <= x)
      /\ forall uri x, in_set m uri x <-> named assigned (all_rows batches) uri x
  | Err f => f <> Panicked
  end.
Proof. intros Hr. by apply decode_row_groups_spec. Qed.

(** Two batches of one delete file; only one of the two files is in the shard. *)
Lemma decode_positions_exact_witness :
  let assigned : gmap string string := {["s3://b/t/a b" := "s3://b/t/a%20b"]} in
  let batches := [
    Ok {| file_paths := Utf8Paths [Some "s3://b/t/a b"; Some "s3://b/t/z"; None];
          pos_column := Int64Pos [Some 7; Some (-1); Some 3] |};
    Ok {| file_paths := LargeUtf8Paths [Some "s3://b/t/a b"; Some "s3://b/t/a b"];
          pos_column := Int64Pos [Some 2; Some 7] |}] in
  match decode_row_groups (RB := gset_roaring) (Pool := fixed_pool 1000) [] assigned batches 0 with
  | Ok (m, reserved') => reserved' = 0 + map_total m
      /\ (forall uri x, in_set m uri x -> 0 <= x)
      /\ forall uri x, in_set m uri x <-> named assigned (all_rows batches) uri x
  | Err f => f <> Panicked
  end.
Proof.
  intros assigned batches.
  exact (decode_positions_exact (RB := gset_roaring) (Pool := fixed_pool 1000) [] assigned batches 0 (Z.le_refl 0)).
Defined.

(** The union loses and adds nothing: a data file's final set is the union of all
    the sets read for it, whatever read produced them, and the reservation ends at the
    size of the final sets, so it never underflows. *)
Theorem union_exact {S} {RB : Roaring S} {Laws : RoaringLaws S} {Pool : MemoryPool} secrets slack (l : list (string * S)) :
  0 <= slack ->
  match union_by_data_file secrets (slack + total_size (map snd l)) l with
  | Ok (m, reserved) => reserved = slack + map_total m
      /\ forall uri x, in_set m uri x <-> exists s, (uri, s) ∈ l /\ x ∈ rb_iter s
  | Err f => f <> Panicked
  end.
Proof. intros Hs. by apply union_by_data_file_spec. Qed.

Lemma union_exact_witness :
  let l : list (string * gset Z) := [("f", {[1; 2]}); ("g", {[5]}); ("f", {[2; 9]})] in
  match union_by_data_file (Pool := fixed_pool 1000) [] (0 + total_size (map snd l)) l with
  | Ok (m, reserved) => reserved = 0 + map_total m
      /\ forall uri x, in_set m uri x <-> exists s, (uri, s) ∈ l /\ x ∈ rb_iter s
  | Err f => f <> Panicked
  end.
Proof. intros l. exact (union_exact (Pool := fixed_pool 1000) [] 0 l (Z.le_refl 0)). Defined.

(** ** Pruning and the footer bytes *)

(** The statistics of a row group bound its file paths byte-wise. *)
Definition stats_bound (columns : list (option Statistics)) (file_path_idx : nat)
    (rows : list (option string * option Z)) : Prop :=
  forall min max, columns !! file_path_idx = Some (Some (ByteArrayStats (Some min) (Some max))) ->
  forall path pos, (Some path, pos) ∈ rows -> bytes_le min path = true /\ bytes_le path max = true.

(** Skipping a row group loses no delete: when the statistics rule a row group
    out, no row of it names a data file of the shard, so its decoding would add
    nothing. *)
Theorem pruning_loses_no_delete columns idx assigned rows uri x :
  stats_bound columns idx rows ->
  delete_row_group_may_match columns idx (map fst (map_to_list assigned)) = false ->
  ~ named assigned rows uri x.
Proof.
  intros Hb Hm (path & Hrow & Hu). unfold delete_row_group_may_match in Hm.
  destruct (columns !! idx) as [[[[min|] [max|]|]|]|] eqn:Ec; try done.
  destruct (Hb min max Ec path _ Hrow) as [H1 H2].
  assert (Hex : existsb (fun path => bytes_le min path && bytes_le path max) (map fst (map_to_list assigned)) = true).
  { apply existsb_exists. exists path. split; [|by rewrite H1, H2]. apply list_elem_of_In, list_elem_of_fmap.
    exists (path, uri). split; [done|]. by apply elem_of_map_to_list. }
  congruence.
Qed.

Lemma pruning_loses_no_delete_witness :
  ~ named {["s3://b/x" := "s3://b/x"]} [(Some "s3://a/1", Some 4); (Some "s3://a/2", Some 1)] "s3://b/x" 4.
Proof.
  apply (pruning_loses_no_delete [Some (ByteArrayStats (Some "s3://a/1") (Some "s3://a/2"))] 0).
  - intros min max [= <- <-] path pos Hin.
    repeat (apply elem_of_cons in Hin as [[= -> ->]|Hin]; [by split|]). by apply elem_of_nil in Hin.
  - reflexivity.
Defined.

(** The footer bytes are the end of the file, and a slice of them is that part of the
    file; a range that starts before them is refused. *)
Lemma footer_slice_exact (file : list Byte.byte) tail_start a b :
  0 <= tail_start <= Z.of_nat (List.length file) -> a <= b ->
  let f := {| start := tail_start; bytes := drop (Z.to_nat tail_start) file |} in
  match footer_slice f a b with
  | Ok out => out = take (Z.to_nat (b - a)) (drop (Z.to_nat a) file)
      /\ Z.of_nat (List.length out) = b - a
  | Err _ => a < tail_start \/ Z.of_nat (List.length file) < b
  end.
Proof.
  intros Ht Hab. cbv zeta. unfold footer_slice. cbn [start bytes]. rewrite length_drop.
  destruct (Z.ltb_spec a tail_start); cbn [orb]; [by left|].
  destruct (Z.ltb_spec (tail_start + Z.of_nat (List.length file - Z.to_nat tail_start)) b).
  - right. lia.
  - rewrite drop_drop. replace (Z.to_nat tail_start + Z.to_nat (a - tail_start))%nat with (Z.to_nat a) by lia.
    split; [done|]. rewrite length_take, length_drop. lia.
Qed.
