(* ===== verification/ScanSpec.v ===== *)
(** crates/lakehouse-engine/src/scan/spec.rs, the shard-invariant vocabulary of a
    scan: partial-aggregate columns, relation-qualified columns and projections,
    sort keys, and the logical schema with its nested members, each with the JSON
    the derived serde code gives it. *)

From stdpp Require Import base list strings numbers gmap.
From Stdlib Require Import Ascii String ZArith NArith Lia.
From S2P Require Import Prelude Text Json Serde.

Local Open Scope string_scope.

(** ** Aggregates *)

Inductive AggKind :=
| Count | CountCol | Sum | Min | Max | Avg
| VarPop | VarSamp | Variance | StddevPop | StddevSamp | Stddev.

#[export] Instance AggKind_eq_dec : EqDecision AggKind.
Proof. solve_decision. Defined.

Inductive PartialAggColumn :=
| PCountStar | PCountArg | PSum | PMin | PMax | PAvgSum | PAvgCnt | PStatCnt | PStatMean | PStatM2.

#[export] Instance PartialAggColumn_eq_dec : EqDecision PartialAggColumn.
Proof. solve_decision. Defined.

Definition is_counter (c : PartialAggColumn) : bool :=
  match c with PCountStar | PCountArg | PAvgCnt | PStatCnt => true | _ => false end.

Definition column_role (c : PartialAggColumn) : string :=
  match c with
  | PCountStar | PCountArg => "count"
  | PSum => "sum" | PMin => "min" | PMax => "max"
  | PAvgSum => "avg_sum" | PAvgCnt => "avg_cnt"
  | PStatCnt => "stat_cnt" | PStatMean => "stat_mean" | PStatM2 => "stat_m2"
  end.

Definition partial_column_name (c : PartialAggColumn) (ordinal : nat) : string :=
  "PARTIAL_" ++ column_role c ++ "_" ++ show_nat ordinal.

Definition is_stat (k : AggKind) : bool :=
  match k with VarPop | VarSamp | Variance | StddevPop | StddevSamp | Stddev => true | _ => false end.

Definition partial_columns (k : AggKind) : list PartialAggColumn :=
  match k with
  | Count => [PCountStar]
  | CountCol => [PCountArg]
  | Sum => [PSum]
  | Min => [PMin]
  | Max => [PMax]
  | Avg => [PAvgSum; PAvgCnt]
  | VarPop | VarSamp | Variance | StddevPop | StddevSamp | Stddev => [PStatCnt; PStatMean; PStatM2]
  end.

Record AggregatePlan := { kind : AggKind; column : option string; arg_expr : option string }.

(** ** Columns and sort keys *)

Definition relation_alias (leg : nat) : string := "LHS_T" ++ show_nat leg.

Record ColumnRef := MkColumnRef { relation : option string; name : string }.

#[export] Instance ColumnRef_eq_dec : EqDecision ColumnRef.
Proof. solve_decision. Defined.

#[export] Instance ColumnRef_countable : Countable ColumnRef.
Proof.
  refine (inj_countable' (fun c => (relation c, name c)) (fun p => MkColumnRef p.1 p.2) _). by intros [].
Defined.

Definition qualified (relation name : string) : ColumnRef := MkColumnRef (Some relation) name.
Definition bare (name : string) : ColumnRef := MkColumnRef None name.

Definition output_name (c : ColumnRef) : string :=
  match relation c with Some r => r ++ "_" ++ name c | None => name c end.

Inductive ColumnRefWire := WBare (name : string) | WQualified (relation name : string).

Definition column_ref_of_wire (w : ColumnRefWire) : ColumnRef :=
  match w with WBare n => MkColumnRef None n | WQualified r n => MkColumnRef (Some r) n end.

Definition wire_of_column_ref (c : ColumnRef) : ColumnRefWire :=
  match relation c with None => WBare (name c) | Some r => WQualified r (name c) end.

Definition column_ref_from_json (j : Json) : option ColumnRef :=
  column_ref_of_wire <$>
    match j with
    | JString s => Some (WBare s)
    | JObject f => r ← required "relation" as_str f; n ← required "name" as_str f; Some (WQualified r n)
    | _ => None
    end.

Definition column_ref_to_json (c : ColumnRef) : Json :=
  match wire_of_column_ref c with
  | WBare n => JString n
  | WQualified r n => JObject [("relation", JString r); ("name", JString n)]
  end.

Inductive ProjectionItem := PExpr (expr : string) | PColumn (column : ColumnRef).

Definition emit_name (p : ProjectionItem) : string :=
  match p with PColumn c => output_name c | PExpr e => e end.

(** The variants in declaration order: an expression, else a column. *)
Definition projection_item_from_json (j : Json) : option ProjectionItem :=
  or_else
    match j with JObject f => PExpr <$> required "expr" as_str f | _ => None end
    (PColumn <$> column_ref_from_json j).

Definition projection_item_to_json (p : ProjectionItem) : Json :=
  match p with
  | PExpr e => JObject [("expr", JString e)]
  | PColumn c => column_ref_to_json c
  end.

Record SortKey := MkSortKey { sort_column : ColumnRef; ascending : bool; nulls_last : bool }.

Definition render_ordered (expr : string) (ascending nulls_last : bool) : string :=
  expr ++ " " ++ (if ascending then "ASC" else "DESC") ++ " "
       ++ (if nulls_last then "NULLS LAST" else "NULLS FIRST").

Definition SortKey_render_ordered (k : SortKey) (expr : string) : string :=
  render_ordered expr (ascending k) (nulls_last k).

Definition render_order_by_element (k : SortKey) : string :=
  SortKey_render_ordered k (dq ++ replace_char dq_char (dq ++ dq) (output_name (sort_column k)) ++ dq).

Definition render_order_by_clause (keys : list SortKey) : string :=
  join ", " (map render_order_by_element keys).

(** ** The logical schema *)

Inductive NestedMembers : Type :=
| NList (element : option NestedMembers)
| NStruct (fields : list NestedField)
| NMap (key value : option NestedMembers)
with NestedField : Type :=
| MkNestedField (field_id : option Z) (name : string) (physical_name : option string)
    (nested : option NestedMembers).

Definition nested_field_id (f : NestedField) : option Z := let '(MkNestedField i _ _ _) := f in i.
Definition nested_name (f : NestedField) : string := let '(MkNestedField _ n _ _) := f in n.
Definition nested_physical_name (f : NestedField) : option string := let '(MkNestedField _ _ p _) := f in p.
Definition nested_members (f : NestedField) : option NestedMembers := let '(MkNestedField _ _ _ m) := f in m.

Record LogicalField := MkLogicalField {
  lf_field_id : option Z;
  lf_name : string;
  lf_arrow_type : string;
  lf_nullable : bool;
  lf_initial_default : option string;
  lf_nested : option NestedMembers;
  lf_physical_name : option string;
}.

Inductive NameMappingEntry : Type :=
| MkNameMapping (names : list string) (field_id : Z) (fields : list NameMappingEntry).

Definition mapping_names (e : NameMappingEntry) : list string := let '(MkNameMapping n _ _) := e in n.
Definition mapping_field_id (e : NameMappingEntry) : Z := let '(MkNameMapping _ i _) := e in i.
Definition mapping_fields (e : NameMappingEntry) : list NameMappingEntry := let '(MkNameMapping _ _ f) := e in f.

(** Structural induction through the options and lists of a member tree. *)
Section NestedInduction.
Variable P : NestedMembers -> Prop.
Let on (o : option NestedMembers) : Prop := forall m, o = Some m -> P m.
Variable Hlist : forall e, on e -> P (NList e).
Variable Hstruct : forall fields, Forall (fun f => on (nested_members f)) fields -> P (NStruct fields).
Variable Hmap : forall k v, on k -> on v -> P (NMap k v).

Fixpoint nested_members_ind' (m : NestedMembers) : P m :=
  let opt (o : option NestedMembers) : on o :=
    match o as o return on o with
    | None => fun m E => match E with eq_refl => I end
    | Some m' => fun m E => match E in _ = r return match r with Some m => P m | None => True end with
                            | eq_refl => nested_members_ind' m' end
    end in
  match m with
  | NList e => Hlist e (opt e)
  | NStruct fields =>
      Hstruct fields
        ((fix go (l : list NestedField) : Forall (fun f => on (nested_members f)) l :=
            match l with
            | [] => Forall_nil_2 _
            | f :: l' =>
                Forall_cons_2 (fun f => on (nested_members f)) f l'
                  (match f with MkNestedField _ _ _ n => opt n end) (go l')
            end) fields)
  | NMap k v => Hmap k v (opt k) (opt v)
  end.
End NestedInduction.

(** *** Writing *)

Fixpoint nested_to_json (m : NestedMembers) : Json :=
  let field_json (f : NestedField) : Json :=
    let '(MkNestedField field_id name physical_name nested) := f in
    JObject (skip_none "field_id" to_signed field_id
             ++ [("name", JString name)]
             ++ skip_none "physical_name" JString physical_name
             ++ match nested with None => [] | Some m => [("nested", nested_to_json m)] end)%list in
  match m with
  | NList e => JObject [("list", JObject match e with None => [] | Some m => [("element", nested_to_json m)] end)]
  | NStruct fields => JObject [("struct", JObject [("fields", JArray (map field_json fields))])]
  | NMap k v =>
      JObject [("map", JObject (match k with None => [] | Some m => [("key", nested_to_json m)] end
                                ++ match v with None => [] | Some m => [("value", nested_to_json m)] end)%list)]
  end.

Definition nested_field_to_json (f : NestedField) : Json :=
  let '(MkNestedField field_id name physical_name nested) := f in
  JObject (skip_none "field_id" to_signed field_id
           ++ [("name", JString name)]
           ++ skip_none "physical_name" JString physical_name
           ++ skip_none "nested" nested_to_json nested)%list.

Definition logical_field_to_json (f : LogicalField) : Json :=
  JObject (skip_none "field_id" to_signed (lf_field_id f)
           ++ [("name", JString (lf_name f)); ("arrow_type", JString (lf_arrow_type f));
               ("nullable", JBool (lf_nullable f))]
           ++ skip_none "initial_default" JString (lf_initial_default f)
           ++ skip_none "nested" nested_to_json (lf_nested f)
           ++ skip_none "physical_name" JString (lf_physical_name f))%list.

(** *** Reading

    An externally tagged enum is an object of one key. The recursion follows the
    document, so its depth is enough fuel. *)

Fixpoint nested_from_json_fuel (fuel : nat) (j : Json) : option NestedMembers :=
  match fuel with
  | 0 => None
  | S fuel =>
      let read := nested_from_json_fuel fuel in
      let read_field (j : Json) : option NestedField :=
        f ← struct_fields ["field_id"; "name"; "physical_name"; "nested"] j;
        field_id ← optional "field_id" (from_signed 32) f;
        name ← required "name" as_str f;
        physical_name ← optional "physical_name" as_str f;
        nested ← optional "nested" read f;
        Some (MkNestedField field_id name physical_name nested) in
      match j with
      | JObject [(tag, body)] =>
          if String.eqb tag "list" then
            f ← struct_fields ["element"] body;
            element ← optional "element" read f;
            Some (NList element)
          else if String.eqb tag "struct" then
            f ← struct_fields ["fields"] body;
            fields ← required "fields" (from_list read_field) f;
            Some (NStruct fields)
          else if String.eqb tag "map" then
            f ← struct_fields ["key"; "value"] body;
            key ← optional "key" read f;
            value ← optional "value" read f;
            Some (NMap key value)
          else None
      | _ => None
      end
  end.

Definition nested_from_json (j : Json) : option NestedMembers := nested_from_json_fuel (json_depth j) j.

Definition logical_field_from_json (j : Json) : option LogicalField :=
  f ← struct_fields ["field_id"; "name"; "arrow_type"; "nullable"; "initial_default"; "nested"; "physical_name"] j;
  field_id ← optional "field_id" (from_signed 32) f;
  name ← required "name" as_str f;
  arrow_type ← required "arrow_type" as_str f;
  nullable ← required "nullable" as_bool f;
  initial_default ← optional "initial_default" as_str f;
  nested ← optional "nested" nested_from_json f;
  physical_name ← optional "physical_name" as_str f;
  Some (MkLogicalField field_id name arrow_type nullable initial_default nested physical_name).

(** ** Names are unambiguous *)

(** Columns of different relations of a join never share an output name: equal
    output names are the same relation and the same column. *)
Theorem output_name_unambiguous leg1 leg2 name1 name2 :
  output_name (qualified (relation_alias leg1) name1) = output_name (qualified (relation_alias leg2) name2) ->
  leg1 = leg2 /\ name1 = name2.
Proof.
  unfold output_name, relation_alias. cbn [relation qualified name]. rewrite !string_app_assoc.
  intros E%string_app_inv_l. unfold show_nat in E.
  rewrite !string_app_cons, !string_app_nil_l in E.
  apply show_N_delimited in E as [E1 E2]; [|done..]. injection E2 as ->. split; [lia|done].
Qed.

Lemma output_name_unambiguous_witness :
  output_name (qualified (relation_alias 1) "2X") <> output_name (qualified (relation_alias 12) "X") /\
  (1 = 1 /\ "2X" = "2X").
Proof.
  split; [vm_compute; discriminate|]. apply (output_name_unambiguous 1 1 "2X" "2X"). reflexivity.
Defined.

Lemma partial_column_name_inj c1 c2 i j :
  partial_column_name c1 i = partial_column_name c2 j -> column_role c1 = column_role c2 /\ i = j.
Proof.
  unfold partial_column_name. intros E%string_app_inv_l.
  destruct c1, c2; cbn [column_role] in *; rewrite ?string_app_cons, ?string_app_nil_l in E; try discriminate;
    (split; [done|]); repeat (injection E as E); apply show_N_inj in E; lia.
Qed.

(** The columns one aggregate contributes, under their names. *)
Definition plan_columns (first : nat) (kinds : list AggKind) : list string :=
  List.concat (imap (fun i k => map (fun c => partial_column_name c (first + i)) (partial_columns k)) kinds).

Lemma plan_columns_cons first k kinds :
  plan_columns first (k :: kinds)
    = (map (fun c => partial_column_name c first) (partial_columns k) ++ plan_columns (S first) kinds)%list.
Proof.
  unfold plan_columns. rewrite imap_cons. cbn [List.concat]. f_equal; [by rewrite Nat.add_0_r|].
  f_equal. apply imap_ext. intros i x _. cbn. apply map_ext. intros c. f_equal. lia.
Qed.

Lemma plan_columns_ordinal first kinds n :
  n ∈ plan_columns first kinds -> exists c i, first <= i /\ n = partial_column_name c i.
Proof.
  revert first. induction kinds as [|k kinds IH]; intros first; [by intros H%elem_of_nil|].
  rewrite plan_columns_cons, elem_of_app, list_elem_of_fmap. intros [(c & -> & _)|Hin].
  - exists c, first. auto.
  - destruct (IH _ Hin) as (c & i & Hi & ->). exists c, i. split; [lia|done].
Qed.

(** Whatever the aggregates of a plan, no two partial columns share a name, so the
    shard's aliases, the declared output and the merge expressions address each one
    unambiguously. *)
Theorem partial_column_names_distinct kinds : NoDup (plan_columns 0 kinds).
Proof.
  generalize 0. induction kinds as [|k kinds IH]; intros first; [constructor|].
  rewrite plan_columns_cons. apply NoDup_app. split; [|split; [|apply IH]].
  - assert (forall c1 c2, c1 ∈ partial_columns k -> c2 ∈ partial_columns k ->
              column_role c1 = column_role c2 -> c1 = c2) as Hrole.
    { destruct k; set_solver. }
    apply NoDup_fmap_2_strong.
    + intros c1 c2 H1 H2 [E _]%partial_column_name_inj. by apply Hrole.
    + destruct k; repeat constructor; set_solver.
  - intros n Hn Hin. apply list_elem_of_fmap in Hn as (c & -> & _).
    apply plan_columns_ordinal in Hin as (c' & i & Hi & E). apply partial_column_name_inj in E as [_ ->]. lia.
Qed.

(** ** Round trips *)

Lemma column_ref_roundtrip c : column_ref_from_json (column_ref_to_json c) = Some c.
Proof. destruct c as [[r|] n]; reflexivity. Qed.

Lemma projection_item_roundtrip p : projection_item_from_json (projection_item_to_json p) = Some p.
Proof. destruct p as [e|[[r|] n]]; reflexivity. Qed.

(** Every field id of a member tree is an [i32]. *)
Fixpoint members_fit (m : NestedMembers) : Prop :=
  match m with
  | NList e => match e with None => True | Some m => members_fit m end
  | NStruct fields =>
      foldr (fun f P => (let '(MkNestedField i _ _ n) := f in
                         (forall z, i = Some z -> signed_ok 32 z) /\
                         match n with None => True | Some m => members_fit m end) /\ P) True fields
  | NMap k v =>
      match k with None => True | Some m => members_fit m end /\
      match v with None => True | Some m => members_fit m end
  end.

Definition nested_field_fits (f : NestedField) : Prop :=
  (forall z, nested_field_id f = Some z -> signed_ok 32 z) /\
  (forall m, nested_members f = Some m -> members_fit m).

Lemma struct_fit fields : members_fit (NStruct fields) -> Forall nested_field_fits fields.
Proof.
  induction fields as [|[i n p m] fields IH]; [constructor|]. cbn. intros [[Hi Hm] H]. constructor; [|auto].
  split; cbn; [done|]. by intros m' ->.
Qed.

(** The reader of a member, over a reader of its members. *)
Definition nested_field_from (read : Json -> option NestedMembers) (j : Json) : option NestedField :=
  f ← struct_fields ["field_id"; "name"; "physical_name"; "nested"] j;
  field_id ← optional "field_id" (from_signed 32) f;
  name ← required "name" as_str f;
  physical_name ← optional "physical_name" as_str f;
  nested ← optional "nested" read f;
  Some (MkNestedField field_id name physical_name nested).

(** What an option's reader returns on what its writer wrote. *)
Definition reads_back {A} (to : A -> Json) (from : Json -> option A) (o : option A) : Prop :=
  forall a, o = Some a -> from (to a) = Some a /\ to a <> JNull.

Lemma optional_here {A} key (to : A -> Json) from o pre post :
  reads_back to from o ->
  Forall (fun kv => String.eqb kv.1 key = false) (pre ++ post)%list ->
  optional key from (pre ++ skip_none key to o ++ post)%list = Some o.
Proof.
  intros Hback Hother.
  assert (forall l, Forall (fun kv : string * Json => String.eqb kv.1 key = false) l ->
            List.filter (fun kv => String.eqb kv.1 key) l = []) as Hnil.
  { induction 1 as [|x l Hx _ IH]; [done|]. cbn. by rewrite Hx. }
  apply Forall_app in Hother as [Hpre Hpost].
  unfold optional, field. rewrite !List.filter_app, (Hnil _ Hpre), (Hnil _ Hpost), app_nil_r. cbn [app].
  destruct o as [a|]; [|done]. cbn [skip_none List.filter fst]. rewrite String.eqb_refl.
  destruct (Hback a eq_refl) as [H1 H2]. cbn [mbind option_bind]. destruct (to a) eqn:E; [done|..]; by rewrite H1.
Qed.

Lemma string_reads_back o : reads_back JString as_str o.
Proof. by intros a _. Qed.

Lemma signed_reads_back bits o : (forall z, o = Some z -> signed_ok bits z) -> reads_back to_signed (from_signed bits) o.
Proof. intros H z Hz. split; [by apply signed_roundtrip, H|done]. Qed.

Lemma nested_not_null m : nested_to_json m <> JNull.
Proof. by destruct m. Qed.


Lemma nested_field_read read f :
  (forall z, nested_field_id f = Some z -> signed_ok 32 z) ->
  reads_back nested_to_json read (nested_members f) ->
  nested_field_from read (nested_field_to_json f) = Some f.
Proof.
  destruct f as [i n p m]. cbn [nested_field_id nested_members]. intros Hi Hm.
  unfold nested_field_from, nested_field_to_json. cbn [struct_fields mbind option_bind].
  pose proof (optional_here "field_id" to_signed (from_signed 32) i []
    ([("name", JString n)] ++ skip_none "physical_name" JString p ++ skip_none "nested" nested_to_json m)%list
    (signed_reads_back 32 i Hi) ltac:(destruct p, m; by repeat constructor)) as Ei.
  cbn [app] in Ei |- *. rewrite Ei. cbn [mbind option_bind].
  assert (required "name" as_str
    (skip_none "field_id" to_signed i ++ ("name", JString n) :: skip_none "physical_name" JString p
      ++ skip_none "nested" nested_to_json m)%list = Some n) as -> by (destruct i, p, m; reflexivity).
  cbn [mbind option_bind].
  pose proof (optional_here "physical_name" JString as_str p
    (skip_none "field_id" to_signed i ++ [("name", JString n)])%list (skip_none "nested" nested_to_json m)
    (string_reads_back p) ltac:(destruct i, m; by repeat constructor)) as Ep.
  rewrite <- app_assoc in Ep. cbn [app] in Ep. rewrite Ep. cbn [mbind option_bind].
  pose proof (optional_here "nested" nested_to_json read m
    (skip_none "field_id" to_signed i ++ ("name", JString n) :: skip_none "physical_name" JString p)%list []
    Hm ltac:(destruct i, p; by repeat constructor)) as Em.
  rewrite app_nil_r, <- app_assoc in Em. cbn [app] in Em. by rewrite Em.
Qed.

Lemma nested_from_json_unfold fuel j :
  nested_from_json_fuel (S fuel) j =
  match j with
  | JObject [(tag, body)] =>
      if String.eqb tag "list" then
        f ← struct_fields ["element"] body;
        element ← optional "element" (nested_from_json_fuel fuel) f;
        Some (NList element)
      else if String.eqb tag "struct" then
        f ← struct_fields ["fields"] body;
        fields ← required "fields" (from_list (nested_field_from (nested_from_json_fuel fuel))) f;
        Some (NStruct fields)
      else if String.eqb tag "map" then
        f ← struct_fields ["key"; "value"] body;
        key ← optional "key" (nested_from_json_fuel fuel) f;
        value ← optional "value" (nested_from_json_fuel fuel) f;
        Some (NMap key value)
      else None
  | _ => None
  end.
Proof. done. Qed.

Lemma nested_to_json_struct fields :
  nested_to_json (NStruct fields) = JObject [("struct", JObject [("fields", JArray (map nested_field_to_json fields))])].
Proof.
  assert (forall l, map (fun f : NestedField =>
      let '(MkNestedField field_id name physical_name nested) := f in
      JObject (skip_none "field_id" to_signed field_id ++ [("name", JString name)]
        ++ skip_none "physical_name" JString physical_name
        ++ match nested with None => [] | Some m => [("nested", nested_to_json m)] end)%list) l
    = map nested_field_to_json l) as E; [|cbn [nested_to_json]; by rewrite E].
  intros l. apply map_ext. by intros [i n p [m|]].
Qed.

(** The members of a tree, below the document that holds them. *)
Lemma nested_field_shallower f m fields :
  f ∈ fields -> nested_members f = Some m ->
  json_depth (nested_to_json m) < json_depth (JArray (map nested_field_to_json fields)).
Proof.
  intros Hin Hm.
  assert (shallower (nested_field_to_json f) (JArray (map nested_field_to_json fields))) as H1
    by (apply array_item_shallower, list_elem_of_fmap_2; done).
  assert (shallower (nested_to_json m) (nested_field_to_json f)) as H2.
  { destruct f as [i n p m']. cbn in Hm. subst m'. cbn [nested_field_to_json].
    apply (object_member_shallower _ "nested"). cbn [skip_none]. set_solver. }
  unfold shallower in *. lia.
Qed.

Lemma nested_reads m fuel :
  members_fit m -> json_depth (nested_to_json m) <= fuel -> nested_from_json_fuel fuel (nested_to_json m) = Some m.
Proof.
  revert fuel. induction m as [e IH|fields IH|k v IHk IHv] using nested_members_ind'; intros fuel Hfit Hd.
  all: destruct fuel as [|fuel]; [cbn in Hd; lia|]; rewrite nested_from_json_unfold.
  - assert (reads_back nested_to_json (nested_from_json_fuel fuel) e) as Hb.
    { intros m ->. split; [|apply nested_not_null]. apply IH; [done|exact Hfit|]. cbn in Hd. lia. }
    pose proof (optional_here "element" _ _ e [] [] Hb ltac:(constructor)) as E.
    rewrite app_nil_r in E. cbn [app] in E.
    change (nested_to_json (NList e)) with (JObject [("list", JObject (skip_none "element" nested_to_json e))]).
    cbn [String.eqb Ascii.eqb Bool.eqb struct_fields mbind option_bind]. by rewrite E.
  - rewrite nested_to_json_struct in *. cbn [String.eqb Ascii.eqb Bool.eqb struct_fields mbind option_bind].
    assert (required "fields" (from_list (nested_field_from (nested_from_json_fuel fuel)))
      [("fields", JArray (map nested_field_to_json fields))] = Some fields) as ->; [|done].
    unfold required. cbn [field List.filter fst String.eqb Ascii.eqb Bool.eqb mbind option_bind].
    apply from_list_roundtrip. apply struct_fit in Hfit. rewrite Forall_forall in *. intros f Hin.
    destruct (Hfit f Hin) as [Hi Hm]. apply nested_field_read; [done|].
    intros m Em. split; [|apply nested_not_null]. apply (IH f Hin m Em); [auto|].
    pose proof (nested_field_shallower f m fields Hin Em).
    cbn [json_depth snd] in *. lia.
  - cbn [members_fit] in Hfit. destruct Hfit as [Hk Hv].
    assert (reads_back nested_to_json (nested_from_json_fuel fuel) k) as Hbk.
    { intros m ->. split; [|apply nested_not_null]. apply IHk; [done|exact Hk|]. cbn in Hd. lia. }
    assert (reads_back nested_to_json (nested_from_json_fuel fuel) v) as Hbv.
    { intros m ->. split; [|apply nested_not_null]. apply IHv; [done|exact Hv|]. cbn in Hd. destruct k; cbn in Hd; lia. }
    pose proof (optional_here "key" _ _ k [] (skip_none "value" nested_to_json v) Hbk ltac:(destruct v; by repeat constructor)) as Ek.
    pose proof (optional_here "value" _ _ v (skip_none "key" nested_to_json k) [] Hbv ltac:(destruct k; by repeat constructor)) as Ev.
    rewrite app_nil_r in Ev. cbn [app] in Ek.
    change (nested_to_json (NMap k v))
      with (JObject [("map", JObject (skip_none "key" nested_to_json k ++ skip_none "value" nested_to_json v)%list)]).
    cbn [String.eqb Ascii.eqb Bool.eqb struct_fields mbind option_bind].
    by rewrite Ek, Ev.
Qed.

Definition logical_field_fits (f : LogicalField) : Prop :=
  (forall z, lf_field_id f = Some z -> signed_ok 32 z) /\ (forall m, lf_nested f = Some m -> members_fit m).

(** Reads the fields of an object written field by field: each is found among the
    keys of the others. *)
Lemma logical_field_roundtrip f : logical_field_fits f -> logical_field_from_json (logical_field_to_json f) = Some f.
Proof.
  destruct f as [i n a b d m p]. intros [Hi Hm]. cbn [lf_field_id lf_nested] in *.
  unfold logical_field_from_json, logical_field_to_json.
  cbn [struct_fields mbind option_bind lf_field_id lf_name lf_arrow_type lf_nullable lf_initial_default lf_nested lf_physical_name].
  set (fi := skip_none "field_id" to_signed i). set (fd := skip_none "initial_default" JString d).
  set (fm := skip_none "nested" nested_to_json m). set (fp := skip_none "physical_name" JString p).
  set (fx := [("name", JString n); ("arrow_type", JString a); ("nullable", JBool b)]).
  assert (optional "field_id" (from_signed 32) (fi ++ fx ++ fd ++ fm ++ fp)%list = Some i) as ->.
  { apply (optional_here _ _ _ _ []); [by apply signed_reads_back|]. subst fd fm fp fx. destruct d, m, p; by repeat constructor. }
  assert (required "name" as_str (fi ++ fx ++ fd ++ fm ++ fp)%list = Some n) as ->
    by (subst fi fx fd fm fp; destruct i, d, m, p; reflexivity).
  assert (required "arrow_type" as_str (fi ++ fx ++ fd ++ fm ++ fp)%list = Some a) as ->
    by (subst fi fx fd fm fp; destruct i, d, m, p; reflexivity).
  assert (required "nullable" as_bool (fi ++ fx ++ fd ++ fm ++ fp)%list = Some b) as ->
    by (subst fi fx fd fm fp; destruct i, d, m, p; reflexivity).
  assert (optional "initial_default" as_str (fi ++ fx ++ fd ++ fm ++ fp)%list = Some d) as ->.
  { pose proof (optional_here "initial_default" JString as_str d (fi ++ fx) (fm ++ fp) (string_reads_back d)) as E.
    rewrite <- !app_assoc in E. apply E. subst fi fm fp fx. destruct i, m, p; by repeat constructor. }
  assert (optional "nested" nested_from_json (fi ++ fx ++ fd ++ fm ++ fp)%list = Some m) as ->.
  { pose proof (optional_here "nested" nested_to_json nested_from_json m (fi ++ fx ++ fd) fp) as E.
    rewrite <- !app_assoc in E. apply E.
    - intros x Hx. split; [apply nested_reads; [by apply Hm|done]|apply nested_not_null].
    - subst fi fd fp fx. destruct i, d, p; by repeat constructor. }
  assert (optional "physical_name" as_str (fi ++ fx ++ fd ++ fm ++ fp)%list = Some p) as ->; [|done].
  pose proof (optional_here "physical_name" JString as_str p (fi ++ fx ++ fd ++ fm) [] (string_reads_back p)) as E.
  rewrite !app_nil_r, <- !app_assoc in E. apply E. subst fi fd fm fx. destruct i, d, m; by repeat constructor.
Qed.

(** *** Fuel *)

(** Enough fuel does not change what is read. *)
Lemma optional_ext {A} key (f g : Json -> option A) m :
  (forall v, shallower v (JObject m) -> f v = g v) -> optional key f m = optional key g m.
Proof.
  intros H. unfold optional, field.
  assert (forall kv, kv ∈ List.filter (fun kv : string * Json => String.eqb kv.1 key) m -> f kv.2 = g kv.2) as Hin.
  { intros [k v] Hk. apply H. apply (object_member_shallower _ k).
    apply list_elem_of_In, List.filter_In in Hk as [Hk _]. by apply list_elem_of_In. }
  destruct (List.filter _ m) as [|[k v] [|]]; cbn; try done.
  pose proof (Hin (k, v) ltac:(set_solver)) as E. cbn in E. destruct v; try done; by rewrite E.
Qed.

Lemma from_list_ext {A} (f g : Json -> option A) j :
  (forall v, shallower v j -> f v = g v) -> from_list f j = from_list g j.
Proof.
  intros H. destruct j as [| | | |l|]; try done. unfold from_list. cbn.
  assert (forall x, x ∈ l -> f x = g x) as Hl by (intros x Hx; apply H; by apply array_item_shallower).
  clear H. induction l as [|x l IH]; [done|]. cbn. rewrite (Hl x) by set_solver.
  destruct (g x); [|done]. cbn. rewrite IH; [done|]. set_solver.
Qed.

(** What [struct_fields] yields lies below the document. *)
Lemma struct_fields_shallower names j f v :
  struct_fields names j = Some f -> shallower v (JObject f) -> json_depth v < json_depth j.
Proof.
  destruct j as [| | | |l|m]; cbn [struct_fields]; try done; [|by intros [= ->]].
  destruct (_ <=? _)%nat; [|done]. intros [= <-] Hv. unfold shallower in Hv.
  enough (json_depth (JObject (zip names l)) <= json_depth (JArray l)) by lia.
  clear Hv. revert names. cbn [json_depth]. induction l as [|x l IH]; intros [|n names]; cbn [zip zip_with snd]; try lia.
  specialize (IH names). lia.
Qed.

(** As many rounds as the document is deep are enough: more change nothing. *)
Lemma nested_from_json_fuel_enough fuel fuel' j :
  json_depth j <= fuel -> json_depth j <= fuel' -> nested_from_json_fuel fuel j = nested_from_json_fuel fuel' j.
Proof.
  revert fuel' j. induction fuel as [|fuel IH]; intros [|fuel'] j H1 H2;
    try (destruct j; cbn in *; lia).
  rewrite !nested_from_json_unfold. destruct j as [| | | | |[|[tag body] [|]]]; try done.
  cbn [json_depth snd] in H1, H2.
  assert (forall v, json_depth v < json_depth body ->
            nested_from_json_fuel fuel v = nested_from_json_fuel fuel' v) as Hread.
  { intros v Hv. apply IH; lia. }
  destruct (String.eqb tag "list"); [|destruct (String.eqb tag "struct"); [|destruct (String.eqb tag "map"); [|done]]].
  - destruct (struct_fields _ body) as [f|] eqn:E; [|done]. cbn.
    rewrite (optional_ext "element" _ (nested_from_json_fuel fuel')); [done|].
    intros v Hv. apply Hread. by eapply struct_fields_shallower.
  - destruct (struct_fields _ body) as [f|] eqn:E; [|done]. cbn. unfold required.
    destruct (field "fields" f) as [[j|]|] eqn:Ef; try done. cbn.
    rewrite (from_list_ext _ (nested_field_from (nested_from_json_fuel fuel'))); [done|].
    intros v Hv. unfold nested_field_from.
    destruct (struct_fields _ v) as [g|] eqn:Eg; [|done]. cbn.
    rewrite (optional_ext "nested" _ (nested_from_json_fuel fuel')); [done|].
    intros w Hw. apply Hread. pose proof (struct_fields_shallower _ _ _ _ Eg Hw).
    assert (json_depth j < json_depth body); [|unfold shallower in Hv; lia].
    eapply struct_fields_shallower; [exact E|].
    unfold field in Ef. destruct (List.filter _ f) as [|[k w'] [|]] eqn:Efl; try done. injection Ef as ->.
    apply (object_member_shallower _ k). apply list_elem_of_In.
    eapply proj1, List.filter_In. rewrite Efl. by left.
  - destruct (struct_fields _ body) as [f|] eqn:E; [|done]. cbn.
    rewrite (optional_ext "key" _ (nested_from_json_fuel fuel')),
            (optional_ext "value" _ (nested_from_json_fuel fuel')); [done|..];
      intros v Hv; apply Hread; by eapply struct_fields_shallower.
Qed.
