(* ===== verification/ColumnNotes.v ===== *)
(** crates/lakehouse-engine/src/adapter/column_notes.rs: the declaration a virtual
    column's [adapterNotes] carries, its size limit, and the parse of a table's
    notes into the schema a pushdown plans from. *)

From stdpp Require Import base list strings numbers sorting.
From Stdlib Require Import Ascii String ZArith NArith Lia Sorted.
From S2P Require Import Prelude Text Json Serde ScanSpec.

Local Open Scope string_scope.

Definition MAX_COLUMN_NOTE_CHARS : nat := Z.to_nat 2000000.

Record RefusedColumn := MkRefusedColumn { column_name : string; reason : string }.

(** The position is a [usize]. *)
Record ColumnDeclaration := MkColumnDeclaration {
  source_type : LogicalField;
  partition : option N;
  refused : option string;
}.

Definition declaration_to_json (d : ColumnDeclaration) : Json :=
  JObject ([("sourceType", logical_field_to_json (source_type d))]
           ++ skip_none "partition" to_u64 (partition d)
           ++ skip_none "refused" JString (refused d))%list.

Definition declaration_from_json (j : Json) : option ColumnDeclaration :=
  f ← struct_fields ["sourceType"; "partition"; "refused"] j;
  source_type ← required "sourceType" logical_field_from_json f;
  partition ← optional "partition" from_u64 f;
  refused ← optional "refused" as_str f;
  Some (MkColumnDeclaration source_type partition refused).

(** [str::chars().count()]: the bytes that do not continue a character. *)
Fixpoint chars_count (s : string) : nat :=
  match s with
  | EmptyString => 0
  | String c s' => (if ((128 <=? code c) && (code c <? 192))%N then 0 else 1) + chars_count s'
  end.

Definition checked_note (table column note : string) : result UdfError string :=
  let length := chars_count note in
  if (MAX_COLUMN_NOTE_CHARS <? length)%nat
  then Err (User ("the declaration note of column '" ++ column ++ "' in table '" ++ table ++ "' is "
         ++ show_nat length ++ " characters long, over the " ++ show_nat MAX_COLUMN_NOTE_CHARS
         ++ " characters Exasol persists for one column"))
  else Ok note.

Record DeclaredSchema := MkDeclaredSchema {
  table : string;
  logical_schema : list LogicalField;
  partition_columns : list string;
  refused_columns : list RefusedColumn;
}.

Record TableNotes := MkTableNotes {
  notes_table : string;
  columns : list (string * option string);
}.

(** [slice::sort_by_key], stable, on a position. *)
Fixpoint insert_by_key (x : N * string) (l : list (N * string)) : list (N * string) :=
  match l with
  | [] => [x]
  | y :: l' => if (x.1 <=? y.1)%N then x :: l else y :: insert_by_key x l'
  end.

Definition sort_by_key (l : list (N * string)) : list (N * string) := foldr insert_by_key [] l.

Definition ensure_scannable (s : DeclaredSchema) : result UdfError unit :=
  match logical_schema s, refused_columns s with
  | [], _ :: _ =>
      let reasons := join "; " (map (fun c => "'" ++ column_name c ++ "': " ++ reason c) (refused_columns s)) in
      Err (User ("virtual table '" ++ table s ++ "' has no mappable column; every column is refused: " ++ reasons))
  | _, _ =>
      match List.find (fun c => existsb (String.eqb (column_name c)) (partition_columns s)) (refused_columns s) with
      | None => Ok tt
      | Some c =>
          Err (User ("virtual table '" ++ table s ++ "' declares '" ++ column_name c
                 ++ "' as a partition column, but that column is refused (" ++ reason c
                 ++ "); the scan cannot materialize a partition column absent from the logical schema"))
      end
  end.

Section Notes.
(** [serde_json]: the text of a document, the document of a text, and the message
    of a text that is no document or no declaration. *)
Variable print : Json -> string.
Variable parse : string -> option Json.
Variable describe : string -> string.

Definition encode (d : ColumnDeclaration) : string := print (declaration_to_json d).

Definition unreadable (t : TableNotes) (column cause : string) : UdfError :=
  User ("the declaration note of column '" ++ column ++ "' in virtual table '" ++ notes_table t
    ++ "' is missing or unreadable; ALTER VIRTUAL SCHEMA ... REFRESH rebuilds it (" ++ cause ++ ")").

Definition read_note (t : TableNotes) (column : string) (note : option string) : result UdfError ColumnDeclaration :=
  match note with
  | None => Err (unreadable t column "the column carries no note")
  | Some note => ok_or (parse note ≫= declaration_from_json) (unreadable t column (describe note))
  end.

(** The loop: the logical schema, the refused columns and the partition positions
    gathered so far. *)
Fixpoint gather (t : TableNotes) (l : list (string * option string))
    (logical : list LogicalField) (refused_cols : list RefusedColumn) (partitions : list (N * string))
    : result UdfError (list LogicalField * list RefusedColumn * list (N * string)) :=
  match l with
  | [] => Ok (logical, refused_cols, partitions)
  | (column, note) :: l' =>
      let? declaration := read_note t column note in
      let field := source_type declaration in
      let partitions :=
        match partition declaration with
        | Some position => (partitions ++ [(position, lf_name field)])%list
        | None => partitions
        end in
      match refused declaration with
      | Some reason => gather t l' logical (refused_cols ++ [MkRefusedColumn (lf_name field) reason])%list partitions
      | None => gather t l' (logical ++ [field])%list refused_cols partitions
      end
  end.

Definition declared_schema (t : TableNotes) : result UdfError DeclaredSchema :=
  let? (logical, refused_cols, partitions) := gather t (columns t) [] [] [] in
  let declared :=
    MkDeclaredSchema (notes_table t) logical (map snd (sort_by_key partitions)) refused_cols in
  let? _ := ensure_scannable declared in
  Ok declared.
End Notes.

(** ** Refusal texts *)

Definition unread_type_cause (declared : string) : string :=
  "has type '" ++ declared ++ "', which this engine does not read".

Definition variant_cause : string :=
  "has type 'variant', whose on-disk form is an opaque (metadata, value) binary pair this engine cannot render as a meaningful value".

Definition column_refusal (label column : string) (member_path : option string) (cause : string) : string :=
  let subject :=
    match member_path with
    | Some member_path => label ++ " column '" ++ column ++ "', whose member '" ++ member_path ++ "'"
    | None => label ++ " column '" ++ column ++ "'"
    end in
  subject ++ " " ++ cause.

(** ** The sort *)

Lemma insert_by_key_perm x l : insert_by_key x l ≡ₚ x :: l.
Proof.
  induction l as [|y l IH]; cbn; [done|]. destruct (_ <=? _)%N; [done|]. rewrite IH. apply Permutation_swap.
Qed.

Lemma sort_by_key_perm l : sort_by_key l ≡ₚ l.
Proof. induction l as [|x l IH]; [done|]. cbn. by rewrite insert_by_key_perm, IH. Qed.

Definition by_position (a b : N * string) : Prop := (a.1 <= b.1)%N.

Lemma insert_by_key_sorted x l : StronglySorted by_position l -> StronglySorted by_position (insert_by_key x l).
Proof.
  induction 1 as [|y l Hl IH Hy]; cbn; [repeat constructor|].
  destruct (N.leb_spec x.1 y.1) as [H|H].
  - constructor; [by constructor|]. constructor; [done|].
    eapply Forall_impl; [exact Hy|]. unfold by_position. intros z Hz. cbn in *. lia.
  - constructor; [done|]. rewrite insert_by_key_perm. constructor; [unfold by_position; lia|done].
Qed.

Lemma sort_by_key_sorted l : StronglySorted by_position (sort_by_key l).
Proof. induction l as [|x l IH]; [constructor|]. by apply insert_by_key_sorted. Qed.

(** ** Round trip *)

Definition declaration_fits (d : ColumnDeclaration) : Prop :=
  logical_field_fits (source_type d) /\ (forall n, partition d = Some n -> u64_ok n).

Lemma declaration_roundtrip d : declaration_fits d -> declaration_from_json (declaration_to_json d) = Some d.
Proof.
  destruct d as [f p r]. intros [Hf Hp]. cbn [source_type partition] in *.
  unfold declaration_from_json, declaration_to_json. cbn [struct_fields mbind option_bind source_type partition refused].
  set (ff := [("sourceType", logical_field_to_json f)]).
  assert (required "sourceType" logical_field_from_json
            (ff ++ skip_none "partition" to_u64 p ++ skip_none "refused" JString r)%list = Some f) as ->.
  { unfold required, field. subst ff. destruct p, r; cbn -[logical_field_from_json logical_field_to_json];
      by apply logical_field_roundtrip. }
  assert (optional "partition" from_u64 (ff ++ skip_none "partition" to_u64 p ++ skip_none "refused" JString r)%list
          = Some p) as ->.
  { apply optional_here; [|subst ff; destruct r; by repeat constructor].
    intros n Hn. split; [by apply u64_roundtrip, Hp|done]. }
  assert (optional "refused" as_str (ff ++ skip_none "partition" to_u64 p ++ skip_none "refused" JString r)%list
          = Some r) as ->; [|done].
  pose proof (optional_here "refused" JString as_str r (ff ++ skip_none "partition" to_u64 p) [] (string_reads_back r)) as E.
  rewrite !app_nil_r, <- !app_assoc in E. apply E. subst ff. destruct p; by repeat constructor.
Qed.

(** What the notes of a table mean. *)
Definition accepted_fields (ds : list ColumnDeclaration) : list LogicalField :=
  map source_type (List.filter (fun d => negb (bool_decide (is_Some (refused d)))) ds).
Definition refused_of (ds : list ColumnDeclaration) : list RefusedColumn :=
  omap (fun d => MkRefusedColumn (lf_name (source_type d)) <$> refused d) ds.
Definition positions_of (ds : list ColumnDeclaration) : list (N * string) :=
  omap (fun d => (fun n => (n, lf_name (source_type d))) <$> partition d) ds.

Section Spec.
Variable print : Json -> string.
Variable parse : string -> option Json.
Variable describe : string -> string.

(** A note that was printed and not altered. *)
Definition legible (d : ColumnDeclaration) : Prop :=
  parse (print (declaration_to_json d)) = Some (declaration_to_json d).

Definition notes_of (ds : list (string * ColumnDeclaration)) : list (string * option string) :=
  map (fun '(c, d) => (c, Some (encode print d))) ds.

Lemma gather_notes t ds logical refused_cols partitions :
  Forall (fun cd => declaration_fits cd.2 /\ legible cd.2) ds ->
  gather parse describe t (notes_of ds) logical refused_cols partitions
    = Ok ((logical ++ accepted_fields (map snd ds))%list, (refused_cols ++ refused_of (map snd ds))%list,
          (partitions ++ positions_of (map snd ds))%list).
Proof.
  revert logical refused_cols partitions. induction ds as [|[c d] ds IH]; intros logical refused_cols partitions Hall.
  - cbn. by rewrite !app_nil_r.
  - apply Forall_cons in Hall as [[Hfit Hleg] Hall]. cbn [snd] in *.
    cbn [notes_of map gather read_note]. unfold encode. rewrite Hleg. cbn [mbind option_bind].
    rewrite declaration_roundtrip by done. cbn [ok_or].
    destruct d as [f p r]. cbn [source_type partition refused] in *.
    destruct r as [r|]; fold (notes_of ds); rewrite (IH _ _ _ Hall);
      unfold accepted_fields, refused_of, positions_of; destruct p; cbn; by rewrite <- ?app_assoc.
Qed.

(** The notes a virtual schema was created with are read back as its declared
    schema: the accepted columns in order, the refused ones with their reasons, and
    the partition columns in the order of their recorded positions, unless that
    schema cannot be scanned, which is refused. *)
Theorem declared_schema_roundtrip name ds :
  Forall (fun cd => declaration_fits cd.2 /\ legible cd.2) ds ->
  exists partitions,
    partitions ≡ₚ positions_of (map snd ds) /\ StronglySorted by_position partitions /\
    declared_schema parse describe (MkTableNotes name (notes_of ds))
      = let s := MkDeclaredSchema name (accepted_fields (map snd ds)) (map snd partitions) (refused_of (map snd ds)) in
        let? _ := ensure_scannable s in Ok s.
Proof.
  intros Hall. exists (sort_by_key (positions_of (map snd ds))).
  split; [apply sort_by_key_perm|]. split; [apply sort_by_key_sorted|].
  unfold declared_schema. cbn [columns notes_table]. by rewrite gather_notes.
Qed.

(** Whatever notes a pushdown accepts, every partition column is in the logical
    schema or in no column at all: none is refused; and at least one column can be
    read unless the table has none. *)
Theorem accepted_schema_scannable t s :
  declared_schema parse describe t = Ok s ->
  (forall c, c ∈ refused_columns s -> column_name c ∉ partition_columns s) /\
  (logical_schema s = [] -> refused_columns s = []).
Proof.
  unfold declared_schema. destruct (gather _ _ _ _ _ _ _) as [[[l r] p]|]; [|done].
  set (d := MkDeclaredSchema _ _ _ _). destruct (ensure_scannable d) eqn:E; [|done]. intros [= <-].
  unfold ensure_scannable in E.
  assert (List.find (fun c => existsb (String.eqb (column_name c)) (partition_columns d)) (refused_columns d) = None
          /\ (logical_schema d = [] -> refused_columns d = [])) as [Hfind Hempty].
  { destruct (logical_schema d), (refused_columns d); try done; destruct (List.find _ _); done. }
  split; [|done]. intros c Hc Hp. apply list_elem_of_In in Hc.
  pose proof (List.find_none _ _ Hfind c Hc) as Hn. cbn in Hn. apply not_true_iff_false in Hn. apply Hn.
  apply existsb_exists. exists (column_name c). split; [by apply list_elem_of_In|apply String.eqb_refl].
Qed.
End Spec.

(** A table of three columns, one refused, partitioned by two. *)
Definition sample_notes : list (string * ColumnDeclaration) :=
  [("DAY", MkColumnDeclaration (MkLogicalField (Some 3%Z) "day" "date32" false None None None) (Some 1%N) None);
   ("REGION", MkColumnDeclaration (MkLogicalField None "region" "utf8" true None None (Some "col-7")) (Some 0%N) None);
   ("BLOB", MkColumnDeclaration (MkLogicalField None "blob" "utf8" true None None None) None (Some variant_cause))].

(** A printer whose texts are legible: each note's text is the column's name. *)
Definition sample_parse (s : string) : option Json :=
  match List.find (fun cd => String.eqb (lf_name (source_type cd.2)) s) sample_notes with
  | Some cd => Some (declaration_to_json cd.2)
  | None => None
  end.
Definition sample_print (j : Json) : string :=
  match get j "sourceType" with Some f => match get f "name" with Some (JString s) => s | _ => "" end | None => "" end.

Lemma sample_notes_legible :
  Forall (fun cd => declaration_fits cd.2 /\ legible sample_print sample_parse cd.2) sample_notes.
Proof.
  unfold sample_notes. rewrite !Forall_cons.
  repeat split; try done; intros; cbn in *; simplify_eq; unfold u64_ok, u64_max; cbn; lia.
Qed.

Lemma declared_schema_roundtrip_witness :
  exists s, declared_schema sample_parse (fun _ => "") (MkTableNotes "T" (notes_of sample_print sample_notes)) = Ok s
            /\ partition_columns s = ["region"; "day"] /\ logical_schema s <> [].
Proof.
  destruct (declared_schema_roundtrip sample_print sample_parse (fun _ => "") "T" sample_notes sample_notes_legible)
    as (ps & Hp & Hs & E).
  eexists. split; [vm_compute; reflexivity|]. split; [reflexivity|discriminate].
Defined.

Definition sample_schema : DeclaredSchema :=
  MkDeclaredSchema "T" (accepted_fields (map snd sample_notes)) ["region"; "day"] [MkRefusedColumn "blob" variant_cause].

Lemma accepted_schema_scannable_witness : "blob" ∉ partition_columns sample_schema.
Proof.
  refine (proj1 (accepted_schema_scannable sample_parse (fun _ => "")
    (MkTableNotes "T" (notes_of sample_print sample_notes)) sample_schema _)
    (MkRefusedColumn "blob" variant_cause) _).
  - vm_compute. reflexivity.
  - by apply list_elem_of_In; left.
Defined.
