(* ===== verification/ColumnTypes.v ===== *)
(** crates/lakehouse-engine/src/adapter/pushdown/support.rs, the column types a
    request's [column] nodes resolve against, with the raw-byte layout of binary
    columns (pushdown/binary_filter.rs) and the reading of an involved table. *)

From stdpp Require Import base list strings numbers gmap.
From Stdlib Require Import Ascii String ZArith NArith Lia.
From S2P Require Import Prelude Json ExasolType ColumnNode ArrowTypes TypeMapping ScanSpec ColumnNotes.

Local Open Scope string_scope.

Inductive BinaryLayout := Variable_ | Fixed_ (width : Z).

#[export] Instance BinaryLayout_eq_dec : EqDecision BinaryLayout.
Proof. solve_decision. Defined.

Definition layout_of (field : LogicalField) (binary_as_string : bool) : option BinaryLayout :=
  match arrow_type_from_tag (lf_arrow_type field) with
  | TBinary => if binary_as_string then None else Some Variable_
  | TFixedSizeBinary width => Some (Fixed_ width)
  | _ => None
  end.

(** The part of a join alias and a column's uppercase name. *)
Definition column_node_ref {UC : UnicodeCase} (node : Json) : option ColumnRef :=
  column ← ColumnNode.parse node;
  Some (MkColumnRef (ColumnNode.table_alias column) (ColumnNode.upper_name column)).

Definition binds_column (entry column : ColumnRef) : bool :=
  String.eqb (name entry) (name column)
  && (match relation entry with None => true | Some _ => bool_decide (relation entry = relation column) end).

Record ColumnType := MkColumnType { exa_type : ExasolType; binary : option BinaryLayout }.

Definition ColumnTypes : Type := list (ColumnRef * ColumnType).

Record ProjectedColumn := MkProjected { item : ProjectionItem; projected_type : ExasolType }.

Definition projection_items (projection : list ProjectedColumn) : list ProjectionItem := map item projection.

(** One involved table's columns, as declared. *)
Record InvolvedColumns := MkInvolved { types : list (string * ExasolType); notes : TableNotes }.

Section Columns.
Context {UC : UnicodeCase} {JD : JsonDisplay}.

(** The first declared field of a name wins ([or_insert]). *)
Definition declared_by_name (declared : list LogicalField) (upper : string) : option LogicalField :=
  List.find (fun f => String.eqb (to_uppercase (lf_name f)) upper) declared.

Definition column_types_of (involved : InvolvedColumns) (declared : list LogicalField) (binary_as_string : bool) : ColumnTypes :=
  map (fun '(n, t) =>
         (bare n, MkColumnType t (f ← declared_by_name declared n; layout_of f binary_as_string)))
    (types involved).

Definition per_relation (relations : list (string * ColumnTypes)) : ColumnTypes :=
  List.concat (map (fun '(relation, columns) => map (fun '(c, t) => (qualified relation (name c), t)) columns) relations).

Definition concat_types (maps : list ColumnTypes) : ColumnTypes := List.concat maps.

Definition narrowed (types : ColumnTypes) (keep : ColumnRef -> bool) : ColumnTypes :=
  List.filter (fun ct => keep ct.1) types.

Definition first_only (types : ColumnTypes) : ColumnTypes := take 1 types.

Definition full_projection (types : ColumnTypes) : list ProjectedColumn :=
  map (fun '(c, t) => MkProjected (PColumn c) (exa_type t)) types.

Definition entry (types : ColumnTypes) (column : ColumnRef) : option (ColumnRef * ColumnType) :=
  List.find (fun ct => binds_column ct.1 column) types.

Definition get_type (types : ColumnTypes) (column : ColumnRef) : option ColumnType := snd <$> entry types column.

Definition resolve (types : ColumnTypes) (node : Json) : option (ColumnRef * ColumnType) :=
  column_node_ref node ≫= entry types.

Definition column_exa_type (node : Json) (types : ColumnTypes) : option ExasolType :=
  (fun ct => exa_type ct.2) <$> resolve types node.

(** A column without a name is skipped; one without a valid type fails the request. *)
Definition involved_column (column : Json) : option (result UdfError ((string * ExasolType) * (string * option string))) :=
  n ← get_str column "name";
  Some (let? data_type :=
          match get column "dataType" with
          | None => Err (User ("involved column " ++ n ++ " declares no dataType"))
          | Some dt => exasol_type_from_json dt
          end in
        Ok ((to_uppercase n, data_type), (n, get_str column "adapterNotes"))).

Definition involved_columns (request : Json) (select_table : list Json -> option Json) : result UdfError InvolvedColumns :=
  let table := get_array request "involvedTables" ≫= select_table in
  let columns := default [] (t ← table; get_array t "columns") in
  let? rows := try_map id (omap involved_column columns) in
  Ok (MkInvolved (map fst rows)
        (MkTableNotes (default "" (t ← table; get_str t "name")) (map snd rows))).
End Columns.

(** ** Resolution *)

Lemma binds_bare n column : binds_column (bare n) column = String.eqb n (name column).
Proof. unfold binds_column. cbn. by rewrite andb_true_r. Qed.

Lemma binds_qualified r n column :
  binds_column (qualified r n) column = true <-> name column = n /\ relation column = Some r.
Proof.
  unfold binds_column. cbn [name relation qualified]. rewrite andb_true_iff, String.eqb_eq, bool_decide_eq_true. naive_solver.
Qed.

Lemma find_app {A} (p : A -> bool) l l' : List.find p (l ++ l')%list = match List.find p l with Some x => Some x | None => List.find p l' end.
Proof. induction l as [|x l IH]; [done|]. cbn. by destruct (p x). Qed.

Lemma find_none_all {A} (p : A -> bool) l : (forall x, x ∈ l -> p x = false) -> List.find p l = None.
Proof. induction l as [|x l IH]; intros H; [done|]. cbn. rewrite H by set_solver. apply IH. set_solver. Qed.

(** In a join's column map a column qualified by a leg's alias resolves in that leg's
    own columns, and in no other leg's, even where the legs share column names. *)
Theorem join_columns_resolve_in_their_leg {UC : UnicodeCase} (relations : list (string * ColumnTypes)) i r columns n t :
  NoDup (map fst relations) -> relations !! i = Some (r, columns) ->
  Forall (fun ct => relation ct.1 = None) columns ->
  get_type (per_relation relations) (qualified r n) = Some t <-> get_type columns (bare n) = Some t.
Proof.
  intros Hn Hi Hbare. unfold get_type, entry.
  enough (List.find (fun ct => binds_column ct.1 (qualified r n)) (per_relation relations)
          = (fun '(c, t) => (qualified r (name c), t)) <$> List.find (fun ct => binds_column ct.1 (bare n)) columns) as ->.
  { destruct (List.find _ columns) as [[c t']|]; done. }
  revert i Hi. induction relations as [|[r' cols] rest IH]; intros i Hi; [by rewrite lookup_nil in Hi|].
  apply NoDup_cons in Hn as [Hr Hn]. unfold per_relation in *. cbn [map List.concat]. rewrite find_app.
  destruct i as [|i]; cbn in Hi.
  - injection Hi as -> ->.
    assert (List.find (fun ct => binds_column ct.1 (qualified r n)) (map (fun '(c, t) => (qualified r (name c), t)) columns)
            = (fun '(c, t) => (qualified r (name c), t)) <$> List.find (fun ct => binds_column ct.1 (bare n)) columns) as ->.
    { clear IH Hr. induction columns as [|[c ct] columns IHc]; [done|]. apply Forall_cons in Hbare as [Hc Hbare].
      cbn [map List.find fst] in *. unfold binds_column at 1 3. cbn [name relation qualified bare]. rewrite Hc.
      rewrite bool_decide_eq_true_2 by done. rewrite !andb_true_r.
      destruct (String.eqb (name c) n); [done|]. by apply IHc. }
    destruct (List.find _ columns); [done|]. cbn. apply find_none_all. intros [c ct] Hin.
    apply list_elem_of_In, List.in_concat in Hin as (l & Hl & Hin). apply List.in_map_iff in Hl as ([r2 cols2] & <- & Hl).
    apply List.in_map_iff in Hin as ([c2 t2] & [= <- <-] & _). apply not_true_iff_false. cbn [fst].
    rewrite binds_qualified. cbn. intros [_ [= ->]]. apply Hr, list_elem_of_fmap. exists (r2, cols2). split; [done|].
    by apply list_elem_of_In.
  - rewrite find_none_all; [by eapply IH|]. intros [c ct] Hin. apply list_elem_of_fmap in Hin as ([c2 t2] & [= -> ->] & _).
    apply not_true_iff_false. cbn [fst]. rewrite binds_qualified. cbn. intros [_ [= ->]].
    apply Hr, list_elem_of_fmap. exists (r', columns). split; [done|]. by eapply list_elem_of_lookup_2.
Qed.

Definition two_legs : list (string * ColumnTypes) :=
  [(relation_alias 0, [(bare "ID", MkColumnType (DecimalT (MkDecimal 20 0)) None)]);
   (relation_alias 1, [(bare "ID", MkColumnType WIDEST_VARCHAR None)])].

Lemma join_columns_resolve_in_their_leg_witness :
  get_type (per_relation two_legs) (qualified (relation_alias 1) "ID") = Some (MkColumnType WIDEST_VARCHAR None).
Proof.
  apply (join_columns_resolve_in_their_leg (UC := ascii_case) two_legs 1 (relation_alias 1) [(bare "ID", MkColumnType WIDEST_VARCHAR None)]).
  - apply (bool_decide_eq_true_1 _). vm_compute. reflexivity.
  - reflexivity.
  - repeat constructor.
  - reflexivity.
Defined.
