(* ===== verification/BinaryFilter.v ===== *)
(** crates/lakehouse-engine/src/adapter/pushdown/binary_filter.rs (with
    [raw_bytes_alias] of scan/binary_hex.rs): a comparison of a binary column with a
    lowercase hex literal, rewritten to compare the raw bytes. *)

From stdpp Require Import base list strings numbers gmap.
From Stdlib Require Import Ascii String ZArith NArith Lia.
From S2P Require Import Prelude Json ExasolType Hex ColumnNode TypeMapping ScanSpec FilterJson ColumnTypes.

Local Open Scope string_scope.

Definition raw_bytes_alias (column : string) : string := "_LH_BYTES_" ++ column.

(** Assignment through [get_mut]: the value of a present key. *)
Definition set_key (node : Json) (key : string) (v : Json) : Json :=
  match node with JObject m => JObject (map_insert key v m) | other => other end.

Definition raw_bytes (column : ColumnRef) : Json :=
  ColumnNode.to_json (raw_bytes_alias (name column)) None (relation column).

Definition signed_json (z : Z) : Json := JNumber (if (z <? 0)%Z then NegInt z else PosInt (Z.to_N z)).

Section Binary.
Context {UC : UnicodeCase} {HX : Hex}.
Variable columns : ColumnTypes.

Definition binary_column (node : Json) : option (ColumnRef * BinaryLayout) :=
  column ← column_node_ref node;
  t ← get_type columns column;
  layout ← binary t;
  Some (column, layout).

Definition byte_literal (node : Json) (layout : BinaryLayout) : option Json :=
  kind ← get_str node "type";
  if negb (String.eqb kind "literal_string") then None
  else
    digits ← get_str node "value";
    if negb (string_forallb (fun c => negb (is_ascii_upper c)) digits) then None
    else
      bytes ← hex_decode digits;
      if String.eqb bytes "" then None
      else
        match layout with
        | Variable_ => Some (json_object [("type", JString "literal_binary"); ("value", JString digits)])
        | Fixed_ width =>
            if bool_decide (width = Z.of_nat (String.length bytes))
            then Some (json_object [("type", JString "literal_binary"); ("value", JString digits);
                                    ("width", signed_json width)])
            else None
        end.

(** The operators that would keep a row whose value is empty. *)
Definition admits_empty (op : Comparison) : bool :=
  match op with NotEqual | Less | LessEqual => true | _ => false end.

Definition byte_comparison (node : Json) : option Json :=
  kind ← get_str node "type";
  if String.eqb kind "predicate_in_constlist" then
    '(column, layout) ← get node "expression" ≫= binary_column;
    values ← get_array node "arguments";
    values ← mapM (fun value => byte_literal value layout) values;
    Some (json_object [("type", JString "predicate_in_constlist"); ("expression", raw_bytes column);
                       ("arguments", JArray values)])
  else if String.eqb kind "predicate_between" then
    '(column, layout) ← get node "expression" ≫= binary_column;
    low ← get node "left" ≫= (fun l => byte_literal l layout);
    high ← get node "right" ≫= (fun r => byte_literal r layout);
    Some (json_object [("type", JString "predicate_between"); ("expression", raw_bytes column);
                       ("left", low); ("right", high)])
  else
    op ← from_node_type kind;
    l ← get node "left";
    r ← get node "right";
    '(column, layout, literal, op) ←
      match binary_column l with
      | Some (column, layout) => Some (column, layout, r, op)
      | None => '(column, layout) ← binary_column r; Some (column, layout, l, with_operands_swapped op)
      end;
    literal ← byte_literal literal layout;
    let comparison :=
      json_object [("type", JString (node_type op)); ("left", raw_bytes column); ("right", literal)] in
    if bool_decide (layout = Variable_) && admits_empty op then
      let non_empty :=
        json_object [("type", JString "predicate_notequal"); ("left", raw_bytes column);
                     ("right", json_object [("type", JString "literal_binary"); ("value", JString "")])] in
      Some (json_object [("type", JString "predicate_and"); ("expressions", JArray [comparison; non_empty])])
    else Some comparison.

(** Only through AND and OR; the recursion follows the filter, so its depth is
    enough. *)
Fixpoint compare_binary_bytes_fuel (fuel : nat) (node : Json) : Json :=
  match fuel with
  | 0 => node
  | S fuel =>
      match get_str node "type" with
      | Some kind =>
          if String.eqb kind "predicate_and" || String.eqb kind "predicate_or" then
            match get_array node "expressions" with
            | Some children => set_key node "expressions" (JArray (map (compare_binary_bytes_fuel fuel) children))
            | None => node
            end
          else default node (byte_comparison node)
      | None => default node (byte_comparison node)
      end
  end.

Definition compare_binary_bytes (node : Json) : Json := compare_binary_bytes_fuel (json_depth node) node.

(** ** Literals retyped for pruning *)

Definition retype_literal (layout : BinaryLayout) (node : Json) : Json := default node (byte_literal node layout).

Definition retype_operand (layout : BinaryLayout) (node : Json) (key : string) : Json :=
  match get node key with
  | Some (JArray values) => set_key node key (JArray (map (retype_literal layout) values))
  | Some operand => set_key node key (retype_literal layout operand)
  | None => node
  end.

(** The fields of a node that a binary column may be compared in. *)
Definition compared_operands (kind : string) : option (list string) :=
  if String.eqb kind "predicate_in_constlist" then Some ["expression"; "arguments"]
  else if String.eqb kind "predicate_between" then Some ["expression"; "left"; "right"]
  else match from_node_type kind with Some _ => Some ["left"; "right"] | None => None end.

Definition retype_comparison (node : Json) (keys : list string) : Json :=
  match head (omap (fun key => get node key ≫= binary_column) keys) with
  | Some (_, layout) => fold_left (retype_operand layout) keys node
  | None => node
  end.

Fixpoint retype_fuel (fuel : nat) (node : Json) : Json :=
  match fuel with
  | 0 => node
  | S fuel =>
      match get_str node "type" with
      | None => node
      | Some kind =>
          if String.eqb kind "predicate_and" || String.eqb kind "predicate_or" then
            match get_array node "expressions" with
            | Some children => set_key node "expressions" (JArray (map (retype_fuel fuel) children))
            | None => node
            end
          else if String.eqb kind "predicate_not" then
            match get node "expression" with
            | Some child => set_key node "expression" (retype_fuel fuel child)
            | None => node
            end
          else match compared_operands kind with
               | Some keys => retype_comparison node keys
               | None => node
               end
      end
  end.

Definition with_binary_literals (node : Json) : Json := retype_fuel (json_depth node) node.

Definition literal_binary_bytes (node : Json) : option string :=
  kind ← get_str node "type";
  if negb (String.eqb kind "literal_binary") then None
  else get_str node "value" ≫= hex_decode.
End Binary.

(** ** Rows *)

(** A cell is text, or bytes a reader may also show as hex; it orders as that text
    does. *)
Inductive Cell := CText (s : string) | CBytes (b : string) | COther (z : Z).

Section Rows.
Context {UC : UnicodeCase} {HX : Hex}.

Definition cell_compare (a b : Cell) : comparison :=
  let text c := match c with CText s => s | CBytes b => hex_encode b | COther _ => "" end in
  match a, b with
  | COther x, COther y => Z.compare x y
  | COther _, _ => Lt
  | _, COther _ => Gt
  | _, _ => String.compare (text a) (text b)
  end.

(** What a row gives an operand: a column's cell, a text literal unless it is empty
    (Exasol's NULL), a binary literal's bytes, anything else as [other] says. *)
Definition cell_of (row : ColumnRef -> option Cell) (other : Json -> option Cell) (node : Json) : option Cell :=
  match column_node_ref node with
  | Some c => row c
  | None =>
      match get_str node "type", get_str node "value" with
      | Some kind, Some v =>
          if String.eqb kind "literal_string" then if String.eqb v "" then None else Some (CText v)
          else if String.eqb kind "literal_binary" then
            match hex_decode v with Some b => Some (CBytes b) | None => other node end
          else other node
      | _, _ => other node
      end
  end.

(** The column the scan exposes a binary column's bytes under. *)
Definition raw_ref (c : ColumnRef) : ColumnRef := MkColumnRef (relation c) (to_uppercase (raw_bytes_alias (name c))).

(** A binary column reads as its lowercase hex, NULL where it is NULL or empty; a
    fixed-length one holds that many bytes. *)
Definition reads_binary (columns : ColumnTypes) (row : ColumnRef -> option Cell) : Prop :=
  forall c t layout, get_type columns c = Some t -> binary t = Some layout ->
    (row (raw_ref c) = None /\ row c = None) \/
    (exists b, row (raw_ref c) = Some (CBytes b) /\
       row c = (if String.eqb b "" then None else Some (CText (hex_encode b))) /\
       (forall w, layout = Fixed_ w -> w = Z.of_nat (String.length b))).

Lemma raw_bytes_ref c : column_node_ref (raw_bytes c) = Some (raw_ref c).
Proof. destruct c as [[r|] n]; reflexivity. Qed.

Lemma cell_compare_antisym a b : cell_compare b a = CompOpp (cell_compare a b).
Proof.
  destruct a as [s|s|z], b as [s'|s'|z']; unfold cell_compare; try done; try apply String.compare_antisym.
  apply Z.compare_antisym.
Qed.

Lemma cell_compare_bytes a b : cell_compare (CBytes a) (CBytes b) = cell_compare (CText (hex_encode a)) (CText (hex_encode b)).
Proof. done. Qed.

(** What an accepted literal is. *)
Lemma byte_literal_spec node layout lit :
  byte_literal node layout = Some lit ->
  exists b, b <> "" /\ get_str node "type" = Some "literal_string" /\ get_str node "value" = Some (hex_encode b) /\
    hex_encode b <> "" /\
    column_node_ref node = None /\ column_node_ref lit = None /\
    get_str lit "type" = Some "literal_binary" /\ get_str lit "value" = Some (hex_encode b) /\
    (forall w, layout = Fixed_ w -> w = Z.of_nat (String.length b)).
Proof.
  unfold byte_literal. destruct (get_str node "type") as [kind|] eqn:Ek; [|done]. cbn [mbind option_bind].
  destruct (String.eqb_spec kind "literal_string") as [->|]; [|done]. cbn [negb].
  destruct (get_str node "value") as [digits|] eqn:Ev; [|done]. cbn [mbind option_bind].
  destruct (string_forallb _ digits) eqn:Elow; [|done]. cbn [negb].
  destruct (hex_decode digits) as [b|] eqn:Eb; [|done]. cbn [mbind option_bind].
  destruct (String.eqb_spec b ""); [done|].
  assert (digits = hex_encode b) as ->.
  { apply hex_decode_spec in Eb. rewrite <- Eb. clear -Elow. unfold to_ascii_lowercase.
    induction digits as [|c s IH]; [done|]. cbn in *. apply andb_prop in Elow as [Hc Hs].
    rewrite <- (IH Hs). unfold ascii_lower. by destruct (is_ascii_upper c). }
  assert (hex_encode b <> "") as Hne.
  { intros E. apply (f_equal String.length) in E. rewrite hex_encode_length in E. destruct b; [done|]. cbn in E. lia. }
  assert (column_node_ref node = None) as Hc.
  { unfold column_node_ref, ColumnNode.parse, ColumnNode.from_map. unfold get_str, get in Ek. destruct node; try done. cbn.
    destruct (map_get "type" fields) as [ty|]; [|done]. cbn in *. by rewrite Ek. }
  intros Hlit. exists b. split_and!; try done.
  - destruct layout; [by injection Hlit as <-|]. case_bool_decide; [|done]. by injection Hlit as <-.
  - destruct layout; [by injection Hlit as <-|]. case_bool_decide; [|done]. by injection Hlit as <-.
  - destruct layout; [by injection Hlit as <-|]. case_bool_decide; [|done]. by injection Hlit as <-.
  - intros w ->. case_bool_decide; [done|]. done.
Qed.

Variables (row : ColumnRef -> option Cell) (other : Json -> option Cell).
Notation op := (cell_of row other).

Lemma cell_of_text_literal node s :
  column_node_ref node = None -> get_str node "type" = Some "literal_string" -> get_str node "value" = Some s -> s <> "" ->
  op node = Some (CText s).
Proof. intros Hc Hk Hv Hs. unfold cell_of. rewrite Hc, Hk, Hv. cbn. by destruct (String.eqb_spec s ""). Qed.

Lemma cell_of_byte_literal node b :
  column_node_ref node = None -> get_str node "type" = Some "literal_binary" -> get_str node "value" = Some (hex_encode b) ->
  op node = Some (CBytes b).
Proof. intros Hc Hk Hv. unfold cell_of. rewrite Hc, Hk, Hv. cbn. by rewrite hex_decode_encode. Qed.

Lemma cell_of_raw c : op (raw_bytes c) = row (raw_ref c).
Proof. unfold cell_of. by rewrite raw_bytes_ref. Qed.

(** The operands of a comparison and of its byte form. *)
Lemma byte_operands columns column_node column layout literal lit :
  reads_binary columns row ->
  binary_column columns column_node = Some (column, layout) -> byte_literal literal layout = Some lit ->
  exists b, b <> "" /\ op literal = Some (CText (hex_encode b)) /\ op lit = Some (CBytes b) /\
   ((op (raw_bytes column) = None /\ op column_node = None) \/
    (exists a, op (raw_bytes column) = Some (CBytes a) /\
       op column_node = (if String.eqb a "" then None else Some (CText (hex_encode a))) /\
       (a = "" -> layout = Variable_))).
Proof.
  intros Hrow Hcol Hlit. apply byte_literal_spec in Hlit as (b & Hb & Hk & Hv & Hne & Hc & Hc' & Hk' & Hv' & Hw).
  exists b. split; [done|]. split; [by apply cell_of_text_literal|]. split; [by apply cell_of_byte_literal|].
  unfold binary_column in Hcol. destruct (column_node_ref column_node) as [c|] eqn:Ec; [|done]. cbn in Hcol.
  destruct (get_type columns c) as [t|] eqn:Et; [|done]. cbn in Hcol.
  destruct (binary t) as [l|] eqn:El; [|done]. cbn in Hcol. injection Hcol as -> ->.
  rewrite cell_of_raw. assert (op column_node = row column) as -> by (unfold cell_of; by rewrite Ec).
  destruct (Hrow column t layout Et El) as [[H1 H2]|(a & H1 & H2 & H3)]; [by left|]. right. exists a. split_and!; try done.
  intros ->. destruct layout as [|w]; [done|]. exfalso. specialize (H3 w eq_refl). specialize (Hw w eq_refl).
  cbn in H3. destruct b; [done|]. cbn in Hw. lia.
Qed.
(** ** The byte form keeps the rows *)

Notation tmeans := (means (cell_of row other) cell_compare).

(** Two filters that keep the same rows. *)
Definition keeps_same (node node' : Json) : Prop := tmeans node (Some true) <-> tmeans node' (Some true).

(** A column and its bytes, against a literal and its bytes. *)
Definition byte_pair (variable : bool) (text raw : option Cell) : Prop :=
  (raw = None /\ text = None) \/
  (exists a, raw = Some (CBytes a) /\ text = (if String.eqb a "" then None else Some (CText (hex_encode a))) /\
     (a = "" -> variable = true)).

Lemma hex_encode_empty : hex_encode "" = "".
Proof. assert (String.length (hex_encode "") = 0) as H by (by rewrite hex_encode_length). by destruct (hex_encode ""). Qed.

Lemma empty_bytes_compare b : b <> "" -> cell_compare (CBytes "") (CBytes b) = Lt.
Proof.
  intros Hb. cbn. rewrite hex_encode_empty.
  destruct (hex_encode b) eqn:E; [|done]. apply (f_equal String.length) in E. rewrite hex_encode_length in E.
  destruct b; [done|]. cbn in E. lia.
Qed.

(** A comparison no empty value satisfies reads the same on the bytes. *)
Lemma byte_compare3 v text raw b c :
  byte_pair v text raw -> b <> "" -> (v = true -> admits_empty c = false) ->
  compare3 cell_compare c text (Some (CText (hex_encode b))) = Some true <->
  compare3 cell_compare c raw (Some (CBytes b)) = Some true.
Proof.
  intros [[-> ->]|(a & -> & -> & Ha)] Hb Hc; [done|].
  destruct (String.eqb_spec a "") as [->|]; [|done].
  cbn [compare3]. rewrite empty_bytes_compare by done. specialize (Hc (Ha eq_refl)). destruct c; done.
Qed.

(** A comparison an empty value would satisfy also asks for a value that is not. *)
Lemma byte_compare3_non_empty v text raw b c :
  byte_pair v text raw -> b <> "" ->
  compare3 cell_compare c text (Some (CText (hex_encode b))) = Some true <->
  compare3 cell_compare c raw (Some (CBytes b)) = Some true /\
  compare3 cell_compare NotEqual raw (Some (CBytes "")) = Some true.
Proof.
  intros [[-> ->]|(a & -> & -> & Ha)] Hb; [cbn; intuition congruence|].
  destruct (String.eqb_spec a "") as [->|Hne].
  - cbn [compare3]. assert (cell_compare (CBytes "") (CBytes "") = Eq) as ->; [|cbn; intuition congruence].
    cbn. by rewrite hex_encode_empty.
  - cbn [compare3]. rewrite (cell_compare_antisym (CBytes "") (CBytes a)), empty_bytes_compare by done. cbn. intuition congruence.
Qed.
Lemma mapM_byte_literals layout (l l' : list Json) :
  mapM (fun value => byte_literal value layout) l = Some l' -> Forall2 (fun a a' => byte_literal a layout = Some a') l l'.
Proof. apply mapM_Some_1. Qed.

Variable columns : ColumnTypes.
Hypothesis Hrow : reads_binary columns row.

(** [byte_operands], as pairs. *)
Lemma byte_operands_pair column_node column layout literal lit :
  binary_column columns column_node = Some (column, layout) -> byte_literal literal layout = Some lit ->
  exists b, b <> "" /\ op literal = Some (CText (hex_encode b)) /\ op lit = Some (CBytes b) /\
    byte_pair (bool_decide (layout = Variable_)) (op column_node) (op (raw_bytes column)).
Proof.
  intros Hc Hl. destruct (byte_operands columns column_node column layout literal lit Hrow Hc Hl)
    as (b & Hb & H1 & H2 & H3). exists b. split_and!; try done.
  destruct H3 as [[? ?]|(a & ? & ? & Ha)]; [by left|]. right. exists a. split_and!; try done.
  intros E. apply bool_decide_eq_true. auto.
Qed.

(** Membership and ranges never hold of an empty value. *)
Lemma byte_comparison_in node e column layout l l' :
  get_str node "type" = Some "predicate_in_constlist" -> get node "expression" = Some e -> get_array node "arguments" = Some l ->
  binary_column columns e = Some (column, layout) -> mapM (fun value => byte_literal value layout) l = Some l' ->
  keeps_same node (json_object [("type", JString "predicate_in_constlist"); ("expression", raw_bytes column);
                                ("arguments", JArray l')]).
Proof.
  intros Hk He Hl Hc Hl'. unfold keeps_same.
  rewrite (means_in _ _ node e l _ Hk He Hl), (means_in _ _ _ (raw_bytes column) l') by reflexivity.
  apply mapM_byte_literals in Hl'. clear Hl Hk. split; intros H; symmetry; symmetry in H; rewrite any3_true in *.
  - induction Hl' as [|a a' l l' Ha _ IH]; [done|]. cbn in *. apply List.Exists_cons.
    apply List.Exists_cons in H as [H|H]; [left|right; auto].
    destruct (byte_operands_pair e column layout a a' Hc Ha) as (b & Hb & E1 & E2 & Hp).
    rewrite E1 in H. rewrite E2. symmetry in H. by apply (byte_compare3 _ _ _ b Equal Hp Hb) in H.
  - induction Hl' as [|a a' l l' Ha _ IH]; [done|]. cbn in *. apply List.Exists_cons.
    apply List.Exists_cons in H as [H|H]; [left|right; auto].
    destruct (byte_operands_pair e column layout a a' Hc Ha) as (b & Hb & E1 & E2 & Hp).
    rewrite E2 in H. rewrite E1. symmetry in H. by apply (byte_compare3 _ _ _ b Equal Hp Hb) in H.
Qed.
Lemma byte_comparison_between node e column layout low high low' high' :
  get_str node "type" = Some "predicate_between" -> get node "expression" = Some e ->
  get node "left" = Some low -> get node "right" = Some high ->
  binary_column columns e = Some (column, layout) ->
  byte_literal low layout = Some low' -> byte_literal high layout = Some high' ->
  keeps_same node (json_object [("type", JString "predicate_between"); ("expression", raw_bytes column);
                                ("left", low'); ("right", high')]).
Proof.
  intros Hk He Hlow Hhigh Hc Hlow' Hhigh'. unfold keeps_same.
  rewrite (means_between _ _ node e low high _ Hk He Hlow Hhigh), (means_between _ _ _ (raw_bytes column) low' high') by reflexivity.
  destruct (byte_operands_pair e column layout low low' Hc Hlow') as (b & Hb & E1 & E2 & Hp).
  destruct (byte_operands_pair e column layout high high' Hc Hhigh') as (b' & Hb' & E1' & E2' & _).
  rewrite E1, E2, E1', E2'. clear -Hp Hb Hb'.
  destruct Hp as [[-> ->]|(a & -> & -> & _)]; [done|].
  destruct (String.eqb_spec a "") as [->|]; [|done]. cbn [compare3]. by rewrite !empty_bytes_compare by done.
Qed.

Lemma byte_comparison_compare node c l r column_node column layout literal literal' c' :
  get_str node "type" = Some (node_type c) -> get node "left" = Some l -> get node "right" = Some r ->
  compare3 cell_compare c (op l) (op r) = compare3 cell_compare c' (op column_node) (op literal) ->
  binary_column columns column_node = Some (column, layout) -> byte_literal literal layout = Some literal' ->
  let comparison :=
    json_object [("type", JString (node_type c')); ("left", raw_bytes column); ("right", literal')] in
  let non_empty :=
    json_object [("type", JString "predicate_notequal"); ("left", raw_bytes column);
                 ("right", json_object [("type", JString "literal_binary"); ("value", JString "")])] in
  keeps_same node
    (if bool_decide (layout = Variable_) && admits_empty c'
     then json_object [("type", JString "predicate_and"); ("expressions", JArray [comparison; non_empty])]
     else comparison).
Proof.
  intros Hk Hl Hr Hswap Hc Hlit comparison non_empty. unfold keeps_same.
  rewrite (means_comparison _ _ node c l r _ Hk Hl Hr), Hswap.
  destruct (byte_operands_pair column_node column layout literal literal' Hc Hlit) as (b & Hb & E1 & E2 & Hp).
  assert (forall t, tmeans comparison t <-> t = compare3 cell_compare c' (op (raw_bytes column)) (Some (CBytes b))) as Hcmp.
  { intros t. rewrite <- E2. by apply means_comparison. }
  assert (forall t, tmeans non_empty t <-> t = compare3 cell_compare NotEqual (op (raw_bytes column)) (Some (CBytes ""))) as Hne.
  { intros t. assert (op (json_object [("type", JString "literal_binary"); ("value", JString "")]) = Some (CBytes "")) as <-.
    { apply cell_of_byte_literal; [done..|]. by rewrite hex_encode_empty. }
    by apply (means_comparison _ _ non_empty NotEqual). }
  rewrite E1. destruct (bool_decide (layout = Variable_) && admits_empty c') eqn:Eguard.
  - rewrite (means_and_true _ _ _ [comparison; non_empty]) by reflexivity.
    rewrite !Forall_cons_iff, Hcmp, Hne. pose proof (byte_compare3_non_empty _ _ _ b c' Hp Hb) as H.
    rewrite (symmetry_iff (=) (Some true)), H.
    split; [intros [? ?]; split_and!; done|intros (? & ? & _); done].
  - rewrite Hcmp. pose proof (byte_compare3 _ _ _ b c' Hp Hb) as H. rewrite !(symmetry_iff (=) (Some true)). apply H.
    intros E. rewrite E in Eguard. by destruct (admits_empty c').
Qed.
Lemma byte_comparison_keeps node node' : byte_comparison columns node = Some node' -> keeps_same node node'.
Proof.
  unfold byte_comparison. destruct (get_str node "type") as [kind|] eqn:Ek; [|done]. cbn [mbind option_bind].
  destruct (String.eqb_spec kind "predicate_in_constlist") as [->|].
  { destruct (get node "expression") as [e|] eqn:Ee; [|done]. cbn [mbind option_bind].
    destruct (binary_column columns e) as [[column layout]|] eqn:Ec; [|done]. cbn [mbind option_bind].
    destruct (get_array node "arguments") as [l|] eqn:El; [|done]. cbn [mbind option_bind].
    destruct (mapM _ l) as [l'|] eqn:El'; [|done]. intros [= <-]. by eapply byte_comparison_in. }
  destruct (String.eqb_spec kind "predicate_between") as [->|].
  { destruct (get node "expression") as [e|] eqn:Ee; [|done]. cbn [mbind option_bind].
    destruct (binary_column columns e) as [[column layout]|] eqn:Ec; [|done]. cbn [mbind option_bind].
    destruct (get node "left") as [low|] eqn:El; [|done]. cbn [mbind option_bind].
    destruct (byte_literal low layout) as [low'|] eqn:El'; [|done]. cbn [mbind option_bind].
    destruct (get node "right") as [high|] eqn:Eh; [|done]. cbn [mbind option_bind].
    destruct (byte_literal high layout) as [high'|] eqn:Eh'; [|done]. intros [= <-]. by eapply byte_comparison_between. }
  destruct (from_node_type kind) as [c|] eqn:Ekind; [|done]. cbn [mbind option_bind].
  apply from_node_type_Some in Ekind as ->.
  destruct (get node "left") as [l|] eqn:El; [|done]. cbn [mbind option_bind].
  destruct (get node "right") as [r|] eqn:Er; [|done]. cbn [mbind option_bind].
  destruct (binary_column columns l) as [[column layout]|] eqn:Ec; cbn [mbind option_bind].
  - destruct (byte_literal r layout) as [lit|] eqn:Elit; [|done]. cbn [mbind option_bind].
    intros H. pose proof (byte_comparison_compare node c l r l column layout r lit c Ek El Er eq_refl Ec Elit) as Hk.
    cbv zeta in Hk, H. by destruct (_ && _); injection H as <-.
  - destruct (binary_column columns r) as [[column layout]|] eqn:Ec'; [|done]. cbn [mbind option_bind].
    destruct (byte_literal l layout) as [lit|] eqn:Elit; [|done]. cbn [mbind option_bind].
    intros H. pose proof (byte_comparison_compare node c l r r column layout l lit (with_operands_swapped c) Ek El Er
      ltac:(symmetry; apply compare3_swapped; intros; apply cell_compare_antisym) Ec' Elit) as Hk.
    cbv zeta in Hk, H. by destruct (_ && _); injection H as <-.
Qed.

Lemma default_byte_comparison_keeps node : keeps_same node (default node (byte_comparison columns node)).
Proof. destruct (byte_comparison columns node) eqn:E; [by apply byte_comparison_keeps|done]. Qed.

Lemma get_str_set_key node key v kind : key <> kind -> get_str (set_key node key v) kind = get_str node kind.
Proof. intros H. destruct node; try done. unfold get_str, get, set_key. rewrite map_get_insert. by destruct (String.eqb_spec key kind). Qed.
Lemma get_array_set_key node key v l :
  get node key = Some v -> get_array (set_key node key (JArray l)) key = Some l.
Proof. destruct node; try done. intros _. unfold get_array, get, set_key. by rewrite map_get_insert, String.eqb_refl. Qed.

Lemma compare_binary_bytes_keeps fuel node : keeps_same node (compare_binary_bytes_fuel columns fuel node).
Proof.
  revert node. induction fuel as [|fuel IH]; intros node; [done|]. cbn [compare_binary_bytes_fuel].
  destruct (get_str node "type") as [kind|] eqn:Ek; [|apply default_byte_comparison_keeps].
  destruct (String.eqb kind "predicate_and" || String.eqb kind "predicate_or") eqn:Eb; [|apply default_byte_comparison_keeps].
  destruct (get_array node "expressions") as [l|] eqn:El; [|done].
  set (node' := set_key _ _ _).
  assert (get_str node' "type" = Some kind) as Ek' by (unfold node'; by rewrite get_str_set_key).
  assert (get_array node' "expressions" = Some (map (compare_binary_bytes_fuel columns fuel) l)) as El'.
  { unfold node', get_array in *. destruct (get node "expressions") as [v|] eqn:Ev; [|done]. by apply (get_array_set_key _ _ v). }
  unfold keeps_same. apply orb_true_iff in Eb as [Eb|Eb]; apply String.eqb_eq in Eb as ->.
  - rewrite (means_and_true _ _ node l Ek El), (means_and_true _ _ node' _ Ek' El').
    clear -IH. induction l as [|x l IHl]; [done|]. cbn. rewrite !Forall_cons_iff, IHl. pose proof (IH x) as H. unfold keeps_same in H. tauto.
  - rewrite (means_or_true _ _ node l Ek El), (means_or_true _ _ node' _ Ek' El').
    clear -IH. induction l as [|x l IHl]; [done|]. cbn. rewrite !List.Exists_cons, IHl. pose proof (IH x) as H. unfold keeps_same in H. tauto.
Qed.
End Rows.

(** Comparing raw bytes instead of hex text returns the same rows: on every row
    whose binary columns read as their lowercase hex (NULL when empty), the filter
    [compare_binary_bytes] sends can be TRUE exactly where the original can, whatever
    the nodes neither form reads compute. *)
Theorem compare_binary_bytes_same_rows {UC : UnicodeCase} {HX : Hex} (columns : ColumnTypes)
    (row : ColumnRef -> option Cell) (other : Json -> option Cell) node :
  reads_binary columns row ->
  means (cell_of row other) cell_compare node (Some true) <->
  means (cell_of row other) cell_compare (compare_binary_bytes columns node) (Some true).
Proof. intros Hrow. by apply compare_binary_bytes_keeps. Qed.

Definition hash_columns : ColumnTypes := [(bare "HASH", MkColumnType WIDEST_VARCHAR (Some Variable_))].

Definition hash_row (c : ColumnRef) : option Cell :=
  if String.eqb (name c) "_LH_BYTES_HASH" then Some (CBytes "k")
  else if String.eqb (name c) "HASH" then Some (CText "6b") else None.

Definition hash_filter : Json :=
  json_object [("type", JString "predicate_less");
               ("left", json_object [("type", JString "literal_string"); ("value", JString "5a")]);
               ("right", json_object [("type", JString "column"); ("name", JString "HASH")])].

Lemma compare_binary_bytes_same_rows_witness :
  means (cell_of (UC := ascii_case) (HX := plain_hex) hash_row (fun _ => None)) (cell_compare (HX := plain_hex))
    (compare_binary_bytes (UC := ascii_case) (HX := plain_hex) hash_columns hash_filter) (Some true).
Proof.
  apply (compare_binary_bytes_same_rows (UC := ascii_case) (HX := plain_hex) hash_columns hash_row (fun _ => None) hash_filter).
  - intros [r n] t layout Ht Hl. unfold get_type, entry, hash_columns in Ht. cbn [List.find] in Ht.
    cbn [fst] in Ht. rewrite binds_bare in Ht. cbn [name] in Ht. destruct (String.eqb_spec "HASH" n) as [<-|]; [|done].
    cbn in Ht. injection Ht as <-. injection Hl as <-. right. exists "k". split_and!; reflexivity || done.
  - vm_compute. reflexivity.
Defined.

(** ** Null tests see the bytes

    Retyping leaves a null test as it is, so on an empty value, whose text reads NULL,
    the filter and the retyped tree differ. *)
Definition null_test : Json :=
  json_object [("type", JString "predicate_is_null");
               ("expression", json_object [("type", JString "column"); ("name", JString "HASH")])].

(** The text of an empty value, and its bytes. *)
Definition empty_text (c : ColumnRef) : option Cell := if String.eqb (name c) "_LH_BYTES_HASH" then Some (CBytes "") else None.
Definition empty_bytes (c : ColumnRef) : option Cell := if String.eqb (name c) "HASH" then Some (CBytes "") else None.

Lemma null_test_of_empty_value :
  reads_binary (UC := ascii_case) (HX := plain_hex) hash_columns empty_text /\
  means (cell_of (UC := ascii_case) (HX := plain_hex) empty_text (fun _ => None)) (cell_compare (HX := plain_hex)) null_test (Some true) /\
  means (cell_of (UC := ascii_case) (HX := plain_hex) empty_bytes (fun _ => None)) (cell_compare (HX := plain_hex))
    (with_binary_literals (UC := ascii_case) (HX := plain_hex) hash_columns null_test) (Some false).
Proof.
  split_and!.
  - intros [r n] t layout Ht Hl. unfold get_type, entry, hash_columns in Ht. cbn [List.find fst] in Ht.
    rewrite binds_bare in Ht. cbn [name] in Ht. destruct (String.eqb_spec "HASH" n) as [<-|]; [|done].
    cbn in Ht. injection Ht as <-. injection Hl as <-. right. exists "". split_and!; reflexivity || done.
  - eapply means_is_null; reflexivity.
  - eapply means_is_null; [vm_compute; reflexivity..|]. vm_compute. reflexivity.
Qed.
