(* ===== verification/Pruning.v ===== *)
(** What the file-pruning translators of adapter/iceberg_predicate.rs and
    pushdown/format/delta_predicate.rs are proved against: the values a filter
    compares, the predicates the table libraries take, and when a translation may
    stand for a filter. *)

From stdpp Require Import base sets list strings numbers.
From Stdlib Require Import Ascii String ZArith NArith Lia.
From S2P Require Import Prelude Text Hex Json ColumnNode FilterJson BinaryFilter.

Local Open Scope string_scope.

(** ** Numerals *)

(** An optional sign, then digits, of any length. *)
Definition parse_integer (s : string) : option Z :=
  let '(neg, digits) :=
    match s with
    | String "-" rest => (true, rest)
    | String "+" rest => (false, rest)
    | _ => (false, s)
    end in
  if negb (String.eqb digits "") && string_forallb is_ascii_digit digits
  then Some (let n := Z.of_N (digits_value 0 digits) in if neg : bool then - n else n)%Z else None.

(** The text before and after the first [e] or [E]. *)
Fixpoint split_exponent (s : string) : option (string * string) :=
  match s with
  | EmptyString => None
  | String c s' =>
      if Ascii.eqb c "e" || Ascii.eqb c "E" then Some ("", s')
      else match split_exponent s' with Some (a, b) => Some (String c a, b) | None => None end
  end.

(** A decimal numeral, as [unscaled * 10 ^ (- scale)]. *)
Definition numeral (raw : string) : option (Z * Z) :=
  '(mantissa, exponent) ← match split_exponent raw with
                          | None => Some (raw, 0%Z)
                          | Some (m, e) => z ← parse_integer e; Some (m, z)
                          end;
  let '(int_part, frac_part) := match split_once "." mantissa with Some p => p | None => (mantissa, "") end in
  unscaled ← parse_integer (int_part ++ frac_part);
  Some (unscaled, (Z.of_nat (String.length frac_part) - exponent)%Z).

Lemma parse_signed_integer bits s z : parse_signed bits s = Some z -> parse_integer s = Some z.
Proof.
  unfold parse_signed, parse_integer.
  destruct (match s with String "-" rest => _ | String "+" rest => _ | _ => _ end) as [neg digits].
  destruct (_ && _); [|done]. destruct (_ && _); [|done]. done.
Qed.

Lemma plain_no_exponent s : string_forallb (fun c => negb (Ascii.eqb c "e" || Ascii.eqb c "E")) s = true -> split_exponent s = None.
Proof.
  induction s as [|c s IH]; [done|]. cbn [string_forallb split_exponent]. intros [Hc Hs]%andb_prop.
  destruct (_ || _); [done|]. by rewrite IH.
Qed.

Lemma plain_no_point s : string_forallb (fun c => negb (Ascii.eqb c ".")) s = true -> split_once "." s = None.
Proof.
  induction s as [|c s IH]; [done|]. cbn [string_forallb split_once]. intros [Hc Hs]%andb_prop.
  destruct (Ascii.eqb c "."); [done|]. by rewrite IH.
Qed.

Lemma integer_text_plain (p : ascii -> bool) s z :
  (forall c, is_ascii_digit c = true -> p c = true) -> p "-"%char = true -> p "+"%char = true ->
  parse_integer s = Some z -> string_forallb p s = true.
Proof.
  intros Hp Hm Hq. unfold parse_integer.
  assert (forall d, string_forallb is_ascii_digit d = true -> string_forallb p d = true) as Hd.
  { induction d as [|c d IH]; [done|]. cbn. intros [Hc Hs]%andb_prop. by rewrite (Hp c Hc), IH. }
  destruct s as [|c s]; [done|].
  destruct (Ascii.eqb_spec c "-") as [->|Hc1].
  { destruct (_ && _) eqn:E; [|done]. intros _. cbn. rewrite Hm. apply andb_prop in E as [_ E]. by apply Hd. }
  destruct (Ascii.eqb_spec c "+") as [->|Hc2].
  { destruct (_ && _) eqn:E; [|done]. intros _. cbn. rewrite Hq. apply andb_prop in E as [_ E]. by apply Hd. }
  assert ((match String c s with String "-" rest => (true, rest) | String "+" rest => (false, rest) | _ => (false, String c s) end)
          = (false, String c s)) as ->.
  { destruct c as [[][][][][][][][]]; try done. }
  destruct (_ && _) eqn:E; [|done]. intros _. apply andb_prop in E as [_ E]. by apply Hd.
Qed.

(** An integer's text is the numeral of the integer. *)
Lemma integer_numeral s z : parse_integer s = Some z -> numeral s = Some (z, 0%Z).
Proof.
  intros H. unfold numeral.
  rewrite plain_no_exponent.
  2: { apply (integer_text_plain _ s z); try done. intros c Hc. by destruct c as [[][][][][][][][]]. }
  cbn [mbind option_bind]. rewrite plain_no_point.
  2: { apply (integer_text_plain _ s z); try done. intros c Hc. by destruct c as [[][][][][][][][]]. }
  rewrite string_app_nil_r, H. done.
Qed.

Lemma parse_integer_show_N n : parse_integer (show_N n) = Some (Z.of_N n).
Proof.
  unfold parse_integer.
  assert ((match show_N n with String "-" rest => (true, rest) | String "+" rest => (false, rest) | _ => (false, show_N n) end)
          = (false, show_N n)) as ->.
  { destruct (show_N_head n) as (c & s & -> & Hc). by destruct c as [[][][][][][][][]]. }
  by rewrite show_N_nonempty, show_N_digits, digits_value_show.
Qed.

Lemma parse_integer_show_Z z : parse_integer (show_Z z) = Some z.
Proof.
  unfold show_Z. destruct (Z.ltb_spec z 0); [|rewrite parse_integer_show_N; f_equal; lia].
  rewrite string_app_cons, string_app_nil_l. unfold parse_integer.
  rewrite show_N_nonempty, show_N_digits, digits_value_show. cbn [negb andb]. f_equal. lia.
Qed.

(** ** Values *)

(** Doubles by their bits, with what the conversions and the order of the language
    promise: parsing rounds a numeral to the nearest double. *)
Class Floats := {
  f64_parse : string -> option Z;
  number_as_f64 : Number -> option Z;
  as_f32 : Z -> Z;
  f64_from_f32 : Z -> Z;
  double_of : Z -> Z -> Z;
  float_eq : Z -> Z -> bool;
  float_compare : Z -> Z -> comparison;
  narrowed_exactly b : float_eq (f64_from_f32 (as_f32 b)) b = true -> f64_from_f32 (as_f32 b) = b;
  float_compare_antisym a b : float_compare b a = CompOpp (float_compare a b);
  f64_parse_numeral s u k b : numeral s = Some (u, k) -> f64_parse s = Some b -> b = double_of u k;
  number_as_f64_numeral n u k b : numeral (number_to_string n) = Some (u, k) -> number_as_f64 n = Some b -> b = double_of u k;
}.

(** The instants texts name, in nanoseconds: the midnight of a date, a timestamp, and
    a timestamp in UTC unless it carries an offset. *)
Class Instants := { midnight : string -> Z; instant : string -> Z; instant_utc : string -> Z }.

(** A number is [unscaled * 10 ^ (- scale)]. *)
Inductive Value := VNum (unscaled scale : Z) | VFloat (bits : Z) | VText (s : string) | VTime (ns : Z) | VBool (b : bool) | VBytes (b : string).

Section Values.
Context {FL : Floats}.

Definition num_compare (a i b j : Z) : comparison := Z.compare (a * 10 ^ Z.max 0 (j - i)) (b * 10 ^ Z.max 0 (i - j)).

(** A number compares with a double as the nearest double. *)
Definition value_compare (a b : Value) : comparison :=
  match a, b with
  | VNum a i, VNum b j => num_compare a i b j
  | VFloat a, VFloat b => float_compare a b
  | VFloat a, VNum b j => float_compare a (double_of b j)
  | VNum a i, VFloat b => float_compare (double_of a i) b
  | VText a, VText b | VBytes a, VBytes b => String.compare a b
  | VTime a, VTime b => Z.compare a b
  | VBool a, VBool b => Z.compare (Z.b2z a) (Z.b2z b)
  | (VNum _ _ | VFloat _), _ => Lt | _, (VNum _ _ | VFloat _) => Gt
  | VText _, _ => Lt | _, VText _ => Gt
  | VTime _, _ => Lt | _, VTime _ => Gt
  | VBool _, _ => Lt | _, VBool _ => Gt
  end.

Lemma value_compare_antisym a b : value_compare b a = CompOpp (value_compare a b).
Proof.
  destruct a, b; cbn; try done; try apply String.compare_antisym; try apply float_compare_antisym; apply Z.compare_antisym.
Qed.

(** Comparing numbers at any common scale. *)
Lemma num_compare_at m a i b j :
  (i <= m)%Z -> (j <= m)%Z -> num_compare a i b j = Z.compare (a * 10 ^ (m - i)) (b * 10 ^ (m - j)).
Proof.
  intros Hi Hj. unfold num_compare. set (n := Z.max i j).
  replace (Z.max 0 (j - i)) with (n - i)%Z by lia. replace (Z.max 0 (i - j)) with (n - j)%Z by lia.
  replace (m - i)%Z with ((n - i) + (m - n))%Z by lia. replace (m - j)%Z with ((n - j) + (m - n))%Z by lia.
  rewrite !Z.pow_add_r by lia. rewrite !Z.mul_assoc, !(Z.mul_comm _ (10 ^ (m - n))).
  apply Zmult_compare_compat_l. apply Z.lt_gt, Z.pow_pos_nonneg; lia.
Qed.

(** Rescaling a number does not change how it compares. *)
Lemma num_compare_shift a i b j k : (0 <= k)%Z -> num_compare a i (b * 10 ^ k) (j + k) = num_compare a i b j.
Proof.
  intros Hk. rewrite !(num_compare_at (Z.max i (j + k))) by lia. f_equal.
  rewrite <- Z.mul_assoc, <- Z.pow_add_r by lia. f_equal. f_equal. lia.
Qed.

Context {IN : Instants} {HX : Hex}.

(** The text of a numeric literal, and its double where it is no numeral. *)
Definition numeric_text (value : Json) : option string :=
  match value with JNumber n => Some (number_to_string n) | JString s => Some (trim s) | _ => None end.

Definition numeric_f64 (value : Json) : option Z :=
  match value with JNumber n => number_as_f64 n | JString s => f64_parse (trim s) | _ => None end.

Definition numeric_value (value : Json) : option Value :=
  text ← numeric_text value;
  match numeral text with Some (u, k) => Some (VNum u k) | None => VFloat <$> numeric_f64 value end.

Definition bool_value (value : Json) : option bool :=
  match value with
  | JBool b => Some b
  | JString s =>
      if String.eqb s "true" || String.eqb s "TRUE" then Some true
      else if String.eqb s "false" || String.eqb s "FALSE" then Some false else None
  | JNumber n =>
      i ← as_i64 (JNumber n);
      if (i =? 1)%Z then Some true else if (i =? 0)%Z then Some false else None
  | _ => None
  end.

(** The value of a literal: [Some None] is NULL, which an empty text is, and [None] a
    node that is no literal. A numeric literal, a DOUBLE one included, is the number its
    text writes; [value_compare] rounds it to a double against a floating column, and
    compares it exactly against an integer or decimal one. *)
Definition literal_value (node : Json) : option (option Value) :=
  kind ← get_str node "type";
  let value := get node "value" in
  let text (f : string -> Value) :=
    Some (s ← value ≫= as_str; if String.eqb s "" then None else Some (f s)) in
  if String.eqb kind "literal_bool" then Some (VBool <$> (value ≫= bool_value))
  else if String.eqb kind "literal_exactnumeric" || String.eqb kind "literal_double" then Some (value ≫= numeric_value)
  else if String.eqb kind "literal_string" then text VText
  else if String.eqb kind "literal_date" then text (fun s => VTime (midnight s))
  else if String.eqb kind "literal_timestamp" then text (fun s => VTime (instant s))
  else if String.eqb kind "literal_timestamp_utc" then text (fun s => VTime (instant_utc s))
  else if String.eqb kind "literal_binary" then Some (VBytes <$> literal_binary_bytes node)
  else None.

(** An integer read from a literal is its number. *)
Lemma json_integer_value bits v z :
  match v with JNumber n => as_i64 (JNumber n) | JString s => parse_signed bits (trim s) | _ => None end = Some z ->
  numeric_value v = Some (VNum z 0).
Proof.
  unfold numeric_value, numeric_text. destruct v as [| |n|s| |]; try done; intros H; cbn [mbind option_bind].
  - rewrite (integer_numeral _ z); [done|].
    cbn in H. destruct n as [n|i|]; [|injection H as <-; apply parse_integer_show_Z|done].
    destruct (_ <=? _)%Z; [|done]. injection H as <-. apply parse_integer_show_N.
  - apply parse_signed_integer in H. by rewrite (integer_numeral _ z H).
Qed.

(** A parsed double stands for its literal among doubles. *)
Lemma numeric_f64_value v b :
  numeric_f64 v = Some b ->
  exists x, numeric_value v = Some x /\ forall bits, value_compare (VFloat bits) (VFloat b) = value_compare (VFloat bits) x.
Proof.
  unfold numeric_value, numeric_text, numeric_f64. destruct v as [| |n|s| |]; try done; intros H; cbn [mbind option_bind].
  - destruct (numeral (number_to_string n)) as [[u k]|] eqn:E.
    + eexists. split; [done|]. intros bits. cbn. by rewrite (number_as_f64_numeral _ _ _ _ E H).
    + rewrite H. by eexists.
  - destruct (numeral (trim s)) as [[u k]|] eqn:E.
    + eexists. split; [done|]. intros bits. cbn. by rewrite (f64_parse_numeral _ _ _ _ E H).
    + rewrite H. by eexists.
Qed.
End Values.

(** ** Predicates

    The predicates iceberg-rust and delta-kernel build from their constructors, with
    their meaning on one row; iceberg-rust joins two at a time, delta-kernel lists. *)
Inductive Predicate (D : Type) : Type :=
| PCompare (column : string) (c : Comparison) (literal : D)
| PIsNull (column : string)
| PIsNotNull (column : string)
| PIn (column : string) (literals : list D)
| PAnd (a b : Predicate D)
| POr (a b : Predicate D)
| PAll (l : list (Predicate D))
| PAny (l : list (Predicate D))
| PNot (a : Predicate D).
Arguments PCompare {D} _ _ _.
Arguments PIsNull {D} _.
Arguments PIsNotNull {D} _.
Arguments PIn {D} _ _.
Arguments PAnd {D} _ _.
Arguments POr {D} _ _.
Arguments PAll {D} _.
Arguments PAny {D} _.
Arguments PNot {D} _.

(** A translation, and whether it is exact. *)
Record Translated (D : Type) := MkTranslated { predicate : Predicate D; exact : bool }.
Arguments MkTranslated {D} _ _.
Arguments predicate {D} _.
Arguments exact {D} _.

Definition translated_exact {D} (p : Predicate D) : Translated D := MkTranslated p true.

Section Evaluation.
Context {FL : Floats} {D : Type} (row : string -> option Value) (denote : D -> Value).

Fixpoint eval (p : Predicate D) : option bool :=
  match p with
  | PCompare column c literal => compare3 value_compare c (row column) (Some (denote literal))
  | PIsNull column => Some (match row column with None => true | Some _ => false end)
  | PIsNotNull column => Some (match row column with None => false | Some _ => true end)
  | PIn column literals => any3 (map (fun d => compare3 value_compare Equal (row column) (Some (denote d))) literals)
  | PAnd a b => and3 (eval a) (eval b)
  | POr a b => or3 (eval a) (eval b)
  | PAll l => all3 (map eval l)
  | PAny l => any3 (map eval l)
  | PNot a => not3 (eval a)
  end.

(** A translation stands for a node whose truth is [t]: it is TRUE where the node is,
    and where it is exact it agrees with every known truth of the node. *)
Definition stands_for (tr : Translated D) (t : option bool) : Prop :=
  (t = Some true -> eval (predicate tr) = Some true) /\ (exact tr = true -> refines t (eval (predicate tr))).

(** An untranslated node constrains nothing. *)
Definition may_stand (tr : option (Translated D)) (t : option bool) : Prop :=
  match tr with Some tr => stands_for tr t | None => True end.

Lemma stands_exactly p t : refines t (eval p) -> stands_for (translated_exact p) t.
Proof. intros [->| ->]; (split; [done|intros _]); [by left|by right]. Qed.

Lemma stands_not p t : refines t (eval p) -> refines (not3 t) (eval (PNot p)).
Proof. apply not3_refines. Qed.

(** ** Conjunctions and disjunctions *)

Definition child_exact (c : option (Translated D)) : bool := match c with Some tr => exact tr | None => false end.

(** The translated conjuncts of a conjunction. *)
Lemma and_children children ts :
  Forall2 may_stand children ts ->
  (all3 ts = Some true -> all3 (map eval (omap (fun c => predicate <$> c) children)) = Some true) /\
  (forallb child_exact children = true -> refines (all3 ts) (all3 (map eval (omap (fun c => predicate <$> c) children)))).
Proof.
  induction 1 as [|c t children ts Hc _ [IH1 IH2]]; [split; [done|by right]|].
  change (all3 (t :: ts)) with (and3 t (all3 ts)). split.
  - intros [Ht Hts]%and3_Some_true. destruct c as [tr|]; cbn; [|by apply IH1].
    apply and3_Some_true. split; [|by apply IH1]. by apply Hc.
  - cbn [forallb]. intros [He Hes]%andb_prop. destruct c as [tr|]; [|done]. cbn. apply and3_refines; [|by apply IH2].
    by apply Hc.
Qed.

(** The disjuncts of a disjunction, all translated. *)
Lemma or_children children translated ts :
  mapM id children = Some translated -> Forall2 may_stand children ts ->
  (any3 ts = Some true -> any3 (map eval (map predicate translated)) = Some true) /\
  (forallb exact translated = true -> refines (any3 ts) (any3 (map eval (map predicate translated)))).
Proof.
  intros Hm Hc. revert translated Hm. induction Hc as [|c t children ts Hc _ IH]; intros translated Hm.
  { injection Hm as <-. split; [done|by right]. }
  cbn in Hm. destruct c as [tr|]; [|done]. cbn in Hm. destruct (mapM id children) as [rest|] eqn:Er; [|done].
  injection Hm as <-. destruct (IH rest eq_refl) as [IH1 IH2].
  change (any3 (t :: ts)) with (or3 t (any3 ts)). cbn [map]. split.
  - intros [Ht|Hts]%or3_Some_true; apply or3_Some_true; [left; by apply Hc|right; by apply IH1].
  - cbn [forallb]. intros [He Hes]%andb_prop. apply or3_refines; [by apply Hc|by apply IH2].
Qed.

(** ** Comparisons with a converted literal *)

(** A converted literal stands for the literal against a column's values. *)
Definition converts (fits : Value -> Prop) (d : D) (literal : option Value) : Prop :=
  match literal with None => True | Some v => forall x, fits x -> value_compare x (denote d) = value_compare x v end.

Lemma text_converts (f : string -> Value) (fits : Value -> Prop) d (o : option string) :
  (forall s, o = Some s -> s <> "" -> denote d = f s) ->
  converts fits d (s ← o; if String.eqb s "" then None else Some (f s)).
Proof.
  intros H. destruct o as [s|]; [|done]. cbn. destruct (String.eqb_spec s ""); [done|]. intros x _. by rewrite (H s eq_refl).
Qed.

Lemma compare_refines (fits : Value -> Prop) column c d literal :
  converts fits d literal -> (forall x, row column = Some x -> fits x) ->
  refines (compare3 value_compare c (row column) literal) (eval (PCompare column c d)).
Proof.
  intros Hd Hfit. cbn. destruct (row column) as [x|]; [|by left]. destruct literal as [v|]; [|by left].
  right. cbn. by rewrite (Hd x (Hfit x eq_refl)).
Qed.

Lemma in_refines (fits : Value -> Prop) column ds literals :
  Forall2 (converts fits) ds literals -> (forall x, row column = Some x -> fits x) ->
  refines (any3 (map (fun l => compare3 value_compare Equal (row column) l) literals))
          (any3 (map (fun d => eval (PCompare column Equal d)) ds)).
Proof.
  intros H Hfit. apply any3_refines. induction H; constructor; [|done]. by apply (compare_refines fits).
Qed.
End Evaluation.

(** Doubles in ten-thousandths and 32-bit floats in hundredths: a rounding concrete
    runs use. *)
Definition coarse_floats : Floats.
Proof.
  refine {|
    f64_parse s := match numeral s with Some (u, k) => Some (u * 10 ^ Z.max 0 (4 - k))%Z | None => None end;
    number_as_f64 n := match numeral (number_to_string n) with Some (u, k) => Some (u * 10 ^ Z.max 0 (4 - k))%Z | None => None end;
    as_f32 b := (b / 100)%Z;
    f64_from_f32 b := (b * 100)%Z;
    double_of u k := (u * 10 ^ Z.max 0 (4 - k))%Z;
    float_compare := Z.compare;
    float_eq := Z.eqb;
  |}.
  - intros b. apply Z.eqb_eq.
  - intros a b. apply Z.compare_antisym.
  - intros s u k b ->. by intros [= <-].
  - intros n u k b ->. by intros [= <-].
Defined.

Definition zero_instants : Instants := {| midnight _ := 0%Z; instant _ := 0%Z; instant_utc _ := 0%Z |}.
