(* ===== verification/TypeRewrites.v ===== *)
(** crates/lakehouse-engine/src/adapter/pushdown/support.rs, the type-aware rewrites
    of a request's expressions for the DataFusion scan: the LIKE and string-function
    guards, over-precise timestamp comparisons, decimal stringification, and the
    decision whether the scan applies a filter. *)

From stdpp Require Import base sets list strings numbers.
From Stdlib Require Import Ascii String ZArith NArith Lia ZifyBool.
From S2P Require Import Prelude Text Hex Json ExasolType ColumnNode Render FilterJson TypeMapping ScanSpec ColumnTypes BinaryFilter Pruning.

Local Open Scope string_scope.

(** A fold that may decline. *)
Fixpoint try_fold {A B} (f : A -> B -> option A) (l : list B) (a : A) : option A :=
  match l with [] => Some a | b :: l' => a' ← f a b; try_fold f l' a' end.

Definition EXPR_ARRAY_FIELDS : list string := ["expressions"; "arguments"; "results"].
Definition EXPR_SINGLE_FIELDS : list string := ["expression"; "pattern"; "left"; "right"; "basis"].

Definition rewrite_array_field (rec : Json -> option Json) (node out : Json) (field : string) : option Json :=
  match get node field with
  | Some (JArray children) => rewritten ← mapM rec children; Some (set_key out field (JArray rewritten))
  | _ => Some out
  end.

Definition rewrite_single_field (rec : Json -> option Json) (node out : Json) (field : string) : option Json :=
  match get node field with
  | Some child => if is_object child then rewritten ← rec child; Some (set_key out field rewritten) else Some out
  | None => Some out
  end.

(** Children first; the recursion follows the tree, so its depth is enough. *)
Fixpoint rewrite_expr_tree_fuel (fuel : nat) (f : Json -> option Json) (node : Json) : option Json :=
  match fuel with
  | 0 => None
  | S fuel =>
      let rec := rewrite_expr_tree_fuel fuel f in
      out ← try_fold (rewrite_array_field rec node) EXPR_ARRAY_FIELDS node;
      out ← try_fold (rewrite_single_field rec node) EXPR_SINGLE_FIELDS out;
      f out
  end.

Definition rewrite_expr_tree (f : Json -> option Json) (node : Json) : option Json :=
  rewrite_expr_tree_fuel (json_depth node) f node.

Definition wrap_cast_to_varchar (node : Json) : Json :=
  json_object [("type", JString "function_scalar_cast"); ("name", JString "CAST");
               ("dataType", exasol_type_to_json WIDEST_VARCHAR); ("arguments", JArray [node])].

Definition wrap_decimal_to_varchar (column : Json) : Json :=
  json_object [("type", JString "decimal_to_varchar_exasol"); ("arguments", JArray [column])].

(** ** String positions *)

Inductive StringPositionArgs := NotGoverned | Coerce (indices : list nat) | Decline.

Definition one_of (names : list string) (s : string) : bool := existsb (String.eqb s) names.

Section Rewrites.
Context {UC : UnicodeCase} {JD : JsonDisplay} {HX : Hex}.

Definition string_position_args (fn_name : string) (arg_count : nat) : StringPositionArgs :=
  let coerce_in_range indices := Coerce (List.filter (fun i => i <? arg_count)%nat indices) in
  let fn := to_uppercase fn_name in
  if one_of ["CONCAT"; "TRIM"; "LTRIM"; "RTRIM"; "REPLACE"; "TRANSLATE"] fn then coerce_in_range (seq 0 arg_count)
  else if one_of ["LOWER"; "UPPER"; "ASCII"; "INITCAP"; "REVERSE"; "LENGTH"; "OCTET_LENGTH"; "UNICODE"; "SUBSTR"; "REPEAT"; "LEFT"; "RIGHT"] fn
  then coerce_in_range [0]
  else if one_of ["LPAD"; "RPAD"] fn then if (2 <? arg_count)%nat then coerce_in_range [0; 2] else coerce_in_range [0]
  else if one_of ["INSTR"; "LOCATE"] fn then if (2 <? arg_count)%nat then Decline else coerce_in_range [0; 1]
  else NotGoverned.

Variable col_types : ColumnTypes.

Definition guard_like_subject (like_node : Json) : option Json :=
  match get like_node "expression" with
  | Some subject =>
      if bool_decide (is_Some (ColumnNode.parse subject)) then
        match column_exa_type subject col_types with
        | Some t =>
            if is_character t then Some like_node
            else match t with
                 | Date => Some (set_key like_node "expression" (wrap_cast_to_varchar subject))
                 | _ => None
                 end
        | None => None
        end
      else Some like_node
  | None => Some like_node
  end.

Definition like_rule (out : Json) : option Json :=
  match get_str out "type" with
  | Some kind => if String.eqb kind "predicate_like" then guard_like_subject out else Some out
  | None => Some out
  end.

Definition like_subject_type_guard (filter : Json) : option Json := rewrite_expr_tree like_rule filter.

Definition is_column_node (node : Json) : bool := bool_decide (get_str node "type" = Some "column").

Definition coerce_string_position_arg (arg : Json) : option Json :=
  if negb (is_column_node arg) then Some arg
  else
    match column_exa_type arg col_types with
    | Some t =>
        if is_character t then Some arg
        else match t with
             | Date => Some (wrap_cast_to_varchar arg)
             | DecimalT _ => Some (wrap_decimal_to_varchar arg)
             | _ => None
             end
    | None => None
    end.

(** [out["arguments"][i] = coerced]: an index past the list panics. *)
Definition coerce_arg (args : list Json) (i : nat) : option (list Json) :=
  arg ← args !! i; coerced ← coerce_string_position_arg arg; Some (<[i := coerced]> args).

Definition string_function_rule (out : Json) : option Json :=
  if negb (bool_decide (get_str out "type" = Some "function_scalar")) then Some out
  else
    let fn_name := default "" (get_str out "name") in
    let arg_count := match get_array out "arguments" with Some a => List.length a | None => 0 end in
    match string_position_args fn_name arg_count with
    | NotGoverned => Some out
    | Decline => None
    | Coerce indices =>
        match indices, get_array out "arguments" with
        | [], _ => Some out
        | _, Some args => args ← try_fold coerce_arg indices args; Some (set_key out "arguments" (JArray args))
        | _, None => None
        end
    end.

Definition string_function_arg_type_guard (node : Json) : option Json := rewrite_expr_tree string_function_rule node.

(** ** Decimals *)

Definition is_bare_decimal_column (node : Json) : bool :=
  if negb (is_column_node node) then false
  else match column_exa_type node col_types with Some t => is_decimal t | None => false end.

Definition stringified (a : Json) : Json := if is_bare_decimal_column a then wrap_decimal_to_varchar a else a.

Definition decimal_rule (out : Json) : Json :=
  let node_type := default "" (get_str out "type") in
  if String.eqb node_type "function_scalar_cast" then
    let target_is_string :=
      match get out "dataType" with
      | Some dt => match exasol_type_from_json dt with Ok t => is_character t | Err _ => false end
      | None => false
      end in
    match target_is_string, get_array out "arguments" with
    | true, Some [arg] => if is_bare_decimal_column arg then wrap_decimal_to_varchar arg else out
    | _, _ => out
    end
  else if String.eqb node_type "function_scalar" then
    let fn_name := to_uppercase (default "" (get_str out "name")) in
    match get_array out "arguments" with
    | Some args =>
        if String.eqb fn_name "CONCAT" || String.eqb fn_name "LENGTH"
        then set_key out "arguments" (JArray (map stringified args)) else out
    | None => out
    end
  else out.

Definition rewrite_decimal_stringifications (node : Json) : Json :=
  default node (rewrite_expr_tree (fun out => Some (decimal_rule out)) node).

(** ** Timestamps finer than their column *)

Definition timestamp_literal_floor (column literal : Json) : option Json :=
  if negb (is_column_node column) || negb (bool_decide (get_str literal "type" = Some "literal_timestamp")) then None
  else
    t ← column_exa_type column col_types;
    digits ← fractional_digits t;
    let digits := N.to_nat digits in
    value ← get_str literal "value";
    if (timestamp_literal_digits value <=? digits)%nat then None
    else
      '(instant, fraction) ← split_once "." value;
      let floor := match digits with 0 => instant | d => instant ++ "." ++ substring 0 d fraction end in
      Some (json_object [("type", JString "literal_timestamp"); ("value", JString floor)]).

Definition mirrored_op (op : string) : string :=
  if String.eqb op "predicate_less" then "predicate_greater"
  else if String.eqb op "predicate_lessequal" then "predicate_greaterequal"
  else if String.eqb op "predicate_greater" then "predicate_less"
  else if String.eqb op "predicate_greaterequal" then "predicate_lessequal"
  else op.

Definition comparison_node (op : string) (l r : Json) : Json := json_object [("type", JString op); ("left", l); ("right", r)].

(** The last arm, of a comparison. *)
Definition rewrite_timestamp_op (node : Json) (op : string) : option Json :=
  l ← get node "left";
  r ← get node "right";
  '(column, floor, mirrored) ←
    match timestamp_literal_floor l r with
    | Some floor => Some (l, floor, false)
    | None => floor ← timestamp_literal_floor r l; Some (r, floor, true)
    end;
  let op := if mirrored : bool then mirrored_op op else op in
  if String.eqb op "predicate_equal" then Some (comparison_node "predicate_notequal" column column)
  else if String.eqb op "predicate_notequal" then Some (comparison_node "predicate_equal" column column)
  else if String.eqb op "predicate_less" || String.eqb op "predicate_lessequal"
  then Some (comparison_node "predicate_lessequal" column floor)
  else if String.eqb op "predicate_greater" || String.eqb op "predicate_greaterequal"
  then Some (comparison_node "predicate_greater" column floor)
  else None.

Definition compare_at_column (op : string) (column literal : Json) : Json :=
  let node := comparison_node op column literal in default node (rewrite_timestamp_op node op).

Definition rewrite_timestamp_comparison (node : Json) : option Json :=
  kind ← get_str node "type";
  if String.eqb kind "predicate_between" then
    column ← get node "expression";
    low ← get node "left";
    high ← get node "right";
    _ ← match timestamp_literal_floor column low with Some f => Some f | None => timestamp_literal_floor column high end;
    Some (json_object [("type", JString "predicate_and");
                       ("expressions", JArray [compare_at_column "predicate_greaterequal" column low;
                                               compare_at_column "predicate_lessequal" column high])])
  else if String.eqb kind "predicate_in_constlist" then
    column ← get node "expression";
    values ← get_array node "arguments";
    _ ← head (omap (timestamp_literal_floor column) values);
    Some (json_object [("type", JString "predicate_or");
                       ("expressions", JArray (map (compare_at_column "predicate_equal" column) values))])
  else rewrite_timestamp_op node kind.

Definition rewrite_overprecise_timestamp_comparisons (node : Json) : option Json :=
  rewrite_expr_tree (fun out => Some (default out (rewrite_timestamp_comparison out))) node.

(** ** The decision *)

Definition apply_type_rewrites (expr : Json) : option Json :=
  expr ← like_subject_type_guard expr;
  expr ← string_function_arg_type_guard expr;
  expr ← rewrite_overprecise_timestamp_comparisons expr;
  Some (rewrite_decimal_stringifications expr).

Definition datafusion_renderable (expr : Json) : bool := bool_decide (is_Some (render_expression_safe expr)).

Definition type_accepted_rewrite (expr : Json) : option Json :=
  tree ← apply_type_rewrites expr;
  let tree := compare_binary_bytes col_types tree in
  if datafusion_renderable tree then Some tree else None.

Definition classify_where_filter (filter_json_raw : option Json) : option string * option Json :=
  match filter_json_raw, filter_json_raw ≫= type_accepted_rewrite with
  | Some raw, None => (None, Some raw)
  | _, tree => (tree ≫= render_df_filter_safe, None)
  end.
End Rewrites.

Fixpoint contains_aggregate_node_fuel (fuel : nat) (node : Json) : bool :=
  match fuel with
  | 0 => false
  | S fuel =>
      match node with
      | JObject m =>
          bool_decide (get_str node "type" = Some "function_aggregate")
          || existsb (fun kv => contains_aggregate_node_fuel fuel kv.2) m
      | JArray items => existsb (contains_aggregate_node_fuel fuel) items
      | _ => false
      end
  end.

Definition contains_aggregate_node (node : Json) : bool := contains_aggregate_node_fuel (json_depth node) node.

(** ** String positions are in range *)

(** The string-function guard never indexes past a call's arguments: every
    position it coerces is one of them, whatever the function and its arity. *)
Theorem string_positions_in_range {UC : UnicodeCase} fn_name arg_count indices i :
  string_position_args fn_name arg_count = Coerce indices -> i ∈ indices -> i < arg_count.
Proof.
  unfold string_position_args. intros H Hi.
  assert (forall l, Coerce (List.filter (fun i => (i <? arg_count)%nat) l) = Coerce indices -> i < arg_count) as Hl.
  { intros l [= <-]. apply list_elem_of_In, List.filter_In in Hi as [_ Hi]. by apply Nat.ltb_lt. }
  revert H. cbv zeta. generalize (to_uppercase fn_name) as fn. intros fn.
  destruct (one_of ["CONCAT"; _; _; _; _; _] fn); [by apply Hl|].
  destruct (one_of ("LOWER" :: _) fn); [by apply Hl|].
  destruct (one_of ["LPAD"; _] fn); [destruct (2 <? arg_count)%nat; by apply Hl|].
  destruct (one_of ["INSTR"; _] fn); [|done]. destruct (2 <? arg_count)%nat; [done|by apply Hl].
Qed.

Lemma string_positions_in_range_witness : 2 < 3.
Proof.
  refine (string_positions_in_range (UC := ascii_case) "lpad" 3 [0; 2] 2 _ _); [vm_compute; reflexivity|].
  right. left.
Defined.

(** ** Digits of a fraction *)

Lemma digits_value_app acc a b : digits_value acc (a ++ b) = digits_value (digits_value acc a) b.
Proof. revert acc. induction a as [|c a IH]; intros acc; [done|]. rewrite string_app_cons. cbn. apply IH. Qed.

Lemma digits_value_acc acc s : (digits_value acc s = acc * 10 ^ N.of_nat (String.length s) + digits_value 0 s)%N.
Proof.
  revert acc. induction s as [|c s IH]; intros acc; [cbn; lia|]. cbn [digits_value String.length].
  rewrite IH, (IH (10 * 0 + _)%N), Nat2N.inj_succ, N.pow_succ_r'. lia.
Qed.

Lemma digits_value_bound s : string_forallb is_ascii_digit s = true -> (digits_value 0 s < 10 ^ N.of_nat (String.length s))%N.
Proof.
  induction s as [|c s IH]; [cbn; lia|]. cbn [string_forallb]. intros [Hc Hs]%andb_prop. cbn [digits_value String.length].
  rewrite digits_value_acc, Nat2N.inj_succ, N.pow_succ_r'. specialize (IH Hs).
  assert (code c - 48 <= 9)%N by (unfold is_ascii_digit in Hc; lia). nia.
Qed.

Lemma zero_digits_trimmed s :
  string_forallb is_ascii_digit s = true -> digits_value 0 s = 0%N -> trim_end_matches "0" s = "".
Proof.
  induction s as [|c s IH]; [done|]. cbn [string_forallb]. intros [Hc Hs]%andb_prop. cbn [digits_value]. rewrite digits_value_acc. intros H.
  apply N.eq_add_0 in H as [H H0]. cbn. rewrite (IH Hs H0).
  assert (10 ^ N.of_nat (String.length s) <> 0)%N by (apply N.pow_nonzero; lia).
  assert (code c = 48%N) as Hcode by (unfold is_ascii_digit in Hc; nia).
  destruct (Ascii.eqb_spec c "0") as [->|Hne]; [done|]. exfalso. apply Hne.
  rewrite <- (ascii_N_embedding c). unfold code in Hcode. by rewrite Hcode.
Qed.

(** The text after the first [d] characters. *)
Fixpoint drop_chars (d : nat) (s : string) : string :=
  match d, s with S d, String _ s => drop_chars d s | 0, s => s | _, EmptyString => "" end.

Lemma trim_length_le d s :
  string_forallb is_ascii_digit s = true -> digits_value 0 (drop_chars d s) = 0%N ->
  String.length (trim_end_matches "0" s) <= d.
Proof.
  revert d. induction s as [|c s IH]; intros d Hs H; [cbn; lia|]. destruct d as [|d].
  - rewrite (zero_digits_trimmed _ Hs H). done.
  - cbn in Hs. apply andb_prop in Hs as [_ Hs]. specialize (IH d Hs H). cbn.
    destruct (trim_end_matches "0" s); [destruct (Ascii.eqb c "0"); cbn; lia|cbn in *; lia].
Qed.

Lemma take_drop_chars d s : d <= String.length s -> s = substring 0 d s ++ drop_chars d s.
Proof.
  revert d. induction s as [|c s IH]; intros [|d] H; try done.
  cbn [substring drop_chars]. rewrite string_app_cons. f_equal. apply IH. cbn in H. lia.
Qed.

Lemma substring_length d s : d <= String.length s -> String.length (substring 0 d s) = d.
Proof.
  revert d. induction s as [|c s IH]; intros [|d] H; cbn in H |- *; try lia. rewrite IH; lia.
Qed.

Lemma substring_zero s : substring 0 0 s = "".
Proof. by destruct s. Qed.

Lemma trim_length s : String.length (trim_end_matches "0" s) <= String.length s.
Proof.
  induction s as [|c s IH]; [done|]. cbn. destruct (trim_end_matches "0" s); [destruct (Ascii.eqb c "0"); cbn; lia|cbn in *; lia].
Qed.

(** Cutting a fraction with a later nonzero digit loses something less than one unit
    of its last kept digit. *)
Lemma cut_fraction d f :
  string_forallb is_ascii_digit f = true -> d < String.length (trim_end_matches "0" f) ->
  exists rest, (0 < rest < 10 ^ Z.of_nat (String.length f - d))%Z /\ d <= String.length f /\
    Z.of_N (digits_value 0 f) = (Z.of_N (digits_value 0 (substring 0 d f)) * 10 ^ Z.of_nat (String.length f - d) + rest)%Z.
Proof.
  intros Hf Hd. pose proof (trim_length f). assert (d <= String.length f) as Hle by lia.
  pose proof (take_drop_chars d f Hle) as Hsplit.
  assert (String.length (drop_chars d f) = String.length f - d) as Hlen.
  { pose proof (substring_length d f Hle).
    pose proof (f_equal String.length Hsplit) as E. rewrite string_length_app in E. lia. }
  assert (string_forallb is_ascii_digit (drop_chars d f) = true) as Hdig.
  { rewrite Hsplit, string_forallb_app in Hf. by apply andb_prop in Hf as [_ Hf]. }
  exists (Z.of_N (digits_value 0 (drop_chars d f))). split_and!; [| |done|].
  - destruct (N.eq_dec (digits_value 0 (drop_chars d f)) 0) as [E|]; [|lia]. pose proof (trim_length_le d f Hf E). lia.
  - pose proof (digits_value_bound _ Hdig) as Hb. rewrite Hlen in Hb.
    apply N2Z.inj_lt in Hb. rewrite N2Z.inj_pow, nat_N_Z in Hb. done.
  - rewrite Hsplit at 1. rewrite digits_value_app, digits_value_acc, Hlen, N2Z.inj_add, N2Z.inj_mul, N2Z.inj_pow, nat_N_Z. done.
Qed.

Lemma split_once_parts c s a b :
  split_once c s = Some (a, b) -> s = a ++ String c b /\ string_forallb (fun d => negb (Ascii.eqb d c)) a = true.
Proof.
  revert a. induction s as [|d s IH]; intros a; [done|]. cbn. destruct (Ascii.eqb_spec d c) as [->|Hne].
  - by intros [= <- <-].
  - destruct (split_once c s) as [[a' b']|]; [|done]. intros [= <- <-]. destruct (IH a' eq_refl) as [-> Ha].
    split; [done|]. cbn. rewrite Ha. by destruct (Ascii.eqb_spec d c).
Qed.

(** ** Over-precise timestamps

    A timestamp is a number of seconds, as digits and how many of them follow the
    point. *)
Class Clock := { seconds : string -> Z }.

Definition timestamp_value `{Clock} (text : string) : Z * Z :=
  match split_once "." text with
  | Some (whole, fraction) =>
      ((seconds whole * 10 ^ Z.of_nat (String.length fraction) + Z.of_N (digits_value 0 fraction))%Z, Z.of_nat (String.length fraction))
  | None => (seconds text, 0%Z)
  end.

Definition time_compare (a b : Z * Z) : comparison := num_compare a.1 a.2 b.1 b.2.

Lemma time_compare_refl a : time_compare a a = Eq.
Proof. unfold time_compare, num_compare. apply Z.compare_refl. Qed.

Lemma time_compare_antisym a b : time_compare b a = CompOpp (time_compare a b).
Proof. unfold time_compare, num_compare. apply Z.compare_antisym. Qed.

(** Between two neighbouring instants of a column lies no instant of it. *)
Lemma floor_orders a k s p n d rest :
  (0 <= k <= d)%Z -> (d <= n)%Z -> (0 < rest < 10 ^ (n - d))%Z ->
  let literal := (s * 10 ^ n + (p * 10 ^ (n - d) + rest))%Z in
  let floor := (s * 10 ^ d + p)%Z in
  num_compare a k literal n = (match num_compare a k floor d with Gt => Gt | _ => Lt end).
Proof.
  intros Hk Hd Hrest literal floor. rewrite !(num_compare_at n) by lia. rewrite Z.sub_diag, Z.mul_1_r.
  assert (10 ^ (n - k) = 10 ^ (d - k) * 10 ^ (n - d))%Z as -> by (rewrite <- Z.pow_add_r by lia; f_equal; lia).
  assert (literal = floor * 10 ^ (n - d) + rest)%Z as ->.
  { unfold literal, floor. replace (10 ^ n)%Z with (10 ^ d * 10 ^ (n - d))%Z by (rewrite <- Z.pow_add_r by lia; f_equal; lia). lia. }
  rewrite Z.mul_assoc. generalize (a * 10 ^ (d - k))%Z as y. intros y. revert Hrest. generalize (10 ^ (n - d))%Z as m. intros m Hrest.
  destruct (Z.compare_spec (y * m) (floor * m)) as [E|L|G].
  - apply Z.compare_lt_iff. lia.
  - apply Z.compare_lt_iff. lia.
  - apply Z.compare_gt_iff. assert (floor < y)%Z by nia. nia.
Qed.

Section Exactness.
Context {UC : UnicodeCase} {CK : Clock}.
Variables (col_types : ColumnTypes) (row : ColumnRef -> option (Z * Z)) (other : Json -> option (Z * Z)).

(** What a row gives an operand: a column's instant, a timestamp literal's, anything
    else as [other] says. *)
Definition time_operand (node : Json) : option (Z * Z) :=
  match column_node_ref node with
  | Some c => row c
  | None =>
      match get_str node "type", get_str node "value" with
      | Some kind, Some v => if String.eqb kind "literal_timestamp" then Some (timestamp_value v) else other node
      | _, _ => other node
      end
  end.

(** A timestamp column holds at most the fraction digits it declares. *)
Definition holds_digits : Prop :=
  forall c t d v k, get_type col_types c = Some t -> fractional_digits (exa_type t) = Some d -> row c = Some (v, k) ->
    (0 <= k <= Z.of_N d)%Z.

(** The fraction of a timestamp literal is digits. *)
Definition plain_timestamp (node : Json) : bool :=
  match get_str node "type", get_str node "value" with
  | Some kind, Some v =>
      negb (String.eqb kind "literal_timestamp")
      || match split_once "." v with Some (_, f) => string_forallb is_ascii_digit f | None => true end
  | _, _ => true
  end.

Hypothesis Hdigits : holds_digits.

(** The literal and its floor order alike around every instant of the column. *)
Lemma literal_floor_orders column literal floor :
  timestamp_literal_floor col_types column literal = Some floor -> plain_timestamp literal = true ->
  exists l f, time_operand literal = Some l /\ time_operand floor = Some f /\
    forall x, time_operand column = Some x -> time_compare x l = (match time_compare x f with Gt => Gt | _ => Lt end).
Proof.
  unfold timestamp_literal_floor. unfold is_column_node.
  case_bool_decide as Hcol; [|done]. case_bool_decide as Hlit; [|done]. cbn [negb orb].
  unfold column_exa_type, resolve. destruct (column_node_ref column) as [c|] eqn:Ec; [|done]. cbn [mbind option_bind fmap option_fmap option_map].
  destruct (entry col_types c) as [[c' t]|] eqn:Et; [|done]. cbn [mbind option_bind fmap option_fmap option_map snd].
  destruct (fractional_digits (exa_type t)) as [d|] eqn:Ed; [|done]. cbn [mbind option_bind].
  destruct (get_str literal "value") as [value|] eqn:Ev; [|done]. cbn [mbind option_bind].
  destruct (Nat.leb_spec (timestamp_literal_digits value) (N.to_nat d)) as [|Hfine]; [done|].
  unfold timestamp_literal_digits in Hfine. destruct (split_once "." value) as [[w f]|] eqn:Es; [|lia]. cbn [mbind option_bind].
  intros [= <-] Hplain. unfold plain_timestamp in Hplain. rewrite Hlit, Ev, Es in Hplain. cbn in Hplain.
  destruct (cut_fraction _ _ Hplain Hfine) as (rest & Hrest & Hle & Hcut).
  destruct (split_once_parts _ _ _ _ Es) as [_ Hw].
  set (text := match N.to_nat d with 0 => w | S _ => _ end).
  exists (timestamp_value value), (timestamp_value text).
  assert (column_node_ref literal = None) as Hnl.
  { unfold column_node_ref. destruct (ColumnNode.parse literal) as [cn|] eqn:E; [|done]. apply column_node_type in E. congruence. }
  assert (timestamp_value text = ((seconds w * 10 ^ Z.of_N d + Z.of_N (digits_value 0 (substring 0 (N.to_nat d) f)))%Z, Z.of_N d)) as Htext.
  { unfold text, timestamp_value. destruct (N.to_nat d) as [|d'] eqn:Ed'.
    - rewrite plain_no_point by done. assert (d = 0%N) as -> by lia. cbn. rewrite substring_zero. cbn. f_equal; lia.
    - change (w ++ "." ++ substring 0 (S d') f) with (w ++ String "." (substring 0 (S d') f)). rewrite split_once_here by done. rewrite substring_length by lia. rewrite <- Ed', N_nat_Z. done. }
  split_and!.
  - unfold time_operand. by rewrite Hnl, Hlit, Ev.
  - done.
  - intros [a k] Hx. unfold time_operand in Hx. rewrite Ec in Hx.
    assert (get_type col_types c = Some t) as Hget by (unfold get_type; by rewrite Et).
    pose proof (Hdigits c t d a k Hget Ed Hx) as Hk. rewrite Htext. unfold timestamp_value at 1. rewrite Es. unfold time_compare. cbn [fst snd].
    rewrite Hcut. rewrite Nat2Z.inj_sub, N_nat_Z in * by lia. apply floor_orders; lia.
Qed.

Notation tmeans := (means time_operand time_compare).

(** The comparison a column is given instead, of the same truth. *)
Definition coarser (c : Comparison) (column floor : Json) : Json :=
  match c with
  | Equal => comparison_node "predicate_notequal" column column
  | NotEqual => comparison_node "predicate_equal" column column
  | Less | LessEqual => comparison_node "predicate_lessequal" column floor
  | Greater | GreaterEqual => comparison_node "predicate_greater" column floor
  end.

Lemma comparison_node_means c l r t :
  tmeans (comparison_node (node_type c) l r) t <-> t = compare3 time_compare c (time_operand l) (time_operand r).
Proof. by apply means_comparison. Qed.

Lemma coarser_exact c column literal floor t :
  timestamp_literal_floor col_types column literal = Some floor -> plain_timestamp literal = true ->
  tmeans (coarser c column floor) t <-> t = compare3 time_compare c (time_operand column) (time_operand literal).
Proof.
  intros Hf Hp. destruct (literal_floor_orders _ _ _ Hf Hp) as (l & f & Hl & Hfl & Hord). rewrite Hl.
  assert (forall c', (forall x, time_operand column = Some x -> holds c' Eq = holds c (time_compare x l)) ->
            tmeans (comparison_node (node_type c') column column) t <-> t = compare3 time_compare c (time_operand column) (Some l)) as Hself.
  { intros c' H. rewrite comparison_node_means. destruct (time_operand column) as [x|]; [|done]. cbn [compare3].
    by rewrite time_compare_refl, (H x eq_refl). }
  assert (forall c', (forall x, time_operand column = Some x -> holds c' (time_compare x f) = holds c (time_compare x l)) ->
            tmeans (comparison_node (node_type c') column floor) t <-> t = compare3 time_compare c (time_operand column) (Some l)) as Hfloor.
  { intros c' H. rewrite comparison_node_means, Hfl. destruct (time_operand column) as [x|]; [|done]. cbn [compare3].
    by rewrite (H x eq_refl). }
  destruct c; [apply (Hself NotEqual)|apply (Hself Equal)|apply (Hfloor LessEqual)|apply (Hfloor LessEqual)|apply (Hfloor Greater)|apply (Hfloor Greater)];
    intros x Hx; rewrite (Hord x Hx); by destruct (time_compare x f).
Qed.

(** The last arm keeps the truth of every comparison it rewrites. *)
Lemma timestamp_op_exact node c l r node' t :
  get node "left" = Some l -> get node "right" = Some r -> plain_timestamp l = true -> plain_timestamp r = true ->
  rewrite_timestamp_op col_types node (node_type c) = Some node' ->
  tmeans node' t <-> t = compare3 time_compare c (time_operand l) (time_operand r).
Proof.
  intros Hl Hr Pl Pr. unfold rewrite_timestamp_op. rewrite Hl, Hr. cbn [mbind option_bind].
  destruct (timestamp_literal_floor col_types l r) as [floor|] eqn:Ef; cbn [mbind option_bind].
  - intros H. rewrite <- (coarser_exact c l r floor t Ef Pr). by destruct c; injection H as <-.
  - destruct (timestamp_literal_floor col_types r l) as [floor|] eqn:Ef'; [|done]. cbn [mbind option_bind].
    intros H. rewrite <- (compare3_swapped time_compare c) by (intros; apply time_compare_antisym).
    rewrite <- (coarser_exact (with_operands_swapped c) r l floor t Ef' Pl). by destruct c; injection H as <-.
Qed.

Lemma compare_at_column_exact c column literal t :
  plain_timestamp column = true -> plain_timestamp literal = true ->
  tmeans (compare_at_column col_types (node_type c) column literal) t <->
  t = compare3 time_compare c (time_operand column) (time_operand literal).
Proof.
  intros Pc Pl. unfold compare_at_column. destruct (rewrite_timestamp_op col_types _ (node_type c)) as [node'|] eqn:E; cbn [default from_option id].
  - by eapply (timestamp_op_exact (comparison_node (node_type c) column literal)); [..|exact E].
  - apply comparison_node_means.
Qed.

(** Only comparisons are rewritten. *)
Lemma timestamp_op_comparison node op node' :
  rewrite_timestamp_op col_types node op = Some node' -> exists c, op = node_type c.
Proof.
  intros H. destruct (from_node_type op) as [c|] eqn:E; [exists c; by apply from_node_type_Some|]. exfalso.
  assert (forall c, String.eqb op (node_type c) = false) as Hne.
  { intros c. apply String.eqb_neq. intros ->. by rewrite node_type_roundtrip in E. }
  pose proof (Hne Equal) as E1. pose proof (Hne NotEqual) as E2. pose proof (Hne Less) as E3. pose proof (Hne LessEqual) as E4.
  pose proof (Hne Greater) as E5. pose proof (Hne GreaterEqual) as E6. cbn [node_type] in E1, E2, E3, E4, E5, E6.
  assert (mirrored_op op = op) as Hm by (unfold mirrored_op; by rewrite E3, E4, E5, E6).
  unfold rewrite_timestamp_op in H. destruct (get node "left"); [|done]. cbn [mbind option_bind] in H.
  destruct (get node "right"); [|done]. cbn [mbind option_bind] in H.
  destruct (match timestamp_literal_floor _ _ _ with Some _ => _ | None => _ end) as [[[column floor] mirrored]|]; [|done].
  cbn [mbind option_bind] in H. cbv zeta in H.
  assert ((if mirrored : bool then mirrored_op op else op) = op) as Hop by (by destruct mirrored). rewrite Hop in H.
  by rewrite E1, E2, E3, E4, E5, E6 in H.
Qed.

(** The nodes a comparison, a range or a membership compares. *)
Definition compared (node : Json) : list Json :=
  omap id [get node "expression"; get node "left"; get node "right"] ++ default [] (get_array node "arguments").

Lemma compared_field node key x : get node key = Some x -> key ∈ ["expression"; "left"; "right"] -> x ∈ compared node.
Proof.
  intros Hx Hkey. unfold compared. apply elem_of_app. left. apply list_elem_of_omap. exists (Some x). split; [|done].
  rewrite <- Hx. set_solver.
Qed.

Lemma rewrite_timestamp_exact node node' t :
  Forall (fun x => plain_timestamp x = true) (compared node) ->
  rewrite_timestamp_comparison col_types node = Some node' -> tmeans node t <-> tmeans node' t.
Proof.
  intros Hplain. assert (forall x, x ∈ compared node -> plain_timestamp x = true) as Hp.
  { intros x Hx. by apply (proj1 (List.Forall_forall _ _) Hplain), list_elem_of_In. }
  assert (forall key x, get node key = Some x -> key ∈ ["expression"; "left"; "right"] -> plain_timestamp x = true) as Hfield.
  { intros key x Hx Hkey. apply Hp. by eapply compared_field. }
  unfold rewrite_timestamp_comparison. destruct (get_str node "type") as [kind|] eqn:Hk; [|done]. cbn [mbind option_bind].
  destruct (String.eqb_spec kind "predicate_between") as [->|].
  { destruct (get node "expression") as [column|] eqn:Ee; [|done]. destruct (get node "left") as [low|] eqn:El; [|done].
    destruct (get node "right") as [high|] eqn:Er; [|done]. cbn [mbind option_bind].
    destruct (match timestamp_literal_floor col_types column low with Some _ => _ | None => _ end); [|done]. intros [= <-].
    rewrite (means_between _ _ node column low high t Hk Ee El Er), (means_and _ _ _ [_; _]) by reflexivity.
    pose proof (Hfield _ _ Ee ltac:(set_solver)) as P1. pose proof (Hfield _ _ El ltac:(set_solver)) as P2. pose proof (Hfield _ _ Er ltac:(set_solver)) as P3.
    split.
    - intros ->. eexists [_; _]. split; [|by rewrite <- (and3_true_r (compare3 time_compare LessEqual _ _))].
      constructor; [by apply (compare_at_column_exact GreaterEqual)|]. constructor; [|constructor]. by apply (compare_at_column_exact LessEqual).
    - intros (ts & Hts & ->). apply Forall2_cons_inv_l in Hts as (t1 & ts' & H1 & Hts & ->).
      apply Forall2_cons_inv_l in Hts as (t2 & ts'' & H2 & Hts & ->). apply Forall2_nil_inv_l in Hts as ->.
      apply (compare_at_column_exact GreaterEqual) in H1 as ->; [|done..]. apply (compare_at_column_exact LessEqual) in H2 as ->; [|done..].
      cbn [all3 foldr]. by rewrite and3_true_r. }
  destruct (String.eqb_spec kind "predicate_in_constlist") as [->|].
  { destruct (get node "expression") as [column|] eqn:Ee; [|done]. cbn [mbind option_bind].
    destruct (get_array node "arguments") as [values|] eqn:Ea; [|done]. cbn [mbind option_bind].
    destruct (head _); [|done]. cbn [mbind option_bind]. intros [= <-].
    rewrite (means_in _ _ node column values t Hk Ee Ea), (means_or _ _ _ (map (compare_at_column col_types "predicate_equal" column) values)) by reflexivity.
    pose proof (Hfield _ _ Ee ltac:(set_solver)) as P1.
    assert (forall x, x ∈ values -> plain_timestamp x = true) as P2.
    { intros x Hx. apply Hp. unfold compared. apply elem_of_app. right. by rewrite Ea. }
    clear -P1 P2 Hdigits. split.
    - intros ->. exists (map (fun a => compare3 time_compare Equal (time_operand column) (time_operand a)) values). split; [|done].
      induction values as [|v values IH]; [constructor|]. cbn [map]. constructor; [|apply IH; set_solver].
      apply (compare_at_column_exact Equal); [done| |done]. apply P2. set_solver.
    - intros (ts & Hts & ->). f_equal. revert ts Hts. induction values as [|v values IH]; intros ts Hts.
      + by apply Forall2_nil_inv_l in Hts as ->.
      + cbn [map] in Hts |- *. apply Forall2_cons_inv_l in Hts as (t1 & ts' & H1 & Hts & ->).
        apply (compare_at_column_exact Equal) in H1 as ->; [|done|apply P2; set_solver]. f_equal. apply IH; [set_solver|done]. }
  intros H. destruct (timestamp_op_comparison _ _ _ H) as [c ->].
  destruct (get node "left") as [l|] eqn:El; [|unfold rewrite_timestamp_op in H; by rewrite El in H].
  destruct (get node "right") as [r|] eqn:Er; [|unfold rewrite_timestamp_op in H; by rewrite El, Er in H].
  rewrite (means_comparison _ _ node c l r t Hk El Er).
  symmetry. apply (timestamp_op_exact node c l r node' t El Er); [| |done].
  - apply (Hfield _ _ El). set_solver.
  - apply (Hfield _ _ Er). set_solver.
Qed.
End Exactness.

(** Rewriting a comparison with a timestamp finer than its column changes no
    answer: on every row whose timestamp columns hold at most the fraction digits
    they declare, the rewritten comparison, range or membership has the truth value
    of the original, UNKNOWN included, so an enclosing NOT stays exact. *)
Theorem timestamp_rewrite_exact {UC : UnicodeCase} {CK : Clock} (col_types : ColumnTypes) (row : ColumnRef -> option (Z * Z))
    (other : Json -> option (Z * Z)) node node' t :
  holds_digits col_types row -> Forall (fun x => plain_timestamp x = true) (compared node) ->
  rewrite_timestamp_comparison col_types node = Some node' ->
  means (time_operand row other) time_compare node t <-> means (time_operand row other) time_compare node' t.
Proof. intros Hd Hp H. by eapply rewrite_timestamp_exact. Qed.

Definition clock_zero : Clock := {| seconds _ := 0%Z |}.
Definition event_columns : ColumnTypes := [(bare "AT", MkColumnType (Timestamp 3) None)].
Definition event_row (c : ColumnRef) : option (Z * Z) := if String.eqb (name c) "AT" then Some (123%Z, 3%Z) else None.
Definition event_literal : Json := json_object [("type", JString "literal_timestamp"); ("value", JString "2024-01-01 00:00:00.1234")].
Definition event_column : Json := json_object [("type", JString "column"); ("name", JString "AT")].
Definition event_filter : Json := comparison_node "predicate_less" event_literal event_column.

Lemma timestamp_rewrite_exact_witness :
  means (time_operand (UC := ascii_case) (CK := clock_zero) event_row (fun _ => None)) time_compare event_filter (Some false) <->
  means (time_operand (UC := ascii_case) (CK := clock_zero) event_row (fun _ => None)) time_compare
    (comparison_node "predicate_greater" event_column
       (json_object [("type", JString "literal_timestamp"); ("value", JString "2024-01-01 00:00:00.123")])) (Some false).
Proof.
  refine (timestamp_rewrite_exact (UC := ascii_case) (CK := clock_zero) event_columns event_row (fun _ => None) event_filter _ (Some false) _ _ _).
  - intros [r n] t d v k Ht Hd Hv. unfold get_type, entry, event_columns in Ht. cbn [List.find fst] in Ht.
    rewrite binds_bare in Ht. cbn [name] in Ht. destruct (String.eqb_spec "AT" n) as [<-|]; [|done].
    cbn in Ht. injection Ht as <-. injection Hd as <-. injection Hv as <- <-. lia.
  - repeat constructor.
  - vm_compute. reflexivity.
Defined.

(** ** What the guards leave *)

(** The expression nodes of a tree: the node and those its curated fields hold. *)
Inductive expr_sub (x : Json) : Json -> Prop :=
| sub_here : expr_sub x x
| sub_array node field children child :
    field ∈ EXPR_ARRAY_FIELDS -> get node field = Some (JArray children) -> child ∈ children -> expr_sub x child -> expr_sub x node
| sub_single node field child :
    field ∈ EXPR_SINGLE_FIELDS -> get node field = Some child -> is_object child = true -> expr_sub x child -> expr_sub x node.

(** The nodes below a node. *)
Definition below (x node : Json) : Prop :=
  (exists field children child, field ∈ EXPR_ARRAY_FIELDS /\ get node field = Some (JArray children) /\ child ∈ children /\ expr_sub x child) \/
  (exists field child, field ∈ EXPR_SINGLE_FIELDS /\ get node field = Some child /\ is_object child = true /\ expr_sub x child).

Lemma expr_sub_cases x node : expr_sub x node -> x = node \/ below x node.
Proof. intros H. inversion H; subst; [by left|right; left; eauto 10|right; right; eauto 10]. Qed.

Lemma get_set_key node key v key' :
  get (set_key node key v) key' = if String.eqb key key' then (if is_object node then Some v else None) else get node key'.
Proof. destruct node; try (cbn; by destruct (String.eqb key key')). unfold get, set_key. rewrite map_get_insert. by destruct (String.eqb key key'). Qed.

Section Guards.
Variable good : Json -> Prop.

(** Every node of the children of a field is good. *)
Definition field_good (node : Json) (field : string) : Prop :=
  (field ∈ EXPR_ARRAY_FIELDS -> forall children child x, get node field = Some (JArray children) -> child ∈ children -> expr_sub x child -> good x) /\
  (field ∈ EXPR_SINGLE_FIELDS -> forall child x, get node field = Some child -> is_object child = true -> expr_sub x child -> good x).

Lemma below_good node : (forall field, field_good node field) -> forall x, below x node -> good x.
Proof.
  intros H x [(field & children & child & Hf & Hg & Hc & Hx)|(field & child & Hf & Hg & Ho & Hx)].
  - by eapply (proj1 (H field)).
  - by eapply (proj2 (H field)).
Qed.

Lemma array_fields_disjoint field : field ∈ EXPR_ARRAY_FIELDS -> field ∈ EXPR_SINGLE_FIELDS -> False.
Proof. unfold EXPR_ARRAY_FIELDS, EXPR_SINGLE_FIELDS. intros H1 H2. set_unfold. naive_solver. Qed.

(** One pass over a list of fields, each rewriting its own. *)
Lemma try_fold_fields (step : Json -> string -> option Json) (node : Json) fields out out' :
  NoDup fields ->
  (forall out field out', field ∈ fields -> step out field = Some out' ->
     (forall key, key <> field -> get out' key = get out key) /\ (get out field = get node field -> field_good out' field)) ->
  (forall field, field ∈ fields -> get out field = get node field) ->
  try_fold step fields out = Some out' ->
  (forall field, field ∈ fields -> field_good out' field) /\ (forall key, key ∉ fields -> get out' key = get out key).
Proof.
  intros Hnd Hstep. revert out. induction fields as [|field fields IH]; intros out Hsame H.
  - injection H as <-. split; [set_solver|done].
  - cbn in H. destruct (step out field) as [mid|] eqn:Es; [|done]. cbn in H. inversion Hnd as [|? ? Hni Hnd']; subst.
    destruct (Hstep out field mid ltac:(set_solver) Es) as [Hkeep Hgood].
    destruct (IH Hnd') with (out := mid) as [H1 H2]; [|..|done|].
    + intros o k o' Hk. apply Hstep. set_solver.
    + intros k Hk. rewrite Hkeep; [apply Hsame; set_solver|]. intros ->. done.
    + split.
      * intros k Hk. apply elem_of_cons in Hk as [->|Hk]; [|by apply H1].
        assert (get out' field = get mid field) as E by (by apply H2).
        assert (field_good mid field) as Hg by (apply Hgood, Hsame; set_solver).
        destruct Hg as [Ha Hs]. split; intros Hin; [intros children child x|intros child x]; rewrite E; [by apply Ha|by apply Hs].
      * intros k Hk. rewrite H2 by set_solver. apply Hkeep. set_solver.
Qed.

Lemma field_good_ext node node' field : get node' field = get node field -> field_good node field -> field_good node' field.
Proof. intros E [Ha Hs]. split; intros Hin; [intros children child x|intros child x]; rewrite E; [by apply Ha|by apply Hs]. Qed.

Variable rec : Json -> option Json.
Hypothesis Hrec : forall node r, rec node = Some r -> forall x, expr_sub x r -> good x.

Lemma array_step node out field out' :
  field ∈ EXPR_ARRAY_FIELDS -> rewrite_array_field rec node out field = Some out' ->
  (forall key, key <> field -> get out' key = get out key) /\ (get out field = get node field -> field_good out' field).
Proof.
  intros Hin. unfold rewrite_array_field.
  assert (forall out', out' = out -> (forall children, get node field <> Some (JArray children)) ->
            (forall key, key <> field -> get out' key = get out key) /\ (get out field = get node field -> field_good out' field)) as Hsame.
  { intros o -> Hno. split; [done|]. intros E. split; [|intros Hs; by destruct (array_fields_disjoint field)].
    intros _ children child x Hg. rewrite E in Hg. by destruct (Hno children). }
  destruct (get node field) as [[| | | |children|]|] eqn:Eg; try (intros [= <-]; by apply Hsame).
  destruct (mapM rec children) as [l|] eqn:Em; [|done]. intros [= <-]. clear Hsame. split.
  - intros key Hkey. rewrite get_set_key. by destruct (String.eqb_spec field key) as [<-|].
  - intros _. split; [|intros Hs; by destruct (array_fields_disjoint field)].
    intros _ children' child x. rewrite get_set_key, String.eqb_refl. destruct (is_object out); [|done]. intros [= <-] Hchild Hx.
    apply mapM_Some_1 in Em. apply list_elem_of_lookup in Hchild as [i Hi]. destruct (Forall2_lookup_r _ _ _ _ _ Em Hi) as (c & _ & Hc).
    by eapply Hrec.
Qed.

Lemma single_step node out field out' :
  field ∈ EXPR_SINGLE_FIELDS -> rewrite_single_field rec node out field = Some out' ->
  (forall key, key <> field -> get out' key = get out key) /\ (get out field = get node field -> field_good out' field).
Proof.
  intros Hin. unfold rewrite_single_field.
  assert (forall out', out' = out -> (forall child, get node field = Some child -> is_object child = false) ->
            (forall key, key <> field -> get out' key = get out key) /\ (get out field = get node field -> field_good out' field)) as Hsame.
  { intros o -> Hno. split; [done|]. intros E. split; [intros Ha; by destruct (array_fields_disjoint field)|].
    intros _ child x Hg Ho. rewrite E in Hg. by rewrite (Hno child Hg) in Ho. }
  destruct (get node field) as [child|] eqn:Eg; [|intros [= <-]; by apply Hsame].
  destruct (is_object child) eqn:Eo; [|intros [= <-]; apply Hsame; [done|by intros ? [= <-]]].
  destruct (rec child) as [r|] eqn:Er; [|done]. intros [= <-]. clear Hsame. split.
  - intros key Hkey. rewrite get_set_key. by destruct (String.eqb_spec field key) as [<-|].
  - intros _. split; [intros Ha; by destruct (array_fields_disjoint field)|].
    intros _ child' x. rewrite get_set_key, String.eqb_refl. destruct (is_object out); [|done]. intros [= <-] _ Hx. by eapply Hrec.
Qed.

(** After both passes every node below is good. *)
Lemma passes_good node out out' :
  try_fold (rewrite_array_field rec node) EXPR_ARRAY_FIELDS node = Some out ->
  try_fold (rewrite_single_field rec node) EXPR_SINGLE_FIELDS out = Some out' -> forall x, below x out' -> good x.
Proof.
  intros Ha Hs.
  destruct (try_fold_fields (rewrite_array_field rec node) node EXPR_ARRAY_FIELDS node out) as [Ga Ka]; [| |done|done|].
  { apply (bool_decide_eq_true_1 _). vm_compute. reflexivity. }
  { intros o field o' Hin. by apply array_step. }
  destruct (try_fold_fields (rewrite_single_field rec node) node EXPR_SINGLE_FIELDS out out') as [Gs Ks]; [| | |done|].
  { apply (bool_decide_eq_true_1 _). vm_compute. reflexivity. }
  { intros o field o' Hin. by apply single_step. }
  { intros field Hin. apply Ka. intros Ha'. by eapply array_fields_disjoint. }
  apply below_good. intros field. destruct (decide (field ∈ EXPR_SINGLE_FIELDS)) as [Hin|Hni]; [by apply Gs|].
  destruct (decide (field ∈ EXPR_ARRAY_FIELDS)) as [Hin|Hni'].
  - apply (field_good_ext out); [by apply Ks|by apply Ga].
  - by split.
Qed.
End Guards.

(** A rule that makes its own node good makes the whole tree good. *)
Lemma rewritten_good (f : Json -> option Json) (good : Json -> Prop) :
  (forall out r, f out = Some r -> (forall x, below x out -> good x) -> forall x, expr_sub x r -> good x) ->
  forall fuel node r, rewrite_expr_tree_fuel fuel f node = Some r -> forall x, expr_sub x r -> good x.
Proof.
  intros Hf. induction fuel as [|fuel IH]; intros node r H; [done|]. cbn [rewrite_expr_tree_fuel] in H.
  destruct (try_fold (rewrite_array_field _ node) EXPR_ARRAY_FIELDS node) as [out|] eqn:Ea; [|done]. cbn [mbind option_bind] in H.
  destruct (try_fold (rewrite_single_field _ node) EXPR_SINGLE_FIELDS out) as [out'|] eqn:Es; [|done]. cbn [mbind option_bind] in H.
  eapply Hf; [done|]. by eapply (passes_good good); [|exact Ea|exact Es].
Qed.

Section Accepted.
Context {UC : UnicodeCase} {JD : JsonDisplay}.
Variable col_types : ColumnTypes.

(** A LIKE whose subject is a bare column of a type that is not text. *)
Definition like_safe (node : Json) : Prop :=
  get_str node "type" = Some "predicate_like" ->
  forall subject, get node "expression" = Some subject -> is_Some (ColumnNode.parse subject) ->
  exists t, column_exa_type subject col_types = Some t /\ is_character t = true.

Lemma object_get_str m key : get_str (json_object m) key = get (json_object m) key ≫= as_str.
Proof. done. Qed.

(** The nodes of a cast of a column are the cast and the column. *)
Lemma cast_sub x column c :
  ColumnNode.parse column = Some c -> expr_sub x (wrap_cast_to_varchar column) ->
  x = wrap_cast_to_varchar column \/ expr_sub x column.
Proof.
  intros Hc [->|[(field & children & child & Hf & Hg & Hch & Hx)|(field & child & Hf & Hg & Ho & Hx)]]%expr_sub_cases; [by left| |].
  - unfold EXPR_ARRAY_FIELDS in Hf.
    repeat (apply elem_of_cons in Hf as [->|Hf]; [try discriminate Hg|]); [|by apply elem_of_nil in Hf].
    injection Hg as <-. apply list_elem_of_singleton in Hch as ->. by right.
  - unfold EXPR_SINGLE_FIELDS in Hf.
    repeat (apply elem_of_cons in Hf as [->|Hf]; [discriminate Hg|]). by apply elem_of_nil in Hf.
Qed.

Lemma like_rule_good out r :
  like_rule col_types out = Some r -> (forall x, below x out -> like_safe x) -> forall x, expr_sub x r -> like_safe x.
Proof.
  intros H Hbelow x Hx.
  assert (r = out -> like_safe out -> like_safe x) as Hkeep.
  { intros -> Hout. apply expr_sub_cases in Hx as [->|Hx]; auto. }
  unfold like_rule in H. destruct (get_str out "type") as [kind|] eqn:Hk.
  2: { injection H as <-. apply Hkeep; [done|]. intros Hk'. congruence. }
  destruct (String.eqb_spec kind "predicate_like") as [->|Hne].
  2: { injection H as <-. apply Hkeep; [done|]. intros Hk'. congruence. }
  unfold guard_like_subject in H. destruct (get out "expression") as [subject|] eqn:Ee.
  2: { injection H as <-. apply Hkeep; [done|]. intros _ s Hs. congruence. }
  case_bool_decide as Hcol.
  2: { injection H as <-. apply Hkeep; [done|]. intros _ s Hs Hp. rewrite Ee in Hs. by injection Hs as <-. }
  destruct (column_exa_type subject col_types) as [t|] eqn:Et; [|done].
  destruct (is_character t) eqn:Ec.
  { injection H as <-. apply Hkeep; [done|]. intros _ s Hs Hp. rewrite Ee in Hs. injection Hs as <-. eauto. }
  destruct t; try discriminate H. injection H as <-. destruct Hcol as [c Hc].
  assert (like_safe (wrap_cast_to_varchar subject)) as Hwrap by (intros Hk'; discriminate Hk').
  assert (is_object subject = true) as Hobj by (by destruct subject).
  assert (forall x, expr_sub x (wrap_cast_to_varchar subject) -> like_safe x) as Hsub.
  { intros y Hy. destruct (cast_sub y subject c Hc Hy) as [->|Hy']; [done|]. apply Hbelow. right. exists "expression", subject.
    split_and!; try done. unfold EXPR_SINGLE_FIELDS. set_solver. }
  apply expr_sub_cases in Hx as [->|Hx].
  - intros _ s Hs [c' Hc']. rewrite get_set_key, String.eqb_refl in Hs. destruct (is_object out); [|done]. injection Hs as <-.
    apply column_node_type in Hc'. discriminate Hc'.
  - destruct Hx as [(field & children & child & Hf & Hg & Hch & Hx)|(field & child & Hf & Hg & Ho & Hx)]; rewrite get_set_key in Hg.
    + destruct (String.eqb_spec "expression" field) as [<-|]; [by destruct (is_object out)|]. apply Hbelow. left. eauto 10.
    + destruct (String.eqb_spec "expression" field) as [<-|]; [|apply Hbelow; right; eauto 10].
      destruct (is_object out); [|done]. injection Hg as <-. by apply Hsub.
Qed.
End Accepted.

(** No LIKE the scan is handed compares a bare column of a non-text type: a
    subject of another type is cast when it is a DATE, and otherwise the whole tree
    is declined, at any depth. *)
Theorem like_subjects_are_text {UC : UnicodeCase} {JD : JsonDisplay} (col_types : ColumnTypes) filter tree node subject :
  like_subject_type_guard col_types filter = Some tree -> expr_sub node tree -> get_str node "type" = Some "predicate_like" ->
  get node "expression" = Some subject -> is_Some (ColumnNode.parse subject) ->
  exists t, column_exa_type subject col_types = Some t /\ is_character t = true.
Proof.
  intros H Hn Hk Hs Hp. refine (rewritten_good (like_rule col_types) (like_safe col_types) _ _ _ _ H node Hn Hk subject Hs Hp).
  intros out r. apply like_rule_good.
Qed.

Definition like_columns : ColumnTypes := [(bare "NOTE", MkColumnType WIDEST_VARCHAR None); (bare "DAY", MkColumnType Date None)].
Definition like_of (column : string) : Json :=
  json_object [("type", JString "predicate_like"); ("expression", json_object [("type", JString "column"); ("name", JString column)]);
               ("pattern", json_object [("type", JString "literal_string"); ("value", JString "2024%")])].
Definition like_filter : Json :=
  json_object [("type", JString "predicate_and"); ("expressions", JArray [like_of "DAY"; like_of "NOTE"])].

Lemma like_subjects_are_text_witness :
  exists t, column_exa_type (UC := ascii_case) (json_object [("type", JString "column"); ("name", JString "NOTE")]) like_columns = Some t /\
            is_character t = true.
Proof.
  refine (like_subjects_are_text (UC := ascii_case) (JD := scalar_display) like_columns like_filter
    (json_object [("type", JString "predicate_and"); ("expressions", JArray [set_key (like_of "DAY") "expression"
       (wrap_cast_to_varchar (json_object [("type", JString "column"); ("name", JString "DAY")])); like_of "NOTE"])])
    (like_of "NOTE") _ _ _ _ _ _).
  - vm_compute. reflexivity.
  - eapply (sub_array _ _ "expressions"); [left|reflexivity|right; left|]. apply sub_here.
  - reflexivity.
  - reflexivity.
  - by eexists.
Defined.
