(* ===== verification/Projection.v ===== *)
(** crates/lakehouse-engine/src/adapter/pushdown/support.rs, the request and its
    projection: the checked select-list types, the columns and expressions a scan
    emits for a select list, the window and order-by probes. *)

From stdpp Require Import base list strings numbers.
From Stdlib Require Import Ascii String ZArith NArith Lia.
From S2P Require Import Prelude Hex Json ExasolType ColumnNode Render ScanSpec ColumnTypes ExasolRules TypeRewrites.

Local Open Scope string_scope.

(** ** The request *)

Record PushdownRequest := MkPushdown { json : Json; select_types : list ExasolType }.

Section Request.
Context {JD : JsonDisplay}.

Definition PushdownRequest_parse (j : Json) : result UdfError PushdownRequest :=
  let? entries := ok_or (get_array j "selectListDataTypes")
    (User "the pushdown request carries no selectListDataTypes array; the adapter needs Exasol 8.29 or later") in
  let? select_types := try_map exasol_type_from_json entries in
  match get_array j "selectList" with
  | Some items =>
      if negb (List.length items =? 0)%nat && negb (List.length items =? List.length select_types)%nat
      then Err (User ("the pushdown request declares " ++ show_nat (List.length select_types)
             ++ " selectListDataTypes entries for " ++ show_nat (List.length items) ++ " selectList items"))
      else Ok (MkPushdown j select_types)
  | None => Ok (MkPushdown j select_types)
  end.
End Request.

Definition select_type (p : PushdownRequest) (select_index : nat) : option ExasolType :=
  select_types p !! select_index.

Definition emittable_select_type (p : PushdownRequest) (select_index : nat) : option ExasolType :=
  t ← select_type p select_index; if is_udf_emittable t then Some t else None.

Definition with_json (p : PushdownRequest) (j : Json) : PushdownRequest := MkPushdown j (select_types p).

(** ** Window and order probes *)

Definition extract_limit (pushdown_req : Json) : option N :=
  l ← get pushdown_req "limit"; n ← get l "numElements"; as_u64 n.

Definition extract_offset (pushdown_req : Json) : N :=
  default 0%N (l ← get pushdown_req "limit"; n ← get l "offset"; as_u64 n).

Definition render_limit_offset (limit : option N) (offset : N) : string :=
  match limit with
  | None => ""
  | Some n => if (offset =? 0)%N then " LIMIT " ++ show_N n else " LIMIT " ++ show_N n ++ " OFFSET " ++ show_N offset
  end.

Definition order_by_present (pushdown_req : Json) : bool :=
  match get_array pushdown_req "orderBy" with Some a => negb (List.length a =? 0)%nat | None => false end.

(** ** The projection *)

Definition LITERAL_SELECTLIST_TYPES : list string :=
  ["literal_null"; "literal_bool"; "literal_string"; "literal_exactnumeric"; "literal_double"; "literal_date";
   "literal_timestamp"; "literal_timestamp_utc"; "literal_timestamputc"].

Definition is_literal_selectlist_item (item_type : string) : bool := one_of LITERAL_SELECTLIST_TYPES item_type.

Definition is_pushable_expression_node (node_type : string) : bool :=
  one_of ["function_scalar"; "function_scalar_cast"; "decimal_to_varchar_exasol"; "function_scalar_extract";
          "function_scalar_case"; "predicate_equal"; "predicate_less"; "predicate_lessequal"; "predicate_like";
          "predicate_and"; "predicate_or"; "predicate_not"; "predicate_in_constlist"; "predicate_between";
          "predicate_is_null"; "predicate_is_not_null"; "predicate_notequal"] node_type.

Definition emits_ident (item : ProjectionItem) (index : nat) : string :=
  match item with
  | PColumn column => exasol_quote_ident (output_name column)
  | PExpr _ => exasol_quote_ident ("_LH_PROJ_" ++ show_nat index)
  end.

Definition cast_to_declared_type (expr : string) (declared : ExasolType) : string :=
  "CAST(" ++ expr ++ " AS " ++ display declared ++ ")".

Section Project.
Context {UC : UnicodeCase} {JD : JsonDisplay} {HX : Hex}.

Definition collect_all_column_names (value : Json) : list string := map upper_name (walk_column_nodes value).

Variable all_cols : ColumnTypes.

(** One select-list item after the type rewrites; [None] widens the projection. *)
Definition project_rewritten (pushdown : PushdownRequest) (first : ColumnRef * ColumnType) (i : nat) (e : Json)
  : option ProjectedColumn :=
  let item_type := default "" (get_str e "type") in
  if String.eqb item_type "column" then
    let '(column, exa) :=
      match resolve all_cols e, column_node_ref e with
      | Some (column, column_type), _ => (column, exa_type column_type)
      | None, Some named => (bare (ScanSpec.name named), WIDEST_VARCHAR)
      | None, None => (first.1, exa_type first.2)
      end in
    Some (MkProjected (PColumn column) exa)
  else if is_literal_selectlist_item item_type || is_pushable_expression_node item_type then
    match render_expression_safe e, emittable_select_type pushdown i with
    | Some sql_frag, Some exa => Some (MkProjected (PExpr sql_frag) exa)
    | _, _ => None
    end
  else None.

Definition project_item (pushdown : PushdownRequest) (first : ColumnRef * ColumnType) (i : nat) (e : Json)
  : option ProjectedColumn :=
  if contains_aggregate_node e then None
  else e ← apply_type_rewrites all_cols e; project_rewritten pushdown first i e.

(** The loop over the select list: the items projected so far, and whether one
    was not. *)
Fixpoint project_list (pushdown : PushdownRequest) (first : ColumnRef * ColumnType) (i : nat) (l : list Json)
    (projected : list ProjectedColumn) (needs_full_fallback : bool) : list ProjectedColumn * bool :=
  match l with
  | [] => (projected, needs_full_fallback)
  | e :: l' =>
      match project_item pushdown first i e with
      | Some c => project_list pushdown first (S i) l' (projected ++ [c])%list needs_full_fallback
      | None => project_list pushdown first (S i) l' projected true
      end
  end.

Definition project_columns (pushdown : PushdownRequest) : result UdfError (list ProjectedColumn * bool) :=
  match all_cols with
  | [] => Err (User "pushdown request has no column metadata")
  | first :: _ =>
      let full_row := full_projection all_cols in
      match get (json pushdown) "selectList" with
      | None | Some JNull => Ok (full_row, false)
      | Some (JArray []) => Ok (take 1 full_row, false)
      | Some (JArray list) =>
          let '(projected, needs_full_fallback) := project_list pushdown first 0 list [] false in
          Ok (if needs_full_fallback then full_row else projected, needs_full_fallback)
      | _ => Ok (full_row, false)
      end
  end.
End Project.

(** ** The projection of a select list *)

Section Facts.
Context {UC : UnicodeCase} {JD : JsonDisplay} {HX : Hex}.
Variable all_cols : ColumnTypes.

Lemma parse_request j p :
  PushdownRequest_parse j = Ok p ->
  json p = j /\ (forall items, get_array j "selectList" = Some items -> items <> [] -> List.length (select_types p) = List.length items).
Proof.
  unfold PushdownRequest_parse. destruct (get_array j "selectListDataTypes") as [entries|]; [|done]. cbn [ok_or].
  destruct (try_map _ _) as [ts|]; [|done]. destruct (get_array j "selectList") as [items|].
  - case_match eqn:Hc; [done|]. intros [= <-]. split; [done|]. intros items' [= <-] Hne. cbn.
    destruct items as [|x items]; [done|]. rewrite andb_false_iff, !negb_false_iff, !Nat.eqb_eq in Hc. by destruct Hc.
  - intros [= <-]. split; [done|]. done.
Qed.

(** The loop projects every item in its place, or reports one it could not. *)
Lemma project_list_spec p first l i acc fell :
  (exists out, mapM (fun ie => project_item all_cols p first (fst ie) (snd ie)) (imap (fun k e => (i + k, e)) l) = Some out
     /\ project_list all_cols p first i l acc fell = (acc ++ out, fell)%list)
  \/ (exists out k e, l !! k = Some e /\ project_item all_cols p first (i + k) e = None
     /\ project_list all_cols p first i l acc fell = (out, true)).
Proof.
  revert i acc fell. induction l as [|e l IH]; intros i acc fell.
  { left. exists []. by rewrite app_nil_r. }
  cbn [project_list imap mapM]. rewrite Nat.add_0_r. cbn [fst snd].
  assert (Hshift : imap ((fun k e => (i + k, e)) ∘ S) l = imap (fun k e => (S i + k, e)) l).
  { apply imap_ext. intros k x _. cbn. f_equal. lia. }
  rewrite Hshift. destruct (project_item all_cols p first i e) as [c|] eqn:Ee.
  - destruct (IH (S i) (acc ++ [c])%list fell) as [(out & Hm & ->)|(out & k & x & Hk & Hx & ->)].
    + left. exists (c :: out). cbn [mbind option_bind]. rewrite Hm. cbn. by rewrite <- app_assoc.
    + right. exists out, (S k), x. split_and!; [done| |done]. by rewrite Nat.add_succ_r.
  - right. destruct (IH (S i) acc true) as [(out & _ & ->)|(out & k & x & _ & _ & ->)];
      eexists _, 0, e; split_and!; try done; by rewrite Nat.add_0_r.
Qed.

Lemma project_list_outcome p first l projected fell :
  project_list all_cols p first 0 l [] false = (projected, fell) ->
  if fell then exists i e, l !! i = Some e /\ project_item all_cols p first i e = None
  else List.length projected = List.length l
       /\ forall i e, l !! i = Some e -> exists c, projected !! i = Some c /\ project_item all_cols p first i e = Some c.
Proof.
  intros H. destruct (project_list_spec p first l 0 [] false) as [(out & Hm & Hl)|(out & k & e & Hk & Hn & Hl)];
    rewrite Hl in H; injection H as <- <-; [|by exists k, e].
  cbn [app]. apply mapM_Some_1 in Hm. split.
  { apply Forall2_length in Hm. by rewrite length_imap in Hm. }
  intros i e Hi. apply (Forall2_lookup_l _ _ _ i (i, e)) in Hm as (c & Hc & Hp); [by exists c|].
  by rewrite list_lookup_imap, Hi.
Qed.

(** An item that no scan column can answer: it holds an aggregate, the type rewrites
    refuse it, or it is neither a column nor a literal or expression that renders under a
    type a UDF can emit. *)
Definition unprojectable (p : PushdownRequest) (i : nat) (e : Json) : Prop :=
  contains_aggregate_node e = true
  \/ apply_type_rewrites all_cols e = None
  \/ exists e', apply_type_rewrites all_cols e = Some e' /\ get_str e' "type" <> Some "column"
     /\ ((forall kind, get_str e' "type" = Some kind -> is_literal_selectlist_item kind = false /\ is_pushable_expression_node kind = false)
         \/ render_expression_safe e' = None
         \/ (forall t, select_types p !! i = Some t -> is_udf_emittable t = false)).

(** What an item is emitted as, [e'] being the item after the type rewrites. An expression
    is its SQL under the type declared for its position. A column is the table's column
    under its type; one the table lacks keeps its name as the widest VARCHAR, and a node
    without a name stands for the first column. *)
Definition emitted_as (p : PushdownRequest) (first : ColumnRef * ColumnType) (i : nat) (e' : Json) (c : ProjectedColumn) : Prop :=
  match item c with
  | PExpr sql =>
      get_str e' "type" <> Some "column" /\ render_expression_safe e' = Some sql
      /\ select_types p !! i = Some (projected_type c) /\ is_udf_emittable (projected_type c) = true
  | PColumn col =>
      get_str e' "type" = Some "column"
      /\ match resolve all_cols e', column_node_ref e' with
         | Some (r, t), _ => col = r /\ projected_type c = exa_type t
         | None, Some named => col = bare (ScanSpec.name named) /\ projected_type c = WIDEST_VARCHAR
         | None, None => col = first.1 /\ projected_type c = exa_type first.2
         end
  end.

Lemma emitted_emittable p first i e' c :
  Forall (fun ct => is_udf_emittable (exa_type ct.2) = true) all_cols -> first ∈ all_cols -> emitted_as p first i e' c -> is_udf_emittable (projected_type c) = true.
Proof.
  intros Hall Hf%list_elem_of_In. rewrite List.Forall_forall in Hall. unfold emitted_as. destruct (item c); [tauto|]. intros [_ H].
  destruct (resolve all_cols e') as [[r t]|] eqn:Hr; [|destruct (column_node_ref e'); destruct H as [_ ->]; [done|by apply Hall]].
  destruct H as [_ ->]. unfold resolve, entry in Hr. destruct (column_node_ref e') as [cr|]; [|done]. cbn [mbind option_bind] in Hr.
  apply List.find_some in Hr as [Hr _]. exact (Hall (r, t) Hr).
Qed.

Lemma project_rewritten_spec p first i e' :
  match project_rewritten all_cols p first i e' with
  | Some c => emitted_as p first i e' c
  | None =>
      get_str e' "type" <> Some "column"
      /\ ((forall kind, get_str e' "type" = Some kind -> is_literal_selectlist_item kind = false /\ is_pushable_expression_node kind = false)
          \/ render_expression_safe e' = None
          \/ (forall t, select_types p !! i = Some t -> is_udf_emittable t = false))
  end.
Proof.
  unfold project_rewritten, emitted_as. destruct (String.eqb_spec (default "" (get_str e' "type")) "column") as [Hc|Hc].
  - assert (Ht : get_str e' "type" = Some "column") by (destruct (get_str e' "type"); cbn in Hc; congruence).
    destruct (resolve all_cols e') as [[col t]|]; [by split_and!|]. by destruct (column_node_ref e').
  - assert (Ht : get_str e' "type" <> Some "column") by (intros E; by rewrite E in Hc).
    destruct (_ || _) eqn:Ek.
    + unfold emittable_select_type, select_type. destruct (render_expression_safe e') as [sql|]; [|by auto].
      destruct (select_types p !! i) as [t|]; cbn [mbind option_bind]; [|split; [done|right; right; done]].
      destruct (is_udf_emittable t) eqn:Et; [by split_and!|]. split; [done|]. right. right. by intros ? [= <-].
    + split; [done|]. left. intros kind Hk. rewrite Hk in Ek. cbn in Ek. by apply orb_false_iff in Ek.
Qed.

Lemma project_item_spec p first i e :
  match project_item all_cols p first i e with
  | Some c => contains_aggregate_node e = false /\ exists e', apply_type_rewrites all_cols e = Some e' /\ emitted_as p first i e' c
  | None => unprojectable p i e
  end.
Proof.
  unfold project_item, unprojectable. destruct (contains_aggregate_node e); [by left|].
  destruct (apply_type_rewrites all_cols e) as [e'|]; cbn [mbind option_bind]; [|by right; left].
  pose proof (project_rewritten_spec p first i e') as H. destruct (project_rewritten all_cols p first i e') as [c|].
  - split; [done|]. by exists e'.
  - right. right. by exists e'.
Qed.

Lemma emitted_projectable p first i e e' c :
  contains_aggregate_node e = false -> apply_type_rewrites all_cols e = Some e' -> project_item all_cols p first i e = Some c -> ~ unprojectable p i e.
Proof.
  intros Ha Hr. unfold project_item. rewrite Ha, Hr. cbn [mbind option_bind].
  intros Hp [H|[H|(e'' & H & Hc & Hor)]]; [congruence|congruence|]. rewrite Hr in H. injection H as <-. revert Hp. unfold project_rewritten.
  destruct (String.eqb_spec (default "" (get_str e' "type")) "column") as [Hc'|_].
  { intros _. apply Hc. destruct (get_str e' "type"); cbn in Hc'; congruence. }
  destruct (_ || _) eqn:Ek; [|done]. unfold emittable_select_type, select_type. destruct Hor as [Hk|[->|Ht]]; [|done|].
  - destruct (get_str e' "type") as [kind|]; [|done]. destruct (Hk kind eq_refl) as [H1 H2].
    change (is_literal_selectlist_item kind || is_pushable_expression_node kind = true) in Ek. by rewrite H1, H2 in Ek.
  - destruct (render_expression_safe e'); [|done]. destruct (select_types p !! i) as [t|]; [|done]. cbn [mbind option_bind]. by rewrite (Ht t eq_refl).
Qed.
End Facts.

(** C24. The columns a row scan emits are those Exasol validates. The projection widens
    exactly when some select-list item cannot be answered by a scan column - it holds an
    aggregate, the type rewrites refuse it, or it is neither a column nor a literal or
    expression that renders under a type a UDF can emit - and is then the full base row.
    Otherwise it has one column per item, in place: an expression is the SQL of its
    rewritten tree under the type Exasol declares for that position, a column the table's
    column under its type, and no other item becomes a column (a column the table lacks
    keeps its name as the widest VARCHAR). Every emitted type is one a UDF can emit when
    the table's columns have such types. *)
Theorem projection_matches_select_list {UC : UnicodeCase} {JD : JsonDisplay} {HX : Hex} all_cols j p items proj widened :
  PushdownRequest_parse j = Ok p -> get_array j "selectList" = Some items -> items <> [] ->
  Forall (fun ct => is_udf_emittable (exa_type ct.2) = true) all_cols ->
  project_columns all_cols p = Ok (proj, widened) ->
  Forall (fun c => is_udf_emittable (projected_type c) = true) proj
  /\ (widened = true <-> exists i e, items !! i = Some e /\ unprojectable all_cols p i e)
  /\ if widened
     then proj = full_projection all_cols
     else List.length proj = List.length items
          /\ forall i e, items !! i = Some e -> exists c e' first, proj !! i = Some c /\ all_cols !! 0 = Some first
             /\ contains_aggregate_node e = false /\ apply_type_rewrites all_cols e = Some e' /\ emitted_as all_cols p first i e' c.
Proof.
  intros Hp Hi Hne Hall Hproj. apply parse_request in Hp as [<- Hlen].
  assert (Hfull : Forall (fun c => is_udf_emittable (projected_type c) = true) (full_projection all_cols)).
  { unfold full_projection. apply Forall_map. revert Hall. apply Forall_impl. by intros [c t]. }
  unfold project_columns in Hproj. destruct all_cols as [|first rest] eqn:Ec; [done|]. rewrite <- Ec in *.
  unfold get_array in Hi. destruct (get (json p) "selectList") as [v|]; [|done]. cbn [mbind option_bind] in Hi.
  destruct v as [| | | |l|]; try done. injection Hi as ->. destruct items as [|x items]; [done|].
  destruct (project_list _ _ _ _ _ _ _) as [projected fell] eqn:El. injection Hproj as <- <-.
  pose proof (project_list_outcome all_cols p first _ _ _ El) as Ho. destruct fell.
  { split; [done|]. split; [|done]. split; [|done]. intros _. destruct Ho as (i & e & Hie & Hn). exists i, e. split; [done|].
    pose proof (project_item_spec all_cols p first i e) as H. by rewrite Hn in H. }
  destruct Ho as [Hl Ho].
  assert (Hitem : forall i e, (x :: items) !! i = Some e -> exists c e', projected !! i = Some c /\ contains_aggregate_node e = false
    /\ apply_type_rewrites all_cols e = Some e' /\ emitted_as all_cols p first i e' c /\ ~ unprojectable all_cols p i e).
  { intros i e He. destruct (Ho i e He) as (c & Hc & Hpi). pose proof (project_item_spec all_cols p first i e) as H. rewrite Hpi in H.
    destruct H as (Ha & e' & Hr & Hem). exists c, e'. split_and!; [done..|]. by eapply emitted_projectable. }
  split; [|split; [|split; [done|]]].
  - apply Forall_lookup. intros i c Hc.
    destruct (lookup_lt_is_Some_2 (x :: items) i) as [e He]. { rewrite <- Hl. by eapply lookup_lt_Some. }
    destruct (Hitem i e He) as (c' & e' & Hc' & _ & _ & Hem & _). assert (c' = c) as -> by congruence.
    eapply emitted_emittable; [exact Hall| |exact Hem]. rewrite Ec. by left.
  - split; [done|]. intros (i & e & He & Hu). destruct (Hitem i e He) as (? & ? & _ & _ & _ & _ & Hn). done.
  - intros i e He. destruct (Hitem i e He) as (c & e' & Hc & Ha & Hr & Hem & _). exists c, e', first. split_and!; try done. by rewrite Ec.
Qed.

(** A column and a literal, projected in place. *)
Definition order_cols : ColumnTypes :=
  [(bare "ID", MkColumnType (DecimalT (MkDecimal 18 0)) None); (bare "NOTE", MkColumnType (Varchar 100 false) None)].
Definition select_request : Json :=
  json_object [("selectList", JArray [ColumnNode.to_json "NOTE" None None; json_object [("type", JString "literal_bool"); ("value", JBool true)]]);
               ("selectListDataTypes", JArray [exasol_type_to_json (Varchar 100 false); exasol_type_to_json Boolean])].

Lemma projection_matches_select_list_witness :
  Forall (fun c => is_udf_emittable (projected_type c) = true)
    [MkProjected (PColumn (bare "NOTE")) (Varchar 100 false); MkProjected (PExpr "TRUE") Boolean].
Proof.
  refine (proj1 (projection_matches_select_list (UC := ascii_case) (JD := scalar_display) (HX := plain_hex) order_cols
    select_request (MkPushdown select_request [Varchar 100 false; Boolean]) _ _ false _ _ _ _ _)).
  - vm_compute. reflexivity.
  - vm_compute. reflexivity.
  - discriminate.
  - repeat constructor.
  - vm_compute. reflexivity.
Defined.
