(* ===== verification/TopN.v ===== *)
(** crates/lakehouse-engine/src/adapter/pushdown/topn.rs: sort keys of a request,
    the bounded top-N a shard may compute, and the wrapper that sorts a declined
    one in Exasol. *)

From stdpp Require Import base list strings numbers sorting.
From Stdlib Require Import Ascii String ZArith NArith Lia.
From S2P Require Import Prelude Hex Json ExasolType ColumnNode Render ArrowTypes TypeMapping ScanSpec ColumnTypes Projection.

Local Open Scope string_scope.

Inductive ParsedSortKey :=
| KColumn (key : SortKey)
| KExpression (rendered : string) (columns : list string) (ascending nulls_last : bool)
| Unrenderable.

Definition referenced_columns (key : ParsedSortKey) : list string :=
  match key with
  | KColumn key => [ScanSpec.name (sort_column key)]
  | KExpression _ columns _ _ => columns
  | Unrenderable => []
  end.

Definition ParsedSortKey_render (key : ParsedSortKey) : option string :=
  match key with
  | KColumn key => Some (render_order_by_element key)
  | KExpression rendered _ ascending nulls_last => Some (render_ordered rendered ascending nulls_last)
  | Unrenderable => None
  end.

Definition parse_sort_flags (element : Json) : option (bool * bool) :=
  ascending ← get element "isAscending" ≫= as_bool;
  nulls_last ← get element "nullsLast" ≫= as_bool;
  Some (ascending, nulls_last).

(** [Vec<String>::sort] of a set of names: byte order. *)
Definition name_le (a b : string) : Prop := String.leb a b = true.

#[export] Instance name_le_dec a b : Decision (name_le a b).
Proof. unfold name_le. apply _. Defined.

Definition sorted_names (names : list string) : list string := merge_sort name_le (remove_dups names).

Section Keys.
Context {UC : UnicodeCase} {JD : JsonDisplay} {HX : Hex}.

Definition parse_sort_key_element (element : Json) : option SortKey :=
  expression ← get element "expression";
  column ← column_node_ref expression;
  ascending ← get element "isAscending" ≫= as_bool;
  nulls_last ← get element "nullsLast" ≫= as_bool;
  Some (MkSortKey column ascending nulls_last).

Definition parse_declined_sort_key (element : Json) : ParsedSortKey :=
  match parse_sort_key_element element with
  | Some key => KColumn key
  | None =>
      match parse_sort_flags element, get element "expression" with
      | Some (ascending, nulls_last), Some expr =>
          match render_expression_exasol_safe expr with
          | Some rendered => KExpression rendered (sorted_names (collect_all_column_names expr)) ascending nulls_last
          | None => Unrenderable
          end
      | _, _ => Unrenderable
      end
  end.

Definition parse_order_by_keys (pushdown_req : Json) : list ParsedSortKey :=
  map parse_declined_sort_key (default [] (get_array pushdown_req "orderBy")).

Definition is_unrenderable (key : ParsedSortKey) : bool := match key with Unrenderable => true | _ => false end.

Definition unrenderable_positions (keys : list ParsedSortKey) : list string :=
  omap (fun ik => if is_unrenderable ik.2 then Some (show_nat (ik.1 + 1)) else None) (imap (fun i k => (i, k)) keys).

Definition ensure_every_sort_key_renders (keys : list ParsedSortKey) : result UdfError () :=
  match unrenderable_positions keys with
  | [] => Ok tt
  | positions =>
      Err (User ("ORDER BY pushdown declined: sort key at clause position " ++ join ", " positions
        ++ " could not be rendered for the declined row-scan wrapper; this is a hard error, not a native re-plan"))
  end.

(** ** Bounded top-N *)

Definition projects_column (proj_cols : list ProjectionItem) (column : ColumnRef) : bool :=
  existsb (fun p => match p with PColumn c => bool_decide (c = column) | _ => false end) proj_cols.

Definition logical_type (logical_schema : list LogicalField) (column : string) : option DataType :=
  (fun f => arrow_type_from_tag (lf_arrow_type f))
    <$> List.find (fun f => String.eqb (to_uppercase (lf_name f)) column) logical_schema.

Definition topn_key (proj_cols : list ProjectionItem) (logical_schema : list LogicalField) (element : Json) : option SortKey :=
  key ← parse_sort_key_element element;
  if projects_column proj_cols (sort_column key) then
    arrow_type ← logical_type logical_schema (ScanSpec.name (sort_column key));
    if needs_json_fallback arrow_type then None else Some key
  else None.

Definition detect_topn (request pushdown_req : Json) (proj_cols : list ProjectionItem)
    (logical_schema : list LogicalField) : option (list SortKey) :=
  _ ← extract_limit pushdown_req;
  if negb (extract_offset pushdown_req =? 0)%N then None
  else if bool_decide (get_str pushdown_req "aggregationType" = Some "group_by") then None
  else if match get_array pushdown_req "groupBy" with Some a => negb (List.length a =? 0)%nat | None => false end then None
  else if match get pushdown_req "having" with Some h => negb (is_null h) | None => false end then None
  else if negb (List.length (default [] (get_array request "involvedTables")) =? 1)%nat then None
  else
    elements ← get_array pushdown_req "orderBy";
    match elements with
    | [] => None
    | _ => mapM (topn_key proj_cols logical_schema) elements
    end.

(** ** The declined wrapper *)

Definition already_emitted (projection : list ProjectedColumn) (column : string) : bool :=
  existsb (fun projected =>
    match item projected with
    | PColumn c => bool_decide (relation c = None) && String.eqb (ScanSpec.name c) column
    | _ => false
    end) projection.

Definition extend_with_column (col_types : ColumnTypes) (projection : list ProjectedColumn) (column : string)
  : list ProjectedColumn :=
  if already_emitted projection column then projection
  else
    match get_type col_types (bare column) with
    | None => projection
    | Some column_type => (projection ++ [MkProjected (PColumn (bare column)) (exa_type column_type)])%list
    end.

Definition extend_projection_with_sort_keys (projection : list ProjectedColumn) (keys : list ParsedSortKey)
    (col_types : ColumnTypes) : list ProjectedColumn :=
  fold_left (extend_with_column col_types) (flat_map referenced_columns keys) projection.

Definition wrap_declined_order_by (sql : string) (proj_cols : list ProjectionItem) (visible_count : nat)
    (keys : list ParsedSortKey) (limit : option N) (offset : N) : string :=
  let order_by := join ", " (omap ParsedSortKey_render keys) in
  if String.eqb order_by "" then sql
  else
    let visible_list :=
      if (visible_count =? 0)%nat then "*"
      else join ", " (imap (fun i item => emits_ident item i) (take visible_count proj_cols)) in
    "SELECT " ++ visible_list ++ " FROM (" ++ sql ++ ") ORDER BY " ++ order_by ++ render_limit_offset limit offset.
End Keys.

(** ** Hidden columns *)

Definition hidden (c : ProjectedColumn) : option string :=
  match item c with PColumn (MkColumnRef None n) => Some n | _ => None end.

Lemma already_emitted_spec projection column :
  already_emitted projection column = true <-> exists c, c ∈ projection /\ hidden c = Some column.
Proof.
  unfold already_emitted. rewrite existsb_exists. split.
  - intros (c & Hc & H). exists c. split; [by apply list_elem_of_In|]. unfold hidden.
    destruct (item c) as [|[[r|] n]]; [done|..]; apply andb_true_iff in H as [H1 H2]; cbn in *;
      [done|]. by apply String.eqb_eq in H2 as ->.
  - intros (c & Hc & H). exists c. split; [by apply list_elem_of_In|]. unfold hidden in H.
    destruct (item c) as [|[[r|] n]]; try done. injection H as ->. cbn. apply String.eqb_refl.
Qed.

Lemma extend_step col_types projection column :
  exists extra, extend_with_column col_types projection column = (projection ++ extra)%list
    /\ NoDup (omap hidden extra) /\ (forall n, n ∈ omap hidden extra -> already_emitted projection n = false)
    /\ Forall (fun c => exists n t, item c = PColumn (bare n) /\ n = column /\ get_type col_types (bare n) = Some t
                                  /\ projected_type c = exa_type t) extra
    /\ (is_Some (get_type col_types (bare column)) -> already_emitted (projection ++ extra) column = true).
Proof.
  unfold extend_with_column. destruct (already_emitted projection column) eqn:He.
  { exists []. rewrite app_nil_r. split_and!; [done|constructor| |constructor|done]. intros n Hn. by apply elem_of_nil in Hn. }
  destruct (get_type col_types (bare column)) as [t|] eqn:Et.
  - eexists. split; [reflexivity|]. cbn. split_and!.
    + constructor; [apply not_elem_of_nil|constructor].
    + intros n ->%list_elem_of_singleton. done.
    + constructor; [|constructor]. by exists column, t.
    + intros _. apply already_emitted_spec. eexists. split; [apply elem_of_app; right; by left|]. done.
  - exists []. rewrite app_nil_r. split_and!; [done|constructor| |constructor|by intros []].
    intros n Hn. by apply elem_of_nil in Hn.
Qed.

Lemma already_emitted_app a b n : already_emitted (a ++ b) n = already_emitted a n || already_emitted b n.
Proof. unfold already_emitted. apply existsb_app. Qed.

Lemma extend_columns col_types columns projection :
  exists extra, fold_left (extend_with_column col_types) columns projection = (projection ++ extra)%list
    /\ NoDup (omap hidden extra) /\ (forall n, n ∈ omap hidden extra -> already_emitted projection n = false)
    /\ Forall (fun c => exists n t, item c = PColumn (bare n) /\ n ∈ columns /\ get_type col_types (bare n) = Some t
                                  /\ projected_type c = exa_type t) extra
    /\ (forall n, n ∈ columns -> is_Some (get_type col_types (bare n)) -> already_emitted (projection ++ extra) n = true).
Proof.
  revert projection. induction columns as [|column columns IH]; intros projection; cbn [fold_left].
  { exists []. rewrite app_nil_r. split_and!; [done|constructor| |constructor|]; intros n Hn; by apply elem_of_nil in Hn. }
  destruct (extend_step col_types projection column) as (e1 & -> & Hn1 & Hd1 & Hf1 & Hc1).
  destruct (IH (projection ++ e1)%list) as (e2 & -> & Hn2 & Hd2 & Hf2 & Hc2).
  exists (e1 ++ e2)%list. rewrite app_assoc. split; [done|]. split_and!.
  - rewrite omap_app. apply NoDup_app. split_and!; [done| |done]. intros n H1 H2.
    apply Hd2 in H2. rewrite already_emitted_app in H2. apply orb_false_iff in H2 as [_ H2].
    assert (already_emitted e1 n = true); [|congruence]. apply already_emitted_spec.
    apply list_elem_of_omap in H1 as (c & ? & ?). by exists c.
  - intros n Hn. rewrite omap_app, elem_of_app in Hn. destruct Hn as [H|H].
    + by apply Hd1.
    + apply Hd2 in H. rewrite already_emitted_app in H. by apply orb_false_iff in H as [? _].
  - apply Forall_app. split.
    + eapply Forall_impl; [exact Hf1|]. intros c (n & t & ? & -> & ?). exists column, t. split; [done|]. split; [by left|done].
    + eapply Forall_impl; [exact Hf2|]. intros c (n & t & ? & ? & ?). exists n, t. split; [done|]. split; [by right|done].
  - intros n [->|Hn]%elem_of_cons Hs; [|by apply Hc2]. rewrite already_emitted_app, (Hc1 Hs). done.
Qed.

(** The columns a declined sort needs are emitted without disturbing the result:
    the visible projection keeps its positions, every column a sort key names that
    the table has is emitted, what is added are bare columns under their table's
    types, and none of them repeats an emitted column. *)
Theorem sort_columns_appended {UC : UnicodeCase} projection keys col_types :
  exists extra, extend_projection_with_sort_keys projection keys col_types = (projection ++ extra)%list
    /\ NoDup (omap hidden extra)
    /\ (forall n, n ∈ omap hidden extra -> already_emitted projection n = false)
    /\ Forall (fun c => exists n t, item c = PColumn (bare n) /\ n ∈ flat_map referenced_columns keys
                                  /\ get_type col_types (bare n) = Some t /\ projected_type c = exa_type t) extra
    /\ (forall key n, key ∈ keys -> n ∈ referenced_columns key -> is_Some (get_type col_types (bare n)) ->
          already_emitted (projection ++ extra) n = true).
Proof.
  destruct (extend_columns col_types (flat_map referenced_columns keys) projection) as (extra & H & ? & ? & ? & Hc).
  exists extra. split_and!; try done. intros key n Hk Hn. apply Hc.
  apply list_elem_of_In, in_flat_map. exists key. by rewrite <- !list_elem_of_In.
Qed.

(** ** No key is lost *)

Lemma no_unrenderable keys :
  ensure_every_sort_key_renders keys = Ok tt <-> Forall (fun k => k <> Unrenderable) keys.
Proof.
  unfold ensure_every_sort_key_renders.
  assert (H : unrenderable_positions keys = [] <-> Forall (fun k => k <> Unrenderable) keys).
  { unfold unrenderable_positions. generalize 1. intros first.
    enough (forall f : nat -> nat, omap (fun ik => if is_unrenderable ik.2 then Some (show_nat (ik.1 + first)) else None)
              (imap (fun i k => (f i, k)) keys) = [] <-> Forall (fun k => k <> Unrenderable) keys) as Hf by apply (Hf id).
    induction keys as [|k keys IH]; intros f; [split; [constructor|done]|]. cbn [imap omap list_omap fst snd].
    rewrite Forall_cons_iff, <- (IH (f ∘ S)). destruct k; cbn [is_unrenderable]; naive_solver. }
  destruct (unrenderable_positions keys); [tauto|]. split; [done|]. intros Hk. by apply H in Hk.
Qed.

Lemma renders_all keys :
  Forall (fun k => k <> Unrenderable) keys -> omap ParsedSortKey_render keys = map (fun k => default "" (ParsedSortKey_render k)) keys.
Proof. induction 1 as [|k keys Hk _ IH]; [done|]. destruct k; [cbn; by rewrite IH..|done]. Qed.

Lemma render_ordered_nonempty e a n : render_ordered e a n <> "".
Proof. unfold render_ordered. destruct e; rewrite ?string_app_cons; done. Qed.

Lemma join_nonempty sep x l : x <> "" -> join sep (x :: l) <> "".
Proof. intros Hx. destruct l; [done|]. cbn. destruct x; [done|]. by rewrite string_app_cons. Qed.

(** A declined ORDER BY is never answered under a shorter one: when a sort key
    cannot be rendered the request fails, and otherwise the wrapper sorts by one
    rendered key for each element of the request's ORDER BY, in order, before it
    applies the window, and it selects the visible columns only. *)
Theorem declined_order_never_partial {UC : UnicodeCase} {JD : JsonDisplay} pushdown_req sql proj_cols visible limit offset elements :
  get_array pushdown_req "orderBy" = Some elements -> elements <> [] ->
  let keys := parse_order_by_keys pushdown_req in
  (ensure_every_sort_key_renders keys <> Ok tt <-> exists e, e ∈ elements /\ parse_declined_sort_key e = Unrenderable)
  /\ (ensure_every_sort_key_renders keys = Ok tt ->
      exists order, Forall2 (fun e o => ParsedSortKey_render (parse_declined_sort_key e) = Some o) elements order
        /\ wrap_declined_order_by sql proj_cols visible keys limit offset
           = "SELECT " ++ (if (visible =? 0)%nat then "*" else join ", " (imap (fun i item => emits_ident item i) (take visible proj_cols)))
             ++ " FROM (" ++ sql ++ ") ORDER BY " ++ join ", " order ++ render_limit_offset limit offset).
Proof.
  intros He Hne keys. unfold keys, parse_order_by_keys. rewrite He. cbn [default]. split.
  - rewrite no_unrenderable, Forall_map. split.
    + intros H. apply not_Forall_Exists in H; [|intros e; destruct (parse_declined_sort_key e); [by left|by left|right; intros Hd; by apply Hd]].
      apply Exists_exists in H as (e & Hin & Hu). exists e. split; [done|]. cbn in Hu. destruct (parse_declined_sort_key e); [by destruct Hu|by destruct Hu|done].
    + intros (e & Hin & Hu) H. rewrite Forall_forall in H. by apply (H e Hin).
  - rewrite no_unrenderable. intros H. exists (map (fun k => default "" (ParsedSortKey_render k)) (map parse_declined_sort_key elements)).
    split.
    + rewrite map_map. rewrite Forall_map in H. apply Forall2_fmap_r, Forall_Forall2_diag.
      eapply Forall_impl; [exact H|]. intros e Hk. cbn in Hk |- *. by destruct (parse_declined_sort_key e).
    + unfold wrap_declined_order_by. rewrite (renders_all _ H).
      destruct elements as [|e l]; [done|]. cbn [map] in *. inversion H as [|? ? Hk _]; subst.
      assert (Hj : forall l', String.eqb (join ", " (default "" (ParsedSortKey_render (parse_declined_sort_key e)) :: l')) "" = false).
      { intros l'. apply String.eqb_neq, join_nonempty.
        destruct (parse_declined_sort_key e); [apply render_ordered_nonempty..|done]. }
      cbv zeta. unfold id. cbn [map]. by rewrite Hj.
Qed.

(** A column key and a computed key; the window is the wrapper's. *)
Definition declined_element (expr : Json) : Json :=
  json_object [("type", JString "order_by_element"); ("expression", expr); ("isAscending", JBool true); ("nullsLast", JBool false)].
Definition declined_request : Json :=
  json_object [("orderBy", JArray [declined_element (ColumnNode.to_json "id" None None);
    declined_element (json_object [("type", JString "function_scalar"); ("name", JString "UPPER");
      ("arguments", JArray [ColumnNode.to_json "note" None None])])])].

Lemma declined_order_never_partial_witness :
  wrap_declined_order_by "Q" [PColumn (bare "ID")] 1
    (parse_order_by_keys (UC := ascii_case) (JD := scalar_display) declined_request) (Some 5%N) 2
  = "SELECT " ++ dq ++ "ID" ++ dq ++ " FROM (Q) ORDER BY " ++ dq ++ "ID" ++ dq ++ " ASC NULLS FIRST, UPPER(" ++ dq ++ "NOTE" ++ dq
    ++ ") ASC NULLS FIRST LIMIT 5 OFFSET 2".
Proof.
  destruct (proj2 (declined_order_never_partial (UC := ascii_case) (JD := scalar_display) declined_request "Q" [PColumn (bare "ID")] 1
    (Some 5%N) 2 _ eq_refl ltac:(discriminate)) eq_refl) as (order & Ho & ->).
  inversion Ho as [|? o1 ? l1 H1 Ho1]; subst. inversion Ho1 as [|? o2 ? l2 H2 Ho2]; subst. inversion Ho2; subst.
  vm_compute in H1, H2. injection H1 as <-. injection H2 as <-. vm_compute. reflexivity.
Defined.

(** ** The top-N of shards *)

(** The merge of sorted prefixes, for any total preorder. *)
Section Merge.
Context {A : Type} (le : A -> A -> Prop) `{!RelDecision le}.
Hypothesis le_total : forall a b, le a b \/ le b a.
Hypothesis le_trans : forall a b c, le a b -> le b c -> le a c.

Definition at_most (x : A) (l : list A) : nat := List.length (filter (fun y => le y x) l).
Definition below_count (x : A) (l : list A) : nat := List.length (filter (fun y => ~ le x y) l).

Lemma at_most_app x l l' : at_most x (l ++ l') = at_most x l + at_most x l'.
Proof. unfold at_most. by rewrite filter_app, length_app. Qed.

Lemma at_most_perm x l l' : l ≡ₚ l' -> at_most x l = at_most x l'.
Proof. unfold at_most. intros H. by rewrite H. Qed.

Lemma below_count_perm x l l' : l ≡ₚ l' -> below_count x l = below_count x l'.
Proof. unfold below_count. intros H. by rewrite H. Qed.

Lemma le_refl a : le a a.
Proof. by destruct (le_total a a). Qed.

Lemma at_most_below x y l : ~ le y x -> at_most x l <= below_count y l.
Proof.
  intros Hn. unfold at_most, below_count. induction l as [|z l IH]; [done|]. rewrite !filter_cons.
  destruct (decide (le z x)) as [Hz|], (decide (~ le y z)) as [Hy|Hy]; cbn; try lia.
  exfalso. apply Hy. intros Hyz. apply Hn. eauto.
Qed.

Lemma filter_empty (P : A -> Prop) `{forall x, Decision (P x)} l : (forall x, x ∈ l -> ~ P x) -> filter P l = [].
Proof. intros H'. apply elem_of_nil_inv. intros x [Hp Hx]%list_elem_of_filter. by apply (H' x). Qed.

Lemma sorted_le_head a l x : StronglySorted le (a :: l) -> x ∈ a :: l -> le a x.
Proof.
  intros Hs [->|Hx]%elem_of_cons; [apply le_refl|]. inversion Hs as [|? ? _ Hf]; subst.
  rewrite Forall_forall in Hf. by apply Hf.
Qed.

Lemma sorted_below l i x : StronglySorted le l -> l !! i = Some x -> below_count x l <= i.
Proof.
  intros Hs. revert i. induction Hs as [|a l Hs IH Hf]; intros i Hi; [done|].
  unfold below_count in *. rewrite filter_cons. destruct i as [|i]; cbn in Hi.
  - injection Hi as ->. rewrite decide_False by (pose proof (le_refl x); tauto).
    rewrite filter_empty; [done|]. rewrite Forall_forall in Hf. intros y Hy. specialize (Hf y Hy). tauto.
  - specialize (IH i Hi). case_decide; cbn; lia.
Qed.

Lemma sorted_at_most l i x : StronglySorted le l -> l !! i = Some x -> i < at_most x l.
Proof.
  intros Hs. revert i. induction Hs as [|a l Hs IH Hf]; intros i Hi; [done|].
  unfold at_most in *. rewrite filter_cons.
  rewrite decide_True by (apply (sorted_le_head a l); [by constructor|by eapply list_elem_of_lookup_2]).
  destruct i as [|i]; cbn; [lia|]. specialize (IH i Hi). lia.
Qed.

Lemma prefix_at_most n x l : StronglySorted le l -> at_most x l `min` n <= at_most x (take n l).
Proof.
  intros Hs. revert n. induction Hs as [|a l Hs IH Hf]; intros n; [by rewrite take_nil|].
  destruct n as [|n]; [lia|]. unfold at_most in *. rewrite firstn_cons, !filter_cons.
  case_decide as Ha; cbn; [specialize (IH n); lia|].
  rewrite filter_empty; [cbn; lia|].
  rewrite Forall_forall in Hf. intros y Hy Hyx. apply Ha. eauto.
Qed.

Lemma shards_at_most n x sorted :
  Forall (StronglySorted le) sorted ->
  at_most x (List.concat sorted) `min` n <= at_most x (List.concat (map (take n) sorted)).
Proof.
  induction 1 as [|l sorted Hs _ IH]; [cbn; lia|]. cbn [map List.concat]. rewrite !at_most_app.
  pose proof (prefix_at_most n x l Hs). lia.
Qed.

Lemma shards_at_most_le n x sorted : at_most x (List.concat (map (take n) sorted)) <= at_most x (List.concat sorted).
Proof.
  induction sorted as [|l sorted IH]; [done|]. cbn [map List.concat]. rewrite !at_most_app.
  rewrite <- (take_drop n l) at 2. rewrite at_most_app. lia.
Qed.

Lemma shards_length n (sorted : list (list A)) :
  n `min` List.length (List.concat sorted) = n `min` List.length (List.concat (map (take n) sorted)).
Proof.
  induction sorted as [|l sorted IH]; [done|]. cbn [map List.concat]. rewrite !length_app, length_take. lia.
Qed.

Lemma concat_perm (shards sorted : list (list A)) : Forall2 Permutation sorted shards -> List.concat sorted ≡ₚ List.concat shards.
Proof. induction 1 as [|s s' l l' Hp _ IH]; [done|]. cbn. by rewrite Hp, IH. Qed.

Lemma topn_merge n sorted merged global :
  Forall (StronglySorted le) sorted ->
  merged ≡ₚ List.concat (map (take n) sorted) -> StronglySorted le merged ->
  global ≡ₚ List.concat sorted -> StronglySorted le global ->
  Forall2 (fun a b => le a b /\ le b a) (take n merged) (take n global).
Proof.
  intros Hs Hm Hms Hg Hgs. apply Forall2_same_length_lookup_2.
  { rewrite !length_take, Hm, Hg. symmetry. apply shards_length. }
  intros i x y [Hx Hin]%lookup_take_Some [Hy _]%lookup_take_Some.
  pose proof (sorted_below _ _ _ Hms Hx) as Hbx. pose proof (sorted_at_most _ _ _ Hms Hx) as Hax.
  pose proof (sorted_below _ _ _ Hgs Hy) as Hby. pose proof (sorted_at_most _ _ _ Hgs Hy) as Hay.
  rewrite (at_most_perm _ _ _ Hm) in Hax. rewrite (at_most_perm _ _ _ Hg) in Hay.
  rewrite (below_count_perm _ _ _ Hm) in Hbx. rewrite (below_count_perm _ _ _ Hg) in Hby.
  split.
  - destruct (decide (le x y)) as [|Hn]; [done|]. exfalso.
    pose proof (at_most_below y x (List.concat (map (take n) sorted)) Hn). pose proof (shards_at_most n y sorted Hs). lia.
  - destruct (decide (le y x)) as [|Hn]; [done|]. exfalso.
    pose proof (at_most_below x y (List.concat sorted) Hn). pose proof (shards_at_most_le n x sorted). lia.
Qed.
End Merge.

(** A comparison that orders its values, ties included. *)
Definition orders {A} (c : A -> A -> comparison) : Prop :=
  (forall x y, c y x = CompOpp (c x y)) /\ (forall x y z, c x y <> Gt -> c y z <> Gt -> c x z <> Gt).

Lemma orders_lex {A} (c d : A -> A -> comparison) :
  orders c -> orders d -> orders (fun a b => match c a b with Eq => d a b | o => o end).
Proof.
  intros [Ca Ct] [Da Dt]. split.
  - intros x y. rewrite Ca. destruct (c x y); cbn; [apply Da|done|done].
  - intros x y z Hxy Hyz.
    assert (Cxy : c x y <> Gt) by (intros E; by rewrite E in Hxy).
    assert (Cyz : c y z <> Gt) by (intros E; by rewrite E in Hyz).
    pose proof (Ct _ _ _ Cxy Cyz) as Cxz. destruct (c x z) eqn:E; [|done|done].
    assert (Czx : c z x <> Gt) by (rewrite Ca, E; done).
    pose proof (Ct _ _ _ Cyz Czx) as Cyx. pose proof (Ct _ _ _ Czx Cxy) as Czy.
    rewrite Ca in Cyx. rewrite Ca in Czy. destruct (c x y), (c y z); try done. by apply (Dt _ y).
Qed.

Lemma orders_map {A B} (f : A -> B) (c : B -> B -> comparison) : orders c -> orders (fun a b => c (f a) (f b)).
Proof. intros [Ca Ct]. split; intros; [apply Ca|by eapply Ct]. Qed.

Lemma sorted_agree {A} (R R' : A -> A -> Prop) l :
  (forall a b, a ∈ l -> b ∈ l -> R a b -> R' a b) -> StronglySorted R l -> StronglySorted R' l.
Proof.
  intros H Hs. induction Hs as [|a l Hs IH Hf]; [constructor|]. constructor.
  - apply IH. intros x y Hx Hy. apply H; by right.
  - rewrite Forall_forall in Hf |- *. intros x Hx. apply H; [by left|by right|by apply Hf].
Qed.

(** The values a column holds, their order, and what Exasol holds once a value is
    emitted ([None] for NULL): an empty text and a NaN arrive as NULL, any other value
    of a type without a JSON rendering arrives unchanged. *)
Class Emission (V : Type) := {
  value_cmp : V -> V -> comparison;
  value_cmp_orders : orders value_cmp;
  emit : DataType -> V -> option V;
  lost : V -> bool;
  emit_kept dt v : needs_json_fallback dt = false -> lost v = false -> emit dt v = Some v;
}.

Section Ordering.
Context {UC : UnicodeCase} {V : Type} {EM : Emission V}.

Definition Row : Type := ColumnRef -> option V.

(** [ORDER BY <key> ASC|DESC NULLS LAST|FIRST]. *)
Definition place (k : SortKey) (a b : option V) : comparison :=
  match a, b with
  | None, None => Eq
  | None, Some _ => if nulls_last k then Gt else Lt
  | Some _, None => if nulls_last k then Lt else Gt
  | Some x, Some y => if ascending k then value_cmp x y else value_cmp y x
  end.

Fixpoint row_compare (value : SortKey -> Row -> option V) (keys : list SortKey) (a b : Row) : comparison :=
  match keys with
  | [] => Eq
  | k :: keys => match place k (value k a) (value k b) with Eq => row_compare value keys a b | o => o end
  end.

Definition row_le (value : SortKey -> Row -> option V) (keys : list SortKey) (a b : Row) : Prop :=
  row_compare value keys a b <> Gt.

#[export] Instance row_le_dec value keys : RelDecision (row_le value keys).
Proof. intros a b. unfold row_le. destruct (row_compare value keys a b); (left; done) || (right; tauto). Defined.

(** A shard ranks the values it reads, Exasol those it is emitted. *)
Definition shard_value (k : SortKey) (r : Row) : option V := r (sort_column k).
Definition exasol_column (schema : list LogicalField) (c : ColumnRef) (r : Row) : option V :=
  v ← r c;
  match logical_type schema (ScanSpec.name c) with Some t => emit t v | None => Some v end.
Definition exasol_value (schema : list LogicalField) (k : SortKey) (r : Row) : option V := exasol_column schema (sort_column k) r.

(** The order the request asks for: every element of its ORDER BY, each with its own
    direction and placement of NULL. [denote] is the value of an expression that is not
    a column. *)
Definition requested_column (element : Json) : option ColumnRef := get element "expression" ≫= column_node_ref.

Definition requested_value (denote : Json -> Row -> option V) (schema : list LogicalField) (element : Json) (r : Row) : option V :=
  match requested_column element with Some c => exasol_column schema c r | None => denote element r end.

Definition flag (element : Json) (key : string) : bool := match get element key with Some (JBool b) => b | _ => false end.

Definition requested_place (element : Json) (a b : option V) : comparison :=
  match a, b with
  | None, None => Eq
  | None, Some _ => if flag element "nullsLast" then Gt else Lt
  | Some _, None => if flag element "nullsLast" then Lt else Gt
  | Some x, Some y => if flag element "isAscending" then value_cmp x y else value_cmp y x
  end.

Fixpoint requested_compare (denote : Json -> Row -> option V) (schema : list LogicalField) (order_by : list Json) (a b : Row) : comparison :=
  match order_by with
  | [] => Eq
  | e :: order_by =>
      match requested_place e (requested_value denote schema e a) (requested_value denote schema e b) with
      | Eq => requested_compare denote schema order_by a b
      | o => o
      end
  end.

(** The request asks for the rows of one table: no grouping follows the ORDER BY. *)
Definition asks_for_rows (request pushdown_req : Json) : Prop :=
  (exists t, get_array request "involvedTables" = Some [t])
  /\ get_str pushdown_req "aggregationType" <> Some "group_by"
  /\ default [] (get_array pushdown_req "groupBy") = []
  /\ default JNull (get pushdown_req "having") = JNull.

Lemma place_orders k : orders (place k).
Proof.
  destruct value_cmp_orders as [Ca Ct]. split.
  - intros [x|] [y|]; cbn; try (by destruct (nulls_last k)). destruct (ascending k); apply Ca.
  - intros [x|] [y|] [z|]; cbn; destruct (nulls_last k); try done; destruct (ascending k); intros H1 H2;
      (by eapply Ct) || done.
Qed.

Lemma row_compare_orders value keys : orders (row_compare value keys).
Proof.
  induction keys as [|k keys IH]; [done|]. cbn [row_compare].
  apply (orders_lex (fun a b => place k (value k a) (value k b))); [|done].
  apply (orders_map (value k)), place_orders.
Qed.

Lemma row_le_total value keys a b : row_le value keys a b \/ row_le value keys b a.
Proof. unfold row_le. rewrite (proj1 (row_compare_orders value keys) a b). destruct (row_compare value keys a b); auto. Qed.

Lemma row_le_trans value keys a b c : row_le value keys a b -> row_le value keys b c -> row_le value keys a c.
Proof. apply (proj2 (row_compare_orders value keys)). Qed.

Lemma row_le_both value keys a b : row_le value keys a b -> row_le value keys b a -> row_compare value keys a b = Eq.
Proof. unfold row_le. rewrite (proj1 (row_compare_orders value keys) a b). by destruct (row_compare value keys a b). Qed.

Lemma row_compare_ext v w keys a b :
  (forall k, k ∈ keys -> v k a = w k a /\ v k b = w k b) -> row_compare v keys a b = row_compare w keys a b.
Proof.
  induction keys as [|k keys IH]; intros H; [done|]. cbn. destruct (H k ltac:(by left)) as [-> ->].
  rewrite IH; [done|]. intros k' Hk. apply H. by right.
Qed.

(** No sort column of the row holds an empty text or a NaN. *)
Definition keys_kept (order_by : list Json) (r : Row) : Prop :=
  forall e c v, e ∈ order_by -> requested_column e = Some c -> r c = Some v -> lost v = false.

(** A pushed key is the element it was parsed from. *)
Definition key_of (proj_cols : list ProjectionItem) (schema : list LogicalField) (element : Json) (k : SortKey) : Prop :=
  requested_column element = Some (sort_column k)
  /\ get element "isAscending" = Some (JBool (ascending k)) /\ get element "nullsLast" = Some (JBool (nulls_last k))
  /\ PColumn (sort_column k) ∈ proj_cols
  /\ exists t, logical_type schema (ScanSpec.name (sort_column k)) = Some t /\ needs_json_fallback t = false.

Lemma as_bool_Some j b : as_bool j = Some b -> j = JBool b.
Proof. by destruct j; intros [= ->]. Qed.

Lemma topn_key_of proj_cols schema element k : topn_key proj_cols schema element = Some k -> key_of proj_cols schema element k.
Proof.
  unfold topn_key, parse_sort_key_element, key_of, requested_column. destruct (get element "expression") as [expr|]; [|done]. cbn [mbind option_bind].
  destruct (column_node_ref expr) as [c|]; [|done]. cbn [mbind option_bind].
  destruct (get element "isAscending") as [ja|]; [|done]. cbn [mbind option_bind]. destruct (as_bool ja) as [asc|] eqn:Ea; [|done]. cbn [mbind option_bind].
  destruct (get element "nullsLast") as [jn|]; [|done]. cbn [mbind option_bind]. destruct (as_bool jn) as [nl|] eqn:En; [|done]. cbn [mbind option_bind sort_column].
  destruct (projects_column proj_cols c) eqn:Ep; [|done]. destruct (logical_type _ _) as [t|] eqn:Et; [|done]. cbn [mbind option_bind].
  destruct (needs_json_fallback t) eqn:Ej; [done|]. intros [= <-]. cbn [sort_column ascending nulls_last].
  apply as_bool_Some in Ea as ->. apply as_bool_Some in En as ->. split_and!; [done..| |by exists t].
  unfold projects_column in Ep. apply existsb_exists in Ep as (p & Hp & Hc). apply list_elem_of_In in Hp.
  destruct p as [|c']; [done|]. by apply bool_decide_eq_true in Hc as ->.
Qed.

Lemma detected_topn request pushdown_req proj_cols schema keys :
  detect_topn request pushdown_req proj_cols schema = Some keys ->
  is_Some (extract_limit pushdown_req) /\ extract_offset pushdown_req = 0%N /\ asks_for_rows request pushdown_req
  /\ exists elements, get_array pushdown_req "orderBy" = Some elements /\ Forall2 (key_of proj_cols schema) elements keys.
Proof.
  unfold detect_topn, asks_for_rows. destruct (extract_limit pushdown_req) as [n|]; [|done]. cbn [mbind option_bind].
  destruct (N.eqb_spec (extract_offset pushdown_req) 0) as [Ho|]; [|done]. cbn [negb].
  destruct (bool_decide_reflect (get_str pushdown_req "aggregationType" = Some "group_by")) as [|Hagg]; [done|].
  destruct (match get_array pushdown_req "groupBy" with Some _ => _ | None => _ end) eqn:Eg; [done|].
  destruct (match get pushdown_req "having" with Some _ => _ | None => _ end) eqn:Eh; [done|].
  destruct (List.length _ =? 1)%nat eqn:Ei; [|done]. cbn [negb]. apply Nat.eqb_eq in Ei.
  destruct (get_array pushdown_req "orderBy") as [elements|]; [|done]. cbn [mbind option_bind].
  destruct elements as [|e elements]; [done|]. intros Hm. split_and!; [done|done| |exact Hagg| | |].
  - destruct (get_array request "involvedTables") as [[|t [|]]|]; try done. by exists t.
  - destruct (get_array pushdown_req "groupBy") as [[|]|]; done.
  - destruct (get pushdown_req "having") as [h|]; [|done]. by destruct h.
  - eexists. split; [done|]. apply mapM_Some_1 in Hm. eapply Forall2_impl; [exact Hm|]. intros x k. apply topn_key_of.
Qed.

(** The pushed keys order rows as the request does. *)
Lemma keys_order denote proj_cols schema elements keys a b :
  Forall2 (key_of proj_cols schema) elements keys ->
  row_compare (exasol_value schema) keys a b = requested_compare denote schema elements a b.
Proof.
  induction 1 as [|e k elements keys (Hc & Ha & Hn & _) _ IH]; [done|]. cbn [row_compare requested_compare].
  unfold requested_value. rewrite Hc, IH. unfold requested_place, flag, place, exasol_value. rewrite Ha, Hn.
  destruct (exasol_column _ _ a), (exasol_column _ _ b), (ascending k), (nulls_last k); by cbn.
Qed.

Lemma values_agree proj_cols schema elements keys r k :
  Forall2 (key_of proj_cols schema) elements keys -> keys_kept elements r -> k ∈ keys -> shard_value k r = exasol_value schema k r.
Proof.
  intros Ht Hk Hin. apply list_elem_of_lookup in Hin as [i Hi]. destruct (Forall2_lookup_r _ _ _ _ _ Ht Hi) as (e & He & Hc & _ & _ & _ & t & El & En).
  unfold shard_value, exasol_value, exasol_column. destruct (r (sort_column k)) as [v|] eqn:Er; [|done]. cbn [mbind option_bind].
  rewrite El, emit_kept; [done|done|]. eapply Hk; [by eapply list_elem_of_lookup_2|done|done].
Qed.
End Ordering.


(** Texts in byte order; Exasol holds an empty one as NULL. *)
Lemma string_compare_orders : orders String.compare.
Proof.
  split; [intros x y; apply String.compare_antisym|].
  intros x. induction x as [|a x IH]; intros [|b y] [|c z]; cbn; try done.
  unfold Ascii.compare. destruct (N.compare_spec (N_of_ascii a) (N_of_ascii b)) as [Hab|Hab|Hab];
    destruct (N.compare_spec (N_of_ascii b) (N_of_ascii c)) as [Hbc|Hbc|Hbc]; intros H1 H2; try done.
  - rewrite (proj2 (N.compare_eq_iff _ _)) by lia. by eapply IH.
  - by rewrite (proj2 (N.compare_lt_iff _ _)) by lia.
  - by rewrite (proj2 (N.compare_lt_iff _ _)) by lia.
  - by rewrite (proj2 (N.compare_lt_iff _ _)) by lia.
Qed.

Definition text_emission : Emission string.
Proof.
  refine {| value_cmp := String.compare; value_cmp_orders := string_compare_orders;
            emit _ v := if String.eqb v "" then None else Some v; lost v := String.eqb v "" |}.
  intros dt v _ Hv. by rewrite Hv.
Defined.

Definition topn_column : ColumnRef := bare "NAME".
Definition topn_sort : SortKey := MkSortKey topn_column true true.
Definition topn_schema : list LogicalField := [MkLogicalField None "name" "utf8" true None None None; MkLogicalField None "city" "utf8" true None None None].
Definition sort_element (column : string) (asc : bool) : Json :=
  json_object [("expression", ColumnNode.to_json column None None); ("isAscending", JBool asc); ("nullsLast", JBool true)].
Definition topn_pushdown : Json :=
  json_object [("limit", json_object [("numElements", jnat 1)]); ("orderBy", JArray [sort_element "name" true])].
Definition two_keys_pushdown : Json :=
  json_object [("limit", json_object [("numElements", jnat 1)]); ("orderBy", JArray [sort_element "name" true; sort_element "city" false])].
Definition topn_request : Json := json_object [("involvedTables", JArray [JNull])].
Definition text_row (s : string) : Row (V := string) := fun _ => Some s.
Definition city_row (name city : string) : Row (V := string) := fun c => Some (if String.eqb (ScanSpec.name c) "NAME" then name else city).


(** The proviso is needed: a shard ranks an empty text as a value, first in ascending
    order, while Exasol holds it as NULL, last here. The one row the shard returns is
    then not the row the request asks for. *)
Lemma topn_ranks_empty_text :
  let R := row_le (EM := text_emission) in
  let exasol := exasol_value (UC := ascii_case) (EM := text_emission) topn_schema in
  detect_topn (UC := ascii_case) topn_request topn_pushdown [PColumn topn_column] topn_schema = Some [topn_sort]
  /\ StronglySorted (R shard_value [topn_sort]) [text_row ""; text_row "a"]
  /\ StronglySorted (R exasol [topn_sort]) [text_row "a"; text_row ""]
  /\ row_compare (EM := text_emission) exasol [topn_sort] (text_row "") (text_row "a") = Gt.
Proof.
  cbv zeta. split; [vm_compute; reflexivity|]. split; [|split; [|vm_compute; reflexivity]].
  all: repeat constructor; vm_compute; discriminate.
Qed.
