(* ===== verification/AggPlans.v ===== *)
(** crates/lakehouse-engine/src/adapter/pushdown/scalar_over_agg.rs: how an aggregate
    call is split into per-shard partials and merged again, shared by the
    single-group and the GROUP BY planner, with the scan's side of the split
    (crates/lakehouse-engine/src/scan/partial_agg.rs). *)

From stdpp Require Import base list strings numbers.
From Stdlib Require Import Ascii String ZArith NArith Lia.
From S2P Require Import Prelude Json ExasolType ColumnNode Render ScanSpec ColumnTypes ExasolRules Redaction Projection.

Local Open Scope string_scope.

#[export] Instance AggregatePlan_eq_dec : EqDecision AggregatePlan.
Proof. solve_decision. Defined.

Definition quoted (name : string) : string := dq ++ name ++ dq.

(** ** Plans *)

Definition NESTED_AGGREGATE_PLAN_TYPE : ExasolType := DoublePrecision.

(** [plans.iter().position(|p| *p == plan)]. *)
Fixpoint plan_position (plans : list AggregatePlan) (plan : AggregatePlan) : option nat :=
  match plans with
  | [] => None
  | p :: plans' => if bool_decide (p = plan) then Some 0 else S <$> plan_position plans' plan
  end.

(** The plans and their types, side by side; the slot the plan is in. *)
Definition fold_aggregate_plan (plans : list AggregatePlan) (plan_types : list ExasolType) (plan : AggregatePlan)
    (declared : option ExasolType) : nat * list AggregatePlan * list ExasolType :=
  match plan_position plans plan with
  | Some slot =>
      (slot, plans, match declared with Some ty => <[slot := ty]> plan_types | None => plan_types end)
  | None =>
      (List.length plans, (plans ++ [plan])%list, (plan_types ++ [default NESTED_AGGREGATE_PLAN_TYPE declared])%list)
  end.

Definition agg_sentinel_name (i : nat) : string := "__LH_AGG_MERGE_" ++ show_nat i ++ "__".
Definition agg_sentinel_token (i : nat) : string := exasol_quote_ident (agg_sentinel_name i).
Definition sentinel_column_node (i : nat) : Json := ColumnNode.to_json (agg_sentinel_name i) None None.

(** The tree with a sentinel column for each aggregate, the aggregates met so far,
    and whether a column occurs outside of them. *)
Fixpoint sentinelize_aggregates (node : Json) (aggregates : list Json) (residual_column : bool) : Json * list Json * bool :=
  match node with
  | JObject m =>
      if bool_decide (get_str node "type" = Some "function_aggregate")
      then (sentinel_column_node (List.length aggregates), (aggregates ++ [node])%list, residual_column)
      else
        let residual_column := residual_column || bool_decide (is_Some (ColumnNode.parse node)) in
        let '(out, aggregates, residual_column) :=
          (fix go (m : list (string * Json)) aggregates residual_column : list (string * Json) * list Json * bool :=
             match m with
             | [] => ([], aggregates, residual_column)
             | (k, v) :: m' =>
                 let '(v', aggregates, residual_column) := sentinelize_aggregates v aggregates residual_column in
                 let '(out, aggregates, residual_column) := go m' aggregates residual_column in
                 ((k, v') :: out, aggregates, residual_column)
             end) m aggregates residual_column in
        (JObject out, aggregates, residual_column)
  | JArray items =>
      let '(out, aggregates, residual_column) :=
        (fix go (l : list Json) aggregates residual_column : list Json * list Json * bool :=
           match l with
           | [] => ([], aggregates, residual_column)
           | v :: l' =>
               let '(v', aggregates, residual_column) := sentinelize_aggregates v aggregates residual_column in
               let '(out, aggregates, residual_column) := go l' aggregates residual_column in
               (v' :: out, aggregates, residual_column)
           end) items aggregates residual_column in
      (JArray out, aggregates, residual_column)
  | other => (other, aggregates, residual_column)
  end.

Definition EXPR_CAPABLE_AGG_KINDS : list (string * AggKind) :=
  [("SUM", Sum); ("MIN", Min); ("MAX", Max); ("AVG", Avg)].

Definition STAT_AGG_KINDS : list (string * AggKind) :=
  [("STDDEV", Stddev); ("STDDEV_SAMP", StddevSamp); ("STDDEV_POP", StddevPop);
   ("VARIANCE", Variance); ("VAR_SAMP", VarSamp); ("VAR_POP", VarPop)].

Definition kind_named (kinds : list (string * AggKind)) (fn_name : string) : option AggKind :=
  snd <$> List.find (fun nk => String.eqb nk.1 fn_name) kinds.

Section Plans.
Context {UC : UnicodeCase} {JD : JsonDisplay}.

Definition column_from_first_arg (args : option (list Json)) : option string :=
  args ← args; arg ← List.hd_error args; upper_name <$> ColumnNode.parse arg.

Definition arg_column_or_expr (args : option (list Json)) : option (option string * option string) :=
  args ← args; arg ← List.hd_error args;
  match ColumnNode.parse arg with
  | Some column => Some (Some (upper_name column), None)
  | None => (fun sql => (None, Some sql)) <$> ok (render_expression arg)
  end.

Definition parse_agg_item (item : Json) : option AggregatePlan :=
  if bool_decide (get item "distinct" ≫= as_bool = Some true) then None
  else
    let fn_name := to_uppercase (default "" (get_str item "name")) in
    let args := get_array item "arguments" in
    if String.eqb fn_name "COUNT" then
      match args ≫= List.hd_error with
      | None => Some {| kind := Count; column := None; arg_expr := None |}
      | Some _ =>
          '(column, arg_expr) ← arg_column_or_expr args;
          Some {| kind := CountCol; column := column; arg_expr := arg_expr |}
      end
    else
      match kind_named EXPR_CAPABLE_AGG_KINDS fn_name with
      | Some kind =>
          '(column, arg_expr) ← arg_column_or_expr args;
          Some {| kind := kind; column := column; arg_expr := arg_expr |}
      | None =>
          match kind_named STAT_AGG_KINDS fn_name with
          | Some kind =>
              column ← column_from_first_arg args;
              Some {| kind := kind; column := Some column; arg_expr := None |}
          | None => None
          end
      end.

Definition classify_scalar_over_aggregate (node : Json) : option (list AggregatePlan) :=
  let '(sentinel_tree, aggregates, residual_column) := sentinelize_aggregates node [] false in
  if (List.length aggregates =? 0)%nat || residual_column then None
  else
    _ ← ok (render_expression sentinel_tree);
    mapM parse_agg_item aggregates.

(** Each sentinel is replaced by the merged expression of its aggregate. *)
Fixpoint splice_merged (plans : list AggregatePlan) (merged : list string) (i : nat) (aggregates : list Json) (sql : string)
  : option string :=
  match aggregates with
  | [] => Some sql
  | agg :: aggregates' =>
      plan ← parse_agg_item agg;
      slot ← plan_position plans plan;
      text ← merged !! slot;
      splice_merged plans merged (S i) aggregates' (replace_from (agg_sentinel_token i) text 0 sql)
  end.

Definition render_scalar_over_merge (node : Json) (plans : list AggregatePlan) (merged : list string) : option string :=
  let '(sentinel_tree, aggregates, _) := sentinelize_aggregates node [] false in
  sql ← ok (render_expression_exasol sentinel_tree);
  splice_merged plans merged 0 aggregates sql.
End Plans.

(** ** The merge *)

Definition stat_grand_mean_name (i : nat) : string := "STAT_GMEAN_" ++ show_nat i.
Definition stat_ref_name (i : nat) : string := "STAT_REF_" ++ show_nat i.

Definition stat_ref_item (window : string) (i : nat) : string :=
  "MIN(" ++ quoted (partial_column_name PStatMean i) ++ ") " ++ window ++ " AS " ++ quoted (stat_ref_name i).

Definition stat_grand_mean_item (window : string) (i : nat) : string :=
  let cnt := quoted (partial_column_name PStatCnt i) in
  let mean := quoted (partial_column_name PStatMean i) in
  let shift := quoted (stat_ref_name i) in
  shift ++ " + SUM(" ++ cnt ++ " * (" ++ mean ++ " - " ++ shift ++ ")) " ++ window
  ++ " / NULLIF(SUM(" ++ cnt ++ ") " ++ window ++ ", 0) AS " ++ quoted (stat_grand_mean_name i).

Definition stat_window (partition_keys : list string) : string :=
  match partition_keys with [] => "OVER ()" | _ => "OVER (PARTITION BY " ++ join ", " partition_keys ++ ")" end.

Definition stat_slots (aggregates : list AggregatePlan) : list nat :=
  omap (fun ip => if is_stat (kind ip.2) then Some ip.1 else None) (imap (fun i p => (i, p)) aggregates).

Definition with_stat_grand_means (fan_out : string) (aggregates : list AggregatePlan) (partition_keys : list string) : string :=
  match stat_slots aggregates with
  | [] => fan_out
  | stats =>
      let window := stat_window partition_keys in
      "SELECT q.*, " ++ join ", " (map (stat_grand_mean_item window) stats) ++ " FROM (SELECT p.*, "
      ++ join ", " (map (stat_ref_item window) stats) ++ " FROM (" ++ fan_out ++ ") p) q"
  end.

(** The statistics kinds; the source panics on any other, which [merge_select_items]
    never passes. *)
Definition stat_merge (k : AggKind) (i : nat) : string :=
  let cnt := quoted (partial_column_name PStatCnt i) in
  let mean := quoted (partial_column_name PStatMean i) in
  let gmean := quoted (stat_grand_mean_name i) in
  let n := "SUM(" ++ cnt ++ ")" in
  let m2 := "(SUM(" ++ quoted (partial_column_name PStatM2 i) ++ ") + SUM(" ++ cnt ++ " * (" ++ mean ++ " - " ++ gmean
            ++ ") * (" ++ mean ++ " - " ++ gmean ++ ")))" in
  let var_pop := m2 ++ " / NULLIF(" ++ n ++ ", 0)" in
  let var_samp := m2 ++ " / CASE WHEN " ++ n ++ " <= 1 THEN NULL ELSE " ++ n ++ " - 1 END" in
  let variance := "CASE WHEN " ++ n ++ " = 1 THEN 0 ELSE " ++ m2 ++ " / (" ++ n ++ " - 1) END" in
  match k with
  | VarPop => var_pop
  | VarSamp => var_samp
  | Variance => variance
  | StddevPop => "SQRT(" ++ var_pop ++ ")"
  | StddevSamp => "SQRT(" ++ var_samp ++ ")"
  | Stddev => "SQRT(" ++ variance ++ ")"
  | _ => ""
  end.

Definition merge_select_item (i : nat) (plan : AggregatePlan) : string :=
  match kind plan with
  | Count => "SUM(" ++ quoted (partial_column_name PCountStar i) ++ ")"
  | CountCol => "SUM(" ++ quoted (partial_column_name PCountArg i) ++ ")"
  | Sum => "SUM(" ++ quoted (partial_column_name PSum i) ++ ")"
  | Min => "MIN(" ++ quoted (partial_column_name PMin i) ++ ")"
  | Max => "MAX(" ++ quoted (partial_column_name PMax i) ++ ")"
  | Avg => "SUM(" ++ quoted (partial_column_name PAvgSum i) ++ ") / NULLIF(SUM(" ++ quoted (partial_column_name PAvgCnt i) ++ "), 0)"
  | k => stat_merge k i
  end.

Definition merge_select_items (aggregates : list AggregatePlan) : list string := imap merge_select_item aggregates.

(** ** Types *)

Definition PARTIAL_COUNT_TYPE : ExasolType := DecimalT (MkDecimal 20 0).

(** A valid decimal's scale is at most the widest precision, so the source's
    constructor does not panic. *)
Definition sum_emit_type (col_ty : ExasolType) : ExasolType :=
  match col_ty with
  | DecimalT d => DecimalT (MkDecimal MAX_DECIMAL_PRECISION (scale d))
  | _ => DoublePrecision
  end.

Definition col_type_for (column arg_expr : option string) (col_types : ColumnTypes) (declared : option ExasolType) : ExasolType :=
  match column, arg_expr, declared with
  | None, Some _, Some ty => ty
  | _, _, _ => default DoublePrecision (exa_type <$> (c ← column; get_type col_types (bare c)))
  end.

Definition partial_column_type (plan : AggregatePlan) (c : PartialAggColumn) (col_types : ColumnTypes)
    (declared : option ExasolType) : ExasolType :=
  let argument_type := col_type_for (column plan) (arg_expr plan) col_types declared in
  match c with
  | PCountStar | PCountArg | PAvgCnt | PStatCnt => PARTIAL_COUNT_TYPE
  | PAvgSum | PStatMean | PStatM2 => DoublePrecision
  | PSum => sum_emit_type argument_type
  | PMin | PMax => argument_type
  end.

Definition merge_keeps_declared_type (plan : AggregatePlan) (declared : ExasolType) (col_types : ColumnTypes) : bool :=
  match partial_columns (kind plan) with
  | [c] =>
      match c with
      | PMin | PMax => bool_decide (partial_column_type plan c col_types (Some declared) = declared)
      | _ => false
      end
  | _ => false
  end.

Definition cast_merge_item (col_types : ColumnTypes) (epd : (string * AggregatePlan) * ExasolType) : string :=
  let '((expr, plan), declared) := epd in
  if merge_keeps_declared_type plan declared col_types then expr else cast_to_declared_type expr declared.

Definition cast_merge_items (aggregates : list AggregatePlan) (aggregate_types : list ExasolType) (col_types : ColumnTypes)
  : list string :=
  map (cast_merge_item col_types) (zip (zip (merge_select_items aggregates) aggregates) aggregate_types).

Definition partial_emits_item (col_types : ColumnTypes) (declared : option ExasolType) (plan : AggregatePlan) (i : nat)
    (c : PartialAggColumn) : string :=
  quoted (partial_column_name c i) ++ " " ++ display (partial_column_type plan c col_types declared).

Definition partial_emits_items (aggregates : list AggregatePlan) (col_types : ColumnTypes) (aggregate_types : list ExasolType)
  : list string :=
  List.concat (imap (fun i plan =>
    map (partial_emits_item col_types (aggregate_types !! i) plan i) (partial_columns (kind plan))) aggregates).

(** SUM and the statistics need a numeric argument. *)
Definition validate_agg_col_types (aggregates : list AggregatePlan) (col_types : ColumnTypes) : bool :=
  forallb (fun plan =>
    if bool_decide (kind plan = Sum) || is_stat (kind plan) then
      match col_type_for (column plan) (arg_expr plan) col_types None with
      | DoublePrecision | DecimalT _ => true
      | _ => false
      end
    else true) aggregates.

(** ** The scan's side *)

Definition MISSING_AGG_ARG : string := "__MISSING_AGG_ARGUMENT__".

Definition agg_arg_sql (plan : AggregatePlan) : string :=
  match arg_expr plan with
  | Some expr => expr
  | None => exasol_quote_ident (default MISSING_AGG_ARG (column plan))
  end.

Definition partial_select_expr (arg : string) (c : PartialAggColumn) : string :=
  match c with
  | PCountStar => "COUNT(*)"
  | PCountArg | PAvgCnt | PStatCnt => "COUNT(" ++ arg ++ ")"
  | PSum | PAvgSum => "SUM(" ++ arg ++ ")"
  | PMin => "MIN(" ++ arg ++ ")"
  | PMax => "MAX(" ++ arg ++ ")"
  | PStatMean =>
      "CASE WHEN MIN(" ++ arg ++ ") = MAX(" ++ arg ++ ") THEN CAST(MIN(" ++ arg ++ ") AS DOUBLE) ELSE AVG(CAST(" ++ arg
      ++ " AS DOUBLE)) END"
  | PStatM2 =>
      "CASE WHEN MIN(" ++ arg ++ ") = MAX(" ++ arg ++ ") THEN 0.0 ELSE VAR_POP(CAST(" ++ arg ++ " AS DOUBLE)) * COUNT("
      ++ arg ++ ") END"
  end.

Definition partial_select_items (plan : AggregatePlan) (i : nat) : list string :=
  map (fun c => partial_select_expr (agg_arg_sql plan) c ++ " AS " ++ quoted (partial_column_name c i)) (partial_columns (kind plan)).

Definition append_where (sql : string) (filter : option string) : string :=
  match filter with
  | Some f => if String.eqb f "" then sql else sql ++ " WHERE " ++ f
  | None => sql
  end.

Definition build_partial_agg_sql_filtered (aggregates : list AggregatePlan) (aliased_table : string) (filter : option string) : string :=
  append_where ("SELECT " ++ join ", " (List.concat (imap (fun i plan => partial_select_items plan i) aggregates))
    ++ " FROM (" ++ aliased_table ++ ")") filter.

Definition build_grouped_partial_agg_sql (group_keys : list string) (aggregates : list AggregatePlan) (aliased_table : string)
    (filter : option string) : string :=
  append_where ("SELECT " ++ join ", " (group_keys ++ List.concat (imap (fun i plan => partial_select_items plan i) aggregates))%list
    ++ " FROM (" ++ aliased_table ++ ")") filter
  ++ " GROUP BY " ++ join ", " group_keys.
