(* ===== verification/AggMerge.v ===== *)
(** The meaning of the split aggregates. The SQL fragments of AggPlans, as expression
    trees that render to the same text, evaluated over numbers (rationals, NULL, errors)
    on the shards' rows and on their partial rows: merging the partials gives the
    aggregate of all rows. A cast to DOUBLE is any function of the number, the arithmetic
    after it is exact. *)

From stdpp Require Import base sets list strings numbers.
From Stdlib Require Import Ascii String ZArith NArith Lia QArith Qcanon.
From S2P Require Import Prelude ScanSpec AggPlans.

Local Open Scope string_scope.
Local Open Scope Qc_scope.

(** ** Expressions *)

Inductive Fn := FSum | FMin | FMax | FCount | FAvg | FVarPop.
Inductive Op := OAdd | OSub | OMul | ODiv.
Inductive Rel := REq | RLe.

Inductive Sql :=
| Column (name : string)
| Fragment (text : string)
| Number_ (text : string) (value : Qc)
| NullLit
| Paren (e : Sql)
| Bin (op : Op) (a b : Sql)
| Agg (f : Fn) (e : Sql)
| CountRows
| Over (f : Fn) (e : Sql) (window : string)
| NullIf (a b : Sql)
| Case (r : Rel) (a b yes no : Sql)
| CastDouble (e : Sql)
| Sqrt (e : Sql).

Definition fn_text (f : Fn) : string :=
  match f with
  | FSum => "SUM" | FMin => "MIN" | FMax => "MAX" | FCount => "COUNT" | FAvg => "AVG" | FVarPop => "VAR_POP"
  end.

Definition op_text (o : Op) : string := match o with OAdd => "+" | OSub => "-" | OMul => "*" | ODiv => "/" end.
Definition rel_text (r : Rel) : string := match r with REq => "=" | RLe => "<=" end.

Fixpoint text (e : Sql) : string :=
  match e with
  | Column name => quoted name
  | Fragment t => t
  | Number_ t _ => t
  | NullLit => "NULL"
  | Paren e => "(" ++ text e ++ ")"
  | Bin o a b => text a ++ " " ++ op_text o ++ " " ++ text b
  | Agg f e => fn_text f ++ "(" ++ text e ++ ")"
  | CountRows => "COUNT(*)"
  | Over f e w => fn_text f ++ "(" ++ text e ++ ") " ++ w
  | NullIf a b => "NULLIF(" ++ text a ++ ", " ++ text b ++ ")"
  | Case r a b yes no =>
      "CASE WHEN " ++ text a ++ " " ++ rel_text r ++ " " ++ text b ++ " THEN " ++ text yes ++ " ELSE " ++ text no ++ " END"
  | CastDouble e => "CAST(" ++ text e ++ " AS DOUBLE)"
  | Sqrt e => "SQRT(" ++ text e ++ ")"
  end.

(** The text reads back as the tree: operands bind at least as tightly as their
    operator needs, and a spliced fragment stands alone in its parentheses. *)
Definition tightness (e : Sql) : nat :=
  match e with
  | Fragment _ => 0
  | Bin (OAdd | OSub) _ _ => 1
  | Bin (OMul | ODiv) _ _ => 2
  | _ => 3
  end.

Definition operand_tightness (o : Op) : nat * nat := match o with OAdd | OSub => (1, 2) | OMul | ODiv => (2, 3) end%nat.

Fixpoint bracketed (e : Sql) : bool :=
  match e with
  | Column _ | Fragment _ | Number_ _ _ | NullLit | CountRows => true
  | Paren e | Agg _ e | Over _ e _ | CastDouble e | Sqrt e => bracketed e
  | Bin o a b =>
      ((operand_tightness o).1 <=? tightness a)%nat && ((operand_tightness o).2 <=? tightness b)%nat && bracketed a && bracketed b
  | NullIf a b => bracketed a && bracketed b
  | Case _ a b yes no => (1 <=? tightness a)%nat && (1 <=? tightness b)%nat && bracketed a && bracketed b && bracketed yes && bracketed no
  end.

(** ** Evaluation *)

Notation Value := (option Qc).
Notation Row := (string -> Value).

Definition count_of {A} (l : list A) : Qc := Qc_of_Z (Z.of_nat (List.length l)).
Definition sum_of (l : list Qc) : Qc := foldr Qcplus 0 l.
Definition mean_of (l : list Qc) : Qc := sum_of l / count_of l.
Definition deviation (l : list Qc) (c : Qc) : Qc := sum_of (map (fun x => (x - c) * (x - c)) l).

Definition smaller (a b : Qc) : Qc := if decide (a <= b) then a else b.
Definition larger (a b : Qc) : Qc := if decide (a <= b) then b else a.

Definition fold1 (f : Qc -> Qc -> Qc) (l : list Qc) : Value :=
  match l with [] => None | x :: l => Some (foldr f x l) end.

(** The SQL aggregates: NULLs are skipped, and all but COUNT are NULL without a value. *)
Definition aggregate_values (f : Fn) (l : list Qc) : Value :=
  match f, l with
  | FCount, _ => Some (count_of l)
  | _, [] => None
  | FSum, _ => Some (sum_of l)
  | FMin, _ => fold1 smaller l
  | FMax, _ => fold1 larger l
  | FAvg, _ => Some (mean_of l)
  | FVarPop, _ => Some (deviation l (mean_of l) / count_of l)
  end.

Definition operate (o : Op) (a b : Value) : option Value :=
  match a, b with
  | Some x, Some y =>
      match o with
      | OAdd => Some (Some (x + y))
      | OSub => Some (Some (x - y))
      | OMul => Some (Some (x * y))
      | ODiv => if decide (y = 0) then None else Some (Some (x / y))
      end
  | _, _ => Some None
  end.

Definition related (r : Rel) (a b : Value) : bool :=
  match a, b with
  | Some x, Some y => match r with REq => bool_decide (x = y) | RLe => bool_decide (x <= y) end
  | _, _ => false
  end.

(** What the database computes itself: a square root, and the DOUBLE nearest a number. *)
Record Arith := MkArith { square_root : Qc -> Qc; as_double : Qc -> Qc }.

Section Eval.
Variable ar : Arith.

(** [None] is an error: a division by zero, a root of a negative number, or a column
    where there is no row. Without a row the expression is one value per group. *)
Fixpoint eval (rows : list Row) (row : option Row) (e : Sql) : option Value :=
  match e with
  | Column name => r ← row; Some (r name)
  | Fragment t => r ← row; Some (r t)
  | Number_ _ v => Some (Some v)
  | NullLit => Some None
  | Paren e => eval rows row e
  | Bin o a b => x ← eval rows row a; y ← eval rows row b; operate o x y
  | Agg f e =>
      match row with
      | None => vs ← mapM (fun r => eval rows (Some r) e) rows; Some (aggregate_values f (omap id vs))
      | Some _ => None
      end
  | CountRows => match row with None => Some (Some (count_of rows)) | Some _ => None end
  | Over f e _ =>
      match row with
      | Some _ => vs ← mapM (fun r => eval rows (Some r) e) rows; Some (aggregate_values f (omap id vs))
      | None => None
      end
  | NullIf a b =>
      x ← eval rows row a; y ← eval rows row b;
      Some (if related REq x y then None else x)
  | Case r a b yes no =>
      x ← eval rows row a; y ← eval rows row b;
      if related r x y then eval rows row yes else eval rows row no
  | CastDouble e => v ← eval rows row e; Some (option_map (as_double ar) v)
  | Sqrt e =>
      v ← eval rows row e;
      match v with
      | None => Some None
      | Some x => if decide (x < 0) then None else Some (Some (square_root ar x))
      end
  end.
End Eval.

(** ** The fragments of the plans *)

Definition partial_sql (arg : string) (c : PartialAggColumn) : Sql :=
  let x := Fragment arg in
  match c with
  | PCountStar => CountRows
  | PCountArg | PAvgCnt | PStatCnt => Agg FCount x
  | PSum | PAvgSum => Agg FSum x
  | PMin => Agg FMin x
  | PMax => Agg FMax x
  | PStatMean => Case REq (Agg FMin x) (Agg FMax x) (CastDouble (Agg FMin x)) (Agg FAvg (CastDouble x))
  | PStatM2 => Case REq (Agg FMin x) (Agg FMax x) (Number_ "0.0" 0) (Bin OMul (Agg FVarPop (CastDouble x)) (Agg FCount x))
  end.

Definition partial_col (c : PartialAggColumn) (i : nat) : Sql := Column (partial_column_name c i).

Definition ref_sql (window : string) (i : nat) : Sql := Over FMin (partial_col PStatMean i) window.

Definition grand_mean_sql (window : string) (i : nat) : Sql :=
  let shift := Column (stat_ref_name i) in
  Bin OAdd shift
    (Bin ODiv (Over FSum (Bin OMul (partial_col PStatCnt i) (Paren (Bin OSub (partial_col PStatMean i) shift))) window)
       (NullIf (Over FSum (partial_col PStatCnt i) window) (Number_ "0" 0))).

Definition m2_sql (i : nat) : Sql :=
  let off := Paren (Bin OSub (partial_col PStatMean i) (Column (stat_grand_mean_name i))) in
  Paren (Bin OAdd (Agg FSum (partial_col PStatM2 i)) (Agg FSum (Bin OMul (Bin OMul (partial_col PStatCnt i) off) off))).

Definition merge_sql (k : AggKind) (i : nat) : Sql :=
  let n := Agg FSum (partial_col PStatCnt i) in
  let var_pop := Bin ODiv (m2_sql i) (NullIf n (Number_ "0" 0)) in
  let var_samp := Bin ODiv (m2_sql i) (Case RLe n (Number_ "1" 1) NullLit (Bin OSub n (Number_ "1" 1))) in
  let variance := Case REq n (Number_ "1" 1) (Number_ "0" 0) (Bin ODiv (m2_sql i) (Paren (Bin OSub n (Number_ "1" 1)))) in
  match k with
  | Count => Agg FSum (partial_col PCountStar i)
  | CountCol => Agg FSum (partial_col PCountArg i)
  | Sum => Agg FSum (partial_col PSum i)
  | Min => Agg FMin (partial_col PMin i)
  | Max => Agg FMax (partial_col PMax i)
  | Avg => Bin ODiv (Agg FSum (partial_col PAvgSum i)) (NullIf (Agg FSum (partial_col PAvgCnt i)) (Number_ "0" 0))
  | VarPop => var_pop
  | VarSamp => var_samp
  | Variance => variance
  | StddevPop => Sqrt var_pop
  | StddevSamp => Sqrt var_samp
  | Stddev => Sqrt variance
  end.

Ltac same_text := unfold quoted; repeat (rewrite ?string_app_assoc, ?string_app_cons, ?string_app_nil_l); reflexivity.

Lemma partial_text arg c : text (partial_sql arg c) = partial_select_expr arg c /\ bracketed (partial_sql arg c) = true.
Proof. split; destruct c; cbn; try reflexivity; same_text. Qed.

Lemma ref_text w i : text (ref_sql w i) ++ " AS " ++ quoted (stat_ref_name i) = stat_ref_item w i /\ bracketed (ref_sql w i) = true.
Proof. split; [|done]. unfold stat_ref_item, ref_sql, partial_col. cbn [text fn_text]. same_text. Qed.

Lemma grand_mean_text w i :
  text (grand_mean_sql w i) ++ " AS " ++ quoted (stat_grand_mean_name i) = stat_grand_mean_item w i
  /\ bracketed (grand_mean_sql w i) = true.
Proof.
  split; [|done]. unfold stat_grand_mean_item, grand_mean_sql, partial_col. cbn [text fn_text op_text]. cbv zeta. same_text.
Qed.

Lemma merge_text plan i : text (merge_sql (kind plan) i) = merge_select_item i plan /\ bracketed (merge_sql (kind plan) i) = true.
Proof.
  split; [|by destruct (kind plan)]. unfold merge_select_item.
  destruct (kind plan); unfold stat_merge, merge_sql, m2_sql, partial_col; cbn [text fn_text op_text rel_text]; cbv zeta; same_text.
Qed.

(** ** The pipeline *)

Section Pipeline.
Variable ar : Arith.

(** A shard's partial row: its SELECT list over its own rows of the group. *)
Definition shard_row (arg : string) (k : AggKind) (i : nat) (shard : list Row) : option Row :=
  vs ← mapM (fun c => eval ar shard None (partial_sql arg c)) (partial_columns k);
  Some (fun name =>
    match List.find (fun nv => String.eqb nv.1 name) (zip (map (fun c => partial_column_name c i) (partial_columns k)) vs) with
    | Some (_, v) => v
    | None => None
    end).

(** [SELECT p.*, <e> AS "name" FROM (<rows>) p]. *)
Definition with_column (name : string) (e : Sql) (rows : list Row) : option (list Row) :=
  mapM (fun r => v ← eval ar rows (Some r) e; Some (fun n => if String.eqb n name then v else r n)) rows.

Definition merged_value (window arg : string) (k : AggKind) (i : nat) (shards : list (list Row)) : option Value :=
  rows ← mapM (shard_row arg k i) shards;
  rows ← (if is_stat k
          then rows ← with_column (stat_ref_name i) (ref_sql window i) rows;
               with_column (stat_grand_mean_name i) (grand_mean_sql window i) rows
          else Some rows);
  eval ar rows None (merge_sql k i).

(** What Exasol computes over all rows of the group. *)
Definition values (arg : string) (rows : list Row) : list Qc := omap (fun r => r arg) rows.

(** Its statistics are of the values as DOUBLEs. *)
Definition doubles (arg : string) (rows : list Row) : list Qc := map (as_double ar) (values arg rows).

Definition reference (arg : string) (k : AggKind) (rows : list Row) : Value :=
  let xs := values arg rows in
  let ds := doubles arg rows in
  let dev := deviation ds (mean_of ds) in
  let var_samp := match ds with [] | [_] => None | _ => Some (dev / (count_of ds - 1)) end in
  let variance := match ds with [] => None | [_] => Some 0 | _ => Some (dev / (count_of ds - 1)) end in
  match k with
  | Count => Some (count_of rows)
  | CountCol => Some (count_of xs)
  | Sum => aggregate_values FSum xs
  | Min => aggregate_values FMin xs
  | Max => aggregate_values FMax xs
  | Avg => aggregate_values FAvg xs
  | VarPop => aggregate_values FVarPop ds
  | VarSamp => var_samp
  | Variance => variance
  | StddevPop => square_root ar <$> aggregate_values FVarPop ds
  | StddevSamp => square_root ar <$> var_samp
  | Stddev => square_root ar <$> variance
  end.
End Pipeline.

(** ** Lists of numbers *)

Lemma count_of_cons {A} (x : A) l : count_of (x :: l) = 1 + count_of l.
Proof.
  unfold count_of. cbn [List.length]. rewrite Nat2Z.inj_succ, <- Z.add_1_l, Z2Qc_inj_add. by rewrite Z2Qc_inj_1.
Qed.

Lemma count_of_nil {A} : count_of (@nil A) = 0.
Proof. apply Z2Qc_inj_0. Qed.

Lemma count_of_app {A} (l l' : list A) : count_of (l ++ l')%list = count_of l + count_of l'.
Proof. unfold count_of. by rewrite length_app, Nat2Z.inj_add, Z2Qc_inj_add. Qed.

Lemma count_of_pos {A} (l : list A) : l <> [] -> 0 < count_of l.
Proof. intros Hl. unfold count_of. rewrite <- Z2Qc_inj_0, <- Z2Qc_inj_lt. destruct l; [done|]. cbn. lia. Qed.

Lemma count_of_neq {A} (l : list A) : l <> [] -> count_of l <> 0.
Proof. intros Hl%count_of_pos. apply not_symmetry, Qclt_not_eq, Hl. Qed.

Lemma count_of_zero {A} (l : list A) : count_of l = 0 <-> l = [].
Proof. split; [|intros ->; apply count_of_nil]. destruct l; [done|]. intros H. by destruct (count_of_neq (a :: l)). Qed.

Lemma sum_of_nil : sum_of [] = 0.
Proof. done. Qed.

Lemma sum_of_cons x l : sum_of (x :: l) = x + sum_of l.
Proof. done. Qed.

Lemma sum_of_app l l' : sum_of (l ++ l') = sum_of l + sum_of l'.
Proof. induction l as [|x l IH]; cbn [app map]; rewrite ?sum_of_nil, ?sum_of_cons; [ring|]. rewrite IH. ring. Qed.

Lemma sum_of_map_add {A} (f g : A -> Qc) l : sum_of (map (fun x => f x + g x) l) = sum_of (map f l) + sum_of (map g l).
Proof. induction l as [|x l IH]; cbn [app map]; rewrite ?sum_of_nil, ?sum_of_cons; [ring|]. rewrite IH. ring. Qed.

Lemma sum_of_map_scale {A} (c : Qc) (f : A -> Qc) l : sum_of (map (fun x => c * f x) l) = c * sum_of (map f l).
Proof. induction l as [|x l IH]; cbn [app map]; rewrite ?sum_of_nil, ?sum_of_cons; [ring|]. rewrite IH. ring. Qed.

Lemma sum_of_map_ext {A} (f g : A -> Qc) l : (forall x, x ∈ l -> f x = g x) -> sum_of (map f l) = sum_of (map g l).
Proof.
  induction l as [|x l IH]; intros H; [done|]. cbn [map]. rewrite !sum_of_cons, (H x) by (by left).
  rewrite IH; [done|]. intros y Hy. apply H. by right.
Qed.

Lemma sum_of_concat (F : list Qc -> Qc) ls :
  F [] = 0 -> (forall a b, F (a ++ b)%list = F a + F b) -> sum_of (map F ls) = F (List.concat ls).
Proof. intros H0 Ha. induction ls as [|l ls IH]; [exact (eq_sym H0)|]. cbn [map List.concat]. by rewrite sum_of_cons, IH, Ha. Qed.

Lemma deviation_app a b c : deviation (a ++ b) c = deviation a c + deviation b c.
Proof. unfold deviation. by rewrite map_app, sum_of_app. Qed.

Lemma deviation_nonneg l c : 0 <= deviation l c.
Proof.
  unfold deviation. induction l as [|x l IH]; [done|]. cbn [map]. rewrite sum_of_cons.
  replace 0 with (0 + 0) by ring. apply Qcplus_le_compat; [|exact IH].
  destruct (Qclt_le_dec (x - c) 0) as [Hn|Hp].
  - replace ((x - c) * (x - c)) with ((c - x) * (c - x)) by ring.
    assert (0 <= c - x). { apply Qclt_le_weak. apply (Qcplus_lt_mono_r _ _ (x - c)). ring_simplify. exact Hn. }
    replace 0 with (0 * (c - x)) by ring. by apply Qcmult_le_compat_r.
  - replace 0 with (0 * (x - c)) by ring. by apply Qcmult_le_compat_r.
Qed.

(** The deviation from any centre, by the one from the mean. *)
Lemma deviation_expand l c :
  deviation l c = sum_of (map (fun x => x * x) l) - Qc_of_Z 2 * c * sum_of l + count_of l * c * c.
Proof.
  unfold deviation. induction l as [|x l IH]; cbn [map]; rewrite ?sum_of_nil, ?sum_of_cons, ?count_of_nil; [ring|].
  rewrite IH, count_of_cons.
  change (Qc_of_Z 2) with (Qc_of_Z (1 + 1)). rewrite Z2Qc_inj_add, Z2Qc_inj_1. ring.
Qed.

Lemma deviation_shift l c :
  l <> [] -> deviation l c = deviation l (mean_of l) + count_of l * (mean_of l - c) * (mean_of l - c).
Proof.
  intros Hl. rewrite !deviation_expand. unfold mean_of. pose proof (count_of_neq l Hl).
  change (Qc_of_Z 2) with (Qc_of_Z (1 + 1)). rewrite Z2Qc_inj_add, Z2Qc_inj_1. field. done.
Qed.

(** ** Extremes *)

(** [m] bounds [l] under [le] and occurs in it. *)
Definition extreme (le : Qc -> Qc -> Prop) (l : list Qc) (m : Qc) : Prop := m ∈ l /\ forall x, x ∈ l -> le m x.

Lemma fold1_extreme le f l m :
  (forall a b, f a b = a /\ le a b \/ f a b = b /\ le b a) -> (forall a, le a a) -> (forall a b c, le a b -> le b c -> le a c) ->
  fold1 f l = Some m -> extreme le l m.
Proof.
  intros Hf Hr Ht. destruct l as [|x l]; [done|]. cbn. intros [= <-]. unfold extreme.
  induction l as [|y l [IHin IHle]]; cbn.
  { split; [by left|]. intros z ->%list_elem_of_singleton. done. }
  destruct (Hf y (foldr f x l)) as [[-> Hle]|[-> Hle]].
  - split; [right; by left|]. intros z [->|[->|Hz]%elem_of_cons]%elem_of_cons; [|done|].
    + apply (Ht _ (foldr f x l)); [done|]. apply IHle. by left.
    + apply (Ht _ (foldr f x l)); [done|]. apply IHle. by right.
  - split.
    + apply elem_of_cons in IHin as [->|Hin]; [by left|]. by right; right.
    + intros z [->|[->|Hz]%elem_of_cons]%elem_of_cons; [apply IHle; by left|done|]. apply IHle. by right.
Qed.

Lemma fold1_extreme_iff le f l m :
  (forall a b, f a b = a /\ le a b \/ f a b = b /\ le b a) -> (forall a, le a a) -> (forall a b c, le a b -> le b c -> le a c) ->
  (forall a b, le a b -> le b a -> a = b) -> fold1 f l = Some m <-> extreme le l m.
Proof.
  intros Hf Hr Ht Ha. split; [by apply fold1_extreme|]. intros [Hin Hle].
  destruct (fold1 f l) as [m'|] eqn:E; [|destruct l; [by apply elem_of_nil in Hin|done]].
  apply (fold1_extreme le) in E as [Hin' Hle']; [|done..]. f_equal. apply Ha; auto.
Qed.

Definition at_least (a b : Qc) : Prop := b <= a.

Lemma smallest_iff l m : fold1 smaller l = Some m <-> extreme Qcle l m.
Proof.
  apply fold1_extreme_iff; [|apply Qcle_refl|apply Qcle_trans|apply Qcle_antisym].
  intros a b. unfold smaller. case_decide as H; [by left|right]. split; [done|]. by apply Qclt_le_weak, Qcnot_le_lt.
Qed.

Lemma largest_iff l m : fold1 larger l = Some m <-> extreme at_least l m.
Proof.
  unfold at_least. apply fold1_extreme_iff; [|intros; apply Qcle_refl|intros; by eapply Qcle_trans|intros; by apply Qcle_antisym].
  intros a b. unfold larger. case_decide as H; [by right|left]. split; [done|]. by apply Qclt_le_weak, Qcnot_le_lt.
Qed.

(** The lists with a value, and what a column that skips the others aggregates. *)
Definition nonempty (ls : list (list Qc)) : list (list Qc) := List.filter (fun l => match l with [] => false | _ => true end) ls.

Lemma nonempty_concat ls : List.concat (nonempty ls) = List.concat ls.
Proof.
  induction ls as [|[|x l] ls IH]; [done|done|].
  change (((x :: l) ++ List.concat (nonempty ls))%list = ((x :: l) ++ List.concat ls)%list). by rewrite IH.
Qed.

Lemma nonempty_elem ls l : l ∈ nonempty ls <-> l ∈ ls /\ l <> [].
Proof.
  unfold nonempty. rewrite list_elem_of_In, filter_In, <- list_elem_of_In. destruct l; naive_solver.
Qed.

Lemma omap_nonempty (F : list Qc -> Value) (G : list Qc -> Qc) ls :
  F [] = None -> (forall x l, F (x :: l) = Some (G (x :: l))) -> omap F ls = map G (nonempty ls).
Proof.
  intros H0 H. induction ls as [|[|x l] ls IH]; [done| |].
  - cbn [omap list_omap]. rewrite H0. exact IH.
  - cbn [omap list_omap]. rewrite H. change (G (x :: l) :: omap F ls = G (x :: l) :: map G (nonempty ls)). by rewrite IH.
Qed.

Lemma nonempty_nil ls : nonempty ls = [] <-> List.concat ls = [].
Proof.
  rewrite <- nonempty_concat. split; [by intros ->|]. destruct (nonempty ls) as [|l rest] eqn:E; [done|].
  assert (l <> []) by (apply (nonempty_elem ls); rewrite E; by left). by destruct l.
Qed.

Lemma extreme_concat le (pick : list Qc -> Qc) ls m :
  (forall a b c, le a b -> le b c -> le a c) -> (forall l, l ∈ ls -> extreme le l (pick l)) ->
  extreme le (map pick ls) m -> extreme le (List.concat ls) m.
Proof.
  intros Ht Hp [Hin Hle]. apply list_elem_of_fmap in Hin as (l & -> & Hl). split.
  - apply list_elem_of_In, in_concat. exists l. rewrite <- !list_elem_of_In. split; [done|]. by apply Hp.
  - intros x Hx. apply list_elem_of_In, in_concat in Hx as (l' & Hl'%list_elem_of_In & Hx%list_elem_of_In).
    apply (Ht _ (pick l')); [apply Hle, list_elem_of_fmap; by exists l'|by apply Hp].
Qed.

(** An aggregate whose merge is itself. *)
Lemma fold1_concat le f ls :
  (forall l m, fold1 f l = Some m <-> extreme le l m) -> (forall a b c, le a b -> le b c -> le a c) ->
  fold1 f (omap (fold1 f) ls) = fold1 f (List.concat ls).
Proof.
  intros Hf Ht. set (pick l := default 0 (fold1 f l)).
  rewrite (omap_nonempty (fold1 f) pick) by (done || by intros).
  rewrite <- nonempty_concat. destruct (fold1 f (map pick (nonempty ls))) as [m|] eqn:E.
  - symmetry. apply Hf. apply Hf in E. apply (extreme_concat le pick); [done| |done].
    intros l [_ Hl]%nonempty_elem. apply Hf. unfold pick. by destruct l.
  - destruct (nonempty ls); [done|]. done.
Qed.

Lemma min_of_mins ls : fold1 smaller (omap (fold1 smaller) ls) = fold1 smaller (List.concat ls).
Proof. apply (fold1_concat Qcle); [apply smallest_iff|apply Qcle_trans]. Qed.

Lemma max_of_maxs ls : fold1 larger (omap (fold1 larger) ls) = fold1 larger (List.concat ls).
Proof. apply (fold1_concat at_least); [apply largest_iff|]. unfold at_least. intros. by eapply Qcle_trans. Qed.

Lemma aggregate_min l : aggregate_values FMin l = fold1 smaller l.
Proof. by destruct l. Qed.

Lemma aggregate_max l : aggregate_values FMax l = fold1 larger l.
Proof. by destruct l. Qed.

Lemma omap_same {A B} (f g : A -> option B) (l : list A) : (forall x, f x = g x) -> omap f l = omap g l.
Proof. intros H. induction l as [|x l IH]; [done|]. cbn [omap list_omap]. rewrite H. destruct (g x); [f_equal|]; exact IH. Qed.

Lemma sum_of_sums ls : aggregate_values FSum (omap (aggregate_values FSum) ls) = aggregate_values FSum (List.concat ls).
Proof.
  rewrite (omap_nonempty _ sum_of) by done.
  assert (Hsum : sum_of (map sum_of (nonempty ls)) = sum_of (List.concat ls)).
  { rewrite (sum_of_concat sum_of), nonempty_concat; [done|done|apply sum_of_app]. }
  pose proof (nonempty_nil ls) as Hnil. destruct (nonempty ls) as [|l rest]; [by rewrite (proj1 Hnil)|].
  destruct (List.concat ls) as [|y ys]; [by discriminate (proj2 Hnil eq_refl)|].
  change (Some (sum_of (map sum_of (l :: rest))) = Some (sum_of (y :: ys))). by rewrite Hsum.
Qed.

Lemma constant_mean l m : l <> [] -> (forall x, x ∈ l -> x = m) -> mean_of l = m /\ deviation l m = 0.
Proof.
  intros Hl Hall.
  assert (Hs : sum_of l = count_of l * m).
  { clear -Hall. induction l as [|x l IH]; [rewrite sum_of_nil, count_of_nil; ring|].
    rewrite sum_of_cons, count_of_cons, IH by (intros y Hy; apply Hall; by right). rewrite (Hall x) by (by left). ring. }
  split.
  - unfold mean_of. rewrite Hs. field. by apply count_of_neq.
  - unfold deviation. rewrite (sum_of_map_ext _ (fun _ => 0 * 0)); [|intros x Hx; rewrite (Hall x Hx); ring].
    rewrite sum_of_map_scale. ring.
Qed.

(** A list whose extremes agree is constant, whatever its values are converted to. *)
Lemma constant_list (f : Qc -> Qc) l m :
  aggregate_values FMin l = Some m -> aggregate_values FMax l = Some m ->
  mean_of (map f l) = f m /\ deviation (map f l) (f m) = 0.
Proof.
  rewrite aggregate_min, aggregate_max, smallest_iff, largest_iff. intros [Hin Hmin] [_ Hmax]. unfold at_least in Hmax.
  apply constant_mean; [by destruct l; [apply elem_of_nil in Hin|]|].
  intros y (x & -> & Hx)%list_elem_of_fmap. f_equal. apply Qcle_antisym; auto.
Qed.

(** ** Evaluation of the partials *)

Section Partials.
Variable ar : Arith.

Lemma mapM_total {A B} (f : A -> option B) g l : (forall x, x ∈ l -> f x = Some (g x)) -> mapM f l = Some (map g l).
Proof.
  induction l as [|x l IH]; intros H; [done|]. cbn. rewrite (H x) by (by left). cbn.
  rewrite IH; [done|]. intros y Hy. apply H. by right.
Qed.

Lemma omap_id_map {A} (f : A -> Value) l : omap id (map f l) = omap f l.
Proof. induction l as [|x l IH]; [done|]. cbn [map omap list_omap]. unfold id at 1. destruct (f x); [f_equal|]; exact IH. Qed.

(** An aggregate over rows whose argument evaluates without error. *)
Lemma eval_agg {A} (R : A -> Row) rows f e (v : A -> Value) (l : list A) :
  rows = map R l -> (forall x, x ∈ l -> eval ar rows (Some (R x)) e = Some (v x)) ->
  eval ar rows None (Agg f e) = Some (aggregate_values f (omap v l)).
Proof.
  intros -> H. cbn [eval]. rewrite (mapM_total _ (fun r => default None (eval ar (map R l) (Some r) e))).
  - cbn [mbind option_bind]. rewrite map_map, omap_id_map. f_equal. f_equal. revert H. generalize (map R l) as rows.
    intros rows. induction l as [|x l IH]; intros H; [done|]. cbn. rewrite (H x) by (by left). cbn.
    rewrite IH; [done|]. intros y Hy. apply H. by right.
  - intros r Hr. apply list_elem_of_fmap in Hr as (x & -> & Hx). by rewrite (H x).
Qed.

Lemma eval_over {A} (R : A -> Row) rows r w f e (v : A -> Value) (l : list A) :
  rows = map R l -> (forall x, x ∈ l -> eval ar rows (Some (R x)) e = Some (v x)) ->
  eval ar rows (Some r) (Over f e w) = Some (aggregate_values f (omap v l)).
Proof. intros Hr H. rewrite <- (eval_agg R rows f e v l Hr H). done. Qed.

Lemma eval_fragment_agg shard f arg : eval ar shard None (Agg f (Fragment arg)) = Some (aggregate_values f (values arg shard)).
Proof. apply (eval_agg id shard f (Fragment arg) (fun r => r arg)); [by rewrite map_id|done]. Qed.

Lemma eval_cast_agg shard f arg : eval ar shard None (Agg f (CastDouble (Fragment arg))) = Some (aggregate_values f (doubles ar arg shard)).
Proof.
  rewrite (eval_agg id shard f _ (fun r => option_map (as_double ar) (r arg)) shard); [|by rewrite map_id|done]. do 2 f_equal. unfold doubles, values.
  induction shard as [|r shard IH]; [done|]. cbn [omap list_omap map]. destruct (r arg); cbn; [f_equal|]; exact IH.
Qed.

Lemma count_doubles arg shard : count_of (doubles ar arg shard) = count_of (values arg shard).
Proof. unfold count_of, doubles. by rewrite length_map. Qed.

Definition partial_value (arg : string) (c : PartialAggColumn) (shard : list Row) : Value :=
  let xs := values arg shard in
  let ds := doubles ar arg shard in
  match c with
  | PCountStar => Some (count_of shard)
  | PCountArg | PAvgCnt => Some (count_of xs)
  | PStatCnt => Some (count_of ds)
  | PSum | PAvgSum => aggregate_values FSum xs
  | PMin => aggregate_values FMin xs
  | PMax => aggregate_values FMax xs
  | PStatMean => match ds with [] => None | _ => Some (mean_of ds) end
  | PStatM2 => match ds with [] => None | _ => Some (deviation ds (mean_of ds)) end
  end.

Lemma related_extremes l :
  related REq (aggregate_values FMin l) (aggregate_values FMax l) = true ->
  exists m, aggregate_values FMin l = Some m /\ aggregate_values FMax l = Some m.
Proof.
  destruct (aggregate_values FMin l) as [a|], (aggregate_values FMax l) as [b|]; try done. cbn.
  intros ->%bool_decide_eq_true. by exists b.
Qed.

Lemma eval_partial arg c shard : eval ar shard None (partial_sql arg c) = Some (partial_value arg c shard).
Proof.
  destruct c; try (apply eval_fragment_agg); try done; cbn [partial_sql].
  { rewrite eval_fragment_agg. cbn [partial_value]. by rewrite count_doubles. }
  all: change (eval ar shard None (Case REq ?a ?b ?y ?n)) with
      (x ← eval ar shard None a; z ← eval ar shard None b;
       if related REq x z then eval ar shard None y else eval ar shard None n).
  all: rewrite !eval_fragment_agg; cbn [mbind option_bind];
    destruct (related REq _ _) eqn:Hrel;
    [apply related_extremes in Hrel as (m & Hm & HM); destruct (constant_list (as_double ar) _ _ Hm HM) as [Hmean Hdev];
     fold (doubles ar arg shard) in Hmean, Hdev; assert (Hne : doubles ar arg shard <> []) by (unfold doubles; by destruct (values arg shard))|].
  - change (eval ar shard None (CastDouble ?e)) with (v ← eval ar shard None e; Some (option_map (as_double ar) v)). rewrite eval_fragment_agg, Hm. cbn [partial_value].
    rewrite Hmean. by destruct (doubles ar arg shard).
  - rewrite eval_cast_agg. cbn [partial_value]. by destruct (doubles ar arg shard).
  - cbn [eval partial_value]. rewrite Hmean, Hdev. by destruct (doubles ar arg shard).
  - change (eval ar shard None (Bin ?o ?a ?b)) with (x ← eval ar shard None a; y ← eval ar shard None b; operate o x y).
    rewrite eval_cast_agg, eval_fragment_agg. cbn [mbind option_bind partial_value]. change (aggregate_values FCount (values arg shard)) with (Some (count_of (values arg shard))).
    rewrite <- count_doubles. destruct (doubles ar arg shard) as [|x xs] eqn:E; [done|]. cbn [aggregate_values operate]. do 2 f_equal.
    field. by apply count_of_neq.
Qed.

(** A shard's partial row, column by column. *)
Lemma shard_row_total arg k i shard :
  exists r, shard_row ar arg k i shard = Some r
    /\ forall c, c ∈ partial_columns k -> r (partial_column_name c i) = partial_value arg c shard.
Proof.
  unfold shard_row. rewrite (mapM_total _ (fun c => partial_value arg c shard)) by (intros; apply eval_partial).
  cbn [mbind option_bind]. eexists. split; [reflexivity|]. intros c Hc. unfold partial_column_name. generalize (show_nat i). intros d.
  destruct k; cbn [partial_columns] in *;
    repeat (apply elem_of_cons in Hc as [->|Hc]); try (by apply elem_of_nil in Hc);
    cbn [map zip zip_with List.find fst]; unfold column_role; cbn [String.app append];
    repeat (rewrite String.eqb_refl || (cbn [String.eqb]; rewrite ?Ascii.eqb_refl; cbn [Ascii.eqb Bool.eqb]));
    try reflexivity.
Qed.
End Partials.

(** ** The merge *)

Section Merge.
Variable ar : Arith.

Lemma eval_bin rows row o a b x y z :
  eval ar rows row a = Some x -> eval ar rows row b = Some y -> operate o x y = Some z -> eval ar rows row (Bin o a b) = Some z.
Proof. intros Ha Hb Ho. cbn [eval]. rewrite Ha. cbn [mbind option_bind]. by rewrite Hb. Qed.

Lemma eval_nullif rows row a b x y :
  eval ar rows row a = Some x -> eval ar rows row b = Some y ->
  eval ar rows row (NullIf a b) = Some (if related REq x y then None else x).
Proof. intros Ha Hb. cbn [eval]. rewrite Ha. cbn [mbind option_bind]. by rewrite Hb. Qed.

Lemma eval_case rows row r a b yes no x y :
  eval ar rows row a = Some x -> eval ar rows row b = Some y ->
  eval ar rows row (Case r a b yes no) = if related r x y then eval ar rows row yes else eval ar rows row no.
Proof. intros Ha Hb. cbn [eval]. rewrite Ha. cbn [mbind option_bind]. by rewrite Hb. Qed.

Lemma eval_sqrt rows row e v :
  eval ar rows row e = Some v -> (forall x, v = Some x -> 0 <= x) -> eval ar rows row (Sqrt e) = Some (square_root ar <$> v).
Proof.
  intros He Hv. cbn [eval]. rewrite He. cbn [mbind option_bind]. destruct v as [x|]; [|done].
  rewrite decide_False; [done|]. apply Qcle_not_lt. by apply Hv.
Qed.

Lemma omap_map {A B C} (f : A -> B) (g : B -> option C) l : omap (fun x => g (f x)) l = omap g (map f l).
Proof. induction l as [|x l IH]; [done|]. cbn [map omap list_omap]. destruct (g (f x)); [f_equal|]; exact IH. Qed.

Lemma omap_some {A B} (f : A -> B) l : omap (fun x => Some (f x)) l = map f l.
Proof. induction l as [|x l IH]; [done|]. cbn [map omap list_omap]. by f_equal. Qed.

Lemma values_concat arg shards : values arg (List.concat shards) = List.concat (map (values arg) shards).
Proof. induction shards as [|s shards IH]; [done|]. cbn [map List.concat]. unfold values at 1. rewrite omap_app. fold (values arg s). fold (values arg (List.concat shards)). by rewrite IH. Qed.

Lemma doubles_concat arg shards : doubles ar arg (List.concat shards) = List.concat (map (doubles ar arg) shards).
Proof. unfold doubles. by rewrite values_concat, concat_map, map_map. Qed.

Lemma counts_concat {A} (ls : list (list A)) : sum_of (map count_of ls) = count_of (List.concat ls).
Proof.
  induction ls as [|l ls IH]; [symmetry; apply count_of_nil|]. cbn [map List.concat]. by rewrite sum_of_cons, count_of_app, IH.
Qed.

Lemma sum_of_counts {A B} (f : A -> list B) l : l <> [] ->
  aggregate_values FSum (omap (fun s => Some (count_of (f s))) l) = Some (count_of (List.concat (map f l))).
Proof.
  intros Hl. rewrite (omap_some (fun s => count_of (f s))), <- counts_concat, map_map. by destruct l.
Qed.

(** The rows of the shards, which hold their partials. *)
Context (arg : string) (k : AggKind) (i : nat) (shards : list (list Row)).
Hypothesis some_shard : shards <> [].

Local Notation xss := (map (doubles ar arg) shards).
Local Notation all := (List.concat xss).

Section Columns.
Context (R : list Row -> Row) (c : PartialAggColumn).
Hypothesis holds : forall s, R s (partial_column_name c i) = partial_value ar arg c s.

Lemma eval_partial_agg f :
  eval ar (map R shards) None (Agg f (partial_col c i)) = Some (aggregate_values f (omap (partial_value ar arg c) shards)).
Proof. apply (eval_agg ar R); [done|]. intros s _. cbn [eval partial_col mbind option_bind]. by rewrite holds. Qed.
End Columns.

Lemma stat_values_zero : all = [] -> forall s, s ∈ shards -> doubles ar arg s = [].
Proof.
  intros Ha s Hs. apply elem_of_nil_inv. intros x Hx. apply (not_elem_of_nil x). rewrite <- Ha.
  apply list_elem_of_In, in_concat. exists (doubles ar arg s). rewrite <- !list_elem_of_In. split; [|done].
  apply list_elem_of_fmap. by exists s.
Qed.

(** A column that is NULL exactly for a shard without a value, summed. *)
Lemma sum_skipping (F : list Qc -> Qc) :
  aggregate_values FSum (omap (fun s => match doubles ar arg s with [] => None | _ => Some (F (doubles ar arg s)) end) shards)
  = match all with [] => None | _ => Some (sum_of (map F (nonempty xss))) end.
Proof.
  rewrite (omap_map (doubles ar arg) (fun xs => match xs with [] => None | _ => Some (F xs) end)).
  rewrite (omap_nonempty _ F) by done.  pose proof (nonempty_nil xss) as Hn. 
  destruct (nonempty xss) as [|l ls]; [by rewrite (proj1 Hn)|]. destruct (all); [by discriminate (proj2 Hn eq_refl)|done].
Qed.

Lemma grand_mean_exact s :
  all <> [] -> s + sum_of (map (fun xs => count_of xs * (mean_of xs - s)) (nonempty xss)) / count_of all = mean_of all.
Proof.
  intros Ha.
  assert (Hsum : sum_of (map (fun xs => count_of xs * (mean_of xs - s)) (nonempty xss)) = sum_of all - count_of all * s).
  { rewrite (sum_of_map_ext _ (fun xs => sum_of xs + (- s) * count_of xs)).
    - rewrite sum_of_map_add, sum_of_map_scale, counts_concat, (sum_of_concat sum_of), !nonempty_concat;
        [ring|done|apply sum_of_app].
    - intros xs [_ Hx]%nonempty_elem. unfold mean_of. field. by apply count_of_neq. }
  rewrite Hsum. unfold mean_of. field. by apply count_of_neq.
Qed.

Lemma merged_deviation g :
  sum_of (map (fun xs => deviation xs (mean_of xs)) (nonempty xss))
  + sum_of (map (fun xs => count_of xs * (mean_of xs - g) * (mean_of xs - g)) (nonempty xss)) = deviation all g.
Proof.
  rewrite <- sum_of_map_add. rewrite <- (nonempty_concat xss).
  rewrite <- (sum_of_concat (fun xs => deviation xs g)); [|done|intros; apply deviation_app].
  apply sum_of_map_ext. intros xs [_ Hx]%nonempty_elem. by rewrite (deviation_shift xs g).
Qed.
End Merge.

(** The statistics: the reference point and the grand mean the wrapper adds, and the
    merge over them. *)
Section Statistics.
Context (ar : Arith) (window arg : string) (i : nat) (shards : list (list Row)).
Hypothesis some_shard : shards <> [].

Local Notation xss := (map (doubles ar arg) shards).
Local Notation all := (List.concat xss).

Definition set_column (name : string) (v : Value) (r : Row) : Row := fun n => if String.eqb n name then v else r n.

Lemma with_column_constant (R : list Row -> Row) name e v :
  (forall s, s ∈ shards -> eval ar (map R shards) (Some (R s)) e = Some v) ->
  with_column ar name e (map R shards) = Some (map (fun s => set_column name v (R s)) shards).
Proof.
  intros H. unfold with_column. rewrite (mapM_total _ (set_column name v)); [by rewrite map_map|].
  intros r Hr. apply list_elem_of_fmap in Hr as (s & -> & Hs).
  exact (f_equal (fun o : option Value => o ≫= (fun v0 => Some (set_column name v0 (R s)))) (H s Hs)).
Qed.

(** Rows that hold the statistics partials. *)
Definition holds_stats (R : list Row -> Row) : Prop :=
  forall s, R s (partial_column_name PStatCnt i) = partial_value ar arg PStatCnt s
    /\ R s (partial_column_name PStatMean i) = partial_value ar arg PStatMean s
    /\ R s (partial_column_name PStatM2 i) = partial_value ar arg PStatM2 s.

Lemma set_ref_partial c v r : set_column (stat_ref_name i) v r (partial_column_name c i) = r (partial_column_name c i).
Proof. reflexivity. Qed.

Lemma set_mean_partial c v r : set_column (stat_grand_mean_name i) v r (partial_column_name c i) = r (partial_column_name c i).
Proof. reflexivity. Qed.

Lemma holds_set_ref R v : holds_stats R -> holds_stats (fun s => set_column (stat_ref_name i) v (R s)).
Proof. intros H s. rewrite !set_ref_partial. apply H. Qed.

Lemma holds_set_mean R v : holds_stats R -> holds_stats (fun s => set_column (stat_grand_mean_name i) v (R s)).
Proof. intros H s. rewrite !set_mean_partial. apply H. Qed.

Lemma total_count R row f :
  holds_stats R -> (f = Agg FSum (partial_col PStatCnt i) /\ row = None \/ f = Over FSum (partial_col PStatCnt i) window /\ is_Some row) ->
  eval ar (map R shards) row f = Some (Some (count_of all)).
Proof.
  intros HR Hf. rewrite <- (sum_of_counts (doubles ar arg) shards some_shard).
  assert (Hc : forall s, s ∈ shards -> eval ar (map R shards) (Some (R s)) (partial_col PStatCnt i) = Some (Some (count_of (doubles ar arg s)))).
  { intros s _. cbn [partial_col eval mbind option_bind]. by destruct (HR s) as (-> & _). }
  destruct Hf as [[-> ->]|[-> [r ->]]]; [by apply (eval_agg ar R)|by apply (eval_over ar R)].
Qed.

Lemma ref_value R r :
  holds_stats R -> exists m, eval ar (map R shards) (Some r) (ref_sql window i) = Some m /\ (m = None <-> all = []).
Proof.
  intros HR. eexists. split.
  { apply (eval_over ar R _ _ _ _ _ (partial_value ar arg PStatMean)); [done|]. intros s _. cbn [partial_col eval mbind option_bind].
    by destruct (HR s) as (_ & -> & _). }
  unfold partial_value. rewrite (omap_map (doubles ar arg) (fun xs => match xs with [] => None | _ => Some (mean_of xs) end)).
  rewrite (omap_nonempty _ mean_of) by done.  rewrite <- nonempty_nil.
  destruct (nonempty xss); split; done.
Qed.

(** The grand mean column is the mean of all values, NULL without one. *)
Lemma grand_mean_value R m r :
  holds_stats R -> (forall s, R s (stat_ref_name i) = m) -> (m = None <-> all = []) -> r (stat_ref_name i) = m ->
  eval ar (map R shards) (Some r) (grand_mean_sql window i) = Some (match all with [] => None | _ => Some (mean_of all) end).
Proof.
  intros HR Hm Hnone Hr.
  assert (Hsum : eval ar (map R shards) (Some r)
     (Over FSum (Bin OMul (partial_col PStatCnt i) (Paren (Bin OSub (partial_col PStatMean i) (Column (stat_ref_name i))))) window)
     = Some (match all with [] => None | _ => Some (sum_of (map (fun xs => count_of xs * (mean_of xs - default 0 m)) (nonempty xss))) end)).
  { rewrite <- (sum_skipping ar arg shards (fun xs => count_of xs * (mean_of xs - default 0 m))).
    apply (eval_over ar R); [done|]. intros s Hs. destruct (HR s) as (Hc & Hmean & _).
    cbn [eval partial_col mbind option_bind]. rewrite Hc, Hmean, Hm. cbn [partial_value].
    destruct (doubles ar arg s) eqn:Ev; [by destruct m|]. destruct m as [m|]; [done|].
    rewrite (stat_values_zero ar arg shards) in Ev; [done|by apply Hnone|done]. }
  pose proof (total_count R (Some r) _ HR (or_intror (conj eq_refl (mk_is_Some _ _ eq_refl)))) as Hn.
  pose proof (eval_nullif ar (map R shards) (Some r) _ (Number_ "0" 0) _ (Some 0) Hn eq_refl) as Hd.
  cbn [related] in Hd. unfold grand_mean_sql.
  assert (Hshift : eval ar (map R shards) (Some r) (Column (stat_ref_name i)) = Some m) by (cbn [eval mbind option_bind]; by rewrite Hr).
  destruct (decide (all = [])) as [Ha|Ha].
  - assert (m = None) as -> by (by apply Hnone). rewrite Ha in Hsum |- *.
    eapply eval_bin; [exact Hshift|eapply eval_bin; [exact Hsum|exact Hd|reflexivity]|reflexivity].
  - rewrite bool_decide_false in Hd by (by rewrite count_of_zero).
    destruct m as [m|]; [|by destruct Ha; apply Hnone]. change (default 0 (Some m)) with m in Hsum.
    rewrite <- (grand_mean_exact ar arg shards m Ha). 
    assert (Hm' : match all with [] => None | _ => Some (sum_of (map (fun xs => count_of xs * (mean_of xs - m)) (nonempty xss))) end
                  = Some (sum_of (map (fun xs => count_of xs * (mean_of xs - m)) (nonempty xss)))) by (by destruct (all)).
    rewrite Hm' in Hsum. eapply eval_bin; [exact Hshift|eapply eval_bin; [exact Hsum|exact Hd|]|].
    + cbn [operate]. rewrite decide_False by (by rewrite count_of_zero). reflexivity.
    + cbn [operate]. by destruct (all).
Qed.

Lemma m2_value R :
  holds_stats R -> (forall s, R s (stat_grand_mean_name i) = match all with [] => None | _ => Some (mean_of all) end) ->
  eval ar (map R shards) None (m2_sql i) = Some (match all with [] => None | _ => Some (deviation all (mean_of all)) end).
Proof.
  intros HR Hg. unfold m2_sql. change (eval ar (map R shards) None (Paren ?e)) with (eval ar (map R shards) None e).
  assert (H2 : eval ar (map R shards) None (Agg FSum (partial_col PStatM2 i))
     = Some (match all with [] => None | _ => Some (sum_of (map (fun xs => deviation xs (mean_of xs)) (nonempty xss))) end)).
  { rewrite <- (sum_skipping ar arg shards (fun xs => deviation xs (mean_of xs))). apply (eval_partial_agg ar arg i shards R PStatM2).
    intros s. by destruct (HR s) as (_ & _ & ->). }
  assert (Hd : eval ar (map R shards) None (Agg FSum (Bin OMul (Bin OMul (partial_col PStatCnt i)
      (Paren (Bin OSub (partial_col PStatMean i) (Column (stat_grand_mean_name i)))))
      (Paren (Bin OSub (partial_col PStatMean i) (Column (stat_grand_mean_name i))))))
     = Some (match all with [] => None | _ => Some (sum_of (map (fun xs => count_of xs * (mean_of xs - mean_of all) * (mean_of xs - mean_of all)) (nonempty xss))) end)).
  { rewrite <- (sum_skipping ar arg shards (fun xs => count_of xs * (mean_of xs - mean_of all) * (mean_of xs - mean_of all))).
    apply (eval_agg ar R); [done|]. intros s Hs. destruct (HR s) as (Hc & Hmean & _).
    cbn [eval partial_col mbind option_bind]. rewrite Hc, Hmean, Hg. cbn [partial_value].
    destruct (doubles ar arg s) eqn:Ev; [by destruct (all)|]. destruct (all) eqn:Ea; [|done].
    rewrite (stat_values_zero ar arg shards Ea s Hs) in Ev. done. }
  eapply eval_bin; [exact H2|exact Hd|]. pose proof (merged_deviation ar arg shards (mean_of all)) as Hdev. 
  rewrite <- Hdev. by destruct (all).
Qed.
End Statistics.

Section Exact.
Context (ar : Arith) (window arg : string) (i : nat) (shards : list (list Row)).
Hypothesis some_shard : shards <> [].

Local Notation xss := (map (doubles ar arg) shards).
Local Notation all := (List.concat xss).

(** The shards' rows exist and hold their partials. *)
Lemma shard_rows k :
  exists R, mapM (shard_row ar arg k i) shards = Some (map R shards)
    /\ forall c s, c ∈ partial_columns k -> R s (partial_column_name c i) = partial_value ar arg c s.
Proof.
  exists (fun s => default (fun _ => None) (shard_row ar arg k i s)). split.
  - apply mapM_total. intros s _. by destruct (shard_row_total ar arg k i s) as (r & -> & _).
  - intros c s Hc. destruct (shard_row_total ar arg k i s) as (r & -> & Hr). by apply Hr.
Qed.

(** The statistics rows, with the wrapper's two columns. *)
Lemma stat_rows k :
  is_stat k = true ->
  exists R, (rows ← mapM (shard_row ar arg k i) shards;
             rows ← (rows ← with_column ar (stat_ref_name i) (ref_sql window i) rows;
                     with_column ar (stat_grand_mean_name i) (grand_mean_sql window i) rows); Some rows) = Some (map R shards)
    /\ holds_stats ar arg i R
    /\ forall s, R s (stat_grand_mean_name i) = match all with [] => None | _ => Some (mean_of all) end.
Proof.
  intros Hk. destruct (shard_rows k) as (R & HR & Hp). rewrite HR. cbn [mbind option_bind].
  assert (Hs : holds_stats ar arg i R) by (destruct k; try done; intros s; split_and!; apply Hp; cbn; set_solver).
  destruct (ref_value ar window arg i shards R (fun _ => None) Hs) as (m & Hm & Hnone).
  rewrite (with_column_constant ar shards R (stat_ref_name i) (ref_sql window i) m) by (intros s _; exact Hm).
  cbn [mbind option_bind].
  set (R1 := fun s => set_column (stat_ref_name i) m (R s)).
  assert (H1 : holds_stats ar arg i R1) by (by apply holds_set_ref).
  assert (Href : forall s, R1 s (stat_ref_name i) = m).
  { intros s. unfold R1, set_column. by rewrite String.eqb_refl. }
  set (g := match all with [] => None | _ => Some (mean_of all) end).
  rewrite (with_column_constant ar shards R1 (stat_grand_mean_name i) (grand_mean_sql window i) g).
  - eexists. split; [reflexivity|]. split; [by apply holds_set_mean|].
    intros s. unfold set_column. by rewrite String.eqb_refl.
  - intros s _. by apply (grand_mean_value ar window arg i shards some_shard R1 m).
Qed.

Lemma count_gt_one x y (l : list Qc) : count_of (x :: y :: l) - 1 <> 0 /\ ~ count_of (x :: y :: l) <= 1.
Proof.
  assert (H : 1 < count_of (x :: y :: l)).
  { unfold count_of. rewrite <- Z2Qc_inj_1, <- Z2Qc_inj_lt. cbn [List.length]. lia. }
  split; [|by apply Qclt_not_le]. intros E. assert (count_of (x :: y :: l) = 1) as E'.
  { transitivity (count_of (x :: y :: l) - 1 + 1); [ring|]. rewrite E. ring. }
  rewrite E' in H. by apply Qclt_not_eq in H.
Qed.

Lemma count_one (x : Qc) : count_of [x] = 1.
Proof. rewrite count_of_cons, count_of_nil. ring. Qed.

Lemma quotient_nonneg a b : 0 <= a -> 0 < b -> 0 <= a / b.
Proof.
  intros Ha Hb. unfold Qcdiv. replace 0 with (0 * / b) by ring. apply Qcmult_le_compat_r; [done|].
  apply Qclt_le_weak. by apply Qcinv_pos.
Qed.

Lemma count_minus_one_pos x y (l : list Qc) : 0 < count_of (x :: y :: l) - 1.
Proof.
  unfold count_of. rewrite <- Z2Qc_inj_1, <- Z2Qc_inj_sub, <- Z2Qc_inj_0, <- Z2Qc_inj_lt. cbn [List.length]. lia.
Qed.

Definition var_pop_of (xs : list Qc) : Value := aggregate_values FVarPop xs.
Definition var_samp_of (xs : list Qc) : Value :=
  match xs with [] | [_] => None | _ => Some (deviation xs (mean_of xs) / (count_of xs - 1)) end.
Definition variance_of (xs : list Qc) : Value :=
  match xs with [] => None | [_] => Some 0 | _ => Some (deviation xs (mean_of xs) / (count_of xs - 1)) end.

Lemma variances_nonneg xs x : var_pop_of xs = Some x \/ var_samp_of xs = Some x \/ variance_of xs = Some x -> 0 <= x.
Proof.
  destruct xs as [|a [|b xs]]; cbn [var_pop_of var_samp_of variance_of aggregate_values]; intros [H|[H|H]]; try done; injection H as <-;
    try apply Qcle_refl; apply quotient_nonneg; try apply deviation_nonneg; try (by apply count_of_pos); apply count_minus_one_pos.
Qed.

(** The merge of each kind over rows that hold its partials. *)
Lemma simple_merge k R :
  is_stat k = false -> (forall c s, c ∈ partial_columns k -> R s (partial_column_name c i) = partial_value ar arg c s) ->
  eval ar (map R shards) None (merge_sql k i) = Some (reference ar arg k (List.concat shards)).
Proof.
  intros Hk HR. unfold reference. rewrite values_concat.
  assert (Hagg : forall c f, c ∈ partial_columns k ->
    eval ar (map R shards) None (Agg f (partial_col c i)) = Some (aggregate_values f (omap (partial_value ar arg c) shards))).
  { intros c f Hc. apply eval_partial_agg. intros s. by apply HR. }
  destruct k; try done; cbn [merge_sql partial_columns] in *.
  - rewrite Hagg by (by left). unfold partial_value.
    pose proof (sum_of_counts (fun s => s) shards some_shard) as Hc. cbn beta in Hc. by rewrite Hc, map_id.
  - rewrite Hagg by (by left). unfold partial_value. by rewrite (sum_of_counts (values arg) shards some_shard).
  - rewrite Hagg by (by left). unfold partial_value. by rewrite (omap_map (values arg) (aggregate_values FSum)), sum_of_sums.
  - rewrite Hagg by (by left). unfold partial_value. rewrite (omap_map (values arg) (aggregate_values FMin)), !aggregate_min, <- min_of_mins.
    by rewrite (omap_same _ _ _ aggregate_min).
  - rewrite Hagg by (by left). unfold partial_value. rewrite (omap_map (values arg) (aggregate_values FMax)), !aggregate_max, <- max_of_maxs.
    by rewrite (omap_same _ _ _ aggregate_max).
  - pose proof (Hagg PAvgSum FSum ltac:(by left)) as Hs. unfold partial_value in Hs.
    rewrite (omap_map (values arg) (aggregate_values FSum)), sum_of_sums in Hs.
    pose proof (Hagg PAvgCnt FSum ltac:(by right; left)) as Hn. unfold partial_value in Hn.
    rewrite (sum_of_counts (values arg) shards some_shard) in Hn.
    pose proof (eval_nullif ar (map R shards) None _ (Number_ "0" 0) _ (Some 0) Hn eq_refl) as Hd. cbn [related] in Hd.
    eapply eval_bin; [exact Hs|exact Hd|]. destruct (List.concat (map (values arg) shards)) as [|x xs] eqn:E; [done|].
    rewrite bool_decide_false by (by apply count_of_neq). cbn [aggregate_values operate].
    by rewrite decide_False by (by apply count_of_neq).
Qed.

Lemma stat_merge_exact k R :
  is_stat k = true -> holds_stats ar arg i R ->
  (forall s, R s (stat_grand_mean_name i) = match all with [] => None | _ => Some (mean_of all) end) ->
  eval ar (map R shards) None (merge_sql k i) = Some (reference ar arg k (List.concat shards)).
Proof.
  intros Hk HR Hg. unfold reference. rewrite doubles_concat.
  pose proof (m2_value ar arg i shards R HR Hg) as Hm2.
  pose proof (total_count ar window arg i shards some_shard R None _ HR (or_introl (conj eq_refl eq_refl))) as Hn.
  pose proof (eval_nullif ar (map R shards) None _ (Number_ "0" 0) _ (Some 0) Hn eq_refl) as Hnz. cbn [related] in Hnz.
  assert (Hpop : eval ar (map R shards) None (merge_sql VarPop i) = Some (var_pop_of all)).
  { cbn [merge_sql]. eapply eval_bin; [exact Hm2|exact Hnz|]. destruct (all) as [|x xs]; [done|].
    rewrite bool_decide_false by (by apply count_of_neq). cbn [operate]. by rewrite decide_False by (by apply count_of_neq). }
  assert (Hsamp : eval ar (map R shards) None (merge_sql VarSamp i) = Some (var_samp_of all)).
  { cbn [merge_sql]. eapply eval_bin; [exact Hm2| |].
    - rewrite (eval_case ar (map R shards) None RLe _ (Number_ "1" 1) _ _ _ (Some 1) Hn eq_refl). cbn [related].
      instantiate (1 := match all with [] | [_] => None | _ => Some (count_of (all) - 1) end).
      destruct (all) as [|x [|y xs]].
      + rewrite bool_decide_true; [done|]. rewrite count_of_nil. discriminate.
      + rewrite bool_decide_true; [done|]. rewrite count_one. apply Qcle_refl.
      + rewrite bool_decide_false by apply count_gt_one. eapply eval_bin; [exact Hn|reflexivity|reflexivity].
    - destruct (all) as [|x [|y xs]]; [done|done|]. cbn [operate]. by rewrite decide_False by apply count_gt_one. }
  assert (Hvar : eval ar (map R shards) None (merge_sql Variance i) = Some (variance_of all)).
  { cbn [merge_sql]. rewrite (eval_case ar (map R shards) None REq _ (Number_ "1" 1) _ _ _ (Some 1) Hn eq_refl). cbn [related].
    assert (Hm1 : eval ar (map R shards) None (Paren (Bin OSub (Agg FSum (partial_col PStatCnt i)) (Number_ "1" 1)))
                  = Some (Some (count_of (all) - 1))).
    { exact (eval_bin ar (map R shards) None OSub _ (Number_ "1" 1) _ (Some 1) _ Hn eq_refl eq_refl). }
    destruct (all) as [|x [|y xs]].
    - rewrite bool_decide_false; [|rewrite count_of_nil; discriminate]. eapply eval_bin; [exact Hm2|exact Hm1|reflexivity].
    - rewrite bool_decide_true by apply count_one. done.
    - rewrite bool_decide_false. 2: { intros E. apply (proj1 (count_gt_one x y xs)). rewrite E. ring. }
      eapply eval_bin; [exact Hm2|exact Hm1|]. cbn [operate]. by rewrite decide_False by apply count_gt_one. }
  destruct k; try done.
  - change (merge_sql StddevPop i) with (Sqrt (merge_sql VarPop i)). rewrite (eval_sqrt ar _ _ _ _ Hpop); [done|].
    intros x Hx. apply (variances_nonneg (all)). by left.
  - change (merge_sql StddevSamp i) with (Sqrt (merge_sql VarSamp i)). rewrite (eval_sqrt ar _ _ _ _ Hsamp); [done|].
    intros x Hx. apply (variances_nonneg (all)). by right; left.
  - change (merge_sql Stddev i) with (Sqrt (merge_sql Variance i)). rewrite (eval_sqrt ar _ _ _ _ Hvar); [done|].
    intros x Hx. apply (variances_nonneg (all)). by right; right.
Qed.
End Exact.

(** C2. Splitting an aggregate over shards loses nothing: whatever the numeric rows of a
    group and their split over one or more shards, the partial SELECT list a shard
    runs evaluates without error, and the merge expression over the partial rows (with
    the reference point and grand mean the wrapper adds for the statistics) evaluates
    without error to the aggregate of all rows, NULLs, empty shards and one-value
    groups included. COUNT, SUM, MIN, MAX and AVG are of the values themselves, the
    statistics of the values converted to DOUBLE, whatever that conversion does; the
    operations on the converted values are exact, so the rounding of DOUBLE arithmetic
    is left out. The expressions evaluated are the trees of the SQL text both sides
    emit. *)
Theorem merged_aggregate_exact (ar : Arith) window plan i (shards : list (list Row)) :
  shards <> [] ->
  merged_value ar window (agg_arg_sql plan) (kind plan) i shards
    = Some (reference ar (agg_arg_sql plan) (kind plan) (List.concat shards))
  /\ (forall c, text (partial_sql (agg_arg_sql plan) c) = partial_select_expr (agg_arg_sql plan) c)
  /\ text (merge_sql (kind plan) i) = merge_select_item i plan
  /\ text (ref_sql window i) ++ " AS " ++ quoted (stat_ref_name i) = stat_ref_item window i
  /\ text (grand_mean_sql window i) ++ " AS " ++ quoted (stat_grand_mean_name i) = stat_grand_mean_item window i
  /\ bracketed (merge_sql (kind plan) i) = true /\ bracketed (grand_mean_sql window i) = true.
Proof.
  intros Hs. split_and!; try apply merge_text; try apply grand_mean_text; try apply ref_text; [|intros c; apply partial_text].
  unfold merged_value. destruct (is_stat (kind plan)) eqn:Hk.
  - destruct (stat_rows ar window (agg_arg_sql plan) i shards Hs (kind plan) Hk) as (R & Hrows & HR & Hg).
    destruct (mapM _ shards) as [rows|]; [|done]. cbn [mbind option_bind] in *.
    destruct (with_column ar (stat_ref_name i) _ rows) as [rows1|]; [|done]. cbn [mbind option_bind] in *.
    destruct (with_column ar (stat_grand_mean_name i) _ rows1) as [rows2|]; [|done]. cbn [mbind option_bind] in *.
    injection Hrows as ->. by apply (stat_merge_exact ar window).
  - destruct (shard_rows ar (agg_arg_sql plan) i shards (kind plan)) as (R & HR & Hp). rewrite HR. cbn [mbind option_bind].
    by apply simple_merge.
Qed.

(** The variance of 1, 2, 3 and 6 over a shard of three rows, one without a value,
    an empty shard and one of two rows, with a conversion that drops the sign. *)
Definition unsigned_arith : Arith := MkArith (fun q => q) (fun q => if decide (q < 0) then - q else q).

Lemma merged_aggregate_exact_witness :
  merged_value unsigned_arith "OVER ()" (agg_arg_sql {| kind := VarPop; column := None; arg_expr := Some "X" |}) VarPop 0
    [[(fun _ => Some (Qc_of_Z (-1))); (fun _ => Some (Qc_of_Z 2)); (fun _ => None)];
     []; [(fun _ => Some (Qc_of_Z 3)); (fun _ => Some (Qc_of_Z 6))]] = Some (Some (Q2Qc (7 # 2))).
Proof.
  pose proof (proj1 (merged_aggregate_exact unsigned_arith "OVER ()" {| kind := VarPop; column := None; arg_expr := Some "X" |} 0
    [[(fun _ => Some (Qc_of_Z (-1))); (fun _ => Some (Qc_of_Z 2)); (fun _ => None)];
     []; [(fun _ => Some (Qc_of_Z 3)); (fun _ => Some (Qc_of_Z 6))]] ltac:(discriminate))) as H.
  etransitivity; [exact H|]. f_equal. vm_compute. f_equal. apply Qc_is_canon. reflexivity.
Defined.
