(* ===== verification/GroupedAgg.v ===== *)
(** crates/lakehouse-engine/src/adapter/pushdown/grouped_agg.rs: the decomposition of a
    GROUP BY request into group keys, partial aggregates and output items, its HAVING
    and ORDER BY over the merged partials. The SQL it builds is in DrivingSql. *)

From stdpp Require Import base list strings numbers.
From Stdlib Require Import Ascii String ZArith NArith Lia.
From S2P Require Import Prelude Text Json ExasolType ColumnNode Render ScanSpec ColumnTypes Projection TopN AggPlans.

Local Open Scope string_scope.

Inductive GroupedSelectItem :=
| GroupKey (group_key_slot select_index : nat)
| AggregateItem (plan_slot select_index : nat)
| Constant (select_index : nat) (projection : string)
| ScalarOverAggregate (select_index : nat) (node : Json) (declared_type : ExasolType).

Definition select_item_index (item : GroupedSelectItem) : nat :=
  match item with GroupKey _ i | AggregateItem _ i | Constant i _ | ScalarOverAggregate i _ _ => i end.

Record GroupedAggregateDetection := MkDetection {
  group_keys : list string;
  plans : list AggregatePlan;
  plan_types : list ExasolType;
  select_items : list GroupedSelectItem;
}.

Definition constant_projection_sql (select_types : list ExasolType) (select_index : nat) (rendered : string) : option string :=
  declared ← select_types !! select_index; Some (cast_to_declared_type rendered declared).

(** The nested plans, folded without a declared type. *)
Definition fold_nested (plans : list AggregatePlan) (types : list ExasolType) (nested : list AggregatePlan)
  : list AggregatePlan * list ExasolType :=
  fold_left (fun '(plans, types) plan => let '(_, plans, types) := fold_aggregate_plan plans types plan None in (plans, types))
    nested (plans, types).

Section Detect.
Context {UC : UnicodeCase} {JD : JsonDisplay}.

Definition key_position (group_keys : list string) (sql : string) : option nat := position (String.eqb sql) group_keys.

Definition detect_item (pushdown : PushdownRequest) (group_keys : list string) (select_index : nat) (item : Json)
    (plans : list AggregatePlan) (types : list ExasolType)
  : option (GroupedSelectItem * list AggregatePlan * list ExasolType) :=
  let item_type := default "" (get_str item "type") in
  if String.eqb item_type "function_aggregate" then
    plan ← parse_agg_item item;
    declared ← emittable_select_type pushdown select_index;
    let '(plan_slot, plans, types) := fold_aggregate_plan plans types plan (Some declared) in
    Some (AggregateItem plan_slot select_index, plans, types)
  else if is_literal_selectlist_item item_type then
    rendered ← ok (render_expression item);
    projection ← constant_projection_sql (select_types pushdown) select_index rendered;
    Some (Constant select_index projection, plans, types)
  else
    match ok (render_expression item) ≫= key_position group_keys with
    | Some group_key_slot =>
        _ ← emittable_select_type pushdown select_index;
        Some (GroupKey group_key_slot select_index, plans, types)
    | None =>
        nested ← classify_scalar_over_aggregate item;
        let '(plans, types) := fold_nested plans types nested in
        declared_type ← select_type pushdown select_index;
        Some (ScalarOverAggregate select_index item declared_type, plans, types)
    end.

Fixpoint detect_items (pushdown : PushdownRequest) (group_keys : list string) (select_index : nat) (l : list Json)
    (plans : list AggregatePlan) (types : list ExasolType)
  : option (list GroupedSelectItem * list AggregatePlan * list ExasolType) :=
  match l with
  | [] => Some ([], plans, types)
  | item :: l' =>
      '(x, plans, types) ← detect_item pushdown group_keys select_index item plans types;
      '(xs, plans, types) ← detect_items pushdown group_keys (S select_index) l' plans types;
      Some (x :: xs, plans, types)
  end.

Definition detect_group_by_aggregates (pushdown : PushdownRequest) : option GroupedAggregateDetection :=
  let pushdown_req := json pushdown in
  if negb (bool_decide (get_str pushdown_req "aggregationType" = Some "group_by")) then None
  else
    group_by ← get_array pushdown_req "groupBy";
    if (List.length group_by =? 0)%nat then None
    else
      group_keys ← mapM (fun node => ok (render_expression node)) group_by;
      list ← get_array pushdown_req "selectList";
      if (List.length list =? 0)%nat then None
      else
        '(select_items, plans, plan_types) ← detect_items pushdown group_keys 0 list [] [];
        Some (MkDetection group_keys plans plan_types select_items).

(** ** Group-key types *)

Definition GROUP_KEY_EMIT_TYPE : ExasolType := WIDEST_VARCHAR.

Definition projected_key_type (pushdown : PushdownRequest) (types : list (option ExasolType)) (item : GroupedSelectItem)
  : list (option ExasolType) :=
  match item with
  | GroupKey slot select_index =>
      match select_type pushdown select_index with Some ty => <[slot := Some ty]> types | None => types end
  | _ => types
  end.

Definition unprojected_key_type (pushdown : PushdownRequest) (slot : nat) (projected : option ExasolType) : result UdfError ExasolType :=
  match projected with
  | Some ty => Ok ty
  | None =>
      match (nodes ← get_array (json pushdown) "groupBy"; node ← nodes !! slot; get node "dataType") with
      | None => Ok GROUP_KEY_EMIT_TYPE
      | Some dt => exasol_type_from_json dt
      end
  end.

Definition group_key_exasol_types (pushdown : PushdownRequest) (group_keys : list string) (select_items : list GroupedSelectItem)
  : result UdfError (list ExasolType) :=
  try_mapi (unprojected_key_type pushdown) 0
    (fold_left (projected_key_type pushdown) select_items (replicate (List.length group_keys) None)).

Definition char_width (declared_type : ExasolType) : option N := match declared_type with Char size _ => Some size | _ => None end.

Definition blank_pad_key (group_key_types : list ExasolType) (slot : nat) (fragment : string) : string :=
  match group_key_types !! slot ≫= char_width with
  | Some width =>
      "CASE WHEN character_length(" ++ fragment ++ ") < " ++ show_N width ++ " THEN rpad(" ++ fragment ++ ", " ++ show_N width
      ++ ") ELSE " ++ fragment ++ " END"
  | None => fragment
  end.

Definition blank_pad_char_group_keys (group_keys : list string) (group_key_types : list ExasolType) : list string :=
  imap (blank_pad_key group_key_types) group_keys.

(** ** HAVING over the merge *)

Definition having_operator (kind : string) : option string :=
  if String.eqb kind "predicate_equal" then Some "="
  else if String.eqb kind "predicate_notequal" then Some "<>"
  else if String.eqb kind "predicate_less" then Some "<"
  else if String.eqb kind "predicate_lessequal" then Some "<="
  else if String.eqb kind "predicate_greater" then Some ">"
  else if String.eqb kind "predicate_greaterequal" then Some ">="
  else None.

Definition HAVING_KINDS : list string :=
  ["function_aggregate"; "predicate_and"; "predicate_or"; "predicate_not"; "predicate_equal"; "predicate_notequal";
   "predicate_less"; "predicate_lessequal"; "predicate_greater"; "predicate_greaterequal"; "predicate_between";
   "predicate_is_null"; "predicate_is_not_null"].

Section Having.
Variable plans : list AggregatePlan.
Variable rec : Json -> option string.

Definition render_having_operand (node : option Json) : option string :=
  node ← node;
  if is_null node then None
  else
    kind ← get_str node "type";
    if TypeRewrites.one_of HAVING_KINDS kind then rec node
    else render_scalar_over_merge node plans (merge_select_items plans).

Definition render_having_junction (expressions : option Json) (op : string) : option string :=
  items ← expressions ≫= as_array;
  parts ← mapM rec items;
  match parts with
  | [] => None
  | [part] => Some part
  | _ => Some ("(" ++ join op parts ++ ")")
  end.

Definition render_having_node (node : Json) : option string :=
  if negb (is_object node) then None
  else
    kind ← get_str node "type";
    let child := get node in
    if String.eqb kind "function_aggregate" then
      plan ← parse_agg_item node; idx ← plan_position plans plan; merge_select_items plans !! idx
    else if String.eqb kind "predicate_and" then render_having_junction (child "expressions") " AND "
    else if String.eqb kind "predicate_or" then render_having_junction (child "expressions") " OR "
    else if String.eqb kind "predicate_not" then
      inner ← render_having_operand (child "expression"); Some ("(NOT " ++ inner ++ ")")
    else
      match having_operator kind with
      | Some op =>
          left ← render_having_operand (child "left");
          right ← render_having_operand (child "right");
          Some ("(" ++ left ++ " " ++ op ++ " " ++ right ++ ")")
      | None =>
          if String.eqb kind "predicate_between" then
            target ← render_having_operand (child "expression");
            low ← render_having_operand (child "left");
            high ← render_having_operand (child "right");
            Some ("(" ++ target ++ " BETWEEN " ++ low ++ " AND " ++ high ++ ")")
          else if String.eqb kind "predicate_is_null" then
            inner ← render_having_operand (child "expression"); Some ("(" ++ inner ++ " IS NULL)")
          else if String.eqb kind "predicate_is_not_null" then
            inner ← render_having_operand (child "expression"); Some ("(" ++ inner ++ " IS NOT NULL)")
          else None
      end.
End Having.

Fixpoint render_having_fuel (fuel : nat) (plans : list AggregatePlan) (node : Json) : option string :=
  match fuel with
  | 0 => None
  | S fuel => render_having_node plans (render_having_fuel fuel plans) node
  end.

Definition render_having_over_merge (node : Json) (plans : list AggregatePlan) : option string :=
  render_having_fuel (json_depth node) plans node.

(** ** ORDER BY over the merge *)

Inductive GroupedOrderBy := Clause (text : string) | Unresolvable.

Definition key_ordinal (slot : nat) (item : GroupedSelectItem) : option nat :=
  match item with
  | GroupKey s select_index => if (s =? slot)%nat then Some (select_index + 1) else None
  | _ => None
  end.

Definition group_key_output_ordinal (expr : Json) (d : GroupedAggregateDetection) : option nat :=
  rendered ← ok (render_expression expr);
  slot ← key_position (group_keys d) rendered;
  List.hd_error (omap (key_ordinal slot) (select_items d)).

Definition order_by_part (d : GroupedAggregateDetection) (element : Json) : option string :=
  '(ascending, nulls_last) ← parse_sort_flags element;
  expr ← get element "expression";
  ordering ← match group_key_output_ordinal expr d with
             | Some ordinal => Some (show_nat ordinal)
             | None => render_having_over_merge expr (plans d)
             end;
  Some (render_ordered ordering ascending nulls_last).

Definition build_grouped_order_by_clause (pushdown_req : Json) (d : GroupedAggregateDetection) : option GroupedOrderBy :=
  elements ← get_array pushdown_req "orderBy";
  if (List.length elements =? 0)%nat then None
  else Some (match mapM (order_by_part d) elements with Some parts => Clause (join ", " parts) | None => Unresolvable end).
End Detect.

(** ** The recursion of HAVING *)

Section HavingFuel.
Context {UC : UnicodeCase} {JD : JsonDisplay} (plans : list AggregatePlan).

Lemma having_operand_ext f g node key :
  (forall c, shallower c node -> f c = g c) ->
  render_having_operand plans f (get node key) = render_having_operand plans g (get node key).
Proof.
  intros H. destruct (get node key) as [c|] eqn:Ec; [|done]. unfold render_having_operand. cbn [mbind option_bind].
  rewrite (H c) by eauto with json. done.
Qed.

Lemma having_junction_ext f g node op :
  (forall c, shallower c node -> f c = g c) ->
  render_having_junction f (get node "expressions") op = render_having_junction g (get node "expressions") op.
Proof.
  intros H. unfold render_having_junction. change (get node "expressions" ≫= as_array) with (get_array node "expressions").
  destruct (get_array node "expressions") as [items|] eqn:Ei; [|done]. cbn [mbind option_bind].
  assert (Hm : mapM f items = mapM g items); [|by rewrite Hm].
  assert (Hall : forall x, x ∈ items -> f x = g x) by (intros x Hx; eauto with json). clear -Hall.
  induction items as [|x items IH]; [done|]. cbn [mapM]. rewrite (Hall x) by (by left).
  rewrite IH; [done|]. intros y Hy. apply Hall. by right.
Qed.

Lemma having_node_ext f g node :
  (forall c, shallower c node -> f c = g c) -> render_having_node plans f node = render_having_node plans g node.
Proof.
  intros H. unfold render_having_node. destruct (negb (is_object node)); [done|].
  destruct (get_str node "type") as [kind|]; [|done]. cbn [mbind option_bind].
  rewrite !(having_operand_ext f g) by done. rewrite !(having_junction_ext f g) by done. done.
Qed.

Lemma having_fuel_enough n m node :
  json_depth node <= n -> json_depth node <= m -> render_having_fuel n plans node = render_having_fuel m plans node.
Proof.
  revert m node. induction n as [|n IH]; intros m node Hn Hm; [destruct node; cbn in Hn; lia|].
  destruct m as [|m]; [destruct node; cbn in Hm; lia|]. cbn [render_having_fuel]. apply having_node_ext.
  intros c Hc. unfold shallower in Hc. apply IH; lia.
Qed.

(** The source's recursive equation. *)
Lemma render_having_equation node :
  render_having_over_merge node plans = render_having_node plans (fun c => render_having_over_merge c plans) node.
Proof.
  unfold render_having_over_merge. destruct (json_depth node) as [|n] eqn:Ed; [destruct node; cbn in Ed; lia|].
  cbn [render_having_fuel]. apply having_node_ext. intros c Hc. unfold shallower in Hc. apply having_fuel_enough; lia.
Qed.
End HavingFuel.

(** ** Plan slots *)

Lemma plan_position_Some plans plan slot : plan_position plans plan = Some slot -> plans !! slot = Some plan.
Proof.
  revert slot. induction plans as [|p plans IH]; intros slot H; [done|]. cbn in H. case_bool_decide as Hp.
  - injection H as <-. by subst.
  - apply fmap_Some in H as (n & Hn & ->). by apply IH.
Qed.

Lemma plan_position_None plans plan : plan_position plans plan = None <-> plan ∉ plans.
Proof.
  induction plans as [|p plans IH]; [split; [intros _; apply not_elem_of_nil|done]|]. cbn.
  rewrite not_elem_of_cons. case_bool_decide as Hp; [naive_solver|]. rewrite fmap_None, IH. naive_solver.
Qed.

(** Plans are kept once, with a type each. *)
Definition aligned (plans : list AggregatePlan) (types : list ExasolType) : Prop :=
  NoDup plans /\ List.length types = List.length plans.

Lemma fold_plan_spec plans types plan declared slot plans' types' :
  fold_aggregate_plan plans types plan declared = (slot, plans', types') -> aligned plans types ->
  aligned plans' types' /\ plans' !! slot = Some plan /\ plans `prefix_of` plans'
  /\ (forall t, declared = Some t -> types' !! slot = Some t).
Proof.
  unfold fold_aggregate_plan. intros H [Hn Hl]. destruct (plan_position plans plan) as [s|] eqn:Ep.
  - apply plan_position_Some in Ep. injection H as <- <- <-. split_and!; [|done..|].
    + split; [done|]. destruct declared; [by rewrite length_insert|done].
    + intros t ->. apply list_lookup_insert_eq. rewrite Hl. by eapply lookup_lt_Some.
  - apply plan_position_None in Ep. injection H as <- <- <-. split_and!.
    + split; [|by rewrite !length_app, Hl]. apply list.NoDup_app. split_and!; [done| |].
      * intros x Hx ->%list_elem_of_singleton. done.
      * constructor; [apply not_elem_of_nil|constructor].
    + by rewrite lookup_app_r, Nat.sub_diag by lia.
    + by apply prefix_app_r.
    + intros t ->. rewrite lookup_app_r by lia. by replace (List.length plans - List.length types) with 0 by lia.
Qed.

Lemma fold_nested_spec nested plans types plans' types' :
  fold_nested plans types nested = (plans', types') -> aligned plans types ->
  aligned plans' types' /\ plans `prefix_of` plans' /\ forall plan, plan ∈ nested -> plan ∈ plans'.
Proof.
  revert plans types. induction nested as [|plan nested IH]; intros plans types H Ha.
  { injection H as <- <-. split; [done|]. split; [done|]. intros p Hp. by apply elem_of_nil in Hp. }
  unfold fold_nested in H. cbn [fold_left] in H.
  destruct (fold_aggregate_plan plans types plan None) as [[slot p1] t1] eqn:Ef.
  apply fold_plan_spec in Ef as (Ha1 & Hs & Hpre & _); [|done].
  destruct (IH p1 t1 H Ha1) as (Ha2 & Hpre2 & Hin). split; [done|]. split; [by etrans|].
  intros p [->|Hp]%elem_of_cons; [|by apply Hin].
  apply list_elem_of_lookup. exists slot. by eapply prefix_lookup_Some.
Qed.

Section Faithful.
Context {UC : UnicodeCase} {JD : JsonDisplay}.

(** What an output item stands for, at its select-list position. *)
Definition item_faithful (pushdown : PushdownRequest) (keys : list string) (plans : list AggregatePlan)
    (select_index : nat) (item : Json) (x : GroupedSelectItem) : Prop :=
  select_item_index x = select_index
  /\ match x with
     | GroupKey slot _ => exists sql, render_expression item = Ok sql /\ keys !! slot = Some sql
     | AggregateItem slot _ =>
         exists plan, parse_agg_item item = Some plan /\ plans !! slot = Some plan
                      /\ is_Some (emittable_select_type pushdown select_index)
     | Constant _ projection =>
         exists sql t, render_expression item = Ok sql /\ select_type pushdown select_index = Some t
                       /\ projection = cast_to_declared_type sql t
     | ScalarOverAggregate _ node t =>
         node = item /\ select_type pushdown select_index = Some t
         /\ exists nested, classify_scalar_over_aggregate item = Some nested /\ forall plan, plan ∈ nested -> plan ∈ plans
     end.

Lemma item_faithful_prefix pushdown keys plans plans' i item x :
  plans `prefix_of` plans' -> item_faithful pushdown keys plans i item x -> item_faithful pushdown keys plans' i item x.
Proof.
  intros Hp [Hi Hx]. split; [done|]. destruct x as [slot s|slot s|s p|s node t]; [done| |done|].
  - destruct Hx as (plan & ? & ? & ?). exists plan. split_and!; [done| |done]. by eapply prefix_lookup_Some.
  - destruct Hx as (? & ? & nested & ? & Hin). split_and!; [done|done|]. exists nested. split; [done|].
    intros plan Hplan. apply Hin in Hplan. destruct Hp as [rest ->]. apply elem_of_app. by left.
Qed.

Lemma key_position_lookup keys sql slot : key_position keys sql = Some slot -> keys !! slot = Some sql.
Proof.
  unfold key_position. intros H. apply position_Some in H as (x & Hx & Hp & _). by apply String.eqb_eq in Hp as ->.
Qed.

Lemma ok_Some {E A} (r : result E A) a : ok r = Some a -> r = Ok a.
Proof. by destruct r; [intros [= ->]|]. Qed.

Lemma detect_item_spec pushdown keys i item plans types x plans' types' :
  detect_item pushdown keys i item plans types = Some (x, plans', types') -> aligned plans types ->
  aligned plans' types' /\ plans `prefix_of` plans' /\ item_faithful pushdown keys plans' i item x.
Proof.
  unfold detect_item. intros H Ha. destruct (String.eqb _ "function_aggregate").
  { destruct (parse_agg_item item) as [plan|] eqn:Ep; [|done]. cbn [mbind option_bind] in H.
    destruct (emittable_select_type pushdown i) as [t|] eqn:Et; [|done]. cbn [mbind option_bind] in H.
    destruct (fold_aggregate_plan plans types plan (Some t)) as [[slot p1] t1] eqn:Ef. injection H as <- <- <-.
    apply fold_plan_spec in Ef as (? & ? & ? & _); [|done]. split_and!; [done|done|].
    split; [done|]. exists plan. by rewrite Et. }
  destruct (is_literal_selectlist_item _).
  { destruct (ok (render_expression item)) as [sql|] eqn:Er; [|done]. cbn [mbind option_bind] in H.
    unfold constant_projection_sql in H. destruct (select_types pushdown !! i) as [t|] eqn:Et; [|done].
    injection H as <- <- <-. split_and!; [done|done|]. split; [done|]. exists sql, t. by apply ok_Some in Er. }
  destruct (ok (render_expression item) ≫= key_position keys) as [slot|] eqn:Ek.
  { destruct (emittable_select_type pushdown i); [|done]. injection H as <- <- <-. split_and!; [done|done|]. split; [done|].
    destruct (ok (render_expression item)) as [sql|] eqn:Er; [|done]. exists sql. split; [by apply ok_Some|].
    by apply key_position_lookup. }
  destruct (classify_scalar_over_aggregate item) as [nested|] eqn:Ec; [|done]. cbn [mbind option_bind] in H.
  destruct (fold_nested plans types nested) as [p1 t1] eqn:Ef.
  destruct (select_type pushdown i) as [t|] eqn:Et; [|done]. injection H as <- <- <-.
  apply fold_nested_spec in Ef as (? & ? & Hin); [|done]. split_and!; [done|done|]. split; [done|].
  split_and!; [done|done|]. by exists nested.
Qed.

Lemma detect_items_spec pushdown keys l i plans types xs plans' types' :
  detect_items pushdown keys i l plans types = Some (xs, plans', types') -> aligned plans types ->
  aligned plans' types' /\ plans `prefix_of` plans' /\ List.length xs = List.length l
  /\ forall j item, l !! j = Some item -> exists x, xs !! j = Some x /\ item_faithful pushdown keys plans' (i + j) item x.
Proof.
  revert i plans types xs. induction l as [|item l IH]; intros i plans types xs H Ha; cbn [detect_items] in H.
  { injection H as <- <- <-. done. }
  destruct (detect_item pushdown keys i item plans types) as [[[x p1] t1]|] eqn:Ei; [|done]. cbn [mbind option_bind] in H.
  destruct (detect_items pushdown keys (S i) l p1 t1) as [[[xs' p2] t2]|] eqn:El; [|done]. injection H as <- <- <-.
  apply detect_item_spec in Ei as (Ha1 & Hp1 & Hx); [|done].
  destruct (IH _ _ _ _ El Ha1) as (Ha2 & Hp2 & Hlen & Hall).
  split_and!; [done|by etrans|by cbn; rewrite Hlen|]. intros [|j] it Hj; cbn in Hj.
  - injection Hj as <-. exists x. split; [done|]. rewrite Nat.add_0_r. by eapply item_faithful_prefix.
  - destruct (Hall j it Hj) as (y & Hy & Hf). exists y. split; [done|]. by rewrite Nat.add_succ_r.
Qed.
End Faithful.

(** A decomposed GROUP BY request stands for the request item by item: there is one
    output item per select-list item, at its position, and each one names the group
    key, the aggregate, the cast literal or the scalar over aggregates that item is;
    every aggregate an item needs has a slot among the plans, no plan is kept twice,
    each plan has one type, and the group keys are the rendered groupBy expressions. *)
Theorem grouped_detection_faithful {UC : UnicodeCase} {JD : JsonDisplay} pushdown d :
  detect_group_by_aggregates pushdown = Some d ->
  exists group_by items,
    get_array (json pushdown) "groupBy" = Some group_by /\ get_array (json pushdown) "selectList" = Some items
    /\ Forall2 (fun node key => render_expression node = Ok key) group_by (group_keys d)
    /\ NoDup (plans d) /\ List.length (plan_types d) = List.length (plans d)
    /\ List.length (select_items d) = List.length items
    /\ forall i item, items !! i = Some item ->
         exists x, select_items d !! i = Some x /\ item_faithful pushdown (group_keys d) (plans d) i item x.
Proof.
  unfold detect_group_by_aggregates. destruct (negb _); [done|].
  destruct (get_array (json pushdown) "groupBy") as [group_by|]; [|done]. cbn [mbind option_bind].
  destruct (_ =? 0)%nat; [done|]. destruct (mapM _ group_by) as [keys|] eqn:Ek; [|done]. cbn [mbind option_bind].
  destruct (get_array (json pushdown) "selectList") as [items|]; [|done]. cbn [mbind option_bind].
  destruct (_ =? 0)%nat; [done|].
  destruct (detect_items pushdown keys 0 items [] []) as [[[xs ps] ts]|] eqn:Ed; [|done]. cbn [mbind option_bind].
  intros [= <-]. cbn [group_keys plans plan_types select_items].
  apply detect_items_spec in Ed as ([Hn Hl] & _ & Hlen & Hall); [|by split; [constructor|]].
  exists group_by, items. split_and!; try done.
  apply mapM_Some_1 in Ek. eapply list.Forall2_impl; [exact Ek|]. intros node key. apply ok_Some.
Qed.

(** SELECT region, COUNT(1 + AMOUNT), SUM(amount) / 2 ... GROUP BY region. *)
Definition agg_call (name : string) (args : list Json) : Json :=
  json_object [("type", JString "function_aggregate"); ("name", JString name); ("arguments", JArray args)].
Definition col (name : string) : Json := ColumnNode.to_json name None None.
Definition scalar_call (name : string) (args : list Json) : Json :=
  json_object [("type", JString "function_scalar"); ("name", JString name); ("arguments", JArray args)].
Definition grouped_request : PushdownRequest :=
  MkPushdown (json_object [("aggregationType", JString "group_by"); ("groupBy", JArray [col "region"]);
    ("selectList", JArray [col "region"; scalar_call "ABS" [agg_call "SUM" [col "amount"]]; agg_call "SUM" [col "amount"]])])
    [Varchar 20 false; DoublePrecision; DecimalT (MkDecimal 36 2)].
Definition sum_amount : AggregatePlan := {| kind := Sum; column := Some "AMOUNT"; arg_expr := None |}.

Lemma grouped_detection_faithful_witness :
  NoDup [sum_amount] /\ exists x, [GroupKey 0 0; ScalarOverAggregate 1 (scalar_call "ABS" [agg_call "SUM" [col "amount"]]) DoublePrecision;
    AggregateItem 0 2] !! 2 = Some x.
Proof.
  destruct (grouped_detection_faithful (UC := ascii_case) (JD := scalar_display) grouped_request
    (MkDetection [dq ++ "REGION" ++ dq] [sum_amount] [DecimalT (MkDecimal 36 2)]
       [GroupKey 0 0; ScalarOverAggregate 1 (scalar_call "ABS" [agg_call "SUM" [col "amount"]]) DoublePrecision; AggregateItem 0 2]))
    as (group_by & items & _ & Hitems & _ & Hn & _ & _ & Hall).
  - vm_compute. reflexivity.
  - split; [exact Hn|]. vm_compute in Hitems. injection Hitems as <-.
    destruct (Hall 2 _ eq_refl) as (x & Hx & _). by exists x.
Defined.

(** A HAVING comparison over a group key renders the source column's name, which the
    merge does not have: its columns are the keys' and the partials'. *)
Lemma having_renders_source_column :
  render_having_over_merge (UC := ascii_case) (JD := scalar_display)
    (json_object [("type", JString "predicate_equal"); ("left", col "region");
       ("right", json_object [("type", JString "literal_string"); ("value", JString "eu")])]) [sum_amount]
  = Some ("(" ++ dq ++ "REGION" ++ dq ++ " = 'eu')").
Proof. vm_compute. reflexivity. Qed.
