(* ===== verification/SingleGroupAgg.v ===== *)
(** crates/lakehouse-engine/src/adapter/pushdown/single_group_agg.rs and
    request_shape.rs: aggregation without GROUP BY, and the one routing decision
    between the shapes a request can take. *)

From stdpp Require Import base sets list strings numbers.
From Stdlib Require Import Ascii String ZArith NArith Lia.
From S2P Require Import Prelude Text Json ExasolType ColumnNode Render ScanSpec ColumnTypes Projection AggPlans GroupedAgg.

Local Open Scope string_scope.

(** Exactly one of the two is present. *)
Record DistinctCount := MkDistinct { distinct_column : option string; distinct_expr : option string }.

Inductive SingleGroupItem :=
| SAggregate (plan : AggregatePlan)
| SDistinct (dc : DistinctCount)
| SScalar (node : Json) (declared_type : ExasolType).

Definition has_distinct (items : list SingleGroupItem) : bool :=
  existsb (fun item => match item with SDistinct _ => true | _ => false end) items.

Definition is_lone_count_distinct (items : list SingleGroupItem) : bool :=
  match items with [SDistinct dc] => bool_decide (is_Some (distinct_column dc)) | _ => false end.

Section Detect.
Context {UC : UnicodeCase} {JD : JsonDisplay}.

Definition parse_count_distinct (item : Json) : option DistinctCount :=
  if negb (bool_decide (get item "distinct" ≫= as_bool = Some true)) then None
  else if negb (String.eqb (to_uppercase (default "" (get_str item "name"))) "COUNT") then None
  else '(column, arg_expr) ← arg_column_or_expr (get_array item "arguments"); Some (MkDistinct column arg_expr).

Definition detect_single_item (pushdown : PushdownRequest) (select_index : nat) (item : Json) : option SingleGroupItem :=
  if bool_decide (get_str item "type" = Some "function_aggregate") then
    _ ← emittable_select_type pushdown select_index;
    match parse_count_distinct item with
    | Some distinct => Some (SDistinct distinct)
    | None => SAggregate <$> parse_agg_item item
    end
  else
    _ ← classify_scalar_over_aggregate item;
    declared_type ← select_type pushdown select_index;
    Some (SScalar item declared_type).

Definition detect_aggregates (pushdown : PushdownRequest) : option (list SingleGroupItem) :=
  if match get_array (json pushdown) "groupBy" with Some a => negb (List.length a =? 0)%nat | None => false end then None
  else
    list ← get_array (json pushdown) "selectList";
    if (List.length list =? 0)%nat then None
    else mapM (fun ij => detect_single_item pushdown (fst ij) (snd ij)) (imap (fun i item => (i, item)) list).

Definition item_plans (item : SingleGroupItem) : list AggregatePlan :=
  match item with
  | SAggregate plan => [plan]
  | SDistinct _ => []
  | SScalar node _ => default [] (classify_scalar_over_aggregate node)
  end.

Definition ordinary_plans (items : list SingleGroupItem) : list AggregatePlan :=
  fst (fold_left (fun acc item => fold_nested acc.1 acc.2 (item_plans item)) items ([], [])).

(** [plan_types[slot] = declared] for each top-level aggregate; its slot exists. *)
Definition declare_item (select_types : list ExasolType) (plans : list AggregatePlan) (types : list ExasolType)
    (ij : nat * SingleGroupItem) : list ExasolType :=
  match ij.2 with
  | SAggregate plan =>
      match plan_position plans plan, select_types !! ij.1 with
      | Some slot, Some declared => <[slot := declared]> types
      | _, _ => types
      end
  | _ => types
  end.

Definition single_group_plan_types (select_types : list ExasolType) (items : list SingleGroupItem) : list ExasolType :=
  let plans := ordinary_plans items in
  fold_left (declare_item select_types plans) (imap (fun i item => (i, item)) items)
    (replicate (List.length plans) NESTED_AGGREGATE_PLAN_TYPE).

Definition merge_select_for (plans : list AggregatePlan) (plan_types : list ExasolType) (col_types : ColumnTypes)
    (item : SingleGroupItem) : option string :=
  match item with
  | SAggregate plan => slot ← plan_position plans plan; cast_merge_items plans plan_types col_types !! slot
  | SDistinct _ => None
  | SScalar node declared_type =>
      (fun expr => cast_to_declared_type expr declared_type) <$> render_scalar_over_merge node plans (merge_select_items plans)
  end.

Definition single_group_merge_select (items : list SingleGroupItem) (plans : list AggregatePlan) (plan_types : list ExasolType)
    (col_types : ColumnTypes) : option (list string) :=
  mapM (merge_select_for plans plan_types col_types) items.

(** ** The shape *)

Inductive RequestShape :=
| Grouped (detection : GroupedAggregateDetection) (having order_by : option string)
| GroupByWrapper
| SingleGroupAgg (items : list SingleGroupItem) (having : option string)
| SingleGroupWrapper
| RowScan.

Definition having_node (pushdown_req : Json) : option Json :=
  h ← get pushdown_req "having"; if is_null h then None else Some h.

(** The grouped shape, when the request decomposes and its clauses render over the
    merge; an ORDER BY that does not returns the wrapper, and [None] falls through. *)
Definition classify_grouped (pushdown : PushdownRequest) (col_types : ColumnTypes) : option RequestShape :=
  detection ← detect_group_by_aggregates pushdown;
  if validate_agg_col_types (plans detection) col_types then
    match build_grouped_order_by_clause (json pushdown) detection with
    | Some Unresolvable => Some GroupByWrapper
    | order_by =>
        let order_by := match order_by with Some (Clause c) => Some c | _ => None end in
        match having_node (json pushdown) with
        | None => Some (Grouped detection None order_by)
        | Some node => sql ← render_having_over_merge node (plans detection); Some (Grouped detection (Some sql) order_by)
        end
    end
  else None.

Definition accepted_aggregates (pushdown : PushdownRequest) (col_types : ColumnTypes) : option (list SingleGroupItem) :=
  items ← detect_aggregates pushdown;
  if validate_agg_col_types (ordinary_plans items) col_types then Some items else None.

Definition classify_request_shape (pushdown : PushdownRequest) (col_types : ColumnTypes) : RequestShape :=
  match classify_grouped pushdown col_types with
  | Some shape => shape
  | None =>
      let aggregation := get_str (json pushdown) "aggregationType" in
      if bool_decide (aggregation = Some "group_by") then GroupByWrapper
      else
        match accepted_aggregates pushdown col_types with
        | None => if bool_decide (aggregation = Some "single_group") then SingleGroupWrapper else RowScan
        | Some items =>
            match having_node (json pushdown) with
            | None => SingleGroupAgg items None
            | Some node =>
                if has_distinct items then SingleGroupWrapper
                else
                  match render_having_over_merge node (ordinary_plans items) with
                  | Some sql => SingleGroupAgg items (Some sql)
                  | None => SingleGroupWrapper
                  end
            end
        end
  end.
End Detect.

(** ** No clause is dropped *)

(** Routing never answers a different query: a shape that computes the aggregates
    carries the request's HAVING when there is one, and a grouped shape its ORDER BY,
    each rendered over the merge; a GROUP BY request is never answered by a single
    group or a row scan, and a request declared as one group never by a row scan; and
    every SUM or statistic that reaches a shard has a numeric argument. *)
Theorem request_shape_keeps_clauses {UC : UnicodeCase} {JD : JsonDisplay} pushdown col_types :
  let req := json pushdown in
  match classify_request_shape pushdown col_types with
  | Grouped d having order_by =>
      detect_group_by_aggregates pushdown = Some d /\ get_str req "aggregationType" = Some "group_by"
      /\ validate_agg_col_types (plans d) col_types = true
      /\ (forall node, having_node req = Some node -> exists sql, having = Some sql /\ render_having_over_merge node (plans d) = Some sql)
      /\ (forall elements, get_array req "orderBy" = Some elements -> elements <> [] ->
            exists parts, Forall2 (fun e o => order_by_part d e = Some o) elements parts /\ order_by = Some (join ", " parts))
  | GroupByWrapper => get_str req "aggregationType" = Some "group_by"
  | SingleGroupAgg items having =>
      get_str req "aggregationType" <> Some "group_by" /\ detect_aggregates pushdown = Some items
      /\ validate_agg_col_types (ordinary_plans items) col_types = true
      /\ (forall node, having_node req = Some node ->
            exists sql, having = Some sql /\ render_having_over_merge node (ordinary_plans items) = Some sql)
  | SingleGroupWrapper => get_str req "aggregationType" <> Some "group_by"
  | RowScan => get_str req "aggregationType" <> Some "group_by" /\ get_str req "aggregationType" <> Some "single_group"
  end.
Proof.
  cbv zeta. unfold classify_request_shape. destruct (classify_grouped pushdown col_types) as [shape|] eqn:Eg.
  - unfold classify_grouped in Eg. destruct (detect_group_by_aggregates pushdown) as [d|] eqn:Ed; [|done].
    cbn [mbind option_bind] in Eg. destruct (validate_agg_col_types (plans d) col_types) eqn:Ev; [|done].
    assert (Hagg : get_str (json pushdown) "aggregationType" = Some "group_by").
    { unfold detect_group_by_aggregates in Ed. case_bool_decide as Ha; [done|]. done. }
    assert (Horder : forall c, build_grouped_order_by_clause (json pushdown) d = c -> c <> Some Unresolvable ->
      forall elements, get_array (json pushdown) "orderBy" = Some elements -> elements <> [] ->
      exists parts, Forall2 (fun e o => order_by_part d e = Some o) elements parts /\ c = Some (Clause (join ", " parts))).
    { intros c Hc Hu elements He Hne. unfold build_grouped_order_by_clause in Hc. rewrite He in Hc. cbn [mbind option_bind] in Hc.
      destruct elements as [|e elements]; [done|]. cbn [List.length Nat.eqb] in Hc.
      destruct (mapM (order_by_part d) (e :: elements)) as [parts|] eqn:Em; [|congruence].
      exists parts. split; [by apply mapM_Some_1 in Em|done]. }
    destruct (build_grouped_order_by_clause (json pushdown) d) as [[c|]|] eqn:Eo.
    + specialize (Horder _ eq_refl ltac:(done)). destruct (having_node (json pushdown)) as [node|] eqn:Eh.
      * destruct (render_having_over_merge node (plans d)) as [sql|] eqn:Er; [|done]. injection Eg as <-. split_and!; try done.
        -- intros n [= <-]. by exists sql.
        -- intros el He Hne. destruct (Horder el He Hne) as (parts & Hp & [= ->]). by exists parts.
      * injection Eg as <-. split_and!; try done. intros el He Hne. destruct (Horder el He Hne) as (parts & Hp & [= ->]). by exists parts.
    + by injection Eg as <-.
    + specialize (Horder _ eq_refl ltac:(done)). destruct (having_node (json pushdown)) as [node|] eqn:Eh.
      * destruct (render_having_over_merge node (plans d)) as [sql|] eqn:Er; [|done]. injection Eg as <-. split_and!; try done.
        -- intros n [= <-]. by exists sql.
        -- intros el He Hne. by destruct (Horder el He Hne) as (parts & _ & ?).
      * injection Eg as <-. split_and!; try done. intros el He Hne. by destruct (Horder el He Hne) as (parts & _ & ?).
  - case_bool_decide as Ha; [done|]. unfold accepted_aggregates.
    destruct (detect_aggregates pushdown) as [items|] eqn:Ed; cbn [mbind option_bind].
    2: { case_bool_decide; done. }
    destruct (validate_agg_col_types (ordinary_plans items) col_types) eqn:Ev; [|case_bool_decide; done].
    destruct (having_node (json pushdown)) as [node|] eqn:Eh; [|done].
    destruct (has_distinct items); [done|]. destruct (render_having_over_merge node (ordinary_plans items)) as [sql|] eqn:Er; [|done].
    split_and!; try done. intros n [= <-]. by exists sql.
Qed.

(** ** Slots *)

(** Every aggregate of a single-group request has a slot: the plans hold each
    aggregate an item computes or nests, once, with one type each, so the lookups of
    the typing and of the merge never miss. *)
Theorem single_group_slots_exist {UC : UnicodeCase} {JD : JsonDisplay} select_types items :
  NoDup (ordinary_plans items)
  /\ List.length (single_group_plan_types select_types items) = List.length (ordinary_plans items)
  /\ forall item plan, item ∈ items -> plan ∈ item_plans item ->
       exists slot, plan_position (ordinary_plans items) plan = Some slot
         /\ ordinary_plans items !! slot = Some plan /\ is_Some (merge_select_items (ordinary_plans items) !! slot).
Proof.
  assert (Hfold : forall l plans types, aligned plans types ->
    let '(plans', types') := fold_left (fun acc item => fold_nested acc.1 acc.2 (item_plans item)) l (plans, types) in
    aligned plans' types' /\ plans `prefix_of` plans' /\ forall item plan, item ∈ l -> plan ∈ item_plans item -> plan ∈ plans').
  { induction l as [|item l IH]; intros plans types Ha; cbn [fold_left].
    { cbv beta iota. split_and!; [done..|]. intros item plan Hi. by apply elem_of_nil in Hi. }
    cbn [fst snd]. destruct (fold_nested plans types (item_plans item)) as [p1 t1] eqn:Ef.
    apply fold_nested_spec in Ef as (Ha1 & Hp1 & Hin); [|done]. specialize (IH p1 t1 Ha1).
    destruct (fold_left _ l (p1, t1)) as [p2 t2]. destruct IH as (Ha2 & Hp2 & Hall).
    split_and!; [done|by etrans|]. intros it plan [->|Hit]%elem_of_cons Hplan; [|by eapply Hall].
    apply Hin in Hplan. destruct Hp2 as [rest ->]. apply elem_of_app. by left. }
  specialize (Hfold items [] [] (conj NoDup_nil_2 eq_refl)).
  destruct (fold_left _ items ([], [])) as [plans types] eqn:Ef. destruct Hfold as ([Hn _] & _ & Hin).
  assert (Hp : ordinary_plans items = plans) by (unfold ordinary_plans; by rewrite Ef). rewrite Hp.
  split_and!; [done| |].
  - unfold single_group_plan_types. rewrite Hp. generalize (imap (fun i item => (i, item)) items). intros l.
    assert (Hlen : forall types, List.length (fold_left (declare_item select_types plans) l types) = List.length types).
    { induction l as [|ij l IH]; intros ts; [done|]. cbn [fold_left]. rewrite IH. unfold declare_item.
      destruct ij.2 as [plan|dc|node t]; [|done|done]. destruct (plan_position plans plan), (select_types !! ij.1); try done.
      by rewrite length_insert. }
    rewrite Hlen. apply length_replicate.
  - intros item plan Hi Hplan. specialize (Hin item plan Hi Hplan).
    destruct (plan_position plans plan) as [slot|] eqn:Es; [|by apply plan_position_None in Es].
    exists slot. apply plan_position_Some in Es. split_and!; [done|done|].
    unfold merge_select_items. rewrite list_lookup_imap, Es. done.
Qed.
