(* ===== verification/Storage.v ===== *)
(** crates/lakehouse-catalog/src/storage.rs, creds.rs, vended.rs and unity/vended.rs:
    the storage backend of a table, from the CONNECTION or from the credentials a
    catalog vends, with the rule that vended credentials reach plaintext transport
    only with the operator's consent. *)

From stdpp Require Import base list strings numbers gmap.
From Stdlib Require Import Ascii String ZArith NArith Lia.
From S2P Require Import Prelude Text Json.

Local Open Scope string_scope.

(** ** Locations *)

(** [str::split_once] at a pattern. *)
Fixpoint split_once_str (pat s : string) : option (string * string) :=
  match strip_prefix pat s with
  | Some rest => Some ("", rest)
  | None =>
      match s with
      | EmptyString => None
      | String c s' => '(a, b) ← split_once_str pat s'; Some (String c a, b)
      end
  end.

(** [str::rsplit_once] at a character. *)
Fixpoint rsplit_once (c : ascii) (s : string) : option (string * string) :=
  match s with
  | EmptyString => None
  | String d s' =>
      match rsplit_once c s' with
      | Some (a, b) => Some (String d a, b)
      | None => if Ascii.eqb d c then Some ("", s') else None
      end
  end.

Definition scheme_of (location : string) : string :=
  match split_once_str "://" location with Some (scheme, _) => to_ascii_lowercase scheme | None => "" end.

Definition location_host (location : string) : string :=
  let after_scheme := match split_once_str "://" location with Some (_, rest) => rest | None => location end in
  let authority := match split_once "/" after_scheme with Some (authority, _) => authority | None => after_scheme end in
  match rsplit_once "@" authority with Some (_, host) => host | None => authority end.

(** [host.split('.').next()]. *)
Definition first_label (host : string) : string :=
  match split_once "." host with Some (label, _) => label | None => host end.

Definition adls_account_name (location : string) : result UdfError string :=
  let host := location_host location in
  let label := first_label host in
  if String.eqb label "" then
    Err (User ("vended credentials were requested for table location " ++ location ++ ", but its storage host '" ++ host
      ++ "' carries no leading label to read an ADLS account name from: expected the <account> of <account>.dfs.core.windows.net"))
  else Ok label.

(** ** Credentials and backends *)

Definition non_empty (field : option string) : option string :=
  value ← field; if String.eqb value "" then None else Some value.

Definition key_secrets (access_key secret_key : string) (session_token : option string) : list string :=
  List.filter (fun secret => negb (String.eqb secret "")) ([access_key; secret_key] ++ match session_token with Some t => [t] | None => [] end)%list.

Inductive AdlsCred := AccountKey (key : string) | Sas (token : string).

Record StorageProps := MkStorageProps {
  endpoint : string;
  region : string;
  access_key : string;
  secret_key : string;
  session_token : option string;
  allow_http : bool;
  path_style : bool;
}.

Inductive StorageBackend := S3 (props : StorageProps) | Adls (account_name : string) (cred : AdlsCred).

#[export] Instance AdlsCred_eq_dec : EqDecision AdlsCred.
Proof. solve_decision. Defined.

#[export] Instance StorageProps_eq_dec : EqDecision StorageProps.
Proof. solve_decision. Defined.

#[export] Instance StorageBackend_eq_dec : EqDecision StorageBackend.
Proof. solve_decision. Defined.

Definition props_secret_values (p : StorageProps) : list string := key_secrets (access_key p) (secret_key p) (session_token p).

Definition cred_value (cred : AdlsCred) : string := match cred with AccountKey v | Sas v => v end.

Definition secret_values (b : StorageBackend) : list string :=
  match b with
  | S3 storage => props_secret_values storage
  | Adls _ cred => if String.eqb (cred_value cred) "" then [] else [cred_value cred]
  end.

Definition addresses_scheme (b : StorageBackend) (scheme : string) : bool :=
  match b with
  | S3 _ => String.eqb scheme "s3" || String.eqb scheme "s3a"
  | Adls _ _ => String.eqb scheme "abfss"
  end.

(** The configuration keys of the iceberg crate. *)
Class StorageKeys := {
  S3_ENDPOINT : string; S3_REGION : string; S3_ACCESS_KEY_ID : string; S3_SECRET_ACCESS_KEY : string;
  S3_SESSION_TOKEN : string; S3_PATH_STYLE_ACCESS : string;
  ADLS_ACCOUNT_NAME : string; ADLS_ACCOUNT_KEY : string; ADLS_SAS_TOKEN : string;
}.

Definition insert_non_empty (props : gmap string string) (kv : string * string) : gmap string string :=
  if String.eqb kv.2 "" then props else <[kv.1 := kv.2]> props.

Definition catalog_storage_props `{StorageKeys} (b : StorageBackend) : gmap string string :=
  match b with
  | S3 storage =>
      let props := fold_left insert_non_empty
        [(S3_ENDPOINT, endpoint storage); (S3_REGION, region storage); (S3_ACCESS_KEY_ID, access_key storage);
         (S3_SECRET_ACCESS_KEY, secret_key storage)] ∅ in
      let props := match session_token storage with Some token => <[S3_SESSION_TOKEN := token]> props | None => props end in
      <[S3_PATH_STYLE_ACCESS := if path_style storage then "true" else "false"]> props
  | Adls account_name cred =>
      let props := if String.eqb account_name "" then ∅ else {[ADLS_ACCOUNT_NAME := account_name]} in
      insert_non_empty props (match cred with AccountKey key => (ADLS_ACCOUNT_KEY, key) | Sas sas => (ADLS_SAS_TOKEN, sas) end)
  end.

(** The storage part of a CONNECTION. *)
Record StorageCreds := MkStorageCreds {
  sc_endpoint : string;
  sc_region : string;
  sc_access_key : string;
  sc_secret_key : string;
  sc_session_token : option string;
  sc_path_style : option bool;
  sc_account_name : option string;
  sc_account_key : option string;
  sc_sas_token : option string;
}.

Definition non_empty_json_str (json : Json) (key : string) : option string := non_empty (get_str json key).

Definition StorageCreds_from_json (json : Json) : StorageCreds := {|
  sc_endpoint := default "" (non_empty_json_str json "endpoint");
  sc_region := default "" (non_empty_json_str json "region");
  sc_access_key := default "" (non_empty_json_str json "access_key");
  sc_secret_key := default "" (non_empty_json_str json "secret_key");
  sc_session_token := non_empty_json_str json "session_token";
  sc_path_style := get json "path_style" ≫= as_bool;
  sc_account_name := non_empty_json_str json "account_name";
  sc_account_key := non_empty_json_str json "account_key";
  sc_sas_token := non_empty_json_str json "sas_token";
|}.

Definition backend (c : StorageCreds) (allow : bool) : StorageBackend :=
  let azure_cred :=
    match sc_account_key c, sc_sas_token c with
    | Some key, None => Some (AccountKey key)
    | None, Some sas => Some (Sas sas)
    | _, _ => None
    end in
  match sc_account_name c, azure_cred with
  | Some account_name, Some cred => Adls account_name cred
  | _, _ =>
      S3 {| endpoint := sc_endpoint c; region := sc_region c; access_key := sc_access_key c; secret_key := sc_secret_key c;
            session_token := sc_session_token c; allow_http := allow; path_style := default false (sc_path_style c) |}
  end.

(** ** Vended storage *)

Inductive VendedBackendKind := VS3 | VAdls.

Definition classify_vended_scheme (scheme : string) : option VendedBackendKind :=
  if String.eqb scheme "s3" || String.eqb scheme "s3a" then Some VS3
  else if String.eqb scheme "abfs" || String.eqb scheme "abfss" then Some VAdls
  else None.

(** The CONNECTION's addressing; it has no credential. *)
Record StaticStoreAddress := MkAddress { addr_endpoint : string; addr_region : string; addr_path_style : option bool }.

Record VendedS3 := MkVendedS3 {
  v_access_key : string;
  v_secret_key : string;
  v_session_token : option string;
  v_region : option string;
  v_endpoint : option string;
  v_path_style : option bool;
}.

Definition resolved_address_field (connection : string) (vended : option string) : string :=
  if String.eqb connection "" then default "" vended else connection.

Definition is_plaintext (url : string) : bool :=
  match split_once_str "://" url with Some (scheme, _) => eq_ignore_ascii_case scheme "http" | None => false end.

Definition s3_backend (vended : VendedS3) (location : string) (allow : bool) (address : StaticStoreAddress)
  : result UdfError StorageBackend :=
  let ep := resolved_address_field (addr_endpoint address) (v_endpoint vended) in
  let rg := resolved_address_field (addr_region address) (v_region vended) in
  if negb allow && is_plaintext ep then
    Err (User ("the plaintext endpoint " ++ ep ++ " resolves the store address for table location " ++ location
      ++ ", but the ALLOW_HTTP virtual-schema property is false: vended credentials cannot move onto plaintext transport without the operator's consent, whether the catalog vended that endpoint or the CONNECTION configured it"))
  else
    Ok (S3 {| endpoint := ep; region := rg; access_key := v_access_key vended; secret_key := v_secret_key vended;
              session_token := v_session_token vended; allow_http := allow;
              path_style := default (negb (String.eqb ep "")) (or_else (addr_path_style address) (v_path_style vended)) |}).

Definition adls_backend (sas location : string) (allow : bool) : result UdfError StorageBackend :=
  if String.eqb (scheme_of location) "abfs" && negb allow then
    Err (User ("vended credentials were requested for the plaintext table location " ++ location
      ++ ", but the ALLOW_HTTP virtual-schema property is false: abfs:// names plaintext transport, and this engine has no plaintext Azure path — it would silently read the location over HTTPS instead, so honouring it requires the operator's explicit ALLOW_HTTP acknowledgement rather than a silent scheme upgrade"))
  else
    let? account_name := adls_account_name location in
    Ok (Adls account_name (Sas sas)).

(** What is read of an Iceberg REST load-table response. *)
Record LoadTableResult := MkLoadTable {
  storage_credentials : option (list (string * gmap string string));
  config : gmap string string;
}.

Definition lowercase_scheme (uri : string) : string :=
  match split_once_str "://" uri with
  | Some (scheme, rest) =>
      if negb (string_forallb (fun c => negb (is_ascii_upper c)) scheme) then to_ascii_lowercase scheme ++ "://" ++ rest else uri
  | None => uri
  end.

Definition prefix_matches (location : string) (entry : string * gmap string string) : bool :=
  negb (String.eqb entry.1 "") && starts_with (lowercase_scheme entry.1) location.

(** [Iterator::max_by_key] of the prefix length: the last of the longest. *)
Definition longest_prefix (entries : list (string * gmap string string)) : option (string * gmap string string) :=
  fold_left (fun best e =>
    match best with
    | Some b => if (String.length b.1 <=? String.length e.1)%nat then Some e else best
    | None => Some e
    end) entries None.

Definition select_credential_source (r : LoadTableResult) (location : string) : gmap string string :=
  let location := lowercase_scheme location in
  match (credentials ← storage_credentials r; longest_prefix (List.filter (prefix_matches location) credentials)) with
  | Some entry => entry.2
  | None => config r
  end.

Definition vended_config_value (vended : gmap string string) (key : string) : option string := non_empty (vended !! key).

Definition required_vended_value (vended : gmap string string) (key anchor : string) : result UdfError string :=
  ok_or (vended_config_value vended key)
    (User ("vended credentials were requested for table location " ++ anchor
      ++ ", but the catalog returned none: the selected credential source carries no non-empty " ++ key ++ " value")).

(** [str::parse::<bool>]. *)
Definition parse_bool (s : string) : option bool :=
  if String.eqb s "true" then Some true else if String.eqb s "false" then Some false else None.

Definition iceberg_vended_s3 (vended : gmap string string) (anchor : string) : result UdfError VendedS3 :=
  let? access := required_vended_value vended "s3.access-key-id" anchor in
  let? secret := required_vended_value vended "s3.secret-access-key" anchor in
  Ok {| v_access_key := access; v_secret_key := secret; v_session_token := vended_config_value vended "s3.session-token";
        v_region := vended_config_value vended "client.region"; v_endpoint := vended_config_value vended "s3.endpoint";
        v_path_style := vended_config_value vended "s3.path-style-access" ≫= parse_bool |}.

Definition VENDED_SAS_TOKEN_KEY_PREFIX : string := "adls.sas-token.".

Definition sas_for_host (host : string) (kv : string * string) : bool :=
  negb (String.eqb kv.2 "")
  && match strip_prefix VENDED_SAS_TOKEN_KEY_PREFIX kv.1 with Some key_host => eq_ignore_ascii_case key_host host | None => false end.

(** The entry of the smallest key; the order of iteration does not matter. *)
Definition smallest_key (entries : list (string * string)) : option (string * string) :=
  fold_left (fun best e =>
    match best with
    | Some b => if String.leb b.1 e.1 then best else Some e
    | None => Some e
    end) entries None.

Definition iceberg_vended_sas (vended : gmap string string) (anchor : string) : result UdfError string :=
  let host := location_host anchor in
  ok_or
    (or_else (vended_config_value vended (VENDED_SAS_TOKEN_KEY_PREFIX ++ host))
       (snd <$> smallest_key (List.filter (sas_for_host host) (map_to_list vended))))
    (User ("vended credentials were requested for storage host " ++ host ++ " (table location " ++ anchor
      ++ "), but the catalog returned none: the selected credential source carries no non-empty " ++ VENDED_SAS_TOKEN_KEY_PREFIX
      ++ host ++ " key in any casing of that host")).

Definition resolve_vended_storage (r : LoadTableResult) (anchor : string) (allow : bool) (address : StaticStoreAddress)
  : result UdfError StorageBackend :=
  let vended := select_credential_source r anchor in
  match classify_vended_scheme (scheme_of anchor) with
  | Some VS3 => let? v := iceberg_vended_s3 vended anchor in s3_backend v anchor allow address
  | Some VAdls => let? sas := iceberg_vended_sas vended anchor in adls_backend sas anchor allow
  | None =>
      Err (User ("vended credentials were requested, but the table location " ++ anchor
        ++ " names no storage backend this engine can read: expected an s3://, s3a://, abfss://, or abfs:// scheme"))
  end.

(** ** Unity Catalog *)

Record AwsTempCredentials := MkAwsTemp {
  access_key_id : string; secret_access_key : string; aws_session_token : option string; aws_endpoint : option string }.

Record TemporaryTableCredentials := MkTempCreds {
  aws_temp_credentials : option AwsTempCredentials; azure_user_delegation_sas : option string; gcp_oauth_token : option string }.

Definition uc_vended_s3 (vended : TemporaryTableCredentials) (location : string) : result UdfError VendedS3 :=
  let? aws := ok_or
    (creds ← aws_temp_credentials vended;
     if negb (String.eqb (access_key_id creds) "") && negb (String.eqb (secret_access_key creds) "") then Some creds else None)
    (User ("the Unity Catalog returned no usable S3 credential for the table location " ++ location
      ++ ": its scheme selects the S3 backend but the temporary-credentials response carried no aws_temp_credentials")) in
  Ok {| v_access_key := access_key_id aws; v_secret_key := secret_access_key aws; v_session_token := non_empty (aws_session_token aws);
        v_region := None; v_endpoint := non_empty (aws_endpoint aws); v_path_style := None |}.

Definition uc_vended_sas (vended : TemporaryTableCredentials) (location : string) : result UdfError string :=
  ok_or (non_empty (azure_user_delegation_sas vended))
    (User ("the Unity Catalog returned no usable ADLS credential for the table location " ++ location
      ++ ": its scheme selects the ADLS backend but the temporary-credentials response carried no azure_user_delegation_sas")).

Definition resolve_uc_vended_storage (vended : TemporaryTableCredentials) (storage_location : string) (allow : bool)
    (address : StaticStoreAddress) : result UdfError StorageBackend :=
  match classify_vended_scheme (scheme_of storage_location) with
  | Some VS3 => let? v := uc_vended_s3 vended storage_location in s3_backend v storage_location allow address
  | Some VAdls => let? sas := uc_vended_sas vended storage_location in adls_backend sas storage_location allow
  | None =>
      Err (User ("the Unity Catalog vended table location " ++ storage_location
        ++ " names no storage backend this engine can read: expected an s3://, s3a://, abfss://, or abfs:// scheme"))
  end.

(** ** Consent and provenance *)

Lemma s3_backend_ok v location allow address b :
  s3_backend v location allow address = Ok b ->
  exists p, b = S3 p /\ allow_http p = allow /\ (is_plaintext (endpoint p) = true -> allow = true)
    /\ access_key p = v_access_key v /\ secret_key p = v_secret_key v /\ session_token p = v_session_token v.
Proof.
  unfold s3_backend. destruct (negb allow && is_plaintext _) eqn:E; [done|]. intros [= <-]. eexists. split; [reflexivity|]. cbn.
  split_and!; try done. intros Hp. rewrite Hp, andb_true_r in E. by destruct allow.
Qed.

Lemma adls_backend_ok sas location allow b :
  adls_backend sas location allow = Ok b ->
  exists account, b = Adls account (Sas sas) /\ account <> "" /\ (scheme_of location = "abfs" -> allow = true).
Proof.
  unfold adls_backend. destruct (String.eqb_spec (scheme_of location) "abfs") as [Hs|Hs]; cbn [andb].
  - destruct allow; [|done]. cbn [negb]. unfold adls_account_name. destruct (String.eqb_spec (first_label (location_host location)) ""); [done|].
    intros [= <-]. eexists. split; [reflexivity|]. done.
  - unfold adls_account_name. destruct (String.eqb_spec (first_label (location_host location)) ""); [done|].
    intros [= <-]. eexists. split; [reflexivity|]. done.
Qed.

Lemma non_empty_Some o v : non_empty o = Some v <-> o = Some v /\ v <> "".
Proof.
  unfold non_empty. destruct o as [w|]; [|naive_solver]. cbn [mbind option_bind].
  destruct (String.eqb_spec w ""); naive_solver.
Qed.

(** The source chosen: an entry whose prefix matches and that no matching entry's
    prefix exceeds, or the flat map when no prefix matches. *)
Lemma longest_prefix_spec entries :
  match longest_prefix entries with
  | Some e => e ∈ entries /\ forall e', e' ∈ entries -> String.length e'.1 <= String.length e.1
  | None => entries = []
  end.
Proof.
  unfold longest_prefix.
  assert (H : forall best, match fold_left (fun best e => match best with
      | Some b => if (String.length b.1 <=? String.length e.1)%nat then Some e else best | None => Some e end) entries best with
    | Some e => (e ∈ entries \/ best = Some e) /\ (forall e', e' ∈ entries \/ best = Some e' -> String.length e'.1 <= String.length e.1)
    | None => entries = [] /\ best = None end).
  { induction entries as [|x entries IH]; intros best; cbn [fold_left].
    { destruct best; [|done]. split; [by right|]. intros e' [He|[= <-]]; [by apply elem_of_nil in He|done]. }
    set (next := match best with Some b => if (String.length b.1 <=? String.length x.1)%nat then Some x else best | None => Some x end).
    specialize (IH next). destruct (fold_left _ entries next) as [e|].
    - destruct IH as [Hin Hmax].
      assert (Hnext : exists n, next = Some n /\ (n = x \/ best = Some n) /\ String.length x.1 <= String.length n.1
                        /\ forall b, best = Some b -> String.length b.1 <= String.length n.1).
      { unfold next. destruct best as [b|].
        - destruct (Nat.leb_spec (String.length b.1) (String.length x.1)).
          + exists x. split_and!; [done|by left|done|]. by intros ? [= <-].
          + exists b. split_and!; [done|by right|lia|]. by intros ? [= <-].
        - exists x. split_and!; [done|by left|done|done]. }
      destruct Hnext as (n & Hn & Hfrom & Hx & Hb). split.
      + destruct Hin as [Hin|Hin]; [left; by right|]. rewrite Hn in Hin. injection Hin as <-. destruct Hfrom as [->|?]; [left; by left|by right].
      + intros e' [[->|He']%elem_of_cons|He']; [|by apply Hmax; left|].
        * etransitivity; [exact Hx|]. apply Hmax. by right.
        * etransitivity; [by apply Hb|]. apply Hmax. by right.
    - destruct IH as [_ Hn]. exfalso. unfold next in Hn. destruct best as [b|]; [|done]. by case_match. }
  specialize (H None). destruct (fold_left _ entries None) as [e|].
  - destruct H as [[H|H] Hmax]; [|done]. split; [done|]. intros e' He'. apply Hmax. by left.
  - by destruct H.
Qed.

Lemma select_credential_source_spec r location :
  let src := select_credential_source r location in
  (src = config r /\ forall creds e, storage_credentials r = Some creds -> e ∈ creds -> prefix_matches (lowercase_scheme location) e = false)
  \/ exists creds prefix, storage_credentials r = Some creds /\ (prefix, src) ∈ creds
       /\ prefix_matches (lowercase_scheme location) (prefix, src) = true
       /\ forall e, e ∈ creds -> prefix_matches (lowercase_scheme location) e = true -> String.length e.1 <= String.length prefix.
Proof.
  cbv zeta. unfold select_credential_source. destruct (storage_credentials r) as [creds|]; cbn [mbind option_bind]; [|left; done].
  pose proof (longest_prefix_spec (List.filter (prefix_matches (lowercase_scheme location)) creds)) as H.
  destruct (longest_prefix _) as [[prefix src]|].
  - destruct H as [Hin Hmax]. right. exists creds, prefix. apply list_elem_of_In, filter_In in Hin as [Hin Hp].
    split_and!; [done|by apply list_elem_of_In|done|]. intros e He Hpe. apply (Hmax e), list_elem_of_In, filter_In.
    split; [by apply list_elem_of_In|done].
  - left. split; [done|]. intros creds' e [= <-] He. destruct (prefix_matches (lowercase_scheme location) e) eqn:Hp; [|done].
    exfalso. apply (not_elem_of_nil e). rewrite <- H. apply list_elem_of_In, filter_In. split; [by apply list_elem_of_In|done].
Qed.

Lemma key_secrets_elem s a k t : s ∈ key_secrets a k t <-> s <> "" /\ (s = a \/ s = k \/ t = Some s).
Proof.
  unfold key_secrets. rewrite list_elem_of_In, filter_In, <- list_elem_of_In, negb_true_iff, String.eqb_neq.
  destruct t as [t|]; cbn [app]; rewrite !elem_of_cons, elem_of_nil; naive_solver.
Qed.

Lemma smallest_key_in entries e : smallest_key entries = Some e -> e ∈ entries.
Proof.
  unfold smallest_key.
  assert (H : forall best, fold_left (fun best e => match best with
      | Some b => if String.leb b.1 e.1 then best else Some e | None => Some e end) entries best = Some e -> e ∈ entries \/ best = Some e).
  { induction entries as [|x entries IH]; intros best He; cbn [fold_left] in He; [by right|].
    apply IH in He as [He|He]; [left; by right|]. destruct best as [b|]; [destruct (String.leb b.1 x.1)|];
      [by right|injection He as <-; left; by left|injection He as <-; left; by left]. }
  intros He. by destruct (H None He).
Qed.

(** The values of a vended S3 set are values of the source. *)
Lemma iceberg_vended_s3_from vended anchor v s :
  iceberg_vended_s3 vended anchor = Ok v -> s ∈ key_secrets (v_access_key v) (v_secret_key v) (v_session_token v) ->
  exists key, vended !! key = Some s.
Proof.
  unfold iceberg_vended_s3, required_vended_value.
  destruct (vended_config_value vended "s3.access-key-id") as [a|] eqn:Ea; [|done].
  destruct (vended_config_value vended "s3.secret-access-key") as [k|] eqn:Ek; [|done]. cbn [ok_or]. intros [= <-].
  unfold vended_config_value in *. apply non_empty_Some in Ea as [Ea _], Ek as [Ek _].
  cbn [v_access_key v_secret_key v_session_token]. intros [_ [->|[->|Ht]]]%key_secrets_elem; [by eexists|by eexists|].
  apply non_empty_Some in Ht as [Ht _]. by eexists.
Qed.

Lemma iceberg_vended_sas_from vended anchor sas :
  iceberg_vended_sas vended anchor = Ok sas -> sas <> "" /\ exists key, vended !! key = Some sas.
Proof.
  unfold iceberg_vended_sas. destruct (vended_config_value vended _) as [v|] eqn:Ev; cbn [or_else ok_or].
  { intros [= <-]. apply non_empty_Some in Ev as [Ev ?]. split; [done|by eexists]. }
  destruct (smallest_key _) as [[key v]|] eqn:Es; [|done]. cbn. intros [= <-].
  apply smallest_key_in, list_elem_of_In, filter_In in Es as [Hin Hs]. apply list_elem_of_In, elem_of_map_to_list in Hin.
  unfold sas_for_host in Hs. apply andb_true_iff in Hs as [Hs _]. cbn in Hs. apply negb_true_iff, String.eqb_neq in Hs.
  split; [done|by exists key].
Qed.


(** A response with a flat map and a scoped entry for the table. *)
Definition table_entry : gmap string string := {["s3.access-key-id" := "AK"; "s3.secret-access-key" := "SK"; "s3.endpoint" := "https://store"]}.
Definition load_result : LoadTableResult :=
  MkLoadTable (Some [("S3://bucket", {["s3.access-key-id" := "other"]}); ("s3://bucket/t", table_entry)]) {["s3.access-key-id" := "flat"]}.

