(* ===== verification/Connection.v ===== *)
(** crates/lakehouse-engine/src/adapter/connection.rs and catalog_kind.rs, with the
    CONNECTION credentials of lakehouse-catalog's creds.rs, sigv4.rs and sts.rs: what
    a CONNECTION's password may state, and the checks that refuse a contradiction. *)

From stdpp Require Import base list strings numbers.
From Stdlib Require Import Ascii String ZArith NArith Lia.
From S2P Require Import Prelude Text Json Storage.

Local Open Scope string_scope.

(** ** Catalog kinds *)

Inductive CatalogKind := IcebergRest | UnityCatalogNative | DirectStorage | Glue.

#[export] Instance CatalogKind_eq_dec : EqDecision CatalogKind.
Proof. solve_decision. Defined.

Definition CATALOG_KIND_UNITY_CATALOG : string := "UNITY_CATALOG".
Definition CATALOG_KIND_DIRECT_STORAGE : string := "DIRECT_STORAGE".
Definition CATALOG_KIND_GLUE : string := "GLUE".
Definition PROP_CATALOG_KIND : string := "CATALOG_KIND".

(** adapter/mod.rs. *)
Definition nonempty_str (props : Json) (key : string) : option string := non_empty (get_str props key).

Definition resolve_catalog_kind (props : Json) : result UdfError CatalogKind :=
  match nonempty_str props PROP_CATALOG_KIND with
  | None => Ok IcebergRest
  | Some value =>
      if eq_ignore_ascii_case value CATALOG_KIND_UNITY_CATALOG then Ok UnityCatalogNative
      else if eq_ignore_ascii_case value CATALOG_KIND_DIRECT_STORAGE then Ok DirectStorage
      else if eq_ignore_ascii_case value CATALOG_KIND_GLUE then Ok Glue
      else Err (User ("unrecognized '" ++ PROP_CATALOG_KIND ++ "' value '" ++ value
             ++ "'; leave it absent for Iceberg REST (the default), or set it to '" ++ CATALOG_KIND_UNITY_CATALOG ++ "', '"
             ++ CATALOG_KIND_DIRECT_STORAGE ++ "', or '" ++ CATALOG_KIND_GLUE ++ "'"))
  end.

(** ** Credentials *)

Record ConnectionCreds := MkCreds {
  c_warehouse : string;
  c_endpoint : string;
  c_region : string;
  c_access_key : string;
  c_secret_key : string;
  c_session_token : option string;
  c_path_style : option bool;
  c_use_sigv4 : bool;
  c_use_vended_credentials : bool;
  c_token : option string;
  c_client_id : option string;
  c_client_secret : option string;
  c_oauth2_server_uri : option string;
  c_scope : option string;
  c_account_name : option string;
  c_account_key : option string;
  c_sas_token : option string;
  c_aws_assume_role_arn : option string;
  c_aws_external_id : option string;
  c_aws_sts_endpoint : option string;
}.

Inductive SuppliedCatalogAuth :=
| Unauthenticated
| StaticToken (token : string)
| ClientCredentials (client_id client_secret : string).

Definition assume_role_arn (c : ConnectionCreds) : option string := non_empty (c_aws_assume_role_arn c).

Definition has_catalog_auth (c : ConnectionCreds) : bool :=
  bool_decide (is_Some (c_token c)) || bool_decide (is_Some (c_client_id c)) || bool_decide (is_Some (c_client_secret c)).

Definition supplied_catalog_auth (c : ConnectionCreds) : SuppliedCatalogAuth :=
  match non_empty (c_token c), non_empty (c_client_id c), non_empty (c_client_secret c) with
  | None, Some client_id, Some client_secret => ClientCredentials client_id client_secret
  | Some token, None, None => StaticToken token
  | _, _, _ => Unauthenticated
  end.

Definition key_secret_values (c : ConnectionCreds) : list string := key_secrets (c_access_key c) (c_secret_key c) (c_session_token c).

Definition storage_creds_of (c : ConnectionCreds) : StorageCreds :=
  MkStorageCreds (c_endpoint c) (c_region c) (c_access_key c) (c_secret_key c) (c_session_token c) (c_path_style c)
    (c_account_name c) (c_account_key c) (c_sas_token c).

Definition storage_block (c : ConnectionCreds) (allow_http : bool) : StorageBackend := backend (storage_creds_of c) allow_http.

Definition parse_creds (json : Json) : ConnectionCreds :=
  let storage := StorageCreds_from_json json in
  let text := nonempty_str json in
  let flag key := default false (get json key ≫= as_bool) in
  {| c_warehouse := default "" (text "warehouse");
     c_endpoint := sc_endpoint storage; c_region := sc_region storage; c_access_key := sc_access_key storage;
     c_secret_key := sc_secret_key storage; c_session_token := sc_session_token storage; c_path_style := sc_path_style storage;
     c_use_sigv4 := flag "use_sigv4"; c_use_vended_credentials := flag "use_vended_credentials";
     c_token := text "token"; c_client_id := text "client_id"; c_client_secret := text "client_secret";
     c_oauth2_server_uri := text "oauth2_server_uri"; c_scope := text "scope";
     c_account_name := sc_account_name storage; c_account_key := sc_account_key storage; c_sas_token := sc_sas_token storage;
     c_aws_assume_role_arn := text "aws_assume_role_arn"; c_aws_external_id := text "aws_external_id";
     c_aws_sts_endpoint := text "aws_sts_endpoint" |}.

Definition with_use_sigv4 (c : ConnectionCreds) : ConnectionCreds :=
  MkCreds (c_warehouse c) (c_endpoint c) (c_region c) (c_access_key c) (c_secret_key c) (c_session_token c) (c_path_style c) true
    (c_use_vended_credentials c) (c_token c) (c_client_id c) (c_client_secret c) (c_oauth2_server_uri c) (c_scope c) (c_account_name c)
    (c_account_key c) (c_sas_token c) (c_aws_assume_role_arn c) (c_aws_external_id c) (c_aws_sts_endpoint c).

Definition parse_kind_creds (name : string) (json : Json) (kind : CatalogKind) : result UdfError ConnectionCreds :=
  let creds := parse_creds json in
  if bool_decide (kind = Glue) then
    if bool_decide (get json "use_sigv4" ≫= as_bool = Some false) then
      Err (User ("CONNECTION '" ++ name ++ "' sets use_sigv4 to false, but the Glue catalog kind always signs with AWS SigV4; remove use_sigv4"))
    else Ok (with_use_sigv4 creds)
  else Ok creds.

(** ** The signing region

    [Url::parse] is the url crate's: the scheme and the host it finds. *)

Class Urls := { url_parse : string -> option (string * option string) }.

Definition is_commercial_region_code (candidate : string) : bool :=
  match split_char "-" candidate with
  | [area; subarea; ordinal] =>
      (String.length area =? 2)%nat && string_forallb is_ascii_lower area
      && negb (String.eqb subarea "") && string_forallb is_ascii_lower subarea
      && negb (String.eqb ordinal "") && string_forallb is_ascii_digit ordinal
  | _ => false
  end.

Section Region.
Context {UR : Urls}.

Definition glue_endpoint_region (catalog_uri : string) : option string :=
  '(scheme, host) ← url_parse catalog_uri;
  if negb (String.eqb scheme "https") then None
  else
    host ← host;
    rest ← strip_prefix "glue." host;
    region ← strip_suffix ".amazonaws.com" rest;
    if is_commercial_region_code region then Some region else None.

Definition sigv4_signing_region (c : ConnectionCreds) (catalog_uri : string) : option string :=
  match glue_endpoint_region catalog_uri with
  | Some region => Some region
  | None => if String.eqb (c_region c) "" then None else Some (c_region c)
  end.
End Region.

(** ** The checks *)

Definition flagged_fields (flags : list (string * bool)) : list string := omap (fun '(field, flag) => if flag : bool then Some field else None) flags.

Notation given o := (bool_decide (is_Some o)).
Notation filled s := (negb (String.eqb s "")).

Definition supplied_azure_fields (c : ConnectionCreds) : list string :=
  flagged_fields [("account_name", given (c_account_name c)); ("account_key", given (c_account_key c)); ("sas_token", given (c_sas_token c))].

Definition supplied_catalog_auth_fields (c : ConnectionCreds) : list string :=
  flagged_fields [("token", given (c_token c)); ("client_id", given (c_client_id c)); ("client_secret", given (c_client_secret c));
                  ("oauth2_server_uri", given (c_oauth2_server_uri c)); ("scope", given (c_scope c))].

Definition supplied_s3_fields (c : ConnectionCreds) : list string :=
  flagged_fields [("endpoint", filled (c_endpoint c)); ("region", filled (c_region c)); ("access_key", filled (c_access_key c));
                  ("secret_key", filled (c_secret_key c)); ("session_token", given (c_session_token c))].

(** The checks that list fields report them all at once. *)
Definition refuse_unless_empty (fields : list string) (message : UdfError) : result UdfError () :=
  match fields with [] => Ok tt | _ => Err message end.

Definition validate_direct_storage_preconditions (name : string) (c : ConnectionCreds) (address : string) : result UdfError () :=
  if String.eqb address "" then Err (User ("CONNECTION '" ++ name ++ "' has no address; a storage base path is expected"))
  else
    let rejected := (flagged_fields [("warehouse", filled (c_warehouse c))] ++ supplied_catalog_auth_fields c
                     ++ flagged_fields [("use_sigv4", c_use_sigv4 c); ("use_vended_credentials", c_use_vended_credentials c)])%list in
    let? _ := refuse_unless_empty rejected
      (User ("CONNECTION '" ++ name ++ "' supplies field(s) " ++ join ", " rejected
        ++ " but the direct-storage catalog kind reaches no catalog service; remove them")) in
    let scheme := scheme_of address in
    if addresses_scheme (storage_block c false) scheme then Ok tt
    else
      let azure_fields := supplied_azure_fields c in
      let '(shape, accepted) :=
        match azure_fields with
        | [] => ("S3 credential field(s) " ++ join ", " (supplied_s3_fields c), ["s3"; "s3a"])
        | _ => ("Azure credential field(s) " ++ join ", " azure_fields, ["abfss"])
        end in
      Err (User ("CONNECTION '" ++ name ++ "' address scheme '" ++ scheme ++ "' does not agree with its " ++ shape
        ++ "; the two must address the same storage backend; accepted scheme(s) for these credentials: " ++ join ", " accepted)).

Definition validate_glue_preconditions (name : string) (c : ConnectionCreds) : result UdfError () :=
  if c_use_vended_credentials c then
    Err (User ("CONNECTION '" ++ name ++ "' sets use_vended_credentials, but the Glue catalog kind has no native credential vending; remove it and supply storage credentials"))
  else
    let rejected := supplied_catalog_auth_fields c in
    refuse_unless_empty rejected
      (User ("CONNECTION '" ++ name ++ "' supplies field(s) " ++ join ", " rejected
        ++ " but the Glue catalog kind signs with AWS SigV4 and uses no token or OAuth2 authentication; remove them")).

Definition REQUIRED_KEY : string := "warehouse".

Definition validate_kind_preconditions (name : string) (c : ConnectionCreds) (kind : CatalogKind) (address : string) : result UdfError () :=
  match kind with
  | IcebergRest =>
      if String.eqb (c_warehouse c) "" then
        Err (User ("CONNECTION '" ++ name ++ "' password is missing required field: " ++ REQUIRED_KEY))
      else Ok tt
  | UnityCatalogNative =>
      if c_use_sigv4 c then
        Err (User ("CONNECTION '" ++ name ++ "' enables SigV4 signing, but AWS SigV4 signing is not a Unity Catalog authentication mode; a native Unity Catalog authenticates with a bearer token or Databricks OAuth"))
      else Ok tt
  | DirectStorage => validate_direct_storage_preconditions name c address
  | Glue => validate_glue_preconditions name c
  end.

Definition azure_defects (c : ConnectionCreds) : list string :=
  (flagged_fields [("account_name is missing", negb (given (c_account_name c)))]
   ++ match c_account_key c, c_sas_token c with
      | Some _, Some _ => ["account_key and sas_token are both present"]
      | None, None => ["neither account_key nor sas_token is present"]
      | _, _ => []
      end)%list.

Definition validate_azure_storage_creds (name : string) (c : ConnectionCreds) : result UdfError () :=
  match supplied_azure_fields c with
  | [] => Ok tt
  | azure_fields =>
      let s3_fields := supplied_s3_fields c in
      let? _ := refuse_unless_empty s3_fields
        (User ("CONNECTION '" ++ name ++ "' supplies Azure storage credential field(s) " ++ join ", " azure_fields
          ++ " together with S3 storage credential field(s) " ++ join ", " s3_fields
          ++ "; Azure and S3 storage credentials cannot both be supplied on one CONNECTION")) in
      let defects := azure_defects c in
      refuse_unless_empty defects
        (User ("CONNECTION '" ++ name ++ "' supplies Azure storage credential field(s) " ++ join ", " azure_fields
          ++ "; an Azure CONNECTION requires account_name and exactly one of account_key and sas_token: " ++ join "; " defects))
  end.

Definition validate_assume_role_creds (name : string) (c : ConnectionCreds) : result UdfError () :=
  match assume_role_arn c with
  | None =>
      let orphaned := flagged_fields [("aws_external_id", given (c_aws_external_id c)); ("aws_sts_endpoint", given (c_aws_sts_endpoint c))] in
      refuse_unless_empty orphaned
        (User ("CONNECTION '" ++ name ++ "' supplies field(s) " ++ join ", " orphaned
          ++ " without aws_assume_role_arn; they configure AWS IAM role assumption, so each requires aws_assume_role_arn"))
  | Some _ =>
      let missing := flagged_fields [("access_key", String.eqb (c_access_key c) ""); ("secret_key", String.eqb (c_secret_key c) "")] in
      refuse_unless_empty missing
        (User ("CONNECTION '" ++ name ++ "' names aws_assume_role_arn but is missing field(s) " ++ join ", " missing
          ++ "; the role is assumed with the CONNECTION's own access_key and secret_key, and no ambient AWS credential, such as an environment variable or an instance profile, is read"))
  end.

Definition validate_exclusive_catalog_auth_creds (name : string) (c : ConnectionCreds) : result UdfError () :=
  if given (c_token c) && given (c_client_id c) && given (c_client_secret c) then
    Err (User ("CONNECTION '" ++ name ++ "' supplies a token together with a complete client_id/client_secret pair; these are mutually exclusive, remove one: token, client_id, client_secret"))
  else Ok tt.

Definition validate_oauth2_creds (name : string) (c : ConnectionCreds) : result UdfError () :=
  match c_client_id c, c_client_secret c with
  | Some _, None =>
      Err (User ("CONNECTION '" ++ name ++ "' OAuth2 client credentials require both client_id and client_secret; missing field: client_secret"))
  | None, Some _ =>
      Err (User ("CONNECTION '" ++ name ++ "' OAuth2 client credentials require both client_id and client_secret; missing field: client_id"))
  | _, _ => Ok tt
  end.

Definition validate_path_style_with_endpoint (name : string) (c : ConnectionCreds) : result UdfError () :=
  if filled (c_endpoint c) && negb (given (c_path_style c)) && negb (c_use_vended_credentials c) then
    Err (User ("CONNECTION '" ++ name ++ "' supplies a storage endpoint but states no path_style; an absent path_style resolves to false, which discards the endpoint and derives an AWS host from region instead — set path_style to true or false"))
  else Ok tt.

Section Validate.
Context {UR : Urls}.

Definition validate_sigv4_creds (name : string) (c : ConnectionCreds) (catalog_uri : string) : result UdfError () :=
  if c_use_sigv4 c && has_catalog_auth c then
    Err (User ("CONNECTION '" ++ name ++ "' enables SigV4 signing together with catalog token/OAuth authentication; these cannot both be enabled"))
  else if c_use_sigv4 c then
    let no_region := negb (given (sigv4_signing_region c catalog_uri)) in
    let missing := flagged_fields [("access_key", String.eqb (c_access_key c) ""); ("secret_key", String.eqb (c_secret_key c) "");
                                   ("region", no_region)] in
    let glue_hint := if no_region then "; a CONNECTION whose address is a standard AWS Glue endpoint of the form https://glue.<region>.amazonaws.com can omit region" else "" in
    refuse_unless_empty missing
      (User ("CONNECTION '" ++ name ++ "' enables SigV4 signing but is missing field(s) required when SigV4 signing is enabled: "
        ++ join ", " missing ++ glue_hint))
  else Ok tt.

Definition validate_creds (name : string) (c : ConnectionCreds) (kind : CatalogKind) (address : string) : result UdfError () :=
  let? _ := validate_kind_preconditions name c kind address in
  let? _ := validate_azure_storage_creds name c in
  let? _ := validate_assume_role_creds name c in
  let? _ := validate_sigv4_creds name c address in
  let? _ := validate_exclusive_catalog_auth_creds name c in
  let? _ := validate_oauth2_creds name c in
  validate_path_style_with_endpoint name c.

(** scan/sealed.rs. *)
Definition connection_password_carries_key_material (c : ConnectionCreds) : bool :=
  filled (c_secret_key c)
  || existsb (fun value => filled value) (omap id [c_token c; c_client_secret c; c_session_token c; c_account_key c; c_sas_token c]).

(** The sealing key is HKDF-SHA256 of the password ([hkdf], [sha2]). *)
Context {K : Type} (derive_sealed_storage_key : string -> K).

Record Resolved := MkResolved { r_uri : string; r_creds : ConnectionCreds; r_sealed_storage_key : option K }.

(** [ctx.connection] answers an address and a password or the cause of a failure. *)
Definition catalog_connection_name (name : option string) : option string := non_empty name.

Definition read_connection (connection : string -> result string (string * string)) (parse : string -> option Json)
    (name : option string) (kind : CatalogKind) : result UdfError Resolved :=
  let? name := ok_or (catalog_connection_name name) (User "CATALOG_CONNECTION is required") in
  match connection name with
  | Err cause => Err (User ("CONNECTION '" ++ name ++ "' could not be resolved: " ++ cause))
  | Ok (uri, password) =>
      if String.eqb uri "" && negb (bool_decide (kind = DirectStorage)) then
        Err (User ("CONNECTION '" ++ name ++ "' has no address; expected the catalog URI"))
      else
        let? json := ok_or (parse password) (User ("CONNECTION '" ++ name ++ "' password is not a valid JSON object")) in
        if negb (is_object json) then Err (User ("CONNECTION '" ++ name ++ "' password is not a valid JSON object"))
        else
          let? creds := parse_kind_creds name json kind in
          let? _ := validate_creds name creds kind uri in
          Ok (MkResolved uri creds
            (if connection_password_carries_key_material creds then Some (derive_sealed_storage_key password) else None))
  end.
End Validate.
Arguments Resolved : clear implicits.
Arguments MkResolved {K}.
Arguments r_uri {K}. Arguments r_creds {K}. Arguments r_sealed_storage_key {K}.

(** adapter/mod.rs: one request's CONNECTION, with the identity it acts as. *)
Record ResolvedConnectionConfig (K : Type) := MkConfig {
  cfg_catalog_uri : string;
  cfg_storage : StorageBackend;
  cfg_creds : ConnectionCreds;
  cfg_allow_http : bool;
  cfg_catalog_kind : CatalogKind;
  cfg_connection_name : string;
  cfg_sealed_storage_key : option K;
}.
Arguments MkConfig {K}. Arguments cfg_catalog_uri {K}. Arguments cfg_storage {K}. Arguments cfg_creds {K}. Arguments cfg_allow_http {K}.
Arguments cfg_catalog_kind {K}. Arguments cfg_connection_name {K}. Arguments cfg_sealed_storage_key {K}.

(** ** Role assumption (sts.rs) *)

Section Role.
Context {UR : Urls}.

Definition UNRESOLVED_SIGNING_REGION : string := "us-east-1".

Definition base_secrets (c : ConnectionCreds) : list string :=
  omap id [Some (c_secret_key c); non_empty (c_session_token c); non_empty (c_aws_external_id c)].

Definition stated_endpoint (stated : string) (allow_http : bool) (invalid_url : string) : result string string :=
  match url_parse stated with
  | None => Err ("aws_sts_endpoint is not a valid URL: " ++ invalid_url)
  | Some (scheme, host) =>
      if String.eqb scheme "https" then Ok stated
      else if String.eqb scheme "http" then
        if allow_http then Ok stated
        else Err ("aws_sts_endpoint " ++ default "" host
               ++ " uses plaintext http, which requires the ALLOW_HTTP virtual schema property to be true, because the STS response carries the session secret")
      else Err ("aws_sts_endpoint must use the https or http scheme, not '" ++ scheme ++ "'")
  end.

Record SessionCredentials := MkSession { s_access_key : string; s_secret_key : string; s_session_token : string }.

Definition with_session (c : ConnectionCreds) (s : SessionCredentials) : ConnectionCreds :=
  MkCreds (c_warehouse c) (c_endpoint c) (c_region c) (s_access_key s) (s_secret_key s) (Some (s_session_token s)) (c_path_style c)
    (c_use_sigv4 c) (c_use_vended_credentials c) (c_token c) (c_client_id c) (c_client_secret c) (c_oauth2_server_uri c) (c_scope c)
    (c_account_name c) (c_account_key c) (c_sas_token c) (c_aws_assume_role_arn c) (c_aws_external_id c) (c_aws_sts_endpoint c).

(** [assume_role] is the STS call; [redact] masks the base secrets in its failures. *)
Definition resolve_aws_identity (assume_role : ConnectionCreds -> string -> option string -> string -> result string SessionCredentials)
    (redact : string -> list string -> string) (invalid_url : string) (c : ConnectionCreds) (catalog_uri : string) (allow_http : bool)
  : result UdfError ConnectionCreds :=
  match assume_role_arn c with
  | None => Ok c
  | Some role_arn =>
      let redacted (msg : string) := User (redact msg (base_secrets c)) in
      let endpoint := match non_empty (c_aws_sts_endpoint c) with
                      | None => Ok None
                      | Some stated => let? url := stated_endpoint stated allow_http invalid_url in Ok (Some url)
                      end in
      match endpoint with
      | Err msg => Err (redacted msg)
      | Ok endpoint =>
          let region := default UNRESOLVED_SIGNING_REGION (sigv4_signing_region c catalog_uri) in
          match assume_role c role_arn endpoint region with
          | Err msg => Err (redacted msg)
          | Ok session => Ok (with_session c session)
          end
      end
  end.
End Role.

(** ** An accepted CONNECTION is used as stated *)

Lemma refuse_unless_empty_ok fields message : refuse_unless_empty fields message = Ok tt -> fields = [].
Proof. by destruct fields. Qed.

Lemma parsed_non_empty json key s : nonempty_str json key = Some s -> s <> "".
Proof.
  unfold nonempty_str, non_empty. destruct (get_str json key) as [v|]; [|done]. cbn. destruct (String.eqb_spec v ""); [done|]. by intros [= <-].
Qed.

Lemma non_empty_parsed json key : non_empty (nonempty_str json key) = nonempty_str json key.
Proof.
  destruct (nonempty_str json key) as [s|] eqn:E; [|done]. apply parsed_non_empty in E. unfold non_empty. cbn.
  by apply String.eqb_neq in E as ->.
Qed.

Ltac step H := match type of H with (let? _ := ?c in _) = Ok _ => destruct c as [[]|] eqn:?; [|done] end.

Lemma validated {UR : Urls} name c kind address :
  validate_creds name c kind address = Ok tt ->
  validate_kind_preconditions name c kind address = Ok tt /\ validate_azure_storage_creds name c = Ok tt
  /\ validate_assume_role_creds name c = Ok tt /\ validate_sigv4_creds name c address = Ok tt
  /\ validate_exclusive_catalog_auth_creds name c = Ok tt /\ validate_oauth2_creds name c = Ok tt
  /\ validate_path_style_with_endpoint name c = Ok tt.
Proof. unfold validate_creds. intros H. do 6 step H. done. Qed.

(** The storage a CONNECTION's accepted credentials address. *)
Definition addresses_stated_storage (c : ConnectionCreds) : Prop :=
  (exists account cred, storage_block c false = Adls account cred /\ storage_block c true = Adls account cred
     /\ c_account_name c = Some account /\ supplied_s3_fields c = []
     /\ ((cred = AccountKey (default "" (c_account_key c)) /\ c_sas_token c = None)
         \/ (cred = Sas (default "" (c_sas_token c)) /\ c_account_key c = None)))
  \/ (supplied_azure_fields c = [] /\ forall allow, storage_block c allow
       = S3 (MkStorageProps (c_endpoint c) (c_region c) (c_access_key c) (c_secret_key c) (c_session_token c) allow (default false (c_path_style c)))).

Lemma azure_check_storage name c : validate_azure_storage_creds name c = Ok tt -> addresses_stated_storage c.
Proof.
  unfold validate_azure_storage_creds. destruct (supplied_azure_fields c) as [|f fs] eqn:Ef.
  - intros _. right. split; [done|]. intros allow. unfold storage_block, backend, storage_creds_of.
    cbn [sc_account_name sc_account_key sc_sas_token]. unfold supplied_azure_fields, flagged_fields in Ef.
    by destruct (c_account_name c), (c_account_key c), (c_sas_token c).
  - intros H. step H. apply refuse_unless_empty_ok in Heqr. apply refuse_unless_empty_ok in H. left.
    unfold azure_defects, flagged_fields in H. unfold storage_block, backend, storage_creds_of.
    cbn [sc_account_name sc_account_key sc_sas_token]. destruct (c_account_name c) as [account|]; [|done].
    destruct (c_account_key c) as [key|], (c_sas_token c) as [sas|]; try done;
      eexists _, _; (split_and!; [done|done|done|done|]); [left|right]; done.
Qed.

Lemma read_connection_ok {UR : Urls} {K} (derive : string -> K) connection parse name kind r :
  read_connection derive connection parse name kind = Ok r ->
  exists n uri password json creds,
    name = Some n /\ connection n = Ok (uri, password) /\ parse password = Some json /\ is_object json = true
    /\ parse_kind_creds n json kind = Ok creds /\ validate_creds n creds kind uri = Ok tt
    /\ r = MkResolved uri creds (if connection_password_carries_key_material creds then Some (derive password) else None).
Proof.
  unfold read_connection, catalog_connection_name, non_empty. destruct name as [n|]; [|done]. cbn [mbind option_bind].
  destruct (String.eqb n ""); [done|]. cbn [ok_or]. destruct (connection n) as [[uri password]|] eqn:Ec; [|done].
  destruct (_ && _); [done|]. destruct (parse password) as [json|] eqn:Ep; [|done]. cbn [ok_or].
  destruct (is_object json) eqn:Eo; [|done]. cbn [negb]. destruct (parse_kind_creds n json kind) as [creds|] eqn:Ek; [|done].
  destruct (validate_creds n creds kind uri) as [[]|] eqn:Ev; [|done]. intros [= <-]. exists n, uri, password, json, creds. done.
Qed.

Lemma parse_kind_creds_fields n json kind c :
  parse_kind_creds n json kind = Ok c ->
  c = parse_creds json \/ (kind = Glue /\ c = with_use_sigv4 (parse_creds json)).
Proof. unfold parse_kind_creds. case_bool_decide; [case_bool_decide; [done|]; intros [= <-]; by right|intros [= <-]; by left]. Qed.

(** A text, and a truth, the password states under a key. *)
Definition stated (json : Json) (key : string) : option string :=
  match get json key with Some (JString s) => if String.eqb s "" then None else Some s | _ => None end.
Definition states_true (json : Json) (key : string) : Prop := get json key = Some (JBool true).

(** Every field of the credentials is the one the password states. *)
Definition reads_every_field (json : Json) (kind : CatalogKind) (c : ConnectionCreds) : Prop :=
  (c_warehouse c = default "" (stated json "warehouse") /\ c_endpoint c = default "" (stated json "endpoint")
   /\ c_region c = default "" (stated json "region") /\ c_access_key c = default "" (stated json "access_key")
   /\ c_secret_key c = default "" (stated json "secret_key") /\ c_session_token c = stated json "session_token")
  /\ (c_token c = stated json "token" /\ c_client_id c = stated json "client_id" /\ c_client_secret c = stated json "client_secret"
      /\ c_oauth2_server_uri c = stated json "oauth2_server_uri" /\ c_scope c = stated json "scope")
  /\ (c_account_name c = stated json "account_name" /\ c_account_key c = stated json "account_key" /\ c_sas_token c = stated json "sas_token")
  /\ (c_aws_assume_role_arn c = stated json "aws_assume_role_arn" /\ c_aws_external_id c = stated json "aws_external_id"
      /\ c_aws_sts_endpoint c = stated json "aws_sts_endpoint")
  /\ (forall b, c_path_style c = Some b <-> get json "path_style" = Some (JBool b))
  /\ (c_use_vended_credentials c = true <-> states_true json "use_vended_credentials")
  /\ (c_use_sigv4 c = true <-> kind = Glue \/ states_true json "use_sigv4").

Lemma nonempty_stated json key : nonempty_str json key = stated json key.
Proof. unfold nonempty_str, stated, get_str, non_empty. destruct (get json key) as [[]|]; done. Qed.

Lemma flag_states json key : default false (get json key ≫= as_bool) = true <-> states_true json key.
Proof. unfold states_true. destruct (get json key) as [[| [] | | | |]|]; cbn; naive_solver. Qed.

Lemma parsed_fields n json kind c : parse_kind_creds n json kind = Ok c -> reads_every_field json kind c.
Proof.
  intros H. assert (Hf : c = parse_creds json /\ kind <> Glue \/ kind = Glue /\ c = with_use_sigv4 (parse_creds json)).
  { unfold parse_kind_creds in H. case_bool_decide; [case_bool_decide; [done|]; injection H as <-; by right|injection H as <-; by left]. }
  assert (Hflag : c_use_sigv4 c = true <-> kind = Glue \/ states_true json "use_sigv4").
  { destruct Hf as [[-> Hk]|[-> ->]]; [|split; [by left|done]]. cbn [c_use_sigv4 parse_creds]. rewrite flag_states. naive_solver. }
  unfold reads_every_field. rewrite <- !nonempty_stated. destruct Hf as [[-> _]|[-> ->]].
  all: cbn [parse_creds with_use_sigv4 StorageCreds_from_json sc_endpoint sc_region sc_access_key sc_secret_key sc_session_token sc_path_style sc_account_name sc_account_key sc_sas_token
    c_warehouse c_endpoint c_region c_access_key c_secret_key c_session_token c_path_style c_use_vended_credentials c_token c_client_id c_client_secret c_oauth2_server_uri
    c_scope c_account_name c_account_key c_sas_token c_aws_assume_role_arn c_aws_external_id c_aws_sts_endpoint].
  all: split_and!; try done; try (intros b; destruct (get json "path_style") as [[]|]; cbn; naive_solver); by apply flag_states.
Qed.

Lemma no_flags flags : flagged_fields flags = [] -> Forall (fun f => f.2 = false) flags.
Proof. unfold flagged_fields. induction flags as [|[field []] flags IH]; cbn; [constructor|done|constructor; auto]. Qed.

Lemma empty_unstated json key : String.eqb (default "" (stated json key)) "" = false -> is_Some (stated json key).
Proof. destruct (stated json key); [eauto|done]. Qed.

(** The password holds secret material when it states a secret. *)
Lemma secret_material json :
  filled (default "" (stated json "secret_key"))
  || existsb (fun value => filled value)
       (omap id [stated json "token"; stated json "client_secret"; stated json "session_token"; stated json "account_key"; stated json "sas_token"])
  = bool_decide (Exists (fun key => is_Some (stated json key)) ["secret_key"; "token"; "client_secret"; "session_token"; "account_key"; "sas_token"]).
Proof.
  assert (Hne : forall key v, stated json key = Some v -> String.eqb v "" = false).
  { intros key v E. rewrite <- nonempty_stated in E. apply String.eqb_neq. by eapply parsed_non_empty. }
  symmetry. apply eq_bool_prop_intro. rewrite bool_decide_spec, !Exists_cons, Exists_nil.
  destruct (stated json "secret_key") as [v1|] eqn:E1; [apply Hne in E1; cbn; rewrite E1; cbn; intuition|].
  destruct (stated json "token") as [v2|] eqn:E2; [apply Hne in E2; cbn; rewrite E2; cbn; intuition|].
  destruct (stated json "client_secret") as [v3|] eqn:E3; [apply Hne in E3; cbn; rewrite E3; cbn; intuition|].
  destruct (stated json "session_token") as [v4|] eqn:E4; [apply Hne in E4; cbn; rewrite E4; cbn; intuition|].
  destruct (stated json "account_key") as [v5|] eqn:E5; [apply Hne in E5; cbn; rewrite E5; cbn; intuition|].
  destruct (stated json "sas_token") as [v6|] eqn:E6; [apply Hne in E6; cbn; rewrite E6; cbn; intuition|].
  cbn. split; [|done]. intros H. repeat destruct H as [[? [=]]|H]. done.
Qed.


Definition no_urls : Urls := {| url_parse _ := None |}.
Definition sample_password : Json :=
  json_object [("warehouse", JString "wh"); ("token", JString "t0k"); ("account_name", JString "acct"); ("sas_token", JString "sas")].

