(* ===== verification/IcebergPredicate.v ===== *)
(** crates/lakehouse-engine/src/adapter/iceberg_predicate.rs: the predicate Iceberg
    prunes data files with, and that a filter implies it. *)

From stdpp Require Import base sets list strings numbers.
From Stdlib Require Import Ascii String ZArith NArith Lia.
From S2P Require Import Prelude Text Hex Json ColumnNode FilterJson SparkTypes TypeMapping ScanSpec BinaryFilter Pruning.

Local Open Scope string_scope.

(** [iceberg::spec::Schema], by field id. *)
Record IcebergSchema := MkIcebergSchema {
  name_by_field_id : Z -> option string;
  field_by_id : Z -> option IcebergField;
}.

(** [iceberg::spec::Datum]: a date in days, instants in the unit of their type. *)
Inductive Datum :=
| DBool (b : bool) | DInt (v : Z) | DLong (v : Z) | DFloat (bits : Z) | DDouble (bits : Z) | DString (s : string)
| DDate (days : Z) | DTimestamp (us : Z) | DTimestampNanos (ns : Z) | DTimestamptz (us : Z) | DTimestamptzNanos (ns : Z)
| DBinary (b : string) | DFixed (b : string).

(** The texts iceberg-rust parses, by what it documents: a date in days, instants in
    microseconds, in UTC. *)
Class IcebergDatums `{Instants} := {
  date_from_str : string -> option Z;
  timestamp_from_str : string -> option Z;
  timestamptz_from_str : string -> option Z;
}.

(** ** Literals *)

(** [s.replacen(' ', "T", 1)]. *)
Fixpoint replace_first_space (s : string) : string :=
  match s with
  | EmptyString => ""
  | String c s' => if Ascii.eqb c " " then String "T" s' else String c (replace_first_space s')
  end.

Fixpoint contains_char (c : ascii) (s : string) : bool :=
  match s with EmptyString => false | String d s' => Ascii.eqb d c || contains_char c s' end.

Definition t_separated (s : string) : string := if contains_char "T" s then s else replace_first_space s.

(** The last six bytes. *)
Fixpoint last_six (s : string) : string :=
  match s with EmptyString => "" | String _ s' => if (String.length s <=? 6)%nat then s else last_six s' end.

Definition has_tz_offset (s : string) : bool :=
  if bool_decide (is_Some (strip_suffix "Z" s)) then true
  else
    let tail := last_six s in
    (match tail with String c _ => Ascii.eqb c "+" || Ascii.eqb c "-" | EmptyString => false end) && contains_char ":" tail.

Definition with_offset (s : string) : string := if has_tz_offset s then s else s ++ "+00:00".

Definition checked_mul_1000 (v : Z) : option Z :=
  let p := (v * 1000)%Z in if ((- 2 ^ 63 <=? p) && (p <? 2 ^ 63))%Z then Some p else None.

Section Literals.
Context {FL : Floats} {IN : Instants} {ID : IcebergDatums} {HX : Hex}.

Definition parse_i32 (v : Json) : option Z :=
  match v with
  | JNumber n => i ← as_i64 (JNumber n); if ((- 2 ^ 31 <=? i) && (i <? 2 ^ 31))%Z then Some i else None
  | JString s => parse_signed 32 (trim s)
  | _ => None
  end.

Definition parse_i64 (v : Json) : option Z :=
  match v with
  | JNumber n => as_i64 (JNumber n)
  | JString s => parse_signed 64 (trim s)
  | _ => None
  end.

Definition parse_f64 (v : Json) : option Z :=
  match v with
  | JNumber n => number_as_f64 n
  | JString s => f64_parse (trim s)
  | _ => None
  end.

Definition parse_timestamp_no_tz (s : string) (prim : IcebergPrimitive) : option Datum :=
  match prim with
  | ITimestamp => DTimestamp <$> timestamp_from_str (t_separated s)
  | ITimestampNs => us ← timestamp_from_str (t_separated s); DTimestampNanos <$> checked_mul_1000 us
  | _ => None
  end.

Definition parse_timestamptz (s : string) (prim : IcebergPrimitive) : option Datum :=
  match prim with
  | ITimestamptz => DTimestamptz <$> timestamptz_from_str (with_offset s)
  | ITimestamptzNs => us ← timestamptz_from_str (with_offset s); DTimestamptzNanos <$> checked_mul_1000 us
  | _ => None
  end.

Definition literal_to_datum (lit : Json) (prim : IcebergPrimitive) : option Datum :=
  kind ← get_str lit "type";
  let kind_is k := String.eqb kind k in
  let numeric := kind_is "literal_exactnumeric" || kind_is "literal_double" in
  match prim with
  | IBoolean =>
      if kind_is "literal_bool" then
        v ← get lit "value";
        match v with
        | JBool b => Some (DBool b)
        | JString s => Some (DBool (String.eqb s "true" || String.eqb s "TRUE"))
        | JNumber n => Some (DBool (bool_decide (as_i64 (JNumber n) = Some 1%Z)))
        | _ => None
        end
      else None
  | IInt => if numeric then v ← get lit "value"; DInt <$> parse_i32 v else None
  | ILong => if numeric then v ← get lit "value"; DLong <$> parse_i64 v else None
  | IFloat => if numeric then v ← get lit "value"; (fun f => DFloat (as_f32 f)) <$> parse_f64 v else None
  | IDouble => if numeric then v ← get lit "value"; DDouble <$> parse_f64 v else None
  | IString => if kind_is "literal_string" then DString <$> get_str lit "value" else None
  | IDate => if kind_is "literal_date" then s ← get_str lit "value"; DDate <$> date_from_str s else None
  | ITimestamp | ITimestampNs =>
      if kind_is "literal_timestamp" then
        s ← get_str lit "value"; if (timestamp_literal_digits s <=? 6)%nat then parse_timestamp_no_tz s prim else None
      else None
  | ITimestamptz | ITimestamptzNs =>
      if kind_is "literal_timestamp_utc" then
        s ← get_str lit "value"; if (timestamp_literal_digits s <=? 6)%nat then parse_timestamptz s prim else None
      else None
  | IBinary => if kind_is "literal_binary" then DBinary <$> literal_binary_bytes lit else None
  | IFixed width =>
      if kind_is "literal_binary" then
        bytes ← literal_binary_bytes lit;
        if bool_decide (N.of_nat (String.length bytes) = width) then Some (DFixed bytes) else None
      else None
  | _ => None
  end.
End Literals.

(** ** Translation *)

Definition flip_operator (kind : string) : option string :=
  if String.eqb kind "predicate_less" then Some "predicate_greater"
  else if String.eqb kind "predicate_lessequal" then Some "predicate_greaterequal"
  else if String.eqb kind "predicate_greater" then Some "predicate_less"
  else if String.eqb kind "predicate_greaterequal" then Some "predicate_lessequal"
  else if String.eqb kind "predicate_equal" then Some "predicate_equal"
  else None.

(** The reference methods, by the operator's name. *)
Definition reference_method (kind : string) : option Comparison :=
  if String.eqb kind "predicate_equal" then Some Equal
  else if String.eqb kind "predicate_less" then Some Less
  else if String.eqb kind "predicate_lessequal" then Some LessEqual
  else if String.eqb kind "predicate_greater" then Some Greater
  else if String.eqb kind "predicate_greaterequal" then Some GreaterEqual
  else None.

(** [Iterator::reduce]. *)
Definition reduce {A} (f : A -> A -> A) (l : list A) : option A :=
  match l with [] => None | x :: l' => Some (fold_left f l' x) end.

Notation ITranslated := (Translated Datum).

Definition fold_and (children : list (option ITranslated)) : option ITranslated :=
  p ← reduce PAnd (omap (fun c => predicate <$> c) children);
  Some (MkTranslated p (forallb (fun c => match c with Some tr => exact tr | None => false end) children)).

Definition fold_or (children : list (option ITranslated)) : option ITranslated :=
  translated ← mapM id children;
  p ← reduce POr (map predicate translated);
  Some (MkTranslated p (forallb exact translated)).

Section Translate.
Context {UC : UnicodeCase} {FL : Floats} {IN : Instants} {ID : IcebergDatums} {HX : Hex}.
Variables (declared : list LogicalField) (scanned : IcebergSchema).

Definition resolve_filter_column (node : Json) : option (string * IcebergPrimitive) :=
  c ← ColumnNode.parse node;
  let column := upper_name c in
  field ← List.find (fun f => String.eqb (to_uppercase (lf_name f)) column) declared;
  field_id ← lf_field_id field;
  name ← name_by_field_id scanned field_id;
  field ← field_by_id scanned field_id;
  match iceberg_field_type field with IPrimitive prim => Some (name, prim) | _ => None end.

Definition translate_binary (node : Json) (kind : string) : option (Predicate Datum) :=
  l ← get node "left";
  r ← get node "right";
  '(name, prim, lit_node, col_is_left) ←
    match resolve_filter_column l with
    | Some (name, prim) => Some (name, prim, r, true)
    | None => '(name, prim) ← resolve_filter_column r; Some (name, prim, l, false)
    end;
  datum ← literal_to_datum lit_node prim;
  effective_kind ← if col_is_left : bool then Some kind else flip_operator kind;
  op ← reference_method effective_kind;
  Some (PCompare name op datum).

Definition iceberg_translate_in (node : Json) : option (Predicate Datum) :=
  '(name, prim) ← get node "expression" ≫= resolve_filter_column;
  args ← get_array node "arguments";
  match args with
  | [] => None
  | _ => datums ← mapM (fun a => literal_to_datum a prim) args; Some (PIn name datums)
  end.

Definition iceberg_translate_between (node : Json) : option ITranslated :=
  '(name, prim) ← get node "expression" ≫= resolve_filter_column;
  let low := d ← get node "left" ≫= (fun n => literal_to_datum n prim);
             Some (translated_exact (PCompare name GreaterEqual d)) in
  let high := d ← get node "right" ≫= (fun n => literal_to_datum n prim);
              Some (translated_exact (PCompare name LessEqual d)) in
  fold_and [low; high].

(** The recursion follows the filter, so its depth is enough. *)
Fixpoint iceberg_translate_fuel (fuel : nat) (node : Json) : option ITranslated :=
  match fuel with
  | 0 => None
  | S fuel =>
      kind ← get_str node "type";
      let kind_is k := String.eqb kind k in
      if kind_is "predicate_equal" || kind_is "predicate_less" || kind_is "predicate_lessequal" || kind_is "predicate_greater"
         || kind_is "predicate_greaterequal" then translated_exact <$> translate_binary node kind
      else if kind_is "predicate_notequal" then None
      else if kind_is "predicate_and" then exprs ← get_array node "expressions"; fold_and (map (iceberg_translate_fuel fuel) exprs)
      else if kind_is "predicate_or" then exprs ← get_array node "expressions"; fold_or (map (iceberg_translate_fuel fuel) exprs)
      else if kind_is "predicate_not" then
        inner ← get node "expression";
        tr ← iceberg_translate_fuel fuel inner;
        if exact tr then Some (translated_exact (PNot (predicate tr))) else None
      else if kind_is "predicate_is_null" then
        '(name, _) ← get node "expression" ≫= resolve_filter_column; Some (translated_exact (PIsNull name))
      else if kind_is "predicate_is_not_null" then
        '(name, _) ← get node "expression" ≫= resolve_filter_column; Some (translated_exact (PIsNotNull name))
      else if kind_is "predicate_in_constlist" then translated_exact <$> iceberg_translate_in node
      else if kind_is "predicate_between" then iceberg_translate_between node
      else None
  end.

Definition to_iceberg_predicate (filter_json : Json) : option (Predicate Datum) :=
  predicate <$> iceberg_translate_fuel (json_depth filter_json) filter_json.
End Translate.

(** ** The filter implies its predicate *)

(** What a datum stands for; a 32-bit float as the double it widens to. *)
Definition datum_value `{Floats} (d : Datum) : Value :=
  match d with
  | DBool b => VBool b
  | DInt v | DLong v => VNum v 0
  | DFloat bits => VFloat (f64_from_f32 bits)
  | DDouble bits => VFloat bits
  | DString s => VText s
  | DDate days => VTime (days * (86400 * 10 ^ 9))
  | DTimestamp us | DTimestamptz us => VTime (us * 1000)
  | DTimestampNanos ns | DTimestamptzNanos ns => VTime ns
  | DBinary b | DFixed b => VBytes b
  end%Z.

(** iceberg-rust parses a date to its day and a timestamp of at most six fraction
    digits to its microsecond. *)
Class IcebergDatumLaws `(ID : IcebergDatums) : Prop := {
  date_names s d : date_from_str s = Some d -> (d * (86400 * 10 ^ 9))%Z = midnight s;
  timestamp_names s us : timestamp_literal_digits s <= 6 -> timestamp_from_str (t_separated s) = Some us ->
    (us * 1000)%Z = instant s;
  timestamptz_names s us : timestamp_literal_digits s <= 6 -> timestamptz_from_str (with_offset s) = Some us ->
    (us * 1000)%Z = instant_utc s;
}.

(** The values of a column: doubles for the floating types. *)
Definition fits_primitive (prim : IcebergPrimitive) (v : Value) : Prop :=
  match prim with IFloat | IDouble => exists bits, v = VFloat bits | _ => True end.

Section Implied.
Context {UC : UnicodeCase} {FL : Floats} {IN : Instants} {ID : IcebergDatums} {IL : IcebergDatumLaws ID} {HX : Hex}.

Lemma parse_i64_numeric v z : parse_i64 v = Some z -> numeric_value v = Some (VNum z 0).
Proof. apply json_integer_value. Qed.

Lemma parse_i32_numeric v z : parse_i32 v = Some z -> numeric_value v = Some (VNum z 0).
Proof.
  intros H. apply (json_integer_value 32). destruct v as [| |n|s| |]; try done.
  unfold parse_i32 in H. destruct (as_i64 (JNumber n)) as [i|]; [|done]. cbn [mbind option_bind] in H. by destruct (_ && _).
Qed.

(** The literal's double is one a 32-bit float holds. *)
Definition narrows_exactly (lit : Json) : Prop :=
  forall v b, get lit "value" = Some v -> parse_f64 v = Some b -> f64_from_f32 (as_f32 b) = b.

Lemma datum_numeric lit kind prim d :
  get_str lit "type" = Some kind -> String.eqb kind "literal_exactnumeric" || String.eqb kind "literal_double" = true ->
  (prim = IFloat -> narrows_exactly lit) -> literal_to_datum lit prim = Some d ->
  exists l, literal_value lit = Some l /\ converts datum_value (fits_primitive prim) d l.
Proof.
  intros Hk Hnum Hprim Hd. unfold literal_value. rewrite Hk. cbn [mbind option_bind].
  assert (String.eqb kind "literal_bool" = false) as ->.
  { apply orb_true_iff in Hnum as [H|H]; apply String.eqb_eq in H as ->; done. }
  rewrite Hnum. eexists. split; [done|]. unfold literal_to_datum in Hd. rewrite Hk in Hd. cbn [mbind option_bind] in Hd.
  rewrite Hnum in Hd.
  assert (forall k, k <> "literal_exactnumeric" -> k <> "literal_double" -> String.eqb kind k = false) as Hother.
  { intros k H1 H2. apply String.eqb_neq. intros ->. apply orb_true_iff in Hnum as [H|H]; apply String.eqb_eq in H; done. }
  destruct prim; try done; try (rewrite Hother in Hd by done; done);
    destruct (get lit "value") as [v|] eqn:Ev; try done; cbn [mbind option_bind] in *.
  - destruct (parse_i32 v) as [z|] eqn:E; [|done]. injection Hd as <-. by rewrite (parse_i32_numeric _ _ E).
  - destruct (parse_i64 v) as [z|] eqn:E; [|done]. injection Hd as <-. by rewrite (parse_i64_numeric _ _ E).
  - destruct (parse_f64 v) as [b|] eqn:E; [|done]. injection Hd as <-. destruct (numeric_f64_value _ _ E) as (x & -> & Hx).
    intros y [bits ->]. cbn [datum_value]. rewrite (Hprim eq_refl v b Ev E). apply Hx.
  - destruct (parse_f64 v) as [b|] eqn:E; [|done]. injection Hd as <-. destruct (numeric_f64_value _ _ E) as (x & -> & Hx).
    intros y [bits ->]. apply Hx.
Qed.

Lemma bool_converts fits v b : 
  match v with
  | JBool b => Some (DBool b)
  | JString s => Some (DBool (String.eqb s "true" || String.eqb s "TRUE"))
  | JNumber n => Some (DBool (bool_decide (as_i64 (JNumber n) = Some 1%Z)))
  | _ => None
  end = Some b -> converts datum_value fits b (VBool <$> bool_value v).
Proof.
  destruct v as [|b'|n|s| |]; try done; cbn [bool_value].
  - by intros [= <-].
  - generalize (as_i64 (JNumber n)) as o. intros o [= <-]. destruct o as [i|]; [|done]. cbn.
    destruct (Z.eqb_spec i 1) as [->|]; [intros x _; by rewrite bool_decide_eq_true_2|].
    destruct (Z.eqb_spec i 0) as [->|]; [|done]. intros x _. by rewrite bool_decide_eq_false_2.
  - intros [= <-]. destruct (String.eqb s "true" || String.eqb s "TRUE"); [done|]. by destruct (_ || _).
Qed.

Lemma checked_mul_value us ns : checked_mul_1000 us = Some ns -> ns = (us * 1000)%Z.
Proof. unfold checked_mul_1000. destruct (_ && _); [|done]. by intros [= <-]. Qed.

Lemma timestamp_datum s prim d :
  timestamp_literal_digits s <= 6 -> parse_timestamp_no_tz s prim = Some d -> datum_value d = VTime (instant s).
Proof.
  intros Hs. unfold parse_timestamp_no_tz. destruct prim; try done;
    (destruct (timestamp_from_str (t_separated s)) as [us|] eqn:E; [|done]); cbn; pose proof (timestamp_names s us Hs E) as <-.
  - by intros [= <-].
  - destruct (checked_mul_1000 us) as [ns|] eqn:En; [|done]. intros [= <-]. by apply checked_mul_value in En as ->.
Qed.

Lemma timestamptz_datum s prim d :
  timestamp_literal_digits s <= 6 -> parse_timestamptz s prim = Some d -> datum_value d = VTime (instant_utc s).
Proof.
  intros Hs. unfold parse_timestamptz. destruct prim; try done;
    (destruct (timestamptz_from_str (with_offset s)) as [us|] eqn:E; [|done]); cbn; pose proof (timestamptz_names s us Hs E) as <-.
  - by intros [= <-].
  - destruct (checked_mul_1000 us) as [ns|] eqn:En; [|done]. intros [= <-]. by apply checked_mul_value in En as ->.
Qed.

(** A literal of the text kinds. *)
Lemma text_datum (lit : Json) (parse : string -> option Datum) (f : string -> Value) (fits : Value -> Prop) d :
  (forall s d, parse s = Some d -> datum_value d = f s) -> get_str lit "value" ≫= parse = Some d ->
  converts datum_value fits d (s ← get lit "value" ≫= as_str; if String.eqb s "" then None else Some (f s)).
Proof.
  intros H Hd. apply text_converts. intros s Hs _. unfold get_str in Hd. rewrite Hs in Hd. by apply H.
Qed.

(** Every converted literal stands for what it was. *)
Lemma datum_converts lit prim d :
  (prim = IFloat -> narrows_exactly lit) -> literal_to_datum lit prim = Some d ->
  exists l, literal_value lit = Some l /\ converts datum_value (fits_primitive prim) d l.
Proof.
  intros Hprim Hd. destruct (get_str lit "type") as [kind|] eqn:Hk; [|unfold literal_to_datum in Hd; cbn in Hd; rewrite Hk in Hd; done].
  destruct (String.eqb kind "literal_exactnumeric" || String.eqb kind "literal_double") eqn:Hnum; [by eapply datum_numeric|].
  unfold literal_to_datum in Hd. unfold literal_value. rewrite Hk in *. cbn [mbind option_bind] in *. rewrite Hnum in *.
  destruct prim; try done;
    (match type of Hd with
     | context [String.eqb kind ?k] =>
         let E := fresh in destruct (String.eqb kind k) eqn:E; [apply String.eqb_eq in E as ->|discriminate Hd]
     end; eexists; split; [reflexivity|]).
  - destruct (get lit "value") as [v|]; [|done]. by apply bool_converts.
  - apply (text_datum lit (fun s => DDate <$> date_from_str s)); [|done]. intros s d'.
    destruct (date_from_str s) as [days|] eqn:E; [|done]. intros [= <-]. cbn. by rewrite (date_names _ _ E).
  - apply (text_datum lit (fun s => if (timestamp_literal_digits s <=? 6)%nat then parse_timestamp_no_tz s ITimestamp else None)); [|done].
    intros s d'. destruct (Nat.leb_spec (timestamp_literal_digits s) 6); [|done]. by apply timestamp_datum.
  - apply (text_datum lit (fun s => if (timestamp_literal_digits s <=? 6)%nat then parse_timestamptz s ITimestamptz else None)); [|done].
    intros s d'. destruct (Nat.leb_spec (timestamp_literal_digits s) 6); [|done]. by apply timestamptz_datum.
  - apply (text_datum lit (fun s => if (timestamp_literal_digits s <=? 6)%nat then parse_timestamp_no_tz s ITimestampNs else None)); [|done].
    intros s d'. destruct (Nat.leb_spec (timestamp_literal_digits s) 6); [|done]. by apply timestamp_datum.
  - apply (text_datum lit (fun s => if (timestamp_literal_digits s <=? 6)%nat then parse_timestamptz s ITimestamptzNs else None)); [|done].
    intros s d'. destruct (Nat.leb_spec (timestamp_literal_digits s) 6); [|done]. by apply timestamptz_datum.
  - apply (text_datum lit (fun s => Some (DString s))); [by intros s d' [= <-]|]. by destruct (get_str lit "value").
  - destruct (literal_binary_bytes lit) as [b|]; [|done]. cbn in Hd. case_bool_decide; [|done]. by injection Hd as <-.
  - destruct (literal_binary_bytes lit) as [b|]; [|done]. by injection Hd as <-.
Qed.

Variables (declared : list LogicalField) (scanned : IcebergSchema).
Variables (row : string -> option Value) (other : Json -> option Value).

(** What a row gives an operand: the column a filter column resolves to, a literal,
    anything else as [other] says. *)
Definition filter_operand (node : Json) : option Value :=
  match resolve_filter_column declared scanned node with
  | Some (name, _) => row name
  | None => match literal_value node with Some v => v | None => other node end
  end.

(** A row of the scanned schema. *)
Definition row_fits : Prop :=
  forall id name field prim x, name_by_field_id scanned id = Some name -> field_by_id scanned id = Some field ->
    iceberg_field_type field = IPrimitive prim -> row name = Some x -> fits_primitive prim x.

(** The nodes of a filter. *)
Inductive within (filter : Json) : Json -> Prop :=
| within_self : within filter filter
| within_member node key child : within filter node -> get node key = Some child -> within filter child
| within_item node key items child : within filter node -> get_array node key = Some items -> child ∈ items -> within filter child.

(** When the schema has a 32-bit float column, every number of the filter is one that a
    32-bit float holds: the translation rounds the others. *)
Definition float_literals_exact (filter : Json) : Prop :=
  forall id field, field_by_id scanned id = Some field -> iceberg_field_type field = IPrimitive IFloat ->
    forall lit, within filter lit -> narrows_exactly lit.

Variable filter : Json.
Hypotheses (Hrow : row_fits) (Hfloat : float_literals_exact filter).

Notation resolves := (resolve_filter_column declared scanned).
Notation imeans := (means filter_operand value_compare).
Notation istands := (may_stand row datum_value).

Lemma resolved node name prim :
  resolves node = Some (name, prim) ->
  (prim = IFloat -> forall lit, within filter lit -> narrows_exactly lit) /\ (forall x, row name = Some x -> fits_primitive prim x).
Proof.
  unfold resolve_filter_column. destruct (ColumnNode.parse node) as [c|]; [|done]. cbn [mbind option_bind].
  destruct (List.find _ declared) as [f|]; [|done]. cbn [mbind option_bind].
  destruct (lf_field_id f) as [id|]; [|done]. cbn [mbind option_bind].
  destruct (name_by_field_id scanned id) as [n|] eqn:En; [|done]. cbn [mbind option_bind].
  destruct (field_by_id scanned id) as [field|] eqn:Ef; [|done]. cbn [mbind option_bind].
  destruct (iceberg_field_type field) as [p| | | |] eqn:Et; try done. intros [= <- <-]. split.
  - intros ->. by apply (Hfloat id field).
  - intros x Hx. by apply (Hrow id n field).
Qed.

Lemma literal_operand node l : literal_value node = Some l -> filter_operand node = l.
Proof.
  intros H. unfold filter_operand. rewrite H. unfold resolve_filter_column.
  destruct (ColumnNode.parse node) as [c|] eqn:E; [|done].
  apply column_node_type in E. unfold literal_value in H. rewrite E in H. done.
Qed.

Lemma column_operand node name prim : resolves node = Some (name, prim) -> filter_operand node = row name.
Proof. intros H. unfold filter_operand. by rewrite H. Qed.

(** A converted literal, as an operand. *)
Lemma converted_operand node name prim lit d :
  resolves node = Some (name, prim) -> within filter lit -> literal_to_datum lit prim = Some d ->
  converts datum_value (fits_primitive prim) d (filter_operand lit).
Proof.
  intros Hr Hw Hd. destruct (resolved _ _ _ Hr) as [Hp _]. destruct (datum_converts lit prim d (fun E => Hp E lit Hw) Hd) as (l & Hl & Hc).
  by rewrite (literal_operand _ _ Hl).
Qed.

Lemma compare_operands c node name prim lit d :
  resolves node = Some (name, prim) -> within filter lit -> literal_to_datum lit prim = Some d ->
  refines (compare3 value_compare c (filter_operand node) (filter_operand lit)) (eval row datum_value (PCompare name c d)).
Proof.
  intros Hr Hw Hd. rewrite (column_operand _ _ _ Hr). apply (compare_refines _ _ (fits_primitive prim)).
  - by eapply converted_operand.
  - by destruct (resolved _ _ _ Hr).
Qed.

Lemma binary_sound node c t p :
  within filter node -> get_str node "type" = Some (node_type c) -> imeans node t -> translate_binary declared scanned node (node_type c) = Some p ->
  refines t (eval row datum_value p).
Proof.
  intros Hw Hk Ht Hp. unfold translate_binary in Hp.
  destruct (get node "left") as [l|] eqn:El; [|done]. cbn [mbind option_bind] in Hp.
  destruct (get node "right") as [r|] eqn:Er; [|done]. cbn [mbind option_bind] in Hp.
  apply (means_comparison _ _ node c l r t Hk El Er) in Ht as ->.
  destruct (resolves l) as [[name prim]|] eqn:Erl; cbn [mbind option_bind] in Hp.
  - destruct (literal_to_datum r prim) as [d|] eqn:Ed; [|done]. cbn [mbind option_bind] in Hp.
    destruct (reference_method (node_type c)) as [op|] eqn:Eop; [|done]. injection Hp as <-.
    assert (op = c) as -> by (destruct c; vm_compute in Eop; congruence). eapply compare_operands; [done|by eapply within_member|done].
  - destruct (resolves r) as [[name prim]|] eqn:Err; [|done]. cbn [mbind option_bind] in Hp.
    destruct (literal_to_datum l prim) as [d|] eqn:Ed; [|done]. cbn [mbind option_bind] in Hp.
    destruct (flip_operator (node_type c) ≫= reference_method) as [op|] eqn:Eop.
    + assert (op = with_operands_swapped c) as ->
        by (destruct c; vm_compute in Eop; first [discriminate Eop|by injection Eop as <-]).
      destruct (flip_operator (node_type c)) as [k|]; [|done]. cbn [mbind option_bind] in Eop, Hp. rewrite Eop in Hp. injection Hp as <-.
      rewrite <- (compare3_swapped value_compare c) by (intros; apply value_compare_antisym). eapply compare_operands; [done|by eapply within_member|done].
    + destruct (flip_operator (node_type c)) as [k|]; [|done]. cbn [mbind option_bind] in Eop, Hp. by rewrite Eop in Hp.
Qed.

Lemma in_list_sound node t p :
  within filter node -> get_str node "type" = Some "predicate_in_constlist" -> imeans node t -> iceberg_translate_in declared scanned node = Some p ->
  refines t (eval row datum_value p).
Proof.
  intros Hw Hk Ht Hp. unfold iceberg_translate_in in Hp.
  destruct (get node "expression") as [e|] eqn:Ee; [|done]. cbn [mbind option_bind] in Hp.
  destruct (resolves e) as [[name prim]|] eqn:Er; [|done]. cbn [mbind option_bind] in Hp.
  destruct (get_array node "arguments") as [args|] eqn:Ea; [|done]. cbn [mbind option_bind] in Hp.
  apply (means_in _ _ node e args t Hk Ee Ea) in Ht as ->.
  destruct (mapM (fun a => literal_to_datum a prim) args) as [ds|] eqn:Em; [|by destruct args].
  assert (p = PIn name ds) as -> by (destruct args; [done|]; by injection Hp).
  apply mapM_Some_1 in Em. rewrite (column_operand _ _ _ Er). clear Hp.
  assert (Hargs : forall a, a ∈ args -> within filter a) by (intros a Ha; by eapply within_item). clear Ea.
  cbn [eval]. apply any3_refines. induction Em as [|a d args ds Ha _ IH]; constructor; [|by apply IH; intros; apply Hargs; right].
  apply (compare_refines _ _ (fits_primitive prim)); [eapply converted_operand; [done|apply Hargs; by left|done]|]. by destruct (resolved _ _ _ Er).
Qed.

Lemma reduce_and_eval l p : reduce PAnd l = Some p -> eval row datum_value p = all3 (map (eval row datum_value) l).
Proof.
  destruct l as [|x l]; [done|]. intros [= <-]. revert x. induction l as [|y l IH]; intros x; cbn [fold_left map].
  - symmetry. apply and3_true_r.
  - rewrite IH. symmetry. apply and3_assoc.
Qed.

Lemma reduce_or_eval l p : reduce POr l = Some p -> eval row datum_value p = any3 (map (eval row datum_value) l).
Proof.
  destruct l as [|x l]; [done|]. intros [= <-]. revert x. induction l as [|y l IH]; intros x; cbn [fold_left map].
  - symmetry. apply or3_false_r.
  - rewrite IH. symmetry. apply or3_assoc.
Qed.

Lemma iceberg_fold_and_sound children ts : Forall2 istands children ts -> istands (fold_and children) (all3 ts).
Proof.
  intros H. destruct (and_children row datum_value children ts H) as [H1 H2]. unfold fold_and.
  destruct (reduce PAnd _) as [p|] eqn:E; [|done]. apply reduce_and_eval in E. cbn [mbind option_bind may_stand].
  split; cbn [predicate exact]; rewrite E; auto.
Qed.

Lemma iceberg_fold_or_sound children ts : Forall2 istands children ts -> istands (fold_or children) (any3 ts).
Proof.
  intros H. unfold fold_or. destruct (mapM id children) as [trs|] eqn:Em; [|done]. cbn [mbind option_bind].
  destruct (or_children row datum_value children trs ts Em H) as [H1 H2].
  destruct (reduce POr _) as [p|] eqn:E; [|done]. apply reduce_or_eval in E. cbn [mbind option_bind may_stand].
  split; cbn [predicate exact]; rewrite E; auto.
Qed.

Lemma iceberg_between_sound node t :
  within filter node -> get_str node "type" = Some "predicate_between" -> imeans node t -> istands (iceberg_translate_between declared scanned node) t.
Proof.
  intros Hw Hk Ht. unfold iceberg_translate_between.
  destruct (get node "expression") as [e|] eqn:Ee; [|done]. cbn [mbind option_bind].
  destruct (resolves e) as [[name prim]|] eqn:Er; [|done]. cbn [mbind option_bind].
  destruct (proj1 (means_range _ _ node e t Hk Ee) Ht) as (low & high & Hlow & Hhigh & Et). subst t. clear Ht.
  assert (forall key c t, let side := get node key in bound filter_operand value_compare c (filter_operand e) side t ->
            istands (d ← side ≫= (fun n => literal_to_datum n prim); Some (translated_exact (PCompare name c d))) t) as Hside.
  { intros key c t. cbv zeta. destruct (get node key) as [n|] eqn:En; intros Ht; [|done]. cbn [mbind option_bind].
    destruct (literal_to_datum n prim) as [d|] eqn:Ed; [|done].
    apply stands_exactly. cbn in Ht. subst t. eapply compare_operands; [done|by eapply within_member|done]. }
  rewrite <- (and3_true_r high). change (and3 low (and3 high (Some true))) with (all3 [low; high]).
  apply iceberg_fold_and_sound. repeat constructor; by apply Hside.
Qed.

Lemma members_stand (rec : Json -> option (Translated Datum)) l ts :
  (forall x u, x ∈ l -> imeans x u -> istands (rec x) u) -> Forall2 imeans l ts -> Forall2 istands (map rec l) ts.
Proof.
  intros H F. induction F as [|x u l ts Hx _ IH]; constructor; [apply H; set_solver|]. apply IH. set_solver.
Qed.

Lemma iceberg_translate_sound fuel node t : within filter node -> imeans node t -> istands (iceberg_translate_fuel declared scanned fuel node) t.
Proof.
  revert node t. induction fuel as [|fuel IH]; intros node t Hw Ht; [done|]. cbn [iceberg_translate_fuel].
  destruct (get_str node "type") as [kind|] eqn:Hk; [|done]. cbn [mbind option_bind]. cbv zeta.
  assert (forall c, kind = node_type c ->
            istands (translated_exact <$> translate_binary declared scanned node kind) t) as Hbin.
  { intros c ->. destruct (translate_binary declared scanned node (node_type c)) as [p|] eqn:Ep; [|done].
    apply stands_exactly. by eapply binary_sound. }
  destruct (String.eqb_spec kind "predicate_equal"); [by apply (Hbin Equal)|].
  destruct (String.eqb_spec kind "predicate_less"); [by apply (Hbin Less)|].
  destruct (String.eqb_spec kind "predicate_lessequal"); [by apply (Hbin LessEqual)|].
  destruct (String.eqb_spec kind "predicate_greater"); [by apply (Hbin Greater)|].
  destruct (String.eqb_spec kind "predicate_greaterequal"); [by apply (Hbin GreaterEqual)|]. cbn [orb].
  destruct (String.eqb kind "predicate_notequal"); [done|].
  destruct (String.eqb_spec kind "predicate_and") as [->|].
  { destruct (get_array node "expressions") as [l|] eqn:El; [|done]. cbn [mbind option_bind].
    apply (means_and _ _ node l t Hk El) in Ht as (ts & Hts & ->). apply iceberg_fold_and_sound, members_stand; eauto using within_item. }
  destruct (String.eqb_spec kind "predicate_or") as [->|].
  { destruct (get_array node "expressions") as [l|] eqn:El; [|done]. cbn [mbind option_bind].
    apply (means_or _ _ node l t Hk El) in Ht as (ts & Hts & ->). apply iceberg_fold_or_sound, members_stand; eauto using within_item. }
  destruct (String.eqb_spec kind "predicate_not") as [->|].
  { destruct (get node "expression") as [e|] eqn:Ee; [|done]. cbn [mbind option_bind].
    apply (means_not _ _ node e t Hk Ee) in Ht as (t' & Ht & ->). pose proof (IH e t' (within_member _ _ _ _ Hw Ee) Ht) as H.
    destruct (iceberg_translate_fuel declared scanned fuel e) as [tr|]; [|done]. cbn [mbind option_bind].
    destruct (exact tr) eqn:Ex; [|done]. apply stands_exactly, not3_refines. by apply H. }
  destruct (String.eqb_spec kind "predicate_is_null") as [->|].
  { destruct (get node "expression") as [e|] eqn:Ee; [|done]. cbn [mbind option_bind].
    destruct (resolves e) as [[name prim]|] eqn:Er; [|done]. cbn [mbind option_bind].
    apply (means_is_null _ _ node e t Hk Ee) in Ht as ->. rewrite (column_operand _ _ _ Er). by apply stands_exactly; right. }
  destruct (String.eqb_spec kind "predicate_is_not_null") as [->|].
  { destruct (get node "expression") as [e|] eqn:Ee; [|done]. cbn [mbind option_bind].
    destruct (resolves e) as [[name prim]|] eqn:Er; [|done]. cbn [mbind option_bind].
    apply (means_is_not_null _ _ node e t Hk Ee) in Ht as ->. rewrite (column_operand _ _ _ Er). by apply stands_exactly; right. }
  destruct (String.eqb_spec kind "predicate_in_constlist") as [->|].
  { destruct (iceberg_translate_in declared scanned node) as [p|] eqn:Ep; [|done]. apply stands_exactly. by eapply in_list_sound. }
  destruct (String.eqb_spec kind "predicate_between") as [->|]; [by apply iceberg_between_sound|done].
Qed.
End Implied.

(** C17. Iceberg pruning is implied by the filter: where the filter is TRUE on a row of
    the scanned schema, so is the predicate handed to iceberg-rust, whatever the
    nodes it drops compute; columns resolve by field id, so a renamed column is
    compared with its own values. A numeric literal means the number it is written as.
    Excluded are filters with a number that no 32-bit float holds, over a schema with
    a 32-bit float column: the translation rounds it ([float_literal_narrowed]). *)
Theorem iceberg_predicate_implied {UC : UnicodeCase} {FL : Floats} {IN : Instants} {ID : IcebergDatums} {IL : IcebergDatumLaws ID} {HX : Hex}
    (declared : list LogicalField) (scanned : IcebergSchema) (row : string -> option Value) (other : Json -> option Value) filter p :
  row_fits scanned row -> float_literals_exact scanned filter ->
  to_iceberg_predicate declared scanned filter = Some p ->
  means (filter_operand declared scanned row other) value_compare filter (Some true) ->
  eval row datum_value p = Some true.
Proof.
  intros Hrow Hfloat Hp Ht. unfold to_iceberg_predicate in Hp.
  pose proof (iceberg_translate_sound declared scanned row other filter Hrow Hfloat (json_depth filter) filter (Some true) (within_self _) Ht) as H.
  destruct (iceberg_translate_fuel declared scanned (json_depth filter) filter) as [tr|]; [|done].
  injection Hp as <-. by apply H.
Qed.

Definition no_datums : IcebergDatums (H := zero_instants) :=
  {| date_from_str _ := None; timestamp_from_str _ := None; timestamptz_from_str _ := None |}.

Lemma no_datums_laws : IcebergDatumLaws no_datums.
Proof. by split. Qed.

Definition renamed_schema (prim : IcebergPrimitive) : IcebergSchema := {|
  name_by_field_id id := if (id =? 7)%Z then Some "price_eur" else None;
  field_by_id id := if (id =? 7)%Z then Some (MkIcebergField 7 "price_eur" false (IPrimitive prim) None) else None;
|}.

Definition price_declared : list LogicalField :=
  [{| lf_field_id := Some 7%Z; lf_name := "price"; lf_arrow_type := "float64"; lf_nullable := true; lf_physical_name := None; lf_nested := None; lf_initial_default := None |}].

(** NOT (price >= 0.1234 OR price IS NULL). *)
Definition price_filter : Json :=
  json_object [("type", JString "predicate_not"); ("expression",
    json_object [("type", JString "predicate_or"); ("expressions", JArray [
      json_object [("type", JString "predicate_greaterequal");
                   ("left", json_object [("type", JString "column"); ("name", JString "PRICE")]);
                   ("right", json_object [("type", JString "literal_exactnumeric"); ("value", JString "0.1234")])];
      json_object [("type", JString "predicate_is_null");
                   ("expression", json_object [("type", JString "column"); ("name", JString "PRICE")])]])])].

Definition price_predicate : Predicate Datum :=
  PNot (POr (PCompare "price_eur" GreaterEqual (DDouble 1234)) (PIsNull "price_eur")).

Definition price_row (price : Z) (column : string) : option Value :=
  if String.eqb column "price_eur" then Some (VFloat price) else None.

Lemma price_filter_true prim x :
  prim = IDouble \/ prim = IFloat -> Z.compare x 1234 = Lt ->
  means (filter_operand (UC := ascii_case) (FL := coarse_floats) (IN := zero_instants) (HX := plain_hex) price_declared (renamed_schema prim)
           (price_row x) (fun _ => None)) (value_compare (FL := coarse_floats)) price_filter (Some true).
Proof.
  intros Hp Hx. refine (proj2 (means_not _ _ price_filter _ _ eq_refl eq_refl) _). exists (Some false). split; [|reflexivity].
  eapply means_or; [reflexivity..|]. exists [Some false; Some false]. split; [|reflexivity].
  constructor; [|constructor; [|constructor]].
  - eapply (means_comparison _ _ _ GreaterEqual); [reflexivity..|].
    destruct Hp as [->| ->]; vm_compute; vm_compute in Hx; by rewrite Hx.
  - eapply means_is_null; [reflexivity..|]. by destruct Hp as [->| ->].
Qed.

Lemma iceberg_predicate_implied_witness :
  eval (FL := coarse_floats) (price_row 1200) (datum_value (H := coarse_floats)) price_predicate = Some true.
Proof.
  refine (iceberg_predicate_implied (UC := ascii_case) (FL := coarse_floats) (IL := no_datums_laws) (HX := plain_hex)
    price_declared (renamed_schema IDouble) (price_row 1200) (fun _ => None) price_filter _ _ _ _ _).
  - intros id name field prim x Hn Hf Ht Hx. cbn in Hn, Hf. destruct (id =? 7)%Z; [|done]. injection Hn as <-. injection Hf as <-.
    injection Ht as <-. injection Hx as <-. by eexists.
  - intros id field Hf Ht. cbn in Hf. destruct (id =? 7)%Z; [|done]. by injection Hf as <-.
  - vm_compute. reflexivity.
  - apply price_filter_true; [by left|reflexivity].
Defined.

(** Where a double literal is narrowed to a 32-bit float below it, the filter can be
    TRUE on a row that the predicate of a FLOAT column is FALSE on. *)
Lemma float_literal_narrowed :
  exists p,
    to_iceberg_predicate (UC := ascii_case) (FL := coarse_floats) (IN := zero_instants) (ID := no_datums) (HX := plain_hex)
      price_declared (renamed_schema IFloat) price_filter = Some p /\
    means (filter_operand (UC := ascii_case) (FL := coarse_floats) (IN := zero_instants) (HX := plain_hex) price_declared
             (renamed_schema IFloat) (price_row 1200) (fun _ => None)) (value_compare (FL := coarse_floats)) price_filter (Some true) /\
    eval (FL := coarse_floats) (price_row 1200) (datum_value (H := coarse_floats)) p = Some false.
Proof.
  eexists. split; [vm_compute; reflexivity|]. split; [apply price_filter_true; [by right|reflexivity]|vm_compute; reflexivity].
Qed.
