(* ===== verification/DeltaPredicate.v ===== *)
(** crates/lakehouse-engine/src/adapter/pushdown/format/delta_predicate.rs: the
    predicate delta-kernel skips files with, and that a filter implies it. *)

From stdpp Require Import base sets list strings numbers.
From Stdlib Require Import Ascii String ZArith NArith Lia ZifyBool.
From S2P Require Import Prelude Text Hex Json ColumnNode FilterJson SparkTypes TypeMapping BinaryFilter Pruning.

Local Open Scope string_scope.

(** [delta_kernel::expressions::Scalar]: a date in days, instants in microseconds, a
    decimal by its digits and scale. *)
Inductive Scalar :=
| ScBoolean (b : bool) | ScByte (v : Z) | ScShort (v : Z) | ScInteger (v : Z) | ScLong (v : Z)
| ScFloat (bits : Z) | ScDouble (bits : Z) | ScDecimal (unscaled : Z) (scale : N) | ScString (s : string)
| ScDate (days : Z) | ScTimestamp (us : Z) | ScTimestampNtz (us : Z) | ScBinary (b : string).

(** The kernel's own parser of dates and timestamps, and its check of a decimal's
    digits. *)
Class DeltaScalars := {
  parse_scalar : SparkPrimitive -> string -> option Scalar;
  decimal_try_new : Z -> N -> N -> bool;
}.

(** ** Literals *)

Definition i128_ok (z : Z) : bool := (- 2 ^ 127 <=? z)%Z && (z <? 2 ^ 127)%Z.
Definition i32_ok (z : Z) : bool := (- 2 ^ 31 <=? z)%Z && (z <? 2 ^ 31)%Z.

Definition checked (ok : Z -> bool) (z : Z) : option Z := if ok z then Some z else None.

Definition split_decimal (raw : string) : option (Z * Z) :=
  '(mantissa, exponent) ← match split_exponent raw with
                          | None => Some (raw, 0%Z)
                          | Some (m, e) => z ← parse_signed 32 e; Some (m, z)
                          end;
  let '(int_part, frac_part) := match split_once "." mantissa with Some p => p | None => (mantissa, "") end in
  unscaled ← parse_signed 128 (int_part ++ frac_part);
  length ← checked i32_ok (Z.of_nat (String.length frac_part));
  scale ← checked i32_ok (length - exponent);
  Some (unscaled, scale).

Definition rescale (unscaled from to : Z) : option Z :=
  shift ← checked i32_ok (to - from);
  factor ← checked i128_ok (10 ^ Z.abs shift);
  if (0 <=? shift)%Z then checked i128_ok (unscaled * factor)
  else
    let quotient := Z.quot unscaled factor in
    back ← checked i128_ok (quotient * factor);
    if (back =? unscaled)%Z then Some quotient else None.

Definition parse_bool (value : Json) : option bool :=
  match value with
  | JBool b => Some b
  | JString s =>
      if eq_ignore_ascii_case s "true" then Some true
      else if eq_ignore_ascii_case s "false" then Some false else None
  | JNumber n =>
      i ← as_i64 (JNumber n);
      if (i =? 1)%Z then Some true else if (i =? 0)%Z then Some false else None
  | _ => None
  end.

Definition parse_i64 (value : Json) : option Z :=
  match value with
  | JNumber n => as_i64 (JNumber n)
  | JString s => parse_signed 64 (trim s)
  | _ => None
  end.

(** [iN::try_from]. *)
Definition try_from_i64 (bits : Z) (v : Z) : option Z :=
  if ((- 2 ^ (bits - 1) <=? v) && (v <? 2 ^ (bits - 1)))%Z then Some v else None.

Section Literals.
Context {FL : Floats} {DS : DeltaScalars} {HX : Hex}.

Definition parse_f64 (value : Json) : option Z :=
  match value with
  | JNumber n => number_as_f64 n
  | JString s => f64_parse (trim s)
  | _ => None
  end.

Definition parse_decimal (value : Json) (precision scale : N) : option Scalar :=
  raw ← match value with JNumber n => Some (number_to_string n) | JString s => Some (trim s) | _ => None end;
  '(unscaled, from) ← split_decimal raw;
  aligned ← rescale unscaled from (Z.of_N scale);
  if decimal_try_new aligned precision scale then Some (ScDecimal aligned scale) else None.

(** A date or timestamp text of at most six fraction digits. *)
Definition parse_temporal (value : Json) (prim : SparkPrimitive) : option Scalar :=
  text ← non_empty_str value;
  if (timestamp_literal_digits text <=? 6)%nat then parse_scalar prim text else None.

Definition literal_to_scalar (lit : Json) (prim : SparkPrimitive) : option Scalar :=
  kind ← get_str lit "type";
  value ← get lit "value";
  let kind_is k := String.eqb kind k in
  let numeric := kind_is "literal_exactnumeric" || kind_is "literal_double" in
  match prim with
  | SBoolean => if kind_is "literal_bool" then ScBoolean <$> parse_bool value else None
  | SByte => if numeric then v ← parse_i64 value; ScByte <$> try_from_i64 8 v else None
  | SShort => if numeric then v ← parse_i64 value; ScShort <$> try_from_i64 16 v else None
  | SInteger => if numeric then v ← parse_i64 value; ScInteger <$> try_from_i64 32 v else None
  | SLong => if numeric then ScLong <$> parse_i64 value else None
  | SFloat =>
      if numeric then
        wide ← parse_f64 value;
        let narrowed := as_f32 wide in
        if float_eq (f64_from_f32 narrowed) wide then Some (ScFloat narrowed) else None
      else None
  | SDouble => if numeric then ScDouble <$> parse_f64 value else None
  | SDecimal precision scale => if numeric then parse_decimal value precision scale else None
  | SString => if kind_is "literal_string" then ScString <$> non_empty_str value else None
  | SDate => if kind_is "literal_date" then parse_temporal value prim else None
  | STimestamp => if kind_is "literal_timestamp" || kind_is "literal_timestamp_utc" then parse_temporal value prim else None
  | STimestampNtz => if kind_is "literal_timestamp" then parse_temporal value prim else None
  | SBinary => if kind_is "literal_binary" then ScBinary <$> literal_binary_bytes lit else None
  | _ => None
  end.
End Literals.

(** ** Translation *)

Notation DTranslated := (Translated Scalar).

Definition delta_fold_and (children : list (option DTranslated)) : option DTranslated :=
  match omap (fun c => predicate <$> c) children with
  | [] => None
  | predicates => Some (MkTranslated (PAll predicates) (forallb child_exact children))
  end.

Definition delta_fold_or (children : list (option DTranslated)) : option DTranslated :=
  translated ← mapM id children;
  match translated with
  | [] => None
  | _ => Some (MkTranslated (PAny (map predicate translated)) (forallb exact translated))
  end.

Section Translate.
Context {UC : UnicodeCase} {FL : Floats} {DS : DeltaScalars} {HX : Hex}.
Variable columns : list (string * StructField).

Definition resolve_column (col_name : string) : option (string * SparkPrimitive) :=
  let column := to_uppercase col_name in
  '(_, field) ← List.find (fun cf => String.eqb (to_uppercase cf.1) column) columns;
  match spark_type field with SPrimitive prim => Some (spark_name field, prim) | _ => None end.

Definition delta_translate_comparison (node : Json) (c : Comparison) : option DTranslated :=
  '(col_name, lit_node, c) ← comparison_operands node c;
  '(field_name, prim) ← resolve_column col_name;
  scalar ← literal_to_scalar lit_node prim;
  match c with
  | NotEqual => None
  | c => Some (translated_exact (PCompare field_name c scalar))
  end.

Definition delta_translate_in (node : Json) : option DTranslated :=
  '(col_name, args) ← in_operands node;
  '(field_name, prim) ← resolve_column col_name;
  delta_fold_or (map (fun arg => scalar ← literal_to_scalar arg prim;
                                 Some (translated_exact (PCompare field_name Equal scalar))) args).

Definition delta_translate_between (node : Json) : option DTranslated :=
  '(col_name, low, high) ← between_operands node;
  '(field_name, prim) ← resolve_column col_name;
  let low_pred := scalar ← low ≫= (fun n => literal_to_scalar n prim);
                  Some (translated_exact (PCompare field_name GreaterEqual scalar)) in
  let high_pred := scalar ← high ≫= (fun n => literal_to_scalar n prim);
                   Some (translated_exact (PCompare field_name LessEqual scalar)) in
  delta_fold_and [low_pred; high_pred].

(** The recursion follows the filter, so its depth is enough. *)
Fixpoint translate_node_fuel (fuel : nat) (node : Json) : option DTranslated :=
  match fuel with
  | 0 => None
  | S fuel =>
      kind ← get_str node "type";
      let kind_is k := String.eqb kind k in
      match from_node_type kind with
      | Some c => delta_translate_comparison node c
      | None =>
          if kind_is "predicate_in_constlist" then delta_translate_in node
          else if kind_is "predicate_is_null" then
            '(field_name, _) ← subject_column node ≫= resolve_column; Some (translated_exact (PIsNull field_name))
          else if kind_is "predicate_is_not_null" then
            '(field_name, _) ← subject_column node ≫= resolve_column; Some (translated_exact (PIsNotNull field_name))
          else if kind_is "predicate_and" then l ← operands node; delta_fold_and (map (translate_node_fuel fuel) l)
          else if kind_is "predicate_or" then l ← operands node; delta_fold_or (map (translate_node_fuel fuel) l)
          else if kind_is "predicate_not" then
            inner ← get node "expression";
            tr ← translate_node_fuel fuel inner;
            if exact tr then Some (translated_exact (PNot (predicate tr))) else None
          else if kind_is "predicate_between" then delta_translate_between node
          else None
      end
  end.

Definition to_delta_predicate (filter_json : Json) : option (Predicate Scalar) :=
  predicate <$> translate_node_fuel (json_depth filter_json) filter_json.
End Translate.

(** ** Literals keep their value *)

Definition scalar_value `{Floats} (s : Scalar) : Value :=
  match s with
  | ScBoolean b => VBool b
  | ScByte v | ScShort v | ScInteger v | ScLong v => VNum v 0
  | ScFloat bits => VFloat (f64_from_f32 bits)
  | ScDouble bits => VFloat bits
  | ScDecimal unscaled scale => VNum unscaled (Z.of_N scale)
  | ScString s => VText s
  | ScDate days => VTime (days * (86400 * 10 ^ 9))
  | ScTimestamp us | ScTimestampNtz us => VTime (us * 1000)
  | ScBinary b => VBytes b
  end%Z.

(** The kernel parses a date to its day and a timestamp of at most six fraction
    digits to its microsecond, in UTC. *)
Class DeltaScalarLaws `{FL : Floats} `{IN : Instants} (DS : DeltaScalars) : Prop := {
  date_scalar s v : parse_scalar SDate s = Some v -> scalar_value v = VTime (midnight s);
  timestamp_scalar s v : timestamp_literal_digits s <= 6 -> parse_scalar STimestamp s = Some v ->
    scalar_value v = VTime (instant s) /\ scalar_value v = VTime (instant_utc s);
  timestamp_ntz_scalar s v : timestamp_literal_digits s <= 6 -> parse_scalar STimestampNtz s = Some v ->
    scalar_value v = VTime (instant s);
}.

(** The values of a column. *)
Definition fits_spark (prim : SparkPrimitive) (v : Value) : Prop :=
  match prim with
  | SFloat | SDouble => exists bits, v = VFloat bits
  | SDecimal _ _ => exists unscaled scale, v = VNum unscaled scale
  | _ => True
  end.

Lemma checked_Some ok z v : checked ok z = Some v -> v = z /\ ok z = true.
Proof. unfold checked. destruct (ok z); [|done]. by intros [= <-]. Qed.

Lemma split_decimal_numeral raw u k : split_decimal raw = Some (u, k) -> numeral raw = Some (u, k).
Proof.
  unfold split_decimal, numeral. destruct (split_exponent raw) as [[m e]|].
  - destruct (parse_signed 32 e) as [z|] eqn:Ez; [|done]. apply parse_signed_integer in Ez. rewrite Ez. cbn [mbind option_bind].
    destruct (match split_once "." m with Some p => p | None => (m, "") end) as [ip fp].
    destruct (parse_signed 128 (ip ++ fp)) as [u'|] eqn:Eu; [|done]. apply parse_signed_integer in Eu. rewrite Eu. cbn [mbind option_bind].
    destruct (checked i32_ok (Z.of_nat (String.length fp))) as [len|] eqn:El; [|done]. apply checked_Some in El as [-> _]. cbn [mbind option_bind].
    destruct (checked i32_ok _) as [sc|] eqn:Es; [|done]. apply checked_Some in Es as [-> _]. done.
  - cbn [mbind option_bind]. destruct (match split_once "." raw with Some p => p | None => (raw, "") end) as [ip fp].
    destruct (parse_signed 128 (ip ++ fp)) as [u'|] eqn:Eu; [|done]. apply parse_signed_integer in Eu. rewrite Eu. cbn [mbind option_bind].
    destruct (checked i32_ok (Z.of_nat (String.length fp))) as [len|] eqn:El; [|done]. apply checked_Some in El as [-> _]. cbn [mbind option_bind].
    destruct (checked i32_ok _) as [sc|] eqn:Es; [|done]. apply checked_Some in Es as [-> _]. done.
Qed.

(** Rescaling is exact or refused. *)
Lemma rescale_exact unscaled from to aligned a i :
  rescale unscaled from to = Some aligned -> num_compare a i aligned to = num_compare a i unscaled from.
Proof.
  unfold rescale. destruct (checked i32_ok (to - from)) as [shift|] eqn:Es; [|done]. apply checked_Some in Es as [-> _].
  cbn [mbind option_bind]. destruct (checked i128_ok _) as [factor|] eqn:Ef; [|done]. apply checked_Some in Ef as [-> _].
  cbn [mbind option_bind]. destruct (Z.leb_spec 0 (to - from)).
  - intros [-> _]%checked_Some. rewrite Z.abs_eq by done. replace to with (from + (to - from))%Z at 2 by lia.
    by apply num_compare_shift.
  - destruct (checked i128_ok _) as [back|] eqn:Eb; [|done]. apply checked_Some in Eb as [-> _]. cbn [mbind option_bind].
    destruct (Z.eqb_spec (Z.quot unscaled (10 ^ Z.abs (to - from)) * 10 ^ Z.abs (to - from)) unscaled) as [E|]; [|done].
    intros [= <-]. rewrite <- E at 2. rewrite Z.abs_neq by lia. replace from with (to + - (to - from))%Z at 4 by lia.
    symmetry. apply num_compare_shift. lia.
Qed.

Section Values.
Context {FL : Floats} {IN : Instants} {DS : DeltaScalars} {DL : DeltaScalarLaws DS} {HX : Hex}.

Lemma try_from_value bits z v : try_from_i64 bits z = Some v -> v = z.
Proof. unfold try_from_i64. destruct (_ && _); [|done]. by intros [= <-]. Qed.

Lemma parse_bool_value value b c : parse_bool value = Some b -> bool_value value = Some c -> b = c.
Proof.
  destruct value as [|b'|n|s| |]; try done; cbn [parse_bool bool_value]; intros H1 H2; [congruence|congruence|].
  destruct (String.eqb_spec s "true") as [->|]; [vm_compute in H1; cbn in H2; congruence|].
  destruct (String.eqb_spec s "TRUE") as [->|]; [vm_compute in H1; cbn in H2; congruence|].
  destruct (String.eqb_spec s "false") as [->|]; [vm_compute in H1; cbn in H2; congruence|].
  destruct (String.eqb_spec s "FALSE") as [->|]; [vm_compute in H1; cbn in H2; congruence|]. done.
Qed.

Lemma parse_decimal_value value precision scale v x :
  parse_decimal value precision scale = Some v -> fits_spark (SDecimal precision scale) x ->
  exists y, numeric_value value = Some y /\ value_compare x (scalar_value v) = value_compare x y.
Proof.
  intros H (a & i & ->). unfold parse_decimal in H. unfold numeric_value, numeric_text.
  destruct (match value with JNumber _ => _ | _ => _ end) as [raw|]; [|done]. cbn [mbind option_bind] in *.
  destruct (split_decimal raw) as [[u k]|] eqn:Es; [|done]. cbn [mbind option_bind] in H.
  rewrite (split_decimal_numeral _ _ _ Es). destruct (rescale u k (Z.of_N scale)) as [al|] eqn:Er; [|done]. cbn [mbind option_bind] in H.
  destruct (decimal_try_new al precision scale); [|done]. injection H as <-. eexists. split; [done|].
  cbn. by apply rescale_exact.
Qed.

Lemma scalar_numeric lit kind value prim d :
  get_str lit "type" = Some kind -> get lit "value" = Some value ->
  String.eqb kind "literal_exactnumeric" || String.eqb kind "literal_double" = true ->
  literal_to_scalar lit prim = Some d ->
  converts scalar_value (fits_spark prim) d (numeric_value value).
Proof.
  intros Hk Hv Hnum Hd. unfold literal_to_scalar in Hd. rewrite Hk, Hv in Hd. cbn [mbind option_bind] in Hd. rewrite Hnum in Hd.
  assert (forall k, k <> "literal_exactnumeric" -> k <> "literal_double" -> String.eqb kind k = false) as Hother.
  { intros k H1 H2. apply String.eqb_neq. intros ->. apply orb_true_iff in Hnum as [H|H]; apply String.eqb_eq in H; done. }
  assert (forall bits (f : Z -> Scalar) d, (forall v, scalar_value (f v) = VNum v 0) ->
            (v ← parse_i64 value; f <$> try_from_i64 bits v) = Some d -> converts scalar_value (fits_spark prim) d (numeric_value value)) as Hint.
  { intros bits f d' Hf H. destruct (parse_i64 value) as [z|] eqn:E; [|done]. cbn [mbind option_bind] in H.
    destruct (try_from_i64 bits z) as [v|] eqn:Ev; [|done]. apply try_from_value in Ev as ->. injection H as <-.
    rewrite (json_integer_value 64 value z E). intros x _. by rewrite Hf. }
  destruct prim; rewrite ?Hother in Hd by done; try done; try (by eapply Hint; [|exact Hd]).
  - destruct (parse_i64 value) as [z|] eqn:E; [|done]. injection Hd as <-. by rewrite (json_integer_value 64 value z E).
  - destruct (parse_f64 value) as [b|] eqn:E; [|done]. cbn [mbind option_bind] in Hd.
    destruct (float_eq _ _) eqn:Eq; [|done]. injection Hd as <-. apply narrowed_exactly in Eq.
    destruct (numeric_f64_value _ _ E) as (x & -> & Hx). intros y [bits ->]. cbn [scalar_value]. rewrite Eq. apply Hx.
  - destruct (parse_f64 value) as [b|] eqn:E; [|done]. injection Hd as <-.
    destruct (numeric_f64_value _ _ E) as (x & -> & Hx). intros y [bits ->]. apply Hx.
  - destruct (numeric_value value) as [y|] eqn:Ey; [|done]. intros x Hx.
    destruct (parse_decimal_value _ _ _ _ x Hd Hx) as (y' & Hy' & ->). congruence.
Qed.

Lemma temporal_converts value prim (f : string -> Value) fits d :
  (forall s v, timestamp_literal_digits s <= 6 -> parse_scalar prim s = Some v -> scalar_value v = f s) ->
  parse_temporal value prim = Some d ->
  converts scalar_value fits d (s ← as_str value; if String.eqb s "" then None else Some (f s)).
Proof.
  intros H Hd. apply text_converts. intros s Hs Hne. unfold parse_temporal, non_empty_str in Hd. rewrite Hs in Hd.
  cbn [mbind option_bind] in Hd. destruct (String.eqb_spec s ""); [done|]. cbn [mbind option_bind] in Hd.
  destruct (Nat.leb_spec (timestamp_literal_digits s) 6); [|done]. auto.
Qed.

(** Every converted literal stands for what it was. *)
Lemma scalar_converts lit prim d :
  literal_to_scalar lit prim = Some d ->
  exists l, literal_value lit = Some l /\ converts scalar_value (fits_spark prim) d l.
Proof.
  intros Hd. destruct (get_str lit "type") as [kind|] eqn:Hk; [|unfold literal_to_scalar in Hd; cbn in Hd; rewrite Hk in Hd; done].
  destruct (get lit "value") as [value|] eqn:Hv; [|unfold literal_to_scalar in Hd; cbn in Hd; rewrite Hk, Hv in Hd; done].
  destruct (String.eqb kind "literal_exactnumeric" || String.eqb kind "literal_double") eqn:Hnum.
  { exists (numeric_value value). split; [|by eapply scalar_numeric]. unfold literal_value. rewrite Hk, Hv. cbn [mbind option_bind].
    rewrite Hnum. by apply orb_true_iff in Hnum as [H|H]; apply String.eqb_eq in H as ->. }
  unfold literal_to_scalar in Hd. unfold literal_value. rewrite Hk, Hv in *. cbn [mbind option_bind] in *. rewrite Hnum in *.
  destruct prim; try discriminate Hd;
    repeat (match type of Hd with
     | context [String.eqb kind ?k] =>
         let E := fresh in destruct (String.eqb kind k) eqn:E; [apply String.eqb_eq in E as ->|cbn [orb] in Hd; try discriminate Hd]
     end); (eexists; split; [reflexivity|]).
  - unfold non_empty_str in Hd. destruct (as_str value) as [s|]; [|done]. cbn in Hd |- *. destruct (String.eqb s ""); [done|].
    by injection Hd as <-.
  - destruct (parse_bool value) as [b|] eqn:Eb; [|done]. injection Hd as <-. destruct (bool_value value) as [c|] eqn:Ec; [|done].
    by rewrite (parse_bool_value _ _ _ Eb Ec).
  - destruct (literal_binary_bytes lit) as [b|]; [|done]. by injection Hd as <-.
  - apply (temporal_converts value SDate); [|done]. intros s v _. apply date_scalar.
  - apply (temporal_converts value STimestamp); [|done]. intros s v Hs Hv'. by apply timestamp_scalar.
  - apply (temporal_converts value STimestamp); [|done]. intros s v Hs Hv'. by apply timestamp_scalar.
  - apply (temporal_converts value STimestampNtz); [|done]. intros s v Hs Hv'. by apply timestamp_ntz_scalar.
Qed.

(** ** The filter implies its predicate *)

Context {UC : UnicodeCase}.
Variables (columns : list (string * StructField)).
Variables (row : string -> option Value) (other : Json -> option Value).

(** What a row gives an operand: the field a filter column names, a literal, anything
    else as [other] says. *)
Definition delta_operand (node : Json) : option Value :=
  match column_name node ≫= resolve_column columns with
  | Some (name, _) => row name
  | None => match literal_value node with Some v => v | None => other node end
  end.

(** A row of the current snapshot. *)
Definition delta_row_fits : Prop :=
  Forall (fun cf => forall prim x, spark_type cf.2 = SPrimitive prim -> row (spark_name cf.2) = Some x -> fits_spark prim x) columns.

Hypothesis Hrow : delta_row_fits.

Notation dmeans := (means delta_operand value_compare).
Notation dstands := (may_stand row scalar_value).

Lemma delta_resolved col name prim x : resolve_column columns col = Some (name, prim) -> row name = Some x -> fits_spark prim x.
Proof.
  unfold resolve_column. destruct (List.find _ columns) as [[c f]|] eqn:E; [|done]. cbn [mbind option_bind].
  apply List.find_some in E as [E _]. destruct (spark_type f) as [p| | | |] eqn:Et; try done. intros [= <- <-] Hx.
  by apply (proj1 (List.Forall_forall _ _) Hrow (c, f) E).
Qed.

Lemma delta_literal_operand node l : literal_value node = Some l -> delta_operand node = l.
Proof.
  intros H. unfold delta_operand, column_name. rewrite H.
  destruct (ColumnNode.parse node) as [c|] eqn:E; [|done]. apply column_node_type in E. unfold literal_value in H. by rewrite E in H.
Qed.

Lemma delta_column_operand node col name prim :
  column_name node = Some col -> resolve_column columns col = Some (name, prim) -> delta_operand node = row name.
Proof. intros Hc Hr. unfold delta_operand. rewrite Hc. cbn [mbind option_bind]. by rewrite Hr. Qed.

Lemma delta_compare c node col name prim lit d :
  column_name node = Some col -> resolve_column columns col = Some (name, prim) -> literal_to_scalar lit prim = Some d ->
  refines (compare3 value_compare c (delta_operand node) (delta_operand lit)) (eval row scalar_value (PCompare name c d)).
Proof.
  intros Hc Hr Hd. rewrite (delta_column_operand _ _ _ _ Hc Hr). destruct (scalar_converts _ _ _ Hd) as (l & Hl & Hconv).
  rewrite (delta_literal_operand _ _ Hl). apply (compare_refines _ _ (fits_spark prim)); [done|]. intros x. by eapply delta_resolved.
Qed.

Lemma delta_comparison_sound node c t :
  get_str node "type" = Some (node_type c) -> dmeans node t -> dstands (delta_translate_comparison columns node c) t.
Proof.
  intros Hk Ht. unfold delta_translate_comparison, comparison_operands.
  destruct (get node "left") as [l|] eqn:El; [|done]. cbn [mbind option_bind].
  destruct (get node "right") as [r|] eqn:Er; [|done]. cbn [mbind option_bind].
  apply (means_comparison _ _ node c l r t Hk El Er) in Ht as ->.
  assert (forall c' node lit col t, column_name node = Some col -> t = compare3 value_compare c' (delta_operand node) (delta_operand lit) ->
            dstands ('(field_name, prim) ← resolve_column columns col; scalar ← literal_to_scalar lit prim;
                     match c' with NotEqual => None | c' => Some (translated_exact (PCompare field_name c' scalar)) end) t) as Hside.
  { intros c' n lit col t Hcol ->. destruct (resolve_column columns col) as [[name prim]|] eqn:Hr; [|done]. cbn [mbind option_bind].
    destruct (literal_to_scalar lit prim) as [d|] eqn:Hd; [|done]. cbn [mbind option_bind].
    destruct c'; try done; apply stands_exactly; by eapply delta_compare. }
  destruct (column_name l) as [col|] eqn:Ec; [by apply (Hside c l r col)|].
  destruct (column_name r) as [col|] eqn:Ec'; [|done]. cbn [mbind option_bind]. apply (Hside _ r l col); [done|].
  symmetry. apply compare3_swapped. intros. apply value_compare_antisym.
Qed.

Lemma delta_fold_and_sound children ts : Forall2 dstands children ts -> dstands (delta_fold_and children) (all3 ts).
Proof.
  intros H. destruct (and_children row scalar_value children ts H) as [H1 H2]. unfold delta_fold_and.
  destruct (omap _ children) as [|p l] eqn:E; [done|]. split; cbn [predicate exact eval]; auto.
Qed.

Lemma delta_fold_or_sound children ts : Forall2 dstands children ts -> dstands (delta_fold_or children) (any3 ts).
Proof.
  intros H. unfold delta_fold_or. destruct (mapM id children) as [trs|] eqn:Em; [|done]. cbn [mbind option_bind].
  destruct (or_children row scalar_value children trs ts Em H) as [H1 H2]. destruct trs as [|tr trs]; [done|].
  split; cbn [predicate exact eval]; auto.
Qed.

Lemma delta_in_sound node t :
  get_str node "type" = Some "predicate_in_constlist" -> dmeans node t -> dstands (delta_translate_in columns node) t.
Proof.
  intros Hk Ht. unfold delta_translate_in, in_operands, subject_column.
  destruct (get node "expression") as [e|] eqn:Ee; [|done]. cbn [mbind option_bind].
  destruct (column_name e) as [col|] eqn:Ec; [|done]. cbn [mbind option_bind].
  destruct (get node "arguments") as [a|] eqn:Ea; [|done]. cbn [mbind option_bind].
  unfold non_empty. destruct (as_array a) as [l|] eqn:El; [|done]. cbn [mbind option_bind].
  assert (get_array node "arguments" = Some l) as Hl by (unfold get_array; by rewrite Ea).
  apply (means_in _ _ node e l t Hk Ee Hl) in Ht as ->. destruct l as [|a0 l0]; [done|]. cbn [mbind option_bind].
  destruct (resolve_column columns col) as [[name prim]|] eqn:Hr; [|done]. cbn [mbind option_bind].
  apply delta_fold_or_sound. clear Hl El. induction (a0 :: l0) as [|x l' IH]; [constructor|]. cbn [map]. constructor; [|done].
  destruct (literal_to_scalar x prim) as [d|] eqn:Hd; [|done]. apply stands_exactly. by eapply delta_compare.
Qed.

Lemma delta_between_sound node t :
  get_str node "type" = Some "predicate_between" -> dmeans node t -> dstands (delta_translate_between columns node) t.
Proof.
  intros Hk Ht. unfold delta_translate_between, between_operands, subject_column.
  destruct (get node "expression") as [e|] eqn:Ee; [|done]. cbn [mbind option_bind].
  destruct (column_name e) as [col|] eqn:Ec; [|done]. cbn [mbind option_bind].
  destruct (resolve_column columns col) as [[name prim]|] eqn:Hr; [|done]. cbn [mbind option_bind].
  destruct (proj1 (means_range _ _ node e t Hk Ee) Ht) as (low & high & Hlow & Hhigh & Et). subst t. clear Ht.
  assert (forall side c t, bound delta_operand value_compare c (delta_operand e) side t ->
            dstands (d ← side ≫= (fun n => literal_to_scalar n prim); Some (translated_exact (PCompare name c d))) t) as Hside.
  { intros [n|] c t Ht; [|done]. cbn [mbind option_bind]. destruct (literal_to_scalar n prim) as [d|] eqn:Ed; [|done].
    apply stands_exactly. cbn in Ht. subst t. by eapply delta_compare. }
  rewrite <- (and3_true_r high). change (and3 low (and3 high (Some true))) with (all3 [low; high]).
  apply delta_fold_and_sound. repeat constructor; by apply Hside.
Qed.

Lemma delta_members_stand (rec : Json -> option DTranslated) l ts :
  (forall x u, dmeans x u -> dstands (rec x) u) -> Forall2 dmeans l ts -> Forall2 dstands (map rec l) ts.
Proof. intros H F. induction F; constructor; auto. Qed.

Lemma translate_node_sound fuel node t : dmeans node t -> dstands (translate_node_fuel columns fuel node) t.
Proof.
  revert node t. induction fuel as [|fuel IH]; intros node t Ht; [done|]. cbn [translate_node_fuel].
  destruct (get_str node "type") as [kind|] eqn:Hk; [|done]. cbn [mbind option_bind]. cbv zeta.
  destruct (from_node_type kind) as [c|] eqn:Ec; [apply from_node_type_Some in Ec as ->; by apply delta_comparison_sound|].
  destruct (String.eqb_spec kind "predicate_in_constlist") as [->|]; [by apply delta_in_sound|].
  assert (forall e, get node "expression" = Some e -> forall name prim, subject_column node ≫= resolve_column columns = Some (name, prim) ->
            delta_operand e = row name) as Hsubject.
  { intros e Ee name prim. unfold subject_column. rewrite Ee. cbn [mbind option_bind].
    destruct (column_name e) as [col|] eqn:Ecol; [|done]. cbn [mbind option_bind]. by apply delta_column_operand. }
  assert (forall name prim, subject_column node ≫= resolve_column columns = Some (name, prim) -> is_Some (get node "expression")) as Hexpr.
  { intros name prim. unfold subject_column. destruct (get node "expression"); [by eexists|done]. }
  destruct (String.eqb_spec kind "predicate_is_null") as [->|].
  { destruct (subject_column node ≫= resolve_column columns) as [[name prim]|] eqn:Er; [|done]. cbn [mbind option_bind].
    destruct (Hexpr _ _ eq_refl) as [e Ee]. apply (means_is_null _ _ node e t Hk Ee) in Ht as ->.
    rewrite (Hsubject e Ee _ _ eq_refl). by apply stands_exactly; right. }
  destruct (String.eqb_spec kind "predicate_is_not_null") as [->|].
  { destruct (subject_column node ≫= resolve_column columns) as [[name prim]|] eqn:Er; [|done]. cbn [mbind option_bind].
    destruct (Hexpr _ _ eq_refl) as [e Ee]. apply (means_is_not_null _ _ node e t Hk Ee) in Ht as ->.
    rewrite (Hsubject e Ee _ _ eq_refl). by apply stands_exactly; right. }
  destruct (String.eqb_spec kind "predicate_and") as [->|].
  { destruct (operands node) as [l|] eqn:El; [|done]. cbn [mbind option_bind]. apply operands_array in El.
    apply (means_and _ _ node l t Hk El) in Ht as (ts & Hts & ->). apply delta_fold_and_sound, delta_members_stand; auto. }
  destruct (String.eqb_spec kind "predicate_or") as [->|].
  { destruct (operands node) as [l|] eqn:El; [|done]. cbn [mbind option_bind]. apply operands_array in El.
    apply (means_or _ _ node l t Hk El) in Ht as (ts & Hts & ->). apply delta_fold_or_sound, delta_members_stand; auto. }
  destruct (String.eqb_spec kind "predicate_not") as [->|].
  { destruct (get node "expression") as [e|] eqn:Ee; [|done]. cbn [mbind option_bind].
    apply (means_not _ _ node e t Hk Ee) in Ht as (t' & Ht & ->). pose proof (IH e t' Ht) as H.
    destruct (translate_node_fuel columns fuel e) as [tr|]; [|done]. cbn [mbind option_bind].
    destruct (exact tr) eqn:Ex; [|done]. apply stands_exactly, not3_refines. by apply H. }
  destruct (String.eqb_spec kind "predicate_between") as [->|]; [by apply delta_between_sound|done].
Qed.
End Values.

(** C18. Delta file skipping is implied by the filter: where the filter is TRUE on a row
    of the current snapshot, so is the predicate handed to delta-kernel, whatever the
    nodes it drops compute; a literal a column's type cannot hold exactly is dropped,
    never rounded. *)
Theorem delta_predicate_implied {UC : UnicodeCase} {FL : Floats} {IN : Instants} {DS : DeltaScalars} {DL : DeltaScalarLaws DS} {HX : Hex}
    (columns : list (string * StructField)) (row : string -> option Value) (other : Json -> option Value) filter p :
  delta_row_fits columns row -> to_delta_predicate columns filter = Some p ->
  means (delta_operand columns row other) value_compare filter (Some true) -> eval row scalar_value p = Some true.
Proof.
  intros Hrow Hp Ht. unfold to_delta_predicate in Hp.
  pose proof (translate_node_sound columns row other Hrow (json_depth filter) filter (Some true) Ht) as H.
  destruct (translate_node_fuel columns (json_depth filter) filter) as [tr|]; [|done].
  injection Hp as <-. by apply H.
Qed.

Definition no_scalars : DeltaScalars := {| parse_scalar _ _ := None; decimal_try_new v p _ := bool_decide (Z.abs v < 10 ^ Z.of_N p)%Z |}.

Lemma no_scalars_laws : DeltaScalarLaws (FL := coarse_floats) (IN := zero_instants) no_scalars.
Proof. by split. Qed.

Definition order_columns : list (string * StructField) :=
  [("price", MkStructField "price" (SPrimitive (SDecimal 10 2)) true ∅); ("note", MkStructField "note" (SPrimitive SString) true ∅)].

(** price BETWEEN 1.5 AND 1E1 AND note LIKE ... *)
Definition order_filter : Json :=
  json_object [("type", JString "predicate_and"); ("expressions", JArray [
    json_object [("type", JString "predicate_between");
                 ("expression", json_object [("type", JString "column"); ("name", JString "PRICE")]);
                 ("left", json_object [("type", JString "literal_exactnumeric"); ("value", JString "1.5")]);
                 ("right", json_object [("type", JString "literal_double"); ("value", JString "1E1")])];
    json_object [("type", JString "predicate_like")]])].

Definition order_row (column : string) : option Value := if String.eqb column "price" then Some (VNum 250 2) else None.

Lemma delta_predicate_implied_witness :
  eval (FL := coarse_floats) order_row (scalar_value (H := coarse_floats))
    (PAll [PAll [PCompare "price" GreaterEqual (ScDecimal 150 2); PCompare "price" LessEqual (ScDecimal 1000 2)]]) = Some true.
Proof.
  refine (delta_predicate_implied (UC := ascii_case) (DL := no_scalars_laws) (HX := plain_hex)
    order_columns order_row (fun _ => None) order_filter _ _ _ _).
  - repeat constructor; intros prim x [= <-]; [|done]. intros [= <-]. by do 2 eexists.
  - vm_compute. reflexivity.
  - refine (proj2 (means_and _ _ order_filter _ _ eq_refl eq_refl) _). exists [Some true; Some true]. split; [|reflexivity].
    constructor; [eapply means_between; [reflexivity..|vm_compute; reflexivity]|]. constructor; [|constructor].
    by apply means_unfold.
Defined.
