(* ===== verification/DeltaSchema.v ===== *)
(** crates/lakehouse-engine/src/adapter/pushdown/format/delta_schema.rs: the walk
    over a Spark schema that maps each column to a logical field of the scan or
    refuses it, with the recorded type changes and the column-mapping annotations it
    reads on the way. *)

From stdpp Require Import base list strings numbers gmap.
From Stdlib Require Import Ascii String ZArith NArith Lia.
From S2P Require Import Prelude Text Json Serde ExasolType ArrowTypes SparkTypes TypeMapping ExasolRules ScanSpec ColumnNotes.

Local Open Scope string_scope.

(** The metadata keys of the Delta protocol. *)
Definition COLUMN_MAPPING_ID : string := "delta.columnMapping.id".
Definition COLUMN_MAPPING_PHYSICAL_NAME : string := "delta.columnMapping.physicalName".
Definition TYPE_CHANGES_KEY : string := "delta.typeChanges".

(** ** Paths and refusals *)

Definition FieldPath : Type := list string.
Definition path_column (column_name : string) : FieldPath := [column_name].
Definition child (p : FieldPath) (segment : string) : FieldPath := (p ++ [segment])%list.
Definition rendered (p : FieldPath) : string := join "." p.
Definition member_path (p : FieldPath) : option string :=
  if (1 <? List.length p)%nat then Some (rendered p) else None.

Definition ELEMENT_SEGMENT : string := "element".
Definition KEY_SEGMENT : string := "key".
Definition VALUE_SEGMENT : string := "value".

Record Refusal := MkRefusal { refusal_path : option string; cause : string }.

Inductive Walked (T : Type) := Mapped (t : T) | Refused (refusal : Refusal).
Arguments Mapped {T} _.
Arguments Refused {T} _.

Record MappedType := MkMappedType { mt_arrow_type : string; mt_members : option NestedMembers }.
Record MappedField := MkMappedField { mf_arrow_type : string; descriptor : NestedField }.

(** A change's types as logged; [field_path] only below the annotated field. *)
Record RecordedTypeChange := MkTypeChange { from_type : string; to_type : string; change_path : option string }.

Definition applied_to (c : RecordedTypeChange) (annotated : FieldPath) : FieldPath :=
  match change_path c with Some p => child annotated p | None => annotated end.

Definition type_change_cause (from_type to_type : string) : string :=
  "records a 'delta.typeChanges' entry from '" ++ from_type ++ "' to '" ++ to_type
  ++ "', which the Delta protocol's type-widening feature does not support: readers must fail on any unsupported recorded type change".

Definition malformed_type_change (path : FieldPath) (problem : string) : Refusal :=
  MkRefusal (member_path path) ("carries a malformed '" ++ TYPE_CHANGES_KEY ++ "' entry: " ++ problem).

Definition mode_debug (m : ColumnMappingMode) : string :=
  match m with ModeNone => "None" | ModeId => "Id" | ModeName => "Name" end.

Definition unusable_column_mapping (path : FieldPath) (mode : ColumnMappingMode) (problem : string) : Refusal :=
  MkRefusal (member_path path)
    ("carries no usable column-mapping annotation under " ++ mode_debug mode ++ "-mode column mapping: "
     ++ problem ++ ". The Delta protocol requires every field to carry both " ++ COLUMN_MAPPING_ID ++ " and "
     ++ COLUMN_MAPPING_PHYSICAL_NAME
     ++ " in that mode, and substituting an ordinal position or the logical name would bind the scan to a column the writer never wrote").

(** ** Primitives *)

Definition tagged (arrow_type : string) : Walked MappedType := Mapped (MkMappedType arrow_type None).
Definition rendered_container (members : NestedMembers) : Walked MappedType :=
  Mapped (MkMappedType "utf8" (Some members)).
Definition refused_type (path : FieldPath) (cause : string) : Walked MappedType :=
  Refused (MkRefusal (member_path path) cause).

Definition walk_primitive (p : SparkPrimitive) : Walked MappedType :=
  match p with
  | SBoolean => tagged "bool"
  | SByte | SShort | SInteger => tagged "int32"
  | SLong => tagged "int64"
  | SFloat => tagged "float32"
  | SDouble => tagged "float64"
  | SString => tagged "utf8"
  | SDate => tagged "date32"
  | STimestamp => tagged "timestamptz_us"
  | STimestampNtz => tagged "timestamp_us"
  | SVoid | SIntervalYearMonth | SIntervalDayTime => tagged "utf8"
  | SDecimal p s =>
      match Decimal_new p s with
      | Some d => tagged ("decimal128(" ++ show_N (precision d) ++ "," ++ show_N (scale d) ++ ")")
      | None => tagged "utf8"
      end
  | SBinary => tagged "binary"
  end.

(** ** Type changes *)

(** The widenings the protocol lists. *)
Definition delta_widens_decimal (from : N * N) (to : N * N) : bool :=
  widens_decimal (Z.of_N from.1, Z.of_N from.2) (Z.of_N to.1, Z.of_N to.2).

Definition widens (from to : SparkPrimitive) : bool :=
  match from, to with
  | SByte, (SShort | SInteger | SLong) | SShort, (SInteger | SLong) | SInteger, SLong => true
  | SFloat, SDouble => true
  | (SByte | SShort | SInteger), SDouble => true
  | SDate, STimestampNtz => true
  | SDecimal p s, SDecimal p' s' => delta_widens_decimal (p, s) (p', s')
  | (SByte | SShort | SInteger), SDecimal p' s' => delta_widens_decimal (10, 0)%N (p', s')
  | SLong, SDecimal p' s' => delta_widens_decimal (20, 0)%N (p', s')
  | _, _ => false
  end.

Section Walk.
Context {DK : DeltaKernel} {JD : JsonDisplay}.

Definition is_supported_type_change (change : RecordedTypeChange) : bool :=
  match primitive_of_json (from_type change), primitive_of_json (to_type change) with
  | Some from, Some to => widens from to
  | _, _ => false
  end.

Definition required_type_change_string (object : list (string * Json)) (key : string) (path : FieldPath)
    : result Refusal string :=
  match map_get key object with
  | Some (JString value) => Ok value
  | Some other =>
      Err (malformed_type_change path (key ++ " is '" ++ json_to_string other ++ "', which is not a string"))
  | None => Err (malformed_type_change path (key ++ " is absent"))
  end.

Definition parse_type_change_entry (entry : Json) (path : FieldPath) : result Refusal RecordedTypeChange :=
  let? object :=
    ok_or (as_object entry)
      (malformed_type_change path ("entry '" ++ json_to_string entry ++ "' is not a JSON object")) in
  let? from_type := required_type_change_string object "fromType" path in
  let? to_type := required_type_change_string object "toType" path in
  let? field_path :=
    match map_get "fieldPath" object with
    | None => Ok None
    | Some (JString p) => Ok (Some p)
    | Some other =>
        Err (malformed_type_change path ("fieldPath is '" ++ json_to_string other ++ "', which is not a string"))
    end in
  Ok (MkTypeChange from_type to_type field_path).

Definition recorded_type_changes (f : StructField) (path : FieldPath) : result Refusal (list RecordedTypeChange) :=
  match spark_metadata f !! TYPE_CHANGES_KEY with
  | None => Ok []
  | Some (MOther json) =>
      let? entries :=
        ok_or (as_array json)
          (malformed_type_change path
             (TYPE_CHANGES_KEY ++ " is '" ++ json_to_string json ++ "', which is not a JSON list")) in
      try_map (fun entry => parse_type_change_entry entry path) entries
  | Some value =>
      Err (malformed_type_change path
             (TYPE_CHANGES_KEY ++ " is '" ++ metadata_display value ++ "', which is not a JSON list"))
  end.

Definition unsupported_type_change (f : StructField) (path : FieldPath)
    : result Refusal (option RecordedTypeChange) :=
  let? changes := recorded_type_changes f path in
  Ok (List.find (fun c => negb (is_supported_type_change c)) changes).

(** ** Binding keys *)

(** [StructField::column_mapping_id]: the annotation, when it is a number. *)
Definition spark_column_mapping_id (f : StructField) : option Z :=
  match spark_metadata f !! COLUMN_MAPPING_ID with Some (MNumber n) => Some n | _ => None end.

Definition column_mapping_id (f : StructField) (path : FieldPath) (mode : ColumnMappingMode) : result Refusal Z :=
  let? id :=
    ok_or (spark_column_mapping_id f)
      (unusable_column_mapping path mode (COLUMN_MAPPING_ID ++ " is absent or not a number")) in
  if ((- 2 ^ 31 <=? id) && (id <? 2 ^ 31))%Z then Ok id
  else Err (unusable_column_mapping path mode
              (COLUMN_MAPPING_ID ++ " is " ++ show_Z id ++ ", which does not fit the 32-bit field-id the scan binds by")).

Definition column_mapping_physical_name (f : StructField) (path : FieldPath) (mode : ColumnMappingMode)
    : result Refusal string :=
  match spark_metadata f !! COLUMN_MAPPING_PHYSICAL_NAME with
  | Some (MString name) => Ok name
  | Some other =>
      Err (unusable_column_mapping path mode
             (COLUMN_MAPPING_PHYSICAL_NAME ++ " is '" ++ metadata_display other ++ "', which is not a string"))
  | None => Err (unusable_column_mapping path mode (COLUMN_MAPPING_PHYSICAL_NAME ++ " is absent"))
  end.

Definition mapped_column_annotations (f : StructField) (path : FieldPath) (mode : ColumnMappingMode)
    : result Refusal (Z * string) :=
  let? id := column_mapping_id f path mode in
  let? physical_name := column_mapping_physical_name f path mode in
  Ok (id, physical_name).

Definition binding_key (f : StructField) (path : FieldPath) (mode : ColumnMappingMode)
    : result Refusal (option Z * option string) :=
  match mode with
  | ModeNone => Ok (None, None)
  | ModeId => let? (id, _) := mapped_column_annotations f path mode in Ok (Some id, None)
  | ModeName => let? (_, physical_name) := mapped_column_annotations f path mode in Ok (None, Some physical_name)
  end.

(** ** The walk *)

(** [walk_field] on what the walk of the field's type returned. *)
Definition walk_field_with (f : StructField) (path : FieldPath) (mode : ColumnMappingMode)
    (walked : result Refusal (Walked MappedType)) : result Refusal (Walked MappedField) :=
  let? walked := walked in
  match walked with
  | Refused refusal => Ok (Refused refusal)
  | Mapped mapped =>
      let? change := unsupported_type_change f path in
      match change with
      | Some change =>
          Ok (Refused (MkRefusal (member_path (applied_to change path))
                         (type_change_cause (from_type change) (to_type change))))
      | None =>
          let? (field_id, physical_name) := binding_key f path mode in
          Ok (Mapped (MkMappedField (mt_arrow_type mapped)
                        (MkNestedField field_id (spark_name f) physical_name (mt_members mapped))))
      end
  end.

(** The loop over a struct's members: the first refusal is returned at once, the
    first malformed annotation only once every member was walked. *)
Fixpoint walk_members (walk : StructField -> result Refusal (Walked MappedField)) (l : list StructField)
    (fields : list NestedField) (malformed : option Refusal) : result Refusal (Walked MappedType) :=
  match l with
  | [] =>
      match malformed with
      | Some error => Err error
      | None => Ok (rendered_container (NStruct fields))
      end
  | f :: l' =>
      match walk f with
      | Ok (Refused refusal) => Ok (Refused refusal)
      | Ok (Mapped mapped) => walk_members walk l' (fields ++ [descriptor mapped])%list malformed
      | Err error => walk_members walk l' fields (or_else malformed (Some error))
      end
  end.

Fixpoint walk_type (mode : ColumnMappingMode) (t : SparkType) (path : FieldPath) : result Refusal (Walked MappedType) :=
  match t with
  | SPrimitive p => Ok (walk_primitive p)
  | SVariant => Ok (refused_type path variant_cause)
  | SArray element _ =>
      let? walked := walk_type mode element (child path ELEMENT_SEGMENT) in
      match walked with
      | Refused refusal => Ok (Refused refusal)
      | Mapped element => Ok (rendered_container (NList (mt_members element)))
      end
  | SMap key value _ =>
      let key := walk_type mode key (child path KEY_SEGMENT) in
      let value := walk_type mode value (child path VALUE_SEGMENT) in
      match key, value with
      | Ok (Refused refusal), _ => Ok (Refused refusal)
      | _, Ok (Refused refusal) => Ok (Refused refusal)
      | Err malformed, _ => Err malformed
      | _, Err malformed => Err malformed
      | Ok (Mapped key), Ok (Mapped value) => Ok (rendered_container (NMap (mt_members key) (mt_members value)))
      end
  | SStruct fields =>
      walk_members
        (fun f => let path := child path (spark_name f) in
                  walk_field_with f path mode
                    (match f with MkStructField _ t _ _ => walk_type mode t path end))
        fields [] None
  end.

Definition walk_field (mode : ColumnMappingMode) (f : StructField) (path : FieldPath) : result Refusal (Walked MappedField) :=
  walk_field_with f path mode (walk_type mode (spark_type f) path).

Definition refused_column (column : StructField) (cause label : string) : string :=
  label ++ " column '" ++ spark_name column ++ "' " ++ cause.

Definition refused_container_member (column : StructField) (member_path cause label : string) : string :=
  label ++ " column '" ++ spark_name column ++ "' has type '" ++ spark_type_display (spark_type column)
  ++ "', whose member '" ++ member_path ++ "' " ++ cause.

Definition stated_for (r : Refusal) (column : StructField) (label : string) : string :=
  match refusal_path r with
  | Some member_path => refused_container_member column member_path (cause r) label
  | None => refused_column column (cause r) label
  end.

Definition classify_field (mode : ColumnMappingMode) (label : string) (f : StructField) : LogicalField + RefusedColumn :=
  match walk_field mode f (path_column (spark_name f)) with
  | Ok (Refused refusal) | Err refusal =>
      inr (MkRefusedColumn (spark_name f) (stated_for refusal f label))
  | Ok (Mapped mapped) =>
      let d := descriptor mapped in
      inl (MkLogicalField (nested_field_id d) (nested_name d) (mf_arrow_type mapped) (spark_nullable f) None
             (nested_members d) (nested_physical_name d))
  end.

Fixpoint classify_spark_schema (fields : list StructField) (mode : ColumnMappingMode) (label : string)
    : list LogicalField * list RefusedColumn :=
  match fields with
  | [] => ([], [])
  | f :: fields' =>
      let '(logical, refused) := classify_spark_schema fields' mode label in
      match classify_field mode label f with
      | inl field => (field :: logical, refused)
      | inr column => (logical, column :: refused)
      end
  end.
End Walk.

(** ** Binding keys *)

(** The one key a column mapping mode gives a field: none, a field id of 32 bits, or
    a physical name; never two. *)
Definition keyed (mode : ColumnMappingMode) (field_id : option Z) (physical_name : option string) : Prop :=
  match mode with
  | ModeNone => field_id = None /\ physical_name = None
  | ModeId => (exists id, field_id = Some id /\ signed_ok 32 id) /\ physical_name = None
  | ModeName => field_id = None /\ is_Some physical_name
  end.

(** ... of every struct member of a tree. *)
Fixpoint members_keyed (mode : ColumnMappingMode) (m : NestedMembers) : Prop :=
  match m with
  | NList e => match e with None => True | Some m => members_keyed mode m end
  | NStruct fields =>
      foldr (fun f P => (let '(MkNestedField i _ p n) := f in
                         keyed mode i p /\ match n with None => True | Some m => members_keyed mode m end) /\ P)
        True fields
  | NMap k v =>
      match k with None => True | Some m => members_keyed mode m end /\
      match v with None => True | Some m => members_keyed mode m end
  end.

Definition option_keyed (mode : ColumnMappingMode) (o : option NestedMembers) : Prop :=
  match o with None => True | Some m => members_keyed mode m end.

Definition descriptor_keyed (mode : ColumnMappingMode) (f : NestedField) : Prop :=
  keyed mode (nested_field_id f) (nested_physical_name f) /\ option_keyed mode (nested_members f).

Lemma struct_keyed mode fields : members_keyed mode (NStruct fields) <-> Forall (descriptor_keyed mode) fields.
Proof.
  induction fields as [|[i n p m] fields IH]; [by split|]. cbn [members_keyed foldr] in *.
  rewrite Forall_cons, <- IH. unfold descriptor_keyed, option_keyed. cbn. tauto.
Qed.

Section Keys.
Context {DK : DeltaKernel} {JD : JsonDisplay}.
Variable mode : ColumnMappingMode.

Lemma binding_key_keyed f path i p : binding_key f path mode = Ok (i, p) -> keyed mode i p.
Proof.
  unfold binding_key, mapped_column_annotations, column_mapping_id. destruct mode; [by intros [= <- <-]|..];
    (destruct (spark_column_mapping_id f) as [id|]; [|done]); cbn [ok_or];
    (destruct (_ && _)%bool eqn:E; [|done]);
    (destruct (column_mapping_physical_name _ _ _) as [n|]; [|done]); intros [= <- <-]; cbn.
  - apply andb_prop in E as [E1%Z.leb_le E2%Z.ltb_lt]. split; [|done]. exists id. by split; [|split].
  - split; [done|]. by exists n.
Qed.

Lemma walk_field_with_keyed f path w m :
  (forall t, w = Ok (Mapped t) -> option_keyed mode (mt_members t)) ->
  walk_field_with f path mode w = Ok (Mapped m) -> descriptor_keyed mode (descriptor m).
Proof.
  intros Hw. unfold walk_field_with. destruct w as [[t|]|]; try done. specialize (Hw t eq_refl).
  destruct (unsupported_type_change f path) as [[]|]; try done.
  destruct (binding_key f path mode) as [[i p]|] eqn:E; [|done]. intros [= <-].
  split; cbn; [by eapply binding_key_keyed|done].
Qed.

Lemma walk_members_keyed walk l fields malformed m :
  (forall f d, f ∈ l -> walk f = Ok (Mapped d) -> descriptor_keyed mode (descriptor d)) ->
  Forall (descriptor_keyed mode) fields ->
  walk_members walk l fields malformed = Ok (Mapped m) -> option_keyed mode (mt_members m).
Proof.
  revert fields malformed. induction l as [|f l IH]; intros fields malformed Hwalk Hall; cbn [walk_members].
  - destruct malformed; [done|]. intros [= <-]. cbn. by apply struct_keyed.
  - destruct (walk f) as [[d|]|] eqn:E.
    + apply IH; [set_solver|]. apply Forall_app. split; [done|]. constructor; [|constructor].
      apply (Hwalk f); [set_solver|done].
    + by intros.
    + apply IH; [set_solver|done].
Qed.

Lemma walk_type_keyed t path m : walk_type mode t path = Ok (Mapped m) -> option_keyed mode (mt_members m).
Proof.
  revert path m. induction t as [p|e b IH|fields IH|k v b IHk IHv|] using spark_type_ind'; intros path m; cbn [walk_type].
  - destruct p; cbn [walk_primitive]; try (by intros [= <-]). by destruct (Decimal_new _ _); intros [= <-].
  - destruct (walk_type mode e _) as [[t|]|] eqn:E; try done. intros [= <-]. by apply IH in E.
  - rewrite Forall_forall in IH. apply walk_members_keyed; [|constructor].
    intros [n t b md] d Hin. cbn. apply walk_field_with_keyed. intros t' Et. by apply (IH _ Hin) in Et.
  - destruct (walk_type mode k _) as [[tk|]|] eqn:Ek; [|done|];
      destruct (walk_type mode v _) as [[tv|]|] eqn:Ev; try done.
    intros [= <-]. cbn. split; [by apply IHk in Ek|by apply IHv in Ev].
  - done.
Qed.

(** Each column the walk maps carries exactly the binding key its mapping mode
    selects, a 32-bit field id or a physical name or neither, and so does every
    struct member at any depth; no field ever carries two. *)
Theorem classified_binding_keys fields label logical refused :
  classify_spark_schema fields mode label = (logical, refused) ->
  Forall (fun f => keyed mode (lf_field_id f) (lf_physical_name f) /\
                   (forall m, lf_nested f = Some m -> members_keyed mode m)) logical.
Proof.
  revert logical refused. induction fields as [|f fields IH]; intros logical refused; cbn; [by intros [= <- <-]|].
  destruct (classify_spark_schema fields mode label) as [l r] eqn:E. specialize (IH l r eq_refl).
  unfold classify_field, walk_field. destruct (walk_field_with _ _ _ _) as [[d|]|] eqn:Ed; intros [= <- <-]; try done.
  constructor; [|done]. apply walk_field_with_keyed in Ed as [H1 H2]; [|intros t; apply walk_type_keyed].
  split; [done|]. cbn. intros m Em. by rewrite Em in H2.
Qed.
End Keys.

(** ** Every column is mapped or refused *)

Section Classified.
Context {DK : DeltaKernel} {JD : JsonDisplay}.

Lemma walk_field_name mode f path m : walk_field mode f path = Ok (Mapped m) -> nested_name (descriptor m) = spark_name f.
Proof.
  unfold walk_field, walk_field_with. destruct (walk_type _ _ _) as [[t|]|]; try done.
  destruct (unsupported_type_change f path) as [[]|]; try done.
  destruct (binding_key f path mode) as [[i p]|]; [|done]. by intros [= <-].
Qed.

(** No column is lost and none is in both lists: under their names, the mapped and
    the refused columns are the schema's columns, each list in the schema's order. *)
Theorem classified_columns_complete fields mode label :
  let '(logical, refused) := classify_spark_schema fields mode label in
  (map lf_name logical ++ map column_name refused)%list ≡ₚ map spark_name fields /\
  map lf_name logical `sublist_of` map spark_name fields /\
  map column_name refused `sublist_of` map spark_name fields.
Proof.
  induction fields as [|f fields IH]; cbn; [by repeat split|].
  destruct (classify_spark_schema fields mode label) as [l r]. destruct IH as (Hp & Hl & Hr).
  unfold classify_field. destruct (walk_field mode f _) as [[d|]|] eqn:E; cbn.
  - rewrite (walk_field_name _ _ _ _ E). rewrite Hp. split; [done|]. split; [by apply sublist_skip|by apply sublist_cons].
  - rewrite <- Permutation_middle, Hp. split; [done|]. split; [by apply sublist_cons|by apply sublist_skip].
  - rewrite <- Permutation_middle, Hp. split; [done|]. split; [by apply sublist_cons|by apply sublist_skip].
Qed.

(** ** Refusals *)

Fixpoint contains_variant (t : SparkType) : bool :=
  match t with
  | SPrimitive _ => false
  | SVariant => true
  | SArray e _ => contains_variant e
  | SMap k v _ => contains_variant k || contains_variant v
  | SStruct fields => existsb (fun f => let '(MkStructField _ t _ _) := f in contains_variant t) fields
  end.

Lemma walk_members_refused walk l fields malformed f r :
  f ∈ l -> walk f = Ok (Refused r) -> exists r', walk_members walk l fields malformed = Ok (Refused r').
Proof.
  revert fields malformed. induction l as [|g l IH]; intros fields malformed Hin Hf; [by apply elem_of_nil in Hin|].
  cbn [walk_members]. destruct (walk g) as [[d|r']|e] eqn:Eg.
  - apply elem_of_cons in Hin as [->|Hin]; [congruence|]. by apply IH.
  - by exists r'.
  - apply elem_of_cons in Hin as [->|Hin]; [congruence|]. by apply IH.
Qed.

(** A type with a [variant] anywhere inside is refused for that type, whatever
    annotations its other members carry or lack. *)
Theorem variant_refused mode t path :
  contains_variant t = true -> exists refusal, walk_type mode t path = Ok (Refused refusal).
Proof.
  revert path. induction t as [p|e b IH|fields IH|k v b IHk IHv|] using spark_type_ind'; intros path Hc;
    cbn [contains_variant walk_type] in *.
  - done.
  - destruct (IH (child path ELEMENT_SEGMENT) Hc) as [r ->]. by exists r.
  - apply existsb_exists in Hc as ([n t b m] & Hin & Ht). apply list_elem_of_In in Hin.
    rewrite Forall_forall in IH.
    destruct (IH _ Hin (child path n) Ht) as [r Hr].
    eapply walk_members_refused; [exact Hin|]. cbn in *. by rewrite Hr.
  - apply orb_true_iff in Hc as [Hc|Hc].
    + destruct (IHk (child path KEY_SEGMENT) Hc) as [r ->]. by exists r.
    + destruct (IHv (child path VALUE_SEGMENT) Hc) as [r ->].
      destruct (walk_type mode k _) as [[]|]; by eexists.
  - by eexists.
Qed.

(** ** Type changes and the scan's widening *)

Definition walked_arrow_type (p : SparkPrimitive) : option DataType :=
  match walk_primitive p with
  | Mapped m => Some (arrow_type_from_tag (mt_arrow_type m))
  | Refused _ => None
  end.

(** A decimal Exasol has no type for is read as text instead. *)
Definition in_exasol_domain (p : SparkPrimitive) : Prop :=
  match p with SDecimal p s => is_Some (Decimal_new p s) | _ => True end.

Lemma decimal_walked p s d :
  Decimal_new p s = Some d -> walked_arrow_type (SDecimal p s) = Some (TDecimal128 (Z.of_N p) (Z.of_N s)).
Proof.
  intros E. unfold walked_arrow_type. cbn [walk_primitive]. rewrite E.
  pose proof E as E'. unfold Decimal_new in E'. destruct (_ && _)%bool eqn:B; [|done]. injection E' as <-.
  cbn [tagged mt_arrow_type precision scale]. unfold MAX_DECIMAL_PRECISION in B.
  rewrite !andb_true_iff, !N.leb_le in B.
  pose proof (decimal_tag_read (Z.of_N p) (Z.of_N s) ltac:(lia) ltac:(lia)) as H.
  unfold show_Z in H. rewrite !(proj2 (Z.ltb_ge _ _)) in H by lia. rewrite !N2Z.id in H. by rewrite H.
Qed.

Lemma widen_to a b : a = b \/ widens_to a b = true -> widen a b = Some b.
Proof.
  unfold widen. intros [->|H]; [by rewrite decide_True|]. destruct (decide (a = b)) as [->|]; [done|]. by rewrite H.
Qed.

(** Every type change the Delta reader accepts, into a type Exasol represents, is
    one the scan widens a file's column through: a file written before the change is
    read as the table's current type. *)
Theorem accepted_type_change_widens from to a b :
  widens from to = true -> in_exasol_domain from -> in_exasol_domain to ->
  walked_arrow_type from = Some a -> walked_arrow_type to = Some b -> widen a b = Some b.
Proof.
  intros Hw Hf Ht Ha Hb.
  destruct from, to; try done; cbn [in_exasol_domain] in *;
    repeat match goal with
    | H : is_Some (Decimal_new _ _) |- _ =>
        let d := fresh "d" in let E := fresh "E" in
        destruct H as [d E]; apply decimal_walked in E
    end;
    repeat match goal with
    | H : walked_arrow_type ?x = Some ?t, H' : walked_arrow_type ?x = Some ?u |- _ =>
        rewrite H in H'; injection H' as H'; subst u; clear H
    end;
    repeat match goal with
    | H : walked_arrow_type _ = Some _ |- _ => vm_compute in H; injection H as H; subst
    end;
    apply widen_to; try (by left); right; try reflexivity; exact Hw.
Qed.
End Classified.

(** ** Concrete runs *)

Definition mapped_field (name : string) (id : Z) (t : SparkType) : StructField :=
  MkStructField name t true
    (list_to_map [(COLUMN_MAPPING_ID, MNumber id); (COLUMN_MAPPING_PHYSICAL_NAME, MString ("col-" ++ name))]).

(** A mapped table: a nested column, and one the engine refuses. *)
Definition sample_schema : list StructField :=
  [mapped_field "point" 1 (SStruct [mapped_field "x" 2 (SPrimitive SDouble); mapped_field "y" 3 (SPrimitive SDouble)]);
   mapped_field "any" 4 (SArray SVariant true)].

Definition sample_logical : list LogicalField :=
  [MkLogicalField (Some 1%Z) "point" "utf8" true None
     (Some (NStruct [MkNestedField (Some 2%Z) "x" None None; MkNestedField (Some 3%Z) "y" None None])) None].

Lemma classified_binding_keys_witness :
  Forall (fun f => keyed ModeId (lf_field_id f) (lf_physical_name f)) sample_logical.
Proof.
  refine (Forall_impl _ _ _ (classified_binding_keys (DK := plain_kernel) (JD := scalar_display) ModeId sample_schema "Delta" sample_logical
    [MkRefusedColumn "any" ("Delta column 'any' has type '', whose member 'any.element' " ++ variant_cause)] _) _).
  - vm_compute. reflexivity.
  - by intros f [H _].
Defined.

Lemma variant_refused_witness :
  exists refusal, walk_type (DK := plain_kernel) (JD := scalar_display) ModeName (SMap (SPrimitive SString) (SArray SVariant true) true) ["c"]
                  = Ok (Refused refusal).
Proof. apply (variant_refused (DK := plain_kernel) (JD := scalar_display)). reflexivity. Defined.

Lemma accepted_type_change_widens_witness :
  widen TInt32 (TDecimal128 12 2) = Some (TDecimal128 12 2).
Proof.
  apply (accepted_type_change_widens SShort (SDecimal 12 2)); try reflexivity; try exact I.
  exists (MkDecimal 12 2). reflexivity.
Defined.
