(* ===== verification/ColumnBinding.v ===== *)
(** crates/lakehouse-engine/src/scan/field_id_projection.rs, the binding of a data
    file's columns to the table's logical columns: by field id, by declared physical
    name, by name mapping, by identity, and last by letter case; what a bound column
    is renamed to, which columns a file refuses, and the defaults of absent ones. *)

From stdpp Require Import base list strings numbers gmap sorting.
From Stdlib Require Import Ascii String ZArith NArith Lia.
From S2P Require Import Prelude Text ArrowTypes TypeMapping ExasolRules ScanSpec.

Local Open Scope string_scope.

(** [parquet]'s metadata key. *)
Definition PARQUET_FIELD_ID_META_KEY : string := "PARQUET:field_id".

Definition field_id_of (f : Field) : option Z :=
  v ← field_metadata f !! PARQUET_FIELD_ID_META_KEY; parse_i32 v.

(** ** Claims *)

Record BindingKeys := MkBindingKeys {
  key_name : string;
  key_field_id : option Z;
  key_physical_name : option string;
}.

Definition binds_by_identity (k : BindingKeys) : bool :=
  match key_field_id k, key_physical_name k with None, None => true | _, _ => false end.

Record PhysicalKeys := MkPhysicalKeys {
  phys_name : string;
  embedded_id : option Z;
  mapped_field_id : option Z;
}.

Definition with_field_id (logical : list BindingKeys) (wanted : Z) : option nat :=
  position (fun k => bool_decide (key_field_id k = Some wanted)) logical.

Definition claim_logical (physical : PhysicalKeys) (logical : list BindingKeys) : option nat :=
  or_else (embedded_id physical ≫= with_field_id logical)
    (or_else (position (fun k => bool_decide (key_physical_name k = Some (phys_name physical))) logical)
       (or_else (mapped_field_id physical ≫= with_field_id logical)
          (position (fun k => binds_by_identity k && String.eqb (key_name k) (phys_name physical)) logical))).

(** The source's NUL-led text, which no catalog declares. *)
Definition UNBOUND_PREFIX : string := String "000" "unbound:".

(** One field id at any depth. *)
Fixpoint type_carries_field_ids (t : DataType) : bool :=
  let field_carries (f : Field) : bool :=
    bool_decide (is_Some (field_id_of f)) || match f with MkField _ t _ _ => type_carries_field_ids t end in
  match t with
  | TStruct children => existsb field_carries children
  | TList element | TLargeList element | TFixedSizeList element _ | TMap element _ => field_carries element
  | _ => false
  end.

Definition carries_field_ids (fields : list Field) : bool :=
  existsb (fun f => bool_decide (is_Some (field_id_of f)) || type_carries_field_ids (field_type f)) fields.

(** ** Letter case *)

Record AmbiguousFold := MkAmbiguousFold { fold_logical : list string; fold_physical : list string }.

Definition ambiguous_fold_display (a : AmbiguousFold) : string :=
  let quoted names := join ", " (map (fun n => "'" ++ n ++ "'") names) in
  "table columns " ++ quoted (fold_logical a) ++ " and file columns " ++ quoted (fold_physical a)
  ++ " are equal only ignoring letter case".

(** [BTreeMap<String, (Vec<usize>, Vec<usize>)>]. *)
Notation Groups := (gmap string (list nat * list nat)).

(** [groups.entry(key).or_default()], then the update. *)
Definition group_update (key : string) (update : list nat * list nat -> list nat * list nat) (g : Groups) : Groups :=
  <[key := update (default ([], []) (g !! key))]> g.

Definition group_le (a b : string * (list nat * list nat)) : Prop := String.leb a.1 b.1 = true.

#[export] Instance group_le_dec : RelDecision group_le.
Proof. intros a b. unfold group_le. apply _. Defined.

(** [into_values], in key order. *)
Definition into_values (g : Groups) : list (list nat * list nat) := map snd (merge_sort group_le (map_to_list g)).

Definition push_physical (index : nat) (v : list nat * list nat) : list nat * list nat := ((v.1 ++ [index])%list, v.2).
Definition push_logical (index : nat) (v : list nat * list nat) : list nat * list nat := (v.1, (v.2 ++ [index])%list).

Section Fold.
Context {UC : UnicodeCase}.

Fixpoint group_physical (index : nat) (fields : list string) (exact : list (option nat)) (g : Groups) : Groups :=
  match fields, exact with
  | f :: fields', claim :: exact' =>
      let g := match claim with
               | None => group_update (to_uppercase f) (push_physical index) g
               | Some _ => g
               end in
      group_physical (S index) fields' exact' g
  | _, _ => g
  end.

Fixpoint group_logical (index : nat) (logical : list BindingKeys) (exact : list (option nat)) (g : Groups) : Groups :=
  match logical with
  | [] => g
  | k :: logical' =>
      let g := if binds_by_identity k && negb (bool_decide (Some index ∈ exact))
               then group_update (to_uppercase (key_name k)) (push_logical index) g else g in
      group_logical (S index) logical' exact g
  end.

Definition fold_groups (physical : list string) (logical : list BindingKeys) (exact : list (option nat)) : Groups :=
  group_logical 0 logical exact (group_physical 0 physical exact ∅).

(** The loop over the groups: one spelling on either side binds, several are
    ambiguous, none is nothing. *)
Fixpoint settle (g : list (list nat * list nat)) (physical : list string) (logical : list BindingKeys)
    (claims : list (option nat)) (ambiguous : list AmbiguousFold) : list (option nat) * list AmbiguousFold :=
  match g with
  | [] => (claims, ambiguous)
  | (physical_indices, logical_indices) :: g' =>
      match physical_indices, logical_indices with
      | [], _ | _, [] => settle g' physical logical claims ambiguous
      | [p], [l] => settle g' physical logical (<[p := Some l]> claims) ambiguous
      | _, _ =>
          let fold :=
            MkAmbiguousFold (omap (fun l => key_name <$> logical !! l) logical_indices)
                            (omap (fun p => physical !! p) physical_indices) in
          settle g' physical logical claims (ambiguous ++ [fold])%list
      end
  end.

Definition claim_by_case_fold (physical : list string) (logical : list BindingKeys) (exact : list (option nat))
    : list (option nat) * list AmbiguousFold :=
  if forallb (fun c => bool_decide (is_Some c)) exact || negb (existsb binds_by_identity logical)
  then (exact, [])
  else settle (into_values (fold_groups physical logical exact)) physical logical exact [].
End Fold.

(** ** Nested members *)

(** A resolution follows the file's own type: a member that resolves verbatim is the
    file's member, a struct slot names the file's member that fills it. *)
Inductive NestedResolution : Type :=
| MkResolution (field : Field) (members : ResolvedMembers)
with ResolvedMembers : Type :=
| Verbatim
| RStruct (slots : list (option nat * NestedResolution))
| RElement (element : NestedResolution)
| REntries (key value : NestedResolution).

Definition resolved_field (r : NestedResolution) : Field := let '(MkResolution f _) := r in f.
Definition resolved_members (r : NestedResolution) : ResolvedMembers := let '(MkResolution _ m) := r in m.

Definition verbatim (physical : Field) : NestedResolution := MkResolution physical Verbatim.

Definition mapping_entry (mapping : list NameMappingEntry) (name : string) : option NameMappingEntry :=
  List.find (fun e => existsb (fun candidate => String.eqb candidate name) (mapping_names e)) mapping.

Definition mapped (mapping : list NameMappingEntry) (name : string) : list NameMappingEntry :=
  match mapping_entry mapping name with Some e => mapping_fields e | None => [] end.

Definition nested_keys (f : NestedField) : BindingKeys :=
  MkBindingKeys (nested_name f) (nested_field_id f) (nested_physical_name f).

Definition physical_keys (mapping : list NameMappingEntry) (f : Field) : PhysicalKeys :=
  MkPhysicalKeys (field_name f) (field_id_of f) (mapping_field_id <$> mapping_entry mapping (field_name f)).

(** The first loop of [claim_struct_slots]: the member that claims each slot; a slot
    claimed once keeps its first member. *)
Fixpoint claim_slots (index : nat) (children : list Field) (keys : list BindingKeys)
    (mapping : list NameMappingEntry) (claimed : list (option nat)) : list (option nat) :=
  match children with
  | [] => claimed
  | c :: children' =>
      let claimed :=
        match claim_logical (physical_keys mapping c) keys with
        | Some slot =>
            match claimed !! slot with
            | Some None => <[slot := Some index]> claimed
            | _ => claimed
            end
        | None => claimed
        end in
      claim_slots (S index) children' keys mapping claimed
  end.

(** The recursion descends the declared members; the inner loop is the second of
    [claim_struct_slots], over the slots and the members that claimed them. *)
Fixpoint resolve_nested_field (members : NestedMembers) (physical : Field) (mapping : list NameMappingEntry)
    : NestedResolution :=
  let resolve_member (o : option NestedMembers) (f : Field) (mapping : list NameMappingEntry) : NestedResolution :=
    match o with
    | Some members => resolve_nested_field members f mapping
    | None => verbatim f
    end in
  let resolve_slots (fields : list NestedField) (children : list Field) (sources : list (option nat)) :=
    (fix go (fields : list NestedField) (sources : list (option nat)) :=
       match fields, sources with
       | f :: fields', source :: sources' =>
           let resolution :=
             match source ≫= (fun index => children !! index) with
             | Some c =>
                 let resolved :=
                   match f with
                   | MkNestedField _ _ _ nested => resolve_member nested c (mapped mapping (field_name c))
                   end in
                 MkResolution (with_name (resolved_field resolved) (nested_name f)) (resolved_members resolved)
             | None => verbatim (MkField (nested_name f) TNull true ∅)
             end in
           (source, resolution) :: go fields' sources'
       | _, _ => []
       end) fields sources in
  match field_type physical, members with
  | TStruct children, NStruct fields =>
      let sources :=
        claim_slots 0 children (map nested_keys fields) mapping (replicate (List.length fields) None) in
      let slots := resolve_slots fields children sources in
      MkResolution (with_data_type physical (TStruct (map (fun s => resolved_field s.2) slots))) (RStruct slots)
  | TList element, NList inner =>
      let element := resolve_member inner element (mapped mapping "element") in
      MkResolution (with_data_type physical (TList (resolved_field element))) (RElement element)
  | TLargeList element, NList inner =>
      let element := resolve_member inner element (mapped mapping "element") in
      MkResolution (with_data_type physical (TLargeList (resolved_field element))) (RElement element)
  | TFixedSizeList element size, NList inner =>
      let element := resolve_member inner element (mapped mapping "element") in
      MkResolution (with_data_type physical (TFixedSizeList (resolved_field element) size)) (RElement element)
  | TMap entries sorted, NMap key value =>
      match field_type entries with
      | TStruct [k; v] =>
          let key := resolve_member key k (mapped mapping "key") in
          let value := resolve_member value v (mapped mapping "value") in
          let resolved_entries := with_data_type entries (TStruct [resolved_field key; resolved_field value]) in
          MkResolution (with_data_type physical (TMap resolved_entries sorted)) (REntries key value)
      | _ => verbatim physical
      end
  | _, _ => verbatim physical
  end.

(** ** Which stored types a declared type admits *)

(** [TimeUnit]'s order, coarsest first. *)
Definition unit_rank (u : TimeUnit) : nat :=
  match u with USecond => 0 | UMillisecond => 1 | UMicrosecond => 2 | UNanosecond => 3 end.

Definition is_string (t : DataType) : bool :=
  match t with TUtf8 | TLargeUtf8 | TUtf8View => true | _ => false end.

Definition is_dictionary (t : DataType) : bool := match t with TDictionary _ _ => true | _ => false end.

Definition admits_timestamp (physical logical : DataType) : bool :=
  match physical, logical with
  | TTimestamp physical_unit physical_zone, TTimestamp logical_unit logical_zone =>
      let shifts_instant :=
        match logical_zone, physical_zone with
        | None, Some zone => negb (String.eqb zone "UTC" || String.eqb zone "+00:00")
        | _, _ => false
        end in
      (unit_rank physical_unit <=? unit_rank logical_unit)%nat && negb shifts_instant
  | _, _ => false
  end.

Definition admits_as_text (physical logical : DataType) : bool :=
  is_string logical
  && (is_string physical
      || (negb (is_nested physical) && negb (is_dictionary physical) && needs_json_fallback physical)).

Fixpoint admits (physical logical : DataType) : bool :=
  bool_decide (physical = TNull)
  || bool_decide (widen physical logical = Some logical)
  || admits_timestamp physical logical
  || admits_as_text physical logical
  || (bool_decide (logical = TBinary) && is_binary physical)
  || match physical with TDictionary _ value => admits value logical | _ => false end.

(** ** The table's side *)

Definition build_logical_arrow_schema (logical_schema : list LogicalField) : list Field :=
  map (fun lf =>
         MkField (lf_name lf) (arrow_type_from_tag (lf_arrow_type lf)) (lf_nullable lf)
           (match lf_field_id lf with
            | Some field_id => {[ PARQUET_FIELD_ID_META_KEY := show_Z field_id ]}
            | None => ∅
            end))
    logical_schema.

Section Defaults.
(** [str::parse] of the floating types, to their bits, and [DataType]'s display. *)
Variable parse_f32 parse_f64 : string -> option Z.
Variable type_display : DataType -> string.

Definition parse_bool (s : string) : option bool :=
  if String.eqb s "true" then Some true else if String.eqb s "false" then Some false else None.

Definition reconstruct_initial_default (tag encoded : string) : result string ScalarValue :=
  let parsed {A} (o : option A) : result string A :=
    ok_or o ("initial-default '" ++ encoded ++ "' is not a valid value for arrow type tag '" ++ tag ++ "'") in
  let t := arrow_type_from_tag tag in
  match t with
  | TBoolean => let? b := parsed (parse_bool encoded) in Ok (SvBoolean b)
  | TInt32 | TDate32 => let? z := parsed (parse_signed 32 encoded) in Ok (SvInteger t z)
  | TInt64 => let? z := parsed (parse_signed 64 encoded) in Ok (SvInteger t z)
  | TFloat32 => let? f := parsed (parse_f32 encoded) in Ok (SvFloat t f)
  | TFloat64 => let? f := parsed (parse_f64 encoded) in Ok (SvFloat t f)
  | TUtf8 => Ok (SvText t encoded)
  | TTimestamp UMicrosecond _ | TTimestamp UNanosecond _ =>
      let? z := parsed (parse_signed 64 encoded) in Ok (SvInteger t z)
  | TDecimal128 _ _ => let? z := parsed (parse_signed 128 encoded) in Ok (SvInteger t z)
  | other =>
      Err ("initial-default reconstruction unsupported for arrow type '" ++ type_display other
           ++ "' (tag '" ++ tag ++ "')")
  end.

(** [collect] into a map: the first failure, else the last value of a name. *)
Fixpoint reconstruct_initial_defaults (logical_schema : list LogicalField) (acc : gmap string ScalarValue)
    : result string (gmap string ScalarValue) :=
  match logical_schema with
  | [] => Ok acc
  | lf :: rest =>
      match lf_initial_default lf with
      | None => reconstruct_initial_defaults rest acc
      | Some encoded =>
          let? value := reconstruct_initial_default (lf_arrow_type lf) encoded in
          reconstruct_initial_defaults rest (<[lf_name lf := value]> acc)
      end
  end.

Definition index_declared_physical_names (logical_schema : list LogicalField) : gmap string string :=
  fold_left (fun m lf => match lf_physical_name lf with Some p => <[p := lf_name lf]> m | None => m end)
    logical_schema ∅.

Definition index_nested_members (logical_schema : list LogicalField) : gmap string NestedMembers :=
  fold_left (fun m lf => match lf_nested lf with Some n => <[lf_name lf := n]> m | None => m end)
    logical_schema ∅.

Record FieldIdResolution := MkFieldIdResolution {
  name_mapping : list NameMappingEntry;
  declared_physical_names : gmap string string;
  defaults : gmap string ScalarValue;
  nested_by_name : gmap string NestedMembers;
}.

Definition for_logical_schema (logical_schema : list LogicalField) (mapping : list NameMappingEntry)
    : result string FieldIdResolution :=
  let? defaults := reconstruct_initial_defaults logical_schema ∅ in
  Ok (MkFieldIdResolution mapping (index_declared_physical_names logical_schema) defaults
        (index_nested_members logical_schema)).
End Defaults.

(** ** A file's side *)

Record ColumnBinding := MkColumnBinding {
  renamed_physical : list Field;
  bound_logical_names : gset string;
  nested : gmap string NestedResolution;
  ambiguous_folds : list AmbiguousFold;
}.

Section Bind.
Context {UC : UnicodeCase}.

(** The inverse of [declared_physical_names]. *)
Definition declared_physical_by_logical (declared : gmap string string) : gmap string string :=
  list_to_map (map (fun '(physical, logical) => (logical, physical)) (map_to_list declared)).

Definition logical_keys (logical : list Field) (resolution : FieldIdResolution) : list BindingKeys :=
  let declared := declared_physical_by_logical (declared_physical_names resolution) in
  map (fun f => MkBindingKeys (field_name f) (field_id_of f) (declared !! field_name f)) logical.

Definition applicable_mapping (physical : list Field) (resolution : FieldIdResolution) : list NameMappingEntry :=
  if carries_field_ids physical then [] else name_mapping resolution.

(** The last entry of a name wins. *)
Definition mapping_by_physical_name (mapping : list NameMappingEntry) (name : string) : option NameMappingEntry :=
  List.find (fun e => existsb (fun n => String.eqb n name) (mapping_names e)) (reverse mapping).

Definition exact_claims (physical : list Field) (keys : list BindingKeys) (mapping : list NameMappingEntry) : list (option nat) :=
  map (fun f =>
         claim_logical
           (MkPhysicalKeys (field_name f) (field_id_of f)
              (mapping_field_id <$> mapping_by_physical_name mapping (field_name f))) keys)
    physical.

Definition claims_of (logical physical : list Field) (resolution : FieldIdResolution)
    : list (option nat) * list AmbiguousFold :=
  let keys := logical_keys logical resolution in
  let mapping := applicable_mapping physical resolution in
  claim_by_case_fold (map field_name physical) keys (exact_claims physical keys mapping).

(** One column: the name it is read under. An unclaimed column that bears a logical
    name is moved out of the logical names. *)
Definition rename_column (keys : list BindingKeys) (f : Field) (claimed : option nat) : Field :=
  match claimed ≫= (fun index => key_name <$> keys !! index) with
  | None =>
      if existsb (fun k => String.eqb (key_name k) (field_name f)) keys
      then with_name f (UNBOUND_PREFIX ++ field_name f) else f
  | Some logical_name => if String.eqb logical_name (field_name f) then f else with_name f logical_name
  end.

Definition resolve_column (keys : list BindingKeys) (mapping : list NameMappingEntry) (resolution : FieldIdResolution)
    (acc : gmap string NestedResolution) (column : Field * option nat) : gmap string NestedResolution :=
  let '(f, claimed) := column in
  match claimed ≫= (fun index => key_name <$> keys !! index) with
  | None => acc
  | Some logical_name =>
      match nested_by_name resolution !! logical_name with
      | Some members =>
          let fields :=
            match mapping_by_physical_name mapping (field_name f) with Some e => mapping_fields e | None => [] end in
          <[logical_name := resolve_nested_field members f fields]> acc
      | None => acc
      end
  end.

Definition bind_columns (logical physical : list Field) (resolution : FieldIdResolution) : ColumnBinding :=
  let keys := logical_keys logical resolution in
  let mapping := applicable_mapping physical resolution in
  let '(claims, ambiguous) := claims_of logical physical resolution in
  let renamed := zip_with (rename_column keys) physical claims in
  let supplied : gset string := list_to_set (map field_name renamed) in
  let bound : gset string := list_to_set (List.filter (fun n => bool_decide (n ∈ supplied)) (map field_name logical)) in
  MkColumnBinding renamed bound
    (fold_left (resolve_column keys mapping resolution) (zip physical claims) ∅) ambiguous.

Definition ensure_unambiguous (b : ColumnBinding) (table_root : string) : result string unit :=
  match ambiguous_folds b with
  | [] => Ok tt
  | folds =>
      Err ("cannot bind the columns of a data file of the table at '" ++ table_root ++ "' by letter case: "
           ++ join "; " (map ambiguous_fold_display folds) ++ ", so none of them binds")
  end.

Record RefusedRead := MkRefusedRead { read_name : string; read_logical : DataType; read_physical : DataType }.

(** The first file column of a name. *)
Definition physical_by_name (b : ColumnBinding) (name : string) : option Field :=
  List.find (fun f => String.eqb (field_name f) name) (renamed_physical b).

Definition renders_json (b : ColumnBinding) (name : string) : bool :=
  match nested b !! name with
  | Some r => needs_nested_json_rendering (field_type (resolved_field r))
  | None => false
  end.

Definition refused_read (b : ColumnBinding) (f : Field) : option RefusedRead :=
  if renders_json b (field_name f) then None
  else p ← physical_by_name b (field_name f);
       if admits (field_type p) (field_type f) then None
       else Some (MkRefusedRead (field_name f) (field_type f) (field_type p)).

(** Keyed by logical index. *)
Definition refused_columns (b : ColumnBinding) (logical : list Field) : gmap nat RefusedRead :=
  list_to_map (omap (fun '(i, f) => (fun r => (i, r)) <$> refused_read b f) (imap pair logical)).

(** Keyed by physical index. *)
Definition nested_columns (b : ColumnBinding) : gmap nat NestedResolution :=
  list_to_map
    (omap (fun '(i, f) =>
             r ← nested b !! field_name f;
             if needs_nested_json_rendering (field_type (resolved_field r)) then Some (i, r) else None)
       (imap pair (renamed_physical b))).

Definition delegate_physical_schema (b : ColumnBinding) (nested : gmap nat NestedResolution) : list Field :=
  imap (fun i f => match nested !! i with
                   | Some r => with_data_type f (field_type (resolved_field r))
                   | None => f
                   end) (renamed_physical b).

Definition delegate_logical_schema (logical delegate_physical : list Field) (nested : gmap nat NestedResolution) : list Field :=
  let substitute : gmap string Field :=
    list_to_map (omap (fun '(i, _) => (fun f => (field_name f, f)) <$> delegate_physical !! i) (map_to_list nested)) in
  map (fun f => default f (substitute !! field_name f)) logical.

(** The defaults of the columns this file lacks, by logical index. *)
Definition absent_defaults (b : ColumnBinding) (logical : list Field) (resolution : FieldIdResolution) : gmap nat ScalarValue :=
  list_to_map
    (omap (fun '(i, f) =>
             if bool_decide (field_name f ∈ bound_logical_names b) then None
             else (fun v => (i, v)) <$> defaults resolution !! field_name f)
       (imap pair logical)).
End Bind.

(** ** Claims by key *)

(** A logical column bound by field id is never bound by a name: a file column that
    claims it carries that id, embedded or through the name mapping. A dropped
    column's reused name cannot bind the column that was added again. *)
Theorem field_id_never_bound_by_name physical logical i k id :
  claim_logical physical logical = Some i -> logical !! i = Some k -> key_field_id k = Some id ->
  key_physical_name k = None ->
  embedded_id physical = Some id \/ mapped_field_id physical = Some id.
Proof.
  intros Hc Hk Hid Hp. unfold claim_logical, or_else, with_field_id in Hc.
  assert (forall w, position (fun k => bool_decide (key_field_id k = Some w)) logical = Some i -> w = id) as Hw.
  { intros w (k' & Hk' & Hb%bool_decide_eq_true & _)%position_Some. rewrite Hk in Hk'. congruence. }
  destruct (embedded_id physical) as [e|]; cbn in Hc.
  1: destruct (position (fun k => bool_decide (key_field_id k = Some e)) logical) eqn:E; simplify_eq;
     [left; f_equal; by apply Hw|].
  all: destruct (position (fun k => bool_decide (key_physical_name k = _)) logical) eqn:E1; simplify_eq;
    [apply position_Some in E1 as (k' & Hk' & Hb%bool_decide_eq_true & _); rewrite Hk in Hk'; congruence|].
  all: destruct (mapped_field_id physical) as [m|]; cbn in Hc.
  1, 3: destruct (position (fun k => bool_decide (key_field_id k = Some m)) logical) eqn:E2; simplify_eq;
     [right; f_equal; by apply Hw|].
  all: apply position_Some in Hc as (k' & Hk' & [Hb _]%andb_prop & _); rewrite Hk in Hk'; simplify_eq;
    unfold binds_by_identity in Hb; by rewrite Hid in Hb.
Qed.

(** ** Claims by letter case *)

Section CaseFold.
Context {UC : UnicodeCase}.

(** The unclaimed file columns, and the unclaimed identity columns of the table, of
    one fold. *)
Fixpoint unclaimed_physical (index : nat) (fields : list string) (exact : list (option nat)) (fold : string) : list nat :=
  match fields, exact with
  | f :: fields', claim :: exact' =>
      ((if bool_decide (claim = None /\ to_uppercase f = fold) then [index] else [])
       ++ unclaimed_physical (S index) fields' exact' fold)%list
  | _, _ => []
  end.

Definition open_identity (index : nat) (k : BindingKeys) (exact : list (option nat)) : bool :=
  binds_by_identity k && negb (bool_decide (Some index ∈ exact)).

Fixpoint unclaimed_logical (index : nat) (logical : list BindingKeys) (exact : list (option nat)) (fold : string) : list nat :=
  match logical with
  | [] => []
  | k :: logical' =>
      ((if open_identity index k exact && bool_decide (to_uppercase (key_name k) = fold) then [index] else [])
       ++ unclaimed_logical (S index) logical' exact fold)%list
  end.

Definition group_at (g : Groups) (fold : string) : list nat * list nat := default ([], []) (g !! fold).

Lemma group_at_update key update g fold :
  group_at (group_update key update g) fold = if decide (key = fold) then update (group_at g key) else group_at g fold.
Proof.
  unfold group_at, group_update. destruct (decide (key = fold)) as [<-|Hne].
  - by rewrite lookup_insert_eq.
  - by rewrite lookup_insert_ne.
Qed.

Lemma group_physical_at index fields exact g fold :
  group_at (group_physical index fields exact g) fold
    = (((group_at g fold).1 ++ unclaimed_physical index fields exact fold)%list, (group_at g fold).2).
Proof.
  revert index exact g. induction fields as [|f fields IH]; intros index [|c exact] g; cbn;
    try (rewrite app_nil_r; by destruct (group_at g fold)).
  rewrite IH. destruct c as [l|].
  - by rewrite bool_decide_eq_false_2 by naive_solver.
  - rewrite group_at_update. destruct (decide (to_uppercase f = fold)) as [E|E].
    + rewrite bool_decide_eq_true_2 by done. cbn. by rewrite E, <- app_assoc.
    + by rewrite bool_decide_eq_false_2 by naive_solver.
Qed.

Lemma group_logical_at index logical exact g fold :
  group_at (group_logical index logical exact g) fold
    = ((group_at g fold).1, ((group_at g fold).2 ++ unclaimed_logical index logical exact fold)%list).
Proof.
  revert index g. induction logical as [|k logical IH]; intros index g; cbn.
  - rewrite app_nil_r. by destruct (group_at g fold).
  - rewrite IH. fold (open_identity index k exact). destruct (open_identity index k exact); [|done]. cbn [andb].
    rewrite group_at_update. destruct (decide (to_uppercase (key_name k) = fold)) as [E|E].
    + rewrite bool_decide_eq_true_2 by done. cbn. by rewrite E, <- app_assoc.
    + by rewrite bool_decide_eq_false_2.
Qed.

Lemma fold_groups_at physical logical exact fold :
  group_at (fold_groups physical logical exact) fold
    = (unclaimed_physical 0 physical exact fold, unclaimed_logical 0 logical exact fold).
Proof. unfold fold_groups. by rewrite group_logical_at, group_physical_at. Qed.

Lemma elem_of_unclaimed_physical index fields exact fold i :
  i ∈ unclaimed_physical index fields exact fold <->
  index <= i /\ exists f, fields !! (i - index) = Some f /\ exact !! (i - index) = Some None /\ to_uppercase f = fold.
Proof.
  revert index exact. induction fields as [|f fields IH]; intros index [|c exact]; cbn [unclaimed_physical].
  1-3: rewrite elem_of_nil; split; [done|]; intros (_ & x & Hx & Hy & _); by rewrite ?lookup_nil in *.
  rewrite elem_of_app, IH. split.
  - intros [Hi|(Hle & x & Hx & Hy & Hu)].
    + case_bool_decide as Hb; [|by apply elem_of_nil in Hi]. apply list_elem_of_singleton in Hi as ->.
      split; [done|]. exists f. rewrite Nat.sub_diag. naive_solver.
    + split; [lia|]. exists x. replace (i - index) with (S (i - S index)) by lia. done.
  - intros (Hle & x & Hx & Hy & Hu). destruct (decide (i = index)) as [->|Hne].
    + left. rewrite Nat.sub_diag in *. cbn in *. simplify_eq. rewrite bool_decide_eq_true_2 by done. set_solver.
    + right. split; [lia|]. exists x. replace (i - index) with (S (i - S index)) in * by lia. done.
Qed.

Lemma elem_of_unclaimed_logical index logical exact fold l :
  l ∈ unclaimed_logical index logical exact fold <->
  index <= l /\ exists k, logical !! (l - index) = Some k /\ binds_by_identity k = true /\ Some l ∉ exact /\
                          to_uppercase (key_name k) = fold.
Proof.
  revert index. induction logical as [|k logical IH]; intros index; cbn [unclaimed_logical].
  - rewrite elem_of_nil. split; [done|]. intros (_ & x & Hx & _). by rewrite lookup_nil in Hx.
  - rewrite elem_of_app, IH. split.
    + intros [Hl|(Hle & x & Hx & Hrest)].
      * destruct (open_identity index k exact && _) eqn:E; [|by apply elem_of_nil in Hl].
        apply list_elem_of_singleton in Hl as ->. split; [done|]. exists k. rewrite Nat.sub_diag.
        apply andb_prop in E as [[E1 E2%negb_true_iff%bool_decide_eq_false]%andb_prop E3%bool_decide_eq_true]. naive_solver.
      * split; [lia|]. exists x. replace (l - index) with (S (l - S index)) by lia. done.
    + intros (Hle & x & Hx & Hb & Hn & Hu). destruct (decide (l = index)) as [->|Hne].
      * left. rewrite Nat.sub_diag in Hx. cbn in Hx. simplify_eq. unfold open_identity.
        rewrite Hb, bool_decide_eq_false_2, bool_decide_eq_true_2 by done. set_solver.
      * right. split; [lia|]. exists x. replace (l - index) with (S (l - S index)) in Hx by lia. done.
Qed.

(** The lists ascend, so one that holds a single index is a singleton. *)
Lemma unclaimed_physical_nodup index fields exact fold : NoDup (unclaimed_physical index fields exact fold).
Proof.
  revert index exact. induction fields as [|f fields IH]; intros index [|c exact]; cbn; try constructor.
  case_bool_decide; [|apply IH]. constructor; [|apply IH]. intros (Hle & _)%elem_of_unclaimed_physical. lia.
Qed.

Lemma unclaimed_logical_nodup index logical exact fold : NoDup (unclaimed_logical index logical exact fold).
Proof.
  revert index. induction logical as [|k logical IH]; intros index; cbn; [constructor|].
  destruct (_ && _)%bool; [|apply IH]. constructor; [|apply IH]. intros (Hle & _)%elem_of_unclaimed_logical. lia.
Qed.

Lemma singleton_iff (l : list nat) x : NoDup l -> l = [x] <-> x ∈ l /\ forall y, y ∈ l -> y = x.
Proof.
  intros Hn. split; [intros ->; set_solver|]. intros [Hx Hall]. destruct l as [|a [|b l]]; [by apply elem_of_nil in Hx|..].
  - f_equal. symmetry. set_solver.
  - apply NoDup_cons in Hn as [Hn _]. rewrite (Hall a), <- (Hall b) in Hn by set_solver. set_solver.
Qed.

(** The pairs the loop binds. *)
Definition single (v : list nat * list nat) : option (nat * nat) :=
  match v with ([p], [l]) => Some (p, l) | _ => None end.

Lemma settle_claims g physical logical claims ambiguous :
  (settle g physical logical claims ambiguous).1
    = fold_left (fun c '(p, l) => <[p := Some l]> c) (omap single g) claims.
Proof.
  revert claims ambiguous. induction g as [|[ps ls] g IH]; intros claims ambiguous; [done|].
  destruct ps as [|p [|p2 ps]], ls as [|l [|l2 ls]]; cbn; by rewrite IH.
Qed.

Lemma fold_insert_lookup (pairs : list (nat * nat)) claims i :
  NoDup (map fst pairs) -> Forall (fun pl => pl.1 < List.length claims) pairs ->
  forall l, fold_left (fun c '(p, l) => <[p := Some l]> c) pairs claims !! i = Some (Some l) <->
    (i, l) ∈ pairs \/ (i ∉ map fst pairs /\ claims !! i = Some (Some l)).
Proof.
  revert claims. induction pairs as [|[p m] pairs IH]; intros claims Hn Hlt l.
  - cbn. set_solver.
  - cbn [map fst] in Hn. apply NoDup_cons in Hn as [Hp Hn]. apply Forall_cons in Hlt as [Hlt Hall]. cbn [fst] in Hlt.
    cbn [fold_left]. rewrite IH; [|done|by rewrite length_insert]. cbn [map fst].
    rewrite elem_of_cons, not_elem_of_cons. destruct (decide (i = p)) as [->|Hne].
    + rewrite list_lookup_insert_eq by done. split.
      * intros [H|[_ [= ->]]]; [by left; right|]. by left; left.
      * intros [[[= ->]|H]|[[? _] _]]; [by right|by left|done].
    + rewrite list_lookup_insert_ne by done. naive_solver.
Qed.

(** File column [i] and table column [l] are each other's only candidate by letter
    case. *)
Definition fold_match (physical : list string) (logical : list BindingKeys) (exact : list (option nat)) (i l : nat) : Prop :=
  exists f k,
    physical !! i = Some f /\ exact !! i = Some None /\
    logical !! l = Some k /\ binds_by_identity k = true /\ Some l ∉ exact /\
    to_uppercase f = to_uppercase (key_name k) /\
    (forall i' f', physical !! i' = Some f' -> exact !! i' = Some None -> to_uppercase f' = to_uppercase f -> i' = i) /\
    (forall l' k', logical !! l' = Some k' -> binds_by_identity k' = true -> Some l' ∉ exact ->
       to_uppercase (key_name k') = to_uppercase f -> l' = l).

Lemma fold_pair physical logical exact fold i l :
  unclaimed_physical 0 physical exact fold = [i] -> unclaimed_logical 0 logical exact fold = [l] ->
  fold_match physical logical exact i l.
Proof.
  intros (Hi & Hi')%singleton_iff (Hl & Hl')%singleton_iff; try apply unclaimed_logical_nodup; try apply unclaimed_physical_nodup.
  apply elem_of_unclaimed_physical in Hi as (_ & f & Hf & He & Hu).
  apply elem_of_unclaimed_logical in Hl as (_ & k & Hk & Hb & Hn & Hu').
  rewrite Nat.sub_0_r in *. exists f, k. rewrite Hu, Hu'. split_and!; try done.
  - intros i' f' Hf' He' Hu''. apply Hi', elem_of_unclaimed_physical. split; [lia|]. exists f'. by rewrite Nat.sub_0_r.
  - intros l' k' Hk' Hb' Hn' Hu''. apply Hl', elem_of_unclaimed_logical. split; [lia|]. exists k'. by rewrite Nat.sub_0_r.
Qed.

Lemma fold_match_pair physical logical exact i l :
  fold_match physical logical exact i l ->
  exists fold, unclaimed_physical 0 physical exact fold = [i] /\ unclaimed_logical 0 logical exact fold = [l].
Proof.
  intros (f & k & Hf & He & Hk & Hb & Hn & Hu & Hi & Hl). exists (to_uppercase f). split.
  - apply singleton_iff; [apply unclaimed_physical_nodup|]. split.
    + apply elem_of_unclaimed_physical. split; [lia|]. exists f. by rewrite Nat.sub_0_r.
    + intros y (_ & f' & Hf' & He' & Hu')%elem_of_unclaimed_physical. rewrite Nat.sub_0_r in *. by eapply Hi.
  - apply singleton_iff; [apply unclaimed_logical_nodup|]. split.
    + apply elem_of_unclaimed_logical. split; [lia|]. exists k. by rewrite Nat.sub_0_r.
    + intros y (_ & k' & Hk' & Hb' & Hn' & Hu')%elem_of_unclaimed_logical. rewrite Nat.sub_0_r in *. by eapply Hl.
Qed.

Lemma elem_of_singles g i l :
  (i, l) ∈ omap single (into_values g) <-> exists fold, g !! fold = Some ([i], [l]).
Proof.
  rewrite list_elem_of_omap. unfold into_values. split.
  - intros (v & Hin & Hs). apply list_elem_of_fmap in Hin as ([fold w] & -> & Hin).
    rewrite merge_sort_Permutation, elem_of_map_to_list in Hin. exists fold. cbn [snd] in Hs. rewrite Hin.
    destruct w as [[|p [|]] [|m [|]]]; try done. cbn in Hs. by injection Hs as -> ->.
  - intros [fold Hf]. exists ([i], [l]). split; [|done]. apply list_elem_of_fmap. exists (fold, ([i], [l])). split; [done|].
    by rewrite merge_sort_Permutation, elem_of_map_to_list.
Qed.

(** One physical index sits in one group. *)
Lemma singles_nodup physical logical exact :
  NoDup (map fst (omap single (into_values (fold_groups physical logical exact)))).
Proof.
  set (g := fold_groups physical logical exact).
  assert (forall fold v p, g !! fold = Some v -> p ∈ v.1 -> exists f, physical !! p = Some f /\ to_uppercase f = fold) as Hfold.
  { intros fold v p Hv Hp. pose proof (fold_groups_at physical logical exact fold) as E. unfold group_at in E.
    fold g in E. rewrite Hv in E. cbn in E. subst v. cbn in Hp.
    apply elem_of_unclaimed_physical in Hp as (_ & f & Hf & _ & Hu). rewrite Nat.sub_0_r in Hf. by exists f. }
  unfold into_values.
  assert (forall l, NoDup (map fst l) -> Forall (fun kv => g !! kv.1 = Some kv.2) l ->
    NoDup (map fst (omap single (map snd l)))) as H; [|apply H].
  - induction l as [|[fold v] l IH]; intros Hn Hall; [constructor|].
    apply NoDup_cons in Hn as [Hx Hn]. apply Forall_cons in Hall as [Hv Hall]. cbn [fst snd] in *.
    cbn [map omap list_omap snd]. destruct (single v) as [[p m]|] eqn:Es; [|by apply IH].
    cbn [map fst]. constructor; [|by apply IH]. intros Hin.
    apply list_elem_of_fmap in Hin as ([p' m'] & -> & Hin). cbn in Es.
    apply list_elem_of_omap in Hin as (v' & Hin & Es'). apply list_elem_of_fmap in Hin as ([fold' w] & -> & Hin).
    cbn in Es'. rewrite Forall_forall in Hall. pose proof (Hall _ Hin) as Hw. cbn in Hw.
    assert (p' ∈ v.1 /\ p' ∈ w.1) as [H1 H2].
    { destruct v as [[|? [|]] [|? [|]]], w as [[|? [|]] [|? [|]]]; try done. cbn in *. simplify_eq. set_solver. }
    destruct (Hfold _ _ _ Hv H1) as (f1 & Hf1 & <-), (Hfold _ _ _ Hw H2) as (f2 & Hf2 & <-). simplify_eq.
    apply Hx, list_elem_of_fmap. by eexists (_, _).
  - rewrite merge_sort_Permutation. apply NoDup_fst_map_to_list.
  - rewrite merge_sort_Permutation, Forall_forall. intros [fold v] Hin. by apply elem_of_map_to_list in Hin.
Qed.

Lemma case_fold_spec physical logical exact i l :
  List.length exact = List.length physical ->
  (claim_by_case_fold physical logical exact).1 !! i = Some (Some l) <->
  exact !! i = Some (Some l) \/ fold_match physical logical exact i l.
Proof.
  intros Hlen. unfold claim_by_case_fold. destruct (_ || _)%bool eqn:Eskip.
  - cbn. split; [by left|]. intros [H|(f & k & _ & He & Hk & Hb & _)]; [done|]. exfalso.
    apply orb_true_iff in Eskip as [Hall|Hno].
    + rewrite List.forallb_forall in Hall. specialize (Hall None). cbn in Hall.
      discriminate Hall. apply list_elem_of_In. by eapply list_elem_of_lookup_2.
    + apply negb_true_iff in Hno. apply not_true_iff_false in Hno. apply Hno, existsb_exists.
      exists k. split; [|done]. apply list_elem_of_In. by eapply list_elem_of_lookup_2.
  - rewrite settle_claims. set (g := fold_groups physical logical exact).
    assert (forall p m, (p, m) ∈ omap single (into_values g) <-> fold_match physical logical exact p m) as Hpairs.
    { intros p m. rewrite elem_of_singles. split.
      - intros [fold Hf]. pose proof (fold_groups_at physical logical exact fold) as E. unfold group_at in E.
        fold g in E. rewrite Hf in E. injection E as E1 E2. by eapply fold_pair.
      - intros (fold & H1 & H2)%fold_match_pair. exists fold.
        pose proof (fold_groups_at physical logical exact fold) as E. unfold group_at in E. fold g in E.
        rewrite H1, H2 in E. by destruct (g !! fold) as [v|]; cbn in E; [rewrite E|]. }
    rewrite fold_insert_lookup; [|apply singles_nodup|].
    2: { apply Forall_forall. intros [p m] Hin. apply Hpairs in Hin as (f & k & Hf & He & _).
         apply lookup_lt_Some in He. by cbn. }
    rewrite Hpairs. split; [naive_solver|]. intros [Hex|]; [|by left]. right. split; [|done].
    intros ([p m] & -> & Hin)%list_elem_of_fmap. apply Hpairs in Hin as (f & k & Hf & He & _). cbn in Hex. congruence.
Qed.

(** No table column is bound twice: the pass keeps the exact claims' injectivity. *)
Lemma case_fold_injective physical logical exact :
  List.length exact = List.length physical ->
  (forall i j l, exact !! i = Some (Some l) -> exact !! j = Some (Some l) -> i = j) ->
  forall i j l, (claim_by_case_fold physical logical exact).1 !! i = Some (Some l) ->
                (claim_by_case_fold physical logical exact).1 !! j = Some (Some l) -> i = j.
Proof.
  intros Hlen Hinj i j l. rewrite !case_fold_spec by done.
  intros [Hi|(f & k & Hf & He & Hk & Hb & Hn & Hu & Hi & Hl)] [Hj|(f' & k' & Hf' & He' & Hk' & Hb' & Hn' & Hu' & Hi' & Hl')].
  - by eapply Hinj.
  - exfalso. apply Hn'. by eapply list_elem_of_lookup_2.
  - exfalso. apply Hn. by eapply list_elem_of_lookup_2.
  - simplify_eq. eapply Hi'; [done..|]. congruence.
Qed.
(** The letter-case pass keeps every exact claim and adds exactly the pairs that are
    each other's only candidate: never a column another spelling competes for. *)
Theorem case_fold_claims physical logical exact i l :
  List.length exact = List.length physical ->
  (claim_by_case_fold physical logical exact).1 !! i = Some (Some l) <->
  exact !! i = Some (Some l) \/ fold_match physical logical exact i l.
Proof. apply case_fold_spec. Qed.
End CaseFold.

(** ** Renaming *)

Lemma claim_logical_valid physical logical i : claim_logical physical logical = Some i -> is_Some (logical !! i).
Proof.
  assert (forall p j, position p logical = Some j -> is_Some (logical !! j)) as H.
  { intros p j (x & Hx & _)%position_Some. by exists x. }
  unfold claim_logical, or_else, with_field_id.
  destruct (embedded_id physical ≫= _) eqn:E1.
  { destruct (embedded_id physical); [|done]. intros [= <-]. by eapply H. }
  destruct (position (fun k => bool_decide (key_physical_name k = _)) logical) eqn:E2; [intros [= <-]; by eapply H|].
  destruct (mapped_field_id physical ≫= _) eqn:E3; [|apply H].
  destruct (mapped_field_id physical); [|done]. intros [= <-]. by eapply H.
Qed.

Lemma starts_with_app pre s : starts_with pre (pre ++ s) = true.
Proof.
  unfold starts_with. induction pre as [|c pre IH]; [by destruct s|]. rewrite string_app_cons. cbn.
  destruct (ascii_dec c c); [done|congruence].
Qed.

Lemma field_name_with_name f n : field_name (with_name f n) = n.
Proof. by destruct f. Qed.

Section Rename.
Context {UC : UnicodeCase}.

(** What a name-based reader of the renamed columns binds. *)
Lemma rename_column_binds keys f claimed l k :
  NoDup (map key_name keys) -> Forall (fun k => starts_with UNBOUND_PREFIX (key_name k) = false) keys ->
  (forall i, claimed = Some i -> is_Some (keys !! i)) -> keys !! l = Some k ->
  field_name (rename_column keys f claimed) = key_name k <-> claimed = Some l.
Proof.
  intros Hn Hpre Hval Hk. unfold rename_column. destruct claimed as [i|]; cbn [mbind option_bind].
  - destruct (Hval i eq_refl) as [k' Hk']. rewrite Hk'. cbn.
    assert (field_name (if String.eqb (key_name k') (field_name f) then f else with_name f (key_name k')) = key_name k') as ->.
    { destruct (String.eqb_spec (key_name k') (field_name f)); [done|apply field_name_with_name]. }
    split; [|intros [= ->]; congruence]. intros E. f_equal.
    apply (NoDup_lookup (map key_name keys) i l (key_name k)); [done|..];
      rewrite list_lookup_fmap; [rewrite Hk'|rewrite Hk]; cbn; congruence.
  - split; [|done]. intros E. exfalso.
    destruct (existsb _ keys) eqn:Eb.
    + rewrite field_name_with_name in E. rewrite Forall_lookup in Hpre. specialize (Hpre l k Hk).
      rewrite <- E, starts_with_app in Hpre. done.
    + apply not_true_iff_false in Eb. apply Eb, existsb_exists. exists k.
      split; [apply list_elem_of_In; by eapply list_elem_of_lookup_2|]. rewrite E. apply String.eqb_refl.
Qed.

Lemma exact_claims_length physical keys mapping : List.length (exact_claims physical keys mapping) = List.length physical.
Proof. unfold exact_claims. by rewrite length_map. Qed.

Lemma settle_length g physical logical claims ambiguous :
  List.length (settle g physical logical claims ambiguous).1 = List.length claims.
Proof.
  revert claims ambiguous. induction g as [|[ps ls] g IH]; intros claims ambiguous; [done|].
  destruct ps as [|p [|p2 ps]], ls as [|l [|l2 ls]]; cbn; by rewrite IH, ?length_insert.
Qed.

Lemma claims_length logical physical resolution :
  List.length (claims_of logical physical resolution).1 = List.length physical.
Proof.
  unfold claims_of, claim_by_case_fold. destruct (_ || _)%bool; [apply exact_claims_length|].
  rewrite settle_length. apply exact_claims_length.
Qed.

Lemma claims_valid logical physical resolution i l :
  (claims_of logical physical resolution).1 !! i = Some (Some l) -> is_Some (logical_keys logical resolution !! l).
Proof.
  unfold claims_of. rewrite case_fold_spec by (by rewrite exact_claims_length, length_map).
  intros [H|(f & k & _ & _ & Hk & _)]; [|by exists k].
  unfold exact_claims in H. rewrite list_lookup_fmap in H. destruct (physical !! i); [|done].
  cbn in H. injection H as H. by apply claim_logical_valid in H.
Qed.

Lemma logical_keys_names logical resolution : map key_name (logical_keys logical resolution) = map field_name logical.
Proof. unfold logical_keys. rewrite map_map. by apply map_ext. Qed.

(** A reader that binds by name, fed the renamed columns, binds exactly the claims:
    a file column bears a table column's name after the renaming if and only if it
    claimed that column. An unclaimed column that happened to bear the name of one
    is not read in its place. *)
Theorem renamed_columns_bind_claims logical physical resolution i l lf :
  NoDup (map field_name logical) ->
  Forall (fun f => starts_with UNBOUND_PREFIX (field_name f) = false) logical ->
  logical !! l = Some lf ->
  (exists g, renamed_physical (bind_columns logical physical resolution) !! i = Some g /\ field_name g = field_name lf)
  <-> (claims_of logical physical resolution).1 !! i = Some (Some l).
Proof.
  intros Hn Hpre Hl. unfold bind_columns.
  pose proof (claims_length logical physical resolution) as Hlen.
  pose proof (claims_valid logical physical resolution i) as Hval.
  destruct (claims_of logical physical resolution) as [claims ambiguous]. cbn [renamed_physical fst] in *.
  set (keys := logical_keys logical resolution) in *.
  assert (exists k, keys !! l = Some k /\ key_name k = field_name lf) as (k & Hk & Ek).
  { subst keys. unfold logical_keys. rewrite list_lookup_fmap, Hl. cbn. by eexists. }
  assert (NoDup (map key_name keys)) as Hn' by (subst keys; by rewrite logical_keys_names).
  assert (Forall (fun k => starts_with UNBOUND_PREFIX (key_name k) = false) keys) as Hpre'.
  { apply (Forall_map field_name (fun n => starts_with UNBOUND_PREFIX n = false)) in Hpre.
    rewrite <- (logical_keys_names logical resolution) in Hpre.
    by apply (Forall_map key_name (fun n => starts_with UNBOUND_PREFIX n = false)) in Hpre. }
  rewrite lookup_zip_with. split.
  - intros (g & Hg & Eg). destruct (physical !! i) as [f|]; [|done]. cbn in Hg.
    destruct (claims !! i) as [c|] eqn:Ec; [|done]. injection Hg as <-. f_equal.
    rewrite <- Ek in Eg. eapply rename_column_binds; [done..| |exact Hk|exact Eg].
    intros j ->. by apply Hval.
  - intros Hc. assert (is_Some (physical !! i)) as [f Hf].
    { apply lookup_lt_is_Some. rewrite <- Hlen. by apply lookup_lt_is_Some_1; eexists. }
    rewrite Hf. cbn. rewrite Hc. eexists. split; [done|]. rewrite <- Ek.
    eapply rename_column_binds; [done..| |exact Hk|done]. intros j [= <-]. by eexists.
Qed.
End Rename.

(** ** Concrete runs *)

Definition with_id (name : string) (id : Z) : Field :=
  MkField name TInt64 true {[ PARQUET_FIELD_ID_META_KEY := show_Z id ]}.

Definition no_resolution : FieldIdResolution := MkFieldIdResolution [] ∅ ∅ ∅.

(** The table dropped column 1 and added column 2 under the same name: the file's old
    column does not bind it. *)
Definition readded_logical : list Field := [with_id "rating" 2; MkField "Total" TInt64 true ∅].
Definition readded_physical : list Field := [with_id "rating" 1; MkField "TOTAL" TInt64 true ∅].

Lemma readded_names : NoDup (map field_name readded_logical).
Proof. apply (bool_decide_eq_true_1 _). vm_compute. reflexivity. Qed.

Lemma readded_prefixes : Forall (fun f => starts_with UNBOUND_PREFIX (field_name f) = false) readded_logical.
Proof. repeat constructor. Qed.

Lemma field_id_never_bound_by_name_witness :
  claim_logical (MkPhysicalKeys "c" (Some 7%Z) None) [MkBindingKeys "rating" (Some 7%Z) None] = Some 0 /\
  (Some 7%Z = Some 7%Z \/ @None Z = Some 7%Z).
Proof.
  split; [reflexivity|].
  apply (field_id_never_bound_by_name (MkPhysicalKeys "c" (Some 7%Z) None) [MkBindingKeys "rating" (Some 7%Z) None] 0
           (MkBindingKeys "rating" (Some 7%Z) None) 7%Z); reflexivity.
Defined.

Lemma case_fold_claims_witness :
  (claim_by_case_fold (UC := ascii_case) ["Total"; "x"] [MkBindingKeys "TOTAL" None None; MkBindingKeys "X" (Some 1%Z) None] [None; None]).1
    !! 0 = Some (Some 0).
Proof.
  apply (case_fold_claims (UC := ascii_case)); [reflexivity|]. right.
  exists "Total", (MkBindingKeys "TOTAL" None None). split_and!; try reflexivity.
  - set_solver.
  - intros [|[|i]] f; cbn; try done. by intros [= <-].
  - intros [|[|l]] k; cbn; try done. by intros [= <-].
Defined.

Lemma renamed_columns_bind_claims_witness :
  ~ (exists g, renamed_physical (bind_columns (UC := ascii_case) readded_logical readded_physical no_resolution) !! 0 = Some g
               /\ field_name g = "rating")
  /\ (exists g, renamed_physical (bind_columns (UC := ascii_case) readded_logical readded_physical no_resolution) !! 1 = Some g
               /\ field_name g = "Total").
Proof.
  split.
  - intros H.
    apply (renamed_columns_bind_claims (UC := ascii_case) readded_logical readded_physical no_resolution 0 0 (with_id "rating" 2)
             readded_names readded_prefixes eq_refl) in H.
    vm_compute in H. discriminate.
  - apply (renamed_columns_bind_claims (UC := ascii_case) readded_logical readded_physical no_resolution 1 1 (MkField "Total" TInt64 true ∅)
             readded_names readded_prefixes eq_refl).
    vm_compute. reflexivity.
Defined.
