(* ===== verification/ScanFiles.v ===== *)
(** crates/lakehouse-engine/src/scan/spec.rs, the per-shard file list: the deletion
    mechanisms a data file carries, the wire forms of an entry, and the list's JSON.
    The JSON text itself is [serde_json]'s: printing and parsing a document are
    arguments, and a document's object keeps its entries in document order. *)

From stdpp Require Import base list strings numbers gmap sorting.
From Stdlib Require Import Ascii String ZArith NArith Lia.
From S2P Require Import Prelude Serde Json Redaction Sharding.

Local Open Scope string_scope.

(** ** Deletion mechanisms *)

Inductive DeltaDeletionVectorStorage := UuidRelative | Inline | AbsolutePath.

#[export] Instance DeltaDeletionVectorStorage_eq_dec : EqDecision DeltaDeletionVectorStorage.
Proof. solve_decision. Defined.

Inductive DeleteMechanism :=
| IcebergPositionalDelete (path : string) (size : N)
| IcebergEqualityDelete (path : string) (size : N)
| IcebergPuffinDeletionVector (path : string) (size content_offset content_size_in_bytes record_count : N)
| DeltaDeletionVector (storage : DeltaDeletionVectorStorage) (path_or_inline_dv : string)
    (offset : option Z) (size_in_bytes cardinality : Z).

Definition is_delete_file_reference (d : DeleteMechanism) : bool :=
  match d with
  | IcebergPositionalDelete _ _ | IcebergEqualityDelete _ _ | IcebergPuffinDeletionVector _ _ _ _ _ => true
  | DeltaDeletionVector _ _ _ _ _ => false
  end.

Definition object_store_path (d : DeleteMechanism) : option string :=
  match d with
  | IcebergPositionalDelete path _ | IcebergEqualityDelete path _
  | IcebergPuffinDeletionVector path _ _ _ _ => Some path
  | DeltaDeletionVector _ _ _ _ _ => None
  end.

(** *** The wire form *)

Inductive IcebergDeleteContentType := PositionDeletes | EqualityDeletes | PuffinDeletionVector.

Inductive DeleteMechanismWire :=
| WIcebergDeleteFile (path : string) (size : N) (content_type : IcebergDeleteContentType)
    (content_offset content_size_in_bytes record_count : option N)
| WDeltaDeletionVector (storage : DeltaDeletionVectorStorage) (path_or_inline_dv : string)
    (offset : option Z) (size_in_bytes cardinality : Z).

Definition mechanism_of_wire (wire : DeleteMechanismWire) : result string DeleteMechanism :=
  match wire with
  | WIcebergDeleteFile path size content_type content_offset content_size_in_bytes record_count =>
      match content_type, content_offset, content_size_in_bytes, record_count with
      | PositionDeletes, None, None, None => Ok (IcebergPositionalDelete path size)
      | EqualityDeletes, None, None, None => Ok (IcebergEqualityDelete path size)
      | PuffinDeletionVector, Some content_offset, Some content_size_in_bytes, Some record_count =>
          Ok (IcebergPuffinDeletionVector path size content_offset content_size_in_bytes record_count)
      | _, _, _, _ =>
          Err "an Iceberg delete entry must carry content_offset, content_size_in_bytes, and record_count exactly when it is a Puffin deletion vector"
      end
  | WDeltaDeletionVector storage path_or_inline_dv offset size_in_bytes cardinality =>
      Ok (DeltaDeletionVector storage path_or_inline_dv offset size_in_bytes cardinality)
  end.

Definition wire_of_mechanism (d : DeleteMechanism) : DeleteMechanismWire :=
  match d with
  | IcebergPositionalDelete path size => WIcebergDeleteFile path size PositionDeletes None None None
  | IcebergEqualityDelete path size => WIcebergDeleteFile path size EqualityDeletes None None None
  | IcebergPuffinDeletionVector path size content_offset content_size_in_bytes record_count =>
      WIcebergDeleteFile path size PuffinDeletionVector (Some content_offset) (Some content_size_in_bytes)
        (Some record_count)
  | DeltaDeletionVector storage path_or_inline_dv offset size_in_bytes cardinality =>
      WDeltaDeletionVector storage path_or_inline_dv offset size_in_bytes cardinality
  end.

(** ** File entries *)

Record FileEntry := {
  path : string;
  size : N;
  deletes : list DeleteMechanism;
  partition_values : gmap string (option string);
}.

#[export] Instance FileEntry_weight : ShardWeight FileEntry := size.

Inductive FileEntryWire :=
| Legacy (path : string) (size : N)
| WithDeletes (path : string) (size : N) (deletes : list DeleteMechanism)
| WithPartitionValues (path : string) (size : N) (deletes : list DeleteMechanism)
    (partition_values : gmap string (option string)).

Definition entry_of_wire (wire : FileEntryWire) : FileEntry :=
  match wire with
  | Legacy p s => {| path := p; size := s; deletes := []; partition_values := ∅ |}
  | WithDeletes p s d => {| path := p; size := s; deletes := d; partition_values := ∅ |}
  | WithPartitionValues p s d v => {| path := p; size := s; deletes := d; partition_values := v |}
  end.

Definition wire_of_entry (e : FileEntry) : FileEntryWire :=
  if negb (bool_decide (e.(partition_values) = ∅))
  then WithPartitionValues e.(path) e.(size) e.(deletes) e.(partition_values)
  else match e.(deletes) with
       | [] => Legacy e.(path) e.(size)
       | _ => WithDeletes e.(path) e.(size) e.(deletes)
       end.

(** ** JSON, as the derived serde code reads and writes it *)

Definition STORAGES : list (string * DeltaDeletionVectorStorage) :=
  [("uuid_relative", UuidRelative); ("inline", Inline); ("absolute_path", AbsolutePath)].

Definition CONTENT_TYPES : list (string * IcebergDeleteContentType) :=
  [("position_deletes", PositionDeletes); ("equality_deletes", EqualityDeletes);
   ("puffin_deletion_vector", PuffinDeletionVector)].

Definition storage_to_json (s : DeltaDeletionVectorStorage) : Json :=
  JString match s with UuidRelative => "uuid_relative" | Inline => "inline" | AbsolutePath => "absolute_path" end.

Definition content_type_to_json (c : IcebergDeleteContentType) : Json :=
  JString match c with
    | PositionDeletes => "position_deletes"
    | EqualityDeletes => "equality_deletes"
    | PuffinDeletionVector => "puffin_deletion_vector"
    end.

(** The two arms of the untagged enum, tried in order. *)
Definition wire_from_json (j : Json) : option DeleteMechanismWire :=
  match j with
  | JObject f =>
      let iceberg :=
        path ← required "path" as_str f;
        size ← required "size" from_u64 f;
        content_type ← required "content_type" (from_unit_variant CONTENT_TYPES) f;
        content_offset ← optional "content_offset" from_u64 f;
        content_size_in_bytes ← optional "content_size_in_bytes" from_u64 f;
        record_count ← optional "record_count" from_u64 f;
        Some (WIcebergDeleteFile path size content_type content_offset content_size_in_bytes record_count) in
      let delta :=
        storage ← required "storage" (from_unit_variant STORAGES) f;
        path_or_inline_dv ← required "path_or_inline_dv" as_str f;
        offset ← optional "offset" (from_signed 32) f;
        size_in_bytes ← required "size_in_bytes" (from_signed 32) f;
        cardinality ← required "cardinality" (from_signed 64) f;
        Some (WDeltaDeletionVector storage path_or_inline_dv offset size_in_bytes cardinality) in
      match iceberg with Some w => Some w | None => delta end
  | _ => None
  end.

Definition wire_to_json (w : DeleteMechanismWire) : Json :=
  JObject match w with
    | WIcebergDeleteFile path size content_type content_offset content_size_in_bytes record_count =>
        [("path", JString path); ("size", to_u64 size); ("content_type", content_type_to_json content_type)]
        ++ skip_none "content_offset" to_u64 content_offset
        ++ skip_none "content_size_in_bytes" to_u64 content_size_in_bytes
        ++ skip_none "record_count" to_u64 record_count
    | WDeltaDeletionVector storage path_or_inline_dv offset size_in_bytes cardinality =>
        [("storage", storage_to_json storage); ("path_or_inline_dv", JString path_or_inline_dv)]
        ++ skip_none "offset" to_signed offset
        ++ [("size_in_bytes", to_signed size_in_bytes); ("cardinality", to_signed cardinality)]
    end%list.

Definition mechanism_from_json (j : Json) : option DeleteMechanism := wire_from_json j ≫= (fun w => ok (mechanism_of_wire w)).
Definition mechanism_to_json (d : DeleteMechanism) : Json := wire_to_json (wire_of_mechanism d).

Definition deletes_from_json (j : Json) : option (list DeleteMechanism) :=
  l ← as_array j; mapM mechanism_from_json l.

(** [BTreeMap<String, Option<String>>]: a repeated key keeps its last value. *)
Definition value_from_json (j : Json) : option (option string) :=
  match j with JNull => Some None | JString s => Some (Some s) | _ => None end.

Definition values_from_json (j : Json) : option (gmap string (option string)) :=
  f ← as_object j;
  kvs ← mapM (fun '(k, v) => x ← value_from_json v; Some (k, x)) f;
  Some (fold_left (fun m '(k, x) => <[k := x]> m) kvs ∅).

Definition key_le (a b : string * option string) : Prop := String.leb a.1 b.1 = true.

#[export] Instance key_le_dec : RelDecision key_le.
Proof. intros a b. unfold key_le. apply _. Defined.

Definition values_to_json (m : gmap string (option string)) : Json :=
  JObject (map (fun '(k, x) => (k, match x with None => JNull | Some s => JString s end))
             (merge_sort key_le (map_to_list m))).

Definition entry_wire_from_json (j : Json) : option FileEntryWire :=
  match j with
  | JArray [p; s] => path ← as_str p; size ← from_u64 s; Some (Legacy path size)
  | JArray [p; s; d] =>
      path ← as_str p; size ← from_u64 s; deletes ← deletes_from_json d; Some (WithDeletes path size deletes)
  | JObject f =>
      path ← required "path" as_str f;
      size ← required "size" from_u64 f;
      deletes ← (v ← field "deletes" f; match v with None => Some [] | Some d => deletes_from_json d end);
      partition_values ← required "partition_values" values_from_json f;
      Some (WithPartitionValues path size deletes partition_values)
  | _ => None
  end.

Definition entry_wire_to_json (w : FileEntryWire) : Json :=
  match w with
  | Legacy path size => JArray [JString path; to_u64 size]
  | WithDeletes path size deletes =>
      JArray [JString path; to_u64 size; JArray (map mechanism_to_json deletes)]
  | WithPartitionValues path size deletes partition_values =>
      JObject ([("path", JString path); ("size", to_u64 size)]
        ++ match deletes with [] => [] | _ => [("deletes", JArray (map mechanism_to_json deletes))] end
        ++ [("partition_values", values_to_json partition_values)])%list
  end.

Definition entry_from_json (j : Json) : option FileEntry := entry_of_wire <$> entry_wire_from_json j.
Definition entry_to_json (e : FileEntry) : Json := entry_wire_to_json (wire_of_entry e).

(** ** The list *)

(** Does the entry carry both kinds of mechanism? *)
Definition mixes (e : FileEntry) : bool :=
  existsb is_delete_file_reference e.(deletes)
  && existsb (fun d => negb (is_delete_file_reference d)) e.(deletes).

Definition mixed_error (index : nat) : string :=
  "scan files deserialization failed (entry " ++ show_nat index
  ++ " mixes a Delta deletion vector with an Iceberg delete-file reference; the two are independent delete mechanisms, so applying both to one data file returns wrong rows)".

Fixpoint check_entries (index : nat) (files : list FileEntry) : result string unit :=
  match files with
  | [] => Ok tt
  | e :: rest => if mixes e then Err (mixed_error index) else check_entries (S index) rest
  end.

Section Text.
(** [serde_json::to_string], [serde_json::from_str] into a document, and the error it
    describes by class and place only. *)
Context (print : Json -> string) (parse : string -> option Json) (describe : string -> string).

Definition files_json (files : list FileEntry) : string := print (JArray (map entry_to_json files)).

Definition files_from_json (s : string) : result string (list FileEntry) :=
  match (doc ← parse s; l ← as_array doc; mapM entry_from_json l) with
  | None => Err ("scan files deserialization failed (" ++ describe s ++ ")")
  | Some files => let? _ := check_entries 0 files in Ok files
  end.
End Text.

(** [reconstruct_abs_uri] *)
Definition strip_suffix_char (c : ascii) (s : string) : string :=
  match String.get (String.length s - 1) s with
  | Some d => if Ascii.eqb c d then String.substring 0 (String.length s - 1) s else s
  | None => s
  end.

Definition strip_prefix_char (c : ascii) (s : string) : string :=
  match s with String d s' => if Ascii.eqb c d then s' else s | EmptyString => s end.

Definition reconstruct_abs_uri (entry_path table_root : string) : string :=
  if contains "://" entry_path then entry_path
  else
    let root := strip_suffix_char "/" table_root in
    let rel := strip_prefix_char "/" entry_path in
    root ++ "/" ++ rel.

(** ** Round trips *)

(** The mechanism's integers have their width. *)
Definition mechanism_ok (d : DeleteMechanism) : Prop :=
  match d with
  | IcebergPositionalDelete _ size | IcebergEqualityDelete _ size => u64_ok size
  | IcebergPuffinDeletionVector _ size o c r => u64_ok size /\ u64_ok o /\ u64_ok c /\ u64_ok r
  | DeltaDeletionVector _ _ offset size_in_bytes cardinality =>
      (forall o, offset = Some o -> signed_ok 32 o) /\ signed_ok 32 size_in_bytes /\ signed_ok 64 cardinality
  end.

Definition entry_ok (e : FileEntry) : Prop := u64_ok e.(size) /\ Forall mechanism_ok e.(deletes).

Lemma storage_roundtrip s : from_unit_variant STORAGES (storage_to_json s) = Some s.
Proof. by destruct s. Qed.

Lemma content_type_roundtrip c : from_unit_variant CONTENT_TYPES (content_type_to_json c) = Some c.
Proof. by destruct c. Qed.

Lemma mechanism_wire_roundtrip d : mechanism_of_wire (wire_of_mechanism d) = Ok d.
Proof. by destruct d. Qed.

Ltac wire_fields :=
  unfold required, optional, field; cbn [List.filter fst String.eqb Ascii.eqb Bool.eqb app skip_none mbind option_bind];
  rewrite ?content_type_roundtrip, ?storage_roundtrip, ?u64_roundtrip, ?signed_roundtrip by naive_solver;
  cbn [mbind option_bind as_str].

Lemma mechanism_json_roundtrip d : mechanism_ok d -> mechanism_from_json (mechanism_to_json d) = Some d.
Proof.
  intros Hd. unfold mechanism_from_json, mechanism_to_json.
  enough (E : wire_from_json (wire_to_json (wire_of_mechanism d)) = Some (wire_of_mechanism d)).
  { rewrite E. cbn. by rewrite mechanism_wire_roundtrip. }
  destruct d; cbn [mechanism_ok] in Hd; cbn [wire_of_mechanism wire_to_json wire_from_json].
  - wire_fields. done.
  - wire_fields. done.
  - wire_fields. done.
  - destruct offset as [o|]; wire_fields; done.
Qed.

Lemma deletes_json_roundtrip ds :
  Forall mechanism_ok ds -> deletes_from_json (JArray (map mechanism_to_json ds)) = Some ds.
Proof.
  intros H. unfold deletes_from_json. cbn [as_array mbind option_bind]. apply mapM_roundtrip.
  eapply Forall_impl; [exact H|]. apply mechanism_json_roundtrip.
Qed.

Lemma fold_insert_list_to_map (kvs : list (string * option string)) :
  fold_left (fun m '(k, x) => <[k := x]> m) kvs (∅ : gmap string (option string)) = list_to_map (reverse kvs).
Proof.
  rewrite <- (reverse_involutive kvs) at 1. induction (reverse kvs) as [|[k x] l IH]; [done|].
  rewrite reverse_cons, fold_left_app, IH. done.
Qed.

Lemma values_json_roundtrip m : values_from_json (values_to_json m) = Some m.
Proof.
  unfold values_from_json, values_to_json. cbn.
  assert (Hdec : forall l : list (string * option string),
    mapM (fun '(k, v) => x ← value_from_json v; Some (k, x))
      (map (fun '(k, x) => (k, match x with None => JNull | Some s => JString s end)) l) = Some l).
  { induction l as [|[k x] l IH]; [done|]. cbn. destruct x; cbn; by rewrite IH. }
  rewrite Hdec. cbn. f_equal. rewrite fold_insert_list_to_map.
  rewrite <- (list_to_map_to_list m) at 2. apply list_to_map_proper.
  - rewrite reverse_Permutation, merge_sort_Permutation. apply NoDup_fst_map_to_list.
  - by rewrite reverse_Permutation, merge_sort_Permutation.
Qed.

Lemma entry_wire_roundtrip e : entry_of_wire (wire_of_entry e) = e.
Proof.
  unfold wire_of_entry. destruct e as [p s d v]; cbn. case_bool_decide; cbn; [|done]. subst. by destruct d.
Qed.

Lemma entry_json_roundtrip e : entry_ok e -> entry_from_json (entry_to_json e) = Some e.
Proof.
  intros [Hs Hd]. unfold entry_from_json, entry_to_json.
  enough (E : entry_wire_from_json (entry_wire_to_json (wire_of_entry e)) = Some (wire_of_entry e)).
  { rewrite E. cbn. by rewrite entry_wire_roundtrip. }
  unfold wire_of_entry. destruct e as [p s d v]; cbn [path size deletes partition_values] in *.
  case_bool_decide; cbn [negb].
  - destruct d as [|d0 d]; cbn [entry_wire_to_json entry_wire_from_json as_str mbind option_bind];
      rewrite u64_roundtrip by done; [done|]. cbn [mbind option_bind].
    rewrite deletes_json_roundtrip by done. done.
  - cbn [entry_wire_to_json entry_wire_from_json]. destruct d as [|d0 d]; wire_fields;
      rewrite ?values_json_roundtrip; [done|].
    by rewrite deletes_json_roundtrip.
Qed.

Lemma entries_json_roundtrip files :
  Forall entry_ok files -> mapM entry_from_json (map entry_to_json files) = Some files.
Proof.
  intros H. apply mapM_roundtrip. eapply Forall_impl; [exact H|]. apply entry_json_roundtrip.
Qed.

(** A shard's file list survives the wire: whatever the entries (bare, with
    deletes, with partition values), the scan reads back exactly the list the adapter
    wrote, except that it refuses a list in which an entry mixes a Delta deletion
    vector with an Iceberg delete file, naming the first such entry. *)
Theorem files_wire_roundtrip print parse describe files :
  parse (print (JArray (map entry_to_json files))) = Some (JArray (map entry_to_json files)) ->
  Forall entry_ok files ->
  files_from_json parse describe (files_json print files)
    = let? _ := check_entries 0 files in Ok files.
Proof.
  intros Hpp Hok. unfold files_from_json, files_json. rewrite Hpp. cbn [mbind option_bind as_array].
  by rewrite entries_json_roundtrip.
Qed.

Lemma check_entries_ok index files : check_entries index files = Ok tt <-> Forall (fun e => mixes e = false) files.
Proof.
  revert index. induction files as [|e files IH]; intros index; cbn; [by split|].
  destruct (mixes e) eqn:Em; [split; [done|]; intros H; apply Forall_cons_1 in H as [H _]; congruence|].
  rewrite IH. split; [by constructor|]. intros H. by apply Forall_cons_1 in H as [_ H].
Qed.

(** No payload gets both kinds of deletion applied to one data file: whatever text
    the scan is handed, the list it accepts has no entry that mixes them. *)
Theorem accepted_files_never_mix parse describe s files :
  files_from_json parse describe s = Ok files -> Forall (fun e => mixes e = false) files.
Proof.
  unfold files_from_json. destruct (doc ← parse s; l ← as_array doc; mapM entry_from_json l) as [l|]; [|done].
  destruct (check_entries 0 l) as [[]|] eqn:Ec; [|done]. intros [= <-]. by apply check_entries_ok in Ec.
Qed.

(** An entry of each wire form. *)
Definition sample_files : list FileEntry := [
  {| path := "a.parquet"; size := 10; deletes := []; partition_values := ∅ |};
  {| path := "b.parquet"; size := 20;
     deletes := [IcebergPuffinDeletionVector "dv.puffin" 900 4 60 2]; partition_values := ∅ |};
  {| path := "c.parquet"; size := 30;
     deletes := [DeltaDeletionVector Inline "0rJua0000000" None 40 (-1)];
     partition_values := {["day" := Some "2024-01-01"; "region" := None]} |}].

Lemma sample_files_ok : Forall entry_ok sample_files.
Proof.
  unfold sample_files. repeat first [apply Forall_cons; split | apply Forall_nil; exact I | split];
    cbn; unfold u64_ok, signed_ok, u64_max; try lia; try done.
  all: repeat constructor; cbn; unfold u64_ok, signed_ok, u64_max; try lia; try done.
Qed.

Lemma files_wire_roundtrip_witness :
  let doc := JArray (map entry_to_json sample_files) in
  files_from_json (fun _ => Some doc) (fun s => s) (files_json (fun _ => "doc") sample_files) = Ok sample_files.
Proof.
  intros doc. exact (files_wire_roundtrip (fun _ => "doc") (fun _ => Some doc) (fun s => s) sample_files
    eq_refl sample_files_ok).
Defined.

Lemma accepted_files_never_mix_witness : Forall (fun e => mixes e = false) sample_files.
Proof.
  apply (accepted_files_never_mix (fun _ => Some (JArray (map entry_to_json sample_files))) (fun s => s) "doc").
  unfold files_from_json. cbn [mbind option_bind as_array].
  rewrite entries_json_roundtrip by exact sample_files_ok. reflexivity.
Defined.
