(* ===== verification/ObjectLocation.v ===== *)
(** crates/lakehouse-engine/src/scan/object_location.rs and
    adapter/pushdown/shard_paths.rs: the store root and raw key of an object, the
    escaped path a scan spec carries for it, and the paths relative to a table root. *)

From stdpp Require Import base list strings numbers gmap.
From Stdlib Require Import Ascii String ZArith NArith Lia.
From S2P Require Import Prelude Text Json Redaction ScanFiles.

Local Open Scope string_scope.

(** ** Escaping *)

(** [WIRE_ESCAPED]; [utf8_percent_encode] also escapes every byte above ASCII. *)
Definition WIRE_ESCAPED : list ascii := ["%"; "#"; "?"; "\"; " "]%char.

Definition is_ascii (c : ascii) : bool := (code c <? 128)%N.
Definition wire_escapes (c : ascii) : bool := existsb (Ascii.eqb c) WIRE_ESCAPED || negb (is_ascii c).

Definition upper_digit (n : N) : ascii := ascii_of_N (if (n <? 10)%N then n + 48 else n + 55)%N.

Definition percent_byte (c : ascii) : string :=
  if wire_escapes c then String "%" (String (upper_digit (code c / 16)) (String (upper_digit (code c mod 16)) "")) else String c "".

Fixpoint utf8_percent_encode (s : string) : string :=
  match s with EmptyString => "" | String c s' => percent_byte c ++ utf8_percent_encode s' end.

Definition escape_parts (parts : list string) : string := join "/" (map utf8_percent_encode parts).

(** ** Locations

    [Url], [ListingTableUrl] and [StorePath] are the url, datafusion and object_store
    crates'; a [StorePath] is its parts. *)
Class StoreUrls (U : Type) := {
  parse_url : string -> result string U;
  (** [&url[Position::BeforeScheme..Position::BeforePath]] *)
  before_path : U -> string;
  url_path : U -> string;
  store_path_parse : string -> result string (list string);
  from_url_path : string -> result string (list string);
  part_parse : string -> result string string;
  (** The text and the prefix of [ListingTableUrl::parse]. *)
  listing_parse : string -> result string (string * list string);
}.

(** [split_once] at a text. *)
Fixpoint split_once_str (pat s : string) : option (string * string) :=
  match strip_prefix pat s with
  | Some rest => Some ("", rest)
  | None => match s with EmptyString => None | String c s' => '(a, b) ← split_once_str pat s'; Some (String c a, b) end
  end.

Record ObjectLocation (U : Type) := MkLocation { store_root : U; key : list string }.
Arguments MkLocation {U}. Arguments store_root {U}. Arguments key {U}.

Section Locations.
Context {U : Type} {SU : StoreUrls U} `{!EqDecision U}.

(** scan/object_store.rs. *)
Definition store_root_url (uri : string) : result UdfError U :=
  match parse_url uri with
  | Err e => Err (User ("invalid file URI: " ++ e))
  | Ok url =>
      let store := before_path url in
      match parse_url store with
      | Err e => Err (User ("invalid object-store root '" ++ store ++ "': " ++ e))
      | Ok root => Ok root
      end
  end.

Definition from_raw (location : string) : result UdfError (ObjectLocation U) :=
  let refused (cause : string) := User ("invalid storage location '" ++ location ++ "': " ++ cause) in
  match split_once_str "://" location with
  | Some (scheme, rest) =>
      if String.eqb scheme "" then Err (refused "it names no scheme")
      else
        let '(authority, key) := default (rest, "") (split_once "/" rest) in
        let key := trim_end_matches "/" key in
        match parse_url (scheme ++ "://" ++ authority) with
        | Err e => Err (refused e)
        | Ok root => match store_path_parse key with Err e => Err (refused e) | Ok parts => Ok (MkLocation root parts) end
        end
  | None => Err (refused "it names no scheme")
  end.

Definition from_url (url : string) : result UdfError (ObjectLocation U) :=
  match parse_url url with
  | Err e => Err (User ("invalid storage URI '" ++ url ++ "': " ++ e))
  | Ok parsed =>
      match from_url_path (url_path parsed) with
      | Err e => Err (User ("invalid storage path in '" ++ url ++ "': " ++ e))
      | Ok parts => let? root := store_root_url url in Ok (MkLocation root parts)
      end
  end.

Definition parse_wire (path : string) : result UdfError (ObjectLocation U) :=
  match listing_parse path with
  | Err e => Err (User ("invalid file URL '" ++ path ++ "': " ++ e))
  | Ok (url, prefix) => let? root := store_root_url url in Ok (MkLocation root prefix)
  end.

Definition parse_entry (entry_path table_root : string) : result UdfError (ObjectLocation U) :=
  parse_wire (reconstruct_abs_uri entry_path table_root).

Definition at_key (l : ObjectLocation U) (key : list string) : ObjectLocation U := MkLocation (store_root l) key.

Definition root_str (l : ObjectLocation U) : string := before_path (store_root l).

(** The [Display] of a location: the raw form. *)
Definition location_display (l : ObjectLocation U) : string := root_str l ++ "/" ++ join "/" (key l).

Definition child (l : ObjectLocation U) (name : string) : result UdfError (ObjectLocation U) :=
  match part_parse name with
  | Err e => Err (User ("invalid key segment '" ++ name ++ "' below '" ++ location_display l ++ "': " ++ e))
  | Ok part => Ok (at_key l (key l ++ [part]))
  end.

(** [StorePath::prefix_match]: the parts below a prefix. *)
Fixpoint prefix_match (prefix parts : list string) : option (list string) :=
  match prefix, parts with
  | [], _ => Some parts
  | p :: prefix', q :: parts' => if String.eqb p q then prefix_match prefix' parts' else None
  | _ :: _, [] => None
  end.

Definition relative_to (l root : ObjectLocation U) : option string :=
  if negb (bool_decide (store_root l = store_root root)) then None
  else
    below ← prefix_match (key root) (key l);
    match below with [] => None | _ => Some (escape_parts below) end.

Definition to_wire (l : ObjectLocation U) : string := root_str l ++ "/" ++ escape_parts (key l).

(** ** Shard paths *)

Definition relativize_path_to_root (path : string) (table_root : option (ObjectLocation U)) : string :=
  default path
    (root ← table_root;
     if contains "://" path then l ← ok (parse_wire path); relative_to l root else None).

(** [*object_store_path_mut() = f(path)]. *)
Definition with_object_store_path (f : string -> string) (d : DeleteMechanism) : DeleteMechanism :=
  match d with
  | IcebergPositionalDelete path size => IcebergPositionalDelete (f path) size
  | IcebergEqualityDelete path size => IcebergEqualityDelete (f path) size
  | IcebergPuffinDeletionVector path size offset bytes records => IcebergPuffinDeletionVector (f path) size offset bytes records
  | DeltaDeletionVector _ _ _ _ _ => d
  end.

Definition relativize_entry (root : option (ObjectLocation U)) (e : FileEntry) : FileEntry :=
  {| path := relativize_path_to_root (path e) root; size := size e;
     deletes := map (with_object_store_path (fun p => relativize_path_to_root p root)) (deletes e);
     partition_values := partition_values e |}.

Definition relativize_shards_to_root (shards : list (list FileEntry)) (table_root : string) : list (list FileEntry) :=
  let root := ok (parse_wire table_root) in
  map (map (relativize_entry root)) shards.
End Locations.

(** ** A wire path names one object *)

(** A part of a [StorePath]. *)
Definition is_control (c : ascii) : bool := (code c <? 32)%N || (code c =? 127)%N.
Definition plain_part (p : string) : Prop :=
  p <> "" /\ p <> "." /\ p <> ".." /\ string_forallb (fun c => negb (Ascii.eqb c "/" || is_control c)) p = true.

(** Percent-decoding. *)
Definition hex_value (c : ascii) : option N :=
  let n := code c in
  if (48 <=? n)%N && (n <=? 57)%N then Some (n - 48)%N
  else if (65 <=? n)%N && (n <=? 70)%N then Some (n - 55)%N
  else if (97 <=? n)%N && (n <=? 102)%N then Some (n - 87)%N
  else None.

Fixpoint percent_decode (s : string) : string :=
  match s with
  | EmptyString => ""
  | String c s' =>
      match Ascii.eqb c "%", s' with
      | true, String h (String l rest) =>
          match hex_value h, hex_value l with
          | Some a, Some b => String (ascii_of_N (16 * a + b)) (percent_decode rest)
          | _, _ => String c (percent_decode s')
          end
      | _, _ => String c (percent_decode s')
      end
  end.

(** Text a URL parse keeps as it is, apart from dot segments. *)
Definition url_safe (s : string) : bool :=
  string_forallb (fun c => is_ascii c && negb (is_control c) && negb (existsb (Ascii.eqb c) ["#"; "?"; "\"; " "]%char)) s.

Definition key_parts (text : string) : list string := if String.eqb text "" then [] else split_char "/" text.

(** What the scan relies on, for the store roots it covers: a root's text has a scheme
    and parses to itself; below it, text no URL parse changes is kept, percent-decoded
    once and split at its slashes into the parts of the key. *)
Class StoreUrlLaws (U : Type) {SU : StoreUrls U} := {
  covered : U -> Prop;
  root_scheme u : covered u -> exists a b, before_path u = a ++ "://" ++ b;
  listing_reads u text parts :
    covered u -> url_safe text = true -> parts = key_parts (percent_decode text) -> Forall plain_part parts ->
    exists url parsed, listing_parse (before_path u ++ "/" ++ text) = Ok (url, parts) /\ parse_url url = Ok parsed
      /\ before_path parsed = before_path u /\ parse_url (before_path u) = Ok u;
  raw_parts text parts : store_path_parse text = Ok parts -> parts = key_parts text /\ Forall plain_part parts;
}.

Lemma decode_byte c s : percent_decode (percent_byte c ++ s) = String c (percent_decode s).
Proof. by destruct c as [[] [] [] [] [] [] [] []]. Qed.

Lemma decode_encoded s rest : percent_decode (utf8_percent_encode s ++ rest) = s ++ percent_decode rest.
Proof.
  induction s as [|c s IH]; [done|]. cbn [utf8_percent_encode]. rewrite string_app_assoc, decode_byte, IH. done.
Qed.

Lemma decode_parts parts : percent_decode (escape_parts parts) = join "/" parts.
Proof.
  unfold escape_parts. induction parts as [|p parts IH]; [done|]. cbn [map join]. destruct parts as [|q parts].
  - cbn [map]. rewrite <- (string_app_nil_r (utf8_percent_encode p)), decode_encoded. apply string_app_nil_r.
  - cbn [map] in *. rewrite decode_encoded. f_equal. change ("/" ++ ?s) with (String "/" s). cbn [percent_decode]. by rewrite IH.
Qed.

Lemma forallb_app p a b : string_forallb p (a ++ b) = string_forallb p a && string_forallb p b.
Proof.
  induction a as [|c a IH]; [done|]. change (String c a ++ b) with (String c (a ++ b)). cbn [string_forallb]. by rewrite IH, andb_assoc.
Qed.

Definition slash_free (s : string) : bool := string_forallb (fun c => negb (Ascii.eqb c "/")) s.

Lemma encoded_byte c : Ascii.eqb c "/" || is_control c = false -> url_safe (percent_byte c) = true /\ slash_free (percent_byte c) = true.
Proof. by destruct c as [[] [] [] [] [] [] [] []]. Qed.

Lemma encoded_part p : plain_part p -> url_safe (utf8_percent_encode p) = true /\ slash_free (utf8_percent_encode p) = true.
Proof.
  intros (_ & _ & _ & H). induction p as [|c p IH]; [done|]. cbn [string_forallb] in H. apply andb_true_iff in H as [Hc H].
  apply negb_true_iff, encoded_byte in Hc as [H1 H2]. apply IH in H as [H3 H4]. cbn [utf8_percent_encode]. unfold url_safe, slash_free in *.
  rewrite !forallb_app. by rewrite H1, H2, H3, H4.
Qed.

Lemma encoded_nonempty p : p <> "" -> utf8_percent_encode p <> "".
Proof. destruct p as [|c p]; [done|]. intros _. cbn. unfold percent_byte. by destruct (wire_escapes c). Qed.

Lemma parts_safe parts : Forall plain_part parts -> url_safe (escape_parts parts) = true.
Proof.
  unfold escape_parts. induction 1 as [|p parts Hp Hps IH]; [done|]. cbn [map join]. destruct parts as [|q parts]; cbn [map].
  - by apply encoded_part.
  - apply encoded_part in Hp as [Hp _]. unfold url_safe in *. rewrite !forallb_app. cbn [map] in IH. by rewrite IH, Hp.
Qed.

Lemma split_app c x y : split_char c (x ++ String c y) = (split_char c x ++ split_char c y)%list.
Proof.
  induction x as [|d x IH].
  - change ("" ++ String c y) with (String c y). cbn [split_char]. by rewrite Ascii.eqb_refl.
  - change (String d x ++ ?r) with (String d (x ++ r)). cbn [split_char]. rewrite IH. destruct (Ascii.eqb d c); [done|].
    destruct (split_char c x) eqn:E; [|done]. destruct x as [|e x]; [done|]. cbn in E. destruct (Ascii.eqb e c); [done|].
    by destruct (split_char c x).
Qed.

Lemma split_slash_free s : slash_free s = true -> split_char "/" s = [s].
Proof.
  induction s as [|c s IH]; [done|]. unfold slash_free. cbn [string_forallb]. rewrite andb_true_iff, negb_true_iff. intros [Hc H].
  cbn [split_char]. rewrite Hc. by rewrite IH.
Qed.

Lemma split_join parts : parts <> [] -> Forall (fun p => slash_free p = true) parts -> split_char "/" (join "/" parts) = parts.
Proof.
  induction parts as [|p parts IH]; [done|]. intros _ [Hp H]%Forall_cons_1. destruct parts as [|q parts]; [by apply split_slash_free|].
  change (join "/" (p :: q :: parts)) with (p ++ String "/" (join "/" (q :: parts))). rewrite split_app, IH by done.
  by rewrite split_slash_free.
Qed.

Lemma plain_slash_free p : plain_part p -> slash_free p = true.
Proof.
  intros (_ & _ & _ & H). unfold slash_free. induction p as [|c p IH]; [done|]. cbn [string_forallb] in *.
  apply andb_true_iff in H as [Hc H]. rewrite IH by done. apply negb_true_iff, orb_false_iff in Hc as [-> _]. done.
Qed.

Lemma join_empty parts : Forall (fun p : string => p <> "") parts -> join "/" parts = "" -> parts = [].
Proof. intros [|p l Hp _]; [done|]. destruct l; cbn; [done|]. by destruct p. Qed.

Lemma key_parts_join parts : Forall plain_part parts -> key_parts (join "/" parts) = parts.
Proof.
  intros H. unfold key_parts. destruct (String.eqb_spec (join "/" parts) "") as [E|E].
  - symmetry. apply join_empty; [|done]. eapply Forall_impl; [exact H|]. by intros p (? & _).
  - apply split_join; [by intros ->|]. eapply Forall_impl; [exact H|]. apply plain_slash_free.
Qed.

(** *** Relative paths *)

Lemma prefix_split pre s : String.prefix pre s = true -> exists r, s = pre ++ r.
Proof.
  revert s. induction pre as [|c pre IH]; intros s; [by exists s|]. destruct s as [|d s]; [done|]. cbn [String.prefix].
  destruct (ascii_dec c d) as [<-|]; [|done]. intros [r ->]%IH. by exists r.
Qed.

Lemma prefix_app_true pre r : String.prefix pre (pre ++ r) = true.
Proof.
  induction pre as [|c pre IH]; [by destruct r|]. change (String c pre ++ r) with (String c (pre ++ r)). cbn [String.prefix].
  by destruct (ascii_dec c c).
Qed.

Lemma contains_app needle a b : contains needle (a ++ needle ++ b) = true.
Proof.
  induction a as [|c a IH].
  - change ("" ++ needle ++ b) with (needle ++ b). destruct (needle ++ b) eqn:E; cbn [contains]; rewrite <- E, prefix_app_true; done.
  - change (String c a ++ ?r) with (String c (a ++ r)). cbn [contains]. rewrite IH. apply orb_true_r.
Qed.

Lemma contains_split needle s : contains needle s = true -> exists a b, s = a ++ needle ++ b.
Proof.
  induction s as [|c s IH]; cbn [contains].
  - destruct (String.prefix needle "") eqn:E; [|done]. intros _. destruct needle; [by exists "", ""|done].
  - destruct (String.prefix needle (String c s)) eqn:E; [|intros (a & b & ->)%IH; by exists (String c a), b].
    intros _. exists "". apply prefix_split in E as [b ->]. by exists b.
Qed.

Lemma escaped_slash_free parts : Forall plain_part parts -> Forall (fun p => slash_free p = true) (map utf8_percent_encode parts).
Proof. intros H. apply Forall_fmap. eapply Forall_impl; [exact H|]. intros p Hp. by apply encoded_part in Hp as [_ ?]. Qed.

Lemma relative_no_scheme parts : parts <> [] -> Forall plain_part parts -> contains "://" (escape_parts parts) = false.
Proof.
  intros Hne H. destruct (contains _ _) eqn:E; [|done]. apply contains_split in E as (a & b & E).
  assert (Hin : "" ∈ split_char "/" (escape_parts parts)).
  { rewrite E. change (a ++ "://" ++ b) with (a ++ ":" ++ String "/" ("" ++ String "/" b)). rewrite <- string_app_assoc, !split_app.
    cbn [split_char]. set_solver. }
  unfold escape_parts in Hin. rewrite split_join in Hin; [|by destruct parts|by apply escaped_slash_free].
  apply list_elem_of_fmap in Hin as (p & E' & Hp). eapply Forall_forall in H as (Hp' & _); [|exact Hp]. by apply encoded_nonempty in Hp'.
Qed.

Lemma relative_no_slash parts : parts <> [] -> Forall plain_part parts -> strip_prefix_char "/" (escape_parts parts) = escape_parts parts.
Proof.
  intros Hne H. destruct parts as [|p parts]; [done|]. apply Forall_cons_1 in H as [Hp _]. pose proof (encoded_part p Hp) as [_ Hs].
  pose proof (encoded_nonempty p (proj1 Hp)) as Hn. unfold escape_parts. cbn [map].
  assert (exists rest, join "/" (utf8_percent_encode p :: map utf8_percent_encode parts) = utf8_percent_encode p ++ rest) as [rest ->].
  { cbn [join]. destruct (map _ parts); [exists ""; by rewrite string_app_nil_r|by eexists]. }
  destruct (utf8_percent_encode p) as [|c s]; [done|]. change (String c s ++ rest) with (String c (s ++ rest)). cbn [strip_prefix_char].
  unfold slash_free in Hs. cbn [string_forallb] in Hs. apply andb_true_iff in Hs as [Hc _]. rewrite Ascii.eqb_sym. by destruct (Ascii.eqb c "/").
Qed.

Lemma string_snoc s : s = "" \/ exists a d, s = a ++ String d "".
Proof. induction s as [|c s [->|(a & d & ->)]]; [by left|right; by exists "", c|right; by exists (String c a), d]. Qed.

Lemma strip_suffix_snoc c d a : strip_suffix_char c (a ++ String d "") = if Ascii.eqb c d then a else a ++ String d "".
Proof.
  unfold strip_suffix_char. assert (Hl : (String.length (a ++ String d "") - 1 = String.length a)%nat).
  { clear. induction a as [|e a IH]; [done|]. change (String e a ++ ?r) with (String e (a ++ r)). cbn [String.length].
    destruct (a ++ String d "") eqn:E; [by destruct a|]. cbn [String.length] in *. lia. }
  rewrite Hl. replace (String.get (String.length a) (a ++ String d "")) with (Some d) by (clear Hl; by induction a).
  destruct (Ascii.eqb c d); [|done]. clear Hl.
  induction a as [|e a IH]; [done|]. change (String e a ++ ?r) with (String e (a ++ r)). cbn [String.substring String.length]. by rewrite IH.
Qed.

Lemma strip_suffix_char_cases c s : (exists a, s = a ++ String c "") \/ strip_suffix_char c s = s.
Proof.
  destruct (string_snoc s) as [->|(a & d & ->)]; [by right|]. rewrite strip_suffix_snoc.
  destruct (Ascii.eqb_spec c d) as [->|]; [left; by exists a|by right].
Qed.

Lemma escape_app a b : a <> [] -> b <> [] -> escape_parts (a ++ b) = escape_parts a ++ "/" ++ escape_parts b.
Proof.
  unfold escape_parts. intros Ha Hb. rewrite map_app. induction a as [|x a IH]; [done|]. cbn [map app join].
  destruct a as [|y a]; cbn [map app] in *; [destruct b; [done|]; done|]. rewrite IH by done. cbn [join]. by rewrite !string_app_assoc.
Qed.

Section Theorems.
Context {U : Type} {SU : StoreUrls U} {SL : StoreUrlLaws U} `{!EqDecision U}.

Definition well_formed (l : ObjectLocation U) : Prop := covered (store_root l) /\ Forall plain_part (key l).

Lemma wire_roundtrip l : well_formed l -> parse_wire (to_wire l) = Ok l.
Proof.
  destruct l as [u parts]. intros [Hu Hp]. cbn [store_root key] in *. unfold to_wire, root_str, parse_wire. cbn [store_root key].
  destruct (listing_reads u (escape_parts parts) parts) as (url & parsed & -> & Hurl & Hb & Hr); [done|by apply parts_safe| |done|].
  - by rewrite decode_parts, key_parts_join.
  - unfold store_root_url. by rewrite Hurl, Hb, Hr.
Qed.

(** The root's wire text and a relative path below it make the wire text of the whole. *)
Lemma reconstruct_below (root : ObjectLocation U) below :
  Forall plain_part (key root) -> Forall plain_part below -> below <> [] ->
  reconstruct_abs_uri (escape_parts below) (to_wire root) = root_str root ++ "/" ++ escape_parts (key root ++ below).
Proof.
  intros Hr Hb Hne. unfold reconstruct_abs_uri. rewrite relative_no_scheme, relative_no_slash by done.
  destruct (key root) as [|p ps] eqn:Ek.
  - unfold to_wire. rewrite Ek. change (escape_parts []) with "". cbn [app].
    change ("/" ++ "") with (String "/" ""). by rewrite strip_suffix_snoc.
  - rewrite escape_app by done. unfold to_wire. rewrite Ek.
    destruct (strip_suffix_char_cases "/" (root_str root ++ "/" ++ escape_parts (p :: ps))) as [(a & Ha)| ->]; [|by rewrite !string_app_assoc].
    exfalso. apply (f_equal (split_char "/")) in Ha. change ("/" ++ escape_parts (p :: ps)) with (String "/" (escape_parts (p :: ps))) in Ha.
    rewrite !split_app in Ha. unfold escape_parts in Ha. rewrite split_join in Ha; [|done|by apply escaped_slash_free].
    apply (f_equal list.last) in Ha. rewrite !last_app in Ha. cbn [split_char list.last] in Ha.
    destruct (list.last (map utf8_percent_encode (p :: ps))) as [q|] eqn:El; [|by apply last_None in El].
    injection Ha as ->. apply last_Some_elem_of, list_elem_of_fmap in El as (x & E & Hx).
    eapply Forall_forall in Hr as (Hx' & _); [|exact Hx]. by apply encoded_nonempty in Hx'.
Qed.

Lemma prefix_match_app (prefix parts below : list string) : prefix_match prefix parts = Some below -> parts = (prefix ++ below)%list.
Proof.
  revert parts. induction prefix as [|p prefix IH]; intros parts; [by intros [= ->]|]. destruct parts as [|q parts]; [done|]. cbn [prefix_match].
  destruct (String.eqb_spec p q) as [->|]; [|done]. intros ->%IH. done.
Qed.

Lemma relativized_path l root :
  well_formed l -> well_formed root ->
  parse_entry (relativize_path_to_root (to_wire l) (ok (parse_wire (to_wire root)))) (to_wire root) = Ok l.
Proof.
  intros Hl Hr. unfold relativize_path_to_root, parse_entry. rewrite (wire_roundtrip root), (wire_roundtrip l) by done. cbn [ok mbind option_bind].
  assert (Hc : contains "://" (to_wire l) = true).
  { destruct (root_scheme _ (proj1 Hl)) as (a & b & E). unfold to_wire, root_str. rewrite E, !string_app_assoc. apply contains_app. }
  rewrite Hc. assert (Habs : parse_wire (reconstruct_abs_uri (to_wire l) (to_wire root)) = Ok l).
  { unfold reconstruct_abs_uri. rewrite Hc. by apply wire_roundtrip. }
  unfold relative_to. case_bool_decide as Hs; [|done]. cbn [negb]. destruct (prefix_match (key root) (key l)) as [below|] eqn:Ep; [|done].
  cbn [mbind option_bind]. assert (Hbelow : below = [] \/ below <> []) by (destruct below; auto).
  destruct Hbelow as [->|Hne]; [done|]. replace (match below with [] => None | _ => Some (escape_parts below) end) with (Some (escape_parts below)) by (by destruct below). apply prefix_match_app in Ep.
  destruct Hl as [Hu Hp], Hr as [_ Hr]. rewrite Ep in Hp. apply Forall_app in Hp as [_ Hb].
  cbn [default]. unfold from_option, id. rewrite reconstruct_below by done. rewrite <- Ep.
  replace (root_str root) with (root_str l) by (unfold root_str; by rewrite Hs). apply (wire_roundtrip l). by split; [|rewrite Ep; apply Forall_app].
Qed.

(** A location named literally, below a store root the laws cover. *)
Definition raw_object (location : string) (l : ObjectLocation U) : Prop := from_raw location = Ok l /\ covered (store_root l).

(** The text after the authority, without its trailing slashes. *)
Definition literal_key (location : string) : option string :=
  '(_, rest) ← split_once_str "://" location; Some (trim_end_matches "/" (default (rest, "") (split_once "/" rest)).2).

Lemma raw_object_key location l : raw_object location l -> well_formed l /\ key_parts <$> literal_key location = Some (key l).
Proof.
  unfold raw_object, from_raw, literal_key. intros [H Hc]. destruct (split_once_str "://" location) as [[scheme rest]|]; [|done].
  cbn [mbind option_bind]. destruct (String.eqb scheme ""); [done|]. destruct (default _ _) as [authority k]. cbn [snd].
  destruct (parse_url _) as [root|]; [|done]. destruct (store_path_parse _) as [parts|] eqn:E; [|done].
  injection H as <-. apply raw_parts in E as [-> Hp]. done.
Qed.

(** The objects an entry reads, with its paths as the scan resolves them. *)
Definition entry_objects (resolve : string -> result UdfError (ObjectLocation U)) (e : FileEntry)
  : result UdfError (ObjectLocation U) * list (option (result UdfError (ObjectLocation U))) :=
  (resolve (path e), map (fun d => resolve <$> object_store_path d) (deletes e)).

Definition entry_paths (e : FileEntry) : list string := path e :: omap object_store_path (deletes e).

Lemma relativized_entry root e :
  well_formed root -> (forall p, p ∈ entry_paths e -> exists l, well_formed l /\ p = to_wire l) ->
  entry_objects (fun p => parse_entry p (to_wire root)) (relativize_entry (ok (parse_wire (to_wire root))) e) = entry_objects parse_wire e.
Proof.
  intros Hr He.
  assert (Hpath : forall p, p ∈ entry_paths e ->
    parse_entry (relativize_path_to_root p (ok (parse_wire (to_wire root)))) (to_wire root) = parse_wire p).
  { intros p (l & Hl & ->)%He. by rewrite relativized_path, wire_roundtrip. }
  unfold entry_objects, relativize_entry. cbn [path deletes]. f_equal; [apply Hpath; by left|]. rewrite map_map. apply List.map_ext_in.
  intros d Hd%list_elem_of_In. destruct d; cbn [with_object_store_path object_store_path fmap option_fmap option_map]; [| | |done];
    f_equal; apply Hpath; right; apply list_elem_of_omap; by eexists.
Qed.
End Theorems.

(** C15. The objects of a scan are the ones the table names: for files and delete files
    whose locations are written literally - reserved characters, percent signs and
    non-ASCII bytes included - the relativised wire paths a shard carries resolve, under
    the table root, to the very same store and raw key, whether below the root or not,
    and that key is the literal text's. *)
Theorem relativized_shards_name_same_objects {U} {SU : StoreUrls U} {SL : StoreUrlLaws U} `{!EqDecision U} shards table root :
  raw_object table root ->
  (forall shard e p, shard ∈ shards -> e ∈ shard -> p ∈ entry_paths e -> exists location l, raw_object location l /\ p = to_wire l) ->
  let table_root := to_wire root in
  map (map (entry_objects (fun p => parse_entry p table_root))) (relativize_shards_to_root shards table_root)
    = map (map (entry_objects parse_wire)) shards
  /\ (forall location l, raw_object location l -> parse_wire (to_wire l) = Ok l /\ key_parts <$> literal_key location = Some (key l)).
Proof.
  intros Ht Hs table_root. split.
  - unfold relativize_shards_to_root. rewrite map_map. apply List.map_ext_in. intros shard Hshard%list_elem_of_In.
    rewrite map_map. apply List.map_ext_in. intros e He%list_elem_of_In. apply relativized_entry; [by eapply raw_object_key|].
    intros p Hp. destruct (Hs shard e p) as (location & l & Hl & ->); [done..|]. exists l. split; [by eapply raw_object_key|done].
  - intros location l [Hw Hk]%raw_object_key. split; [by apply wire_roundtrip|done].
Qed.

#[local] Instance plain_part_dec p : Decision (plain_part p).
Proof. unfold plain_part. apply _. Defined.

(** One bucket, read with the decoding the laws state. *)
Definition bucket_root : string := "s3://bucket".
Definition bucket_parts (text : string) : result string (list string) :=
  let parts := key_parts text in
  if forallb (fun p => bool_decide (plain_part p)) parts then Ok parts else Err "invalid path".
Definition bucket_urls : StoreUrls string :=
  {| parse_url text := if starts_with bucket_root text then Ok bucket_root else Err "no such store";
     before_path u := u; url_path _ := "/"; store_path_parse := bucket_parts; from_url_path := bucket_parts; part_parse := Ok;
     listing_parse text := match strip_prefix (bucket_root ++ "/") text with
                           | Some rest => let? parts := bucket_parts (percent_decode rest) in Ok (text, parts)
                           | None => Err "no such store"
                           end |}.

Lemma bucket_parts_plain text : Forall plain_part (key_parts text) -> bucket_parts text = Ok (key_parts text).
Proof.
  intros H. unfold bucket_parts. rewrite (proj2 (forallb_forall _ _)); [done|]. intros p Hp%list_elem_of_In.
  apply bool_decide_eq_true_2. by eapply Forall_forall.
Qed.

#[local] Instance bucket_laws : StoreUrlLaws string (SU := bucket_urls).
Proof.
  refine {| covered u := u = bucket_root |}.
  - intros u ->. by exists "s3", "bucket".
  - intros u text parts -> _ -> Hp. exists (bucket_root ++ "/" ++ text), bucket_root. cbn [bucket_urls listing_parse before_path parse_url].
    rewrite <- string_app_assoc, strip_prefix_app. rewrite bucket_parts_plain by done. unfold starts_with.
    by rewrite string_app_assoc, prefix_app_true.
  - intros text parts. cbn. unfold bucket_parts. destruct (forallb _ _) eqn:E; [|done]. intros [= <-]. split; [done|].
    apply Forall_forall. intros p Hp%list_elem_of_In. rewrite forallb_forall in E. by apply E, bool_decide_eq_true in Hp.
Defined.

Definition odd_location : string := "s3://bucket/db/t/100% #1.parquet".
Definition odd_file : ObjectLocation string := MkLocation bucket_root ["db"; "t"; "100% #1.parquet"].
Definition odd_entry : FileEntry := {| path := to_wire (SU := bucket_urls) odd_file; size := 9; deletes := []; partition_values := ∅ |}.
Definition table_location : ObjectLocation string := MkLocation bucket_root ["db"; "t"].

Lemma relativized_shards_name_same_objects_witness :
  map (map path) (relativize_shards_to_root (SU := bucket_urls) [[odd_entry]] (to_wire (SU := bucket_urls) table_location)) = [["100%25%20%231.parquet"]]
  /\ map (map (entry_objects (fun p => parse_entry (SU := bucket_urls) p (to_wire (SU := bucket_urls) table_location))))
       (relativize_shards_to_root (SU := bucket_urls) [[odd_entry]] (to_wire (SU := bucket_urls) table_location))
     = [[(Ok odd_file, [])]].
Proof.
  split; [reflexivity|].
  refine (proj1 (relativized_shards_name_same_objects (SU := bucket_urls) (SL := bucket_laws) [[odd_entry]] "s3://bucket/db/t/" table_location _ _)).
  - by split.
  - intros shard e p ->%list_elem_of_singleton ->%list_elem_of_singleton ->%list_elem_of_singleton. exists odd_location, odd_file. by split.
Defined.
