(* ===== verification/TableIdentity.v ===== *)
(** Which catalog table a virtual table is: the identifiers of lakehouse-catalog's
    client.rs, the virtual names of adapter/tables.rs, the identifier notes of
    adapter/table_identity.rs, and the identifier rule of each catalog kind
    (namespace.rs, glue/client.rs, adapter/pushdown/scan_catalog.rs). *)

From stdpp Require Import base list strings numbers gmap.
From Stdlib Require Import Ascii String ZArith NArith Lia.
From S2P Require Import Prelude Text Json Redaction ObjectLocation.

Local Open Scope string_scope.

Record CatalogTableIdent := MkIdent { namespace : list string; ident_name : string }.

#[export] Instance CatalogTableIdent_eq_dec : EqDecision CatalogTableIdent.
Proof. solve_decision. Defined.

Definition catalog_identifier_string (ident : CatalogTableIdent) : string := join "." (namespace ident ++ [ident_name ident])%list.

(** ** Virtual names *)

(** [slice::starts_with] and the rest. *)
Fixpoint strip_list_prefix (prefix l : list string) : option (list string) :=
  match prefix, l with
  | [], _ => Some l
  | p :: prefix', x :: l' => if String.eqb p x then strip_list_prefix prefix' l' else None
  | _ :: _, [] => None
  end.

Section Names.
Context {UC : UnicodeCase}.

Definition flatten_table_name (configured_ns : list string) (ident : CatalogTableIdent) : string :=
  let sub_ns := default (namespace ident) (strip_list_prefix configured_ns (namespace ident)) in
  to_uppercase (join "__" (sub_ns ++ [ident_name ident])%list).

Definition collision (exasol_name existing catalog_id : string) : UdfError :=
  User ("table name collision: '" ++ exasol_name ++ "' maps to both '" ++ existing ++ "' and '" ++ catalog_id ++ "'").

(** The loop; [seen] maps each name taken so far to its identifier. *)
Fixpoint reject_collisions_from (seen : list (string * string)) (configured_ns : list string) (idents : list CatalogTableIdent)
  : result UdfError () :=
  match idents with
  | [] => Ok tt
  | ident :: rest =>
      let exasol_name := flatten_table_name configured_ns ident in
      let catalog_id := catalog_identifier_string ident in
      match snd <$> List.find (fun e => String.eqb e.1 exasol_name) seen with
      | Some existing => Err (collision exasol_name existing catalog_id)
      | None => reject_collisions_from ((exasol_name, catalog_id) :: seen) configured_ns rest
      end
  end.

Definition reject_name_collisions (configured_ns : list string) (idents : list CatalogTableIdent) : result UdfError () :=
  reject_collisions_from [] configured_ns idents.
End Names.

(** ** Identifier notes *)

Definition NOTE_NAME : string := "name".

Definition encode_identifier_note (print : Json -> string) (ident : CatalogTableIdent) : string :=
  print (json_object [(NOTE_NAME, JString (catalog_identifier_string ident))]).

Definition no_identifier_note (table_name : string) : UdfError :=
  User ("pushdown: virtual table '" ++ table_name
    ++ "' has no readable identifier note; run ALTER VIRTUAL SCHEMA ... REFRESH to write it").

Definition read_identifier (parse : string -> option Json) (request : Json) (table_name : string) : result UdfError string :=
  ok_or
    (table ← List.find (fun t => bool_decide (get_str t "name" = Some table_name)) (default [] (get_array request "involvedTables"));
     note ← get_str table "adapterNotes";
     note ← parse note;
     get_str note NOTE_NAME)
    (no_identifier_note table_name).

(** ** The identifier rule of each kind *)

(** namespace.rs; [NamespaceIdent::from_vec] refuses only an empty list. *)
Definition parse_table_ident (qualified : string) : result UdfError (list string * string) :=
  let parts := split_char "." qualified in
  if (List.length parts <? 2)%nat then Err (User ("table property must be 'namespace.table', got: '" ++ qualified ++ "'"))
  else Ok (removelast parts, List.last parts "").

Definition parse_glue_table_ident (table_identifier : string) : result UdfError CatalogTableIdent :=
  let refusal := User ("pushdown: the recorded catalog identifier '" ++ table_identifier
    ++ "' names no Glue table — a Glue table is addressed as 'database.table'; drop and recreate the virtual schema") in
  match split_once "." table_identifier with
  | Some (database, name) =>
      if negb (String.eqb (trim database) "") && negb (String.eqb (trim name) "") then Ok (MkIdent [database] name) else Err refusal
  | None => Err refusal
  end.

(** [str::rsplit_once]. *)
Fixpoint rsplit_once (c : ascii) (s : string) : option (string * string) :=
  match s with
  | EmptyString => None
  | String d s' =>
      match rsplit_once c s' with
      | Some (a, b) => Some (String d a, b)
      | None => if Ascii.eqb d c then Some ("", s') else None
      end
  end.

Definition unity_table_ident (table_identifier : string) : result UdfError CatalogTableIdent :=
  match rsplit_once "." table_identifier with
  | None =>
      Err (User ("pushdown: the recorded catalog identifier '" ++ table_identifier
        ++ "' names no Unity Catalog table — a Unity Catalog table is addressed as 'catalog.schema.table'; drop and recreate the virtual schema"))
  | Some (namespace, name) =>
      if String.eqb (trim name) "" then
        Err (User ("pushdown: the recorded catalog identifier '" ++ table_identifier
          ++ "' names no table — its last dot-separated segment is empty; drop and recreate the virtual schema"))
      else Ok (MkIdent (split_char "." namespace) name)
  end.

Definition direct_storage_directory (table_identifier : string) : result UdfError string :=
  let refusal (reason : string) := Err (User ("pushdown: the recorded catalog identifier '" ++ table_identifier
    ++ "' names no first-level directory under the storage base path — " ++ reason ++ "; drop and recreate the virtual schema")) in
  if String.eqb (trim table_identifier) "" then refusal "it is empty"
  else if contains "/" table_identifier || contains "\" table_identifier then refusal "it carries a path separator"
  else if String.eqb table_identifier "." || String.eqb table_identifier ".." then refusal "it names a relative path rather than a directory"
  else Ok table_identifier.

Definition direct_storage_table_root {U} {SU : StoreUrls U} (root : ObjectLocation U) (table_identifier : string)
  : result UdfError (ObjectLocation U) :=
  let? directory := direct_storage_directory table_identifier in child root directory.

(** ** A note leads back to its table *)

Definition dot_free (s : string) : bool := string_forallb (fun c => negb (Ascii.eqb c ".")) s.

Lemma split_free c s : string_forallb (fun d => negb (Ascii.eqb d c)) s = true -> split_char c s = [s].
Proof.
  induction s as [|d s IH]; [done|]. cbn [string_forallb]. rewrite andb_true_iff, negb_true_iff. intros [Hc H].
  cbn [split_char]. rewrite Hc. by rewrite IH.
Qed.

Lemma split_dots parts : parts <> [] -> Forall (fun p => dot_free p = true) parts -> split_char "." (join "." parts) = parts.
Proof.
  induction parts as [|p parts IH]; [done|]. intros _ [Hp H]%Forall_cons_1. destruct parts as [|q parts]; [by apply split_free|].
  change (join "." (p :: q :: parts)) with (p ++ String "." (join "." (q :: parts))). rewrite split_app, IH by done. by rewrite split_free.
Qed.

Lemma join_snoc sep parts x : parts <> [] -> join sep (parts ++ [x])%list = join sep parts ++ sep ++ x.
Proof.
  induction parts as [|p parts IH]; [done|]. intros _. destruct parts as [|q parts]; [done|].
  change (join sep ((p :: q :: parts) ++ [x])%list) with (p ++ sep ++ join sep ((q :: parts) ++ [x])%list). rewrite IH by done.
  change (join sep (p :: q :: parts)) with (p ++ sep ++ join sep (q :: parts)). by rewrite !string_app_assoc.
Qed.

Lemma rsplit_last c a b : string_forallb (fun d => negb (Ascii.eqb d c)) b = true -> rsplit_once c (a ++ String c b) = Some (a, b).
Proof.
  intros Hb. induction a as [|d a IH].
  - change ("" ++ String c b) with (String c b). cbn [rsplit_once].
    assert (rsplit_once c b = None) as ->; [|by rewrite Ascii.eqb_refl]. clear -Hb. induction b as [|d b IH]; [done|].
    cbn [string_forallb rsplit_once] in *. apply andb_true_iff in Hb as [Hd Hb]. rewrite IH by done. by destruct (Ascii.eqb d c).
  - change (String d a ++ ?r) with (String d (a ++ r)). cbn [rsplit_once]. by rewrite IH.
Qed.

Lemma split_once_first c a b : string_forallb (fun d => negb (Ascii.eqb d c)) a = true -> split_once c (a ++ String c b) = Some (a, b).
Proof.
  induction a as [|d a IH]; intros Ha.
  - change ("" ++ String c b) with (String c b). cbn [split_once]. by rewrite Ascii.eqb_refl.
  - cbn [string_forallb] in Ha. apply andb_true_iff in Ha as [Hd Ha]. change (String d a ++ ?r) with (String d (a ++ r)).
    cbn [split_once]. rewrite IH by done. by destruct (Ascii.eqb d c).
Qed.

(** The request entry the listing writes for a table, under its virtual name. *)
Definition listed_entry {UC : UnicodeCase} (print : Json -> string) (configured_ns : list string) (ident : CatalogTableIdent) : Json :=
  json_object [("name", JString (flatten_table_name configured_ns ident)); ("adapterNotes", JString (encode_identifier_note print ident))].

Lemma not_blank_trim s : trim s <> "" -> String.eqb (trim s) "" = false.
Proof. by intros H%String.eqb_neq. Qed.

Section Collisions.
Context {UC : UnicodeCase}.

Lemma no_collision_from seen ns idents :
  reject_collisions_from seen ns idents = Ok tt ->
  NoDup (map (flatten_table_name ns) idents) /\ Forall (fun i => flatten_table_name ns i ∉ map fst seen) idents.
Proof.
  revert seen. induction idents as [|i idents IH]; intros seen; [by repeat constructor|]. cbn [reject_collisions_from].
  destruct (List.find _ seen) as [e|] eqn:E; cbn [fmap option_fmap option_map]; [done|]. intros [Hd Hf]%IH.
  assert (Hi : flatten_table_name ns i ∉ map fst seen).
  { intros (e & Heq & He)%list_elem_of_fmap. eapply List.find_none in E; [|by apply list_elem_of_In]. rewrite <- Heq in E. cbn in E.
    by rewrite String.eqb_refl in E. }
  assert (Hnew : Forall (fun j => flatten_table_name ns j <> flatten_table_name ns i) idents).
  { eapply Forall_impl; [exact Hf|]. cbn [map fst]. intros j Hj Heq. apply Hj. rewrite Heq. by left. }
  split; [cbn [map]; constructor; [|done]|].
  - intros (j & Heq & Hj)%list_elem_of_fmap. eapply Forall_forall in Hnew; [|exact Hj]. congruence.
  - constructor; [done|]. eapply Forall_impl; [exact Hf|]. cbn [map fst]. intros j Hj Hin. apply Hj. by right.
Qed.

Lemma find_listed print ns idents ident :
  NoDup (map (flatten_table_name ns) idents) -> ident ∈ idents ->
  List.find (fun t => bool_decide (get_str t "name" = Some (flatten_table_name ns ident))) (map (listed_entry print ns) idents)
    = Some (listed_entry print ns ident).
Proof.
  induction idents as [|i idents IH]; [by intros _ H%elem_of_nil|]. cbn [map]. intros [Hn Hd]%NoDup_cons [->|Hin]%elem_of_cons; cbn [List.find].
  - by rewrite bool_decide_eq_true_2.
  - rewrite bool_decide_eq_false_2; [by apply IH|]. intros [= E]. apply Hn. rewrite E. apply list_elem_of_fmap. eauto.
Qed.
End Collisions.

(** C21. A virtual table always reads the catalog table it was listed from: when the
    listing accepts its tables, no two virtual names coincide, and a request that names
    any listed table reads, from the note of its own entry, that table's identifier,
    which the catalog kind's own rule parses back to the very namespace and name - for
    Iceberg REST and Unity without dots in the segments, for Glue under one database,
    for direct storage as one directory. *)
Theorem virtual_table_leads_back {UC : UnicodeCase} print parse configured_ns idents ident :
  (forall n, parse (print (json_object [(NOTE_NAME, JString n)])) = Some (json_object [(NOTE_NAME, JString n)])) ->
  reject_name_collisions configured_ns idents = Ok tt -> ident ∈ idents ->
  let request := json_object [("involvedTables", JArray (map (listed_entry print configured_ns) idents))] in
  let name := flatten_table_name configured_ns ident in
  let id := catalog_identifier_string ident in
  NoDup (map (flatten_table_name configured_ns) idents)
  /\ read_identifier parse request name = Ok id
  /\ (namespace ident <> [] -> Forall (fun s => dot_free s = true) (namespace ident) -> dot_free (ident_name ident) = true ->
      parse_table_ident id = Ok (namespace ident, ident_name ident)
      /\ (trim (ident_name ident) <> "" -> unity_table_ident id = Ok ident))
  /\ (forall database, namespace ident = [database] -> dot_free database = true -> trim database <> "" -> trim (ident_name ident) <> "" ->
      parse_glue_table_ident id = Ok ident)
  /\ (namespace ident = [] -> forall directory, direct_storage_directory id = Ok directory -> directory = ident_name ident).
Proof.
  intros Hprint Hcol Hin. cbn zeta. apply no_collision_from in Hcol as [Hd _]. split_and!.
  - done.
  - unfold read_identifier.
    change (default [] (get_array _ "involvedTables")) with (map (listed_entry print configured_ns) idents).
    rewrite find_listed by done. cbn [mbind option_bind].
    change (get_str (listed_entry print configured_ns ident) "adapterNotes") with (Some (encode_identifier_note print ident)).
    cbn [mbind option_bind]. unfold encode_identifier_note. by rewrite Hprint.
  - intros Hne Hns Hname. assert (Hsplit : split_char "." (catalog_identifier_string ident) = (namespace ident ++ [ident_name ident])%list).
    { unfold catalog_identifier_string. apply split_dots; [by destruct (namespace ident)|]. apply Forall_app; split; [done|by constructor]. }
    split.
    + unfold parse_table_ident. rewrite Hsplit. rewrite length_app. cbn [List.length].
      replace (List.length (namespace ident) + 1 <? 2)%nat with false by (symmetry; apply Nat.ltb_ge; destruct (namespace ident); [done|cbn; lia]).
      by rewrite removelast_last, List.last_last.
    + intros Ht. unfold unity_table_ident, catalog_identifier_string. rewrite join_snoc by done.
      change ("." ++ ident_name ident) with (String "." (ident_name ident)). rewrite rsplit_last by done.
      rewrite not_blank_trim by done. rewrite split_dots by done. by destruct ident.
  - intros database Hns Hdot Hdb Ht. unfold parse_glue_table_ident, catalog_identifier_string. rewrite Hns. cbn [app join].
    change ("." ++ ident_name ident) with (String "." (ident_name ident)). rewrite split_once_first by done.
    rewrite !not_blank_trim by done. cbn. destruct ident. cbn in *. by rewrite <- Hns.
  - intros Hns directory. unfold catalog_identifier_string. rewrite Hns. cbn [app join]. unfold direct_storage_directory.
    destruct (String.eqb (trim _) ""); [done|]. destruct (_ || _); [done|]. destruct (_ || _); [done|]. by intros [= <-].
Qed.

Definition sales_ident : CatalogTableIdent := MkIdent ["prod"; "sales"] "Orders".
Definition note_text (j : Json) : string := match get_str j NOTE_NAME with Some s => s | None => "" end.

Lemma virtual_table_leads_back_witness :
  reject_name_collisions (UC := ascii_case) ["prod"] [sales_ident; MkIdent ["prod"] "Orders"] = Ok tt
  /\ NoDup (map (flatten_table_name (UC := ascii_case) ["prod"]) [sales_ident])
  /\ parse_table_ident (catalog_identifier_string sales_ident) = Ok (["prod"; "sales"], "Orders").
Proof.
  split; [reflexivity|].
  pose proof (virtual_table_leads_back (UC := ascii_case) note_text (fun n => Some (json_object [(NOTE_NAME, JString n)])) ["prod"] [sales_ident]
    sales_ident (fun n => eq_refl) eq_refl) as T.
  destruct T as (Hd & _ & Hp & _); [by left|]. split; [exact Hd|].
  apply Hp; [done|by repeat constructor|done].
Defined.
