(* ===== verification/Permission.v ===== *)
(** crates/lakehouse-engine/src/adapter/permission.rs and lakehouse-catalog's
    lakekeeper.rs, with the admission half of adapter/pushdown/scan_resolution.rs: who a
    gated pushdown runs as, the batch-check that decides which tables it may read, and
    the set of tables a statement has admitted. *)

From stdpp Require Import base list strings numbers gmap.
From Stdlib Require Import Ascii String ZArith NArith Lia.
From S2P Require Import Prelude Text Serde Json Storage Connection TableIdentity StatementState.

Local Open Scope string_scope.

Definition PERMISSION_CHECK : string := "PERMISSION_CHECK".
Definition USER_MAPPING : string := "USER_MAPPING".
Definition LAKEKEEPER : string := "LAKEKEEPER".

(** ** The user mapping

    The template engine is the minijinja crate: a compiled template renders for a user. *)
Class Templates (T : Type) := {
  compile_template : string -> result string T;
  render_template : T -> string -> result string string;
  (** [{:?}] of a text. *)
  debug_text : string -> string;
}.

(** [chars().any(..)] by what a character's encoding starts with. *)
Fixpoint any_suffix (p : string -> bool) (s : string) : bool :=
  p s || match s with EmptyString => false | String _ s' => any_suffix p s' end.

(** [char::is_control] of the character a text starts with. *)
Definition starts_control (s : string) : bool :=
  match s with
  | String a (String b _) => (code a <? 32)%N || (code a =? 127)%N || ((code a =? 194) && (128 <=? code b) && (code b <=? 159))%N
  | String a EmptyString => (code a <? 32)%N || (code a =? 127)%N
  | EmptyString => false
  end.

Definition holds_white_or_control (s : string) : bool :=
  any_suffix (fun t => bool_decide (is_Some (strip_whitespace_char t)) || starts_control t) s.

Inductive PermissionSettings (T : Type) := SettingsOff | Lakekeeper (mapping : T).
Arguments SettingsOff {T}. Arguments Lakekeeper {T}.

Record PermissionGate := MkGate { gate_user : string; gate_principal : string }.
Inductive PermissionCheck := CheckOff | Enforced (gate : PermissionGate).

Section Mapping.
Context {T : Type} {TE : Templates T}.

Definition UserMapping_compile (source : string) : result UdfError T :=
  match compile_template source with
  | Ok t => Ok t
  | Err e => Err (User ("the '" ++ USER_MAPPING ++ "' template does not compile: " ++ e))
  end.

Definition unmappable (user reason : string) : UdfError :=
  User ("the Lakekeeper permission check refuses the query of Exasol user '" ++ user ++ "': '" ++ USER_MAPPING
    ++ "' cannot map it to a Lakekeeper principal, because " ++ reason).

Definition no_current_user : UdfError :=
  User ("the Lakekeeper permission check refuses the query: the request names no current Exasol user, so '" ++ USER_MAPPING
    ++ "' cannot map it to a Lakekeeper principal").

Definition principal_for (mapping : T) (user : string) : result UdfError string :=
  match render_template mapping user with
  | Err e => Err (unmappable user ("the template fails to render: " ++ e))
  | Ok rendered =>
      let principal := trim rendered in
      if String.eqb principal "" then Err (unmappable user "the template renders an empty principal")
      else if holds_white_or_control principal then
        Err (unmappable user ("the template renders the principal " ++ debug_text principal ++ ", which holds a whitespace or control character"))
      else Ok principal
  end.

Definition PermissionSettings_parse (props : Json) : result UdfError (PermissionSettings T) :=
  match nonempty_str props PERMISSION_CHECK with
  | None => Ok SettingsOff
  | Some value =>
      if negb (eq_ignore_ascii_case value LAKEKEEPER) then
        Err (User ("unrecognized '" ++ PERMISSION_CHECK ++ "' value '" ++ value ++ "'; set it to '" ++ LAKEKEEPER
          ++ "', or leave it absent to turn the permission check off"))
      else
        let? template := ok_or (nonempty_str props USER_MAPPING)
          (User (PERMISSION_CHECK ++ " = '" ++ LAKEKEEPER ++ "' requires a '" ++ USER_MAPPING
            ++ "' template that maps the querying Exasol user to a Lakekeeper principal")) in
        let? mapping := UserMapping_compile template in
        Ok (Lakekeeper mapping)
  end.

Definition REQUIRES_ICEBERG_REST : string := "PERMISSION_CHECK = 'LAKEKEEPER' requires the Iceberg REST catalog kind".

Definition require_supported_kind (settings : PermissionSettings T) (kind : CatalogKind) : result UdfError () :=
  match settings with
  | Lakekeeper _ => if bool_decide (kind = IcebergRest) then Ok tt else Err (User REQUIRES_ICEBERG_REST)
  | SettingsOff => Ok tt
  end.

Definition check_for (settings : PermissionSettings T) (current_user : option string) : result UdfError PermissionCheck :=
  match settings with
  | SettingsOff => Ok CheckOff
  | Lakekeeper mapping =>
      let? user := ok_or (non_empty current_user) no_current_user in
      let? principal := principal_for mapping user in
      Ok (Enforced (MkGate user principal))
  end.
End Mapping.

(** ** The batch-check *)

Definition CATALOG_SEGMENT : string := "/catalog".
Definition MANAGEMENT_SEGMENT : string := "/management".
Definition BATCH_CHECK_PATH : string := "/v1/action/batch-check".
Definition READ_CHECK_ID : string := "read-data".
Definition CANNOT_INSPECT_ERROR_TYPE : string := "CannotInspectPermissions".
Definition NEEDS_LAKEKEEPER : string := "The catalog must be a Lakekeeper server.".

Record TableReadDecision := MkDecision { decision_table : string; allowed : bool }.

(** [plain_path]: [Url::parse] gives a path that ends in the segment, without query or
    fragment (the url crate). *)
Definition lakekeeper_management_url (plain_path : string -> bool) (catalog_uri : string) : result UdfError string :=
  let trimmed := default catalog_uri (strip_suffix "/" catalog_uri) in
  let refusal := User ("the Lakekeeper permission check needs a catalog URI ending in '" ++ CATALOG_SEGMENT ++ "', got '" ++ catalog_uri ++ "'") in
  match strip_suffix CATALOG_SEGMENT trimmed with
  | Some base => if plain_path trimmed then Ok (base ++ MANAGEMENT_SEGMENT) else Err refusal
  | None => Err refusal
  end.

Definition require_management_url {T} (plain_path : string -> bool) (settings : PermissionSettings T) (catalog_uri : string) : result UdfError () :=
  match settings with
  | Lakekeeper _ => let? _ := lakekeeper_management_url plain_path catalog_uri in Ok tt
  | SettingsOff => Ok tt
  end.

Fixpoint distinct_from (seen : gset string) (tables : list string) : list string :=
  match tables with
  | [] => []
  | t :: rest => if bool_decide (t ∈ seen) then distinct_from seen rest else t :: distinct_from ({[t]} ∪ seen) rest
  end.

Definition distinct_in_first_seen_order (tables : list string) : list string := distinct_from ∅ tables.

Definition check_id (index : nat) : string :=
  match index with 0 => READ_CHECK_ID | _ => READ_CHECK_ID ++ "-" ++ show_nat index end.

Definition table_check (principal warehouse_id : string) (index : nat) (qualified : string) : result UdfError Json :=
  let? (namespace, table) := parse_table_ident qualified in
  Ok (JObject [("id", JString (check_id index));
               ("identity", JObject [("user", JString principal)]);
               ("operation", JObject [("table", JObject
                  [("warehouse-id", JString warehouse_id); ("namespace", JArray (map JString namespace)); ("table", JString table);
                   ("action", JObject [("action", JString "read_data")])])])]).

Definition build_batch_check (principal : string) (tables : list string) (warehouse_id : string) : result UdfError Json :=
  let? checks := try_mapi (table_check principal warehouse_id) 0 tables in
  Ok (JObject [("checks", JArray checks); ("error-on-not-found", JBool false)]).

Definition check_result_from_json (j : Json) : option (string * bool) :=
  f ← struct_fields ["id"; "allowed"] j;
  id ← required "id" as_str f;
  allowed ← required "allowed" as_bool f;
  Some (id, allowed).

(** The map of the answered ids; a repeated one is no answer. *)
Fixpoint allowed_by_id (m : gmap string bool) (results : list (string * bool)) : option (gmap string bool) :=
  match results with
  | [] => Some m
  | (id, allowed) :: rest => if bool_decide (is_Some (m !! id)) then None else allowed_by_id (<[id := allowed]> m) rest
  end.

Definition decision_at (m : gmap string bool) (index : nat) (table : string) : option TableReadDecision :=
  allowed ← m !! check_id index; Some (MkDecision table allowed).

Definition read_decisions (distinct : list string) (body : option Json) : option (list TableReadDecision) :=
  answer ← body;
  f ← struct_fields ["results"] answer;
  results ← required "results" (from_list check_result_from_json) f;
  m ← allowed_by_id ∅ results;
  if negb (size m =? List.length distinct)%nat then None
  else mapM (fun it => decision_at m it.1 it.2) (imap pair distinct).

Definition names_cannot_inspect (body : option Json) : bool :=
  bool_decide ((body ≫= fun b => get b "error" ≫= fun e => get_str e "type") = Some CANNOT_INSPECT_ERROR_TYPE).

Definition FORBIDDEN : N := 403.

(** [parse] reads a JSON text; [quoted] is the body with its secrets masked. *)
Definition refusal (parse : string -> option Json) (url : string) (status : N) (redacted_body : string) : UdfError :=
  let advice :=
    if (status =? FORBIDDEN)%N && names_cannot_inspect (parse redacted_body) then
      "The CONNECTION's identity needs a Lakekeeper grant that includes can_read_assignments on the checked tables, such as manage_grants on the warehouse or the namespace."
    else NEEDS_LAKEKEEPER in
  User ("the Lakekeeper batch-check at " ++ url ++ " answered HTTP " ++ show_N status ++ ": " ++ redacted_body ++ ". " ++ advice).

Inductive PostAnswer := Accepted (status : N) (body : string) | Refused (status : N) (body : string).

Section Check.
Context (parse : string -> option Json) (plain_path : string -> bool) (quote_catalog_body : string -> string).

(** The session: its URI, its warehouse and the POST it sends. *)
Record LakekeeperSession := MkSession {
  session_uri : string;
  session_prefix : string;
  post : string -> Json -> result string PostAnswer;
}.

Definition lakekeeper_batch_check (session : LakekeeperSession) (principal : string) (tables : list string)
  : result UdfError (list TableReadDecision) :=
  let distinct := distinct_in_first_seen_order tables in
  match distinct with
  | [] => Ok []
  | _ =>
      let? base := lakekeeper_management_url plain_path (session_uri session) in
      let url := base ++ BATCH_CHECK_PATH in
      let? request := build_batch_check principal distinct (session_prefix session) in
      match post session url request with
      | Err error => Err (User ("the Lakekeeper batch-check at " ++ url ++ " could not be completed: " ++ error ++ ". " ++ NEEDS_LAKEKEEPER))
      | Ok (Accepted status body) =>
          ok_or (read_decisions distinct (parse body))
            (User ("the Lakekeeper batch-check at " ++ url ++ " answered HTTP " ++ show_N status
              ++ " with a body that is not a batch-check answer for its " ++ show_nat (List.length distinct) ++ " checks: "
              ++ quote_catalog_body body ++ ". " ++ NEEDS_LAKEKEEPER))
      | Ok (Refused status body) => Err (refusal parse url status body)
      end
  end.

(** ** The verdict *)

Definition add_denied (decisions : list TableReadDecision) (denied : list string) (table : string) : list string :=
  let allowed := existsb (fun d => String.eqb (decision_table d) table && allowed d) decisions in
  if negb allowed && negb (existsb (String.eqb table) denied) then (denied ++ [table])%list else denied.

Definition verdict (gate : PermissionGate) (tables : list string) (decisions : list TableReadDecision) : result UdfError () :=
  match fold_left (add_denied decisions) tables [] with
  | [] => Ok tt
  | denied =>
      Err (User ("the Lakekeeper permission check refuses the query: Exasol user '" ++ gate_user gate ++ "', mapped by '" ++ USER_MAPPING
        ++ "' to the Lakekeeper principal '" ++ gate_principal gate ++ "', may not read " ++ join ", " denied
        ++ ". Lakekeeper denies read_data on each, or the table does not exist. Only a Lakekeeper grant that names the principal '"
        ++ gate_principal gate ++ "' lets this user read a table"))
  end.

Definition gate_authorize (gate : PermissionGate) (session : LakekeeperSession) (tables : list string) : result UdfError () :=
  let? decisions := lakekeeper_batch_check session (gate_principal gate) tables in
  verdict gate tables decisions.

(** [ScanCatalog::authorize]: the Iceberg REST client runs the check, and every other
    kind admits nothing. *)
Definition client_authorize (kind : CatalogKind) (session : result UdfError LakekeeperSession) (gate : PermissionGate) (identifiers : list string)
  : result UdfError (list string) :=
  match kind with
  | IcebergRest =>
      let? session := session in
      let? _ := gate_authorize gate session identifiers in
      Ok identifiers
  | UnityCatalogNative | DirectStorage | Glue => Ok []
  end.

(** ** Admission *)

Definition check_identifier (kind : CatalogKind) (identifier : string) : result UdfError () :=
  match kind with
  | IcebergRest => let? _ := parse_table_ident identifier in Ok tt
  | UnityCatalogNative => let? _ := unity_table_ident identifier in Ok tt
  | Glue => let? _ := parse_glue_table_ident identifier in Ok tt
  | DirectStorage => let? _ := direct_storage_directory identifier in Ok tt
  end.

(** [TableScanResolver::for_request]: the statement's admitted tables after it. *)
Definition for_request (kind : CatalogKind) (session : result UdfError LakekeeperSession) (permission : PermissionCheck)
    (table_identifiers : list string) (admitted : gset string) : gset string * result UdfError () :=
  match try_map (check_identifier kind) table_identifiers with
  | Err e => (admitted, Err e)
  | Ok _ =>
      match permission with
      | CheckOff => (admitted, Ok tt)
      | Enforced gate =>
          match unchecked admitted table_identifiers with
          | [] => (admitted, Ok tt)
          | unchecked =>
              match client_authorize kind session gate unchecked with
              | Ok tables => (admit_tables admitted tables, Ok tt)
              | Err e => (admitted, Err e)
              end
          end
      end
  end.

Definition require_admitted (permission : PermissionCheck) (admitted : gset string) (table_identifier : string) : result UdfError () :=
  match permission with
  | CheckOff => Ok tt
  | Enforced _ =>
      if is_admitted admitted table_identifier then Ok tt
      else Err (User ("pushdown: the Lakekeeper permission check did not cover table '" ++ table_identifier
             ++ "', so the adapter does not read it"))
  end.
End Check.

(** ** A gated read was allowed *)

Lemma check_id_inj i j : check_id i = check_id j -> i = j.
Proof.
  destruct i as [|i], j as [|j]; cbn [check_id]; [done|by intros E; vm_compute in E|by intros E; vm_compute in E|].
  intros E%string_app_inv_l%string_app_inv_l%show_N_inj. lia.
Qed.

Lemma allowed_by_id_spec m results out :
  allowed_by_id m results = Some out ->
  NoDup (map fst results) /\ size out = (size m + List.length results)%nat
  /\ (forall k, k ∈ map fst results -> m !! k = None)
  /\ (forall k b, out !! k = Some b <-> m !! k = Some b \/ (k, b) ∈ results).
Proof.
  revert m. induction results as [|[id b] results IH]; intros m; cbn [allowed_by_id].
  - intros [= <-]. split_and!; [constructor|cbn; lia|by intros k Hk%elem_of_nil|]. intros k b. rewrite elem_of_nil. intuition.
  - case_bool_decide as Hid; [done|]. apply eq_None_not_Some in Hid. intros (Hn & Hs & Hf & Hm)%IH. split_and!.
    + cbn [map fst]. constructor; [|done]. intros Hin%Hf. by rewrite lookup_insert_eq in Hin.
    + rewrite Hs, map_size_insert_None by done. cbn. lia.
    + intros k [->|Hk]%elem_of_cons; [done|]. apply Hf in Hk. destruct (decide (k = id)) as [->|]; [done|]. by rewrite lookup_insert_ne in Hk.
    + intros k c. rewrite Hm, elem_of_cons. destruct (decide (k = id)) as [->|Hne].
      * rewrite lookup_insert_eq, Hid. split; [|naive_solver]. intros [[= <-]|Hin]; [naive_solver|]. naive_solver.
      * rewrite lookup_insert_ne by done. naive_solver.
Qed.

(** What a batch-check answer lists. *)
Definition answered_results (body : option Json) : option (list (string * bool)) :=
  answer ← body; f ← struct_fields ["results"] answer; required "results" (from_list check_result_from_json) f.

Lemma read_decisions_spec distinct body decisions d :
  read_decisions distinct body = Some decisions -> d ∈ decisions ->
  exists results i, answered_results body = Some results /\ NoDup (map fst results) /\ List.length results = List.length distinct
    /\ distinct !! i = Some (decision_table d) /\ (check_id i, allowed d) ∈ results.
Proof.
  unfold read_decisions, answered_results. destruct body as [answer|]; [|done]. cbn [mbind option_bind].
  destruct (struct_fields _ answer) as [f|]; [|done]. cbn [mbind option_bind]. destruct (required _ _ f) as [results|]; [|done].
  cbn [mbind option_bind]. destruct (allowed_by_id ∅ results) as [m|] eqn:Em; [|done]. cbn [mbind option_bind].
  destruct (Nat.eqb_spec (size m) (List.length distinct)) as [Hs|]; [|done]. cbn [negb]. intros Hm%mapM_Some Hd.
  apply allowed_by_id_spec in Em as (Hn & Hsize & _ & Hl). rewrite map_size_empty in Hsize.
  apply list_elem_of_lookup in Hd as [i Hi]. eapply Forall2_lookup_r in Hm as ([j t] & Hj & Ht); [|exact Hi].
  rewrite list_lookup_imap in Hj. destruct (distinct !! i) as [t'|] eqn:Et; [|done]. cbn in Hj. injection Hj as <- <-.
  cbn [fst snd] in Ht. unfold decision_at in Ht. destruct (m !! check_id i) as [b|] eqn:Eb; [|done]. cbn in Ht. injection Ht as <-.
  exists results, i. split_and!; [done|done|lia|done|]. apply Hl in Eb as [Eb|Eb]; [by rewrite lookup_empty in Eb|done].
Qed.

Lemma denied_grows decisions denied tables : denied <> [] -> fold_left (add_denied decisions) tables denied <> [].
Proof.
  revert denied. induction tables as [|t tables IH]; intros denied Hne; [done|]. cbn [fold_left]. apply IH. unfold add_denied.
  destruct (_ && _); [by destruct denied|done].
Qed.

Lemma verdict_allows gate tables decisions t :
  verdict gate tables decisions = Ok tt -> t ∈ tables -> exists d, d ∈ decisions /\ decision_table d = t /\ allowed d = true.
Proof.
  unfold verdict. destruct (fold_left _ tables []) eqn:E; [|done]. intros _ Ht.
  induction tables as [|x tables IH]; [by apply elem_of_nil in Ht|]. cbn [fold_left] in E.
  assert (Hx : add_denied decisions [] x = []).
  { destruct (add_denied decisions [] x) eqn:Ex; [done|]. exfalso. eapply denied_grows; [|exact E]. done. }
  rewrite Hx in E. apply elem_of_cons in Ht as [->|Ht]; [|by apply IH]. unfold add_denied in Hx.
  destruct (existsb _ decisions) eqn:Ed; [|done]. apply existsb_exists in Ed as (d & Hd & [Et Ha]%andb_true_iff).
  exists d. apply String.eqb_eq in Et. split; [by apply list_elem_of_In|done].
Qed.

Section Allowed.
Context (parse : string -> option Json) (plain_path : string -> bool) (quote_catalog_body : string -> string).

(** The server said so: its accepted answer to a check of this principal holds one
    result per check, and the result under the table's own id is [true]. *)
Definition allowed_by_server (session : LakekeeperSession) (principal table : string) : Prop :=
  exists tables i url request status body results,
    tables !! i = Some table /\ build_batch_check principal tables (session_prefix session) = Ok request
    /\ post session url request = Ok (Accepted status body) /\ answered_results (parse body) = Some results
    /\ NoDup (map fst results) /\ List.length results = List.length tables
    /\ (check_id i, true) ∈ results /\ (forall j, check_id j = check_id i -> j = i).

Lemma authorized gate session tables t :
  gate_authorize parse plain_path quote_catalog_body gate session tables = Ok tt -> t ∈ tables ->
  allowed_by_server session (gate_principal gate) t.
Proof.
  unfold gate_authorize. destruct (lakekeeper_batch_check _ _ _ _ _ _) as [decisions|] eqn:E; [|done]. intros Hv Ht.
  destruct (verdict_allows _ _ _ _ Hv Ht) as (d & Hd & <- & Ha). unfold lakekeeper_batch_check in E.
  destruct (distinct_in_first_seen_order tables) as [|x l] eqn:El; [injection E as <-; by apply elem_of_nil in Hd|]. rewrite <- El in E. clear El x l.
  destruct (lakekeeper_management_url _ _) as [base|]; [|done]. destruct (build_batch_check _ _ _) as [request|] eqn:Er; [|done].
  destruct (post session _ request) as [[status body|]|] eqn:Ep; try done.
  destruct (read_decisions _ (parse body)) as [ds|] eqn:Ed; [|done]. cbn [ok_or] in E. injection E as ->.
  eapply read_decisions_spec in Ed as (results & i & Hr & Hn & Hl & Hi & Hin); [|exact Hd]. rewrite Ha in Hin.
  exists (distinct_in_first_seen_order tables), i. eexists _, request, status, body, results.
  split_and!; try done. intros j. apply check_id_inj.
Qed.

(** The pushdowns of one virtual schema's state, in order: each builds its check from the
    schema's settings and its current user before it asks for its tables. *)
Context {T : Type} {TE : Templates T}.

Record Pushdown := MkPushdown {
  pd_session : result UdfError LakekeeperSession;
  pd_user : option string;
  pd_tables : list string;
}.

Definition serve (kind : CatalogKind) (settings : PermissionSettings T) (admitted : gset string) (r : Pushdown) : gset string :=
  match check_for settings (pd_user r) with
  | Err _ => admitted
  | Ok permission => (for_request parse plain_path quote_catalog_body kind (pd_session r) permission (pd_tables r) admitted).1
  end.

Definition admitted_after (kind : CatalogKind) (settings : PermissionSettings T) (requests : list Pushdown) : gset string :=
  fold_left (serve kind settings) requests ∅.

(** A request that added the table: it named it, and the server allowed it for its principal. *)
Definition admits (kind : CatalogKind) (settings : PermissionSettings T) (t : string) (r : Pushdown) : Prop :=
  exists gate session, kind = IcebergRest /\ check_for settings (pd_user r) = Ok (Enforced gate) /\ pd_session r = Ok session
    /\ t ∈ pd_tables r /\ allowed_by_server session (gate_principal gate) t.

Lemma serve_admits kind settings r admitted t : t ∈ serve kind settings admitted r -> t ∈ admitted \/ admits kind settings t r.
Proof.
  unfold serve, admits. destruct (check_for settings (pd_user r)) as [permission|]; [|by left].
  unfold for_request. destruct (try_map _ _); [|by left]. destruct permission as [|gate]; [by left|].
  destruct (unchecked admitted (pd_tables r)) as [|x l] eqn:Eu; [by left|]. rewrite <- Eu.
  destruct (client_authorize _ _ _ _ _ _ _) as [tables|] eqn:Ec; [|by left]. unfold client_authorize in Ec. cbn [fst].
  unfold admit_tables. rewrite elem_of_union, elem_of_list_to_set. intros [Ht|Ht]; [by left|].
  destruct kind; try (injection Ec as <-; by apply elem_of_nil in Ht).
  destruct (pd_session r) as [session|]; [|done]. destruct (gate_authorize _ _ _ _ _ _) as [[]|] eqn:Ea; [|done]. injection Ec as <-.
  right. exists gate, session. split_and!; [done..| |by eapply authorized].
  unfold unchecked in Ht. by apply list_elem_of_filter in Ht as [_ ?].
Qed.

Lemma admitted_after_allowed kind settings requests t :
  t ∈ admitted_after kind settings requests -> exists r, r ∈ requests /\ admits kind settings t r.
Proof.
  unfold admitted_after. assert (H : forall admitted, t ∈ fold_left (serve kind settings) requests admitted ->
    t ∈ admitted \/ exists r, r ∈ requests /\ admits kind settings t r).
  { induction requests as [|r requests IH]; intros admitted; [by left|]. cbn [fold_left]. intros [Ht|(r' & Hr & H)]%IH.
    - apply serve_admits in Ht as [Ht|Ht]; [by left|]. right. exists r. split; [by left|done].
    - right. exists r'. split; [by right|done]. }
  intros [Ht|?]%H; [by apply elem_of_empty in Ht|done].
Qed.

Lemma check_for_enforced settings user gate :
  check_for settings user = Ok (Enforced gate) ->
  exists mapping, settings = Lakekeeper mapping /\ user = Some (gate_user gate) /\ principal_for mapping (gate_user gate) = Ok (gate_principal gate).
Proof.
  unfold check_for. destruct settings as [|mapping]; [done|]. destruct user as [u|]; [|done]. cbn [non_empty].
  destruct (non_empty (Some u)) as [u'|] eqn:En; [|done]. cbn [ok_or].
  assert (u' = u) as ->. { unfold non_empty in En. cbn in En. destruct (String.eqb u ""); [done|]. by injection En. }
  destruct (principal_for mapping u) as [principal|] eqn:Ep; [|done]. intros [= <-]. by exists mapping.
Qed.
End Allowed.


Definition allow_all (ids : list string) : Json :=
  JObject [("results", JArray (map (fun id => JObject [("id", JString id); ("allowed", JBool true)]) ids))].
Definition yes_session : LakekeeperSession :=
  MkSession "https://lk/catalog" "wh" (fun _ _ => Ok (Accepted 200 "yes")).
Definition no_session : LakekeeperSession := MkSession "https://lk/catalog" "wh" (fun _ _ => Ok (Refused 403 "no")).
Definition yes_parse (_ : string) : option Json := Some (allow_all [check_id 1; check_id 0]).
(** The template [oidc~{{user}}]. *)
Definition oidc_templates : Templates unit :=
  {| compile_template _ := Ok tt; render_template _ user := Ok ("oidc~" ++ user); debug_text s := s |}.
Definition one_pushdown : Pushdown := MkPushdown (Ok yes_session) (Some "alice") ["db.a"; "db.b"; "db.a"].


(** The proviso is needed: the admitted tables are kept by name alone, so the state must not
    outlive the statement of its one user. *)
Lemma admission_is_by_name :
  let admitted := admitted_after (TE := oidc_templates) yes_parse (fun _ => true) (fun b => b) IcebergRest (Lakekeeper tt)
    [one_pushdown; MkPushdown (Ok no_session) (Some "bob") ["db.b"]] in
  require_admitted (Enforced (MkGate "bob" "oidc~bob")) admitted "db.b" = Ok tt.
Proof. vm_compute. reflexivity. Qed.
