(* ===== verification/Properties.v ===== *)
(** crates/lakehouse-engine/src/adapter/properties.rs: the names a virtual schema may
    set, the value rule of each tuning property, and the suggestion for an unknown name. *)

From stdpp Require Import base list strings numbers gmap.
From Stdlib Require Import Ascii String ZArith NArith Lia.
From S2P Require Import Prelude Text Json Storage Connection Permission TableFilter ExasolRules.

Local Open Scope string_scope.

Definition PROP_CATALOG_CONNECTION : string := "CATALOG_CONNECTION".
Definition PROP_NAMESPACE : string := "NAMESPACE".
Definition PROP_ALLOW_HTTP : string := "ALLOW_HTTP".
Definition PROP_PARALLELISM_FACTOR : string := "PARALLELISM_FACTOR".
Definition PROP_DF_THREADING_MODE : string := "DATAFUSION_THREADING_MODE".
Definition PROP_DF_TARGET_PARTITIONS : string := "DATAFUSION_TARGET_PARTITIONS".
Definition PROP_DF_THREADS_PER_UDF : string := "DATAFUSION_THREADS_PER_UDF".
Definition PROP_DF_BATCH_SIZE : string := "DATAFUSION_BATCH_SIZE".
Definition PROP_MEMORY_POOL_FRACTION : string := "MEMORY_POOL_FRACTION".
Definition PROP_INSTANCE_OVERHEAD_MB : string := "INSTANCE_OVERHEAD_MB".
Definition PROP_JOIN_BROADCAST_MAX_BYTES : string := "JOIN_BROADCAST_MAX_BYTES".
Definition PROP_S3_MAX_CONNECTIONS : string := "S3_MAX_CONNECTIONS".
Definition PROP_MERGE_SCHEMA : string := "MERGE_SCHEMA".
Definition PROP_HIVE_PARTITIONING : string := "HIVE_PARTITIONING".
Definition PROP_BINARY_AS_STRING : string := "BINARY_AS_STRING".
Definition PROP_TABLE_INCLUDE : string := "TABLE_INCLUDE".
Definition PROP_TABLE_EXCLUDE : string := "TABLE_EXCLUDE".

Definition PROPERTY_NAMES : list string :=
  [PROP_CATALOG_KIND; PROP_CATALOG_CONNECTION; PROP_NAMESPACE; PROP_ALLOW_HTTP; PROP_PARALLELISM_FACTOR; PROP_DF_THREADING_MODE;
   PROP_DF_TARGET_PARTITIONS; PROP_DF_THREADS_PER_UDF; PROP_DF_BATCH_SIZE; PROP_MEMORY_POOL_FRACTION; PROP_INSTANCE_OVERHEAD_MB;
   PROP_JOIN_BROADCAST_MAX_BYTES; PROP_S3_MAX_CONNECTIONS; PROP_MERGE_SCHEMA; PROP_HIVE_PARTITIONING; PROP_BINARY_AS_STRING;
   PERMISSION_CHECK; USER_MAPPING; PROP_TABLE_INCLUDE; PROP_TABLE_EXCLUDE].

Definition ERROR_PREFIX : string := "invalid virtual schema properties: ".
Definition SUGGESTION_MAX_EDITS : nat := 2.
Definition ECHO_MAX_CHARS : nat := 100.

(** ** Characters

    [str::chars] of a UTF-8 text, and the text of characters. *)
Fixpoint chars (s : string) : list N :=
  match s with
  | EmptyString => []
  | String a s1 =>
      let a := code a in
      if (a <? 192)%N then a :: chars s1
      else
        match s1 with
        | EmptyString => [a]
        | String b s2 =>
            let b := (code b mod 64)%N in
            if (a <? 224)%N then (a mod 32 * 64 + b)%N :: chars s2
            else
              match s2 with
              | EmptyString => [a]
              | String c s3 =>
                  let c := (code c mod 64)%N in
                  if (a <? 240)%N then (a mod 16 * 4096 + b * 64 + c)%N :: chars s3
                  else match s3 with
                       | EmptyString => [a]
                       | String d s4 => (a mod 8 * 262144 + b * 4096 + c * 64 + code d mod 64)%N :: chars s4
                       end
              end
        end
  end.

Definition char_text (c : N) : string :=
  let byte (n : N) := String (ascii_of_N n) "" in
  let tail (n : N) := byte (128 + n mod 64)%N in
  if (c <? 128)%N then byte c
  else if (c <? 2048)%N then byte (192 + c / 64)%N ++ tail c
  else if (c <? 65536)%N then byte (224 + c / 4096)%N ++ tail (c / 64)%N ++ tail c
  else byte (240 + c / 262144)%N ++ tail (c / 4096)%N ++ tail (c / 64)%N ++ tail c.

Definition text_of_chars (l : list N) : string := String.concat "" (map char_text l).

Definition uppercase_chars {UC : UnicodeCase} (l : list N) : list N := chars (to_uppercase (text_of_chars l)).

(** ** Booleans *)

Definition resolve_boolean (props : Json) (name : string) : bool := default false (nonempty_str props name ≫= parse_boolean).
Definition resolve_allow_http (props : Json) : bool := resolve_boolean props PROP_ALLOW_HTTP.
Definition resolve_binary_as_string (props : Json) : bool := resolve_boolean props PROP_BINARY_AS_STRING.

(** ** Suggestions *)

(** One row of the table: [current] grows from [i + 1]. *)
Fixpoint edit_row (a_char : N) (b previous : list N) (diagonal last : N) : list N :=
  match b, previous with
  | b_char :: b', above :: previous' =>
      let substitution := (diagonal + if (a_char =? b_char)%N then 0 else 1)%N in
      let value := N.min (N.min substitution (above + 1)) (last + 1) in
      value :: edit_row a_char b' previous' above value
  | _, _ => []
  end.

Definition edit_step (b : list N) (state : N * list N) (a_char : N) : N * list N :=
  let '(i, previous) := state in
  ((i + 1)%N,
   match previous with
   | first :: above => (i + 1)%N :: edit_row a_char b above first (i + 1)%N
   | [] => []
   end).

Definition edit_distance (a b : list N) : N :=
  let previous := (fold_left (edit_step b) a (0%N, map N.of_nat (seq 0 (S (List.length b))))).2 in
  default 0%N (previous !! List.length b).

(** [Iterator::min] on (distance, name): the first of the least. *)
Definition pair_lt (x y : N * string) : bool :=
  (x.1 <? y.1)%N || ((x.1 =? y.1)%N && String.ltb x.2 y.2).

Definition min_pair (best : option (N * string)) (x : N * string) : option (N * string) :=
  match best with None => Some x | Some y => if pair_lt x y then Some x else best end.

Definition nearest_name {UC : UnicodeCase} (unknown : string) (candidates : list string) : option string :=
  let folded := chars (to_uppercase unknown) in
  let distances := map (fun candidate => (edit_distance folded (chars (to_uppercase candidate)), candidate)) candidates in
  snd <$> fold_left min_pair (List.filter (fun dc => (dc.1 <=? N.of_nat SUGGESTION_MAX_EDITS)%N) distances) None.

Definition unknown_entry {UC : UnicodeCase} (name : string) : string :=
  match nearest_name name PROPERTY_NAMES with
  | Some known => "unknown property '" ++ name ++ "' (did you mean '" ++ known ++ "'?)"
  | None => "unknown property '" ++ name ++ "'"
  end.

(** A [BTreeSet] of the names: the object's keys are in order. *)
Definition unknown_names (props : Json) : list string :=
  List.filter (fun name => negb (existsb (String.eqb name) PROPERTY_NAMES) && bool_decide (is_Some (nonempty_str props name)))
    (map fst (default [] (as_object props))).

(** ** Values *)

Inductive ThreadingMode := Auto | Fixed.

Definition parse_threading_mode (raw : string) : result string ThreadingMode :=
  if eq_ignore_ascii_case raw "AUTO" then Ok Auto
  else if eq_ignore_ascii_case raw "FIXED" then Ok Fixed
  else Err "AUTO or FIXED".

Definition check_boolean (raw : string) : result string bool := ok_or (parse_boolean raw) "TRUE or FALSE".

(** [str::parse::<f64>] and the interval test, of the standard library. *)
Class Fractions (F : Type) := { parse_f64 : string -> option F; in_unit_interval : F -> bool; show_f64 : F -> string }.

Definition parse_fraction {F} {FR : Fractions F} (raw : string) : result string F :=
  ok_or (x ← parse_f64 raw; if in_unit_interval x then Some x else None) "a number greater than 0 and at most 1".

(** The first [n] characters' bytes, and the rest. *)
Fixpoint take_chars (n : nat) (s : string) : string * string :=
  match s with
  | EmptyString => ("", "")
  | String c s' =>
      if (128 <=? code c)%N && (code c <? 192)%N then let '(a, b) := take_chars n s' in (String c a, b)
      else match n with
           | 0 => ("", s)
           | S n => let '(a, b) := take_chars n s' in (String c a, b)
           end
  end.

(** U+2026, HORIZONTAL ELLIPSIS. *)
Definition ellipsis : string := String "226" (String "128" (String "166" "")).

Definition echo (raw : string) : string :=
  let '(head, rest) := take_chars ECHO_MAX_CHARS raw in
  replace_char sq_char "''" head ++ (if String.eqb rest "" then "" else ellipsis).

Definition invalid_entry (name raw expected : string) : string :=
  "invalid value '" ++ echo raw ++ "' for '" ++ name ++ "': expected " ++ expected.

(** [BTreeMap::insert]. *)
Fixpoint insert_entry (name entry : string) (m : list (string * string)) : list (string * string) :=
  match m with
  | [] => [(name, entry)]
  | (k, e) :: m' =>
      match String.compare name k with
      | Eq => (name, entry) :: m'
      | Lt => (name, entry) :: m
      | Gt => (k, e) :: insert_entry name entry m'
      end
  end.

Section Values.
Context {UC : UnicodeCase} {F : Type} {FR : Fractions F} (props : Json).

(** A checker step: the value if the rule accepts it, and the rejections so far. *)
Definition value {T} (name : string) (rule : string -> result string T) (invalid : list (string * string)) : option T * list (string * string) :=
  match nonempty_str props name with
  | None => (None, invalid)
  | Some raw =>
      match rule raw with
      | Ok v => (Some v, invalid)
      | Err expected => (None, insert_entry name (invalid_entry name raw expected) invalid)
      end
  end.

Record TuningProperties := MkTuning {
  parallelism_factor : option N;
  threading_mode : option ThreadingMode;
  df_target_partitions : option N;
  df_threads_per_udf : option N;
  df_batch_size : option N;
  memory_pool_fraction : option F;
  instance_overhead_mb : option N;
  join_broadcast_max_bytes : option N;
  s3_max_connections : option N;
}.

Record CheckedProperties := MkChecked { tuning : TuningProperties; table_filter : TableFilter }.

Definition whole_number (W : WholeNumber) (name : string) := value name (parse_whole_number (H := W)).

Definition parse_pattern_list (raw : string) : result string (list (list N)) := parse_patterns uppercase_chars (chars raw).

Definition check_values : CheckedProperties + list string :=
  let '(_, e) := value PROP_ALLOW_HTTP check_boolean [] in
  let '(_, e) := value PROP_BINARY_AS_STRING check_boolean e in
  let '(parallelism, e) := whole_number NonZeroU8 PROP_PARALLELISM_FACTOR e in
  let '(mode, e) := value PROP_DF_THREADING_MODE parse_threading_mode e in
  let '(partitions, e) := whole_number NonZeroU16 PROP_DF_TARGET_PARTITIONS e in
  let '(threads, e) := whole_number NonZeroU16 PROP_DF_THREADS_PER_UDF e in
  let '(batch, e) := whole_number NonZeroU32 PROP_DF_BATCH_SIZE e in
  let '(fraction, e) := value PROP_MEMORY_POOL_FRACTION parse_fraction e in
  let '(overhead, e) := whole_number u16_number PROP_INSTANCE_OVERHEAD_MB e in
  let '(broadcast, e) := whole_number NonZeroU64 PROP_JOIN_BROADCAST_MAX_BYTES e in
  let '(connections, e) := whole_number NonZeroU16 PROP_S3_MAX_CONNECTIONS e in
  let '(included, e) := value PROP_TABLE_INCLUDE parse_pattern_list e in
  let '(excluded, e) := value PROP_TABLE_EXCLUDE parse_pattern_list e in
  match e with
  | [] => inl (MkChecked (MkTuning parallelism mode partitions threads batch fraction overhead broadcast connections) (TableFilter_new included excluded))
  | _ => inr (map snd e)
  end.

Definition check_properties : result UdfError CheckedProperties :=
  let unknown := map unknown_entry (unknown_names props) in
  match check_values, unknown with
  | inl checked, [] => Ok checked
  | inl _, _ => Err (User (ERROR_PREFIX ++ join "; " unknown))
  | inr invalid, _ => Err (User (ERROR_PREFIX ++ join "; " (unknown ++ invalid)%list))
  end.
End Values.
Arguments TuningProperties : clear implicits.
Arguments CheckedProperties : clear implicits.

(** ** The suggestion is the nearest name *)

(** One way to edit a text into another, by its last characters, and its cost. *)
Inductive edits : list N -> list N -> N -> Prop :=
| edit_none : edits [] [] 0
| edit_keep a b n c : edits a b n -> edits (a ++ [c]) (b ++ [c]) n
| edit_replace a b n c d : edits a b n -> edits (a ++ [c]) (b ++ [d]) (n + 1)
| edit_insert a b n d : edits a b n -> edits a (b ++ [d]) (n + 1)
| edit_delete a b n c : edits a b n -> edits (a ++ [c]) b (n + 1).

Definition least_edits (a b : list N) (n : N) : Prop := edits a b n /\ forall m, edits a b m -> (n <= m)%N.

Lemma edits_to_nil a m : edits a [] m -> m = N.of_nat (List.length a).
Proof.
  intros H. remember [] as b eqn:E. induction H; try done; try (by destruct b).
  rewrite IHedits by done. rewrite length_app. cbn. lia.
Qed.

Lemma edits_from_nil b m : edits [] b m -> m = N.of_nat (List.length b).
Proof.
  intros H. remember [] as a eqn:E. induction H; try done; try (by destruct a).
  rewrite IHedits by done. rewrite length_app. cbn. lia.
Qed.

Lemma least_to_nil a : least_edits a [] (N.of_nat (List.length a)).
Proof.
  split; [|intros m ->%edits_to_nil; lia]. induction a as [|c a IH] using rev_ind; [constructor|].
  rewrite length_app. replace (N.of_nat (List.length a + List.length [c])) with (N.of_nat (List.length a) + 1)%N by (cbn; lia). by constructor.
Qed.

Lemma least_from_nil b : least_edits [] b (N.of_nat (List.length b)).
Proof.
  split; [|intros m ->%edits_from_nil; lia]. induction b as [|c b IH] using rev_ind; [constructor|].
  rewrite length_app. replace (N.of_nat (List.length b + List.length [c])) with (N.of_nat (List.length b) + 1)%N by (cbn; lia). by constructor.
Qed.

Lemma least_step a b x y d u l :
  least_edits a b d -> least_edits a (b ++ [y]) u -> least_edits (a ++ [x]) b l ->
  least_edits (a ++ [x]) (b ++ [y]) (N.min (N.min (d + if (x =? y)%N then 0 else 1) (u + 1)) (l + 1)).
Proof.
  intros [Hd Ld] [Hu Lu] [Hl Ll]. split.
  - destruct (N.min_spec (N.min (d + if (x =? y)%N then 0 else 1) (u + 1)) (l + 1)) as [[_ ->]|[_ ->]]; [|by constructor].
    destruct (N.min_spec (d + if (x =? y)%N then 0 else 1) (u + 1)) as [[_ ->]|[_ ->]]; [|by constructor].
    destruct (N.eqb_spec x y) as [->|]; [rewrite N.add_0_r; by constructor|by constructor].
  - intros m H. inversion H as [E1 E2|a' b' n c Hn E1 E2 E3|a' b' n c e Hn E1 E2 E3|a' b' n e Hn E1 E2 E3|a' b' n c Hn E1 E2 E3].
    + by destruct a.
    + apply app_inj_tail in E1 as [-> ->], E2 as [-> <-]. apply Ld in Hn. rewrite N.eqb_refl. lia.
    + apply app_inj_tail in E1 as [-> ->], E2 as [-> ->]. apply Ld in Hn. destruct (x =? y)%N; lia.
    + apply app_inj_tail in E2 as [-> ->]. subst. apply Ll in Hn. lia.
    + apply app_inj_tail in E1 as [-> ->]. subst. apply Lu in Hn. lia.
Qed.

(** A row of the table beside [b]: after the prefix [done], the least edits of [a] to
    every longer prefix. *)
Fixpoint row_least (a done b row : list N) : Prop :=
  match b, row with
  | [], [] => True
  | y :: b', n :: row' => least_edits a (done ++ [y]) n /\ row_least a (done ++ [y]) b' row'
  | _, _ => False
  end.

Lemma edit_row_least a x done b above diagonal left_ :
  least_edits a done diagonal -> least_edits (a ++ [x]) done left_ -> row_least a done b above ->
  row_least (a ++ [x]) done b (edit_row x b above diagonal left_).
Proof.
  revert done above diagonal left_. induction b as [|y b IH]; intros done' above diagonal left_ Hd Hl Ha; destruct above as [|u above]; try done.
  destruct Ha as [Hu Ha]. cbn [edit_row row_least]. pose proof (least_step _ _ _ _ _ _ _ Hd Hu Hl) as Hv. split; [done|]. by apply IH.
Qed.

Lemma row_last a done b row n : row_least a done b row -> (n :: row) !! List.length b = Some (default n (list.last row)).
Proof.
  revert done row n. induction b as [|y b IH]; intros done' row n H; destruct row as [|m row]; try done. destruct H as [_ H].
  cbn [List.length]. change ((n :: m :: row) !! S (List.length b)) with ((m :: row) !! List.length b). rewrite (IH _ _ _ H), last_cons.
  by destruct (list.last row).
Qed.

Lemma row_last_least a done b row n :
  least_edits a done n -> row_least a done b row -> least_edits a (done ++ b) (default n (list.last row)).
Proof.
  revert done row n. induction b as [|y b IH]; intros done' row n Hn H; destruct row as [|m row]; try done; [by rewrite app_nil_r|].
  destruct H as [Hm H]. pose proof (IH _ _ _ Hm H) as Hi. rewrite <- app_assoc in Hi. cbn [app] in Hi. rewrite last_cons.
  by destruct (list.last row).
Qed.

Lemma first_row b done : row_least [] done b (map N.of_nat (seq (S (List.length done)) (List.length b))).
Proof.
  revert done. induction b as [|y b IH]; intros done'; [done|]. cbn [List.length seq map row_least]. split.
  - pose proof (least_from_nil (done' ++ [y])) as H. rewrite length_app in H. cbn in H. by rewrite Nat.add_comm in H.
  - specialize (IH (done' ++ [y])%list). rewrite length_app in IH. cbn in IH. by rewrite Nat.add_comm in IH.
Qed.

Lemma edit_distance_least a b : least_edits a b (edit_distance a b).
Proof.
  unfold edit_distance.
  assert (H : exists row, fold_left (edit_step b) a (0%N, map N.of_nat (seq 0 (S (List.length b)))) = (N.of_nat (List.length a), N.of_nat (List.length a) :: row)
              /\ row_least a [] b row).
  { induction a as [|x a (row & E & Hr)] using rev_ind; [eexists; split; [reflexivity|apply (first_row b [])]|].
    rewrite fold_left_app, E. cbn [fold_left edit_step]. rewrite length_app. cbn [List.length].
    replace (N.of_nat (List.length a + 1)) with (N.of_nat (List.length a) + 1)%N by lia. eexists. split; [reflexivity|].
    apply edit_row_least; [apply least_to_nil| |done]. pose proof (least_to_nil (a ++ [x])) as H. rewrite length_app in H. cbn in H.
    by replace (N.of_nat (List.length a + 1)) with (N.of_nat (List.length a) + 1)%N in H by lia. }
  destruct H as (row & E & Hr). rewrite E. cbn [snd]. rewrite (row_last _ _ _ _ _ Hr). cbn [default]. unfold from_option, id.
  apply (row_last_least a [] b); [apply least_to_nil|done].
Qed.

Lemma min_pairs l best :
  match fold_left min_pair l best with
  | None => best = None /\ l = []
  | Some x => (best = Some x \/ x ∈ l) /\ (forall y, best = Some y \/ y ∈ l -> (x.1 <= y.1)%N)
  end.
Proof.
  revert best. induction l as [|z l IH]; intros best; cbn [fold_left].
  - destruct best as [x|]; [|done]. split; [by left|]. intros y [[= ->]|H%elem_of_nil]; [lia|done].
  - specialize (IH (min_pair best z)). destruct (fold_left min_pair l (min_pair best z)) as [x|].
    + destruct IH as [Hx Hle]. assert (Hmin : min_pair best z = best \/ min_pair best z = Some z)
        by (unfold min_pair; destruct best; [destruct (pair_lt _ _)|]; auto).
      assert (Hb : forall y, best = Some y \/ y = z -> exists w, min_pair best z = Some w /\ (w.1 <= y.1)%N).
      { intros y Hy. unfold min_pair. destruct best as [b|]; [|destruct Hy as [?| ->]; [done|]; exists z; split; [done|lia]].
        destruct (pair_lt z b) eqn:Ep; [exists z|exists b]; (split; [done|]); unfold pair_lt in Ep;
          destruct (N.ltb_spec z.1 b.1), (N.eqb_spec z.1 b.1); destruct Hy as [[= ->]| ->]; cbn in Ep; try done; lia. }
      split.
      * destruct Hx as [Hx|Hx]; [|right; by right]. destruct Hmin as [E|E]; rewrite E in Hx; [by left|injection Hx as <-; right; by left].
      * intros y [Hy|[->|Hy]%elem_of_cons]; [destruct (Hb y (or_introl Hy)) as (w & Hw & Hle')|destruct (Hb z (or_intror eq_refl)) as (w & Hw & Hle')|
          by apply Hle; right]; (etrans; [apply Hle; by left|done]).
    + destruct IH as [IH _]. unfold min_pair in IH. destruct best; [destruct (pair_lt _ _)|]; done.
Qed.

(** The suggestion for an unknown property is the nearest known name: the two-row
    table computes the least number of characters to insert, delete or replace, and the
    name suggested is, ignoring case, at most two such edits away and no known name is
    nearer; when none is suggested, every known name is more than two edits away. *)
Theorem suggestion_is_nearest {UC : UnicodeCase} unknown candidates :
  match nearest_name unknown candidates with
  | Some known => known ∈ candidates /\ exists n, (n <= 2)%N /\ least_edits (chars (to_uppercase unknown)) (chars (to_uppercase known)) n
      /\ forall other m, other ∈ candidates -> edits (chars (to_uppercase unknown)) (chars (to_uppercase other)) m -> (n <= m)%N
  | None => forall other m, other ∈ candidates -> edits (chars (to_uppercase unknown)) (chars (to_uppercase other)) m -> (2 < m)%N
  end.
Proof.
  unfold nearest_name. set (f := fun c => (edit_distance (chars (to_uppercase unknown)) (chars (to_uppercase c)), c)).
  pose proof (min_pairs (List.filter (fun dc => (dc.1 <=? N.of_nat SUGGESTION_MAX_EDITS)%N) (map f candidates)) None) as H.
  assert (Hin : forall other m, other ∈ candidates -> edits (chars (to_uppercase unknown)) (chars (to_uppercase other)) m ->
    ((f other).1 <= m)%N /\ ((f other).1 <= 2 -> f other ∈ List.filter (fun dc => (dc.1 <=? N.of_nat SUGGESTION_MAX_EDITS)%N) (map f candidates))%N).
  { intros other m Ho Hm. split; [by apply (proj2 (edit_distance_least _ _))|]. intros Hle. apply list_elem_of_In, List.filter_In. split.
    - apply List.in_map. by apply list_elem_of_In.
    - by apply N.leb_le. }
  destruct (fold_left min_pair _ None) as [x|]; cbn [fmap option_fmap option_map].
  - destruct H as [[?|Hx] Hle]; [done|]. apply list_elem_of_In, List.filter_In in Hx as [Hx Hd]. apply List.in_map_iff in Hx as (c & <- & Hc).
    cbn [snd]. split; [by apply list_elem_of_In|]. apply N.leb_le in Hd. exists (f c).1. split_and!; [exact Hd|apply edit_distance_least|].
    intros other m Ho Hm. destruct (Hin other m Ho Hm) as [Hm' Hf]. destruct (N.le_gt_cases (f other).1 2) as [H2|H2].
    + etrans; [apply Hle; right; by apply Hf|done].
    + change (N.of_nat SUGGESTION_MAX_EDITS) with 2%N in Hd. lia.
  - intros other m Ho Hm. destruct (Hin other m Ho Hm) as [Hm' Hf]. destruct (N.le_gt_cases (f other).1 2) as [H2|H2]; [|lia].
    apply Hf in H2. destruct H as [_ H]. rewrite H in H2. by apply elem_of_nil in H2.
Qed.

Example suggests_parallelism_factor : nearest_name (UC := ascii_case) "paralelism_Factor" PROPERTY_NAMES = Some PROP_PARALLELISM_FACTOR.
Proof. vm_compute. reflexivity. Qed.

(** ** Checked properties are the stated ones *)

Section Checked.
Context {UC : UnicodeCase} {F : Type} {FR : Fractions F} (props : Json).

(** The stated value, as its rule reads it. *)
Definition stated {T} (name : string) (rule : string -> result string T) : option T := nonempty_str props name ≫= fun raw => ok (rule raw).

Definition accepted {T} (name : string) (rule : string -> result string T) : Prop :=
  forall raw, nonempty_str props name = Some raw -> exists v, rule raw = Ok v.

Lemma insert_entry_nonempty name entry m : insert_entry name entry m <> [].
Proof. destruct m as [|[k e] m]; cbn; [done|]. by destruct (String.compare name k). Qed.

Lemma value_accepts {T} name (rule : string -> result string T) e v e' :
  value props name rule e = (v, e') -> e' = [] -> e = [] /\ v = stated name rule /\ accepted name rule.
Proof.
  unfold value, stated, accepted. destruct (nonempty_str props name) as [raw|]; cbn [mbind option_bind].
  - destruct (rule raw) as [x|] eqn:Er; [intros [= <- <-] ->; split_and!; [done|done|]; intros r [= <-]; eauto|].
    intros [= <- <-] H. by apply insert_entry_nonempty in H.
  - by intros [= <- <-] ->.
Qed.

Lemma whole_number_range (W : WholeNumber) name n :
  stated name (parse_whole_number (H := W)) = Some n -> (@MIN W <= n <= @MAX W)%N.
Proof.
  unfold stated. destruct (nonempty_str props name) as [raw|]; [|done]. cbn [mbind option_bind]. unfold parse_whole_number, parse_digits.
  destruct (_ && _); [|done]. destruct ((MIN <=? digits_value 0 raw)%N && (digits_value 0 raw <=? MAX)%N) eqn:E; [|done].
  cbn. intros [= <-]. apply andb_true_iff in E as [E1%N.leb_le E2%N.leb_le]. done.
Qed.

Definition stated_tuning : TuningProperties F :=
  MkTuning
    (stated PROP_PARALLELISM_FACTOR (parse_whole_number (H := NonZeroU8))) (stated PROP_DF_THREADING_MODE parse_threading_mode)
    (stated PROP_DF_TARGET_PARTITIONS (parse_whole_number (H := NonZeroU16))) (stated PROP_DF_THREADS_PER_UDF (parse_whole_number (H := NonZeroU16)))
    (stated PROP_DF_BATCH_SIZE (parse_whole_number (H := NonZeroU32))) (stated PROP_MEMORY_POOL_FRACTION parse_fraction)
    (stated PROP_INSTANCE_OVERHEAD_MB (parse_whole_number (H := u16_number))) (stated PROP_JOIN_BROADCAST_MAX_BYTES (parse_whole_number (H := NonZeroU64)))
    (stated PROP_S3_MAX_CONNECTIONS (parse_whole_number (H := NonZeroU16))).

Lemma checked_values_stated c : check_values props = inl c ->
  tuning c = stated_tuning
  /\ table_filter c = TableFilter_new (stated PROP_TABLE_INCLUDE parse_pattern_list) (stated PROP_TABLE_EXCLUDE parse_pattern_list)
  /\ accepted PROP_ALLOW_HTTP check_boolean /\ accepted PROP_BINARY_AS_STRING check_boolean
  /\ accepted PROP_MEMORY_POOL_FRACTION parse_fraction /\ accepted PROP_DF_THREADING_MODE parse_threading_mode.
Proof.
  intros Ev. unfold check_values, whole_number in Ev.
  repeat match type of Ev with context [value props ?n ?r ?e] => destruct (value props n r e) as [? ?] eqn:? end.
  match type of Ev with (match ?e with _ => _ end) = _ => destruct e eqn:?; [|done] end. injection Ev as <-. subst.
  repeat match goal with H : value props _ _ _ = (_, ?e) |- _ => first [is_var e | unify e (@nil (string * string))]; apply value_accepts in H as (? & ? & ?); [|done]; subst end.
  done.
Qed.
End Checked.

(** A virtual schema's properties are accepted as a whole or refused as a whole: on
    acceptance every property with a value has a known name, every stated tuning value and
    pattern list passes its own rule, and what the schema is tuned with is exactly what
    was stated, each number within its type's range and zero refused where the type
    excludes it. *)
Theorem checked_properties_exact {UC : UnicodeCase} {F} {FR : Fractions F} props c :
  check_properties (F := F) props = Ok c ->
  (forall name v, (name, v) ∈ default [] (as_object props) -> is_Some (nonempty_str props name) -> name ∈ PROPERTY_NAMES)
  /\ tuning c = MkTuning
       (stated props PROP_PARALLELISM_FACTOR (parse_whole_number (H := NonZeroU8))) (stated props PROP_DF_THREADING_MODE parse_threading_mode)
       (stated props PROP_DF_TARGET_PARTITIONS (parse_whole_number (H := NonZeroU16))) (stated props PROP_DF_THREADS_PER_UDF (parse_whole_number (H := NonZeroU16)))
       (stated props PROP_DF_BATCH_SIZE (parse_whole_number (H := NonZeroU32))) (stated props PROP_MEMORY_POOL_FRACTION parse_fraction)
       (stated props PROP_INSTANCE_OVERHEAD_MB (parse_whole_number (H := u16_number))) (stated props PROP_JOIN_BROADCAST_MAX_BYTES (parse_whole_number (H := NonZeroU64)))
       (stated props PROP_S3_MAX_CONNECTIONS (parse_whole_number (H := NonZeroU16)))
  /\ table_filter c = TableFilter_new (stated props PROP_TABLE_INCLUDE parse_pattern_list) (stated props PROP_TABLE_EXCLUDE parse_pattern_list)
  /\ accepted props PROP_ALLOW_HTTP check_boolean /\ accepted props PROP_BINARY_AS_STRING check_boolean
  /\ accepted props PROP_MEMORY_POOL_FRACTION parse_fraction /\ accepted props PROP_DF_THREADING_MODE parse_threading_mode
  /\ (forall n, parallelism_factor (tuning c) = Some n -> (1 <= n <= 255)%N)
  /\ (forall n, df_batch_size (tuning c) = Some n -> (1 <= n <= 4294967295)%N).
Proof.
  unfold check_properties. destruct (check_values props) as [c'|] eqn:Ev; [|done].
  destruct (map unknown_entry (unknown_names props)) eqn:Eu; [|done]. intros [= <-]. apply map_eq_nil in Eu.
  assert (Hnames : forall name v, (name, v) ∈ default [] (as_object props) -> is_Some (nonempty_str props name) -> name ∈ PROPERTY_NAMES).
  { intros name v Hin Hs. destruct (existsb (String.eqb name) PROPERTY_NAMES) eqn:Ek.
    - apply existsb_exists in Ek as (k & Hk & ->%String.eqb_eq). by apply list_elem_of_In.
    - exfalso. assert (Hf : name ∈ unknown_names props); [|rewrite Eu in Hf; by apply elem_of_nil in Hf].
      apply list_elem_of_In, List.filter_In. split; [apply List.in_map_iff; exists (name, v); split; [done|by apply list_elem_of_In]|].
      rewrite Ek. by rewrite bool_decide_eq_true_2. }
  split; [exact Hnames|]. clear Hnames Eu. apply checked_values_stated in Ev as (Ht & Hf & H1 & H2 & H3 & H4). rewrite Ht.
  cbn [parallelism_factor df_batch_size]. split_and!; try done; intros n Hn; by apply whole_number_range in Hn.
Qed.

Definition no_fractions : Fractions N := {| parse_f64 _ := None; in_unit_interval _ := true; show_f64 := show_N |}.
Definition tuned_props : Json := json_object [(PROP_PARALLELISM_FACTOR, JString "4"); (PROP_TABLE_INCLUDE, JString "sales_*, x")].

Lemma checked_properties_exact_witness :
  exists c, check_properties (UC := ascii_case) (FR := no_fractions) tuned_props = Ok c /\ parallelism_factor (tuning c) = Some 4%N
    /\ (forall name v, (name, v) ∈ default [] (as_object tuned_props) -> is_Some (nonempty_str tuned_props name) -> name ∈ PROPERTY_NAMES).
Proof.
  eexists. split; [vm_compute; reflexivity|]. split; [reflexivity|].
  exact (proj1 (checked_properties_exact (UC := ascii_case) (FR := no_fractions) tuned_props _ eq_refl)).
Defined.
