(* ===== verification/Resolution.v ===== *)
(** The resolution of one table reference: the shared half of
    adapter/pushdown/format/mod.rs, adapter/pushdown/scan_resolution.rs and
    refused_columns.rs. *)

From stdpp Require Import base list strings numbers gmap.
From Stdlib Require Import Ascii String ZArith NArith Lia.
From S2P Require Import Prelude Text Hex Json ColumnNode ArrowTypes TypeMapping Storage ScanSpec ColumnNotes ColumnTypes BinaryFilter ScanFiles Projection Permission.

Local Open Scope string_scope.

(** ** Planned files *)

Record PlannedFiles := MkPlanned {
  pf_files : list FileEntry;
  pf_effective_storage : StorageBackend;
  pf_table_root : string;
  pf_name_mapping : list NameMappingEntry;
}.

Record ResolvedScan := MkResolvedScan {
  rs_files : list FileEntry;
  rs_effective_storage : StorageBackend;
  rs_logical_schema : list LogicalField;
  rs_table_root : string;
  rs_name_mapping : list NameMappingEntry;
  rs_partition_columns : list string;
  rs_refused_columns : list RefusedColumn;
}.

(** The trait [LoadedTable]. *)
Class LoadedTable (T : Type) := { prune : T -> DeclaredSchema -> option Json -> result UdfError PlannedFiles }.

Definition ResolvedScan_new (declared : DeclaredSchema) (planned : PlannedFiles) : ResolvedScan :=
  MkResolvedScan (pf_files planned) (pf_effective_storage planned) (logical_schema declared) (pf_table_root planned)
    (pf_name_mapping planned) (partition_columns declared) (refused_columns declared).

Definition ResolvedScan_resolve {T} {LT : LoadedTable T} (table : T) (declared : DeclaredSchema) (filter_json : option Json)
  : result UdfError ResolvedScan :=
  let? planned := prune table declared filter_json in Ok (ResolvedScan_new declared planned).

Definition hex_binary_partition_values {HX : Hex} (files : list FileEntry) (logical_schema : list LogicalField) : list FileEntry :=
  let binary := map lf_name (List.filter (fun field => is_binary (arrow_type_from_tag (lf_arrow_type field))) logical_schema) in
  match binary with
  | [] => files
  | _ =>
      map (fun file =>
        {| path := path file; size := size file; deletes := deletes file;
           partition_values := map_imap (fun column value =>
             Some (if existsb (String.eqb column) binary then option_map hex_encode value else value)) (partition_values file) |}) files
  end.

Definition checked_storage_location (storage_location : option string) (table catalog : string) : result UdfError string :=
  let refusal := User ("the " ++ catalog ++ " metadata for table " ++ table
    ++ " carries an EMPTY storage location; the catalog URI and the CONNECTION endpoint name no table location and are not valid substitutes") in
  match storage_location with
  | Some location => if String.eqb (trim location) "" then Err refusal else Ok location
  | None => Err refusal
  end.

Section Refused.
Context {UC : UnicodeCase}.

(** ** Refused columns *)

Definition ensure_no_touched_column_is_refused (touched : list string) (refused : list RefusedColumn) : result UdfError () :=
  match map reason (List.filter (fun c => existsb (String.eqb (to_uppercase (column_name c))) touched) refused) with
  | [] => Ok tt
  | reasons => Err (User ("pushdown request reads or emits column(s) this engine cannot render: " ++ join "; " reasons))
  end.

Definition emitted_names (emitted_projection : option (list ProjectionItem)) : list string :=
  omap (fun item => match item with PColumn column => Some (to_uppercase (ScanSpec.name column)) | PExpr _ => None end)
    (default [] emitted_projection).

Definition ensure_no_refused_column_referenced (request : Json) (emitted_projection : option (list ProjectionItem)) (refused : list RefusedColumn)
  : result UdfError () :=
  match refused with
  | [] => Ok tt
  | _ => ensure_no_touched_column_is_refused (collect_all_column_names request ++ emitted_names emitted_projection)%list refused
  end.

(** ** Resolution *)

Context {HX : Hex} {T : Type} {LT : LoadedTable T}.
Context (parse : string -> option Json) (describe : string -> string).

(** The request's view: its permission, what the statement admitted, and the load the
    statement shares ([loaded_table]). *)
Definition resolve_table (permission : PermissionCheck) (admitted : gset string) (binary_as_string : bool)
    (loaded_table : string -> result UdfError T) (table_identifier : string) (filter_json : option Json) (involved : InvolvedColumns)
  : result UdfError (ResolvedScan * ColumnTypes) :=
  let? _ := require_admitted permission admitted table_identifier in
  let? declared := declared_schema parse describe (notes involved) in
  let column_types := column_types_of involved (logical_schema declared) binary_as_string in
  let filter_json := with_binary_literals column_types <$> filter_json in
  let? loaded := loaded_table table_identifier in
  let? scan := ResolvedScan_resolve loaded declared filter_json in
  Ok (scan, column_types).
End Refused.

(** A refused column is never read: the request names it, in any clause and at any
    depth, or emits it, and fails. *)
Lemma touched_refused {UC : UnicodeCase} touched refused c :
  c ∈ refused -> to_uppercase (column_name c) ∈ touched -> exists e, ensure_no_touched_column_is_refused touched refused = Err e.
Proof.
  intros Hc Ht. unfold ensure_no_touched_column_is_refused.
  destruct (map reason _) as [|r rs] eqn:E; [|eauto]. exfalso. apply map_eq_nil in E.
  assert (Hin : c ∈ List.filter (fun c => existsb (String.eqb (to_uppercase (column_name c))) touched) refused).
  { apply list_elem_of_In, List.filter_In. split; [by apply list_elem_of_In|]. apply existsb_exists. eexists. split; [by apply list_elem_of_In|].
    apply String.eqb_refl. }
  rewrite E in Hin. by apply elem_of_nil in Hin.
Qed.

(** ** Binary partition values *)

(** The columns whose values travel as hex. *)
Definition binary_columns (logical_schema : list LogicalField) : list string :=
  map lf_name (List.filter (fun field => is_binary (arrow_type_from_tag (lf_arrow_type field))) logical_schema).

Definition hexed {HX : Hex} (logical_schema : list LogicalField) (column : string) (value : option string) : option string :=
  if existsb (String.eqb column) (binary_columns logical_schema) then option_map hex_encode value else value.

Lemma hexed_files {HX : Hex} files logical e : e ∈ files ->
  exists e', e' ∈ hex_binary_partition_values files logical /\ path e' = path e /\ size e' = size e /\ deletes e' = deletes e
    /\ forall column, partition_values e' !! column = hexed logical column <$> partition_values e !! column.
Proof.
  intros Hin. unfold hex_binary_partition_values, hexed. change (map lf_name _) with (binary_columns logical). destruct (binary_columns logical) as [|b bs].
  - exists e. split_and!; try done. intros column. cbn. by destruct (partition_values e !! column).
  - eexists. split; [by apply list_elem_of_fmap_2|]. split_and!; try done. intros column. cbn [partition_values]. rewrite map_lookup_imap.
    by destruct (partition_values e !! column).
Qed.
