(* ===== verification/CommonSpec.v ===== *)
(** crates/lakehouse-engine/src/scan/spec.rs, the shard-invariant part of a scan: the
    storage block, the join block and the common spec, their JSON, and the two-part
    wire form (common blob and file list) the adapter writes and the scan reads. *)

From stdpp Require Import base list strings numbers gmap.
From Stdlib Require Import Ascii String ZArith NArith Lia.
From S2P Require Import Prelude Serde Json Storage ScanSpec ScanFiles.

Local Open Scope string_scope.

Inductive ScanStorage :=
| SConnection (name : string) (allow_http : bool)
| SSealed (name payload : string)
| SInline (b : StorageBackend).

Inductive JoinType := Inner.

Record JoinSpec := MkJoinSpec {
  j_table_root : string;
  j_files : list FileEntry;
  j_logical_schema : list LogicalField;
  j_name_mapping : list NameMappingEntry;
  join_type : JoinType;
  fact_alias : string;
  dimension_alias : string;
  condition : string;
  post_join_limit : option N;
  post_join_order_by : list SortKey;
  j_partition_columns : list string;
  j_storage : ScanStorage;
}.

Record CommonScanSpec (F : Type) := MkCommon {
  table_root : string;
  projection : list ProjectionItem;
  filter_sql : option string;
  limit : option N;
  order_by : list SortKey;
  aggregates : option (list AggregatePlan);
  spec_group_keys : option (list string);
  distinct : bool;
  logical_schema : list LogicalField;
  name_mapping : list NameMappingEntry;
  join_spec : option JoinSpec;
  partition_columns : list string;
  storage : ScanStorage;
  df_target_partitions : N;
  df_batch_size : N;
  df_threads_per_udf : N;
  memory_pool_fraction : F;
  instance_overhead_mb : N;
  s3_max_connections : N;
  binary_as_string : bool;
}.
Arguments MkCommon {F}.
Arguments table_root {F}. Arguments projection {F}. Arguments filter_sql {F}. Arguments limit {F}. Arguments order_by {F}.
Arguments aggregates {F}. Arguments spec_group_keys {F}. Arguments distinct {F}. Arguments logical_schema {F}.
Arguments name_mapping {F}. Arguments join_spec {F}. Arguments partition_columns {F}. Arguments storage {F}.
Arguments df_target_partitions {F}. Arguments df_batch_size {F}. Arguments df_threads_per_udf {F}.
Arguments memory_pool_fraction {F}. Arguments instance_overhead_mb {F}. Arguments s3_max_connections {F}. Arguments binary_as_string {F}.

Definition DEFAULT_S3_MAX_CONNECTIONS : N := 16.
Definition default_one_usize : N := 1.
Definition default_batch_size : N := 8192.
Definition default_instance_overhead_mb : N := 200.

(** ** Objects field by field

    A written field is a key with no entry (skipped) or one. *)

Definition chunk : Type := string * list (string * Json).
Definition present (key : string) (j : Json) : chunk := (key, [(key, j)]).
Definition unless_none {A} (key : string) (to : A -> Json) (o : option A) : chunk := (key, skip_none key to o).
Definition unless_empty {A} (key : string) (to : A -> Json) (l : list A) : chunk := (key, skip_empty key to l).
Definition unless_blank (key s : string) : chunk := (key, if String.eqb s "" then [] else [(key, JString s)]).
Definition if_set (key : string) (b : bool) : chunk := (key, if b then [(key, JBool true)] else []).
Definition object_of (chunks : list chunk) : Json := JObject (List.concat (map snd chunks)).

(** ** The parts *)

Definition AGG_KINDS : list (string * AggKind) :=
  [("count", Count); ("countcol", CountCol); ("sum", Sum); ("min", Min); ("max", Max); ("avg", Avg); ("varpop", VarPop);
   ("varsamp", VarSamp); ("variance", Variance); ("stddevpop", StddevPop); ("stddevsamp", StddevSamp); ("stddev", Stddev)].

Definition agg_kind_name (k : AggKind) : string :=
  match k with
  | Count => "count" | CountCol => "countcol" | Sum => "sum" | Min => "min" | Max => "max" | Avg => "avg" | VarPop => "varpop"
  | VarSamp => "varsamp" | Variance => "variance" | StddevPop => "stddevpop" | StddevSamp => "stddevsamp" | Stddev => "stddev"
  end.

Definition plan_chunks (p : AggregatePlan) : list chunk :=
  [present "kind" (JString (agg_kind_name (kind p))); unless_none "column" JString (column p); unless_none "arg_expr" JString (arg_expr p)].
Definition plan_to_json (p : AggregatePlan) : Json := object_of (plan_chunks p).
Definition plan_from_json (j : Json) : option AggregatePlan :=
  f ← struct_fields ["kind"; "column"; "arg_expr"] j;
  kind ← required "kind" (from_unit_variant AGG_KINDS) f;
  column ← optional "column" as_str f;
  arg_expr ← optional "arg_expr" as_str f;
  Some {| kind := kind; column := column; arg_expr := arg_expr |}.

Definition sort_key_chunks (k : SortKey) : list chunk :=
  [present "column" (column_ref_to_json (sort_column k)); present "ascending" (JBool (ascending k));
   present "nulls_last" (JBool (nulls_last k))].
Definition sort_key_to_json (k : SortKey) : Json := object_of (sort_key_chunks k).
Definition sort_key_from_json (j : Json) : option SortKey :=
  f ← struct_fields ["column"; "ascending"; "nulls_last"] j;
  column ← required "column" column_ref_from_json f;
  asc ← required "ascending" as_bool f;
  nulls ← required "nulls_last" as_bool f;
  Some (MkSortKey column asc nulls).

Fixpoint mapping_to_json (e : NameMappingEntry) : Json :=
  let '(MkNameMapping names field_id fields) := e in
  object_of [present "names" (JArray (map JString names)); present "field_id" (to_signed field_id);
             ("fields", match fields with [] => [] | _ => [("fields", JArray (map mapping_to_json fields))] end)].

Fixpoint mapping_from_json_fuel (fuel : nat) (j : Json) : option NameMappingEntry :=
  match fuel with
  | 0 => None
  | S fuel =>
      f ← struct_fields ["names"; "field_id"; "fields"] j;
      names ← required "names" (from_list as_str) f;
      field_id ← required "field_id" (from_signed 32) f;
      fields ← defaulted "fields" [] (from_list (mapping_from_json_fuel fuel)) f;
      Some (MkNameMapping names field_id fields)
  end.

Definition mapping_from_json (j : Json) : option NameMappingEntry := mapping_from_json_fuel (json_depth j) j.

(** *** Storage: externally tagged enums *)

Definition props_chunks (p : StorageProps) : list chunk :=
  [present "endpoint" (JString (endpoint p)); present "region" (JString (region p)); present "access_key" (JString (access_key p));
   present "secret_key" (JString (secret_key p)); unless_none "session_token" JString (session_token p);
   present "allow_http" (JBool (allow_http p)); present "path_style" (JBool (path_style p))].
Definition props_to_json (p : StorageProps) : Json := object_of (props_chunks p).
Definition props_from_json (j : Json) : option StorageProps :=
  f ← struct_fields ["endpoint"; "region"; "access_key"; "secret_key"; "session_token"; "allow_http"; "path_style"] j;
  ep ← required "endpoint" as_str f;
  rg ← required "region" as_str f;
  ak ← required "access_key" as_str f;
  sk ← required "secret_key" as_str f;
  st ← optional "session_token" as_str f;
  ah ← defaulted "allow_http" false as_bool f;
  ps ← defaulted "path_style" true as_bool f;
  Some (MkStorageProps ep rg ak sk st ah ps).

Definition tagged_value (j : Json) : option (string * Json) :=
  match j with JObject [(tag, body)] => Some (tag, body) | _ => None end.

Definition cred_to_json (c : AdlsCred) : Json :=
  match c with AccountKey key => JObject [("account_key", JString key)] | Sas sas => JObject [("sas", JString sas)] end.
Definition cred_from_json (j : Json) : option AdlsCred :=
  '(tag, body) ← tagged_value j;
  if String.eqb tag "account_key" then AccountKey <$> as_str body
  else if String.eqb tag "sas" then Sas <$> as_str body
  else None.

Definition backend_to_json (b : StorageBackend) : Json :=
  match b with
  | S3 props => JObject [("s3", props_to_json props)]
  | Adls account cred => JObject [("adls", object_of [present "account_name" (JString account); present "cred" (cred_to_json cred)])]
  end.
Definition backend_from_json (j : Json) : option StorageBackend :=
  '(tag, body) ← tagged_value j;
  if String.eqb tag "s3" then S3 <$> props_from_json body
  else if String.eqb tag "adls" then
    f ← struct_fields ["account_name"; "cred"] body;
    account ← required "account_name" as_str f;
    cred ← required "cred" cred_from_json f;
    Some (Adls account cred)
  else None.

Definition scan_storage_to_json (s : ScanStorage) : Json :=
  match s with
  | SConnection name allow => JObject [("connection", object_of [present "name" (JString name); present "allow_http" (JBool allow)])]
  | SSealed name payload => JObject [("sealed", object_of [present "name" (JString name); present "payload" (JString payload)])]
  | SInline b => JObject [("inline", backend_to_json b)]
  end.
Definition scan_storage_from_json (j : Json) : option ScanStorage :=
  '(tag, body) ← tagged_value j;
  if String.eqb tag "connection" then
    f ← struct_fields ["name"; "allow_http"] body;
    name ← required "name" as_str f; allow ← required "allow_http" as_bool f; Some (SConnection name allow)
  else if String.eqb tag "sealed" then
    f ← struct_fields ["name"; "payload"] body;
    name ← required "name" as_str f; payload ← required "payload" as_str f; Some (SSealed name payload)
  else if String.eqb tag "inline" then SInline <$> backend_from_json body
  else None.

(** *** The join block *)

Definition JOIN_TYPES : list (string * JoinType) := [("inner", Inner)].

Definition join_chunks (s : JoinSpec) : list chunk :=
  [unless_blank "table_root" (j_table_root s); present "files" (JArray (map entry_to_json (j_files s)));
   unless_empty "logical_schema" logical_field_to_json (j_logical_schema s); unless_empty "name_mapping" mapping_to_json (j_name_mapping s);
   present "join_type" (JString "inner"); present "fact_alias" (JString (fact_alias s));
   present "dimension_alias" (JString (dimension_alias s)); present "condition" (JString (condition s));
   unless_none "post_join_limit" to_u64 (post_join_limit s); unless_empty "post_join_order_by" sort_key_to_json (post_join_order_by s);
   unless_empty "partition_columns" JString (j_partition_columns s); present "storage" (scan_storage_to_json (j_storage s))].
Definition join_to_json (s : JoinSpec) : Json := object_of (join_chunks s).

Definition JOIN_FIELDS : list string :=
  ["table_root"; "files"; "logical_schema"; "name_mapping"; "join_type"; "fact_alias"; "dimension_alias"; "condition";
   "post_join_limit"; "post_join_order_by"; "partition_columns"; "storage"].

Definition join_from_json (j : Json) : option JoinSpec :=
  f ← struct_fields JOIN_FIELDS j;
  root ← defaulted "table_root" "" as_str f;
  files ← required "files" (from_list entry_from_json) f;
  schema ← defaulted "logical_schema" [] (from_list logical_field_from_json) f;
  mapping ← defaulted "name_mapping" [] (from_list mapping_from_json) f;
  jt ← required "join_type" (from_unit_variant JOIN_TYPES) f;
  fact ← required "fact_alias" as_str f;
  dimension ← required "dimension_alias" as_str f;
  cond ← required "condition" as_str f;
  lim ← optional "post_join_limit" from_u64 f;
  order ← defaulted "post_join_order_by" [] (from_list sort_key_from_json) f;
  parts ← defaulted "partition_columns" [] (from_list as_str) f;
  st ← required "storage" scan_storage_from_json f;
  Some (MkJoinSpec root files schema mapping jt fact dimension cond lim order parts st).

(** ** The common spec

    A double's JSON is [serde_json]'s. *)

Class DoubleJson (F : Type) := { f64_to_json : F -> Json; f64_from_json : Json -> option F; default_memory_pool_fraction : F }.

Section Common.
Context {F : Type} {DJ : DoubleJson F}.

Definition common_chunks (s : CommonScanSpec F) : list chunk :=
  [unless_blank "table_root" (table_root s); present "projection" (JArray (map projection_item_to_json (projection s)));
   unless_none "filter" JString (filter_sql s); unless_none "limit" to_u64 (limit s); unless_empty "order_by" sort_key_to_json (order_by s);
   unless_none "aggregates" (fun l => JArray (map plan_to_json l)) (aggregates s);
   unless_none "group_keys" (fun l => JArray (map JString l)) (spec_group_keys s); if_set "distinct" (distinct s);
   unless_empty "logical_schema" logical_field_to_json (logical_schema s); unless_empty "name_mapping" mapping_to_json (name_mapping s);
   unless_none "join" join_to_json (join_spec s); unless_empty "partition_columns" JString (partition_columns s);
   present "storage" (scan_storage_to_json (storage s)); present "df_target_partitions" (to_u64 (df_target_partitions s));
   present "df_batch_size" (to_u64 (df_batch_size s)); present "df_threads_per_udf" (to_u64 (df_threads_per_udf s));
   present "memory_pool_fraction" (f64_to_json (memory_pool_fraction s)); present "instance_overhead_mb" (to_u64 (instance_overhead_mb s));
   present "s3_max_connections" (to_u64 (s3_max_connections s)); if_set "binary_as_string" (binary_as_string s)].
Definition common_to_json (s : CommonScanSpec F) : Json := object_of (common_chunks s).

Definition COMMON_FIELDS : list string :=
  ["table_root"; "projection"; "filter"; "limit"; "order_by"; "aggregates"; "group_keys"; "distinct"; "logical_schema"; "name_mapping";
   "join"; "partition_columns"; "storage"; "df_target_partitions"; "df_batch_size"; "df_threads_per_udf"; "memory_pool_fraction";
   "instance_overhead_mb"; "s3_max_connections"; "binary_as_string"].

Definition common_from_json (j : Json) : option (CommonScanSpec F) :=
  f ← struct_fields COMMON_FIELDS j;
  root ← defaulted "table_root" "" as_str f;
  proj ← required "projection" (from_list projection_item_from_json) f;
  flt ← optional "filter" as_str f;
  lim ← optional "limit" from_u64 f;
  order ← defaulted "order_by" [] (from_list sort_key_from_json) f;
  aggs ← optional "aggregates" (from_list plan_from_json) f;
  keys ← optional "group_keys" (from_list as_str) f;
  dist ← defaulted "distinct" false as_bool f;
  schema ← defaulted "logical_schema" [] (from_list logical_field_from_json) f;
  mapping ← defaulted "name_mapping" [] (from_list mapping_from_json) f;
  join ← optional "join" join_from_json f;
  parts ← defaulted "partition_columns" [] (from_list as_str) f;
  st ← required "storage" scan_storage_from_json f;
  target ← defaulted "df_target_partitions" default_one_usize from_u64 f;
  batch ← defaulted "df_batch_size" default_batch_size from_u64 f;
  threads ← defaulted "df_threads_per_udf" default_one_usize from_u64 f;
  fraction ← defaulted "memory_pool_fraction" default_memory_pool_fraction f64_from_json f;
  overhead ← defaulted "instance_overhead_mb" default_instance_overhead_mb from_u64 f;
  conns ← defaulted "s3_max_connections" DEFAULT_S3_MAX_CONNECTIONS from_u64 f;
  bas ← defaulted "binary_as_string" false as_bool f;
  Some (MkCommon root proj flt lim order aggs keys dist schema mapping join parts st target batch threads fraction overhead conns bas).

(** [files] is the one per-shard part. *)
Record ScanSpec := MkScanSpec { common : CommonScanSpec F; spec_files : list FileEntry }.

Definition from_parts (c : CommonScanSpec F) (files : list FileEntry) : ScanSpec := MkScanSpec c files.

Section Text.
Context (print : Json -> string) (parse : string -> option Json) (describe : string -> string).

Definition to_common_json (s : ScanSpec) : string := print (common_to_json (common s)).

Definition common_from_text (s : string) : result string (CommonScanSpec F) :=
  match parse s ≫= common_from_json with
  | Some c => Ok c
  | None => Err ("scan common spec deserialization failed (" ++ describe s ++ ")")
  end.

Definition from_parts_json (common_json files_json : string) : result string ScanSpec :=
  let? c := common_from_text common_json in
  let? files := files_from_json parse describe files_json in
  Ok (from_parts c files).
End Text.
End Common.
Arguments ScanSpec : clear implicits.

(** ** Reading a field back *)

Definition chunk_ok (c : chunk) : Prop := Forall (fun kv => kv.1 = c.1) c.2.

Lemma filter_other_key key (c : chunk) : chunk_ok c -> c.1 <> key -> List.filter (fun kv => String.eqb kv.1 key) c.2 = [].
Proof.
  intros H Hk. unfold chunk_ok in H. induction H as [|kv l Hkv _ IH]; [done|]. cbn. rewrite Hkv.
  apply String.eqb_neq in Hk as ->. done.
Qed.

(** Among written fields with distinct keys a key is found in its own. *)
Lemma field_chunk chunks key pairs :
  NoDup (map fst chunks) -> Forall chunk_ok chunks -> (key, pairs) ∈ chunks ->
  field key (List.concat (map snd chunks)) = field key pairs.
Proof.
  intros Hn Hok Hin. unfold field.
  assert (List.filter (fun kv => String.eqb kv.1 key) (List.concat (map snd chunks)) = List.filter (fun kv => String.eqb kv.1 key) pairs) as ->; [|done].
  induction chunks as [|c chunks IH]; [by apply elem_of_nil in Hin|]. cbn [map List.concat]. rewrite List.filter_app.
  inversion Hok as [|? ? Hc Hok']; subst. cbn [map] in Hn. apply NoDup_cons in Hn as [Hnot Hn].
  apply elem_of_cons in Hin as [<-|Hin].
  - cbn [fst snd] in *. enough (List.filter (fun kv => String.eqb kv.1 key) (List.concat (map snd chunks)) = []) as -> by apply app_nil_r.
    clear -Hnot Hok'. induction Hok' as [|c' chunks Hc' _ IH]; [done|]. cbn [map List.concat] in *. rewrite List.filter_app.
    rewrite (filter_other_key key c'); [|done|]. { apply IH. intros H. apply Hnot. by right. }
    intros E. apply Hnot. rewrite <- E. by left.
  - rewrite (filter_other_key key c); [by apply IH|done|]. intros E. apply Hnot. rewrite E.
    apply list_elem_of_fmap. exists (key, pairs). done.
Qed.

Lemma field_pairs key j : field key [(key, j)] = Some (Some j).
Proof. unfold field. cbn. by rewrite String.eqb_refl. Qed.

(** Each way a field is read depends on its own entry only. *)
Section Reading.
Context (chunks : list chunk).
Hypothesis distinct_keys : NoDup (map fst chunks).
Hypothesis own_keys : Forall chunk_ok chunks.
Notation fields := (List.concat (map snd chunks)).

Lemma read_required {A} key (from : Json -> option A) j :
  present key j ∈ chunks -> required key from fields = from j.
Proof. intros Hin. unfold required. rewrite (field_chunk _ _ _ distinct_keys own_keys Hin), field_pairs. done. Qed.

Lemma read_present {A} key absent (from : Json -> option A) j :
  present key j ∈ chunks -> defaulted key absent from fields = from j.
Proof. intros Hin. unfold defaulted. rewrite (field_chunk _ _ _ distinct_keys own_keys Hin), field_pairs. done. Qed.

Lemma read_optional {A} key (to : A -> Json) from o :
  unless_none key to o ∈ chunks -> reads_back to from o -> optional key from fields = Some o.
Proof.
  intros Hin Hb. unfold optional. rewrite (field_chunk _ _ _ distinct_keys own_keys Hin). destruct o as [a|]; [|done].
  cbn [skip_none]. rewrite field_pairs. destruct (Hb a eq_refl) as [H1 H2]. cbn [mbind option_bind].
  destruct (to a) eqn:E; [done|..]; by rewrite H1.
Qed.

Lemma read_list {A} key (to : A -> Json) from l :
  unless_empty key to l ∈ chunks -> Forall (fun a => from (to a) = Some a) l -> defaulted key [] (from_list from) fields = Some l.
Proof.
  intros Hin Hl. unfold defaulted. rewrite (field_chunk _ _ _ distinct_keys own_keys Hin). destruct l as [|a l]; [done|].
  cbn [skip_empty]. rewrite field_pairs. cbn [mbind option_bind]. by apply from_list_roundtrip.
Qed.

Lemma read_blank key s : unless_blank key s ∈ chunks -> defaulted key "" as_str fields = Some s.
Proof.
  intros Hin. unfold defaulted. rewrite (field_chunk _ _ _ distinct_keys own_keys Hin).
  destruct (String.eqb_spec s "") as [->|]; [done|]. by rewrite field_pairs.
Qed.

Lemma read_flag key b : if_set key b ∈ chunks -> defaulted key false as_bool fields = Some b.
Proof.
  intros Hin. unfold defaulted. rewrite (field_chunk _ _ _ distinct_keys own_keys Hin). destruct b; [by rewrite field_pairs|done].
Qed.
End Reading.

Ltac own_keys :=
  repeat (apply Forall_cons_2; [unfold chunk_ok, present, unless_none, unless_empty, unless_blank, if_set, skip_none, skip_empty;
    cbn [fst snd]; repeat case_match; repeat constructor|]); apply Forall_nil_2.
Ltac distinct_keys := cbn [map fst present unless_none unless_empty unless_blank if_set]; apply (bool_decide_unpack _); vm_compute; exact I.
Ltac member := unfold present, unless_none, unless_empty, unless_blank, if_set; repeat (first [by left | right]).

Lemma plan_roundtrip p : plan_from_json (plan_to_json p) = Some p.
Proof.
  assert (Hd : NoDup (map fst (plan_chunks p))) by distinct_keys. assert (Ho : Forall chunk_ok (plan_chunks p)) by own_keys.
  unfold plan_from_json, plan_to_json, object_of. cbn [struct_fields mbind option_bind].
  rewrite (read_required _ Hd Ho "kind" _ (JString (agg_kind_name (kind p)))) by member.
  assert (from_unit_variant AGG_KINDS (JString (agg_kind_name (kind p))) = Some (kind p)) as -> by (by destruct p as [[] ? ?]).
  cbn [mbind option_bind]. rewrite (read_optional _ Hd Ho "column" JString as_str (column p)); [|member|apply string_reads_back].
  cbn [mbind option_bind]. rewrite (read_optional _ Hd Ho "arg_expr" JString as_str (arg_expr p)); [|member|apply string_reads_back].
  by destruct p.
Qed.

Lemma sort_key_roundtrip k : sort_key_from_json (sort_key_to_json k) = Some k.
Proof.
  assert (Hd : NoDup (map fst (sort_key_chunks k))) by distinct_keys. assert (Ho : Forall chunk_ok (sort_key_chunks k)) by own_keys.
  unfold sort_key_from_json, sort_key_to_json, object_of. cbn [struct_fields mbind option_bind].
  rewrite (read_required _ Hd Ho "column" _ (column_ref_to_json (sort_column k))), column_ref_roundtrip by member. cbn [mbind option_bind].
  rewrite (read_required _ Hd Ho "ascending" _ (JBool (ascending k))) by member. cbn [mbind option_bind as_bool].
  rewrite (read_required _ Hd Ho "nulls_last" _ (JBool (nulls_last k))) by member. by destruct k.
Qed.

(** *** Name mappings *)

Section MappingInduction.
Variable P : NameMappingEntry -> Prop.
Hypothesis Hentry : forall names field_id fields, Forall P fields -> P (MkNameMapping names field_id fields).

Fixpoint mapping_entry_ind (e : NameMappingEntry) : P e :=
  match e with
  | MkNameMapping names field_id fields =>
      Hentry names field_id fields
        ((fix go (l : list NameMappingEntry) : Forall P l :=
            match l with [] => Forall_nil_2 P | e' :: l' => Forall_cons_2 P e' l' (mapping_entry_ind e') (go l') end) fields)
  end.
End MappingInduction.

(** Field ids are 32-bit numbers. *)
Fixpoint mapping_fits (e : NameMappingEntry) : Prop :=
  let '(MkNameMapping _ field_id fields) := e in
  signed_ok 32 field_id
  /\ (fix go (l : list NameMappingEntry) : Prop := match l with [] => True | e' :: l' => mapping_fits e' /\ go l' end) fields.

Definition mapping_chunks (names : list string) (field_id : Z) (fields : list NameMappingEntry) : list chunk :=
  [present "names" (JArray (map JString names)); present "field_id" (to_signed field_id); unless_empty "fields" mapping_to_json fields].

Lemma mapping_to_json_chunks names field_id fields :
  mapping_to_json (MkNameMapping names field_id fields) = object_of (mapping_chunks names field_id fields).
Proof. by destruct fields. Qed.

Lemma names_read names : from_list as_str (JArray (map JString names)) = Some names.
Proof. apply from_list_roundtrip. by apply Forall_true. Qed.

Lemma mapping_roundtrip_fuel e fuel :
  mapping_fits e -> json_depth (mapping_to_json e) <= fuel -> mapping_from_json_fuel fuel (mapping_to_json e) = Some e.
Proof.
  revert fuel. induction e as [names field_id fields IH] using mapping_entry_ind. intros fuel [Hid Hfit] Hfuel.
  rewrite mapping_to_json_chunks in *. set (chunks := mapping_chunks names field_id fields) in *.
  assert (Hd : NoDup (map fst chunks)) by distinct_keys. assert (Ho : Forall chunk_ok chunks) by (unfold chunks, mapping_chunks; own_keys).
  destruct fuel as [|fuel]; [cbn in Hfuel; lia|]. cbn [mapping_from_json_fuel]. unfold object_of. cbn [struct_fields mbind option_bind].
  rewrite (read_required _ Hd Ho "names" _ (JArray (map JString names))), names_read by member. cbn [mbind option_bind].
  rewrite (read_required _ Hd Ho "field_id" _ (to_signed field_id)), signed_roundtrip by (member || done). cbn [mbind option_bind].
  rewrite (read_list _ Hd Ho "fields" mapping_to_json _ fields); [done|member|].
  assert (Hdepth : forall e, e ∈ fields -> json_depth (mapping_to_json e) <= fuel).
  { intros e He. assert (Hs : shallower (JArray (map mapping_to_json fields)) (object_of chunks)).
    { apply (object_member_shallower _ "fields"). unfold chunks, mapping_chunks, unless_empty, skip_empty, present.
      destruct fields; [by apply elem_of_nil in He|]. cbn. do 2 right. by left. }
    assert (Hs2 : shallower (mapping_to_json e) (JArray (map mapping_to_json fields))).
    { apply array_item_shallower, list_elem_of_fmap. by exists e. }
    unfold shallower in *. lia. }
  clear -IH Hfit Hdepth. induction IH as [|e fields He _ IHf]; constructor.
  - apply He; [apply Hfit|]. apply Hdepth. by left.
  - apply IHf; [apply Hfit|]. intros x Hx. apply Hdepth. by right.
Qed.

Lemma mapping_roundtrip e : mapping_fits e -> mapping_from_json (mapping_to_json e) = Some e.
Proof. intros H. by apply mapping_roundtrip_fuel. Qed.

(** *** Storage *)

Lemma props_roundtrip p : props_from_json (props_to_json p) = Some p.
Proof.
  assert (Hd : NoDup (map fst (props_chunks p))) by distinct_keys. assert (Ho : Forall chunk_ok (props_chunks p)) by own_keys.
  unfold props_from_json, props_to_json, object_of. cbn [struct_fields mbind option_bind].
  rewrite (read_required _ Hd Ho "endpoint" _ (JString (endpoint p))) by member. cbn [mbind option_bind as_str].
  rewrite (read_required _ Hd Ho "region" _ (JString (region p))) by member. cbn [mbind option_bind as_str].
  rewrite (read_required _ Hd Ho "access_key" _ (JString (access_key p))) by member. cbn [mbind option_bind as_str].
  rewrite (read_required _ Hd Ho "secret_key" _ (JString (secret_key p))) by member. cbn [mbind option_bind as_str].
  rewrite (read_optional _ Hd Ho "session_token" JString as_str (session_token p)); [|member|apply string_reads_back]. cbn [mbind option_bind].
  rewrite (read_present _ Hd Ho "allow_http" _ _ (JBool (allow_http p))) by member. cbn [mbind option_bind as_bool].
  rewrite (read_present _ Hd Ho "path_style" _ _ (JBool (path_style p))) by member. by destruct p.
Qed.

Lemma backend_roundtrip b : backend_from_json (backend_to_json b) = Some b.
Proof.
  destruct b as [p|account [key|sas]]; [|reflexivity|reflexivity].
  unfold backend_from_json, backend_to_json. cbn [tagged_value mbind option_bind]. by rewrite props_roundtrip.
Qed.

Lemma scan_storage_roundtrip s : scan_storage_from_json (scan_storage_to_json s) = Some s.
Proof.
  destruct s as [n a|n p|b]; [reflexivity|reflexivity|].
  unfold scan_storage_from_json, scan_storage_to_json. cbn [tagged_value mbind option_bind]. by rewrite backend_roundtrip.
Qed.

Lemma object_reads_back {A} (to : A -> list chunk) from o :
  (forall a, o = Some a -> from (object_of (to a)) = Some a) -> reads_back (fun a => object_of (to a)) from o.
Proof. intros H a Ha. by split; [apply H|]. Qed.

Lemma list_reads_back {A} (to : A -> Json) from o :
  (forall l, o = Some l -> Forall (fun a => from (to a) = Some a) l) -> reads_back (fun l => JArray (map to l)) (from_list from) o.
Proof. intros H l Hl. split; [|done]. apply from_list_roundtrip. by apply H. Qed.

Lemma u64_reads_back o : (forall n, o = Some n -> u64_ok n) -> reads_back to_u64 from_u64 o.
Proof. intros H n Hn. split; [|done]. by apply u64_roundtrip, H. Qed.

(** *** The join block and the common spec *)

(** Numbers fit their widths. *)
Definition join_fits (s : JoinSpec) : Prop :=
  Forall entry_ok (j_files s) /\ Forall logical_field_fits (j_logical_schema s) /\ Forall mapping_fits (j_name_mapping s)
  /\ (forall n, post_join_limit s = Some n -> u64_ok n).

Lemma join_roundtrip s : join_fits s -> join_from_json (join_to_json s) = Some s.
Proof.
  intros (Hf & Hs & Hm & Hl).
  assert (Hd : NoDup (map fst (join_chunks s))) by distinct_keys. assert (Ho : Forall chunk_ok (join_chunks s)) by (unfold join_chunks; own_keys).
  unfold join_from_json, join_to_json, object_of. cbn [struct_fields mbind option_bind].
  rewrite (read_blank _ Hd Ho "table_root" (j_table_root s)) by member. cbn [mbind option_bind].
  rewrite (read_required _ Hd Ho "files" _ (JArray (map entry_to_json (j_files s)))) by member.
  rewrite from_list_roundtrip by (eapply Forall_impl; [exact Hf|apply entry_json_roundtrip]). cbn [mbind option_bind].
  rewrite (read_list _ Hd Ho "logical_schema" logical_field_to_json _ (j_logical_schema s));
    [|member|eapply Forall_impl; [exact Hs|apply logical_field_roundtrip]]. cbn [mbind option_bind].
  rewrite (read_list _ Hd Ho "name_mapping" mapping_to_json _ (j_name_mapping s));
    [|member|eapply Forall_impl; [exact Hm|apply mapping_roundtrip]]. cbn [mbind option_bind].
  rewrite (read_required _ Hd Ho "join_type" _ (JString "inner")) by member.
  change (from_unit_variant JOIN_TYPES (JString "inner")) with (Some Inner). cbn [mbind option_bind].
  rewrite (read_required _ Hd Ho "fact_alias" _ (JString (fact_alias s))) by member. cbn [mbind option_bind as_str].
  rewrite (read_required _ Hd Ho "dimension_alias" _ (JString (dimension_alias s))) by member. cbn [mbind option_bind as_str].
  rewrite (read_required _ Hd Ho "condition" _ (JString (condition s))) by member. cbn [mbind option_bind as_str].
  rewrite (read_optional _ Hd Ho "post_join_limit" to_u64 from_u64 (post_join_limit s)); [|member|by apply u64_reads_back]. cbn [mbind option_bind].
  rewrite (read_list _ Hd Ho "post_join_order_by" sort_key_to_json _ (post_join_order_by s));
    [|member|apply Forall_true, sort_key_roundtrip]. cbn [mbind option_bind].
  rewrite (read_list _ Hd Ho "partition_columns" JString _ (j_partition_columns s)); [|member|by apply Forall_true]. cbn [mbind option_bind].
  rewrite (read_required _ Hd Ho "storage" _ (scan_storage_to_json (j_storage s))), scan_storage_roundtrip by member.
  destruct s as [r f ls nm [] fa da c pl po pc st]. done.
Qed.

Definition common_fits {F} {DJ : DoubleJson F} (s : CommonScanSpec F) : Prop :=
  (forall n, limit s = Some n -> u64_ok n) /\ Forall logical_field_fits (logical_schema s) /\ Forall mapping_fits (name_mapping s)
  /\ (forall j, join_spec s = Some j -> join_fits j)
  /\ Forall u64_ok [df_target_partitions s; df_batch_size s; df_threads_per_udf s; instance_overhead_mb s; s3_max_connections s]
  /\ f64_from_json (f64_to_json (memory_pool_fraction s)) = Some (memory_pool_fraction s).

Lemma common_roundtrip {F} {DJ : DoubleJson F} (s : CommonScanSpec F) :
  common_fits s -> common_from_json (common_to_json s) = Some s.
Proof.
  intros (Hl & Hs & Hm & Hj & Hn & Hf).
  assert (Hd : NoDup (map fst (common_chunks s))) by distinct_keys.
  assert (Ho : Forall chunk_ok (common_chunks s)) by (unfold common_chunks; own_keys).
  rewrite !Forall_cons_iff in Hn. destruct Hn as (Hn1 & Hn2 & Hn3 & Hn4 & Hn5 & _).
  unfold common_from_json, common_to_json, object_of. cbn [struct_fields mbind option_bind].
  rewrite (read_blank _ Hd Ho "table_root" (table_root s)) by member. cbn [mbind option_bind].
  rewrite (read_required _ Hd Ho "projection" _ (JArray (map projection_item_to_json (projection s)))) by member.
  rewrite from_list_roundtrip by (apply Forall_true, projection_item_roundtrip). cbn [mbind option_bind].
  rewrite (read_optional _ Hd Ho "filter" JString as_str (filter_sql s)); [|member|apply string_reads_back]. cbn [mbind option_bind].
  rewrite (read_optional _ Hd Ho "limit" to_u64 from_u64 (limit s)); [|member|by apply u64_reads_back]. cbn [mbind option_bind].
  rewrite (read_list _ Hd Ho "order_by" sort_key_to_json _ (order_by s)); [|member|apply Forall_true, sort_key_roundtrip]. cbn [mbind option_bind].
  rewrite (read_optional _ Hd Ho "aggregates" (fun l => JArray (map plan_to_json l)) (from_list plan_from_json) (aggregates s));
    [|member|apply list_reads_back; intros; apply Forall_true, plan_roundtrip]. cbn [mbind option_bind].
  rewrite (read_optional _ Hd Ho "group_keys" (fun l => JArray (map JString l)) (from_list as_str) (spec_group_keys s));
    [|member|apply list_reads_back; intros; by apply Forall_true]. cbn [mbind option_bind].
  rewrite (read_flag _ Hd Ho "distinct" (distinct s)) by member. cbn [mbind option_bind].
  rewrite (read_list _ Hd Ho "logical_schema" logical_field_to_json _ (logical_schema s));
    [|member|eapply Forall_impl; [exact Hs|apply logical_field_roundtrip]]. cbn [mbind option_bind].
  rewrite (read_list _ Hd Ho "name_mapping" mapping_to_json _ (name_mapping s));
    [|member|eapply Forall_impl; [exact Hm|apply mapping_roundtrip]]. cbn [mbind option_bind].
  rewrite (read_optional _ Hd Ho "join" join_to_json join_from_json (join_spec s));
    [|member|apply object_reads_back; intros j Hjs; by apply join_roundtrip, Hj]. cbn [mbind option_bind].
  rewrite (read_list _ Hd Ho "partition_columns" JString _ (partition_columns s)); [|member|by apply Forall_true]. cbn [mbind option_bind].
  rewrite (read_required _ Hd Ho "storage" _ (scan_storage_to_json (storage s))), scan_storage_roundtrip by member. cbn [mbind option_bind].
  rewrite (read_present _ Hd Ho "df_target_partitions" _ _ (to_u64 (df_target_partitions s))), u64_roundtrip by (member || done). cbn [mbind option_bind].
  rewrite (read_present _ Hd Ho "df_batch_size" _ _ (to_u64 (df_batch_size s))), u64_roundtrip by (member || done). cbn [mbind option_bind].
  rewrite (read_present _ Hd Ho "df_threads_per_udf" _ _ (to_u64 (df_threads_per_udf s))), u64_roundtrip by (member || done). cbn [mbind option_bind].
  rewrite (read_present _ Hd Ho "memory_pool_fraction" _ _ (f64_to_json (memory_pool_fraction s))), Hf by member. cbn [mbind option_bind].
  rewrite (read_present _ Hd Ho "instance_overhead_mb" _ _ (to_u64 (instance_overhead_mb s))), u64_roundtrip by (member || done). cbn [mbind option_bind].
  rewrite (read_present _ Hd Ho "s3_max_connections" _ _ (to_u64 (s3_max_connections s))), u64_roundtrip by (member || done). cbn [mbind option_bind].
  rewrite (read_flag _ Hd Ho "binary_as_string" (binary_as_string s)) by member. by destruct s.
Qed.

Lemma spec_wire_roundtrip {F} {DJ : DoubleJson F} print parse describe (spec : ScanSpec F) (files : list FileEntry) :
  parse (print (common_to_json (common spec))) = Some (common_to_json (common spec)) ->
  parse (print (JArray (map entry_to_json files))) = Some (JArray (map entry_to_json files)) ->
  common_fits (common spec) -> Forall entry_ok files ->
  from_parts_json parse describe (to_common_json print spec) (files_json print files)
    = let? _ := check_entries 0 files in Ok (from_parts (common spec) files).
Proof.
  intros Hc Hf Hfit Hok. unfold from_parts_json, common_from_text, to_common_json. rewrite Hc. cbn [mbind option_bind].
  rewrite common_roundtrip by done. cbn -[files_from_json files_json]. rewrite files_wire_roundtrip by done.
  by destruct (check_entries 0 files).
Qed.

(** The adapter and the scan agree on the whole plan: a spec written as the common
    blob and a shard's file list is read back field for field - projection, filter,
    limit, sort keys, aggregates, group keys, schema, name mapping, join block,
    storage, tuning - and is refused only when an entry of that file list mixes a
    Delta deletion vector with an Iceberg delete file. *)
Theorem scan_spec_wire_roundtrip {F} {DJ : DoubleJson F} print parse describe (spec : ScanSpec F) (files : list FileEntry) :
  parse (print (common_to_json (common spec))) = Some (common_to_json (common spec)) ->
  parse (print (JArray (map entry_to_json files))) = Some (JArray (map entry_to_json files)) ->
  common_fits (common spec) -> Forall entry_ok files ->
  from_parts_json parse describe (to_common_json print spec) (files_json print files)
    = let? _ := check_entries 0 files in Ok (from_parts (common spec) files).
Proof. exact (spec_wire_roundtrip print parse describe spec files). Qed.

(** Doubles as the digits that stand for them. *)
#[export] Instance digits : DoubleJson string := {|
  f64_to_json := JString; f64_from_json := as_str; default_memory_pool_fraction := "0.8" |}.

Definition sample_common : CommonScanSpec string :=
  MkCommon "s3://lake/sales" [PColumn (MkColumnRef None "ID"); PExpr "a + b"] (Some "a > 1") (Some 10%N)
    [MkSortKey (MkColumnRef (Some "t1") "ID") false true] (Some [{| kind := Avg; column := Some "ID"; arg_expr := None |}]) None true
    [] [MkNameMapping ["id"] 1 [MkNameMapping ["member"; "alias"] 2 []]]
    (Some (MkJoinSpec "s3://lake/dim" sample_files [] [] Inner "F" "D" "F.K = D.K" (Some 5%N) [] ["day"] (SSealed "C" "payload")))
    ["day"] (SInline (Adls "acct" (Sas "token"))) 4 8192 2 "0.8" 200 16 true.

Lemma sample_common_fits : common_fits sample_common.
Proof.
  split_and!; cbn.
  - intros n [= <-]. unfold u64_ok, u64_max. lia.
  - by constructor.
  - repeat constructor; cbn; unfold signed_ok, u64_ok; lia.
  - intros j [= <-]. split_and!; cbn; [exact sample_files_ok|constructor|constructor|]. intros n [= <-]. unfold u64_ok, u64_max. lia.
  - repeat constructor; unfold u64_ok, u64_max; lia.
  - done.
Qed.

Lemma scan_spec_wire_roundtrip_witness :
  let print j := match j with JArray _ => "files" | _ => "common" end in
  let parse s := if String.eqb s "files" then Some (JArray (map entry_to_json sample_files)) else Some (common_to_json sample_common) in
  from_parts_json parse id (to_common_json print (from_parts sample_common [])) (files_json print sample_files)
    = Ok (from_parts sample_common sample_files).
Proof.
  intros print parse. rewrite (scan_spec_wire_roundtrip print parse id (from_parts sample_common []) sample_files
    eq_refl eq_refl sample_common_fits sample_files_ok). reflexivity.
Defined.
