(* ===== verification/SealedStorage.v ===== *)
(** crates/lakehouse-engine/src/scan/sealed.rs and storage_ref.rs, with
    [scan_storage_for] of adapter/pushdown/support.rs: how a scan spec carries the
    storage of a table without its secrets, and how the scan gets it back. *)

From stdpp Require Import base list strings numbers.
From Stdlib Require Import Ascii String ZArith NArith Lia.
From S2P Require Import Prelude Text Serde Json Storage Connection ScanSpec ScanFiles CommonSpec.

Local Open Scope string_scope.

Definition NONCE_BYTES : nat := 12.

(** HKDF, AES-256-GCM and base64 are the hkdf, aes-gcm and base64 crates'; the nonce
    is the operating system's. *)
Class Sealing (K : Type) := {
  derive_sealed_storage_key : string -> K;
  encrypt : K -> string -> string -> option string;
  decrypt : K -> string -> string -> option string;
  base64_encode : string -> string;
  base64_decode : string -> option string;
}.

(** What the scan relies on: decryption undoes encryption under one key and nonce, a
    ciphertext is not empty (it holds the authentication tag), decoding undoes
    encoding. *)
Class SealingLaws (K : Type) {S : Sealing K} := {
  decrypt_encrypt k nonce text sealed : encrypt k nonce text = Some sealed -> decrypt k nonce sealed = Some text;
  encrypt_tag k nonce text sealed : encrypt k nonce text = Some sealed -> sealed <> "";
  decode_encode text : base64_decode (base64_encode text) = Some text;
}.

(** [split_at(n)] of a text at least that long. *)
Fixpoint split_at (n : nat) (s : string) : string * string :=
  match n, s with
  | S n', String c s' => let '(a, b) := split_at n' s' in (String c a, b)
  | _, _ => ("", s)
  end.

Section Sealed.
Context {K : Type} {SE : Sealing K} (print : Json -> string) (parse : string -> option Json).

Definition seal_storage (nonce : string) (b : StorageBackend) (key : K) : result UdfError string :=
  match encrypt key nonce (print (backend_to_json b)) with
  | None => Err (User "sealing the scan storage failed: AES-256-GCM encryption")
  | Some ciphertext => Ok (base64_encode (nonce ++ ciphertext))
  end.

Definition unseal_storage (payload : string) (key : K) : result UdfError StorageBackend :=
  let? envelope := ok_or (base64_decode payload) (User "unsealing the scan storage failed: base64-decoding the envelope") in
  if (String.length envelope <=? NONCE_BYTES)%nat then
    Err (User "unsealing the scan storage failed: the envelope is not longer than its nonce")
  else
    let '(nonce, ciphertext) := split_at NONCE_BYTES envelope in
    let? plaintext := ok_or (decrypt key nonce ciphertext) (User "unsealing the scan storage failed: AES-256-GCM authentication") in
    ok_or (parse plaintext ≫= backend_from_json) (User "unsealing the scan storage failed: deserializing the storage backend").

(** ** The adapter's side *)

Definition no_sealing_key (connection_name : string) : UdfError :=
  User ("CONNECTION '" ++ connection_name ++ "' enables use_vended_credentials, but its password carries no secret material to derive a sealing key from, so the vended storage credential can be neither referenced by name nor sealed, and this engine will not place it in the generated SQL in plaintext. The criterion is connection_password_carries_key_material: at least one of token, client_secret, secret_key, session_token, account_key, or sas_token must be non-empty (an access_key id alone is an identifier, not a secret). Remedy either by configuring catalog authentication or supplying that CONNECTION's own storage secret, or by setting use_vended_credentials to false so the credential travels as a CONNECTION reference instead; to disable it, edit the CONNECTION's password").

Definition scan_storage_for (nonce : string) (creds : ConnectionCreds) (connection_name : string) (allow_http : bool) (effective : StorageBackend)
    (sealing_key : option K) : result UdfError ScanStorage :=
  if negb (c_use_vended_credentials creds) && negb (bool_decide (is_Some (assume_role_arn creds))) then
    Ok (SConnection connection_name allow_http)
  else
    match sealing_key with
    | None => Err (no_sealing_key connection_name)
    | Some key => let? payload := seal_storage nonce effective key in Ok (SSealed connection_name payload)
    end.

(** ** The scan's side *)

Record ResolvedScanStorage := MkResolvedStorage { rs_primary : StorageBackend; rs_join : option StorageBackend }.

Definition all_secret_values (r : ResolvedScanStorage) : list string :=
  (secret_values (rs_primary r) ++ match rs_join r with Some b => secret_values b | None => [] end)%list.

Context (connection : string -> result string (string * string)).

Definition connection_password (name : string) : result UdfError string :=
  match connection name with
  | Ok (_, password) => Ok password
  | Err cause => Err (User ("the scan cannot access CONNECTION '" ++ name ++ "': " ++ cause))
  end.

Definition password_object (name password : string) : result UdfError Json :=
  let refusal := User ("CONNECTION '" ++ name ++ "' password is not a JSON object, so the scan cannot derive its storage credentials") in
  let? json := ok_or (parse password) refusal in
  if is_object json then Ok json else Err refusal.

Definition resolve_side (storage : ScanStorage) : result UdfError StorageBackend :=
  match storage with
  | SInline b => Ok b
  | SConnection name allow_http =>
      let? password := connection_password name in
      let? json := password_object name password in
      Ok (backend (StorageCreds_from_json json) allow_http)
  | SSealed name payload =>
      let? password := connection_password name in
      match unseal_storage payload (derive_sealed_storage_key password) with
      | Ok b => Ok b
      | Err (User failure) =>
          Err (User ("the scan cannot open the storage envelope sealed under CONNECTION '" ++ name ++ "' (" ++ failure
            ++ "); the expected cause is the CONNECTION's password having been rotated after this query was planned"))
      end
  end.

Definition resolve_scan_storage {F} (common : CommonScanSpec F) : result UdfError ResolvedScanStorage :=
  let? primary := resolve_side (storage common) in
  match join_spec common with
  | None => Ok (MkResolvedStorage primary None)
  | Some j => let? join := resolve_side (j_storage j) in Ok (MkResolvedStorage primary (Some join))
  end.
End Sealed.

(** ** The scan reads through the storage that was planned *)

Lemma split_at_app n a b : String.length a = n -> split_at n (a ++ b) = (a, b).
Proof. intros <-. induction a as [|c a IH]; [by destruct b|].
  change (String c a ++ b) with (String c (a ++ b)). cbn [split_at String.length]. by rewrite IH.
Qed.

Lemma append_length a b : String.length (a ++ b) = (String.length a + String.length b)%nat.
Proof. induction a as [|c a IH]; [done|]. change (String c a ++ b) with (String c (a ++ b)). cbn. by rewrite IH. Qed.

Lemma unseal_seal {K} {SE : Sealing K} {SL : SealingLaws K} print parse nonce b key payload :
  parse (print (backend_to_json b)) = Some (backend_to_json b) -> String.length nonce = NONCE_BYTES ->
  seal_storage print nonce b key = Ok payload -> unseal_storage parse payload key = Ok b.
Proof.
  intros Hp Hn. unfold seal_storage, unseal_storage. destruct (encrypt key nonce _) as [text|] eqn:Ee; [|done]. intros [= <-].
  rewrite decode_encode. cbn [ok_or]. assert (Hlt : (String.length (nonce ++ text) <=? NONCE_BYTES)%nat = false).
  { apply Nat.leb_gt. rewrite append_length, Hn. apply encrypt_tag in Ee. destruct text; [done|cbn [String.length]; lia]. }
  rewrite Hlt, split_at_app by done. apply decrypt_encrypt in Ee. rewrite Ee. cbn [ok_or]. rewrite Hp. cbn [mbind option_bind].
  by rewrite backend_roundtrip.
Qed.

Lemma storage_creds_parsed json : storage_creds_of (parse_creds json) = StorageCreds_from_json json.
Proof. done. Qed.

Lemma kind_creds_storage n json kind c :
  parse_kind_creds n json kind = Ok c -> storage_creds_of c = StorageCreds_from_json json.
Proof. intros [->|[_ ->]]%parse_kind_creds_fields; apply storage_creds_parsed. Qed.

(** The session credentials an assumed role answers keep the rest of the CONNECTION. *)
Lemma resolved_identity {UR : Urls} assume_role redact invalid c uri allow c' :
  resolve_aws_identity assume_role redact invalid c uri allow = Ok c' ->
  c_use_vended_credentials c' = c_use_vended_credentials c /\ assume_role_arn c' = assume_role_arn c /\ (assume_role_arn c = None -> c' = c).
Proof.
  unfold resolve_aws_identity. destruct (assume_role_arn c) as [role|] eqn:Er; [|intros [= <-]; split_and!; done].
  destruct (match non_empty _ with Some _ => _ | None => _ end) as [endpoint|]; [|done].
  destruct (assume_role c role endpoint _) as [session|]; [|done]. intros [= <-]. split_and!; done.
Qed.

(** C11. No generated statement carries a storage credential in plain text, and the scan
    reads through exactly the storage the adapter planned: what [scan_storage_for] puts
    in a spec is a CONNECTION reference or a sealed payload, never the storage itself,
    and [resolve_side], opening the same CONNECTION, answers the storage the adapter
    resolved - vended, of an assumed role, or the CONNECTION's own. *)
Theorem scan_reads_planned_storage {UR : Urls} {K} {SE : Sealing K} {SL : SealingLaws K} print parse connection n kind r
    assume_role redact invalid creds allow effective nonce st :
  read_connection derive_sealed_storage_key connection parse (Some n) kind = Ok r ->
  resolve_aws_identity assume_role redact invalid (r_creds r) (r_uri r) allow = Ok creds ->
  (c_use_vended_credentials creds = false -> assume_role_arn creds = None -> effective = storage_block creds allow) ->
  parse (print (backend_to_json effective)) = Some (backend_to_json effective) -> String.length nonce = NONCE_BYTES ->
  scan_storage_for print nonce creds n allow effective (r_sealed_storage_key r) = Ok st ->
  (forall b, st <> SInline b) /\ resolve_side parse connection st = Ok effective.
Proof.
  intros (n' & uri & password & json & c & [= <-] & Hc & Hp & Ho & Hk & _ & ->)%read_connection_ok.
  cbn [r_creds r_uri r_sealed_storage_key]. intros (Hv & Hr & Hsame)%resolved_identity Heff Hprint Hnonce.
  unfold scan_storage_for. destruct (negb _ && negb _) eqn:Eb.
  - intros [= <-]. split; [done|]. apply andb_true_iff in Eb as [E1 E2]. apply negb_true_iff in E1, E2.
    apply bool_decide_eq_false, eq_None_not_Some in E2. rewrite Heff by done. rewrite Hsame in * by congruence.
    unfold resolve_side, connection_password. rewrite Hc. unfold password_object. rewrite Hp. cbn [ok_or]. rewrite Ho.
    unfold storage_block. by rewrite (kind_creds_storage _ _ _ _ Hk).
  - destruct (connection_password_carries_key_material c); [|done].
    destruct (seal_storage print nonce effective _) as [payload|] eqn:Es; [|done]. intros [= <-]. split; [done|].
    unfold resolve_side, connection_password. rewrite Hc. by rewrite (unseal_seal _ _ _ _ _ _ Hprint Hnonce Es).
Qed.

(** A sealing that marks the text, and a printer of the one document sealed. *)
Definition marked_sealing : Sealing string :=
  {| derive_sealed_storage_key p := p; encrypt _ _ text := Some (String "!" text);
     decrypt _ _ sealed := match sealed with String _ text => Some text | _ => None end;
     base64_encode s := s; base64_decode := Some |}.

#[local] Instance marked_laws : SealingLaws string (S := marked_sealing).
Proof. split; [by intros ? ? ? ? [= <-]|by intros ? ? ? ? [= <-]|done]. Qed.

Definition vending_password : Json :=
  json_object [("warehouse", JString "wh"); ("token", JString "t0k"); ("use_vended_credentials", JBool true)].
Definition vended_backend : StorageBackend := Adls "acct" (Sas "vended").
Definition sample_parse (text : string) : option Json :=
  Some (if String.eqb text "storage" then backend_to_json vended_backend else vending_password).
Definition sample_connection (_ : string) : result string (string * string) := Ok ("https://catalog", "pw").

Lemma scan_reads_planned_storage_witness :
  exists r st,
    read_connection (UR := no_urls) (derive_sealed_storage_key (Sealing := marked_sealing)) sample_connection sample_parse (Some "C") IcebergRest = Ok r
    /\ scan_storage_for (SE := marked_sealing) (fun _ => "storage") "twelve bytes" (r_creds r) "C" false vended_backend (r_sealed_storage_key r) = Ok st
    /\ resolve_side (SE := marked_sealing) sample_parse sample_connection st = Ok vended_backend.
Proof.
  eexists _, _. split; [reflexivity|]. split; [reflexivity|].
  refine (proj2 (scan_reads_planned_storage (UR := no_urls) (SE := marked_sealing) (SL := marked_laws) (fun _ => "storage") sample_parse sample_connection "C" IcebergRest _
    (fun _ _ _ _ => Err "") (fun m _ => m) "" _ false vended_backend "twelve bytes" _ eq_refl eq_refl _ eq_refl eq_refl eq_refl)).
  intros [=].
Defined.
