(* ===== verification/DrivingSql.v ===== *)
(** crates/lakehouse-engine/src/adapter/pushdown/support.rs and grouped_agg.rs, the
    SQL a pushdown returns: the fan-out that hands each shard its file list, and the
    row-scan, aggregate, COUNT DISTINCT and grouped statements around it. *)

From stdpp Require Import base list strings numbers sorting.
From Stdlib Require Import Ascii String ZArith NArith Lia.
From S2P Require Import Prelude Text Hex Json ExasolType Render ScanSpec ColumnTypes ExasolRules Projection AggPlans GroupedAgg SingleGroupAgg ScanFiles CommonSpec.

Local Open Scope string_scope.

Definition SCAN_UDF_NAME : string := "LAKEHOUSE_SCAN".
Definition DISTRIBUTE_FILES_UDF_NAME : string := "LAKEHOUSE_DISTRIBUTE_FILES".

(** What the outer merge of an aggregate needs beside its plans. *)
Record AggregateMergeInputs := MkMergeInputs {
  mi_plan_types : list ExasolType;
  mi_merge_select : list string;
  mi_having : option string;
  mi_request_limit : option N;
}.

Definition AggregateMergeInputs_new (plan_types : list ExasolType) (merge_select : list string) (request_limit : option N)
  : option AggregateMergeInputs :=
  match merge_select with [] => None | _ => Some (MkMergeInputs plan_types merge_select None request_limit) end.

Definition with_having (inputs : AggregateMergeInputs) (having : option string) : AggregateMergeInputs :=
  MkMergeInputs (mi_plan_types inputs) (mi_merge_select inputs) having (mi_request_limit inputs).

Definition limit_clause (limit : option N) : string := match limit with Some n => " LIMIT " ++ show_N n | None => "" end.

(** [CommonScanSpec { projection, filter, limit, order_by, aggregates, group_keys, distinct, ..base }]. *)
Definition common_with {F} (base : CommonScanSpec F) (projection : list ProjectionItem) (filter : option string) (limit : option N)
    (order_by : list SortKey) (aggregates : option (list AggregatePlan)) (group_keys : option (list string)) (distinct : bool)
  : CommonScanSpec F :=
  MkCommon (table_root base) projection filter limit order_by aggregates group_keys distinct (logical_schema base) (name_mapping base)
    (join_spec base) (partition_columns base) (storage base) (df_target_partitions base) (df_batch_size base) (df_threads_per_udf base)
    (memory_pool_fraction base) (instance_overhead_mb base) (s3_max_connections base) (binary_as_string base).

Definition without_limit {F} (base : CommonScanSpec F) : CommonScanSpec F :=
  common_with base (projection base) (filter_sql base) None (order_by base) (aggregates base) (spec_group_keys base) (distinct base).

Section Sql.
Context {UC : UnicodeCase} {JD : JsonDisplay} {HX : Hex} {F : Type} {DJ : DoubleJson F}.
Context (print : Json -> string).

Definition shard_files_json (files : list FileEntry) : string := files_json print files.

Definition shard_row (i : nat) (files : list FileEntry) : string :=
  "(" ++ show_nat i ++ "," ++ sql_string_literal (shard_files_json files) ++ ")".

Definition build_fan_out_inner (spec_template : ScanSpec F) (shards : list (list FileEntry)) (emits udf_name distribute_udf_name : string)
  : string :=
  let common_literal := sql_string_literal (to_common_json print spec_template) in
  match shards with
  | [files] =>
      "SELECT " ++ udf_name ++ "(" ++ common_literal ++ ", " ++ sql_string_literal (shard_files_json files) ++ ") EMITS (" ++ emits ++ ")"
  | _ =>
      "SELECT " ++ udf_name ++ "(" ++ common_literal ++ ", files) EMITS (" ++ emits ++ ") FROM (SELECT " ++ distribute_udf_name
      ++ "(files) FROM (VALUES " ++ join "," (imap shard_row shards) ++ ") AS shards(shard_key, files) GROUP BY shard_key)"
  end.

Definition build_row_scan_sql (spec_template : ScanSpec F) (shards : list (list FileEntry)) (projection : list ProjectedColumn)
    (limit : option N) (udf_name distribute_udf_name : string) : string :=
  let emits := join ", " (imap (fun i column => emits_ident (item column) i ++ " " ++ display (projected_type column)) projection) in
  let order := match order_by (common spec_template) with [] => "" | keys => " ORDER BY " ++ render_order_by_clause keys end in
  build_fan_out_inner spec_template shards emits udf_name distribute_udf_name ++ order ++ limit_clause limit.

Definition build_aggregate_scan_sql (spec_template : ScanSpec F) (shards : list (list FileEntry)) (aggregates : list AggregatePlan)
    (col_types : ColumnTypes) (inputs : AggregateMergeInputs) (udf_name distribute_udf_name : string) : string :=
  let emits := join ", " (partial_emits_items aggregates col_types (mi_plan_types inputs)) in
  let fan_out := build_fan_out_inner spec_template shards emits udf_name distribute_udf_name in
  "SELECT " ++ join ", " (mi_merge_select inputs) ++ " FROM (" ++ with_stat_grand_means fan_out aggregates [] ++ ")"
  ++ match mi_having inputs with Some having => " HAVING " ++ having | None => "" end
  ++ limit_clause (mi_request_limit inputs).

Definition build_scan_driving_sql (spec_template : ScanSpec F) (shards : list (list FileEntry)) (projection : list ProjectedColumn)
    (limit : option N) (col_types : ColumnTypes) (merge_inputs : option AggregateMergeInputs) (udf_name distribute_udf_name : string)
  : string :=
  match aggregates (common spec_template), merge_inputs with
  | Some aggregates, Some inputs => build_aggregate_scan_sql spec_template shards aggregates col_types inputs udf_name distribute_udf_name
  | _, _ => build_row_scan_sql spec_template shards projection limit udf_name distribute_udf_name
  end.

(** [None] is the source's [unreachable!]. *)
Definition build_distinct_fan_out (base_spec : ScanSpec F) (shards : list (list FileEntry)) (dc : DistinctCount) (col_types : ColumnTypes)
    (udf_name distribute_udf_name : string) : option string :=
  col ← distinct_column dc;
  let value_type := col_type_for (Some col) None col_types None in
  let null_pred := "(" ++ exasol_quote_ident col ++ " IS NOT NULL)" in
  let filter := match filter_sql (common base_spec) with
                | Some f => if String.eqb f "" then null_pred else "(" ++ f ++ ") AND " ++ null_pred
                | None => null_pred
                end in
  let spec := MkScanSpec (common_with (common base_spec) [PColumn (bare col)] (Some filter) None [] None None true) (spec_files base_spec) in
  Some (build_fan_out_inner spec shards (quoted "V" ++ " " ++ display value_type) udf_name distribute_udf_name).

Definition build_count_distinct_scan_sql (base_spec : ScanSpec F) (shards : list (list FileEntry)) (items : list SingleGroupItem)
    (col_types : ColumnTypes) (limit : option N) (udf_name distribute_udf_name : string) : option string :=
  match items with
  | [SDistinct dc] =>
      fan_out ← build_distinct_fan_out base_spec shards dc col_types udf_name distribute_udf_name;
      Some ("SELECT COUNT(DISTINCT " ++ quoted "V" ++ ") FROM (" ++ fan_out ++ ")" ++ limit_clause limit)
  | _ => None
  end.

(** ** Grouped *)

Definition group_key_name (i : nat) : string := quoted ("GK_" ++ show_nat i).

(** [sort_by_key]: stable, by the select-list position. *)
Definition index_le (a b : GroupedSelectItem) : Prop := select_item_index a <= select_item_index b.

#[export] Instance index_le_dec a b : Decision (index_le a b).
Proof. unfold index_le. apply _. Defined.

Definition group_key_select (group_key_types : list ExasolType) (i : nat) : string :=
  match group_key_types !! i with
  | Some declared => if bool_decide (declared = GROUP_KEY_EMIT_TYPE) then group_key_name i else cast_to_declared_type (group_key_name i) declared
  | None => group_key_name i
  end.

Definition outer_item (group_keys : list string) (group_key_types : list ExasolType) (aggregates : list AggregatePlan)
    (merge_items : list string) (item : GroupedSelectItem) : option string :=
  match item with
  | GroupKey slot _ => map (group_key_select group_key_types) (seq 0 (List.length group_keys)) !! slot
  | AggregateItem slot _ => merge_items !! slot
  | Constant _ projection => Some projection
  | ScalarOverAggregate _ node declared_type =>
      (fun expr => cast_to_declared_type expr declared_type) <$> render_scalar_over_merge node aggregates (merge_select_items aggregates)
  end.

Definition clause (keyword : string) (text : option string) : string :=
  match text with Some t => if String.eqb t "" then "" else keyword ++ t | None => "" end.

Definition build_grouped_aggregate_scan_sql (spec_template : ScanSpec F) (shards : list (list FileEntry)) (group_keys : list string)
    (group_key_types : list ExasolType) (aggregates : list AggregatePlan) (aggregate_types : list ExasolType)
    (select_items : list GroupedSelectItem) (limit : option N) (offset : N) (col_types : ColumnTypes)
    (udf_name distribute_udf_name : string) (having order_by : option string) : string :=
  let gk_emits := map (fun i => group_key_name i ++ " " ++ display GROUP_KEY_EMIT_TYPE) (seq 0 (List.length group_keys)) in
  let emits := join ", " (gk_emits ++ partial_emits_items aggregates col_types aggregate_types)%list in
  let merge_items := cast_merge_items aggregates aggregate_types col_types in
  let outer_select := omap (outer_item group_keys group_key_types aggregates merge_items) (merge_sort index_le select_items) in
  let outer_group_by := map group_key_name (seq 0 (List.length group_keys)) in
  let common_template := MkScanSpec (without_limit (common spec_template)) (spec_files spec_template) in
  let fan_out := build_fan_out_inner common_template shards emits udf_name distribute_udf_name in
  "SELECT " ++ join ", " outer_select ++ " FROM (" ++ with_stat_grand_means fan_out aggregates outer_group_by ++ ") GROUP BY "
  ++ join ", " outer_group_by ++ clause " HAVING " having ++ clause " ORDER BY " order_by ++ render_limit_offset limit offset.
End Sql.

(** ** Reading the fan-out as the database does *)

(** The text of an SQL string literal, from after its opening quote. *)
Fixpoint literal_body (s : string) : option (string * string) :=
  match s with
  | EmptyString => None
  | String c s' =>
      if Ascii.eqb c sq_char then
        match s' with
        | String d s'' => if Ascii.eqb d sq_char then '(text, rest) ← literal_body s''; Some (String sq_char text, rest) else Some ("", s')
        | EmptyString => Some ("", s')
        end
      else '(text, rest) ← literal_body s'; Some (String c text, rest)
  end.

Definition read_literal (s : string) : option (string * string) := strip_prefix "'" s ≫= literal_body.

(** The rows of the VALUES list, numbered from [i]; [fuel] bounds their number. *)
Fixpoint read_rows (fuel i : nat) (s : string) : option (list string * string) :=
  match fuel with
  | 0 => None
  | S fuel =>
      s ← strip_prefix ("(" ++ show_nat i ++ ",") s;
      '(files, s) ← read_literal s;
      s ← strip_prefix ")" s;
      match strip_prefix "," s with
      | Some s => '(rest, s) ← read_rows fuel (S i) s; Some (files :: rest, s)
      | None => Some ([files], s)
      end
  end.

(** The calls of the scan UDF a fan-out makes: its first argument and, one per call,
    its second. *)
Definition read_fan_out (rows : nat) (emits udf_name distribute_udf_name sql : string) : option (string * list string) :=
  s ← strip_prefix ("SELECT " ++ udf_name ++ "(") sql;
  '(common, s) ← read_literal s;
  s ← strip_prefix ", " s;
  match read_literal s with
  | Some (files, s) => if String.eqb s (") EMITS (" ++ emits ++ ")") then Some (common, [files]) else None
  | None =>
      s ← strip_prefix ("files) EMITS (" ++ emits ++ ") FROM (SELECT " ++ distribute_udf_name ++ "(files) FROM (VALUES ") s;
      '(files, s) ← read_rows rows 0 s;
      if String.eqb s ") AS shards(shard_key, files) GROUP BY shard_key)" then Some (common, files) else None
  end.

Lemma literal_body_quote s :
  literal_body (String sq_char s)
    = match s with
      | String d s'' => if Ascii.eqb d sq_char then '(text, rest) ← literal_body s''; Some (String sq_char text, rest) else Some ("", s)
      | EmptyString => Some ("", s)
      end.
Proof. done. Qed.

Lemma literal_body_other c s :
  c <> sq_char -> literal_body (String c s) = ('(text, rest) ← literal_body s; Some (String c text, rest)).
Proof. intros H. cbn [literal_body]. by rewrite (proj2 (Ascii.eqb_neq c sq_char) H). Qed.

Lemma literal_body_escaped s rest :
  strip_prefix "'" rest = None -> literal_body (replace_char sq_char "''" s ++ "'" ++ rest) = Some (s, rest).
Proof.
  intros Hr. induction s as [|c s IH].
  - change (replace_char sq_char "''" "" ++ "'" ++ rest) with (String sq_char rest). rewrite literal_body_quote.
    destruct rest as [|d rest]; [done|]. destruct (Ascii.eqb d sq_char) eqn:Ed; [|done].
    apply Ascii.eqb_eq in Ed as ->. discriminate Hr.
  - cbn [replace_char]. destruct (Ascii.eqb c sq_char) eqn:Hc.
    + apply Ascii.eqb_eq in Hc as ->.
      change (("''" ++ replace_char sq_char "''" s) ++ "'" ++ rest)
        with (String sq_char (String sq_char (replace_char sq_char "''" s ++ "'" ++ rest))).
      rewrite literal_body_quote. change (Ascii.eqb sq_char sq_char) with true. cbv iota. by rewrite IH.
    + apply Ascii.eqb_neq in Hc.
      change (String c (replace_char sq_char "''" s) ++ "'" ++ rest) with (String c (replace_char sq_char "''" s ++ "'" ++ rest)).
      by rewrite literal_body_other, IH.
Qed.

Lemma read_escaped s rest : strip_prefix "'" rest = None -> read_literal (sql_string_literal s ++ rest) = Some (s, rest).
Proof.
  intros Hr. unfold read_literal, sql_string_literal. rewrite !string_app_assoc. rewrite strip_prefix_app. cbn [mbind option_bind].
  by apply literal_body_escaped.
Qed.

Lemma strip_prefix_three a b c s : strip_prefix (a ++ b ++ c) (a ++ b ++ c ++ s) = Some s.
Proof. by rewrite <- !string_app_assoc, strip_prefix_app. Qed.

Lemma join_cons sep x l : l <> [] -> join sep (x :: l) = x ++ sep ++ join sep l.
Proof. by destruct l. Qed.

Lemma read_shard_rows print shards i tail fuel :
  shards <> [] -> List.length shards <= fuel ->
  read_rows fuel i (join "," (imap (fun k => shard_row print (i + k)) shards) ++ ")" ++ tail)
    = Some (map (files_json print) shards, ")" ++ tail).
Proof.
  revert i fuel. induction shards as [|x shards IH]; [done|]. intros i fuel _ Hf. destruct fuel as [|fuel]; [cbn in Hf; lia|].
  cbn [imap]. rewrite Nat.add_0_r.
  assert (Hshift : imap ((fun k => shard_row print (i + k)) ∘ S) shards = imap (fun k => shard_row print (S i + k)) shards).
  { apply imap_ext. intros k y _. unfold compose. by rewrite Nat.add_succ_r. }
  rewrite Hshift. unfold shard_row at 1. destruct shards as [|y shards].
  - cbn [imap join]. rewrite !string_app_assoc. cbn [read_rows]. rewrite strip_prefix_three. cbn [mbind option_bind].
    rewrite read_escaped by done. cbn [mbind option_bind]. rewrite strip_prefix_app. done.
  - rewrite join_cons by done. rewrite !string_app_assoc. cbn [read_rows]. rewrite strip_prefix_three. cbn [mbind option_bind].
    rewrite read_escaped by done. cbn [mbind option_bind]. rewrite strip_prefix_app. cbn [mbind option_bind].
    rewrite strip_prefix_app, IH by (done || (cbn in *; lia)). done.
Qed.

(** What the database reads back from a fan-out's text: the common blob, and the
    file list of each shard in order. *)
Lemma fan_out_reads_back {F} {DJ : DoubleJson F} print (spec : ScanSpec F) shards emits udf_name distribute_udf_name :
  shards <> [] ->
  read_fan_out (List.length shards) emits udf_name distribute_udf_name
      (build_fan_out_inner print spec shards emits udf_name distribute_udf_name)
    = Some (to_common_json print spec, map (files_json print) shards).
Proof.
  intros Hne. unfold read_fan_out, build_fan_out_inner. destruct shards as [|x [|y shards]]; [done| |].
  - rewrite strip_prefix_three. cbn [mbind option_bind]. rewrite read_escaped by done. cbn [mbind option_bind].
    rewrite strip_prefix_app. cbn [mbind option_bind]. rewrite read_escaped by done. by rewrite String.eqb_refl.
  - rewrite strip_prefix_three. cbn [mbind option_bind]. rewrite read_escaped by done. cbn [mbind option_bind].
    set (xs := x :: y :: shards) in *.
    change (", files) EMITS (" ++ ?r) with (", " ++ "files) EMITS (" ++ r). rewrite strip_prefix_app. cbn [mbind option_bind].
    change (read_literal ("files) EMITS (" ++ _)) with (@None (string * string)). cbv iota.
    assert (Hs : forall r, strip_prefix ("files) EMITS (" ++ emits ++ ") FROM (SELECT " ++ distribute_udf_name ++ "(files) FROM (VALUES ")
               ("files) EMITS (" ++ emits ++ ") FROM (SELECT " ++ distribute_udf_name ++ "(files) FROM (VALUES " ++ r) = Some r).
    { intros r. by rewrite <- !string_app_assoc, strip_prefix_app. }
    rewrite Hs. cbn [mbind option_bind].
    change (") AS shards(shard_key, files) GROUP BY shard_key)") with (")" ++ " AS shards(shard_key, files) GROUP BY shard_key)").
    rewrite (read_shard_rows print xs 0) by done. cbn [mbind option_bind]. by rewrite String.eqb_refl.
Qed.

(** C9. Every shard runs the whole plan on its own files: the statement the adapter
    returns, read back as the database lexes it, calls the scan UDF once per shard,
    and each call's two arguments deserialize in the scan to the planned spec with
    exactly that shard's file list, whatever quotes the plan's texts and paths hold. *)
Theorem fan_out_delivers_shards {F} {DJ : DoubleJson F} print parse describe (spec : ScanSpec F) shards emits udf_name distribute_udf_name :
  shards <> [] ->
  parse (print (common_to_json (common spec))) = Some (common_to_json (common spec)) ->
  (forall files, files ∈ shards -> parse (print (JArray (map entry_to_json files))) = Some (JArray (map entry_to_json files))) ->
  common_fits (common spec) ->
  (forall files, files ∈ shards -> Forall entry_ok files /\ Forall (fun e => mixes e = false) files) ->
  exists common_json files_jsons,
    read_fan_out (List.length shards) emits udf_name distribute_udf_name
      (build_fan_out_inner print spec shards emits udf_name distribute_udf_name) = Some (common_json, files_jsons)
    /\ Forall2 (fun text files => from_parts_json parse describe common_json text = Ok (from_parts (common spec) files)) files_jsons shards.
Proof.
  intros Hne Hc Hf Hfit Hok. exists (to_common_json print spec), (map (files_json print) shards).
  split; [by apply fan_out_reads_back|]. clear Hne. induction shards as [|files shards IH]; [constructor|].
  cbn [map]. constructor; [|apply IH; intros; first [apply Hf|apply Hok]; by right].
  destruct (Hok files) as [He Hm]; [by left|]. rewrite spec_wire_roundtrip by (done || (apply Hf; by left)).
  apply check_entries_ok with (index := 0) in Hm. by rewrite Hm.
Qed.

Lemma fan_out_delivers_shards_witness :
  let print j := match j with JArray [] => "[]" | JArray _ => "it's" | _ => "{'a'}" end in
  let parse s := if String.eqb s "[]" then Some (JArray []) else if String.eqb s "it's" then Some (JArray (map entry_to_json sample_files))
                 else Some (common_to_json sample_common) in
  exists common_json files_jsons,
    read_fan_out 2 "E" "U" "D" (build_fan_out_inner (DJ := digits) print (from_parts sample_common []) [sample_files; []] "E" "U" "D")
      = Some (common_json, files_jsons)
    /\ Forall2 (fun text files => from_parts_json parse id common_json text = Ok (from_parts sample_common files)) files_jsons
         [sample_files; []].
Proof.
  intros print parse.
  apply (fan_out_delivers_shards print parse id (from_parts sample_common []) [sample_files; []] "E" "U" "D").
  - discriminate.
  - reflexivity.
  - intros files [->|[->|[]%elem_of_nil]%elem_of_cons]%elem_of_cons; reflexivity.
  - exact sample_common_fits.
  - intros files [->|[->|[]%elem_of_nil]%elem_of_cons]%elem_of_cons; [|repeat constructor].
    split; [exact sample_files_ok|repeat constructor].
Defined.
