(* ===== verification/JoinLegs.v ===== *)
(** crates/lakehouse-engine/src/adapter/pushdown/joins/attribution.rs: which
    occurrence of a table a column node of a join request belongs to, and the
    rewrite that names each column by its occurrence's alias. *)

From stdpp Require Import base list strings numbers.
From Stdlib Require Import Ascii String ZArith NArith Lia.
From S2P Require Import Prelude Text Json ColumnNode ScanSpec.

Local Open Scope string_scope.

Inductive ColumnLeg := Leg (leg : nat) | NoLeg | Unattributable.

#[export] Instance ColumnLeg_eq_dec : EqDecision ColumnLeg.
Proof. solve_decision. Defined.

(** [legs] is a set in ascending order. *)
Record LegReferences := MkLegReferences { referenced_legs : list nat; has_unattributed : bool; any_column : bool }.

Record UnattributableColumn := MkUnattributable {
  u_table_name : string;
  u_table_alias : option string;
  u_column_name : string;
}.

Definition unattributable_of (column : ColumnNode) : UnattributableColumn :=
  MkUnattributable (default "" (ColumnNode.table_name column)) (ColumnNode.table_alias column) (ColumnNode.name column).

Definition unattributable_display (c : UnattributableColumn) : string :=
  match u_table_alias c with
  | Some alias => "column " ++ u_column_name c ++ " of table " ++ u_table_name c ++ " with alias " ++ alias
  | None => "column " ++ u_column_name c ++ " of table " ++ u_table_name c ++ " with no alias"
  end.

(** One leaf of the FROM tree (joins/planning.rs). *)
Record JoinLeaf := MkJoinLeaf {
  leaf_table_name : string;
  leaf_table_alias : option string;
  leaf_table_identifier : string;
}.

Record LegKey := MkLegKey { key_table_name : string; key_table_alias : option string; key_leg : nat }.

Record JoinLegs := MkJoinLegs { keys : list LegKey; leg_count : nat }.

Definition from_leaves (leaves : list JoinLeaf) : JoinLegs :=
  MkJoinLegs (imap (fun leg leaf => MkLegKey (leaf_table_name leaf) (leaf_table_alias leaf) leg) leaves) (List.length leaves).

Definition for_single_scan (request : Json) : JoinLegs :=
  let names := omap (fun table => get_str table "name") (default [] (get_array request "involvedTables")) in
  MkJoinLegs (map (fun name => MkLegKey name None 0) names) 1.

Definition leg_alias (leg : nat) : string := relation_alias leg.

Definition resolve_column (legs : JoinLegs) (column : ColumnNode) : ColumnLeg :=
  match ColumnNode.table_name column with
  | None => NoLeg
  | Some table_name =>
      match List.filter (fun key => eq_ignore_ascii_case (key_table_name key) table_name) (keys legs) with
      | [] => NoLeg
      | (first :: _) as matching =>
          if forallb (fun key => (key_leg key =? key_leg first)%nat) matching then Leg (key_leg first)
          else
            match List.find (fun key => bool_decide (key_table_alias key = ColumnNode.table_alias column)) matching with
            | Some key => Leg (key_leg key)
            | None => Unattributable
            end
      end
  end.

(** [BTreeSet::insert]. *)
Fixpoint insert_leg (leg : nat) (l : list nat) : list nat :=
  match l with
  | [] => [leg]
  | x :: l' => if (leg <? x)%nat then leg :: l else if (leg =? x)%nat then l else x :: insert_leg leg l'
  end.

Definition reference (legs : JoinLegs) (referenced : LegReferences) (column : ColumnNode) : LegReferences :=
  match resolve_column legs column with
  | Leg leg => MkLegReferences (insert_leg leg (referenced_legs referenced)) (has_unattributed referenced) true
  | NoLeg | Unattributable => MkLegReferences (referenced_legs referenced) true true
  end.

Definition legs_referenced (legs : JoinLegs) (expr : Json) : LegReferences :=
  fold_left (reference legs) (walk_column_nodes expr) (MkLegReferences [] false false).

Definition attachment_leg (legs : JoinLegs) (expr : Json) : option nat :=
  let referenced := legs_referenced legs expr in
  if negb (any_column referenced) || has_unattributed referenced then None else list.last (referenced_legs referenced).

Definition conjunct_leg (legs : JoinLegs) (conjunct : Json) : option nat :=
  let referenced := legs_referenced legs conjunct in
  if has_unattributed referenced || negb (any_column referenced) || negb (List.length (referenced_legs referenced) =? 1)%nat then None
  else head (referenced_legs referenced).

Definition leg_answer (legs : JoinLegs) (strict : bool) (column : ColumnNode) : result UnattributableColumn (option string) :=
  match resolve_column legs column with
  | Leg leg => Ok (Some (leg_alias leg))
  | NoLeg => if strict then Err (unattributable_of column) else Ok None
  | Unattributable => Err (unattributable_of column)
  end.

Definition qualify_tree (legs : JoinLegs) (strict : bool) (expr : Json) : result UnattributableColumn Json :=
  rewrite_table_aliases (leg_answer legs strict) expr.

Definition qualify_every_column (legs : JoinLegs) (expr : Json) : result UnattributableColumn Json := qualify_tree legs true expr.
Definition qualify (legs : JoinLegs) (expr : Json) : result UnattributableColumn Json := qualify_tree legs false expr.

(** ** Legs are occurrences *)

Lemma filter_keys_lookup leaves (p : LegKey -> bool) i leaf :
  leaves !! i = Some leaf -> p (MkLegKey (leaf_table_name leaf) (leaf_table_alias leaf) i) = true ->
  MkLegKey (leaf_table_name leaf) (leaf_table_alias leaf) i ∈ List.filter p (keys (from_leaves leaves)).
Proof.
  intros Hi Hp. apply list_elem_of_In, List.filter_In. split; [|done]. apply list_elem_of_In, list_elem_of_lookup. exists i.
  cbn [keys from_leaves]. by rewrite list_lookup_imap, Hi.
Qed.

Lemma from_leaves_key leaves k :
  k ∈ keys (from_leaves leaves) ->
  exists leaf, leaves !! key_leg k = Some leaf /\ k = MkLegKey (leaf_table_name leaf) (leaf_table_alias leaf) (key_leg k).
Proof.
  intros [i Hi]%list_elem_of_lookup. cbn [keys from_leaves] in Hi. rewrite list_lookup_imap in Hi.
  destruct (leaves !! i) as [leaf|] eqn:El; [|done]. cbn in Hi. injection Hi as <-. by exists leaf.
Qed.

Definition same_table (a b : string) : Prop := eq_ignore_ascii_case a b = true.

(** What an attributed column says of its leaf. *)
Lemma resolve_leg_sound leaves column leg :
  resolve_column (from_leaves leaves) column = Leg leg ->
  exists table leaf, ColumnNode.table_name column = Some table /\ leaves !! leg = Some leaf /\ same_table (leaf_table_name leaf) table
    /\ ((forall j other, leaves !! j = Some other -> same_table (leaf_table_name other) table -> j = leg)
        \/ leaf_table_alias leaf = ColumnNode.table_alias column).
Proof.
  unfold resolve_column. destruct (ColumnNode.table_name column) as [table|]; [|done].
  set (p := fun key => eq_ignore_ascii_case (key_table_name key) table).
  destruct (List.filter p (keys (from_leaves leaves))) as [|first rest] eqn:Em; [done|].
  assert (Hin : forall k, k ∈ first :: rest ->
    exists leaf, leaves !! key_leg k = Some leaf /\ k = MkLegKey (leaf_table_name leaf) (leaf_table_alias leaf) (key_leg k)
      /\ same_table (leaf_table_name leaf) table).
  { intros k Hk. rewrite <- Em in Hk. apply list_elem_of_In, List.filter_In in Hk as [Hk Hp].
    apply list_elem_of_In, from_leaves_key in Hk as (leaf & Hl & Hk). exists leaf. split_and!; [done|done|].
    unfold p in Hp. by rewrite Hk in Hp. }
  destruct (forallb _ _) eqn:Ha.
  - intros [= <-]. destruct (Hin first) as (leaf & Hl & _ & Hs); [by left|]. exists table, leaf. split_and!; try done. left.
    intros j other Hj Ho. apply (filter_keys_lookup leaves p j other) in Hj; [|done]. rewrite Em in Hj.
    rewrite List.forallb_forall in Ha. apply list_elem_of_In, Ha in Hj. by apply Nat.eqb_eq in Hj.
  - destruct (List.find _ _) as [k|] eqn:Ef; [|done]. intros [= <-]. apply List.find_some in Ef as [Hk Hal].
    apply list_elem_of_In, Hin in Hk as (leaf & Hl & Hk & Hs). exists table, leaf. split_and!; try done. right.
    apply bool_decide_eq_true in Hal. by rewrite Hk in Hal.
Qed.

(** An occurrence is found when its name and alias are no other occurrence's. *)
Lemma resolve_leg_complete leaves leg leaf n table :
  leaves !! leg = Some leaf -> same_table (leaf_table_name leaf) table ->
  (forall j other, leaves !! j = Some other -> same_table (leaf_table_name other) table ->
     leaf_table_alias other = leaf_table_alias leaf -> j = leg) ->
  resolve_column (from_leaves leaves) (MkColumn n (Some table) (leaf_table_alias leaf)) = Leg leg.
Proof.
  intros Hl Hs Hu. unfold resolve_column. cbn [ColumnNode.table_name ColumnNode.table_alias].
  set (p := fun key => eq_ignore_ascii_case (key_table_name key) table).
  assert (Hin := filter_keys_lookup leaves p leg leaf Hl Hs).
  destruct (List.filter p (keys (from_leaves leaves))) as [|first rest] eqn:Em; [by apply elem_of_nil in Hin|].
  destruct (forallb _ _) eqn:Ha.
  - rewrite List.forallb_forall in Ha. apply list_elem_of_In, Ha in Hin. apply Nat.eqb_eq in Hin. cbn in Hin. by rewrite Hin.
  - destruct (List.find _ _) as [k|] eqn:Ef.
    + apply List.find_some in Ef as [Hk Hal]. rewrite <- Em in Hk. apply List.filter_In in Hk as [Hk Hp].
      apply list_elem_of_In, from_leaves_key in Hk as (other & Ho & Hk). apply bool_decide_eq_true in Hal. f_equal.
      apply (Hu _ other Ho); [by rewrite Hk in Hp|by rewrite Hk in Hal].
    + apply list_elem_of_In in Hin. apply (List.find_none _ _ Ef) in Hin. cbn in Hin. by rewrite bool_decide_eq_true_2 in Hin.
Qed.

(** ** Qualified trees *)

Section Rewritten.
Context {E : Type} (f : ColumnNode -> result E (option string)).

(** A column node with the alias it was answered. *)
Definition stamped (c : ColumnNode) (alias : option string) : ColumnNode :=
  MkColumn (ColumnNode.name c) (ColumnNode.table_name c) (match alias with Some a => Some a | None => ColumnNode.table_alias c end).

Lemma rewritten_text tree out : rewrite_table_aliases f tree = Ok out -> as_str out = as_str tree.
Proof.
  destruct tree as [| | | |l|m]; try (intros [= <-]; done).
  - rewrite rewrite_array. destruct (try_map _ l); [|done]. by intros [= <-].
  - rewrite rewrite_object. destruct (try_map _ m); [|done]. destruct (answered_alias f m); [|done]. by intros [= <-].
Qed.

Lemma rewritten_key m m' key : try_map (rewrite_field f) m = Ok m' -> map_get key m' ≫= as_str = map_get key m ≫= as_str.
Proof.
  revert m'. induction m as [|[k v] m IH]; intros m' H; [by injection H as <-|].
  apply try_map_ok_cons in H as ([k' v'] & ys & Hv & Hys & ->). unfold rewrite_field in Hv. cbn [fst snd] in Hv.
  destruct (rewrite_table_aliases f v) as [w|] eqn:Ev; [|done]. injection Hv as <- <-. cbn [map_get].
  destruct (String.eqb k key); [by apply rewritten_text|by apply IH].
Qed.

Lemma from_map_texts m :
  from_map m = (kind ← map_get "type" m ≫= as_str;
                if negb (String.eqb kind "column") then None
                else n ← map_get "name" m ≫= as_str;
                     Some (MkColumn n (map_get TABLE_NAME m ≫= as_str) (map_get TABLE_ALIAS m ≫= as_str))).
Proof. unfold from_map. by destruct (map_get "type" m). Qed.

Lemma from_map_stamped m m' alias :
  try_map (rewrite_field f) m = Ok m' ->
  from_map (match alias with Some a => map_insert TABLE_ALIAS (JString a) m' | None => m' end)
    = (fun c => stamped c alias) <$> from_map m.
Proof.
  intros H. rewrite !from_map_texts.
  assert (Hk : forall key, (map_get key (match alias with Some a => map_insert TABLE_ALIAS (JString a) m' | None => m' end) ≫= as_str)
      = match alias with Some a => if String.eqb key TABLE_ALIAS then Some a else map_get key m ≫= as_str | None => map_get key m ≫= as_str end).
  { intros key. destruct alias as [a|]; [|by apply rewritten_key]. rewrite map_get_insert, (String.eqb_sym key).
    destruct (String.eqb TABLE_ALIAS key); [done|by apply rewritten_key]. }
  rewrite !Hk. destruct alias as [a|]; cbn [String.eqb Ascii.eqb Bool.eqb TABLE_ALIAS TABLE_NAME];
    (destruct (map_get "type" m ≫= as_str) as [kind|]; [|done]); cbn [mbind option_bind fmap option_fmap option_map];
    (destruct (negb _); [done|]); by destruct (map_get "name" m ≫= as_str).
Qed.

End Rewritten.

Lemma rewrite_error {E} (f : ColumnNode -> result E (option string)) tree e :
  rewrite_table_aliases f tree = Err e -> exists c, c ∈ walk_column_nodes tree /\ f c = Err e.
Proof.
  induction tree as [| | | |l IH|m IH] using Json_ind; intros H; try done.
  - rewrite rewrite_array in H. rewrite walk_array. destruct (try_map _ l) as [l'|] eqn:El; [done|]. injection H as ->.
    induction IH as [|x l Hx _ IHl]; [done|]. cbn [try_map] in El. cbn [flat_map]. setoid_rewrite elem_of_app.
    destruct (rewrite_table_aliases f x) as [y|] eqn:Ex.
    + destruct (try_map _ l); [done|]. destruct IHl as (c & Hc & Hf); [done|]. eauto.
    + injection El as ->. destruct (Hx eq_refl) as (c & Hc & Hf). eauto.
  - rewrite rewrite_object in H. rewrite walk_object. setoid_rewrite elem_of_app. destruct (try_map _ m) as [m'|] eqn:Em.
    + destruct (answered_alias f m) as [a|] eqn:Ea; [done|]. injection H as ->. unfold answered_alias in Ea.
      destruct (from_map m) as [c|]; [|done]. exists c. split; [left; by left|done].
    + injection H as ->. assert (Hw : exists c, c ∈ walk_fields m /\ f c = Err e); [|naive_solver].
      unfold walk_fields. induction IH as [|[k v] m Hx _ IHm]; [done|]. cbn [try_map] in Em. cbn [flat_map snd]. setoid_rewrite elem_of_app.
      unfold rewrite_field at 1 in Em. cbn [fst snd] in Em, Hx. destruct (rewrite_table_aliases f v) as [y|] eqn:Ev.
      * destruct (try_map _ m); [done|]. destruct IHm as (c & Hc & Hf); [done|]. eauto.
      * injection Em as ->. destruct (Hx eq_refl) as (c & Hc & Hf). eauto.
Qed.

(** ** Column by column *)

(** Every alias of the tree is a text. *)
Fixpoint aliases_plain (j : Json) : bool :=
  match j with
  | JArray l => forallb aliases_plain l
  | JObject m =>
      forallb (fun kv => aliases_plain kv.2 && (negb (String.eqb kv.1 TABLE_ALIAS) || match kv.2 with JString _ | JNull => true | _ => false end)) m
  | _ => true
  end.

Lemma walk_fields_alias a m :
  (forall v, (TABLE_ALIAS, v) ∈ m -> walk_column_nodes v = []) -> walk_fields (map_insert TABLE_ALIAS (JString a) m) = walk_fields m.
Proof.
  unfold walk_fields. induction m as [|[k v] m IH]; intros H; [done|]. cbn [map_insert].
  destruct (String.compare TABLE_ALIAS k) eqn:Ec; cbn [flat_map snd walk_column_nodes app].
  - apply String.compare_eq_iff in Ec as <-. by rewrite (H v) by (by left).
  - done.
  - rewrite IH; [done|]. intros w Hw. apply H. by right.
Qed.

(** The rewrite answers the columns where they stand. *)
Lemma rewritten_in_order {E} (f : ColumnNode -> result E (option string)) tree out :
  aliases_plain tree = true -> rewrite_table_aliases f tree = Ok out ->
  Forall2 (fun c c' => exists a, f c = Ok a /\ c' = stamped c a) (walk_column_nodes tree) (walk_column_nodes out).
Proof.
  revert out. induction tree as [| | | |l IH|m IH] using Json_ind; intros out Hp H; try (injection H as <-; constructor).
  - rewrite rewrite_array in H. destruct (try_map _ l) as [l'|] eqn:El; [|done]. injection H as <-. rewrite !walk_array. cbn [aliases_plain] in Hp.
    revert l' El. induction IH as [|x l Hx _ IHl]; intros l' El; [injection El as <-; constructor|]. cbn [forallb] in Hp. apply andb_true_iff in Hp as [Hp1 Hp2].
    apply try_map_ok_cons in El as (y & ys & Hy & Hys & ->). cbn [flat_map]. apply Forall2_app; [by apply Hx|by apply IHl].
  - rewrite rewrite_object in H. destruct (try_map _ m) as [m'|] eqn:Em; [|done].
    destruct (answered_alias f m) as [alias|] eqn:Ea; [|done]. injection H as <-. rewrite !walk_object, (from_map_stamped f m m' alias Em). cbn [aliases_plain] in Hp.
    assert (Hf : Forall2 (fun c c' => exists a, f c = Ok a /\ c' = stamped c a) (walk_fields m) (walk_fields m')
      /\ forall v, (TABLE_ALIAS, v) ∈ m' -> walk_column_nodes v = []).
    { clear Ea. unfold walk_fields. revert m' Em. induction IH as [|[k v] m Hx _ IHm]; intros m' Em.
      { injection Em as <-. split; [constructor|]. intros v Hv. by apply elem_of_nil in Hv. }
      apply try_map_ok_cons in Em as ([k' v'] & ys & Hv & Hys & ->). unfold rewrite_field in Hv. cbn [fst snd] in *.
      destruct (rewrite_table_aliases f v) as [w|] eqn:Ew; [|done]. injection Hv as <- <-. cbn [forallb fst snd] in Hp. apply andb_true_iff in Hp as [[Hp1 Hp2]%andb_true_iff Hp3].
      destruct (IHm Hp3 _ Hys) as [IH1 IH2]. cbn [flat_map snd]. split; [apply Forall2_app; [by apply Hx|done]|].
      intros x [[= <- ->]|Hx']%elem_of_cons; [|by apply IH2]. rewrite String.eqb_refl in Hp2. destruct v; try done; by injection Ew as <-. }
    destruct Hf as [Hf1 Hf2]. unfold answered_alias in Ea. apply Forall2_app.
    + destruct (from_map m) as [d|]; cbn; constructor; [by exists alias|constructor].
    + destruct alias as [a|]; [|done]. by rewrite walk_fields_alias.
Qed.

(** C23. A join binds each column to the occurrence it was written for: qualifying a
    request tree changes nothing but aliases, and column by column, in place, the result
    carries the alias of a leaf of that column's own table - the only leaf of that table,
    or the one whose alias the request stamped on that very column, so the occurrences of
    a self-join stay apart. It fails only on a column that no single leaf owns, and names
    it. Stated for trees whose aliases are texts, as the database sends them. *)
Theorem qualified_columns_keep_their_leg leaves expr :
  aliases_plain expr = true ->
  match qualify_every_column (from_leaves leaves) expr with
  | Ok out =>
      strip_table_alias out = strip_table_alias expr
      /\ Forall2 (fun c c' =>
           exists table leg leaf, c' = MkColumn (ColumnNode.name c) (Some table) (Some (relation_alias leg))
             /\ ColumnNode.table_name c = Some table /\ leaves !! leg = Some leaf /\ same_table (leaf_table_name leaf) table
             /\ ((forall j other, leaves !! j = Some other -> same_table (leaf_table_name other) table -> j = leg)
                 \/ leaf_table_alias leaf = ColumnNode.table_alias c)) (walk_column_nodes expr) (walk_column_nodes out)
  | Err u =>
      exists c, c ∈ walk_column_nodes expr /\ u = unattributable_of c
        /\ forall leg leaf n table, leaves !! leg = Some leaf -> same_table (leaf_table_name leaf) table ->
           (forall j other, leaves !! j = Some other -> same_table (leaf_table_name other) table ->
              leaf_table_alias other = leaf_table_alias leaf -> j = leg) ->
           c <> MkColumn n (Some table) (leaf_table_alias leaf)
  end.
Proof.
  intros Hp. destruct (qualify_every_column (from_leaves leaves) expr) as [out|u] eqn:Eq; unfold qualify_every_column, qualify_tree in Eq.
  - split; [by eapply rewrite_only_aliases|]. pose proof (rewritten_in_order _ _ _ Hp Eq) as Hcols. eapply Forall2_impl; [|exact Hcols]. intros c c' (a & Ha & ->). unfold leg_answer in Ha.
    destruct (resolve_column (from_leaves leaves) c) as [leg| |] eqn:Er; [|done|done]. injection Ha as <-.
    apply resolve_leg_sound in Er as (table & leaf & Ht & Hl & Hs & Hor). exists table, leg, leaf. split_and!; try done.
    unfold stamped. by rewrite Ht.
  - apply rewrite_error in Eq as (c & Hin & Hc). exists c. split; [done|]. unfold leg_answer in Hc.
    assert (Hn : forall leg, resolve_column (from_leaves leaves) c <> Leg leg /\ u = unattributable_of c).
    { intros leg. by destruct (resolve_column (from_leaves leaves) c); simplify_eq. }
    split; [by apply (Hn 0)|]. intros leg leaf n table Hl Hs Hu ->. destruct (Hn leg) as [Hne _]. apply Hne. by apply resolve_leg_complete.
Qed.

(** A self-join, [E.MANAGER = M.ID] of one table. *)
Definition staff_leaves : list JoinLeaf := [MkJoinLeaf "STAFF" (Some "E") "hr.staff"; MkJoinLeaf "STAFF" (Some "M") "hr.staff"].
Definition managed : Json :=
  json_object [("type", JString "predicate_equal"); ("left", ColumnNode.to_json "MANAGER" (Some "STAFF") (Some "E"));
               ("right", ColumnNode.to_json "ID" (Some "STAFF") (Some "M"))].

Lemma qualified_columns_keep_their_leg_witness :
  exists out, qualify_every_column (from_leaves staff_leaves) managed = Ok out
    /\ walk_column_nodes out = [MkColumn "MANAGER" (Some "STAFF") (Some "LHS_T0"); MkColumn "ID" (Some "STAFF") (Some "LHS_T1")]
    /\ strip_table_alias out = strip_table_alias managed.
Proof.
  pose proof (qualified_columns_keep_their_leg staff_leaves managed eq_refl) as H.
  destruct (qualify_every_column (from_leaves staff_leaves) managed) as [out|u] eqn:E; [|vm_compute in E; discriminate E].
  exists out. split; [reflexivity|]. split; [|exact (proj1 H)]. vm_compute in E. injection E as <-. vm_compute. reflexivity.
Defined.
