(* ===== verification/JoinFilters.v ===== *)
(** crates/lakehouse-engine/src/adapter/pushdown/joins/rendering.rs: the split of a
    join's WHERE into the conjuncts each leg applies and the residual the outer
    statement applies, and the columns each leg must ship. *)

From stdpp Require Import base list strings numbers.
From Stdlib Require Import Ascii String ZArith NArith Lia.
From S2P Require Import Prelude Text Hex Json ExasolType ColumnNode Render ScanSpec ColumnTypes ExasolRules TypeRewrites JoinLegs.

Local Open Scope string_scope.

Definition projection_item_select_sql (item : ProjectionItem) : string :=
  match item with PColumn column => exasol_quote_ident (output_name column) | PExpr expr => expr end.

(** [json!({"type": "predicate_and", "expressions": exprs})]. *)
Definition conjunction (exprs : list Json) : Json := json_object [("type", JString "predicate_and"); ("expressions", JArray exprs)].

Fixpoint flatten_conjuncts_fuel (fuel : nat) (filter : Json) : list Json :=
  match fuel with
  | 0 => [filter]
  | S fuel =>
      if bool_decide (get_str filter "type" = Some "predicate_and") then
        match get_array filter "expressions" with
        | Some exprs => flat_map (flatten_conjuncts_fuel fuel) exprs
        | None => [filter]
        end
      else [filter]
  end.

Definition flatten_conjuncts (filter : Json) : list Json := flatten_conjuncts_fuel (json_depth filter) filter.

Definition rejoin (kept : list Json) : option Json :=
  match kept with [] => None | [c] => Some c | _ => Some (conjunction kept) end.

Definition partition_conjuncts (filter : Json) (keep : Json -> bool) : option Json :=
  rejoin (List.filter keep (flatten_conjuncts filter)).

Definition leg_local_filter (legs : JoinLegs) (leg : nat) (filter : Json) : option Json :=
  partition_conjuncts filter (fun c => bool_decide (conjunct_leg legs c = Some leg)).

Definition cross_leg_residual_filter (legs : JoinLegs) (filter : Json) : option Json :=
  partition_conjuncts filter (fun c => bool_decide (conjunct_leg legs c = None)).

Definition conjoin_filters (left right : option Json) : option Json :=
  match left, right with
  | Some l, Some r => Some (conjunction [l; r])
  | Some l, None => Some l
  | None, r => r
  end.

Section Screens.
Context {UC : UnicodeCase} {JD : JsonDisplay} {HX : Hex}.

Definition render_expression_qualified (legs : JoinLegs) (expr : Json) : result UnattributableColumn (option string) :=
  let? tree := qualify legs expr in Ok (render_expression_exasol_safe tree).

Definition render_df_filter_qualified (legs : JoinLegs) (filter : Json) : result UnattributableColumn (option string) :=
  let? tree := qualify legs filter in Ok (render_df_filter_exasol_safe tree).

Definition renderable_only (filter : Json) : option Json := partition_conjuncts filter datafusion_renderable.
Definition declined_only (filter : Json) : option Json := partition_conjuncts filter (fun c => negb (datafusion_renderable c)).

Definition accepts (col_types : ColumnTypes) (c : Json) : bool := bool_decide (is_Some (type_accepted_rewrite col_types c)).

Definition type_screened_leg_filter (col_types : ColumnTypes) (side_local : Json) : option Json * option Json :=
  let declined := partition_conjuncts side_local (fun c => negb (accepts col_types c)) in
  match partition_conjuncts side_local (accepts col_types) with
  | None => (None, declined)
  | Some accepted =>
      match type_accepted_rewrite col_types accepted with
      | Some rewritten => (Some rewritten, declined)
      | None => (None, Some side_local)
      end
  end.

(** The screens of [build_n_scan_join_sql]: what leg [i] applies and hands back. *)
Definition screened_side (legs : JoinLegs) (leg_eligible : option Json) (i : nat) (cols : ColumnTypes) : option Json * option Json :=
  match leg_eligible ≫= leg_local_filter legs i with
  | Some side_local => type_screened_leg_filter cols side_local
  | None => (None, None)
  end.

Definition screened_sides (legs : JoinLegs) (leg_eligible : option Json) (cols_per_side : list ColumnTypes)
  : list (option Json * option Json) := imap (screened_side legs leg_eligible) cols_per_side.

Definition residual_filter (legs : JoinLegs) (where_filter : option Json) (screened : list (option Json * option Json)) : option Json :=
  conjoin_filters
    (conjoin_filters ((where_filter ≫= renderable_only) ≫= cross_leg_residual_filter legs) (where_filter ≫= declined_only))
    (fold_left conjoin_filters (map snd screened) None).
End Screens.

(** ** The columns a leg ships *)

Definition collect_leg_column_names (legs : JoinLegs) (leg : nat) (expr : Json) : list string :=
  map ascii_upper_name (List.filter (fun column => bool_decide (resolve_column legs column = Leg leg)) (walk_column_nodes expr)).

Definition possible_side_column_names (expr : Json) (table_name : string) : list string :=
  map ascii_upper_name
    (List.filter (fun column => match ColumnNode.table_name column with Some tn => eq_ignore_ascii_case tn table_name | None => true end)
       (walk_column_nodes expr)).

Definition has_no_explicit_select_list (pushdown_req : Json) : bool :=
  match get pushdown_req "selectList" with Some (JArray (_ :: _)) => false | _ => true end.

Definition present_clause (pushdown_req : Json) (key : string) : list Json :=
  match get pushdown_req key with Some v => if is_null v then [] else [v] | None => [] end.

(** The clauses a source column can be named in, in visit order. *)
Definition referenced_clause_values (pushdown_req : Json) : list Json :=
  let any key := match get pushdown_req key with Some v => [v] | None => [] end in
  (any "selectList" ++ present_clause pushdown_req "filter" ++ any "groupBy" ++ any "orderBy" ++ present_clause pushdown_req "having")%list.

Definition referenced_leg_columns (legs : JoinLegs) (pushdown_req condition : Json) (leg : nat) (full_cols : ColumnTypes) : ColumnTypes :=
  if has_no_explicit_select_list pushdown_req then full_cols
  else
    let names := (collect_leg_column_names legs leg condition
                  ++ flat_map (collect_leg_column_names legs leg) (referenced_clause_values pushdown_req))%list in
    match narrowed full_cols (fun column => existsb (String.eqb (ScanSpec.name column)) names) with
    | [] => full_cols
    | narrowed => narrowed
    end.

(** ** Conjuncts *)

Definition is_conjunction (f : Json) : option (list Json) :=
  if bool_decide (get_str f "type" = Some "predicate_and") then get_array f "expressions" else None.

Lemma flatten_fuel_enough n m f :
  json_depth f <= n -> json_depth f <= m -> flatten_conjuncts_fuel n f = flatten_conjuncts_fuel m f.
Proof.
  revert m f. induction n as [|n IH]; intros m f Hn Hm; [destruct f; cbn in Hn; lia|].
  destruct m as [|m]; [destruct f; cbn in Hm; lia|]. cbn [flatten_conjuncts_fuel]. case_bool_decide; [|done].
  destruct (get_array f "expressions") as [l|] eqn:El; [|done].
  assert (Hall : forall x, x ∈ l -> shallower x f) by (intros x Hx; eauto with json). clear El.
  induction l as [|x l IHl]; [done|]. cbn [flat_map]. rewrite IHl by (intros y Hy; apply Hall; by right). f_equal.
  specialize (Hall x ltac:(by left)). unfold shallower in Hall. apply IH; lia.
Qed.

Lemma flatten_equation f :
  flatten_conjuncts f = match is_conjunction f with Some l => flat_map flatten_conjuncts l | None => [f] end.
Proof.
  unfold flatten_conjuncts at 1, is_conjunction. destruct (json_depth f) as [|n] eqn:Hd; [destruct f; cbn in Hd; lia|].
  cbn [flatten_conjuncts_fuel]. case_bool_decide; [|done]. destruct (get_array f "expressions") as [l|] eqn:El; [|done].
  assert (Hall : forall x, x ∈ l -> json_depth x <= n).
  { intros x Hx. assert (shallower x f) as Hs by eauto with json. unfold shallower in Hs. lia. }
  clear El. induction l as [|x l IHl]; [done|]. cbn [flat_map]. rewrite IHl by (intros y Hy; apply Hall; by right). f_equal.
  unfold flatten_conjuncts. apply flatten_fuel_enough; [|done]. apply Hall. by left.
Qed.

(** Conjuncts are not conjunctions. *)
Lemma flatten_atoms f c : c ∈ flatten_conjuncts f -> flatten_conjuncts c = [c].
Proof.
  remember (json_depth f) as n eqn:Hn. assert (Hle : json_depth f <= n) by lia. clear Hn. revert f Hle.
  induction n as [|n IH]; intros f Hle; [destruct f; cbn in Hle; lia|]. rewrite (flatten_equation f).
  destruct (is_conjunction f) as [l|] eqn:Ef.
  - intros (x & Hx & Hc)%list_elem_of_In%List.in_flat_map. apply (IH x); [|by apply list_elem_of_In].
    unfold is_conjunction in Ef. case_bool_decide; [|done]. apply list_elem_of_In in Hx.
    assert (shallower x f) as Hs by eauto with json. unfold shallower in Hs. lia.
  - intros ->%list_elem_of_singleton. by rewrite flatten_equation, Ef.
Qed.

Lemma flatten_conjunction l : flatten_conjuncts (conjunction l) = flat_map flatten_conjuncts l.
Proof. by rewrite flatten_equation. Qed.

Definition pieces (f : option Json) : list Json := match f with Some f => flatten_conjuncts f | None => [] end.

Lemma pieces_rejoin l : Forall (fun c => flatten_conjuncts c = [c]) l -> pieces (rejoin l) = l.
Proof.
  intros H. assert (Hf : flat_map flatten_conjuncts l = l).
  { induction H as [|c l Hc _ IH]; [done|]. cbn [flat_map]. by rewrite Hc, IH. }
  destruct l as [|a [|b l]]; [done| |].
  - cbn. apply Forall_cons_1 in H as [H _]. done.
  - cbn [rejoin pieces]. by rewrite flatten_conjunction.
Qed.

Lemma pieces_partition f keep : pieces (partition_conjuncts f keep) = List.filter keep (flatten_conjuncts f).
Proof.
  unfold partition_conjuncts. apply pieces_rejoin. apply List.Forall_forall. intros c Hc.
  apply List.filter_In in Hc as [Hc _]. apply list_elem_of_In in Hc. by eapply flatten_atoms.
Qed.

Lemma pieces_bind_partition (f : option Json) keep :
  pieces (f ≫= fun g => partition_conjuncts g keep) = List.filter keep (pieces f).
Proof. destruct f; [apply pieces_partition|done]. Qed.

Lemma pieces_conjoin l r : pieces (conjoin_filters l r) = (pieces l ++ pieces r)%list.
Proof. destruct l, r; cbn [conjoin_filters pieces]; rewrite ?flatten_conjunction; cbn [flat_map]; by rewrite ?app_nil_r. Qed.

Lemma pieces_conjoin_all l a : pieces (fold_left conjoin_filters l a) = (pieces a ++ flat_map pieces l)%list.
Proof.
  revert a. induction l as [|x l IH]; intros a; cbn [fold_left flat_map]; [by rewrite app_nil_r|].
  by rewrite IH, pieces_conjoin, app_assoc.
Qed.

Lemma filter_split {A} (p : A -> bool) l : l ≡ₚ (List.filter p l ++ List.filter (fun x => negb (p x)) l)%list.
Proof.
  induction l as [|x l IH]; [done|]. cbn [List.filter]. destruct (p x); cbn [negb app].
  - by rewrite <- IH.
  - by rewrite IH at 1; rewrite Permutation_middle.
Qed.

(** A list split by the index [f] gives each element. *)
Lemma filter_by_index {A} (f : A -> option nat) n l :
  (forall x i, x ∈ l -> f x = Some i -> i < n) ->
  (List.concat (map (fun i => List.filter (fun x => bool_decide (f x = Some i)) l) (seq 0 n))
     ++ List.filter (fun x => bool_decide (f x = None)) l)%list ≡ₚ l.
Proof.
  induction l as [|x l IH]; intros Hb.
  { cbn. rewrite app_nil_r. induction (seq 0 n); cbn; done. }
  specialize (IH ltac:(intros y i Hy; apply Hb; by right)). cbn [List.filter]. destruct (f x) as [i|] eqn:Ef.
  - specialize (Hb x i ltac:(by left) Ef). rewrite (bool_decide_eq_false_2 (Some i = None)) by done. cbn match.
    rewrite <- IH at 2. rewrite app_comm_cons. apply Permutation_app_tail.
    replace n with (i + S (n - S i)) by lia. rewrite !seq_app. cbn [seq]. rewrite !map_app, !concat_app. cbn [map List.concat].
    rewrite bool_decide_eq_true_2 by done. rewrite <- app_comm_cons, <- Permutation_middle. constructor.
    assert (Hne : forall s m, (forall j, j ∈ seq s m -> j <> i) ->
      map (fun j => if bool_decide (Some i = Some j) then x :: List.filter (fun x => bool_decide (f x = Some j)) l
                    else List.filter (fun x => bool_decide (f x = Some j)) l) (seq s m)
      = map (fun j => List.filter (fun x => bool_decide (f x = Some j)) l) (seq s m)).
    { intros s m Hj. apply List.map_ext_in. intros j Hin%list_elem_of_In. specialize (Hj j Hin).
      rewrite bool_decide_eq_false_2; [done|]. congruence. }
    rewrite !Hne; [done|..]; intros j Hin%list_elem_of_In%List.in_seq; lia.
  - rewrite (bool_decide_eq_true_2 (None = None)) by done. cbn match. rewrite <- Permutation_middle. constructor.
    rewrite <- IH at 2. apply Permutation_app_tail. apply Permutation_refl', (f_equal (@List.concat A)), List.map_ext. intros j.
    by rewrite bool_decide_eq_false_2.
Qed.

(** ** Every conjunct is applied once *)

Lemma insert_leg_elem x leg l : x ∈ insert_leg leg l <-> x = leg \/ x ∈ l.
Proof.
  induction l as [|y l IH]; cbn [insert_leg]; [by rewrite list_elem_of_singleton, elem_of_nil; intuition|].
  destruct (leg <? y)%nat; [by rewrite elem_of_cons|]. destruct (Nat.eqb_spec leg y) as [->|]; rewrite !elem_of_cons; intuition.
Qed.

Lemma legs_referenced_elem legs columns acc x :
  x ∈ referenced_legs (fold_left (reference legs) columns acc) ->
  x ∈ referenced_legs acc \/ exists c, c ∈ columns /\ resolve_column legs c = Leg x.
Proof.
  revert acc. induction columns as [|c columns IH]; intros acc Hx; [by left|]. apply IH in Hx as [Hx|(d & Hd & Hr)].
  - unfold reference in Hx. destruct (resolve_column legs c) as [leg| |] eqn:Er; cbn in Hx; [|by left|by left].
    apply insert_leg_elem in Hx as [->|Hx]; [right; exists c; split; [by left|done]|by left].
  - right. exists d. split; [by right|done].
Qed.

Lemma conjunct_leg_bound leaves c i : conjunct_leg (from_leaves leaves) c = Some i -> i < List.length leaves.
Proof.
  unfold conjunct_leg. case_match; [done|]. intros Hh. assert (Hi : i ∈ referenced_legs (legs_referenced (from_leaves leaves) c)).
  { destruct (referenced_legs _); [done|]. injection Hh as ->. by left. }
  unfold legs_referenced in Hi. apply legs_referenced_elem in Hi as [Hi|(d & _ & Hr)]; [by apply elem_of_nil in Hi|].
  apply resolve_leg_sound in Hr as (table & leaf & _ & Hl & _). by apply lookup_lt_Some in Hl.
Qed.

Section Once.
Context {UC : UnicodeCase} {JD : JsonDisplay} {HX : Hex}.

(** The conjuncts of its own that a leg applies. *)
Definition leg_takes (legs : JoinLegs) (leg_eligible : option Json) (i : nat) (cols : ColumnTypes) : list Json :=
  match (screened_side legs leg_eligible i cols).1 with
  | Some _ => List.filter (accepts cols) (pieces (leg_eligible ≫= leg_local_filter legs i))
  | None => []
  end.

Lemma screened_side_once legs leg_eligible i cols :
  (leg_takes legs leg_eligible i cols ++ pieces (screened_side legs leg_eligible i cols).2)%list
    ≡ₚ List.filter (fun c => bool_decide (conjunct_leg legs c = Some i)) (pieces leg_eligible).
Proof.
  rewrite <- (pieces_bind_partition leg_eligible (fun c => bool_decide (conjunct_leg legs c = Some i))).
  change (fun g => partition_conjuncts g _) with (leg_local_filter legs i).
  unfold leg_takes, screened_side. destruct (leg_eligible ≫= leg_local_filter legs i) as [local|]; [|done].
  unfold type_screened_leg_filter. destruct (partition_conjuncts local (accepts cols)) as [accepted|] eqn:Ea.
  - destruct (type_accepted_rewrite cols accepted) as [rewritten|]; cbn [fst snd app]; [|done].
    rewrite pieces_partition. cbn [pieces]. symmetry. apply filter_split.
  - cbn [fst snd app]. rewrite pieces_partition.
    assert (He : List.filter (accepts cols) (flatten_conjuncts local) = []) by (by rewrite <- pieces_partition, Ea).
    cbn [pieces]. rewrite (filter_split (accepts cols) (flatten_conjuncts local)) at 2. by rewrite He.
Qed.

(** What a leg's filter is: its accepted conjuncts, rewritten for its column types. *)
Lemma leg_takes_filter legs leg_eligible i cols :
  match (screened_side legs leg_eligible i cols).1 with
  | Some rewritten => exists accepted, rejoin (leg_takes legs leg_eligible i cols) = Some accepted
                        /\ type_accepted_rewrite cols accepted = Some rewritten
  | None => leg_takes legs leg_eligible i cols = []
  end.
Proof.
  unfold leg_takes. destruct (screened_side legs leg_eligible i cols).1 as [rewritten|] eqn:Es; [|done].
  unfold screened_side in Es. destruct (leg_eligible ≫= leg_local_filter legs i) as [local|]; [|done]. cbn [pieces].
  unfold type_screened_leg_filter in Es. change (rejoin (List.filter (accepts cols) (flatten_conjuncts local)))
    with (partition_conjuncts local (accepts cols)).
  destruct (partition_conjuncts local (accepts cols)) as [accepted|]; [|done].
  destruct (type_accepted_rewrite cols accepted) as [r|] eqn:Er; [|done]. injection Es as <-. by exists accepted.
Qed.
End Once.

(** A reading of filters under which a conjunction holds when its parts do. *)
Definition reads_conjunctions (holds : Json -> Prop) : Prop :=
  forall f l, is_conjunction f = Some l -> holds f <-> Forall holds l.

Lemma holds_flatten holds f : reads_conjunctions holds -> holds f <-> Forall holds (flatten_conjuncts f).
Proof.
  intros Hr. remember (json_depth f) as n eqn:Hn. assert (Hle : json_depth f <= n) by lia. clear Hn. revert f Hle.
  induction n as [|n IH]; intros f Hle; [destruct f; cbn in Hle; lia|]. rewrite flatten_equation.
  destruct (is_conjunction f) as [l|] eqn:Ef; [|by rewrite Forall_singleton].
  rewrite (Hr f l Ef). assert (Hall : forall x, x ∈ l -> json_depth x <= n).
  { intros x Hx. unfold is_conjunction in Ef. case_bool_decide; [|done].
    assert (shallower x f) as Hs by eauto with json. unfold shallower in Hs. lia. }
  clear Ef. induction l as [|x l IHl]; [by split|]. cbn [flat_map]. rewrite Forall_cons_iff, Forall_app.
  rewrite (IH x) by (apply Hall; by left). by rewrite IHl by (intros y Hy; apply Hall; by right).
Qed.

Section Theorem_.
Context {UC : UnicodeCase} {JD : JsonDisplay} {HX : Hex}.
Variable leaves : list JoinLeaf.
Notation legs := (from_leaves leaves).

Lemma takes_concat leg_eligible k cols_per_side :
  (List.concat (imap (fun i => leg_takes legs leg_eligible (k + i)) cols_per_side)
     ++ flat_map pieces (map snd (imap (fun i => screened_side legs leg_eligible (k + i)) cols_per_side)))%list
  ≡ₚ List.concat (map (fun i => List.filter (fun c => bool_decide (conjunct_leg legs c = Some i)) (pieces leg_eligible))
       (seq k (List.length cols_per_side))).
Proof.
  revert k. induction cols_per_side as [|cols cps IH]; intros k; [done|].
  cbn [imap map flat_map List.concat seq List.length]. rewrite Nat.add_0_r.
  rewrite <- (screened_side_once legs leg_eligible k cols), <- IH.
  rewrite !(imap_ext (_ ∘ S) (fun i => _ (S k + i))) by (intros; unfold compose; by rewrite Nat.add_succ_r).
  rewrite <- !app_assoc. apply Permutation_app_head. rewrite !app_assoc. apply Permutation_app_tail, Permutation_app_comm.
Qed.

Lemma filter_applied_once filter cols_per_side :
  List.length cols_per_side = List.length leaves ->
  (List.concat (imap (leg_takes legs (renderable_only filter)) cols_per_side)
     ++ pieces (residual_filter legs (Some filter) (screened_sides legs (renderable_only filter) cols_per_side)))%list
  ≡ₚ flatten_conjuncts filter.
Proof.
  intros Hlen. unfold residual_filter. rewrite !pieces_conjoin, pieces_conjoin_all. cbn [pieces app mbind option_bind].
  unfold screened_sides.
  change (cross_leg_residual_filter legs) with (fun f => partition_conjuncts f (fun c => bool_decide (conjunct_leg legs c = None))).
  rewrite pieces_bind_partition. unfold declined_only. rewrite pieces_partition.
  rewrite (Permutation_app_comm (_ ++ _)), app_assoc, (takes_concat (renderable_only filter) 0), Hlen, app_assoc.
  rewrite filter_by_index by (intros x i _; apply conjunct_leg_bound).
  unfold renderable_only. rewrite pieces_partition. symmetry. apply filter_split.
Qed.
End Theorem_.

(** C3. No row of a join is kept or dropped by a lost or doubled predicate: the
    conjuncts the legs apply, with those of the outer WHERE, are exactly the
    conjuncts of the request's filter, each once; a leg applies only conjuncts whose
    columns are all its own, rewritten for its column types; so the request's filter
    holds of a joined row exactly when every leg's conjuncts and the residual do. *)
Theorem join_filter_applied_once {UC : UnicodeCase} {JD : JsonDisplay} {HX : Hex} leaves cols_per_side filter :
  List.length cols_per_side = List.length leaves ->
  let eligible := renderable_only filter in
  let residual := residual_filter (from_leaves leaves) (Some filter) (screened_sides (from_leaves leaves) eligible cols_per_side) in
  exists taken : list (list Json),
    List.length taken = List.length cols_per_side
    /\ (forall i cols t, cols_per_side !! i = Some cols -> taken !! i = Some t ->
          Forall (fun c => conjunct_leg (from_leaves leaves) c = Some i) t
          /\ match (screened_side (from_leaves leaves) eligible i cols).1 with
             | Some rewritten => exists accepted, rejoin t = Some accepted /\ type_accepted_rewrite cols accepted = Some rewritten
             | None => t = []
             end)
    /\ (List.concat taken ++ pieces residual)%list ≡ₚ flatten_conjuncts filter
    /\ forall holds, reads_conjunctions holds ->
         holds filter <-> Forall holds (List.concat taken) /\ forall r, residual = Some r -> holds r.
Proof.
  intros Hlen eligible residual. exists (imap (leg_takes (from_leaves leaves) eligible) cols_per_side).
  assert (Honce := filter_applied_once leaves filter cols_per_side Hlen). split_and!.
  - apply length_imap.
  - intros i cols t Hc Ht. rewrite list_lookup_imap, Hc in Ht. injection Ht as <-. split; [|apply leg_takes_filter].
    unfold leg_takes. case_match; [|done].
    change (leg_local_filter (from_leaves leaves) i)
      with (fun f => partition_conjuncts f (fun c => bool_decide (conjunct_leg (from_leaves leaves) c = Some i))).
    rewrite pieces_bind_partition. apply List.Forall_forall. intros c [[_ Hb]%List.filter_In _]%List.filter_In.
    by apply bool_decide_eq_true in Hb.
  - exact Honce.
  - intros holds Hr. rewrite (holds_flatten holds filter Hr), <- Honce, Forall_app. f_equiv; [done|]. unfold residual.
    destruct (residual_filter _ _ _) as [r|]; cbn [pieces]; [|by split]. rewrite <- (holds_flatten holds r Hr). naive_solver.
Qed.

(** A self-join whose filter has a conjunct of each occurrence and one of both. *)
Definition occurrences : list JoinLeaf := [MkJoinLeaf "T" (Some "A") "db.t"; MkJoinLeaf "T" (Some "B") "db.t"].
Definition occurrence_column (alias : string) : Json := ColumnNode.to_json "ID" (Some "T") (Some alias).
Definition equal_to (l r : Json) : Json := json_object [("type", JString "predicate_equal"); ("left", l); ("right", r)].
Definition one : Json := json_object [("type", JString "literal_exactnumeric"); ("value", JString "1")].
Definition self_join_filter : Json :=
  conjunction [equal_to (occurrence_column "A") one; equal_to (occurrence_column "A") (occurrence_column "B")].
Definition id_columns : ColumnTypes := [(bare "ID", MkColumnType (DecimalT (MkDecimal 18 0)) None)].

Lemma join_filter_applied_once_witness :
  let eligible := renderable_only (UC := ascii_case) (JD := scalar_display) self_join_filter in
  let residual := residual_filter (UC := ascii_case) (JD := scalar_display) (from_leaves occurrences) (Some self_join_filter)
    (screened_sides (UC := ascii_case) (JD := scalar_display) (HX := plain_hex) (from_leaves occurrences) eligible [id_columns; id_columns]) in
  residual = Some (equal_to (occurrence_column "A") (occurrence_column "B"))
  /\ exists taken : list (list Json),
    List.length taken = 2 /\ (List.concat taken ++ pieces residual)%list ≡ₚ flatten_conjuncts self_join_filter.
Proof.
  intros eligible residual. split; [vm_compute; reflexivity|].
  destruct (join_filter_applied_once (UC := ascii_case) (JD := scalar_display) (HX := plain_hex) occurrences [id_columns; id_columns]
    self_join_filter eq_refl) as (taken & Hl & _ & Hp & _). exists taken. split; [exact Hl|exact Hp].
Defined.
