(* ===== verification/JoinPlanning.v ===== *)
(** crates/lakehouse-engine/src/adapter/pushdown/joins/planning.rs: the join tree of a
    request, the two sides of a broadcast, and the window a join's rows pass through. *)

From stdpp Require Import base list strings numbers gmap.
From Stdlib Require Import Ascii String ZArith NArith Lia.
From S2P Require Import Prelude Text Hex Json ColumnNode Storage ScanSpec ColumnNotes ColumnTypes ScanFiles Projection TopN TableIdentity Resolution JoinLegs.

Local Open Scope string_scope.

Inductive IneligibleJoinReason := NotInnerJoinType | UnsupportedShape.

Record DetectedJoin := MkDetectedJoin { tables : list JoinLeaf; conditions : list Json }.

Inductive JoinShape := NotAJoin | Ineligible (reason : IneligibleJoinReason) | Join (join : DetectedJoin).

(** [DetectedJoin::legs]. *)
Definition legs (join : DetectedJoin) : JoinLegs := from_leaves (tables join).

Definition is_inner (node : Json) : bool :=
  match get_str node "join_type" with Some t => eq_ignore_ascii_case t "inner" | None => false end.

(** The document's depth bounds the tree's. *)
Fixpoint collect_join_tree_fuel (fuel : nat) (node : Json) : result IneligibleJoinReason (list (string * option string) * list Json) :=
  match fuel with
  | 0 => Err UnsupportedShape
  | S fuel =>
      if bool_decide (get_str node "type" = Some "join") then
        if negb (is_inner node) then Err NotInnerJoinType
        else
          match get node "left", get node "right", get node "condition" with
          | Some l, Some r, Some condition =>
              if is_null condition then Err UnsupportedShape
              else
                let? (left_leaves, left_conditions) := collect_join_tree_fuel fuel l in
                let? (right_leaves, right_conditions) := collect_join_tree_fuel fuel r in
                Ok ((left_leaves ++ right_leaves)%list, (left_conditions ++ right_conditions ++ [condition])%list)
          | _, _, _ => Err UnsupportedShape
          end
      else if bool_decide (get_str node "type" = Some "table") then
        match get_str node "name" with
        | Some name => Ok ([(name, get_str node "alias")], [])
        | None => Err UnsupportedShape
        end
      else Err UnsupportedShape
  end.

Definition collect_join_tree (node : Json) : result IneligibleJoinReason (list (string * option string) * list Json) :=
  collect_join_tree_fuel (json_depth node) node.

Definition detect_join (parse : string -> option Json) (request pushdown_req : Json) : result UdfError JoinShape :=
  match get pushdown_req "from" with
  | None => Ok NotAJoin
  | Some from =>
      if negb (bool_decide (get_str from "type" = Some "join")) then Ok NotAJoin
      else
        match collect_join_tree from with
        | Err reason => Ok (Ineligible reason)
        | Ok (leaves, conditions) =>
            let? tables := try_map (fun '(table_name, table_alias) =>
                let? table_identifier := read_identifier parse request table_name in
                Ok (MkJoinLeaf table_name table_alias table_identifier)) leaves in
            Ok (Join (MkDetectedJoin tables conditions))
        end
  end.

(** ** Sides *)

Record ResolvedJoinSide := MkSide {
  side_table_name : string;
  side_table_identifier : string;
  side_table_root : string;
  side_files : list FileEntry;
  side_logical_schema : list LogicalField;
  side_name_mapping : list NameMappingEntry;
  side_effective_storage : StorageBackend;
  side_partition_columns : list string;
  total_bytes : N;
  side_refused_columns : list RefusedColumn;
  side_column_types : ColumnTypes;
}.

Definition U64_MAX : N := 18446744073709551615.

(** [u64::saturating_add]. *)
Definition saturating_add (a b : N) : N := N.min (a + b) U64_MAX.

Definition ResolvedJoinSide_new (table_name table_identifier : string) (resolved : ResolvedScan) (column_types : ColumnTypes) : ResolvedJoinSide :=
  MkSide table_name table_identifier (rs_table_root resolved) (rs_files resolved) (rs_logical_schema resolved) (rs_name_mapping resolved)
    (rs_effective_storage resolved) (rs_partition_columns resolved)
    (fold_left (fun acc e => saturating_add acc (size e)) (rs_files resolved) 0%N)
    (rs_refused_columns resolved) column_types.

Record JoinSides := MkSides { fact : ResolvedJoinSide; dimension : ResolvedJoinSide; broadcast_eligible : bool; dimension_leg : nat }.

Definition fact_leg (sides : JoinSides) : nat := 1 - dimension_leg sides.

Definition select_broadcast_sides (a b : ResolvedJoinSide) (join_broadcast_max_bytes : N) : JoinSides :=
  let '(dimension, fact, dimension_leg) :=
    if (total_bytes a <=? total_bytes b)%N then (a, b, 0%nat) else (b, a, 1%nat) in
  MkSides fact dimension (total_bytes dimension <=? join_broadcast_max_bytes)%N dimension_leg.

Definition resolve_one_join_side (resolve : string -> option Json -> InvolvedColumns -> result UdfError (ResolvedScan * ColumnTypes))
    (table_name table_identifier : string) (filter_json : option Json) (involved : InvolvedColumns) : result UdfError ResolvedJoinSide :=
  let? (resolved, column_types) := resolve table_identifier filter_json involved in
  Ok (ResolvedJoinSide_new table_name table_identifier resolved column_types).

Definition involved_table {UC : UnicodeCase} {JD : JsonDisplay} (request : Json) (table_name : string) : result UdfError InvolvedColumns :=
  involved_columns request (List.find (fun t => bool_decide (get_str t "name" = Some table_name))).

(** ** The window *)

Definition carries_aggregation_clause (pushdown_req : Json) : bool :=
  let has_aggregate_item :=
    match get_array pushdown_req "selectList" with
    | Some l => existsb (fun item => bool_decide (get_str item "type" = Some "function_aggregate")) l
    | None => false
    end in
  let has_group_by := match get_array pushdown_req "groupBy" with Some (_ :: _) => true | _ => false end in
  let is_group_by_aggregation := bool_decide (get_str pushdown_req "aggregationType" = Some "group_by") in
  let has_having := match get pushdown_req "having" with Some h => negb (is_null h) | None => false end in
  has_aggregate_item || has_group_by || is_group_by_aggregation || has_having.

Inductive JoinWindowPlan :=
| Unbounded
| BareLimit (n : N)
| Ordered (keys : list ParsedSortKey) (limit : option N) (offset : N)
| ExasolPostProcessed.

Definition classify_join_window {UC : UnicodeCase} (pushdown_req : Json) : JoinWindowPlan :=
  if carries_aggregation_clause pushdown_req then ExasolPostProcessed
  else
    let limit := extract_limit pushdown_req in
    let offset := extract_offset pushdown_req in
    match get_array pushdown_req "orderBy" with
    | Some ((_ :: _) as order_by) =>
        match mapM parse_sort_key_element order_by with
        | Some keys => Ordered (map KColumn keys) limit offset
        | None => ExasolPostProcessed
        end
    | _ => if negb (offset =? 0)%N then ExasolPostProcessed else match limit with Some n => BareLimit n | None => Unbounded end
    end.

(** ** A detected join is the whole FROM tree *)

(** An all-inner join tree: its leaves from left to right and its conditions, each
    after those of the subtrees it joins. *)
Inductive inner_tree : Json -> list (string * option string) -> list Json -> Prop :=
| tree_leaf node name :
    get_str node "type" = Some "table" -> get_str node "name" = Some name -> inner_tree node [(name, get_str node "alias")] []
| tree_join node l r condition ll lc rl rc :
    get_str node "type" = Some "join" -> is_inner node = true -> get node "left" = Some l -> get node "right" = Some r ->
    get node "condition" = Some condition -> is_null condition = false -> inner_tree l ll lc -> inner_tree r rl rc ->
    inner_tree node (ll ++ rl) (lc ++ rc ++ [condition]).

Lemma collect_sound fuel node leaves conds : collect_join_tree_fuel fuel node = Ok (leaves, conds) -> inner_tree node leaves conds.
Proof.
  revert node leaves conds. induction fuel as [|fuel IH]; intros node leaves conds; [done|]. cbn [collect_join_tree_fuel].
  case_bool_decide as Hj; [|case_bool_decide as Ht; [|done]; destruct (get_str node "name") eqn:En; [|done]; intros [= <- <-]; by constructor].
  destruct (is_inner node) eqn:Ei; [|done]. cbn [negb]. destruct (get node "left") as [l|] eqn:El; [|done].
  destruct (get node "right") as [r|] eqn:Er; [|done]. destruct (get node "condition") as [c|] eqn:Ec; [|done].
  destruct (is_null c) eqn:En; [done|]. destruct (collect_join_tree_fuel fuel l) as [[ll lc]|] eqn:Hl; [|done].
  destruct (collect_join_tree_fuel fuel r) as [[rl rc]|] eqn:Hr; [|done]. intros [= <- <-]. eapply tree_join; eauto.
Qed.

Lemma collect_complete node leaves conds :
  inner_tree node leaves conds -> forall fuel, json_depth node <= fuel -> collect_join_tree_fuel fuel node = Ok (leaves, conds).
Proof.
  induction 1 as [node name Ht Hn|node l r c ll lc rl rc Ht Hi El Er Ec Hn _ IHl _ IHr]; intros fuel Hd;
    (destruct fuel as [|fuel]; [destruct node; cbn in Hd; lia|]); cbn [collect_join_tree_fuel]; rewrite Ht.
  - rewrite bool_decide_eq_false_2, bool_decide_eq_true_2 by done. by rewrite Hn.
  - rewrite bool_decide_eq_true_2 by done. rewrite Hi, El, Er, Ec, Hn. cbn [negb].
    apply get_shallower in El, Er. unfold shallower in *. rewrite IHl, IHr by lia. done.
Qed.

Lemma collect_join_tree_spec node leaves conds : collect_join_tree node = Ok (leaves, conds) <-> inner_tree node leaves conds.
Proof. split; [apply collect_sound|]. intros H. by apply (collect_complete _ _ _ H). Qed.

Lemma inner_tree_counts node leaves conds : inner_tree node leaves conds -> List.length leaves = S (List.length conds).
Proof. induction 1; [done|]. rewrite !length_app. cbn. lia. Qed.

Lemma try_map_leaves {E} (f : string -> result E string) leaves tables :
  try_map (fun '(n, a) => let? id := f n in Ok (MkJoinLeaf n a id)) leaves = Ok tables ->
  map (fun t => (leaf_table_name t, leaf_table_alias t)) tables = leaves
  /\ Forall (fun t => f (leaf_table_name t) = Ok (leaf_table_identifier t)) tables.
Proof.
  revert tables. induction leaves as [|[n a] leaves IH]; intros tables; cbn [try_map]; [by intros [= <-]|].
  destruct (f n) as [id|] eqn:Ef; [|done]. destruct (try_map _ leaves) as [rest|]; [|done]. intros [= <-].
  destruct (IH rest eq_refl) as [IH1 IH2]. cbn. split; [by rewrite IH1|by constructor].
Qed.

(** C20. A join request is never planned as anything but its whole join: it is taken for
    a single-table request only when its FROM is no join node; it is declined only when
    the FROM holds a join that is not inner or a malformed node; and a detected join has
    exactly the leaves of the tree from left to right, each with the identifier of its own
    note, and every condition of every join node once, one fewer than the leaves, so that
    the first condition the broadcast reads exists. *)
Theorem detected_join_is_whole_tree parse request pushdown_req shape :
  detect_join parse request pushdown_req = Ok shape ->
  match shape with
  | NotAJoin => forall from, get pushdown_req "from" = Some from -> get_str from "type" <> Some "join"
  | Ineligible _ => exists from, get pushdown_req "from" = Some from /\ get_str from "type" = Some "join"
      /\ forall leaves conds, ~ inner_tree from leaves conds
  | Join join => exists from, get pushdown_req "from" = Some from
      /\ inner_tree from (map (fun t => (leaf_table_name t, leaf_table_alias t)) (tables join)) (conditions join)
      /\ Forall (fun t => read_identifier parse request (leaf_table_name t) = Ok (leaf_table_identifier t)) (tables join)
      /\ List.length (tables join) = S (List.length (conditions join)) /\ conditions join <> []
  end.
Proof.
  unfold detect_join. destruct (get pushdown_req "from") as [from|] eqn:Ef; [|by intros [= <-]].
  case_bool_decide as Hj; cbn [negb]; [|intros [= <-]; by intros ? [= <-]].
  destruct (collect_join_tree from) as [[leaves conds]|reason] eqn:Ec.
  - destruct (try_map _ leaves) as [ts|] eqn:Et; [|done]. intros [= <-]. exists from. cbn [tables conditions].
    apply try_map_leaves in Et as [<- Hids]. apply collect_join_tree_spec in Ec. pose proof (inner_tree_counts _ _ _ Ec) as Hn.
    rewrite length_map in Hn. split_and!; try done. inversion Ec; subst; [congruence|]. by intros [_ [_ ?]%app_nil]%app_nil.
  - intros [= <-]. exists from. split_and!; [done|done|]. intros leaves conds Ht%collect_join_tree_spec. congruence.
Qed.

Definition leaf_node (name alias : string) : Json := json_object [("type", JString "table"); ("name", JString name); ("alias", JString alias)].
Definition join_node (join_type : string) (l r condition : Json) : Json :=
  json_object [("type", JString "join"); ("join_type", JString join_type); ("left", l); ("right", r); ("condition", condition)].
Definition two_tables : Json := join_node "INNER" (leaf_node "T" "A") (leaf_node "U" "B") (JBool true).
Definition noted_table (name : string) : Json := json_object [("name", JString name); ("adapterNotes", JString name)].
Definition join_request : Json := json_object [("involvedTables", JArray [noted_table "T"; noted_table "U"])].
Definition note_of (s : string) : option Json := Some (json_object [(NOTE_NAME, JString ("db." ++ s))]).

Lemma detected_join_is_whole_tree_witness :
  exists join, detect_join note_of join_request (json_object [("from", two_tables)]) = Ok (Join join)
    /\ tables join = [MkJoinLeaf "T" (Some "A") "db.T"; MkJoinLeaf "U" (Some "B") "db.U"] /\ conditions join <> [].
Proof.
  eexists. split; [vm_compute; reflexivity|]. split; [reflexivity|].
  destruct (detected_join_is_whole_tree note_of join_request (json_object [("from", two_tables)])
    (Join (MkDetectedJoin [MkJoinLeaf "T" (Some "A") "db.T"; MkJoinLeaf "U" (Some "B") "db.U"] [JBool true])) eq_refl) as (? & ? & ? & ? & ? & H).
  exact H.
Defined.
