(* ===== verification/JoinSql.v ===== *)
(** crates/lakehouse-engine/src/adapter/pushdown/joins/sql_builders.rs: the statements
    a join request becomes - the broadcast fan-out, the N-scan wrapper - and the
    qualified single-table wrapper and empty relation that share their clauses. *)

From stdpp Require Import base list strings numbers gmap.
From Stdlib Require Import Ascii String ZArith NArith Lia.
From S2P Require Import Prelude Text Hex Json ExasolType ColumnNode Render Sharding Storage Connection ScanSpec ColumnTypes BinaryFilter ExasolRules TypeRewrites Projection TopN ScanFiles CommonSpec SealedStorage ObjectLocation DrivingSql JoinLegs JoinFilters JoinPlanning.

Local Open Scope string_scope.

Notation quote_ident := exasol_quote_ident.

Definition EXASOL_MAX_IDENTIFIER_CHARS : nat := 128.

(** [json!({"type": "pushdown", "sql": sql})]. *)
Definition pushdown_response (sql : string) : Json := json_object [("type", JString "pushdown"); ("sql", JString sql)].

Record RenderedJoinPushdown := MkRenderedJoin {
  rj_condition : string;
  rj_filter : option string;
  rj_projection : list ProjectedColumn;
  rj_window : JoinWindowPlan;
}.

(** [chars().count()] of a UTF-8 text: its bytes that start a character. *)
Fixpoint chars_count (s : string) : nat :=
  match s with
  | EmptyString => 0
  | String c s' => (if (128 <=? code c)%N && (code c <? 192)%N then 0 else 1) + chars_count s'
  end.

Definition exceeds_identifier_limit (item : ProjectionItem) : bool :=
  match item with
  | PColumn column => (EXASOL_MAX_IDENTIFIER_CHARS <? chars_count (output_name column))%nat
  | PExpr _ => false
  end.

Definition join_render_decline (clause : string) : UdfError :=
  User ("join pushdown declined: " ++ clause ++ "; this is a hard error, not a native re-plan").

Definition unattributable_decline (column : UnattributableColumn) : UdfError :=
  join_render_decline (unattributable_display column ++ " could not be attributed to a join leg, so no correct qualified reference exists").

(** [map_err(unattributable_decline)]. *)
Definition attributed {A} (r : result UnattributableColumn A) : result UdfError A :=
  match r with Ok a => Ok a | Err column => Err (unattributable_decline column) end.

Definition qualify_clause (jl : JoinLegs) (pushdown_req : Json) (qualified : Json) (clause : string) : result UdfError Json :=
  match get pushdown_req clause with
  | None => Ok qualified
  | Some value => let? tree := attributed (qualify_every_column jl value) in Ok (set_key qualified clause tree)
  end.

Definition qualify_broadcast_clauses (pushdown_req : Json) (jl : JoinLegs) : result UdfError Json :=
  let? q := qualify_clause jl pushdown_req pushdown_req "selectList" in
  let? q := qualify_clause jl pushdown_req q "filter" in
  qualify_clause jl pushdown_req q "orderBy".

(** [get(key).filter(|v| !v.is_null())]. *)
Definition get_present (j : Json) (key : string) : option Json := v ← get j key; if is_null v then None else Some v.

Section Render.
Context {UC : UnicodeCase} {JD : JsonDisplay} {HX : Hex}.

Definition render_broadcast_join (pushdown : PushdownRequest) (join : DetectedJoin) (sides : list ResolvedJoinSide)
  : result UdfError (option RenderedJoinPushdown) :=
  let jl := legs join in
  (** [conditions[0]]: a join has a condition. *)
  let? condition_tree := attributed (qualify_every_column jl (default JNull (conditions join !! 0))) in
  let? qualified_json := qualify_broadcast_clauses (json pushdown) jl in
  let qualified := with_json pushdown qualified_json in
  match render_expression_safe condition_tree with
  | None => Ok None
  | Some condition =>
      let col_types := per_relation (imap (fun leg side => (leg_alias leg, side_column_types side)) sides) in
      let '(filter, declined) := classify_where_filter col_types (get_present (json qualified) "filter") in
      match declined with
      | Some _ => Ok None
      | None =>
          let? (projection, widened) := project_columns col_types qualified in
          if (widened : bool) || existsb (fun column => exceeds_identifier_limit (item column)) projection then Ok None
          else Ok (Some (MkRenderedJoin condition filter projection (classify_join_window (json qualified))))
      end
  end.

(** ** The N-scan FROM *)

(** [usize::clamp(1, last)]. *)
Definition clamp_point (m last : nat) : nat := Nat.min (Nat.max m 1) last.

(** Where a condition goes: the ON of a join point, or the WHERE. *)
Definition condition_point (jl : JoinLegs) (last_join_point : nat) (raw : Json) : option nat :=
  m ← attachment_leg jl raw;
  if (1 <=? last_join_point)%nat then Some (clamp_point m last_join_point) else None.

Definition place_condition (jl : JoinLegs) (last_join_point : nat) (acc : list (list string) * list string) (c : Json * string)
  : list (list string) * list string :=
  match condition_point jl last_join_point c.1 with
  | Some m => (alter (fun l => (l ++ [c.2])%list) m acc.1, acc.2)
  | None => (acc.1, (acc.2 ++ [c.2])%list)
  end.

Definition place_conditions (n : nat) (jl : JoinLegs) (raw_conditions : list Json) (rendered : list string) : list (list string) * list string :=
  fold_left (place_condition jl (n - 1)) (zip raw_conditions rendered) (replicate n [], []).

Definition on_clause (conditions : list string) : string :=
  match conditions with [] => "1=1" | _ => join " AND " (map (fun c => "(" ++ c ++ ")") conditions) end.

Definition build_n_scan_join_from (fan_outs : list string) (jl : JoinLegs) (raw_conditions : list Json) (rendered : list string)
  : string * list string :=
  let '(on_at, residual) := place_conditions (List.length fan_outs) jl raw_conditions rendered in
  let join_point k fan_out := " INNER JOIN (" ++ fan_out ++ ") AS " ++ quote_ident (leg_alias (S k)) ++ " ON " ++ on_clause (default [] (on_at !! S k)) in
  match fan_outs with
  | [] => ("", residual)
  | first :: rest => ("(" ++ first ++ ") AS " ++ quote_ident (leg_alias 0) ++ String.concat "" (imap join_point rest), residual)
  end.

(** ** The wrapper's clauses *)

Definition n_full_row_qualified_items (cols_per_leg : list ColumnTypes) : list ProjectionItem :=
  List.concat (imap (fun leg cols =>
    map (fun ct : ColumnRef * ColumnType => PExpr (quote_ident (leg_alias leg) ++ "." ++ quote_ident (ScanSpec.name ct.1))) cols) cols_per_leg).

Definition render_self_applied_where (tree : Json) (jl : JoinLegs) (subject : string) : result UdfError (option string) :=
  let? filter := attributed (render_df_filter_qualified jl tree) in
  match filter with
  | Some sql => Ok (Some sql)
  | None =>
      let? expression := attributed (render_expression_qualified jl tree) in
      match expression with
      | Some _ => Ok None
      | None => Err (join_render_decline (subject ++ " could be rendered by neither dialect, so it could be applied nowhere: " ++ json_to_string tree))
      end
  end.

(** [render_expression_qualified(..)?.ok_or_else(decline)?]. *)
Definition rendered_or (jl : JoinLegs) (decline : string) (expr : Json) : result UdfError string :=
  let? rendered := attributed (render_expression_qualified jl expr) in ok_or rendered (join_render_decline decline).

Definition select_item (pushdown : PushdownRequest) (jl : JoinLegs) (select_index : nat) (item : Json) : result UdfError ProjectionItem :=
  let? sql :=
    if bool_decide (get_str item "type" = Some "literal_null") then
      let? declared := ok_or (select_type pushdown select_index) (join_render_decline "a NULL select-list item has no declared type") in
      Ok (cast_to_declared_type "NULL" declared)
    else rendered_or jl "a select-list item could not be rendered for the qualified N-scan join" item in
  Ok (PExpr sql).

Definition n_scan_join_select_items (pushdown : PushdownRequest) (jl : JoinLegs) (cols_per_leg : list ColumnTypes)
  : result UdfError (list ProjectionItem) :=
  match get (json pushdown) "selectList" with
  | Some (JArray ((_ :: _) as l)) => try_mapi (select_item pushdown jl) 0 l
  | _ => Ok (n_full_row_qualified_items cols_per_leg)
  end.

(** [as_array().filter(|a| !a.is_empty())]. *)
Definition get_elements (j : Json) (key : string) : option (list Json) :=
  a ← get_array j key; match a with [] => None | _ => Some a end.

Definition qualified_join_group_by (pushdown_req : Json) (jl : JoinLegs) : result UdfError (option string) :=
  match get_elements pushdown_req "groupBy" with
  | None => Ok None
  | Some keys =>
      let? parts := try_map (rendered_or jl "a GROUP BY key could not be rendered for the qualified N-scan join") keys in
      Ok (Some (join ", " parts))
  end.

Definition qualified_join_having (pushdown_req : Json) (jl : JoinLegs) : result UdfError (option string) :=
  match get_present pushdown_req "having" with
  | None => Ok None
  | Some having => let? sql := rendered_or jl "HAVING could not be rendered for the qualified N-scan join" having in Ok (Some sql)
  end.

Definition order_by_decline : string := "an ORDER BY key could not be rendered for the qualified N-scan join".

Definition order_by_element (jl : JoinLegs) (element : Json) : result UdfError string :=
  let? (ascending, nulls_last) := ok_or (parse_sort_flags element) (join_render_decline order_by_decline) in
  let? expr := ok_or (get element "expression") (join_render_decline order_by_decline) in
  let? rendered := rendered_or jl order_by_decline expr in
  Ok (render_ordered rendered ascending nulls_last).

Definition qualified_join_order_by (pushdown_req : Json) (jl : JoinLegs) : result UdfError (option string) :=
  match get_elements pushdown_req "orderBy" with
  | None => Ok None
  | Some elements => let? parts := try_map (order_by_element jl) elements in Ok (Some (join ", " parts))
  end.

Record OuterWrapperClauses := MkClauses { oc_select : string; oc_trailing : string }.

Definition opt_clause (keyword : string) (text : option string) : string := match text with Some t => keyword ++ t | None => "" end.

Definition outer_wrapper_clauses (pushdown : PushdownRequest) (jl : JoinLegs) (cols_per_leg : list ColumnTypes)
  : result UdfError OuterWrapperClauses :=
  let pushdown_req := json pushdown in
  let? select_items := n_scan_join_select_items pushdown jl cols_per_leg in
  let? group_by := qualified_join_group_by pushdown_req jl in
  let? having := qualified_join_having pushdown_req jl in
  let? order_by := qualified_join_order_by pushdown_req jl in
  let select := match select_items with [] => "*" | _ => join ", " (map projection_item_select_sql select_items) end in
  Ok (MkClauses select
    (opt_clause " GROUP BY " group_by ++ opt_clause " HAVING " having ++ opt_clause " ORDER BY " order_by
     ++ render_limit_offset (extract_limit pushdown_req) (extract_offset pushdown_req))).
End Render.

(** ** Statements *)

Section Builders.
Context {UC : UnicodeCase} {JD : JsonDisplay} {HX : Hex} {F : Type} {DJ : DoubleJson F}.
Context {U : Type} {SU : StoreUrls U} `{!EqDecision U} {K : Type} {SE : Sealing K}.
(** [serde_json]'s text, and the nonce drawn when a side's storage is sealed. *)
Context (print : Json -> string) (nonce_for : StorageBackend -> string).

Record JoinScanRequestConfig := MkJoinConfig {
  jc_cluster_nodes : N;
  jc_parallelism_factor : N;
  jc_df_target_partitions : N;
  jc_df_batch_size : N;
  jc_df_threads_per_udf : N;
  jc_memory_pool_fraction : F;
  jc_instance_overhead_mb : N;
  jc_s3_max_connections : N;
  jc_binary_as_string : bool;
  jc_connection : ResolvedConnectionConfig K;
}.

(** The shards of a file list; the split is total ([partition_is_exact]). *)
Definition shards_of (files : list FileEntry) (cluster_nodes parallelism_factor : N) (table_root : string) : list (list FileEntry) :=
  let g := group_count cluster_nodes parallelism_factor (N.of_nat (List.length files)) in
  relativize_shards_to_root (default [] (partition_files_by_bytes files (N.to_nat g))) table_root.

Definition shard_side (side : ResolvedJoinSide) (inputs : JoinScanRequestConfig) : list (list FileEntry) :=
  shards_of (side_files side) (jc_cluster_nodes inputs) (jc_parallelism_factor inputs) (side_table_root side).

Definition relativize_files_to_root (files : list FileEntry) (table_root : string) : list FileEntry :=
  default [] (list.last (relativize_shards_to_root [files] table_root)).

Definition scan_storage_for_side (effective : StorageBackend) (inputs : JoinScanRequestConfig) : result UdfError ScanStorage :=
  let conn := jc_connection inputs in
  scan_storage_for print (nonce_for effective) (cfg_creds conn) (cfg_connection_name conn) (cfg_allow_http conn) effective (cfg_sealed_storage_key conn).

Definition join_fan_out_scan_spec (primary : ResolvedJoinSide) (projection : list ProjectionItem) (filter : option string) (join : option JoinSpec)
    (inputs : JoinScanRequestConfig) : result UdfError (ScanSpec F) :=
  let? storage := scan_storage_for_side (side_effective_storage primary) inputs in
  Ok (MkScanSpec (MkCommon (side_table_root primary) projection filter None [] None None false (side_logical_schema primary)
        (side_name_mapping primary) join (side_partition_columns primary) storage (jc_df_target_partitions inputs) (jc_df_batch_size inputs)
        (jc_df_threads_per_udf inputs) (jc_memory_pool_fraction inputs) (jc_instance_overhead_mb inputs) (jc_s3_max_connections inputs)
        (jc_binary_as_string inputs)) []).

Definition build_side_fan_out_sql (side : ResolvedJoinSide) (columns : ColumnTypes) (side_filter : option Json) (inputs : JoinScanRequestConfig)
    (udf_name distribute_udf_name : string) : result UdfError string :=
  let projection := full_projection columns in
  let shards := shard_side side inputs in
  let filter := f ← side_filter; render_df_filter_safe (strip_table_alias f) in
  let? spec := join_fan_out_scan_spec side (projection_items projection) filter None inputs in
  Ok (build_scan_driving_sql print spec shards projection None [] None udf_name distribute_udf_name).

(** *** Broadcast *)

Definition bound_sort_key (key : ParsedSortKey) (projection : list ProjectedColumn) : option SortKey :=
  match key with
  | KColumn k =>
      if existsb (fun projected => match item projected with PColumn column => bool_decide (column = sort_column k) | PExpr _ => false end) projection
      then Some k else None
  | _ => None
  end.

Record BroadcastWindowPlacement := MkPlacement {
  shard_cap : option N;
  shard_order_by : list SortKey;
  merge_cap : option N;
  wrapper : option (list ParsedSortKey * option N * N);
}.

Definition place_broadcast_window (window : JoinWindowPlan) (projection : list ProjectedColumn) : option BroadcastWindowPlacement :=
  match window with
  | Unbounded => Some (MkPlacement None [] None None)
  | BareLimit n => Some (MkPlacement (Some n) [] (Some n) None)
  | Ordered keys limit offset =>
      bound_keys ← mapM (fun key => bound_sort_key key projection) keys;
      let '(cap, order) := match limit with
                           | Some n => if (offset =? 0)%N then (Some n, bound_keys) else (None, [])
                           | None => (None, [])
                           end in
      Some (MkPlacement cap order None (Some (keys, limit, offset)))
  | ExasolPostProcessed => None
  end.

Definition broadcast_join_spec (sides : JoinSides) (rendered : RenderedJoinPushdown) (placement : BroadcastWindowPlacement) (storage : ScanStorage)
  : JoinSpec :=
  let dimension := dimension sides in
  MkJoinSpec (side_table_root dimension) (relativize_files_to_root (side_files dimension) (side_table_root dimension))
    (side_logical_schema dimension) (side_name_mapping dimension) Inner (relation_alias (fact_leg sides))
    (relation_alias (dimension_leg sides)) (rj_condition rendered) (shard_cap placement) (shard_order_by placement)
    (side_partition_columns dimension) storage.

Definition build_broadcast_join_sql (sides : JoinSides) (rendered : RenderedJoinPushdown) (inputs : JoinScanRequestConfig)
    (udf_name distribute_udf_name : string) : result UdfError (option string) :=
  match place_broadcast_window (rj_window rendered) (rj_projection rendered) with
  | None => Ok None
  | Some placement =>
      let shards := shard_side (fact sides) inputs in
      let? storage := scan_storage_for_side (side_effective_storage (dimension sides)) inputs in
      let join := broadcast_join_spec sides rendered placement storage in
      let? spec := join_fan_out_scan_spec (fact sides) (projection_items (rj_projection rendered)) (rj_filter rendered) (Some join) inputs in
      let fan_out := build_scan_driving_sql print spec shards (rj_projection rendered) (merge_cap placement) [] None udf_name distribute_udf_name in
      match wrapper placement with
      | None => Ok (Some fan_out)
      | Some (keys, limit, offset) =>
          let items := projection (common spec) in
          let wrapped := wrap_declined_order_by fan_out items (List.length items) keys limit offset in
          Ok (if String.eqb wrapped fan_out then None else Some wrapped)
      end
  end.

(** *** N scans *)

Definition leg_fan_outs (pushdown_req all_conditions : Json) (jl : JoinLegs) (sides : list ResolvedJoinSide)
    (screened : list (option Json * option Json)) (inputs : JoinScanRequestConfig) (udf_name distribute_udf_name : string)
  : result UdfError (list string) :=
  try_mapi (fun i (ss : ResolvedJoinSide * (option Json * option Json)) =>
    let narrowed := referenced_leg_columns jl pushdown_req all_conditions i (side_column_types ss.1) in
    build_side_fan_out_sql ss.1 narrowed ss.2.1 inputs udf_name distribute_udf_name) 0 (zip sides screened).

Definition build_n_scan_join_sql (pushdown : PushdownRequest) (join : DetectedJoin) (sides : list ResolvedJoinSide)
    (inputs : JoinScanRequestConfig) (udf_name distribute_udf_name : string) : result UdfError string :=
  let cols_per_side := map side_column_types sides in
  if existsb (fun c => match c with [] => true | _ => false end) cols_per_side then
    Err (join_render_decline "an involved table carries no column metadata, so the unaccelerated N-scan fallback cannot be built")
  else
    let jl := legs join in
    if negb (leg_count jl =? List.length sides)%nat then
      Err (join_render_decline ("leg count (" ++ show_nat (leg_count jl) ++ ") and resolved-side count (" ++ show_nat (List.length sides)
        ++ ") disagree, so a leg index cannot index the resolved sides"))
    else
      let? rendered := try_map (rendered_or jl "a join condition could not be rendered against the qualified N-scan schema") (conditions join) in
      let pushdown_req := json pushdown in
      let where_filter := get_present pushdown_req "filter" in
      let screened := screened_sides jl (where_filter ≫= renderable_only) cols_per_side in
      let? fan_outs := leg_fan_outs pushdown_req (JArray (conditions join)) jl sides screened inputs udf_name distribute_udf_name in
      let? filter := match residual_filter jl where_filter screened with
                     | None => Ok None
                     | Some tree => render_self_applied_where tree jl "a residual WHERE conjunct"
                     end in
      let? clauses := outer_wrapper_clauses pushdown jl cols_per_side in
      let '(from, residual_conditions) := build_n_scan_join_from fan_outs jl (conditions join) rendered in
      let parenthesised (c : string) := "(" ++ c ++ ")" in
      let where_parts := (map parenthesised residual_conditions ++ match filter with Some f => [parenthesised f] | None => [] end)%list in
      let where_clause := match where_parts with [] => "" | _ => " WHERE " ++ Prelude.join " AND " where_parts end in
      Ok ("SELECT " ++ oc_select clauses ++ " FROM " ++ from ++ where_clause ++ oc_trailing clauses).

(** *** One table *)

(** A wrapper's columns. *)
Definition referenced_columns (pushdown_req : Json) (all_cols : ColumnTypes) : ColumnTypes :=
  if has_no_explicit_select_list pushdown_req then all_cols
  else
    let names := flat_map collect_all_column_names (referenced_clause_values pushdown_req) in
    match narrowed all_cols (fun column => existsb (String.eqb (ScanSpec.name column)) names) with
    | [] => first_only all_cols
    | referenced => referenced
    end.

Record FanOutProjection := MkFanOut { fo_spec : ScanSpec F; fo_columns : ColumnTypes }.

Definition FanOutProjection_new (base : CommonScanSpec F) (columns : ColumnTypes) : FanOutProjection :=
  MkFanOut (MkScanSpec (common_with base (projection_items (full_projection columns)) (filter_sql base) (limit base) (order_by base)
    (aggregates base) (spec_group_keys base) (distinct base)) []) columns.

Definition build_qualified_single_table_fallback_sql (request : Json) (pushdown : PushdownRequest) (fan_out : FanOutProjection)
    (shards : list (list FileEntry)) (udf_name distribute_udf_name : string) (declined_filter : option Json) : result UdfError string :=
  let jl := for_single_scan request in
  let alias := leg_alias 0 in
  let? clauses := outer_wrapper_clauses pushdown jl [fo_columns fan_out] in
  let scan := build_scan_driving_sql print (fo_spec fan_out) shards (full_projection (fo_columns fan_out)) None [] None udf_name distribute_udf_name in
  let? where_clause := match declined_filter with
                       | None => Ok None
                       | Some tree => render_self_applied_where tree jl "a declined WHERE predicate"
                       end in
  Ok ("SELECT " ++ oc_select clauses ++ " FROM (" ++ scan ++ ") AS " ++ quote_ident alias ++ opt_clause " WHERE " where_clause ++ oc_trailing clauses).

Definition qualified_single_table_fallback_pushdown (request : Json) (pushdown : PushdownRequest) (base : CommonScanSpec F) (filter : option string)
    (shards : list (list FileEntry)) (col_types : ColumnTypes) (udf_name distribute_udf_name : string) (declined_filter : option Json)
  : result UdfError Json :=
  let referenced := referenced_columns (json pushdown) col_types in
  let fan_out := FanOutProjection_new (common_with base (projection base) filter None [] None None false) referenced in
  let? sql := build_qualified_single_table_fallback_sql request pushdown fan_out shards udf_name distribute_udf_name declined_filter in
  Ok (pushdown_response sql).
End Builders.
Arguments JoinScanRequestConfig : clear implicits.

(** *** No rows *)

Record EmptyRelation := MkEmptyRelation { er_legs : JoinLegs; er_cols_per_leg : list ColumnTypes }.

Definition EmptyRelation_single_scan (request : Json) (col_types : ColumnTypes) : EmptyRelation :=
  MkEmptyRelation (for_single_scan request) [col_types].

Definition EmptyRelation_join (join : DetectedJoin) (cols_per_leg : list ColumnTypes) : EmptyRelation := MkEmptyRelation (legs join) cols_per_leg.

Definition null_column (ct : ColumnRef * ColumnType) : string :=
  "CAST(NULL AS " ++ display (exa_type ct.2) ++ ") AS " ++ quote_ident (ScanSpec.name ct.1).

Definition empty_leg (leg : nat) (cols : ColumnTypes) : string :=
  "(SELECT " ++ join ", " (map null_column cols) ++ " FROM DUAL WHERE 1=0) AS " ++ quote_ident (leg_alias leg).

Definition EmptyRelation_pushdown {UC : UnicodeCase} {JD : JsonDisplay} (relation : EmptyRelation) (pushdown : PushdownRequest) : result UdfError Json :=
  let? clauses := outer_wrapper_clauses pushdown (er_legs relation) (er_cols_per_leg relation) in
  Ok (pushdown_response ("SELECT " ++ oc_select clauses ++ " FROM " ++ join ", " (imap empty_leg (er_cols_per_leg relation)) ++ oc_trailing clauses)).
