(* ===== verification/JoinRows.v ===== *)
(** The rows of the N-scan join statement: its left-to-right chain of INNER JOINs, each
    with the conditions placed at its ON, and the conditions left to the WHERE, select
    exactly the combinations of rows that satisfy every condition of the join. *)

From stdpp Require Import base list strings numbers gmap sorting.
From Stdlib Require Import Ascii String ZArith NArith Lia Sorted.
From S2P Require Import Prelude Json ColumnNode JoinLegs JoinFilters JoinPlanning JoinSql.

Local Open Scope string_scope.

(** ** Placement *)

Lemma alter_lookup {A} (f : A -> A) m (l : list A) k : alter f m l !! k = if decide (m = k) then f <$> l !! k else l !! k.
Proof. rewrite list_lookup_alter. by destruct (decide (m = k)) as [->|]. Qed.

(** The conditions placed at [p]. *)
Definition placed (jl : JoinLegs) (last : nat) (p : option nat) (cs : list (Json * string)) : list string :=
  map snd (List.filter (fun c => bool_decide (condition_point jl last c.1 = p)) cs).

Lemma placed_snoc jl last p cs c :
  placed jl last p (cs ++ [c]) = (placed jl last p cs ++ if bool_decide (condition_point jl last c.1 = p) then [c.2] else [])%list.
Proof. unfold placed. rewrite List.filter_app, map_app. cbn [List.filter]. by destruct (bool_decide _). Qed.

Lemma place_all jl last n cs :
  let out := fold_left (place_condition jl last) cs (replicate n [], []) in
  (forall k, k < n -> out.1 !! k = Some (placed jl last (Some k) cs)) /\ out.2 = placed jl last None cs.
Proof.
  induction cs as [|c cs [IH1 IH2]] using rev_ind; cbn zeta in *.
  - cbn. split; [intros k Hk; by apply lookup_replicate_2|done].
  - rewrite fold_left_app. cbn [fold_left]. set (acc := fold_left _ cs _) in *.
    assert (Hs : forall p, placed jl last p (cs ++ [c]) = (placed jl last p cs ++ if bool_decide (condition_point jl last c.1 = p) then [c.2] else [])%list)
      by (intros p; apply placed_snoc).
    unfold place_condition. destruct (condition_point jl last c.1) as [m|] eqn:Ep; cbn [fst snd]; (split; [intros k Hk|]).
    + rewrite alter_lookup, IH1 by done. rewrite Hs. destruct (decide (m = k)) as [->|Hne]; cbn [fmap option_fmap option_map].
      * by rewrite bool_decide_eq_true_2.
      * rewrite bool_decide_eq_false_2 by congruence. by rewrite app_nil_r.
    + rewrite IH2, Hs, bool_decide_eq_false_2 by done. by rewrite app_nil_r.
    + rewrite IH1 by done. rewrite Hs, bool_decide_eq_false_2 by done. by rewrite app_nil_r.
    + by rewrite IH2, Hs, bool_decide_eq_true_2.
Qed.

(** A point is after every leg its condition reads. *)



Lemma insert_leg_sorted leg l : StronglySorted lt l -> StronglySorted lt (insert_leg leg l).
Proof.
  induction l as [|y l IH]; intros Hs; cbn [insert_leg]; [by repeat constructor|]. inversion Hs as [|? ? Hl Hy]; subst.
  destruct (Nat.ltb_spec leg y); [constructor; [done|]; constructor; [done|]; apply Forall_forall; intros z Hz; eapply Forall_forall in Hy; [|exact Hz]; lia|].
  destruct (Nat.eqb_spec leg y); [done|]. constructor; [by apply IH|]. apply Forall_forall. intros z [->|Hz]%insert_leg_elem; [lia|].
  by eapply Forall_forall in Hy.
Qed.

Lemma referenced_sorted jl columns acc :
  StronglySorted lt (referenced_legs acc) -> StronglySorted lt (referenced_legs (fold_left (reference jl) columns acc)).
Proof.
  revert acc. induction columns as [|c columns IH]; intros acc Hs; [done|]. cbn [fold_left]. apply IH. unfold reference.
  destruct (resolve_column jl c); cbn; [by apply insert_leg_sorted|done|done].
Qed.

Lemma sorted_last (l : list nat) m x : StronglySorted lt l -> list.last l = Some m -> x ∈ l -> x <= m.
Proof.
  induction 1 as [|y l Hs IH Hy]; [done|]. destruct l as [|z l]; [intros [= <-] ->%list_elem_of_singleton; lia|].
  intros Hm [->|Hx]%elem_of_cons; [|by apply IH]. pose proof (last_Some_elem_of _ _ Hm) as Hin.
  apply elem_of_cons in Hin as [->|Hin]; [lia|]. eapply Forall_forall in Hy; [|exact Hin]. lia.
Qed.

Lemma point_covers leaves raw p :
  condition_point (from_leaves leaves) (List.length leaves - 1) raw = Some p ->
  1 <= p < List.length leaves /\ has_unattributed (legs_referenced (from_leaves leaves) raw) = false
  /\ forall leg, leg ∈ referenced_legs (legs_referenced (from_leaves leaves) raw) -> leg <= p.
Proof.
  unfold condition_point. destruct (attachment_leg (from_leaves leaves) raw) as [m|] eqn:Ea; [|done]. cbn [mbind option_bind].
  destruct (Nat.leb_spec 1 (List.length leaves - 1)); [|done]. intros [= <-]. unfold attachment_leg in Ea.
  destruct (negb (any_column _) || has_unattributed _) eqn:Eu; [done|]. apply orb_false_iff in Eu as [_ Eu].
  assert (Hm : m < List.length leaves).
  { apply last_Some_elem_of in Ea. unfold legs_referenced in Ea. apply legs_referenced_elem in Ea as [Ha|(d & _ & Hr)]; [by apply elem_of_nil in Ha|].
    apply resolve_leg_sound in Hr as (table & leaf & _ & Hl & _). by apply lookup_lt_Some in Hl. }
  unfold clamp_point. split_and!; [lia|lia|done|]. intros leg Hleg.
  assert (leg <= m); [|lia]. eapply sorted_last; [|exact Ea|exact Hleg]. apply referenced_sorted. constructor.
Qed.

(** ** Rows *)

Section Rows.
Context {R : Type}.

(** Every tuple extended by every row. *)
Definition extend (tuples : list (list R)) (rel : list R) : list (list R) := flat_map (fun t => map (fun r => (t ++ [r])%list) rel) tuples.

Definition cross_from (base : list (list R)) (rels : list (list R)) : list (list R) := fold_left extend rels base.

(** FROM r0 CROSS JOIN r1 ...: all combinations. *)
Definition cross (rels : list (list R)) : list (list R) := cross_from [[]] rels.

Context (holds : string -> list R -> bool).

Definition all_hold (conditions : list string) (t : list R) : bool := forallb (fun c => holds c t) conditions.

(** The joins after the first relation, each filtered by its ON. *)
Fixpoint join_from (on : nat -> list string) (k : nat) (tuples : list (list R)) (rels : list (list R)) : list (list R) :=
  match rels with
  | [] => tuples
  | rel :: rest => join_from on (S k) (List.filter (all_hold (on k)) (extend tuples rel)) rest
  end.

Definition inner_join_chain (on_at : list (list string)) (rels : list (list R)) : list (list R) :=
  match rels with
  | [] => [[]]
  | first :: rest => join_from (fun k => default [] (on_at !! k)) 1 (extend [[]] first) rest
  end.

Lemma extend_length base rel k : Forall (fun t => List.length t = k) base -> Forall (fun t => List.length t = S k) (extend base rel).
Proof.
  intros H. apply Forall_forall. intros t (b & Hb & Ht)%list_elem_of_In%List.in_flat_map. apply List.in_map_iff in Ht as (r & <- & _).
  apply list_elem_of_In in Hb. eapply Forall_forall in H; [|exact Hb]. rewrite length_app. cbn. lia.
Qed.

Lemma filter_extend (p : list R -> bool) base rel :
  (forall t r, t ∈ base -> p (t ++ [r])%list = p t) -> extend (List.filter p base) rel = List.filter p (extend base rel).
Proof.
  intros H. unfold extend. induction base as [|t base IH]; [done|]. cbn [List.filter flat_map]. rewrite List.filter_app, <- IH by (intros; apply H; by right).
  assert (Hm : List.filter p (map (fun r => (t ++ [r])%list) rel) = if p t then map (fun r => (t ++ [r])%list) rel else []).
  { clear IH. induction rel as [|r rel IHr]; [by destruct (p t)|]. cbn [map List.filter]. rewrite H by (by left). rewrite IHr. by destruct (p t). }
  rewrite Hm. by destruct (p t).
Qed.

Lemma filter_filter (p q : list R -> bool) l : List.filter p (List.filter q l) = List.filter (fun t => q t && p t) l.
Proof. induction l as [|t l IH]; [done|]. cbn [List.filter]. destruct (q t); cbn [andb List.filter]; [destruct (p t)|]; by rewrite IH. Qed.

(** [on k] reads only legs up to [k]: it can be checked as soon as leg [k] is joined. *)
Lemma join_from_filter (on : nat -> list string) k base rels (seen : list R -> bool) :
  Forall (fun t => List.length t = k) base ->
  (forall t more, k <= List.length t -> seen (t ++ more)%list = seen t) ->
  (forall j t more, k <= j -> j < List.length t -> all_hold (on j) (t ++ more)%list = all_hold (on j) t) ->
  join_from on k (List.filter seen base) rels
    = List.filter (fun t => seen t && forallb (fun j => all_hold (on j) t) (seq k (List.length rels))) (cross_from base rels).
Proof.
  revert k base seen. induction rels as [|rel rels IH]; intros k base seen Hb Hseen Hon.
  - cbn [join_from cross_from fold_left List.length seq forallb]. apply List.filter_ext. intros t. by rewrite andb_true_r.
  - cbn [join_from]. rewrite filter_extend, filter_filter.
    2:{ intros t r Ht. apply Hseen. eapply Forall_forall in Hb; [|exact Ht]. lia. }
    rewrite IH.
    + cbn [cross_from fold_left]. apply List.filter_ext. intros t. cbn [List.length seq forallb]. by rewrite andb_assoc.
    + by apply extend_length.
    + intros t more Ht. rewrite Hseen by lia. f_equal. apply Hon; lia.
    + intros j t more Hj Ht. apply Hon; lia.
Qed.
End Rows.

(** ** The theorem *)

(** SQL scoping: a rendered condition reads only the legs its columns are qualified by. *)
Definition reads_its_legs {R} (holds : string -> list R -> bool) (jl : JoinLegs) (cs : list (Json * string)) : Prop :=
  forall raw text t t', (raw, text) ∈ cs -> has_unattributed (legs_referenced jl raw) = false ->
    (forall leg, leg ∈ referenced_legs (legs_referenced jl raw) -> t !! leg = t' !! leg) -> holds text t = holds text t'.

Section Theorem_.
Context {R : Type} (holds : string -> list R -> bool) (leaves : list JoinLeaf) (cs : list (Json * string)).
Local Notation jl := (from_leaves leaves).
Local Notation last := (List.length leaves - 1).
Hypothesis Hreads : reads_its_legs holds jl cs.

Lemma placed_reads_prefix j t more :
  j < List.length t -> all_hold holds (placed jl last (Some j) cs) (t ++ more)%list = all_hold holds (placed jl last (Some j) cs) t.
Proof.
  intros Hj. unfold all_hold, placed. assert (Hsub : forall c, c ∈ cs -> c ∈ cs) by done. revert Hsub. generalize cs at 1 3 4. intros l Hl.
  induction l as [|[raw text] l IH]; [done|]. specialize (IH ltac:(intros c Hc; apply Hl; by right)). cbn [List.filter].
  case_bool_decide as Hp; [|done]. cbn [map forallb snd]. rewrite IH. f_equal.
  apply point_covers in Hp as (_ & Hu & Hlegs). apply (Hreads raw); [apply Hl; by left|done|]. intros leg Hleg%Hlegs.
  apply lookup_app_l. lia.
Qed.

Lemma all_placed t :
  forallb (fun c => holds c.2 t) cs
    = all_hold holds (placed jl last None cs) t && forallb (fun j => all_hold holds (placed jl last (Some j) cs) t) (seq 1 (List.length leaves - 1)).
Proof.
  apply eq_true_iff_eq. rewrite andb_true_iff, !forallb_forall. unfold all_hold, placed. split.
  - intros H. split; [|intros j _]; rewrite forallb_forall; intros x (c & <- & Hc)%List.in_map_iff; apply List.filter_In in Hc as [Hc _]; by apply H.
  - intros [Hnone Hsome] c Hc. destruct (condition_point jl last c.1) as [p|] eqn:Ep.
    + pose proof (point_covers _ _ _ Ep) as (Hp & _). specialize (Hsome p). rewrite forallb_forall in Hsome. apply Hsome.
      * apply List.in_seq. lia.
      * apply List.in_map_iff. exists c. split; [done|]. apply List.filter_In. split; [done|]. by apply bool_decide_eq_true_2.
    + rewrite forallb_forall in Hnone. apply Hnone. apply List.in_map_iff. exists c. split; [done|]. apply List.filter_In.
      split; [done|]. by apply bool_decide_eq_true_2.
Qed.
End Theorem_.

(** C4. The N-scan fallback computes the join: for a join over any number of tables, the
    left-to-right chain of INNER JOINs, each filtered by the conditions placed at its own
    ON (which read only tables already joined), and then by the conditions left to the
    WHERE, gives exactly the combinations of the tables' rows that satisfy every condition
    of the join, in order, none lost and none added. *)
Theorem n_scan_join_exact {R} (holds : string -> list R -> bool) leaves raw_conditions rendered (rels : list (list R)) :
  List.length rels = List.length leaves -> List.length raw_conditions = List.length rendered ->
  reads_its_legs holds (from_leaves leaves) (zip raw_conditions rendered) ->
  let '(on_at, residual) := place_conditions (List.length leaves) (from_leaves leaves) raw_conditions rendered in
  List.filter (all_hold holds residual) (inner_join_chain holds on_at rels) = List.filter (all_hold holds rendered) (cross rels).
Proof.
  intros Hlen Hcs Hreads. unfold place_conditions. pose proof (place_all (from_leaves leaves) (List.length leaves - 1) (List.length leaves) (zip raw_conditions rendered)) as [Hon Hres].
  destruct (fold_left _ _ _) as [on_at residual]. cbn [fst snd] in *. subst residual.
  set (cs := zip raw_conditions rendered) in *. set (on := fun k => placed (from_leaves leaves) (List.length leaves - 1) (Some k) cs).
  assert (Hall : forall t, all_hold holds rendered t = forallb (fun c => holds c.2 t) cs).
  { intros t. unfold all_hold. replace rendered with (map snd cs) at 1 by (unfold cs; apply snd_zip; lia). clear.
    induction cs as [|c l IH]; [done|]. cbn [map forallb]. by rewrite IH. }
  destruct rels as [|first rels]; cbn [inner_join_chain].
  { cbn [List.length] in Hlen. apply List.filter_ext_in. intros t _. rewrite Hall, (all_placed holds leaves cs). rewrite <- Hlen. cbn. by rewrite andb_true_r. }
  assert (Hchain : join_from holds (fun k => default [] (on_at !! k)) 1 (extend [[]] first) rels = join_from holds on 1 (extend [[]] first) rels).
  { cbn [List.length] in Hlen. assert (Hk : 1 + List.length rels <= List.length leaves) by lia. revert Hk. generalize (extend [[]] first) as base. generalize 1 as k.
    clear -Hon. induction rels as [|rel rels IH]; intros k base Hk; [done|]. cbn [join_from List.length] in *. rewrite Hon by lia. cbn [default].
    unfold from_option, id. apply IH. lia. }
  rewrite Hchain.
  assert (Hid : forall l : list (list R), List.filter (fun _ => true) l = l) by (intros l; induction l as [|t l IH]; [done|]; cbn; by rewrite IH).
  rewrite <- (Hid (extend [[]] first)) at 1. rewrite (join_from_filter holds on 1 (extend [[]] first) rels (fun _ => true)).
  - rewrite filter_filter. unfold cross. cbn [cross_from fold_left]. apply List.filter_ext. intros t. rewrite Hall, (all_placed holds leaves cs).
    cbn [andb]. rewrite andb_comm. f_equal. f_equal. cbn [List.length] in Hlen. f_equal. lia.
  - apply (extend_length [[]] first 0). by constructor.
  - done.
  - intros j t more _ Hj. unfold on. by apply placed_reads_prefix.
Qed.

Definition leg_value (t : list N) (leg : nat) : N := default 0%N (t !! leg).

(** Three occurrences of one table: 1-2 and 2-3 are joined on equality. *)
Definition chain_leaves : list JoinLeaf :=
  [MkJoinLeaf "T" (Some "A") "db.t"; MkJoinLeaf "T" (Some "B") "db.t"; MkJoinLeaf "T" (Some "C") "db.t"].
Definition chain_conditions : list Json :=
  [equal_to (occurrence_column "A") (occurrence_column "B"); equal_to (occurrence_column "B") (occurrence_column "C")].
Definition chain_holds (text : string) (t : list N) : bool :=
  if String.eqb text "ab" then (leg_value t 0 =? leg_value t 1)%N else (leg_value t 1 =? leg_value t 2)%N.

Lemma chain_reads : reads_its_legs chain_holds (from_leaves chain_leaves) (zip chain_conditions ["ab"; "bc"]).
Proof.
  intros raw text t t' [[= -> ->]|[[= -> ->]|H%elem_of_nil]%elem_of_cons]%elem_of_cons _ Ht; [| |done]; unfold chain_holds; cbn;
    unfold leg_value; rewrite !Ht; try done; vm_compute; set_solver.
Qed.

Lemma n_scan_join_exact_witness :
  place_conditions 3 (from_leaves chain_leaves) chain_conditions ["ab"; "bc"] = ([[]; ["ab"]; ["bc"]], [])
  /\ List.filter (all_hold chain_holds []) (inner_join_chain chain_holds [[]; ["ab"]; ["bc"]] [[1; 2]; [2; 3]; [2; 2]]%N)
     = List.filter (all_hold chain_holds ["ab"; "bc"]) (cross [[1; 2]; [2; 3]; [2; 2]]%N).
Proof.
  split; [vm_compute; reflexivity|].
  exact (n_scan_join_exact chain_holds chain_leaves chain_conditions ["ab"; "bc"] [[1; 2]; [2; 3]; [2; 2]]%N eq_refl eq_refl chain_reads).
Defined.
