(* ===== verification/Dispatch.v ===== *)
(** crates/lakehouse-engine/src/adapter/pushdown/mod.rs, joins/mod.rs and
    empty_result.rs: the routing of a pushdown request to the statement it becomes. *)

From stdpp Require Import base list strings numbers gmap sorting.
From Stdlib Require Import Ascii String ZArith NArith Lia.
From S2P Require Import Prelude Text Hex Json ExasolType ColumnNode Render Sharding Storage Connection ScanSpec ColumnNotes ColumnTypes ExasolRules TypeRewrites Projection TopN AggPlans GroupedAgg SingleGroupAgg ScanFiles CommonSpec SealedStorage ObjectLocation Permission Properties Resolution DrivingSql JoinLegs JoinFilters JoinPlanning JoinSql.

Local Open Scope string_scope.

Definition qualify_udf (scan_schema : option string) (udf : string) : string :=
  match scan_schema with
  | Some schema => if String.eqb schema "" then udf else quote_ident schema ++ "." ++ udf
  | None => udf
  end.

Definition ineligible_join_decline (reason : IneligibleJoinReason) : UdfError :=
  let detail := match reason with
                | NotInnerJoinType => "the join is not an inner join"
                | UnsupportedShape => "the join `from` clause has an unsupported shape"
                end in
  User ("join pushdown declined: " ++ detail ++ "; the adapter cannot render this join shape, so this is a hard error, not a native re-plan").

(** ** empty_result.rs *)

Definition null_of (t : ExasolType) : string := "CAST(NULL AS " ++ display t ++ ")".

Definition no_rows (items : list string) : Json := pushdown_response ("SELECT " ++ join ", " items ++ " FROM DUAL WHERE 1=0").

Definition empty_select_list_typed_sql (select_types : list ExasolType) : Json := no_rows (map null_of select_types).

Definition empty_grouped_item (group_key_types aggregate_types : list ExasolType) (item : GroupedSelectItem) : option string :=
  match item with
  | GroupKey slot _ => null_of <$> group_key_types !! slot
  | AggregateItem slot _ => null_of <$> aggregate_types !! slot
  | Constant _ projection => Some projection
  | ScalarOverAggregate _ _ declared_type => Some (cast_to_declared_type "NULL" declared_type)
  end.

Definition empty_grouped_sql (group_key_types aggregate_types : list ExasolType) (select_items : list GroupedSelectItem) : Json :=
  no_rows (omap (empty_grouped_item group_key_types aggregate_types) (merge_sort index_le select_items)).

Definition empty_pushdown_sql (projection : list ProjectedColumn) : Json :=
  no_rows (imap (fun i column => null_of (projected_type column) ++ " AS " ++ emits_ident (item column) i) projection).

Section Empty.
Context {UC : UnicodeCase} {JD : JsonDisplay} {HX : Hex}.

Definition empty_result_sql (pushdown : PushdownRequest) (projection : list ProjectedColumn) (projection_widened : bool) (col_types : ColumnTypes)
    (relation : EmptyRelation) : result UdfError Json :=
  match classify_request_shape pushdown col_types with
  | Grouped detection _ _ =>
      let? group_key_types := group_key_exasol_types pushdown (group_keys detection) (select_items detection) in
      Ok (empty_grouped_sql group_key_types (plan_types detection) (select_items detection))
  | GroupByWrapper => Ok (empty_select_list_typed_sql (select_types pushdown))
  | SingleGroupAgg _ _ | SingleGroupWrapper => EmptyRelation_pushdown relation pushdown
  | RowScan => if projection_widened then Ok (empty_select_list_typed_sql (select_types pushdown)) else Ok (empty_pushdown_sql projection)
  end.
End Empty.

(** ** The dispatcher *)

Section Dispatch.
Context {UC : UnicodeCase} {JD : JsonDisplay} {HX : Hex} {F : Type} {DJ : DoubleJson F}.
Context {U : Type} {SU : StoreUrls U} `{!EqDecision U} {K : Type} {SE : Sealing K}.
Context (print : Json -> string) (nonce_for : StorageBackend -> string).

(** The shard-invariant spec every shape starts from. *)
Definition base_spec (table_root : string) (logical_schema : list LogicalField) (name_mapping : list NameMappingEntry) (partition_columns : list string)
    (storage : ScanStorage) (inputs : JoinScanRequestConfig F K) : CommonScanSpec F :=
  MkCommon table_root [] None None [] None None false logical_schema name_mapping None partition_columns storage
    (jc_df_target_partitions inputs) (jc_df_batch_size inputs) (jc_df_threads_per_udf inputs) (jc_memory_pool_fraction inputs)
    (jc_instance_overhead_mb inputs) (jc_s3_max_connections inputs) (jc_binary_as_string inputs).

(** The grouped arm. *)
Definition grouped_dispatch (pushdown : PushdownRequest) (base : CommonScanSpec F) (filter : option string) (limit : option N)
    (detection : GroupedAggregateDetection) (having order_by : option string) (col_types : ColumnTypes) (shards : list (list FileEntry))
    (udf_name distribute_udf_name : string) : result UdfError Json :=
  let? group_key_types := group_key_exasol_types pushdown (group_keys detection) (select_items detection) in
  let spec_template := MkScanSpec (common_with base [] filter limit [] (Some (plans detection))
    (Some (blank_pad_char_group_keys (group_keys detection) group_key_types)) false) [] in
  Ok (pushdown_response (build_grouped_aggregate_scan_sql print spec_template shards (group_keys detection) group_key_types (plans detection)
        (plan_types detection) (select_items detection) limit (extract_offset (json pushdown)) col_types udf_name distribute_udf_name having order_by)).

(** What follows the shape routing: a single-group merge or a row scan. *)
Definition scan_dispatch (request : Json) (pushdown : PushdownRequest) (projection : list ProjectedColumn) (base : CommonScanSpec F)
    (filter : option string) (limit : option N) (has_order_by : bool) (merge : option (list AggregatePlan * AggregateMergeInputs))
    (logical_schema : list LogicalField) (col_types : ColumnTypes) (shards : list (list FileEntry)) (udf_name distribute_udf_name : string)
  : result UdfError Json :=
  let pushdown_req := json pushdown in
  let aggregates := fst <$> merge in
  let has_aggregates := bool_decide (is_Some aggregates) in
  let topn := if has_aggregates then None else detect_topn request pushdown_req (projection_items projection) logical_schema in
  let order_by := default [] topn in
  let unordered := match order_by with [] => true | _ => false end in
  let effective_limit := if has_order_by && unordered then None else limit in
  let visible_count := List.length projection in
  let declined_order_by := has_order_by && unordered && negb has_aggregates in
  let declined_sort_keys := if declined_order_by then parse_order_by_keys pushdown_req else [] in
  let? _ := ensure_every_sort_key_renders declined_sort_keys in
  let projection := if declined_order_by then extend_projection_with_sort_keys projection declined_sort_keys col_types else projection in
  let proj_items := projection_items projection in
  let spec_template := MkScanSpec (common_with base (if has_aggregates then [] else proj_items) filter effective_limit order_by aggregates None false) [] in
  let sql := build_scan_driving_sql print spec_template shards projection effective_limit col_types (snd <$> merge) udf_name distribute_udf_name in
  Ok (pushdown_response
    (if declined_order_by then wrap_declined_order_by sql proj_items visible_count declined_sort_keys limit (extract_offset pushdown_req) else sql)).

Definition build_dispatch_sql (request : Json) (pushdown : PushdownRequest) (projection : list ProjectedColumn) (projection_widened : bool)
    (col_types : ColumnTypes) (filter : option string) (declined_filter : option Json) (limit : option N) (has_order_by : bool)
    (shards : list (list FileEntry)) (table_root : string) (logical_schema : list LogicalField) (name_mapping : list NameMappingEntry)
    (partition_columns : list string) (scan_storage : ScanStorage) (udf_name distribute_udf_name : string) (inputs : JoinScanRequestConfig F K)
  : result UdfError Json :=
  let base := base_spec table_root logical_schema name_mapping partition_columns scan_storage inputs in
  let fallback filter declined :=
    qualified_single_table_fallback_pushdown print request pushdown base filter shards col_types udf_name distribute_udf_name declined in
  let scan merge := scan_dispatch request pushdown projection base filter limit has_order_by merge logical_schema col_types shards udf_name distribute_udf_name in
  match declined_filter with
  | Some declined => fallback None (Some declined)
  | None =>
      match classify_request_shape pushdown col_types with
      | Grouped detection having order_by =>
          grouped_dispatch pushdown base filter limit detection having order_by col_types shards udf_name distribute_udf_name
      | GroupByWrapper | SingleGroupWrapper => fallback filter None
      | SingleGroupAgg items having =>
          if is_lone_count_distinct items then
            let distinct_spec := MkScanSpec (common_with base [] filter None [] None None false) [] in
            (** The lone item is over a column, so the statement exists. *)
            Ok (pushdown_response (default "" (build_count_distinct_scan_sql print distinct_spec shards items col_types limit udf_name distribute_udf_name)))
          else if has_distinct items then fallback filter None
          else
            let plans := ordinary_plans items in
            let plan_types := single_group_plan_types (select_types pushdown) items in
            let merge_inputs :=
              merge_select ← single_group_merge_select items plans plan_types col_types;
              inputs ← AggregateMergeInputs_new plan_types merge_select limit;
              Some (with_having inputs having) in
            match merge_inputs with
            | None => fallback filter None
            | Some merge_inputs => scan (Some (plans, merge_inputs))
            end
      | RowScan => if projection_widened then fallback filter None else scan None
      end
  end.

(** ** Joins *)

Definition ensure_no_side_refuses_a_referenced_column (request pushdown_req : Json) (sides : list ResolvedJoinSide) : result UdfError () :=
  if forallb (fun side => match side_refused_columns side with [] => true | _ => false end) sides then Ok tt
  else
    let emits_unnamed_row := has_no_explicit_select_list pushdown_req in
    let? _ := try_map (fun side =>
      let touched := (possible_side_column_names request (side_table_name side)
        ++ if emits_unnamed_row then map (fun ct : ColumnRef * ColumnType => ScanSpec.name ct.1) (side_column_types side) else [])%list in
      ensure_no_touched_column_is_refused touched (side_refused_columns side)) sides in
    Ok tt.

Definition is_equi (join : DetectedJoin) : bool := bool_decide ((conditions join !! 0 ≫= fun c => get_str c "type") = Some "predicate_equal").

(** The resolved half of [plan_join]: the sides are in leg order. *)
Definition plan_resolved_join (request : Json) (pushdown : PushdownRequest) (join : DetectedJoin) (sides : list ResolvedJoinSide)
    (inputs : JoinScanRequestConfig F K) (scan_schema : option string) (join_broadcast_max_bytes : N) : result UdfError Json :=
  let pushdown_req := json pushdown in
  let? _ := ensure_no_side_refuses_a_referenced_column request pushdown_req sides in
  if existsb (fun s => match side_files s with [] => true | _ => false end) sides then
    let combined := concat_types (map side_column_types sides) in
    let? (projection, widened) := project_columns combined pushdown in
    empty_result_sql pushdown projection widened combined (EmptyRelation_join join (map side_column_types sides))
  else
    let udf_name := qualify_udf scan_schema SCAN_UDF_NAME in
    let distribute_udf_name := qualify_udf scan_schema DISTRIBUTE_FILES_UDF_NAME in
    let n_scan :=
      let? sql := build_n_scan_join_sql print nonce_for pushdown join sides inputs udf_name distribute_udf_name in
      Ok (pushdown_response sql) in
    let post_processed := match classify_join_window pushdown_req with ExasolPostProcessed => true | _ => false end in
    match sides with
    | [a; b] =>
        if is_equi join && negb post_processed then
          let candidate := select_broadcast_sides a b join_broadcast_max_bytes in
          if broadcast_eligible candidate then
            let? rendered := render_broadcast_join pushdown join sides in
            match rendered with
            | None => n_scan
            | Some rendered =>
                let? sql := build_broadcast_join_sql print nonce_for candidate rendered inputs udf_name distribute_udf_name in
                match sql with Some sql => Ok (pushdown_response sql) | None => n_scan end
            end
          else n_scan
        else n_scan
    | _ => n_scan
    end.

Definition plan_join (for_request : list string -> result UdfError ())
    (resolve : string -> option Json -> InvolvedColumns -> result UdfError (ResolvedScan * ColumnTypes))
    (request : Json) (pushdown : PushdownRequest) (join : DetectedJoin) (inputs : JoinScanRequestConfig F K) (scan_schema : option string)
    (join_broadcast_max_bytes : N) : result UdfError Json :=
  let filter := get_present (json pushdown) "filter" in
  let? _ := for_request (map leaf_table_identifier (tables join)) in
  let jl := legs join in
  let? involved := try_map (fun leaf => involved_table request (leaf_table_name leaf)) (tables join) in
  let? sides := try_mapi (fun leg (li : JoinLeaf * InvolvedColumns) =>
      resolve_one_join_side resolve (leaf_table_name li.1) (leaf_table_identifier li.1) (f ← filter; leg_local_filter jl leg f) li.2)
    0 (zip (tables join) involved) in
  plan_resolved_join request pushdown join sides inputs scan_schema join_broadcast_max_bytes.

(** ** The request *)

Definition handle_pushdown (parse : string -> option Json) (for_request : list string -> result UdfError ())
    (resolve : string -> option Json -> InvolvedColumns -> result UdfError (ResolvedScan * ColumnTypes))
    (request : Json) (table : string) (inputs : JoinScanRequestConfig F K) (scan_schema : option string) (join_broadcast_max_bytes : N)
  : result UdfError Json :=
  let? pushdown := PushdownRequest_parse (default JNull (get request "pushdownRequest")) in
  let? shape := detect_join parse request (json pushdown) in
  match shape with
  | Ineligible reason => Err (ineligible_join_decline reason)
  | Join join => plan_join for_request resolve request pushdown join inputs scan_schema join_broadcast_max_bytes
  | NotAJoin =>
      let pushdown := with_json pushdown (strip_table_alias (json pushdown)) in
      let pushdown_req := json pushdown in
      let filter_json_raw := get_present pushdown_req "filter" in
      let? involved := involved_columns request head in
      let limit := extract_limit pushdown_req in
      let has_order_by := order_by_present pushdown_req in
      let? _ := for_request [table] in
      let? (scan, col_types) := resolve table filter_json_raw involved in
      let? (projection, projection_widened) := project_columns col_types pushdown in
      let '(filter, declined_filter) := classify_where_filter col_types filter_json_raw in
      let conn := jc_connection inputs in
      let? scan_storage := scan_storage_for print (nonce_for (rs_effective_storage scan)) (cfg_creds conn) (cfg_connection_name conn)
        (cfg_allow_http conn) (rs_effective_storage scan) (cfg_sealed_storage_key conn) in
      let? _ := ensure_no_refused_column_referenced request
        (if projection_widened then None else Some (projection_items projection)) (rs_refused_columns scan) in
      match rs_files scan with
      | [] => empty_result_sql pushdown projection projection_widened col_types (EmptyRelation_single_scan request col_types)
      | files =>
          let shards := shards_of files (jc_cluster_nodes inputs) (jc_parallelism_factor inputs) (rs_table_root scan) in
          build_dispatch_sql request pushdown projection projection_widened col_types filter declined_filter limit has_order_by shards
            (rs_table_root scan) (rs_logical_schema scan) (rs_name_mapping scan) (rs_partition_columns scan) scan_storage
            (qualify_udf scan_schema SCAN_UDF_NAME) (qualify_udf scan_schema DISTRIBUTE_FILES_UDF_NAME) inputs
      end
  end.
End Dispatch.

(** ** Every statement scans the whole table under its filter *)

(** A statement built around [inner]. *)
Definition around (inner sql : string) : Prop := exists pre post, sql = pre ++ inner ++ post.

Lemma around_refl s : around s s.
Proof. exists "", "". by rewrite string_app_nil_r. Qed.

Lemma around_app inner sql a b : around inner sql -> around inner (a ++ sql ++ b).
Proof. intros (pre & post & ->). exists (a ++ pre), (post ++ b). by rewrite !string_app_assoc. Qed.

Lemma around_right inner sql a : around inner sql -> around inner (a ++ sql).
Proof. intros H. rewrite <- (string_app_nil_r sql). by apply around_app. Qed.

Lemma around_left inner sql b : around inner sql -> around inner (sql ++ b).
Proof. apply (around_app inner sql ""). Qed.

Lemma around_stats inner plans keys : around inner (with_stat_grand_means inner plans keys).
Proof.
  unfold with_stat_grand_means. destruct (stat_slots plans); [apply around_refl|].
  auto 12 using around_left, around_right, around_refl.
Qed.

Create HintDb statements.
#[export] Hint Resolve around_refl around_left around_right around_stats : statements.

Section Faithful.
Context {UC : UnicodeCase} {JD : JsonDisplay} {HX : Hex} {F : Type} {DJ : DoubleJson F}.
Context (print : Json -> string).

(** The table a spec reads, whatever the request asks of it. *)
Definition reads_table (base : CommonScanSpec F) (spec : ScanSpec F) : Prop :=
  let c := common spec in
  table_root c = table_root base /\ logical_schema c = logical_schema base /\ name_mapping c = name_mapping base
  /\ partition_columns c = partition_columns base /\ storage c = storage base /\ join_spec c = None.

(** The WHERE of a COUNT(DISTINCT col). *)
Definition not_null_filter (filter : option string) (col : string) : string :=
  let null_pred := "(" ++ exasol_quote_ident col ++ " IS NOT NULL)" in
  match filter with Some f => if String.eqb f "" then null_pred else "(" ++ f ++ ") AND " ++ null_pred | None => null_pred end.

Definition applies_filter (filter : option string) (spec : ScanSpec F) : Prop :=
  filter_sql (common spec) = filter
  \/ (distinct (common spec) = true /\ exists col, filter_sql (common spec) = Some (not_null_filter filter col)).

(** A shard stops early when it scans rows under a LIMIT: a spec with aggregates runs
    [ScanSql.build_partial_sql], which has none. *)
Definition stops_early (spec : ScanSpec F) : Prop := aggregates (common spec) = None /\ limit (common spec) <> None.

(** The text after a row scan's fan-out. *)
Definition window_clause (order_by : list SortKey) (limit : option N) : string :=
  match order_by with [] => "" | keys => " ORDER BY " ++ render_order_by_clause keys end ++ limit_clause limit.

(** A shard stops early only when the whole statement is that fan-out under the shard's own
    order and LIMIT, which is the request's: nothing groups, filters, deduplicates or
    reorders the shards' rows afterwards. *)
Definition limit_is_safe (lim : option N) (has_order_by : bool) (spec : ScanSpec F) (inner sql : string) : Prop :=
  stops_early spec ->
  limit (common spec) = lim /\ distinct (common spec) = false /\ (has_order_by = false \/ order_by (common spec) <> [])
  /\ sql = inner ++ window_clause (order_by (common spec)) (limit (common spec)).

(** What the spec of a statement reads. *)
Definition reads (base : CommonScanSpec F) (filter : option string) (spec : ScanSpec F) : Prop :=
  reads_table base spec /\ applies_filter filter spec.

(** The statement runs the scan of a spec over all shards. *)
Definition fans_out (base : CommonScanSpec F) (filter : option string) (lim : option N) (has_order_by : bool)
    (shards : list (list FileEntry)) (udf_name distribute_udf_name sql : string) : Prop :=
  exists spec emits, let inner := build_fan_out_inner print spec shards emits udf_name distribute_udf_name in
    around inner sql /\ reads base filter spec /\ limit_is_safe lim has_order_by spec inner sql.

(** A spec that never stops early may sit anywhere in the statement. *)
Lemma driving_fans_out base filter lim0 has_order_by spec shards projection lim cols merge udf dist sql :
  around (build_scan_driving_sql print spec shards projection lim cols merge udf dist) sql -> reads base filter spec -> ~ stops_early spec ->
  fans_out base filter lim0 has_order_by shards udf dist sql.
Proof.
  intros (pre & post & ->) HP Hs. unfold build_scan_driving_sql, fans_out.
  destruct (aggregates (common spec)) as [plans|]; [destruct merge as [inputs|]|].
  all: eexists spec, _; cbv zeta; split; [|split; [exact HP|by intros ?]].
  all: try unfold build_row_scan_sql; try unfold build_aggregate_scan_sql; apply around_app; auto 12 with statements.
Qed.

(** A row scan under its own window is the whole statement. *)
Lemma row_scan_fans_out base filter has_order_by spec shards projection cols udf dist :
  aggregates (common spec) = None -> distinct (common spec) = false -> (has_order_by = false \/ order_by (common spec) <> []) ->
  reads base filter spec ->
  fans_out base filter (limit (common spec)) has_order_by shards udf dist
    (build_scan_driving_sql print spec shards projection (limit (common spec)) cols None udf dist).
Proof.
  intros Ha Hd Ho HP. unfold build_scan_driving_sql. rewrite Ha. eexists spec, _. cbv zeta. split; [|split; [exact HP|]].
  - unfold build_row_scan_sql. auto with statements.
  - intros _. split_and!; [done..|]. unfold build_row_scan_sql, window_clause. by destruct (order_by (common spec)).
Qed.

Lemma around_trans a b c : around a b -> around b c -> around a c.
Proof. intros H (pre & post & ->). by apply around_app. Qed.

Lemma wrap_around sql items visible keys lim off : around sql (wrap_declined_order_by sql items visible keys lim off).
Proof. unfold wrap_declined_order_by. destruct (String.eqb _ ""); auto 12 with statements. Qed.

Definition answers (base : CommonScanSpec F) (filter : option string) (lim : option N) (has_order_by : bool) (shards : list (list FileEntry))
    (udf dist : string) (response : Json) : Prop :=
  exists sql, response = pushdown_response sql /\ fans_out base filter lim has_order_by shards udf dist sql.

Lemma grouped_safe pushdown base filter lim detection having ord cols shards udf dist lim0 has_order_by response :
  join_spec base = None ->
  grouped_dispatch print pushdown base filter lim detection having ord cols shards udf dist = Ok response ->
  answers base filter lim0 has_order_by shards udf dist response.
Proof.
  intros Hj. unfold grouped_dispatch. destruct (group_key_exasol_types _ _ _) as [types|]; [|done]. intros [= <-]. eexists. split; [done|].
  unfold build_grouped_aggregate_scan_sql. eexists (MkScanSpec (without_limit _) _), _. cbv zeta. split.
  - rewrite <- !string_app_assoc. apply around_left, around_left, around_left, around_left, around_left. rewrite !string_app_assoc. auto 12 with statements.
  - split; [split; [done|by left]|by intros [_ []]].
Qed.

Lemma lone_distinct_safe base filter items cols lim shards udf dist lim0 has_order_by :
  join_spec base = None -> is_lone_count_distinct items = true ->
  answers base filter lim0 has_order_by shards udf dist
    (pushdown_response (default "" (build_count_distinct_scan_sql print (MkScanSpec (common_with base [] filter None [] None None false) [])
                                      shards items cols lim udf dist))).
Proof.
  intros Hj Hl. unfold is_lone_count_distinct in Hl. destruct items as [|[|dc|] [|]]; try done.
  destruct (distinct_column dc) as [col|] eqn:Ed; [|done]. eexists. split; [done|]. unfold build_count_distinct_scan_sql, build_distinct_fan_out.
  rewrite Ed. cbn [mbind option_bind default from_option]. unfold id. eexists _, _. cbv zeta. split; [auto 12 with statements|].
  split; [split; [done|]|by intros [_ []]]. right. split; [done|]. exists col. done.
Qed.

Lemma fallback_safe request pushdown base filter cols shards udf dist declined lim0 has_order_by response :
  join_spec base = None ->
  qualified_single_table_fallback_pushdown print request pushdown base filter shards cols udf dist declined = Ok response ->
  answers base filter lim0 has_order_by shards udf dist response.
Proof.
  intros Hj. unfold qualified_single_table_fallback_pushdown, build_qualified_single_table_fallback_sql.
  destruct (outer_wrapper_clauses _ _ _) as [clauses|]; [|done].
  destruct (match declined with None => Ok None | Some tree => _ end) as [w|]; [|done]. intros [= <-]. eexists. split; [done|].
  eapply driving_fans_out; [auto 12 with statements|split; [done|by left]|by intros [_ []]].
Qed.

Lemma scan_safe request pushdown projection base filter lim has_order_by merge schema cols shards udf dist response :
  join_spec base = None ->
  scan_dispatch print request pushdown projection base filter lim has_order_by merge schema cols shards udf dist = Ok response ->
  answers base filter lim has_order_by shards udf dist response.
Proof.
  intros Hj. unfold scan_dispatch. set (topn := if bool_decide _ then None else _). destruct (ensure_every_sort_key_renders _) as [[]|]; [|done].
  intros [= <-]. eexists. split; [done|]. set (ob := default [] topn). destruct merge as [[plans inputs]|].
  { rewrite (andb_false_r (has_order_by && _)). eapply driving_fans_out; [apply around_refl|split; [done|by left]|by intros [? _]]. }
  cbn [fmap option_fmap option_map]. rewrite (bool_decide_eq_false_2 (is_Some None)) by (intros [? ?]; done). rewrite andb_true_r.
  destruct (has_order_by && _) eqn:Eo.
  - eapply driving_fans_out; [apply wrap_around|split; [done|by left]|by intros [_ []]].
  - eapply (row_scan_fans_out base filter has_order_by (MkScanSpec (common_with base _ filter lim ob None None false) [])); [done|done| |split; [done|by left]].
    destruct has_order_by; [right|by left]. cbn [common common_with order_by]. intros E. by rewrite E in Eo.
Qed.

Lemma dispatch_safe request pushdown projection widened cols filter declined lim has_order_by shards root schema mapping partitions st udf dist
    {K} (inputs : JoinScanRequestConfig F K) response :
  let base := base_spec root schema mapping partitions st inputs in
  build_dispatch_sql print request pushdown projection widened cols filter declined lim has_order_by shards root schema mapping partitions st udf dist inputs
    = Ok response ->
  answers base (match declined with Some _ => None | None => filter end) lim has_order_by shards udf dist response.
Proof.
  intros base. unfold build_dispatch_sql. fold base. assert (Hj : join_spec base = None) by done.
  destruct declined as [d|]; [by apply fallback_safe|]. destruct (classify_request_shape pushdown cols) as [detection having ord| |items having| |].
  - by apply grouped_safe.
  - by apply fallback_safe.
  - destruct (is_lone_count_distinct items) eqn:El; [intros [= <-]; by apply lone_distinct_safe|].
    destruct (has_distinct items); [by apply fallback_safe|]. destruct (mbind _ _); [by apply scan_safe|by apply fallback_safe].
  - by apply fallback_safe.
  - destruct widened; [by apply fallback_safe|by apply scan_safe].
Qed.

(** A declined WHERE becomes the wrapper's own. *)
Lemma declined_where request pushdown base cols shards udf dist d response :
  qualified_single_table_fallback_pushdown print request pushdown base None shards cols udf dist (Some d) = Ok response ->
  exists pre fan_out w rest,
    render_self_applied_where d (for_single_scan request) "a declined WHERE predicate" = Ok w
    /\ response = pushdown_response (pre ++ fan_out ++ ") AS " ++ quote_ident (leg_alias 0) ++ opt_clause " WHERE " w ++ rest).
Proof.
  unfold qualified_single_table_fallback_pushdown, build_qualified_single_table_fallback_sql.
  destruct (outer_wrapper_clauses _ _ _) as [clauses|]; [|done]. destruct (render_self_applied_where _ _ _) as [w|] eqn:Ew; [|done]. intros [= <-].
  set (fan_out := build_scan_driving_sql _ _ _ _ _ _ _ _ _).
  exists ("SELECT " ++ oc_select clauses ++ " FROM ("), fan_out, w, (oc_trailing clauses). split; [done|]. by rewrite !string_app_assoc.
Qed.
End Faithful.


Definition plain_config : ResolvedConnectionConfig string :=
  MkConfig "https://catalog" (Adls "acct" (Sas "sas")) (parse_creds JNull) false IcebergRest "C" None.
Definition plain_inputs : JoinScanRequestConfig string string := MkJoinConfig 4 2 8 8192 4 "0.6" 200 16 false plain_config.
Definition id_projection : list ProjectedColumn := [MkProjected (PColumn (bare "ID")) (DecimalT (MkDecimal 18 0))].
Definition limited_request : PushdownRequest :=
  Projection.MkPushdown (json_object [("selectList", JArray [ColumnNode.to_json "ID" None None]); ("limit", json_object [("numElements", JNumber (PosInt 3))])])
    [DecimalT (MkDecimal 18 0)].
Definition plain_file : FileEntry := {| path := "a.parquet"; size := 9; deletes := []; partition_values := ∅ |}.


(** ** A refused column is never answered *)

Section Refusals.
Context {UC : UnicodeCase} {JD : JsonDisplay} {HX : Hex} {F : Type} {DJ : DoubleJson F}.
Context {U : Type} {SU : StoreUrls U} `{!EqDecision U} {K : Type} {SE : Sealing K}.
Context (print : Json -> string) (nonce_for : StorageBackend -> string).

Lemma untouched touched refused c :
  ensure_no_touched_column_is_refused touched refused = Ok tt -> c ∈ refused -> to_uppercase (column_name c) ∉ touched.
Proof. intros H Hc Ht. destruct (touched_refused touched refused c Hc Ht) as [e He]. congruence. Qed.

Lemma sides_untouched request pushdown_req sides side c :
  ensure_no_side_refuses_a_referenced_column request pushdown_req sides = Ok tt -> side ∈ sides -> c ∈ side_refused_columns side ->
  to_uppercase (column_name c) ∉ possible_side_column_names request (side_table_name side)
  /\ (has_no_explicit_select_list pushdown_req = true -> to_uppercase (column_name c) ∉ map (fun ct : ColumnRef * ColumnType => ScanSpec.name ct.1) (side_column_types side)).
Proof.
  unfold ensure_no_side_refuses_a_referenced_column. intros H Hs Hc. destruct (forallb _ sides) eqn:Ea.
  { rewrite forallb_forall in Ea. apply list_elem_of_In in Hs. apply Ea in Hs. destruct (side_refused_columns side); [by apply elem_of_nil in Hc|done]. }
  destruct (try_map _ sides) as [out|] eqn:Et; [|done]. destruct (try_map_elem _ _ _ side Et Hs) as ([] & Hside & _).
  pose proof (untouched _ _ _ Hside Hc) as Hn. rewrite elem_of_app in Hn. split; [by intros Hin; apply Hn; left|].
  intros Hl Hin. apply Hn. right. by rewrite Hl.
Qed.
End Refusals.

