(* ===== verification/PartitionValues.v ===== *)
(** crates/lakehouse-engine/src/scan/partition_values.rs: a table's columns split into
    the ones its data files hold and the ones its log records once per file, the
    remapping between the two orders, the typed value of each, and the grouping of
    files by the partition columns they carry. *)

From stdpp Require Import base list strings numbers gmap sorting.
From Stdlib Require Import Ascii String ZArith NArith Lia.
From S2P Require Import Prelude Text Hex ArrowTypes ScanFiles.

Local Open Scope string_scope.

(** DataFusion's [ScalarValue], a dependency: the conversion of a text to a type, the
    typed NULL, and the partial order of two scalars. *)
Class ScalarOps := {
  try_from_string : string -> DataType -> result string ScalarValue;
  try_new_null : DataType -> result string ScalarValue;
  partial_cmp : ScalarValue -> ScalarValue -> option comparison;
  type_display : DataType -> string;
  hex_error : string -> string;
}.

(** ** One value *)

Definition non_null_partition_value (logged : option string) : option string :=
  match logged with Some v => if String.eqb v "" then None else Some v | None => None end.

Section Scalar.
Context {HX : Hex} {SO : ScalarOps}.

Definition partition_scalar (value : string) (t : DataType) : result string ScalarValue :=
  if negb (is_binary t) then try_from_string value t
  else
    let? bytes := ok_or (hex_decode value) ("a binary partition value must be hex: " ++ hex_error value) in
    match t with
    | TFixedSizeBinary width =>
        if bool_decide (width = Z.of_nat (String.length bytes))
        then Ok (SvBytes (TFixedSizeBinary width) bytes)
        else Err ("a fixed(" ++ show_Z width ++ ") partition value must hold " ++ show_Z width
                  ++ " bytes, not " ++ show_nat (String.length bytes))
    | TLargeBinary => Ok (SvBytes TLargeBinary bytes)
    | TBinaryView => Ok (SvBytes TBinaryView bytes)
    | _ => Ok (SvBytes TBinary bytes)
    end.
End Scalar.

(** ** The split *)

(** [TableSchema]: the file's columns, then the partition columns. *)
Record PartitionedScanSchema := MkScanSchema {
  declared : list Field;
  file_fields : list Field;
  table_partition_cols : list Field;
  scan_index_by_declared : list nat;
}.

(** The columns in the order DataFusion numbers them. *)
Definition scan_fields (s : PartitionedScanSchema) : list Field := (file_fields s ++ table_partition_cols s)%list.

(** [Schema::index_of]. *)
Definition index_of (fields : list Field) (name : string) : option nat :=
  position (fun f => String.eqb (field_name f) name) fields.

Fixpoint partition_positions (fields : list Field) (position : nat) (names : list string) (acc : gmap string nat)
    : result string (gmap string nat) :=
  match names with
  | [] => Ok acc
  | name :: names' =>
      match index_of fields name with
      | None => Err ("partition column '" ++ name ++ "' is not declared in the table's logical schema")
      | Some _ =>
          match acc !! name with
          | Some _ => Err ("partition column '" ++ name ++ "' is named twice in the table's partition columns")
          | None => partition_positions fields (S position) names' (<[name := position]> acc)
          end
      end
  end.

(** The loop over the declared fields: the file fields and the partition slots met
    so far, the declared index of each slot, and the scan index of each file field. *)
Record SplitState := MkSplit {
  st_file : list Field;
  st_slots : list (nat * Field);
  st_declared : list (nat * nat);
  st_index : list nat;
}.

Fixpoint split_fields (position_of : gmap string nat) (index : nat) (fields : list Field) (st : SplitState)
    : result string SplitState :=
  match fields with
  | [] => Ok st
  | f :: fields' =>
      match position_of !! field_name f with
      | Some position =>
          if existsb (fun slot => (slot.1 =? position)%nat) (st_slots st)
          then Err ("partition column '" ++ field_name f ++ "' matches more than one field in the table's logical schema")
          else split_fields position_of (S index) fields'
                 (MkSplit (st_file st) (st_slots st ++ [(position, f)])%list
                    (st_declared st ++ [(index, position)])%list (st_index st))
      | None =>
          split_fields position_of (S index) fields'
            (MkSplit (st_file st ++ [f])%list (st_slots st) (st_declared st)
               (<[index := List.length (st_file st)]> (st_index st)))
      end
  end.

(** [slice::sort_by_key] on the slot's position. *)
Definition slot_le (a b : nat * Field) : Prop := a.1 <= b.1.

#[export] Instance slot_le_dec : RelDecision slot_le.
Proof. intros a b. unfold slot_le. apply _. Defined.

(** The second loop: a partition column sits behind the file's columns. *)
Definition assign_partitions (file_count : nat) (pairs : list (nat * nat)) (indices : list nat) : list nat :=
  fold_left (fun (l : list nat) '(declared_index, position) => <[declared_index := file_count + position]> l) pairs indices.

Definition split_schema (fields : list Field) (partition_columns : list string) : result string PartitionedScanSchema :=
  match partition_columns with
  | [] => Ok (MkScanSchema fields fields [] (seq 0 (List.length fields)))
  | _ =>
      let? position_of := partition_positions fields 0 partition_columns ∅ in
      let? st := split_fields position_of 0 fields (MkSplit [] [] [] (replicate (List.length fields) 0)) in
      let file_count := List.length (st_file st) in
      let indices := assign_partitions file_count (st_declared st) (st_index st) in
      Ok (MkScanSchema fields (st_file st) (map snd (merge_sort slot_le (st_slots st))) indices)
  end.

(** [None] when an index is out of range, where the source panics. *)
Definition remap_projection (s : PartitionedScanSchema) (projection : option (list nat)) : option (option (list nat)) :=
  match table_partition_cols s with
  | [] => Some projection
  | _ =>
      let declared_indices := match projection with Some l => l | None => seq 0 (List.length (declared s)) end in
      l ← mapM (fun i => scan_index_by_declared s !! i) declared_indices;
      Some (Some l)
  end.

Section Values.
Context {HX : Hex} {SO : ScalarOps}.

Definition partition_value_for (entry : FileEntry) (f : Field) : result string ScalarValue :=
  let? logged :=
    ok_or (partition_values entry !! field_name f)
      ("data file '" ++ path entry ++ "' logs no partition value for partition column '" ++ field_name f ++ "'") in
  match non_null_partition_value logged with
  | Some value =>
      match partition_scalar value (field_type f) with
      | Ok v => Ok v
      | Err e => Err ("partition value '" ++ value ++ "' for column '" ++ field_name f ++ "' is not a valid "
                      ++ type_display (field_type f) ++ " (" ++ e ++ ")")
      end
  | None =>
      match try_new_null (field_type f) with
      | Ok v => Ok v
      | Err e => Err ("partition column '" ++ field_name f ++ "' cannot hold a null value of its declared type "
                      ++ type_display (field_type f) ++ " (" ++ e ++ ")")
      end
  end.

Definition partition_values_for (s : PartitionedScanSchema) (entry : FileEntry) : result string (list ScalarValue) :=
  try_map (partition_value_for entry) (table_partition_cols s).
End Values.

(** ** Groups of files *)

Record PartitionedScanGroups := MkScanGroups {
  groups_declared : list Field;
  groups : list PartitionedScanSchema;
  group_by_file : list nat;
}.

(** A [BTreeMap]'s keys, in order. *)
Definition sorted_keys (m : gmap string (option string)) : list string :=
  map fst (merge_sort key_le (map_to_list m)).

(** The listed columns, then the entry's other declared keys. *)
Definition group_columns (fields : list Field) (partition_columns : list string) (entry : FileEntry) : list string :=
  (partition_columns
   ++ List.filter (fun key => negb (bool_decide (key ∈ partition_columns)) && bool_decide (is_Some (index_of fields key)))
        (sorted_keys (partition_values entry)))%list.

Fixpoint group_files (fields : list Field) (partition_columns : list string) (files : list FileEntry)
    (groups : list PartitionedScanSchema) (by_columns : gmap (list string) nat) (by_file : list nat)
    : result string (list PartitionedScanSchema * list nat) :=
  match files with
  | [] => Ok (groups, by_file)
  | entry :: files' =>
      let columns := group_columns fields partition_columns entry in
      match by_columns !! columns with
      | Some group => group_files fields partition_columns files' groups by_columns (by_file ++ [group])%list
      | None =>
          let? schema := split_schema fields columns in
          let group := List.length groups in
          group_files fields partition_columns files' (groups ++ [schema])%list (<[columns := group]> by_columns)
            (by_file ++ [group])%list
      end
  end.

Definition split_groups (fields : list Field) (partition_columns : list string) (files : list FileEntry)
    : result string PartitionedScanGroups :=
  let? (groups, by_file) := group_files fields partition_columns files [] ∅ [] in
  match groups with
  | [] => let? schema := split_schema fields partition_columns in Ok (MkScanGroups fields [schema] by_file)
  | _ => Ok (MkScanGroups fields groups by_file)
  end.

(** [None] where the source's indexing panics. *)
Definition group_of (g : PartitionedScanGroups) (file_index : nat) : option nat := group_by_file g !! file_index.

(** ** The split keeps every column *)

Lemma index_of_Some fields name i : index_of fields name = Some i -> exists f, fields !! i = Some f /\ field_name f = name.
Proof. intros (f & Hf & E%String.eqb_eq & _)%position_Some. by exists f. Qed.

Lemma partition_positions_spec fields pos names acc m :
  partition_positions fields pos names acc = Ok m ->
  (forall n p, acc !! n = Some p -> m !! n = Some p) /\
  (forall n p, m !! n = Some p -> acc !! n = Some p \/ (pos <= p /\ names !! (p - pos) = Some n)) /\
  (forall i n, names !! i = Some n -> m !! n = Some (pos + i) /\ is_Some (index_of fields n)).
Proof.
  revert pos acc. induction names as [|name names IH]; intros pos acc; cbn; [intros [= <-]; by split_and!; eauto|].
  destruct (index_of fields name) as [j|] eqn:Ej; [|done]. destruct (acc !! name) eqn:Ea; [done|].
  intros (H1 & H2 & H3)%IH. split_and!.
  - intros n p Hp. apply H1. rewrite lookup_insert_ne; [done|]. intros ->. congruence.
  - intros n p Hp. apply H2 in Hp as [Hp|[Hle Hp]].
    + destruct (decide (name = n)) as [->|Hne].
      * rewrite lookup_insert_eq in Hp. injection Hp as <-. right. split; [done|]. by rewrite Nat.sub_diag.
      * rewrite lookup_insert_ne in Hp by done. by left.
    + right. split; [lia|]. replace (p - pos) with (S (p - S pos)) by lia. done.
  - intros [|i] n; cbn.
    + intros [= <-]. rewrite Nat.add_0_r. split; [|by eexists]. apply H1. by rewrite lookup_insert_eq.
    + intros Hn. apply H3 in Hn as [Hn Hi]. split; [|done]. rewrite Hn. f_equal. lia.
Qed.

Section Split.
Context (all : list Field) (m : gmap string nat).

(** What the loop knows after the fields before [index]. *)
Record SplitInv (index : nat) (st : SplitState) : Prop := {
  inv_length : List.length (st_index st) = List.length all;
  inv_file i f : i < index -> all !! i = Some f -> m !! field_name f = None ->
    exists j, st_index st !! i = Some j /\ st_file st !! j = Some f;
  inv_file_inj i i' j f f' : i < index -> i' < index -> all !! i = Some f -> all !! i' = Some f' ->
    m !! field_name f = None -> m !! field_name f' = None ->
    st_index st !! i = Some j -> st_index st !! i' = Some j -> i = i';
  inv_declared i p : (i, p) ∈ st_declared st <-> i < index /\ exists f, all !! i = Some f /\ m !! field_name f = Some p;
  inv_slots p f : (p, f) ∈ st_slots st <-> exists i, i < index /\ all !! i = Some f /\ m !! field_name f = Some p;
  inv_slots_nodup : NoDup (map fst (st_slots st));
  inv_same : map fst (st_slots st) = map snd (st_declared st);
  inv_declared_nodup : NoDup (map fst (st_declared st));
}.

Lemma split_step_partition index f p st :
  all !! index = Some f -> m !! field_name f = Some p -> p ∉ map fst (st_slots st) -> SplitInv index st ->
  SplitInv (S index) (MkSplit (st_file st) (st_slots st ++ [(p, f)])%list (st_declared st ++ [(index, p)])%list (st_index st)).
Proof.
  intros Hf Hp Hnew [H1 H2 H3 H4 H5 H6 H7 H8]. split; cbn [st_file st_slots st_declared st_index]; try done.
  - intros i g Hi Hg Hm. apply H2; [|done..]. destruct (decide (i = index)); [congruence|lia].
  - intros i i' j g g' Hi Hi' Hg Hg' Hm Hm' Hj Hj'. eapply H3; try done.
    + destruct (decide (i = index)); [congruence|lia].
    + destruct (decide (i' = index)); [congruence|lia].
  - intros i q. rewrite elem_of_app, list_elem_of_singleton, H4. split.
    + intros [[Hi (g & Hg)]|[= -> ->]]; [split; [lia|by exists g]|split; [lia|by exists f]].
    + intros [Hi (g & Hg & Hm)]. destruct (decide (i = index)) as [->|]; [right; congruence|left; split; [lia|by exists g]].
  - intros q g. rewrite elem_of_app, list_elem_of_singleton, H5. split.
    + intros [(i & Hi & Hg)|[= -> ->]]; [exists i; split; [lia|done]|exists index; by split; [lia|]].
    + intros (i & Hi & Hg & Hm). destruct (decide (i = index)) as [->|]; [right; congruence|left; exists i; by split; [lia|]].
  - rewrite map_app. apply NoDup_app. split; [done|]. split; [|repeat constructor; set_solver]. set_solver.
  - by rewrite !map_app, H7.
  - rewrite map_app. apply NoDup_app. split; [done|]. split; [|repeat constructor; set_solver].
    cbn. intros i Hi ->%list_elem_of_singleton. apply list_elem_of_fmap in Hi as ([i' q] & E & Hi). cbn in E. subst i'.
    apply H4 in Hi as [Hi _]. lia.
Qed.

Lemma split_step_file index f st :
  all !! index = Some f -> m !! field_name f = None -> SplitInv index st ->
  SplitInv (S index) (MkSplit (st_file st ++ [f])%list (st_slots st) (st_declared st)
                        (<[index := List.length (st_file st)]> (st_index st))).
Proof.
  intros Hf Hm [H1 H2 H3 H4 H5 H6 H7 H8]. split; cbn [st_file st_slots st_declared st_index]; try done.
  - by rewrite length_insert.
  - intros i g Hi Hg Hmg. destruct (decide (i = index)) as [->|Hne].
    + assert (g = f) as -> by congruence. exists (List.length (st_file st)). split.
      * apply list_lookup_insert_eq. rewrite H1. by eapply lookup_lt_Some.
      * by rewrite list_lookup_middle.
    + destruct (H2 i g ltac:(lia) Hg Hmg) as (j & Hj & Hjf). exists j. split; [by rewrite list_lookup_insert_ne|].
      by apply lookup_app_l_Some.
  - intros i i' j g g' Hi Hi' Hg Hg' Hmg Hmg' Hj Hj'.
    assert (forall k h j, k < S index -> k <> index -> all !! k = Some h -> m !! field_name h = None ->
              st_index st !! k = Some j -> j < List.length (st_file st)) as Hlt.
    { intros k h j0 Hk Hne Hh Hmh Hk0. destruct (H2 k h ltac:(lia) Hh Hmh) as (j1 & Hj1 & Hf1).
      assert (j1 = j0) as -> by congruence. by eapply lookup_lt_Some. }
    destruct (decide (i = index)) as [->|Hne], (decide (i' = index)) as [->|Hne']; try done.
    + rewrite list_lookup_insert_eq in Hj by (rewrite H1; by eapply lookup_lt_Some). injection Hj as <-.
      rewrite list_lookup_insert_ne in Hj' by done. pose proof (Hlt i' g' _ Hi' Hne' Hg' Hmg' Hj'). lia.
    + rewrite list_lookup_insert_eq in Hj' by (rewrite H1; by eapply lookup_lt_Some). injection Hj' as <-.
      rewrite list_lookup_insert_ne in Hj by done. pose proof (Hlt i g _ Hi Hne Hg Hmg Hj). lia.
    + rewrite list_lookup_insert_ne in Hj, Hj' by done. eapply (H3 i i' j g g'); try done; lia.
  - intros i q. rewrite H4. split; [intros [Hi Hr]; split; [lia|done]|].
    intros [Hi (g & Hg & Hq)]. split; [|by exists g]. destruct (decide (i = index)); [congruence|lia].
  - intros q g. rewrite H5. split; [intros (i & Hi & Hr); exists i; split; [lia|done]|].
    intros (i & Hi & Hg & Hq). exists i. split; [|done]. destruct (decide (i = index)); [congruence|lia].
Qed.

Lemma split_fields_inv rest index st st' :
  rest = drop index all -> SplitInv index st -> split_fields m index rest st = Ok st' ->
  SplitInv (List.length all) st'.
Proof.
  revert index st. induction rest as [|f rest IH]; intros index st Hrest Hinv; cbn [split_fields].
  - intros [= <-].
    assert (List.length all <= index) as Hlen by (apply (f_equal List.length) in Hrest; rewrite length_drop in Hrest; cbn in Hrest; lia).
    destruct Hinv as [H1 H2 H3 H4 H5 H6 H7 H8]. split; try done.
    + intros i g Hi. apply H2. lia.
    + intros i i' j g g' Hi Hi'. apply H3; lia.
    + intros i p. rewrite H4. split; intros [Hi (g & Hg)]; (split; [|by exists g]); [|lia].
      destruct Hg as [Hg _]. by eapply lookup_lt_Some.
    + intros p g. rewrite H5. split; intros (i & Hi & Hg); exists i; (split; [|done]); [|lia].
      destruct Hg as [Hg _]. by eapply lookup_lt_Some.
  - assert (all !! index = Some f) as Hf by (rewrite <- (Nat.add_0_r index), <- lookup_drop, <- Hrest; done).
    assert (rest = drop (S index) all) as Hrest'.
    { rewrite <- Nat.add_1_r, <- drop_drop, <- Hrest. done. }
    destruct (m !! field_name f) as [p|] eqn:Em.
    + destruct (existsb _ (st_slots st)) eqn:Eb; [done|]. apply IH; [done|]. apply split_step_partition; try done.
      intros Hin. apply not_true_iff_false in Eb. apply Eb, existsb_exists.
      apply list_elem_of_fmap in Hin as ([q g] & Eq & Hin). cbn in Eq. subst q. exists (p, g).
      split; [by apply list_elem_of_In|apply Nat.eqb_refl].
    + apply IH; [done|]. by apply split_step_file.
Qed.
End Split.

Lemma fold_assign_length c (pairs : list (nat * nat)) l :
  List.length (assign_partitions c pairs l) = List.length l.
Proof. unfold assign_partitions. revert l. induction pairs as [|[i p] pairs IH]; intros l; [done|]. cbn. by rewrite IH, length_insert. Qed.

Lemma fold_assign_other c (pairs : list (nat * nat)) l i :
  i ∉ map fst pairs -> assign_partitions c pairs l !! i = l !! i.
Proof.
  unfold assign_partitions. revert l. induction pairs as [|[j p] pairs IH]; intros l Hi; [done|]. cbn in *.
  rewrite not_elem_of_cons in Hi. rewrite IH by naive_solver. apply list_lookup_insert_ne. naive_solver.
Qed.

Lemma fold_assign_here c (pairs : list (nat * nat)) l i p :
  NoDup (map fst pairs) -> (i, p) ∈ pairs -> i < List.length l ->
  assign_partitions c pairs l !! i = Some (c + p).
Proof.
  revert l. induction pairs as [|[j q] pairs IH]; intros l Hn Hin Hi; [by apply elem_of_nil in Hin|].
  cbn [assign_partitions fold_left map fst] in *. change (fold_left _ pairs ?x) with (assign_partitions c pairs x).
  apply NoDup_cons in Hn as [Hj Hn]. apply elem_of_cons in Hin as [[= -> ->]|Hin].
  - rewrite fold_assign_other by done. by apply list_lookup_insert_eq.
  - apply IH; [done..|]. by rewrite length_insert.
Qed.

#[local] Instance slot_le_total : Total slot_le.
Proof. intros a b. unfold slot_le. lia. Qed.

#[local] Instance slot_le_trans : Transitive slot_le.
Proof. intros a b c. unfold slot_le. lia. Qed.

Lemma sorted_fst l : Sorted slot_le l -> Sorted le (map fst l).
Proof.
  induction 1 as [|x l Hl IH Hx]; [constructor|]. cbn. constructor; [done|].
  destruct Hx; cbn; constructor. done.
Qed.

Lemma seq_sorted i n : Sorted le (seq i n).
Proof.
  revert i. induction n as [|n IH]; intros i; cbn; [constructor|]. constructor; [apply IH|].
  destruct n; cbn; constructor. lia.
Qed.

(** The partition columns in partition order: slot [p] is at index [p]. *)
Lemma slots_in_order slots k :
  map fst slots ≡ₚ seq 0 k -> forall p f, (p, f) ∈ slots -> map snd (merge_sort slot_le slots) !! p = Some f.
Proof.
  intros Hperm p f Hin.
  assert (map fst (merge_sort slot_le slots) = seq 0 k) as E.
  { apply (Sorted_unique le); [|apply seq_sorted|].
    - apply sorted_fst, Sorted_merge_sort, _.
    - rewrite <- Hperm. apply fmap_Permutation, merge_sort_Permutation. }
  rewrite <- (merge_sort_Permutation slot_le) in Hin. apply list_elem_of_lookup_1 in Hin as [i Hi].
  assert (i = p) as ->.
  { assert (map fst (merge_sort slot_le slots) !! i = Some p) as Hp by (rewrite list_lookup_fmap, Hi; done).
    rewrite E in Hp. apply lookup_seq in Hp. lia. }
  by rewrite list_lookup_fmap, Hi.
Qed.

(** What a split promises: the scan index of each declared column is that column, no
    two share one, and the partition columns come in partition order. *)
Definition split_ok (fields : list Field) (partition_columns : list string) (s : PartitionedScanSchema) : Prop :=
  List.length (scan_index_by_declared s) = List.length fields /\
  (forall i f, fields !! i = Some f ->
     exists j, scan_index_by_declared s !! i = Some j /\ scan_fields s !! j = Some f) /\
  NoDup (scan_index_by_declared s) /\
  map field_name (table_partition_cols s) = partition_columns.

Lemma split_partitioned fields cols m st :
  partition_positions fields 0 cols ∅ = Ok m -> SplitInv fields m (List.length fields) st ->
  split_ok fields cols
    (MkScanSchema fields (st_file st) (map snd (merge_sort slot_le (st_slots st)))
       (assign_partitions (List.length (st_file st)) (st_declared st) (st_index st))).
Proof.
  intros (_ & Hm & Hcols)%partition_positions_spec [H1 H2 H3 H4 H5 H6 H7 H8].
  assert (forall n p, m !! n = Some p -> cols !! p = Some n) as Hpos.
  { intros n p Hp. apply Hm in Hp as [Hp|[_ Hp]]; [by rewrite lookup_empty in Hp|]. by rewrite Nat.sub_0_r in Hp. }
  assert (map fst (st_slots st) ≡ₚ seq 0 (List.length cols)) as Hperm.
  { apply NoDup_Permutation; [done|apply NoDup_seq|]. intros p. rewrite elem_of_seq. split.
    - intros ([q f] & -> & Hin)%list_elem_of_fmap. apply H5 in Hin as (i & Hi & Hf & Hp). apply Hpos, lookup_lt_Some in Hp. cbn. lia.
    - intros [_ Hp]. apply lookup_lt_is_Some in Hp as [n Hn]. destruct (Hcols p n Hn) as [Hmn [i Hi]].
      apply index_of_Some in Hi as (f & Hf & <-). apply list_elem_of_fmap. exists (p, f). split; [done|].
      apply H5. exists i. split; [by eapply lookup_lt_Some|done]. }
  assert (forall i f, fields !! i = Some f -> m !! field_name f = None -> i ∉ map fst (st_declared st)) as Hnot.
  { intros i f Hf Hn Hin. apply list_elem_of_fmap in Hin as ([i' p] & E & Hin). cbn in E. subst i'.
    apply H4 in Hin as (_ & g & Hg & Hp). congruence. }
  assert (forall i f p, fields !! i = Some f -> m !! field_name f = Some p -> (i, p) ∈ st_declared st) as Hdecl.
  { intros i f p Hf Hp. apply H4. split; [by eapply lookup_lt_Some|by exists f]. }
  unfold split_ok, scan_fields. cbn [scan_index_by_declared file_fields table_partition_cols]. split_and!.
  - by rewrite fold_assign_length.
  - intros i f Hf. pose proof (lookup_lt_Some _ _ _ Hf) as Hi. destruct (m !! field_name f) as [p|] eqn:Em.
    + eexists. split; [apply fold_assign_here; [done|by eapply Hdecl|by rewrite H1]|].
      rewrite lookup_app_r by lia. replace (List.length (st_file st) + p - List.length (st_file st)) with p by lia.
      eapply slots_in_order; [exact Hperm|]. apply H5. by exists i.
    + destruct (H2 i f Hi Hf Em) as (j & Hj & Hjf). exists j.
      rewrite fold_assign_other by (by eapply Hnot). split; [done|]. by apply lookup_app_l_Some.
  - apply NoDup_alt. intros i i' j Hj Hj'.
    assert (forall k, assign_partitions (List.length (st_file st)) (st_declared st) (st_index st) !! k = Some j ->
      exists f, fields !! k = Some f /\ (m !! field_name f = None /\ st_index st !! k = Some j /\ j < List.length (st_file st) \/
         exists p, m !! field_name f = Some p /\ j = List.length (st_file st) + p)) as Hcase.
    { intros k Hk. assert (k < List.length fields) as Hlt by (apply lookup_lt_Some in Hk; by rewrite fold_assign_length, H1 in Hk).
      pose proof Hlt as [f Hf]%lookup_lt_is_Some. exists f. split; [done|]. destruct (m !! field_name f) as [p|] eqn:Em.
      - right. exists p. split; [done|]. rewrite (fold_assign_here _ _ _ k p) in Hk; [congruence|done|by eapply Hdecl|by rewrite H1].
      - left. rewrite fold_assign_other in Hk by (by eapply Hnot). split; [done|]. split; [done|].
        destruct (H2 k f Hlt Hf Em) as (j' & Hj0 & Hjf). assert (j' = j) as -> by congruence. by eapply lookup_lt_Some. }
    destruct (Hcase i Hj) as (f & Hf & [(Em & Hi & Hlt)|(p & Em & ->)]),
             (Hcase i' Hj') as (f' & Hf' & [(Em' & Hi' & Hlt')|(p' & Em' & E)]); try lia.
    + eapply H3; [by eapply lookup_lt_Some|by eapply (lookup_lt_Some _ _ _ Hf')|done..].
    + assert (p' = p) as -> by lia.
      pose proof (Hdecl i f p Hf Em) as D. pose proof (Hdecl i' f' p Hf' Em') as D'.
      assert (NoDup (map snd (st_declared st))) as Hnd by (by rewrite <- H7).
      clear -D D' Hnd. revert D D' Hnd. generalize (st_declared st) as l. induction l as [|[a b] l IH]; [by intros ?%elem_of_nil|].
      cbn. intros D D' [Hb Hnd]%NoDup_cons. apply elem_of_cons in D as [D|D], D' as [D'|D']; simplify_eq; try done.
      * exfalso. apply Hb, list_elem_of_fmap. by exists (i', b).
      * exfalso. apply Hb, list_elem_of_fmap. by exists (i, b).
      * by apply IH.
  - apply list_eq. intros p.
    assert (forall p f, map snd (merge_sort slot_le (st_slots st)) !! p = Some f -> cols !! p = Some (field_name f)) as Hslot.
    { intros q f Hq. assert (q ∈ map fst (st_slots st)) as Hqin.
      { rewrite Hperm. apply elem_of_seq. apply lookup_lt_Some in Hq.
        rewrite length_map, (Permutation_length (merge_sort_Permutation slot_le (st_slots st))) in Hq.
        apply Permutation_length in Hperm. rewrite length_map, length_seq in Hperm. lia. }
      apply list_elem_of_fmap in Hqin as ([q' g] & E & Hqin). cbn in E. subst q'.
      rewrite (slots_in_order _ _ Hperm q g Hqin) in Hq. injection Hq as ->.
      apply H5 in Hqin as (i & _ & _ & Hp). by apply Hpos. }
    rewrite list_lookup_fmap. destruct (map snd _ !! p) as [f|] eqn:Ef; cbn; [by rewrite (Hslot p f Ef)|].
    symmetry. apply lookup_ge_None. apply lookup_ge_None in Ef.
    rewrite length_map, (Permutation_length (merge_sort_Permutation slot_le (st_slots st))) in Ef.
    apply Permutation_length in Hperm. rewrite length_map, length_seq in Hperm. lia.
Qed.

Lemma split_schema_ok fields partition_columns s :
  split_schema fields partition_columns = Ok s -> split_ok fields partition_columns s.
Proof.
  unfold split_schema. destruct partition_columns as [|c cols].
  - intros [= <-]. unfold split_ok, scan_fields. cbn [scan_index_by_declared file_fields table_partition_cols].
    split_and!; [by rewrite length_seq| |apply NoDup_seq|done].
    intros i f Hf. exists i. rewrite app_nil_r. split; [|done]. rewrite lookup_seq_lt; [done|by eapply lookup_lt_Some].
  - destruct (partition_positions _ _ _ _) as [m|] eqn:Em; [|done].
    destruct (split_fields _ _ _ _) as [st|] eqn:Es; [|done]. intros [= <-].
    apply (split_partitioned _ _ m); [done|]. eapply split_fields_inv; [|..|exact Es]; [done|].
    split; cbn; try done; try lia.
    + apply length_replicate.
    + intros i p. split; [by intros ?%elem_of_nil|lia].
    + intros p f. split; [by intros ?%elem_of_nil|]. intros (i & Hi & _). lia.
    + constructor.
    + constructor.
Qed.

Lemma split_schema_declared fields partition_columns s :
  split_schema fields partition_columns = Ok s -> declared s = fields.
Proof.
  unfold split_schema. destruct partition_columns; [by intros [= <-]|].
  destruct (partition_positions _ _ _ _); [|done]. destruct (split_fields _ _ _ _); [|done]. by intros [= <-].
Qed.

(** A split accepts a table only one-to-one: every declared column keeps its own scan
    index, the column there is that column with its name, type, nullability and
    metadata, no two columns share an index, and the partition columns follow the
    file's in partition order. *)
Theorem split_schema_one_to_one fields partition_columns s :
  split_schema fields partition_columns = Ok s -> split_ok fields partition_columns s.
Proof. apply split_schema_ok. Qed.

(** A projection of the declared columns, remapped, reads the same columns in the same
    order; without a projection, the whole row in declared order. *)
Theorem remap_projection_reads_declared fields partition_columns s projection indices :
  split_schema fields partition_columns = Ok s -> partition_columns <> [] ->
  remap_projection s projection = Some (Some indices) ->
  map (fun j => scan_fields s !! j) indices
    = map (fun i => fields !! i) (match projection with Some l => l | None => seq 0 (List.length fields) end).
Proof.
  intros Hs Hne Hr. pose proof (split_schema_declared _ _ _ Hs) as Hd.
  destruct (split_schema_ok _ _ _ Hs) as (Hlen & Hidx & _ & Hnames).
  unfold remap_projection in Hr. destruct (table_partition_cols s) as [|c cs] eqn:Ec; [by rewrite <- Hnames in Hne|].
  rewrite Hd in Hr. destruct (mapM _ _) as [l|] eqn:El; [|done]. injection Hr as ->.
  apply mapM_Some in El. induction El as [|i j xs ys Hj _ IH]; [done|]. cbn. f_equal; [|exact IH].
  assert (i < List.length fields) as [f Hf]%lookup_lt_is_Some by (rewrite <- Hlen; by eapply lookup_lt_Some).
  destruct (Hidx i f Hf) as (j' & Hj' & Hjf). assert (j' = j) as -> by congruence. by rewrite Hf.
Qed.

(** ** Groups *)

(** A group planned for these columns. *)
Definition planned (fields : list Field) (groups : list PartitionedScanSchema) (columns : list string) (g : nat) : Prop :=
  exists schema, groups !! g = Some schema /\ split_schema fields columns = Ok schema.

Lemma planned_app fields gs gs' columns g : planned fields gs columns g -> planned fields (gs ++ gs')%list columns g.
Proof. intros (schema & Hg & Hs). exists schema. split; [by apply lookup_app_l_Some|done]. Qed.

Lemma group_files_planned fields cols files gs by_columns by_file gs' by_file' done_ :
  (forall columns g, by_columns !! columns = Some g -> planned fields gs columns g) ->
  Forall2 (fun entry g => planned fields gs (group_columns fields cols entry) g) done_ by_file ->
  group_files fields cols files gs by_columns by_file = Ok (gs', by_file') ->
  Forall2 (fun entry g => planned fields gs' (group_columns fields cols entry) g) (done_ ++ files)%list by_file'.
Proof.
  revert gs by_columns by_file done_. induction files as [|entry files IH]; intros gs by_columns by_file done_ Hby Hdone.
  - cbn. intros [= <- <-]. by rewrite app_nil_r.
  - cbn [group_files]. destruct (by_columns !! group_columns fields cols entry) as [g|] eqn:Eg.
    + intros H. apply (IH _ _ _ (done_ ++ [entry])%list) in H; [by rewrite <- app_assoc in H|done|].
      apply Forall2_app; [done|]. constructor; [by apply Hby|constructor].
    + destruct (split_schema fields _) as [schema|] eqn:Es; [|done]. intros H.
      assert (planned fields (gs ++ [schema])%list (group_columns fields cols entry) (List.length gs)) as Hnew.
      { exists schema. split; [by rewrite list_lookup_middle|done]. }
      apply (IH _ _ _ (done_ ++ [entry])%list) in H; [by rewrite <- app_assoc in H| |].
      * intros columns g [[<- <-]|[_ Hg]]%lookup_insert_Some; [done|]. by apply planned_app, Hby.
      * apply Forall2_app; [|by constructor]. eapply Forall2_impl; [exact Hdone|]. intros. by apply planned_app.
Qed.

(** Every file of the list has a group, that group is the split over exactly the
    partition columns the file carries, and there is always a group to plan. *)
Theorem split_groups_cover_files fields cols files g :
  split_groups fields cols files = Ok g ->
  groups g <> [] /\
  (forall i entry, files !! i = Some entry ->
     exists n, group_of g i = Some n /\ planned fields (groups g) (group_columns fields cols entry) n).
Proof.
  unfold split_groups. destruct (group_files _ _ _ _ _ _) as [[gs by_file]|] eqn:E; [|done].
  apply (group_files_planned _ _ _ _ _ _ _ _ []) in E; [|by intros ? ? ?%lookup_empty_Some|constructor]. cbn [app] in E.
  intros H. assert (group_by_file g = by_file /\ (files <> [] -> groups g = gs) /\ groups g <> []) as (Hf & Hgs & Hne).
  { destruct gs as [|s gs]; [|by injection H as <-]. destruct (split_schema fields cols) as [s|]; [|done]. injection H as <-.
    split; [done|]. split; [|done]. intros Hfiles. exfalso. destruct files; [done|].
    apply Forall2_cons_inv_l in E as (n & ? & (s' & Hs' & _) & _). by rewrite lookup_nil in Hs'. }
  split; [done|]. intros i entry Hi. destruct (Forall2_lookup_l _ _ _ _ _ E Hi) as (n & Hn & Hp).
  exists n. unfold group_of. rewrite Hf. split; [done|]. rewrite Hgs; [done|]. intros ->. done.
Qed.

(** ** Concrete runs *)

Definition plain_field (name : string) (t : DataType) : Field := MkField name t true ∅.

Definition sample_fields : list Field :=
  [plain_field "day" TDate32; plain_field "id" TInt64; plain_field "region" TUtf8; plain_field "total" TFloat64].

Definition sample_split : PartitionedScanSchema :=
  MkScanSchema sample_fields [plain_field "id" TInt64; plain_field "total" TFloat64]
    [plain_field "region" TUtf8; plain_field "day" TDate32] [3; 0; 2; 1].

Lemma sample_split_eq : split_schema sample_fields ["region"; "day"] = Ok sample_split.
Proof. vm_compute. reflexivity. Qed.

Lemma split_schema_one_to_one_witness : NoDup (scan_index_by_declared sample_split).
Proof.
  destruct (split_schema_one_to_one sample_fields ["region"; "day"] sample_split sample_split_eq) as (_ & _ & H & _). exact H.
Defined.

Lemma remap_projection_reads_declared_witness :
  map (fun j => scan_fields sample_split !! j) [3; 0] = map (fun i => sample_fields !! i) [0; 1].
Proof.
  apply (remap_projection_reads_declared sample_fields ["region"; "day"] sample_split (Some [0; 1]) [3; 0]);
    [exact sample_split_eq|discriminate|reflexivity].
Defined.

(** Two files of an evolved table: only the second carries a value for [day]. *)
Definition sample_entries : list FileEntry :=
  [Build_FileEntry "a.parquet" 10 [] {["region" := Some "eu"]};
   Build_FileEntry "b.parquet" 10 [] {["region" := Some "eu"; "day" := None]}].

Lemma split_groups_cover_files_witness :
  exists g, split_groups sample_fields ["region"] sample_entries = Ok g /\ groups g <> [] /\ group_of g 1 = Some 1.
Proof.
  destruct (split_groups sample_fields ["region"] sample_entries) as [g|] eqn:E; [|vm_compute in E; discriminate].
  exists g. split; [done|]. split; [exact (proj1 (split_groups_cover_files _ _ _ g E))|].
  revert E. vm_compute. intros [= <-]. reflexivity.
Defined.
