(* ===== verification/IcebergTable.v ===== *)
(** crates/lakehouse-engine/src/adapter/pushdown/format/iceberg.rs: an Iceberg table -
    its declaration at creation, the checks of its metadata, its name mapping, and the
    files, deletes and partition values a pushdown plans from it. *)

From stdpp Require Import base list strings numbers gmap sorting.
From Stdlib Require Import Ascii String ZArith NArith Lia.
From S2P Require Import Prelude Text Hex Json FilterJson ExasolType SparkTypes ArrowTypes TypeMapping ScanSpec ColumnNotes Redaction Storage Connection Pruning IcebergPredicate ColumnBinding ScanFiles ObjectLocation TableIdentity Permission Resolution PartitionValues.

Local Open Scope string_scope.

(** ** Declaration *)

Definition refused_primitive_cause (primitive : IcebergPrimitive) : option string :=
  match primitive with
  | IGeometry _ => Some (unread_type_cause "geometry")
  | IGeography _ => Some (unread_type_cause "geography")
  | IUnknown => Some "has type 'unknown', which holds only nulls and has no Exasol column type"
  | _ => None
  end.

Fixpoint first_refused_member (t : IcebergType) (path : string) : option (string * string) :=
  match t with
  | IPrimitive primitive => cause ← refused_primitive_cause primitive; Some (path, cause)
  | IVariant => Some (path, variant_cause)
  | IStruct members =>
      (fix find_map (l : list IcebergField) : option (string * string) :=
         match l with
         | [] => None
         | MkIcebergField _ name _ member _ :: l' =>
             match first_refused_member member (path ++ "." ++ name) with Some r => Some r | None => find_map l' end
         end) members
  | IList (MkIcebergField _ _ _ element _) => first_refused_member element (path ++ ".element")
  | IMap (MkIcebergField _ _ _ key _) (MkIcebergField _ _ _ value _) =>
      match first_refused_member key (path ++ ".key") with
      | Some r => Some r
      | None => first_refused_member value (path ++ ".value")
      end
  end.

Fixpoint derive_nested_members (t : IcebergType) : option NestedMembers :=
  match t with
  | IPrimitive _ | IVariant => None
  | IStruct fields =>
      Some (NStruct (map (fun f => let '(MkIcebergField id name _ member _) := f in
        MkNestedField (Some id) name None (derive_nested_members member)) fields))
  | IList (MkIcebergField _ _ _ element _) => Some (NList (derive_nested_members element))
  | IMap (MkIcebergField _ _ _ key _) (MkIcebergField _ _ _ value _) =>
      Some (NMap (derive_nested_members key) (derive_nested_members value))
  end.

Definition as_primitive_type (f : IcebergField) : option IcebergPrimitive :=
  match iceberg_field_type f with IPrimitive p => Some p | _ => None end.

Definition show_bool (b : bool) : string := if b then "true" else "false".

Section Declaration.
(** The display of a float from its bits. *)
Context (show_f32 show_f64 : Z -> string).

Definition encode_initial_default (f : IcebergField) : option string :=
  primitive ← as_primitive_type f;
  literal ← iceberg_initial_default f;
  match primitive, literal with
  | IBoolean, LBoolean v => Some (show_bool v)
  | IInt, LInt v => Some (show_Z v)
  | ILong, LLong v => Some (show_Z v)
  | IFloat, LFloat v => Some (show_f32 v)
  | IDouble, LDouble v => Some (show_f64 v)
  | IString, LString v => Some v
  | IDate, LInt days => Some (show_Z days)
  | (ITimestamp | ITimestampNs | ITimestamptz | ITimestamptzNs), LLong v => Some (show_Z v)
  | IDecimal precision scale, LInt128 v =>
      if bool_decide (is_Some (iceberg_decimal precision scale)) then Some (show_Z v) else None
  | _, _ => None
  end.

Definition declaration (f : IcebergField) : ColumnDeclaration :=
  let name := iceberg_field_name f in
  let refused :=
    '(path, cause) ← first_refused_member (iceberg_field_type f) name;
    let member_path := if String.eqb path name then None else Some path in
    Some (column_refusal "Iceberg" name member_path cause) in
  MkColumnDeclaration
    (MkLogicalField (Some (iceberg_field_id f)) name (arrow_type_to_tag (iceberg_type_to_arrow (iceberg_field_type f)))
       (negb (iceberg_field_required f)) (encode_initial_default f) (derive_nested_members (iceberg_field_type f)) None)
    None refused.
End Declaration.

(** ** What iceberg-rust hands the engine *)

Inductive DataContentType := CData | CEqualityDeletes | CPositionDeletes.
Inductive DataFileFormat := FAvro | FOrc | FParquet | FPuffin.

(** [FileScanTaskDeleteFile]. *)
Record TaskDelete := MkTaskDelete {
  td_path : string;
  td_size : N;
  td_type : DataContentType;
  td_format : DataFileFormat;
  td_content_offset : option N;
  td_content_size : option N;
  td_record_count : option N;
}.

(** A field of a partition spec, and whether its transform is [Identity]. *)
Record PartitionField := MkPartitionField { source_id : Z; is_identity : bool }.

(** [FileScanTask], with the spec and the partition struct its file was written with. *)
Record FileScanTask := MkTask {
  ft_path : string;
  ft_size : N;
  ft_format : DataFileFormat;
  ft_deletes : list TaskDelete;
  ft_spec : option (list PartitionField);
  ft_partition : option (list (option IcebergLiteral));
  ft_schema : IcebergSchema;
}.

(** [TableMetadata]: the schemas by field id, the fields of the current one, its
    location, and whether a snapshot is current. *)
Record TableMetadata := MkMetadata {
  current_schema : IcebergSchema;
  current_fields : list IcebergField;
  schemas : list IcebergSchema;
  metadata_root : string;
  default_name_mapping : option string;
  has_snapshot : bool;
}.

(** ** Planned files *)

Inductive UnsupportedDeleteMechanism :=
| EqualityDelete | OrcDataFile | AvroDataFile | OrcDeleteFile | AvroDeleteFile | NonParquetDataFile.

Definition describe (m : UnsupportedDeleteMechanism) : string :=
  match m with
  | EqualityDelete => "Iceberg equality deletes"
  | OrcDataFile => "ORC data files"
  | AvroDataFile => "Avro data files"
  | OrcDeleteFile => "ORC delete files"
  | AvroDeleteFile => "Avro delete files"
  | NonParquetDataFile => "non-Parquet data files"
  end.

Definition classify_planned_file (content : DataContentType) (format : DataFileFormat) : result UnsupportedDeleteMechanism () :=
  match content with
  | CData =>
      match format with
      | FParquet => Ok tt
      | FOrc => Err OrcDataFile
      | FAvro => Err AvroDataFile
      | FPuffin => Err NonParquetDataFile
      end
  | CPositionDeletes =>
      match format with
      | FParquet | FPuffin => Ok tt
      | FOrc => Err OrcDeleteFile
      | FAvro => Err AvroDeleteFile
      end
  | CEqualityDeletes => Err EqualityDelete
  end.

Definition unsupported_delete_error (mechanism : UnsupportedDeleteMechanism) (table_name : string) : UdfError :=
  User (redact_credentials ("lakehouse pushdown declined for table '" ++ table_name ++ "': it uses " ++ describe mechanism
    ++ ", which this engine cannot apply on read (only Parquet positional deletes and deletion vectors are supported); this is a hard error, not a native re-plan")).

Definition iceberg_delete_mechanism (d : TaskDelete) : DeleteMechanism :=
  match td_type d, td_format d with
  | CPositionDeletes, FPuffin =>
      IcebergPuffinDeletionVector (td_path d) (td_size d) (default 0%N (td_content_offset d)) (default 0%N (td_content_size d)) (default 0%N (td_record_count d))
  | CPositionDeletes, _ => IcebergPositionalDelete (td_path d) (td_size d)
  | (CEqualityDeletes | CData), _ => IcebergEqualityDelete (td_path d) (td_size d)
  end.

Definition planned_file_entry (task : FileScanTask) : result UnsupportedDeleteMechanism FileEntry :=
  let? _ := classify_planned_file CData (ft_format task) in
  let? deletes := try_map (fun d => let? _ := classify_planned_file (td_type d) (td_format d) in Ok (iceberg_delete_mechanism d)) (ft_deletes task) in
  Ok {| path := ft_path task; size := ft_size task; deletes := deletes; partition_values := ∅ |}.

(** ** Identity partition values *)

(** [u128::to_be_bytes], the most significant byte first. *)
Fixpoint be_bytes (n : nat) (v : N) : string :=
  match n with
  | O => ""
  | S n' => be_bytes n' (v / 256) ++ String (ascii_of_N (v mod 256)) ""
  end.

Definition identity_hex {HX : Hex} (value : IcebergLiteral) (source : IcebergPrimitive) : option string :=
  match value, source with
  | LBinary bytes, (IBinary | IFixed _) => Some (hex_encode bytes)
  | LUInt128 uuid, IUuid => Some (hex_encode (be_bytes 16 uuid))
  | _, _ => None
  end.

(** [Decimal128Array::with_precision_and_scale]. *)
Definition decimal_array_type (precision scale : N) : option DataType :=
  if (precision <=? 255)%N && (scale <=? 127)%N && (1 <=? precision)%N && (precision <=? 38)%N && (scale <=? 38)%N && (scale <=? precision)%N
  then Some (TDecimal128 (Z.of_N precision) (Z.of_N scale)) else None.

Definition file_column_value (value : IcebergLiteral) (source : IcebergPrimitive) : option ScalarValue :=
  match value, source with
  | LBoolean v, IBoolean => Some (SvBoolean v)
  | LInt v, (IInt | ILong) => Some (SvInteger TInt32 v)
  | LInt v, IDate => Some (SvInteger TDate32 v)
  | LLong v, ILong => Some (SvInteger TInt64 v)
  | LLong v, ITime => Some (SvInteger (TTime64 UMicrosecond) v)
  | LLong v, ITimestamp => Some (SvInteger (TTimestamp UMicrosecond None) v)
  | LLong v, ITimestamptz => Some (SvInteger (TTimestamp UMicrosecond (Some "UTC")) v)
  | LLong v, ITimestampNs => Some (SvInteger (TTimestamp UNanosecond None) v)
  | LLong v, ITimestamptzNs => Some (SvInteger (TTimestamp UNanosecond (Some "UTC")) v)
  | LFloat v, (IFloat | IDouble) => Some (SvFloat TFloat32 v)
  | LDouble v, IDouble => Some (SvFloat TFloat64 v)
  | LInt128 v, IDecimal precision scale => t ← decimal_array_type precision scale; Some (SvInteger t v)
  | LString v, IString => Some (SvText TUtf8 v)
  | _, _ => None
  end.

(** The parts of Arrow and iceberg-rust the planner calls: the cast of one value to a
    type, the display of a value and of a primitive type, the name mapping of a text, and
    the file tasks of a table for a predicate. *)
Inductive MappedField : Type := MkMappedField (names : list string) (field_id : option Z) (fields : list MappedField).

Class IcebergOps := {
  cast_to : ScalarValue -> DataType -> result string ScalarValue;
  array_value_to_string : ScalarValue -> result string string;
  primitive_display : IcebergPrimitive -> string;
  name_mapping_of_json : string -> result string (list MappedField);
}.

Section Identity.
Context {HX : Hex} {IO : IcebergOps}.

Definition render_identity_value (value : IcebergLiteral) (source : IcebergPrimitive) (arrow_type_tag : string) : result string string :=
  match value with
  | LNested => Err ("the partition struct holds a non-primitive value for a " ++ primitive_display source ++ " column")
  | _ =>
      match identity_hex value source with
      | Some hex => Ok hex
      | None =>
          let? file_value := ok_or (file_column_value value source)
            ("the partition struct holds a value of another type than the " ++ primitive_display source ++ " column") in
          let? read := cast_to file_value (arrow_type_from_tag arrow_type_tag) in
          array_value_to_string read
      end
  end.

(** One field of the spec: skipped ([None]) unless it is an identity of a declared
    primitive field. *)
Definition identity_entry (task : FileScanTask) (logical_fields : list LogicalField) (table_name : string) (fv : PartitionField * option IcebergLiteral)
  : option (result UdfError (string * option string)) :=
  if is_identity fv.1 then
    logical ← List.find (fun l => bool_decide (lf_field_id l = Some (source_id fv.1))) logical_fields;
    field ← field_by_id (ft_schema task) (source_id fv.1);
    source ← as_primitive_type field;
    Some (match fv.2 with
          | None => Ok (lf_name logical, None)
          | Some value =>
              match render_identity_value value source (lf_arrow_type logical) with
              | Ok rendered => Ok (lf_name logical, Some rendered)
              | Err cause =>
                  Err (User (redact_credentials ("lakehouse pushdown declined for table '" ++ table_name ++ "': the identity partition value of column '"
                    ++ lf_name logical ++ "' cannot be read at the column's declared type (" ++ cause ++ ")")))
              end
          end)
  else None.

(** [collect] into a map: the last value of a name. *)
Definition collect_values (l : list (string * option string)) : gmap string (option string) :=
  fold_left (fun m '(k, v) => <[k := v]> m) l ∅.

Definition identity_partition_values (task : FileScanTask) (logical_fields : list LogicalField) (table_name : string)
  : result UdfError (gmap string (option string)) :=
  match ft_spec task, ft_partition task with
  | Some spec, Some partition =>
      let? values := try_map (fun e => e) (omap (identity_entry task logical_fields table_name) (zip spec partition)) in
      Ok (collect_values values)
  | _, _ => Ok ∅
  end.
End Identity.

(** ** Checks of the metadata *)

Definition field_le (a b : IcebergField) : Prop := (iceberg_field_id a <= iceberg_field_id b)%Z.

#[export] Instance field_le_dec : RelDecision field_le.
Proof. intros a b. unfold field_le. apply _. Defined.

Section Checks.
Context {UC : UnicodeCase} {IO : IcebergOps}.

Definition was_date (id : Z) (s : IcebergSchema) : bool :=
  bool_decide ((field_by_id s id ≫= as_primitive_type) = Some IDate).

Definition promoted_from_date (m : TableMetadata) (f : IcebergField) : option IcebergPrimitive :=
  match as_primitive_type f with
  | Some ((ITimestamp | ITimestampNs) as t) => if existsb (was_date (iceberg_field_id f)) (schemas m) then Some t else None
  | _ => None
  end.

Definition date_promotion_error (m : TableMetadata) (table_name : string) (f : IcebergField) (t : IcebergPrimitive) : UdfError :=
  let column := default (iceberg_field_name f) (name_by_field_id (current_schema m) (iceberg_field_id f)) in
  let ty := primitive_display t in
  User (redact_credentials ("lakehouse pushdown declined for table '" ++ table_name ++ "': column '" ++ column ++ "' is declared Iceberg type '" ++ ty
    ++ "' in the current schema and 'date' in an earlier one, and this engine cannot read that promotion "
    ++ String "226" (String "128" (String "148" "")) ++ " `iceberg` omits the spec's bounds-width inference for '" ++ ty
    ++ "', so a pre-promotion data file's 4-byte manifest bound fails to decode; tracked as issue #355. The refusal is deliberately conservative: it fires on the recorded promotion alone, even for a table whose data files have all been rewritten since")).

Fixpoint refuse_promoted (m : TableMetadata) (table_name : string) (fields : list IcebergField) : result UdfError () :=
  match fields with
  | [] => Ok tt
  | f :: fields' =>
      match promoted_from_date m f with
      | Some t => Err (date_promotion_error m table_name f t)
      | None => refuse_promoted m table_name fields'
      end
  end.

Definition refuse_date_promotion (m : TableMetadata) (table_name : string) : result UdfError () :=
  refuse_promoted m table_name (merge_sort field_le (current_fields m)).

Definition checked_table_root (m : TableMetadata) (table_name : string) (empty_location : UdfError) : result UdfError string :=
  let? _ := refuse_date_promotion m table_name in
  if String.eqb (metadata_root m) "" then Err empty_location else Ok (metadata_root m).

(** Declared non-nullable, and optional in the current schema. *)
Definition stale (current : IcebergSchema) (f : LogicalField) : bool :=
  negb (lf_nullable f)
  && match lf_field_id f ≫= field_by_id current with Some now => negb (iceberg_field_required now) | None => false end.

Definition refuse_relaxed_nullability (current : IcebergSchema) (declared : DeclaredSchema) : result UdfError () :=
  match List.find (stale current) (logical_schema declared) with
  | None => Ok tt
  | Some f =>
      Err (User ("column '" ++ to_uppercase (lf_name f) ++ "' of virtual table '" ++ table declared
        ++ "' is declared non-nullable, but the current Iceberg schema allows NULL in it; ALTER VIRTUAL SCHEMA ... REFRESH re-declares it"))
  end.

(** An entry without a field id maps nothing, nor do its children. *)
Fixpoint convert_mapped_field (f : MappedField) : option NameMappingEntry :=
  let '(MkMappedField names field_id fields) := f in
  match field_id with
  | None => None
  | Some id =>
      Some (MkNameMapping names id
        ((fix go (l : list MappedField) : list NameMappingEntry :=
            match l with
            | [] => []
            | x :: l' => match convert_mapped_field x with Some e => e :: go l' | None => go l' end
            end) fields))
  end.

Definition convert_mapped_fields (fields : list MappedField) : list NameMappingEntry := omap convert_mapped_field fields.

Definition PROPERTY_DEFAULT_NAME_MAPPING : string := "schema.name-mapping.default".

Definition parse_name_mapping (raw : option string) : result UdfError (list NameMappingEntry) :=
  match raw with
  | None => Ok []
  | Some raw =>
      match name_mapping_of_json raw with
      | Ok fields => Ok (convert_mapped_fields fields)
      | Err e => Err (User ("failed to parse Iceberg '" ++ PROPERTY_DEFAULT_NAME_MAPPING ++ "' table property: " ++ e))
      end
  end.
End Checks.

(** ** The loaded table *)

Record IcebergTable := MkIcebergTable {
  it_table_name : string;
  it_metadata : TableMetadata;
  it_table_root : string;
  it_effective_storage : StorageBackend;
  it_name_mapping : list NameMappingEntry;
}.

Record CheckedMetadata := MkCheckedMetadata {
  cm_table_name : string;
  cm_table_ident : CatalogTableIdent;
  cm_metadata : TableMetadata;
  cm_metadata_location : option string;
  cm_table_root : string;
  cm_effective_storage : StorageBackend;
}.

(** What [loadTable] answers. *)
Record RestTable := MkRestTable {
  rt_metadata : TableMetadata;
  rt_metadata_location : option string;
  rt_vended : LoadTableResult;
}.

Section Table.
Context {UC : UnicodeCase} {FL : Floats} {IN : Instants} {ID : IcebergDatums} {HX : Hex} {IO : IcebergOps}.
Context {U : Type} {SU : StoreUrls U}.

(** [StaticStoreAddress::from(creds)]. *)
Definition static_store_address (creds : ConnectionCreds) : StaticStoreAddress :=
  MkAddress (c_endpoint creds) (c_region creds) (c_path_style creds).

Definition rest_metadata (loaded : result UdfError RestTable) (table_name : string) (storage : StorageBackend) (creds : ConnectionCreds) (allow_http : bool)
  : result UdfError CheckedMetadata :=
  let? r := loaded in
  let? table_root := checked_table_root (rt_metadata r) table_name
    (User ("the loadTable response for table '" ++ table_name
       ++ "' carries an EMPTY table `location`; the catalog `warehouse` is a routing identifier, not a table location, and is not a valid substitute")) in
  let? effective_storage :=
    if c_use_vended_credentials creds then resolve_vended_storage (rt_vended r) table_root allow_http (static_store_address creds) else Ok storage in
  let? (namespace, name) := parse_table_ident table_name in
  Ok (MkCheckedMetadata table_name (MkIdent namespace name) (rt_metadata r) (rt_metadata_location r) table_root effective_storage).

(** [read] is the one read of a metadata file through a storage. *)
Definition file_metadata (read : StorageBackend -> string -> string -> result UdfError TableMetadata)
    (ident : CatalogTableIdent) (metadata_location : option string) (storage : StorageBackend) : result UdfError CheckedMetadata :=
  let table_name := catalog_identifier_string ident in
  let? location := ok_or (l ← metadata_location; if String.eqb (trim l) "" then None else Some l)
    (User ("Iceberg table '" ++ table_name ++ "' names no current metadata file, so its snapshot is unknown")) in
  let? metadata := read storage location table_name in
  let? table_root := checked_table_root metadata table_name
    (User ("the Iceberg metadata file '" ++ location ++ "' of table '" ++ table_name
       ++ "' carries an EMPTY table `location`; the catalog's storage location is not a valid substitute, because the metadata file is the table's authority")) in
  Ok (MkCheckedMetadata table_name ident metadata (Some location) table_root storage).

(** [build] is the table builder of iceberg-rust, which may refuse the metadata. *)
Definition open (build : CheckedMetadata -> result string ()) (checked : CheckedMetadata) : result UdfError IcebergTable :=
  let? _ := match build checked with
            | Ok t => Ok t
            | Err e => Err (User ("failed to build Iceberg table: " ++ redact_error_text e (secret_values (cm_effective_storage checked))))
            end in
  let? name_mapping := parse_name_mapping (default_name_mapping (cm_metadata checked)) in
  let? root := from_raw (cm_table_root checked) in
  Ok (MkIcebergTable (cm_table_name checked) (cm_metadata checked) (to_wire root) (cm_effective_storage checked) name_mapping).

Definition wire (raw : string) : result UdfError string := let? location := from_raw raw in Ok (to_wire location).

(** [wire_paths]'s loop over the deletes. *)
Definition wire_delete (d : DeleteMechanism) : result UdfError DeleteMechanism :=
  match object_store_path d with
  | None => Ok d
  | Some p => let? w := wire p in Ok (with_object_store_path (fun _ => w) d)
  end.

Definition wire_paths (e : FileEntry) : result UdfError FileEntry :=
  let? p := wire (path e) in
  let? ds := try_map wire_delete (deletes e) in
  Ok {| path := p; size := size e; deletes := ds; partition_values := partition_values e |}.

Definition plan_task (table_name : string) (declared : list LogicalField) (task : FileScanTask) : result UdfError FileEntry :=
  let? entry := match planned_file_entry task with Ok e => Ok e | Err m => Err (unsupported_delete_error m table_name) end in
  let? entry := wire_paths entry in
  let? values := identity_partition_values task declared table_name in
  Ok {| path := path entry; size := size entry; deletes := deletes entry; partition_values := values |}.

(** The failures of iceberg-rust's planner, by the step that failed. *)
Inductive PlanFailure := ScanFailure (e : string) | FilesFailure (chain : string) | TaskFailure (chain : string).

Context (plan_files : TableMetadata -> option (Predicate Datum) -> result PlanFailure (list FileScanTask)).

Definition plan_file_tasks (m : TableMetadata) (table_name : string) (predicate : option (Predicate Datum)) (secrets : list string)
  : result UdfError (list FileScanTask) :=
  match plan_files m predicate with
  | Ok tasks => Ok tasks
  | Err (ScanFailure e) => Err (User ("failed to build Iceberg scan: " ++ redact_error_text e secrets))
  | Err (FilesFailure e) => Err (User ("failed to plan Iceberg files for '" ++ table_name ++ "': " ++ redact_error_text e secrets))
  | Err (TaskFailure e) => Err (User ("failed to collect Iceberg file tasks: " ++ redact_error_text e secrets))
  end.

Definition scan_predicate (m : TableMetadata) (declared : list LogicalField) (filter_json : option Json) : option (Predicate Datum) :=
  filter ← filter_json;
  if has_snapshot m then to_iceberg_predicate declared (current_schema m) filter else None.

Definition iceberg_prune (t : IcebergTable) (declared : DeclaredSchema) (filter_json : option Json) : result UdfError PlannedFiles :=
  let m := it_metadata t in
  let? _ := refuse_relaxed_nullability (current_schema m) declared in
  let fields := logical_schema declared in
  let? tasks := plan_file_tasks m (it_table_name t) (scan_predicate m fields filter_json) (secret_values (it_effective_storage t)) in
  let? files := try_map (plan_task (it_table_name t) fields) tasks in
  Ok (MkPlanned files (it_effective_storage t) (it_table_root t) (it_name_mapping t)).

#[local] Instance iceberg_loaded : LoadedTable IcebergTable := {| prune := iceberg_prune |}.
End Table.

(** ** The plan keeps every matching file *)

Section Planned.
Context {UC : UnicodeCase} {FL : Floats} {IN : Instants} {ID : IcebergDatums} {HX : Hex} {IO : IcebergOps}.
Context {U : Type} {SU : StoreUrls U}.

(** The mechanism the scan applies for a delete: the same object, of the same size, read
    as positions or as the same bytes of a Puffin file. A delete file of content [Data],
    which no writer produces, becomes the equality delete every scan refuses. *)
Definition applies (d : TaskDelete) (m : DeleteMechanism) : Prop :=
  exists l : ObjectLocation U, from_raw (td_path d) = Ok l
  /\ match td_type d, td_format d with
     | CPositionDeletes, FParquet => m = IcebergPositionalDelete (to_wire l) (td_size d)
     | CPositionDeletes, FPuffin =>
         m = IcebergPuffinDeletionVector (to_wire l) (td_size d) (default 0%N (td_content_offset d))
               (default 0%N (td_content_size d)) (default 0%N (td_record_count d))
     | CData, FParquet => m = IcebergEqualityDelete (to_wire l) (td_size d)
     | _, _ => False
     end.

(** The entry of a task: its Parquet object with every delete of it. *)
Definition entry_of (task : FileScanTask) (e : FileEntry) : Prop :=
  ft_format task = FParquet
  /\ (exists l : ObjectLocation U, from_raw (ft_path task) = Ok l /\ path e = to_wire l)
  /\ size e = ft_size task /\ Forall2 applies (ft_deletes task) (deletes e).

Lemma wired_deletes ds ms ws :
  try_map (fun d => let? _ := classify_planned_file (td_type d) (td_format d) in Ok (iceberg_delete_mechanism d)) ds = Ok ms ->
  try_map wire_delete ms = Ok ws -> Forall2 applies ds ws.
Proof.
  revert ms ws. induction ds as [|d ds IH]; intros ms ws; cbn [try_map]; [intros [= <-] [= <-]; constructor|].
  destruct (classify_planned_file _ _) as [[]|] eqn:Ec; [|done]. destruct (try_map _ ds) as [ms'|] eqn:Em; [|done].
  intros [= <-]. cbn [try_map]. destruct (wire_delete (iceberg_delete_mechanism d)) as [w|] eqn:Ew; [|done].
  destruct (try_map wire_delete ms') as [ws'|] eqn:Es; [|done]. intros [= <-]. constructor; [|by apply (IH ms')].
  unfold applies, wire_delete, wire, iceberg_delete_mechanism in *.
  destruct (td_type d), (td_format d); cbn in Ec; try done; cbn [object_store_path] in Ew;
    (destruct (from_raw (td_path d)) as [l|]; [|done]); injection Ew as <-; by exists l.
Qed.

Lemma plan_task_entry table_name declared task e : plan_task table_name declared task = Ok e -> entry_of task e.
Proof.
  unfold plan_task, planned_file_entry. destruct (classify_planned_file CData (ft_format task)) as [[]|] eqn:Ec; [|done].
  destruct (try_map _ (ft_deletes task)) as [ms|] eqn:Ed; [|done]. unfold wire_paths, wire. cbn [path deletes size partition_values].
  destruct (from_raw (ft_path task)) as [l|] eqn:El; [|done]. destruct (try_map wire_delete ms) as [ws|] eqn:Ew; [|done].
  destruct (identity_partition_values _ _ _) as [values|]; [|done]. intros [= <-]. unfold entry_of. cbn [path deletes size].
  split_and!; [by destruct (ft_format task)|by exists l|done|by eapply wired_deletes].
Qed.

Context (plan_files : TableMetadata -> option (Predicate Datum) -> result PlanFailure (list FileScanTask)).

(** The rows of a data file, and iceberg-rust's contract: a predicate drops no file with
    a row it is TRUE on. *)
Context (rows : FileScanTask -> list (string -> option Value)).

Definition planner_keeps_matches (m : TableMetadata) : Prop :=
  forall all p tasks task row, plan_files m None = Ok all -> plan_files m (Some p) = Ok tasks ->
    task ∈ all -> row ∈ rows task -> eval row datum_value p = Some true -> task ∈ tasks.

Lemma planned_entries t declared filter planned :
  iceberg_prune plan_files t declared filter = Ok planned ->
  exists tasks, plan_files (it_metadata t) (scan_predicate (it_metadata t) (logical_schema declared) filter) = Ok tasks
    /\ Forall2 entry_of tasks (pf_files planned).
Proof.
  unfold iceberg_prune, plan_file_tasks. destruct (refuse_relaxed_nullability _ _) as [[]|]; [|done].
  destruct (plan_files _ _) as [tasks|[]] eqn:Ep; try done. destruct (try_map _ tasks) as [files|] eqn:Et; [|done].
  intros [= <-]. exists tasks. split; [done|]. cbn [pf_files]. apply try_map_Forall2 in Et. eapply Forall2_impl; [exact Et|].
  cbn. intros a b. apply plan_task_entry.
Qed.
End Planned.

(** C14. No row of an Iceberg snapshot is lost in planning, and no delete: when a table is
    pruned with a filter, every data file of the snapshot that holds a row the filter is
    TRUE on is among the planned files - as the same object, of the same size, with every
    one of its deletes as positions or as the bytes of its deletion vector; an equality
    delete of any planned file fails the request; without a filter every data file is
    planned. The planner is assumed to keep every file with a row on which its own
    predicate is TRUE. Excluded, as in [IcebergPredicate], are filters with a number that
    no 32-bit float holds, over a schema with a 32-bit float column. *)
Theorem iceberg_plan_keeps_matching_files {UC : UnicodeCase} {FL : Floats} {IN : Instants} {ID : IcebergDatums} {IL : IcebergDatumLaws ID} {HX : Hex}
    {IO : IcebergOps} {U} {SU : StoreUrls U} plan_files rows other t declared filter planned all task :
  iceberg_prune plan_files t declared filter = Ok planned ->
  plan_files (it_metadata t) None = Ok all -> task ∈ all ->
  planner_keeps_matches plan_files rows (it_metadata t) ->
  (forall f, filter = Some f -> float_literals_exact (current_schema (it_metadata t)) f) ->
  (forall f, filter = Some f -> exists row, row ∈ rows task /\ row_fits (current_schema (it_metadata t)) row
     /\ means (filter_operand (logical_schema declared) (current_schema (it_metadata t)) row other) value_compare f (Some true)) ->
  exists e, e ∈ pf_files planned /\ entry_of (U := U) task e.
Proof.
  intros Hprune Hall Hin Hkeeps Hfloat Hrow. apply planned_entries in Hprune as (tasks & Hp & Hentries).
  assert (Ht : task ∈ tasks).
  { unfold scan_predicate in Hp. destruct filter as [f|]; cbn [mbind option_bind] in Hp; [|by rewrite Hall in Hp; injection Hp as <-].
    destruct (has_snapshot _); [|by rewrite Hall in Hp; injection Hp as <-].
    destruct (to_iceberg_predicate _ _ f) as [p|] eqn:Ep; [|by rewrite Hall in Hp; injection Hp as <-].
    destruct (Hrow f eq_refl) as (row & Hr & Hfits & Hm). apply (Hkeeps all p tasks task row); try done. unfold to_iceberg_predicate in Ep.
    pose proof (iceberg_translate_sound _ _ row other f Hfits (Hfloat f eq_refl) (json_depth f) f (Some true) (within_self _) Hm) as Hs.
    destruct (iceberg_translate_fuel _ _ (json_depth f) f) as [tr|]; [|done]. injection Ep as <-. by apply Hs. }
  apply list_elem_of_lookup in Ht as [i Hi]. destruct (Forall2_lookup_l _ _ _ _ _ Hentries Hi) as (e & He & Hentry).
  exists e. split; [|done]. apply list_elem_of_lookup. by exists i.
Qed.

(** Two data files, the cheap one with a positional delete, and a planner that evaluates
    the predicate on their rows. *)
Definition price_schema : IcebergSchema := renamed_schema IDouble.
Definition price_task (name : string) (ds : list TaskDelete) : FileScanTask :=
  MkTask ("s3://bucket/db/t/" ++ name) 9 FParquet ds None None price_schema.
Definition cheap : FileScanTask :=
  price_task "cheap.parquet" [MkTaskDelete "s3://bucket/db/t/del.parquet" 3 CPositionDeletes FParquet None None None].
Definition dear : FileScanTask := price_task "dear.parquet" [].
Definition price_rows (task : FileScanTask) : list (string -> option Value) :=
  [price_row (if String.eqb (ft_path task) (ft_path cheap) then 1200 else 2000)].
Definition holds_match (p : Predicate Datum) (task : FileScanTask) : bool :=
  existsb (fun r => bool_decide (eval (FL := coarse_floats) r (datum_value (H := coarse_floats)) p = Some true)) (price_rows task).
Definition evaluating_planner (m : TableMetadata) (p : option (Predicate Datum)) : result PlanFailure (list FileScanTask) :=
  Ok (match p with None => [cheap; dear] | Some p => List.filter (holds_match p) [cheap; dear] end).
Definition no_iceberg_ops : IcebergOps :=
  {| cast_to v _ := Ok v; array_value_to_string _ := Ok ""; primitive_display _ := ""; name_mapping_of_json _ := Ok [] |}.
Definition price_table : IcebergTable :=
  MkIcebergTable "db.t" (MkMetadata price_schema [] [price_schema] "s3://bucket/db/t" None true) "s3://bucket/db/t/" (Adls "acct" (Sas "sas")) [].
Definition price_declaration : DeclaredSchema := MkDeclaredSchema "T" price_declared [] [].

Lemma evaluating_planner_keeps m : planner_keeps_matches (FL := coarse_floats) evaluating_planner price_rows m.
Proof.
  intros all p tasks task row [= <-] Ht Hin Hr He. assert (tasks = List.filter (holds_match p) [cheap; dear]) as -> by (injection Ht; done). clear Ht.
  apply list_elem_of_In, List.filter_In. split; [by apply list_elem_of_In|]. apply existsb_exists. exists row. split; [by apply list_elem_of_In|]. by apply bool_decide_eq_true_2.
Qed.

Lemma iceberg_plan_keeps_matching_files_witness :
  exists planned, iceberg_prune (UC := ascii_case) (FL := coarse_floats) (IN := zero_instants) (ID := no_datums) (HX := plain_hex) (IO := no_iceberg_ops)
      (SU := bucket_urls) evaluating_planner price_table price_declaration (Some price_filter) = Ok planned
    /\ List.length (pf_files planned) = 1
    /\ exists e, e ∈ pf_files planned /\ entry_of (SU := bucket_urls) cheap e.
Proof.
  eexists. split; [vm_compute; reflexivity|]. split; [reflexivity|].
  refine (iceberg_plan_keeps_matching_files (UC := ascii_case) (FL := coarse_floats) (IL := no_datums_laws) (HX := plain_hex) (IO := no_iceberg_ops)
    (SU := bucket_urls) evaluating_planner price_rows (fun _ => None) price_table price_declaration (Some price_filter) _ [cheap; dear] cheap _ _ _ _ _ _).
  - vm_compute. reflexivity.
  - reflexivity.
  - by left.
  - apply evaluating_planner_keeps.
  - intros f _ id field Hf Ht. cbn in Hf. destruct (id =? 7)%Z; [|done]. by injection Hf as <-.
  - intros f [= <-]. exists (price_row 1200). split_and!.
    + by left.
    + intros id name field prim x Hn Hf Ht Hx. cbn in Hn, Hf. destruct (id =? 7)%Z; [|done]. injection Hn as <-. injection Hf as <-.
      injection Ht as <-. injection Hx as <-. by eexists.
    + apply price_filter_true; [by left|reflexivity].
Defined.

(** ** Initial defaults *)

Section Defaults.
Context (show_f32 show_f64 : Z -> string) (parse_f32 parse_f64 : string -> option Z) (type_display : DataType -> string).

(** The value a default stands for in an Arrow column of the field's type. *)
Definition default_scalar (p : IcebergPrimitive) (literal : IcebergLiteral) : option ScalarValue :=
  match literal with
  | LBoolean b => Some (SvBoolean b)
  | LInt v | LLong v | LInt128 v => Some (SvInteger (iceberg_primitive_to_arrow p) v)
  | LFloat b | LDouble b => Some (SvFloat (iceberg_primitive_to_arrow p) b)
  | LString s => Some (SvText (iceberg_primitive_to_arrow p) s)
  | _ => None
  end.

(** What iceberg-rust's literals hold. *)
Definition literal_fits (literal : IcebergLiteral) : Prop :=
  match literal with
  | LInt v => (- 2 ^ 31 <= v < 2 ^ 31)%Z
  | LLong v => (- 2 ^ 63 <= v < 2 ^ 63)%Z
  | LInt128 v => (- 2 ^ 127 <= v < 2 ^ 127)%Z
  | LFloat b => parse_f32 (show_f32 b) = Some b
  | LDouble b => parse_f64 (show_f64 b) = Some b
  | _ => True
  end.

(** The declared type of a column whose default is declared reads back from its tag. *)
Lemma encoded_type_back f p e :
  as_primitive_type f = Some p -> encode_initial_default show_f32 show_f64 f = Some e ->
  arrow_type_from_tag (arrow_type_to_tag (iceberg_primitive_to_arrow p)) = iceberg_primitive_to_arrow p.
Proof.
  unfold encode_initial_default. intros ->. cbn [mbind option_bind]. destruct (iceberg_initial_default f) as [l|]; [|done]. cbn [mbind option_bind].
  intros He. destruct p, l; try discriminate He; lazymatch goal with |- context [IDecimal] => idtac | _ => reflexivity end.
  cbn [iceberg_primitive_to_arrow]. case_bool_decide as Hd; [|done]. destruct (iceberg_decimal precision scale) as [d|] eqn:Ed; [|by destruct Hd].
  unfold iceberg_decimal in Ed. destruct (_ && _) eqn:Er; [|done]. unfold Decimal_new in Ed. destruct (_ && _) eqn:Es in Ed; [|done]. injection Ed as <-.
  cbn [ExasolType.precision ExasolType.scale arrow_type_to_tag]. unfold MAX_DECIMAL_PRECISION in Es. apply decimal_tag_read; lia.
Qed.
End Defaults.

(** A column added with a default reads that default in the files written before it: the
    text the declaration encodes for an Iceberg field's initial default is read back by
    the scan, under the declared type's tag, as exactly the literal - the integer, the
    unscaled decimal, the bits of the float, the text - at the column's own Arrow type. *)
Theorem initial_default_reads_back show_f32 show_f64 parse_f32 parse_f64 display f encoded :
  lf_initial_default (source_type (declaration show_f32 show_f64 f)) = Some encoded ->
  (forall l, iceberg_initial_default f = Some l -> literal_fits show_f32 show_f64 parse_f32 parse_f64 l) ->
  exists p l v, as_primitive_type f = Some p /\ iceberg_initial_default f = Some l /\ default_scalar p l = Some v
    /\ scalar_type v = iceberg_primitive_to_arrow p
    /\ reconstruct_initial_default parse_f32 parse_f64 display (lf_arrow_type (source_type (declaration show_f32 show_f64 f))) encoded = Ok v.
Proof.
  cbn [declaration source_type lf_initial_default lf_arrow_type]. intros He Hfits. destruct (as_primitive_type f) as [p|] eqn:Ep.
  2:{ unfold encode_initial_default in He. by rewrite Ep in He. }
  pose proof (encoded_type_back _ _ _ _ _ Ep He) as Hback. assert (Ht : iceberg_type_to_arrow (iceberg_field_type f) = iceberg_primitive_to_arrow p).
  { unfold as_primitive_type in Ep. destruct (iceberg_field_type f); try done. by injection Ep as ->. }
  rewrite Ht. unfold encode_initial_default in He. rewrite Ep in He. cbn [mbind option_bind] in He.
  destruct (iceberg_initial_default f) as [l|] eqn:El; [|done]. cbn [mbind option_bind] in He. specialize (Hfits l eq_refl).
  exists p, l. unfold reconstruct_initial_default. rewrite Hback. clear Hback Ht.
  destruct p, l; try discriminate He; cbn [iceberg_primitive_to_arrow default_scalar literal_fits] in *;
    try (injection He as <-; eexists; split_and!; [done|done|done|done|]; by rewrite ?parse_signed_show, ?Hfits).
  - injection He as <-. eexists. split_and!; [done..|]. by destruct b.
  - case_bool_decide as Hd; [|done]. injection He as <-. destruct (iceberg_decimal precision scale) as [d|]; [|by destruct Hd].
    eexists. split_and!; [done..|]. by rewrite parse_signed_show.
Qed.

Definition dated_field : IcebergField := MkIcebergField 3 "since" true (IPrimitive IDate) (Some (LInt 19000)).

Lemma initial_default_reads_back_witness :
  reconstruct_initial_default (fun _ => None) (fun _ => None) (fun _ => "") "date32" "19000" = Ok (SvInteger TDate32 19000).
Proof.
  destruct (initial_default_reads_back (fun _ => "") (fun _ => "") (fun _ => None) (fun _ => None) (fun _ => "") dated_field "19000") as (p & l & v & Hp & Hl & Hv & _ & H).
  - reflexivity.
  - intros l [= <-]. cbn. lia.
  - injection Hp as <-. injection Hl as <-. injection Hv as <-. exact H.
Defined.

(** ** Refusals *)

(** A type with a member this engine does not read, at any depth. *)
Inductive refused_inside : IcebergType -> Prop :=
| refused_primitive p : is_Some (refused_primitive_cause p) -> refused_inside (IPrimitive p)
| refused_variant : refused_inside IVariant
| refused_struct fields f : f ∈ fields -> refused_inside (iceberg_field_type f) -> refused_inside (IStruct fields)
| refused_list e : refused_inside (iceberg_field_type e) -> refused_inside (IList e)
| refused_key k v : refused_inside (iceberg_field_type k) -> refused_inside (IMap k v)
| refused_value k v : refused_inside (iceberg_field_type v) -> refused_inside (IMap k v).

Lemma first_refused_exact t : forall path, is_Some (first_refused_member t path) <-> refused_inside t.
Proof.
  induction t as [p|fields IH|[? ? ? e ?] IH|[? ? ? k ?] [? ? ? v ?] IHk IHv|] using iceberg_type_ind'; intros path; cbn [first_refused_member].
  - destruct (refused_primitive_cause p) as [c|] eqn:E; cbn [mbind option_bind].
    + split; [intros _; constructor; by rewrite E|by eexists].
    + split; [by intros []|]. inversion 1 as [? H0| | | | |]; subst. by rewrite E in H0.
  - induction IH as [|[i n r ft d] fields Hf _ IHl]; [split; [by intros []|]; inversion 1 as [| |? f Hin Hr| | |]; subst; by apply elem_of_nil in Hin|].
    cbn [iceberg_field_type] in Hf. destruct (first_refused_member ft _) as [x|] eqn:E.
    + split; [intros _|by eexists]. apply (refused_struct _ (MkIcebergField i n r ft d)); [by left|]. apply (Hf (path ++ "." ++ n)). by eexists.
    + rewrite IHl. split.
      * inversion 1 as [| |? f Hin Hr| | |]; subst. apply (refused_struct _ f); [by right|done].
      * inversion 1 as [| |? f Hin Hr| | |]; subst. apply elem_of_cons in Hin as [->|Hin]; [|by apply (refused_struct _ f)].
        cbn in Hr. apply (Hf (path ++ "." ++ n)) in Hr as [x Hx]. congruence.
  - cbn [iceberg_field_type] in IH. rewrite IH. split; [by constructor|by inversion 1].
  - cbn [iceberg_field_type] in IHk, IHv. destruct (first_refused_member k _) as [x|] eqn:E.
    + split; [intros _; apply refused_key; cbn; apply (IHk (path ++ ".key")); by eexists|by eexists].
    + rewrite IHv. split; [intros Hv; apply refused_value; exact Hv|]. inversion 1 as [| | | |? ? Hr|]; subst; [|done]. cbn in Hr.
      apply (IHk (path ++ ".key")) in Hr as [x Hx]. congruence.
  - split; [constructor|by eexists].
Qed.

Lemma refuse_promoted_exact {UC : UnicodeCase} {IO : IcebergOps} m table_name fields :
  refuse_promoted m table_name fields = Ok tt <-> Forall (fun f => promoted_from_date m f = None) fields.
Proof.
  induction fields as [|f fields IH]; cbn [refuse_promoted]; [by split|]. rewrite Forall_cons. destruct (promoted_from_date m f); [|by rewrite IH; split; [|intros []]].
  by split; [|intros []].
Qed.

(** What Iceberg metadata the engine refuses, and nothing else: a column is declared
    with a refusal exactly when its type holds, at any depth, a geometry, geography,
    unknown or variant; metadata is refused exactly when a field now a timestamp was a
    date under the same id in some earlier schema, or its location is empty; and a
    declaration exactly when a column it says is never NULL may be NULL now. *)
Theorem iceberg_refusals_exact {UC : UnicodeCase} {IO : IcebergOps} :
  (forall show_f32 show_f64 f, is_Some (refused (declaration show_f32 show_f64 f)) <-> refused_inside (iceberg_field_type f))
  /\ (forall m table_name empty, is_Some (ok (checked_table_root m table_name empty)) <->
        metadata_root m <> "" /\ forall f s, f ∈ current_fields m -> s ∈ schemas m ->
          as_primitive_type f = Some ITimestamp \/ as_primitive_type f = Some ITimestampNs ->
          (field_by_id s (iceberg_field_id f) ≫= as_primitive_type) <> Some IDate)
  /\ (forall current declared, refuse_relaxed_nullability current declared = Ok tt <->
        forall f id now, f ∈ logical_schema declared -> lf_nullable f = false -> lf_field_id f = Some id ->
          field_by_id current id = Some now -> iceberg_field_required now = true).
Proof.
  split_and!.
  - intros s32 s64 f. cbn [declaration refused]. rewrite <- (first_refused_exact _ (iceberg_field_name f)).
    destruct (first_refused_member _ _) as [[path c]|]; cbn [mbind option_bind]; split; intros [? ?]; done || by eexists.
  - intros m n e. unfold checked_table_root, refuse_date_promotion.
    assert (Hex : refuse_promoted m n (merge_sort field_le (current_fields m)) = Ok tt <->
      forall f s, f ∈ current_fields m -> s ∈ schemas m -> as_primitive_type f = Some ITimestamp \/ as_primitive_type f = Some ITimestampNs ->
        (field_by_id s (iceberg_field_id f) ≫= as_primitive_type) <> Some IDate).
    { rewrite refuse_promoted_exact, Forall_forall. setoid_rewrite merge_sort_Permutation. unfold promoted_from_date. split.
      - intros H f s Hf Hs Ht Hd. specialize (H f Hf). assert (He : existsb (was_date (iceberg_field_id f)) (schemas m) = true).
        { apply existsb_exists. exists s. split; [by apply list_elem_of_In|]. by apply bool_decide_eq_true_2. }
        rewrite He in H. destruct Ht as [E|E]; rewrite E in H; done.
      - intros H f Hf. destruct (existsb (was_date (iceberg_field_id f)) (schemas m)) eqn:Ee; [|by destruct (as_primitive_type f) as [[]|]].
        apply existsb_exists in Ee as (s & Hs%list_elem_of_In & Hd%bool_decide_eq_true).
        destruct (as_primitive_type f) as [[]|] eqn:Ep; try done; exfalso; apply (H f s Hf Hs); rewrite ?Ep; auto. }
    destruct (refuse_promoted _ _ _) as [[]|]; destruct (String.eqb_spec (metadata_root m) ""); cbn [ok]; split; try (by intros []); intros H;
      try (by destruct H); try (by eexists); try (split; [done|by apply Hex]); destruct H as [_ H]; by apply Hex in H.
  - intros current declared. unfold refuse_relaxed_nullability. destruct (List.find _ _) as [f|] eqn:E.
    + split; [done|]. intros H. apply List.find_some in E as [Hin Hs]. unfold stale in Hs. apply andb_true_iff in Hs as [Hn Hs].
      destruct (lf_field_id f) as [id|] eqn:Ei; cbn [mbind option_bind] in Hs; [|done]. destruct (field_by_id current id) as [now|] eqn:En; [|done].
      apply list_elem_of_In in Hin. apply negb_true_iff in Hn. rewrite (H f id now Hin Hn Ei En) in Hs. done.
    + split; [|done]. intros _ f id now Hin%list_elem_of_In Hn Hi Hnow. apply (List.find_none _ _ E) in Hin. unfold stale in Hin.
      rewrite Hn, Hi in Hin. cbn in Hin. rewrite Hnow in Hin. by destruct (iceberg_field_required now).
Qed.
