(* ===== verification/Declaration.v ===== *)
(** crates/lakehouse-catalog/src/client.rs (the catalog's tables),
    adapter/pushdown/format/catalog_declaration.rs and [declare_columns] of
    format/mod.rs: the note each column of a listed table is declared with. *)

From stdpp Require Import base list strings numbers gmap.
From Stdlib Require Import Ascii String ZArith NArith Lia.
From S2P Require Import Prelude Text Json ColumnNode SparkTypes ArrowTypes HiveType TypeMapping ScanSpec ColumnNotes DeltaSchema TableIdentity IcebergTable.

Local Open Scope string_scope.

(** ** Catalog tables *)

Inductive CatalogTableType := TypeTable | TypeView | TypeOther (value : string).
Inductive TableFormat := FmtIceberg | FmtDelta | FmtParquet.

#[export] Instance TableFormat_eq_dec : EqDecision TableFormat.
Proof. solve_decision. Defined.

Record CatalogColumn := MkCatalogColumn {
  cc_name : string;
  cc_source_type : ColumnSourceType;
  cc_declaration : option string;
}.

Definition CatalogColumn_new (name : string) (source : ColumnSourceType) : CatalogColumn := MkCatalogColumn name source None.

Record CatalogTable := MkCatalogTable {
  ct_ident : CatalogTableIdent;
  ct_table_type : CatalogTableType;
  ct_storage_location : option string;
  ct_format : TableFormat;
  ct_vended_credential_key : option string;
  ct_partition_columns : list string;
  ct_columns : list CatalogColumn;
  ct_metadata_location : option string;
  ct_properties : gmap string string;
}.

(** ** The declaration of a catalog's columns *)

Definition COLUMN_MAPPING_MODE_PROPERTY : string := "delta.columnMapping.mode".

Section Catalog.
Context {DK : DeltaKernel} {JD : JsonDisplay}.
(** [str::parse] of delta-kernel's column-mapping mode. *)
Context (parse_mode : string -> option ColumnMappingMode).

Definition spark_field (column : CatalogColumn) (format : TableFormat) : result string StructField :=
  match cc_source_type column with
  | Unity type_json =>
      let? field := unity_spark_field type_json in
      Ok (MkStructField (cc_name column) (spark_type field) (spark_nullable field || bool_decide (format = FmtParquet)) (spark_metadata field))
  | Glue hive_type =>
      match parse_hive_type hive_type with
      | Ok t => Ok (nullable_field (cc_name column) t)
      | Err (Problem refusal) => Err refusal
      | Err OutOfFuel => Err "" (* unreachable: the fuel is the length of the text *)
      end
  | Iceberg _ | Parquet _ => Err "its catalog declares no Spark or Hive type for it"
  end.

Definition refused_placeholder (name : string) : LogicalField :=
  MkLogicalField None name (arrow_type_to_tag TUtf8) true None None None.

Definition every_column_refused (table : CatalogTable) (label cause : string) : list LogicalField * list RefusedColumn :=
  ([], map (fun column => MkRefusedColumn (cc_name column) (label ++ " column '" ++ cc_name column ++ "' cannot be declared: " ++ cause)) (ct_columns table)).

(** The loop: the fields of the columns that have one, and the refusals of the others. *)
Fixpoint spark_fields (columns : list CatalogColumn) (format : TableFormat) (label : string) : list StructField * list RefusedColumn :=
  match columns with
  | [] => ([], [])
  | column :: columns' =>
      let '(fields, refused) := spark_fields columns' format label in
      match spark_field column format with
      | Ok field => (field :: fields, refused)
      | Err reason => (fields, MkRefusedColumn (cc_name column) (label ++ " column '" ++ cc_name column ++ "': " ++ reason) :: refused)
      end
  end.

Definition classify_columns (table : CatalogTable) (label : string) (mode : option string) : list LogicalField * list RefusedColumn :=
  let table_name := catalog_identifier_string (ct_ident table) in
  match (match mode with None => Ok ModeNone | Some raw => ok_or (parse_mode raw) raw end) with
  | Err raw =>
      every_column_refused table label
        ("table " ++ table_name ++ " sets " ++ COLUMN_MAPPING_MODE_PROPERTY ++ " to '" ++ raw ++ "', which is none of 'none', 'id', and 'name'")
  | Ok mode =>
      let '(fields, refused_columns) := spark_fields (ct_columns table) (ct_format table) label in
      match struct_check fields with
      | Err error => every_column_refused table label ("the columns of table " ++ table_name ++ " do not form one Spark schema: " ++ error)
      | Ok _ =>
          let '(logical_schema, classified_refusals) := classify_spark_schema fields mode label in
          (logical_schema, refused_columns ++ classified_refusals)%list
      end
  end.

(** The label and the column-mapping property of a table this arm declares. *)
Definition declaration_arm (table : CatalogTable) : option (string * option string) :=
  match ct_format table, cc_source_type <$> head (ct_columns table) with
  | FmtParquet, Some (Unity _) => Some ("Unity Parquet", None)
  | FmtParquet, Some (Glue _) => Some ("Glue", None)
  | FmtDelta, Some (Unity _) => Some ("Delta", ct_properties table !! COLUMN_MAPPING_MODE_PROPERTY)
  | _, _ => None
  end.

Definition declare_column (table : CatalogTable) (logical_schema : list LogicalField) (refused_columns : list RefusedColumn) (column : CatalogColumn)
  : ColumnDeclaration :=
  MkColumnDeclaration
    (default (refused_placeholder (cc_name column)) (List.find (fun f => String.eqb (lf_name f) (cc_name column)) logical_schema))
    (N.of_nat <$> Text.position (fun name => String.eqb name (cc_name column)) (ct_partition_columns table))
    (reason <$> List.find (fun r => String.eqb (column_name r) (cc_name column)) refused_columns).

Definition declare (table : CatalogTable) : list ColumnDeclaration :=
  match declaration_arm table with
  | None => []
  | Some (label, mode) =>
      let '(logical_schema, refused_columns) := classify_columns table label mode in
      map (declare_column table logical_schema refused_columns) (ct_columns table)
  end.

Context (print : Json -> string) (show_f32 show_f64 : Z -> string).

Definition declare_columns (table : CatalogTable) : list (option string) :=
  let catalog_declared := declare table in
  imap (fun index column =>
    match cc_declaration column, cc_source_type column with
    | Some note, _ => Some note
    | None, Iceberg field => Some (ColumnNotes.encode print (IcebergTable.declaration show_f32 show_f64 field))
    | None, (Unity _ | Glue _) => ColumnNotes.encode print <$> catalog_declared !! index
    | None, Parquet _ => None
    end) (ct_columns table).
End Catalog.

(** ** Every column is declared or refused *)

Section Declared.
Context {DK : DeltaKernel} {JD : JsonDisplay} (parse_mode : string -> option ColumnMappingMode).

Lemma classify_field_name mode label f lf : classify_field mode label f = inl lf -> lf_name lf = spark_name f.
Proof.
  unfold classify_field. destruct (walk_field mode f _) as [[d|]|] eqn:E; try done. intros [= <-]. cbn. by eapply walk_field_name.
Qed.

Lemma spark_field_name column format f : spark_field column format = Ok f -> spark_name f = cc_name column.
Proof.
  unfold spark_field. destruct (cc_source_type column); try done; [destruct (unity_spark_field _) as [x|]; [|done]|destruct (parse_hive_type _) as [x|[]]; try done];
    by intros [= <-].
Qed.

(** A column without a refusal of its name has a field of its own. *)
Lemma spark_fields_own columns format label column :
  column ∈ columns -> cc_name column ∉ map column_name (spark_fields columns format label).2 ->
  exists f, spark_field column format = Ok f /\ f ∈ (spark_fields columns format label).1.
Proof.
  induction columns as [|c columns IH]; [by intros H%elem_of_nil|]. cbn [spark_fields]. destruct (spark_fields columns format label) as [fields refused].
  cbn [fst snd] in IH. destruct (spark_field c format) as [f|r] eqn:Ef; cbn [fst snd map].
  - intros [->|Hin]%elem_of_cons Hn; [exists f; split; [done|by left]|]. destruct (IH Hin Hn) as (g & Hg & Hin'). exists g. split; [done|by right].
  - intros [->|Hin]%elem_of_cons Hn; [exfalso; apply Hn; by left|]. apply IH; [done|]. intros H. apply Hn. by right.
Qed.

Lemma classified_own fields mode label f :
  f ∈ fields -> spark_name f ∉ map column_name (classify_spark_schema fields mode label).2 ->
  exists lf, classify_field mode label f = inl lf /\ lf ∈ (classify_spark_schema fields mode label).1.
Proof.
  induction fields as [|g fields IH]; [by intros H%elem_of_nil|]. cbn [classify_spark_schema]. destruct (classify_spark_schema fields mode label) as [logical refused].
  cbn [fst snd] in IH. destruct (classify_field mode label g) as [lf|r] eqn:Eg; cbn [fst snd map].
  - intros [->|Hin]%elem_of_cons Hn; [exists lf; split; [done|by left]|]. destruct (IH Hin Hn) as (x & Hx & Hin'). exists x. split; [done|by right].
  - intros [->|Hin]%elem_of_cons Hn.
    + exfalso. apply Hn. assert (column_name r = spark_name g) as ->; [|by left].
      unfold classify_field in Eg. destruct (walk_field mode g _) as [[]|]; try done; by injection Eg as <-.
    + apply IH; [done|]. intros H. apply Hn. by right.
Qed.

Lemma not_refused name refused : (reason <$> List.find (fun r => String.eqb (column_name r) name) refused) = None -> name ∉ map column_name refused.
Proof.
  destruct (List.find _ refused) eqn:E; [done|]. intros _ (r & -> & Hr)%list_elem_of_fmap. apply list_elem_of_In in Hr.
  apply (List.find_none _ _ E) in Hr. by rewrite String.eqb_refl in Hr.
Qed.

(** With distinct names a field is found under its own. *)
Lemma find_named logical (lf : LogicalField) :
  NoDup (map lf_name logical) -> lf ∈ logical -> List.find (fun f => String.eqb (lf_name f) (lf_name lf)) logical = Some lf.
Proof.
  induction logical as [|g logical IH]; [by intros _ H%elem_of_nil|]. cbn [map]. intros [Hn Hd]%NoDup_cons [->|Hin]%elem_of_cons; cbn [List.find].
  - by rewrite String.eqb_refl.
  - destruct (String.eqb_spec (lf_name g) (lf_name lf)) as [E|]; [|by apply IH]. exfalso. apply Hn. rewrite E. apply list_elem_of_fmap. by exists lf.
Qed.

Lemma Forall2_map_self {A B} (P : A -> B -> Prop) (f : A -> B) l : (forall x, x ∈ l -> P x (f x)) -> Forall2 P l (map f l).
Proof. induction l as [|x l IH]; intros H; cbn; [constructor|]. constructor; [apply H; by left|]. apply IH. intros y Hy. apply H. by right. Qed.
End Declared.

(** No column of a Unity or Glue table is lost or declared as another: there is one
    declaration per column, in order, under the column's own name; and a declaration
    without a refusal carries exactly the field the classification maps that column's own
    type to, under a column-mapping mode the catalog names - never a placeholder. *)
Theorem catalog_columns_declared {DK : DeltaKernel} {JD : JsonDisplay} parse_mode table label mode :
  declaration_arm table = Some (label, mode) ->
  (forall fields, struct_check fields = Ok tt -> NoDup (map spark_name fields)) ->
  Forall2 (fun column d =>
    lf_name (source_type d) = cc_name column
    /\ (refused d = None -> exists m f, match mode with None => m = ModeNone | Some raw => parse_mode raw = Some m end
          /\ spark_field column (ct_format table) = Ok f /\ classify_field m label f = inl (source_type d)))
    (ct_columns table) (declare parse_mode table).
Proof.
  intros Harm Hdistinct. unfold declare. rewrite Harm. destruct (classify_columns parse_mode table label mode) as [logical refused] eqn:Ec.
  apply Forall2_map_self. intros column Hin. cbn [declare_column source_type ColumnNotes.refused]. split.
  { destruct (List.find _ logical) as [lf|] eqn:Ef; [|done]. apply List.find_some in Ef as [_ Ef]. by apply String.eqb_eq in Ef. }
  intros Hr%not_refused. unfold classify_columns in Ec.
  assert (Hall : forall cause, every_column_refused table label cause <> (logical, refused)).
  { intros cause [= _ <-]. apply Hr. rewrite map_map. apply list_elem_of_fmap. by exists column. }
  destruct (match mode with None => _ | Some _ => _ end) as [m|raw] eqn:Em; [|by apply Hall in Ec].
  destruct (spark_fields (ct_columns table) (ct_format table) label) as [fields refused'] eqn:Es.
  destruct (struct_check fields) as [[]|error] eqn:Ek; [|by apply Hall in Ec].
  pose proof (classified_columns_complete fields m label) as Hcl.
  destruct (classify_spark_schema fields m label) as [logical' classified] eqn:El. injection Ec as <- <-.
  rewrite map_app, elem_of_app in Hr. pose proof (spark_fields_own _ (ct_format table) label _ Hin) as Hown. rewrite Es in Hown. cbn [fst snd] in Hown.
  destruct Hown as (f & Hf & Hin'); [by intros ?; apply Hr; left|]. pose proof (spark_field_name _ _ _ Hf) as Hname.
  pose proof (classified_own fields m label f Hin') as Hcls. rewrite El in Hcls. cbn [fst snd] in Hcls.
  destruct Hcls as (lf & Hlf & Hlin); [rewrite Hname; by intros ?; apply Hr; right|].
  exists m, f. split_and!; [destruct mode as [raw|]; [destruct (parse_mode raw); [by injection Em as ->|done]|by injection Em as <-]|done|].
  rewrite Hlf. f_equal. pose proof (classify_field_name _ _ _ _ Hlf) as Hln. rewrite <- Hname, <- Hln, (find_named logical' lf); [done| |done].
  destruct Hcl as (_ & Hsub & _). eapply sublist_NoDup; [by apply Hdistinct|exact Hsub].
Qed.

(** A Glue table with one column of an unknown type. *)
Definition glue_table : CatalogTable :=
  MkCatalogTable (MkIdent ["db"] "t") TypeTable (Some "s3://b/t") FmtParquet None ["day"]
    [CatalogColumn_new "id" (Glue "bigint"); CatalogColumn_new "odd" (Glue "uniontype<int>"); CatalogColumn_new "day" (Glue "date")] None ∅.

(** The names of a schema must differ. *)
Definition distinct_kernel : DeltaKernel := {|
  decimal_valid p s := true;
  struct_check fields := if bool_decide (NoDup (map spark_name fields)) then Ok tt else Err "duplicate";
  spark_type_display _ := "";
  metadata_display _ := "";
  struct_field_of_json _ := Err "";
  primitive_of_json _ := None;
|}.

Lemma catalog_columns_declared_witness :
  map (fun d => (lf_arrow_type (source_type d), partition d, bool_decide (refused d = None))) (declare (DK := distinct_kernel) (JD := scalar_display) (fun _ => None) glue_table)
    = [("int64", None, true); ("utf8", None, false); ("date32", Some 0%N, true)]
  /\ Forall2 (fun column d => lf_name (source_type d) = cc_name column) (ct_columns glue_table) (declare (DK := distinct_kernel) (JD := scalar_display) (fun _ => None) glue_table).
Proof.
  split; [vm_compute; reflexivity|].
  eapply Forall2_impl; [apply (catalog_columns_declared (DK := distinct_kernel) (JD := scalar_display) (fun _ => None) glue_table "Glue" None eq_refl)|].
  - intros fields. cbn. by case_bool_decide.
  - intros c d [H _]. exact H.
Defined.
