(* ===== verification/Listing.v ===== *)
(** The listing of a catalog into virtual tables: adapter/skipped_tables.rs,
    adapter/scoped_refresh.rs, the listing half of lakehouse-catalog's client.rs, and
    [list_source], [build_listing_virtual_tables] and [build_schema_response] of
    adapter/mod.rs. *)

From stdpp Require Import base list strings numbers gmap sorting.
From Stdlib Require Import Ascii String ZArith NArith Lia Sorted.
From S2P Require Import Prelude Text Json ExasolType TypeMapping ColumnNode Hex SparkTypes ColumnNotes TableFilter TableIdentity Connection Properties Declaration.

Local Open Scope string_scope.

(** ** Skips *)

Inductive SkipReason :=
| NotLoadableIcebergTable
| LoadRejected (detail : string)
| NotDeltaBaseTable (detail : string)
| NoDataFile
| NotPlannableGlueTable (detail : string).

Record SkippedTable := MkSkipped { sk_ident : CatalogTableIdent; sk_reason : SkipReason }.
Record CatalogListing := MkListing { li_tables : list CatalogTable; li_skipped : list SkippedTable }.
Inductive TableAdmission := TableLoaded (table : CatalogTable) | TableSkipped (entry : SkippedTable).

(** [FromIterator<TableAdmission> for CatalogListing]. *)
Definition add_admission (listing : CatalogListing) (admission : TableAdmission) : CatalogListing :=
  match admission with
  | TableLoaded table => MkListing (li_tables listing ++ [table]) (li_skipped listing)
  | TableSkipped entry => MkListing (li_tables listing) (li_skipped listing ++ [entry])
  end%list.

Definition collect_listing (admissions : list TableAdmission) : CatalogListing := fold_left add_admission admissions (MkListing [] []).

(** The trait [CatalogClient]: the identifiers of a namespace, and the load of the given
    ones; listing is the trait's default method. *)
Class CatalogClient (C : Type) := {
  list_table_idents : C -> list string -> result UdfError (list CatalogTableIdent);
  load_listed_tables : C -> list CatalogTableIdent -> result UdfError CatalogListing;
}.

Definition list_tables {C} `{CatalogClient C} (client : C) (namespace : list string) (exposes : CatalogTableIdent -> bool) : result UdfError CatalogListing :=
  let? idents := list_table_idents client namespace in
  load_listed_tables client (List.filter exposes idents).

(** ** The skipped-table notes *)

Definition NOTE_SKIPPED_TABLES : string := "SKIPPED_TABLES".
Definition NOTE_SKIPPED_TABLES_OMITTED : string := "SKIPPED_TABLES_OMITTED".
Definition ADAPTER_NOTES_MAX_BYTES : N := 2000000.

Record SkipEntry := MkSkipEntry { se_table : string; se_reason : string }.

#[export] Instance SkipEntry_eq_dec : EqDecision SkipEntry.
Proof. solve_decision. Defined.

Definition skip_to_json (e : SkipEntry) : Json := json_object [("table", JString (se_table e)); ("reason", JString (se_reason e))].
Definition skip_from_json (j : Json) : option SkipEntry :=
  table ← get_str j "table"; reason ← get_str j "reason"; Some (MkSkipEntry table reason).

Definition skip_kind_and_reason (entry : SkippedTable) : string * string :=
  match sk_reason entry with
  | NotLoadableIcebergTable => ("non-Iceberg table", "catalog reported it is not a loadable Iceberg table")
  | LoadRejected detail => ("unloadable table", detail)
  | NotDeltaBaseTable detail => ("non-Delta-base entry", detail)
  | NoDataFile => ("directory", "holds no data file")
  | NotPlannableGlueTable detail => ("Glue table", detail)
  end.

Definition skip_entry (s : SkippedTable) : SkipEntry := MkSkipEntry (catalog_identifier_string (sk_ident s)) (skip_kind_and_reason s).2.

Record SkippedTables := MkSkippedTables { entries : list SkipEntry; omitted : N }.

(** [collect] into a map keyed by table: the last entry of a table. *)
Definition entry_lookup (s : SkippedTables) : CatalogTableIdent -> option SkipEntry :=
  let by_table : gmap string SkipEntry := fold_left (fun m e => <[se_table e := e]> m) (entries s) ∅ in
  fun ident => by_table !! catalog_identifier_string ident.

Definition listed (skipped : list SkippedTable) : SkippedTables := MkSkippedTables (map skip_entry skipped) 0.

Definition USIZE_MAX : N := 18446744073709551615.

Definition persisted (notes : list (string * Json)) : SkippedTables :=
  MkSkippedTables
    (omap skip_from_json (default [] (get_array (JObject notes) NOTE_SKIPPED_TABLES)))
    (default 0%N (get_str (JObject notes) NOTE_SKIPPED_TABLES_OMITTED ≫= parse_unsigned USIZE_MAX)).

Section Notes.
Context {JD : JsonDisplay}.

Definition text_len (j : Json) : N := N.of_nat (String.length (json_to_string j)).

Definition omitted_entry_len (count : N) : N :=
  if (count =? 0)%N then 0%N else (text_len (json_object [(NOTE_SKIPPED_TABLES_OMITTED, JString (show_N count))]) - 2 + 1)%N.

Definition saturating_add (a b : N) : N := N.min (a + b) USIZE_MAX.

(** The loop of [fit_skipped_tables]: the entries kept so far and their text. *)
Fixpoint fit_prefix (notes_len : N -> N -> N) (kept kept_len : N) (l : list Json) : N :=
  match l with
  | [] => kept
  | entry :: l' =>
      let next_len := (kept_len + (if (0 <? kept)%N then 1 else 0) + text_len entry)%N in
      if (ADAPTER_NOTES_MAX_BYTES <? notes_len (kept + 1) next_len)%N then kept else fit_prefix notes_len (kept + 1)%N next_len l'
  end.

Definition fit_skipped_tables (l : list Json) (base_len carried : N) : list Json * N :=
  let total := N.of_nat (List.length l) in
  let omitted_after kept := saturating_add carried (total - kept) in
  let notes_len kept kept_len := (base_len + kept_len + omitted_entry_len (omitted_after kept))%N in
  let kept := fit_prefix notes_len 0 0 l in
  (take (N.to_nat kept) l, omitted_after kept).

(** [Map::remove]. *)
Definition map_remove (key : string) (m : list (string * Json)) : list (string * Json) := List.filter (fun kv => negb (String.eqb kv.1 key)) m.

Definition insert_skipped_tables (notes : list (string * Json)) (skipped : SkippedTables) : list (string * Json) :=
  let base := map_remove NOTE_SKIPPED_TABLES_OMITTED (map_insert NOTE_SKIPPED_TABLES (JArray []) notes) in
  let '(kept, omitted) := fit_skipped_tables (map skip_to_json (entries skipped)) (text_len (JObject base)) (omitted skipped) in
  let notes := map_insert NOTE_SKIPPED_TABLES (JArray kept) base in
  if (0 <? omitted)%N then map_insert NOTE_SKIPPED_TABLES_OMITTED (JString (show_N omitted)) notes else notes.
End Notes.

(** ** Scoped refresh *)

Section Refresh.
Context {UC : UnicodeCase} {JD : JsonDisplay}.

(** The names of a partial refresh; [None] when everything is refreshed. *)
Definition from_request (request : Json) : result UdfError (option (gset string)) :=
  if bool_decide (get_str request "type" = Some "refresh") then
    match get request "requestedTables" with
    | None => Ok None
    | Some value =>
        match names ← as_array value; mapM as_str names with
        | Some names => Ok (Some (list_to_set names))
        | None => Err (User ("refresh: requestedTables must be an array of table names, but is " ++ json_to_string value))
        end
    end
  else Ok None.

Definition is_requested (requested : gset string) (configured_ns : list string) (ident : CatalogTableIdent) : bool :=
  bool_decide (flatten_table_name configured_ns ident ∈ requested).

Definition selection (requested : gset string) (configured_ns : list string) (listed : list CatalogTableIdent) : list CatalogTableIdent :=
  List.filter (is_requested requested configured_ns) listed.

Definition merge_skipped_tables (requested : gset string) (configured_ns : list string) (listed : list CatalogTableIdent)
    (loaded : list SkippedTable) (persisted : SkippedTables) : SkippedTables :=
  MkSkippedTables
    (omap (fun ident =>
       if is_requested requested configured_ns ident
       then skip_entry <$> List.find (fun s => bool_decide (sk_ident s = ident)) loaded
       else entry_lookup persisted ident) listed)
    (omitted persisted).

(** [parse_adapter_notes]: the notes are a text that holds an object. *)
Definition parse_adapter_notes (parse : string -> option Json) (request : Json) : list (string * Json) :=
  default [] (smi ← get request "schemaMetadataInfo"; text ← nonempty_str smi "adapterNotes"; v ← parse text; as_object v).

Definition exposes_ident (table_filter : TableFilter) (configured_ns : list string) (ident : CatalogTableIdent) : bool :=
  default false (TableFilter.exposes table_filter (chars (flatten_table_name configured_ns ident))).

Definition list_source {C} `{CatalogClient C} (parse : string -> option Json) (client : C) (configured_ns : list string) (table_filter : TableFilter) (request : Json)
  : result UdfError (CatalogListing * SkippedTables) :=
  let exposes := exposes_ident table_filter configured_ns in
  let? requested := from_request request in
  match requested with
  | None =>
      let? listing := list_tables client configured_ns exposes in
      Ok (listing, listed (li_skipped listing))
  | Some requested =>
      let? idents := list_table_idents client configured_ns in
      let idents := List.filter exposes idents in
      let? listing := load_listed_tables client (selection requested configured_ns idents) in
      Ok (listing, merge_skipped_tables requested configured_ns idents (li_skipped listing) (persisted (parse_adapter_notes parse request)))
  end.

Definition skip_warning (entry : SkippedTable) : string :=
  let '(kind, reason) := skip_kind_and_reason entry in
  "createVirtualSchema: skipping " ++ kind ++ " '" ++ catalog_identifier_string (sk_ident entry) ++ "' (" ++ reason ++ ")".
End Refresh.

(** ** The response *)

Section Response.
Context {UC : UnicodeCase} {DK : DeltaKernel} {JD : JsonDisplay}.
Context (parse_mode : string -> option ColumnMappingMode) (print : Json -> string) (show_f32 show_f64 : Z -> string).

Definition listing_column (exasol_name : string) (engine : EngineTimestampSupport) (cn : CatalogColumn * option string) : result UdfError Json :=
  let column_name := to_uppercase (cc_name cn.1) in
  let fields := [("name", JString column_name); ("dataType", exasol_type_to_json (column_source_type_to_exasol (cc_source_type cn.1) engine))] in
  match cn.2 with
  | None => Ok (json_object fields)
  | Some note =>
      let? note := checked_note exasol_name column_name note in
      Ok (json_object (fields ++ [("adapterNotes", JString note)])%list)
  end.

Definition listing_table (configured_ns : list string) (engine : EngineTimestampSupport) (t : CatalogTable) : result UdfError Json :=
  let exasol_name := flatten_table_name configured_ns (ct_ident t) in
  let? columns := try_map (listing_column exasol_name engine) (zip (ct_columns t) (declare_columns parse_mode print show_f32 show_f64 t)) in
  Ok (json_object [("name", JString exasol_name); ("adapterNotes", JString (encode_identifier_note print (ct_ident t))); ("columns", JArray columns)]).

Definition build_listing_virtual_tables (configured_ns : list string) (listing : CatalogListing) (engine : EngineTimestampSupport) : result UdfError (list Json) :=
  let? _ := reject_name_collisions configured_ns (map ct_ident (li_tables listing)) in
  try_map (listing_table configured_ns engine) (li_tables listing).

Definition build_schema_response (request schema_metadata : Json) : Json :=
  let response_type := default "createVirtualSchema" (get_str request "type") in
  json_object ([("type", JString response_type); ("schemaMetadata", schema_metadata)]
    ++ match get request "requestedTables" with Some requested => [("requestedTables", requested)] | None => [] end)%list.
End Response.

(** ** The notes stay within Exasol's limit *)

Definition total (l : list N) : N := foldr N.add 0%N l.
Definition commas {A} (l : list A) : N := N.of_nat (List.length l - 1).

(** The length of [serde_json]'s compact text: brackets, separators and the parts. *)
Class CompactJson (JD : JsonDisplay) : Prop := {
  array_text_len l : text_len (JArray l) = (2 + total (map text_len l) + commas l)%N;
  object_text_len m : text_len (JObject m) = (2 + total (map (fun kv => text_len (JString kv.1) + 1 + text_len kv.2) m) + commas m)%N;
}.

Lemma string_compare_trans a b c : String.compare a b = Lt -> String.compare b c = Lt -> String.compare a c = Lt.
Proof.
  revert b c. induction a as [|x a IH]; intros [|y b] [|z c]; try done. rewrite !Hex.string_compare_cons, !Hex.ascii_compare_code.
  destruct (N.compare_spec (code x) (code y)), (N.compare_spec (code y) (code z)), (N.compare_spec (code x) (code z)); try done; try lia. apply IH.
Qed.

(** A [BTreeMap]'s entries. *)
Definition keys_sorted (m : list (string * Json)) : Prop := StronglySorted (fun a b => String.compare a.1 b.1 = Lt) m.

Lemma map_insert_elem key v m x : x ∈ map_insert key v m -> x = (key, v) \/ x ∈ m.
Proof.
  induction m as [|[k w] m IH]; cbn [map_insert]; [intros [->|H]%elem_of_cons; [by left|by apply elem_of_nil in H]|].
  destruct (String.compare key k); rewrite !elem_of_cons; [tauto..|]. intros [->|H]; [tauto|]. apply IH in H. tauto.
Qed.

Lemma insert_keys_sorted key v m : keys_sorted m -> keys_sorted (map_insert key v m).
Proof.
  unfold keys_sorted. induction m as [|[k w] m IH]; intros Hs; cbn [map_insert]; [by repeat constructor|].
  inversion Hs as [|? ? Hm Hk]; subst. destruct (String.compare key k) eqn:E.
  - apply String.compare_eq_iff in E as ->. by constructor.
  - constructor; [done|]. constructor; [done|]. eapply Forall_impl; [exact Hk|]. intros x. cbn. by apply string_compare_trans.
  - constructor; [by apply IH|]. apply Forall_forall. intros x [->|Hx]%map_insert_elem; [cbn|by eapply Forall_forall in Hk].
    rewrite String.compare_antisym, E. done.
Qed.

Lemma map_get_remove key m key' : map_get key' (map_remove key m) = if String.eqb key key' then None else map_get key' m.
Proof.
  unfold map_remove. induction m as [|[k w] m IH]; cbn [List.filter map_get fst]; [by destruct (String.eqb key key')|].
  destruct (String.eqb_spec k key) as [->|Hk]; cbn [negb].
  - rewrite IH. by destruct (String.eqb_spec key key').
  - cbn [map_get]. rewrite IH. destruct (String.eqb_spec k key') as [->|]; [|done]. by destruct (String.eqb_spec key key').
Qed.

Lemma remove_keys_sorted key m : keys_sorted m -> keys_sorted (map_remove key m).
Proof.
  unfold keys_sorted, map_remove. induction 1 as [|x m Hm IH Hx]; cbn [List.filter]; [constructor|]. destruct (negb _); [|done]. constructor; [done|].
  apply Forall_forall. intros y Hy%list_elem_of_In. apply List.filter_In in Hy as [Hy _]. eapply Forall_forall in Hx; [done|by apply list_elem_of_In].
Qed.

Section Fit.
Context {JD : JsonDisplay} {CJ : CompactJson JD}.

Definition weight (kv : string * Json) : N := (text_len (JString kv.1) + 1 + text_len kv.2)%N.

Lemma insert_new key v m : map_get key m = None ->
  total (map weight (map_insert key v m)) = (total (map weight m) + weight (key, v))%N /\ List.length (map_insert key v m) = S (List.length m).
Proof.
  induction m as [|[k w] m IH]; cbn [map_insert map_get]; [by cbn; lia|]. destruct (String.eqb_spec k key) as [->|Hk]; [done|]. intros Hm.
  destruct (String.compare key k) eqn:E; [apply String.compare_eq_iff in E; congruence|cbn [map total foldr List.length]; lia|].
  destruct (IH Hm) as [IH1 IH2]. cbn [map total foldr List.length] in *. unfold total in *. rewrite IH1, IH2. lia.
Qed.

Lemma insert_present key v m old : keys_sorted m -> map_get key m = Some old ->
  (total (map weight (map_insert key v m)) + weight (key, old) = total (map weight m) + weight (key, v))%N /\ List.length (map_insert key v m) = List.length m.
Proof.
  unfold keys_sorted. induction 1 as [|[k w] m Hm IH Hk]; [done|]. cbn [map_insert map_get]. destruct (String.eqb_spec k key) as [->|Hne].
  - intros [= <-]. rewrite string_compare_refl. cbn [map total foldr List.length]. lia.
  - intros Hg. pose proof (map_get_elem _ _ _ Hg) as Hin. eapply Forall_forall in Hk; [|exact Hin]. cbn in Hk.
    rewrite String.compare_antisym, Hk. cbn [CompOpp]. destruct (IH Hg) as [IH1 IH2]. cbn [map total foldr List.length] in *. unfold total in *. rewrite IH2. lia.
Qed.

(** The entries' share of the list's text. *)
Definition entries_len (l : list Json) : N := (total (map text_len l) + commas l)%N.

Lemma total_app a b : total (a ++ b) = (total a + total b)%N.
Proof. induction a as [|x a IH]; [done|]. cbn. unfold total in *. rewrite IH. lia. Qed.

Lemma entries_len_snoc l e : entries_len (l ++ [e]) = (entries_len l + (if (0 <? N.of_nat (List.length l))%N then 1 else 0) + text_len e)%N.
Proof.
  unfold entries_len, commas. rewrite map_app, total_app, length_app. cbn [map total foldr List.length].
  destruct l as [|x l]; [change (0 <? N.of_nat (List.length (@nil Json)))%N with false; cbn [map total foldr List.length Nat.add Nat.sub]; lia|]. destruct (N.ltb_spec 0 (N.of_nat (List.length (x :: l)))); cbn [List.length] in *; lia.
Qed.

Lemma fit_prefix_spec notes_len suf : forall pre,
  let k := fit_prefix notes_len (N.of_nat (List.length pre)) (entries_len pre) suf in
  exists kept dropped, (pre ++ suf = kept ++ dropped)%list /\ k = N.of_nat (List.length kept)
    /\ (kept = pre \/ (notes_len k (entries_len kept) <= ADAPTER_NOTES_MAX_BYTES)%N)
    /\ (forall e rest, dropped = e :: rest -> (ADAPTER_NOTES_MAX_BYTES < notes_len (k + 1) (entries_len (kept ++ [e])))%N).
Proof.
  induction suf as [|e suf IH]; intros pre; cbn [fit_prefix].
  - exists pre, []. split_and!; [done|done|by left|done].
  - rewrite <- entries_len_snoc. destruct (N.ltb_spec ADAPTER_NOTES_MAX_BYTES (notes_len (N.of_nat (List.length pre) + 1) (entries_len (pre ++ [e])))%N) as [Hgt|Hle].
    + exists pre, (e :: suf). split_and!; [done|done|by left|]. by intros ? ? [= <- <-].
    + assert (Hlen : N.of_nat (List.length (pre ++ [e])) = (N.of_nat (List.length pre) + 1)%N) by (rewrite length_app; cbn; lia).
      destruct (IH (pre ++ [e])%list) as (kept & dropped & Hs & Hk & Hfit & Hmax). rewrite Hlen in *.
      exists kept, dropped. rewrite <- (List.app_assoc pre [e] suf) in Hs. split_and!; [done|done| |done].
      right. destruct Hfit as [->|Hfit]; [|done]. rewrite Hk, Hlen. lia.
Qed.

(** The notes that record [kept] and [omitted] over [base]. *)
Definition noted (base : list (string * Json)) (kept : list Json) (omitted : N) : list (string * Json) :=
  let notes := map_insert NOTE_SKIPPED_TABLES (JArray kept) base in
  if (0 <? omitted)%N then map_insert NOTE_SKIPPED_TABLES_OMITTED (JString (show_N omitted)) notes else notes.

Definition notes_base (notes : list (string * Json)) : list (string * Json) :=
  map_remove NOTE_SKIPPED_TABLES_OMITTED (map_insert NOTE_SKIPPED_TABLES (JArray []) notes).

Lemma base_keys notes :
  map_get NOTE_SKIPPED_TABLES (notes_base notes) = Some (JArray []) /\ map_get NOTE_SKIPPED_TABLES_OMITTED (notes_base notes) = None.
Proof. unfold notes_base. by rewrite !map_get_remove, !map_get_insert. Qed.

Lemma noted_len notes kept om : keys_sorted notes ->
  text_len (JObject (noted (notes_base notes) kept om)) = (text_len (JObject (notes_base notes)) + entries_len kept + omitted_entry_len om)%N.
Proof.
  intros Hs. destruct (base_keys notes) as [Hk Ho]. set (base := notes_base notes) in *.
  assert (Hb : keys_sorted base) by (by apply remove_keys_sorted, insert_keys_sorted).
  destruct (insert_present NOTE_SKIPPED_TABLES (JArray kept) base _ Hb Hk) as [Hw Hl].
  assert (Hne : (1 <= List.length base)%nat) by (destruct base; [done|cbn; lia]).
  assert (Hmid : text_len (JObject (map_insert NOTE_SKIPPED_TABLES (JArray kept) base)) = (text_len (JObject base) + entries_len kept)%N).
  { rewrite !object_text_len. fold weight. change (fun kv => _) with weight. unfold commas. rewrite Hl. unfold weight in Hw at 2 4. cbn [fst snd] in Hw.
    rewrite !array_text_len in Hw. unfold entries_len. change (total (map text_len [])) with 0%N in Hw. change (commas (@nil Json)) with 0%N in Hw. lia. }
  unfold noted, omitted_entry_len. destruct (N.ltb_spec 0 om) as [Hpos|Hz]; [|replace om with 0%N by lia; rewrite Hmid; cbn; lia].
  destruct (N.eqb_spec om 0) as [->|_]; [lia|].
  assert (Hn : map_get NOTE_SKIPPED_TABLES_OMITTED (map_insert NOTE_SKIPPED_TABLES (JArray kept) base) = None) by (by rewrite map_get_insert).
  destruct (insert_new _ (JString (show_N om)) _ Hn) as [Hw' Hl'].
  set (mid := map_insert NOTE_SKIPPED_TABLES (JArray kept) base) in *. pose proof (object_text_len mid) as H1.
  pose proof (object_text_len (map_insert NOTE_SKIPPED_TABLES_OMITTED (JString (show_N om)) mid)) as H2.
  pose proof (object_text_len [(NOTE_SKIPPED_TABLES_OMITTED, JString (show_N om))]) as H3.
  change (json_object [(NOTE_SKIPPED_TABLES_OMITTED, JString (show_N om))]) with (JObject [(NOTE_SKIPPED_TABLES_OMITTED, JString (show_N om))]).
  change (fun kv => _) with weight in *. unfold commas in *. rewrite Hl', Hw' in H2. cbn [map total foldr List.length Nat.sub] in H3. lia.
Qed.

Lemma kept_read_back kept : omap skip_from_json (map skip_to_json kept) = kept.
Proof. induction kept as [|[a b] kept IH]; [done|]. cbn. by rewrite IH. Qed.

Lemma noted_reads_back notes kept om : (om <= USIZE_MAX)%N ->
  persisted (noted (notes_base notes) (map skip_to_json kept) om) = MkSkippedTables kept om.
Proof.
  intros Hm. destruct (base_keys notes) as [Hk Ho]. unfold persisted, noted, get_array, get_str, get.
  destruct (N.ltb_spec 0 om) as [Hpos|Hz]; rewrite !map_get_insert; cbn [String.eqb mbind option_bind as_array default]; unfold from_option, id;
    change (String.eqb NOTE_SKIPPED_TABLES_OMITTED NOTE_SKIPPED_TABLES) with false; change (String.eqb NOTE_SKIPPED_TABLES NOTE_SKIPPED_TABLES_OMITTED) with false;
    rewrite !String.eqb_refl; cbn [mbind option_bind as_array as_str]; rewrite kept_read_back.
  - by rewrite parse_unsigned_show.
  - rewrite Ho. cbn. f_equal. lia.
Qed.
End Fit.

(** Whatever the catalog skips, the schema notes stay within what Exasol stores, and
    what they record is read back: the notes hold a listing-order prefix of the skipped
    tables and the count of the dropped ones, added to those dropped before; a later
    request reads back exactly that prefix and count; every other note is untouched; the
    text is within two million bytes unless it already is over with none of them; and one
    more entry would not fit. *)
Theorem skipped_notes_fit {JD : JsonDisplay} {CJ : CompactJson JD} notes skipped :
  keys_sorted notes ->
  exists kept dropped, entries skipped = (kept ++ dropped)%list
    /\ let om := saturating_add (omitted skipped) (N.of_nat (List.length dropped)) in
       let out := insert_skipped_tables notes skipped in
       persisted out = MkSkippedTables kept om
       /\ (forall key, key <> NOTE_SKIPPED_TABLES -> key <> NOTE_SKIPPED_TABLES_OMITTED -> map_get key out = map_get key notes)
       /\ ((text_len (JObject out) <= ADAPTER_NOTES_MAX_BYTES)%N \/ kept = [])
       /\ (forall e rest, dropped = e :: rest ->
            (ADAPTER_NOTES_MAX_BYTES < text_len (JObject (noted (notes_base notes) (map skip_to_json (kept ++ [e]))
               (saturating_add (omitted skipped) (N.of_nat (List.length rest))))))%N).
Proof.
  intros Hs. set (js := map skip_to_json (entries skipped)). set (base := notes_base notes).
  set (notes_len := fun kept kept_len => (text_len (JObject base) + kept_len + omitted_entry_len (saturating_add (omitted skipped) (N.of_nat (List.length js) - kept)))%N).
  destruct (fit_prefix_spec notes_len js []) as (kj & dj & Hsplit & Hk & Hfit & Hmax). cbn [app List.length] in Hsplit, Hk, Hfit, Hmax.
  change (N.of_nat 0) with 0%N in *. change (entries_len []) with 0%N in *.
  exists (take (List.length kj) (entries skipped)), (drop (List.length kj) (entries skipped)). split; [by rewrite take_drop|]. cbn zeta.
  assert (Hkj : kj = map skip_to_json (take (List.length kj) (entries skipped))).
  { rewrite <- (take_app_length kj dj) at 1. rewrite <- Hsplit. unfold js. by rewrite <- fmap_take. }
  assert (Hdj : dj = map skip_to_json (drop (List.length kj) (entries skipped))).
  { rewrite <- (drop_app_length kj dj) at 1. rewrite <- Hsplit. unfold js. by rewrite <- fmap_drop. }
  assert (Hd : (N.of_nat (List.length js) - fit_prefix notes_len 0 0 js = N.of_nat (List.length (drop (List.length kj) (entries skipped))))%N).
  { rewrite Hk, Hsplit, length_app. rewrite <- (length_map skip_to_json), <- Hdj. lia. }
  remember (saturating_add (omitted skipped) (N.of_nat (List.length (drop (List.length kj) (entries skipped))))) as om eqn:Eom. assert (Hout : insert_skipped_tables notes skipped = noted base kj om).
  { unfold insert_skipped_tables, fit_skipped_tables. fold js base. fold notes_len. cbv beta zeta. fold (notes_base notes). fold base.
    change (fun kept kept_len => _) with notes_len. rewrite Hd, <- Eom, Hk, Nat2N.id, Hsplit, take_app_length. done. }
  rewrite Hout. remember (fit_prefix notes_len 0 0 js) as k eqn:Ek. clear Ek. split_and!.
  - rewrite Hkj at 1. apply noted_reads_back. subst om. unfold saturating_add. lia.
  - intros key H1 H2. unfold noted, base, notes_base. destruct (0 <? om)%N; rewrite !map_get_insert, map_get_remove, map_get_insert;
      rewrite ?(proj2 (String.eqb_neq NOTE_SKIPPED_TABLES key)), ?(proj2 (String.eqb_neq NOTE_SKIPPED_TABLES_OMITTED key)) by congruence; done.
  - unfold base. rewrite noted_len by done. destruct Hfit as [E|Hfit]; [right; by rewrite E|left].
    unfold notes_len in Hfit. rewrite Hd, <- Eom in Hfit. exact Hfit.
  - intros e rest He. unfold base. rewrite noted_len by done. specialize (Hmax (skip_to_json e) (map skip_to_json rest)). rewrite Hdj, He in Hmax. specialize (Hmax eq_refl).
    rewrite map_app, <- Hkj. cbn [map]. unfold notes_len in Hmax. fold base. replace (N.of_nat (List.length js) - (k + 1))%N with (N.of_nat (List.length rest)) in Hmax; [exact Hmax|].
    rewrite He in Hd. cbn [List.length] in Hd. lia.
Qed.

(** [serde_json]'s layout, without the escapes inside a text. *)
Fixpoint compact (j : Json) : string :=
  match j with
  | JNull => "null"
  | JBool b => if b then "true" else "false"
  | JNumber n => number_to_string n
  | JString s => dq ++ s ++ dq
  | JArray l => "[" ++ join "," (map compact l) ++ "]"
  | JObject m => "{" ++ join "," (map (fun kv => dq ++ kv.1 ++ dq ++ ":" ++ compact kv.2) m) ++ "}"
  end.

Definition compact_display : JsonDisplay := {| json_to_string := compact |}.

Lemma length_join l : String.length (join "," l) = foldr (fun s n => String.length s + n) 0 l + (List.length l - 1).
Proof.
  induction l as [|s [|s' l] IH]; [done|cbn; lia|]. change (join "," (s :: s' :: l)) with (s ++ "," ++ join "," (s' :: l)).
  rewrite !string_length_app, IH. cbn [foldr List.length String.length]. lia.
Qed.

Lemma foldr_lengths {A} (f : A -> string) l :
  N.of_nat (foldr (fun s n => String.length s + n) 0 (map f l)) = total (map (fun x => N.of_nat (String.length (f x))) l).
Proof. induction l as [|x l IH]; [done|]. cbn [map foldr total]. unfold total in IH. rewrite <- IH. lia. Qed.

#[local] Instance compact_laws : CompactJson compact_display.
Proof.
  split.
  - intros l. unfold text_len, commas. cbn [json_to_string compact_display compact]. rewrite !string_length_app, length_join, length_map.
    cbn [String.length]. rewrite !Nat2N.inj_add, foldr_lengths. change (fun x => N.of_nat (String.length (compact x))) with (text_len (JD := compact_display)). lia.
  - intros m. unfold text_len, commas. cbn [json_to_string compact_display compact]. rewrite !string_length_app, length_join, length_map.
    cbn [String.length]. rewrite !Nat2N.inj_add, foldr_lengths. rewrite (map_ext _ (fun kv : string * Json => N.of_nat (String.length (dq ++ kv.1 ++ dq)) + 1 + N.of_nat (String.length (compact kv.2)))%N); [lia|].
    intros [k v]. cbn [fst snd]. rewrite !string_length_app. cbn [String.length]. lia.
Qed.

Definition one_skip : SkippedTables := MkSkippedTables [MkSkipEntry "db.v" "table_type=VIEW"] 3.

Lemma skipped_notes_fit_witness :
  keys_sorted [("PARALLELISM_FACTOR", JString "4")]
  /\ persisted (insert_skipped_tables (JD := compact_display) [("PARALLELISM_FACTOR", JString "4")] one_skip) = MkSkippedTables [MkSkipEntry "db.v" "table_type=VIEW"] 3.
Proof.
  split; [by repeat constructor|].
  destruct (skipped_notes_fit (JD := compact_display) [("PARALLELISM_FACTOR", JString "4")] one_skip) as (kept & dropped & Hs & H); [by repeat constructor|].
  cbn zeta in H. destruct H as (Hp & _ & _ & Hmax). destruct dropped as [|e rest].
  - rewrite Hp. cbn [entries one_skip] in Hs. rewrite app_nil_r in Hs. subst kept. reflexivity.
  - specialize (Hmax e rest eq_refl). destruct kept as [|k kept]; [|by destruct kept]. injection Hs as <- <-. vm_compute in Hmax. discriminate.
Defined.

(** ** A partial refresh is the restriction of a full one *)

Definition admission_ident (a : TableAdmission) : CatalogTableIdent :=
  match a with TableLoaded t => ct_ident t | TableSkipped s => sk_ident s end.
Definition to_table (a : TableAdmission) : option CatalogTable := match a with TableLoaded t => Some t | TableSkipped _ => None end.
Definition to_skip (a : TableAdmission) : option SkippedTable := match a with TableLoaded _ => None | TableSkipped s => Some s end.

Lemma collect_from l ts ss : fold_left add_admission l (MkListing ts ss) = MkListing (ts ++ omap to_table l) (ss ++ omap to_skip l).
Proof.
  revert ts ss. induction l as [|[t|s] l IH]; intros ts ss; cbn [fold_left add_admission li_tables li_skipped omap]; [by rewrite !app_nil_r|..];
    rewrite IH; cbn; by rewrite <- app_assoc.
Qed.

Lemma collect_spec admissions : collect_listing admissions = MkListing (omap to_table admissions) (omap to_skip admissions).
Proof. apply collect_from. Qed.

Section Restriction.
Context {UC : UnicodeCase} {JD : JsonDisplay} {C : Type} `{CatalogClient C} (client : C).

(** The contract of [load_listed_tables]: each identifier is admitted or skipped on its
    own, as itself. *)
Context (load_one : CatalogTableIdent -> result UdfError TableAdmission).
Hypothesis Hload : forall idents, load_listed_tables client idents = let? l := try_map load_one idents in Ok (collect_listing l).
Hypothesis Hident : forall i a, load_one i = Ok a -> admission_ident a = i.

Lemma load_filtered (p : CatalogTableIdent -> bool) idents l :
  try_map load_one idents = Ok l -> try_map load_one (List.filter p idents) = Ok (List.filter (fun a => p (admission_ident a)) l).
Proof.
  revert l. induction idents as [|i idents IH]; intros l; cbn [try_map List.filter]; [by intros [= <-]|].
  destruct (load_one i) as [a|] eqn:Ea; [|done]. destruct (try_map load_one idents) as [l'|]; [|done]. intros [= <-]. cbn [List.filter].
  rewrite (Hident _ _ Ea). specialize (IH l' eq_refl). destruct (p i); [|done]. cbn [try_map]. by rewrite Ea, IH.
Qed.

Lemma loaded_idents idents l : try_map load_one idents = Ok l -> map admission_ident l = idents.
Proof.
  revert l. induction idents as [|i idents IH]; intros l; cbn [try_map]; [by intros [= <-]|]. destruct (load_one i) as [a|] eqn:Ea; [|done].
  destruct (try_map load_one idents) as [l'|]; [|done]. intros [= <-]. cbn [map]. by rewrite (Hident _ _ Ea), (IH l' eq_refl).
Qed.

Lemma tables_filtered p l : omap to_table (List.filter (fun a => p (admission_ident a)) l) = List.filter (fun t => p (ct_ident t)) (omap to_table l).
Proof. induction l as [|[t|s] l IH]; cbn; [done| |]; destruct (p _); cbn; by rewrite IH. Qed.

Lemma skips_filtered p l : omap to_skip (List.filter (fun a => p (admission_ident a)) l) = List.filter (fun s => p (sk_ident s)) (omap to_skip l).
Proof. induction l as [|[t|s] l IH]; cbn; [done| |]; destruct (p _); cbn; by rewrite IH. Qed.
End Restriction.

Lemma nodup_map_inj {A B} (f : A -> B) l x y : NoDup (map f l) -> x ∈ l -> y ∈ l -> f x = f y -> x = y.
Proof.
  induction l as [|z l IH]; [by intros _ H%elem_of_nil|]. cbn [map]. intros [Hz Hd]%NoDup_cons [->|Hx]%elem_of_cons [->|Hy]%elem_of_cons E; [done| | |by apply IH].
  - exfalso. apply Hz. rewrite E. apply list_elem_of_fmap. by exists y.
  - exfalso. apply Hz. rewrite <- E. apply list_elem_of_fmap. by exists x.
Qed.

Lemma notes_insert_lookup es m k :
  NoDup (map se_table es) ->
  fold_left (fun (m : gmap string SkipEntry) e => <[se_table e := e]> m) es m !! k
  = match List.find (fun e => String.eqb (se_table e) k) es with Some e => Some e | None => m !! k end.
Proof.
  revert m. induction es as [|e es IH]; intros m; [done|]. cbn [map fold_left List.find]. intros [Hn Hd]%NoDup_cons. rewrite IH by done.
  destruct (String.eqb_spec (se_table e) k) as [<-|Hk].
  - rewrite lookup_insert_eq. destruct (List.find _ es) as [e'|] eqn:Ef; [|done]. apply List.find_some in Ef as [Hin E%String.eqb_eq].
    exfalso. apply Hn. rewrite <- E. apply list_elem_of_fmap. exists e'. split; [done|by apply list_elem_of_In].
  - by rewrite lookup_insert_ne.
Qed.

Lemma in_skips (l : list TableAdmission) s : s ∈ omap to_skip l -> TableSkipped s ∈ l.
Proof. rewrite list_elem_of_omap. intros ([t|s'] & Hin & E); [done|]. cbn in E. by injection E as ->. Qed.

(** The one skip of an identifier, found by it or by its text. *)
Lemma find_skip {K} (key : SkippedTable -> K) (q : SkippedTable -> bool) (l : list TableAdmission) (ident_key : TableAdmission -> K) a :
  (forall s, ident_key (TableSkipped s) = key s) -> NoDup (map ident_key l) -> a ∈ l ->
  (forall s, s ∈ omap to_skip l -> q s = true <-> key s = ident_key a) -> List.find q (omap to_skip l) = to_skip a.
Proof.
  intros Hkey Hd Ha Hq. destruct (List.find q (omap to_skip l)) as [s|] eqn:Ef.
  - apply List.find_some in Ef as [Hs%list_elem_of_In Ht]. apply Hq in Ht; [|done]. apply in_skips in Hs.
    assert (a = TableSkipped s) as -> by (symmetry; eapply (nodup_map_inj ident_key l); try done; by rewrite Hkey). done.
  - destruct a as [t|s]; [done|]. assert (Hs : s ∈ omap to_skip l) by (apply list_elem_of_omap; by exists (TableSkipped s)).
    pose proof (List.find_none _ _ Ef s) as Hn. rewrite (proj2 (Hq s Hs)) in Hn; [|by rewrite Hkey]. by apply list_elem_of_In, Hn in Hs.
Qed.

Section Merge.
Context {UC : UnicodeCase} (requested : gset string) (ns : list string) (l : list TableAdmission).
Let key a := catalog_identifier_string (admission_ident a).
Hypothesis Hd : NoDup (map key l).

Lemma idents_distinct : NoDup (map admission_ident l).
Proof. apply (NoDup_fmap_1 catalog_identifier_string). by rewrite <- list_fmap_compose. Qed.

Lemma skip_tables_distinct : NoDup (map se_table (map skip_entry (omap to_skip l))).
Proof.
  revert Hd. induction l as [|[t|s] l' IH]; intros Hn; cbn; [constructor|by apply IH; apply NoDup_cons in Hn as [_ Hn]|].
  cbn [map] in Hn. apply NoDup_cons in Hn as [Hs Hn]. apply NoDup_cons. split; [|by apply IH]. intros Hin. apply Hs.
  rewrite map_map in Hin. apply list_elem_of_fmap in Hin as (s' & E & Hs'). apply list_elem_of_fmap. exists (TableSkipped s'). split; [exact E|by apply in_skips].
Qed.

Lemma merged_same :
  merge_skipped_tables requested ns (map admission_ident l)
    (List.filter (fun s => is_requested requested ns (sk_ident s)) (omap to_skip l)) (listed (omap to_skip l)) = listed (omap to_skip l).
Proof.
  unfold merge_skipped_tables, listed. cbn [entries omitted]. f_equal.
  assert (Hone : forall a, a ∈ l ->
    (if is_requested requested ns (admission_ident a)
     then skip_entry <$> List.find (fun s => bool_decide (sk_ident s = admission_ident a)) (List.filter (fun s => is_requested requested ns (sk_ident s)) (omap to_skip l))
     else entry_lookup (MkSkippedTables (map skip_entry (omap to_skip l)) 0) (admission_ident a)) = skip_entry <$> to_skip a).
  { intros a Ha. destruct (is_requested requested ns (admission_ident a)) eqn:Er.
    - rewrite <- skips_filtered. f_equal. rewrite (find_skip sk_ident _ _ admission_ident a); try done.
      + eapply sublist_NoDup; [apply idents_distinct|]. apply fmap_sublist. clear. induction l as [|x l' IH]; [constructor|]. cbn. destruct (is_requested _ _ _); by constructor.
      + apply list_elem_of_In, List.filter_In. split; [by apply list_elem_of_In|done].
      + intros s _. by rewrite bool_decide_eq_true.
    - unfold entry_lookup. cbn [entries]. rewrite notes_insert_lookup by apply skip_tables_distinct. rewrite lookup_empty.
      assert (Hf : List.find (fun e => String.eqb (se_table e) (key a)) (map skip_entry (omap to_skip l)) = skip_entry <$> to_skip a).
      { rewrite <- (find_skip (fun s => catalog_identifier_string (sk_ident s)) (fun s => String.eqb (catalog_identifier_string (sk_ident s)) (key a)) l key a); try done.
        - generalize (omap to_skip l) as ss. induction ss as [|s ss IH]; [done|]. cbn [map List.find skip_entry se_table].
          destruct (String.eqb _ _); [done|exact IH].
        - intros s _. apply String.eqb_eq. }
      fold (key a). rewrite Hf. by destruct (skip_entry <$> to_skip a). }
  clear Hd. set (ss := omap to_skip l) in Hone |- *. change (map skip_entry ss) with (map skip_entry (omap to_skip l)) at 2.
  assert (Hsub : forall l', (forall a, a ∈ l' -> a ∈ l) ->
    omap (fun ident => if is_requested requested ns ident
       then skip_entry <$> List.find (fun s => bool_decide (sk_ident s = ident)) (List.filter (fun s => is_requested requested ns (sk_ident s)) ss)
       else entry_lookup (MkSkippedTables (map skip_entry ss) 0) ident) (map admission_ident l') = map skip_entry (omap to_skip l')).
  { induction l' as [|a l' IH]; intros Hin; [done|]. cbn [map omap list_omap]. rewrite (Hone a) by (apply Hin; by left).
    rewrite IH by (intros b Hb; apply Hin; by right). by destruct a. }
  apply Hsub. done.
Qed.
End Merge.

(** A partial refresh is exactly the restriction of a full one: it succeeds whenever
    the requested, exposed tables load, whatever the others would do; where the full
    refresh succeeds, it answers exactly the requested tables of the full listing, in
    order, and the requested skips; and over notes a full refresh wrote, it records the
    same skipped tables the full refresh would. *)
Theorem partial_refresh_restricts {UC : UnicodeCase} {JD : JsonDisplay} {C} `{CatalogClient C} (client : C) load_one parse ns table_filter request names idents :
  (forall l, load_listed_tables client l = let? a := try_map load_one l in Ok (collect_listing a)) ->
  (forall i a, load_one i = Ok a -> admission_ident a = i) ->
  list_table_idents client ns = Ok idents -> from_request request = Ok (Some names) ->
  let wanted := is_requested names ns in
  let exposed := List.filter (exposes_ident table_filter ns) idents in
  (Forall (fun i => is_Some (ok (load_one i))) (List.filter wanted exposed) ->
     is_Some (ok (list_source parse client ns table_filter request)))
  /\ (forall full_request full skipped, from_request full_request = Ok None ->
        list_source parse client ns table_filter full_request = Ok (full, skipped) ->
        exists part merged, list_source parse client ns table_filter request = Ok (part, merged)
          /\ li_tables part = List.filter (fun t => wanted (ct_ident t)) (li_tables full)
          /\ li_skipped part = List.filter (fun s => wanted (sk_ident s)) (li_skipped full)
          /\ (NoDup (map catalog_identifier_string exposed) -> persisted (parse_adapter_notes parse request) = skipped -> merged = skipped)).
Proof.
  intros Hload Hident Hidents Hreq wanted exposed. split.
  - intros Hall. unfold list_source. rewrite Hreq, Hidents, Hload. fold exposed. unfold selection. fold wanted.
    assert (Hok : exists l, try_map load_one (List.filter wanted exposed) = Ok l).
    { clear -Hall. induction Hall as [|i l [a Ha] _ [l' IH]]; [by eexists|]. cbn [try_map]. destruct (load_one i); [|done]. rewrite IH. by eexists. }
    destruct Hok as [l ->]. by eexists.
  - intros full_request full skipped Hfull. unfold list_source. rewrite Hfull, Hreq. unfold list_tables. rewrite Hidents, !Hload. fold exposed.
    destruct (try_map load_one exposed) as [l|] eqn:El; [|done]. rewrite collect_spec. intros [= <- <-]. cbn [li_tables li_skipped].
    unfold selection. fold wanted. rewrite (load_filtered load_one Hident wanted exposed l El), collect_spec. eexists _, _. split; [done|]. cbn [li_tables li_skipped].
    split_and!; [apply tables_filtered|apply skips_filtered|]. intros Hd Hp. rewrite Hp, skips_filtered.
    rewrite <- (loaded_idents load_one Hident exposed l El) in Hd |- *. apply merged_same. by rewrite map_map in Hd.
Qed.

(** A catalog of one loadable table, one view and one table that fails to load. *)
Definition sample_idents : list CatalogTableIdent := [MkIdent ["db"] "a"; MkIdent ["db"] "v"; MkIdent ["db"] "broken"].
Definition sample_load (i : CatalogTableIdent) : result UdfError TableAdmission :=
  if String.eqb (ident_name i) "a" then Ok (TableLoaded (MkCatalogTable i TypeTable None FmtIceberg None [] [] None ∅))
  else if String.eqb (ident_name i) "v" then Ok (TableSkipped (MkSkipped i NotLoadableIcebergTable))
  else Err (User "unreachable store").
#[local] Instance sample_client : CatalogClient () :=
  {| list_table_idents _ _ := Ok sample_idents; load_listed_tables _ l := let? a := try_map sample_load l in Ok (collect_listing a) |}.
Definition refresh_request : Json := json_object [("type", JString "refresh"); ("requestedTables", JArray [JString "A"; JString "V"])].

Lemma partial_refresh_restricts_witness :
  is_Some (ok (list_source (UC := ascii_case) (JD := compact_display) (fun _ => None) () ["db"] (TableFilter_new None None) refresh_request)).
Proof.
  refine (proj1 (partial_refresh_restricts (UC := ascii_case) (JD := compact_display) () sample_load (fun _ => None) ["db"] (TableFilter_new None None) refresh_request
    (list_to_set ["A"; "V"]) sample_idents _ _ _ _) _).
  - done.
  - intros i a. unfold sample_load. destruct (String.eqb _ "a"); [by intros [= <-]|]. destruct (String.eqb _ "v"); [by intros [= <-]|done].
  - reflexivity.
  - vm_compute. reflexivity.
  - vm_compute. repeat constructor; by eexists.
Defined.
