(* ===== verification/Adapter.v ===== *)
(** crates/lakehouse-engine/src/adapter/mod.rs: the adapter call - the request types, the
    properties and notes they read and write, and the handlers that compose the listing
    and the pushdown - with adapter/capabilities.rs and direct_storage_properties.rs. *)

From stdpp Require Import base list strings numbers gmap sorting.
From Stdlib Require Import Ascii String ZArith NArith Lia.
From S2P Require Import Prelude Text Hex Json ExasolType TypeMapping ColumnNode Render SparkTypes ColumnNotes ExasolRules TableFilter Redaction Storage Connection SealedStorage ScanSpec CommonSpec ColumnTypes ObjectLocation TableIdentity Permission Properties Resolution JoinSql Dispatch Declaration Listing.

Local Open Scope string_scope.

(** ** Capabilities *)

Definition CAPABILITIES : list string :=
  ["SELECTLIST_PROJECTION"; "SELECTLIST_EXPRESSIONS"; "FILTER_EXPRESSIONS"; "LITERAL_BOOL"; "LITERAL_DATE";
   "LITERAL_DOUBLE"; "LITERAL_EXACTNUMERIC"; "LITERAL_NULL"; "LITERAL_STRING"; "LITERAL_TIMESTAMP";
   "LITERAL_TIMESTAMP_UTC"; "FN_PRED_AND"; "FN_PRED_OR"; "FN_PRED_NOT"; "FN_PRED_EQUAL"; "FN_PRED_NOTEQUAL";
   "FN_PRED_LESS"; "FN_PRED_LESSEQUAL"; "FN_PRED_BETWEEN"; "FN_PRED_IN_CONSTLIST"; "FN_PRED_IS_NULL";
   "FN_PRED_IS_NOT_NULL"; "FN_PRED_LIKE"; "FN_PRED_LIKE_ESCAPE"; "LIMIT"; "ORDER_BY_COLUMN"; "ORDER_BY_EXPRESSION";
   "LIMIT_WITH_OFFSET"; "FN_ADD"; "FN_SUB"; "FN_MULT"; "FN_FLOAT_DIV"; "FN_NEG"; "FN_CAST"; "FN_ABS"; "FN_ACOS";
   "FN_ASIN"; "FN_ATAN"; "FN_ATAN2"; "FN_CEIL"; "FN_COS"; "FN_COSH"; "FN_COT"; "FN_DEGREES"; "FN_EXP"; "FN_FLOOR";
   "FN_LN"; "FN_LOG"; "FN_MOD"; "FN_POWER"; "FN_RADIANS"; "FN_ROUND"; "FN_SIGN"; "FN_SIN"; "FN_SINH"; "FN_SQRT";
   "FN_TAN"; "FN_TANH"; "FN_TRUNC"; "FN_ASCII"; "FN_CHR"; "FN_CONCAT"; "FN_INITCAP"; "FN_INSTR"; "FN_LEFT";
   "FN_LENGTH"; "FN_LOCATE"; "FN_LOWER"; "FN_LPAD"; "FN_LTRIM"; "FN_OCTET_LENGTH"; "FN_REPEAT"; "FN_REPLACE";
   "FN_REVERSE"; "FN_RIGHT"; "FN_RPAD"; "FN_RTRIM"; "FN_SUBSTR"; "FN_TRANSLATE"; "FN_TRIM"; "FN_UNICODE";
   "FN_UNICODECHR"; "FN_UPPER"; "FN_DATE_TRUNC"; "FN_DAY"; "FN_EXTRACT"; "FN_HOUR"; "FN_MINUTE"; "FN_MONTH";
   "FN_SECOND"; "FN_TO_DATE"; "FN_TO_TIMESTAMP"; "FN_YEAR"; "FN_WEEK"; "FN_DAYS_BETWEEN"; "FN_HOURS_BETWEEN";
   "FN_MINUTES_BETWEEN"; "FN_SECONDS_BETWEEN"; "FN_CASE"; "FN_GREATEST"; "FN_LEAST"; "FN_NULLIFZERO"; "FN_ZEROIFNULL";
   "AGGREGATE_SINGLE_GROUP"; "FN_AGG_COUNT"; "FN_AGG_COUNT_STAR"; "FN_AGG_SUM"; "FN_AGG_MIN"; "FN_AGG_MAX";
   "FN_AGG_AVG"; "FN_AGG_COUNT_DISTINCT"; "FN_AGG_STDDEV"; "FN_AGG_STDDEV_POP"; "FN_AGG_STDDEV_SAMP";
   "FN_AGG_VARIANCE"; "FN_AGG_VAR_POP"; "FN_AGG_VAR_SAMP"; "AGGREGATE_GROUP_BY_COLUMN";
   "AGGREGATE_GROUP_BY_EXPRESSION"; "AGGREGATE_GROUP_BY_TUPLE"; "AGGREGATE_HAVING"; "JOIN"; "JOIN_TYPE_INNER";
   "JOIN_CONDITION_EQUI"].

Definition get_capabilities_response : Json :=
  json_object [("type", JString "getCapabilities"); ("capabilities", JArray (map JString CAPABILITIES))].

(** ** Direct storage properties *)

Inductive MergeMode := FoldEveryFile | SampleOneFile.
Record DirectoryOptions := MkDirectoryOptions { merge_mode : MergeMode; hive_partitioning : bool }.
Record DirectStorageProperties := MkDirectStorage { base_path : string; ds_merge_schema : bool; ds_hive_partitioning : bool }.

Definition directory_options (p : DirectStorageProperties) : DirectoryOptions :=
  MkDirectoryOptions (if ds_merge_schema p then FoldEveryFile else SampleOneFile) (ds_hive_partitioning p).

(** [trim_end_matches('/')]. *)
Fixpoint trim_end_slashes (s : string) : string :=
  match s with
  | EmptyString => ""
  | String c s' => match trim_end_slashes s' with
                   | EmptyString => if Ascii.eqb c "/" then "" else String c ""
                   | r => String c r
                   end
  end.

Definition join_storage_path (base : string) (segment : option string) : string :=
  match segment with None => base | Some segment => trim_end_slashes base ++ "/" ++ segment end.

Definition parse_namespace (props : Json) : result UdfError (option string) :=
  match nonempty_str props PROP_NAMESPACE with
  | None => Ok None
  | Some value =>
      if Redaction.contains "://" value then
        Err (User ("'" ++ PROP_NAMESPACE ++ "' value '" ++ value ++ "' carries a URI scheme; it must be a path relative to the CONNECTION address"))
      else if starts_with "/" value then
        Err (User ("'" ++ PROP_NAMESPACE ++ "' value '" ++ value ++ "' begins with '/'; it must be a path relative to the CONNECTION address"))
      else Ok (Some value)
  end.

Definition parse_bool_property (props : Json) (key : string) (default_ : bool) : result UdfError bool :=
  match nonempty_str props key with
  | None => Ok default_
  | Some value =>
      ok_or (parse_boolean value)
        (User ("'" ++ key ++ "' value '" ++ value ++ "' is neither a true nor a false spelling; accepted spellings are 'TRUE' and 'FALSE' (case-insensitive)"))
  end.

Definition resolve_direct_storage_properties (props : Json) (connection_address : string) : result UdfError DirectStorageProperties :=
  let? namespace := parse_namespace props in
  let base_path := join_storage_path connection_address namespace in
  let? merge_schema := parse_bool_property props PROP_MERGE_SCHEMA true in
  let? hive_partitioning := parse_bool_property props PROP_HIVE_PARTITIONING true in
  Ok (MkDirectStorage base_path merge_schema hive_partitioning).

(** ** Properties of a request *)

Definition get_object (j : Json) (key : string) : option (list (string * Json)) := v ← get j key; as_object v.

(** The properties Exasol keeps for the schema. *)
Definition persisted_properties (request : Json) : list (string * Json) :=
  default [] (smi ← get request "schemaMetadataInfo"; get_object smi "properties").

Definition get_properties (request : Json) : Json :=
  let merged := default [] (get_object request "properties") in
  let persisted := persisted_properties request in
  JObject (fold_left (fun m kv => map_insert kv.1 kv.2 m) persisted merged).

Definition set_property (m : list (string * Json)) (kv : string * Json) : list (string * Json) :=
  if is_null kv.2 then map_remove kv.1 m else map_insert kv.1 kv.2 m.

Definition merge_set_properties (request : Json) : Json :=
  JObject (fold_left set_property (default [] (get_object request "properties")) (persisted_properties request)).

Definition virtual_schema_name (request : Json) : result UdfError string :=
  ok_or (smi ← get request "schemaMetadataInfo"; get_str smi "name") (User "pushdown: the request names no virtual schema").

Definition resolve_pushdown_identifier (parse : string -> option Json) (request : Json) : result UdfError string :=
  let? name := ok_or (tables ← get_array request "involvedTables"; first ← head tables; get_str first "name")
    (User "pushdown request missing involvedTables[0].name") in
  read_identifier parse request name.

(** ** Tuning *)

Definition NOTE_PARALLELISM_FACTOR : string := "PARALLELISM_FACTOR".
Definition DEFAULT_PARALLELISM_FACTOR : N := 1.
Definition NOTE_DF_TARGET_PARTITIONS : string := "DF_TARGET_PARTITIONS".
Definition NOTE_DF_THREADS_PER_UDF : string := "DF_THREADS_PER_UDF".
Definition NOTE_DF_THREADING_MODE : string := "DF_THREADING_MODE".
Definition NOTE_DF_BATCH_SIZE : string := "DF_BATCH_SIZE".
Definition DEFAULT_DF_BATCH_SIZE : N := 8192.
Definition NOTE_MEMORY_POOL_FRACTION : string := "MEMORY_POOL_FRACTION".
Definition NOTE_INSTANCE_OVERHEAD_MB : string := "INSTANCE_OVERHEAD_MB".
Definition DEFAULT_INSTANCE_OVERHEAD_MB : N := 200.
Definition NOTE_JOIN_BROADCAST_MAX_BYTES : string := "JOIN_BROADCAST_MAX_BYTES".
Definition DEFAULT_JOIN_BROADCAST_MAX_BYTES : N := 134217728.
Definition NOTE_S3_MAX_CONNECTIONS : string := "S3_MAX_CONNECTIONS".
Definition S3_CONNECTIONS_PER_THREAD : N := 4.

Definition as_note (m : ThreadingMode) : string := match m with Auto => "AUTO" | Fixed => "FIXED" end.

(** The partitions and threads of a core count ([u32]). *)
Definition auto_df_threading (nr_of_cores : N) : N * N := let threads := N.max nr_of_cores 1 in ((2 * threads)%N, threads).

(** [n.get() as u32] truncates. *)
Definition core_count_or_default (detected : option N) : N := match detected with None => 1%N | Some n => (n mod 4294967296)%N end.

Definition cluster_nodes_from_context (node_count : N) : N := if (node_count =? 0)%N then 1%N else node_count.

Section Tuning.
Context {F : Type} {FR : Fractions F}.
(** The double 0.6. *)
Context (DEFAULT_MEMORY_POOL_FRACTION : F).

Record TuningNotes := MkTuningNotes {
  tn_parallelism_factor : N;
  tn_df_threading_mode : ThreadingMode;
  tn_df_target_partitions : N;
  tn_df_threads_per_udf : N;
  tn_df_batch_size : N;
  tn_memory_pool_fraction : F;
  tn_instance_overhead_mb : N;
  tn_s3_max_connections : N;
  tn_join_broadcast_max_bytes : N;
}.

Definition resolve_tuning_notes (checked : TuningProperties F) (nr_of_cores : N) : TuningNotes :=
  let mode := default Auto (threading_mode checked) in
  let '(auto_partitions, auto_threads) := auto_df_threading nr_of_cores in
  let '(partitions, threads) :=
    match mode with
    | Fixed => (default auto_partitions (Properties.df_target_partitions checked), default auto_threads (Properties.df_threads_per_udf checked))
    | Auto => (auto_partitions, auto_threads)
    end in
  MkTuningNotes (default DEFAULT_PARALLELISM_FACTOR (parallelism_factor checked)) mode partitions threads
    (default DEFAULT_DF_BATCH_SIZE (Properties.df_batch_size checked)) (default DEFAULT_MEMORY_POOL_FRACTION (Properties.memory_pool_fraction checked))
    (default DEFAULT_INSTANCE_OVERHEAD_MB (Properties.instance_overhead_mb checked))
    (default (threads * S3_CONNECTIONS_PER_THREAD)%N (Properties.s3_max_connections checked))
    (default DEFAULT_JOIN_BROADCAST_MAX_BYTES (join_broadcast_max_bytes checked)).

(** The notes a tuning writes, in the order they are inserted. *)
Definition tuning_entries (t : TuningNotes) : list (string * string) :=
  [(NOTE_PARALLELISM_FACTOR, show_N (tn_parallelism_factor t)); (NOTE_DF_THREADING_MODE, as_note (tn_df_threading_mode t));
   (NOTE_DF_TARGET_PARTITIONS, show_N (tn_df_target_partitions t)); (NOTE_DF_THREADS_PER_UDF, show_N (tn_df_threads_per_udf t));
   (NOTE_DF_BATCH_SIZE, show_N (tn_df_batch_size t)); (NOTE_MEMORY_POOL_FRACTION, show_f64 (tn_memory_pool_fraction t));
   (NOTE_INSTANCE_OVERHEAD_MB, show_N (tn_instance_overhead_mb t)); (NOTE_S3_MAX_CONNECTIONS, show_N (tn_s3_max_connections t));
   (NOTE_JOIN_BROADCAST_MAX_BYTES, show_N (tn_join_broadcast_max_bytes t))].

Definition notes_object {JD : JsonDisplay} (parse : string -> option Json) (request : Json) (t : TuningNotes) (skipped : SkippedTables) : Json :=
  let notes := fold_left (fun m kv => map_insert kv.1 (JString kv.2) m) (tuning_entries t) (parse_adapter_notes parse request) in
  JObject (insert_skipped_tables notes skipped).

Definition build_adapter_notes {JD : JsonDisplay} (parse : string -> option Json) (request : Json) (t : TuningNotes) (skipped : SkippedTables) : Json :=
  JString (json_to_string (notes_object parse request t skipped)).

Definition adapter_note (parse : string -> option Json) (request : Json) (key : string) : option string :=
  nonempty_str (JObject (parse_adapter_notes parse request)) key.

(** The tuning a pushdown reads: a count of at least one, else the default. *)
Definition positive_note (parse : string -> option Json) (request : Json) (key : string) (default_ : N) : N :=
  default default_ (text ← adapter_note parse request key; n ← parse_unsigned USIZE_MAX text; if (1 <=? n)%N then Some n else None).

Record PushdownTuning := MkPushdownTuning {
  pt_parallelism_factor : N;
  pt_df_target_partitions : N;
  pt_df_batch_size : N;
  pt_df_threads_per_udf : N;
  pt_memory_pool_fraction : F;
  pt_instance_overhead_mb : N;
  pt_s3_max_connections : N;
  pt_join_broadcast_max_bytes : N;
}.

Definition read_tuning (parse : string -> option Json) (request : Json) (nr_of_cores : N) : PushdownTuning :=
  let note := adapter_note parse request in
  let '(auto_partitions, auto_threads) := auto_df_threading nr_of_cores in
  MkPushdownTuning
    (positive_note parse request NOTE_PARALLELISM_FACTOR DEFAULT_PARALLELISM_FACTOR)
    (positive_note parse request NOTE_DF_TARGET_PARTITIONS auto_partitions)
    (default DEFAULT_DF_BATCH_SIZE (text ← note NOTE_DF_BATCH_SIZE; n ← parse_unsigned USIZE_MAX text; Some (N.max n 1)))
    (positive_note parse request NOTE_DF_THREADS_PER_UDF auto_threads)
    (default DEFAULT_MEMORY_POOL_FRACTION (text ← note NOTE_MEMORY_POOL_FRACTION; x ← parse_f64 text; if in_unit_interval x then Some x else None))
    (default DEFAULT_INSTANCE_OVERHEAD_MB (text ← note NOTE_INSTANCE_OVERHEAD_MB; parse_unsigned USIZE_MAX text))
    (positive_note parse request NOTE_S3_MAX_CONNECTIONS DEFAULT_S3_MAX_CONNECTIONS)
    (positive_note parse request NOTE_JOIN_BROADCAST_MAX_BYTES DEFAULT_JOIN_BROADCAST_MAX_BYTES).
End Tuning.
Arguments TuningNotes : clear implicits. Arguments PushdownTuning : clear implicits.

(** ** The CONNECTION of a request *)

(** What the UDF context answers. *)
Record UdfContext := MkContext {
  ctx_connection : string -> result string (string * string);
  ctx_current_user : option string;
  ctx_script_schema : string;
  ctx_node_count : N;
  ctx_database_version : string;
}.

Definition redact_error (storage : StorageBackend) (e : UdfError) : UdfError :=
  let '(User msg) := e in User (redact_credentials (redact_secret_values msg (secret_values storage))).

Definition redacted_by {A} (storage : StorageBackend) (r : result UdfError A) : result UdfError A :=
  match r with Ok a => Ok a | Err e => Err (redact_error storage e) end.

(** A client as it is constructed, before any request. *)
Inductive ScanClient :=
| RestClient (uri : string) (creds : ConnectionCreds)
| UnityClient (uri : string) (creds : ConnectionCreds)
| DirectClient (storage : StorageBackend) (base_path : string) (options : DirectoryOptions)
| GlueClient (uri : string) (storage : StorageBackend) (creds : ConnectionCreds).

Section Handlers.
Context {UC : UnicodeCase} {JD : JsonDisplay} {HX : Hex} {DK : DeltaKernel} {UR : Urls} {T : Type} {TP : Templates T}.
Context {F : Type} {DJ : DoubleJson F} {FR : Fractions F} {U : Type} {SU : StoreUrls U} `{!EqDecision U} {K : Type} {SE : Sealing K}.
Context (parse : string -> option Json) (print : Json -> string) (default_fraction : F).
(** The key derivation, the STS call and its texts, and the URL test of the management API. *)
Context (derive_key : string -> K).
Context (assume_role : ConnectionCreds -> string -> option string -> string -> result string SessionCredentials).
Context (invalid_url : string) (plain_path : string -> bool).

Definition resolve_connection_config (ctx : UdfContext) (props : Json) (permission : PermissionSettings T) : result UdfError (ResolvedConnectionConfig K) :=
  let? kind := resolve_catalog_kind props in
  let? _ := require_supported_kind permission kind in
  let? connection_name := ok_or (nonempty_str props PROP_CATALOG_CONNECTION) (User "CATALOG_CONNECTION is required") in
  let? resolved := read_connection derive_key (ctx_connection ctx) parse (Some connection_name) kind in
  let? _ := require_management_url plain_path permission (r_uri resolved) in
  let allow_http := resolve_allow_http props in
  let? creds := resolve_aws_identity assume_role redact_error_text invalid_url (r_creds resolved) (r_uri resolved) allow_http in
  Ok (MkConfig (r_uri resolved) (storage_block creds allow_http) creds allow_http kind connection_name (r_sealed_storage_key resolved)).

(** The two constructors that can fail. *)
Context (new_direct : StorageBackend -> string -> DirectoryOptions -> list string -> result UdfError ()).
Context (new_glue : string -> StorageBackend -> ConnectionCreds -> result UdfError ()).

Definition client_of_kind (config : ResolvedConnectionConfig K) (props : Json) : result UdfError ScanClient :=
  let uri := cfg_catalog_uri config in
  match cfg_catalog_kind config with
  | IcebergRest => Ok (RestClient uri (cfg_creds config))
  | UnityCatalogNative => Ok (UnityClient uri (cfg_creds config))
  | DirectStorage =>
      let? resolved := resolve_direct_storage_properties props uri in
      let? _ := new_direct (cfg_storage config) (base_path resolved) (directory_options resolved) (secret_values (cfg_storage config)) in
      Ok (DirectClient (cfg_storage config) (base_path resolved) (directory_options resolved))
  | Connection.Glue =>
      let? _ := new_glue uri (cfg_storage config) (cfg_creds config) in
      Ok (GlueClient uri (cfg_storage config) (cfg_creds config))
  end.

Definition construct_catalog_client (config : ResolvedConnectionConfig K) (props : Json) : result UdfError ScanClient :=
  redacted_by (cfg_storage config) (client_of_kind config props).

(** ** Creating and refreshing a schema *)

Context `{!CatalogClient ScanClient}.
Context (parse_mode : string -> option ColumnMappingMode) (show_f32 show_f64' : Z -> string) (detected_cores : option N).

Definition configured_namespace (kind : CatalogKind) (props : Json) : result UdfError (list string) :=
  match kind with
  | DirectStorage => Ok []
  | _ =>
      let? namespace := ok_or (nonempty_str props PROP_NAMESPACE) (User ("property '" ++ PROP_NAMESPACE ++ "' is required")) in
      Ok (split_char "." namespace)
  end.

(** The response and the warnings it logs. *)
Definition handle_create_virtual_schema (ctx : UdfContext) (request : Json) : result UdfError (Json * list string) :=
  let props := if bool_decide (get_str request "type" = Some "setProperties") then merge_set_properties request else get_properties request in
  let? checked := check_properties (F := F) props in
  let? permission := PermissionSettings_parse (T := T) props in
  let? config := resolve_connection_config ctx props permission in
  let? configured_ns := configured_namespace (cfg_catalog_kind config) props in
  let? client := construct_catalog_client config props in
  let? (listing, skipped_tables) := redacted_by (cfg_storage config) (list_source parse client configured_ns (table_filter checked) request) in
  let engine := from_database_version (ctx_database_version ctx) in
  let? tables_json := redacted_by (cfg_storage config)
    (build_listing_virtual_tables parse_mode print show_f32 show_f64' configured_ns listing engine) in
  let tuning := resolve_tuning_notes default_fraction (tuning checked) (core_count_or_default detected_cores) in
  let adapter_notes := build_adapter_notes parse request tuning skipped_tables in
  Ok (build_schema_response request (json_object [("tables", JArray tables_json); ("adapterNotes", adapter_notes)]), map skip_warning (li_skipped listing)).

(** ** Pushdown *)

(** The statement's permission check and table resolution ([TableScanResolver]). *)
Context (nonce_for : StorageBackend -> string).
Context (for_request : ResolvedConnectionConfig K -> PermissionCheck -> Json -> list string -> result UdfError ()).
Context (resolve : ResolvedConnectionConfig K -> PermissionCheck -> Json -> string -> option Json -> InvolvedColumns -> result UdfError (ResolvedScan * ColumnTypes)).

Definition handle_pushdown_request (request : Json) (config : ResolvedConnectionConfig K) (permission : PermissionCheck) (script_schema : string) (cluster_nodes : N)
  : result UdfError Json :=
  let t := read_tuning default_fraction parse request (core_count_or_default detected_cores) in
  let? identifier := resolve_pushdown_identifier parse request in
  let props := get_properties request in
  let inputs := MkJoinConfig cluster_nodes (pt_parallelism_factor t) (pt_df_target_partitions t) (pt_df_batch_size t) (pt_df_threads_per_udf t)
    (pt_memory_pool_fraction t) (pt_instance_overhead_mb t) (pt_s3_max_connections t) (resolve_binary_as_string props) config in
  redacted_by (cfg_storage config)
    (handle_pushdown print nonce_for parse (for_request config permission props) (resolve config permission props) request identifier inputs
       (Some script_schema) (pt_join_broadcast_max_bytes t)).

(** ** The call *)

Definition States : Type := gmap string (ResolvedConnectionConfig K).

(** The state of a virtual schema's statement, built on a miss; a failed build keeps
    nothing. *)
Definition build_virtual_schema_state (ctx : UdfContext) (props : Json) (permission : PermissionSettings T) : result UdfError (ResolvedConnectionConfig K) :=
  let? config := resolve_connection_config ctx props permission in
  let? _ := construct_catalog_client config props in
  Ok config.

Definition pushdown (states : States) (ctx : UdfContext) (request : Json) : result UdfError Json * States :=
  let props := get_properties request in
  let prepared :=
    let? permission := PermissionSettings_parse (T := T) props in
    let? check := check_for permission (ctx_current_user ctx) in
    let? name := virtual_schema_name request in
    Ok (permission, check, name) in
  match prepared with
  | Err e => (Err e, states)
  | Ok (permission, check, name) =>
      let run config := handle_pushdown_request request config check (ctx_script_schema ctx) (cluster_nodes_from_context (ctx_node_count ctx)) in
      match states !! name with
      | Some config => (run config, states)
      | None =>
          match build_virtual_schema_state ctx props permission with
          | Err e => (Err e, states)
          | Ok config => (run config, <[name := config]> states)
          end
      end
  end.

Definition dispatch (states : States) (ctx : UdfContext) (request : Json) : result UdfError Json * States :=
  let create := match handle_create_virtual_schema ctx request with Ok (response, _) => Ok response | Err e => Err e end in
  match get_str request "type" with
  | Some "getCapabilities" => (Ok get_capabilities_response, states)
  | Some ("createVirtualSchema" | "refresh" | "setProperties") => (create, states)
  | Some "dropVirtualSchema" => (Ok (json_object [("type", JString "dropVirtualSchema")]), states)
  | Some "pushdown" => pushdown states ctx request
  | other => (Err (User ("unsupported VS request type: " ++ default "(none)" other)), states)
  end.

Definition adapter_call (invalid_json : string -> string) (states : States) (ctx : UdfContext) (json_arg : string) : result UdfError string * States :=
  match parse json_arg with
  | None => (Err (User ("VS request is not valid JSON: " ++ invalid_json json_arg)), states)
  | Some request => let '(r, states) := dispatch states ctx request in (let? response := r in Ok (json_to_string response), states)
  end.
End Handlers.

(** ** Which properties a request runs with *)

Lemma fold_set_other (l m : list (string * Json)) k : map_get k l = None -> map_get k (fold_left set_property l m) = map_get k m.
Proof.
  revert m. induction l as [|[a b] l IH]; intros m; [done|]. cbn [map_get fold_left]. destruct (String.eqb_spec a k) as [->|Hne]; [done|].
  intros Hk. rewrite IH by done. unfold set_property. cbn [fst snd].
  destruct (is_null b); rewrite ?map_get_remove, ?map_get_insert; destruct (String.eqb_spec a k); congruence.
Qed.

Lemma map_get_none k (l : list (string * Json)) : k ∉ map fst l -> map_get k l = None.
Proof.
  induction l as [|[a b] l IH]; [done|]. cbn [map fst map_get]. rewrite elem_of_cons. intros H.
  destruct (String.eqb_spec a k) as [->|]; [tauto|apply IH; tauto].
Qed.

Lemma fold_set_get (l m : list (string * Json)) k : NoDup (map fst l) ->
  map_get k (fold_left set_property l m) = match map_get k l with Some v => if is_null v then None else Some v | None => map_get k m end.
Proof.
  revert m. induction l as [|[a b] l IH]; intros m; [done|]. cbn [map fst map_get fold_left]. intros [Hn Hd]%NoDup_cons.
  destruct (String.eqb_spec a k) as [->|Hne].
  - rewrite fold_set_other by (by apply map_get_none). unfold set_property. cbn [fst snd].
    by destruct (is_null b); rewrite ?map_get_remove, ?map_get_insert, String.eqb_refl.
  - rewrite IH by done. destruct (map_get k l); [done|]. unfold set_property. cbn [fst snd].
    destruct (is_null b); rewrite ?map_get_remove, ?map_get_insert; destruct (String.eqb_spec a k); congruence.
Qed.

Lemma fold_overlay_get (l m : list (string * Json)) k : NoDup (map fst l) ->
  map_get k (fold_left (fun m kv => map_insert kv.1 kv.2 m) l m) = match map_get k l with Some v => Some v | None => map_get k m end.
Proof.
  revert m. induction l as [|[a b] l IH]; intros m; [done|]. cbn [map fst map_get fold_left snd]. intros [Hn Hd]%NoDup_cons.
  rewrite IH by done. rewrite map_get_insert. destruct (String.eqb_spec a k) as [->|Hne].
  - by rewrite (map_get_none _ _ Hn).
  - by destruct (map_get k l).
Qed.

(** Which properties a request runs with: a setProperties request is checked against
    the schema as it will be - each property it names has its new value, or none when the
    value is null, and every other keeps the persisted one - while every other request
    runs with the persisted value of a property, and with its own only where the schema
    keeps none. *)
Theorem properties_precedence request name :
  let own := default [] (get_object request "properties") in
  let kept := persisted_properties request in
  NoDup (map fst own) -> NoDup (map fst kept) ->
  get (merge_set_properties request) name =
    match map_get name own with Some v => if is_null v then None else Some v | None => map_get name kept end
  /\ get (get_properties request) name = match map_get name kept with Some v => Some v | None => map_get name own end.
Proof. intros own kept Ho Hk. split; [by apply fold_set_get|by apply fold_overlay_get]. Qed.

Definition alter_request : Json :=
  json_object [("type", JString "setProperties"); ("properties", json_object [("A", JNull); ("B", JString "new")]);
               ("schemaMetadataInfo", json_object [("properties", json_object [("A", JString "old"); ("B", JString "old"); ("C", JString "kept")])])].

Lemma properties_precedence_witness :
  get (merge_set_properties alter_request) "A" = None /\ get (get_properties alter_request) "A" = Some (JString "old").
Proof. apply (properties_precedence alter_request "A"); apply (bool_decide_unpack _); by vm_compute. Defined.

(** ** The tuning of a schema reaches its pushdowns *)

Lemma insert_skipped_other {JD : JsonDisplay} notes skipped key :
  key <> NOTE_SKIPPED_TABLES -> key <> NOTE_SKIPPED_TABLES_OMITTED -> map_get key (insert_skipped_tables notes skipped) = map_get key notes.
Proof.
  intros H1 H2. unfold insert_skipped_tables. destruct (fit_skipped_tables _ _ _) as [kept om]. 
  destruct (0 <? om)%N; rewrite !map_get_insert, map_get_remove, map_get_insert;
    rewrite ?(proj2 (String.eqb_neq NOTE_SKIPPED_TABLES key)), ?(proj2 (String.eqb_neq NOTE_SKIPPED_TABLES_OMITTED key)) by congruence; done.
Qed.

Lemma fold_insert_get (l : list (string * string)) m k v : NoDup (map fst l) -> (k, v) ∈ l ->
  map_get k (fold_left (fun m kv => map_insert kv.1 (JString kv.2) m) l m) = Some (JString v).
Proof.
  assert (Hother : forall (l : list (string * string)) m k, k ∉ map fst l -> map_get k (fold_left (fun m kv => map_insert kv.1 (JString kv.2) m) l m) = map_get k m).
  { clear. induction l as [|[a b] l IH]; intros m k Hk; [done|]. cbn [fold_left fst snd]. rewrite IH by (intros H; apply Hk; by right).
    rewrite map_get_insert. destruct (String.eqb_spec a k) as [->|]; [|done]. exfalso. apply Hk. by left. }
  revert m. induction l as [|[a b] l IH]; intros m; [by intros _ H%elem_of_nil|]. cbn [map fst fold_left snd]. intros [Hn Hd]%NoDup_cons [[= <- <-]|Hin]%elem_of_cons; [|by apply IH].
  rewrite Hother by done. by rewrite map_get_insert, String.eqb_refl.
Qed.

Section Reaches.
Context {UC : UnicodeCase} {JD : JsonDisplay} {F : Type} {FR : Fractions F} (default_fraction : F) (parse : string -> option Json).

(** A later request carries the notes a schema request wrote, and they read back. *)
Definition carries_notes (request created : Json) (t : TuningNotes F) (skipped : SkippedTables) : Prop :=
  (exists smi, get request "schemaMetadataInfo" = Some smi /\ get smi "adapterNotes" = Some (build_adapter_notes parse created t skipped))
  /\ json_to_string (notes_object parse created t skipped) <> ""
  /\ parse (json_to_string (notes_object parse created t skipped)) = Some (notes_object parse created t skipped).

Lemma note_read_back request created t skipped key text :
  carries_notes request created t skipped -> (key, text) ∈ tuning_entries t -> text <> "" -> adapter_note parse request key = Some text.
Proof.
  intros ((smi & Hsmi & Ha) & Hne & Hp) Hin Htext. unfold adapter_note, parse_adapter_notes. rewrite Hsmi. cbn [mbind option_bind].
  unfold nonempty_str at 2. unfold get_str. rewrite Ha. unfold build_adapter_notes. cbn [mbind option_bind as_str non_empty].
  apply String.eqb_neq in Hne as ->. cbn [mbind option_bind]. rewrite Hp. cbn [mbind option_bind as_object notes_object default]. unfold from_option, id.
  unfold nonempty_str, get_str, get. rewrite insert_skipped_other, (fold_insert_get _ _ key text); try done.
  - cbn. by apply String.eqb_neq in Htext as ->.
  - cbn [map tuning_entries fst]. apply (bool_decide_unpack _). vm_compute. exact I.
  - intros ->. by apply (list_elem_of_fmap_2 fst), (bool_decide_pack (_ ∈ _)) in Hin.
  - intros ->. by apply (list_elem_of_fmap_2 fst), (bool_decide_pack (_ ∈ _)) in Hin.
Qed.

Lemma show_N_ne n : show_N n <> "".
Proof. apply String.eqb_neq, show_N_nonempty. Qed.

Lemma positive_read_back request created t skipped key n d :
  carries_notes request created t skipped -> (key, show_N n) ∈ tuning_entries t -> (1 <= n <= USIZE_MAX)%N -> positive_note parse request key d = n.
Proof.
  intros Hc Hin Hn. unfold positive_note. rewrite (note_read_back _ _ _ _ _ _ Hc Hin (show_N_ne n)). cbn [mbind option_bind].
  rewrite parse_unsigned_show by lia. cbn [mbind option_bind]. by rewrite (proj2 (N.leb_le 1 n)) by lia.
Qed.
(** Finds a note's entry by its key. *)
Ltac tuning_entry := unfold tuning_entries; repeat first [apply list_elem_of_here | apply list_elem_of_further].

(** The values a resolved tuning can hold. *)
Definition tuning_in_range (t : TuningNotes F) : Prop :=
  Forall (fun n => 1 <= n <= USIZE_MAX)%N
    [tn_parallelism_factor t; tn_df_target_partitions t; tn_df_threads_per_udf t; tn_df_batch_size t; tn_s3_max_connections t; tn_join_broadcast_max_bytes t]
  /\ (tn_instance_overhead_mb t <= USIZE_MAX)%N /\ in_unit_interval (tn_memory_pool_fraction t) = true.

Lemma tuning_read_back request created t skipped cores :
  (forall x : F, parse_f64 (show_f64 x) = Some x /\ show_f64 x <> "") -> carries_notes request created t skipped -> tuning_in_range t ->
  read_tuning default_fraction parse request cores = MkPushdownTuning (tn_parallelism_factor t) (tn_df_target_partitions t) (tn_df_batch_size t)
    (tn_df_threads_per_udf t) (tn_memory_pool_fraction t) (tn_instance_overhead_mb t) (tn_s3_max_connections t) (tn_join_broadcast_max_bytes t).
Proof.
  intros Hf Hc (Hr & Ho & Hu). unfold read_tuning. destruct (auto_df_threading cores) as [ap ath]. rewrite !Forall_cons in Hr.
  destruct Hr as (H1 & H2 & H3 & H4 & H5 & H6 & _). destruct (Hf (tn_memory_pool_fraction t)) as [Hpf Hne].
  rewrite (positive_read_back _ _ _ _ NOTE_PARALLELISM_FACTOR _ _ Hc ltac:(tuning_entry) H1).
  rewrite (positive_read_back _ _ _ _ NOTE_DF_TARGET_PARTITIONS _ _ Hc ltac:(tuning_entry) H2).
  rewrite (positive_read_back _ _ _ _ NOTE_DF_THREADS_PER_UDF _ _ Hc ltac:(tuning_entry) H3).
  rewrite (positive_read_back _ _ _ _ NOTE_S3_MAX_CONNECTIONS _ _ Hc ltac:(tuning_entry) H5).
  rewrite (positive_read_back _ _ _ _ NOTE_JOIN_BROADCAST_MAX_BYTES _ _ Hc ltac:(tuning_entry) H6).
  rewrite (note_read_back _ _ _ _ NOTE_DF_BATCH_SIZE (show_N (tn_df_batch_size t)) Hc ltac:(tuning_entry) (show_N_ne _)).
  rewrite (note_read_back _ _ _ _ NOTE_MEMORY_POOL_FRACTION (show_f64 (tn_memory_pool_fraction t)) Hc ltac:(tuning_entry) Hne).
  rewrite (note_read_back _ _ _ _ NOTE_INSTANCE_OVERHEAD_MB (show_N (tn_instance_overhead_mb t)) Hc ltac:(tuning_entry) (show_N_ne _)).
  cbn [mbind option_bind]. rewrite !parse_unsigned_show, Hpf by lia. cbn [mbind option_bind]. rewrite Hu. cbn. f_equal. lia.
Qed.

Lemma stated_range props (W : WholeNumber) name d :
  (1 <= d <= USIZE_MAX)%N -> (1 <= @MIN W)%N -> (@MAX W <= USIZE_MAX)%N ->
  (1 <= default d (stated props name (parse_whole_number (H := W))) <= USIZE_MAX)%N.
Proof. intros Hd Hmin Hmax. destruct (stated props name _) as [n|] eqn:E; cbn; [apply whole_number_range in E; lia|lia]. Qed.

Lemma stated_fraction props x : stated props PROP_MEMORY_POOL_FRACTION (parse_fraction (F := F)) = Some x -> in_unit_interval x = true.
Proof.
  unfold stated, parse_fraction. destruct (nonempty_str _ _) as [raw|]; [|done]. cbn [mbind option_bind].
  destruct (parse_f64 raw) as [y|]; [|done]. cbn [mbind option_bind]. destruct (in_unit_interval y) eqn:E; [|done]. by intros [= <-].
Qed.

Lemma resolved_in_range props cores : (1 <= cores < 4294967296)%N -> in_unit_interval default_fraction = true ->
  tuning_in_range (resolve_tuning_notes default_fraction (stated_tuning props) cores).
Proof.
  intros Hc Hd. unfold resolve_tuning_notes, auto_df_threading. rewrite N.max_l by lia.
  assert (Hs : forall threads, (1 <= threads < 4294967296)%N -> (1 <= threads * S3_CONNECTIONS_PER_THREAD <= USIZE_MAX)%N) by (unfold S3_CONNECTIONS_PER_THREAD, USIZE_MAX; lia).
  assert (Hc2 : (1 <= 2 * cores <= USIZE_MAX)%N /\ (1 <= cores <= USIZE_MAX)%N) by (unfold USIZE_MAX; lia).
  assert (Hthreads : (1 <= default cores (Properties.df_threads_per_udf (stated_tuning (F := F) props)) < 4294967296)%N).
  { cbn. destruct (stated props _ _) as [n|] eqn:E; [apply whole_number_range in E; cbn in *; lia|done]. }
  split_and!; [destruct (default Auto _); repeat (apply Forall_cons_2; [first [by apply stated_range; try done; try lia; try (by apply Hs) | apply Hc2 | cbn in *; unfold USIZE_MAX; lia]|]); apply Forall_nil_2| |].
  - transitivity 65535%N; [|done]. destruct (default Auto _); cbn; (destruct (stated props PROP_INSTANCE_OVERHEAD_MB _) as [n|] eqn:E; [apply whole_number_range in E; cbn in *; lia|done]).
  - destruct (default Auto _); cbn; (destruct (stated props PROP_MEMORY_POOL_FRACTION _) as [x|] eqn:E; [by apply stated_fraction in E|done]).
Qed.
End Reaches.

(** The tuning a schema is created with is the tuning its pushdowns run with: from
    accepted properties on any machine, the notes the schema request writes are read back
    by a later pushdown, on whatever machine it runs, as the stated values, or the
    defaults and the creating machine's thread counts where none is stated - a fixed
    thread count only under the FIXED mode. *)
Theorem tuning_reaches_pushdown {UC : UnicodeCase} {JD : JsonDisplay} {F} {FR : Fractions F} default_fraction parse props checked cores other_cores
    created request skipped :
  check_properties (F := F) props = Ok checked -> (1 <= cores < 4294967296)%N ->
  in_unit_interval default_fraction = true ->
  (forall x : F, parse_f64 (show_f64 x) = Some x /\ show_f64 x <> "") ->
  let t := resolve_tuning_notes default_fraction (tuning checked) cores in
  carries_notes parse request created t skipped ->
  let fixed := match stated props PROP_DF_THREADING_MODE parse_threading_mode with Some Fixed => true | _ => false end in
  let threads := if fixed then default cores (stated props PROP_DF_THREADS_PER_UDF (parse_whole_number (H := NonZeroU16))) else cores in
  read_tuning default_fraction parse request other_cores = MkPushdownTuning
    (default DEFAULT_PARALLELISM_FACTOR (stated props PROP_PARALLELISM_FACTOR (parse_whole_number (H := NonZeroU8))))
    (if fixed then default (2 * cores)%N (stated props PROP_DF_TARGET_PARTITIONS (parse_whole_number (H := NonZeroU16))) else (2 * cores)%N)
    (default DEFAULT_DF_BATCH_SIZE (stated props PROP_DF_BATCH_SIZE (parse_whole_number (H := NonZeroU32))))
    threads
    (default default_fraction (stated props PROP_MEMORY_POOL_FRACTION parse_fraction))
    (default DEFAULT_INSTANCE_OVERHEAD_MB (stated props PROP_INSTANCE_OVERHEAD_MB (parse_whole_number (H := u16_number))))
    (default (threads * S3_CONNECTIONS_PER_THREAD)%N (stated props PROP_S3_MAX_CONNECTIONS (parse_whole_number (H := NonZeroU16))))
    (default DEFAULT_JOIN_BROADCAST_MAX_BYTES (stated props PROP_JOIN_BROADCAST_MAX_BYTES (parse_whole_number (H := NonZeroU64)))).
Proof.
  intros Hc Hcores Hdef Hfloat t Hcarries. unfold check_properties in Hc. destruct (check_values props) as [c|] eqn:Ev; [|done].
  destruct (map unknown_entry _); [|done]. injection Hc as ->. apply checked_values_stated in Ev as (Ht & _).
  rewrite (tuning_read_back _ _ _ _ t _ _ Hfloat Hcarries) by (subst t; rewrite Ht; by apply resolved_in_range).
  subst t. rewrite Ht. unfold resolve_tuning_notes, auto_df_threading. rewrite N.max_l by lia. cbn.
  by destruct (stated props _ parse_threading_mode) as [[]|].
Qed.

Definition unit_fraction : Fractions () := {| parse_f64 _ := Some tt; in_unit_interval _ := true; show_f64 _ := "1" |}.
Definition fixed_props : Json :=
  json_object [(PROP_DF_THREADING_MODE, JString "FIXED"); (PROP_DF_THREADS_PER_UDF, JString "3"); (PROP_PARALLELISM_FACTOR, JString "4")].
Definition created_request : Json := json_object [("type", JString "createVirtualSchema")].
Definition fixed_notes : Json :=
  match check_properties (UC := ascii_case) (FR := unit_fraction) fixed_props with
  | Ok c => notes_object (FR := unit_fraction) (JD := compact_display) (fun _ => None) created_request
              (resolve_tuning_notes tt (tuning c) 8) (MkSkippedTables [] 0)
  | Err _ => JNull
  end.
Definition later_request : Json :=
  json_object [("type", JString "pushdown"); ("schemaMetadataInfo", json_object [("adapterNotes", JString (compact fixed_notes))])].

Lemma tuning_reaches_pushdown_witness :
  read_tuning (FR := unit_fraction) tt (fun _ => Some fixed_notes) later_request 2 = MkPushdownTuning 4 16 8192 3 tt 200 12 134217728.
Proof.
  refine (eq_trans (tuning_reaches_pushdown (UC := ascii_case) (JD := compact_display) (FR := unit_fraction) tt (fun _ => Some fixed_notes) fixed_props _ 8 2
    created_request later_request (MkSkippedTables [] 0) eq_refl _ _ _ _) _).
  - lia.
  - reflexivity.
  - by intros [].
  - split_and!; [|by vm_compute|by vm_compute]. eexists. split; by vm_compute.
  - by vm_compute.
Defined.
