(* ===== verification/PartitionPredicate.v ===== *)
(** crates/lakehouse-engine/src/adapter/pushdown/format/partition_predicate.rs: files
    ruled out by the partition values their log records, and that no file holding a
    row the filter keeps is ruled out. *)

From stdpp Require Import base sets list strings numbers gmap.
From Stdlib Require Import Ascii String ZArith NArith Lia.
From S2P Require Import Prelude Text Hex Json ColumnNode FilterJson ArrowTypes TypeMapping BinaryFilter PartitionValues.

Local Open Scope string_scope.

(** [BTreeMap<String, Option<String>>], in key order. *)
Notation LoggedValues := (list (string * option string)).

Inductive Node :=
| Compare (column : string) (comparison : Comparison) (literal : ScalarValue)
| IsNull (column : string)
| And (operands : list Node)
| Or (operands : list Node)
| Not (operand : Node)
| Opaque.

Record Reachable := MkReachable { can_be_true : bool; can_be_false : bool }.

Definition ANY : Reachable := MkReachable true true.

Definition exactly (truth : option bool) : Reachable :=
  MkReachable (bool_decide (truth = Some true)) (bool_decide (truth = Some false)).

Definition reach_and (a b : Reachable) : Reachable :=
  MkReachable (can_be_true a && can_be_true b) (can_be_false a || can_be_false b).

Definition reach_or (a b : Reachable) : Reachable :=
  MkReachable (can_be_true a || can_be_true b) (can_be_false a && can_be_false b).

Definition negated (a : Reachable) : Reachable := MkReachable (can_be_false a) (can_be_true a).

Section Predicate.
Context {UC : UnicodeCase} {HX : Hex} {SO : ScalarOps}.

Definition folds_to (key column : string) : bool := String.eqb (to_uppercase key) column.

Definition partition_value (values : LoggedValues) (column : string) : option (option string) :=
  (fun kv => non_null_partition_value kv.2) <$> List.find (fun kv => folds_to kv.1 column) values.

Definition typed_ordering (value : string) (literal : ScalarValue) : option comparison :=
  match literal with
  | SvText _ literal => Some (String.compare value literal)
  | SvBytes TBinary literal => Some (String.compare value literal)
  | _ =>
      match partition_scalar value (scalar_type literal) with
      | Err _ => None
      | Ok v => if is_null_scalar v then None else partial_cmp v literal
      end
  end.

Fixpoint reachable (node : Node) (values : LoggedValues) : Reachable :=
  match node with
  | Compare column comparison literal =>
      match partition_value values column with
      | None => ANY
      | Some None => exactly None
      | Some (Some value) =>
          match typed_ordering value literal with
          | None => ANY
          | Some ordering => exactly (Some (holds comparison ordering))
          end
      end
  | IsNull column =>
      match partition_value values column with
      | None => ANY
      | Some value => exactly (Some (bool_decide (value = None)))
      end
  | And operands => fold_left (fun acc n => reach_and acc (reachable n values)) operands (exactly (Some true))
  | Or operands => fold_left (fun acc n => reach_or acc (reachable n values)) operands (exactly (Some false))
  | Not operand => negated (reachable operand values)
  | Opaque => ANY
  end.

(** ** Literals *)

Definition unit_digits (u : TimeUnit) : nat :=
  match u with USecond => 0 | UMillisecond => 3 | UMicrosecond => 6 | UNanosecond => 9 end.

Definition is_digits (part : string) : bool := negb (String.eqb part "") && string_forallb is_ascii_digit part.

(** [strip_prefix(['+', '-']).unwrap_or]. *)
Definition unsigned_part (numeral : string) : string :=
  match numeral with String "+" rest | String "-" rest => rest | _ => numeral end.

Definition exact_numeral (value : Json) (scale : Z) : option string :=
  numeral ← match value with
            | JString s => Some s
            | JNumber n => Some (number_to_string n)
            | _ => None
            end;
  let unsigned := unsigned_part numeral in
  let '(whole, fraction) :=
    match split_once "." unsigned with Some (w, f) => (w, Some f) | None => (unsigned, None) end in
  fraction_digits ← match fraction with
                    | None => Some 0
                    | Some f => if is_digits f then Some (String.length f) else None
                    end;
  if is_digits whole && (0 <=? scale)%Z && (Z.of_nat fraction_digits <=? scale)%Z then Some numeral else None.

Definition exact_timestamp (value : Json) (u : TimeUnit) : option string :=
  text ← non_empty_str value;
  if bool_decide (timestamp_literal_digits text <= unit_digits u) then Some text else None.

(** The text of a literal the declared type holds exactly. *)
Definition literal_text (kind : string) (value : Json) (declared : DataType) : option string :=
  if String.eqb kind "literal_string" then
    match declared with TUtf8 | TLargeUtf8 | TUtf8View => non_empty_str value | _ => None end
  else if String.eqb kind "literal_exactnumeric" then
    if is_integer declared then exact_numeral value 0
    else match declared with TDecimal128 _ scale | TDecimal256 _ scale => exact_numeral value scale | _ => None end
  else if String.eqb kind "literal_date" then
    match declared with TDate32 | TDate64 => non_empty_str value | _ => None end
  else if String.eqb kind "literal_timestamp" then
    match declared with TTimestamp u _ => exact_timestamp value u | _ => None end
  else if String.eqb kind "literal_bool" then
    match declared with TBoolean => (fun b : bool => if b then "true" else "false") <$> as_bool value | _ => None end
  else None.

Definition literal_under (literal : Json) (declared : DataType) : option ScalarValue :=
  kind ← get_str literal "type";
  value ← get literal "value";
  if String.eqb kind "literal_binary" && bool_decide (declared = TBinary)
  then SvBytes TBinary <$> literal_binary_bytes literal
  else
    text ← literal_text kind value declared;
    match try_from_string text declared with
    | Ok scalar => if is_null_scalar scalar then None else Some scalar
    | Err _ => None
    end.

(** ** Translation *)

Variable declared : list (string * DataType).

Definition declared_type (column : string) : DataType :=
  match List.find (fun nt => folds_to nt.1 column) declared with Some (_, t) => t | None => TUtf8 end.

Definition typed_literal (column : string) (literal : Json) : option ScalarValue :=
  literal_under literal (declared_type column).

Definition translate_comparison (node : Json) (c : Comparison) : option Node :=
  '(column, literal, c) ← comparison_operands node c;
  let column := to_uppercase column in
  literal ← typed_literal column literal;
  Some (Compare column c literal).

Definition translate_in (node : Json) : option Node :=
  '(column, arguments) ← in_operands node;
  let column := to_uppercase column in
  equalities ← mapM (fun argument => literal ← typed_literal column argument; Some (Compare column Equal literal)) arguments;
  Some (Or equalities).

Definition translate_between (node : Json) : option Node :=
  '(column, low, high) ← between_operands node;
  let column := to_uppercase column in
  low ← low ≫= typed_literal column;
  high ← high ≫= typed_literal column;
  Some (And [Compare column GreaterEqual low; Compare column LessEqual high]).

Definition translate_is_null (node : Json) : option Node :=
  column ← subject_column node; Some (IsNull (to_uppercase column)).

(** The recursion follows the filter, so its depth is enough. *)
Fixpoint translate_fuel (fuel : nat) (node : Json) : Node :=
  match fuel with
  | 0 => Opaque
  | S fuel =>
      match get_str node "type" with
      | None => Opaque
      | Some kind =>
          if String.eqb kind "predicate_and" then
            match operands node with Some l => And (map (translate_fuel fuel) l) | None => Opaque end
          else if String.eqb kind "predicate_or" then
            match operands node with Some l => Or (map (translate_fuel fuel) l) | None => Opaque end
          else if String.eqb kind "predicate_not" then
            match get node "expression" with Some operand => Not (translate_fuel fuel operand) | None => Opaque end
          else if String.eqb kind "predicate_is_null" then default Opaque (translate_is_null node)
          else if String.eqb kind "predicate_is_not_null" then
            match translate_is_null node with Some is_null => Not is_null | None => Opaque end
          else if String.eqb kind "predicate_in_constlist" then default Opaque (translate_in node)
          else if String.eqb kind "predicate_between" then default Opaque (translate_between node)
          else default Opaque (from_node_type kind ≫= translate_comparison node)
      end
  end.

Definition translate (node : Json) : Node := translate_fuel (json_depth node) node.

Definition from_filter (filter_json : option Json) : Node :=
  match filter_json with Some node => translate node | None => Opaque end.

Definition keeps (root : Node) (values : LoggedValues) : bool := can_be_true (reachable root values).
End Predicate.

(** ** Values

    A number is its digits and how many of them follow the point; an instant counts
    nanoseconds. *)
Inductive Value := VText (s : string) | VNum (digits : Z) (scale : nat) | VTime (ns : Z) | VBool (b : bool) | VBytes (b : string) | VFloat (bits : Z).

Definition value_compare (a b : Value) : comparison :=
  match a, b with
  | VText a, VText b | VBytes a, VBytes b => String.compare a b
  | VNum a i, VNum b j => Z.compare (a * 10 ^ Z.of_nat j) (b * 10 ^ Z.of_nat i)
  | VTime a, VTime b => Z.compare a b
  | VBool a, VBool b => Z.compare (Z.b2z a) (Z.b2z b)
  | VText _, _ => Lt | _, VText _ => Gt
  | VNum _ _, _ => Lt | _, VNum _ _ => Gt
  | VTime _, _ => Lt | _, VTime _ => Gt
  | VBool _, _ => Lt | _, VBool _ => Gt
  | VBytes _, _ => Lt | _, VBytes _ => Gt
  | VFloat a, VFloat b => Z.compare a b
  end.

(** Nanoseconds in one tick of a temporal type. *)
Definition tick (t : DataType) : Z :=
  match t with
  | TDate32 => 86400 * 10 ^ 9
  | TDate64 => 10 ^ 6
  | TTimestamp u _ => 10 ^ (9 - Z.of_nat (unit_digits u))
  | _ => 1
  end%Z.

Definition is_temporal (t : DataType) : bool := match t with TDate32 | TDate64 | TTimestamp _ _ => true | _ => false end.

(** The fraction digits of an exact type. *)
Definition numeric_scale (t : DataType) : option Z :=
  if is_integer t then Some 0%Z else match t with TDecimal128 _ s | TDecimal256 _ s => Some s | _ => None end.

(** What a scalar stands for. *)
Definition scalar_value (v : ScalarValue) : option Value :=
  match v with
  | SvNull _ => None
  | SvBoolean b => Some (VBool b)
  | SvInteger t v =>
      if is_temporal t then Some (VTime (v * tick t))
      else match numeric_scale t with
           | Some s => Some (VNum (v * 10 ^ Z.max 0 (- s)) (Z.to_nat s))
           | None => Some (VTime v)
           end
  | SvFloat _ bits => Some (VFloat bits)
  | SvText _ s => Some (VText s)
  | SvBytes _ s => Some (VBytes s)
  end.

(** The value of a plain numeral: its digits, signed, and the length of its fraction. *)
Definition numeral_value (numeral : string) : Z * nat :=
  let unsigned := unsigned_part numeral in
  let '(whole, fraction) := match split_once "." unsigned with Some wf => wf | None => (unsigned, "") end in
  let n := Z.of_N (digits_value 0 (whole ++ fraction)) in
  ((match numeral with String "-" _ => - n | _ => n end)%Z, String.length fraction).

(** The instant a timestamp text names in UTC, and the midnight of the day a date
    text names. *)
Class Instants := { instant : string -> Z; midnight : string -> Z }.

(** The partition columns the sources declare: an instant is UTC or has no zone, a
    date counts days. *)
Definition comparable (t : DataType) : Prop :=
  match t with TTimestamp _ tz => tz = None \/ tz = Some "UTC" | TDate64 => False | _ => True end.

(** What DataFusion documents of its conversions from text, on the texts the predicate
    converts: they give the value the text names, in the type asked for, or fail; two
    values of one type compare as integers. *)
Class ScalarLaws `{Instants} (SO : ScalarOps) : Prop := {
  string_text t s : t = TUtf8 \/ t = TLargeUtf8 \/ t = TUtf8View -> try_from_string s t = Ok (SvText t s);
  boolean_text (b : bool) : try_from_string (if b then "true" else "false") TBoolean = Ok (SvBoolean b);
  boolean_typed s v : try_from_string s TBoolean = Ok v -> is_null_scalar v = false -> exists b, v = SvBoolean b;
  integer_typed s t v : is_temporal t = true \/ is_Some (numeric_scale t) ->
    try_from_string s t = Ok v -> is_null_scalar v = false -> exists n, v = SvInteger t n;
  numeral_text s t scale n : exact_numeral (JString s) scale = Some s -> numeric_scale t = Some scale ->
    try_from_string s t = Ok (SvInteger t n) ->
    n = ((numeral_value s).1 * 10 ^ (scale - Z.of_nat (numeral_value s).2))%Z;
  date_text s n : try_from_string s TDate32 = Ok (SvInteger TDate32 n) -> (n * tick TDate32)%Z = midnight s;
  timestamp_text s u n tz : tz = None \/ tz = Some "UTC" -> timestamp_literal_digits s <= unit_digits u ->
    try_from_string s (TTimestamp u tz) = Ok (SvInteger (TTimestamp u tz) n) -> (n * tick (TTimestamp u tz))%Z = instant s;
  integer_order t a b o : partial_cmp (SvInteger t a) (SvInteger t b) = Some o -> o = Z.compare a b;
  boolean_order a b o : partial_cmp (SvBoolean a) (SvBoolean b) = Some o -> o = Z.compare (Z.b2z a) (Z.b2z b);
}.

(** ** Rows of a file *)

(** The value of a literal: [Some None] is NULL, [None] a node that is no literal of
    these forms. *)
Definition literal_value `{HX : Hex} `{Instants} (node : Json) : option (option Value) :=
  kind ← get_str node "type";
  value ← get node "value";
  if String.eqb kind "literal_string" then (fun s => if String.eqb s "" then None else Some (VText s)) <$> as_str value
  else if String.eqb kind "literal_exactnumeric" then
    numeral ← match value with JString s => Some s | JNumber n => Some (number_to_string n) | _ => None end;
    if bool_decide (exact_numeral (JString numeral) (Z.of_nat (String.length numeral)) = Some numeral)
    then Some (let '(d, k) := numeral_value numeral in Some (VNum d k)) else None
  else if String.eqb kind "literal_date" then (fun s => Some (VTime (midnight s))) <$> non_empty_str value
  else if String.eqb kind "literal_timestamp" then (fun s => Some (VTime (instant s))) <$> non_empty_str value
  else if String.eqb kind "literal_bool" then (fun b => Some (VBool b)) <$> as_bool value
  else if String.eqb kind "literal_binary" then (fun b => Some (VBytes b)) <$> literal_binary_bytes node
  else None.

Lemma split_once_length c s a b : split_once c s = Some (a, b) -> String.length b <= String.length s.
Proof.
  revert a. induction s as [|d s IH]; intros a; [done|]. cbn. destruct (Ascii.eqb d c); [intros [= _ <-]; lia|].
  destruct (split_once c s) as [[a' b']|]; [|done]. intros [= _ <-]. specialize (IH a' eq_refl). lia.
Qed.

Lemma unsigned_part_length s : String.length (unsigned_part s) <= String.length s.
Proof. destruct s as [|c s]; [done|]. by destruct c as [[][][][][][][][]]; cbn; lia. Qed.

(** An accepted numeral is the literal's own text, with at most [scale] fraction digits. *)
Lemma exact_numeral_accepts value scale s :
  exact_numeral value scale = Some s ->
  match value with JString s => Some s | JNumber n => Some (number_to_string n) | _ => None end = Some s /\
  exact_numeral (JString s) scale = Some s /\ (0 <= scale)%Z /\
  (Z.of_nat (numeral_value s).2 <= scale)%Z /\ exact_numeral (JString s) (Z.of_nat (String.length s)) = Some s.
Proof.
  intros H. assert (match value with JString s => Some s | JNumber n => Some (number_to_string n) | _ => None end = Some s /\
    exact_numeral (JString s) scale = Some s) as [H1 H2].
  { unfold exact_numeral in H. destruct (match value with JString _ => _ | _ => _ end) as [numeral|] eqn:E; [|done].
    cbn [mbind option_bind] in H. enough (numeral = s) as -> by (split; [done|exact H]).
    destruct (split_once "." (unsigned_part numeral)) as [[w f]|].
    - destruct (is_digits f); [|done]. cbn in H. destruct (_ && _ && _); [by injection H|done].
    - cbn in H. destruct (_ && _ && _); [by injection H|done]. }
  split; [done|]. split; [done|]. clear H H1. unfold exact_numeral in H2 |- *. cbn [mbind option_bind] in *.
  unfold numeral_value. pose proof (unsigned_part_length s) as Hu.
  destruct (split_once "." (unsigned_part s)) as [[w f]|] eqn:E.
  - apply split_once_length in E. destruct (is_digits f); [|done]. cbn [mbind option_bind andb snd] in H2 |- *.
    destruct (is_digits w); [|done]. cbn [mbind option_bind andb snd] in H2 |- *.
    destruct (Z.leb_spec 0 scale); [|done]. destruct (Z.leb_spec (Z.of_nat (String.length f)) scale); [|done].
    split_and!; try lia. rewrite (proj2 (Z.leb_le 0 _)), (proj2 (Z.leb_le _ (Z.of_nat (String.length s)))) by lia. done.
  - cbn [mbind option_bind andb snd] in H2 |- *. destruct (is_digits _); [|done]. cbn [mbind option_bind andb snd] in H2 |- *.
    destruct (Z.leb_spec 0 scale); [|done]. split_and!; [lia|cbn; lia|].
    by repeat (match goal with |- context [(?a <=? ?b)%Z] => destruct (Z.leb_spec a b); [|lia] end).
Qed.

Section Rows.
Context {UC : UnicodeCase} {HX : Hex} {SO : ScalarOps} {IN : Instants} {SL : ScalarLaws SO}.
Variables (declared : list (string * DataType)) (values : LoggedValues).
Variables (row : string -> option Value) (other : Json -> option Value).

(** What a row gives an operand: a column by its uppercase name, a literal, anything
    else as [other] says. *)
Definition value_of (node : Json) : option Value :=
  match column_name node with
  | Some c => row (to_uppercase c)
  | None => match literal_value node with Some v => v | None => other node end
  end.

(** The rows of a file read each of its partition columns as the logged value: NULL
    where it is absent or empty, the bytes of the text for a binary column, the
    scan's own conversion otherwise. *)
Definition reads_logged : Prop :=
  forall column logged, partition_value values column = Some logged ->
    match logged with
    | None => row column = None
    | Some text =>
        if bool_decide (declared_type declared column = TBinary) then row column = Some (VBytes text)
        else exists v, partition_scalar text (declared_type declared column) = Ok v /\ is_null_scalar v = false /\
               row column = scalar_value v
    end.

(** The truth values a translated node admits. *)
Definition admits_truth (r : Reachable) (t : option bool) : Prop :=
  match t with Some true => can_be_true r = true | Some false => can_be_false r = true | None => True end.

Lemma admits_any t : admits_truth ANY t.
Proof. by destruct t as [[]|]. Qed.

Lemma admits_exactly t : admits_truth (exactly t) t.
Proof. by destruct t as [[]|]. Qed.

Lemma admits_and a b t u : admits_truth a t -> admits_truth b u -> admits_truth (reach_and a b) (and3 t u).
Proof. destruct a as [[] []], b as [[] []], t as [[]|], u as [[]|]; cbn; done. Qed.

Lemma admits_or a b t u : admits_truth a t -> admits_truth b u -> admits_truth (reach_or a b) (or3 t u).
Proof. destruct a as [[] []], b as [[] []], t as [[]|], u as [[]|]; cbn; done. Qed.

Lemma admits_not a t : admits_truth a t -> admits_truth (negated a) (not3 t).
Proof. destruct a as [[] []], t as [[]|]; cbn; done. Qed.

(** ** Literals and values under one type *)

(** A converted literal, and what it means. *)
Inductive converted (t : DataType) : ScalarValue -> Value -> Prop :=
| conv_text s : t = TUtf8 \/ t = TLargeUtf8 \/ t = TUtf8View -> converted t (SvText t s) (VText s)
| conv_bytes b : t = TBinary -> converted t (SvBytes TBinary b) (VBytes b)
| conv_bool b : t = TBoolean -> converted t (SvBoolean b) (VBool b)
| conv_time n : is_temporal t = true -> converted t (SvInteger t n) (VTime (n * tick t))
| conv_num n d k scale : is_temporal t = false -> numeric_scale t = Some scale -> (Z.of_nat k <= scale)%Z ->
    n = (d * 10 ^ (scale - Z.of_nat k))%Z -> converted t (SvInteger t n) (VNum d k).

Lemma literal_text_converted node kind value t text v :
  get_str node "type" = Some kind -> get node "value" = Some value -> comparable t ->
  literal_text kind value t = Some text -> try_from_string text t = Ok v -> is_null_scalar v = false ->
  exists x, literal_value node = Some (Some x) /\ converted t v x.
Proof.
  intros Hk Hv Ht Htext Hc Hnull. unfold literal_value. rewrite Hk, Hv. cbn [mbind option_bind].
  unfold literal_text in Htext.
  destruct (String.eqb kind "literal_string").
  { assert (t = TUtf8 \/ t = TLargeUtf8 \/ t = TUtf8View) as Hty by (destruct t; auto; done).
    rewrite string_text in Hc by done. injection Hc as <-.
    assert (non_empty_str value = Some text) as Hs by (destruct Hty as [->|[->| ->]]; done).
    unfold non_empty_str in Hs. destruct (as_str value) as [s|]; [|done]. cbn in Hs |- *.
    destruct (String.eqb s ""); [done|]. injection Hs as <-. eexists. split; [done|]. by constructor. }
  destruct (String.eqb kind "literal_exactnumeric").
  { assert (exists scale, numeric_scale t = Some scale /\ exact_numeral value scale = Some text) as (scale & Hs & Hn).
    { unfold numeric_scale. destruct (is_integer t); [by eexists|]. destruct t; try done; by eexists. }
    apply exact_numeral_accepts in Hn as (-> & Hn & Hpos & Hk' & Hlen). cbn [mbind option_bind].
    rewrite bool_decide_eq_true_2 by done. destruct (numeral_value text) as [d k] eqn:Enum. eexists. split; [done|].
    destruct (integer_typed text t v) as [n ->]; [right; by eexists|done|done|].
    apply (conv_num t n d k scale); try done.
    - unfold numeric_scale in Hs. by destruct t.
    - pose proof (numeral_text text t scale n Hn Hs Hc) as H. by rewrite Enum in H. }
  destruct (String.eqb kind "literal_date").
  { destruct t; try done. rewrite Htext. destruct (integer_typed text TDate32 v) as [n ->]; [by left|done|done|].
    eexists. split; [done|]. rewrite <- (date_text _ _ Hc). by constructor. }
  destruct (String.eqb kind "literal_timestamp").
  { destruct t; try done.
    unfold exact_timestamp in Htext. destruct (non_empty_str value) as [s|]; [|done]. cbn in Htext |- *.
    case_bool_decide; [|done]. injection Htext as ->.
    destruct (integer_typed text (TTimestamp unit tz) v) as [n ->]; [by left|done|done|].
    eexists. split; [done|]. rewrite <- (timestamp_text _ _ _ _ Ht ltac:(done) Hc). by constructor. }
  destruct (String.eqb kind "literal_bool"); [|done].
  destruct t; try done. destruct (as_bool value) as [b|]; [|done]. cbn in Htext |- *. injection Htext as <-.
  rewrite boolean_text in Hc. injection Hc as <-. eexists. split; [done|]. by constructor.
Qed.

Lemma literal_under_converted node t v :
  comparable t -> literal_under node t = Some v ->
  exists x, value_of node = Some x /\ converted t v x.
Proof.
  intros Ht. unfold literal_under. destruct (get_str node "type") as [kind|] eqn:Hk; [|done]. cbn [mbind option_bind].
  destruct (get node "value") as [value|] eqn:Hv; [|done]. cbn [mbind option_bind].
  enough ((if String.eqb kind "literal_binary" && bool_decide (t = TBinary)
           then SvBytes TBinary <$> literal_binary_bytes node
           else text ← literal_text kind value t;
                match try_from_string text t with
                | Ok scalar => if is_null_scalar scalar then None else Some scalar
                | Err _ => None
                end) = Some v ->
          kind <> "column" /\ exists x, literal_value node = Some (Some x) /\ converted t v x) as H.
  { intros H'. destruct (H H') as (Hne & x & Hx & Hc). exists x. split; [|done]. unfold value_of.
    by rewrite (column_name_literal _ _ Hk Hne), Hx. }
  destruct (String.eqb_spec kind "literal_binary") as [->|]; cbn [andb].
  - case_bool_decide as Hbin; [|done]. destruct (literal_binary_bytes node) as [b|] eqn:Hb; [|done].
    intros [= <-]. split; [done|]. exists (VBytes b). split; [|by constructor].
    unfold literal_value. rewrite Hk, Hv. cbn. by rewrite Hb.
  - destruct (literal_text kind value t) as [text|] eqn:Htext; [|done]. cbn [mbind option_bind].
    destruct (try_from_string text t) as [scalar|] eqn:Hc; [|done].
    destruct (is_null_scalar scalar) eqn:Hnull; [done|]. intros [= <-]. split.
    + intros ->. done.
    + by eapply literal_text_converted.
Qed.

Lemma digits_shift d k n scale :
  (Z.of_nat k <= scale)%Z ->
  Z.compare n (d * 10 ^ (scale - Z.of_nat k)) = Z.compare (n * 10 ^ Z.of_nat k) (d * 10 ^ scale).
Proof.
  intros H. replace scale with (scale - Z.of_nat k + Z.of_nat k)%Z at 2 by lia. rewrite Z.pow_add_r by lia.
  rewrite Z.mul_assoc. rewrite !(Z.mul_comm _ (10 ^ Z.of_nat k)). apply Zmult_compare_compat_l. lia.
Qed.

Hypothesis Hlogged : reads_logged.

(** The predicate's ordering is the one the file's rows see. *)
Lemma typed_ordering_sound column text v x o :
  comparable (declared_type declared column) ->
  partition_value values column = Some (Some text) -> converted (declared_type declared column) v x ->
  typed_ordering text v = Some o ->
  exists y, row column = Some y /\ value_compare y x = o.
Proof.
  intros Hcmp Hpart Hconv Hord. pose proof (Hlogged column _ Hpart) as Hrow. cbv beta iota in Hrow.
  remember (declared_type declared column) as t eqn:Et. clear Et.
  assert (forall n, is_temporal t = true \/ is_Some (numeric_scale t) -> typed_ordering text (SvInteger t n) = Some o ->
            exists m, row column = scalar_value (SvInteger t m) /\ o = Z.compare m n) as Hint.
  { intros n Hty Ho. cbn in Ho. destruct (partition_scalar text t) as [w|] eqn:Ew; [|done].
    destruct (is_null_scalar w) eqn:Hnull; [done|].
    assert (is_binary t = false) as Hnb by (destruct t; try done; destruct Hty as [?|[? ?]]; done).
    rewrite bool_decide_eq_false_2 in Hrow by (by intros ->).
    destruct Hrow as (w' & Ew' & _ & Hr). injection Ew' as <-.
    unfold partition_scalar in Ew. rewrite Hnb in Ew. cbn in Ew.
    destruct (integer_typed text t w Hty Ew Hnull) as [m ->]. exists m. split; [done|]. by apply integer_order in Ho. }
  destruct Hconv as [s Hty|b Hty|b Hty|n Hty|n d k scale Hty Hscale Hk Hn].
  - injection Hord as <-. exists (VText text). split; [|done].
    assert (partition_scalar text t = Ok (SvText t text)) as Hs.
    { destruct Hty as [->|[->| ->]]; unfold partition_scalar; cbn [is_binary negb]; apply string_text; auto. }
    rewrite bool_decide_eq_false_2 in Hrow by (intros E; rewrite E in Hty; by destruct Hty as [|[|]]).
    destruct Hrow as (w' & Ew' & _ & Hr). rewrite Hs in Ew'. by injection Ew' as <-.
  - injection Hord as <-. exists (VBytes text). subst t. done.
  - subst t. cbn [typed_ordering scalar_type] in Hord. rewrite bool_decide_eq_false_2 in Hrow by done.
    destruct (partition_scalar text TBoolean) as [w|] eqn:Ew; [|done].
    destruct (is_null_scalar w) eqn:Hnull; [done|]. destruct Hrow as (w' & Ew' & _ & Hr). injection Ew' as <-.
    destruct (boolean_typed text w Ew Hnull) as [b' ->]. exists (VBool b'). split; [done|].
    by apply boolean_order in Hord.
  - destruct (Hint n (or_introl Hty) Hord) as (m & Hr & ->). cbn in Hr. rewrite Hty in Hr. eexists. split; [exact Hr|].
    cbn. symmetry. rewrite !(Z.mul_comm _ (tick t)). apply Zmult_compare_compat_l.
    destruct t as [| | | | | | | | | | | | | | | | | | | | | | |u tz| | | | | | | | | | | | | | | | |]; try done. destruct u; cbn; lia.
  - destruct (Hint n) as (m & Hr & ->); [right; by eexists|done|]. cbn in Hr. rewrite Hty, Hscale in Hr.
    rewrite Z.max_l, Z.mul_1_r in Hr by lia. eexists. split; [exact Hr|]. cbn. rewrite Z2Nat.id by lia.
    subst n. symmetry. by apply digits_shift.
Qed.

Hypothesis Hcomparable : Forall (fun nt => comparable nt.2) declared.

Lemma declared_comparable column : comparable (declared_type declared column).
Proof.
  unfold declared_type. destruct (List.find _ declared) as [[n t]|] eqn:E; [|done].
  apply List.find_some in E as [E _]. by eapply (proj1 (List.Forall_forall _ _) Hcomparable) in E.
Qed.

Lemma partition_compare_antisym a b : value_compare b a = CompOpp (value_compare a b).
Proof.
  destruct a, b; cbn; try done; try apply String.compare_antisym; apply Z.compare_antisym.
Qed.

(** A comparison of a column with a converted literal. *)
Lemma compare_sound column c literal v column_node :
  column_name column_node = Some column -> typed_literal declared (to_uppercase column) literal = Some v ->
  admits_truth (reachable (Compare (to_uppercase column) c v) values)
    (compare3 value_compare c (value_of column_node) (value_of literal)).
Proof.
  intros Hcol Hlit. destruct (literal_under_converted literal _ v (declared_comparable _) Hlit) as (x & Hx & Hconv).
  rewrite Hx. assert (value_of column_node = row (to_uppercase column)) as -> by (unfold value_of; by rewrite Hcol).
  cbn [reachable]. destruct (partition_value values (to_uppercase column)) as [[text|]|] eqn:Hp; [| |apply admits_any].
  - destruct (typed_ordering text v) as [o|] eqn:Ho; [|apply admits_any].
    destruct (typed_ordering_sound _ _ _ _ _ (declared_comparable _) Hp Hconv Ho) as (y & -> & <-). apply admits_exactly.
  - pose proof (Hlogged _ _ Hp) as Hr. cbv beta iota in Hr. rewrite Hr. done.
Qed.

Lemma fold_and_sound l ts acc t :
  Forall2 (fun x u => admits_truth (reachable x values) u) l ts -> admits_truth acc t ->
  admits_truth (fold_left (fun acc n => reach_and acc (reachable n values)) l acc) (and3 t (all3 ts)).
Proof.
  intros H. revert acc t. induction H as [|x u l ts Hx _ IH]; intros acc t Hacc.
  - cbn. by destruct t as [[]|].
  - cbn [fold_left]. change (all3 (u :: ts)) with (and3 u (all3 ts)).
    rewrite and3_assoc. apply IH. by apply admits_and.
Qed.

Lemma fold_or_sound l ts acc t :
  Forall2 (fun x u => admits_truth (reachable x values) u) l ts -> admits_truth acc t ->
  admits_truth (fold_left (fun acc n => reach_or acc (reachable n values)) l acc) (or3 t (any3 ts)).
Proof.
  intros H. revert acc t. induction H as [|x u l ts Hx _ IH]; intros acc t Hacc.
  - cbn. by destruct t as [[]|].
  - cbn [fold_left]. change (any3 (u :: ts)) with (or3 u (any3 ts)).
    rewrite or3_assoc. apply IH. by apply admits_or.
Qed.

Notation vmeans := (means value_of value_compare).

Lemma in_sound node t :
  get_str node "type" = Some "predicate_in_constlist" -> vmeans node t ->
  admits_truth (reachable (default Opaque (translate_in declared node)) values) t.
Proof.
  intros Hk Ht. destruct (translate_in declared node) as [n|] eqn:E; [|apply admits_any]. cbn [default from_option id].
  unfold translate_in, in_operands, subject_column in E.
  destruct (get node "expression") as [e|] eqn:Ee; [|done]. cbn [mbind option_bind] in E.
  destruct (column_name e) as [column|] eqn:Ec; [|done]. cbn [mbind option_bind] in E.
  destruct (get node "arguments") as [a|] eqn:Ea; [|done]. cbn [mbind option_bind] in E.
  unfold non_empty in E. destruct (as_array a) as [l|] eqn:El; [|done]. cbn [mbind option_bind] in E.
  assert (get_array node "arguments" = Some l) as Hl by (unfold get_array; rewrite Ea; done).
  apply (means_in _ _ node e l t Hk Ee Hl) in Ht as ->.
  destruct l as [|a0 l0]; [done|]. cbn [mbind option_bind] in E. remember (a0 :: l0) as l' eqn:El'. clear El' Hl El.
  destruct (mapM _ l') as [eqs|] eqn:Em; [|done]. injection E as <-. apply mapM_Some_1 in Em.
  cbn [reachable]. rewrite <- (or3_false (any3 _)). apply fold_or_sound; [|done].
  clear -Em Ec Hlogged Hcomparable SL. induction Em as [|x n l eqs Hx _ IH]; constructor; [|done].
  destruct (typed_literal declared (to_uppercase column) x) as [v|] eqn:Ev; [|done]. injection Hx as <-.
  by apply compare_sound.
Qed.

Lemma between_sound node t :
  get_str node "type" = Some "predicate_between" -> vmeans node t ->
  admits_truth (reachable (default Opaque (translate_between declared node)) values) t.
Proof.
  intros Hk Ht. destruct (translate_between declared node) as [n|] eqn:E; [|apply admits_any]. cbn [default from_option id].
  unfold translate_between, between_operands, subject_column in E.
  destruct (get node "expression") as [e|] eqn:Ee; [|done]. cbn [mbind option_bind] in E.
  destruct (column_name e) as [column|] eqn:Ec; [|done]. cbn [mbind option_bind] in E.
  destruct (get node "left") as [low|] eqn:El; [|done]. cbn [mbind option_bind] in E.
  destruct (typed_literal declared (to_uppercase column) low) as [lv|] eqn:Elv; [|done]. cbn [mbind option_bind] in E.
  destruct (get node "right") as [high|] eqn:Eh; [|done]. cbn [mbind option_bind] in E.
  destruct (typed_literal declared (to_uppercase column) high) as [hv|] eqn:Ehv; [|done]. injection E as <-.
  apply (means_between _ _ node e low high t Hk Ee El Eh) in Ht as ->.
  change (reachable (And ?l) values) with (fold_left (fun acc n => reach_and acc (reachable n values)) l (exactly (Some true))).
  rewrite <- (and3_true_l (and3 _ _)).
  rewrite <- (and3_true_r (compare3 value_compare LessEqual _ _)).
  apply (fold_and_sound _ [_; _]); [|done]. repeat constructor; by apply compare_sound.
Qed.

Lemma comparison_sound node c t :
  get_str node "type" = Some (node_type c) -> vmeans node t ->
  admits_truth (reachable (default Opaque (translate_comparison declared node c)) values) t.
Proof.
  intros Hk Ht. destruct (translate_comparison declared node c) as [n|] eqn:E; [|apply admits_any]. cbn [default from_option id].
  unfold translate_comparison, comparison_operands in E.
  destruct (get node "left") as [l|] eqn:El; [|done]. cbn [mbind option_bind] in E.
  destruct (get node "right") as [r|] eqn:Er; [|done]. cbn [mbind option_bind] in E.
  apply (means_comparison _ _ node c l r t Hk El Er) in Ht as ->.
  destruct (column_name l) as [column|] eqn:Ec.
  - cbn [mbind option_bind] in E. destruct (typed_literal declared (to_uppercase column) r) as [v|] eqn:Ev; [|done].
    injection E as <-. by apply compare_sound.
  - destruct (column_name r) as [column|] eqn:Ec'; [|done]. cbn [mbind option_bind] in E.
    destruct (typed_literal declared (to_uppercase column) l) as [v|] eqn:Ev; [|done]. injection E as <-.
    rewrite <- (compare3_swapped value_compare c) by (intros; apply partition_compare_antisym). by apply compare_sound.
Qed.

Lemma scalar_value_null v : is_null_scalar v = false -> is_Some (scalar_value v).
Proof. destruct v; try done; cbn; try by eexists. intros _. destruct (is_temporal t); [by eexists|]. destruct (numeric_scale t); by eexists. Qed.

Lemma is_null_sound e c :
  column_name e = Some c ->
  admits_truth (reachable (IsNull (to_uppercase c)) values) (Some (match value_of e with None => true | Some _ => false end)).
Proof.
  intros Ec. cbn [reachable].
  destruct (partition_value values (to_uppercase c)) as [logged|] eqn:Hp; [|apply admits_any].
  assert (value_of e = row (to_uppercase c)) as -> by (unfold value_of; by rewrite Ec).
  pose proof (Hlogged _ _ Hp) as Hr. destruct logged as [text|]; cbv beta iota in Hr; [|by rewrite Hr].
  case_bool_decide; [by rewrite Hr|]. destruct Hr as (v & _ & Hnull & ->). by destruct (scalar_value_null v Hnull) as [x ->].
Qed.

Lemma Forall2_from_members (rec : Json -> Node) l ts :
  (forall x u, x ∈ l -> vmeans x u -> admits_truth (reachable (rec x) values) u) -> Forall2 vmeans l ts ->
  Forall2 (fun x u => admits_truth (reachable x values) u) (map rec l) ts.
Proof.
  intros H F. induction F as [|x u l ts Hx _ IH]; constructor; [apply H; set_solver|]. apply IH. set_solver.
Qed.

Lemma translate_fuel_sound fuel node t :
  vmeans node t -> admits_truth (reachable (translate_fuel declared fuel node) values) t.
Proof.
  revert node t. induction fuel as [|fuel IH]; intros node t Ht; [apply admits_any|]. cbn [translate_fuel].
  destruct (get_str node "type") as [kind|] eqn:Hk; [|apply admits_any].
  destruct (String.eqb_spec kind "predicate_and") as [->|].
  { destruct (operands node) as [l|] eqn:El; [|apply admits_any]. apply operands_array in El.
    apply (means_and _ _ node l t Hk El) in Ht as (ts & Hts & ->). cbn [reachable]. rewrite <- (and3_true_l (all3 ts)).
    apply fold_and_sound; [|done]. apply Forall2_from_members; [|done]. intros x u _. apply IH. }
  destruct (String.eqb_spec kind "predicate_or") as [->|].
  { destruct (operands node) as [l|] eqn:El; [|apply admits_any]. apply operands_array in El.
    apply (means_or _ _ node l t Hk El) in Ht as (ts & Hts & ->). cbn [reachable]. rewrite <- (or3_false (any3 ts)).
    apply fold_or_sound; [|done]. apply Forall2_from_members; [|done]. intros x u _. apply IH. }
  destruct (String.eqb_spec kind "predicate_not") as [->|].
  { destruct (get node "expression") as [e|] eqn:Ee; [|apply admits_any].
    apply (means_not _ _ node e t Hk Ee) in Ht as (t' & Ht & ->). apply admits_not. by apply IH. }
  destruct (String.eqb_spec kind "predicate_is_null") as [->|].
  { unfold translate_is_null, subject_column. destruct (get node "expression") as [e|] eqn:Ee; [|apply admits_any].
    cbn [mbind option_bind]. destruct (column_name e) as [c|] eqn:Ec; [|apply admits_any]. cbn [default from_option id mbind option_bind].
    apply means_unfold in Ht. unfold meaning_step in Ht. rewrite Hk, Ee in Ht. cbn in Ht. subst t. by apply is_null_sound. }
  destruct (String.eqb_spec kind "predicate_is_not_null") as [->|].
  { unfold translate_is_null, subject_column. destruct (get node "expression") as [e|] eqn:Ee; [|apply admits_any].
    cbn [mbind option_bind]. destruct (column_name e) as [c|] eqn:Ec; [|apply admits_any]. cbn [mbind option_bind].
    apply means_unfold in Ht. unfold meaning_step in Ht. rewrite Hk, Ee in Ht. cbn in Ht. subst t.
    pose proof (admits_not _ _ (is_null_sound e c Ec)) as H. by destruct (value_of e). }
  destruct (String.eqb_spec kind "predicate_in_constlist") as [->|]; [by apply in_sound|].
  destruct (String.eqb_spec kind "predicate_between") as [->|]; [by apply between_sound|].
  destruct (from_node_type kind) as [c|] eqn:Ec; [|apply admits_any].
  apply from_node_type_Some in Ec as ->. by apply comparison_sound.
Qed.
End Rows.

(** C16. Partition pruning rules out no file that holds a matching row: when every row
    of a file reads its partition columns as the values the log records, and the
    filter is TRUE on one, whatever the nodes it does not read compute, the file is
    kept. *)
Theorem partition_pruning_sound `{UC : UnicodeCase} `{HX : Hex} `{SL : ScalarLaws} (declared : list (string * DataType))
    (values : LoggedValues) (row : string -> option Value) (other : Json -> option Value) (filter : Json) :
  Forall (fun nt => comparable nt.2) declared -> reads_logged declared values row ->
  means (value_of row other) value_compare filter (Some true) ->
  keeps (from_filter declared (Some filter)) values = true.
Proof.
  intros Hc Hl Ht. exact (translate_fuel_sound declared values row other Hl Hc (json_depth filter) filter (Some true) Ht).
Qed.

(** Conversions as the laws describe them, on texts, booleans and exact numbers. *)
Definition plain_scalars : ScalarOps := {|
  try_from_string s t :=
    match t with
    | TUtf8 | TLargeUtf8 | TUtf8View => Ok (SvText t s)
    | TBoolean => if String.eqb s "true" then Ok (SvBoolean true) else if String.eqb s "false" then Ok (SvBoolean false) else Err "boolean"
    | _ =>
        match numeric_scale t with
        | Some scale =>
            if bool_decide (exact_numeral (JString s) scale = Some s)
            then Ok (SvInteger t ((numeral_value s).1 * 10 ^ (scale - Z.of_nat (numeral_value s).2))) else Err "numeral"
        | None => Err "type"
        end
    end;
  try_new_null t := Ok (SvNull t);
  partial_cmp a b :=
    match a, b with
    | SvInteger _ a, SvInteger _ b => Some (Z.compare a b)
    | SvBoolean a, SvBoolean b => Some (Z.compare (Z.b2z a) (Z.b2z b))
    | _, _ => None
    end;
  type_display _ := "type";
  hex_error _ := "hex";
|}.

Definition no_instants : Instants := {| instant _ := 0%Z; midnight _ := 0%Z |}.

Lemma plain_scalars_numeric s t v :
  try_from_string (ScalarOps := plain_scalars) s t = Ok v -> is_temporal t = true \/ is_Some (numeric_scale t) ->
  exists scale, numeric_scale t = Some scale /\
    v = SvInteger t ((numeral_value s).1 * 10 ^ (scale - Z.of_nat (numeral_value s).2)).
Proof.
  intros H Ht. cbn in H. unfold numeric_scale in *.
  destruct t; cbn in *; try discriminate; try (by destruct Ht as [?|[? ?]]);
    (destruct (bool_decide _) in H; [|discriminate]; injection H as <-; by eexists).
Qed.

Lemma plain_scalars_laws : ScalarLaws (H := no_instants) plain_scalars.
Proof.
  split.
  - by intros t s [->|[->| ->]].
  - by intros [].
  - intros s v. cbn. destruct (String.eqb s "true"); [by intros [= <-]; eexists|].
    destruct (String.eqb s "false"); [by intros [= <-]; eexists|done].
  - intros s t v Ht Hv _. destruct (plain_scalars_numeric s t v Hv Ht) as (scale & _ & ->). by eexists.
  - intros s t scale n _ Hs H. destruct (plain_scalars_numeric s t _ H) as (scale' & Hs' & [= ->]); [right; by eexists|].
    rewrite Hs in Hs'. by injection Hs' as <-.
  - intros s n H. by destruct (plain_scalars_numeric s _ _ H (or_introl eq_refl)) as (? & ? & _).
  - intros s u n tz _ _ H. by destruct (plain_scalars_numeric s _ _ H (or_introl eq_refl)) as (? & ? & _).
  - by intros t a b o [= <-].
  - by intros a b o [= <-].
Qed.

Definition log_columns : list (string * DataType) := [("region", TUtf8); ("year", TInt32)].
Definition log_values : LoggedValues := [("region", Some "eu"); ("year", Some "2024")].
Definition log_row (column : string) : option Value :=
  if String.eqb column "REGION" then Some (VText "eu") else if String.eqb column "YEAR" then Some (VNum 2024 0) else None.

Definition log_filter : Json :=
  json_object [("type", JString "predicate_and"); ("expressions", JArray [
    json_object [("type", JString "predicate_less");
                 ("left", json_object [("type", JString "literal_exactnumeric"); ("value", JString "2023")]);
                 ("right", json_object [("type", JString "column"); ("name", JString "Year")])];
    json_object [("type", JString "predicate_not"); ("expression",
      json_object [("type", JString "predicate_in_constlist");
                   ("expression", json_object [("type", JString "column"); ("name", JString "REGION")]);
                   ("arguments", JArray [json_object [("type", JString "literal_string"); ("value", JString "us")]])])]])].

Lemma partition_pruning_sound_witness :
  keeps (SO := plain_scalars) (HX := plain_hex) (UC := ascii_case)
    (from_filter (SO := plain_scalars) (HX := plain_hex) (UC := ascii_case) log_columns (Some log_filter)) log_values = true.
Proof.
  refine (partition_pruning_sound (UC := ascii_case) (HX := plain_hex) (SL := plain_scalars_laws)
    log_columns log_values log_row (fun _ => None) log_filter _ _ _).
  - repeat constructor.
  - intros column logged. unfold partition_value, log_values. cbn [List.find]. unfold folds_to.
    destruct (String.eqb_spec (to_uppercase (UnicodeCase := ascii_case) (fst ("region", Some "eu"))) column) as [<-|].
    { intros [= <-]. by exists (SvText TUtf8 "eu"). }
    destruct (String.eqb_spec (to_uppercase (UnicodeCase := ascii_case) (fst ("year", Some "2024"))) column) as [<-|]; [|done].
    intros [= <-]. exists (SvInteger TInt32 2024). split_and!; vm_compute; reflexivity.
  - refine (proj2 (means_and _ _ log_filter _ _ eq_refl eq_refl) _). exists [Some true; Some true]. split; [|reflexivity].
    constructor; [eapply (means_comparison _ _ _ Less); [reflexivity..|vm_compute; reflexivity]|].
    constructor; [|constructor]. eapply means_not; [reflexivity..|]. exists (Some false). split; [|reflexivity].
    eapply means_in; [reflexivity..|]. vm_compute. reflexivity.
Defined.
