(* ===== verification/ParquetDirectory.v ===== *)
(** crates/lakehouse-engine/src/adapter/parquet_directory.rs, direct_storage.rs and
    adapter/pushdown/format/parquet_directory_table.rs: a prefix of Parquet files as a
    table - its file list, its partition keys and the schema its footers fold to - the
    catalog that lists such prefixes, and the files a query of one plans. *)

From stdpp Require Import base list strings numbers gmap sorting.
From Stdlib Require Import Ascii String ZArith NArith Lia.
From S2P Require Import Prelude Text Hex Json ColumnNode FilterJson ArrowTypes TypeMapping ExasolRules Redaction Storage ScanSpec ColumnNotes BinaryFilter ScanFiles ObjectLocation TableIdentity Resolution Declaration Listing Adapter PartitionValues PartitionPredicate.

Local Open Scope string_scope.

(** ** What the object store and the parquet crate answer *)

(** [StorePath] is its parts; [object_store::ObjectMeta]. *)
Definition StorePath : Type := list string.
Definition path_str (p : StorePath) : string := join "/" p.
Record ObjectMeta := MkMeta { location : StorePath; meta_size : N }.

(** Errors are the texts [error_chain] renders. *)
Class ObjectStore (S : Type) := {
  store_list : S -> StorePath -> result string (list ObjectMeta);
  (** The objects and the common prefixes directly below. *)
  list_with_delimiter : S -> StorePath -> result string (list ObjectMeta * list StorePath);
}.

(** A leaf of a footer's schema, with the annotations the classification looks at. *)
Inductive PhysicalType := PtByteArray | PtOther.
Inductive LogicalType := LtEnum | LtGeometry | LtGeography | LtOther.
Inductive ConvertedType := CtEnum | CtOther.
Record ColumnDescriptor := MkLeaf {
  physical_type : PhysicalType;
  logical_type_ref : option LogicalType;
  converted_type : ConvertedType;
  max_rep_level : N;
  leaf_parts : list string;
}.
Record ArrowReaderMetadata := MkMetadata { md_fields : list Field; md_leaves : list ColumnDescriptor }.

Class ParquetFooters (S : Type) := {
  load_async : S -> StorePath -> N -> N -> result string ArrowReaderMetadata;
  (** [Int96Coercer] at microseconds in UTC. *)
  int96_coerce : ArrowReaderMetadata -> option (list Field);
  try_new : list ColumnDescriptor -> list Field -> result string ArrowReaderMetadata;
}.

(** ** The listing *)

Inductive FilePattern := ParquetAtAnyDepth | AnyDirectChild.

Record ListedFile := MkListed { lp_path : StorePath; lp_size : N; partition_segments : list (string * option string) }.
Record ParquetFile := MkParquetFile { pq_path : StorePath; pq_size : N; pq_partition_values : LoggedValues }.

(** [std::str::from_utf8]: the ranges the bytes after a leading one take. *)
Definition utf8_rest (c : N) : option (list (N * N)) :=
  let tail := (128, 191)%N in
  if (c <? 128)%N then Some []
  else if (c <? 194)%N then None
  else if (c <? 224)%N then Some [tail]
  else if (c =? 224)%N then Some [(160, 191)%N; tail]
  else if (c =? 237)%N then Some [(128, 159)%N; tail]
  else if (c <? 240)%N then Some [tail; tail]
  else if (c =? 240)%N then Some [(144, 191)%N; tail; tail]
  else if (c <? 244)%N then Some [tail; tail; tail]
  else if (c =? 244)%N then Some [(128, 143)%N; tail; tail]
  else None.

Fixpoint valid_utf8_from (due : list (N * N)) (s : string) : bool :=
  match s, due with
  | EmptyString, [] => true
  | EmptyString, _ => false
  | String c s', [] => match utf8_rest (code c) with Some due => valid_utf8_from due s' | None => false end
  | String c s', (lo, hi) :: due => (lo <=? code c)%N && (code c <=? hi)%N && valid_utf8_from due s'
  end.
Definition valid_utf8 : string -> bool := valid_utf8_from [].

Definition HIVE_DEFAULT_PARTITION : string := "__HIVE_DEFAULT_PARTITION__".

Definition decode_partition_value (raw : string) : option string :=
  let bytes := percent_decode raw in
  let decoded := if valid_utf8 bytes then bytes else raw in
  if String.eqb decoded "" || String.eqb decoded HIVE_DEFAULT_PARTITION then None else Some decoded.

Definition parse_partition_segments (directories : list string) : list (string * option string) :=
  omap (fun segment => '(key, value) ← split_once "=" segment; if String.eqb key "" then None else Some (key, decode_partition_value value)) directories.

Definition data_file_segments (location prefix : StorePath) : option (list string) :=
  segments ← prefix_match prefix location;
  match segments with
  | [] => None
  | _ => if existsb (fun segment => starts_with "_" segment || starts_with "." segment) segments then None else Some segments
  end.

(** [Vec::pop]: the last element and those before it. *)
Fixpoint pop {A} (l : list A) : option (list A * A) :=
  match l with
  | [] => None
  | x :: l' => match pop l' with None => Some ([], x) | Some (front, last) => Some (x :: front, last) end
  end.

Fixpoint ends_with (suffix s : string) : bool :=
  String.eqb suffix s || match s with EmptyString => false | String _ s' => ends_with suffix s' end.

Definition listed_file (pattern : FilePattern) (prefix : StorePath) (meta : ObjectMeta) : option ListedFile :=
  if (0 <? meta_size meta)%N then
    segments ← data_file_segments (location meta) prefix;
    '(directories, name) ← pop segments;
    let is_data_file := match pattern with ParquetAtAnyDepth => ends_with ".parquet" name | AnyDirectChild => true end in
    if is_data_file then Some (MkListed (location meta) (meta_size meta) (parse_partition_segments directories)) else None
  else None.

(** The stable sort by a text. *)
Definition text_le (a b : string) : bool := match String.compare a b with Gt => false | _ => true end.
Fixpoint insert_text {A} (text : A -> string) (x : A) (l : list A) : list A :=
  match l with [] => [x] | y :: l' => if text_le (text x) (text y) then x :: l else y :: insert_text text x l' end.
Definition sort_by_text {A} (text : A -> string) (l : list A) : list A := foldr (insert_text text) [] l.

Section Listed.
Context {UC : UnicodeCase} {S : Type} {OS : ObjectStore S}.

Definition list_location_files (store : S) (prefix : StorePath) (pattern : FilePattern) : result UdfError (list ListedFile) :=
  let listed := match pattern with
                | ParquetAtAnyDepth => store_list store prefix
                | AnyDirectChild => let? (objects, _) := list_with_delimiter store prefix in Ok objects
                end in
  match listed with
  | Err e => Err (User ("failed to list '" ++ path_str prefix ++ "': " ++ e))
  | Ok listed => Ok (sort_by_text (fun f => path_str (lp_path f)) (omap (listed_file pattern prefix) listed))
  end.

Definition list_data_files (store : S) (prefix : StorePath) (hive_partitioning : bool) : result UdfError (list ListedFile) :=
  let? files := list_location_files store prefix ParquetAtAnyDepth in
  Ok (if hive_partitioning then files else map (fun f => MkListed (lp_path f) (lp_size f) []) files).

(** ** Partition keys *)

Definition segment_keys (raw : ListedFile) : list string := map fst (partition_segments raw).

Fixpoint distinct_folded (seen : gset string) (keys : list string) : list string :=
  match keys with
  | [] => []
  | key :: keys => if bool_decide (to_uppercase key ∈ seen) then distinct_folded seen keys else key :: distinct_folded ({[to_uppercase key]} ∪ seen) keys
  end.

Definition declared_partition_keys (scope : list ListedFile) : list string := distinct_folded ∅ (List.concat (map segment_keys scope)).

Definition index_key (index : gmap string string) (key : string) : gmap string string :=
  match index !! to_uppercase key with Some _ => index | None => <[to_uppercase key := key]> index end.

Definition uppercase_index (keys : list string) : gmap string string := fold_left index_key keys ∅.

Definition spelling_conflict (first : string) (first_path : StorePath) (key : string) (path : StorePath) : UdfError :=
  User ("partition key '" ++ first ++ "' (in '" ++ path_str first_path ++ "') and '" ++ key ++ "' (in '" ++ path_str path
    ++ "') are two spellings of one partition column. Neither directory spelling is preferred over the other: rename the directories so every file spells the key alike.").

Definition check_spelling (folded_declared : list string) (first_seen : gmap string (string * StorePath)) (key : string) (path : StorePath)
  : result UdfError (gmap string (string * StorePath)) :=
  let folded := to_uppercase key in
  if existsb (String.eqb folded) folded_declared then
    match first_seen !! folded with
    | None => Ok (<[folded := (key, path)]> first_seen)
    | Some (first, first_path) => if String.eqb first key then Ok first_seen else Err (spelling_conflict first first_path key path)
    end
  else Ok first_seen.

Fixpoint check_spellings (folded_declared : list string) (first_seen : gmap string (string * StorePath)) (keys : list (string * StorePath)) : result UdfError () :=
  match keys with
  | [] => Ok tt
  | (key, path) :: keys => let? first_seen := check_spelling folded_declared first_seen key path in check_spellings folded_declared first_seen keys
  end.

Definition ensure_one_spelling_per_declared_key (files : list ListedFile) (folded_declared : list string) : result UdfError () :=
  check_spellings folded_declared ∅ (List.concat (map (fun f => map (fun key => (key, lp_path f)) (segment_keys f)) files)).

(** [BTreeMap::insert]. *)
Fixpoint btree_insert (key : string) (value : option string) (m : LoggedValues) : LoggedValues :=
  match m with
  | [] => [(key, value)]
  | (k, v) :: m' =>
      match String.compare key k with
      | Lt => (key, value) :: m
      | Eq => (key, value) :: m'
      | Gt => (k, v) :: btree_insert key value m'
      end
  end.

(** [rfind(..).and_then(|(_, value)| value.clone())] *)
Definition segment_value (segments : list (string * option string)) (folded : string) : option string :=
  found ← List.find (fun kv => String.eqb (to_uppercase kv.1) folded) (rev segments); snd found.

Definition file_partition_values (declared : list string) (file : ListedFile) : LoggedValues :=
  fold_left (fun m key => btree_insert key (segment_value (partition_segments file) (to_uppercase key)) m) declared [].

Definition fill_partition_values (files : list ListedFile) (declared : list string) : result UdfError (list LoggedValues) :=
  let? _ := ensure_one_spelling_per_declared_key files (map to_uppercase declared) in
  Ok (map (file_partition_values declared) files).

Definition missing_segment_error (column key : string) (path : StorePath) : UdfError :=
  User ("Parquet column '" ++ column ++ "' in '" ++ path_str path ++ "' collides with the partition key '" ++ key ++ "=' once uppercased, but this file's own path carries no '"
    ++ key ++ "=' segment — it has neither a directory value nor permission to fall back to its own stored value. Add the '" ++ key
    ++ "=' segment to this file's path or rename the column.").
End Listed.

(** ** The folded schema *)

Definition FOOTER_SIZE_HINT : N := 64 * 1024.

Record RefusedLeaf := MkRefusedLeaf { rl_column : string; member_path : option string; rl_declared : string; nested_enum : bool }.

Inductive LeafKind := Readable | KEnum | KRefused (declared : string).

Definition classify_leaf (leaf : ColumnDescriptor) : LeafKind :=
  match physical_type leaf, logical_type_ref leaf, converted_type leaf with
  | PtByteArray, Some LtEnum, _ | PtByteArray, None, CtEnum => KEnum
  | PtByteArray, Some LtGeometry, _ => KRefused "geometry"
  | PtByteArray, Some LtGeography, _ => KRefused "geography"
  | _, _, _ => Readable
  end.

Record FoldedColumn := MkFolded { fc_name : string; fc_type : DataType; fc_source : StorePath }.

Record SchemaFold := MkFold {
  key_columns : gmap string string;
  columns : list FoldedColumn;
  by_uppercase : gmap string nat;
  first_refused_leaf : gmap string RefusedLeaf;
  enum_columns : gset string;
}.

Definition SchemaFold_new (key_columns : gmap string string) : SchemaFold := MkFold key_columns [] ∅ ∅ ∅.

Section Fold.
Context {UC : UnicodeCase}.
(** [{:?}] of a type. *)
Context (debug_type : DataType -> string).

Definition unfoldable_pair (column : FoldedColumn) (field : Field) (path : StorePath) : UdfError :=
  User ("Parquet column '" ++ fc_name column ++ "' is declared as " ++ debug_type (fc_type column) ++ " in '" ++ path_str (fc_source column)
    ++ "' and as " ++ debug_type (field_type field) ++ " in '" ++ path_str path
    ++ "', and no supported type relaxation widens either to the other. Exclude the offending file or rewrite it at one type: declaring the column as a string, dropping it, or taking one file's type would each answer a correctness question by guessing.").

Definition colliding_names (column : FoldedColumn) (field : Field) (path : StorePath) : UdfError :=
  User ("Parquet columns '" ++ fc_name column ++ "' in '" ++ path_str (fc_source column) ++ "' and '" ++ field_name field ++ "' in '" ++ path_str path
    ++ "' are the same name once uppercased, so the declaration would advertise a duplicate column. Rename one of them.").

(** The fields of one footer. *)
Definition add_field (source : ListedFile) (fold : SchemaFold) (field : Field) : result UdfError SchemaFold :=
  let path := lp_path source in
  let folded := to_uppercase (field_name field) in
  match key_columns fold !! folded with
  | Some key =>
      if existsb (fun own => String.eqb (to_uppercase own) folded) (segment_keys source) then Ok fold
      else Err (missing_segment_error (field_name field) key path)
  | None =>
      match by_uppercase fold !! folded with
      | Some index =>
          match columns fold !! index with
          | None => Err (User "index out of bounds")
          | Some column =>
              if String.eqb (fc_name column) (field_name field) then
                match widen (fc_type column) (field_type field) with
                | None => Err (unfoldable_pair column field path)
                | Some wider =>
                    Ok (if bool_decide (wider = fc_type column) then fold
                        else MkFold (key_columns fold) (<[index := MkFolded (fc_name column) wider path]> (columns fold)) (by_uppercase fold) (first_refused_leaf fold) (enum_columns fold))
                end
              else Err (colliding_names column field path)
          end
      | None =>
          Ok (MkFold (key_columns fold) (columns fold ++ [MkFolded (field_name field) (field_type field) path]) (<[folded := List.length (columns fold)]> (by_uppercase fold))
                (first_refused_leaf fold) (enum_columns fold))
      end
  end.

Fixpoint add_fields (source : ListedFile) (fold : SchemaFold) (fields : list Field) : result UdfError SchemaFold :=
  match fields with [] => Ok fold | f :: fields => let? fold := add_field source fold f in add_fields source fold fields end.

(** A leaf's path has at least one part. *)
Definition add_leaf (fold : SchemaFold) (leaf : ColumnDescriptor) : SchemaFold :=
  let parts := leaf_parts leaf in
  let column := default "" (head parts) in
  let refuse (declared : string) (nested : bool) :=
    match first_refused_leaf fold !! column with
    | Some _ => fold
    | None =>
        MkFold (key_columns fold) (columns fold) (by_uppercase fold)
          (<[column := MkRefusedLeaf column (if (1 <? List.length parts)%nat then Some (join "." parts) else None) declared nested]> (first_refused_leaf fold)) (enum_columns fold)
    end in
  match classify_leaf leaf with
  | Readable => fold
  | KEnum =>
      if (List.length parts =? 1)%nat && (max_rep_level leaf =? 0)%N then
        MkFold (key_columns fold) (columns fold) (by_uppercase fold) (first_refused_leaf fold) ({[column]} ∪ enum_columns fold)
      else refuse "enum" true
  | KRefused declared => refuse declared false
  end.

Definition fold_add (fold : SchemaFold) (source : ListedFile) (metadata : ArrowReaderMetadata) : result UdfError SchemaFold :=
  let? fold := add_fields source fold (md_fields metadata) in
  Ok (fold_left add_leaf (md_leaves metadata) fold).

Fixpoint take_refused (columns : list FoldedColumn) (first : gmap string RefusedLeaf) : list RefusedLeaf :=
  match columns with
  | [] => []
  | c :: columns =>
      match first !! fc_name c with
      | Some leaf => leaf :: take_refused columns (delete (fc_name c) first)
      | None => take_refused columns first
      end
  end.

Definition folded_field (enums : gset string) (c : FoldedColumn) : Field :=
  let data_type := match fc_type c with TBinary => if bool_decide (fc_name c ∈ enums) then TUtf8 else TBinary | t => t end in
  MkField (fc_name c) data_type true ∅.

Definition fold_finish (fold : SchemaFold) : list Field * list RefusedLeaf :=
  (map (folded_field (enum_columns fold)) (columns fold), take_refused (columns fold) (first_refused_leaf fold)).

Definition schema_with_partition_columns (fields : list Field) (declared_keys : list string) : list Field :=
  (fields ++ map (fun key => MkField key TUtf8 true ∅) declared_keys)%list.
End Fold.

(** ** The directory *)

Record ParquetDirectory := MkDirectory {
  files : list ParquetFile;
  schema : list Field;
  directory_partition_columns : list string;
  refused_leaves : list RefusedLeaf;
}.

Record ParquetListing := MkListing { listing_files : list ListedFile }.

Section Directory.
Context {UC : UnicodeCase} {S : Type} {OS : ObjectStore S} {PF : ParquetFooters S}.
Context (debug_type : DataType -> string).

Definition read_footer (store : S) (path : StorePath) (size : N) : result UdfError ArrowReaderMetadata :=
  let footer_error e := User ("failed to read the Parquet footer of '" ++ path_str path ++ "': " ++ e) in
  match load_async store path size FOOTER_SIZE_HINT with
  | Err e => Err (footer_error e)
  | Ok metadata =>
      match int96_coerce metadata with
      | None => Ok metadata
      | Some schema => match try_new (md_leaves metadata) schema with Err e => Err (footer_error e) | Ok metadata => Ok metadata end
      end
  end.

(** The footers, in listing order. *)
Fixpoint fold_footers (store : S) (fold : SchemaFold) (sources : list ListedFile) : result UdfError SchemaFold :=
  match sources with
  | [] => Ok fold
  | source :: sources =>
      let? footer := read_footer store (lp_path source) (lp_size source) in
      let? fold := fold_add debug_type fold source footer in
      fold_footers store fold sources
  end.

Definition with_partition_values (f : ListedFile) (values : LoggedValues) : ParquetFile := MkParquetFile (lp_path f) (lp_size f) values.

Definition resolve_parquet_directory (store : S) (prefix : StorePath) (options : DirectoryOptions) : result UdfError ParquetDirectory :=
  let? raw_files := list_data_files store prefix (hive_partitioning options) in
  let sources := match merge_mode options with FoldEveryFile => raw_files | SampleOneFile => take 1 raw_files end in
  let declared_keys := declared_partition_keys sources in
  let key_columns := uppercase_index (List.concat (map segment_keys raw_files)) in
  let? partition_values := fill_partition_values raw_files declared_keys in
  let? fold := fold_footers store (SchemaFold_new key_columns) sources in
  let '(folded_fields, refused_leaves) := fold_finish fold in
  Ok (MkDirectory (zip_with with_partition_values raw_files partition_values) (schema_with_partition_columns folded_fields declared_keys) declared_keys refused_leaves).

(** [ParquetListing]. *)
Definition listing_list (store : S) (prefix : StorePath) : result UdfError ParquetListing :=
  let? files := list_data_files store prefix true in Ok (MkListing files).

Definition kept_files (listing : ParquetListing) (partition_columns : list string) (keep : LoggedValues -> bool) : result UdfError (list ParquetFile) :=
  let? partition_values := fill_partition_values (listing_files listing) partition_columns in
  Ok (map (fun fv => with_partition_values fv.1 fv.2) (List.filter (fun fv => keep fv.2) (combine (listing_files listing) partition_values))).

(** ** The catalog of a directory *)

Context {U : Type} {SU : StoreUrls U} `{!EqDecision U} {HX : Hex} {SO : ScalarOps}.
Context (print : Json -> string).

(** [nested_members] of direct_storage.rs. *)
Fixpoint type_members (data_type : DataType) : option NestedMembers :=
  match data_type with
  | TStruct fields => Some (NStruct (map (fun f => let '(MkField name t _ _) := f in MkNestedField None name None (type_members t)) fields))
  | TList element | TLargeList element | TFixedSizeList element _ => Some (NList (let '(MkField _ t _ _) := element in type_members t))
  | TMap entries _ =>
      let pair := let '(MkField _ t _ _) := entries in
        match t with TStruct fields => map (fun f => let '(MkField _ t _ _) := f in type_members t) fields | _ => [] end in
      Some (NMap (default None (nth_error pair 0)) (default None (nth_error pair 1)))
  | _ => None
  end.

Definition logical_field (field : Field) : LogicalField :=
  MkLogicalField None (field_name field) (arrow_type_to_tag (field_type field)) (field_nullable field) None (type_members (field_type field)) None.

Definition leaf_refusal (leaf : RefusedLeaf) : string :=
  let reason := column_refusal "Parquet" (rl_column leaf) (member_path leaf) (unread_type_cause (rl_declared leaf)) in
  if nested_enum leaf then reason ++ "; a Parquet ENUM is read as text only as a top-level, non-repeated column" else reason.

Definition declared_type_of (t : DataType) : DataType := if needs_json_fallback t && negb (is_binary t) then TUtf8 else t.

Definition directory_declaration (directory : ParquetDirectory) (field : Field) : ColumnDeclaration :=
  MkColumnDeclaration (logical_field field) (N.of_nat <$> Text.position (String.eqb (field_name field)) (directory_partition_columns directory))
    (leaf_refusal <$> List.find (fun leaf => String.eqb (rl_column leaf) (field_name field)) (refused_leaves directory)).

Definition resolve_columns (directory : ParquetDirectory) : list CatalogColumn :=
  map (fun field => MkCatalogColumn (field_name field) (Parquet (arrow_type_to_tag (declared_type_of (field_type field))))
                      (Some (ColumnNotes.encode print (directory_declaration directory field)))) (schema directory).

(** A client over its store. *)
Record DirectStorageCatalogClient := MkDirectClient { client_store : S; root : ObjectLocation U; options : DirectoryOptions }.

Definition over_store (store : S) (base_path : string) (options : DirectoryOptions) : result UdfError DirectStorageCatalogClient :=
  let? root := from_raw base_path in Ok (MkDirectClient store root options).

Definition direct_admit (c : DirectStorageCatalogClient) (ident : CatalogTableIdent) : result UdfError TableAdmission :=
  let? table_root := child (root c) (ident_name ident) in
  let? directory := resolve_parquet_directory (client_store c) (key table_root) (options c) in
  match files directory with
  | [] => Ok (TableSkipped (MkSkipped ident NoDataFile))
  | _ => Ok (TableLoaded (MkCatalogTable ident TypeTable (Some (location_display table_root)) FmtParquet None [] (resolve_columns directory) None ∅))
  end.

Definition direct_list_table_idents (c : DirectStorageCatalogClient) (namespace : list string) : result UdfError (list CatalogTableIdent) :=
  match list_with_delimiter (client_store c) (key (root c)) with
  | Err e => Err (User ("failed to list '" ++ location_display (root c) ++ "': " ++ e))
  | Ok (_, common_prefixes) => Ok (map (MkIdent []) (sort_by_text id (omap last common_prefixes)))
  end.

#[export] Instance direct_client : CatalogClient DirectStorageCatalogClient :=
  {| list_table_idents := direct_list_table_idents;
     load_listed_tables c idents := let? admissions := try_map (direct_admit c) idents in Ok (collect_listing admissions) |}.

(** ** The table of a directory *)

(** [UdfError]'s [Display]; [redacted] of adapter/pushdown/format/mod.rs. *)
Context (error_text : UdfError -> string).

Definition redacted (error : UdfError) (secrets : list string) : UdfError := User (redact_error_text (error_text error) secrets).

Record ParquetDirectoryTable := MkDirectoryTable { dt_listing : ParquetListing; dt_table_root : ObjectLocation U; dt_storage : StorageBackend }.

Definition directory_table_open (store : S) (table_root : ObjectLocation U) (storage : StorageBackend) : result UdfError ParquetDirectoryTable :=
  match listing_list store (key table_root) with
  | Err error => Err (redacted error (secret_values storage))
  | Ok listing => Ok (MkDirectoryTable listing table_root storage)
  end.

Definition file_entry (file : ParquetFile) (table_root : ObjectLocation U) : FileEntry :=
  let location := at_key table_root (pq_path file) in
  {| path := default (to_wire location) (relative_to location table_root); size := pq_size file; deletes := []; partition_values := list_to_map (pq_partition_values file) |}.

Definition directory_plan (t : ParquetDirectoryTable) (partition_columns : list string) (keep : LoggedValues -> bool) : result UdfError PlannedFiles :=
  let? files := kept_files (dt_listing t) partition_columns keep in
  Ok (MkPlanned (map (fun f => file_entry f (dt_table_root t)) files) (dt_storage t) (to_wire (dt_table_root t)) []).

Definition directory_prune (t : ParquetDirectoryTable) (declared : DeclaredSchema) (filter_json : option Json) : result UdfError PlannedFiles :=
  let predicate := from_filter [] filter_json in
  directory_plan t (partition_columns declared) (keeps predicate).

#[export] Instance directory_table : LoadedTable ParquetDirectoryTable := {| prune := directory_prune |}.
End Directory.

(** ** The fold reads every file *)

Section Reads.
Context {UC : UnicodeCase} (debug_type : DataType -> string).

(** A value stored at one type is read at the other. *)
Definition readable_as (stored declared : DataType) : Prop := stored = declared \/ widens_to stored declared = true.

Lemma readable_trans a b c : readable_as a b -> readable_as b c -> readable_as a c.
Proof. intros [->|H1] [<-|H2]; unfold readable_as; eauto using widens_to_trans. Qed.

Lemma widen_readable a b t : widen a b = Some t -> readable_as a t /\ readable_as b t /\ (t = a \/ t = b).
Proof. intros H. exact (proj2 (widen_symmetric_upper_bound a b) t H). Qed.

Definition fold_wf (fold : SchemaFold) : Prop :=
  (forall u i, by_uppercase fold !! u = Some i -> exists c, columns fold !! i = Some c /\ to_uppercase (fc_name c) = u)
  /\ (forall i c, columns fold !! i = Some c -> by_uppercase fold !! to_uppercase (fc_name c) = Some i /\ key_columns fold !! to_uppercase (fc_name c) = None).

(** How a folded schema reads a field of a file: as the partition key the file's path
    carries, or as the column of its name. *)
Definition reads_field (fold : SchemaFold) (source : ListedFile) (f : Field) : Prop :=
  (exists own, own ∈ segment_keys source /\ to_uppercase own = to_uppercase (field_name f) /\ is_Some (key_columns fold !! to_uppercase own))
  \/ exists c, c ∈ columns fold /\ fc_name c = field_name f /\ readable_as (field_type f) (fc_type c).

Definition fold_inv (seen : list (ListedFile * Field)) (fold : SchemaFold) : Prop :=
  fold_wf fold
  /\ (forall s f, (s, f) ∈ seen -> reads_field fold s f)
  /\ (forall c, c ∈ columns fold -> exists s f, (s, f) ∈ seen /\ field_name f = fc_name c /\ field_type f = fc_type c /\ lp_path s = fc_source c).

Lemma existsb_folded u keys : existsb (fun own => String.eqb (to_uppercase own) u) keys = true -> exists own, own ∈ keys /\ to_uppercase own = u.
Proof. intros (own & Hin & Heq%String.eqb_eq)%existsb_exists. exists own. by rewrite list_elem_of_In. Qed.

Lemma reads_grows fold fold' s f : key_columns fold' = key_columns fold ->
  (forall c, c ∈ columns fold -> exists c', c' ∈ columns fold' /\ fc_name c' = fc_name c /\ readable_as (fc_type c) (fc_type c')) ->
  reads_field fold s f -> reads_field fold' s f.
Proof.
  intros Hk Hg [(own & H1 & H2 & H3)|(c & Hc & Hn & Hr)]; [left; exists own; by rewrite Hk|right].
  destruct (Hg c Hc) as (c' & Hc' & Hn' & Hr'). exists c'. rewrite Hn'. eauto using readable_trans.
Qed.

Lemma kept_inv seen fold source f : fold_inv seen fold -> reads_field fold source f -> fold_inv (seen ++ [(source, f)])%list fold.
Proof.
  intros (Hwf & Hreads & Horigin) Hf. split; [done|split].
  - intros s g [Hin|[= -> ->]%list_elem_of_singleton]%elem_of_app; [by apply Hreads|done].
  - intros c Hc. destruct (Horigin c Hc) as (s & g & Hin & H). exists s, g. rewrite elem_of_app. tauto.
Qed.

(** The column widened to the type of a later file. *)
Definition widened (fold : SchemaFold) (index : nat) (c : FoldedColumn) : SchemaFold :=
  MkFold (key_columns fold) (<[index := c]> (columns fold)) (by_uppercase fold) (first_refused_leaf fold) (enum_columns fold).

Lemma widened_column fold index c0 c1 i c : columns fold !! index = Some c0 -> fc_name c1 = fc_name c0 ->
  columns (widened fold index c1) !! i = Some c -> exists c', columns fold !! i = Some c' /\ fc_name c = fc_name c' /\ (c = c1 \/ c = c').
Proof. intros H0 Hn. cbn. rewrite list_lookup_insert. case_decide as Hd; [|naive_solver]. destruct Hd as [-> _]. intros [= <-]. eauto. Qed.

Lemma widened_here fold index c0 c1 : columns fold !! index = Some c0 -> columns (widened fold index c1) !! index = Some c1.
Proof. intros H0. apply list_lookup_insert_eq, lookup_lt_is_Some_1. by eexists. Qed.

Lemma widened_wf fold index c0 c1 : fold_wf fold -> columns fold !! index = Some c0 -> fc_name c1 = fc_name c0 -> fold_wf (widened fold index c1).
Proof.
  intros Hwf H0 Hn. split.
  - intros u i Hi. destruct (proj1 Hwf u i Hi) as (c & Hc & <-). destruct (decide (index = i)) as [<-|Hne].
    + rewrite H0 in Hc. injection Hc as <-. exists c1. rewrite Hn. split; [by eapply widened_here|done].
    + exists c. cbn. by rewrite list_lookup_insert_ne.
  - intros i c Hi. destruct (widened_column _ _ _ _ _ _ H0 Hn Hi) as (c' & Hc' & -> & _). by apply (proj2 Hwf).
Qed.

Lemma widened_inv seen fold source f index c0 :
  fold_inv seen fold -> columns fold !! index = Some c0 -> fc_name c0 = field_name f -> readable_as (fc_type c0) (field_type f) ->
  fold_inv (seen ++ [(source, f)])%list (widened fold index (MkFolded (fc_name c0) (field_type f) (lp_path source))).
Proof.
  intros (Hwf & Hreads & Horigin) H0 Hn Hr. set (c1 := MkFolded _ _ _). split; [by eapply widened_wf|split].
  - intros s g [Hin|[= -> ->]%list_elem_of_singleton]%elem_of_app.
    + apply (reads_grows fold); [done| |by apply Hreads]. intros c [i Hi]%list_elem_of_lookup_1. destruct (decide (index = i)) as [<-|Hne].
      * rewrite H0 in Hi. injection Hi as <-. exists c1. split; [by eapply list_elem_of_lookup_2, widened_here|done].
      * exists c. split; [apply (list_elem_of_lookup_2 _ i); cbn; by rewrite list_lookup_insert_ne|split; [done|by left]].
    + right. exists c1. split; [by eapply list_elem_of_lookup_2, widened_here|split; [done|by left]].
  - intros c [i Hi]%list_elem_of_lookup_1. destruct (widened_column _ _ _ c1 _ _ H0 eq_refl Hi) as (c' & Hc' & _ & [->| ->]).
    + exists source, f. rewrite elem_of_app, list_elem_of_singleton. split; [by right|done].
    + destruct (Horigin c') as (s & g & Hin & H); [by eapply list_elem_of_lookup_2|]. exists s, g. rewrite elem_of_app. tauto.
Qed.

(** A column first seen in this file. *)
Definition pushed (fold : SchemaFold) (c : FoldedColumn) : SchemaFold :=
  MkFold (key_columns fold) (columns fold ++ [c]) (<[to_uppercase (fc_name c) := List.length (columns fold)]> (by_uppercase fold)) (first_refused_leaf fold) (enum_columns fold).

Lemma pushed_wf fold c : fold_wf fold -> by_uppercase fold !! to_uppercase (fc_name c) = None -> key_columns fold !! to_uppercase (fc_name c) = None -> fold_wf (pushed fold c).
Proof.
  intros Hwf Eu Ek. split; cbn.
  - intros u i. rewrite lookup_insert. case_decide as Hd.
    + subst u. intros [= <-]. exists c. by rewrite lookup_app_r, Nat.sub_diag by done.
    + intros Hi. destruct (proj1 Hwf u i Hi) as (c' & Hc & Hup). exists c'. split; [by apply lookup_app_l_Some|done].
  - intros i c' [Hi|[Hlen Hi]]%lookup_app_Some.
    + destruct (proj2 Hwf i c' Hi) as [H1 H2]. rewrite lookup_insert_ne by congruence. done.
    + apply list_lookup_singleton_Some in Hi as [Hz <-]. rewrite lookup_insert_eq. split; [f_equal; lia|done].
Qed.

Lemma pushed_inv seen fold source f :
  fold_inv seen fold -> by_uppercase fold !! to_uppercase (field_name f) = None -> key_columns fold !! to_uppercase (field_name f) = None ->
  fold_inv (seen ++ [(source, f)])%list (pushed fold (MkFolded (field_name f) (field_type f) (lp_path source))).
Proof.
  intros (Hwf & Hreads & Horigin) Eu Ek. set (c1 := MkFolded _ _ _). split; [by apply pushed_wf|split].
  - intros s g [Hin|[= -> ->]%list_elem_of_singleton]%elem_of_app.
    + apply (reads_grows fold); [done| |by apply Hreads]. cbn. intros c Hc. exists c. rewrite elem_of_app. split; [by left|split; [done|by left]].
    + right. exists c1. cbn. rewrite elem_of_app, list_elem_of_singleton. split; [by right|split; [done|by left]].
  - cbn. intros c [Hc| ->%list_elem_of_singleton]%elem_of_app.
    + destruct (Horigin c Hc) as (s & g & Hin & H). exists s, g. rewrite elem_of_app. tauto.
    + exists source, f. rewrite elem_of_app, list_elem_of_singleton. split; [by right|done].
Qed.

Lemma add_field_inv seen fold source f fold' : fold_inv seen fold -> add_field debug_type source fold f = Ok fold' ->
  fold_inv (seen ++ [(source, f)])%list fold' /\ key_columns fold' = key_columns fold.
Proof.
  intros Hinv. pose proof Hinv as (Hwf & _ & _). unfold add_field. destruct (key_columns fold !! _) as [key|] eqn:Ekey.
  { destruct (existsb _ _) eqn:Ee; [|done]. intros [= <-]. apply existsb_folded in Ee as (own & Hown & Heq).
    split; [|done]. apply kept_inv; [done|]. left. exists own. by rewrite Heq, Ekey. }
  destruct (by_uppercase fold !! _) as [index|] eqn:Eu; [|intros [= <-]; split; [by apply pushed_inv|done]].
  destruct (proj1 Hwf _ _ Eu) as (c0 & H0 & _). rewrite H0. destruct (String.eqb_spec (fc_name c0) (field_name f)) as [Hname|]; [|done].
  destruct (widen (fc_type c0) (field_type f)) as [wider|] eqn:Ew; [|done]. apply widen_readable in Ew as (Hr0 & Hrf & Hwho).
  case_bool_decide as Ewide; intros [= <-]; (split; [|done]).
  - apply kept_inv; [done|]. right. exists c0. rewrite <- Ewide. split; [by eapply list_elem_of_lookup_2|done].
  - destruct Hwho as [->| ->]; [done|]. by apply (widened_inv seen fold source f index c0).
Qed.

Lemma add_fields_inv fields : forall seen fold source fold', fold_inv seen fold -> add_fields debug_type source fold fields = Ok fold' ->
  fold_inv (seen ++ map (pair source) fields)%list fold' /\ key_columns fold' = key_columns fold.
Proof.
  induction fields as [|f fields IH]; intros seen fold source fold' Hinv; cbn [add_fields map]; [intros [= <-]; by rewrite app_nil_r|].
  destruct (add_field _ source fold f) as [fold1|] eqn:E; [|done]. apply (add_field_inv seen) in E as [Hinv1 Hk1]; [|done].
  intros Ef. apply (IH (seen ++ [(source, f)])%list) in Ef as [Hinv2 Hk2]; [|done]. rewrite <- app_assoc in Hinv2. split; [done|congruence].
Qed.

Lemma add_leaf_inv seen fold leaf : fold_inv seen fold -> fold_inv seen (add_leaf fold leaf) /\ key_columns (add_leaf fold leaf) = key_columns fold.
Proof. intros H. unfold add_leaf. by destruct (classify_leaf leaf); [|destruct (_ && _)|]; try destruct (first_refused_leaf fold !! _). Qed.

Lemma fold_add_inv seen fold source metadata fold' : fold_inv seen fold -> fold_add debug_type fold source metadata = Ok fold' ->
  fold_inv (seen ++ map (pair source) (md_fields metadata))%list fold' /\ key_columns fold' = key_columns fold.
Proof.
  intros Hinv. unfold fold_add. destruct (add_fields _ _ _ _) as [fold1|] eqn:E; [|done]. intros [= <-].
  apply (add_fields_inv _ seen) in E as [Hinv1 <-]; [|done]. revert fold1 Hinv1. induction (md_leaves metadata) as [|l ls IH]; intros fold1 Hinv1; [done|].
  cbn [fold_left]. destruct (add_leaf_inv _ fold1 l Hinv1) as [H1 <-]. by apply IH.
Qed.
End Reads.

Section Schema.
Context {UC : UnicodeCase} {S : Type} {OS : ObjectStore S} {PF : ParquetFooters S} (debug_type : DataType -> string).

Lemma fold_footers_inv store sources : forall seen fold fold', fold_inv seen fold -> fold_footers debug_type store fold sources = Ok fold' ->
  exists seen', fold_inv (seen ++ seen')%list fold' /\ key_columns fold' = key_columns fold
    /\ (forall s, s ∈ sources -> exists footer, read_footer store (lp_path s) (lp_size s) = Ok footer /\ forall f, f ∈ md_fields footer -> (s, f) ∈ seen')
    /\ (forall s f, (s, f) ∈ seen' -> s ∈ sources /\ exists footer, read_footer store (lp_path s) (lp_size s) = Ok footer /\ f ∈ md_fields footer).
Proof.
  induction sources as [|s sources IH]; intros seen fold fold' Hinv; cbn [fold_footers].
  { intros [= <-]. exists []. rewrite app_nil_r. split_and!; [done|done|by intros s Hs%elem_of_nil|by intros s f Hs%elem_of_nil]. }
  destruct (read_footer store _ _) as [footer|] eqn:Er; [|done]. destruct (fold_add _ fold s footer) as [fold1|] eqn:Ea; [|done].
  apply (fold_add_inv _ seen) in Ea as [Hinv1 Hk1]; [|done]. intros Ef. destruct (IH _ _ _ Hinv1 Ef) as (seen' & Hinv2 & Hk2 & Hin & Hout).
  exists (map (pair s) (md_fields footer) ++ seen')%list. rewrite app_assoc. split_and!; [done|congruence| |].
  - intros s' [->|Hs']%elem_of_cons.
    + exists footer. split; [done|]. intros f Hf. apply elem_of_app. left. by apply list_elem_of_fmap_2.
    + destruct (Hin s' Hs') as (footer' & Hr & Hf). exists footer'. split; [done|]. intros f Hm. apply elem_of_app. right. by apply Hf.
  - intros s' f [(f' & [= -> ->] & Hf)%list_elem_of_fmap|Hs]%elem_of_app; [split; [by left|eauto]|].
    destruct (Hout s' f Hs) as [H1 H2]. split; [by right|done].
Qed.

Lemma fold_names_distinct fold : fold_wf fold -> NoDup (map (fun c => to_uppercase (fc_name c)) (columns fold)).
Proof.
  intros [_ Hwf]. apply NoDup_alt. intros i j u Hi Hj. change (@map) with (@List.map) in *. 
  apply list_lookup_fmap_Some in Hi as (c & -> & Hi). apply list_lookup_fmap_Some in Hj as (c' & Heq & Hj).
  apply Hwf in Hi as [Hi _]. apply Hwf in Hj as [Hj _]. rewrite Heq in Hi. congruence.
Qed.

Lemma distinct_folded_spec keys : forall seen,
  NoDup (map to_uppercase (distinct_folded seen keys))
  /\ (forall k, k ∈ distinct_folded seen keys -> k ∈ keys /\ to_uppercase k ∉ seen)
  /\ (forall k, k ∈ keys -> to_uppercase k ∈ seen \/ exists d, d ∈ distinct_folded seen keys /\ to_uppercase d = to_uppercase k).
Proof.
  induction keys as [|key keys IH]; intros seen; cbn [distinct_folded].
  { split_and!; [constructor|by intros k Hk%elem_of_nil|by intros k Hk%elem_of_nil]. }
  case_bool_decide as Hs.
  - destruct (IH seen) as (H1 & H2 & H3). split_and!; [done| |].
    + intros k Hk. destruct (H2 k Hk). split; [by right|done].
    + intros k [->|Hk]%elem_of_cons; [by left|by apply H3].
  - destruct (IH ({[to_uppercase key]} ∪ seen)) as (H1 & H2 & H3). split_and!.
    + cbn [map]. apply NoDup_cons. split; [|done]. intros (k & Heq & Hk)%list_elem_of_fmap. destruct (H2 k Hk) as [_ Hn]. set_solver.
    + intros k [->|Hk]%elem_of_cons; [split; [by left|done]|]. destruct (H2 k Hk). split; [by right|set_solver].
    + intros k [->|Hk]%elem_of_cons; [right; exists key; split; [by left|done]|].
      destruct (H3 k Hk) as [[Heq%elem_of_singleton|Hin]%elem_of_union|(d & Hd & Heq)]; [right; exists key|by left|right; exists d];
        split; [by left|done|by right|done].
Qed.

Lemma uppercase_index_covers keys k : k ∈ keys -> is_Some (uppercase_index keys !! to_uppercase k).
Proof.
  assert (Hkeep : forall keys index u, is_Some (index !! u) -> is_Some (fold_left index_key keys index !! u)).
  { clear. induction keys as [|key keys IH]; intros index u Hu; [done|]. cbn [fold_left]. apply IH. unfold index_key.
    destruct (index !! to_uppercase key); [done|]. rewrite lookup_insert. by case_decide. }
  unfold uppercase_index. generalize (∅ : gmap string string). induction keys as [|key keys IH]; intros index; [by intros Hk%elem_of_nil|].
  intros [->|Hk]%elem_of_cons; cbn [fold_left]; [|by apply IH]. apply Hkeep. unfold index_key.
  destruct (index !! to_uppercase key) eqn:E; [by rewrite E|by rewrite lookup_insert_eq].
Qed.

Lemma folded_field_name enums c : field_name (folded_field enums c) = fc_name c.
Proof. done. Qed.

(** A top-level, non-repeated column annotated ENUM. *)
Definition enum_leaf (name : string) (leaf : ColumnDescriptor) : Prop :=
  physical_type leaf = PtByteArray /\ (logical_type_ref leaf = Some LtEnum \/ logical_type_ref leaf = None /\ converted_type leaf = CtEnum)
  /\ leaf_parts leaf = [name] /\ max_rep_level leaf = 0%N.

(** A file of the sources annotates the column so. *)
Definition annotated_enum (store : S) (sources : list ListedFile) (name : string) : Prop :=
  exists s footer leaf, s ∈ sources /\ read_footer store (lp_path s) (lp_size s) = Ok footer /\ leaf ∈ md_leaves footer /\ enum_leaf name leaf.

Lemma classify_enum leaf : classify_leaf leaf = KEnum <->
  physical_type leaf = PtByteArray /\ (logical_type_ref leaf = Some LtEnum \/ logical_type_ref leaf = None /\ converted_type leaf = CtEnum).
Proof. unfold classify_leaf. destruct (physical_type leaf), (logical_type_ref leaf) as [[]|], (converted_type leaf); naive_solver. Qed.

Lemma add_leaf_enums fold leaf name : name ∈ enum_columns (add_leaf fold leaf) <-> name ∈ enum_columns fold \/ enum_leaf name leaf.
Proof.
  unfold enum_leaf. pose proof (classify_enum leaf) as Hc. unfold add_leaf. destruct (classify_leaf leaf) as [| |declared].
  - split; [by left|]. intros [?|(H1 & H2 & _)]; [done|]. discriminate (proj2 Hc (conj H1 H2)).
  - destruct (proj1 Hc eq_refl) as [H1 H2]. destruct (leaf_parts leaf) as [|part [|? ?]] eqn:Ep; cbn [List.length Nat.eqb andb].
    + destruct (first_refused_leaf fold !! _); naive_solver.
    + destruct (N.eqb_spec (max_rep_level leaf) 0) as [E|E]; cbn [enum_columns head default from_option id].
      * rewrite elem_of_union, elem_of_singleton. naive_solver.
      * destruct (first_refused_leaf fold !! _); naive_solver.
    + destruct (first_refused_leaf fold !! _); naive_solver.
  - assert (Hn : ~ (physical_type leaf = PtByteArray /\ (logical_type_ref leaf = Some LtEnum \/ logical_type_ref leaf = None /\ converted_type leaf = CtEnum))).
    { intros H. by apply Hc in H. }
    destruct (first_refused_leaf fold !! _); cbn [enum_columns]; split; [by left|intros [?|(? & ? & _)]; [done|by destruct Hn]|by left|intros [?|(? & ? & _)]; [done|by destruct Hn]].
Qed.

Lemma add_fields_enums fields : forall source fold fold', add_fields debug_type source fold fields = Ok fold' -> enum_columns fold' = enum_columns fold.
Proof.
  induction fields as [|f fields IH]; intros source fold fold'; cbn [add_fields]; [by intros [= <-]|].
  destruct (add_field debug_type source fold f) as [fold1|] eqn:E; [|done]. intros H. rewrite (IH _ _ _ H). clear -E. unfold add_field in E.
  destruct (key_columns fold !! _); [destruct (existsb _ _); [by injection E as <-|done]|].
  destruct (by_uppercase fold !! _) as [index|]; [|by injection E as <-]. destruct (columns fold !! index) as [column|]; [|done].
  destruct (String.eqb _ _); [|done]. destruct (widen _ _) as [wider|]; [|done]. case_bool_decide; by injection E as <-.
Qed.

Lemma fold_footers_enums store sources : forall fold fold' name, fold_footers debug_type store fold sources = Ok fold' ->
  name ∈ enum_columns fold' <-> name ∈ enum_columns fold \/ annotated_enum store sources name.
Proof.
  unfold annotated_enum. induction sources as [|s sources IH]; intros fold fold' name; cbn [fold_footers].
  { intros [= <-]. split; [by left|]. intros [?|(s & ? & ? & Hs & _)]; [done|by apply elem_of_nil in Hs]. }
  destruct (read_footer store _ _) as [footer|] eqn:Er; [|done]. unfold fold_add. destruct (add_fields _ s fold _) as [fold1|] eqn:Ea; [|done].
  intros Hf. rewrite (IH _ _ name Hf). apply add_fields_enums in Ea.
  assert (Hl : forall leaves fold0, name ∈ enum_columns (fold_left add_leaf leaves fold0) <-> name ∈ enum_columns fold0 \/ exists leaf, leaf ∈ leaves /\ enum_leaf name leaf).
  { clear. induction leaves as [|l ls IH]; intros fold0; cbn [fold_left].
    - split; [by left|]. intros [?|(l & Hl & _)]; [done|by apply elem_of_nil in Hl].
    - rewrite IH, add_leaf_enums. setoid_rewrite elem_of_cons. naive_solver. }
  rewrite Hl, Ea. setoid_rewrite elem_of_cons. split.
  - intros [[?|(leaf & ? & ?)]|(s' & footer' & leaf & ? & ? & ?)]; [by left|right; by exists s, footer, leaf; auto|right; by exists s', footer', leaf; auto].
  - intros [?|(s' & footer' & leaf & [->|?] & Hr & ? & ?)]; [by auto| |right; by exists s', footer', leaf].
    rewrite Er in Hr. injection Hr as <-. left. right. by exists leaf.
Qed.

Lemma folded_field_readable enums c t : readable_as t (fc_type c) ->
  readable_as t (field_type (folded_field enums c)) \/ t = TBinary /\ field_type (folded_field enums c) = TUtf8 /\ fc_name c ∈ enums.
Proof.
  unfold folded_field. cbn [field_type]. destruct (fc_type c) eqn:E; try (by left). case_bool_decide; [|by left].
  intros [->|Hw]; [by right|]. by destruct t.
Qed.

Lemma segment_keys_of sources (s : ListedFile) k : s ∈ sources -> k ∈ segment_keys s -> k ∈ List.concat (map segment_keys sources).
Proof. intros Hs Hk. apply list_elem_of_In, in_concat. exists (segment_keys s). split; [by apply in_map, list_elem_of_In|by apply list_elem_of_In]. Qed.

(** C25. The schema a directory of Parquet files is declared with reads every file it was
    folded from: each column a file stores is either the partition key its own path
    carries, declared as a partition column, or a declared column of exactly that name at
    a type the stored one is or widens to, where bytes are declared as text only for a
    column that a file annotates as a top-level, non-repeated ENUM, and always for such a
    column; no two declared columns, partition columns included, are the same name once
    uppercased; every one is nullable; and no column is declared that neither a path nor a
    file has. *)
Theorem folded_schema_reads_every_file store prefix options dir :
  resolve_parquet_directory debug_type store prefix options = Ok dir ->
  exists raw, list_data_files store prefix (hive_partitioning options) = Ok raw /\
  let sources := match merge_mode options with FoldEveryFile => raw | SampleOneFile => take 1 raw end in
  NoDup (map (fun g => to_uppercase (field_name g)) (schema dir))
  /\ Forall (fun g => field_nullable g = true) (schema dir)
  /\ (forall s, s ∈ sources -> exists footer, read_footer store (lp_path s) (lp_size s) = Ok footer /\
        forall f, f ∈ md_fields footer ->
          (exists key, key ∈ directory_partition_columns dir /\ to_uppercase key = to_uppercase (field_name f) /\ exists own, own ∈ segment_keys s /\ to_uppercase own = to_uppercase key)
          \/ exists g, g ∈ schema dir /\ field_name g = field_name f
               /\ (readable_as (field_type f) (field_type g)
                   \/ field_type f = TBinary /\ field_type g = TUtf8 /\ annotated_enum store sources (field_name f)))
  /\ (forall g, g ∈ schema dir -> annotated_enum store sources (field_name g) -> field_type g <> TBinary)
  /\ (forall g, g ∈ schema dir -> field_name g ∈ directory_partition_columns dir
        \/ exists s footer f, s ∈ sources /\ read_footer store (lp_path s) (lp_size s) = Ok footer /\ f ∈ md_fields footer /\ field_name f = field_name g).
Proof.
  unfold resolve_parquet_directory. destruct (list_data_files _ _ _) as [raw|]; [|done]. intros Hres. exists raw. split; [done|].
  set (sources := match merge_mode options with FoldEveryFile => raw | SampleOneFile => _ end) in *.
  assert (Hsub : forall s, s ∈ sources -> s ∈ raw) by (subst sources; intros s; destruct (merge_mode options); [done|apply subseteq_take]).
  destruct (fill_partition_values _ _) as [values|]; [|done]. destruct (fold_footers _ _ _ _) as [fold|] eqn:Ef; [|done].
  injection Hres as <-. cbn [schema directory_partition_columns fold_finish].
  assert (Henum : forall name, name ∈ enum_columns fold <-> annotated_enum store sources name).
  { intros name. rewrite (fold_footers_enums _ _ _ _ name Ef). cbn [enum_columns SchemaFold_new]. split; [intros [H%elem_of_empty|?]; done|by right]. }
  apply (fold_footers_inv _ _ []) in Ef as (seen & (Hwf & Hreads & Horigin) & Hk & Hin & Hout);
    [|split; [by split|split; [by intros s f H%elem_of_nil|by intros c H%elem_of_nil]]].
  unfold declared_partition_keys. destruct (distinct_folded_spec (List.concat (map segment_keys sources)) ∅) as (Hd1 & Hd2 & Hd3).
  set (declared := distinct_folded ∅ _) in *. unfold schema_with_partition_columns. cbn [app] in Hreads, Horigin. split_and!.
  - rewrite map_app, !map_map. cbn [field_name]. change (map (fun x => to_uppercase x) declared) with (map to_uppercase declared).
    apply NoDup_app. split_and!; [by apply fold_names_distinct| |done].
    intros u (c & -> & Hc)%list_elem_of_fmap (d & Heq & Hdin)%list_elem_of_fmap. destruct (Hd2 d Hdin) as [Hkey _].
    apply list_elem_of_lookup_1 in Hc as [i Hi]. apply (proj2 Hwf) in Hi as [_ Hnone]. rewrite Hk in Hnone. cbn [field_name folded_field] in Heq. rewrite Heq in Hnone.
    destruct (uppercase_index_covers (List.concat (map segment_keys raw)) d) as [? Hx]; [|cbn in Hnone; congruence].
    apply list_elem_of_In, in_concat in Hkey as (l & (s & <- & Hs)%in_map_iff & Hl). apply (segment_keys_of _ s); [by apply Hsub, list_elem_of_In|by apply list_elem_of_In].
  - apply Forall_app. split; apply Forall_map, Forall_forall; done.
  - intros s Hs. destruct (Hin s Hs) as (footer & Hr & Hf). exists footer. split; [done|]. intros f Hfin.
    destruct (Hreads s f (Hf f Hfin)) as [(own & Hown & Heq & _)|(c & Hc & Hn & Ht)]; [left|right].
    + destruct (Hd3 own) as [H%elem_of_empty|(d & Hdin & Hdeq)]; [by eapply segment_keys_of|done|].
      exists d. split_and!; [done|congruence|]. exists own. split; [done|congruence].
    + exists (folded_field (enum_columns fold) c). split_and!; [apply elem_of_app; left; by apply list_elem_of_fmap_2|done|].
      apply (folded_field_readable (enum_columns fold)) in Ht as [?|(? & ? & He%Henum)]; [by left|right]. by rewrite <- Hn.
  - intros g [(c & -> & Hc)%list_elem_of_fmap|(k & -> & Hkin)%list_elem_of_fmap]%elem_of_app He; [|done]. apply Henum in He.
    unfold folded_field in He |- *. cbn [field_name field_type] in He |- *. destruct (fc_type c); try done. by rewrite bool_decide_eq_true_2.
  - intros g [(c & -> & Hc)%list_elem_of_fmap|(k & -> & Hkin)%list_elem_of_fmap]%elem_of_app; [right|by left].
    destruct (Horigin c Hc) as (s & f & Hsf & Hn & _). destruct (Hout s f Hsf) as (Hs & footer & Hr & Hf). by exists s, footer, f.
Qed.
End Schema.

(** A store of files with their footers. *)
Definition FileStore : Type := list (ObjectMeta * ArrowReaderMetadata).
Definition file_store : ObjectStore FileStore :=
  {| store_list st prefix := Ok (List.filter (fun m => bool_decide (is_Some (prefix_match prefix (location m)))) (map fst st)); list_with_delimiter st prefix := Err "unused" |}.
Definition file_footers : ParquetFooters FileStore :=
  {| load_async st path _ _ := match List.find (fun m => bool_decide (location m.1 = path)) st with Some m => Ok m.2 | None => Err "absent" end;
     int96_coerce _ := None; try_new leaves fields := Ok (MkMetadata fields leaves) |}.
Definition plain_field (name : string) (t : DataType) : Field := MkField name t false ∅.
Definition two_files : FileStore :=
  [(MkMeta ["t"; "Day=2"; "b.parquet"] 7, MkMetadata [plain_field "id" TInt64; plain_field "day" TUtf8] []);
   (MkMeta ["t"; "Day=1"; "a.parquet"] 9, MkMetadata [plain_field "id" TInt32; plain_field "note" TBinary] [MkLeaf PtByteArray (Some LtEnum) CtOther 0 ["note"]])].

Lemma folded_schema_reads_every_file_witness :
  exists dir, resolve_parquet_directory (UC := ascii_case) (OS := file_store) (PF := file_footers) (fun _ => "") two_files ["t"] (MkDirectoryOptions FoldEveryFile true) = Ok dir
    /\ schema dir = [MkField "id" TInt64 true ∅; MkField "note" TUtf8 true ∅; MkField "Day" TUtf8 true ∅]
    /\ NoDup (map (fun g => to_ascii_uppercase (field_name g)) (schema dir)).
Proof.
  eexists. split; [vm_compute; reflexivity|]. split; [reflexivity|].
  destruct (folded_schema_reads_every_file (UC := ascii_case) (OS := file_store) (PF := file_footers) (fun _ => "") two_files ["t"] (MkDirectoryOptions FoldEveryFile true) _ eq_refl)
    as (raw & _ & H & _).
  exact H.
Defined.

(** ** The listing *)

Lemma text_le_total a b : text_le a b = true \/ text_le b a = true.
Proof. unfold text_le. rewrite (String.compare_antisym b a). destruct (String.compare a b); cbn; auto. Qed.

Lemma text_le_antisym a b : text_le a b = true -> text_le b a = true -> a = b.
Proof.
  unfold text_le. rewrite (String.compare_antisym b a). destruct (String.compare a b) eqn:E; cbn; try done. intros _ _. by apply String.compare_eq_iff.
Qed.

Lemma insert_text_perm {A} (text : A -> string) x l : insert_text text x l ≡ₚ x :: l.
Proof. induction l as [|y l IH]; cbn [insert_text]; [done|]. destruct (text_le _ _); [done|]. rewrite IH. apply Permutation_swap. Qed.

Lemma sort_by_text_perm {A} (text : A -> string) l : sort_by_text text l ≡ₚ l.
Proof. unfold sort_by_text. induction l as [|x l IH]; [done|]. cbn [foldr]. by rewrite insert_text_perm, IH. Qed.

Lemma text_le_trans a b c : text_le a b = true -> text_le b c = true -> text_le a c = true.
Proof.
  unfold text_le. destruct (String.compare a b) eqn:E1; [apply String.compare_eq_iff in E1 as ->; done| |done].
  destruct (String.compare b c) eqn:E2; [apply String.compare_eq_iff in E2 as <-; by rewrite E1| |done]. by rewrite (string_compare_trans _ _ _ E1 E2).
Qed.

Section Sorting.
Context {A : Type} (text : A -> string).
Definition text_order (x y : A) : Prop := text_le (text x) (text y) = true.

#[local] Instance text_order_trans : Transitive text_order.
Proof. intros x y z. apply text_le_trans. Qed.

Lemma sort_by_text_sorted l : StronglySorted text_order (sort_by_text text l).
Proof.
  unfold sort_by_text. induction l as [|x l IH]; [constructor|]. cbn [foldr]. induction IH as [|y l' Hs IHs Hy]; [repeat constructor|]. cbn [insert_text].
  destruct (text_le (text x) (text y)) eqn:E; constructor.
  - by constructor.
  - constructor; [done|]. eapply Forall_impl; [exact Hy|]. intros z. by apply text_le_trans.
  - done.
  - rewrite insert_text_perm. constructor; [|done]. destruct (text_le_total (text x) (text y)); [congruence|done].
Qed.

Lemma sort_by_text_order l1 l2 : l1 ≡ₚ l2 -> NoDup (map text l1) -> sort_by_text text l1 = sort_by_text text l2.
Proof.
  intros Hp Hd. apply (StronglySorted_unique_strong text_order); [|apply sort_by_text_sorted..|by rewrite !sort_by_text_perm].
  intros x y Hx Hy Hxy Hyx. rewrite sort_by_text_perm in Hx. rewrite sort_by_text_perm, <- Hp in Hy.
  pose proof (text_le_antisym _ _ Hxy Hyx) as Heq. apply list_elem_of_lookup_1 in Hx as [i Hi]. apply list_elem_of_lookup_1 in Hy as [j Hj].
  assert (i = j) as <-; [|congruence]. eapply (NoDup_lookup _ i j (text x) Hd); apply list_lookup_fmap_Some; eauto.
Qed.
End Sorting.

Lemma prefix_match_below prefix p below : prefix_match prefix p = Some below <-> p = (prefix ++ below)%list.
Proof.
  revert p. induction prefix as [|a prefix IH]; intros p; cbn [prefix_match app]; [naive_solver|]. destruct p as [|b p]; [naive_solver|].
  destruct (String.eqb_spec a b) as [->|]; [|naive_solver]. rewrite IH. naive_solver.
Qed.

Lemma pop_snoc {A} (front : list A) x : pop (front ++ [x]) = Some (front, x).
Proof. induction front as [|y front IH]; [done|]. cbn [app pop]. by rewrite IH. Qed.

Lemma pop_app {A} (l : list A) front x : pop l = Some (front, x) <-> l = (front ++ [x])%list.
Proof.
  split; [|intros ->; apply pop_snoc]. destruct l as [|l y] using rev_ind; [done|]. rewrite pop_snoc. by intros [= -> ->].
Qed.

Lemma string_prefix_char c s : starts_with (String c "") s = true <-> exists s', s = String c s'.
Proof. unfold starts_with. destruct s as [|d s]; cbn; [split; [done|by intros [? ?]]|]. destruct (ascii_dec c d) as [->|Hne]; [split; [by eexists|by destruct s]|split; [done|intros [? [= ? ?]]; congruence]]. Qed.

(** What the listing takes for a data file of the prefix. *)
Definition is_data_file (prefix : StorePath) (m : ObjectMeta) (f : ListedFile) : Prop :=
  (0 < meta_size m)%N /\ exists directories name,
    location m = (prefix ++ directories ++ [name])%list
    /\ (forall segment rest, segment ∈ (directories ++ [name])%list -> segment <> String "_" rest /\ segment <> String "." rest)
    /\ ends_with ".parquet" name = true
    /\ f = MkListed (location m) (meta_size m) (parse_partition_segments directories).

Lemma hidden_segments segments :
  existsb (fun segment => starts_with "_" segment || starts_with "." segment) segments = false <->
  (forall segment rest, segment ∈ segments -> segment <> String "_" rest /\ segment <> String "." rest).
Proof.
  rewrite <- not_true_iff_false, existsb_exists. setoid_rewrite orb_true_iff. setoid_rewrite string_prefix_char. setoid_rewrite <- list_elem_of_In. split.
  - intros H segment rest Hin. split; intros ->; apply H; eexists; (split; [exact Hin|]); [left|right]; by eexists.
  - intros H (segment & Hin & [[rest ->]|[rest ->]]); by destruct (H _ rest Hin).
Qed.

Lemma listed_file_spec prefix m f : listed_file ParquetAtAnyDepth prefix m = Some f <-> is_data_file prefix m f.
Proof.
  unfold listed_file, is_data_file, data_file_segments. destruct (N.ltb_spec 0 (meta_size m)); [|split; [done|lia]]. split.
  - destruct (prefix_match prefix (location m)) as [segments|] eqn:Ep; [|done]. cbn [mbind option_bind]. destruct segments as [|seg segs]; [done|].
    destruct (existsb _ _) eqn:Eh; [done|]. cbn [mbind option_bind]. destruct (pop (seg :: segs)) as [[directories name]|] eqn:Epop; [|done]. cbn [mbind option_bind].
    destruct (ends_with _ _) eqn:Ee; [|done]. intros [= <-]. apply prefix_match_below in Ep. apply pop_app in Epop. rewrite Epop in *.
    split; [done|]. exists directories, name. split_and!; [done|by apply hidden_segments|done|done].
  - intros (_ & directories & name & Hl & Hh%hidden_segments & He & ->). rewrite (proj2 (prefix_match_below _ _ _) Hl). cbn [mbind option_bind].
    destruct (directories ++ [name])%list as [|seg segs] eqn:E; [by destruct directories|]. rewrite Hh. cbn [mbind option_bind].
    rewrite <- E, pop_snoc. cbn [mbind option_bind]. by rewrite He.
Qed.

(** The files of a directory are exactly its Parquet data files - the non-empty
    objects below the prefix whose name ends in .parquet and none of whose segments
    below it starts with an underscore or a dot - sorted by path, so that the order in
    which the store happens to list them, which decides which footer a sampled schema is
    read from, does not matter. *)
Theorem directory_listing_exact {S} {OS : ObjectStore S} store other prefix listed relisted :
  store_list store prefix = Ok listed -> store_list other prefix = Ok relisted -> listed ≡ₚ relisted ->
  NoDup (map (fun m => path_str (location m)) listed) ->
  exists fs, list_location_files store prefix ParquetAtAnyDepth = Ok fs
    /\ list_location_files other prefix ParquetAtAnyDepth = Ok fs
    /\ StronglySorted (text_order (fun f => path_str (lp_path f))) fs
    /\ (forall f, f ∈ fs <-> exists m, m ∈ listed /\ is_data_file prefix m f).
Proof.
  intros H1 H2 Hp Hd. unfold list_location_files. rewrite H1, H2. eexists. split_and!; [done| |apply sort_by_text_sorted|].
  - f_equal. symmetry. apply sort_by_text_order; [by rewrite Hp|]. clear -Hd. induction listed as [|m l IH]; [constructor|]. cbn [omap list_omap].
    cbn [map] in Hd. apply NoDup_cons in Hd as [Hn Hd]. destruct (listed_file _ prefix m) as [f|] eqn:E; [|by apply IH]. cbn [map]. apply NoDup_cons. split; [|by apply IH].
    intros (g & Heq & (m' & Hm' & Hg)%list_elem_of_omap)%list_elem_of_fmap. apply listed_file_spec in E as (_ & ? & ? & _ & _ & _ & ->).
    apply listed_file_spec in Hg as (_ & ? & ? & _ & _ & _ & ->). apply Hn, list_elem_of_fmap. by exists m'.
  - intros f. rewrite sort_by_text_perm, list_elem_of_omap. by setoid_rewrite listed_file_spec.
Qed.

Lemma directory_listing_exact_witness :
  list_location_files (OS := file_store) two_files ["t"] ParquetAtAnyDepth = list_location_files (OS := file_store) (rev two_files) ["t"] ParquetAtAnyDepth.
Proof.
  destruct (directory_listing_exact (OS := file_store) two_files (rev two_files) ["t"] _ _ eq_refl eq_refl) as (fs & -> & -> & _); [apply Permutation_swap| |done].
  apply (bool_decide_unpack _). by vm_compute.
Defined.

(** ** Planning over a directory *)

Section Spellings.
Context {UC : UnicodeCase}.

(** Every path spells a declared key alike. *)
Definition one_spelling (declared : list string) (keys : list string) : Prop :=
  forall k k', k ∈ keys -> k' ∈ keys -> to_uppercase k = to_uppercase k' -> to_uppercase k ∈ map to_uppercase declared -> k = k'.

Lemma existsb_eqb u l : existsb (String.eqb u) l = true <-> u ∈ l.
Proof.
  rewrite existsb_exists. setoid_rewrite <- list_elem_of_In. split; [by intros (x & Hx & ->%String.eqb_eq)|]. intros H. exists u. by rewrite String.eqb_refl.
Qed.

Lemma check_spellings_iff declared keys : forall seen,
  (forall u first p, seen !! u = Some (first, p) -> to_uppercase first = u) ->
  check_spellings (map to_uppercase declared) seen keys = Ok tt <->
  (forall k first p, k ∈ map fst keys -> seen !! to_uppercase k = Some (first, p) -> to_uppercase k ∈ map to_uppercase declared -> first = k)
  /\ one_spelling declared (map fst keys).
Proof.
  induction keys as [|[key p] keys IH]; intros seen Hwf; cbn [check_spellings map fst].
  { split; [|done]. intros _. split; [by intros k ? ? H%elem_of_nil|by intros k k' H%elem_of_nil]. }
  unfold check_spelling. destruct (existsb _ _) eqn:Ed.
  - apply existsb_eqb in Ed. destruct (seen !! to_uppercase key) as [[first fp]|] eqn:Es.
    + destruct (String.eqb_spec first key) as [->|Hne].
      * rewrite (IH seen Hwf). split; intros [H1 H2].
        -- split.
           ++ intros k first p' [->|Hk]%elem_of_cons Hs Hdecl; [congruence|by eapply H1].
           ++ intros k k' [->|Hk]%elem_of_cons [->|Hk']%elem_of_cons Heq Hdecl; [done| | |by apply H2].
              ** eapply H1; [exact Hk'|by rewrite <- Heq|by rewrite <- Heq].
              ** symmetry. eapply H1; [exact Hk|by rewrite Heq|done].
        -- split; [intros k first p' Hk; apply H1; by right|intros k k' Hk Hk'; apply H2; by right].
      * split; [done|]. intros [H1 _]. exfalso. apply Hne. eapply H1; [by left|exact Es|done].
    + rewrite (IH (<[to_uppercase key := (key, p)]> seen)).
      2: { intros u first p'. rewrite lookup_insert. case_decide; [naive_solver|apply Hwf]. }
      split; intros [H1 H2].
      * split.
        -- intros k first p' [->|Hk]%elem_of_cons Hs Hdecl; [congruence|]. eapply H1; [done| |done]. rewrite lookup_insert_ne; [done|]. intros Heq. by rewrite Heq, Hs in Es.
        -- intros k k' [->|Hk]%elem_of_cons [->|Hk']%elem_of_cons Heq Hdecl; [done| | |by apply H2].
           ++ eapply H1; [exact Hk'| |by rewrite <- Heq]. rewrite <- Heq. apply lookup_insert_eq.
           ++ symmetry. eapply H1; [exact Hk| |done]. rewrite Heq. apply lookup_insert_eq.
      * split; [|intros k k' Hk Hk'; apply H2; by right]. intros k first p' Hk. rewrite lookup_insert. case_decide as Heq.
        -- intros [= <- <-] Hdecl. apply H2; [by left|by right|done|by rewrite Heq].
        -- intros Hs Hdecl. eapply H1; [by right|done|done].
  - rewrite (IH seen Hwf). assert (Hn : to_uppercase key ∉ map to_uppercase declared) by (intros Hin%existsb_eqb; congruence). split; intros [H1 H2].
    + split; [intros k first p' [->|Hk]%elem_of_cons; [done|by eapply H1]|]. intros k k' [->|Hk]%elem_of_cons [->|Hk']%elem_of_cons Heq Hdecl; try done; [by rewrite Heq in Hdecl|by apply H2].
    + split; [intros k first p' Hk; apply H1; by right|intros k k' Hk Hk'; apply H2; by right].
Qed.

Lemma spelled_keys (fs : list ListedFile) : map fst (List.concat (map (fun f => map (fun key => (key, lp_path f)) (segment_keys f)) fs)) = List.concat (map segment_keys fs).
Proof. induction fs as [|f fs IH]; [done|]. cbn [map List.concat]. rewrite map_app, IH, map_map. cbn [fst]. by rewrite map_id. Qed.

Lemma spellings_checked fs declared :
  ensure_one_spelling_per_declared_key fs (map to_uppercase declared) = Ok tt <-> one_spelling declared (List.concat (map segment_keys fs)).
Proof.
  unfold ensure_one_spelling_per_declared_key. rewrite (check_spellings_iff declared _ ∅) by done. rewrite spelled_keys. split; [by intros [_ H]|done].
Qed.
End Spellings.

Section Planning.
Context {UC : UnicodeCase} {S : Type} {OS : ObjectStore S} {U : Type} {SU : StoreUrls U} `{!EqDecision U} {HX : Hex}.

Lemma combine_map_r {A B} (f : A -> B) l : combine l (map f l) = map (fun x => (x, f x)) l.
Proof. induction l as [|x l IH]; [done|]. cbn. by rewrite IH. Qed.

Lemma kept_files_spec listing cols keep :
  kept_files listing cols keep =
    let? _ := ensure_one_spelling_per_declared_key (listing_files listing) (map to_uppercase cols) in
    Ok (map (fun f => with_partition_values f (file_partition_values cols f)) (List.filter (fun f => keep (file_partition_values cols f)) (listing_files listing))).
Proof.
  unfold kept_files, fill_partition_values. destruct (ensure_one_spelling_per_declared_key _ _); [|done]. f_equal. rewrite combine_map_r.
  induction (listing_files listing) as [|f fs IH]; [done|]. cbn [map List.filter fst snd]. destruct (keep _); [cbn [map fst snd]; by rewrite IH|done].
Qed.

(** A query of a Parquet directory reads every file that holds a matching row: a file
    with a row the filter is TRUE on, its partition columns read as the directory values
    of its path, is planned, with those values; every planned file is a listed one; and
    whether the paths spell a partition key in two ways, which no plan survives, is
    decided by the listing alone, never hidden by a filter. *)
Theorem pruned_directory_keeps_matches `{SL : ScalarLaws} (t : ParquetDirectoryTable) declared filter :
  (forall planned, directory_prune t declared (Some filter) = Ok planned ->
    (forall f row other, f ∈ listing_files (dt_listing t) ->
       reads_logged [] (file_partition_values (partition_columns declared) f) row ->
       means (value_of row other) value_compare filter (Some true) ->
       file_entry (with_partition_values f (file_partition_values (partition_columns declared) f)) (dt_table_root t) ∈ pf_files planned)
    /\ (forall e, e ∈ pf_files planned -> exists f, f ∈ listing_files (dt_listing t)
          /\ e = file_entry (with_partition_values f (file_partition_values (partition_columns declared) f)) (dt_table_root t)))
  /\ (forall filter', is_Some (ok (directory_prune t declared filter')) <-> one_spelling (partition_columns declared) (List.concat (map segment_keys (listing_files (dt_listing t))))).
Proof.
  split.
  - unfold directory_prune, directory_plan. intros planned. rewrite kept_files_spec. destruct (ensure_one_spelling_per_declared_key _ _); [|done]. cbn. intros [= <-]. cbn [pf_files]. rewrite map_map. split.
    + intros f row other Hf Hl Hm. apply list_elem_of_fmap. exists f. split; [done|]. apply list_elem_of_In, List.filter_In. split; [by apply list_elem_of_In|].
      exact (translate_fuel_sound [] _ row other Hl (Forall_nil_2 _) (json_depth filter) filter (Some true) Hm).
    + intros e (f & -> & [Hf _]%list_elem_of_In%List.filter_In)%list_elem_of_fmap. exists f. by rewrite list_elem_of_In.
  - intros filter'. rewrite <- spellings_checked. unfold directory_prune, directory_plan. rewrite kept_files_spec.
    destruct (ensure_one_spelling_per_declared_key _ _) as [[]|]; cbn; split; try done; by intros [].
Qed.
End Planning.

Definition eu_file : ListedFile := MkListed ["t"; "region=eu"; "a.parquet"] 9 [("region", Some "eu")].
Definition us_file : ListedFile := MkListed ["t"; "region=us"; "b.parquet"] 9 [("region", Some "us")].
Definition region_table : ParquetDirectoryTable (U := string) :=
  MkDirectoryTable (MkListing [eu_file; us_file]) (MkLocation "s3://bucket" ["t"]) (Adls "acct" (Sas "s")).
Definition region_schema : DeclaredSchema := MkDeclaredSchema "T" [] ["region"] [].
Definition region_filter : Json :=
  json_object [("type", JString "predicate_equal"); ("left", json_object [("type", JString "column"); ("name", JString "REGION")]);
               ("right", json_object [("type", JString "literal_string"); ("value", JString "eu")])].

Lemma pruned_directory_keeps_matches_witness :
  exists planned, directory_prune (UC := ascii_case) (SU := bucket_urls) (HX := plain_hex) (SO := plain_scalars) region_table region_schema (Some region_filter) = Ok planned
    /\ map path (pf_files planned) = ["region=eu/a.parquet"]
    /\ file_entry (SU := bucket_urls) (with_partition_values eu_file [("region", Some "eu")]) (dt_table_root region_table) ∈ pf_files planned.
Proof.
  eexists. split; [vm_compute; reflexivity|]. split; [vm_compute; reflexivity|].
  refine (proj1 (proj1 (pruned_directory_keeps_matches (UC := ascii_case) (SU := bucket_urls) (HX := plain_hex) (SL := plain_scalars_laws) region_table region_schema region_filter) _ eq_refl)
    eu_file (fun c => if String.eqb c "REGION" then Some (VText "eu") else None) (fun _ => None) _ _ _).
  - by left.
  - intros column logged. vm_compute (file_partition_values _ _). unfold partition_value. cbn [List.find]. unfold folds_to.
    destruct (String.eqb_spec (to_uppercase (UnicodeCase := ascii_case) (fst ("region", Some "eu"))) column) as [<-|]; [|done].
    intros [= <-]. by exists (SvText TUtf8 "eu").
  - eapply (means_comparison _ _ _ Equal); [reflexivity..|vm_compute; reflexivity].
Defined.
