(* ===== verification/DeltaTable.v ===== *)
(** crates/lakehouse-engine/src/adapter/pushdown/format/delta_protocol.rs,
    delta_replay.rs, delta_table.rs and unity_table_storage.rs: which Delta tables are
    read, the storage one is read through, the active files of its current version, and
    the files a query of it plans. *)

From stdpp Require Import base list strings numbers gmap sorting.
From Stdlib Require Import Ascii String ZArith NArith Lia.
From S2P Require Import Prelude Text Hex Json ColumnNode FilterJson SparkTypes ArrowTypes TypeMapping Redaction Storage Connection ScanSpec ColumnNotes ScanFiles TableIdentity BinaryFilter Pruning DeltaPredicate DeltaSchema Resolution Declaration IcebergTable Listing ParquetDirectory.

Local Open Scope string_scope.

(** ** The reader protocol *)

(** [delta_kernel::table_features]. *)
Inductive TableFeature :=
| FtColumnMapping | FtDeletionVectors | FtTimestampWithoutTimezone | FtTypeWidening | FtTypeWideningPreview
| FtV2Checkpoint | FtVacuumProtocolCheck | FtOther (name : string).

Class TableFeatures := {
  MIN_VALID_RW_VERSION : Z;
  MAX_VALID_READER_VERSION : Z;
  TABLE_FEATURES_MIN_READER_VERSION : Z;
  (** [TableFeature]'s [Display]. *)
  feature_name : TableFeature -> string;
}.

Definition is_allow_listed (f : TableFeature) : bool := match f with FtOther _ => false | _ => true end.

Definition ensure_readable {TF : TableFeatures} (min_reader_version : Z) (reader_features : option (list TableFeature)) : result UdfError () :=
  if negb ((MIN_VALID_RW_VERSION <=? min_reader_version) && (min_reader_version <=? MAX_VALID_READER_VERSION))%Z then
    Err (User ("Delta table declares min_reader_version " ++ show_Z min_reader_version ++ ", outside the range this engine reads ("
      ++ show_Z MIN_VALID_RW_VERSION ++ "..=" ++ show_Z MAX_VALID_READER_VERSION ++ ")"))
  else
    match reader_features with
    | None =>
        if (min_reader_version =? TABLE_FEATURES_MIN_READER_VERSION)%Z then
          Err (User ("Delta table declares min_reader_version " ++ show_Z TABLE_FEATURES_MIN_READER_VERSION
            ++ " but carries no readerFeatures list, which the Delta protocol requires at that version"))
        else Ok tt
    | Some features =>
        match map feature_name (List.filter (fun f => negb (is_allow_listed f)) features) with
        | [] => Ok tt
        | refused => Err (User ("Delta table declares reader feature(s) this engine does not implement: " ++ join ", " (sort_by_text id refused)))
        end
    end.

(** ** Arrow arrays

    As far as the replay reads them. A [NullArray] has no validity, so its cells are not
    null ones; rows and entries are in range by a batch's own invariant. *)
Inductive ArrayData :=
| ANull
| AText (type : DataType) (cells : list (option string))
| AInt32 (cells : list (option Z))
| AInt64 (cells : list (option Z))
| AStruct (type : DataType) (valid : list bool) (children : list (string * ArrayData))
| AMap (type : DataType) (valid : list bool) (offsets : list Z) (keys values : ArrayData)
| AOther (type : DataType) (valid : list bool).

Definition array_type (a : ArrayData) : DataType :=
  match a with
  | ANull => TNull | AInt32 _ => TInt32 | AInt64 _ => TInt64
  | AText t _ | AStruct t _ _ | AMap t _ _ _ _ | AOther t _ => t
  end.

Definition cell {A} (cells : list (option A)) (row : nat) : option A := default None (cells !! row).

Definition array_is_null (a : ArrayData) (row : nat) : bool :=
  match a with
  | ANull => false
  | AText _ cells => bool_decide (cell cells row = None)
  | AInt32 cells | AInt64 cells => bool_decide (cell cells row = None)
  | AStruct _ valid _ | AMap _ valid _ _ _ | AOther _ valid => negb (default true (valid !! row))
  end.

Record RecordBatch := MkBatch { num_rows : nat; batch_columns : list (string * ArrayData) }.

Definition column_by_name (columns : list (string * ArrayData)) (name : string) : option ArrayData :=
  snd <$> List.find (fun c => String.eqb c.1 name) columns.

Section Replay.
Context {TF : TableFeatures}.
(** [Display] of an Arrow type. *)
Context (type_display : DataType -> string).

Definition missing_scan_row_column (name : string) : UdfError :=
  User ("the replayed Delta log carries no '" ++ name ++ "' column, so it is not the scan-row schema delta_kernel documents").

Definition unreadable_scan_row_column (name : string) (found : DataType) : UdfError :=
  User ("the replayed Delta log carries column '" ++ name ++ "' as " ++ type_display found
    ++ ", which is not the type delta_kernel's scan-row schema documents").

Definition incomplete_deletion_vector (path field : string) : UdfError :=
  User ("the `add` action for Delta data file '" ++ path ++ "' carries a deletion vector with no `" ++ field ++ "`, which the Delta protocol requires").

Definition string_at (column : ArrayData) (row : nat) (name : string) : result UdfError (option string) :=
  if array_is_null column row then Ok None
  else match column with AText _ cells => Ok (cell cells row) | _ => Err (unreadable_scan_row_column name (array_type column)) end.

Definition i32_at (column : ArrayData) (row : nat) (name : string) : result UdfError (option Z) :=
  if array_is_null column row then Ok None
  else match column with AInt32 cells => Ok (cell cells row) | _ => Err (unreadable_scan_row_column name (array_type column)) end.

Definition i64_at (column : ArrayData) (row : nat) (name : string) : result UdfError (option Z) :=
  if array_is_null column row then Ok None
  else match column with AInt64 cells => Ok (cell cells row) | _ => Err (unreadable_scan_row_column name (array_type column)) end.

Definition scan_row_column (batch : RecordBatch) (name : string) : result UdfError ArrayData :=
  ok_or (column_by_name (batch_columns batch) name) (missing_scan_row_column name).

(** A struct array is its children. *)
Definition struct_column (batch : RecordBatch) (name : string) : result UdfError (option (list (string * ArrayData))) :=
  let? column := scan_row_column batch name in
  if bool_decide (array_type column = TNull) then Ok None
  else match column with AStruct _ _ children => Ok (Some children) | _ => Err (unreadable_scan_row_column name (array_type column)) end.

Definition child_column (parent : list (string * ArrayData)) (parent_name name : string) : result UdfError ArrayData :=
  ok_or (column_by_name parent name) (missing_scan_row_column (parent_name ++ "." ++ name)).

Definition partition_values_column (batch : RecordBatch) : result UdfError (option ArrayData) :=
  let? constants := struct_column batch "fileConstantValues" in
  match constants with
  | None => Ok None
  | Some constants =>
      let? column := child_column constants "fileConstantValues" "partitionValues" in
      if bool_decide (array_type column = TNull) then Ok None
      else match column with AMap _ _ _ _ _ => Ok (Some column) | _ => Err (unreadable_scan_row_column "partitionValues" (array_type column)) end
  end.

Definition size_at (sizes : ArrayData) (row : nat) (path : string) : result UdfError N :=
  let? size := i64_at sizes row "size" in
  let? size := ok_or size (User ("the `add` action for Delta data file '" ++ path ++ "' logs no size")) in
  if (0 <=? size)%Z then Ok (Z.to_N size)
  else Err (User ("the `add` action for Delta data file '" ++ path ++ "' logs a negative size " ++ show_Z size)).

Definition partition_entry (columns logged : ArrayData) (path : string) (carried : gmap string (option string)) (entry : nat)
  : result UdfError (gmap string (option string)) :=
  let? column := string_at columns entry "partitionValues key" in
  let? column := ok_or column (User ("the `add` action for Delta data file '" ++ path ++ "' logs a partition value under a NULL partition-column name")) in
  let? value := string_at logged entry "partitionValues value" in
  Ok (<[column := value]> carried).

Fixpoint try_fold {A B E} (f : B -> A -> result E B) (acc : B) (l : list A) : result E B :=
  match l with [] => Ok acc | x :: l => let? acc := f acc x in try_fold f acc l end.

Definition partition_values_at (partition_values : option ArrayData) (row : nat) (path : string) : result UdfError (gmap string (option string)) :=
  match partition_values with
  | Some (AMap _ valid offsets columns logged) =>
      if negb (default true (valid !! row)) then Ok ∅
      else
        match offsets !! row, offsets !! (row + 1) with
        | Some first, Some last =>
            try_fold (partition_entry columns logged path) ∅ (seq (Z.to_nat first) (Z.to_nat last - Z.to_nat first))
        | _, _ =>
            Err (User ("the replayed Delta log carries partition values for " ++ show_nat (List.length offsets - 1)
              ++ " rows, short of the row holding data file '" ++ path ++ "'"))
        end
  | _ => Ok ∅
  end.

Definition deletion_vector_at (deletion_vectors : option (list (string * ArrayData))) (row : nat) (path : string) : result UdfError (option DeleteMechanism) :=
  match deletion_vectors with
  | None => Ok None
  | Some dv =>
      let? kind := child_column dv "deletionVector" "storageType" in
      let? kind := string_at kind row "deletionVector.storageType" in
      match kind with
      | None => Ok None
      | Some kind =>
          let? storage := match kind with
                          | "u" => Ok UuidRelative
                          | "i" => Ok Inline
                          | "p" => Ok AbsolutePath
                          | _ => Err (User ("the `add` action for Delta data file '" ++ path ++ "' carries a deletion vector whose storage kind '" ++ kind
                                   ++ "' is none of the Delta protocol's 'u', 'i' and 'p'"))
                          end in
          let? column := child_column dv "deletionVector" "pathOrInlineDv" in
          let? path_or_inline_dv := string_at column row "deletionVector.pathOrInlineDv" in
          let? path_or_inline_dv := ok_or path_or_inline_dv (incomplete_deletion_vector path "pathOrInlineDv") in
          let? column := child_column dv "deletionVector" "offset" in
          let? offset := i32_at column row "deletionVector.offset" in
          let? column := child_column dv "deletionVector" "sizeInBytes" in
          let? size_in_bytes := i32_at column row "deletionVector.sizeInBytes" in
          let? size_in_bytes := ok_or size_in_bytes (incomplete_deletion_vector path "sizeInBytes") in
          let? column := child_column dv "deletionVector" "cardinality" in
          let? cardinality := i64_at column row "deletionVector.cardinality" in
          let? cardinality := ok_or cardinality (incomplete_deletion_vector path "cardinality") in
          Ok (Some (DeltaDeletionVector storage path_or_inline_dv offset size_in_bytes cardinality))
      end
  end.

(** The paths listed so far and the active files. *)
Definition Active : Type := gset string * list FileEntry.

Definition active_row (paths sizes : ArrayData) (deletion_vectors : option (list (string * ArrayData))) (partition_values : option ArrayData) (selected : list bool)
    (acc : Active) (row : nat) : result UdfError Active :=
  if negb (default true (selected !! row)) then Ok acc
  else
    let? path := string_at paths row "path" in
    match path with
    | None => Ok acc
    | Some path =>
        if bool_decide (path ∈ acc.1) then Ok acc
        else
          let? size := size_at sizes row path in
          let? values := partition_values_at partition_values row path in
          let? vector := deletion_vector_at deletion_vectors row path in
          Ok ({[path]} ∪ acc.1, (acc.2 ++ [{| ScanFiles.path := path; size := size; deletes := match vector with Some d => [d] | None => [] end; partition_values := values |}])%list)
    end.

Definition append_active_files (acc : Active) (batch : RecordBatch) (selected : list bool) : result UdfError Active :=
  let? paths := scan_row_column batch "path" in
  let? sizes := scan_row_column batch "size" in
  let? deletion_vectors := struct_column batch "deletionVector" in
  let? partition_values := partition_values_column batch in
  try_fold (active_row paths sizes deletion_vectors partition_values selected) acc (seq 0 (num_rows batch)).

(** ** The snapshot *)

(** What delta_kernel answers of a snapshot: [plan_scan] builds the scan of a predicate,
    [scan_metadata] replays it, each batch with its selection; a batch may fail to be
    replayed or to be read as Arrow data. *)
Record Snapshot := MkSnapshot {
  min_reader_version : Z;
  reader_features : option (list TableFeature);
  sn_schema : list StructField;
  sn_partition_columns : list string;
  sn_column_mapping_mode : ColumnMappingMode;
  sn_table_root : string;
  plan_scan : option (Predicate Scalar) -> result string ();
  scan_metadata : option (Predicate Scalar) -> result string (list (result string (result string RecordBatch * list bool)));
}.

Definition snapshot_open (build : string -> result string Snapshot) (table_root : string) : result UdfError Snapshot :=
  match build table_root with
  | Err cause => Err (User ("failed to resolve the current Delta version for table root '" ++ table_root ++ "': " ++ cause))
  | Ok snapshot =>
      match ensure_readable (min_reader_version snapshot) (reader_features snapshot) with
      | Err (User refusal) => Err (User ("cannot read Delta table root '" ++ table_root ++ "': " ++ refusal))
      | Ok _ => Ok snapshot
      end
  end.

Definition failed_to (s : Snapshot) (attempted cause : string) : UdfError :=
  User ("failed to " ++ attempted ++ " for Delta table root '" ++ sn_table_root s ++ "': " ++ cause).

Definition replay_batch (s : Snapshot) (acc : Active) (replayed : result string (result string RecordBatch * list bool)) : result UdfError Active :=
  match replayed with
  | Err cause => Err (failed_to s "replay the Delta log" cause)
  | Ok (Err cause, _) => Err (failed_to s "read the replayed Delta log" cause)
  | Ok (Ok batch, selected) => append_active_files acc batch selected
  end.

Definition active_files (s : Snapshot) (prune : option (Predicate Scalar)) : result UdfError (list FileEntry) :=
  match plan_scan s prune with
  | Err cause => Err (failed_to s "plan the Delta scan" cause)
  | Ok _ =>
      match scan_metadata s prune with
      | Err cause => Err (failed_to s "replay the Delta log" cause)
      | Ok batches =>
          let? (_, active) := try_fold (replay_batch s) (∅, []) batches in
          Ok (sort_by_text path active)
      end
  end.
End Replay.

(** ** The table *)

Definition mode_text (mode : ColumnMappingMode) : string := match mode with ModeNone => "none" | ModeId => "id" | ModeName => "name" end.

Definition disagreement (virtual_table part : string) : UdfError :=
  User ("the declaration of virtual table '" ++ virtual_table ++ "' disagrees with its Delta log: " ++ part
    ++ "; give the Unity Catalog entry the Delta schema's column metadata in type_json and the table's properties, then run ALTER VIRTUAL SCHEMA ... REFRESH").

Definition physical_name_of (field : StructField) : option string :=
  match spark_metadata field !! COLUMN_MAPPING_PHYSICAL_NAME with Some (MString name) => Some name | _ => None end.

Definition snapshot_field (schema : list StructField) (declared : LogicalField) : option StructField :=
  List.find (fun field =>
    match lf_physical_name declared, lf_field_id declared with
    | Some physical_name, _ => bool_decide (physical_name_of field = Some physical_name)
    | None, Some id => bool_decide (spark_column_mapping_id field = Some id)
    | None, None => eq_ignore_ascii_case (spark_name field) (lf_name declared)
    end) schema.

Definition ensure_binding_keys_follow_mode (declared : DeclaredSchema) (mode : ColumnMappingMode) : result UdfError () :=
  let mode_key := (match mode with ModeId => true | _ => false end, match mode with ModeName => true | _ => false end) in
  match List.find (fun f => negb (bool_decide ((bool_decide (is_Some (lf_field_id f)), bool_decide (is_Some (lf_physical_name f))) = mode_key))) (logical_schema declared) with
  | Some field =>
      Err (disagreement (table declared) ("its column-mapping mode is '" ++ mode_text mode ++ "', but the declaration of column '" ++ lf_name field
        ++ "' does not carry exactly the binding key that mode selects"))
  | None => Ok tt
  end.

Section Table.
Context {UC : UnicodeCase} {FL : Floats} {DS : DeltaScalars} {HX : Hex} {TF : TableFeatures}.
Context (type_display : DataType -> string).
(** [{:?}] of a list of texts. *)
Context (debug_names : list string -> string).

Definition declared_snapshot_field (schema : list StructField) (declared : DeclaredSchema) (name : string) : option StructField :=
  field ← List.find (fun f => String.eqb (lf_name f) name) (logical_schema declared); snapshot_field schema field.

Definition checked_partition_fields (schema : list StructField) (log_partitions : list string) (declared : DeclaredSchema) : result UdfError (list StructField) :=
  let partition_fields := map (declared_snapshot_field schema declared) (ColumnNotes.partition_columns declared) in
  if bool_decide (map (fmap spark_name) partition_fields = map Some log_partitions) then Ok (omap id partition_fields)
  else Err (disagreement (table declared) ("it partitions by " ++ debug_names log_partitions ++ ", but the declaration partitions by "
         ++ debug_names (ColumnNotes.partition_columns declared))).

Definition ensure_no_relaxed_nullability (schema : list StructField) (declared : DeclaredSchema) : result UdfError () :=
  match List.find (fun f => negb (lf_nullable f) && match snapshot_field schema f with Some now => spark_nullable now | None => false end) (logical_schema declared) with
  | Some field =>
      Err (User ("column '" ++ to_uppercase (lf_name field) ++ "' of virtual table '" ++ table declared
        ++ "' is declared non-nullable, but the Delta log allows NULL in it; ALTER VIRTUAL SCHEMA ... REFRESH re-declares it"))
  | None => Ok tt
  end.

(** The column of each filter name, and the log's key of each partition column. *)
Definition filter_columns (schema : list StructField) (declared : DeclaredSchema) : list (string * StructField) :=
  omap (fun f => now ← snapshot_field schema f; Some (lf_name f, now)) (logical_schema declared).

Definition logged_keys (mode : ColumnMappingMode) (declared : DeclaredSchema) (fields : list StructField) : list (string * string) :=
  zip_with (fun name field =>
    let mapped := match mode with ModeNone => false | _ => true end in
    (name, default (spark_name field) (physical ← physical_name_of field; if mapped then Some physical else None))) (ColumnNotes.partition_columns declared) fields.

(** [logged.remove(key)]: a key's value goes to the first column that names it. *)
Fixpoint take_logged (keys : list (string * string)) (logged : gmap string (option string)) : gmap string (option string) :=
  match keys with
  | [] => ∅
  | (name, key) :: keys =>
      match logged !! key with
      | Some value => let rest := take_logged keys (delete key logged) in match rest !! name with Some _ => rest | None => <[name := value]> rest end
      | None => take_logged keys logged
      end
  end.

Definition rekeyed (keys : list (string * string)) (f : FileEntry) : FileEntry :=
  {| path := path f; size := size f; deletes := deletes f; partition_values := take_logged keys (partition_values f) |}.

Definition delta_prune_predicate (schema : list StructField) (declared : DeclaredSchema) (filter_json : option Json) : option (Predicate Scalar) :=
  filter ← filter_json; to_delta_predicate (filter_columns schema declared) filter.

Definition declared_files (s : Snapshot) (declared : DeclaredSchema) (filter_json : option Json) : result UdfError (list FileEntry) :=
  let schema := sn_schema s in
  let? _ := ensure_binding_keys_follow_mode declared (sn_column_mapping_mode s) in
  let? partition_fields := checked_partition_fields schema (sn_partition_columns s) declared in
  let? _ := ensure_no_relaxed_nullability schema declared in
  let keys := logged_keys (sn_column_mapping_mode s) declared partition_fields in
  let? active := active_files type_display s (delta_prune_predicate schema declared filter_json) in
  Ok (hex_binary_partition_values (map (rekeyed keys) active) (logical_schema declared)).

Record DeltaTable := MkDeltaTable { dl_snapshot : Snapshot; dl_table_root : string; dl_effective_storage : StorageBackend }.

Context (error_text : UdfError -> string).

Definition delta_prune (t : DeltaTable) (declared : DeclaredSchema) (filter_json : option Json) : result UdfError PlannedFiles :=
  match declared_files (dl_snapshot t) declared filter_json with
  | Err error => Err (redacted error_text error (secret_values (dl_effective_storage t)))
  | Ok files => Ok (MkPlanned files (dl_effective_storage t) (dl_table_root t) [])
  end.

#[export] Instance delta_table : LoadedTable DeltaTable := {| prune := delta_prune |}.

(** ** A Unity table's storage *)

Definition READ_OPERATION : string := "READ".

(** The session's vending call and the store builder. *)
Context (temporary_table_credentials : string -> string -> result UdfError TemporaryTableCredentials).
Context {S : Type} (build_table_root_store : StorageBackend -> string -> N -> list string -> result UdfError S).

Definition effective_storage (t : CatalogTable) (storage : StorageBackend) (creds : ConnectionCreds) (allow_http : bool) (table_root : string) : result UdfError StorageBackend :=
  if negb (c_use_vended_credentials creds) then Ok storage
  else
    let? vending_key := ok_or (key ← ct_vended_credential_key t; if String.eqb (trim key) "" then None else Some key)
      (User ("USE_VENDED_CREDENTIALS is enabled, but Unity Catalog reported no storage-credential vending key for table " ++ catalog_identifier_string (ct_ident t)
        ++ "; reading it through the CONNECTION's static credential instead would use a credential the operator did not select for this table")) in
    let? vended := temporary_table_credentials vending_key READ_OPERATION in
    resolve_uc_vended_storage vended table_root allow_http (static_store_address creds).

Definition open_store (t : CatalogTable) (storage : StorageBackend) (creds : ConnectionCreds) (allow_http : bool) : result UdfError (string * StorageBackend * S) :=
  let? table_root := checked_storage_location (ct_storage_location t) (catalog_identifier_string (ct_ident t)) "Unity Catalog" in
  let? effective := effective_storage t storage creds allow_http table_root in
  match build_table_root_store effective table_root CommonSpec.DEFAULT_S3_MAX_CONNECTIONS (secret_values effective) with
  | Err error => Err (redacted error_text error (secret_values effective))
  | Ok store => Ok (table_root, effective, store)
  end.

(** [read] builds the snapshot over the store. *)
Context (read : S -> string -> result string Snapshot).

Definition delta_open (t : CatalogTable) (storage : StorageBackend) (creds : ConnectionCreds) (allow_http : bool) : result UdfError DeltaTable :=
  let? (table_root, effective, store) := open_store t storage creds allow_http in
  match snapshot_open (read store) table_root with
  | Err error => Err (redacted error_text error (secret_values effective))
  | Ok snapshot => Ok (MkDeltaTable snapshot table_root effective)
  end.
End Table.

(** ** The replay is exact *)

Lemma try_fold_app {A B E} (f : B -> A -> result E B) acc l1 l2 :
  try_fold f acc (l1 ++ l2) = let? acc := try_fold f acc l1 in try_fold f acc l2.
Proof. revert acc. induction l1 as [|x l1 IH]; intros acc; [done|]. cbn [app try_fold]. destruct (f acc x); [apply IH|done]. Qed.

Section Exact.
Context (type_display : DataType -> string).

(** A selected row of a replayed batch; its path, and the entry its columns log. *)
Definition row_path (row : RecordBatch * nat) : option string :=
  match column_by_name (batch_columns row.1) "path" with Some column => default None (ok (string_at type_display column row.2 "path")) | None => None end.

Definition row_logs (row : RecordBatch * nat) (e : FileEntry) : Prop :=
  exists sizes vectors values vector,
    scan_row_column row.1 "size" = Ok sizes /\ struct_column type_display row.1 "deletionVector" = Ok vectors /\ partition_values_column type_display row.1 = Ok values
    /\ row_path row = Some (path e)
    /\ size_at type_display sizes row.2 (path e) = Ok (size e)
    /\ partition_values_at type_display values row.2 (path e) = Ok (partition_values e)
    /\ deletion_vector_at type_display vectors row.2 (path e) = Ok vector /\ deletes e = match vector with Some d => [d] | None => [] end.

Definition selected_rows (batch : RecordBatch) (selected : list bool) : list (RecordBatch * nat) :=
  map (pair batch) (List.filter (fun row => default true (selected !! row)) (seq 0 (num_rows batch))).

(** The newest row of a path: the first in replay order. *)
Definition newest (rows : list (RecordBatch * nat)) (e : FileEntry) : Prop :=
  exists before row after, rows = (before ++ row :: after)%list /\ row_logs row e /\ Forall (fun r => row_path r <> Some (path e)) before.

Definition replayed (rows : list (RecordBatch * nat)) (acc : Active) : Prop :=
  (forall p, p ∈ acc.1 <-> exists row, row ∈ rows /\ row_path row = Some p)
  /\ (forall e, e ∈ acc.2 <-> newest rows e) /\ NoDup (map path acc.2) /\ (forall p, p ∈ map path acc.2 <-> p ∈ acc.1).

Lemma newest_snoc rows row e : newest (rows ++ [row]) e <-> newest rows e \/ row_logs row e /\ Forall (fun r => row_path r <> Some (path e)) rows.
Proof.
  split.
  - intros (before & r & after & Heq & Hlog & Hb). destruct after as [|a after _] using rev_ind.
    + apply app_inj_tail in Heq as [-> ->]. by right.
    + rewrite app_comm_cons, app_assoc in Heq. apply app_inj_tail in Heq as [-> _]. left. by exists before, r, after.
  - intros [(before & r & after & -> & Hlog & Hb)|[Hlog Hb]]; [|by exists rows, row, []].
    exists before, r, (after ++ [row])%list. by rewrite <- app_assoc.
Qed.

Lemma row_logs_unique row e e' : row_logs row e -> row_logs row e' -> e = e'.
Proof.
  intros (s & v & pv & d & H1 & H2 & H3 & H4 & H5 & H6 & H7 & H8) (s' & v' & pv' & d' & H1' & H2' & H3' & H4' & H5' & H6' & H7' & H8').
  rewrite H4 in H4'. injection H4' as H4'. destruct e, e'. cbn in *. subst. rewrite H1 in H1'. injection H1' as <-. rewrite H2 in H2'. injection H2' as <-. rewrite H3 in H3'. injection H3' as <-.
  rewrite H5 in H5'. injection H5' as <-. rewrite H6 in H6'. injection H6' as <-. rewrite H7 in H7'. injection H7' as <-. done.
Qed.

Lemma row_path_of batch row paths : scan_row_column batch "path" = Ok paths -> row_path (batch, row) = default None (ok (string_at type_display paths row "path")).
Proof. unfold scan_row_column, row_path. cbn [fst snd]. by destruct (column_by_name _ _); intros [= <-]. Qed.

Lemma unlisted rows acc p : replayed rows acc -> p ∉ acc.1 -> Forall (fun r => row_path r <> Some p) rows.
Proof. intros (Hp & _) Hn. apply Forall_forall. intros r Hr Heq. apply Hn, Hp. by exists r. Qed.

(** A row that adds no entry. *)
Lemma replayed_skip rows acc row : replayed rows acc -> (forall p, row_path row = Some p -> p ∈ acc.1) -> replayed (rows ++ [row]) acc.
Proof.
  intros (Hp & He & Hd & Hs) Hskip. split; [|split; [|done]].
  - intros p. rewrite Hp. split; [intros (r & Hr & Heq); exists r; rewrite elem_of_app; auto|].
    intros (r & [Hr|Hr%list_elem_of_singleton]%elem_of_app & Heq); [by exists r|]. subst r. by apply Hp, Hskip.
  - intros e. rewrite newest_snoc, He. split; [by left|]. intros [H|[(? & ? & ? & ? & _ & _ & _ & Hpath & _) Hb]]; [done|].
    exfalso. apply Hskip, Hp in Hpath as (r & Hr & Heq). rewrite Forall_forall in Hb. by apply (Hb r Hr).
Qed.

Lemma replayed_add rows p_set active row e : replayed rows (p_set, active) -> row_logs row e -> path e ∉ p_set ->
  replayed (rows ++ [row]) ({[path e]} ∪ p_set, (active ++ [e])%list).
Proof.
  intros Hrep Hlog Hn. pose proof (unlisted _ _ _ Hrep Hn) as Hb. pose proof Hrep as (Hp & He & Hd & Hs). cbn [fst snd] in *.
  assert (Hpath : row_path row = Some (path e)) by (destruct Hlog as (? & ? & ? & ? & _ & _ & _ & H & _); done). split_and!; cbn [fst snd].
  - intros p. rewrite elem_of_union, elem_of_singleton, Hp. split.
    + intros [->|(r & Hr & Heq)]; [exists row|exists r]; rewrite elem_of_app, list_elem_of_singleton; auto.
    + intros (r & [Hr|Hr%list_elem_of_singleton]%elem_of_app & Heq); [right; by exists r|left]. subst r. congruence.
  - intros e'. rewrite newest_snoc, elem_of_app, list_elem_of_singleton, He. split; (intros [H|H]; [by left|right]); [by subst|].
    destruct H as [H _]. by eapply row_logs_unique.
  - rewrite map_app. apply NoDup_app. split_and!; [done| |apply NoDup_singleton]. intros q (e' & -> & He')%list_elem_of_fmap Hq%list_elem_of_singleton.
    apply Hn. rewrite <- Hq. by apply Hs, list_elem_of_fmap_2.
  - intros p. rewrite map_app, elem_of_app, Hs, elem_of_union, elem_of_singleton. cbn [map]. rewrite list_elem_of_singleton. tauto.
Qed.

Lemma active_row_step batch selected paths sizes vectors values rows acc row acc' :
  scan_row_column batch "path" = Ok paths -> scan_row_column batch "size" = Ok sizes ->
  struct_column type_display batch "deletionVector" = Ok vectors -> partition_values_column type_display batch = Ok values ->
  replayed rows acc -> active_row type_display paths sizes vectors values selected acc row = Ok acc' ->
  replayed (rows ++ (if default true (selected !! row) then [(batch, row)] else [])) acc'.
Proof.
  intros Hpaths Hsizes Hvectors Hvalues Hrep. pose proof (row_path_of batch row paths Hpaths) as Hpath. unfold active_row.
  destruct (default true (selected !! row)); cbn [negb]; [|intros [= <-]; by rewrite app_nil_r].
  destruct (string_at _ paths row "path") as [[p|]|] eqn:Es; [| |done]; cbn [ok default from_option id] in Hpath.
  2: { intros [= <-]. apply replayed_skip; [done|]. intros q Hq. congruence. }
  destruct acc as [p_set active]. cbn [fst snd]. case_bool_decide as Hin.
  { intros [= <-]. apply replayed_skip; [done|]. intros q Hq. cbn in *. congruence. }
  destruct (size_at _ sizes row p) as [n|] eqn:En; [|done]. destruct (partition_values_at _ values row p) as [pv|] eqn:Ev; [|done].
  destruct (deletion_vector_at _ vectors row p) as [dv|] eqn:Ed; [|done]. intros [= <-].
  refine (replayed_add rows p_set active (batch, row) {| path := p; size := n; deletes := _; partition_values := pv |} Hrep _ Hin).
  exists sizes, vectors, values, dv. by split_and!.
Qed.

Lemma append_active_step batch selected rows acc acc' : replayed rows acc -> append_active_files type_display acc batch selected = Ok acc' ->
  replayed (rows ++ selected_rows batch selected) acc'.
Proof.
  intros Hrep. unfold append_active_files. destruct (scan_row_column batch "path") as [paths|] eqn:E1; [|done]. destruct (scan_row_column batch "size") as [sizes|] eqn:E2; [|done].
  destruct (struct_column _ batch "deletionVector") as [vectors|] eqn:E3; [|done]. destruct (partition_values_column _ batch) as [values|] eqn:E4; [|done].
  unfold selected_rows. generalize (seq 0 (num_rows batch)) as l. intros l. revert rows acc Hrep. induction l as [|row l IH]; intros rows acc Hrep; cbn [try_fold].
  { intros [= <-]. by rewrite app_nil_r. }
  destruct (active_row _ _ _ _ _ _ acc row) as [acc1|] eqn:Ea; [|done]. intros Hl. eapply active_row_step in Ea; [|done..].
  specialize (IH _ _ Ea Hl). rewrite <- app_assoc in IH. cbn [List.filter]. by destruct (default true (selected !! row)).
Qed.

(** The selected rows of the batches, newest first. *)
Fixpoint replayed_rows (batches : list (result string (result string RecordBatch * list bool))) : list (RecordBatch * nat) :=
  match batches with
  | Ok (Ok batch, selected) :: batches => selected_rows batch selected ++ replayed_rows batches
  | _ :: batches => replayed_rows batches
  | [] => []
  end.

Lemma replay_batches s batches : forall rows acc acc', replayed rows acc -> try_fold (replay_batch type_display s) acc batches = Ok acc' ->
  replayed (rows ++ replayed_rows batches) acc'.
Proof.
  induction batches as [|b batches IH]; intros rows acc acc' Hrep; cbn [try_fold replayed_rows]; [intros [= <-]; by rewrite app_nil_r|].
  destruct (replay_batch _ s acc b) as [acc1|] eqn:Eb; [|done]. destruct b as [[[batch|] selected]|]; try done. cbn [replay_batch] in Eb.
  intros Hl. apply (append_active_step _ _ rows) in Eb; [|done]. specialize (IH _ _ _ Eb Hl). by rewrite <- app_assoc in IH.
Qed.
End Exact.

(** The active files of a Delta table are exactly what its log says: one file per
    path an `add` row of the replay names, in path order, each with the size, the
    partition values and the deletion vector of the newest row of its path - a row that
    logs no path or that the kernel deselected adds nothing, and a later, older row of a
    path changes nothing. *)
Theorem delta_active_files_exact type_display s prune files :
  active_files type_display s prune = Ok files ->
  exists batches, scan_metadata s prune = Ok batches
    /\ NoDup (map path files) /\ StronglySorted (text_order path) files
    /\ (forall e, e ∈ files <-> newest type_display (replayed_rows batches) e)
    /\ (forall p, p ∈ map path files <-> exists row, row ∈ replayed_rows batches /\ row_path type_display row = Some p).
Proof.
  unfold active_files. destruct (plan_scan s prune); [|done]. destruct (scan_metadata s prune) as [batches|]; [|done].
  destruct (try_fold _ _ batches) as [[p_set active]|] eqn:Ef; [|done]. intros [= <-]. exists batches. split; [done|].
  apply (replay_batches type_display s batches []) in Ef.
  2: { split_and!; cbn; [intros p|intros e|constructor|intros p].
       - split; [by intros H%elem_of_empty|by intros (r & H%elem_of_nil & _)].
       - split; [by intros H%elem_of_nil|by intros ([] & ? & ? & ? & _)].
       - by rewrite elem_of_nil, elem_of_empty. }
  destruct Ef as (Hp & He & Hd & Hs). cbn [app fst snd] in *. split_and!.
  - by rewrite sort_by_text_perm.
  - apply sort_by_text_sorted.
  - intros e. by rewrite sort_by_text_perm, He.
  - intros p. rewrite <- Hp, <- Hs. by rewrite sort_by_text_perm.
Qed.

Definition log_batch (dv : ArrayData) : RecordBatch :=
  MkBatch 3 [("path", AText TUtf8 [Some "b.parquet"; None; Some "a.parquet"]); ("size", AInt64 [Some 10; None; Some 20]); ("deletionVector", dv); ("fileConstantValues", ANull)]%Z.
Definition vector_column : ArrayData :=
  AStruct (TStruct []) [true; true; true]
    [("storageType", AText TUtf8 [None; None; Some "u"]); ("pathOrInlineDv", AText TUtf8 [None; None; Some "ab"]); ("offset", AInt32 [None; None; Some 1]);
     ("sizeInBytes", AInt32 [None; None; Some 40]); ("cardinality", AInt64 [None; None; Some 6])]%Z.
Definition sample_features : TableFeatures :=
  {| MIN_VALID_RW_VERSION := 1; MAX_VALID_READER_VERSION := 3; TABLE_FEATURES_MIN_READER_VERSION := 3;
     feature_name f := match f with FtOther name => name | _ => "" end |}.
(** Two batches: the older one logs "a.parquet" without its vector. *)
Definition two_batches : Snapshot :=
  MkSnapshot 3 (Some [FtDeletionVectors]) [] [] ModeNone "s3://bucket/t/" (fun _ => Ok tt)
    (fun _ => Ok [Ok (Ok (log_batch vector_column), [true]); Ok (Ok (log_batch ANull), [])]).

Lemma delta_active_files_exact_witness :
  exists files, active_files (fun _ => "") two_batches None = Ok files
    /\ map path files = ["a.parquet"; "b.parquet"] /\ map deletes files = [[DeltaDeletionVector UuidRelative "ab" (Some 1%Z) 40 6]; []] /\ NoDup (map path files).
Proof.
  eexists. split; [vm_compute; reflexivity|]. split_and!; [reflexivity..|].
  destruct (delta_active_files_exact (fun _ => "") two_batches None _ eq_refl) as (batches & _ & H & _). exact H.
Defined.

(** ** No matching file is lost *)

Lemma take_logged_lookup keys : forall logged name key, NoDup (map fst keys) -> NoDup (map snd keys) -> (name, key) ∈ keys -> take_logged keys logged !! name = logged !! key.
Proof.
  assert (Hother : forall keys logged name, name ∉ map fst keys -> take_logged keys logged !! name = None).
  { clear. induction keys as [|[n k] keys IH]; intros logged name; cbn [take_logged map fst]; [done|]. rewrite elem_of_cons. intros Hn.
    destruct (logged !! k) as [v|]; [|apply IH; tauto]. destruct (take_logged keys _ !! n); [apply IH; tauto|]. rewrite lookup_insert_ne by (intros ->; tauto). apply IH. tauto. }
  induction keys as [|[n k] keys IH]; intros logged name key; [by intros _ _ H%elem_of_nil|]. cbn [take_logged map fst snd].
  intros [Hn Hd]%NoDup_cons [Hk Hk']%NoDup_cons [[= -> ->]|Hin]%elem_of_cons.
  - destruct (logged !! k) as [v|] eqn:E; rewrite (Hother keys) by done; [by rewrite lookup_insert_eq|done].
  - assert (name <> n) by (intros ->; apply Hn; by apply (list_elem_of_fmap_2 fst) in Hin).
    assert (key <> k) by (intros ->; apply Hk; by apply (list_elem_of_fmap_2 snd) in Hin).
    destruct (logged !! k) as [v|] eqn:E; [|by apply IH]. specialize (IH (delete k logged) name key Hd Hk' Hin). rewrite lookup_delete_ne in IH by done.
    destruct (take_logged keys (delete k logged) !! n); [done|]. by rewrite lookup_insert_ne.
Qed.

(** *** The log's own rows

    What a row of delta_kernel's scan-row batches says, read cell by cell. A column of the
    null type holds nothing. *)
Definition text_cell (a : ArrayData) (row : nat) : option string := match a with AText _ cells => cell cells row | _ => None end.
Definition int_cell (a : ArrayData) (row : nat) : option Z := match a with AInt32 cells | AInt64 cells => cell cells row | _ => None end.
Definition at_column (columns : list (string * ArrayData)) (name : string) : ArrayData := default ANull (column_by_name columns name).
Definition struct_children (a : ArrayData) : list (string * ArrayData) :=
  match a with AStruct t _ children => if bool_decide (t = TNull) then [] else children | _ => [] end.
Definition map_entries (a : ArrayData) (row : nat) : list (string * option string) :=
  match a with
  | AMap t valid offsets keys values =>
      if bool_decide (t = TNull) || negb (default true (valid !! row)) then []
      else match offsets !! row, offsets !! (row + 1) with
           | Some first, Some last =>
               omap (fun i => key ← text_cell keys i; Some (key, text_cell values i)) (seq (Z.to_nat first) (Z.to_nat last - Z.to_nat first))
           | _, _ => []
           end
  | _ => []
  end.

Record LogVector := MkLogVector { lv_kind : string; lv_path : string; lv_offset : option Z; lv_size : Z; lv_cardinality : Z }.
Record LogRow := MkLogRow { lr_path : option string; lr_size : option Z; lr_vector : option LogVector; lr_partition : list (string * option string) }.

Definition log_vector (columns : list (string * ArrayData)) (row : nat) : option LogVector :=
  kind ← text_cell (at_column columns "storageType") row;
  path ← text_cell (at_column columns "pathOrInlineDv") row;
  size ← int_cell (at_column columns "sizeInBytes") row;
  cardinality ← int_cell (at_column columns "cardinality") row;
  Some (MkLogVector kind path (int_cell (at_column columns "offset") row) size cardinality).

Definition log_row (r : RecordBatch * nat) : LogRow :=
  let columns := batch_columns r.1 in
  MkLogRow (text_cell (at_column columns "path") r.2) (int_cell (at_column columns "size") r.2)
    (log_vector (struct_children (at_column columns "deletionVector")) r.2)
    (map_entries (at_column (struct_children (at_column columns "fileConstantValues")) "partitionValues") r.2).

(** The value a row logs under a key: the last entry's. *)
Definition logged_value (l : LogRow) (key : string) : option (option string) :=
  (list_to_map (reverse (lr_partition l)) : gmap string (option string)) !! key.

Definition storage_letter (s : DeltaDeletionVectorStorage) : string := match s with UuidRelative => "u" | Inline => "i" | AbsolutePath => "p" end.
Definition deletes_as_logged (l : LogRow) (deletes : list DeleteMechanism) : Prop :=
  match lr_vector l with
  | None => deletes = []
  | Some v => exists storage, lv_kind v = storage_letter storage
      /\ deletes = [DeltaDeletionVector storage (lv_path v) (lv_offset v) (lv_size v) (lv_cardinality v)]
  end.

(** A file of the version the rows replay: the newest row of its path. *)
Definition logs_file (rows : list (RecordBatch * nat)) (path : string) (l : LogRow) : Prop :=
  lr_path l = Some path
  /\ exists before row after, rows = (before ++ row :: after)%list /\ log_row row = l /\ Forall (fun r => lr_path (log_row r) <> Some path) before.

Section LogRows.
Context (type_display : DataType -> string).

Lemma string_at_cell column row name v : string_at type_display column row name = Ok v -> text_cell column row = v.
Proof.
  unfold string_at. destruct column as [|t cells| | | | |]; cbn [array_is_null text_cell]; try (by destruct (_ : bool)); try done; try (by case_bool_decide; [intros [= <-]|]).
  - by case_bool_decide as E; intros [= <-].
  - by destruct (negb _); [intros [= <-]|].
  - by destruct (negb _); [intros [= <-]|].
  - by destruct (negb _); [intros [= <-]|].
Qed.

Lemma int_at_cell column row name v : i32_at type_display column row name = Ok v \/ i64_at type_display column row name = Ok v -> int_cell column row = v.
Proof.
  unfold i32_at, i64_at. destruct column as [| |cells|cells| | |]; cbn [array_is_null int_cell].
  1: by intros [?|?].
  1: by case_bool_decide; (intros [[= <-]|[= <-]]).
  1: by case_bool_decide as E; intros [H|H]; simplify_eq.
  1: by case_bool_decide as E; intros [H|H]; simplify_eq.
  all: by destruct (negb _); intros [H|H]; simplify_eq.
Qed.

Lemma row_path_cell r : row_path type_display r = lr_path (log_row r).
Proof.
  unfold row_path, log_row, at_column. cbn [lr_path]. destruct (column_by_name _ "path") as [column|]; [|done]. cbn [default].
  unfold string_at. destruct column as [|t cells| | | | |]; cbn [array_is_null text_cell]; try done.
  - by case_bool_decide as E.
  - by case_bool_decide.
  - by case_bool_decide.
  - by destruct (negb _).
  - by destruct (negb _).
  - by destruct (negb _).
Qed.

Lemma child_of (columns : list (string * ArrayData)) parent name a : child_column columns parent name = Ok a -> at_column columns name = a.
Proof. unfold child_column, at_column. by destruct (column_by_name columns name); intros [= <-]. Qed.

Lemma scan_column_of batch name a : scan_row_column batch name = Ok a -> at_column (batch_columns batch) name = a.
Proof. unfold scan_row_column, at_column. by destruct (column_by_name _ name); intros [= <-]. Qed.

Lemma struct_column_of batch name v : struct_column type_display batch name = Ok v -> struct_children (at_column (batch_columns batch) name) = default [] v.
Proof.
  unfold struct_column. destruct (scan_row_column batch name) as [a|] eqn:E; [|done]. apply scan_column_of in E as ->. unfold struct_children.
  case_bool_decide as Et; [intros [= <-]; destruct a; cbn in *; try done; by rewrite bool_decide_eq_true_2|].
  destruct a; try done. intros [= <-]. cbn in *. by rewrite bool_decide_eq_false_2.
Qed.

Lemma vector_logged vectors row path vector : deletion_vector_at type_display vectors row path = Ok vector ->
  match log_vector (default [] vectors) row with
  | None => vector = None
  | Some v => exists storage, lv_kind v = storage_letter storage
      /\ vector = Some (DeltaDeletionVector storage (lv_path v) (lv_offset v) (lv_size v) (lv_cardinality v))
  end.
Proof.
  unfold deletion_vector_at, log_vector. destruct vectors as [dv|]; [|by intros [= <-]]. cbn [default from_option id].
  destruct (child_column dv _ "storageType") as [ck|] eqn:E1; [|done]. apply child_of in E1 as ->.
  destruct (string_at _ ck row _) as [kind|] eqn:E2; [|done]. apply string_at_cell in E2 as ->. destruct kind as [kind|]; [|by intros [= <-]]. cbn [mbind option_bind].
  destruct (match kind with "u" => _ | _ => _ end) as [storage|] eqn:Es; [|done].
  assert (Hk : kind = storage_letter storage).
  { clear -Es. do 2 (destruct kind as [|[[] [] [] [] [] [] [] []] kind]; try done); by injection Es as <-. }
  destruct (child_column dv _ "pathOrInlineDv") as [cp|] eqn:E1; [|done]. apply child_of in E1 as ->.
  destruct (string_at _ cp row _) as [pv|] eqn:E2; [|done]. apply string_at_cell in E2 as ->. destruct pv as [pv|]; [|done]. cbn [ok_or mbind option_bind].
  destruct (child_column dv _ "offset") as [co|] eqn:E1; [|done]. apply child_of in E1 as ->.
  destruct (i32_at _ co row _) as [off|] eqn:E2; [|done]. rewrite (int_at_cell co row _ off) by (left; exact E2).
  destruct (child_column dv _ "sizeInBytes") as [cs|] eqn:E1; [|done]. apply child_of in E1 as ->.
  destruct (i32_at _ cs row _) as [sz|] eqn:E3; [|done]. rewrite (int_at_cell cs row _ sz) by (left; exact E3). destruct sz as [sz|]; [|done]. cbn [ok_or mbind option_bind].
  destruct (child_column dv _ "cardinality") as [cc|] eqn:E1; [|done]. apply child_of in E1 as ->.
  destruct (i64_at _ cc row _) as [card|] eqn:E4; [|done]. rewrite (int_at_cell cc row _ card) by (right; exact E4). destruct card as [card|]; [|done]. cbn [ok_or mbind option_bind].
  intros [= <-]. by exists storage.
Qed.

Lemma entries_logged keys values path l acc m :
  try_fold (partition_entry type_display keys values path) acc l = Ok m ->
  m = (list_to_map (reverse (omap (fun i => key ← text_cell keys i; Some (key, text_cell values i)) l)) : gmap string (option string)) ∪ acc.
Proof.
  revert acc. induction l as [|i l IH]; intros acc; cbn [try_fold omap list_omap].
  { intros [= <-]. rewrite reverse_nil. cbn [list_to_map foldr]. by rewrite (left_id_L ∅ (∪)). }
  unfold partition_entry at 1. destruct (string_at _ keys i _) as [k|] eqn:Ek; [|done]. apply string_at_cell in Ek as ->. destruct k as [k|]; [|done]. cbn [ok_or mbind option_bind].
  destruct (string_at _ values i _) as [v|] eqn:Ev; [|done]. apply string_at_cell in Ev as ->. intros ->%IH.
  rewrite reverse_cons, list_to_map_app. cbn [list_to_map foldr]. by rewrite insert_union_singleton_l, (assoc_L (∪)).
Qed.

Lemma partition_logged batch values row path m :
  partition_values_column type_display batch = Ok values -> partition_values_at type_display values row path = Ok m ->
  m = list_to_map (reverse (map_entries (at_column (struct_children (at_column (batch_columns batch) "fileConstantValues")) "partitionValues") row)).
Proof.
  unfold partition_values_column. destruct (struct_column _ batch _) as [constants|] eqn:Ec; [|done]. apply struct_column_of in Ec as ->.
  destruct constants as [constants|]; [|intros [= <-]; by intros [= <-]]. cbn [default from_option id].
  destruct (child_column constants _ _) as [column|] eqn:E; [|done]. apply child_of in E as ->. case_bool_decide as Et.
  { intros [= <-] [= <-]. destruct column; try done. cbn in Et. cbn [map_entries]. by rewrite bool_decide_eq_true_2. }
  destruct column as [| | | | |t valid offsets keys logged|]; try done. intros [= <-]. cbn in Et. cbn [partition_values_at map_entries].
  rewrite (bool_decide_eq_false_2 _ Et). cbn [orb]. destruct (negb _); [by intros [= <-]|].
  destruct (offsets !! row), (offsets !! (row + 1)); try done. intros ->%entries_logged. by rewrite (right_id_L ∅ (∪)).
Qed.

(** An active file is as its newest row logs it. *)
Lemma row_logs_cells r e : row_logs type_display r e ->
  lr_size (log_row r) = Some (Z.of_N (size e)) /\ deletes_as_logged (log_row r) (deletes e)
  /\ forall key, partition_values e !! key = logged_value (log_row r) key.
Proof.
  intros (sizes & vectors & values & vector & Hs & Hv & Hp & _ & Hsize & Hvalues & Hvector & Hd). split_and!.
  - apply scan_column_of in Hs. unfold log_row. cbn [lr_size]. rewrite Hs. unfold size_at in Hsize. destruct (i64_at _ sizes r.2 _) as [n|] eqn:En; [|done].
    rewrite (int_at_cell sizes r.2 _ n) by (right; exact En). destruct n as [n|]; [|done]. cbn [ok_or] in Hsize. destruct (Z.leb_spec 0 n); [|done].
    injection Hsize as <-. f_equal. lia.
  - apply struct_column_of in Hv. apply vector_logged in Hvector. unfold deletes_as_logged, log_row. cbn [lr_vector]. rewrite Hv, Hd.
    destruct (log_vector _ _); [|by rewrite Hvector]. destruct Hvector as (storage & ? & ->). by exists storage.
  - intros key. by rewrite (partition_logged _ _ _ _ _ Hp Hvalues).
Qed.

Lemma first_unique {A} (P : A -> Prop) before x after before' x' after' :
  (before ++ x :: after = before' ++ x' :: after')%list -> P x -> P x' -> Forall (fun y => ~ P y) before -> Forall (fun y => ~ P y) before' -> x = x'.
Proof.
  revert before'. induction before as [|y before IH]; intros [|y' before'] Heq Hx Hx' Hb Hb'; cbn in Heq; injection Heq as -> Heq; try done.
  - by inversion Hb'.
  - by inversion Hb.
  - inversion Hb; inversion Hb'; subst. by eapply IH.
Qed.

Lemma active_as_logged s prune files batches q l :
  active_files type_display s prune = Ok files -> scan_metadata s prune = Ok batches -> logs_file (replayed_rows batches) q l ->
  exists e, e ∈ files /\ path e = q /\ lr_size l = Some (Z.of_N (size e)) /\ deletes_as_logged l (deletes e) /\ forall key, partition_values e !! key = logged_value l key.
Proof.
  intros Ha Hm (Hq & before & row & after & Hrows & <- & Hb). destruct (delta_active_files_exact type_display s prune files Ha) as (batches' & Hm' & _ & _ & Hnew & Hpaths).
  rewrite Hm in Hm'. injection Hm' as <-. assert (Hin : q ∈ map path files).
  { apply Hpaths. exists row. rewrite row_path_cell. split; [|done]. rewrite Hrows. apply elem_of_app. right. by left. }
  apply list_elem_of_fmap in Hin as (e & -> & He). exists e. split; [done|]. split; [done|]. apply Hnew in He as (before' & row' & after' & Hrows' & Hlog & Hb').
  assert (row = row') as ->; [|by apply row_logs_cells in Hlog].
  rewrite Hrows in Hrows'. eapply (first_unique (fun r => lr_path (log_row r) = Some (path e))); [exact Hrows'|done| |done|].
  - rewrite <- row_path_cell. by destruct Hlog as (? & ? & ? & ? & _ & _ & _ & ? & _).
  - eapply Forall_impl; [exact Hb'|]. intros r Hr E. apply Hr. by rewrite row_path_cell.
Qed.
End LogRows.

(** What delta_kernel promises of its data skipping: the scan of a predicate replays the
    same row for every file that has a row on which the predicate is TRUE. *)
Definition kernel_keeps_matches {FL : Floats} (s : Snapshot) (rows : string -> list (string -> option Value)) : Prop :=
  forall all p kept q l row, scan_metadata s None = Ok all -> scan_metadata s (Some p) = Ok kept -> logs_file (replayed_rows all) q l -> row ∈ rows q ->
    eval row scalar_value p = Some true -> logs_file (replayed_rows kept) q l.

(** The key of the log's partition map that a column-mapping mode selects. *)
Definition mode_key (mode : ColumnMappingMode) (field : StructField) : string :=
  match mode with ModeNone => spark_name field | ModeId | ModeName => default (spark_name field) (physical_name_of field) end.

Lemma logged_keys_spec {UC : UnicodeCase} debug_names schema log_partitions mode declared fields :
  checked_partition_fields debug_names schema log_partitions declared = Ok fields ->
  let names := ColumnNotes.partition_columns declared in
  map fst (logged_keys mode declared fields) = names
  /\ map (fun k => Some k.2) (logged_keys mode declared fields) = map (fun n => mode_key mode <$> declared_snapshot_field schema declared n) names.
Proof.
  unfold checked_partition_fields, logged_keys. case_bool_decide as E; [|done]. intros [= <-]. cbv zeta. revert log_partitions E.
  generalize (ColumnNotes.partition_columns declared) as names. induction names as [|n names IH]; intros log E; [done|]. cbn [map] in E. destruct log as [|p log]; [done|].
  cbn [map] in E. injection E as E1 E2. destruct (declared_snapshot_field schema declared n) as [field|] eqn:Ef; [|done]. destruct (IH log E2) as [IH1 IH2].
  cbn [map omap list_omap id mbind option_bind zip_with fst snd]. rewrite ?Ef. cbn. rewrite IH1, IH2. split; [done|]. do 2 f_equal. unfold mode_key.
  by destruct mode, (physical_name_of field).
Qed.

(** C13. No row of a Delta table's current version is lost in planning, and no deletion.
    A file of the version is one the kernel's unpruned scan rows log, its newest row
    first. When the table is pruned with a filter, every such file that holds a row the
    filter is TRUE on is planned, under the path and size of its log row, with exactly the
    deletion vector that row carries - kind, path, offset, size and cardinality - and each
    declared partition column with the value the row logs under the key the column-mapping
    mode selects, as hex for a binary column (for partition columns under distinct names
    and keys). The kernel's own data skipping is assumed to keep the row of every file
    that has a row on which the pushed predicate is TRUE. *)
Theorem delta_plan_keeps_matching_files {UC : UnicodeCase} {FL : Floats} {IN : Instants} {DS : DeltaScalars} {DL : DeltaScalarLaws DS} {HX : Hex}
    type_display debug_names error_text t declared filter planned all q l rows other :
  let s := dl_snapshot t in
  let partitions := ColumnNotes.partition_columns declared in
  let key_of name := mode_key (sn_column_mapping_mode s) <$> declared_snapshot_field (sn_schema s) declared name in
  delta_prune type_display debug_names error_text t declared filter = Ok planned ->
  scan_metadata s None = Ok all -> logs_file (replayed_rows all) q l ->
  kernel_keeps_matches s rows ->
  (forall f, filter = Some f -> exists row, row ∈ rows q /\ delta_row_fits (filter_columns (sn_schema s) declared) row
     /\ means (delta_operand (filter_columns (sn_schema s) declared) row other) value_compare f (Some true)) ->
  exists e', e' ∈ pf_files planned /\ path e' = q /\ lr_size l = Some (Z.of_N (size e')) /\ deletes_as_logged l (deletes e')
    /\ (NoDup partitions -> NoDup (map key_of partitions) -> forall name key, name ∈ partitions -> key_of name = Some key ->
          partition_values e' !! name = hexed (logical_schema declared) name <$> logged_value l key).
Proof.
  intros s partitions key_of. unfold delta_prune. destruct (declared_files _ _ _ declared filter) as [files|] eqn:Ed; [|done]. intros [= <-] Hall Hq Hkeeps Hrow. cbn [pf_files].
  unfold declared_files in Ed. destruct (ensure_binding_keys_follow_mode _ _); [|done]. destruct (checked_partition_fields _ _ _ _) as [fields|] eqn:Ef; [|done].
  destruct (ensure_no_relaxed_nullability _ _); [|done]. destruct (active_files _ _ _) as [kept|] eqn:Ea; [|done]. injection Ed as <-.
  assert (Hk : exists batches, scan_metadata s (delta_prune_predicate (sn_schema s) declared filter) = Ok batches /\ logs_file (replayed_rows batches) q l).
  { destruct (delta_active_files_exact _ _ _ _ Ea) as (batches & Hb & _). exists batches. split; [exact Hb|]. unfold delta_prune_predicate in Hb |- *.
    fold s in Hb. destruct filter as [f|]; cbn [mbind option_bind] in Hb; [|by rewrite Hall in Hb; injection Hb as <-].
    destruct (to_delta_predicate _ f) as [p|] eqn:Ep; [|by rewrite Hall in Hb; injection Hb as <-].
    destruct (Hrow f eq_refl) as (row & Hr & Hfits & Hm). apply (Hkeeps all p batches q l row); try done. unfold to_delta_predicate in Ep.
    pose proof (translate_node_sound _ row other Hfits (json_depth f) f (Some true) Hm) as Hs.
    destruct (translate_node_fuel _ (json_depth f) f) as [tr|]; [|done]. injection Ep as <-. by apply Hs. }
  destruct Hk as (batches & Hb & Hlog). destruct (active_as_logged _ _ _ _ _ _ _ Ea Hb Hlog) as (e & He & Hp & Hsz & Hdel & Hval).
  set (keys := logged_keys _ _ fields). destruct (hexed_files (map (rekeyed keys) kept) (logical_schema declared) (rekeyed keys e)) as (e' & He' & H1 & H2 & H3 & H4);
    [by apply list_elem_of_fmap_2|]. exists e'. split_and!; [done|by rewrite H1|by rewrite H2|by rewrite H3|].
  intros Hd1 Hd2 name key Hname Hkey. rewrite H4. cbn [rekeyed partition_values].
  destruct (logged_keys_spec debug_names _ _ (sn_column_mapping_mode s) declared fields Ef) as [Hfst Hsnd]. change (map fst keys = partitions) in Hfst. change (map (fun k => Some k.2) keys = map key_of partitions) in Hsnd.
  rewrite <- Hval, (take_logged_lookup keys _ name key); [done|by rewrite Hfst| |].
  - rewrite <- Hsnd in Hd2. apply (NoDup_fmap_1 Some). by rewrite <- list_fmap_compose.
  - apply list_elem_of_lookup in Hname as [i Hi]. rewrite <- Hfst in Hi. rewrite list_lookup_fmap in Hi. destruct (keys !! i) as [[n k]|] eqn:Ek; [|done]. cbn in Hi. injection Hi as ->.
    assert (Hki : map (fun k => Some k.2) keys !! i = Some (Some k)) by (by rewrite list_lookup_fmap, Ek).
    rewrite Hsnd, <- Hfst, !list_lookup_fmap, Ek in Hki. cbn in Hki. injection Hki as Hki. change (key_of name = Some k) in Hki. rewrite Hkey in Hki. injection Hki as ->.
    by eapply list_elem_of_lookup_2.
Qed.

(** ** Only a readable table opens *)

(** A Delta table opens only when every version and reader feature its protocol
    declares is implemented, an absent feature list at the version that requires one
    included, and only through the storage the CONNECTION selects: its own static
    credential, or, under vending, one vended for reading the table's own key and
    location - never the static one as a fallback. *)
Theorem delta_table_opens_gated {TF : TableFeatures} error_text temporary {S} (build : StorageBackend -> string -> N -> list string -> result UdfError S) read t storage creds allow opened :
  delta_open error_text temporary build read t storage creds allow = Ok opened ->
  let s := dl_snapshot opened in
  (MIN_VALID_RW_VERSION <= min_reader_version s <= MAX_VALID_READER_VERSION)%Z
  /\ (match reader_features s with
      | Some features => Forall (fun f => forall name, f <> FtOther name) features
      | None => min_reader_version s <> TABLE_FEATURES_MIN_READER_VERSION
      end)
  /\ ct_storage_location t = Some (dl_table_root opened)
  /\ (if c_use_vended_credentials creds then
        exists key vended, ct_vended_credential_key t = Some key /\ temporary key READ_OPERATION = Ok vended
          /\ resolve_uc_vended_storage vended (dl_table_root opened) allow (static_store_address creds) = Ok (dl_effective_storage opened)
      else dl_effective_storage opened = storage).
Proof.
  unfold delta_open, open_store, checked_storage_location. destruct (ct_storage_location t) as [root|]; [|done]. destruct (String.eqb (trim root) ""); [done|].
  destruct (effective_storage _ t storage creds allow root) as [effective|] eqn:Ee; [|done]. destruct (build _ _ _ _) as [store|]; [|done].
  unfold snapshot_open. destruct (read store root) as [s|]; [|done]. destruct (ensure_readable _ _) as [[]|[]] eqn:Er; [|done]. intros [= <-]. cbn [dl_snapshot dl_table_root dl_effective_storage].
  unfold ensure_readable in Er. destruct ((MIN_VALID_RW_VERSION <=? _)%Z) eqn:E1; cbn in Er; [|done]. destruct ((_ <=? MAX_VALID_READER_VERSION)%Z) eqn:E2; cbn in Er; [|done].
  split_and!; [by apply Z.leb_le|by apply Z.leb_le| |done|].
  - destruct (reader_features s) as [features|]; [|by destruct (Z.eqb_spec (min_reader_version s) TABLE_FEATURES_MIN_READER_VERSION)].
    destruct (map feature_name _) as [|r rs] eqn:Em; [|done]. apply map_eq_nil in Em. apply Forall_forall. intros f Hf name ->.
    apply list_elem_of_In in Hf. assert (Hx : In (FtOther name) (List.filter (fun f => negb (is_allow_listed f)) features)) by (by apply List.filter_In). by rewrite Em in Hx.
  - unfold effective_storage in Ee. destruct (c_use_vended_credentials creds); cbn [negb] in Ee; [|by injection Ee as <-].
    destruct (ct_vended_credential_key t) as [key|]; [|done]. cbn [mbind option_bind] in Ee. destruct (String.eqb (trim key) ""); [done|]. cbn [ok_or] in Ee.
    destruct (temporary key READ_OPERATION) as [vended|] eqn:Et; [|done]. by exists key, vended.
Qed.

(** A kernel that skips one of the two files for any predicate. *)
Definition order_snapshot : Snapshot :=
  MkSnapshot 3 (Some [FtDeletionVectors]) (map snd order_columns) [] ModeNone "s3://bucket/t/" (fun _ => Ok tt)
    (fun p => Ok [Ok (Ok (log_batch vector_column), match p with None => [] | Some _ => [false] end)]).
Definition order_table : DeltaTable := MkDeltaTable order_snapshot "s3://bucket/t/" (Adls "acct" (Sas "s")).
Definition order_declared : DeclaredSchema :=
  MkDeclaredSchema "T" [MkLogicalField None "price" "decimal128(10, 2)" true None None None; MkLogicalField None "note" "utf8" true None None None] [] [].
Definition order_rows (path : string) : list (string -> option Value) := if String.eqb path "a.parquet" then [order_row] else [].
Definition order_log : LogRow := MkLogRow (Some "a.parquet") (Some 20%Z) (Some (MkLogVector "u" "ab" (Some 1%Z) 40 6)) [].

Lemma order_kernel_keeps : kernel_keeps_matches (FL := coarse_floats) order_snapshot order_rows.
Proof.
  intros all p kept q l row [= <-] [= <-] (Hq & before & r & after & Hrows & <- & Hb) Hr _. unfold order_rows in Hr.
  destruct (String.eqb_spec q "a.parquet") as [->|]; [|by apply elem_of_nil in Hr].
  assert (r = (log_batch vector_column, 2)) as ->.
  { assert (Hin : r ∈ map (pair (log_batch vector_column)) [0; 1; 2]) by (change (map _ _) with (replayed_rows [Ok (Ok (log_batch vector_column), [])]); rewrite Hrows; apply elem_of_app; right; by left).
    clear -Hin Hq. cbn [map] in Hin. apply elem_of_cons in Hin as [->|[->|H%list_elem_of_singleton]%elem_of_cons]; [done|done|exact H]. }
  split; [done|]. exists [(log_batch vector_column, 1)], (log_batch vector_column, 2), []. split_and!; [reflexivity|done|]. by repeat constructor.
Qed.

Lemma delta_plan_keeps_matching_files_witness :
  exists planned, delta_prune (UC := ascii_case) (FL := coarse_floats) (DS := no_scalars) (HX := plain_hex) (fun _ => "") (fun _ => "") (fun _ => "")
      order_table order_declared (Some order_filter) = Ok planned
    /\ List.length (pf_files planned) = 1
    /\ exists e', e' ∈ pf_files planned /\ path e' = "a.parquet" /\ deletes_as_logged order_log (deletes e').
Proof.
  eexists. split; [vm_compute; reflexivity|]. split; [reflexivity|].
  destruct (delta_plan_keeps_matching_files (UC := ascii_case) (FL := coarse_floats) (DL := no_scalars_laws) (HX := plain_hex) (fun _ => "") (fun _ => "") (fun _ => "")
    order_table order_declared (Some order_filter) _ [Ok (Ok (log_batch vector_column), [])] "a.parquet" order_log order_rows (fun _ => None) eq_refl eq_refl)
    as (e' & H1 & H2 & _ & H3 & _).
  - split; [done|]. exists [(log_batch vector_column, 0); (log_batch vector_column, 1)], (log_batch vector_column, 2), []. split_and!; [reflexivity|reflexivity|]. by repeat constructor.
  - apply order_kernel_keeps.
  - intros f [= <-]. exists order_row. split_and!; [by left| |].
    + repeat constructor; intros prim x [= <-]; [|done]. intros [= <-]. by do 2 eexists.
    + refine (proj2 (means_and _ _ order_filter _ _ eq_refl eq_refl) _). exists [Some true; Some true]. split; [|reflexivity].
      constructor; [eapply means_between; [reflexivity..|vm_compute; reflexivity]|]. constructor; [|constructor]. by apply means_unfold.
  - by exists e'.
Defined.

Definition unity_table : CatalogTable := MkCatalogTable (MkIdent ["cat"; "db"] "t") TypeTable (Some "s3://bucket/t/") FmtDelta (Some "key") [] [] None ∅.

Lemma delta_table_opens_gated_witness : exists opened,
  delta_open (TF := sample_features) (fun _ => "") (fun _ _ => Err (User "unreachable")) (fun _ _ _ _ => Ok tt) (fun _ _ => Ok two_batches)
    unity_table (Adls "acct" (Sas "s")) (parse_creds (json_object [])) true = Ok opened
  /\ dl_effective_storage opened = Adls "acct" (Sas "s").
Proof.
  eexists. split; [vm_compute; reflexivity|].
  exact (proj2 (proj2 (proj2 (delta_table_opens_gated (TF := sample_features) (fun _ => "") (fun _ _ => Err (User "unreachable")) (fun _ _ _ _ => Ok tt) (fun _ _ => Ok two_batches)
    unity_table (Adls "acct" (Sas "s")) (parse_creds (json_object [])) true _ eq_refl)))).
Defined.
