(* ===== verification/CatalogHttp.v ===== *)
(** crates/lakehouse-catalog/src/catalog_http.rs: the one HTTP path of every catalog
    request - its attempts, their waits and the window they stay within, and the text of
    what failed. *)

From stdpp Require Import base list strings numbers gmap.
From Stdlib Require Import Ascii String ZArith NArith Lia ZifyBool.
From S2P Require Import Prelude Text Json Redaction.

Local Open Scope string_scope.

(** ** Durations

    A [Duration] counts nanoseconds up to [u64::MAX] seconds and 999,999,999 of them. *)
Definition NANOS_PER_SEC : N := 1000000000.
Definition U64_MAX : N := 18446744073709551615.
Definition U32_MAX : N := 4294967295.
Definition DURATION_MAX : N := U64_MAX * NANOS_PER_SEC + 999999999.
Definition from_secs (s : N) : N := s * NANOS_PER_SEC.
Definition from_millis (ms : N) : N := ms * 1000000.
Definition saturating_add_d (a b : N) : N := N.min (a + b) DURATION_MAX.
Definition saturating_mul_d (a : N) (k : N) : N := N.min (a * k) DURATION_MAX.

Record RetryPolicy := MkPolicy {
  attempts : N;
  connect_timeout : N;
  read_timeout : N;
  retry_window : N;
  backoff_base : N;
}.

Definition CATALOG_POLICY : RetryPolicy := MkPolicy 5 (from_secs 10) (from_secs 10) (from_secs 30) (from_millis 250).

Definition MAX_QUOTED_BODY_BYTES : nat := Z.to_nat 4096.

(** ** Outcomes *)

Record CatalogAnswer := MkAnswer { status : N; retry_after : option string; body : string; cut : bool }.

(** A transport error as its causes show it: the library's timeout flag, the chain of
    typed causes, and the text of the chain. *)
Inductive IoKind := ConnectionRefused | ConnectionReset | ConnectionAborted | BrokenPipe | UnexpectedEof | OtherKind.
Inductive Cause := RustlsError | IoError (kind : IoKind) | IncompleteMessage | OtherCause.
Record TransportError := MkTransport { is_timeout : bool; causes : list Cause; chain_text : string }.
Record CatalogHttpError := MkHttpError { error : TransportError; broken_status : option N }.

Definition is_transient_status (status : N) : bool := existsb (N.eqb status) [408; 429; 502; 503; 504]%N.

Definition cuts_connection (c : Cause) : bool :=
  match c with IoError OtherKind => false | IoError _ | IncompleteMessage => true | _ => false end.

(** The loop over the causes: a TLS error decides at once. *)
Fixpoint cause_chain_from (cut_connection : bool) (l : list Cause) : bool :=
  match l with
  | [] => cut_connection
  | RustlsError :: _ => false
  | c :: l => cause_chain_from (cut_connection || cuts_connection c) l
  end.
Definition is_transient_cause_chain (e : TransportError) : bool := cause_chain_from false (causes e).

Definition is_transient_transport_failure (e : TransportError) : bool := is_timeout e || is_transient_cause_chain e.

Definition is_transient (e : CatalogHttpError) : bool :=
  match broken_status e with None => is_transient_transport_failure (error e) | Some _ => false end.

(** ** Waits *)

(** [aws_smithy_types]'s reading of an HTTP date, as nanoseconds of [SystemTime]. *)
Class HttpDates := { http_date : string -> option N }.

Definition retry_after_wait {HD : HttpDates} (value : string) (now : N) : option N :=
  let value := trim value in
  if negb (String.eqb value "") && string_forallb is_ascii_digit value then
    Some (match parse_unsigned U64_MAX value with Some secs => from_secs secs | None => DURATION_MAX end)
  else
    stated ← http_date value; Some (stated - now)%N.

Definition backoff_wait (base retry jitter : N) : N :=
  let ceiling := saturating_mul_d base (N.min (2 ^ (retry - 1)) U32_MAX) in
  let floor := (ceiling / 2)%N in
  let spread := ((ceiling - floor) * jitter / U32_MAX)%N in
  saturating_add_d floor (N.min spread U64_MAX).

Definition chosen_wait (requested : option N) (backoff time_left attempt_room : N) : option N :=
  let wait := default backoff requested in
  if ((wait <=? time_left) && (attempt_room <=? time_left - wait))%N then Some wait else None.

(** ** Sending *)

Notation Outcome := (result CatalogHttpError CatalogAnswer).

(** What one request meets: the outcome and end of an attempt started at a time, the
    wall clock and the jitter read after it, how late a sleep wakes, and whether the
    request can be cloned. *)
Record World := MkWorld {
  exchange : N -> N -> Outcome * N;
  wall_clock : N -> N;
  random_jitter : N -> N;
  wakes_late : N -> N;
  try_clone : bool;
}.

Section Send.
Context {HD : HttpDates} (policy : RetryPolicy) (w : World).

Definition stated_wait (retry : N) (answer : CatalogAnswer) : option N := value ← retry_after answer; retry_after_wait value (wall_clock w retry).

Definition wait_before_retry (retry : N) (outcome : Outcome) (window_end now : N) : option N :=
  let decide_wait requested := chosen_wait requested (backoff_wait (backoff_base policy) retry (random_jitter w retry)) (window_end - now) (read_timeout policy) in
  match outcome with
  | Ok answer => if is_transient_status (status answer) then decide_wait (stated_wait retry answer) else None
  | Err error => if is_transient error then decide_wait None else None
  end.

(** One attempt as it went: its number, start and outcome. *)
Record Attempted := MkAttempted { number : N; started : N; outcome : Outcome; ended : N }.

(** [fuel] counts the attempts left; it never runs out before the policy's do. *)
Fixpoint send_from (fuel : nat) (window_end attempts_made now : N) : list Attempted :=
  match fuel with
  | O => []
  | S fuel =>
      let attempts_made := (attempts_made + 1)%N in
      let '(outcome, finished) := exchange w attempts_made now in
      let made := MkAttempted attempts_made now outcome finished in
      if ((attempts_made <? attempts policy) && try_clone w)%N then
        match wait_before_retry attempts_made outcome window_end finished with
        | None => [made]
        | Some wait => made :: send_from fuel window_end attempts_made (finished + wait + wakes_late w attempts_made)%N
        end
      else [made]
  end.

(** The attempts of a request sent at [now], and the outcome of the last. *)
Definition send_attempts (now : N) : list Attempted := send_from (N.to_nat (attempts policy)) (now + retry_window policy)%N 0 now.
Definition send_capped (now : N) : option Outcome := outcome <$> last (send_attempts now).
End Send.

(** ** The text of a failure *)

Definition is_continuation (c : ascii) : bool := (128 <=? code c)%N && (code c <? 192)%N.

(** [str::is_char_boundary] and [str::floor_char_boundary]. *)
Definition is_char_boundary (s : string) (i : nat) : bool :=
  match String.get i s with Some c => negb (is_continuation c) | None => (i =? String.length s)%nat end.
Fixpoint floor_from (s : string) (i : nat) : nat := if is_char_boundary s i then i else match i with O => O | S i => floor_from s i end.
Definition floor_char_boundary (s : string) (index : nat) : nat := if (String.length s <=? index)%nat then String.length s else floor_from s index.

(** [String::from_utf8_lossy] of a text that is its own. *)
Section Text.
Context (from_utf8_lossy : string -> string).

Definition quote_body (body : string) (redact : string -> string) : string :=
  let redacted := redact (from_utf8_lossy body) in
  if (String.length redacted <=? MAX_QUOTED_BODY_BYTES)%nat then redacted
  else String.substring 0 (floor_char_boundary redacted MAX_QUOTED_BODY_BYTES) redacted ++ "... (truncated to " ++ show_nat MAX_QUOTED_BODY_BYTES ++ " bytes)".

Definition render (e : CatalogHttpError) (redact : string -> string) : string :=
  let causes := redact (chain_text (error e)) in
  match broken_status e with Some status => "the catalog's HTTP " ++ show_N status ++ " answer broke off: " ++ causes | None => causes end.

Record CatalogRequestError := MkRequestError { request_status : option N; message : string }.

Definition without_status (message : string) : CatalogRequestError := MkRequestError None message.
Definition is_not_found (e : CatalogRequestError) : bool := bool_decide (request_status e = Some 404%N).
Definition is_bad_request (e : CatalogRequestError) : bool := bool_decide (request_status e = Some 400%N).
Definition named (e : CatalogRequestError) (identifier : string) : CatalogRequestError :=
  MkRequestError (request_status e) ("failed to load table '" ++ identifier ++ "': " ++ message e).

Definition is_success (status : N) : bool := (200 <=? status)%N && (status <? 300)%N.

(** [parse] is the deserializer of the answer's type. *)
Definition send_json {T} (parse : string -> result string T) (sent : Outcome) (what : string) (redact : string -> string) : result CatalogRequestError T :=
  match sent with
  | Err error => Err (MkRequestError (broken_status error) (what ++ " failed: " ++ render error redact))
  | Ok answer =>
      if is_success (status answer) then
        match parse (body answer) with
        | Ok t => Ok t
        | Err e => Err (without_status (what ++ " returned an unparseable response: " ++ redact e))
        end
      else Err (MkRequestError (Some (status answer)) (what ++ " failed with HTTP " ++ show_N (status answer) ++ ": " ++ quote_body (body answer) redact))
  end.
End Text.

(** [read_body]: the chunks of an answer, at most [max_bytes] of them. *)
Fixpoint read_body (max_bytes : nat) (body : string) (chunks : list string) : string * bool :=
  match chunks with
  | [] => (body, false)
  | chunk :: chunks =>
      let room := (max_bytes - String.length body)%nat in
      if (room <? String.length chunk)%nat then (body ++ String.substring 0 room chunk, true)
      else read_body max_bytes (body ++ chunk) chunks
  end.

(** ** Retries stay within their window *)

Lemma backoff_wait_range base retry jitter : (jitter <= U32_MAX)%N ->
  let ceiling := saturating_mul_d base (N.min (2 ^ (retry - 1)) U32_MAX) in
  (ceiling / 2 <= backoff_wait base retry jitter <= ceiling)%N.
Proof.
  intros Hj ceiling. unfold backoff_wait. fold ceiling. assert (Hc : (ceiling <= DURATION_MAX)%N) by apply N.le_min_r.
  assert (Hs : ((ceiling - ceiling / 2) * jitter / U32_MAX <= ceiling - ceiling / 2)%N).
  { rewrite <- (N.div_mul (ceiling - ceiling / 2) U32_MAX) at 2 by done. apply N.Div0.div_le_mono, N.mul_le_mono_l. done. }
  assert (Hh : (ceiling / 2 <= ceiling)%N) by (apply N.Div0.div_le_upper_bound; lia). unfold saturating_add_d. generalize dependent ((ceiling - ceiling / 2) * jitter / U32_MAX)%N. generalize dependent (ceiling / 2)%N. intros. lia.
Qed.

Section Bounded.
Context {HD : HttpDates} (policy : RetryPolicy) (w : World).

Definition transient_outcome (o : Outcome) : bool := match o with Ok a => is_transient_status (status a) | Err e => is_transient e end.

(** A retry after an attempt: the wait it took. *)
Definition retried_after (made next : Attempted) : Prop :=
  transient_outcome (outcome made) = true /\ (number made < attempts policy)%N /\ number next = (number made + 1)%N
  /\ exists wait, started next = (ended made + wait + wakes_late w (number made))%N
     /\ wait = default (backoff_wait (backoff_base policy) (number made) (random_jitter w (number made)))
                 (match outcome made with Ok a => stated_wait w (number made) a | Err _ => None end).

(** Why no attempt followed. *)
Definition ended_here (window_end : N) (made : Attempted) : Prop :=
  transient_outcome (outcome made) = false \/ number made = attempts policy \/ try_clone w = false
  \/ exists wait, (window_end < ended made + wait + read_timeout policy)%N
      /\ wait = default (backoff_wait (backoff_base policy) (number made) (random_jitter w (number made)))
                  (match outcome made with Ok a => stated_wait w (number made) a | Err _ => None end).

Inductive chain (window_end : N) : list Attempted -> Prop :=
| chain_last made : ended_here window_end made -> chain window_end [made]
| chain_next made next rest : retried_after made next ->
    (started next + read_timeout policy <= window_end + wakes_late w (number made))%N -> chain window_end (next :: rest) -> chain window_end (made :: next :: rest).

Context (room : (0 < read_timeout policy)%N).

Lemma chosen_wait_some requested backoff window_end now wait :
  chosen_wait requested backoff (window_end - now) (read_timeout policy) = Some wait -> wait = default backoff requested /\ (now + wait + read_timeout policy <= window_end)%N.
Proof. unfold chosen_wait. set (d := default backoff requested). destruct (_ && _)%N eqn:E; [|done]. intros [= <-]. split; [done|lia]. Qed.

Lemma chosen_wait_none requested backoff window_end now :
  chosen_wait requested backoff (window_end - now) (read_timeout policy) = None -> (window_end < now + default backoff requested + read_timeout policy)%N.
Proof. unfold chosen_wait. set (d := default backoff requested). destruct (_ && _)%N eqn:E; [done|]. lia. Qed.

Lemma wait_chosen n o window_end now wait : wait_before_retry policy w n o window_end now = Some wait ->
  transient_outcome o = true /\ (now + wait + read_timeout policy <= window_end)%N
  /\ wait = default (backoff_wait (backoff_base policy) n (random_jitter w n)) (match o with Ok a => stated_wait w n a | Err _ => None end).
Proof.
  unfold wait_before_retry, transient_outcome. destruct o as [a|e]; [destruct (is_transient_status _)|destruct (is_transient _)]; try done;
    intros [H1 H2]%chosen_wait_some; by split_and!.
Qed.

Lemma no_wait n o window_end now : wait_before_retry policy w n o window_end now = None ->
  transient_outcome o = false
  \/ exists wait, (window_end < now + wait + read_timeout policy)%N
      /\ wait = default (backoff_wait (backoff_base policy) n (random_jitter w n)) (match o with Ok a => stated_wait w n a | Err _ => None end).
Proof.
  unfold wait_before_retry, transient_outcome. destruct o as [a|e]; [destruct (is_transient_status _)|destruct (is_transient _)]; try (by left);
    intros H%chosen_wait_none; right; by eexists.
Qed.

Lemma send_from_chain fuel : forall window_end made now, (N.to_nat (attempts policy) = N.to_nat made + fuel)%nat -> (0 < fuel)%nat ->
  exists first rest, send_from policy w fuel window_end made now = first :: rest /\ number first = (made + 1)%N /\ started first = now
    /\ chain window_end (first :: rest) /\ (List.length (first :: rest) <= fuel)%nat.
Proof.
  induction fuel as [|fuel IH]; intros window_end made now Hf Hpos; [lia|]. cbn [send_from]. destruct (exchange w (made + 1) now) as [o finished] eqn:Ex.
  destruct ((made + 1 <? attempts policy)%N && try_clone w) eqn:Eg.
  - destruct (wait_before_retry policy w (made + 1) o window_end finished) as [wait|] eqn:Ew.
    + apply wait_chosen in Ew as (Ht & Hroom & Hw). destruct (IH window_end (made + 1)%N (finished + wait + wakes_late w (made + 1))%N) as (next & rest & Hs & Hn & Hst & Hc & Hl); [lia..|].
      rewrite Hs. eexists _, _. split; [done|]. cbn [number started]. split_and!; [done|done| |cbn in Hl |- *; lia]. constructor; [|cbn [number]; lia|done].
      split_and!; cbn [outcome number]; [done|lia|done|]. exists wait. by rewrite Hst.
    + apply no_wait in Ew as Hw. eexists _, _. split; [done|]. split_and!; [done|done| |cbn; lia]. constructor. unfold ended_here. cbn [outcome number ended]. tauto.
  - eexists _, _. split; [done|]. split_and!; [done|done| |cbn; lia]. constructor. unfold ended_here. cbn [outcome number]. apply andb_false_iff in Eg as [Eg|Eg]; [|tauto]. right. left. lia.
Qed.
End Bounded.

(** C36. A catalog request always comes to an outcome, that of its last attempt, after at
    most the policy's number of attempts. Every attempt but the last met a transient
    failure and is followed, after the wait its answer states or the backoff where it
    states none, by an attempt whose answer is due within the window - later by no more
    than its sleep woke late; and no attempt follows a failure that is not transient, the
    last attempt, a request that cannot be sent again, or a wait that would leave the
    next attempt too little of the window. *)
Theorem catalog_retries_bounded {HD : HttpDates} policy w now :
  (0 < read_timeout policy)%N -> (0 < attempts policy)%N ->
  let made := send_attempts policy w now in
  let window_end := (now + retry_window policy)%N in
  chain policy w window_end made
  /\ (exists first, head made = Some first /\ started first = now /\ number first = 1%N)
  /\ (N.of_nat (List.length made) <= attempts policy)%N
  /\ (exists final, last made = Some final /\ send_capped policy w now = Some (outcome final) /\ ended_here policy w window_end final).
Proof.
  intros Hr Ha made window_end. destruct (send_from_chain policy w Hr (N.to_nat (attempts policy)) window_end 0 now) as (first & rest & Hs & Hn & Hst & Hc & Hl); [lia..|].
  unfold send_capped. fold made. change (send_from _ _ _ _ _ _) with made in Hs. rewrite Hs. split_and!; [done|by exists first|lia|].
  assert (Hlast : exists final, last (first :: rest) = Some final /\ ended_here policy w window_end final).
  { clear -Hc. revert first Hc. induction rest as [|next rest IH]; intros first Hc; inversion Hc; subst; [by exists first|]. rewrite last_cons_cons. by apply IH. }
  destruct Hlast as (final & Hf & He). exists final. rewrite Hf. done.
Qed.

(** A catalog that answers 503 twice, the first time asking for two seconds. *)
Definition busy_world : World :=
  MkWorld (fun n t => (Ok (if (n <? 3)%N then MkAnswer 503 (if (n =? 1)%N then Some "2" else None) "busy" false else MkAnswer 200 None "{}" false), (t + from_millis 100)%N))
    (fun _ => 0%N) (fun _ => 0%N) (fun _ => 0%N) true.

Lemma catalog_retries_bounded_witness :
  map started (send_attempts (HD := {| http_date _ := None |}) CATALOG_POLICY busy_world 0) = map from_millis [0; 2100; 2450]%N
  /\ (N.of_nat (List.length (send_attempts (HD := {| http_date _ := None |}) CATALOG_POLICY busy_world 0)) <= 5)%N.
Proof.
  split; [vm_compute; reflexivity|].
  exact (proj1 (proj2 (proj2 (catalog_retries_bounded (HD := {| http_date _ := None |}) CATALOG_POLICY busy_world 0 eq_refl eq_refl)))).
Defined.

(** ** A quoted answer *)

Lemma substring_split n s : (n <= String.length s)%nat -> exists rest, s = String.substring 0 n s ++ rest /\ String.length (String.substring 0 n s) = n /\ String.get 0 rest = String.get n s.
Proof.
  revert s. induction n as [|n IH]; intros s Hn; [by exists s; destruct s|]. destruct s as [|c s]; cbn [String.length] in Hn; [lia|].
  destruct (IH s) as (rest & Hs & Hl & Hg); [lia|]. exists rest. cbn [String.substring String.length String.append String.get]. rewrite Hl. split_and!; [rewrite string_app_cons; f_equal; exact Hs|done|done].
Qed.

Lemma prefix_weaken q a b : String.prefix q a = true -> String.prefix q (a ++ b) = true.
Proof.
  revert a. induction q as [|c q IH]; intros a; [by destruct (a ++ b)|]. destruct a as [|d a]; [done|].
  change (String d a ++ b) with (String d (a ++ b)). rewrite !prefix_cons. intros [-> H]%andb_prop. by apply IH.
Qed.

Lemma contains_weaken q a b : contains q a = true -> contains q (a ++ b) = true.
Proof.
  induction a as [|c a IH].
  - destruct q; [by destruct b|done].
  - change (String c a ++ b) with (String c (a ++ b)). rewrite !contains_cons. intros [H|H]%orb_prop.
    + pose proof (prefix_weaken q (String c a) b H) as Hp. rewrite string_app_cons in Hp. by rewrite Hp.
    + by rewrite IH, orb_true_r.
Qed.

Lemma floor_from_spec s i : (floor_from s i <= i)%nat /\ (is_char_boundary s (floor_from s i) = true \/ floor_from s i = 0).
Proof.
  induction i as [|i [IH1 IH2]]; cbn [floor_from]; [destruct (is_char_boundary s 0); auto|].
  destruct (is_char_boundary s (S i)) eqn:E; [by split; [|left]|]. split; [lia|done].
Qed.

(** What an error quotes of a catalog's answer is a whole-character prefix of the
    redacted body, of at most 4096 bytes: what redaction keeps out of the body stays out
    of the quote, a secret that the cut falls into included. *)
Theorem quoted_body_bounded from_utf8_lossy body redact :
  exists shown rest, redact (from_utf8_lossy body) = shown ++ rest
    /\ (quote_body from_utf8_lossy body redact = shown \/ quote_body from_utf8_lossy body redact = shown ++ "... (truncated to 4096 bytes)")
    /\ (String.length shown <= 4096)%nat
    /\ (shown = "" \/ rest = "" \/ exists c, String.get 0 rest = Some c /\ is_continuation c = false)
    /\ (forall q, contains q (redact (from_utf8_lossy body)) = false -> contains q shown = false).
Proof.
  unfold quote_body. set (text := redact (from_utf8_lossy body)).
  assert (Hc : forall shown rest, text = shown ++ rest -> forall q, contains q text = false -> contains q shown = false).
  { intros shown rest -> q Hq. apply not_true_is_false. intros H. by rewrite (contains_weaken q shown rest H) in Hq. }
  destruct (Nat.leb_spec (String.length text) MAX_QUOTED_BODY_BYTES) as [Hl|Hl].
  { exists text, "". rewrite string_app_nil_r. split_and!; [done|by left|by unfold MAX_QUOTED_BODY_BYTES in Hl; lia|by right; left|]. intros q H. done. }
  unfold floor_char_boundary. rewrite (proj2 (Nat.leb_gt _ _) Hl). destruct (floor_from_spec text MAX_QUOTED_BODY_BYTES) as [Hle Hb].
  destruct (substring_split (floor_from text MAX_QUOTED_BODY_BYTES) text) as (rest & Hs & Hlen & Hg); [lia|].
  exists (String.substring 0 (floor_from text MAX_QUOTED_BODY_BYTES) text), rest. split_and!; [done|by right| | |by eapply Hc].
  - rewrite Hlen. unfold MAX_QUOTED_BODY_BYTES in *. lia.
  - destruct Hb as [Hb|Hz]; [|left; destruct (String.substring _ _ _); [done|]; cbn in Hlen; lia]. unfold is_char_boundary in Hb. rewrite <- Hg in Hb. right.
    destruct (String.get 0 rest) as [c|] eqn:Ec; [right; exists c; by apply negb_true_iff in Hb|left; by destruct rest].
Qed.
