(* ===== verification/CatalogSession.v ===== *)
(** The sessions of lakehouse-catalog: auth.rs and unity/auth.rs (how a request is
    authenticated), iceberg_io.rs (the authenticated requests and their redaction),
    session.rs (the Iceberg REST prefix and table load), namespace.rs (the paged listing
    of a namespace tree) and the Iceberg REST client of client.rs. *)

From stdpp Require Import base list strings numbers gmap.
From Stdlib Require Import Ascii String ZArith NArith Lia.
From S2P Require Import Prelude Text Json Redaction Storage SparkTypes TypeMapping Connection TableIdentity IcebergTable Declaration Listing CatalogHttp.

Local Open Scope string_scope.

(** ** Authentication *)

Definition MISSING_SIGNING_REGION : string := "SigV4 catalog signing requires a region: neither the stated region nor the catalog URI supplies one".

Definition required_signing_region {UR : Urls} (creds : ConnectionCreds) (catalog_uri : string) : result UdfError string :=
  ok_or (sigv4_signing_region creds catalog_uri) (User MISSING_SIGNING_REGION).

Inductive CatalogAuth := Sigv4 (region : string) | Bearer (token : string) | NoAuth.

Definition flatten_opts (l : list (option string)) : list string := omap id l.

Definition redact_catalog_auth_error (msg : string) (creds : ConnectionCreds) (bearer : option string) : string :=
  redact_error_text msg (flatten_opts [bearer; c_token creds; c_client_secret creds; c_client_id creds; c_oauth2_server_uri creds; c_scope creds]).

Definition redact_catalog_text (msg : string) (auth : CatalogAuth) (creds : ConnectionCreds) : string :=
  redact_catalog_auth_error msg creds (match auth with Bearer token => Some token | Sigv4 _ | NoAuth => None end).

Definition OAUTH2_GRANT_TYPE : string := "client_credentials".
Definition OAUTH2_DEFAULT_TOKEN_PATH : string := "/v1/oauth/tokens".

(** A request as it leaves the builder. *)
Record Request := MkRequest {
  method : string;
  url : string;
  headers : list (string * string);
  form : list (string * string);
  basic_auth : option (string * string);
  bearer_auth : option string;
  signed_for : option string;
}.

(** The transport: the builder's refusal of a request, the signer's, and what sending one
    comes to ([CatalogHttp::send] and its retries). *)
Class Transport := {
  build_request : Request -> result string ();
  sign_request : Request -> result string ();
  send : Request -> result CatalogHttpError CatalogAnswer;
  utf8_lossy : string -> string;
}.

Section Session.
Context {UR : Urls} {TR : Transport} (parse_json : string -> result string Json) (print : Json -> string).

Definition token_form (creds : ConnectionCreds) (client_id client_secret : string) : list (string * string) :=
  ([("grant_type", OAUTH2_GRANT_TYPE); ("client_id", client_id); ("client_secret", client_secret)]
   ++ match non_empty (c_scope creds) with Some scope => [("scope", scope)] | None => [] end)%list.

Definition oauth2_client_credentials_grant (catalog_uri : string) (creds : ConnectionCreds) : result UdfError string :=
  match supplied_catalog_auth creds with
  | ClientCredentials client_id client_secret =>
      let token_url := match non_empty (c_oauth2_server_uri creds) with Some uri => uri | None => trim_end_matches "/" catalog_uri ++ OAUTH2_DEFAULT_TOKEN_PATH end in
      let redact_secret msg := redact_error_text msg [client_secret] in
      let request := MkRequest "POST" token_url [("accept", "application/json")] (token_form creds client_id client_secret) None None None in
      match build_request request with
      | Err e => Err (User ("failed to build OAuth2 token request: " ++ redact_secret e))
      | Ok _ =>
          match send_json utf8_lossy parse_json (send request) "OAuth2 token request" redact_secret with
          | Err e => Err (User (message e))
          | Ok body =>
              ok_or (non_empty (get_str body "access_token")) (User ("OAuth2 token response missing access_token: " ++ redact_secret (print body)))
          end
      end
  | _ => Err (User "OAuth2 grant requires a complete client_id/client_secret pair but none was resolved")
  end.

Definition resolve_catalog_auth (catalog_uri : string) (creds : ConnectionCreds) : result UdfError CatalogAuth :=
  if c_use_sigv4 creds then let? region := required_signing_region creds catalog_uri in Ok (Sigv4 region)
  else
    match supplied_catalog_auth creds with
    | Unauthenticated => Ok NoAuth
    | StaticToken token => Ok (Bearer token)
    | ClientCredentials _ _ => let? token := oauth2_client_credentials_grant catalog_uri creds in Ok (Bearer token)
    end.

(** ** Authenticated requests *)

Definition build_signed_request (request : Request) (auth : CatalogAuth) (creds : ConnectionCreds) : result UdfError Request :=
  let redact msg := redact_catalog_text msg auth creds in
  let authed := match auth with
                | Bearer token => MkRequest (method request) (url request) (headers request) (form request) (basic_auth request) (Some token) (signed_for request)
                | _ => request
                end in
  match build_request authed with
  | Err e => Err (User ("failed to build catalog request: " ++ redact e))
  | Ok _ =>
      match auth with
      | Sigv4 region =>
          let signed := MkRequest (method authed) (url authed) (headers authed) (form authed) (basic_auth authed) (bearer_auth authed) (Some region) in
          match sign_request signed with Err e => Err (User ("failed to sign catalog request: " ++ redact e)) | Ok _ => Ok signed end
      | _ => Ok authed
      end
  end.

Definition get_headers (send_access_delegation : bool) : list (string * string) :=
  ("accept", "application/json") :: (if send_access_delegation then [("X-Iceberg-Access-Delegation", "vended-credentials")] else []).

(** [UdfError]'s [Display]. *)
Context (error_text : UdfError -> string).

Definition authed_get_json {T} (parse : string -> result string T) (url : string) (auth : CatalogAuth) (send_access_delegation : bool) (creds : ConnectionCreds)
  : result CatalogRequestError T :=
  match build_signed_request (MkRequest "GET" url (get_headers send_access_delegation) [] None None None) auth creds with
  | Err e => Err (without_status (error_text e))
  | Ok request => send_json utf8_lossy parse (send request) "catalog request" (fun msg => redact_catalog_text msg auth creds)
  end.

(** ** The prefix *)

Definition catalog_url (catalog_uri prefix path : string) : string :=
  let base := trim_end_matches "/" catalog_uri in
  if String.eqb prefix "" then base ++ "/v1/" ++ path else base ++ "/v1/" ++ prefix ++ "/" ++ path.

Definition build_load_table_url (catalog_uri prefix ns table_name : string) : string :=
  catalog_url catalog_uri prefix ("namespaces/" ++ ns ++ "/tables/" ++ table_name ++ "?snapshots=refs").

Definition glue_catalog_prefix (warehouse : string) : string := "catalogs/" ++ warehouse.

Definition prefix_in (config : Json) (map : string) : option string := m ← get config map; non_empty (get_str m "prefix").

Definition prefix_from_config (config : Json) : string :=
  match prefix_in config "overrides" with Some p => p | None => default "" (prefix_in config "defaults") end.

(** [form_urlencoded::byte_serialize]. *)
Context (byte_serialize : string -> string).

Definition resolve_load_table_prefix (catalog_uri warehouse : string) (auth : CatalogAuth) (creds : ConnectionCreds) : result UdfError string :=
  match auth with
  | Sigv4 _ => Ok (glue_catalog_prefix warehouse)
  | _ =>
      match authed_get_json parse_json (catalog_url catalog_uri "" ("config?warehouse=" ++ byte_serialize warehouse)) auth false creds with
      | Ok config => Ok (prefix_from_config config)
      | Err e => Err (User ("failed to read the catalog config for warehouse '" ++ warehouse ++ "': " ++ redact_credentials (message e)))
      end
  end.

Record CatalogSession := MkSession { s_catalog_uri : string; s_auth : CatalogAuth; s_prefix : string }.

Definition session_resolve (catalog_uri warehouse : string) (creds : ConnectionCreds) : result UdfError CatalogSession :=
  let? auth := resolve_catalog_auth catalog_uri creds in
  let? prefix := resolve_load_table_prefix catalog_uri warehouse auth creds in
  Ok (MkSession catalog_uri auth prefix).

(** ** Loading a table *)

(** A namespace is a non-empty list; [NamespaceIdent::to_url_string] joins it by the unit
    separator. *)
Definition to_url_string (ns : list string) : string := join (String (ascii_of_N 31) "") ns.
Context (parse_table : string -> result string RestTable).

Definition load_table (s : CatalogSession) (ns : list string) (table_name : string) (send_access_delegation : bool) (creds : ConnectionCreds) : result CatalogRequestError RestTable :=
  let url := build_load_table_url (s_catalog_uri s) (s_prefix s) (to_url_string ns) table_name in
  match authed_get_json parse_table url (s_auth s) send_access_delegation creds with
  | Ok t => Ok t
  | Err e => Err (named e (join "." ns ++ "." ++ table_name))
  end.

Definition load_table_any_auth (s : CatalogSession) (table : string) (creds : ConnectionCreds) : result UdfError RestTable :=
  let? (ns, table_name) := parse_table_ident table in
  match load_table s ns table_name (c_use_vended_credentials creds) creds with Ok t => Ok t | Err e => Err (User (message e)) end.

Definition load_table_schema_metadata (s : CatalogSession) (ns : list string) (table_name : string) (creds : ConnectionCreds) : result CatalogRequestError TableMetadata :=
  let? result := load_table s ns table_name false creds in Ok (rt_metadata result).

(** ** Listing a namespace tree *)

(** [Url::parse] and its query pairs: the text of a page's URL. *)
Context (page_url : string -> list (string * string) -> result string string).

Definition token_pair (page_token : option string) : list (string * string) := match page_token with Some token => [("pageToken", token)] | None => [] end.

(** [fuel] pages at most. *)
Fixpoint pages_from {P T} (fuel : nat) (page : option string -> result UdfError P) (split : P -> list T * option string) (all : list T) (page_token : option string)
  : option (result UdfError (list T)) :=
  match fuel with
  | O => None
  | S fuel =>
      match page page_token with
      | Err e => Some (Err e)
      | Ok p =>
          let '(items, next) := split p in
          let all := (all ++ items)%list in
          match next with
          | Some token => if String.eqb token "" then Some (Ok all) else pages_from fuel page split all (Some token)
          | None => Some (Ok all)
          end
      end
  end.

Definition list_page {P} (parse : string -> result string P) (s : CatalogSession) (url : string) (query : list (string * string)) (creds : ConnectionCreds) (page_token : option string)
  : result UdfError P :=
  match page_url url (query ++ token_pair page_token) with
  | Err e => Err (User ("invalid catalog URL '" ++ url ++ "': " ++ e))
  | Ok url =>
      match authed_get_json parse url (s_auth s) false creds with Ok p => Ok p | Err e => Err (User (message e)) end
  end.

Definition list_pages {P T} (fuel : nat) (parse : string -> result string P) (split : P -> list T * option string) (s : CatalogSession) (url : string) (query : list (string * string))
    (creds : ConnectionCreds) : option (result UdfError (list T)) :=
  pages_from fuel (list_page parse s url query creds) split [] None.

Definition namespaces_url (s : CatalogSession) (below : option string) : string :=
  catalog_url (s_catalog_uri s) (s_prefix s) (match below with Some below => "namespaces/" ++ below | None => "namespaces" end).

Definition listing_error (action : string) (ns : list string) (e : UdfError) : UdfError :=
  User ("failed to " ++ action ++ " '" ++ join "." ns ++ "': " ++ redact_credentials (error_text e)).

(** The deserializers of [ListTablesResponse] and [ListNamespaceResponse]. *)
Context (parse_tables : string -> result string (list CatalogTableIdent * option string)).
Context (parse_namespaces : string -> result string (list (list string) * option string)).

Definition labelled {T} (action : string) (ns : list string) (r : option (result UdfError T)) : option (result UdfError T) :=
  match r with Some (Err e) => Some (Err (listing_error action ns e)) | r => r end.

Definition list_namespace (fuel : nat) (s : CatalogSession) (creds : ConnectionCreds) (ns : list string) : option (result UdfError (list CatalogTableIdent)) :=
  labelled "list tables in namespace" ns (list_pages fuel parse_tables id s (namespaces_url s (Some (to_url_string ns ++ "/tables"))) [] creds).

Definition list_child_namespaces (fuel : nat) (s : CatalogSession) (creds : ConnectionCreds) (ns : list string) : option (result UdfError (list (list string))) :=
  labelled "list namespaces under" ns (list_pages fuel parse_namespaces id s (namespaces_url s None) [("parent", to_url_string ns)] creds).
End Session.

(** ** The walk of the tree *)

(** A level's namespaces are listed in order, each namespace's tables and children at
    once; of several failures the first in that order is reported here. *)
Fixpoint list_level {N T} (list_tables : N -> option (result UdfError (list T))) (children : N -> option (result UdfError (list N))) (level : list N)
  : option (result UdfError (list T * list N)) :=
  match level with
  | [] => Some (Ok ([], []))
  | ns :: level =>
      match list_tables ns, children ns with
      | Some (Ok found), Some (Ok below) =>
          match list_level list_tables children level with
          | Some (Ok (tables, next)) => Some (Ok ((found ++ tables)%list, (below ++ next)%list))
          | r => r
          end
      | Some (Err e), _ => Some (Err e)
      | Some (Ok _), Some (Err e) => Some (Err e)
      | None, _ | _, None => None
      end
  end.

Fixpoint list_levels {N T} (fuel : nat) (list_tables : N -> option (result UdfError (list T))) (children : N -> option (result UdfError (list N))) (tables : list T) (level : list N)
  : option (result UdfError (list T)) :=
  match level with
  | [] => Some (Ok tables)
  | _ =>
      match fuel with
      | O => None
      | S fuel =>
          match list_level list_tables children level with
          | Some (Ok (found, next)) => list_levels fuel list_tables children (tables ++ found)%list next
          | Some (Err e) => Some (Err e)
          | None => None
          end
      end
  end.

Section Client.
Context {UR : Urls} {TR : Transport} (parse_json : string -> result string Json) (print : Json -> string) (error_text : UdfError -> string) (byte_serialize : string -> string).
Context (parse_table : string -> result string RestTable) (page_url : string -> list (string * string) -> result string string).
Context (parse_tables : string -> result string (list CatalogTableIdent * option string)) (parse_namespaces : string -> result string (list (list string) * option string)).
(** The text of [NamespaceIdent::from_vec]'s refusal of an empty list. *)
Context (empty_namespace : string).

(** [pages] bounds the pages of one listing and [depth] the levels of the tree. *)
Definition list_namespace_tables (pages depth : nat) (s : CatalogSession) (configured_ns : list string) (creds : ConnectionCreds) : option (result UdfError (list CatalogTableIdent)) :=
  match configured_ns with
  | [] => Some (Err (User ("invalid namespace '" ++ join "." configured_ns ++ "': " ++ empty_namespace)))
  | _ =>
      let descend := match s_auth s with Sigv4 _ => false | _ => true end in
      list_levels depth (list_namespace error_text page_url parse_tables pages s creds)
        (fun ns => if descend then list_child_namespaces error_text page_url parse_namespaces pages s creds ns else Some (Ok [])) [] [configured_ns]
  end.

(** ** The Iceberg REST client *)

Definition iceberg_catalog_table (ident : CatalogTableIdent) (metadata : TableMetadata) (metadata_location : option string) : CatalogTable :=
  MkCatalogTable ident TypeTable (Some (metadata_root metadata)) FmtIceberg None []
    (map (fun field => CatalogColumn_new (iceberg_field_name field) (Iceberg field)) (current_fields metadata)) metadata_location ∅.

Definition load_on_session (s : CatalogSession) (creds : ConnectionCreds) (ident : CatalogTableIdent) : result CatalogRequestError CatalogTable :=
  match namespace ident with
  | [] => Err (without_status ("invalid namespace in '" ++ catalog_identifier_string ident ++ "': " ++ empty_namespace))
  | ns => let? metadata := load_table_schema_metadata error_text parse_table s ns (ident_name ident) creds in Ok (iceberg_catalog_table ident metadata None)
  end.

Definition admit_on_session (s : CatalogSession) (creds : ConnectionCreds) (ident : CatalogTableIdent) : result UdfError TableAdmission :=
  match load_on_session s creds ident with
  | Ok table => Ok (TableLoaded table)
  | Err err =>
      if is_not_found err then Ok (TableSkipped (MkSkipped ident NotLoadableIcebergTable))
      else if is_bad_request err then Ok (TableSkipped (MkSkipped ident (LoadRejected (message err))))
      else Err (User (message err))
  end.

(** The client with its session cell. *)
Record IcebergRestCatalogClient := MkRestClient { rc_catalog_uri : string; rc_creds : ConnectionCreds; rc_session : option CatalogSession }.

(** [OnceCell::get_or_try_init]: a failed resolution leaves the cell empty. *)
Definition client_session (c : IcebergRestCatalogClient) : result UdfError CatalogSession * IcebergRestCatalogClient :=
  match rc_session c with
  | Some s => (Ok s, c)
  | None =>
      match session_resolve parse_json print error_text byte_serialize (rc_catalog_uri c) (c_warehouse (rc_creds c)) (rc_creds c) with
      | Ok s => (Ok s, MkRestClient (rc_catalog_uri c) (rc_creds c) (Some s))
      | Err e => (Err e, c)
      end
  end.

Definition rest_list_table_idents (pages depth : nat) (c : IcebergRestCatalogClient) (ns : list string) : option (result UdfError (list CatalogTableIdent)) * IcebergRestCatalogClient :=
  let '(session, c) := client_session c in
  (match session with Err e => Some (Err e) | Ok s => list_namespace_tables pages depth s ns (rc_creds c) end, c).

Definition rest_load_listed_tables (c : IcebergRestCatalogClient) (idents : list CatalogTableIdent) : result UdfError CatalogListing * IcebergRestCatalogClient :=
  match idents with
  | [] => (Ok (MkListing [] []), c)
  | _ =>
      let '(session, c) := client_session c in
      (let? s := session in
       let? admissions := try_map (admit_on_session s (rc_creds c)) idents in
       Ok (collect_listing admissions), c)
  end.
End Client.

(** ** A Unity Catalog session's token *)

Definition OAUTH_REFRESH_SKEW_SECS : N := 60.
Definition OAUTH_DEFAULT_SCOPE : string := "all-apis".
Definition GRANT : string := "Unity Catalog OAuth client-credentials grant".

Record CachedToken := MkCached { cached_token : string; refresh_at : N }.
Record OAuthTokenSource := MkSource { token_url : string; source_client_id : string; source_client_secret : string; source_scope : string; cache : option CachedToken }.
Inductive UnityAuth := UnityNone | Pat (token : string) | OAuth (source : OAuthTokenSource).

Section Unity.
Context {UR : Urls} {TR : Transport}.
(** The deserializer of the token answer. *)
Context (parse_token : string -> result string (string * option N)).

(** [sent] is what this grant's request comes to. *)
Definition mint (source : OAuthTokenSource) (sent : Request -> result CatalogHttpError CatalogAnswer) : result UdfError (string * N) :=
  let redact msg := redact_error_text msg [source_client_secret source] in
  let request := MkRequest "POST" (token_url source) [("accept", "application/json")] [("grant_type", "client_credentials"); ("scope", source_scope source)]
    (Some (source_client_id source, source_client_secret source)) None None in
  match build_request request with
  | Err e => Err (User (GRANT ++ " failed: " ++ redact e))
  | Ok _ =>
      match send_json utf8_lossy parse_token (sent request) GRANT redact with
      | Err e => Err (User (message e))
      | Ok (access_token, expires_in) =>
          if String.eqb access_token "" then Err (User (GRANT ++ " returned no access_token"))
          else
            let? expires_in := ok_or (secs ← expires_in; if (0 <? secs)%N then Some secs else None) (User (GRANT ++ " returned no usable expires_in")) in
            Ok (access_token, expires_in)
      end
  end.

(** The clock is read before the mint and again after it. *)
Definition bearer (source : OAuthTokenSource) (now minted_at : N) (sent : Request -> result CatalogHttpError CatalogAnswer) : result UdfError string * OAuthTokenSource :=
  let fresh :=
    match mint source sent with
    | Err e => (Err e, source)
    | Ok (token, expires_in) =>
        (Ok token, MkSource (token_url source) (source_client_id source) (source_client_secret source) (source_scope source)
           (Some (MkCached token (minted_at + from_secs (expires_in - OAUTH_REFRESH_SKEW_SECS)))))
    end in
  match cache source with
  | Some cached => if (now <? refresh_at cached)%N then (Ok (cached_token cached), source) else fresh
  | None => fresh
  end.

Definition resolve_unity_auth (address : string) (creds : ConnectionCreds) : UnityAuth :=
  match supplied_catalog_auth creds with
  | Unauthenticated => UnityNone
  | StaticToken token => Pat token
  | ClientCredentials client_id client_secret =>
      let token_url := match non_empty (c_oauth2_server_uri creds) with Some uri => uri | None => trim_end_matches "/" address ++ "/oidc/v1/token" end in
      OAuth (MkSource token_url client_id client_secret (default OAUTH_DEFAULT_SCOPE (non_empty (c_scope creds))) None)
  end.

(** The request with its bearer, and the bearer for the redaction of errors. *)
Definition apply_auth (auth : UnityAuth) (request : Request) (now minted_at : N) (sent : Request -> result CatalogHttpError CatalogAnswer) : result UdfError (Request * option string) * UnityAuth :=
  let authed token := MkRequest (method request) (url request) (headers request) (form request) (basic_auth request) (Some token) (signed_for request) in
  match auth with
  | UnityNone => (Ok (request, None), auth)
  | Pat token => (Ok (authed token, Some token), auth)
  | OAuth source =>
      let '(r, source) := bearer source now minted_at sent in
      (let? token := r in Ok (authed token, Some token), OAuth source)
  end.
End Unity.

(** ** Every page is read *)

(** A listing of [n] pages: the token of each leads to the next, and an absent or empty
    one ends it, whether or not the page holds anything. *)
Inductive paged {P T} (page : option string -> result UdfError P) (split : P -> list T * option string) : option string -> list T -> nat -> Prop :=
| last_page token p items next : page token = Ok p -> split p = (items, next) -> next = None \/ next = Some "" -> paged page split token items 1
| more_pages token p items next rest n : page token = Ok p -> split p = (items, Some next) -> next <> "" -> paged page split (Some next) rest n ->
    paged page split token (items ++ rest) (S n).

Lemma paged_read {P T} page (split : P -> list T * option string) token items n : paged page split token items n ->
  forall fuel all, (n <= fuel)%nat -> pages_from fuel page split all token = Some (Ok (all ++ items)%list).
Proof.
  induction 1 as [token p items next Hp Hs Hn|token p items next rest n Hp Hs Hn _ IH]; intros [|fuel] all Hf; try lia; cbn [pages_from]; rewrite Hp, Hs.
  - by destruct Hn as [->| ->].
  - apply String.eqb_neq in Hn as ->. rewrite IH by lia. by rewrite <- app_assoc.
Qed.

(** ** Every namespace is walked *)

Inductive NsTree := Ns (name : list string) (tables : list CatalogTableIdent) (below : list NsTree).
Definition ns_name (t : NsTree) : list string := let '(Ns name _ _) := t in name.
Definition ns_tables (t : NsTree) : list CatalogTableIdent := let '(Ns _ tables _) := t in tables.
Definition ns_below (t : NsTree) : list NsTree := let '(Ns _ _ below) := t in below.
Fixpoint all_tables (t : NsTree) : list CatalogTableIdent := let '(Ns _ tables below) := t in (tables ++ List.concat (map all_tables below))%list.

Section Walk.
Context (list_tables : list string -> option (result UdfError (list CatalogTableIdent))) (children : list string -> option (result UdfError (list (list string)))).

(** A tree of at most [height] levels, as the catalog lists it. *)
Inductive listed_tree : NsTree -> nat -> Prop :=
| listed_ns name tables below h : list_tables name = Some (Ok tables) -> children name = Some (Ok (map ns_name below)) ->
    Forall (fun t => listed_tree t h) below -> listed_tree (Ns name tables below) (S h).

Lemma list_level_forest forest h : Forall (fun t => listed_tree t h) forest ->
  list_level list_tables children (map ns_name forest) = Some (Ok (List.concat (map ns_tables forest), map ns_name (List.concat (map ns_below forest)))).
Proof.
  induction 1 as [|t forest Ht Hf IH]; [done|]. cbn [map list_level List.concat]. inversion Ht as [name tables below h' Hl Hc Hb]; subst. cbn [ns_name ns_tables ns_below].
  rewrite Hl, Hc, IH. by rewrite map_app.
Qed.

Lemma concat_below forest h : Forall (fun t => listed_tree t (S h)) forest -> Forall (fun t => listed_tree t h) (List.concat (map ns_below forest)).
Proof.
  induction 1 as [|t forest Ht Hf IH]; [constructor|]. cbn [map List.concat]. inversion Ht; subst. apply Forall_app. by split.
Qed.

Lemma all_tables_forest forest : List.concat (map all_tables forest) ≡ₚ (List.concat (map ns_tables forest) ++ List.concat (map all_tables (List.concat (map ns_below forest))))%list.
Proof.
  induction forest as [|[name tables below] forest IH]; [done|]. cbn [map List.concat ns_tables ns_below all_tables]. rewrite map_app, concat_app, IH. solve_Permutation.
Qed.

Lemma list_levels_forest h : forall forest fuel tables, Forall (fun t => listed_tree t h) forest -> (h <= fuel)%nat ->
  exists found, list_levels fuel list_tables children tables (map ns_name forest) = Some (Ok (tables ++ found)%list) /\ found ≡ₚ List.concat (map all_tables forest).
Proof.
  induction h as [|h IH]; intros forest fuel tables Hf Hle.
  { destruct Hf as [|t forest Ht _]; [|inversion Ht]. exists []. rewrite app_nil_r. by destruct fuel. }
  destruct forest as [|t forest]; [exists []; rewrite app_nil_r; by destruct fuel|]. destruct fuel as [|fuel]; [lia|].
  cbn [list_levels]. change (ns_name t :: map ns_name forest) with (map ns_name (t :: forest)). rewrite (list_level_forest _ _ Hf). cbn [map].
  destruct (IH (List.concat (map ns_below (t :: forest))) fuel (tables ++ List.concat (map ns_tables (t :: forest)))%list) as (found & Hl & Hp); [by apply concat_below|lia|].
  exists (List.concat (map ns_tables (t :: forest)) ++ found)%list. split; [rewrite app_assoc; exact Hl|]. change (all_tables t :: map all_tables forest) with (map all_tables (t :: forest)).
  by rewrite (all_tables_forest (t :: forest)), Hp.
Qed.
End Walk.

Section Complete.
Context {TR : Transport} (error_text : UdfError -> string) (page_url : string -> list (string * string) -> result string string).
Context (parse_tables : string -> result string (list CatalogTableIdent * option string)) (parse_namespaces : string -> result string (list (list string) * option string)).
Context (empty_namespace : string) (s : CatalogSession) (creds : ConnectionCreds).

Definition descends : bool := match s_auth s with Sigv4 _ => false | _ => true end.

(** The catalog serves a tree of at most [height] levels: it lists each namespace's
    tables, and its children where the session descends, in at most [pages] pages. *)
Inductive served_tree (pages : nat) : NsTree -> nat -> Prop :=
| served_ns name tables below h n :
    paged (list_page error_text page_url parse_tables s (namespaces_url s (Some (to_url_string name ++ "/tables"))) [] creds) id None tables n -> (n <= pages)%nat ->
    (if descends then exists m, paged (list_page error_text page_url parse_namespaces s (namespaces_url s None) [("parent", to_url_string name)] creds) id None (map ns_name below) m /\ (m <= pages)%nat
     else below = []) ->
    Forall (fun t => served_tree pages t h) below -> served_tree pages (Ns name tables below) (S h).

Lemma served_listed pages h : forall t, served_tree pages t h ->
  listed_tree (list_namespace error_text page_url parse_tables pages s creds)
    (fun ns => if descends then list_child_namespaces error_text page_url parse_namespaces pages s creds ns else Some (Ok [])) t h.
Proof.
  induction h as [|h IH]; intros t Ht; inversion Ht as [name tables below h' n Hp Hn Hc Hb]; subst. constructor.
  - unfold list_namespace, list_pages. by rewrite (paged_read _ _ _ _ _ Hp).
  - destruct descends; [|by subst]. destruct Hc as (m & Hm & Hle). unfold list_child_namespaces, list_pages. by rewrite (paged_read _ _ _ _ _ Hm).
  - eapply Forall_impl; [exact Hb|]. apply IH.
Qed.
End Complete.

(** C37. Listing a namespace of an Iceberg REST catalog terminates and finds every table:
    for a catalog whose tree below the namespace is finite and each of whose listings
    ends after finitely many pages, empty ones included, the tables returned are exactly
    those of the namespace and of every namespace below it - of the namespace alone
    under SigV4, whose namespaces have no children. *)
Theorem namespace_listing_complete {TR : Transport} error_text page_url parse_tables parse_namespaces empty_namespace s creds pages depth t h :
  served_tree error_text page_url parse_tables parse_namespaces s creds pages t h -> (h <= depth)%nat -> ns_name t <> [] ->
  exists found, list_namespace_tables error_text page_url parse_tables parse_namespaces empty_namespace pages depth s (ns_name t) creds = Some (Ok found)
    /\ found ≡ₚ all_tables t.
Proof.
  intros Ht%served_listed Hh Hne. unfold list_namespace_tables. destruct (ns_name t) as [|seg segs] eqn:En; [done|]. rewrite <- En.
  destruct (list_levels_forest _ _ h [t] depth [] (Forall_cons_2 _ _ _ Ht (Forall_nil_2 _)) Hh) as (found & Hl & Hp). exists found. split; [exact Hl|].
  rewrite Hp. cbn. by rewrite app_nil_r.
Qed.

(** Two pages of tables, the second empty and with a last token, and one child. *)
Definition paging_transport : Transport :=
  {| build_request _ := Ok tt; sign_request _ := Ok tt; utf8_lossy b := b; send r := Ok (MkAnswer 200 None (url r) false) |}.
Definition sample_url (url : string) (query : list (string * string)) : result string string :=
  Ok (url ++ String.concat "" (map (fun kv => "?" ++ kv.1 ++ "=" ++ kv.2) query)).
Definition sample_tables (body : string) : result string (list CatalogTableIdent * option string) :=
  Ok (if contains "x/tables" body then ([MkIdent ["db"; "x"] "b"], None) else if contains "t1" body then ([], Some "") else ([MkIdent ["db"] "a"], Some "t1")).
Definition sample_namespaces (body : string) : result string (list (list string) * option string) :=
  Ok (if contains "x" body then [] else [["db"; "x"]], None).
Definition sample_tree : NsTree := Ns ["db"] [MkIdent ["db"] "a"] [Ns ["db"; "x"] [MkIdent ["db"; "x"] "b"] []].
Definition sample_session : CatalogSession := MkSession "http://c/" NoAuth "".

Lemma namespace_listing_complete_witness : exists found,
  list_namespace_tables (TR := paging_transport) (fun _ => "") sample_url sample_tables sample_namespaces "" 2 2 sample_session ["db"] (parse_creds (json_object [])) = Some (Ok found)
  /\ found ≡ₚ all_tables sample_tree.
Proof.
  refine (namespace_listing_complete (TR := paging_transport) (fun _ => "") sample_url sample_tables sample_namespaces "" sample_session (parse_creds (json_object [])) 2 2 sample_tree 2 _ _ _); [|lia|done].
  apply served_ns with 2.
  - eapply (more_pages _ _ _ _ [MkIdent ["db"] "a"] "t1" [] 1); [vm_compute; reflexivity|reflexivity|done|]. eapply last_page; [vm_compute; reflexivity|reflexivity|by right].
  - lia.
  - exists 1. split; [|lia]. eapply last_page; [vm_compute; reflexivity|reflexivity|by left].
  - constructor; [|constructor]. apply served_ns with 1.
    + eapply last_page; [vm_compute; reflexivity|reflexivity|by left].
    + lia.
    + exists 1. split; [|lia]. eapply last_page; [vm_compute; reflexivity|reflexivity|by left].
    + constructor.
Defined.

(** ** A token is renewed before it expires *)

Section Tokens.
Context {TR : Transport} (parse_token : string -> result string (string * option N)).

(** The tokens granted so far, each with the time of its grant and its lifetime. *)
Notation Grants := (list (string * N * N)).

Definition cached_from (grants : Grants) (source : OAuthTokenSource) : Prop :=
  forall c, cache source = Some c -> exists at_ lifetime, (cached_token c, at_, lifetime) ∈ grants /\ refresh_at c = (at_ + from_secs (lifetime - OAUTH_REFRESH_SKEW_SECS))%N.

(** The calls of a session, from its empty cache on. *)
Inductive session_calls : OAuthTokenSource -> Grants -> Prop :=
| no_calls source : cache source = None -> session_calls source []
| one_call source grants now minted_at sent r source' : session_calls source grants ->
    bearer parse_token source now minted_at sent = (r, source') ->
    session_calls source' (match mint parse_token source sent with Ok (token, lifetime) => (token, minted_at, lifetime) :: grants | Err _ => grants end).

Lemma session_cached source grants : session_calls source grants -> cached_from grants source.
Proof.
  induction 1 as [source Hc|source grants now minted_at sent r source' _ IH Hb]; [intros c Hs; congruence|].
  assert (Hold : forall g, cached_from (g ++ grants)%list source).
  { intros g c Hc. destruct (IH c Hc) as (a & l & Hin & Hr). exists a, l. split; [apply elem_of_app; by right|done]. }
  unfold bearer in Hb. destruct (mint parse_token source sent) as [[token lifetime]|e].
  - assert (Hnew : cached_from ((token, minted_at, lifetime) :: grants) (MkSource (token_url source) (source_client_id source) (source_client_secret source) (source_scope source)
           (Some (MkCached token (minted_at + from_secs (lifetime - OAUTH_REFRESH_SKEW_SECS)))))).
    { intros c [= <-]. exists minted_at, lifetime. split; [by left|done]. }
    destruct (cache source) as [c|] eqn:Ec; [destruct (now <? refresh_at c)%N|]; injection Hb as <- <-; [exact (Hold [_])|done|done].
  - destruct (cache source) as [c|] eqn:Ec; [destruct (now <? refresh_at c)%N|]; injection Hb as <- <-; done.
Qed.
End Tokens.

(** A Unity Catalog session never sends a token about to expire: at every call of a
    session, whatever the grants before it answered, the token it sends was granted
    either for this call or at a time after which, its lifetime less a minute, it was
    still to live; a token still fresh is sent without a new grant, and a failed grant
    fails the call and leaves the cache as it was. *)
Theorem token_renewed_before_expiry {TR : Transport} parse_token source grants now minted_at sent r source' :
  session_calls parse_token source grants -> bearer parse_token source now minted_at sent = (r, source') ->
  match r with
  | Ok token =>
      (exists lifetime, mint parse_token source sent = Ok (token, lifetime) /\ cache source' = Some (MkCached token (minted_at + from_secs (lifetime - OAUTH_REFRESH_SKEW_SECS))))
      \/ (source' = source /\ exists at_ lifetime, (token, at_, lifetime) ∈ grants /\ (now < at_ + from_secs (lifetime - OAUTH_REFRESH_SKEW_SECS))%N)
  | Err e => mint parse_token source sent = Err e /\ source' = source
  end.
Proof.
  intros Hs%session_cached Hb. unfold bearer in Hb. destruct (cache source) as [c|] eqn:Ec; [destruct (N.ltb_spec now (refresh_at c)) as [Hlt|_]|].
  - injection Hb as <- <-. right. split; [done|]. destruct (Hs c Ec) as (a & l & Hin & Hr). exists a, l. by rewrite <- Hr.
  - destruct (mint _ source sent) as [[token lifetime]|e]; injection Hb as <- <-; [left; by exists lifetime|done].
  - destruct (mint _ source sent) as [[token lifetime]|e]; injection Hb as <- <-; [left; by exists lifetime|done].
Qed.

Definition fresh_source : OAuthTokenSource := MkSource "https://c/oidc/v1/token" "id" "secret" "all-apis" None.
Definition hour_token (b : string) : result string (string * option N) := Ok ("tok", Some 3600%N).

Lemma token_renewed_before_expiry_witness :
  exists source', bearer (TR := paging_transport) hour_token fresh_source 5 7 (send (Transport := paging_transport)) = (Ok "tok", source')
    /\ cache source' = Some (MkCached "tok" (7 + from_secs 3540)).
Proof.
  eexists. split; [reflexivity|].
  destruct (token_renewed_before_expiry (TR := paging_transport) hour_token fresh_source [] 5 7 (send (Transport := paging_transport)) (Ok "tok") _ (no_calls _ fresh_source eq_refl) eq_refl)
    as [(lifetime & [= <-] & H)|[H _]]; [exact H|discriminate H].
Defined.
