(* ===== verification/CatalogTables.v ===== *)
(** The tables of the native catalogs: lakehouse-catalog's unity/client.rs and
    glue/{routing,client,partitions,sdk}.rs (which tables a catalog lists, and how each
    is described), and the engine's adapter/pushdown/format/catalog_parquet_table.rs and
    scan_catalog.rs (how a described table is opened and its files planned). *)

From stdpp Require Import base list strings numbers gmap sorting.
From Stdlib Require Import Ascii String ZArith NArith Lia.
From S2P Require Import Prelude Text Hex Json ColumnNode FilterJson SparkTypes ArrowTypes TypeMapping Redaction Storage Connection ScanSpec ColumnNotes BinaryFilter ScanFiles ObjectLocation TableIdentity Resolution Declaration Listing PartitionValues PartitionPredicate ParquetDirectory CatalogSession.

Local Open Scope string_scope.

(** ** Unity Catalog *)

Record ColumnInfo := MkColumnInfo { ci_name : string; ci_type_json : option string; ci_partition_index : option N }.
Record TableInfo := MkTableInfo {
  ti_name : string;
  ti_table_type : string;
  ti_storage_location : option string;
  ti_data_source_format : option string;
  ti_table_id : option string;
  ti_columns : list ColumnInfo;
  ti_properties : option (gmap string string);
}.

Definition DELTA_DATA_SOURCE_FORMAT : string := "DELTA".
Definition ICEBERG_DATA_SOURCE_FORMAT : string := "ICEBERG".
Definition PARQUET_DATA_SOURCE_FORMAT : string := "PARQUET".
Definition ABSENT_DATA_SOURCE_FORMAT : string := "absent".

Definition unity_namespace (namespace : list string) : result UdfError (string * string) :=
  match namespace with
  | [catalog; schema] => Ok (catalog, schema)
  | _ => Err (User ("a Unity Catalog namespace must name a catalog and a schema (two segments), but " ++ show_nat (List.length namespace) ++ " were given"))
  end.

Definition identifier_listing_query (catalog schema : string) : list (string * string) :=
  [("catalog_name", catalog); ("schema_name", schema); ("omit_columns", "true"); ("omit_properties", "true"); ("omit_username", "true")].

Definition full_name (ident : CatalogTableIdent) : string := join "." (namespace ident ++ [ident_name ident])%list.

Definition neutral_table_type (raw : string) : CatalogTableType :=
  if existsb (String.eqb raw) ["MANAGED"; "EXTERNAL"; "MANAGED_SHALLOW_CLONE"; "EXTERNAL_SHALLOW_CLONE"] then TypeTable
  else if String.eqb raw "VIEW" then TypeView else TypeOther raw.

Definition format_of (data_source_format : option string) : option TableFormat :=
  f ← data_source_format;
  if String.eqb f DELTA_DATA_SOURCE_FORMAT then Some FmtDelta
  else if String.eqb f ICEBERG_DATA_SOURCE_FORMAT then Some FmtIceberg
  else if String.eqb f PARQUET_DATA_SOURCE_FORMAT then Some FmtParquet else None.

Definition admission (raw_table_type : string) (data_source_format : option string) : result SkipReason TableFormat :=
  match neutral_table_type raw_table_type with
  | TypeTable =>
      match format_of data_source_format with
      | Some FmtDelta => Ok FmtDelta
      | Some FmtParquet => Ok FmtParquet
      | _ => Err (NotDeltaBaseTable ("data_source_format=" ++ default ABSENT_DATA_SOURCE_FORMAT data_source_format))
      end
  | _ => Err (NotDeltaBaseTable ("table_type=" ++ raw_table_type))
  end.

Definition neutral_table_format (data_source_format : option string) (table : string) : result UdfError TableFormat :=
  ok_or (format_of data_source_format)
    (User ("Unity Catalog table " ++ table ++ " reports data_source_format="
       ++ default ABSENT_DATA_SOURCE_FORMAT (f ← data_source_format; if String.eqb (trim f) "" then None else Some f)
       ++ ", which names no table format this engine can plan (expected " ++ DELTA_DATA_SOURCE_FORMAT ++ ", " ++ ICEBERG_DATA_SOURCE_FORMAT ++ ", or " ++ PARQUET_DATA_SOURCE_FORMAT ++ ")")).

Definition neutral_column (column : ColumnInfo) : CatalogColumn := CatalogColumn_new (ci_name column) (Unity (ci_type_json column)).

(** [sort_by_key] on the index: stable. *)
Fixpoint insert_index (x : N * string) (l : list (N * string)) : list (N * string) :=
  match l with [] => [x] | y :: l' => if (x.1 <=? y.1)%N then x :: l else y :: insert_index x l' end.
Definition sort_by_index (l : list (N * string)) : list (N * string) := foldr insert_index [] l.

Definition neutral_table (ident : CatalogTableIdent) (info : TableInfo) (format : TableFormat) : CatalogTable :=
  let indexed := omap (fun c => index ← ci_partition_index c; Some (index, ci_name c)) (ti_columns info) in
  MkCatalogTable ident (neutral_table_type (ti_table_type info)) (non_empty (ti_storage_location info)) format
    (key ← ti_table_id info; if String.eqb (trim key) "" then None else Some key)
    (map snd (sort_by_index indexed)) (map neutral_column (ti_columns info)) None (default ∅ (ti_properties info)).

Definition unity_admit (ident : CatalogTableIdent) (info : TableInfo) : TableAdmission :=
  match admission (ti_table_type info) (ti_data_source_format info) with
  | Err reason => TableSkipped (MkSkipped ident reason)
  | Ok format => TableLoaded (neutral_table ident info format)
  end.

(** A session by the answers of its requests: the paged listings, and one table. *)
Record UnityCatalogSession := MkUnity {
  list_table_infos : string -> string -> result UdfError (list TableInfo);
  list_table_names : string -> string -> result UdfError (list string);
  fetch_table_info : string -> result UdfError TableInfo;
}.

(** [collect_pages]: the pages of a listing, as in an Iceberg catalog's. *)
Definition collect_pages {P T} (fuel : nat) (page : option string -> result UdfError P) (into_items : P -> list T) (next_page_token : P -> option string)
  : option (result UdfError (list T)) := pages_from fuel page (fun p => (into_items p, next_page_token p)) [] None.

Section Unity.
Context (error_text : UdfError -> string).

Definition get_table_info (s : UnityCatalogSession) (name : string) : result UdfError TableInfo :=
  match fetch_table_info s name with Ok info => Ok info | Err e => Err (User ("failed to load Unity Catalog table '" ++ name ++ "': " ++ error_text e)) end.

Definition unity_load_table (s : UnityCatalogSession) (ident : CatalogTableIdent) : result UdfError CatalogTable :=
  let? info := get_table_info s (full_name ident) in
  let? format := neutral_table_format (ti_data_source_format info) (full_name ident) in
  Ok (neutral_table ident info format).

Definition unity_list_tables (s : UnityCatalogSession) (ns : list string) (exposes : CatalogTableIdent -> bool) : result UdfError CatalogListing :=
  let? (catalog, schema) := unity_namespace ns in
  let? infos := list_table_infos s catalog schema in
  Ok (collect_listing (map (fun p => unity_admit p.1 p.2) (List.filter (fun p => exposes p.1) (map (fun info => (MkIdent ns (ti_name info), info)) infos)))).

#[export] Instance unity_client : CatalogClient UnityCatalogSession := {|
  list_table_idents s ns :=
    let? (catalog, schema) := unity_namespace ns in
    let? names := list_table_names s catalog schema in Ok (map (MkIdent ns) names);
  load_listed_tables s idents :=
    let? admissions := try_map (fun ident => let? info := get_table_info s (full_name ident) in Ok (unity_admit ident info)) idents in
    Ok (collect_listing admissions);
|}.
End Unity.

(** ** Glue *)

Definition PARQUET_INPUT_FORMAT : string := "org.apache.hadoop.hive.ql.io.parquet.MapredParquetInputFormat".
Definition VIEW_TABLE_TYPE : string := "VIRTUAL_VIEW".
Definition TABLE_TYPE_PARAMETER : string := "table_type".
Definition ICEBERG_TABLE_TYPE : string := "ICEBERG".
Definition METADATA_LOCATION_PARAMETER : string := "metadata_location".
Definition PROJECTION_ENABLED_PARAMETER : string := "projection.enabled".

Inductive Route := RIceberg (metadata_location : string) | RParquet | RSkip (detail : string).

Definition iceberg_route (table_type : string) (metadata_location : option string) : Route :=
  match (l ← metadata_location; if String.eqb (trim l) "" then None else Some l) with
  | Some location => RIceberg location
  | None => RSkip (TABLE_TYPE_PARAMETER ++ "=" ++ table_type ++ " with an absent or empty " ++ METADATA_LOCATION_PARAMETER)
  end.

Definition hive_route (input_format projection_enabled : option string) : Route :=
  if bool_decide (input_format = Some PARQUET_INPUT_FORMAT) then
    match projection_enabled with
    | Some enabled =>
        if eq_ignore_ascii_case enabled "true"
        then RSkip (PROJECTION_ENABLED_PARAMETER ++ "=" ++ enabled ++ ": partition projection registers no partition in Glue, so reading the table would return zero rows")
        else RParquet
    | None => RParquet
    end
  else RSkip ("InputFormat=" ++ default "absent" input_format).

Definition route (table_type : option string) (parameters : gmap string string) (input_format : option string) : Route :=
  match (kind ← table_type; if eq_ignore_ascii_case kind VIEW_TABLE_TYPE then Some kind else None) with
  | Some view => RSkip ("TableType=" ++ view)
  | None =>
      match parameters !! TABLE_TYPE_PARAMETER with
      | Some kind => if eq_ignore_ascii_case kind ICEBERG_TABLE_TYPE then iceberg_route kind (parameters !! METADATA_LOCATION_PARAMETER) else RSkip (TABLE_TYPE_PARAMETER ++ "=" ++ kind)
      | None => hive_route input_format (parameters !! PROJECTION_ENABLED_PARAMETER)
      end
  end.

(** What aws_sdk_glue answers. *)
Record GlueColumn := MkGlueColumn { gc_name : string; gc_type : option string }.
Record StorageDescriptor := MkDescriptor { sd_location : option string; sd_input_format : option string; sd_columns : list GlueColumn }.
Record GlueTable := MkGlueTable {
  gt_name : string;
  gt_table_type : option string;
  gt_parameters : option (gmap string string);
  gt_descriptor : option StorageDescriptor;
  gt_partition_keys : list GlueColumn;
}.
Record GluePartition := MkGluePartition { gp_values : list string; gp_descriptor : option StorageDescriptor }.

Inductive PartitionFormat := PfParquet | PfUnsupported (input_format : string).
Record CatalogPartition := MkPartition { cp_values : LoggedValues; cp_location : string; cp_format : PartitionFormat }.

Definition trim_location (location : string) : string := default location (strip_suffix "/" location).

Definition route_of (table : GlueTable) : Route := route (gt_table_type table) (default ∅ (gt_parameters table)) (d ← gt_descriptor table; sd_input_format d).

Definition planned_table (ident : CatalogTableIdent) (table : GlueTable) (r : Route) : result UdfError CatalogTable :=
  let location := l ← (d ← gt_descriptor table; sd_location d); if String.eqb l "" then None else Some (trim_location l) in
  let column c := CatalogColumn_new (gc_name c) (TypeMapping.Glue (default "" (gc_type c))) in
  match r with
  | RIceberg metadata_location => Ok (MkCatalogTable ident TypeTable location FmtIceberg None [] [] (Some metadata_location) ∅)
  | RParquet =>
      let columns := match gt_descriptor table with Some d => sd_columns d | None => [] end in
      Ok (MkCatalogTable ident TypeTable location FmtParquet None (map gc_name (gt_partition_keys table)) (map column (columns ++ gt_partition_keys table)%list) None ∅)
  | RSkip detail => Err (User ("Glue table '" ++ catalog_identifier_string ident ++ "' cannot be planned: " ++ detail))
  end.

Definition next_page_token (token : option string) (page_len : nat) : option string :=
  if (page_len =? 0)%nat then None else t ← token; if String.eqb t "" then None else Some t.

Definition glue_database (namespace : list string) : result UdfError string :=
  let refusal := User ("a Glue NAMESPACE names exactly one database, but '" ++ join "." namespace ++ "' does not") in
  match namespace with [database] => if String.eqb database "" then Err refusal else Ok database | _ => Err refusal end.

Definition table_subject (ident : CatalogTableIdent) : string := "table '" ++ catalog_identifier_string ident ++ "'".

Section Partition.
(** [{:?}] of a list of texts. *)
Context (debug_values : list string -> string).

Definition neutral_partition (table : string) (partition_keys : list string) (p : GluePartition) : result string CatalogPartition :=
  match (l ← (d ← gp_descriptor p; sd_location d); if String.eqb l "" then None else Some l) with
  | None => Err ("Glue partition " ++ debug_values (gp_values p) ++ " of table '" ++ table ++ "' declares no storage location")
  | Some location =>
      if negb (List.length (gp_values p) =? List.length partition_keys)%nat then
        Err ("Glue partition at '" ++ location ++ "' of table '" ++ table ++ "' has " ++ show_nat (List.length (gp_values p))
          ++ " values, but the table declares " ++ show_nat (List.length partition_keys) ++ " partition keys")
      else
        let format := match (d ← gp_descriptor p; sd_input_format d) with
                      | Some f => if negb (String.eqb f "") && negb (String.eqb f PARQUET_INPUT_FORMAT) then PfUnsupported f else PfParquet
                      | None => PfParquet
                      end in
        let value raw := if String.eqb raw HIVE_DEFAULT_PARTITION then None else Some raw in
        Ok (MkPartition (fold_left (fun m kv => btree_insert kv.1 (value kv.2) m) (zip partition_keys (gp_values p)) []) (trim_location location) format)
  end.

(** The session by its answers: a page of GetPartitions and of GetTables, and GetTable;
    an error is its redacted text. *)
Record GlueCatalogSession := MkGlue {
  get_partitions : string -> string -> option string -> result string (list GluePartition * option string);
  get_tables : string -> option string -> result string (list GlueTable * option string);
  get_glue_table : string -> string -> result string (option GlueTable);
  read_metadata : string -> string -> result UdfError IcebergTable.TableMetadata;
  glue_secrets : list string;
}.

Definition glue_redact (s : GlueCatalogSession) (text : string) : string := redact_error_text text (glue_secrets s).

Definition partitions_page (s : GlueCatalogSession) (t : CatalogTable) (database : string) (token : option string) : result UdfError (list CatalogPartition * option string) :=
  match get_partitions s database (ident_name (ct_ident t)) token with
  | Err e => Err (User (glue_redact s e))
  | Ok (page, next) =>
      match try_map (neutral_partition (catalog_identifier_string (ct_ident t)) (ct_partition_columns t)) page with
      | Err e => Err (User (glue_redact s e))
      | Ok items => Ok (items, next_page_token next (List.length page))
      end
  end.

Definition partitions (fuel : nat) (s : GlueCatalogSession) (t : CatalogTable) : option (result UdfError (list CatalogPartition)) :=
  match ct_partition_columns t with
  | [] =>
      Some (match ct_storage_location t with
            | None => Err (User ("Glue table '" ++ catalog_identifier_string (ct_ident t) ++ "' declares no storage location"))
            | Some location => Ok [MkPartition [] location PfParquet]
            end)
  | _ =>
      match glue_database (namespace (ct_ident t)) with
      | Err e => Some (Err e)
      | Ok database => pages_from fuel (partitions_page s t database) id [] None
      end
  end.

Definition tables_page (s : GlueCatalogSession) (database : string) (token : option string) : result UdfError (list GlueTable * option string) :=
  match get_tables s database token with
  | Err e => Err (User (glue_redact s e))
  | Ok (page, next) => Ok (page, next_page_token next (List.length page))
  end.

Definition glue_tables (fuel : nat) (s : GlueCatalogSession) (database : string) : option (result UdfError (list GlueTable)) := pages_from fuel (tables_page s database) id [] None.

Definition glue_get_table (s : GlueCatalogSession) (ident : CatalogTableIdent) : result UdfError GlueTable :=
  let? database := glue_database (namespace ident) in
  match get_glue_table s database (ident_name ident) with
  | Err e => Err (User (glue_redact s e))
  | Ok table => ok_or table (User ("Glue GetTable returned no table for " ++ table_subject ident))
  end.

Context (error_text : UdfError -> string).

Definition listed_table (s : GlueCatalogSession) (ident : CatalogTableIdent) (table : GlueTable) (r : Route) : result UdfError CatalogTable :=
  match r with
  | RIceberg metadata_location =>
      match read_metadata s metadata_location (catalog_identifier_string ident) with
      | Err e => Err (User (glue_redact s (error_text e)))
      | Ok metadata => Ok (iceberg_catalog_table ident metadata (Some metadata_location))
      end
  | r => planned_table ident table r
  end.

Definition glue_admit (s : GlueCatalogSession) (ident : CatalogTableIdent) (table : GlueTable) : result UdfError TableAdmission :=
  match route_of table with
  | RSkip detail => Ok (TableSkipped (MkSkipped ident (NotPlannableGlueTable detail)))
  | r => let? t := listed_table s ident table r in Ok (TableLoaded t)
  end.

Definition glue_load_table (s : GlueCatalogSession) (ident : CatalogTableIdent) : result UdfError CatalogTable :=
  let? table := glue_get_table s ident in planned_table ident table (route_of table).

(** The overridden listing: one GetTables listing, filtered before any metadata read. *)
Definition glue_list_tables (fuel : nat) (s : GlueCatalogSession) (ns : list string) (exposes : CatalogTableIdent -> bool) : option (result UdfError CatalogListing) :=
  match glue_database ns with
  | Err e => Some (Err e)
  | Ok database =>
      match glue_tables fuel s database with
      | None => None
      | Some (Err e) => Some (Err e)
      | Some (Ok tables) =>
          Some (let? admissions := try_map (fun p => glue_admit s p.1 p.2) (List.filter (fun p => exposes p.1) (map (fun t => (MkIdent ns (gt_name t), t)) tables)) in
                Ok (collect_listing admissions))
      end
  end.

Definition glue_list_idents (fuel : nat) (s : GlueCatalogSession) (ns : list string) : option (result UdfError (list CatalogTableIdent)) :=
  match glue_database ns with
  | Err e => Some (Err e)
  | Ok database =>
      match glue_tables fuel s database with
      | None => None
      | Some (Err e) => Some (Err e)
      | Some (Ok tables) => Some (Ok (map (fun t => MkIdent ns (gt_name t)) tables))
      end
  end.

Definition glue_load_listed (s : GlueCatalogSession) (idents : list CatalogTableIdent) : result UdfError CatalogListing :=
  let? admissions := try_map (fun ident => let? table := glue_get_table s ident in glue_admit s ident table) idents in Ok (collect_listing admissions).
End Partition.

(** ** A catalog's Parquet table *)

Section Parquet.
Context {UC : UnicodeCase} {HX : Hex} {SO : ScalarOps} {S : Type} {OS : ObjectStore S} {U : Type} {SU : StoreUrls U} `{!EqDecision U}.
Context (error_text : UdfError -> string).
(** A URL's [Display]. *)
Context (url_display : U -> string).

Inductive ParquetFileSource :=
| TableDirectory (directory : ParquetDirectoryTable (U := U))
| GluePartitions (partitions : list CatalogPartition) (store : S) (table_root : ObjectLocation U) (storage : StorageBackend).
Record CatalogParquetTable := MkCatalogParquet { cp_files : ParquetFileSource }.

Definition glue_location (location : string) : result UdfError (ObjectLocation U) :=
  let '(scheme, rest) := default ("", location) (split_once_str "://" location) in
  if starts_with "/" rest then Err (User ("invalid storage location '" ++ location ++ "': it names no bucket"))
  else if eq_ignore_ascii_case scheme "s3a" then from_raw ("s3://" ++ rest)
  else from_raw location.

Definition partition_refused (p : CatalogPartition) (cause : string) : UdfError :=
  let values := join ", " (map (fun kv => kv.1 ++ "=" ++ default "NULL" kv.2) (cp_values p)) in
  User ("Glue partition (" ++ values ++ ") at '" ++ cp_location p ++ "' cannot be read: " ++ cause ++ "; skipping it would return wrong rows").

Definition readable_partition_prefix (p : CatalogPartition) (table_root : ObjectLocation U) : result UdfError StorePath :=
  match cp_format p with
  | PfUnsupported input_format => Err (partition_refused p ("its input format '" ++ input_format ++ "' is not Parquet"))
  | PfParquet =>
      let? location := glue_location (cp_location p) in
      if bool_decide (store_root location = store_root table_root) then Ok (key location)
      else Err (partition_refused p ("its bucket '" ++ url_display (store_root location) ++ "' is not the table's bucket '" ++ url_display (store_root table_root) ++ "'"))
  end.

(** Listed in the order of the kept partitions: the sort undoes the order of completion,
    and of several failures the first in that order is reported here. *)
Definition partition_files (store : S) (table_root : ObjectLocation U) (kept : StorePath * LoggedValues) : result UdfError (list FileEntry) :=
  let? listed := list_location_files store kept.1 AnyDirectChild in
  Ok (map (fun file => file_entry (with_partition_values file kept.2) table_root) listed).

Definition plan_glue_partitions (store : S) (table_root : ObjectLocation U) (partitions : list CatalogPartition) (keep : LoggedValues -> bool) : result UdfError (list FileEntry) :=
  let? kept := try_map (fun p => let? prefix := readable_partition_prefix p table_root in Ok (prefix, cp_values p)) (List.filter (fun p => keep (cp_values p)) partitions) in
  let? files := try_map (partition_files store table_root) kept in
  Ok (sort_by_text path (List.concat files)).

Definition source_plan (source : ParquetFileSource) (partition_columns : list string) (keep : LoggedValues -> bool) : result UdfError PlannedFiles :=
  match source with
  | TableDirectory directory => directory_plan directory partition_columns keep
  | GluePartitions partitions store table_root storage =>
      match plan_glue_partitions store table_root partitions keep with
      | Err error => Err (redacted error_text error (secret_values storage))
      | Ok files => Ok (MkPlanned files storage (to_wire table_root) [])
      end
  end.

Definition partition_column_types (logical_schema : list LogicalField) (partition_columns : list string) : list (string * DataType) :=
  map (fun f => (lf_name f, arrow_type_from_tag (lf_arrow_type f))) (List.filter (fun f => existsb (String.eqb (lf_name f)) partition_columns) logical_schema).

Definition catalog_parquet_prune (t : CatalogParquetTable) (declared : DeclaredSchema) (filter_json : option Json) : result UdfError PlannedFiles :=
  let columns := ColumnNotes.partition_columns declared in
  let predicate := from_filter (partition_column_types (logical_schema declared) columns) filter_json in
  let? planned := source_plan (cp_files t) columns (keeps predicate) in
  Ok (MkPlanned (hex_binary_partition_values (pf_files planned) (logical_schema declared)) (pf_effective_storage planned) (pf_table_root planned) (pf_name_mapping planned)).

#[export] Instance catalog_parquet_table : LoadedTable CatalogParquetTable := {| prune := catalog_parquet_prune |}.

(** [build_table_root_store] of the scan's object stores. *)
Context (build_table_root_store : StorageBackend -> string -> N -> list string -> result UdfError S).

Definition from_unity (opened : result UdfError (string * StorageBackend * S)) : result UdfError CatalogParquetTable :=
  let? (table_root, effective_storage, store) := opened in
  let? table_root := from_url table_root in
  let? directory := directory_table_open error_text store table_root effective_storage in
  Ok (MkCatalogParquet (TableDirectory directory)).

(** The root's store is addressed by its URL's text. *)
Definition from_glue (loaded_partitions : result UdfError (list CatalogPartition)) (t : CatalogTable) (storage : StorageBackend) : result UdfError CatalogParquetTable :=
  let? location := checked_storage_location (ct_storage_location t) (catalog_identifier_string (ct_ident t)) "Glue" in
  let loaded :=
    let? table_root := glue_location location in
    let? partitions := loaded_partitions in
    let? store := build_table_root_store storage (url_display (store_root table_root)) CommonSpec.DEFAULT_S3_MAX_CONNECTIONS (secret_values storage) in
    Ok (GluePartitions partitions store table_root storage) in
  match loaded with
  | Err error => Err (redacted error_text error (secret_values storage))
  | Ok files => Ok (MkCatalogParquet files)
  end.
End Parquet.

(** ** Opening a described table *)

Definition format_text (f : TableFormat) : string := match f with FmtIceberg => "Iceberg" | FmtDelta => "Delta" | FmtParquet => "Parquet" end.

Definition unplanned_format (catalog : string) (t : CatalogTable) : UdfError :=
  User (catalog ++ " table " ++ catalog_identifier_string (ct_ident t) ++ " reports the " ++ format_text (ct_format t) ++ " table format, which no " ++ catalog ++ " reader plans").

(** The readers are taken as they open; a loaded table is one of their tables. *)
Definition open_unity_table {L} (delta parquet : CatalogTable -> result UdfError L) (t : CatalogTable) : result UdfError L :=
  match ct_format t with FmtDelta => delta t | FmtParquet => parquet t | FmtIceberg => Err (unplanned_format "Unity Catalog" t) end.

Definition open_glue_table {L} (iceberg parquet : CatalogTable -> result UdfError L) (t : CatalogTable) : result UdfError L :=
  match ct_format t with FmtIceberg => iceberg t | FmtParquet => parquet t | FmtDelta => Err (unplanned_format "Glue" t) end.

Definition unity_load_for_scan {L} (error_text : UdfError -> string) (delta parquet : CatalogTable -> result UdfError L) (s : UnityCatalogSession) (table_identifier : string) : result UdfError L :=
  let? ident := unity_table_ident table_identifier in
  let? t := unity_load_table error_text s ident in
  open_unity_table delta parquet t.

Definition glue_load_for_scan {L} (iceberg parquet : CatalogTable -> result UdfError L) (s : GlueCatalogSession) (table_identifier : string) : result UdfError L :=
  let? ident := parse_glue_table_ident table_identifier in
  let? t := glue_load_table s ident in
  open_glue_table iceberg parquet t.

(** ** No matching file of a Glue table is lost *)

(** A query of a Glue table reads every file that can hold a matching row: a
    registered partition with a row the filter is TRUE on, its partition columns read as
    the values Glue records under their declared types, is listed at its own location,
    and each of its files is planned with those values, as hex for a binary column; such
    a partition that cannot be read - of another input format, in another bucket, or at
    an unreadable location - fails the query instead of losing its rows. *)
Theorem glue_plan_keeps_matches `{UC : UnicodeCase} `{HX : Hex} `{SL : ScalarLaws} {S} {OS : ObjectStore S} {U} {SU : StoreUrls U} `{!EqDecision U}
    error_text url_display partitions store table_root storage declared filter planned p row other :
  let columns := ColumnNotes.partition_columns declared in
  let types := partition_column_types (logical_schema declared) columns in
  catalog_parquet_prune error_text url_display (MkCatalogParquet (GluePartitions partitions store table_root storage)) declared (Some filter) = Ok planned ->
  p ∈ partitions -> Forall (fun nt => comparable nt.2) types -> reads_logged types (cp_values p) row ->
  means (value_of row other) value_compare filter (Some true) ->
  exists prefix listed, readable_partition_prefix url_display p table_root = Ok prefix /\ list_location_files store prefix AnyDirectChild = Ok listed
    /\ forall f, f ∈ listed -> exists e, e ∈ pf_files planned
         /\ path e = path (file_entry (with_partition_values f (cp_values p)) table_root) /\ size e = lp_size f /\ deletes e = []
         /\ forall column, partition_values e !! column = hexed (logical_schema declared) column <$> list_to_map (M := gmap string (option string)) (cp_values p) !! column.
Proof.
  intros columns types Hprune Hp Hc Hl Hm. unfold catalog_parquet_prune, source_plan, plan_glue_partitions in Hprune. cbn [cp_files] in Hprune. fold columns types in Hprune.
  destruct (try_map _ _) as [kept|] eqn:Ek; [|done]. destruct (try_map (partition_files store table_root) kept) as [files|] eqn:Ef; [|done]. cbn in Hprune. injection Hprune as <-.
  eapply (try_map_elem _ _ _ p) in Ek as (entry & He & Hin).
  2: { apply list_elem_of_In, List.filter_In. split; [by apply list_elem_of_In|]. exact (translate_fuel_sound types _ row other Hl Hc (json_depth filter) filter (Some true) Hm). }
  destruct (readable_partition_prefix _ p table_root) as [prefix|]; [|done]. injection He as <-. exists prefix.
  eapply (try_map_elem _ _ _ (prefix, cp_values p) Ef) in Hin as (entries & He & Hin). unfold partition_files in He. cbn [fst snd] in He.
  destruct (list_location_files store prefix AnyDirectChild) as [listed|]; [|done]. injection He as <-. exists listed. split_and!; [done|done|]. intros f Hf.
  destruct (hexed_files (sort_by_text path (List.concat files)) (logical_schema declared) (file_entry (with_partition_values f (cp_values p)) table_root)) as (e & He & H1 & H2 & H3 & H4).
  { rewrite sort_by_text_perm. apply list_elem_of_In, in_concat. eexists. split; [by apply list_elem_of_In|]. apply (in_map (fun file => file_entry (with_partition_values file (cp_values p)) table_root)). by apply list_elem_of_In. }
  by exists e.
Qed.

(** A store of one bucket, listed by the directories of its objects. *)
Definition bucket_store : ObjectStore (list ObjectMeta) :=
  {| store_list st prefix := Err "unused";
     list_with_delimiter st prefix :=
       Ok (List.filter (fun m => match prefix_match prefix (location m) with Some [_] => true | _ => false end) st, []) |}.
Definition sale_objects : list ObjectMeta :=
  [MkMeta ["elsewhere"; "eu"; "000000_0"] 7; MkMeta ["elsewhere"; "eu"; "sub"; "b"] 5; MkMeta ["t"; "region=us"; "c"] 3].
Definition sale_partitions : list CatalogPartition :=
  [MkPartition [("region", Some "eu")] "s3a://bucket/elsewhere/eu" PfParquet; MkPartition [("region", Some "us")] "s3://bucket/t/region=us" (PfUnsupported "orc")].
Definition sale_root : ObjectLocation string := MkLocation "s3://bucket" ["t"].
Definition sale_schema : DeclaredSchema :=
  MkDeclaredSchema "T" [MkLogicalField None "region" "utf8" true None None None] ["region"] [].

(** Of two registered partitions, one outside the table's directory and one that is not
    Parquet, a filter that needs only the first reads it from where it lies. *)
Lemma glue_plan_keeps_matches_witness :
  exists planned, catalog_parquet_prune (UC := ascii_case) (HX := plain_hex) (SO := plain_scalars) (OS := bucket_store) (SU := bucket_urls) (fun _ => "") id
      (MkCatalogParquet (GluePartitions sale_partitions sale_objects sale_root (Adls "acct" (Sas "s")))) sale_schema (Some region_filter) = Ok planned
    /\ exists e, e ∈ pf_files planned /\ size e = 7%N /\ partition_values e !! "region" = Some (Some "eu").
Proof.
  destruct (catalog_parquet_prune _ _ _ _ _) as [planned|] eqn:Eplan; [|vm_compute in Eplan; discriminate]. exists planned. split; [done|].
  destruct (glue_plan_keeps_matches (UC := ascii_case) (HX := plain_hex) (SL := plain_scalars_laws) (OS := bucket_store) (SU := bucket_urls) (fun _ => "") id
    sale_partitions sale_objects sale_root (Adls "acct" (Sas "s")) sale_schema region_filter planned
    (MkPartition [("region", Some "eu")] "s3a://bucket/elsewhere/eu" PfParquet) (fun c => if String.eqb c "REGION" then Some (VText "eu") else None) (fun _ => None) Eplan)
    as (prefix & listed & Hprefix & Hlisted & Hfiles).
  - by left.
  - by repeat constructor.
  - intros column logged. unfold partition_value. cbn [cp_values List.find]. unfold folds_to.
    destruct (String.eqb_spec (to_uppercase (UnicodeCase := ascii_case) (fst ("region", Some "eu"))) column) as [<-|]; [|done].
    intros [= <-]. by exists (SvText TUtf8 "eu").
  - eapply (means_comparison _ _ _ Equal); [reflexivity..|vm_compute; reflexivity].
  - vm_compute in Hprefix. injection Hprefix as <-. vm_compute in Hlisted. injection Hlisted as <-.
    destruct (Hfiles _ (list_elem_of_here _ _)) as (e & He & _ & Hs & _ & Hv). exists e. split_and!; [exact He|exact Hs|]. rewrite Hv. reflexivity.
Defined.

(** ** The overridden listings *)

Lemma try_map_served {A B C E} (f : A -> result E C) (g : B -> C) (key : B -> A) l :
  (forall x, x ∈ l -> f (key x) = Ok (g x)) -> try_map f (map key l) = Ok (map g l).
Proof.
  induction l as [|x l IH]; [done|]. intros H. cbn [map try_map]. rewrite (H x) by by left. rewrite IH; [done|]. intros y Hy. apply H. by right.
Qed.

Lemma try_map_agree {A B C E} (f : A -> result E C) (g : B -> result E C) (key : B -> A) l :
  (forall x, x ∈ l -> f (key x) = g x) -> try_map f (map key l) = try_map g l.
Proof.
  induction l as [|x l IH]; [done|]. intros H. cbn [map try_map]. rewrite (H x) by by left. rewrite IH; [done|]. intros y Hy. apply H. by right.
Qed.

Lemma filter_keyed {A B} (p : B -> bool) (key : A -> B) (l : list A) :
  List.filter p (map key l) = map key (List.filter (fun x => p (key x)) l).
Proof. induction l as [|x l IH]; [done|]. cbn. rewrite IH. by destruct (p (key x)). Qed.

Lemma elem_of_filtered {A} (p : A -> bool) x l : x ∈ List.filter p l -> x ∈ l.
Proof. rewrite !list_elem_of_In, List.filter_In. by intros []. Qed.

(** The native catalogs' one-request listings are the default listing - list the
    identifiers, keep the exposed ones, load each - so a refresh shows the same tables
    and the same skipped-table notes whichever of the two serves it: for a Unity catalog
    whose identifier listing names the tables of its full listing and whose single-table
    answers describe them as that listing does; and for a Glue database whose GetTable
    answers are the entries of its GetTables listing, a refused Iceberg metadata file
    failing both alike. A listing that fails fails both. *)
Theorem native_listings_agree error_text us gs ns exposes fuel :
  (forall catalog schema, unity_namespace ns = Ok (catalog, schema) ->
     match list_table_infos us catalog schema with
     | Ok infos => list_table_names us catalog schema = Ok (map ti_name infos)
         /\ forall info, info ∈ infos -> fetch_table_info us (full_name (MkIdent ns (ti_name info))) = Ok info
     | Err e => list_table_names us catalog schema = Err e
     end) ->
  (forall database tables, glue_database ns = Ok database -> glue_tables fuel gs database = Some (Ok tables) ->
     forall t, t ∈ tables -> get_glue_table gs database (gt_name t) = Ok (Some t)) ->
  unity_list_tables us ns exposes = list_tables (H := unity_client error_text) us ns exposes
  /\ glue_list_tables error_text fuel gs ns exposes
     = (fun idents => let? idents := idents in glue_load_listed error_text gs (List.filter exposes idents)) <$> glue_list_idents fuel gs ns.
Proof.
  intros Hu Hg. split.
  - unfold unity_list_tables, list_tables. cbn [list_table_idents load_listed_tables unity_client].
    destruct (unity_namespace ns) as [[catalog schema]|]; [|done]. specialize (Hu catalog schema eq_refl). cbn.
    destruct (list_table_infos us catalog schema) as [infos|e]; [|by rewrite Hu]. destruct Hu as [-> Hu]. cbn.
    rewrite map_map, !filter_keyed, map_map. cbn [fst snd].
    rewrite (try_map_served _ (fun info => unity_admit (MkIdent ns (ti_name info)) info) (fun info => MkIdent ns (ti_name info))); [done|].
    intros info Hin%elem_of_filtered. unfold get_table_info. by rewrite Hu.
  - unfold glue_list_tables, glue_list_idents, glue_load_listed. destruct (glue_database ns) as [database|] eqn:Ed; [|done].
    destruct (glue_tables fuel gs database) as [[tables|]|] eqn:Et; [|done..]. cbn. f_equal. rewrite !filter_keyed.
    rewrite (try_map_agree (fun ident => let? table := glue_get_table gs ident in glue_admit error_text gs ident table)
      (fun t => glue_admit error_text gs (MkIdent ns (gt_name t)) t) (fun t => MkIdent ns (gt_name t))).
    + rewrite (try_map_agree (fun p => glue_admit error_text gs p.1 p.2) (fun t => glue_admit error_text gs (MkIdent ns (gt_name t)) t) (fun t => (MkIdent ns (gt_name t), t))); done.
    + intros t Hin%elem_of_filtered. unfold glue_get_table. cbn [namespace ident_name]. rewrite Ed. cbn. by rewrite (Hg database tables eq_refl Et t Hin).
Qed.

(** A Unity schema with a Delta table, a view and a table the filter hides, and a Glue
    database with a Parquet table and a view. *)
Definition unity_shop : UnityCatalogSession :=
  let infos := [MkTableInfo "sales" "EXTERNAL" (Some "s3://b/s") (Some "DELTA") (Some "id") [] None; MkTableInfo "v" "VIEW" None None None [] None; MkTableInfo "hidden" "MANAGED" None (Some "DELTA") None [] None] in
  MkUnity (fun _ _ => Ok infos) (fun _ _ => Ok (map ti_name infos))
    (fun name => match List.find (fun i => String.eqb name ("main.shop." ++ ti_name i)) infos with Some i => Ok i | None => Err (User "absent") end).
Definition glue_shop : GlueCatalogSession :=
  let tables := [MkGlueTable "v" (Some VIEW_TABLE_TYPE) None None []; MkGlueTable "sales" None None (Some (MkDescriptor (Some "s3://b/s") (Some PARQUET_INPUT_FORMAT) [])) []] in
  MkGlue (fun _ _ _ => Err "unused") (fun _ _ => Ok (tables, None))
    (fun _ name => Ok (List.find (fun t => String.eqb name (gt_name t)) tables)) (fun _ _ => Err (User "unused")) [].

Lemma native_listings_agree_witness :
  (exists listing, unity_list_tables unity_shop ["main"; "shop"] (fun i => negb (String.eqb (ident_name i) "hidden")) = Ok listing
     /\ map (fun t => ident_name (ct_ident t)) (li_tables listing) = ["sales"] /\ List.length (li_skipped listing) = 1%nat
     /\ list_tables (H := unity_client (fun _ => "")) unity_shop ["main"; "shop"] (fun i => negb (String.eqb (ident_name i) "hidden")) = Ok listing)
  /\ glue_list_tables (fun _ => "") 1 glue_shop ["main"] (fun _ => true)
     = (fun idents => let? idents := idents in glue_load_listed (fun _ => "") glue_shop (List.filter (fun _ => true) idents)) <$> glue_list_idents 1 glue_shop ["main"].
Proof.
  split.
  - eexists. split; [reflexivity|]. split; [reflexivity|]. split; [reflexivity|].
    rewrite <- (proj1 (native_listings_agree (fun _ => "") unity_shop glue_shop ["main"; "shop"] (fun i => negb (String.eqb (ident_name i) "hidden")) 1
      ltac:(intros catalog schema [= <- <-]; split; [reflexivity|]; intros info; by repeat (intros [->|H]%elem_of_cons; [reflexivity|revert H]; try by intros ?%elem_of_nil))
      ltac:(by intros))). reflexivity.
  - apply (proj2 (native_listings_agree (fun _ => "") unity_shop glue_shop ["main"] (fun _ => true) 1 ltac:(by intros)
      ltac:(intros database tables [= <-] [= <-] t; by repeat (intros [->|H]%elem_of_cons; [reflexivity|revert H]; try by intros ?%elem_of_nil)))).
Defined.
