(* ===== verification/DeletionVectors.v ===== *)
(** crates/lakehouse-engine/src/scan/deletion_vectors.rs and the deletion-vector side
    of crates/lakehouse-engine/src/scan/row_deletes.rs: what a mechanism resolves to,
    the ranges fetched for the blobs of a Puffin file, and their decoding. Integers
    are [u64] values as [Z]; an [i32] or [i64] is its [Z]. *)

From stdpp Require Import base list strings numbers gmap sorting.
From Stdlib Require Import Ascii String ZArith NArith Lia Sorted Permutation.
From S2P Require Import Prelude Redaction RoaringSets ScanFiles RowDeletes.

Local Open Scope string_scope.
Local Open Scope Z_scope.

(** ** Refusals *)

Definition refusal (format data_file_path reason : string) (secrets : list string) : UdfError :=
  User (redact_error_text
    ("data file '" ++ data_file_path ++ "' carries a " ++ format
     ++ " deletion vector this scan cannot apply: " ++ reason
     ++ "; refusing to emit rows for the affected data file") secrets).

(** ** Iceberg: a blob of a Puffin file *)

Record IcebergDeletionVector := { dv_path : string; range_start : Z; range_end : Z; dv_cardinality : Z }.

Definition U64_MAX : Z := u64_max.

(** [checked_add(..).filter(|end| end <= size)] *)
Definition iceberg_resolve (path : string) (size content_offset content_size_in_bytes record_count : Z)
    (data_file_path : string) (secrets : list string) : result UdfError IcebergDeletionVector :=
  let end_ := content_offset + content_size_in_bytes in
  if (end_ <=? U64_MAX) && (end_ <=? size) then
    Ok {| dv_path := path; range_start := content_offset; range_end := end_; dv_cardinality := record_count |}
  else
    Err (refusal "Iceberg" data_file_path
      ("its blob at offset " ++ show_Z content_offset ++ " with " ++ show_Z content_size_in_bytes
       ++ " bytes lies outside the " ++ show_Z size ++ "-byte Puffin file") secrets).

Section Decode.
Context {S : Type} {RB : Roaring S}.

(** [iceberg::DeleteVector::deserialize] to positions, and
    [RoaringTreemap::from_sorted_iter]. *)
Context (deserialize : list Byte.byte -> result string (list Z)) (from_sorted_iter : list Z -> result string S).

Definition iceberg_decode_positions (v : IcebergDeletionVector) (blob : list Byte.byte) : result string S :=
  match deserialize blob with
  | Err e => Err ("it could not be decoded: " ++ e)
  | Ok vector =>
      let len := Z.of_nat (List.length vector) in
      if negb (len =? v.(dv_cardinality)) then
        Err ("it decodes to " ++ show_Z len ++ " positions but the manifest declares a cardinality of "
             ++ show_Z v.(dv_cardinality))
      else
        match from_sorted_iter vector with
        | Ok s => Ok s
        | Err e => Err ("its positions are not ascending: " ++ e)
        end
  end.

Definition iceberg_decode (v : IcebergDeletionVector) (blob : list Byte.byte) (data_file_path : string)
    (secrets : list string) : result UdfError S :=
  match iceberg_decode_positions v blob with
  | Ok s => Ok s
  | Err reason => Err (refusal "Iceberg" data_file_path reason secrets)
  end.
End Decode.

(** ** Delta: a logged descriptor *)

Definition PORTABLE_MAGIC_BYTES : Z := 4.
Definition MIN_INLINE_PAYLOAD_CHARS : nat := 10.

Record LoggedDeletionVector := {
  storage : DeltaDeletionVectorStorage;
  path_or_inline_dv : string;
  offset : option Z;
  size_in_bytes : Z;
  cardinality : Z;
}.

Inductive DeletionVectorStorageType := PersistedRelative | PersistedAbsolute | InlineStorage.

Section Delta.
(** [delta_kernel]'s descriptor and [url::Url]. *)
Context {Descriptor Url S : Type} {RB : Roaring S}.
Context (try_new : DeletionVectorStorageType -> string -> option Z -> Z -> Z -> result string Descriptor).
Context (absolute_path : Descriptor -> Url -> result string (option Url)).
Context (Url_parse : string -> result string Url) (Url_as_str : Url -> string).
Context (Url_eqb : Url -> Url -> bool).

Record DeltaVector := { descriptor : Descriptor; sidecar : option Url; declared : Z }.

Definition map_err {E E' A} (f : E -> E') (r : result E A) : result E' A :=
  match r with Ok a => Ok a | Err e => Err (f e) end.

Definition kernel_descriptor (storage_type : DeletionVectorStorageType) (path : string) (logged : LoggedDeletionVector) :
    result string Descriptor :=
  map_err (fun e => "the log describes it invalidly: " ++ e)
    (try_new storage_type path logged.(offset) logged.(size_in_bytes) logged.(cardinality)).

Definition table_root_url (table_root : string) : result string Url :=
  let base :=
    match String.get (String.length table_root - 1) table_root with
    | Some c => if Ascii.eqb c "/" then table_root else table_root ++ "/"
    | None => table_root ++ "/"
    end in
  map_err (fun e => "the scan's table root is not a URL: " ++ e) (Url_parse base).

Definition sidecar_of (logged : LoggedDeletionVector) (table_root : string) : result string (option Url) :=
  match logged.(storage) with
  | Inline => Ok None
  | UuidRelative =>
      let? d := kernel_descriptor PersistedRelative logged.(path_or_inline_dv) logged in
      let? root := table_root_url table_root in
      let? found := map_err (fun e => "its sidecar path could not be reconstructed: " ++ e) (absolute_path d root) in
      let? url := ok_or found "its sidecar path could not be reconstructed" in
      Ok (Some url)
  | AbsolutePath =>
      let? url := map_err (fun e => "its absolute sidecar path is not a URL: " ++ e)
                    (Url_parse logged.(path_or_inline_dv)) in
      Ok (Some url)
  end.

Definition resolve_descriptor (logged : LoggedDeletionVector) (table_root : string) : result string DeltaVector :=
  if logged.(cardinality) <? 0 then
    Err ("the log declares a negative cardinality of " ++ show_Z logged.(cardinality))
  else
    let inline := bool_decide (logged.(storage) = Inline) in
    if inline && (String.length logged.(path_or_inline_dv) <? MIN_INLINE_PAYLOAD_CHARS)%nat then
      Err "its inline payload is too short to carry a bitmap"
    else if negb inline && (logged.(size_in_bytes) <? PORTABLE_MAGIC_BYTES) then
      Err ("the log declares a size of " ++ show_Z logged.(size_in_bytes) ++ " bytes, smaller than the "
           ++ show_Z PORTABLE_MAGIC_BYTES ++ "-byte magic every bitmap starts with")
    else
      let? sidecar := sidecar_of logged table_root in
      let '(storage_type, path) :=
        match sidecar with
        | Some location => (PersistedAbsolute, Url_as_str location)
        | None => (InlineStorage, logged.(path_or_inline_dv))
        end in
      let? descriptor := kernel_descriptor storage_type path logged in
      Ok {| descriptor := descriptor; sidecar := sidecar; declared := logged.(cardinality) |}.

Definition delta_resolve (logged : LoggedDeletionVector) (table_root data_file_path : string) (secrets : list string) :
    result UdfError DeltaVector :=
  map_err (fun reason => refusal "Delta" data_file_path reason secrets) (resolve_descriptor logged table_root).

(** *** Prefetched bytes *)

(** [PrefetchedDeletionVectorBytes]: at most one body. *)
Definition bodies : Type := list (Url * list Byte.byte).

Definition body_of (b : bodies) (location : Url) (range : option (Z * Z)) : result string (list Byte.byte) :=
  match List.find (fun kv => Url_eqb kv.1 location) b with
  | None => Err ("no pre-fetched deletion-vector body for " ++ Url_as_str location)
  | Some (_, body) =>
      match range with
      | None => Ok body
      | Some (s, e) =>
          if (e <? s) || (Z.of_nat (List.length body) <? e) then
            Err ("bytes " ++ show_Z s ++ ".." ++ show_Z e ++ " lie outside the "
                 ++ show_nat (List.length body) ++ "-byte pre-fetched deletion-vector body for " ++ Url_as_str location)
          else Ok (take (Z.to_nat (e - s)) (drop (Z.to_nat s) body))
      end
  end.

Definition holding (v : DeltaVector) (sidecar_bytes : option (list Byte.byte)) : bodies :=
  match v.(sidecar), sidecar_bytes with Some location, Some body => [(location, body)] | _, _ => [] end.

(** [descriptor.read(storage, parent)]. *)
Context (read : Descriptor -> bodies -> result string S).

Definition delta_decode_positions (v : DeltaVector) (sidecar_bytes : option (list Byte.byte)) : result string S :=
  let? positions := map_err (fun e => "it could not be decoded: " ++ e) (read v.(descriptor) (holding v sidecar_bytes)) in
  if negb (rb_len positions =? v.(declared)) then
    Err ("it decodes to " ++ show_Z (rb_len positions) ++ " positions but the log declares a cardinality of "
         ++ show_Z v.(declared))
  else Ok positions.

Definition delta_decode (v : DeltaVector) (sidecar_bytes : option (list Byte.byte)) (data_file_path : string)
    (secrets : list string) : result UdfError S :=
  map_err (fun reason => refusal "Delta" data_file_path reason secrets) (delta_decode_positions v sidecar_bytes).

(** ** What a mechanism resolves to *)

Inductive ApplicableDelete :=
| PositionalDeleteFile (path : string) (size : N)
| ApplicableDelta (v : DeltaVector)
| ApplicableIceberg (v : IcebergDeletionVector).

Definition applicable_delete_mechanism (delete : DeleteMechanism) (data_file_path table_root : string)
    (secrets : list string) : result UdfError ApplicableDelete :=
  match delete with
  | IcebergPositionalDelete path size => Ok (PositionalDeleteFile path size)
  | DeltaDeletionVector storage path_or_inline_dv offset size_in_bytes cardinality =>
      let? v := delta_resolve {| storage := storage; path_or_inline_dv := path_or_inline_dv; offset := offset;
                                 size_in_bytes := size_in_bytes; cardinality := cardinality |}
                  table_root data_file_path secrets in
      Ok (ApplicableDelta v)
  | IcebergPuffinDeletionVector path size content_offset content_size_in_bytes record_count =>
      let? v := iceberg_resolve path (Z.of_N size) (Z.of_N content_offset) (Z.of_N content_size_in_bytes)
                  (Z.of_N record_count) data_file_path secrets in
      Ok (ApplicableIceberg v)
  | IcebergEqualityDelete path _ =>
      Err (User ("assigned delete file '" ++ redact path secrets
        ++ "' is an Iceberg equality delete, which this engine cannot apply on read (only Iceberg Parquet positional deletes and deletion vectors are supported); refusing to emit rows for the affected data file"))
  end.

(** ** The classification of [collect_positions]

    [delete_files] keeps the first size of a path; the vectors keep the files' order. *)
Record Classified := {
  delete_files : gmap string N;
  delta_vectors : list (string * DeltaVector);
  iceberg_vectors : list (string * IcebergDeletionVector);
}.

Definition classify_one (table_root : string) (secrets : list string) (c : Classified) (entry : FileEntry)
    (delete : DeleteMechanism) : result UdfError Classified :=
  let? a := applicable_delete_mechanism delete entry.(path) table_root secrets in
  Ok match a with
     | PositionalDeleteFile p size =>
         {| delete_files := match c.(delete_files) !! p with
                            | Some _ => c.(delete_files)
                            | None => <[p := size]> c.(delete_files)
                            end;
            delta_vectors := c.(delta_vectors); iceberg_vectors := c.(iceberg_vectors) |}
     | ApplicableDelta v =>
         {| delete_files := c.(delete_files);
            delta_vectors := (c.(delta_vectors) ++ [(entry.(path), v)])%list;
            iceberg_vectors := c.(iceberg_vectors) |}
     | ApplicableIceberg v =>
         {| delete_files := c.(delete_files); delta_vectors := c.(delta_vectors);
            iceberg_vectors := (c.(iceberg_vectors) ++ [(entry.(path), v)])%list |}
     end.

(** A loop that returns at the first error. *)
Fixpoint try_fold {A B E} (f : B -> A -> result E B) (b : B) (l : list A) : result E B :=
  match l with [] => Ok b | x :: l' => let? b' := f b x in try_fold f b' l' end.

Definition classify (table_root : string) (secrets : list string) (files : list FileEntry) : result UdfError Classified :=
  try_fold (fun c entry => try_fold (fun c d => classify_one table_root secrets c entry d) c entry.(deletes))
    {| delete_files := ∅; delta_vectors := []; iceberg_vectors := [] |} files.

End Delta.

(** ** Blob ranges of one Puffin file *)

Definition OBJECT_STORE_COALESCE_DEFAULT : Z := 1048576.
Definition PUFFIN_MAX_MERGED_REQUEST_BYTES : Z := 8388608.

Notation blob_range := (Z * Z)%type.

(** The requests so far, the open one first: its range and its count of blobs. *)
Definition merge_step (max_gap max_len : Z) (requests : list (blob_range * nat)) (range : blob_range) :
    list (blob_range * nat) :=
  match requests with
  | ((start, end_), blob_count) :: older =>
      if (Z.max 0 (range.1 - end_) <=? max_gap) && (Z.max range.2 end_ - start <=? max_len)
      then ((start, Z.max end_ range.2), Datatypes.S blob_count) :: older
      else (range, 1%nat) :: requests
  | [] => [(range, 1%nat)]
  end.

Definition merge_blob_ranges (ranges : list blob_range) (max_gap max_len : Z) : list (blob_range * nat) :=
  reverse (fold_left (merge_step max_gap max_len) ranges []).

(** [sort_by_key(|(_, v)| v.range.start)], stable. *)
Notation member := (string * IcebergDeletionVector)%type.

Fixpoint insert_by_start (m : member) (sorted : list member) : list member :=
  match sorted with
  | [] => [m]
  | x :: rest => if m.2.(range_start) <? x.2.(range_start) then m :: sorted else x :: insert_by_start m rest
  end.

Definition sort_by_start (members : list member) : list member :=
  fold_left (fun sorted m => insert_by_start m sorted) members [].

(** [members.by_ref().take(blob_count)] request after request. *)
Fixpoint deal (members : list member) (requests : list (blob_range * nat)) : list (blob_range * list member) :=
  match requests with
  | [] => []
  | (request, count) :: rest => (request, take count members) :: deal (drop count members) rest
  end.

Definition member_range (m : member) : blob_range := (m.2.(range_start), m.2.(range_end)).

(** The requests for one Puffin file, each with the vectors it serves. *)
Definition puffin_requests (members : list member) : list (blob_range * list member) :=
  let sorted := sort_by_start members in
  deal sorted (merge_blob_ranges (map member_range sorted) OBJECT_STORE_COALESCE_DEFAULT PUFFIN_MAX_MERGED_REQUEST_BYTES).

(** [Bytes::slice] panics outside the bytes. *)
Definition slice (body : list Byte.byte) (a b : Z) : option (list Byte.byte) :=
  if (0 <=? a) && (a <=? b) && (b <=? Z.of_nat (List.length body))
  then Some (take (Z.to_nat (b - a)) (drop (Z.to_nat a) body)) else None.

(** The blob handed to a vector's decoder, out of the request's body. *)
Definition blob_of (request : blob_range) (body : list Byte.byte) (m : member) : option (list Byte.byte) :=
  slice body (m.2.(range_start) - request.1) (m.2.(range_end) - request.1).

(** ** Facts on merging *)

(** A request and the ranges it covers. *)
Record covers (max_len : Z) (request : blob_range * nat) (group : list blob_range) : Prop := {
  cov_count : request.2 = List.length group;
  cov_within : forall r, r ∈ group -> request.1.1 <= r.1 /\ r.2 <= request.1.2;
  cov_start : exists r, r ∈ group /\ r.1 = request.1.1;
  cov_end : exists r, r ∈ group /\ r.2 = request.1.2;
  cov_len : (List.length group > 1)%nat -> request.1.2 - request.1.1 <= max_len;
}.

Lemma covers_single max_len r : covers max_len (r, 1%nat) [r].
Proof.
  split; cbn.
  - done.
  - intros x ->%list_elem_of_singleton. lia.
  - exists r. split; [left|done].
  - exists r. split; [left|done].
  - lia.
Qed.

Lemma covers_extend max_len start end_ count group r :
  covers max_len ((start, end_), count) group -> start <= r.1 ->
  Z.max r.2 end_ - start <= max_len ->
  covers max_len ((start, Z.max end_ r.2), Datatypes.S count) (group ++ [r])%list.
Proof.
  intros [Hc Hw (rs & Hrs & Es) (re & Hre & Ee) Hl] Hr Hlen. cbn in *. split; cbn.
  - rewrite length_app. cbn. lia.
  - intros x [Hx| ->%list_elem_of_singleton]%elem_of_app; [specialize (Hw x Hx); lia|lia].
  - exists rs. split; [apply elem_of_app; by left|done].
  - destruct (Z.max_spec end_ r.2) as [[_ ->]|[_ ->]].
    + exists r. split; [apply elem_of_app; right; left|done].
    + exists re. split; [apply elem_of_app; by left|done].
  - intros _. lia.
Qed.

(** The open request first, its group too. *)
Lemma merge_fold_spec max_gap max_len ranges requests groups :
  StronglySorted (fun a b => a.1 <= b.1) (List.concat (reverse groups) ++ ranges)%list ->
  Forall2 (covers max_len) requests groups ->
  exists groups', Forall2 (covers max_len) (fold_left (merge_step max_gap max_len) ranges requests) groups'
    /\ List.concat (reverse groups') = (List.concat (reverse groups) ++ ranges)%list.
Proof.
  revert requests groups. induction ranges as [|r ranges IH]; intros requests groups Hs Hc.
  - exists groups. by rewrite app_nil_r.
  - assert (Hopen : exists groups1, Forall2 (covers max_len) (merge_step max_gap max_len requests r) groups1
      /\ List.concat (reverse groups1) = (List.concat (reverse groups) ++ [r])%list).
    { assert (Hnew : Forall2 (covers max_len) ((r, 1%nat) :: requests) ([r] :: groups)).
      { constructor; [apply covers_single|done]. }
      assert (Hnewc : List.concat (reverse ([r] :: groups)) = (List.concat (reverse groups) ++ [r])%list).
      { rewrite reverse_cons, List.concat_app. done. }
      destruct Hc as [|[[start end_] count] g older groups Hg Hold]; cbn [merge_step]; [by exists [[r]]|].
      destruct (_ && _) eqn:Em; [|by exists ([r] :: g :: groups)].
      apply andb_prop in Em as [_ Hlen%Z.leb_le]. exists ((g ++ [r])%list :: groups). split.
      - constructor; [|done]. apply covers_extend; [done| |done].
        destruct (cov_start _ _ _ Hg) as (rs & Hrs & Es). cbn in Es. rewrite <- Es.
        refine (StronglySorted_app_1_elem_of (fun a b : blob_range => a.1 <= b.1) _ _ rs r Hs _ _); [|left].
        rewrite reverse_cons, List.concat_app. apply elem_of_app. right. cbn. by rewrite app_nil_r.
      - rewrite !reverse_cons, !List.concat_app. cbn. by rewrite !app_nil_r, app_assoc. }
    destruct Hopen as (groups1 & Hc1 & Hcat1). cbn [fold_left].
    destruct (IH (merge_step max_gap max_len requests r) groups1) as (groups' & Hc' & Hcat'); [|done|].
    + rewrite Hcat1, <- app_assoc. done.
    + exists groups'. split; [done|]. rewrite Hcat', Hcat1, <- app_assoc. done.
Qed.

Lemma merge_blob_ranges_spec ranges max_gap max_len :
  StronglySorted (fun a b => a.1 <= b.1) ranges ->
  exists groups, Forall2 (covers max_len) (merge_blob_ranges ranges max_gap max_len) groups
    /\ List.concat groups = ranges.
Proof.
  intros Hs. destruct (merge_fold_spec max_gap max_len ranges [] []) as (groups & Hc & Hcat); [done|constructor|].
  exists (reverse groups). split; [|done]. by apply Forall2_reverse.
Qed.

(** ** Sorting and dealing *)

Lemma insert_by_start_perm m l : insert_by_start m l ≡ₚ m :: l.
Proof. induction l as [|x l IH]; [done|]. cbn. case_match; [done|]. rewrite IH. constructor. Qed.

Lemma fold_insert_start_perm members acc :
  fold_left (fun sorted m => insert_by_start m sorted) members acc ≡ₚ (acc ++ members)%list.
Proof.
  revert acc. induction members as [|m members IH]; intros acc; cbn; [by rewrite app_nil_r|].
  rewrite IH, insert_by_start_perm. cbn. by rewrite Permutation_middle.
Qed.

Lemma sort_by_start_perm members : sort_by_start members ≡ₚ members.
Proof. apply fold_insert_start_perm. Qed.

Notation by_start := (fun a b : member => a.2.(range_start) <= b.2.(range_start)).

Lemma insert_by_start_sorted m l : StronglySorted by_start l -> StronglySorted by_start (insert_by_start m l).
Proof.
  induction 1 as [|x l Hl IH Hx]; [repeat constructor|]. cbn. rewrite Forall_forall in Hx.
  destruct (Z.ltb_spec (range_start m.2) (range_start x.2)).
  - constructor; [constructor; [done|by apply Forall_forall]|]. apply Forall_forall.
    intros y [->|Hy]%elem_of_cons; [lia|]. specialize (Hx y Hy). lia.
  - constructor; [done|]. apply Forall_forall. intros y. rewrite insert_by_start_perm, elem_of_cons.
    intros [->|Hy]; [lia|]. by apply Hx.
Qed.

Lemma sort_by_start_sorted members : StronglySorted by_start (sort_by_start members).
Proof.
  unfold sort_by_start. assert (H : StronglySorted by_start []) by constructor. revert H. generalize (@nil member).
  induction members as [|m members IH]; intros acc H; cbn; [done|]. by apply IH, insert_by_start_sorted.
Qed.

Lemma sorted_ranges members :
  StronglySorted by_start members -> StronglySorted (fun a b : blob_range => a.1 <= b.1) (map member_range members).
Proof.
  induction 1 as [|m l _ IH Hm]; [constructor|]. cbn. constructor; [done|]. rewrite Forall_forall in Hm.
  apply Forall_forall. intros r (x & -> & Hx)%list_elem_of_fmap. by apply Hm.
Qed.

Definition file_slice (file : list Byte.byte) (r : blob_range) : list Byte.byte :=
  take (Z.to_nat (r.2 - r.1)) (drop (Z.to_nat r.1) file).

Definition in_file (file : list Byte.byte) (r : blob_range) : Prop :=
  0 <= r.1 <= r.2 /\ r.2 <= Z.of_nat (List.length file).

(** A blob cut out of the request's body is that range of the file. *)
Lemma blob_of_exact file request m :
  in_file file request -> in_file file (member_range m) ->
  request.1 <= (member_range m).1 -> (member_range m).2 <= request.2 ->
  blob_of request (file_slice file request) m = Some (file_slice file (member_range m)).
Proof.
  unfold in_file, blob_of, slice, file_slice, member_range. destruct request as [rs re]. cbn [fst snd].
  intros [Hr1 Hr2] [Hm1 Hm2] Hs He. rewrite length_take, length_drop.
  destruct (Z.leb_spec 0 (range_start m.2 - rs)); [|lia].
  destruct (Z.leb_spec (range_start m.2 - rs) (range_end m.2 - rs)); [|lia].
  destruct (Z.leb_spec (range_end m.2 - rs) (Z.of_nat (Z.to_nat (re - rs) `min` (List.length file - Z.to_nat rs)))); [|lia].
  cbn [andb]. f_equal.
  replace (Z.to_nat (re - rs)) with
    (Z.to_nat (range_start m.2 - rs) + Z.to_nat (re - range_start m.2))%nat by lia.
  rewrite <- take_drop_commute, drop_drop, take_take. f_equal; [lia|]. f_equal. lia.
Qed.

(** Every request of [deal] serves its own group. *)
Lemma deal_spec max_len requests members groups :
  Forall2 (covers max_len) requests groups -> List.concat groups = map member_range members ->
  Forall2 (fun rm g => exists n, covers max_len (rm.1, n) g /\ map member_range rm.2 = g) (deal members requests) groups
  /\ List.concat (map snd (deal members requests)) = members.
Proof.
  intros Hc. revert members. induction Hc as [|[request count] g requests groups Hg _ IH]; intros members Hcat.
  - cbn in Hcat. destruct members; [|done]. split; [constructor|done].
  - cbn in Hcat. pose proof (cov_count _ _ _ Hg) as Hcount. cbn in Hcount. subst count.
    assert (Hg1 : map member_range (take (List.length g) members) = g).
    { rewrite <- firstn_map, <- Hcat. by rewrite take_app_length. }
    assert (Hg2 : List.concat groups = map member_range (drop (List.length g) members)).
    { rewrite <- skipn_map, <- Hcat. by rewrite drop_app_length. }
    destruct (IH _ Hg2) as [H1 H2]. split.
    + cbn. constructor; [|done]. exists (List.length g). done.
    + cbn. rewrite H2. by rewrite take_drop.
Qed.

(** The requests of a Puffin file serve each of its vectors once. *)
Lemma puffin_requests_perm members : List.concat (map snd (puffin_requests members)) ≡ₚ members.
Proof.
  destruct (merge_blob_ranges_spec (map member_range (sort_by_start members)) OBJECT_STORE_COALESCE_DEFAULT
    PUFFIN_MAX_MERGED_REQUEST_BYTES (sorted_ranges _ (sort_by_start_sorted members))) as (groups & Hc & Hcat).
  unfold puffin_requests. by rewrite (proj2 (deal_spec _ _ _ _ Hc Hcat)), sort_by_start_perm.
Qed.

(** Every deletion vector of a Puffin file is decoded from its own bytes: the
    merged requests deal every vector to exactly one request, and the slice handed to
    its decoder is precisely its blob of the file, without a panic; a request that
    serves more than one vector stays within the size cap. *)
Theorem puffin_blobs_exact file members :
  Forall (fun m => in_file file (member_range m)) members ->
  List.concat (map snd (puffin_requests members)) ≡ₚ members
  /\ Forall (fun '(request, blobs) =>
       in_file file request /\ blobs <> []
       /\ (forall m, m ∈ blobs ->
            blob_of request (file_slice file request) m = Some (file_slice file (member_range m)))
       /\ ((List.length blobs > 1)%nat -> request.2 - request.1 <= PUFFIN_MAX_MERGED_REQUEST_BYTES))
     (puffin_requests members).
Proof.
  intros Hin. split; [apply puffin_requests_perm|]. unfold puffin_requests.
  destruct (merge_blob_ranges_spec (map member_range (sort_by_start members)) OBJECT_STORE_COALESCE_DEFAULT
    PUFFIN_MAX_MERGED_REQUEST_BYTES (sorted_ranges _ (sort_by_start_sorted members))) as (groups & Hc & Hcat).
  destruct (deal_spec _ _ _ _ Hc Hcat) as [Hdeal Hall].
  apply Forall_forall. intros [request blobs] Hd.
  assert (Hsub : forall m, m ∈ blobs -> in_file file (member_range m)).
  { intros m Hm. rewrite Forall_forall in Hin. apply Hin. rewrite <- sort_by_start_perm, <- Hall.
    apply list_elem_of_In, in_concat. exists blobs. split; [|by apply list_elem_of_In].
    apply list_elem_of_In, list_elem_of_fmap. by exists (request, blobs). }
  apply list_elem_of_lookup in Hd as [i Hi].
  destruct (Forall2_lookup_l _ _ _ _ _ Hdeal Hi) as (g & _ & n & Hcov & Hmap). cbn in Hcov, Hmap.
  assert (Hg : forall r, r ∈ g -> exists m, m ∈ blobs /\ r = member_range m).
  { intros r Hr. rewrite <- Hmap in Hr. apply list_elem_of_fmap in Hr as (m & -> & Hm). eauto. }
  destruct (cov_start _ _ _ Hcov) as (rs & Hrs & Es). destruct (cov_end _ _ _ Hcov) as (re & Hre & Ee).
  destruct (Hg rs Hrs) as (ms & Hms & ->), (Hg re Hre) as (me & Hme & ->).
  pose proof (Hsub ms Hms) as [Hs1 Hs2]. pose proof (Hsub me Hme) as [He1 He2].
  pose proof (cov_within _ _ _ Hcov _ Hrs) as Hw. cbn in Es, Ee, Hw.
  assert (Hreq : in_file file request) by (unfold in_file, member_range in *; cbn [fst snd] in *; lia).
  split; [done|]. split; [by intros ->; apply elem_of_nil in Hms|]. split.
  - intros m Hm. assert (Hmg : member_range m ∈ g) by (rewrite <- Hmap; by apply list_elem_of_fmap_2).
    destruct (cov_within _ _ _ Hcov _ Hmg) as [H1 H2]. apply blob_of_exact; auto.
  - intros Hlen. apply (cov_len _ _ _ Hcov). by rewrite <- Hmap, length_map.
Qed.

(** Three blobs of a ten-byte file. *)
Lemma puffin_blobs_exact_witness :
  let v a b := {| dv_path := "p.puffin"; range_start := a; range_end := b; dv_cardinality := 1 |} in
  let members := [("c", v 6 10); ("a", v 0 2); ("b", v 2 6)] in
  List.concat (map snd (puffin_requests members)) ≡ₚ members.
Proof.
  intros v members. apply (puffin_blobs_exact (replicate 10 Byte.x00) members).
  subst members v. unfold in_file, member_range. repeat constructor; cbn; lia.
Defined.

(** ** No mechanism is skipped *)

Lemma iceberg_resolve_in_bounds path size content_offset content_size_in_bytes record_count data_file secrets v :
  0 <= content_offset -> 0 <= content_size_in_bytes ->
  iceberg_resolve path size content_offset content_size_in_bytes record_count data_file secrets = Ok v ->
  v.(dv_path) = path /\ 0 <= v.(range_start) <= v.(range_end) /\ v.(range_end) <= size
  /\ v.(range_end) - v.(range_start) = content_size_in_bytes.
Proof.
  intros Ho Hc. unfold iceberg_resolve. destruct (_ && _) eqn:E; [|done]. intros [= <-]. cbn.
  apply andb_prop in E as [_ E%Z.leb_le]. split; [done|]. lia.
Qed.

Section Coverage.
Context {Descriptor Url : Type}.
Context (try_new : DeletionVectorStorageType -> string -> option Z -> Z -> Z -> result string Descriptor).
Context (absolute_path : Descriptor -> Url -> result string (option Url)).
Context (Url_parse : string -> result string Url) (Url_as_str : Url -> string).
Context (table_root : string) (secrets : list string).

Notation classified := (@Classified Descriptor Url).
Notation one := (classify_one try_new absolute_path Url_parse Url_as_str table_root secrets).
Notation delta logged data_file := (delta_resolve try_new absolute_path Url_parse Url_as_str logged table_root data_file secrets).

(** The classified payloads include the mechanism's. *)
Definition represented (c : classified) (data_file : string) (d : DeleteMechanism) : Prop :=
  match d with
  | IcebergPositionalDelete p _ => is_Some (c.(delete_files) !! p)
  | IcebergEqualityDelete _ _ => False
  | IcebergPuffinDeletionVector p size o len n =>
      exists v, (data_file, v) ∈ c.(iceberg_vectors)
        /\ iceberg_resolve p (Z.of_N size) (Z.of_N o) (Z.of_N len) (Z.of_N n) data_file secrets = Ok v
  | DeltaDeletionVector storage dv offset size_in_bytes cardinality =>
      exists v, (data_file, v) ∈ c.(delta_vectors)
        /\ delta {| storage := storage; path_or_inline_dv := dv; offset := offset;
                    size_in_bytes := size_in_bytes; cardinality := cardinality |} data_file = Ok v
  end.

(** Classifying more only adds. *)
Definition grows (c c' : classified) : Prop :=
  (forall p s, c.(delete_files) !! p = Some s -> c'.(delete_files) !! p = Some s)
  /\ (forall x, x ∈ c.(delta_vectors) -> x ∈ c'.(delta_vectors))
  /\ (forall x, x ∈ c.(iceberg_vectors) -> x ∈ c'.(iceberg_vectors)).

#[local] Instance grows_preorder : PreOrder grows.
Proof. split; [by intros c|]. intros a b c (H1 & H2 & H3) (G1 & G2 & G3). repeat split; eauto. Qed.

Lemma represented_grows c c' data_file d : grows c c' -> represented c data_file d -> represented c' data_file d.
Proof.
  intros (H1 & H2 & H3). destruct d; cbn; [intros [s Hs]; eauto|done|..]; intros (v & Hv & Er); exists v; auto.
Qed.

Lemma classify_one_spec c entry d c' :
  one c entry d = Ok c' -> grows c c' /\ represented c' entry.(path) d.
Proof.
  unfold classify_one. destruct d; cbn [applicable_delete_mechanism].
  - intros [= <-]. split.
    + split; [|done]. cbn. intros p s Hp. destruct (delete_files c !! path) eqn:E; [done|].
      rewrite lookup_insert_ne; [done|congruence].
    + cbn. destruct (delete_files c !! path) eqn:E; [by rewrite E|]. by rewrite lookup_insert_eq.
  - done.
  - destruct (iceberg_resolve _ _ _ _ _ _ _) as [v|] eqn:Er; [|done]. intros [= <-]. split.
    + repeat split; cbn; auto. intros x Hx. apply elem_of_app. by left.
    + cbn. exists v. split; [apply elem_of_app; right; left|done].
  - destruct (delta_resolve _ _ _ _ _ _ _ _) as [v|] eqn:Er; [|done]. intros [= <-]. split.
    + repeat split; cbn; auto. intros x Hx. apply elem_of_app. by left.
    + cbn. exists v. split; [apply elem_of_app; right; left|done].
Qed.

Lemma try_fold_represents {A} (f : classified -> A -> result UdfError classified) (P : classified -> A -> Prop) l c c' :
  (forall c x c', f c x = Ok c' -> grows c c' /\ P c' x) ->
  (forall c c' x, grows c c' -> P c x -> P c' x) ->
  try_fold f c l = Ok c' -> grows c c' /\ forall x, x ∈ l -> P c' x.
Proof.
  intros Hf Hmono. revert c. induction l as [|x l IH]; intros c; cbn.
  - intros [= <-]. split; [reflexivity|]. intros x Hx. by apply elem_of_nil in Hx.
  - destruct (f c x) as [c1|] eqn:E1; [|done]. intros H. apply Hf in E1 as [Hg Hp].
    apply IH in H as [Hg' Hall]. split; [by transitivity c1|].
    intros y [->|Hy]%elem_of_cons; [by apply (Hmono c1)|auto].
Qed.
Lemma classify_represents files c : classify try_new absolute_path Url_parse Url_as_str table_root secrets files = Ok c ->
  forall entry d, entry ∈ files -> d ∈ entry.(deletes) -> represented c entry.(path) d.
Proof.
  intros H entry d He Hd. unfold classify in H.
  eapply (try_fold_represents _ (fun c entry => forall d, d ∈ entry.(deletes) -> represented c entry.(path) d)) in H as [_ H].
  - by apply H.
  - intros c0 e c1 E. eapply (try_fold_represents _ (fun c d => represented c e.(path) d)) in E; [exact E| |].
    + intros. by apply classify_one_spec.
    + intros. by eapply represented_grows.
  - intros c0 c1 e Hg Hall d0 Hd0. eapply represented_grows; [done|auto].
Qed.
End Coverage.

(** No deletion is silently skipped: when the classification of a shard succeeds,
    every mechanism of every file is among the payloads to read, resolved, and no file
    carries an equality delete; when a mechanism cannot be applied the classification
    fails, before anything is read. *)
Theorem no_delete_skipped {Descriptor Url} try_new absolute_path Url_parse Url_as_str table_root secrets files
    (c : @Classified Descriptor Url) :
  classify try_new absolute_path Url_parse Url_as_str table_root secrets files = Ok c ->
  forall entry d, entry ∈ files -> d ∈ entry.(deletes) ->
    represented try_new absolute_path Url_parse Url_as_str table_root secrets c entry.(path) d.
Proof. intros H entry d He Hd. by eapply classify_represents. Qed.

(** One data file with a positional delete file and an Iceberg vector. *)
Lemma no_delete_skipped_witness :
  exists c : @Classified unit string,
    classify (fun _ _ _ _ _ => Ok tt) (fun _ _ => Ok None) (fun s => Ok s) (fun s => s) "s3://b/t" []
      [{| path := "f"; size := 9;
          deletes := [IcebergPositionalDelete "d" 5; IcebergPuffinDeletionVector "p" 100 4 16 1];
          partition_values := ∅ |}] = Ok c
    /\ is_Some (c.(delete_files) !! "d").
Proof.
  eexists. split; [vm_compute; reflexivity|].
  match goal with |- is_Some (delete_files ?c !! _) =>
    exact (no_delete_skipped (fun _ _ _ _ _ => Ok tt) (fun _ _ => Ok None) (fun s => Ok s) (fun s => s) "s3://b/t" []
      [{| path := "f"; size := 9;
          deletes := [IcebergPositionalDelete "d" 5; IcebergPuffinDeletionVector "p" 100 4 16 1];
          partition_values := ∅ |}] c ltac:(vm_compute; reflexivity) _ (IcebergPositionalDelete "d" 5)
      (list_elem_of_here _ _) (list_elem_of_here _ _)) end.
Defined.

(** A Delta vector is applied only as the log describes it: a vector that resolves
    and decodes has exactly the declared number of positions, and a negative count, a
    truncated inline payload or a size below the magic is refused. *)
Theorem delta_vector_as_declared {Descriptor Url S} {RB : Roaring S} try_new absolute_path Url_parse Url_as_str
    (read : Descriptor -> @bodies Url -> result string S) logged table_root data_file secrets v bytes s :
  delta_resolve try_new absolute_path Url_parse Url_as_str logged table_root data_file secrets = Ok v ->
  delta_decode read v bytes data_file secrets = Ok s ->
  rb_len s = logged.(cardinality) /\ 0 <= logged.(cardinality)
  /\ (logged.(storage) = Inline -> (MIN_INLINE_PAYLOAD_CHARS <= String.length logged.(path_or_inline_dv))%nat)
  /\ (logged.(storage) <> Inline -> PORTABLE_MAGIC_BYTES <= logged.(size_in_bytes)).
Proof.
  unfold delta_resolve, resolve_descriptor. destruct (Z.ltb_spec logged.(cardinality) 0); [done|].
  destruct (bool_decide (storage logged = Inline) && _) eqn:E1; [done|].
  destruct (negb (bool_decide (storage logged = Inline)) && _) eqn:E2; [done|].
  destruct (sidecar_of _ _ _ logged table_root) as [sc|]; [|done]. cbn [map_err].
  destruct (match sc with Some _ => _ | None => _ end) as [st p].
  destruct (kernel_descriptor try_new st p logged) as [d|]; [|done]. intros [= <-].
  unfold delta_decode, delta_decode_positions. cbn [descriptor declared].
  destruct (map_err _ (read d _)) as [pos|]; [|done].
  destruct (Z.eqb_spec (rb_len pos) (cardinality logged)) as [Hlen|]; [|done]. intros [= <-].
  split; [done|]. split; [done|]. split.
  - intros Hin. rewrite bool_decide_eq_true_2 in E1 by done. by apply Nat.ltb_ge in E1.
  - intros Hin. rewrite bool_decide_eq_false_2 in E2 by done. by apply Z.ltb_ge in E2.
Qed.

Lemma delta_vector_as_declared_witness :
  let logged := {| storage := Inline; path_or_inline_dv := "0123456789"; offset := None;
                   size_in_bytes := 40; cardinality := 2 |} in
  rb_len ({[3; 8]} : gset Z) = 2.
Proof.
  intros logged.
  refine (proj1 (delta_vector_as_declared (fun _ _ _ _ _ => Ok tt) (fun _ _ => Ok None) (fun s => Ok s) (fun s => s)
    (fun _ (_ : @bodies string) => Ok ({[3; 8]} : gset Z)) logged "s3://b/t" "f" []
    {| descriptor := tt; sidecar := None; declared := 2 |} None ({[3; 8]} : gset Z) _ _)).
  - vm_compute. reflexivity.
  - vm_compute. reflexivity.
Defined.
