(* ===== verification/DeleteReads.v ===== *)
(** The reads of crates/lakehouse-engine/src/scan/row_deletes.rs: opening a positional-
    delete file by its tail, decoding its row groups, fetching the deletion vectors, and
    the collection of a shard's deleted positions. A spawned task is a function of the
    reservation it finds; [join_spawned] runs a schedule of the tasks. *)

From stdpp Require Import base list strings numbers gmap sorting.
From Stdlib Require Import Ascii String ZArith NArith Lia.
From S2P Require Import Prelude Redaction RoaringSets ScanFiles ObjectLocation RowDeletes DeletionVectors.

Local Open Scope string_scope.
Local Open Scope Z_scope.

Notation res A := (result Fault A).
Notation fail msg := (Err (Failed (User msg))).
Notation bytes := (list Byte.byte).
Notation row := (option string * option Z)%type.

Definition lift {A} (r : result UdfError A) : res A := match r with Ok a => Ok a | Err e => Err (Failed e) end.

(** ** Tasks *)

Notation task T := (Z -> res (T * Z)).

Fixpoint join_spawned {T} (tasks : list (task T)) (reserved : Z) : res (list T * Z) :=
  match tasks with
  | [] => Ok ([], reserved)
  | t :: tasks =>
      match t reserved with
      | Err Panicked => fail "a row-position delete task panicked"
      | Err f => Err f
      | Ok (value, reserved) => let? (values, reserved) := join_spawned tasks reserved in Ok (value :: values, reserved)
      end
  end.

(** A loop of at most [2 ^ levels] steps that leaves at the first result. *)
Fixpoint loop2 {St R} (levels : nat) (step : St -> St + R) (s : St) : St + R :=
  match levels with
  | O => step s
  | Datatypes.S levels => match loop2 levels step s with inl s' => loop2 levels step s' | inr r => inr r end
  end.

Lemma loop2_climbs {R} (step : Z -> Z + R) n s s' :
  (forall a b, step a = inl b -> a < b) -> loop2 n step s = inl s' -> s + 2 ^ Z.of_nat n <= s'.
Proof.
  intros Hup. revert s s'. induction n as [|n IH]; intros s s'; cbn [loop2].
  - intros H%Hup. change (2 ^ Z.of_nat 0) with 1. lia.
  - destruct (loop2 n step s) as [m|] eqn:E; [|done]. intros H. apply IH in E. apply IH in H.
    rewrite Nat2Z.inj_succ, Z.pow_succ_r by lia. lia.
Qed.

Lemma loop2_last {R} (step : Z -> Z + R) n s s' : loop2 n step s = inl s' -> exists a, step a = inl s'.
Proof.
  revert s. induction n as [|n IH]; intros s; cbn [loop2]; [by exists s|].
  destruct (loop2 n step s) as [m|]; [apply IH|done].
Qed.

(** Every step stays below [2 ^ 64] and climbs, so 64 levels are enough. *)
Lemma loop2_ends {R} (step : Z -> Z + R) s :
  0 <= s -> (forall a b, step a = inl b -> a < b < 2 ^ 64) -> exists r, loop2 64 step s = inr r.
Proof.
  intros Hs Hb. destruct (loop2 64 step s) as [s'|r] eqn:E; [|by exists r]. exfalso.
  assert (Hlow : s + 2 ^ 64 <= s').
  { change 64 with (Z.of_nat 64). eapply loop2_climbs; [|exact E]. intros a b H. by apply Hb in H as [H _]. }
  destruct (loop2_last step 64 s s' E) as [a H%Hb]. lia.
Qed.

(** ** Parquet delete files *)

(** A row group: its columns' statistics and the first byte of each leaf's chunk. *)
Record RowGroupMeta := MkRowGroup { rg_stats : list (option Statistics); rg_start : nat -> Z }.
(** [ArrowReaderMetadata]: the root fields, the root of each leaf, the row groups. *)
Record DeleteFileMeta := MkDeleteMeta { dm_fields : list Field; dm_leaf_roots : list nat; dm_row_groups : list RowGroupMeta }.

Inductive ParseOutcome (M : Type) := Parsed (finished : result string M) | NeedMoreData (needed : Z) (message : string) | ParseFailed (message : string).
Arguments Parsed {M}. Arguments NeedMoreData {M}. Arguments ParseFailed {M}.

Inductive Reader := StoreReader (location : list string) (size : Z) | TailReader (f : FooterBytes).

Definition FOOTER_SIZE : Z := 8.

Section Reads.
Context {S : Type} {RB : Roaring S} {Pool : MemoryPool}.
Context {U : Type} {SU : StoreUrls U}.
Context {Descriptor Url : Type} `{!EqDecision Url}.
Context (try_new : DeletionVectorStorageType -> string -> option Z -> Z -> Z -> result string Descriptor).
Context (absolute_path : Descriptor -> Url -> result string (option Url)).
Context (Url_parse : string -> result string Url) (Url_as_str : Url -> string).
Context (dv_read : Descriptor -> @bodies Url -> result string S).
Context (deserialize : bytes -> result string (list Z)) (from_sorted_iter : list Z -> result string S).
(** The object store. *)
Context (get_range : list string -> Z -> Z -> result string bytes) (get : list string -> result string bytes).
(** parquet's footer parser, its Arrow metadata, and its record batches of row groups:
    the projected schema and, for two of its columns, the batches. *)
Context {Footer : Type} (try_parse_sized : bytes -> Z -> ParseOutcome Footer) (arrow_metadata : Footer -> result string DeleteFileMeta).
Context (record_batches : Reader -> DeleteFileMeta -> list nat -> list nat -> result string (list Field * (nat -> nat -> list (result string Batch)))).
(** [Display] of the SDK's error. *)
Context (udf_display : UdfError -> string).

(** [DeleteReadContext]. *)
Record DeleteReadContext := MkReadContext {
  ctx_table_root : string;
  ctx_assigned : gmap string string;
  ctx_secrets : list string;
  ctx_metadata_size_hint : option Z;
}.

Record OpenedDeleteFile := MkOpened {
  od_reader : Reader;
  od_metadata : DeleteFileMeta;
  od_projection : list nat;
  od_row_groups : list nat;
  od_decoded : gmap string S;
}.

Section Context_.
Context (ctx : DeleteReadContext).
Notation secrets := (ctx_secrets ctx).

(** ** Positional-delete files *)

(** [decode_row_groups] up to the stream it reads. *)
Definition decode_stream (reader : Reader) (metadata : DeleteFileMeta) (projection row_groups : list nat) (reserved : Z) : res (gmap string S * Z) :=
  match record_batches reader metadata projection row_groups with
  | Err e => fail (redact ("failed to read delete file: " ++ e) secrets)
  | Ok (fields, batches) =>
      let? (file_path_idx, pos_idx) := locate_delete_columns fields in
      decode_row_groups secrets (ctx_assigned ctx) (batches file_path_idx pos_idx) reserved
  end.

Definition open_failed (e : string) : Fault := Failed (User (redact ("failed to open delete file: " ++ e) secrets)).

(** One round of the footer loop: the tail is longer in the next. *)
Definition tail_step (location : list string) (size want : Z) : Z + res (Z * bytes * Footer) :=
  let start := Z.max 0 (size - want) in
  match get_range location start size with
  | Err e => inr (Err (open_failed e))
  | Ok tail =>
      match try_parse_sized tail size with
      | Parsed (Ok parsed) => inr (Ok (start, tail, parsed))
      | Parsed (Err e) => inr (Err (open_failed e))
      | NeedMoreData needed e => if want <? needed mod 2 ^ 64 then inl (needed mod 2 ^ 64) else inr (Err (open_failed e))
      | ParseFailed e => inr (Err (open_failed e))
      end
  end.

Definition open_tail (location : list string) (size : Z) : res (Z * bytes * Footer) :=
  match loop2 64 (tail_step location size) (Z.max (default 0 (ctx_metadata_size_hint ctx)) FOOTER_SIZE) with
  | inr r => r
  | inl _ => Err Panicked
  end.

Definition projected_leaves (roots : list nat) (file_path_idx pos_idx : nat) : list nat :=
  List.filter (fun leaf => match roots !! leaf with Some root => (root =? file_path_idx)%nat || (root =? pos_idx)%nat | None => false end) (seq 0 (List.length roots)).

(** The row groups that can hold deletes of the shard, split by whether the tail holds them. *)
Definition matching_row_groups (metadata : DeleteFileMeta) (file_path_idx : nat) : list nat :=
  List.filter (fun idx => match dm_row_groups metadata !! idx with
      | Some rg => delete_row_group_may_match (rg_stats rg) file_path_idx (map fst (map_to_list (ctx_assigned ctx)))
      | None => false end) (seq 0 (List.length (dm_row_groups metadata))).

Definition within_tail (metadata : DeleteFileMeta) (leaves : list nat) (tail_start : Z) (idx : nat) : bool :=
  match dm_row_groups metadata !! idx with
  | Some rg => forallb (fun leaf => tail_start <=? rg_start rg leaf) leaves
  | None => false
  end.

Definition open_delete_file (location : list string) (size : Z) : task OpenedDeleteFile := fun reserved =>
  let? (tail_start, tail, parsed) := open_tail location size in
  match arrow_metadata parsed with
  | Err e => Err (open_failed e)
  | Ok metadata =>
      let? (file_path_idx, pos_idx) := locate_delete_columns (dm_fields metadata) in
      let projection := [file_path_idx; pos_idx] in
      let leaves := projected_leaves (dm_leaf_roots metadata) file_path_idx pos_idx in
      let matching := matching_row_groups metadata file_path_idx in
      let in_tail := List.filter (within_tail metadata leaves tail_start) matching in
      let row_groups := List.filter (fun idx => negb (within_tail metadata leaves tail_start idx)) matching in
      let? (decoded, reserved) :=
        match in_tail with
        | [] => Ok (∅, reserved)
        | _ => decode_stream (TailReader {| start := tail_start; RowDeletes.bytes := tail |}) metadata projection in_tail reserved
        end in
      Ok (MkOpened (StoreReader location size) metadata projection row_groups decoded, reserved)
  end.

Definition row_group_reads (file : OpenedDeleteFile) : list (task (gmap string S)) :=
  ((if bool_decide (od_decoded file = ∅) then [] else [fun reserved => Ok (od_decoded file, reserved)])
   ++ map (fun row_group => decode_stream (od_reader file) (od_metadata file) (od_projection file) [row_group]) (od_row_groups file))%list.

(** [object_meta_for]: the key of a path; the spec gives the size. *)
Definition object_meta_for (abs_uri : string) (size : N) : result UdfError (list string * Z) :=
  let? location := parse_wire (U := U) abs_uri in Ok (key location, Z.of_N size).

Definition delete_file_opens (delete_files : gmap string N) : result UdfError (list (task OpenedDeleteFile)) :=
  try_map (fun '(delete_path, delete_size) =>
    let? meta := object_meta_for (reconstruct_abs_uri delete_path (ctx_table_root ctx)) delete_size in
    Ok (open_delete_file meta.1 meta.2)) (map_to_list delete_files).

(** ** Deletion vectors *)

Definition read_deletion_vector_payload (url : string) (range : option (Z * Z)) (data_file : string) : result UdfError bytes :=
  let unreadable (e : string) := User (redact ("data file '" ++ data_file ++ "': its deletion vector could not be read: " ++ e) secrets) in
  match parse_wire (U := U) url with
  | Err e => Err (unreadable ("invalid deletion-vector URL: " ++ udf_display e))
  | Ok location =>
      match (match range with Some (a, b) => get_range (key location) a b | None => get (key location) end) with
      | Ok body => Ok body
      | Err e => Err (unreadable e)
      end
  end.

Fixpoint decode_vectors {V} (decode : string -> V -> res S) (members : list (string * V)) (reserved : Z) : res (list (string * S) * Z) :=
  match members with
  | [] => Ok ([], reserved)
  | (data_file, vector) :: members =>
      let? positions := decode data_file vector in
      let? reserved := reserve secrets reserved (serialized_size positions) in
      let? (rest, reserved) := decode_vectors decode members reserved in
      Ok ((reconstruct_abs_uri data_file (ctx_table_root ctx), positions) :: rest, reserved)
  end.

(** [entry(key).or_default().push(value)]: the groups of a map, in some order. *)
Fixpoint push_group {K V} `{!EqDecision K} (k : K) (v : V) (groups : list (K * list V)) : list (K * list V) :=
  match groups with
  | [] => [(k, [v])]
  | (k', vs) :: rest => if bool_decide (k = k') then (k', (vs ++ [v])%list) :: rest else (k', vs) :: push_group k v rest
  end.
Definition group_by {K V} `{!EqDecision K} (l : list (K * V)) : list (K * list V) := fold_left (fun groups kv => push_group kv.1 kv.2 groups) l [].

Notation delta_member := (string * @DeltaVector Descriptor Url)%type.

Definition by_sidecar (vectors : list delta_member) : list (Url * list delta_member) :=
  group_by (omap (fun member => (fun url => (url, member)) <$> sidecar member.2) vectors).
Definition inline_vectors (vectors : list delta_member) : list delta_member :=
  List.filter (fun member => match sidecar member.2 with None => true | Some _ => false end) vectors.

(** The task of one sidecar, named by its first referrer, or of one inline vector. *)
Definition delta_task (group : option Url * list delta_member) : task (list (string * S)) := fun reserved =>
  match group.2 with
  | [] => Err Panicked
  | (first, _) :: _ =>
      let? body :=
        match group.1 with
        | Some url => let? body := lift (read_deletion_vector_payload (Url_as_str url) None first) in Ok (Some body)
        | None => Ok None
        end in
      decode_vectors (fun data_file vector => lift (delta_decode dv_read vector body data_file secrets)) group.2 reserved
  end.

Definition delta_vector_reads (vectors : list delta_member) : list (task (list (string * S))) :=
  map delta_task (map (fun '(url, members) => (Some url, members)) (by_sidecar vectors) ++ map (fun member => (None, [member])) (inline_vectors vectors))%list.

(** The task of one merged request of a Puffin file; cutting a blob out of a short body panics. *)
Definition puffin_task (url : string) (request : (Z * Z) * list (string * IcebergDeletionVector)) : task (list (string * S)) := fun reserved =>
  match request.2 with
  | [] => Err Panicked
  | (first, _) :: _ =>
      let? body := lift (read_deletion_vector_payload url (Some request.1) first) in
      decode_vectors (fun data_file vector =>
        match blob_of request.1 body (data_file, vector) with
        | None => Err Panicked
        | Some blob => lift (iceberg_decode deserialize from_sorted_iter vector blob data_file secrets)
        end) request.2 reserved
  end.

Definition iceberg_vector_reads (vectors : list (string * IcebergDeletionVector)) : list (task (list (string * S))) :=
  List.concat (map (fun '(puffin_path, members) =>
    map (puffin_task (reconstruct_abs_uri puffin_path (ctx_table_root ctx))) (puffin_requests members))
    (group_by (map (fun member => (dv_path member.2, member)) vectors))).
End Context_.

(** ** The shard *)

(** The data files by the location a delete row names; a later file wins. *)
Definition assigned_files (files : list FileEntry) (table_root : string) : result UdfError (gmap string string) :=
  let? pairs := try_map (fun entry =>
    let? location := parse_entry (U := U) (path entry) table_root in
    Ok (location_display location, reconstruct_abs_uri (path entry) table_root)) files in
  Ok (list_to_map (reverse pairs)).

Record ShardDeletes := MkShardDeletes {
  sd_files : list FileEntry;
  sd_table_root : string;
  sd_secrets : list string;
  sd_metadata_size_hint : option Z;
}.

Definition collect_positions (shard : ShardDeletes) (reserved : Z) : res (gmap string S * Z) :=
  let? c := lift (classify try_new absolute_path Url_parse Url_as_str (sd_table_root shard) (sd_secrets shard) (sd_files shard)) in
  let? assigned := lift (assigned_files (sd_files shard) (sd_table_root shard)) in
  let ctx := MkReadContext (sd_table_root shard) assigned (sd_secrets shard) (sd_metadata_size_hint shard) in
  let vector_reads := (delta_vector_reads ctx (delta_vectors c) ++ iceberg_vector_reads ctx (iceberg_vectors c))%list in
  let? opens := lift (delete_file_opens ctx (delete_files c)) in
  let? (opened, reserved) := join_spawned opens reserved in
  let? (vector_positions, reserved) := join_spawned vector_reads reserved in
  let? (row_groups, reserved) := join_spawned (List.concat (map (row_group_reads ctx) opened)) reserved in
  union_by_data_file (sd_secrets shard) reserved (List.concat vector_positions ++ List.concat (map map_to_list row_groups))%list.


(** ** What the laws of the store and of Parquet give *)

Context {Laws : RoaringLaws S}.
(** The objects, and the rows of each row group of a delete file's bytes. *)
Context (object : list string -> option bytes) (file_rows : bytes -> list (list row)).

Record store_laws : Prop := {
  sl_range : forall p a b l, get_range p a b = Ok l -> exists c, object p = Some c /\ l = file_slice c (a, b);
  sl_get : forall p l, get p = Ok l -> object p = Some l;
}.

Definition describes (c : bytes) (metadata : DeleteFileMeta) : Prop :=
  exists first footer, 0 <= first /\ try_parse_sized (drop (Z.to_nat first) c) (Z.of_nat (List.length c)) = Parsed (Ok footer)
    /\ arrow_metadata footer = Ok metadata.

Definition reads_from (reader : Reader) (c : bytes) : Prop :=
  match reader with
  | StoreReader location _ => object location = Some c
  | TailReader f => 0 <= start f /\ RowDeletes.bytes f = drop (Z.to_nat (start f)) c
  end.

Definition rows_at (c : bytes) (idx : nat) : list row := default [] (file_rows c !! idx).
Definition read_whole (batches : list (result string Batch)) : Prop := Forall (fun b => exists batch, b = Ok batch) batches.

(** The parsed metadata lists the file's row groups; the statistics of the path column
    bound its values; batches read without an error are the rows of the row groups. *)
Record parquet_laws : Prop := {
  pl_groups : forall c metadata, describes c metadata -> List.length (dm_row_groups metadata) = List.length (file_rows c);
  pl_stats : forall c metadata a b idx rg, describes c metadata -> locate_delete_columns (dm_fields metadata) = Ok (a, b) ->
    dm_row_groups metadata !! idx = Some rg -> stats_bound (rg_stats rg) a (rows_at c idx);
  pl_rows : forall c metadata a b reader groups fields batches i k, describes c metadata -> locate_delete_columns (dm_fields metadata) = Ok (a, b) ->
    reads_from reader c -> record_batches reader metadata [a; b] groups = Ok (fields, batches) -> locate_delete_columns fields = Ok (i, k) ->
    read_whole (batches i k) -> all_rows (batches i k) = List.concat (map (rows_at c) groups);
}.
(** A decoded treemap holds [u64] positions. *)
Record decoder_laws : Prop := {
  dl_delta : forall d b s x, dv_read d b = Ok s -> x ∈ rb_iter s -> 0 <= x;
  dl_iceberg : forall blob l s x, deserialize blob = Ok l -> from_sorted_iter l = Ok s -> x ∈ rb_iter s -> 0 <= x;
}.
Context (SL : store_laws) (PL : parquet_laws) (DL : decoder_laws).

Definition sumZ {T} (cost : T -> Z) (l : list T) : Z := fold_right (fun v acc => cost v + acc) 0 l.

Lemma sumZ_app {T} (cost : T -> Z) a b : sumZ cost (a ++ b)%list = sumZ cost a + sumZ cost b.
Proof using Type. unfold sumZ. induction a as [|x a IH]; cbn in *; lia. Qed.

Lemma sumZ_nonneg {T} (cost : T -> Z) l : (forall v, 0 <= cost v) -> 0 <= sumZ cost l.
Proof using Type. intros H. unfold sumZ. induction l as [|x l IH]; cbn in *; [lia|]. specialize (H x). lia. Qed.

Lemma total_size_concat (l : list (list (string * S))) : total_size (map snd (List.concat l)) = sumZ (fun v => total_size (map snd v)) l.
Proof using Type. unfold sumZ. induction l as [|x l IH]; [done|]. cbn [List.concat fold_right]. rewrite map_app, total_size_app, IH. done. Qed.

Lemma map_total_nonneg (m : gmap string S) : 0 <= map_total m.
Proof using Laws. unfold map_total. apply total_size_nonneg. Qed.

Lemma join_spawned_app {T} (a b : list (task T)) r :
  join_spawned (a ++ b)%list r = (let? (x, r) := join_spawned a r in let? (y, r) := join_spawned b r in Ok ((x ++ y)%list, r)).
Proof using Type.
  revert r. induction a as [|t a IH]; intros r; cbn [app join_spawned].
  - by destruct (join_spawned b r) as [[y r']|].
  - destruct (t r) as [[v r']|f]; [|by destruct f]. rewrite IH. destruct (join_spawned a r') as [[x r1]|]; [|done].
    by destruct (join_spawned b r1) as [[y r2]|].
Qed.

(** A join whose tasks each grow the reservation by the cost of their value. *)
Lemma join_spawned_spec {T} (cost : T -> Z) (tasks : list (task T)) r values r' :
  0 <= r -> (forall v, 0 <= cost v) ->
  Forall (fun t => forall r0 v r1, 0 <= r0 -> t r0 = Ok (v, r1) -> r1 = r0 + cost v) tasks ->
  join_spawned tasks r = Ok (values, r') ->
  r' = r + sumZ cost values /\ Forall2 (fun t v => exists r0 r1, 0 <= r0 /\ t r0 = Ok (v, r1)) tasks values.
Proof using Type.
  intros Hr Hc Ht. revert r values Hr. induction Ht as [|t tasks Ht _ IH]; intros r values Hr; cbn [join_spawned].
  - intros [= <- <-]. cbn. split; [lia|constructor].
  - destruct (t r) as [[v r1]|f] eqn:E; [|by destruct f]. destruct (join_spawned tasks r1) as [[vs r2]|] eqn:Ej; [|done].
    intros [= <- <-]. pose proof (Ht _ _ _ Hr E) as ->. specialize (Hc v). destruct (IH (r + cost v) vs) as [-> H2]; [lia|done|].
    split; [cbn; fold (sumZ cost vs); lia|]. constructor; [|done]. by exists r, (r + cost v).
Qed.

Lemma Forall2_members {A B} (R : A -> B -> Prop) la lb : Forall2 R la lb ->
  (forall b, b ∈ lb -> exists a, a ∈ la /\ R a b) /\ (forall a, a ∈ la -> exists b, b ∈ lb /\ R a b).
Proof using Type.
  induction 1 as [|a b la lb Hab _ [IH1 IH2]]; [split; intros ? H; by apply elem_of_nil in H|].
  split; intros y [->|Hy]%elem_of_cons; [exists a; split; [left|done]| |exists b; split; [left|done]|].
  - destruct (IH1 y Hy) as (a' & Ha & HR). exists a'. split; [by right|done].
  - destruct (IH2 y Hy) as (b' & Hb & HR). exists b'. split; [by right|done].
Qed.

Section Facts.
Context (ctx : DeleteReadContext).

Lemma batch_loop_whole st batches st' : batch_loop (ctx_secrets ctx) (ctx_assigned ctx) st batches = Ok st' -> read_whole batches.
Proof using Type.
  revert st. induction batches as [|[b|e] batches IH]; intros st; cbn [batch_loop]; [constructor| |done].
  destruct (batch_rows b); [|done]. destruct (row_loop _ _ _ _) as [st1|]; [|done]. destruct (flush _ _ _) as [st2|]; [|done].
  intros H%IH. constructor; [by eexists|done].
Qed.

Lemma decode_stream_spec reader c metadata a b groups r m r' :
  0 <= r -> describes c metadata -> reads_from reader c -> locate_delete_columns (dm_fields metadata) = Ok (a, b) ->
  decode_stream ctx reader metadata [a; b] groups r = Ok (m, r') ->
  r' = r + map_total m /\ (forall uri x, in_set m uri x -> 0 <= x)
  /\ forall uri x, in_set m uri x <-> named (ctx_assigned ctx) (List.concat (map (rows_at c) groups)) uri x.
Proof using Laws PL.
  intros Hr Hd Hread Hl. unfold decode_stream. destruct (record_batches reader metadata [a; b] groups) as [[fields batches]|] eqn:Es; [|done].
  destruct (locate_delete_columns fields) as [[i k]|] eqn:El; [|done]. intros H.
  pose proof (decode_row_groups_spec (ctx_secrets ctx) (ctx_assigned ctx) (batches i k) r Hr) as Hspec. rewrite H in Hspec.
  destruct Hspec as (-> & Hnn & Hin). split; [done|]. split; [done|]. intros uri x. rewrite Hin.
  erewrite (pl_rows PL); [done|done|done|done|done|done|].
  unfold decode_row_groups in H. destruct (batch_loop _ _ _ _) as [st|] eqn:Eb; [|done]. by eapply batch_loop_whole.
Qed.

(** ** Opening a delete file *)

Lemma open_tail_spec location size tail_start tail footer :
  open_tail ctx location size = Ok (tail_start, tail, footer) -> 0 <= size ->
  exists c, object location = Some c /\ (Z.of_nat (List.length c) = size -> 0 <= tail_start /\ tail = drop (Z.to_nat tail_start) c
    /\ try_parse_sized tail size = Parsed (Ok footer)).
Proof using SL.
  unfold open_tail. destruct (loop2 64 _ _) as [s|r] eqn:El; [done|]. intros -> Hsize.
  assert (Hstep : exists want, tail_step ctx location size want = inr (Ok (tail_start, tail, footer))).
  { clear -El. revert El. generalize (Z.max (default 0 (ctx_metadata_size_hint ctx)) FOOTER_SIZE) as s. generalize 64%nat as n.
    induction n as [|n IH]; intros s; cbn [loop2]; [by exists s|]. destruct (loop2 n _ s) as [m|r] eqn:E; [apply IH|]. intros [= ->]. by eapply IH. }
  destruct Hstep as [want H]. unfold tail_step in H. destruct (get_range location (Z.max 0 (size - want)) size) as [got|] eqn:Eg; [|done].
  destruct (sl_range SL _ _ _ _ Eg) as (c & Hc & ->). exists c. split; [done|]. intros Hlen.
  destruct (try_parse_sized _ size) as [[f|]|needed msg|] eqn:Ep; try done; [|by destruct (want <? needed mod 2 ^ 64)]. injection H as <- <- <-.
  assert (Htail : file_slice c (Z.max 0 (size - want), size) = drop (Z.to_nat (Z.max 0 (size - want))) c).
  { unfold file_slice. cbn [fst snd]. apply take_ge. rewrite length_drop. lia. }
  rewrite Htail in *. split; [lia|]. done.
Qed.

Lemma elem_of_concat_list {A} (x : A) (ll : list (list A)) : x ∈ List.concat ll <-> exists l, l ∈ ll /\ x ∈ l.
Proof using Type. rewrite list_elem_of_In, in_concat. by setoid_rewrite list_elem_of_In. Qed.

Lemma named_concat assigned (l : list (list row)) uri x : named assigned (List.concat l) uri x <-> exists rows, rows ∈ l /\ named assigned rows uri x.
Proof using Type.
  unfold named. setoid_rewrite elem_of_concat_list. split.
  - intros (p & (rows & Hr & Hp) & Hu). exists rows. split; [done|]. by exists p.
  - intros (rows & Hr & p & Hp & Hu). exists p. split; [|done]. by exists rows.
Qed.

(** The row groups left out name no data file of the shard. *)
Lemma matching_covers c metadata a b uri x : describes c metadata -> locate_delete_columns (dm_fields metadata) = Ok (a, b) ->
  named (ctx_assigned ctx) (List.concat (file_rows c)) uri x
  <-> exists idx, idx ∈ matching_row_groups ctx metadata a /\ named (ctx_assigned ctx) (rows_at c idx) uri x.
Proof using PL.
  intros Hd Hl. rewrite named_concat. split.
  - intros (rows & Hr & Hn). apply list_elem_of_lookup in Hr as [idx Hidx]. exists idx. assert (Hat : rows_at c idx = rows) by (unfold rows_at; by rewrite Hidx).
    rewrite Hat. split; [|done]. assert (Hlt : (idx < List.length (dm_row_groups metadata))%nat) by (rewrite (pl_groups PL _ _ Hd); by eapply lookup_lt_Some).
    apply lookup_lt_is_Some in Hlt as [rg Hrg]. unfold matching_row_groups. apply list_elem_of_In, filter_In. split.
    { apply list_elem_of_In, elem_of_seq. apply lookup_lt_Some in Hrg. lia. }
    rewrite Hrg. destruct (delete_row_group_may_match _ _ _) eqn:Em; [done|]. exfalso.
    eapply pruning_loses_no_delete; [by eapply (pl_stats PL)|exact Em|]. rewrite Hat. exact Hn.
  - intros (idx & _ & Hn). unfold rows_at in Hn. destruct (file_rows c !! idx) as [rows|] eqn:E; cbn in Hn.
    + exists rows. split; [by eapply list_elem_of_lookup_2|done].
    + destruct Hn as (p & Hp & _). by apply elem_of_nil in Hp.
Qed.

Definition found (m : gmap string S) (c : bytes) (groups : list nat) (uri : string) (x : Z) : Prop :=
  in_set m uri x \/ exists idx, idx ∈ groups /\ named (ctx_assigned ctx) (rows_at c idx) uri x.

(** An opened file: what it decoded and the row groups left hold all its deletes. *)
Record opened_ok (c : bytes) (file : OpenedDeleteFile) : Prop := {
  oo_describes : describes c (od_metadata file);
  oo_reader : reads_from (od_reader file) c;
  oo_nonneg : forall uri x, in_set (od_decoded file) uri x -> 0 <= x;
  oo_columns : exists a b, locate_delete_columns (dm_fields (od_metadata file)) = Ok (a, b) /\ od_projection file = [a; b];
  oo_found : forall uri x, named (ctx_assigned ctx) (List.concat (file_rows c)) uri x <-> found (od_decoded file) c (od_row_groups file) uri x;
}.

Lemma in_set_empty uri x : ~ in_set (∅ : gmap string S) uri x.
Proof using Type. intros (s & Hs & _). by rewrite lookup_empty in Hs. Qed.

Lemma open_delete_file_spec location size r file r' :
  0 <= r -> 0 <= size -> open_delete_file ctx location size r = Ok (file, r') ->
  exists c, object location = Some c /\ (Z.of_nat (List.length c) = size -> r' = r + map_total (od_decoded file) /\ opened_ok c file).
Proof using Laws SL PL.
  intros Hr Hs. unfold open_delete_file. destruct (open_tail ctx location size) as [[[tail_start tail] footer]|] eqn:Et; [|done].
  destruct (open_tail_spec _ _ _ _ _ Et Hs) as (c & Hc & Htail). destruct (arrow_metadata footer) as [metadata|] eqn:Ea; [|done].
  destruct (locate_delete_columns (dm_fields metadata)) as [[a b]|] eqn:El; [|done]. intros H. exists c. split; [done|]. intros Hlen.
  destruct (Htail Hlen) as (Hstart & -> & Hp). assert (Hd : describes c metadata) by (exists tail_start, footer; by rewrite Hlen).
  set (matching := matching_row_groups ctx metadata a) in *. set (within := within_tail metadata (projected_leaves (dm_leaf_roots metadata) a b) tail_start) in *.
  assert (Hdec : exists m r1, (match List.filter within matching with [] => Ok (∅, r)
      | _ => decode_stream ctx (TailReader {| start := tail_start; RowDeletes.bytes := drop (Z.to_nat tail_start) c |}) metadata [a; b] (List.filter within matching) r end) = Ok (m, r1)
    /\ file = MkOpened (StoreReader location size) metadata [a; b] (List.filter (fun idx => negb (within idx)) matching) m /\ r' = r1).
  { destruct (match List.filter within matching with [] => _ | _ => _ end) as [[m r1]|] eqn:Ed; [|done]. injection H as <- <-. exists m, r1. done. }
  clear H. destruct Hdec as (m & r1 & Hdec & -> & ->).
  assert (Hm : r1 = r + map_total m /\ (forall uri x, in_set m uri x -> 0 <= x) /\ forall uri x, in_set m uri x <-> exists idx, idx ∈ List.filter within matching /\ named (ctx_assigned ctx) (rows_at c idx) uri x).
  { destruct (List.filter within matching) as [|i l] eqn:Ef.
    - injection Hdec as <- <-. split; [unfold map_total; rewrite map_to_list_empty; cbn; lia|]. split; [by intros uri x ?%in_set_empty|]. intros uri x.
      split; [by intros ?%in_set_empty|]. intros (idx & Hi & _). by apply elem_of_nil in Hi.
    - rewrite <- Ef in *. apply (decode_stream_spec _ c) in Hdec as (-> & Hnn & Hin); [|done|done|done|done]. split; [done|]. split; [done|]. intros uri x.
      rewrite Hin, named_concat. split.
      + intros (rows & (idx & -> & Hi)%list_elem_of_fmap & Hn). by exists idx.
      + intros (idx & Hi & Hn). exists (rows_at c idx). split; [by apply list_elem_of_fmap_2|done]. }
  destruct Hm as (-> & Hnn & Hm). split; [done|]. split; cbn [od_metadata od_reader od_projection od_row_groups od_decoded]; [done|done|done|by exists a, b|].
  intros uri x. rewrite (matching_covers c metadata a b uri x Hd El). unfold found. rewrite Hm. fold matching. split.
  - intros (idx & Hi & Hn). destruct (within idx) eqn:Ew; [left|right]; exists idx; (split; [|done]); apply list_elem_of_In, filter_In; (split; [by apply list_elem_of_In|]); [done|by rewrite Ew].
  - intros [(idx & Hi & Hn)|(idx & Hi & Hn)]; exists idx; (split; [|done]); apply list_elem_of_In, filter_In in Hi as [Hi _]; by apply list_elem_of_In.
Qed.

(** The reads of the opened files find every delete row of theirs; the reservation grows
    by what was not decoded when they were opened. *)
Lemma row_group_reads_spec c file r ms r' :
  0 <= r -> opened_ok c file -> join_spawned (row_group_reads ctx file) r = Ok (ms, r') ->
  r <= r' /\ r' + map_total (od_decoded file) = r + sumZ map_total ms
  /\ (forall m uri x, m ∈ ms -> in_set m uri x -> 0 <= x)
  /\ forall uri x, (exists m, m ∈ ms /\ in_set m uri x) <-> named (ctx_assigned ctx) (List.concat (file_rows c)) uri x.
Proof using Laws PL.
  intros Hr Ho. destruct (oo_columns _ _ Ho) as (a & b & Hl & Hproj). unfold row_group_reads. rewrite join_spawned_app, Hproj.
  assert (Hready : exists ready, join_spawned (if bool_decide (od_decoded file = ∅) then [] else [fun reserved => Ok (od_decoded file, reserved)]) r = Ok (ready, r)
    /\ sumZ map_total ready = map_total (od_decoded file) /\ (forall m uri x, m ∈ ready -> in_set m uri x -> 0 <= x) /\ forall uri x, (exists m, m ∈ ready /\ in_set m uri x) <-> in_set (od_decoded file) uri x).
  { case_bool_decide as E; cbn [join_spawned].
    - exists []. split_and!; [done|rewrite E; unfold map_total; by rewrite map_to_list_empty|intros m uri x Hm; by apply elem_of_nil in Hm|]. intros uri x. rewrite E. split; [intros (m & Hm & _); by apply elem_of_nil in Hm|by intros ?%in_set_empty].
    - exists [od_decoded file]. split_and!; [done|cbn; lia|intros m uri x Hm; apply list_elem_of_singleton in Hm as ->; apply (oo_nonneg _ _ Ho)|]. intros uri x. setoid_rewrite list_elem_of_singleton. clear. naive_solver. }
  destruct Hready as (ready & -> & Hsum & Hnr & Hin). destruct (join_spawned (map _ (od_row_groups file)) r) as [[ms' r1]|] eqn:Ej; [|done].
  intros [= <- <-]. apply (join_spawned_spec map_total) in Ej as [-> Hall]; [|done|apply map_total_nonneg|].
  2:{ apply Forall_map, Forall_forall. intros idx _ r0 v r1' Hr0 H. apply (decode_stream_spec _ c) in H as (-> & _); [done|done|apply Ho|apply Ho|done]. }
  rewrite sumZ_app, Hsum. pose proof (sumZ_nonneg map_total ms' map_total_nonneg) as Hnn. split; [lia|]. split; [lia|]. split.
  { intros m uri x [Hm|Hm]%elem_of_app; [by apply Hnr|]. apply Forall2_fmap_l in Hall. destruct (proj1 (Forall2_members _ _ _ Hall) m Hm) as (idx & _ & r0 & r1' & Hr0 & H).
    apply (decode_stream_spec _ c) in H as (_ & H & _); [apply H|done|apply Ho|apply Ho|done]. }
  intros uri x. rewrite (oo_found _ _ Ho). unfold found. rewrite <- Hin.
  assert (Hms : (exists m, m ∈ ms' /\ in_set m uri x) <-> exists idx, idx ∈ od_row_groups file /\ named (ctx_assigned ctx) (rows_at c idx) uri x).
  { apply Forall2_fmap_l in Hall. revert Hall. generalize (od_row_groups file) as idxs. intros idxs Hall.
    assert (Hpair : Forall2 (fun idx m => in_set m uri x <-> named (ctx_assigned ctx) (rows_at c idx) uri x) idxs ms').
    { eapply Forall2_impl; [exact Hall|]. intros idx m (r0 & r1' & Hr0 & H). apply (decode_stream_spec _ c) in H as (_ & _ & H); [|done|apply Ho|apply Ho|done].
      rewrite H. cbn. by rewrite app_nil_r. }
    clear -Hpair. induction Hpair as [|idx m idxs ms Hp _ IH]; [split; intros (? & H & _); by apply elem_of_nil in H|].
    setoid_rewrite elem_of_cons. clear -Hp IH. naive_solver. }
  rewrite <- Hms. setoid_rewrite elem_of_app. clear. naive_solver.
Qed.

(** ** Vectors *)

Notation delta_member := (string * @DeltaVector Descriptor Url)%type.

Lemma push_group_spec {K V} `{!EqDecision K} (k : K) (v : V) groups k' v' :
  (exists vs, (k', vs) ∈ push_group k v groups /\ v' ∈ vs) <-> (k' = k /\ v' = v) \/ exists vs, (k', vs) ∈ groups /\ v' ∈ vs.
Proof using Type.
  induction groups as [|[k0 vs0] groups IH]; cbn [push_group].
  - setoid_rewrite list_elem_of_singleton. split; [intros (vs & [= -> ->] & Hv%list_elem_of_singleton); by left|].
    intros [[-> ->]|(vs & H & _)]; [exists [v]; split; [done|by left]|by apply elem_of_nil in H].
  - case_bool_decide as E; setoid_rewrite elem_of_cons.
    + subst k0. split.
      * intros (vs & [[= -> ->]|H] & Hv); [|right; exists vs; tauto]. apply elem_of_app in Hv as [Hv|Hv%list_elem_of_singleton]; [right; exists vs0; tauto|by left].
      * intros [[-> ->]|(vs & [[= -> ->]|H] & Hv)].
        -- exists (vs0 ++ [v])%list. split; [by left|]. apply elem_of_app. right. by left.
        -- exists (vs0 ++ [v])%list. split; [by left|]. apply elem_of_app. by left.
        -- exists vs. tauto.
    + split.
      * intros (vs & [[= -> ->]|H] & Hv); [right; exists vs0; tauto|]. destruct (proj1 IH (ex_intro _ vs (conj H Hv))) as [|(vs' & Hin & Hv')]; [by left|right; exists vs'; tauto].
      * intros [H|(vs & [[= -> ->]|H] & Hv)]; [|exists vs0; tauto|].
        -- destruct (proj2 IH (or_introl H)) as (vs & Hin & Hv). exists vs. tauto.
        -- destruct (proj2 IH (or_intror (ex_intro _ vs (conj H Hv)))) as (vs' & Hin & Hv'). exists vs'. tauto.
Qed.

(** Grouping loses and adds nothing. *)
Lemma group_by_spec {K V} `{!EqDecision K} (l : list (K * V)) k v : (exists vs, (k, vs) ∈ group_by l /\ v ∈ vs) <-> (k, v) ∈ l.
Proof using Type.
  unfold group_by. enough (H : forall groups, (exists vs, (k, vs) ∈ fold_left (fun groups (kv : K * V) => push_group kv.1 kv.2 groups) l groups /\ v ∈ vs)
    <-> (k, v) ∈ l \/ exists vs, (k, vs) ∈ groups /\ v ∈ vs).
  { rewrite H. split; [intros [|(vs & Hn & _)]; [done|by apply elem_of_nil in Hn]|by left]. }
  induction l as [|[k0 v0] l IH]; intros groups; cbn [fold_left fst snd].
  - split; [by right|]. intros [H|H]; [by apply elem_of_nil in H|done].
  - rewrite IH, push_group_spec, elem_of_cons. split; [intros [H|[[-> ->]|H]]|intros [[[= -> ->]|H]|H]]; tauto.
Qed.

Lemma decode_vectors_spec {V} (decode : string -> V -> res S) members r l r' :
  decode_vectors ctx decode members r = Ok (l, r') ->
  r' = r + total_size (map snd l)
  /\ Forall2 (fun m p => p.1 = reconstruct_abs_uri m.1 (ctx_table_root ctx) /\ decode m.1 m.2 = Ok p.2) members l.
Proof using Type.
  revert r l. induction members as [|[f v] members IH]; intros r l; cbn [decode_vectors]; [intros [= <- <-]; cbn; split; [lia|constructor]|].
  destruct (decode f v) as [s|] eqn:E; [|done]. unfold reserve. destruct (pool_refuses r (serialized_size s)); [done|].
  destruct (decode_vectors _ _ _ _) as [[rest r1]|] eqn:E1; [|done]. intros [= <- <-]. apply IH in E1 as [-> H].
  split; [cbn [map snd]; rewrite total_size_cons; lia|]. constructor; [done|done].
Qed.

Lemma decode_vectors_members {V} (decode : string -> V -> res S) members r l r' uri s :
  decode_vectors ctx decode members r = Ok (l, r') ->
  (uri, s) ∈ l <-> exists f v, (f, v) ∈ members /\ uri = reconstruct_abs_uri f (ctx_table_root ctx) /\ decode f v = Ok s.
Proof using Type.
  intros [_ H]%decode_vectors_spec. split.
  - intros Hin. destruct (proj1 (Forall2_members _ _ _ H) _ Hin) as ([f v] & Hm & E1 & E2). by exists f, v.
  - intros (f & v & Hm & -> & Hd). destruct (proj2 (Forall2_members _ _ _ H) _ Hm) as ([u t] & Hin & E1 & E2). cbn in *. congruence.
Qed.

Lemma payload_spec url range f body : read_deletion_vector_payload ctx url range f = Ok body ->
  exists l c, parse_wire (U := U) url = Ok l /\ object (key l) = Some c /\ body = match range with Some rg => file_slice c rg | None => c end.
Proof using SL.
  unfold read_deletion_vector_payload. destruct (parse_wire url) as [l|]; [|done]. destruct range as [[a b]|].
  - destruct (get_range (key l) a b) as [got|] eqn:E; [|done]. intros [= <-]. destruct (sl_range SL _ _ _ _ E) as (c & Hc & ->). by exists l, c.
  - destruct (get (key l)) as [got|] eqn:E; [|done]. intros [= <-]. apply (sl_get SL) in E. by exists l, got.
Qed.

(** The object at a URL. *)
Definition object_at (url : string) (c : bytes) : Prop := exists l, parse_wire (U := U) url = Ok l /\ object (key l) = Some c.

Lemma object_at_fun url c c' : object_at url c -> object_at url c' -> c = c'.
Proof using Type. intros (l & E & H) (l' & E' & H'). rewrite E in E'. injection E' as <-. congruence. Qed.

(** What a vector's own bytes decode to. *)
Definition sidecar_body (v : @DeltaVector Descriptor Url) (body : option bytes) : Prop :=
  match sidecar v with None => body = None | Some url => exists c, object_at (Url_as_str url) c /\ body = Some c end.
Definition delta_set (f : string) (v : @DeltaVector Descriptor Url) (s : S) : Prop :=
  exists body, sidecar_body v body /\ delta_decode dv_read v body f (ctx_secrets ctx) = Ok s.
Definition iceberg_set (f : string) (v : IcebergDeletionVector) (s : S) : Prop :=
  exists c, object_at (reconstruct_abs_uri (dv_path v) (ctx_table_root ctx)) c
    /\ iceberg_decode deserialize from_sorted_iter v (file_slice c (range_start v, range_end v)) f (ctx_secrets ctx) = Ok s.

Lemma lift_Ok {A} (r : result UdfError A) a : lift r = Ok a <-> r = Ok a.
Proof using Type. destruct r; cbn; split; intros [= <-]; done. Qed.

Lemma delta_groups_spec vectors f v :
  (f, v) ∈ vectors <-> exists g members, (g, members) ∈ (map (fun '(url, members) => (Some url, members)) (by_sidecar vectors) ++ map (fun member => (None, [member])) (inline_vectors vectors))%list
    /\ (f, v) ∈ members.
Proof using Type.
  setoid_rewrite elem_of_app. setoid_rewrite list_elem_of_fmap. split.
  - intros Hin. destruct (sidecar v) as [url|] eqn:Es.
    + destruct (proj2 (group_by_spec (omap (fun member : delta_member => (fun url => (url, member)) <$> sidecar member.2) vectors) url (f, v))) as (vs & Hvs & Hv).
      { apply list_elem_of_omap. exists (f, v). cbn. by rewrite Es. }
      exists (Some url), vs. split; [|done]. left. by exists (url, vs).
    + exists None, [(f, v)]. split; [|by left]. right. exists (f, v). split; [done|]. unfold inline_vectors. apply list_elem_of_In, filter_In. split; [by apply list_elem_of_In|]. cbn. by rewrite Es.
  - intros (g & members & [([url vs] & [= -> ->] & Hvs)|(m & [= -> ->] & Hm)] & Hin).
    + assert (H : (url, (f, v)) ∈ omap (fun member : delta_member => (fun url => (url, member)) <$> sidecar member.2) vectors) by (apply group_by_spec; by exists vs).
      apply list_elem_of_omap in H as (m & Hm & E). destruct (sidecar m.2); [|done]. cbn in E. injection E as _ ->. done.
    + apply list_elem_of_singleton in Hin as <-. unfold inline_vectors in Hm. apply list_elem_of_In, filter_In in Hm as [Hm _]. by apply list_elem_of_In.
Qed.

(** All members of a group read from the group's sidecar. *)
Lemma delta_group_sidecar vectors g members f v :
  (g, members) ∈ (map (fun '(url, members) => (Some url, members)) (by_sidecar vectors) ++ map (fun member => (None, [member])) (inline_vectors vectors))%list ->
  (f, v) ∈ members -> sidecar v = g.
Proof using Type.
  rewrite elem_of_app, !list_elem_of_fmap. intros [([url vs] & [= -> ->] & Hvs)|(m & [= -> ->] & Hm)] Hin.
  - assert (H : (url, (f, v)) ∈ omap (fun member : delta_member => (fun url => (url, member)) <$> sidecar member.2) vectors) by (apply group_by_spec; by exists vs).
    apply list_elem_of_omap in H as (m & _ & E). destruct (sidecar m.2) eqn:Es; [|done]. cbn in E. injection E as -> ->. done.
  - apply list_elem_of_singleton in Hin as <-. unfold inline_vectors in Hm. apply list_elem_of_In, filter_In in Hm as [_ Hm]. cbn in Hm. by destruct (sidecar v).
Qed.

Lemma delta_task_spec g members r l r' : delta_task ctx (g, members) r = Ok (l, r') ->
  r' = r + total_size (map snd l)
  /\ exists body, match g with None => body = None | Some url => exists c, object_at (Url_as_str url) c /\ body = Some c end
     /\ forall uri s, (uri, s) ∈ l <-> exists f v, (f, v) ∈ members /\ uri = reconstruct_abs_uri f (ctx_table_root ctx) /\ delta_decode dv_read v body f (ctx_secrets ctx) = Ok s.
Proof using SL.
  unfold delta_task. cbn [fst snd]. destruct members as [|[first fv] rest] eqn:Em; [done|]. rewrite <- Em. clear Em.
  destruct (match g with Some url => _ | None => _ end) as [body|] eqn:Eb; [|done]. intros H. split; [by apply decode_vectors_spec in H as [-> _]|].
  exists body. split.
  - destruct g as [url|]; [|by injection Eb as <-]. destruct (read_deletion_vector_payload ctx (Url_as_str url) None first) as [c|] eqn:Er; [|done].
    injection Eb as <-. apply payload_spec in Er as (loc & c' & E & Ho & ->). exists c'. split; [by exists loc|done].
  - intros uri s. rewrite (decode_vectors_members _ _ _ _ _ _ _ H). by setoid_rewrite lift_Ok.
Qed.

Lemma delta_reads_spec vectors r vals r' :
  0 <= r -> join_spawned (delta_vector_reads ctx vectors) r = Ok (vals, r') ->
  r' = r + sumZ (fun v => total_size (map snd v)) vals
  /\ forall uri s, (exists l, l ∈ vals /\ (uri, s) ∈ l) <-> exists f v, (f, v) ∈ vectors /\ uri = reconstruct_abs_uri f (ctx_table_root ctx) /\ delta_set f v s.
Proof using Laws SL.
  intros Hr H. unfold delta_vector_reads in H. apply (join_spawned_spec (fun v => total_size (map snd v))) in H as [-> Hall]; [|done|intros v; apply total_size_nonneg|].
  2:{ apply Forall_map, Forall_forall. intros [g members] _ r0 v r1 _ E. by apply delta_task_spec in E as [-> _]. }
  split; [done|]. destruct (Forall2_members _ _ _ Hall) as [H1 H2]. intros uri s. split.
  - intros (l & Hl & Hin). destruct (H1 l Hl) as (t & Ht & r0 & r1 & _ & E). apply list_elem_of_fmap in Ht as ([g members] & -> & Hg).
    apply delta_task_spec in E as (_ & body & Hb & Hmem). apply Hmem in Hin as (f & v & Hm & -> & Hd). exists f, v. split; [apply delta_groups_spec; by exists g, members|].
    split; [done|]. exists body. split; [|done]. unfold sidecar_body. by rewrite (delta_group_sidecar _ _ _ _ _ Hg Hm).
  - intros (f & v & Hv & -> & body & Hb & Hd). apply delta_groups_spec in Hv as (g & members & Hg & Hm).
    destruct (H2 _ (list_elem_of_fmap_2 (delta_task ctx) _ _ Hg)) as (l & Hl & r0 & r1 & _ & E). exists l. split; [done|].
    apply delta_task_spec in E as (_ & body' & Hb' & Hmem). apply Hmem. exists f, v. split_and!; [done|done|].
    unfold sidecar_body in Hb. rewrite (delta_group_sidecar _ _ _ _ _ Hg Hm) in Hb.
    assert (body' = body) as ->; [|done]. destruct g as [url|]; [|congruence]. destruct Hb as (c & Hc & ->), Hb' as (c' & Hc' & ->). by rewrite (object_at_fun _ _ _ Hc Hc').
Qed.

(** A vector's range lies in its Puffin file. *)
Definition puffin_in_file (f : string) (v : IcebergDeletionVector) : Prop :=
  forall c, object_at (reconstruct_abs_uri (dv_path v) (ctx_table_root ctx)) c -> in_file c (range_start v, range_end v).

Lemma iceberg_tasks_spec vectors t :
  t ∈ iceberg_vector_reads ctx vectors <-> exists p members request, (p, members) ∈ group_by (map (fun member : string * IcebergDeletionVector => (dv_path member.2, member)) vectors)
    /\ request ∈ puffin_requests members /\ t = puffin_task ctx (reconstruct_abs_uri p (ctx_table_root ctx)) request.
Proof using Type.
  unfold iceberg_vector_reads. rewrite elem_of_concat_list. split.
  - intros (l & Hl & Ht). apply list_elem_of_fmap in Hl as ([p members] & -> & Hg). apply list_elem_of_fmap in Ht as (request & -> & Hr). by exists p, members, request.
  - intros (p & members & request & Hg & Hr & ->). exists (map (puffin_task ctx (reconstruct_abs_uri p (ctx_table_root ctx))) (puffin_requests members)).
    split; apply list_elem_of_fmap; [by exists (p, members)|by exists request].
Qed.

Lemma puffin_task_cost url request r l r' : puffin_task ctx url request r = Ok (l, r') -> r' = r + total_size (map snd l).
Proof using Type.
  unfold puffin_task. destruct request.2 as [|[first fv] rest]; [done|]. destruct (lift _) as [body|]; [|done].
  intros H. by apply decode_vectors_spec in H as [-> _].
Qed.

(** A request's task decodes each of its vectors from the vector's own bytes. *)
Lemma puffin_task_spec p members request r l r' uri s :
  Forall (fun m => dv_path m.2 = p /\ puffin_in_file m.1 m.2) members -> request ∈ puffin_requests members ->
  puffin_task ctx (reconstruct_abs_uri p (ctx_table_root ctx)) request r = Ok (l, r') ->
  (uri, s) ∈ l <-> exists f v, (f, v) ∈ request.2 /\ uri = reconstruct_abs_uri f (ctx_table_root ctx) /\ iceberg_set f v s.
Proof using SL.
  intros Hm Hreq. unfold puffin_task. destruct request as [rq blobs]. cbn [fst snd]. destruct blobs as [|[first fv] rest] eqn:Eb; [done|]. rewrite <- Eb in *. clear Eb.
  destruct (read_deletion_vector_payload _ _ _ _) as [body|] eqn:Er; cbn [lift]; [|done]. apply payload_spec in Er as (loc & c & El & Ho & ->). intros H.
  assert (Hobj : object_at (reconstruct_abs_uri p (ctx_table_root ctx)) c) by (by exists loc).
  destruct (puffin_blobs_exact c members) as [Hperm Hgood].
  { eapply Forall_impl; [exact Hm|]. intros [f v] [<- Hin]. by apply Hin. }
  rewrite Forall_forall in Hgood. destruct (Hgood _ Hreq) as (_ & _ & Hblob & _).
  assert (Hsub : forall m, m ∈ blobs -> m ∈ members).
  { intros m Hin. rewrite <- Hperm. apply elem_of_concat_list. exists blobs. split; [|done]. apply list_elem_of_fmap. by exists (rq, blobs). }
  rewrite (decode_vectors_members _ _ _ _ _ _ _ H). rewrite Forall_forall in Hm. split; intros (f & v & Hin & -> & Hd); exists f, v; (split; [done|]); (split; [done|]).
  - rewrite (Hblob _ Hin), lift_Ok in Hd. exists c. split; [|done]. destruct (Hm _ (Hsub _ Hin)) as [Ep _]. cbn [snd] in Ep. by rewrite Ep.
  - rewrite (Hblob _ Hin), lift_Ok. destruct Hd as (c' & Hc' & Hd). destruct (Hm _ (Hsub _ Hin)) as [Ep _]. cbn [snd] in Ep. rewrite Ep in Hc'. by rewrite (object_at_fun _ _ _ Hobj Hc').
Qed.

Lemma iceberg_reads_spec vectors r vals r' :
  0 <= r -> Forall (fun m => puffin_in_file m.1 m.2) vectors -> join_spawned (iceberg_vector_reads ctx vectors) r = Ok (vals, r') ->
  r' = r + sumZ (fun v => total_size (map snd v)) vals
  /\ forall uri s, (exists l, l ∈ vals /\ (uri, s) ∈ l) <-> exists f v, (f, v) ∈ vectors /\ uri = reconstruct_abs_uri f (ctx_table_root ctx) /\ iceberg_set f v s.
Proof using Laws SL.
  intros Hr Hfile H. apply (join_spawned_spec (fun v => total_size (map snd v))) in H as [-> Hall]; [|done|intros v; apply total_size_nonneg|].
  2:{ apply Forall_forall. intros t (p & members & request & _ & _ & ->)%iceberg_tasks_spec r0 v r1 _ E. by eapply puffin_task_cost. }
  split; [done|]. destruct (Forall2_members _ _ _ Hall) as [H1 H2].
  assert (Hgroup : forall p members f v, (p, members) ∈ group_by (map (fun member : string * IcebergDeletionVector => (dv_path member.2, member)) vectors) -> (f, v) ∈ members -> dv_path v = p /\ (f, v) ∈ vectors).
  { intros p members f v Hg Hin. assert (Hx : (p, (f, v)) ∈ map (fun member : string * IcebergDeletionVector => (dv_path member.2, member)) vectors) by (apply group_by_spec; by exists members).
    apply list_elem_of_fmap in Hx as (m & [= -> <-] & Hv). done. }
  assert (Hmembers : forall p members, (p, members) ∈ group_by (map (fun member : string * IcebergDeletionVector => (dv_path member.2, member)) vectors) -> Forall (fun m => dv_path m.2 = p /\ puffin_in_file m.1 m.2) members).
  { intros p members Hg. apply Forall_forall. intros [f v] Hin. destruct (Hgroup _ _ _ _ Hg Hin) as [E Hv]. split; [done|]. rewrite Forall_forall in Hfile. by apply (Hfile (f, v)). }
  assert (Hreqs : forall p members m, (p, members) ∈ group_by (map (fun member : string * IcebergDeletionVector => (dv_path member.2, member)) vectors) ->
    (exists request, request ∈ puffin_requests members /\ m ∈ request.2) <-> m ∈ members).
  { intros p members m Hg. rewrite <- (puffin_requests_perm members). rewrite elem_of_concat_list. split.
    - intros (request & Hq & Hin). exists request.2. split; [by apply list_elem_of_fmap_2|done].
    - intros (blobs & Hb & Hin). apply list_elem_of_fmap in Hb as (request & -> & Hq). by exists request. }
  intros uri s. split.
  - intros (l & Hl & Hin). destruct (H1 l Hl) as (t & Ht & r0 & r1 & _ & E). apply iceberg_tasks_spec in Ht as (p & members & request & Hg & Hq & ->).
    apply (puffin_task_spec p members request r0 l r1 uri s (Hmembers _ _ Hg) Hq E) in Hin as (f & v & Hv & -> & Hs).
    exists f, v. split; [|done]. apply (Hgroup p members f v Hg). apply (Hreqs p members); [done|]. by exists request.
  - intros (f & v & Hv & -> & Hs). destruct (proj2 (group_by_spec (map (fun member : string * IcebergDeletionVector => (dv_path member.2, member)) vectors) (dv_path v) (f, v))) as (members & Hg & Hm).
    { apply list_elem_of_fmap. by exists (f, v). }
    apply (Hreqs _ _ _ Hg) in Hm as (request & Hq & Hm).
    destruct (H2 (puffin_task ctx (reconstruct_abs_uri (dv_path v) (ctx_table_root ctx)) request)) as (l & Hl & r0 & r1 & _ & E). { apply iceberg_tasks_spec. by exists (dv_path v), members, request. }
    exists l. split; [done|]. apply (puffin_task_spec (dv_path v) members request r0 l r1 _ _ (Hmembers _ _ Hg) Hq E). by exists f, v.
Qed.

(** The row groups of several opened files. *)
Lemma opened_reads_spec cs opened r ms r' :
  0 <= r -> Forall2 opened_ok cs opened ->
  join_spawned (List.concat (map (row_group_reads ctx) opened)) r = Ok (ms, r') ->
  r' + sumZ (fun file => map_total (od_decoded file)) opened = r + sumZ map_total ms
  /\ (forall m uri x, m ∈ ms -> in_set m uri x -> 0 <= x)
  /\ forall uri x, (exists m, m ∈ ms /\ in_set m uri x) <-> exists c, c ∈ cs /\ named (ctx_assigned ctx) (List.concat (file_rows c)) uri x.
Proof using Laws PL.
  intros Hr Ho. revert r ms Hr. induction Ho as [|c file cs opened Hc _ IH]; intros r ms Hr; cbn [map List.concat].
  - cbn [join_spawned]. intros [= <- <-]. cbn. split; [lia|]. split; [intros m uri x Hm; by apply elem_of_nil in Hm|]. intros uri x. split; intros (y & Hy & _); by apply elem_of_nil in Hy.
  - rewrite join_spawned_app. destruct (join_spawned (row_group_reads ctx file) r) as [[ms1 r1]|] eqn:E1; [|done].
    destruct (join_spawned (List.concat _) r1) as [[ms2 r2]|] eqn:E2; [|done]. intros [= <- <-].
    apply (row_group_reads_spec c) in E1 as (Hle & Hr1 & Hn1 & Hin1); [|done|done]. apply IH in E2 as (Hr2 & Hn2 & Hin2); [|lia].
    rewrite sumZ_app. cbn [sumZ fold_right]. fold (sumZ (fun file => map_total (od_decoded file)) opened). split; [lia|]. split; [intros m uri x [Hm|Hm]%elem_of_app; [by apply Hn1|by apply Hn2]|].
    intros uri x. setoid_rewrite elem_of_app. setoid_rewrite elem_of_cons. specialize (Hin1 uri x). specialize (Hin2 uri x). split.
    + intros (m & [Hm|Hm] & Hx); [exists c; split; [by left|]; apply Hin1; by exists m|].
      destruct (proj1 Hin2 (ex_intro _ m (conj Hm Hx))) as (c' & Hc' & Hn). exists c'. split; [by right|done].
    + intros (c' & [->|Hc'] & Hn); [destruct (proj2 Hin1 Hn) as (m & Hm & Hx)|destruct (proj2 Hin2) as (m & Hm & Hx); [by exists c'|]]; exists m; (split; [|done]); [by left|by right].
Qed.
End Facts.

(** ** What is classified comes from a mechanism *)

Lemma try_fold_inv {A B E} (I : B -> Prop) (f : B -> A -> result E B) l b b' :
  (forall b x b', x ∈ l -> I b -> f b x = Ok b' -> I b') -> I b -> try_fold f b l = Ok b' -> I b'.
Proof using Type.
  revert b. induction l as [|x l IH]; intros b Hf Hb; cbn; [by intros [= <-]|]. destruct (f b x) as [b1|] eqn:E1; [|done].
  apply IH; [intros b0 y b0' Hy; apply Hf; by right|]. eapply Hf; [left|done|done].
Qed.

Section Collect.
Context (shard : ShardDeletes).
Notation root := (sd_table_root shard).
Notation secrets := (sd_secrets shard).
Notation classified := (@Classified Descriptor Url).

Definition listed (entry : FileEntry) (d : DeleteMechanism) : Prop := entry ∈ sd_files shard /\ d ∈ deletes entry.

Definition delta_payload (entry : FileEntry) (d : DeleteMechanism) (v : @DeltaVector Descriptor Url) : Prop :=
  match d with
  | DeltaDeletionVector storage dv offset size_in_bytes cardinality =>
      delta_resolve try_new absolute_path Url_parse Url_as_str
        {| storage := storage; path_or_inline_dv := dv; offset := offset; size_in_bytes := size_in_bytes; cardinality := cardinality |}
        root (path entry) secrets = Ok v
  | _ => False
  end.
Definition iceberg_payload (entry : FileEntry) (d : DeleteMechanism) (v : IcebergDeletionVector) : Prop :=
  match d with
  | IcebergPuffinDeletionVector p size o len n => iceberg_resolve p (Z.of_N size) (Z.of_N o) (Z.of_N len) (Z.of_N n) (path entry) secrets = Ok v
  | _ => False
  end.

Record sourced (c : classified) : Prop := {
  so_files : forall p n, delete_files c !! p = Some n -> exists entry, listed entry (IcebergPositionalDelete p n);
  so_delta : forall f v, (f, v) ∈ delta_vectors c -> exists entry d, listed entry d /\ path entry = f /\ delta_payload entry d v;
  so_iceberg : forall f v, (f, v) ∈ iceberg_vectors c -> exists entry d, listed entry d /\ path entry = f /\ iceberg_payload entry d v;
}.

Lemma classify_one_sourced c entry d c' : listed entry d -> sourced c ->
  classify_one try_new absolute_path Url_parse Url_as_str root secrets c entry d = Ok c' -> sourced c'.
Proof using Type.
  intros Hl [H1 H2 H3]. unfold classify_one. destruct d as [p n| |p size o len n|st dv o sz card] eqn:Ed; rewrite <- Ed in Hl; cbn [applicable_delete_mechanism]; [|done| |].
  - intros [= <-]. split; cbn; [|done|done]. intros p' n'. destruct (delete_files c !! p) eqn:E; [apply H1|].
    destruct (decide (p = p')) as [<-|]; [rewrite lookup_insert_eq; intros [= <-]; exists entry; by rewrite <- Ed|rewrite lookup_insert_ne by done; apply H1].
  - destruct (iceberg_resolve _ _ _ _ _ _ _) as [v|] eqn:Er; [|done]. intros [= <-]. split; cbn; [done|done|].
    intros f v' [Hv|[= -> ->]%list_elem_of_singleton]%elem_of_app; [by apply H3|]. exists entry, d. split_and!; [done|done|]. by rewrite Ed.
  - destruct (delta_resolve _ _ _ _ _ _ _ _) as [v|] eqn:Er; [|done]. intros [= <-]. split; cbn; [done| |done].
    intros f v' [Hv|[= -> ->]%list_elem_of_singleton]%elem_of_app; [by apply H2|]. exists entry, d. split_and!; [done|done|]. by rewrite Ed.
Qed.

Lemma classify_sourced c : classify try_new absolute_path Url_parse Url_as_str root secrets (sd_files shard) = Ok c -> sourced c.
Proof using Type.
  unfold classify. apply try_fold_inv; [|split; cbn; [intros p n H; by rewrite lookup_empty in H|intros f v H; by apply elem_of_nil in H..]].
  intros c0 entry c1 He H0. apply try_fold_inv; [|done]. intros c2 d c3 Hd. apply classify_one_sourced. done.
Qed.

(** ** The positions a shard's mechanisms delete *)

Definition ctx_of (assigned : gmap string string) : DeleteReadContext := MkReadContext root assigned secrets (sd_metadata_size_hint shard).

Definition mechanism_deletes (assigned : gmap string string) (entry : FileEntry) (d : DeleteMechanism) (uri : string) (x : Z) : Prop :=
  match d with
  | IcebergPositionalDelete p _ => exists c, object_at (reconstruct_abs_uri p root) c /\ named assigned (List.concat (file_rows c)) uri x
  | IcebergEqualityDelete _ _ => False
  | IcebergPuffinDeletionVector _ _ _ _ _ => uri = reconstruct_abs_uri (path entry) root
      /\ exists v s, iceberg_payload entry d v /\ iceberg_set (ctx_of assigned) (path entry) v s /\ x ∈ rb_iter s
  | DeltaDeletionVector _ _ _ _ _ => uri = reconstruct_abs_uri (path entry) root
      /\ exists v s, delta_payload entry d v /\ delta_set (ctx_of assigned) (path entry) v s /\ x ∈ rb_iter s
  end.

Definition deleted (assigned : gmap string string) (uri : string) (x : Z) : Prop :=
  exists entry d, listed entry d /\ mechanism_deletes assigned entry d uri x.

(** The sizes the plan states are the objects' sizes. *)
Definition sizes_true : Prop := forall entry d, listed entry d ->
  match d with
  | IcebergPositionalDelete p n | IcebergPuffinDeletionVector p n _ _ _ =>
      forall c, object_at (reconstruct_abs_uri p root) c -> Z.of_nat (List.length c) = Z.of_N n
  | _ => True
  end.

Lemma payload_in_file assigned c : sizes_true -> sourced c -> Forall (fun m => puffin_in_file (ctx_of assigned) m.1 m.2) (iceberg_vectors c).
Proof using Type.
  intros Hsize Hso. apply Forall_forall. intros [f v] Hv. destruct (so_iceberg _ Hso f v Hv) as (entry & d & Hl & <- & Hp).
  specialize (Hsize entry d Hl). destruct d as [| |p size o len n|]; [done|done| |done]. cbn [iceberg_payload] in Hp.
  apply iceberg_resolve_in_bounds in Hp as (Ep & Hr1 & Hr2 & _); [|lia|lia]. intros obj Ho. cbn [fst snd ctx_table_root ctx_of] in *. rewrite Ep in Ho. specialize (Hsize obj Ho). unfold in_file. cbn [fst snd]. lia.
Qed.

(** The delete files as opened, each with its bytes. *)
Lemma opens_spec assigned c opens r opened r' : sizes_true -> sourced c -> 0 <= r ->
  delete_file_opens (ctx_of assigned) (delete_files c) = Ok opens -> join_spawned opens r = Ok (opened, r') ->
  r' = r + sumZ (fun file => map_total (od_decoded file)) opened
  /\ exists cs, Forall2 (opened_ok (ctx_of assigned)) cs opened
     /\ forall b, b ∈ cs <-> exists p n, delete_files c !! p = Some n /\ object_at (reconstruct_abs_uri p root) b.
Proof using Laws SL PL.
  intros Hsize Hso Hr Hopen%try_map_Forall2 Hj. cbn [ctx_table_root ctx_of] in Hopen.
  assert (Htask : forall p n t, (p, n) ∈ map_to_list (delete_files c) ->
    (let? meta := object_meta_for (reconstruct_abs_uri p root) n in Ok (open_delete_file (ctx_of assigned) meta.1 meta.2)) = Ok t ->
    forall r0 file r1, 0 <= r0 -> t r0 = Ok (file, r1) -> exists b, object_at (reconstruct_abs_uri p root) b /\ r1 = r0 + map_total (od_decoded file) /\ opened_ok (ctx_of assigned) b file).
  { intros p n t Hin. unfold object_meta_for. destruct (parse_wire _) as [l|] eqn:El; [|done]. cbn [fst snd]. intros [= <-] r0 file r1 Hr0 E.
    apply open_delete_file_spec in E as (b & Hb & Hok); [|done|lia]. assert (Hobj : object_at (reconstruct_abs_uri p root) b) by (by exists l).
    apply elem_of_map_to_list in Hin. destruct (so_files _ Hso p n Hin) as [entry Hl]. specialize (Hsize _ _ Hl b Hobj). exists b. split; [done|]. by apply Hok. }
  apply (join_spawned_spec (fun file => map_total (od_decoded file))) in Hj as [-> Hall]; [|done|intros file; apply map_total_nonneg|].
  2:{ apply Forall_forall. intros t Ht r0 file r1 Hr0 E. destruct (proj1 (Forall2_members _ _ _ Hopen) t Ht) as ([p n] & Hin & Et). by destruct (Htask p n t Hin Et r0 file r1 Hr0 E) as (b & _ & -> & _). }
  split; [done|].
  assert (Hpairs : Forall2 (fun pn file => exists b, object_at (reconstruct_abs_uri (fst pn) root) b /\ opened_ok (ctx_of assigned) b file) (map_to_list (delete_files c)) opened).
  { assert (Hsub : forall pn, pn ∈ map_to_list (delete_files c) -> pn ∈ map_to_list (delete_files c)) by done. revert Hsub Hopen opened Hall. generalize (map_to_list (delete_files c)) at 1 3 4 as files. intros files Hsub Hopen opened' Hall.
    revert opened' Hall. induction Hopen as [|[p n] t files tasks Et _ IH]; intros opened' Hall; inversion Hall as [|? file ? opened1 (r0 & r1 & Hr0 & E) Hall']; subst; constructor.
    - destruct (Htask p n t (Hsub _ (list_elem_of_here _ _)) Et r0 file r1 Hr0 E) as (b & Hb & _ & Hok). by exists b.
    - apply IH; [|done]. intros pn Hpn. apply Hsub. by right. }
  clear -Hpairs.
  assert (Hex : exists cs, Forall2 (opened_ok (ctx_of assigned)) cs opened /\ Forall2 (fun pn b => object_at (reconstruct_abs_uri (fst pn) root) b) (map_to_list (delete_files c)) cs).
  { induction Hpairs as [|pn file pns files (b & Hb & Hok) _ (cs & H1 & H2)]; [exists []; split; constructor|]. exists (b :: cs). split; by constructor. }
  destruct Hex as (cs & H1 & H2). exists cs. split; [done|]. destruct (Forall2_members _ _ _ H2) as [G1 G2]. intros b. split.
  - intros Hb. destruct (G1 b Hb) as ([p n] & Hpn & Ho). exists p, n. split; [by apply elem_of_map_to_list|done].
  - intros (p & n & Hpn & Ho). apply elem_of_map_to_list in Hpn. destruct (G2 _ Hpn) as (b' & Hb' & Ho'). cbn [fst] in Ho'. by rewrite (object_at_fun _ _ _ Ho Ho').
Qed.

Lemma collected_members (dv iv : list (list (string * S))) (ms : list (gmap string S)) uri x :
  (exists s, (uri, s) ∈ (List.concat (dv ++ iv) ++ List.concat (map map_to_list ms))%list /\ x ∈ rb_iter s)
  <-> (exists s, ((exists l, l ∈ dv /\ (uri, s) ∈ l) \/ (exists l, l ∈ iv /\ (uri, s) ∈ l)) /\ x ∈ rb_iter s) \/ exists m, m ∈ ms /\ in_set m uri x.
Proof using Type.
  rewrite List.concat_app. setoid_rewrite elem_of_app. setoid_rewrite elem_of_app. setoid_rewrite elem_of_concat_list. split.
  - intros (s & [Hs|(l & Hl & Hs)] & Hx); [left; by exists s|]. apply list_elem_of_fmap in Hl as (m0 & -> & Hm). right. exists m0. split; [done|]. apply elem_of_map_to_list in Hs. by exists s.
  - intros [(s & Hs & Hx)|(m0 & Hm & s & Hs & Hx)]; exists s; (split; [|done]); [by left|]. right. exists (map_to_list m0). split; [by apply list_elem_of_fmap_2|by apply elem_of_map_to_list].
Qed.

(** What the vectors of the classification delete is what the listed vectors delete. *)
Lemma vectors_deleted assigned c uri x : sourced c ->
  classify try_new absolute_path Url_parse Url_as_str root secrets (sd_files shard) = Ok c ->
  (exists s, ((exists f v, (f, v) ∈ delta_vectors c /\ uri = reconstruct_abs_uri f root /\ delta_set (ctx_of assigned) f v s)
      \/ (exists f v, (f, v) ∈ iceberg_vectors c /\ uri = reconstruct_abs_uri f root /\ iceberg_set (ctx_of assigned) f v s)) /\ x ∈ rb_iter s)
  <-> exists entry d, listed entry d /\ match d with IcebergPositionalDelete _ _ => False | _ => mechanism_deletes assigned entry d uri x end.
Proof using Type.
  intros Hso Hc. split.
  - intros (s & [(f & v & Hv & -> & Hs)|(f & v & Hv & -> & Hs)] & Hx).
    + destruct (so_delta _ Hso f v Hv) as (entry & d & Hl & <- & Hp). exists entry, d. split; [done|]. destruct d; try done. split; [done|]. by exists v, s.
    + destruct (so_iceberg _ Hso f v Hv) as (entry & d & Hl & <- & Hp). exists entry, d. split; [done|]. destruct d; try done. split; [done|]. by exists v, s.
  - intros (entry & d & [He Hd] & Hm). pose proof (classify_represents _ _ _ _ _ _ _ _ Hc entry d He Hd) as Hr.
    destruct d as [| |p size o len n|st dv o sz card]; [done|done| |]; cbn [represented] in Hr; destruct Hr as (v & Hv & Er); cbn [mechanism_deletes] in Hm; destruct Hm as (-> & v' & s & Hp & Hs & Hx);
      cbn [iceberg_payload delta_payload] in Hp; rewrite Er in Hp; injection Hp as <-; exists s; (split; [|done]); [right|left]; by exists (path entry), v.
Qed.

Lemma vectors_nonneg assigned f x :
  (forall v s, delta_set (ctx_of assigned) f v s -> x ∈ rb_iter s -> 0 <= x) /\ (forall v s, iceberg_set (ctx_of assigned) f v s -> x ∈ rb_iter s -> 0 <= x).
Proof using DL.
  split; intros v s.
  - intros (body & _ & Hd). unfold delta_decode, delta_decode_positions in Hd. destruct (dv_read _ _) as [s'|] eqn:E; [|done]. cbn [map_err] in Hd.
    destruct (negb _); [done|]. injection Hd as <-. by apply (dl_delta DL _ _ _ _ E).
  - intros (c & _ & Hd). unfold iceberg_decode, iceberg_decode_positions in Hd. destruct (deserialize _) as [l|] eqn:E; [|done]. destruct (negb _); [done|].
    destruct (from_sorted_iter l) as [s'|] eqn:E2; [|done]. injection Hd as <-. by apply (dl_iceberg DL _ _ _ _ E E2).
Qed.

Lemma collect_positions_spec r m r' :
  sizes_true -> 0 <= r -> collect_positions shard r = Ok (m, r') ->
  r' = r + map_total m /\ (forall uri x, in_set m uri x -> 0 <= x)
  /\ exists assigned, assigned_files (sd_files shard) root = Ok assigned /\ forall uri x, in_set m uri x <-> deleted assigned uri x.
Proof using Laws SL PL DL.
  intros Hsize Hr. unfold collect_positions. destruct (classify _ _ _ _ _ _ _) as [c|] eqn:Ec; cbn [lift]; [|done].
  destruct (assigned_files _ _) as [assigned|] eqn:Ea; cbn [lift]; [|done]. fold (ctx_of assigned). pose proof (classify_sourced c Ec) as Hso.
  destruct (delete_file_opens _ _) as [opens|] eqn:Eo; cbn [lift]; [|done].
  destruct (join_spawned opens r) as [[opened r1]|] eqn:E1; [|done]. rewrite join_spawned_app.
  destruct (join_spawned (delta_vector_reads _ _) r1) as [[dv r2]|] eqn:E2; [|done].
  destruct (join_spawned (iceberg_vector_reads _ _) r2) as [[iv r3]|] eqn:E3; [|done].
  destruct (join_spawned (List.concat _) r3) as [[ms r4]|] eqn:E4; [|done]. intros Hu.
  destruct (opens_spec assigned c opens r opened r1 Hsize Hso Hr Eo E1) as [-> (cs & Hok & Hcs)].
  assert (Hd0 : 0 <= sumZ (fun file => map_total (od_decoded file)) opened) by (apply sumZ_nonneg; intros; apply map_total_nonneg).
  apply delta_reads_spec in E2 as [-> Hdelta]; [|lia].
  assert (Hd1 : 0 <= sumZ (fun v => total_size (map snd v)) dv) by (apply sumZ_nonneg; intros; apply total_size_nonneg).
  apply iceberg_reads_spec in E3 as [-> Hice]; [|lia|by apply payload_in_file].
  assert (Hd2 : 0 <= sumZ (fun v => total_size (map snd v)) iv) by (apply sumZ_nonneg; intros; apply total_size_nonneg).
  apply (opened_reads_spec _ cs) in E4 as (Hr4 & Hnn & Hrows); [|lia|done].
  assert (Htotal : r4 = r + total_size (map snd (List.concat (dv ++ iv) ++ List.concat (map map_to_list ms)))).
  { rewrite map_app, total_size_app, !total_size_concat, sumZ_app. enough (sumZ (fun v => total_size (map snd v)) (map map_to_list ms) = sumZ map_total ms) by lia.
    unfold sumZ. clear. induction ms as [|m0 ms IH]; [done|]. cbn [map fold_right]. by rewrite IH. }
  rewrite Htotal in Hu. pose proof (union_by_data_file_spec secrets r (List.concat (dv ++ iv) ++ List.concat (map map_to_list ms)) Hr) as Hspec.
  rewrite Hu in Hspec. destruct Hspec as [-> Hin]. split; [done|]. split.
  { intros uri x. rewrite Hin, collected_members. intros [(s & Hs & Hx)|(m0 & Hm0 & Hx)]; [|by eapply Hnn].
    destruct Hs as [(f & v & _ & _ & Hs)%Hdelta|(f & v & _ & _ & Hs)%Hice]; [by eapply (proj1 (vectors_nonneg assigned f x))|by eapply (proj2 (vectors_nonneg assigned f x))]. }
  exists assigned. split; [done|]. intros uri x. rewrite Hin.
  rewrite collected_members, Hrows. setoid_rewrite Hdelta. setoid_rewrite Hice. rewrite (vectors_deleted assigned c uri x Hso Ec). unfold deleted. split.
  - intros [(entry & d & Hl & Hm)|(b & Hb & Hn)]; [exists entry, d; split; [done|]; by destruct d|].
    apply Hcs in Hb as (p & n & Hp & Ho). destruct (so_files _ Hso p n Hp) as [entry Hl]. exists entry, (IcebergPositionalDelete p n). split; [done|]. by exists b.
  - intros (entry & d & Hl & Hm). destruct d as [p n| | |] eqn:Ed; [|by left; exists entry, d; rewrite Ed..]. right. destruct Hm as (b & Ho & Hn). exists b. split; [|done].
    apply Hcs. destruct Hl as [He Hd]. destruct (classify_represents _ _ _ _ _ _ _ _ Ec entry _ He Hd) as [n' Hn']. by exists p, n'.
Qed.

(** C19. The row-position deletes of a shard are applied exactly: the positions collected for
    a data file are those its deletion vectors hold and those the rows of the shard's
    positional-delete files name, whatever the batches, the shared Puffin and sidecar
    files, the footer sizes and the statistics; and the reservation then holds the size of
    the collected sets. An equality delete or an unreadable mechanism fails instead. *)
Theorem shard_deletes_exact r m r' :
  sizes_true -> 0 <= r -> collect_positions shard r = Ok (m, r') ->
  r' = r + map_total m /\ (forall uri x, in_set m uri x -> 0 <= x)
  /\ exists assigned, assigned_files (sd_files shard) root = Ok assigned /\ forall uri x, in_set m uri x <-> deleted assigned uri x.
Proof using Laws SL PL DL. apply collect_positions_spec. Qed.
End Collect.
End Reads.

(** C38. Opening a delete file always ends: however often the footer asks for a longer tail,
    each round asks for more bytes than the one before, within 64 bits. *)
Theorem footer_read_ends {U} {SU : StoreUrls U} get_range {Footer} (try_parse_sized : bytes -> Z -> ParseOutcome Footer) ctx location size :
  exists r, loop2 64 (tail_step get_range try_parse_sized ctx location size) (Z.max (default 0 (ctx_metadata_size_hint ctx)) FOOTER_SIZE) = inr r
    /\ open_tail get_range try_parse_sized ctx location size = r.
Proof.
  destruct (loop2_ends (tail_step get_range try_parse_sized ctx location size) (Z.max (default 0 (ctx_metadata_size_hint ctx)) FOOTER_SIZE)) as [r Hr].
  - unfold FOOTER_SIZE. lia.
  - intros a b. unfold tail_step. destruct (get_range _ _ _) as [tail|]; [|done]. destruct (try_parse_sized tail size) as [[f|]|needed e|]; try done.
    destruct (Z.ltb_spec a (needed mod 2 ^ 64)); [|done]. intros [= <-]. split; [done|]. by apply Z.mod_pos_bound.
  - exists r. split; [done|]. unfold open_tail. by rewrite Hr.
Qed.

(** ** At work: a data file with a delete file of three row groups and a Puffin vector *)

Definition world_objects (p : list string) : option bytes :=
  if bool_decide (p = ["t"; "d"]) then Some (replicate 12 Byte.x00) else if bool_decide (p = ["t"; "p"]) then Some (replicate 9 Byte.x01) else None.
Definition world_range (p : list string) (a b : Z) : result string bytes := match world_objects p with Some c => Ok (file_slice c (a, b)) | None => Err "404" end.
Definition world_get (p : list string) : result string bytes := ok_or (world_objects p) "404".
Definition world_parse (tail : bytes) (size : Z) : ParseOutcome unit := if (List.length tail <? 10)%nat then NeedMoreData 10 "short" else Parsed (Ok tt).
Definition world_fields : list Field := [{| field_name := "file_path"; field_id := None |}; {| field_name := "pos"; field_id := None |}].
Definition world_meta : DeleteFileMeta := MkDeleteMeta world_fields [0; 1]%nat
  [MkRowGroup [Some (ByteArrayStats (Some "s3://bucket/a") (Some "s3://bucket/b"))] (fun _ => 5); MkRowGroup [] (fun _ => 3); MkRowGroup [] (fun _ => 0)].
Definition world_rows : list (list row) := [[(Some "s3://bucket/a", Some 1)]; [(Some "s3://bucket/t/f", Some 4)]; [(Some "s3://bucket/t/f", Some 2)]].
Definition world_batches (groups : list nat) : list (result string Batch) :=
  let rows := List.concat (map (fun idx => default [] (world_rows !! idx)) groups) in
  [Ok {| file_paths := Utf8Paths (map fst rows); pos_column := Int64Pos (map snd rows) |}].
Definition world_shard : ShardDeletes :=
  MkShardDeletes [{| path := "f"; size := 9; deletes := [IcebergPositionalDelete "d" 12; IcebergPuffinDeletionVector "p" 9 4 3 1]; partition_values := ∅ |}] "s3://bucket/t" [] (Some 3).
Definition world_collect : res (gmap string (gset Z) * Z) :=
  collect_positions (Pool := fixed_pool 1000) (SU := bucket_urls) (Descriptor := unit) (Url := string) (fun _ _ _ _ _ => Ok tt) (fun _ _ => Ok None) Ok id (fun _ _ => Err "none")
    (fun _ => Ok [7]) (fun l => Ok (list_to_set l)) world_range world_get world_parse (fun _ => Ok world_meta)
    (fun _ _ _ groups => Ok (world_fields, fun _ _ => world_batches groups)) (fun e => let '(User m) := e in m) world_shard 0.

Lemma world_store : store_laws world_range world_get world_objects.
Proof.
  split; [intros p a b l|intros p l]; unfold world_range, world_get; destruct (world_objects p) as [c|]; cbn; try done; intros [= <-]; [by exists c|done].
Qed.

Lemma world_parquet : parquet_laws world_parse (fun _ => Ok world_meta) (fun _ _ _ groups => Ok (world_fields, fun _ _ => world_batches groups)) world_objects (fun _ => world_rows).
Proof.
  split.
  - intros c metadata (first & footer & _ & _ & [= <-]). done.
  - intros c metadata a b idx rg (first & footer & _ & _ & [= <-]) [= <- <-] Hrg min max Hs path pos Hin.
    destruct idx as [|[|[|idx]]]; cbn in Hrg; try done; injection Hrg as <-; cbn in Hs; try done. injection Hs as <- <-.
    unfold rows_at in Hin. cbn in Hin. by apply list_elem_of_singleton in Hin as [= -> ->].
  - intros c metadata a b reader groups fields batches i k _ _ _ [= <- <-] _ _. unfold world_batches, rows_at. cbn [all_rows batch_rows pos_column file_paths].
    rewrite app_nil_r. generalize (List.concat (map (fun idx => default [] (world_rows !! idx)) groups)). induction l as [|[p x] l IH]; [done|]. cbn in *. by rewrite IH.
Qed.

Lemma world_decoders : decoder_laws (S := gset Z) (fun (_ : unit) (_ : @bodies string) => Err "none") (fun _ => Ok [7]) (fun l => Ok (list_to_set l)).
Proof.
  split; [done|]. intros blob l s x [= <-] [= <-] Hx. cbn in Hx. apply elem_of_gset_iter in Hx. set_unfold in Hx. destruct Hx as [->|[]]. lia.
Qed.

Lemma world_sizes : sizes_true (SU := bucket_urls) world_objects world_shard.
Proof.
  intros entry d [He Hd]. apply list_elem_of_singleton in He as ->. cbn in Hd.
  apply elem_of_cons in Hd as [->|Hd]; [|apply list_elem_of_singleton in Hd as ->]; intros c (l & Hl & Ho); vm_compute in Hl; injection Hl as <-; vm_compute in Ho; by injection Ho as <-.
Qed.

Example world_answer :
  match world_collect with Ok (m, _) => bool_decide (elements <$> (m !! "s3://bucket/t/f") = Some (elements ({[2; 4; 7]} : gset Z))) | Err _ => false end = true.
Proof. vm_compute. reflexivity. Qed.

Lemma shard_deletes_exact_witness :
  exists m r', world_collect = Ok (m, r') /\ r' = 0 + map_total m /\ (elements <$> (m !! "s3://bucket/t/f")) = Some (elements ({[2; 4; 7]} : gset Z)).
Proof.
  pose proof world_answer as H. destruct world_collect as [[m r']|] eqn:E; [|discriminate H]. exists m, r'. split; [done|]. split.
  - refine (proj1 (shard_deletes_exact (Pool := fixed_pool 1000) (SU := bucket_urls) (Descriptor := unit) (Url := string) (fun _ _ _ _ _ => Ok tt) (fun _ _ => Ok None) Ok id (fun _ _ => Err "none")
      (fun _ => Ok [7]) (fun l => Ok (list_to_set l)) world_range world_get world_parse (fun _ => Ok world_meta)
      (fun _ _ _ groups => Ok (world_fields, fun _ _ => world_batches groups)) (fun e => let '(User m) := e in m) world_objects (fun _ => world_rows) world_store world_parquet
      world_decoders world_shard 0 m r' world_sizes (Z.le_refl 0) E)).
  - by apply bool_decide_eq_true in H.
Defined.
