(* ===== verification/Emit.v ===== *)
(** What leaves the scan: crates/lakehouse-engine/src/scan/{convert,emit}.rs and the
    emitting half of partial_agg.rs. Arrow columns are coerced to the types the call's
    EMITS clause declares and handed to the UDF context, batch by batch or row by row;
    errors are framed and redacted on the way out. *)

From stdpp Require Import base list strings numbers gmap.
From Stdlib Require Import Ascii String ZArith NArith Lia ZifyBool SpecFloat.
From S2P Require Import Prelude Text ArrowTypes TypeMapping ExactNumeric CheckedDiv Redaction ScanSpec.

Local Open Scope string_scope.

(** ** The UDF interface *)

(** [exasol_udf_sdk]'s error kinds; the engine raises [KUser]. *)
Inductive ErrorKind := KUser | KUnimplemented | KType | KConnectBack | KConnection.
Record SdkError := MkSdkError { error_kind : ErrorKind; error_message : string }.
Definition user (msg : string) : SdkError := MkSdkError KUser msg.

(** [ExaType] and [ColumnInfo] of the SDK. *)
Inductive ExaType :=
| ExaBoolean | ExaDouble | ExaInt32 | ExaInt64
| ExaNumeric (precision scale : N)
| ExaDate
| ExaTimestamp (precision : N)
| ExaString | ExaChar | ExaUnsupported.
Record ColumnInfo := MkColumnInfo { ci_name : string; ci_typ : ExaType }.

(** A date is its day number from the Common Era; an instant its seconds from the epoch
    and the nanoseconds within the second. *)
Class Chrono := {
  NaiveDate : Type;
  NaiveDateTime : Type;
  from_num_days_from_ce_opt : Z -> option NaiveDate;
  num_days_from_ce : NaiveDate -> Z;
  from_timestamp : Z -> Z -> option NaiveDateTime;
  timestamp : NaiveDateTime -> Z;
  timestamp_subsec_nanos : NaiveDateTime -> Z;
}.

(** What chrono documents: every day of the years -262143 to 262142 is a date, and an
    instant is built exactly or not at all. *)
Class ChronoLaws (CH : Chrono) : Prop := {
  dates_of_days n : (Z.abs n <= 95000000)%Z -> exists d, from_num_days_from_ce_opt n = Some d;
  days_of_date n d : from_num_days_from_ce_opt n = Some d -> num_days_from_ce d = n;
  instant_of s n i : from_timestamp s n = Some i -> timestamp i = s /\ timestamp_subsec_nanos i = n;
}.

Section Columns.
(** A cell of a type whose values the scan never looks into, and chrono. *)
Context {Other : Type} {CH : Chrono}.

(** [Value] of the SDK. *)
Inductive Value :=
| VNull
| VBool (b : bool)
| VInt32 (n : Z)
| VInt64 (n : Z)
| VDouble (f : spec_float)
| VString (s : string)
| VNumeric (unscaled : Z) (scale : Z)
| VDate (d : NaiveDate)
| VTimestamp (t : NaiveDateTime).

(** The native value of an Arrow type. *)
Definition native (t : DataType) : Type :=
  match t with
  | TBoolean => bool
  | TInt8 | TInt16 | TInt32 | TInt64 | TUInt8 | TUInt16 | TUInt32 | TUInt64 => Z
  | TFloat32 | TFloat64 => spec_float
  | TUtf8 | TLargeUtf8 | TUtf8View => string
  | TBinary | TLargeBinary | TBinaryView | TFixedSizeBinary _ => string
  | TDate32 => Z
  | TTimestamp _ _ => Z
  | TDecimal128 _ _ => Z
  | _ => Other
  end.

Record Array := MkArray { data_type : DataType; cells : list (option (native data_type)) }.
Definition array_len (a : Array) : nat := List.length (cells a).

Record RecordBatch := MkBatch { batch_fields : list Field; batch_columns : list Array; num_rows : nat }.

(** ** convert.rs *)

Definition nan_domain_error : SdkError :=
  user "numeric value out of range: NaN result from an out-of-domain math operation (e.g. SQRT/LN/LOG of a negative number, or ACOS/ASIN outside [-1, 1])".

Definition EXASOL_DATE_MIN_DAYS : Z := -719162.
Definition EXASOL_DATE_MAX_DAYS : Z := 2932896.
Definition UNIX_EPOCH_DAYS_FROM_CE : Z := 719163.
Definition in_date_range (days : Z) : bool := ((EXASOL_DATE_MIN_DAYS <=? days) && (days <=? EXASOL_DATE_MAX_DAYS))%Z.

Definition date_out_of_range_detail (days : Z) : string :=
  show_Z days ++ " days from 1970-01-01 lies outside Exasol's DATE range 0001-01-01 to 9999-12-31".

(** The cells of a [Date32] column; no other type has any. *)
Definition date_cells (a : Array) : list Z :=
  (match data_type a as t return list (option (native t)) -> list Z with
   | TDate32 => fun cs => omap id cs
   | _ => fun _ => []
   end) (cells a).

Definition check_date32_in_exasol_range (a : Array) (output_column : string) : result SdkError unit :=
  match List.find (fun days => negb (in_date_range days)) (date_cells a) with
  | None => Ok tt
  | Some days => Err (user ("DATE value out of range in output column " ++ output_column ++ ": " ++ date_out_of_range_detail days))
  end.

Definition NANOS_PER_SECOND : Z := 1000000000.
Definition I64_MAX : Z := 9223372036854775807.

Definition per_second (unit : TimeUnit) : Z :=
  match unit with USecond => 1 | UMillisecond => 1000 | UMicrosecond => 1000000 | UNanosecond => NANOS_PER_SECOND end.
Definition unit_debug (unit : TimeUnit) : string :=
  match unit with USecond => "Second" | UMillisecond => "Millisecond" | UMicrosecond => "Microsecond" | UNanosecond => "Nanosecond" end.

(** [div_euclid] and [rem_euclid] by a positive divisor are [Z.div] and [Z.modulo]. *)
Definition timestamp_to_naive_datetime (unit : TimeUnit) (raw : Z) : result SdkError NaiveDateTime :=
  let seconds := (raw / per_second unit)%Z in
  let subsecond_nanos := ((raw mod per_second unit) * (NANOS_PER_SECOND / per_second unit))%Z in
  ok_or (from_timestamp seconds subsecond_nanos)
    (user ("timestamp out of range: a " ++ unit_debug unit ++ " column value " ++ show_Z raw ++ " (derived seconds " ++ show_Z seconds
      ++ ", sub-second nanoseconds " ++ show_Z subsecond_nanos ++ ") falls outside the instant range chrono::NaiveDateTime represents")).

Definition date_value (days : Z) : result SdkError Value :=
  let date := if in_date_range days then from_num_days_from_ce_opt (days + UNIX_EPOCH_DAYS_FROM_CE)%Z else None in
  let? d := ok_or date (user ("DATE value out of range: " ++ date_out_of_range_detail days)) in
  Ok (VDate d).

(** ** Dates and instants *)

Section Moments.
Context {CL : ChronoLaws CH}.

Lemma date_value_range days v : date_value days = Ok v -> exists d, v = VDate d /\ num_days_from_ce d = (days + UNIX_EPOCH_DAYS_FROM_CE)%Z /\ in_date_range days = true.
Proof.
  unfold date_value. destruct (in_date_range days) eqn:E; [|done]. destruct (from_num_days_from_ce_opt _) as [d|] eqn:Ed; [|done].
  cbn. intros [= <-]. exists d. split_and!; [done| |done]. by apply days_of_date.
Qed.

(** The first of January of a year of the proleptic Gregorian calendar, in days from
    1970-01-01. *)
Definition january_first (year : Z) : Z := (365 * (year - 1) + (year - 1) / 4 - (year - 1) / 100 + (year - 1) / 400 - 719162)%Z.

Lemma year_of_day days (years : nat) : (january_first 1 <= days < january_first (1 + Z.of_nat years))%Z ->
  exists year, (1 <= year <= Z.of_nat years)%Z /\ (january_first year <= days < january_first (year + 1))%Z.
Proof.
  induction years as [|n IH]; intros H.
  { replace (1 + Z.of_nat 0)%Z with 1%Z in H by lia. lia. }
  destruct (Z.lt_ge_cases days (january_first (1 + Z.of_nat n))) as [Hlt|Hge].
  - destruct IH as (year & Hy & Hd); [lia|]. exists year. split; [lia|done].
  - exists (1 + Z.of_nat n)%Z. split; [lia|]. replace (1 + Z.of_nat n + 1)%Z with (1 + Z.of_nat (S n))%Z by lia. lia.
Qed.

Lemma date_range_years days : in_date_range days = true <-> (january_first 1 <= days < january_first 10000)%Z.
Proof.
  unfold in_date_range, EXASOL_DATE_MIN_DAYS, EXASOL_DATE_MAX_DAYS. change (january_first 1) with (-719162)%Z. change (january_first 10000) with 2932897%Z. lia.
Qed.

(** A date or an instant leaves the scan as the moment it is, or as an error: a day
    is emitted exactly when it falls in a year from 1 to 9999 of the Gregorian calendar,
    as that day; an emitted timestamp of any unit, before or after the epoch, is the
    very instant its column holds, to the nanosecond, the nanoseconds within their
    second. *)
Theorem emitted_moments_exact unit raw days :
  (forall t, timestamp_to_naive_datetime unit raw = Ok t ->
     (timestamp t * NANOS_PER_SECOND + timestamp_subsec_nanos t = raw * (NANOS_PER_SECOND / per_second unit))%Z /\ (0 <= timestamp_subsec_nanos t < NANOS_PER_SECOND)%Z)
  /\ ((exists year, (1 <= year <= 9999)%Z /\ (january_first year <= days < january_first (year + 1))%Z)
      <-> exists d, date_value days = Ok (VDate d) /\ (num_days_from_ce d = days - january_first 1 + 1)%Z).
Proof.
  split.
  - unfold timestamp_to_naive_datetime. intros t. destruct (from_timestamp _ _) as [i|] eqn:E; [|done]. intros [= <-].
    apply instant_of in E as [-> ->]. assert (Hp : (0 < per_second unit)%Z) by (destruct unit; reflexivity).
    pose proof (Z.mod_pos_bound raw _ Hp). pose proof (Z_div_mod_eq_full raw (per_second unit)) as Hraw.
    assert (Hn : (per_second unit * (NANOS_PER_SECOND / per_second unit) = NANOS_PER_SECOND)%Z) by (destruct unit; reflexivity).
    assert (0 < NANOS_PER_SECOND / per_second unit)%Z by (destruct unit; reflexivity). split; [|nia].
    rewrite <- Hn. set (q := (raw / per_second unit)%Z) in *. set (r := (raw mod per_second unit)%Z) in *. rewrite Hraw. rewrite Hn. ring_simplify. nia.
  - split.
    + intros (year & Hy & Hd). assert (Hr : in_date_range days = true).
      { apply date_range_years. change (january_first 10000) with 2932897%Z. change (january_first 1) with (-719162)%Z. unfold january_first in Hd.
        pose proof (Z.div_le_mono (year - 1) 9998 4). pose proof (Z.div_pos (year - 1) 4). pose proof (Z.div_pos (year - 1) 400).
        pose proof (Z.div_le_mono (year + 1 - 1) 9999 4). split; [|]; Z.to_euclidean_division_equations; lia. }
      destruct (dates_of_days (days + UNIX_EPOCH_DAYS_FROM_CE)) as [d Ed].
      { unfold in_date_range, EXASOL_DATE_MIN_DAYS, EXASOL_DATE_MAX_DAYS in Hr. unfold UNIX_EPOCH_DAYS_FROM_CE. lia. }
      exists d. unfold date_value. rewrite Hr, Ed. split; [done|]. rewrite (days_of_date _ _ Ed). unfold UNIX_EPOCH_DAYS_FROM_CE. change (january_first 1) with (-719162)%Z. lia.
    + intros (d & (d' & _ & _ & Hr)%date_value_range & _). apply (year_of_day days 9999). by apply date_range_years.
Qed.

End Moments.

Definition is_nan (f : spec_float) : bool := match f with S754_nan => true | _ => false end.

(** [f32 as f64], and Arrow's display of a cell. *)
Context (f64_of_f32 : spec_float -> spec_float) (cell_display : forall t, native t -> string).

Definition double_value (f : spec_float) (wide : spec_float) : result SdkError Value := if is_nan f then Err nan_domain_error else Ok (VDouble wide).

(** A non-null cell; [as u8] of a scale wraps. *)
Definition cell_value (t : DataType) : native t -> result SdkError Value :=
  match t with
  | TBoolean => fun b => Ok (VBool b)
  | TInt8 | TInt16 | TInt32 => fun n => Ok (VInt32 n)
  | TInt64 | TUInt32 => fun n => Ok (VInt64 n)
  | TUInt64 => fun v => Ok (if (v <=? I64_MAX)%Z then VInt64 v else VNumeric v 0)
  | TUInt8 | TUInt16 => fun n => Ok (VInt32 n)
  | TFloat32 => fun v => double_value v (f64_of_f32 v)
  | TFloat64 => fun v => double_value v v
  | TUtf8 | TLargeUtf8 => fun s => Ok (VString s)
  | TDate32 => date_value
  | TTimestamp unit _ => fun raw => let? t := timestamp_to_naive_datetime unit raw in Ok (VTimestamp t)
  | TDecimal128 p s as t => fun raw => if ((p <=? 36) && (s <=? 36))%Z then Ok (VNumeric raw (s mod 256)%Z) else Ok (VString (cell_display (TDecimal128 p s) raw))
  | t => fun v => Ok (VString (cell_display t v))
  end.

(** A row past the end is never asked for. *)
Definition arrow_value_at (col : Array) (row : nat) : result SdkError Value :=
  match mjoin (cells col !! row) with None => Ok VNull | Some v => cell_value (data_type col) v end.

(** ** emit.rs: the declared types *)

Definition decimal_target (declared : ColumnInfo) (precision scale : N) : result SdkError DataType :=
  if ((precision <=? 255) && (scale <=? 127))%N && ((1 <=? precision) && (precision <=? 38) && (scale <=? 38) && (scale <=? precision))%N
  then Ok (TDecimal128 (Z.of_N precision) (Z.of_N scale))
  else Err (user ("emit failed: output column " ++ ci_name declared ++ " is declared NUMERIC with precision " ++ show_N precision ++ " and scale " ++ show_N scale
         ++ ", which is not a decimal the emit boundary can represent")).

Definition target_arrow_type (declared : ColumnInfo) : result SdkError DataType :=
  match ci_typ declared with
  | ExaBoolean => Ok TBoolean
  | ExaDouble => Ok TFloat64
  | ExaInt32 => Ok TInt32
  | ExaInt64 => Ok TInt64
  | ExaNumeric precision scale => decimal_target declared precision scale
  | ExaDate => Ok TDate32
  | ExaTimestamp precision => Ok (TTimestamp (arrow_unit (from_declared_digits precision)) None)
  | ExaString | ExaChar | ExaUnsupported => Ok TUtf8
  end.

Definition check_declared_arity (declared : list ColumnInfo) (produced : nat) : result SdkError unit :=
  if (List.length declared =? produced)%nat then Ok tt
  else Err (user ("emit failed: the call declares " ++ show_nat (List.length declared) ++ " output column(s) but the scan produced " ++ show_nat produced)).

Definition check_emitted_dates_in_range (columns : list Array) (declared : list ColumnInfo) : result SdkError unit :=
  let? _ := try_map (fun cd => check_date32_in_exasol_range cd.1 (ci_name cd.2)) (zip columns declared) in Ok tt.

(** Arrow's strict cast, [{:?}] of a type, and the batch constructor. *)
Context (cast_with_options : Array -> DataType -> result string Array) (type_debug : DataType -> string)
  (try_new : list Field -> list Array -> result string RecordBatch).

Definition is_decimal_type (t : DataType) : bool :=
  match t with TDecimal32 _ _ | TDecimal64 _ _ | TDecimal128 _ _ | TDecimal256 _ _ => true | _ => false end.

Definition coerce_column (column : Array) (declared : ColumnInfo) (target : DataType) : result SdkError Array :=
  if bool_decide (data_type column = target) then Ok column
  else match cast_with_options column target with
       | Ok cast => Ok cast
       | Err e =>
           match target with
           | TDecimal128 p s =>
               if is_decimal_type (data_type column) then
                 Err (user (numeric_overflow ("output column " ++ ci_name declared ++ " exceeds DECIMAL(" ++ show_Z p ++ "," ++ show_Z s ++ "): " ++ e)))
               else Err (user ("emit failed: output column " ++ ci_name declared ++ " could not be coerced from " ++ type_debug (data_type column) ++ " to " ++ type_debug target ++ ": " ++ e))
           | _ => Err (user ("emit failed: output column " ++ ci_name declared ++ " could not be coerced from " ++ type_debug (data_type column) ++ " to " ++ type_debug target ++ ": " ++ e))
           end
       end.

Definition coerced_field (f : Field) (a : Array) : Field := MkField (field_name f) (data_type a) (field_nullable f) ∅.

Definition coerce_batch_to_exa_types (batch : RecordBatch) (declared : list ColumnInfo) : result SdkError RecordBatch :=
  let? _ := check_declared_arity declared (List.length (batch_fields batch)) in
  let? targets := try_map target_arrow_type declared in
  if forallb (fun ft => bool_decide (field_type ft.1 = ft.2)) (zip (batch_fields batch) targets) then
    let? _ := check_emitted_dates_in_range (batch_columns batch) declared in Ok batch
  else
    let? columns := try_map (fun '(col, (column, target)) => coerce_column col column target) (zip (batch_columns batch) (zip declared targets)) in
    let? _ := check_emitted_dates_in_range columns declared in
    match try_new (zip_with coerced_field (batch_fields batch) columns) columns with
    | Ok coerced => Ok coerced
    | Err e => Err (user ("emit failed: the coerced batch is not well formed: " ++ e))
    end.

(** ** emit.rs: errors on their way out *)

(** [DataFusionError]: the message of a [ResourcesExhausted] root, and the error's text
    with its causes ([error_chain]); the SDK's text of its errors. *)
Context (resources_exhausted : DynError -> option string) (error_chain : DynError -> string) (display_f64 : spec_float -> string) (sdk_display : SdkError -> string).

Definition raised_failure_error (failure : string) (secrets : list string) : SdkError := user (redact_error_text failure secrets).

Definition CONCURRENT_FAILURE_PREAMBLE : string := "the scan also surfaced:".
Definition MEMORY_EXHAUSTED_LABEL : string := "scan failed: memory exhausted (ResourcesExhausted):".

Definition resources_exhausted_error (msg : string) (secrets : list string) : SdkError :=
  user (MEMORY_EXHAUSTED_LABEL ++ " " ++ redact_error_text msg secrets).

Definition redact_storage_error (msg : string) (secrets : list string) : SdkError :=
  user ("scan failed: assigned data could not be read: " ++ redact_error_text msg secrets).

Definition classify_scan_error (e : DynError) (secrets : list string) : SdkError :=
  match find_checked_float_div_error e with
  | Some division => raised_failure_error (div_error_display display_f64 division) secrets
  | None => match resources_exhausted e with
            | Some msg => resources_exhausted_error msg secrets
            | None => redact_storage_error (error_chain e) secrets
            end
  end.

(** [raised] is the session's record. *)
Definition reframe_raised_failure (raised : option string) (error : SdkError) (secrets : list string) : SdkError :=
  match raised with
  | None => error
  | Some recorded =>
      let raised := raised_failure_error recorded secrets in
      let surfaced := sdk_display error in
      if contains MEMORY_EXHAUSTED_LABEL surfaced
      then user (sdk_display raised ++ "; " ++ CONCURRENT_FAILURE_PREAMBLE ++ " " ++ redact_error_text surfaced secrets)
      else raised
  end.

Definition redact_scan_error (error : SdkError) (secrets : list string) : SdkError :=
  MkSdkError (error_kind error) (redact_error_text (error_message error) secrets).

(** ** diagnostics.rs: phase timers *)

(** Instants and durations in nanoseconds of the monotonic clock; [now] is the instant
    an operation reads. *)
Record PhaseTimers := MkTimers {
  body_start : N; startup : N; startup_sealed : bool; import : N; emit_time : N; mark : option N;
}.
Definition timers_start (now : N) : PhaseTimers := MkTimers now 0 false 0 0 None.
Definition seal_startup (t : PhaseTimers) (now : N) : PhaseTimers :=
  if startup_sealed t then t else MkTimers (body_start t) (now - body_start t) true (import t) (emit_time t) (mark t).
Definition phase_started (t : PhaseTimers) (now : N) : PhaseTimers :=
  MkTimers (body_start t) (startup t) (startup_sealed t) (import t) (emit_time t) (Some now).
Definition import_ended (t : PhaseTimers) (now : N) : PhaseTimers :=
  match mark t with
  | Some m => MkTimers (body_start t) (startup t) (startup_sealed t) (import t + (now - m)) (emit_time t) None
  | None => t
  end.
Definition emit_ended (t : PhaseTimers) (now : N) : PhaseTimers :=
  match mark t with
  | Some m => MkTimers (body_start t) (startup t) (startup_sealed t) (import t) (emit_time t + (now - m)) None
  | None => t
  end.

(** ** emit.rs: the stream *)

(** A call's context: its output columns, and what was handed over. *)
Record UdfContext := MkContext {
  output_columns : list (result string ColumnInfo);
  emitted_batches : list RecordBatch;
  emitted_rows : list (list Value);
}.

(** Whether the database takes a batch or a row. *)
Context (takes_batch : RecordBatch -> result SdkError unit) (takes_row : list Value -> result SdkError unit).

Definition emit_batch (ctx : UdfContext) (b : RecordBatch) : UdfContext * result SdkError unit :=
  match takes_batch b with
  | Ok _ => (MkContext (output_columns ctx) (emitted_batches ctx ++ [b]) (emitted_rows ctx), Ok tt)
  | Err e => (ctx, Err e)
  end.
Definition emit (ctx : UdfContext) (row : list Value) : UdfContext * result SdkError unit :=
  match takes_row row with
  | Ok _ => (MkContext (output_columns ctx) (emitted_batches ctx) (emitted_rows ctx ++ [row]), Ok tt)
  | Err e => (ctx, Err e)
  end.

Definition declared_output_columns (ctx : UdfContext) : result SdkError (list ColumnInfo) :=
  try_mapi (fun idx column => match column with
                              | Ok column => Ok column
                              | Err e => Err (user ("emit failed: declared output column " ++ show_nat idx ++ " could not be read: " ++ e))
                              end) 0 (output_columns ctx).

Definition emit_one_batch (ctx : UdfContext) (fetched : result DynError RecordBatch) (secrets : list string) (declared : list ColumnInfo)
    : UdfContext * result SdkError N :=
  match fetched with
  | Err e => (ctx, Err (classify_scan_error e secrets))
  | Ok batch =>
      match coerce_batch_to_exa_types batch declared with
      | Err e => (ctx, Err e)
      | Ok batch => match emit_batch ctx batch with
                    | (ctx, Err e) => (ctx, Err e)
                    | (ctx, Ok _) => (ctx, Ok (N.of_nat (num_rows batch)))
                    end
      end
  end.

(** [clock k] is the [k]-th instant the loop reads; the row total stays below 2^64. *)
Fixpoint emit_loop (clock : nat -> N) (k : nat) (ctx : UdfContext) (stream : list (result DynError RecordBatch)) (secrets : list string)
    (declared : list ColumnInfo) (timers : PhaseTimers) (total : N) : UdfContext * PhaseTimers * result SdkError N :=
  let timers := import_ended (phase_started timers (clock k)) (clock (k + 1)%nat) in
  match stream with
  | [] => (ctx, timers, Ok total)
  | fetched :: stream =>
      let timers := phase_started timers (clock (k + 2)%nat) in
      let '(ctx, emitted) := emit_one_batch ctx fetched secrets declared in
      let timers := emit_ended timers (clock (k + 3)%nat) in
      match emitted with
      | Err e => (ctx, timers, Err e)
      | Ok rows => emit_loop clock (k + 4)%nat ctx stream secrets declared timers (total + rows)%N
      end
  end.

Definition emit_stream (clock : nat -> N) (ctx : UdfContext) (stream : list (result DynError RecordBatch)) (secrets : list string) (timers : PhaseTimers)
    : UdfContext * PhaseTimers * result SdkError N :=
  match declared_output_columns ctx with
  | Err e => (ctx, timers, Err e)
  | Ok declared => emit_loop clock 1 ctx stream secrets declared (seal_startup timers (clock 0%nat)) 0
  end.

(** ** partial_agg.rs: the emitted rows *)

Context (show_decimal : Z -> Z -> string) (show_date : NaiveDate -> string) (show_datetime : NaiveDateTime -> string).

Definition value_to_gk_string (v : Value) : Value :=
  match v with
  | VNull => VNull
  | VString s => VString s
  | VBool b => VString (if b then "true" else "false")
  | VInt32 n | VInt64 n => VString (show_Z n)
  | VDouble f => VString (display_f64 f)
  | VNumeric unscaled scale => VString (show_decimal unscaled scale)
  | VDate d => VString (show_date d)
  | VTimestamp t => VString (show_datetime t)
  end.

Definition counter_zero (declared : ColumnInfo) : result SdkError Value :=
  let? target := target_arrow_type declared in
  match target with
  | TInt32 => Ok (VInt32 0)
  | TInt64 => Ok (VInt64 0)
  | TFloat64 => Ok (VDouble (S754_zero false))
  | TDecimal128 _ scale =>
      if (0 <=? scale)%Z then Ok (VNumeric 0 scale)
      else Err (user ("emit failed: counter column " ++ ci_name declared ++ " declares scale " ++ show_Z scale ++ ", which is not a decimal scale"))
  | other => Err (user ("emit failed: counter column " ++ ci_name declared ++ " is declared " ++ type_debug other ++ ", which cannot carry a row count"))
  end.

Definition plan_partials (aggregates : list AggregatePlan) : list PartialAggColumn := List.concat (map (fun plan => partial_columns (kind plan)) aggregates).

Definition emit_null_partial_row (aggregates : list AggregatePlan) (declared : list ColumnInfo) : result SdkError (list Value) :=
  let columns := plan_partials aggregates in
  let? _ := check_declared_arity declared (List.length columns) in
  try_map (fun cd => if is_counter cd.1 then counter_zero cd.2 else Ok VNull) (zip columns declared).

Definition coerce_partial_column (first_agg_column idx : nat) (column : Array) (declared : ColumnInfo) : result SdkError Array :=
  if (idx <? first_agg_column)%nat then Ok column
  else let? target := target_arrow_type declared in coerce_column column declared target.

Definition coerce_partial_agg_columns (batch : RecordBatch) (declared : list ColumnInfo) (first_agg_column : nat) : result SdkError (list Array) :=
  let? _ := check_declared_arity declared (List.length (batch_columns batch)) in
  let? columns := try_mapi (fun idx cd => coerce_partial_column first_agg_column idx cd.1 cd.2) 0 (zip (batch_columns batch) declared) in
  let? _ := check_emitted_dates_in_range columns declared in
  Ok columns.

(** The widths of the plans cut the columns, from column [col] on. *)
Fixpoint partial_row_from (aggregates : list AggregatePlan) (columns : list Array) (col : nat) : result SdkError (list Value) :=
  match aggregates with
  | [] => Ok []
  | plan :: aggregates =>
      let width := List.length (partial_columns (kind plan)) in
      let? values := try_map (fun column => arrow_value_at column 0) (take width (drop col columns)) in
      let? rest := partial_row_from aggregates columns (col + width)%nat in
      Ok (values ++ rest)%list
  end.

Definition partial_row_from_batch (aggregates : list AggregatePlan) (batch : RecordBatch) (declared : list ColumnInfo) : result SdkError (list Value) :=
  let? columns := coerce_partial_agg_columns batch declared 0 in
  partial_row_from aggregates columns 0.

Definition partial_row (aggregates : list AggregatePlan) (batches : list RecordBatch) (declared : list ColumnInfo) : result SdkError (list Value) :=
  match batches with
  | batch :: _ => if (0 <? num_rows batch)%nat then partial_row_from_batch aggregates batch declared else emit_null_partial_row aggregates declared
  | [] => emit_null_partial_row aggregates declared
  end.

(** One row of a grouped batch: the keys as text, the partials as they are. *)
Definition grouped_row (columns : list Array) (n_group_keys row : nat) : result SdkError (list Value) :=
  let? keys := try_map (fun column => let? raw := arrow_value_at column row in Ok (value_to_gk_string raw)) (take n_group_keys columns) in
  let? partials := try_map (fun column => arrow_value_at column row) (drop n_group_keys columns) in
  Ok (keys ++ partials)%list.

(** [rows] rows are left, from row [row] on. *)
Fixpoint emit_grouped_rows (ctx : UdfContext) (columns : list Array) (n_group_keys row rows : nat) : UdfContext * result SdkError unit :=
  match rows with
  | O => (ctx, Ok tt)
  | S rows =>
      match grouped_row columns n_group_keys row with
      | Err e => (ctx, Err e)
      | Ok values => match emit ctx values with
                     | (ctx, Err e) => (ctx, Err e)
                     | (ctx, Ok _) => emit_grouped_rows ctx columns n_group_keys (S row) rows
                     end
      end
  end.

Fixpoint emit_grouped_stream (ctx : UdfContext) (stream : list (result DynError RecordBatch)) (secrets : list string) (declared : list ColumnInfo) (n_group_keys : nat)
    : UdfContext * result SdkError unit :=
  match stream with
  | [] => (ctx, Ok tt)
  | Err e :: _ => (ctx, Err (classify_scan_error e secrets))
  | Ok batch :: stream =>
      match coerce_partial_agg_columns batch declared n_group_keys with
      | Err e => (ctx, Err e)
      | Ok columns => match emit_grouped_rows ctx columns n_group_keys 0 (num_rows batch) with
                      | (ctx, Err e) => (ctx, Err e)
                      | (ctx, Ok _) => emit_grouped_stream ctx stream secrets declared n_group_keys
                      end
      end
  end.

(** ** Every emitted value has its declared variant *)

(** The values a declared type admits: NULL, or the variant the database expects, a
    decimal at the declared scale, a finite or infinite double, a date of the years 1 to
    9999. *)
Definition declared_value (t : ExaType) (v : Value) : Prop :=
  match v with
  | VNull => True
  | VBool _ => t = ExaBoolean
  | VInt32 _ => t = ExaInt32
  | VInt64 _ => t = ExaInt64
  | VDouble f => t = ExaDouble /\ is_nan f = false
  | VString _ => t = ExaString \/ t = ExaChar \/ t = ExaUnsupported
  | VNumeric _ scale => exists precision, t = ExaNumeric precision (Z.to_N scale) /\ (0 <= scale)%Z
  | VDate d => t = ExaDate /\ (1 <= num_days_from_ce d <= 3652059)%Z
  | VTimestamp _ => exists precision, t = ExaTimestamp precision
  end.

(** Exasol declares no decimal beyond 36 digits. *)
Definition exasol_column (c : ColumnInfo) : Prop :=
  match ci_typ c with ExaNumeric precision _ => (precision <= 36)%N | _ => True end.

Section Laws.
Context {CL : ChronoLaws CH}.
(** Arrow's cast gives a column of the type asked for. *)
Hypothesis cast_typed : forall a t b, cast_with_options a t = Ok b -> data_type b = t.

Lemma decimal_target_spec c p s t : decimal_target c p s = Ok t -> t = TDecimal128 (Z.of_N p) (Z.of_N s) /\ (1 <= p <= 38 /\ s <= p)%N.
Proof. unfold decimal_target. destruct (_ && _) eqn:E; [|done]. intros [= <-]. split; [done|]. lia. Qed.

Lemma typed_value_declared c t (a : Array) row v :
  exasol_column c -> target_arrow_type c = Ok t -> data_type a = t -> arrow_value_at a row = Ok v -> declared_value (ci_typ c) v.
Proof using CL.
  intros Hc Ht Ha. destruct a as [ty cs]. cbn [data_type] in Ha. subst ty. unfold arrow_value_at. cbn [cells data_type].
  destruct (mjoin (cs !! row)) as [x|]; [|intros [= <-]; exact I].
  unfold target_arrow_type, exasol_column in *. destruct (ci_typ c); try (injection Ht as <-; cbn [cell_value]; try (intros [= <-]; cbn; naive_solver)).
  - unfold double_value. destruct (is_nan x) eqn:E; [done|]. intros [= <-]. done.
  - apply decimal_target_spec in Ht as [-> Hp]. cbn [cell_value]. destruct (_ && _) eqn:E; [|lia].
    intros [= <-]. cbn. rewrite Z.mod_small by lia. rewrite N2Z.id. exists precision. split; [done|lia].
  - intros (d & -> & Hd & Hr)%date_value_range. unfold in_date_range, EXASOL_DATE_MIN_DAYS, EXASOL_DATE_MAX_DAYS in Hr. unfold UNIX_EPOCH_DAYS_FROM_CE in Hd. cbn. split; [done|lia].
  - destruct (timestamp_to_naive_datetime _ _); [|done]. intros [= <-]. cbn. eauto.
Qed.

Lemma coerced_type column declared t a : coerce_column column declared t = Ok a -> data_type a = t.
Proof using cast_typed.
  unfold coerce_column. case_bool_decide as E; [by intros [= <-]|].
  destruct (cast_with_options column t) eqn:Ec; [intros [= <-]; by eapply cast_typed|].
  destruct t; try done. by destruct (is_decimal_type _).
Qed.

Lemma arity_checked declared n : check_declared_arity declared n = Ok tt -> List.length declared = n.
Proof. unfold check_declared_arity. destruct (Nat.eqb_spec (List.length declared) n); [done|done]. Qed.

(** A coerced column is of its declaration's Arrow type. *)
Definition typed_as (a : Array) (c : ColumnInfo) : Prop := target_arrow_type c = Ok (data_type a).

Lemma partial_columns_typed batch declared k columns :
  coerce_partial_agg_columns batch declared k = Ok columns ->
  List.length columns = List.length declared /\ List.length (batch_columns batch) = List.length declared
  /\ forall i a c, columns !! i = Some a -> declared !! i = Some c -> (k <= i)%nat -> typed_as a c.
Proof using cast_typed.
  unfold coerce_partial_agg_columns. destruct (check_declared_arity _ _) as [[]|] eqn:Ea; [|done]. apply arity_checked in Ea.
  destruct (try_mapi _ _ _) as [cols|] eqn:Em; [|done]. cbn. destruct (check_emitted_dates_in_range _ _); [|done]. intros [= <-].
  apply try_mapi_lookup in Em as [Hlen Hat]. rewrite length_zip, Ea, Nat.min_id in Hlen. split_and!; [lia|done|].
  intros i col c Hi Hc Hk. destruct (lookup_lt_is_Some_2 (batch_columns batch) i) as [x Hx]; [rewrite <- Ea; by eapply lookup_lt_Some|].
  destruct (Hat i (x, c)) as (y & Hy & Hf); [by apply lookup_zip_Some|]. rewrite Hi in Hy. injection Hy as <-.
  unfold coerce_partial_column in Hf. cbn [fst snd] in Hf. destruct (Nat.ltb_spec (0 + i) k); [lia|].
  unfold typed_as. destruct (target_arrow_type c) as [t|]; [|done]. f_equal. symmetry. by eapply coerced_type.
Qed.

Lemma values_declared declared columns values row :
  Forall exasol_column declared -> Forall2 typed_as columns declared ->
  try_map (fun column => arrow_value_at column row) columns = Ok values -> Forall2 (fun c v => declared_value (ci_typ c) v) declared values.
Proof using CL.
  intros Hd Ht Hm%try_map_Forall2. revert values Hm. induction Ht as [|a c columns declared Hac _ IH]; intros values Hm; inversion Hm; subst; [constructor|].
  apply Forall_cons in Hd as [Hc Hd]. constructor; [by eapply typed_value_declared|by apply IH].
Qed.

(** The plans' widths cut a batch of one column per partial into exactly those columns. *)
Lemma partial_row_values aggregates columns col values :
  List.length columns = (col + List.length (plan_partials aggregates))%nat ->
  partial_row_from aggregates columns col = Ok values <-> try_map (fun column => arrow_value_at column 0) (drop col columns) = Ok values.
Proof.
  revert col values. induction aggregates as [|plan aggregates IH]; intros col values Hlen.
  - cbn in *. rewrite drop_ge by lia. done.
  - cbn [partial_row_from plan_partials map List.concat] in *. fold (plan_partials aggregates) in *. rewrite length_app in Hlen.
    set (w := List.length (partial_columns (kind plan))) in *. specialize (IH (col + w)%nat). rewrite <- drop_drop in IH.
    rewrite <- (take_drop w (drop col columns)) at 2. rewrite try_map_app.
    destruct (try_map _ (take w (drop col columns))) as [vs|]; [|done]. cbn.
    destruct (partial_row_from aggregates columns (col + w)) as [rest|] eqn:Er.
    + rewrite (proj1 (IH rest ltac:(lia)) eq_refl). done.
    + destruct (try_map _ (drop w (drop col columns))) as [rest|] ; [|done]. by pose proof (proj2 (IH rest ltac:(lia)) eq_refl).
Qed.

Lemma typed_columns batch declared columns k : coerce_partial_agg_columns batch declared k = Ok columns ->
  Forall2 typed_as (drop k columns) (drop k declared) /\ List.length columns = List.length declared /\ List.length (batch_columns batch) = List.length declared.
Proof using cast_typed.
  intros (Hl & Hb & Ht)%partial_columns_typed. split_and!; [|done..]. apply Forall2_same_length_lookup_2; [by rewrite !length_drop, Hl|].
  intros i a c. rewrite !lookup_drop. intros Ha Hc. eapply Ht; [done..|lia].
Qed.

Lemma null_row_declared aggregates declared row :
  emit_null_partial_row aggregates declared = Ok row -> Forall2 (fun c v => declared_value (ci_typ c) v) declared row.
Proof using Type.
  unfold emit_null_partial_row. destruct (check_declared_arity _ _) as [[]|] eqn:Ea; [|done]. apply arity_checked in Ea. cbn.
  revert declared row Ea. induction (plan_partials aggregates) as [|p ps IH]; intros [|c declared] row; try done.
  - intros _ [= <-]. constructor.
  - intros [= Hl]. cbn [zip zip_with try_map fst snd]. destruct (if is_counter p then counter_zero c else Ok VNull) as [v|] eqn:Ev; [|done]. cbn.
    destruct (try_map _ _) as [vs|] eqn:Em; [|done]. intros [= <-]. constructor; [|by apply IH].
    destruct (is_counter p); [|injection Ev as <-; exact I]. unfold counter_zero, target_arrow_type in Ev.
    destruct (ci_typ c) eqn:Et; try (cbn in Ev; try discriminate Ev; injection Ev as <-; cbn; first [done|by split]).
    destruct (decimal_target c precision scale) as [t|] eqn:Ed; [|done]. cbn in Ev. apply decimal_target_spec in Ed as [-> Hp].
    destruct (0 <=? Z.of_N scale)%Z eqn:E0; [|done]. injection Ev as <-. cbn. exists precision. rewrite N2Z.id. split; [done|lia].
Qed.

(** C27. A partial aggregate never shifts or retypes a value: for a result of one column
    per partial of the plans, the row a shard emits - from the aggregated row, or the
    empty shard's zeros and NULLs - has one value per declared output column, in place,
    and each is NULL or of the variant the database declared: a decimal at the declared
    scale, a double that is no NaN, a date of the years 1 to 9999. The grouped rows have
    the same after their keys, which are texts or NULL. *)
Theorem partial_rows_declared aggregates declared :
  Forall exasol_column declared ->
  (forall batches row, (forall b, head batches = Some b -> List.length (batch_columns b) = List.length (plan_partials aggregates)) ->
     partial_row aggregates batches declared = Ok row -> Forall2 (fun c v => declared_value (ci_typ c) v) declared row)
  /\ (forall batch n columns i row, coerce_partial_agg_columns batch declared n = Ok columns -> grouped_row columns n i = Ok row -> (n <= List.length declared)%nat ->
       List.length row = List.length declared
       /\ Forall (fun v => match v with VNull | VString _ => True | _ => False end) (take n row)
       /\ Forall2 (fun c v => declared_value (ci_typ c) v) (drop n declared) (drop n row)).
Proof.
  intros Hd. split.
  - intros batches row Hb. unfold partial_row. destruct batches as [|b bs]; [apply null_row_declared|].
    destruct (0 <? num_rows b)%nat; [|apply null_row_declared]. unfold partial_row_from_batch.
    destruct (coerce_partial_agg_columns b declared 0) as [columns|] eqn:Ec; [|done]. cbn. apply typed_columns in Ec as (Ht & Hl & Hlb).
    intros Hr%partial_row_values; [|rewrite Hl, <- Hlb; by apply Hb]. rewrite drop_0 in Hr, Ht. by eapply values_declared.
  - intros batch n columns i row (Ht & Hl & _)%typed_columns. unfold grouped_row.
    destruct (try_map _ (take n columns)) as [keys|] eqn:Ek; [|done]. destruct (try_map _ (drop n columns)) as [partials|] eqn:Ep; [|done].
    cbn. intros [= <-] Hn. pose proof (values_declared _ _ _ _ (Forall_drop _ n _ Hd) Ht Ep) as Hv.
    apply try_map_Forall2 in Ek. pose proof (Forall2_length _ _ _ Ek) as Hk. rewrite length_take in Hk. assert (List.length keys = n) by lia.
    rewrite take_app_length', drop_app_length' by done. split_and!; [rewrite length_app, <- (Forall2_length _ _ _ Hv), length_drop; lia| |done].
    clear -Ek. induction Ek as [|a k l l' Hak _ IH]; constructor; [|done].
    destruct (arrow_value_at a i) as [v|]; [|done]. injection Hak as <-. by destruct v.
Qed.

(** ** The stream *)

(** A batch holds the fields and columns it is built from. *)
Hypothesis batch_built : forall fields columns b, try_new fields columns = Ok b -> batch_fields b = fields /\ batch_columns b = columns.

(** Arrow's own invariant: a batch's fields name the types of its columns. *)
Definition batch_wf (b : RecordBatch) : Prop := map field_type (batch_fields b) = map data_type (batch_columns b).

(** A batch as the database declared it: column by column of the declared type, every
    date one Exasol has. *)
Definition declared_batch (declared : list ColumnInfo) (b : RecordBatch) : Prop :=
  Forall2 typed_as (batch_columns b) declared /\ Forall (fun a => Forall (fun days => in_date_range days = true) (date_cells a)) (batch_columns b).

(** A column as it was, or strictly cast. *)
Definition kept_or_cast (before after : Array) : Prop := after = before \/ cast_with_options before (data_type after) = Ok after.

Lemma dates_checked a name : check_date32_in_exasol_range a name = Ok tt -> Forall (fun days => in_date_range days = true) (date_cells a).
Proof.
  unfold check_date32_in_exasol_range. destruct (List.find _ _) eqn:E; [done|]. intros _. apply Forall_forall. intros d Hd%list_elem_of_In.
  apply (find_none _ _ E) in Hd. by apply negb_false_iff.
Qed.

Lemma all_dates_checked columns declared : List.length columns = List.length declared -> check_emitted_dates_in_range columns declared = Ok tt ->
  Forall (fun a => Forall (fun days => in_date_range days = true) (date_cells a)) columns.
Proof.
  unfold check_emitted_dates_in_range. revert declared. induction columns as [|a columns IH]; intros [|c declared] Hl; try discriminate Hl; [constructor|]. injection Hl as Hl.
  cbn [zip zip_with try_map fst snd]. destruct (check_date32_in_exasol_range a _) as [[]|] eqn:Ed; [|done].
  cbn. destruct (try_map _ _) as [us|] eqn:Em; [|done]. intros _. constructor; [by eapply dates_checked|]. apply (IH declared Hl). by rewrite Em.
Qed.

Lemma targets_typed declared targets columns : try_map target_arrow_type declared = Ok targets -> map data_type columns = targets -> Forall2 typed_as columns declared.
Proof.
  intros H%try_map_Forall2. revert columns. induction H as [|c t declared targets Hct _ IH]; intros [|a columns] Hm; try discriminate Hm; constructor; injection Hm as Ha Hm; [|by apply IH].
  unfold typed_as. by rewrite Hct, Ha.
Qed.

Lemma all_equal_types fields targets : List.length fields = List.length targets ->
  forallb (fun ft => bool_decide (field_type ft.1 = ft.2)) (zip fields targets) = true -> map field_type fields = targets.
Proof.
  revert targets. induction fields as [|f fields IH]; intros [|t targets] Hl; try discriminate Hl; [done|]. injection Hl as Hl. cbn [zip zip_with forallb fst snd].
  intros [Hf%bool_decide_eq_true Hr]%andb_prop. cbn. by rewrite Hf, (IH targets Hl Hr).
Qed.

Lemma columns_coerced columns declared targets coerced : List.length columns = List.length declared ->
  try_map target_arrow_type declared = Ok targets ->
  try_map (fun '(col, (column, target)) => coerce_column col column target) (zip columns (zip declared targets)) = Ok coerced ->
  Forall2 typed_as coerced declared /\ Forall2 kept_or_cast columns coerced.
Proof.
  intros Hl Ht%try_map_Forall2. revert columns coerced Hl. induction Ht as [|c t declared targets Hct _ IH]; intros [|a columns] coerced Hl; try discriminate Hl.
  { intros [= <-]. split; constructor. }
  injection Hl as Hl. cbn [zip zip_with try_map]. destruct (coerce_column a c t) as [a'|] eqn:Ea; [|done]. cbn. destruct (try_map _ _) as [rest|] eqn:Er; [|done].
  intros [= <-]. destruct (IH _ _ Hl Er) as [H1 H2]. pose proof (coerced_type _ _ _ _ Ea) as Ety. split; constructor; [|done| |done].
  - unfold typed_as. by rewrite Ety.
  - unfold kept_or_cast. rewrite Ety. unfold coerce_column in Ea. case_bool_decide as E; [left; by injection Ea|right].
    destruct (cast_with_options a t); [cbn in Ea; congruence|]. destruct t; try done. by destruct (is_decimal_type _).
Qed.

Lemma coerced_batch b declared b' : batch_wf b -> coerce_batch_to_exa_types b declared = Ok b' ->
  declared_batch declared b' /\ Forall2 kept_or_cast (batch_columns b) (batch_columns b').
Proof.
  intros Hwf. unfold coerce_batch_to_exa_types. destruct (check_declared_arity _ _) as [[]|] eqn:Ea; [|done]. apply arity_checked in Ea.
  pose proof (f_equal List.length Hwf) as Hlen. rewrite !length_map in Hlen. cbn.
  destruct (try_map target_arrow_type declared) as [targets|] eqn:Et; [|done]. cbn.
  pose proof (Forall2_length _ _ _ (try_map_Forall2 _ _ _ Et)) as Hlt. destruct (forallb _ _) eqn:Eall.
  - apply all_equal_types in Eall; [|lia]. destruct (check_emitted_dates_in_range _ _) as [[]|] eqn:Ed; [|done]. intros [= <-]. split.
    + split; [eapply targets_typed; [done|by rewrite <- Hwf]|eapply all_dates_checked; [|done]; lia].
    + clear. induction (batch_columns b); constructor; [by left|done].
  - destruct (try_map _ (zip _ _)) as [columns|] eqn:Ec; [|done]. cbn. destruct (check_emitted_dates_in_range _ _) as [[]|] eqn:Ed; [|done]. cbn.
    destruct (try_new _ _) as [built|] eqn:En; [|done]. intros [= <-]. destruct (batch_built _ _ _ En) as [_ Hcols].
    assert (Hcd : List.length (batch_columns b) = List.length declared) by lia. destruct (columns_coerced _ _ _ _ Hcd Et Ec) as [H1 H2]. unfold declared_batch. rewrite Hcols. split; [split|done]; [done|].
    eapply all_dates_checked; [|done]. by apply Forall2_length in H1.
Qed.

Lemma Forall2_with {A B} (P : A -> B -> Prop) (Q : A -> Prop) l k : Forall2 P l k -> Forall Q l -> Forall2 (fun a b => P a b /\ Q a) l k.
Proof. induction 1; [constructor|]. intros [? ?]%Forall_cons. by constructor; auto. Qed.

Definition total_rows (batches : list RecordBatch) : N := foldr (fun b n => (N.of_nat (num_rows b) + n)%N) 0%N batches.

Lemma emit_loop_spec clock k ctx stream secrets declared timers total :
  let '(ctx', _, r) := emit_loop clock k ctx stream secrets declared timers total in
  exists batches, emitted_batches ctx' = (emitted_batches ctx ++ batches)%list
    /\ Forall2 (fun fetched b => exists b0, fetched = Ok b0 /\ coerce_batch_to_exa_types b0 declared = Ok b) (take (List.length batches) stream) batches
    /\ match r with Ok n => List.length batches = List.length stream /\ n = (total + total_rows batches)%N | Err _ => (List.length batches < List.length stream)%nat end.
Proof using Type.
  revert k ctx timers total. induction stream as [|fetched stream IH]; intros k ctx timers total; cbn [emit_loop].
  { exists []. rewrite app_nil_r. split_and!; [done|constructor|done|cbn; lia]. }
  destruct (emit_one_batch ctx fetched secrets declared) as [ctx1 emitted] eqn:Eo.
  assert (Hstop : forall e, emitted = Err e -> ctx1 = ctx).
  { intros e ->. unfold emit_one_batch, emit_batch in Eo. destruct fetched; [|by injection Eo]. destruct (coerce_batch_to_exa_types _ _); [|by injection Eo]. by destruct (takes_batch _); [discriminate Eo|injection Eo]. }
  destruct emitted as [rows|e].
  2: { rewrite (Hstop e eq_refl). exists []. rewrite app_nil_r. split_and!; [done|constructor|cbn; lia]. }
  specialize (IH (k + 4)%nat ctx1 (emit_ended (phase_started (import_ended (phase_started timers (clock k)) (clock (k + 1)%nat)) (clock (k + 2)%nat)) (clock (k + 3)%nat)) (total + rows)%N).
  destruct (emit_loop _ _ _ _ _ _ _ _) as [[ctx' t'] r]. destruct IH as (batches & He & Hf & Hr).
  unfold emit_one_batch, emit_batch in Eo. destruct fetched as [b0|]; [|done]. destruct (coerce_batch_to_exa_types b0 declared) as [b|] eqn:Ec; [|done].
  destruct (takes_batch b); [|done]. injection Eo as <- <-. exists (b :: batches). cbn [emitted_batches] in He. rewrite He, <- app_assoc.
  split_and!; [done|cbn; constructor; [by exists b0|done]|]. destruct r; cbn [List.length total_rows foldr]; [destruct Hr as [H1 ->]; split; [lia|cbn; fold (total_rows batches); lia]|lia].
Qed.

(** C26. The stream is emitted batch by batch and nothing else: the batches handed over
    are the first of the stream, each coerced - its columns as they were or strictly
    cast, never nulled - to exactly the declared column types, without a date outside
    0001-01-01 to 9999-12-31; a success has handed over every batch and returns the
    number of rows; a failure stops before the end of the stream. *)
Theorem emit_stream_exact clock ctx stream secrets timers declared :
  declared_output_columns ctx = Ok declared -> Forall (fun fetched => forall b, fetched = Ok b -> batch_wf b) stream ->
  let '(ctx', _, r) := emit_stream clock ctx stream secrets timers in
  exists batches, emitted_batches ctx' = (emitted_batches ctx ++ batches)%list
    /\ Forall2 (fun fetched b => exists b0, fetched = Ok b0 /\ Forall2 kept_or_cast (batch_columns b0) (batch_columns b)) (take (List.length batches) stream) batches
    /\ Forall (declared_batch declared) batches
    /\ match r with Ok n => List.length batches = List.length stream /\ n = total_rows batches | Err _ => (List.length batches < List.length stream)%nat end.
Proof.
  intros Hd Hwf. unfold emit_stream. rewrite Hd. pose proof (emit_loop_spec clock 1 ctx stream secrets declared (seal_startup timers (clock 0%nat)) 0) as H.
  destruct (emit_loop _ _ _ _ _ _ _ _) as [[ctx' t'] r]. destruct H as (batches & He & Hf & Hr). exists batches.
  pose proof (Forall_take _ (List.length batches) _ Hwf) as Hw. split_and!; [done| | |].
  - eapply Forall2_impl; [exact (Forall2_with _ _ _ _ Hf Hw)|]. cbn. intros f b [(b0 & -> & Hc) Hb]. exists b0. split; [done|]. by eapply coerced_batch; [apply Hb|].
  - clear -Hf Hw batch_built cast_typed. induction Hf as [|f b fs bs (b0 & -> & Hc) _ IH]; constructor; apply Forall_cons in Hw as [Hb Hw]; [|by apply IH].
    eapply coerced_batch; [by apply Hb|done].
  - destruct r; [destruct Hr as [? ->]; by rewrite N.add_0_l|done].
Qed.

(** ** The phases fit the body *)

(** The phase telemetry is of the scan it measures: on a clock that never runs
    backwards, the startup, import and emit times the stream accumulates are disjoint
    spans of its run - their sum never exceeds the time from the scan's start to the
    last instant read - whatever fails on the way. *)
Theorem phases_within_body clock ctx stream secrets start :
  (start <= clock 0%nat)%N -> (forall k, clock k <= clock (S k))%N ->
  let '(_, t, _) := emit_stream clock ctx stream secrets (timers_start start) in
  (body_start t = start /\ startup t + import t + emit_time t <= clock (4 * List.length stream + 2)%nat - start)%N.
Proof.
  intros Hs Hm. assert (Hmono : forall i j, (i <= j)%nat -> (clock i <= clock j)%N).
  { intros i j H. induction H as [|j _ IH]; [lia|]. specialize (Hm j). lia. }
  unfold emit_stream. destruct (declared_output_columns ctx) as [declared|].
  2: { cbn. lia. }
  assert (Hloop : forall k ctx timers total, (clock (k - 1)%nat <= clock k)%N -> (start <= clock k)%N ->
    (body_start timers = start)%N -> (startup timers + import timers + emit_time timers <= clock k - start)%N ->
    let '(_, t, _) := emit_loop clock k ctx stream secrets declared timers total in
    (body_start t = start /\ startup t + import t + emit_time t <= clock (k + 4 * List.length stream + 1)%nat - start)%N).
  { clear Hs ctx. induction stream as [|fetched stream IH]; intros k ctx timers total _ Hk Hb Ht; cbn [emit_loop].
    - cbn. pose proof (Hmono k (k + 1)%nat ltac:(lia)). rewrite Nat.add_0_r. split; [done|]. lia.
    - destruct (emit_one_batch ctx fetched secrets declared) as [ctx1 emitted]. pose proof (Hmono k (k + 1)%nat ltac:(lia)).
      pose proof (Hmono (k + 1)%nat (k + 2)%nat ltac:(lia)). pose proof (Hmono (k + 2)%nat (k + 3)%nat ltac:(lia)). pose proof (Hmono (k + 3)%nat (k + 4)%nat ltac:(lia)).
      destruct emitted as [rows|e].
      + match goal with |- context [emit_loop clock _ ?c stream secrets declared ?t ?n] => specialize (IH (k + 4)%nat c t n) end.
        replace (k + 4 * List.length (fetched :: stream) + 1)%nat with (k + 4 + 4 * List.length stream + 1)%nat by (cbn; lia). apply IH; [apply Hmono; lia|lia|done|cbn; lia].
      + pose proof (Hmono (k + 3)%nat (k + 4 * List.length (fetched :: stream) + 1)%nat ltac:(cbn; lia)). cbn in *. split; [done|lia]. }
  specialize (Hloop 1%nat ctx (seal_startup (timers_start start) (clock 0%nat)) 0%N). pose proof (Hmono 0%nat 1%nat ltac:(lia)).
  replace (4 * List.length stream + 2)%nat with (1 + 4 * List.length stream + 1)%nat by lia. apply Hloop; [apply Hmono; lia|lia|done|cbn; lia].
Qed.
End Laws.
End Columns.

(** ** At work *)

Definition plain_chrono : Chrono :=
  {| NaiveDate := Z; NaiveDateTime := Z * Z; from_num_days_from_ce_opt := Some; num_days_from_ce := id;
     from_timestamp s n := Some (s, n); timestamp := fst; timestamp_subsec_nanos := snd |}.
Lemma plain_chrono_laws : ChronoLaws plain_chrono.
Proof.
  split; cbn.
  - intros n _. by exists n.
  - by intros n d [= <-].
  - by intros s n i [= <-].
Qed.

Definition plain_day (n : Z) : NaiveDate (Chrono := plain_chrono) := n.

(** A cast of integers to decimals, and a batch constructor. *)
Definition integer_cast (a : Array (Other := unit)) (t : DataType) : result string Array :=
  match a, t with
  | MkArray TInt64 cs, TDecimal128 p s => Ok (MkArray (Other := unit) (TDecimal128 p s) (map (option_map (fun n : Z => n * 10 ^ s)%Z) cs))
  | _, _ => Err "no cast"
  end.
Definition plain_batch (fields : list Field) (columns : list (Array (Other := unit))) : result string RecordBatch := Ok (MkBatch fields columns 1).
Lemma integer_cast_typed a t b : integer_cast a t = Ok b -> data_type b = t.
Proof. destruct a as [[]]; try done. destruct t; try done. by intros [= <-]. Qed.
Lemma plain_batch_built fields columns b : plain_batch fields columns = Ok b -> batch_fields b = fields /\ batch_columns b = columns.
Proof. by intros [= <-]. Qed.

Definition count_column : ColumnInfo := MkColumnInfo "n" (ExaNumeric 18 0).
Definition day_column : ColumnInfo := MkColumnInfo "day" ExaDate.
Definition count_plan : AggregatePlan := {| kind := Count; column := None; arg_expr := None |}.
Definition max_day_plan : AggregatePlan := {| kind := Max; column := Some "DAY"; arg_expr := None |}.
Definition counted_batch : RecordBatch (Other := unit) :=
  MkBatch [MkField "n" TInt64 false ∅; MkField "day" TDate32 true ∅] [MkArray TInt64 [Some 3%Z]; MkArray TDate32 [Some 19000%Z]] 1.

Lemma partial_rows_declared_witness :
  let row := partial_row (CH := plain_chrono) id (fun _ _ => "") integer_cast (fun _ => "") [count_plan; max_day_plan] in
  row [counted_batch] [count_column; day_column] = Ok [VNumeric 3 0; VDate (plain_day 738163)]
  /\ row [] [count_column; day_column] = Ok [VNumeric 0 0; VNull]
  /\ Forall2 (fun c v => declared_value (ci_typ c) v) [count_column; day_column] [VNumeric (CH := plain_chrono) 3 0; VDate (plain_day 738163)].
Proof.
  split; [vm_compute; reflexivity|]. split; [vm_compute; reflexivity|].
  apply (proj1 (partial_rows_declared (CH := plain_chrono) (CL := plain_chrono_laws) id (fun _ _ => "") integer_cast (fun _ => "") (fun _ => "") (fun _ _ => "") (fun _ => "") (fun _ => "")
    integer_cast_typed [count_plan; max_day_plan] [count_column; day_column] ltac:(by repeat constructor)) [counted_batch]).
  - by intros b [= <-].
  - vm_compute; reflexivity.
Defined.

Definition fresh_context : UdfContext (Other := unit) (CH := plain_chrono) := MkContext [Ok count_column; Ok day_column] [] [].

Lemma emit_stream_exact_witness :
  let '(ctx', _, r) := emit_stream (CH := plain_chrono) integer_cast (fun _ => "") plain_batch (fun _ => None) (fun _ => "unreadable") (fun _ => "") (fun _ => Ok tt)
    (fun k => N.of_nat k) fresh_context [Ok counted_batch; Err (EExecution "gone")] [] (timers_start 0) in
  r = Err (user "scan failed: assigned data could not be read: unreadable")
  /\ map num_rows (emitted_batches ctx') = [1%nat] /\ Forall (declared_batch [count_column; day_column]) (emitted_batches ctx').
Proof.
  pose proof (emit_stream_exact (CH := plain_chrono) integer_cast (fun _ => "") plain_batch (fun _ => None) (fun _ => "unreadable") (fun _ => "") (fun _ => Ok tt)
    integer_cast_typed plain_batch_built (fun k => N.of_nat k) fresh_context [Ok counted_batch; Err (EExecution "gone")] [] (timers_start 0) [count_column; day_column] eq_refl
    ltac:(repeat constructor; by intros b [= <-])) as H.
  destruct (emit_stream _ _ _ _ _ _ _ _ _ _ _ _) as [[ctx' t'] r] eqn:E. vm_compute in E. injection E as <- _ <-.
  destruct H as (batches & He & _ & Hd & _). split_and!; [reflexivity..|]. cbn [app emitted_batches fresh_context] in He. rewrite He. exact Hd.
Defined.

Lemma emitted_moments_exact_witness :
  exists t d, timestamp_to_naive_datetime (CH := plain_chrono) UMillisecond (-1)%Z = Ok t /\ timestamp t = (-1)%Z /\ timestamp_subsec_nanos t = 999000000%Z
    /\ date_value (CH := plain_chrono) 2932896 = Ok (VDate d) /\ (num_days_from_ce d = 2932896 - january_first 1 + 1)%Z.
Proof.
  destruct (emitted_moments_exact (CH := plain_chrono) (CL := plain_chrono_laws) UMillisecond (-1) 2932896) as [_ [H _]].
  destruct H as (d & Hd & Hn); [exists 9999%Z; vm_compute; split; split; congruence|].
  exists ((-1)%Z, 999000000%Z), d. split_and!; [reflexivity..|exact Hd|exact Hn].
Defined.

Lemma phases_within_body_witness :
  let '(_, t, _) := emit_stream (CH := plain_chrono) integer_cast (fun _ => "") plain_batch (fun _ => None) (fun _ => "unreadable") (fun _ => "") (fun _ => Ok tt)
    (fun k => 10 * N.of_nat k + 5)%N fresh_context [Ok counted_batch] [] (timers_start 3) in
  (body_start t = 3 /\ startup t + import t + emit_time t <= 65 - 3)%N.
Proof.
  exact (phases_within_body (CH := plain_chrono) integer_cast (fun _ => "") plain_batch (fun _ => None) (fun _ => "unreadable") (fun _ => "") (fun _ => Ok tt)
    (fun k => 10 * N.of_nat k + 5)%N fresh_context [Ok counted_batch] [] 3 ltac:(vm_compute; congruence) ltac:(intros k; cbn beta; lia)).
Defined.
