(* ===== verification/Rendering.v ===== *)
(** How the scan turns columns Exasol has no type for into text:
    crates/lakehouse-engine/src/scan/{binary_hex,binary_text,json_render}.rs. Binary
    values become hex or checked text, nested values JSON documents, whose map keys
    become strings first. *)

From stdpp Require Import base list strings numbers gmap.
From Stdlib Require Import Ascii String ZArith NArith Lia ZifyBool.
From S2P Require Import Prelude Text Hex ExasolType ArrowTypes TypeMapping ParquetDirectory.

Local Open Scope string_scope.

(** ** Arrow arrays *)

Inductive ListKind := PlainList | LargeListKind | FixedList (size : Z).

Section Arrays.
(** A cell whose value the renderers never look into. *)
Context {Other : Type}.

(** Byte arrays (binary and text), nested arrays by their buffers, and the rest. A
    validity buffer holds [true] for a valid row. *)
Inductive NArray : Type :=
| ABytes (t : DataType) (values : list (option string))
| AOther (t : DataType) (values : list (option Other))
| AList (kind : ListKind) (element : Field) (offsets : list Z) (len : nat) (nulls : option (list bool)) (values : NArray)
| AStruct (fields : list Field) (columns : list NArray) (len : nat) (nulls : option (list bool))
| AMap (entries : Field) (ordered : bool) (key value : Field) (offsets : list Z) (len : nat) (keys values : NArray) (entry_nulls nulls : option (list bool)).

Definition narray_type (a : NArray) : DataType :=
  match a with
  | ABytes t _ | AOther t _ => t
  | AList PlainList element _ _ _ _ => TList element
  | AList LargeListKind element _ _ _ _ => TLargeList element
  | AList (FixedList size) element _ _ _ _ => TFixedSizeList element size
  | AStruct fields _ _ _ => TStruct fields
  | AMap entries ordered _ _ _ _ _ _ _ _ => TMap entries ordered
  end.

Definition narray_len (a : NArray) : nat :=
  match a with
  | ABytes _ values => List.length values
  | AOther _ values => List.length values
  | AList _ _ _ len _ _ | AStruct _ _ len _ | AMap _ _ _ _ _ len _ _ _ _ => len
  end.

Definition null_in (nulls : option (list bool)) (row : nat) : bool := match nulls with Some valid => negb (nth row valid true) | None => false end.

Definition row_is_null (a : NArray) (row : nat) : bool :=
  match a with
  | ABytes _ values => match values !! row with Some (Some _) => false | _ => true end
  | AOther _ values => match values !! row with Some (Some _) => false | _ => true end
  | AList _ _ _ _ nulls _ | AStruct _ _ _ nulls | AMap _ _ _ _ _ _ _ _ _ nulls => null_in nulls row
  end.

(** ** binary_hex.rs *)

Context {HX : Hex}.
(** [{}] of a type. *)
Context (type_display : DataType -> string).

Definition BINARY_HEX_UDF_NAME : string := "lakehouse_binary_hex".

Definition binary_values (array : NArray) : result string (list (option string)) :=
  match array with
  | ABytes t values => if is_binary t then Ok values else Err ("a binary value was expected, not " ++ type_display t)
  | other => Err ("a binary value was expected, not " ++ type_display (narray_type other))
  end.

Definition hex_value (rendered : string -> result string bool) (value : option string) : result string (option string) :=
  match value with
  | Some bytes => let? shown := rendered bytes in Ok (if shown then Some (hex_encode bytes) else None)
  | None => Ok None
  end.

Definition hex_strings (array : NArray) (rendered : string -> result string bool) : result string NArray :=
  let? values := binary_values array in
  let? hex := try_map (hex_value rendered) values in
  Ok (ABytes TUtf8 hex).

Definition fits_varchar (column bytes : string) : result string bool :=
  if (MAX_BINARY_BYTES <? N.of_nat (String.length bytes))%N then
    Err ("column '" ++ column ++ "' holds a binary value of " ++ show_nat (String.length bytes) ++ " bytes, over the " ++ show_N MAX_BINARY_BYTES
      ++ " bytes whose hex rendering fits VARCHAR(2000000)")
  else Ok (negb (String.eqb bytes "")).

Definition render_hex (array : NArray) (column : string) : result string NArray := hex_strings array (fits_varchar column).

Definition hex_map_keys (keys : NArray) : result string NArray := hex_strings keys (fun _ => Ok true).

(** ** binary_text.rs *)

Definition BINARY_TEXT_UDF_NAME : string := "lakehouse_binary_text".

(** [Utf8Error]'s text for a value that is not UTF-8. *)
Context (utf8_error : string -> string).

Definition text_type (t : DataType) : option DataType :=
  match t with TBinary => Some TUtf8 | TLargeBinary => Some TLargeUtf8 | TBinaryView => Some TUtf8View | _ => None end.

Definition invalid_utf8 (values : list (option string)) (column : string) : string :=
  "column '" ++ column ++ "' holds a value that is not valid UTF-8, which BINARY_AS_STRING cannot read as text"
  ++ match List.find (fun bytes => negb (valid_utf8 bytes)) (omap id values) with Some bytes => ": " ++ utf8_error bytes | None => "" end.

Definition bytes_as_text (array : NArray) (column : string) : result string NArray :=
  let unread := Err (BINARY_TEXT_UDF_NAME ++ " reads variable-length binary values, not " ++ type_display (narray_type array)) in
  match array with
  | ABytes t values =>
      match text_type t with
      | Some text => if forallb valid_utf8 (omap id values) then Ok (ABytes text values) else Err (invalid_utf8 values column)
      | None => unread
      end
  | _ => unread
  end.

(** ** json_render.rs *)

Definition is_text_type (t : DataType) : bool := match t with TUtf8 | TLargeUtf8 | TUtf8View => true | _ => false end.

Fixpoint map_keys_need_stringifying (t : DataType) : bool :=
  match t with
  | TMap (MkField _ (TStruct [MkField _ key _ _; MkField _ value _ _]) _ _) _ => negb (is_text_type key) || map_keys_need_stringifying value
  | TList (MkField _ element _ _) | TLargeList (MkField _ element _ _) | TFixedSizeList (MkField _ element _ _) _ => map_keys_need_stringifying element
  | TStruct fields =>
      (fix any (fields : list Field) : bool :=
         match fields with [] => false | MkField _ t _ _ :: fields => map_keys_need_stringifying t || any fields end) fields
  | _ => false
  end.

Definition retyped (field : Field) (t : DataType) : Field := with_data_type field t.

(** Arrow: whether a rebuilt array is accepted, the JSON encoder of an array, and the
    cast of a key column to text. *)
Context (accepted : NArray -> result string unit) (make_encoder : NArray -> result string (nat -> string))
  (can_cast_to_utf8 : DataType -> bool) (cast_to_utf8 : NArray -> result string NArray).

Definition built (a : NArray) : result string NArray := let? _ := accepted a in Ok a.

Definition encode_document (a : NArray) (encode : nat -> string) (idx : nat) : result string (option string) :=
  if row_is_null a idx then Ok None
  else if valid_utf8 (encode idx) then Ok (Some (encode idx))
  else Err ("the JSON rendering of a " ++ type_display (narray_type a) ++ " value is not valid UTF-8: " ++ utf8_error (encode idx)).

Definition encode_documents (a : NArray) : result string NArray :=
  match make_encoder a with
  | Err e => Err ("a column of type " ++ type_display (narray_type a) ++ " could not be prepared for JSON rendering: " ++ e)
  | Ok encode => let? documents := try_map (encode_document a encode) (seq 0 (narray_len a)) in Ok (ABytes TUtf8 documents)
  end.

(** [rendered] is [render_nested_column_as_json] of the keys, looked at only where the
    keys are nested. *)
Definition stringified_keys (keys : NArray) (rendered : result string NArray) : result string NArray :=
  let t := narray_type keys in
  if is_text_type t then Ok keys
  else if is_binary t then hex_map_keys keys
  else if needs_nested_json_rendering t then rendered
  else if can_cast_to_utf8 t then
    match cast_to_utf8 keys with
    | Ok text => Ok text
    | Err e => Err ("a map key of type " ++ type_display t ++ " could not be stringified into a JSON object name: " ++ e)
    end
  else Err ("a map key of type " ++ type_display t ++ " cannot be rendered as a JSON object name: an object name must be a string and Arrow offers no cast from "
         ++ type_display t ++ " to utf8").

Definition rendered_keys (keys : NArray) (stringified : result string NArray) : result string NArray := let? a := stringified in encode_documents a.

Fixpoint with_stringified_map_keys (a : NArray) : result string NArray :=
  if negb (map_keys_need_stringifying (narray_type a)) then Ok a
  else match a with
       | AList kind element offsets len nulls values =>
           let? values := with_stringified_map_keys values in
           built (AList kind (retyped element (narray_type values)) offsets len nulls values)
       | AStruct fields columns len nulls =>
           let? columns := (fix all (columns : list NArray) : result string (list NArray) :=
             match columns with [] => Ok [] | c :: columns => let? c := with_stringified_map_keys c in let? rest := all columns in Ok (c :: rest) end) columns in
           built (AStruct (zip_with (fun f c => retyped f (narray_type c)) fields columns) columns len nulls)
       | AMap entries ordered key value offsets len keys values entry_nulls nulls =>
           let? keys := stringified_keys keys (rendered_keys keys (with_stringified_map_keys keys)) in
           let? values := with_stringified_map_keys values in
           let key := retyped key (narray_type keys) in
           let value := retyped value (narray_type values) in
           let? _ := accepted (AStruct [key; value] [keys; values] (narray_len keys) entry_nulls) in
           built (AMap (retyped entries (TStruct [key; value])) ordered key value offsets len keys values entry_nulls nulls)
       | a => Ok a
       end.

Definition render_nested_column_as_json (a : NArray) : result string NArray :=
  if needs_nested_json_rendering (narray_type a) then
    let? a := with_stringified_map_keys a in encode_documents a
  else Err ("JSON rendering was attempted for a column of type " ++ type_display (narray_type a)
         ++ ", which is not one of the nested Arrow types this encoder owns (list, large_list, fixed_size_list, struct, map)").

(** ** Map keys are strings before encoding *)

(** Arrow's own invariants: byte arrays are binary or text, and a nested array's fields
    name the types of its children. *)
Fixpoint narray_wf (a : NArray) : Prop :=
  match a with
  | ABytes t _ => is_binary t || is_text_type t = true
  | AOther t _ => is_binary t || is_text_type t || needs_nested_json_rendering t = false
  | AList _ element _ _ _ values => field_type element = narray_type values /\ narray_wf values
  | AStruct fields columns _ _ =>
      map field_type fields = map narray_type columns
      /\ (fix all (columns : list NArray) : Prop := match columns with [] => True | c :: columns => narray_wf c /\ all columns end) columns
  | AMap entries _ key value _ _ keys values _ _ =>
      field_type entries = TStruct [key; value] /\ field_type key = narray_type keys /\ field_type value = narray_type values
      /\ narray_wf keys /\ narray_wf values
  end.

Section NArrayInd.
Variable P : NArray -> Prop.
Hypothesis Hbytes : forall t values, P (ABytes t values).
Hypothesis Hother : forall t values, P (AOther t values).
Hypothesis Hlist : forall kind element offsets len nulls values, P values -> P (AList kind element offsets len nulls values).
Hypothesis Hstruct : forall fields columns len nulls, Forall P columns -> P (AStruct fields columns len nulls).
Hypothesis Hmap : forall entries ordered key value offsets len keys values entry_nulls nulls, P keys -> P values -> P (AMap entries ordered key value offsets len keys values entry_nulls nulls).

Fixpoint narray_ind' (a : NArray) : P a :=
  match a with
  | ABytes t values => Hbytes t values
  | AOther t values => Hother t values
  | AList kind element offsets len nulls values => Hlist kind element offsets len nulls values (narray_ind' values)
  | AStruct fields columns len nulls =>
      Hstruct fields columns len nulls ((fix all (columns : list NArray) : Forall P columns :=
        match columns with [] => Forall_nil_2 P | c :: columns => Forall_cons_2 P c columns (narray_ind' c) (all columns) end) columns)
  | AMap entries ordered key value offsets len keys values entry_nulls nulls =>
      Hmap entries ordered key value offsets len keys values entry_nulls nulls (narray_ind' keys) (narray_ind' values)
  end.
End NArrayInd.

Lemma need_list kind element offsets len nulls values :
  map_keys_need_stringifying (narray_type (AList kind element offsets len nulls values)) = map_keys_need_stringifying (field_type element).
Proof. by destruct kind, element. Qed.

Lemma need_struct fields : map_keys_need_stringifying (TStruct fields) = existsb (fun f => map_keys_need_stringifying (field_type f)) fields.
Proof. induction fields as [|[n t b md] fields IH]; [done|]. cbn [existsb field_type]. rewrite <- IH. done. Qed.

Lemma need_map entries ordered key value : field_type entries = TStruct [key; value] ->
  map_keys_need_stringifying (TMap entries ordered) = negb (is_text_type (field_type key)) || map_keys_need_stringifying (field_type value).
Proof. destruct entries as [n t b md], key, value. cbn. by intros ->. Qed.

Lemma retyped_type f t : field_type (retyped f t) = t.
Proof. by destruct f. Qed.

Lemma retyped_types fields columns : List.length fields = List.length columns ->
  map field_type (zip_with (fun f c => retyped f (narray_type c)) fields columns) = map narray_type columns.
Proof.
  revert columns. induction fields as [|f fields IH]; intros [|c columns] Hl; try discriminate Hl; [done|].
  cbn [zip_with map]. rewrite retyped_type, IH; [done|]. by injection Hl.
Qed.

Lemma existsb_types {B} (g : B -> DataType) (xs : list B) : existsb (fun x => map_keys_need_stringifying (g x)) xs = existsb map_keys_need_stringifying (map g xs).
Proof. induction xs as [|x xs IH]; [done|]. cbn. by rewrite IH. Qed.

Lemma built_same a a' : built a = Ok a' -> a' = a.
Proof. unfold built. destruct (accepted a); [by intros [= <-]|done]. Qed.

(** The loop over a struct's children. *)
Definition stringified_columns : list NArray -> result string (list NArray) := try_map with_stringified_map_keys.

Lemma stringified_struct fields columns len nulls :
  with_stringified_map_keys (AStruct fields columns len nulls) =
  if negb (map_keys_need_stringifying (TStruct fields)) then Ok (AStruct fields columns len nulls)
  else let? columns := stringified_columns columns in built (AStruct (zip_with (fun f c => retyped f (narray_type c)) fields columns) columns len nulls).
Proof.
  cbn [with_stringified_map_keys narray_type]. destruct (negb _); [done|].
  match goal with |- (let? columns := ?l in _) = _ => assert (l = stringified_columns columns) as -> end; [|done].
  unfold stringified_columns. induction columns as [|c columns IH]; [done|]. cbn [try_map]. by rewrite <- IH.
Qed.

(** The cast of keys that Arrow offers gives text. *)
Hypothesis cast_gives_text : forall keys text, cast_to_utf8 keys = Ok text -> narray_type text = TUtf8.

Lemma stringified_keys_text keys rendered text : (forall r, rendered = Ok r -> narray_type r = TUtf8) ->
  stringified_keys keys rendered = Ok text -> is_text_type (narray_type text) = true.
Proof.
  intros Hr. unfold stringified_keys. destruct (is_text_type (narray_type keys)) eqn:Et; [by intros [= <-]|].
  destruct (is_binary _).
  { unfold hex_map_keys, hex_strings. destruct (binary_values keys); [|done]. cbn. destruct (try_map _ _); [|done]. by intros [= <-]. }
  destruct (needs_nested_json_rendering _); [by intros ->%Hr|]. destruct (can_cast_to_utf8 _); [|done].
  destruct (cast_to_utf8 keys) eqn:Ec; [|done]. intros [= <-]. by rewrite (cast_gives_text _ _ Ec).
Qed.

Lemma documents_text a r : encode_documents a = Ok r -> narray_type r = TUtf8.
Proof. unfold encode_documents. destruct (make_encoder a); [|done]. destruct (try_map _ _); [|done]. by intros [= <-]. Qed.

Definition same_rows (a b : NArray) : Prop := narray_len b = narray_len a /\ forall row, row_is_null b row = row_is_null a row.

Lemma stringified_ok a a' : narray_wf a -> with_stringified_map_keys a = Ok a' ->
  map_keys_need_stringifying (narray_type a') = false /\ same_rows a a'.
Proof.
  assert (Hkeep : forall a, map_keys_need_stringifying (narray_type a) = false -> map_keys_need_stringifying (narray_type a) = false /\ same_rows a a) by done.
  revert a'. induction a as [t vs|t vs|kind element offsets len nulls values IH|fields columns len nulls IH|entries ordered key value offsets len keys values en nulls IHk IHv]
    using narray_ind'; intros a' Hwf.
  - cbn [with_stringified_map_keys narray_type]. destruct (map_keys_need_stringifying t) eqn:En; intros [= <-]; [|by apply Hkeep]. by destruct t.
  - cbn [with_stringified_map_keys narray_type]. destruct (map_keys_need_stringifying t) eqn:En; intros [= <-]; [|by apply Hkeep].
    cbn in Hwf. by destruct t; try discriminate Hwf.
  - destruct Hwf as [Ht Hwf]. cbn [with_stringified_map_keys]. destruct (map_keys_need_stringifying _) eqn:En; cbn [negb]; [|intros [= <-]; by apply Hkeep].
    destruct (with_stringified_map_keys values) as [values'|]; [|done]. cbn. intros ->%built_same. destruct (IH _ Hwf eq_refl) as [Hn _]. split; [|done].
    by rewrite need_list, retyped_type.
  - rewrite stringified_struct. destruct (map_keys_need_stringifying (TStruct fields)) eqn:En; cbn [negb]; [|intros [= <-]; by apply Hkeep].
    destruct (stringified_columns columns) as [columns'|] eqn:Ec; [|done]. cbn. intros ->%built_same. split; [|done]. cbn [narray_type].
    destruct Hwf as [Ht Hwf]. apply try_map_Forall2 in Ec. assert (List.length fields = List.length columns').
    { rewrite <- (Forall2_length _ _ _ Ec), <- (length_map field_type fields), Ht. apply length_map. }
    rewrite need_struct, existsb_types, retyped_types by done. clear -IH Hwf Ec. induction Ec as [|c c' columns columns' Hc _ IHc]; [done|].
    apply Forall_cons in IH as [IH IHs]. destruct Hwf as [Hw Hws]. cbn. destruct (IH _ Hw Hc) as [-> _]. by apply IHc.
  - destruct Hwf as (He & Hk & Hv & Hwk & Hwv). cbn [with_stringified_map_keys narray_type]. destruct (map_keys_need_stringifying _) eqn:En; cbn [negb]; [|intros [= <-]; by apply Hkeep].
    destruct (stringified_keys keys _) as [keys'|] eqn:Ek; [|done]. cbn. destruct (with_stringified_map_keys values) as [values'|] eqn:Ev; [|done]. cbn.
    destruct (accepted _); [|done]. cbn. intros ->%built_same. split; [|done]. cbn [narray_type]. rewrite (need_map _ _ _ _ (retyped_type _ _)), !retyped_type.
    rewrite (proj1 (IHv _ Hwv eq_refl)), orb_false_r. apply negb_false_iff. eapply stringified_keys_text; [|exact Ek].
    intros r. unfold rendered_keys. destruct (with_stringified_map_keys keys); [|done]. apply documents_text.
Qed.

(** A nested column renders as one JSON document per row: NULL exactly where the
    row is NULL, elsewhere the encoder's document of that row, and the encoder is only
    ever given an array whose maps, at every depth, have string keys - RFC 8259 allows
    no other object names - over the same rows. *)
Theorem nested_documents_exact a documents :
  narray_wf a -> render_nested_column_as_json a = Ok documents ->
  exists stringified encode, with_stringified_map_keys a = Ok stringified /\ make_encoder stringified = Ok encode
    /\ map_keys_need_stringifying (narray_type stringified) = false
    /\ documents = ABytes TUtf8 (map (fun row => if row_is_null a row then None else Some (encode row)) (seq 0 (narray_len a)))
    /\ forall row, (row < narray_len a)%nat -> row_is_null a row = false -> valid_utf8 (encode row) = true.
Proof.
  intros Hwf. unfold render_nested_column_as_json. destruct (needs_nested_json_rendering _); [|done].
  destruct (with_stringified_map_keys a) as [a'|] eqn:Es; [|done]. cbn. destruct (stringified_ok _ _ Hwf Es) as (Hn & Hlen & Hnull).
  unfold encode_documents. destruct (make_encoder a') as [encode|] eqn:Ee; [|done]. destruct (try_map _ _) as [docs|] eqn:Em; [|done]. cbn. intros [= <-].
  exists a', encode. apply try_map_Forall2 in Em. rewrite Hlen in Em. split_and!; [done..| |].
  - f_equal. clear -Em Hnull. induction Em as [|row doc rows docs Hd _ IH]; [done|]. cbn. rewrite IH. f_equal. unfold encode_document in Hd. rewrite Hnull in Hd.
    destruct (row_is_null a row); [by injection Hd|]. destruct (valid_utf8 (encode row)); [by injection Hd|done].
  - intros row Hrow Hr. destruct (Forall2_lookup_l _ _ _ row row Em) as (doc & _ & Hd).
    { rewrite lookup_seq. split; [done|done]. }
    unfold encode_document in Hd. rewrite Hnull, Hr in Hd. by destruct (valid_utf8 (encode row)).
Qed.

(** ** Binary values *)

Lemma forallb_false {A} (p : A -> bool) l : forallb p l = false -> exists x, x ∈ l /\ p x = false.
Proof.
  induction l as [|x l IH]; [done|]. cbn. destruct (p x) eqn:E; [|exists x; split; [by left|done]].
  intros (y & Hy & Hp)%IH. exists y. split; [by right|done].
Qed.

(** A binary column reaches Exasol as text it can be read back from: every value
    renders as the hex digits that decode to exactly its bytes, within the longest
    VARCHAR, an empty or a NULL value as NULL - Exasol keeps no empty text - and the
    rendering fails exactly when some value's digits would not fit. Under
    BINARY_AS_STRING the values are the bytes unchanged, and it fails exactly when some
    value is not UTF-8. *)
Theorem binary_values_read_back t values column : is_binary t = true ->
  match render_hex (ABytes t values) column with
  | Ok hex => exists texts, hex = ABytes TUtf8 texts
      /\ Forall2 (fun value text => match value with
                                    | Some bytes => if String.eqb bytes "" then text = None
                                                    else exists digits, text = Some digits /\ hex_decode digits = Some bytes /\ (N.of_nat (String.length digits) <= MAX_VARCHAR_SIZE)%N
                                    | None => text = None
                                    end) values texts
  | Err _ => exists bytes, Some bytes ∈ values /\ (MAX_VARCHAR_SIZE < N.of_nat (String.length (hex_encode bytes)))%N
  end
  /\ (forall text, text_type t = Some text ->
       match bytes_as_text (ABytes t values) column with
       | Ok read => read = ABytes text values /\ forall bytes, Some bytes ∈ values -> valid_utf8 bytes = true
       | Err _ => exists bytes, Some bytes ∈ values /\ valid_utf8 bytes = false
       end).
Proof.
  intros Hb. split.
  - unfold render_hex, hex_strings. cbn [binary_values]. rewrite Hb. cbn. induction values as [|v values IH]; cbn [try_map]; [exists []; by split; constructor|].
    destruct (hex_value (fits_varchar column) v) as [text|e] eqn:Ev; cbn.
    + destruct (try_map _ values) as [texts|]; cbn in *.
      * destruct IH as (ts & [= <-] & IH). exists (text :: texts). split; [done|]. constructor; [|done].
        destruct v as [bytes|]; [|by injection Ev]. unfold hex_value, fits_varchar in Ev. destruct (MAX_BINARY_BYTES <? _)%N eqn:El; [done|].
        cbn in Ev. destruct (String.eqb bytes ""); cbn in Ev; [by injection Ev|]. injection Ev as <-. exists (hex_encode bytes). split; [done|].
        split; [apply hex_decode_spec, hex_encode_lower|]. rewrite hex_encode_length. unfold MAX_BINARY_BYTES in El. pose proof (N.Div0.mul_div_le MAX_VARCHAR_SIZE 2). lia.
      * destruct IH as (bytes & Hin & Hl). exists bytes. split; [by right|done].
    + destruct v as [bytes|]; [|done]. exists bytes. split; [by left|]. unfold hex_value, fits_varchar in Ev. destruct (MAX_BINARY_BYTES <? _)%N eqn:El; [|by destruct (String.eqb bytes "")].
      rewrite hex_encode_length. unfold MAX_BINARY_BYTES, MAX_VARCHAR_SIZE in *. change (2000000 / 2)%N with 1000000%N in El. lia.
  - intros text Ht. unfold bytes_as_text. rewrite Ht. destruct (forallb valid_utf8 (omap id values)) eqn:Ef.
    + split; [done|]. intros bytes Hin. rewrite forallb_forall in Ef. apply Ef, list_elem_of_In, list_elem_of_omap. by exists (Some bytes).
    + apply forallb_false in Ef as (bytes & Hin & Hv). apply list_elem_of_omap in Hin as (v & Hin & Hid). unfold id in Hid. subst v. by exists bytes.
Qed.
End Arrays.

(** ** At work *)

(** Two rows of a map of binary keys to texts, the second row NULL. *)
Definition keyed_map : NArray (Other := unit) :=
  AMap (MkField "entries" (TStruct [MkField "key" TBinary false ∅; MkField "value" TUtf8 true ∅]) false ∅) false (MkField "key" TBinary false ∅) (MkField "value" TUtf8 true ∅)
    [0; 1; 1]%Z 2 (ABytes TBinary [Some "az"]) (ABytes TUtf8 [Some "v"]) None (Some [true; false]).
(** An encoder that shows a map's first key. *)
Definition first_key (a : NArray (Other := unit)) : result string (nat -> string) :=
  match a with AMap _ _ _ _ _ _ (ABytes TUtf8 (Some key :: _)) _ _ _ => Ok (fun _ => "{" ++ key ++ "}") | _ => Err "keys are not text" end.

Lemma nested_documents_exact_witness :
  exists documents, render_nested_column_as_json (HX := plain_hex) (fun _ => "") (fun _ => "") (fun _ => Ok tt) first_key (fun _ => false) (fun _ => Err "no cast") keyed_map = Ok documents
    /\ documents = ABytes TUtf8 [Some "{617a}"; None]
    /\ exists stringified encode, first_key stringified = Ok encode /\ map_keys_need_stringifying (narray_type stringified) = false.
Proof.
  eexists. split; [vm_compute; reflexivity|]. split; [reflexivity|].
  destruct (nested_documents_exact (HX := plain_hex) (fun _ => "") (fun _ => "") (fun _ => Ok tt) first_key (fun _ => false) (fun _ => Err "no cast") ltac:(done) keyed_map
    (ABytes TUtf8 [Some "{617a}"; None])) as (stringified & encode & _ & He & Hn & _).
  - by vm_compute.
  - vm_compute; reflexivity.
  - by exists stringified, encode.
Defined.

Lemma binary_values_read_back_witness :
  render_hex (Other := unit) (HX := plain_hex) (fun _ => "") (ABytes TBinary [Some "az"; Some ""; None]) "B" = Ok (ABytes TUtf8 [Some "617a"; None; None])
  /\ bytes_as_text (Other := unit) (fun _ => "") (fun _ => "") (ABytes TBinary [Some "az"]) "B" = Ok (ABytes TUtf8 [Some "az"])
  /\ exists texts, ABytes (Other := unit) TUtf8 [Some "617a"; None; None] = ABytes TUtf8 texts /\ List.length texts = 3%nat.
Proof.
  split; [vm_compute; reflexivity|]. split; [vm_compute; reflexivity|].
  destruct (binary_values_read_back (Other := unit) (HX := plain_hex) (fun _ => "") (fun _ => "") TBinary [Some "az"; Some ""; None] "B" eq_refl) as [H _].
  destruct (render_hex _ _ _) as [hex|] eqn:E; [|vm_compute in E; discriminate E].
  assert (hex = ABytes TUtf8 [Some "617a"; None; None]) as -> by (vm_compute in E; congruence).
  destruct H as (texts & Ht & Hf). exists texts. split; [exact Ht|]. exact (eq_sym (Forall2_length _ _ _ Hf)).
Defined.
