(* ===== verification/StoreRouting.v ===== *)
(** The object stores of a scan: crates/lakehouse-engine/src/scan/object_store.rs,
    store_router.rs and runtime.rs. A scan session registers one store per bucket; a
    join's two sides each own a credential, so a router serves every path from the store
    of the side that owns it. *)

From stdpp Require Import base list strings numbers gmap.
From Stdlib Require Import Ascii String ZArith NArith Lia.
From S2P Require Import Prelude Text Redaction Storage ScanFiles CommonSpec SealedStorage ObjectLocation.

Local Open Scope string_scope.

(** ** runtime.rs *)

Definition DEFAULT_BUDGET_BYTES : N := 1024 * 1024 * 1024.
Definition MIN_POOL_FLOOR_BYTES : N := 256 * 1024 * 1024.

Inductive SpillMode := Disk (directory : string) | NoDisk.

Definition is_space (c : ascii) : bool := existsb (Ascii.eqb c) ["009"; "010"; "012"; "013"; " "]%char.

(** [split_ascii_whitespace], [word] being read. *)
Fixpoint words_from (word s : string) : list string :=
  match s with
  | EmptyString => if String.eqb word "" then [] else [word]
  | String c s' => if is_space c then (if String.eqb word "" then words_from "" s' else word :: words_from "" s') else words_from (word ++ String c "") s'
  end.
Definition words (s : string) : list string := words_from "" s.

Definition is_tmpfs (mounts : option (list string)) (tmp : string) : bool :=
  match mounts with
  | None => false
  | Some lines => existsb (fun line => match words line with _ :: mountpoint :: fstype :: _ => String.eqb mountpoint tmp && String.eqb fstype "tmpfs" | _ => false end) lines
  end.

(** [mounts] are the lines of /proc/mounts, [writes] the write probe. *)
Definition probe_tmp_spill (mounts : option (list string)) (writes : string -> bool) : SpillMode :=
  if is_tmpfs mounts "/tmp" then NoDisk else if writes "/tmp" then Disk "/tmp" else NoDisk.

Inductive MemoryPool := FairSpillPool (bytes : N) | GreedyMemoryPool (bytes : N).
Record RuntimeEnv := MkRuntimeEnv { memory_pool : MemoryPool; spill_directories : list string }.

(** [scaled net fraction] is [(net as f64 * fraction) as u64]. *)
Definition pool_budget {F} (scaled : N -> F -> N) (memory_limit_bytes : N) (fraction : F) (overhead_bytes : N) : N :=
  if (memory_limit_bytes =? 0)%N then DEFAULT_BUDGET_BYTES
  else N.max (scaled (memory_limit_bytes - overhead_bytes)%N fraction) MIN_POOL_FLOOR_BYTES.

Definition build_runtime_env {F} (scaled : N -> F -> N) (memory_limit_bytes : N) (fraction : F) (overhead_bytes : N) (spill : SpillMode) : RuntimeEnv :=
  let budget := pool_budget scaled memory_limit_bytes fraction overhead_bytes in
  match spill with
  | Disk path => MkRuntimeEnv (FairSpillPool budget) [path]
  | NoDisk => MkRuntimeEnv (GreedyMemoryPool budget) []
  end.

(** ** object_store.rs: configuring a store *)

Definition DIRECT_STORAGE_ADMISSION_LIMIT : N := 16.

(** The builders of the object_store crate, by what they were given. *)
Record ClientOptions := MkClientOptions { pool_max_idle_per_host : N; client_allow_http : bool }.
Record AmazonS3Builder := MkS3Builder {
  bucket_name : string; s3_region : string; client_options : ClientOptions; s3_endpoint : option string; virtual_hosted_style : option bool;
  skip_signature : bool; access_key_id : option string; secret_access_key : option string; token : option string;
}.

Definition client_options_for (budget : N) : ClientOptions := MkClientOptions (N.max budget 1) false.

(** [with_client_options] replaces the options whole, so [with_allow_http] comes after. *)
Definition with_client_options (o : ClientOptions) (b : AmazonS3Builder) : AmazonS3Builder :=
  MkS3Builder (bucket_name b) (s3_region b) o (s3_endpoint b) (virtual_hosted_style b) (skip_signature b) (access_key_id b) (secret_access_key b) (token b).
Definition with_allow_http (allow : bool) (b : AmazonS3Builder) : AmazonS3Builder :=
  with_client_options (MkClientOptions (pool_max_idle_per_host (client_options b)) allow) b.
Definition with_path_style (endpoint : string) (b : AmazonS3Builder) : AmazonS3Builder :=
  MkS3Builder (bucket_name b) (s3_region b) (client_options b) (Some endpoint) (Some false) (skip_signature b) (access_key_id b) (secret_access_key b) (token b).
Definition with_skip_signature (b : AmazonS3Builder) : AmazonS3Builder :=
  MkS3Builder (bucket_name b) (s3_region b) (client_options b) (s3_endpoint b) (virtual_hosted_style b) true (access_key_id b) (secret_access_key b) (token b).
Definition with_keys (access secret : string) (session : option string) (b : AmazonS3Builder) : AmazonS3Builder :=
  MkS3Builder (bucket_name b) (s3_region b) (client_options b) (s3_endpoint b) (virtual_hosted_style b) (skip_signature b) (Some access) (Some secret) session.
Definition bucket_builder (bucket region : string) : AmazonS3Builder :=
  MkS3Builder bucket region (MkClientOptions 0 false) None None false None None None.

Definition s3_builder (storage : StorageProps) (bucket : string) (connection_budget : N) : AmazonS3Builder :=
  let builder := with_allow_http (allow_http storage) (with_client_options (client_options_for connection_budget) (bucket_builder bucket (region storage))) in
  let builder := if path_style storage then with_path_style (endpoint storage) builder else builder in
  if String.eqb (access_key storage) "" && String.eqb (secret_key storage) "" && negb (bool_decide (is_Some (session_token storage)))
  then with_skip_signature builder
  else with_keys (access_key storage) (secret_key storage) (session_token storage) builder.

Inductive StoreConfig :=
| S3Config (builder : AmazonS3Builder)
| AzureConfig (url : string) (options : ClientOptions) (cred : AdlsCred).

Record StoreBounds := MkBounds { connection_budget : N; admission_limit : option N }.

(** A store by its configuration and its cap. *)
Record ConfiguredStore := MkConfigured { store_config : StoreConfig; limited_to : option N }.

Section Stores.
Context {U : Type} {SU : StoreUrls U} `{!EqDecision U}.
(** Of the url crate: a URL's text, scheme, host, and host with port. *)
Context (url_text url_scheme url_host_port : U -> string) (url_host : U -> option string).
(** Whether the object_store crate accepts a configuration. *)
Context (accepts : StoreConfig -> result string unit).

Definition build_undecorated_store (backend : StorageBackend) (store_url : U) (bounds : StoreBounds) (all_secrets : list string) : result UdfError ConfiguredStore :=
  match backend with
  | S3 storage =>
      let? bucket := ok_or (url_host store_url) (User ("file URI has no bucket/host: " ++ url_text store_url)) in
      let config := S3Config (s3_builder storage bucket (connection_budget bounds)) in
      match accepts config with
      | Err e => Err (User ("failed to configure S3 object store: " ++ redact_error_text e all_secrets))
      | Ok _ => Ok (MkConfigured config (admission_limit bounds))
      end
  | Adls _ cred =>
      let config := AzureConfig (url_text store_url) (client_options_for (connection_budget bounds)) cred in
      match accepts config with
      | Err e => Err (User ("failed to configure Azure object store: " ++ redact_error_text e all_secrets))
      | Ok _ => Ok (MkConfigured config (admission_limit bounds))
      end
  end.

Definition build_table_root_store (backend : StorageBackend) (table_root : string) (budget : N) (all_secrets : list string) : result UdfError ConfiguredStore :=
  let? store_url := store_root_url table_root in
  build_undecorated_store backend store_url (MkBounds budget None) all_secrets.

Definition build_admission_limited_store (backend : StorageBackend) (store_url : U) (all_secrets : list string) : result UdfError ConfiguredStore :=
  build_undecorated_store backend store_url (MkBounds DIRECT_STORAGE_ADMISSION_LIMIT (Some DIRECT_STORAGE_ADMISSION_LIMIT)) all_secrets.

(** ** The sides of a scan *)

Record ScanSide := MkSide { side_label : string; side_files : list FileEntry; side_root : string; side_backend : StorageBackend }.

(** An object of the bucket, by its key. *)
Notation StorePath := (list string).

(** A side's store: its configuration, and the sizes its HEAD requests are answered
    from. *)
Record SpecSizedStore := MkSpecSized { ss_inner : ConfiguredStore; ss_sizes : gmap StorePath N }.

Definition side_store_url (files : list FileEntry) (table_root : string) : result UdfError U :=
  match files with
  | [] => Err (User "scan spec has no files")
  | first :: _ => let? l := parse_entry (path first) table_root in Ok (store_root l)
  end.

Fixpoint index_file_sizes (sizes : gmap StorePath N) (files : list FileEntry) (table_root : string) : result UdfError (gmap StorePath N) :=
  match files with
  | [] => Ok sizes
  | entry :: files => let? l := parse_entry (path entry) table_root in index_file_sizes (<[key l := size entry]> sizes) files table_root
  end.
Definition side_size_index (files : list FileEntry) (table_root : string) : result UdfError (gmap StorePath N) := index_file_sizes ∅ files table_root.

(** A HEAD request of an indexed path is answered here, with its size; the rest goes to
    the store. *)
Inductive HeadAnswer := AnsweredSize (size : N) | AskStore.
Definition sized_get (s : SpecSizedStore) (location : StorePath) (head : bool) : HeadAnswer :=
  if head then match ss_sizes s !! location with Some size => AnsweredSize size | None => AskStore end else AskStore.

Definition build_side_store (side : ScanSide) (budget : N) (all_secrets : list string) : result UdfError SpecSizedStore :=
  let? sizes := side_size_index (side_files side) (side_root side) in
  let? store_url := side_store_url (side_files side) (side_root side) in
  let? store := build_undecorated_store (side_backend side) store_url (MkBounds budget None) all_secrets in
  Ok (MkSpecSized store sizes).

(** ** store_router.rs *)

Definition STORE_NAME : string := "PrefixRoutingObjectStore".

Record RoutedSide := MkRouted { rs_label : string; rs_owned : gset StorePath; rs_root : option StorePath; rs_store : SpecSizedStore }.

(** The paths a side's scan requests: its data files, and the delete files they name. *)
Definition side_paths (side : ScanSide) : list string :=
  List.concat (map (fun f => path f :: omap object_store_path (deletes f)) (side_files side)).

Definition routed_store_path (entry_path table_root : string) : result UdfError StorePath := let? l := parse_entry (U := U) entry_path table_root in Ok (key l).

Definition listing_prefix (uri : string) : result UdfError StorePath :=
  match listing_parse (U := U) uri with Ok (_, prefix) => Ok prefix | Err e => Err (User ("invalid listing URL '" ++ uri ++ "': " ++ e)) end.

Definition RoutedSide_new (side : ScanSide) (store : SpecSizedStore) : result UdfError RoutedSide :=
  let? owned := try_map (fun p => routed_store_path p (side_root side)) (side_paths side) in
  let? root := (if String.eqb (side_root side) "" then Ok None else let? prefix := listing_prefix (side_root side) in Ok (Some prefix)) in
  Ok (MkRouted (side_label side) (list_to_set owned) root store).

(** The first side that lists a path. *)
Fixpoint position_owned (sides : list RoutedSide) (p : StorePath) : option nat :=
  match sides with
  | [] => None
  | side :: sides => if bool_decide (p ∈ rs_owned side) then Some 0%nat else S <$> position_owned sides p
  end.

Definition raw_len (root : StorePath) : nat := String.length (join "/" root).

(** The side with the longest root above [p], from side [index] on. *)
Fixpoint longest_root (sides : list RoutedSide) (p : StorePath) (index : nat) (longest : option (nat * nat)) : option (nat * nat) :=
  match sides with
  | [] => longest
  | side :: sides =>
      let longest :=
        match rs_root side with
        | None => longest
        | Some root =>
            if bool_decide (is_Some (prefix_match root p)) then
              let matched := raw_len root in
              match longest with
              | Some (_, best) => if (best <? matched)%nat then Some (index, matched) else longest
              | None => Some (index, matched)
              end
            else longest
        end in
      longest_root sides p (S index) longest
  end.

Definition describe_sides (sides : list RoutedSide) : string :=
  join ", " (map (fun side => match rs_root side with
                              | Some root => rs_label side ++ " (table root '" ++ join "/" root ++ "')"
                              | None => rs_label side ++ " (no table root)"
                              end) sides).

Definition unowned_path_error (sides : list RoutedSide) (p : StorePath) : string :=
  "no join side owns object-store path '" ++ join "/" p ++ "' (tried " ++ describe_sides sides
  ++ "); every path a scan requests is one its own spec enumerates or one under its own table root, so this is a defect of the plan that produced the spec — routing it to a side anyway would issue the request with a credential of unknown scope for that path".
Definition unprefixed_listing_error (sides : list RoutedSide) : string :=
  "a listing carrying no path prefix is bucket-wide and cannot be attributed to one join side (tried " ++ describe_sides sides ++ ")".

Definition owning_side (sides : list RoutedSide) (p : StorePath) : result string nat :=
  match position_owned sides p with
  | Some index => Ok index
  | None => match longest_root sides p 0 None with Some (index, _) => Ok index | None => Err (unowned_path_error sides p) end
  end.

(** [owning_side] answers an index of [sides]. *)
Definition route (sides : list RoutedSide) (p : StorePath) : result string SpecSizedStore :=
  let? index := owning_side sides p in
  ok_or (rs_store <$> sides !! index) "".

Definition route_listing (sides : list RoutedSide) (prefix : option StorePath) : result string SpecSizedStore :=
  let? prefix := ok_or prefix (unprefixed_listing_error sides) in route sides prefix.

Definition route_pair (sides : list RoutedSide) (operation : string) (from to : StorePath) : result string SpecSizedStore :=
  let? source := owning_side sides from in
  let? destination := owning_side sides to in
  let label i := default "" (rs_label <$> sides !! i) in
  if (source =? destination)%nat then ok_or (rs_store <$> sides !! source) ""
  else Err ("cannot " ++ operation ++ " '" ++ join "/" from ++ "' to '" ++ join "/" to ++ "': the two paths are owned by different join sides ('"
         ++ label source ++ "' and '" ++ label destination ++ "'), and each side is served by its OWN store, so no one store covers both paths").

(** The requests of the [ObjectStore] trait, and the store that serves each. *)
Inductive StoreRequest :=
| ReqPut (p : StorePath) | ReqPutMultipart (p : StorePath) | ReqGet (p : StorePath) | ReqGetRanges (p : StorePath) | ReqDelete (p : StorePath)
| ReqList (prefix : option StorePath) | ReqListWithOffset (prefix : option StorePath) (offset : StorePath) | ReqListWithDelimiter (prefix : option StorePath)
| ReqCopy (from to : StorePath) | ReqRename (from to : StorePath).

Definition router_serves (sides : list RoutedSide) (r : StoreRequest) : result string SpecSizedStore :=
  match r with
  | ReqPut p | ReqPutMultipart p | ReqGet p | ReqGetRanges p | ReqDelete p => route sides p
  | ReqList prefix | ReqListWithOffset prefix _ | ReqListWithDelimiter prefix => route_listing sides prefix
  | ReqCopy from to => route_pair sides "copy" from to
  | ReqRename from to => route_pair sides "rename" from to
  end.

(** ** The session's stores *)

Inductive RegisteredStore := DirectStore (s : SpecSizedStore) | Router (sides : list RoutedSide).

Definition serves (s : RegisteredStore) (r : StoreRequest) : result string SpecSizedStore :=
  match s with DirectStore s => Ok s | Router sides => router_serves sides r end.

(** DataFusion's registry key: scheme, host and port, without the user information. *)
Definition registry_key (url : U) : string := url_scheme url ++ "://" ++ url_host_port url.
Definition Registry : Type := gmap string RegisteredStore.
Definition register_object_store (registry : Registry) (url : U) (s : RegisteredStore) : Registry := <[registry_key url := s]> registry.

Context {F : Type} (scaled : N -> F -> N).

Definition present_sides (spec : ScanSpec F) (storage : ResolvedScanStorage) : list ScanSide :=
  MkSide "fact" (spec_files spec) (table_root (common spec)) (rs_primary storage)
  :: match join_spec (common spec), rs_join storage with
     | Some j, Some backend => match j_files j with [] => [] | _ => [MkSide "dimension" (j_files j) (j_table_root j) backend] end
     | _, _ => []
     end.

Fixpoint add_to_group (url : U) (side : ScanSide) (groups : list (U * list ScanSide)) : list (U * list ScanSide) :=
  match groups with
  | [] => [(url, [side])]
  | (u, group) :: groups => if bool_decide (u = url) then (u, group ++ [side])%list :: groups else (u, group) :: add_to_group url side groups
  end.

Fixpoint group_from (groups : list (U * list ScanSide)) (sides : list ScanSide) : result UdfError (list (U * list ScanSide)) :=
  match sides with
  | [] => Ok groups
  | side :: sides => let? url := side_store_url (side_files side) (side_root side) in group_from (add_to_group url side groups) sides
  end.
Definition group_sides_by_store_url (sides : list ScanSide) : result UdfError (list (U * list ScanSide)) := group_from [] sides.

(** The sides with files, each under its registry key. *)
Fixpoint check_registry_keys (by_key : gmap string U) (sides : list (list FileEntry * string)) : result UdfError unit :=
  match sides with
  | [] => Ok tt
  | (files, root) :: sides =>
      let? store_url := side_store_url files root in
      match by_key !! registry_key store_url with
      | Some other =>
          if bool_decide (other = store_url) then check_registry_keys (<[registry_key store_url := store_url]> by_key) sides
          else Err (User ("scan spec sides need different object stores ('" ++ url_text other ++ "' and '" ++ url_text store_url
                 ++ "') but DataFusion registers a store by scheme, host and port only, so both sides would be read through whichever of the two registered first"))
      | None => check_registry_keys (<[registry_key store_url := store_url]> by_key) sides
      end
  end.

Definition validate_sides_share_one_store (spec : ScanSpec F) : result UdfError unit :=
  let sides := (spec_files spec, table_root (common spec)) :: match join_spec (common spec) with Some j => [(j_files j, j_table_root j)] | None => [] end in
  check_registry_keys ∅ (List.filter (fun s => match s.1 with [] => false | _ => true end) sides).

Definition group_store (has_dimension_side : bool) (group : list ScanSide) (budget : N) (all_secrets : list string) : result UdfError RegisteredStore :=
  if has_dimension_side then
    let? routed := try_map (fun side => let? inner := build_side_store side budget all_secrets in RoutedSide_new side inner) group in
    Ok (Router routed)
  else match group with
       | side :: _ => let? inner := build_side_store side budget all_secrets in Ok (DirectStore inner)
       | [] => Ok (Router [])
       end.

Fixpoint register_groups (registry : Registry) (has_dimension_side : bool) (groups : list (U * list ScanSide)) (budget : N) (all_secrets : list string) : result UdfError Registry :=
  match groups with
  | [] => Ok registry
  | (url, group) :: groups =>
      let? store := group_store has_dimension_side group budget all_secrets in
      register_groups (register_object_store registry url store) has_dimension_side groups budget all_secrets
  end.

(** The session's runtime and its stores; the overhead is in bytes of a u64. *)
Definition build_session_context (spill : SpillMode) (spec : ScanSpec F) (storage : ResolvedScanStorage) (memory_limit_bytes : N) : result UdfError (RuntimeEnv * Registry) :=
  let? _ := validate_sides_share_one_store spec in
  let overhead := ((instance_overhead_mb (common spec) * 1024 * 1024) mod 2 ^ 64)%N in
  let env := build_runtime_env scaled memory_limit_bytes (memory_pool_fraction (common spec)) overhead spill in
  let sides := present_sides spec storage in
  let? groups := group_sides_by_store_url sides in
  let? registry := register_groups ∅ (1 <? List.length sides)%nat groups (s3_max_connections (common spec)) (all_secret_values storage) in
  Ok (env, registry).

(** [validate_uniform_object_store_files]: [store_key] is the registry's URL of a file. *)
Context (listing_store_key : string -> result string string).

Definition store_key_of (abs : string) : result UdfError string :=
  match listing_store_key abs with Ok k => Ok k | Err e => Err (User ("invalid file URI '" ++ abs ++ "': " ++ e)) end.

Definition check_store_key (expected abs kind : string) : result UdfError unit :=
  let? got := store_key_of abs in
  if String.eqb got expected then Ok tt
  else Err (User ("scan spec mixes object-store roots: " ++ kind ++ " '" ++ abs ++ "' resolves to store '" ++ got
         ++ "' but the first file resolves to '" ++ expected ++ "'; the scan registers a single object store")).

Definition check_entry_store (expected table_root : string) (entry : FileEntry) : result UdfError unit :=
  let? _ := check_store_key expected (reconstruct_abs_uri (path entry) table_root) "data file" in
  let? _ := try_map (fun p => check_store_key expected (reconstruct_abs_uri p table_root) "delete file") (omap object_store_path (deletes entry)) in
  Ok tt.

Definition validate_uniform_object_store_files (files : list FileEntry) (table_root first_abs : string) : result UdfError unit :=
  let? expected := store_key_of first_abs in
  let? _ := try_map (check_entry_store expected table_root) files in
  Ok tt.

(** ** Each side reads through its own credential *)

Lemma position_owned_spec sides p i : position_owned sides p = Some i -> exists side, sides !! i = Some side /\ p ∈ rs_owned side.
Proof.
  revert i. induction sides as [|s sides IH]; intros i; [done|]. cbn. case_bool_decide as E; [intros [= <-]; by exists s|].
  destruct (position_owned sides p) as [j|]; [|done]. intros [= <-]. by apply IH.
Qed.

Lemma position_owned_some sides p side : side ∈ sides -> p ∈ rs_owned side -> is_Some (position_owned sides p).
Proof.
  intros Hin Hp. induction Hin as [s sides|s t sides Hin IH]; cbn; [by rewrite bool_decide_eq_true_2 by done|].
  case_bool_decide; [done|]. destruct (IH Hp) as [i ->]. by eexists.
Qed.

Lemma longest_root_spec sides p i acc j n : longest_root sides p i acc = Some (j, n) ->
  acc = Some (j, n) \/ (i <= j)%nat /\ exists side root, sides !! (j - i)%nat = Some side /\ rs_root side = Some root /\ is_Some (prefix_match root p).
Proof.
  revert i acc. induction sides as [|s sides IH]; intros i acc; cbn [longest_root]; [by left|].
  intros [Hacc|(Hle & side & root & Hs & Hr & Hm)]%IH.
  - destruct (rs_root s) as [root|] eqn:Er; [|by left]. case_bool_decide as E; [|by left].
    assert (Hnew : acc = Some (j, n) \/ Some (i, raw_len root) = Some (j, n)). { destruct acc as [[i' best]|]; [|by right]. destruct (best <? raw_len root)%nat; [by right|by left]. }
    destruct Hnew as [|[= <- <-]]; [by left|]. right. split; [lia|]. exists s, root. by rewrite Nat.sub_diag.
  - right. split; [lia|]. exists side, root. split; [|done]. replace (j - i)%nat with (S (j - S i)) by lia. done.
Qed.

(** What a router answers with is the store of a side that lists the path or whose root
    is above it. *)
Definition owns (side : RoutedSide) (p : StorePath) : Prop := p ∈ rs_owned side \/ exists root, rs_root side = Some root /\ is_Some (prefix_match root p).

Lemma route_owner sides p ss : route sides p = Ok ss -> exists side, side ∈ sides /\ ss = rs_store side /\ owns side p.
Proof.
  unfold route, owning_side. destruct (position_owned sides p) as [i|] eqn:Ep.
  - apply position_owned_spec in Ep as (side & Hs & Hp). cbn. rewrite Hs. intros [= <-]. exists side. split_and!; [by eapply list_elem_of_lookup_2|done|by left].
  - destruct (longest_root sides p 0 None) as [[i n]|] eqn:El; [|done]. apply longest_root_spec in El as [|(_ & side & root & Hs & Hr & Hm)]; [done|].
    rewrite Nat.sub_0_r in Hs. cbn. rewrite Hs. intros [= <-]. exists side. split_and!; [by eapply list_elem_of_lookup_2|done|right; by exists root].
Qed.

Lemma route_listed sides p side : side ∈ sides -> p ∈ rs_owned side -> exists owner ss, route sides p = Ok ss /\ owner ∈ sides /\ p ∈ rs_owned owner /\ ss = rs_store owner.
Proof.
  intros Hin Hp. destruct (position_owned_some _ _ _ Hin Hp) as [i Ei]. destruct (position_owned_spec _ _ _ Ei) as (owner & Ho & Hpo).
  exists owner, (rs_store owner). unfold route, owning_side. rewrite Ei. cbn. rewrite Ho. split_and!; [done|by eapply list_elem_of_lookup_2|done..].
Qed.

Definition url_of (side : ScanSide) : result UdfError U := side_store_url (side_files side) (side_root side).

Lemma add_to_group_elem url side groups u group : (u, group) ∈ add_to_group url side groups ->
  (u, group) ∈ groups \/ u = url /\ exists before, group = (before ++ [side])%list /\ (before = [] \/ (u, before) ∈ groups).
Proof.
  induction groups as [|[v g] groups IH]; cbn [add_to_group].
  - intros [[= -> ->]|H%elem_of_nil]%elem_of_cons; [right|done]. split; [done|]. exists []. split; [done|by left].
  - case_bool_decide as E.
    + intros [[= -> ->]|H]%elem_of_cons; [right; split; [done|exists g; split; [done|right; by left]]|left; by right].
    + intros [[= -> ->]|H]%elem_of_cons; [left; by left|]. destruct (IH H) as [?|(-> & before & -> & [->|Hb])]; [left; by right|right..].
      * split; [done|]. exists []. split; [done|by left].
      * split; [done|]. exists before. split; [done|right; by right].
Qed.

Lemma add_to_group_keeps url side groups u s : (u = url /\ s = side \/ exists group, (u, group) ∈ groups /\ s ∈ group) ->
  exists group, (u, group) ∈ add_to_group url side groups /\ s ∈ group.
Proof.
  induction groups as [|[v g] groups IH]; cbn [add_to_group]; intros H.
  - destruct H as [[-> ->]|(group & Hg%elem_of_nil & _)]; [|done]. exists [side]. split; [by left|by left].
  - case_bool_decide as E.
    + subst v. destruct H as [[-> ->]|(group & [[= -> ->]|Hg]%elem_of_cons & Hs)].
      * exists (g ++ [side])%list. split; [by left|]. apply elem_of_app. right. by left.
      * exists (g ++ [side])%list. split; [by left|]. apply elem_of_app. by left.
      * exists group. split; [by right|done].
    + destruct H as [[-> ->]|(group & [[= -> ->]|Hg]%elem_of_cons & Hs)].
      * destruct IH as (group & Hg & Hs); [by left|]. exists group. split; [by right|done].
      * exists g. split; [by left|done].
      * destruct IH as (group' & Hg' & Hs'); [right; by exists group|]. exists group'. split; [by right|done].
Qed.

Lemma add_to_group_urls url side groups : NoDup (map fst groups) -> NoDup (map fst (add_to_group url side groups)).
Proof.
  assert (Hin : forall gs u, u ∈ map fst (add_to_group url side gs) -> u = url \/ u ∈ map fst gs).
  { induction gs as [|[v g] gs IH]; intros u; cbn [add_to_group map fst]; [intros [->|H%elem_of_nil]%elem_of_cons; [by left|done]|].
    case_bool_decide; cbn [map fst]; [by right|]. intros [->|H']%elem_of_cons; [right; by left|]. destruct (IH _ H') as [->|?]; [by left|right; by right]. }
  induction groups as [|[v g] groups IH]; cbn [add_to_group map fst]; [intros _; by apply NoDup_singleton|].
  intros [Hn Hd]%NoDup_cons. case_bool_decide as E; cbn [map fst]; apply NoDup_cons; split; [done|done| |by apply IH].
  intros [->|H]%Hin; [by apply E|done].
Qed.

(** The groups partition the sides by their URL. *)
Lemma groups_spec sides groups0 groups : group_from groups0 sides = Ok groups -> NoDup (map fst groups0) ->
  NoDup (map fst groups)
  /\ (forall side, side ∈ sides -> exists url group, url_of side = Ok url /\ (url, group) ∈ groups /\ side ∈ group)
  /\ (forall u s group, (u, group) ∈ groups0 -> s ∈ group -> exists group', (u, group') ∈ groups /\ s ∈ group')
  /\ (forall u group s, (u, group) ∈ groups -> s ∈ group -> s ∈ sides /\ url_of s = Ok u \/ exists group0, (u, group0) ∈ groups0 /\ s ∈ group0).
Proof.
  revert groups0. induction sides as [|side sides IH]; intros groups0; cbn [group_from].
  - intros [= <-] Hd. split_and!; [done|by intros side H%elem_of_nil|by intros u s group Hg Hs; exists group|]. intros u group s Hg Hs. right. by exists group.
  - destruct (side_store_url (side_files side) (side_root side)) as [url|] eqn:Eu; [|done]. cbn. intros Hg Hd.
    destruct (IH _ Hg (add_to_group_urls _ _ _ Hd)) as (H1 & H2 & H3 & H4). split_and!; [done| | |].
    + intros s [->|Hs]%elem_of_cons; [|by apply H2]. destruct (add_to_group_keeps url side groups0 url side) as (group & Hin & Hs); [by left|].
      destruct (H3 _ _ _ Hin Hs) as (group' & Hin' & Hs'). exists url, group'. done.
    + intros u s group Hin Hs. destruct (add_to_group_keeps url side groups0 u s) as (group1 & Hin1 & Hs1); [right; by exists group|]. by eapply H3.
    + intros u group s Hin Hs. destruct (H4 _ _ _ Hin Hs) as [[Hs' Hu]|(group0 & Hin0 & Hs0)]; [left; split; [by right|done]|].
      apply add_to_group_elem in Hin0 as [?|(-> & before & -> & Hb)]; [right; by exists group0|].
      apply elem_of_app in Hs0 as [Hs0|[->|H%elem_of_nil]%elem_of_cons]; [|left; split; [by left|done]|done].
      destruct Hb as [->|Hb]; [by apply elem_of_nil in Hs0|]. right. by exists before.
Qed.

Lemma registry_keys_checked sides by_key : check_registry_keys by_key sides = Ok tt ->
  forall s u, s ∈ sides -> side_store_url s.1 s.2 = Ok u ->
    (forall o, by_key !! registry_key u = Some o -> o = u)
    /\ forall s' u', s' ∈ sides -> side_store_url s'.1 s'.2 = Ok u' -> registry_key u' = registry_key u -> u' = u.
Proof.
  revert by_key. induction sides as [|[files root] sides IH]; intros by_key; [by intros _ s u H%elem_of_nil|]. cbn [check_registry_keys].
  destruct (side_store_url files root) as [v|] eqn:Ev; [|done]. cbn. intros Hcheck.
  assert (Hrest : check_registry_keys (<[registry_key v := v]> by_key) sides = Ok tt /\ forall o, by_key !! registry_key v = Some o -> o = v).
  { destruct (by_key !! registry_key v) as [o|]; [|done]. case_bool_decide as E; [|done]. split; [done|]. by intros ? [= <-]. }
  destruct Hrest as [Hrest Hold]. specialize (IH _ Hrest).
  assert (Hv : forall s u, s ∈ sides -> side_store_url s.1 s.2 = Ok u -> registry_key u = registry_key v -> u = v).
  { intros s u Hs Hu Hk. destruct (IH s u Hs Hu) as [Ho _]. symmetry. apply Ho. rewrite Hk. apply lookup_insert_eq. }
  intros s u [->|Hs]%elem_of_cons Hu.
  - cbn in Hu. rewrite Ev in Hu. injection Hu as <-. split; [done|]. intros s' u' [->|Hs']%elem_of_cons Hu' Hk; [cbn in Hu'; congruence|]. by eapply Hv.
  - destruct (IH s u Hs Hu) as [Ho Hpair]. split.
    + intros o Hby. destruct (decide (registry_key u = registry_key v)) as [Hk|Hk]; [rewrite (Hv _ _ Hs Hu Hk) in *; by apply Hold|].
      apply Ho. rewrite lookup_insert_ne; [done|congruence].
    + intros s' u' [->|Hs']%elem_of_cons Hu' Hk; [|by eapply Hpair]. cbn in Hu'. rewrite Ev in Hu'. injection Hu' as <-. symmetry. by eapply Hv.
Qed.

Lemma register_groups_lookup registry has_dim groups budget secrets registry' :
  register_groups registry has_dim groups budget secrets = Ok registry' -> NoDup (map (fun g => registry_key g.1) groups) ->
  (forall url group, (url, group) ∈ groups -> exists store, group_store has_dim group budget secrets = Ok store /\ registry' !! registry_key url = Some store)
  /\ (forall k, k ∉ map (fun g => registry_key g.1) groups -> registry' !! k = registry !! k).
Proof.
  revert registry. induction groups as [|[u g] groups IH]; intros registry; cbn [register_groups map fst].
  - intros [= <-] _. split; [by intros url group H%elem_of_nil|done].
  - destruct (group_store has_dim g budget secrets) as [store|] eqn:Es; [|done]. cbn. intros Hr [Hn Hd]%NoDup_cons. destruct (IH _ Hr Hd) as [H1 H2]. split.
    + intros url group [[= -> ->]|Hin]%elem_of_cons; [|by apply H1]. exists store. split; [done|]. rewrite H2 by done. apply lookup_insert_eq.
    + intros k [Hk Hk']%not_elem_of_cons. rewrite H2 by done. apply lookup_insert_ne. congruence.
Qed.

(** A side lists an object its data or delete files name; it covers those and the ones
    below its table root. *)
Definition lists (side : ScanSide) (k : StorePath) : Prop := exists p l, p ∈ side_paths side /\ parse_entry (U := U) p (side_root side) = Ok l /\ key l = k.
Definition covers (side : ScanSide) (k : StorePath) : Prop :=
  lists side k \/ side_root side <> "" /\ exists text prefix, listing_parse (U := U) (side_root side) = Ok (text, prefix) /\ is_Some (prefix_match prefix k).

(** The store a configuration builds asks for the objects of [url] under the credential of
    [backend] and no other: the bucket's name, region, endpoint and transport, and the keys
    - unsigned when the backend has none - or the account's key or SAS token. *)
Definition anonymous (storage : StorageProps) : Prop := access_key storage = "" /\ secret_key storage = "" /\ session_token storage = None.
Definition signs_as (backend : StorageBackend) (url : U) (config : StoreConfig) : Prop :=
  match backend, config with
  | S3 storage, S3Config b =>
      url_host url = Some (bucket_name b) /\ s3_region b = region storage /\ client_allow_http (client_options b) = allow_http storage
      /\ s3_endpoint b = (if path_style storage then Some (endpoint storage) else None)
      /\ ((anonymous storage /\ skip_signature b = true /\ access_key_id b = None /\ secret_access_key b = None /\ token b = None)
          \/ (~ anonymous storage /\ skip_signature b = false /\ access_key_id b = Some (access_key storage)
              /\ secret_access_key b = Some (secret_key storage) /\ token b = session_token storage))
  | Adls _ cred, AzureConfig text _ used => text = url_text url /\ used = cred
  | _, _ => False
  end.

(** The store of a side: its bucket under its credential, its own files' sizes. *)
Definition store_of (side : ScanSide) (ss : SpecSizedStore) : Prop :=
  side_size_index (side_files side) (side_root side) = Ok (ss_sizes ss)
  /\ exists url, url_of side = Ok url /\ signs_as (side_backend side) url (store_config (ss_inner ss)).

Lemma undecorated_signs_as backend url bounds secrets store :
  build_undecorated_store backend url bounds secrets = Ok store -> signs_as backend url (store_config store).
Proof.
  unfold build_undecorated_store, signs_as. destruct backend as [storage|account cred].
  - destruct (url_host url) as [bucket|]; [|done]. cbn [ok_or]. destruct (accepts _); [|done]. intros [= <-]. cbn [store_config].
    unfold s3_builder, anonymous. destruct (String.eqb_spec (access_key storage) ""), (String.eqb_spec (secret_key storage) ""), (session_token storage) eqn:Et,
      (path_style storage); cbn; rewrite ?bool_decide_eq_true_2 by eauto; cbn; split_and!; try done; (by left) || (right; split_and!; try done; by intros (? & ? & ?)).
  - destruct (accepts _); [|done]. by intros [= <-].
Qed.

Lemma side_store_of side budget secrets inner : build_side_store side budget secrets = Ok inner -> store_of side inner.
Proof.
  unfold build_side_store, store_of, url_of. destruct (side_size_index _ _) as [sizes|]; [|done]. destruct (side_store_url _ _) as [url|]; [|done]. cbn.
  destruct (build_undecorated_store _ _ _ _) as [store|] eqn:E; [|done]. intros [= <-]. split; [done|]. exists url. split; [done|]. by eapply undecorated_signs_as.
Qed.

Lemma routed_side_spec side inner r : RoutedSide_new side inner = Ok r ->
  rs_store r = inner /\ (forall k, k ∈ rs_owned r <-> lists side k) /\ (forall k, owns r k -> covers side k).
Proof.
  unfold RoutedSide_new. destruct (try_map _ (side_paths side)) as [owned|] eqn:Eo; [|done]. cbn.
  assert (Hk : forall k, k ∈ (list_to_set owned : gset StorePath) <-> lists side k).
  { intros k. rewrite elem_of_list_to_set. apply try_map_Forall2 in Eo. split.
    - intros [i Hi]%list_elem_of_lookup_1. destruct (Forall2_lookup_r _ _ _ _ _ Eo Hi) as (p & Hp & Hf). unfold routed_store_path in Hf.
      destruct (parse_entry p (side_root side)) as [l|] eqn:El; [|done]. injection Hf as <-. exists p, l. split; [by eapply list_elem_of_lookup_2|done].
    - intros (p & l & [i Hi]%list_elem_of_lookup_1 & Hl & <-). destruct (Forall2_lookup_l _ _ _ _ _ Eo Hi) as (k' & Hk' & Hf). unfold routed_store_path in Hf.
      rewrite Hl in Hf. injection Hf as <-. by eapply list_elem_of_lookup_2. }
  destruct (String.eqb_spec (side_root side) "") as [E|E].
  - intros [= <-]. cbn. split_and!; [done|done|]. intros k [Ho|(root & ? & _)]; [left; by apply Hk|done].
  - unfold listing_prefix. destruct (listing_parse (side_root side)) as [[text prefix]|] eqn:El; [|done]. intros [= <-]. cbn. split_and!; [done|done|].
    intros k [Ho|(root & [= <-] & Hm)]; [left; by apply Hk|right]. split; [done|]. by exists text, prefix.
Qed.

Lemma routed_group group budget secrets routed :
  try_map (fun side => let? inner := build_side_store side budget secrets in RoutedSide_new side inner) group = Ok routed ->
  Forall2 (fun side r => store_of side (rs_store r) /\ (forall k, k ∈ rs_owned r <-> lists side k) /\ forall k, owns r k -> covers side k) group routed.
Proof.
  intros H%try_map_Forall2. eapply Forall2_impl; [exact H|]. cbn. intros side r Hr. destruct (build_side_store side budget secrets) as [inner|] eqn:Eb; [|done].
  apply routed_side_spec in Hr as (Hs & Ho & Hc). rewrite Hs. split_and!; [by eapply side_store_of|done..].
Qed.

Lemma present_validated spec storage : validate_sides_share_one_store spec = Ok tt ->
  forall s s' u u', s ∈ present_sides spec storage -> s' ∈ present_sides spec storage -> url_of s = Ok u -> url_of s' = Ok u' -> registry_key u' = registry_key u -> u' = u.
Proof.
  intros Hv s s' u u' Hs Hs' Hu Hu' Hk. unfold validate_sides_share_one_store in Hv.
  assert (Hin : forall side w, side ∈ present_sides spec storage -> url_of side = Ok w ->
    (side_files side, side_root side) ∈ List.filter (fun s => match s.1 with [] => false | _ => true end)
      ((spec_files spec, table_root (common spec)) :: match join_spec (common spec) with Some j => [(j_files j, j_table_root j)] | None => [] end)).
  { intros side w Hin Hw. apply list_elem_of_In, List.filter_In. split; [|unfold url_of, side_store_url in Hw; by destruct (side_files side)].
    apply list_elem_of_In. unfold present_sides in Hin. apply elem_of_cons in Hin as [->|Hin]; [by left|]. right.
    destruct (join_spec (common spec)) as [j|]; [|by apply elem_of_nil in Hin]. destruct (rs_join storage); [|by apply elem_of_nil in Hin].
    destruct (j_files j) eqn:Ej; [by apply elem_of_nil in Hin|]. apply list_elem_of_singleton in Hin as ->. cbn. rewrite <- Ej. by left. }
  destruct (registry_keys_checked _ _ Hv _ u (Hin _ _ Hs Hu) Hu) as [_ Hpair]. by apply (Hpair _ u' (Hin _ _ Hs' Hu') Hu').
Qed.

Lemma NoDup_keys (groups : list (U * list ScanSide)) : NoDup (map fst groups) ->
  (forall u u', u ∈ map fst groups -> u' ∈ map fst groups -> registry_key u' = registry_key u -> u' = u) -> NoDup (map (fun g => registry_key g.1) groups).
Proof.
  induction groups as [|[u g] groups IH]; intros Hd Hinj; [constructor|]. cbn [map fst] in *. apply NoDup_cons in Hd as [Hn Hd]. apply NoDup_cons. split.
  - intros ([v g'] & Heq & Hin)%list_elem_of_fmap. cbn in Heq. apply Hn. rewrite <- (Hinj u v); [by apply (list_elem_of_fmap_2 fst _ (v, g'))|by left| |done].
    right. by apply (list_elem_of_fmap_2 fst _ (v, g')).
  - apply IH; [done|]. intros v v' Hv Hv'. apply Hinj; by right.
Qed.

Lemma groups_nonempty sides groups0 groups : group_from groups0 sides = Ok groups -> (forall u, (u, []) ∉ groups0) -> forall u, (u, []) ∉ groups.
Proof.
  revert groups0. induction sides as [|s sides IH]; intros groups0; cbn [group_from]; [by intros [= <-]|]. destruct (side_store_url _ _) as [w|]; [|done]. cbn.
  intros Ho Hgs. apply (IH _ Ho). intros v [Hv|(_ & before & Hb & _)]%add_to_group_elem; [by eapply Hgs|]. by destruct before.
Qed.

(** A session's stores, group by group of the sides of one URL. *)
Lemma session_groups spill spec storage memory env registry :
  build_session_context spill spec storage memory = Ok (env, registry) ->
  exists groups : list (U * list ScanSide), (forall side, side ∈ present_sides spec storage -> exists url group, url_of side = Ok url /\ (url, group) ∈ groups /\ side ∈ group)
    /\ (forall u group s, (u, group) ∈ groups -> s ∈ group -> s ∈ present_sides spec storage /\ url_of s = Ok u)
    /\ (forall url group, (url, group) ∈ groups -> exists store,
         group_store (1 <? List.length (present_sides spec storage))%nat group (s3_max_connections (common spec)) (all_secret_values storage) = Ok store
         /\ registry !! registry_key url = Some store).
Proof.
  unfold build_session_context. destruct (validate_sides_share_one_store spec) as [[]|] eqn:Ev; [|done]. set (dim := (1 <? _)%nat). clearbody dim. cbv beta iota zeta.
  destruct (group_sides_by_store_url (present_sides spec storage)) as [groups|] eqn:Eg; [|done]. cbn.
  destruct (register_groups _ _ _ _ _) as [reg|] eqn:Er; [|done]. intros [= <- <-]. exists groups.
  destruct (groups_spec _ _ _ Eg (NoDup_nil_2)) as (Hd & Hsides & _ & Hgroups).
  assert (Hg : forall u group s, (u, group) ∈ groups -> s ∈ group -> s ∈ present_sides spec storage /\ url_of s = Ok u).
  { intros u group s Hin Hs. destruct (Hgroups _ _ _ Hin Hs) as [?|(? & H%elem_of_nil & _)]; done. }
  assert (Hne : forall u, (u, []) ∉ groups) by (eapply groups_nonempty; [exact Eg|by intros u Hu%elem_of_nil]).
  split_and!; [done|done|]. apply (register_groups_lookup _ _ _ _ _ _ Er). apply NoDup_keys; [done|].
  intros u u' ([v group] & -> & Hv)%list_elem_of_fmap ([v' group'] & -> & Hv')%list_elem_of_fmap Hk. cbn in *.
  destruct group as [|s group]; [by apply Hne in Hv|]. destruct group' as [|s' group']; [by apply Hne in Hv'|].
  destruct (Hg _ _ s Hv ltac:(by left)) as [Hs Hu]. destruct (Hg _ _ s' Hv' ltac:(by left)) as [Hs' Hu']. by eapply (present_validated spec storage Ev s s').
Qed.

Lemma one_side_same spec storage side side' : (1 <? List.length (present_sides spec storage))%nat = false -> side ∈ present_sides spec storage -> side' ∈ present_sides spec storage -> side = side'.
Proof.
  intros E1%Nat.ltb_ge. destruct (present_sides spec storage) as [|a [|b l]]; [by intros H%elem_of_nil| |cbn in E1; lia].
  by intros ->%list_elem_of_singleton ->%list_elem_of_singleton.
Qed.

(** C12. One side's credential never reads the other's file. In every session the scan
    builds - a single table, or a join whose sides share a bucket or not - a request
    for a data or delete file of a side, through the store DataFusion finds for that
    side's bucket, is served by a store built with that side's own keys, token, region
    and endpoint (unsigned when it has none) and from that side's own file sizes,
    provided the other side of the bucket does not list the very same object, as in a
    self-join; and whatever a join's session is asked for, it answers through the store
    of a side that lists the object or whose table root is above it, or refuses. *)
Theorem each_side_reads_its_own spill spec storage memory env registry :
  build_session_context spill spec storage memory = Ok (env, registry) ->
  (forall side k, side ∈ present_sides spec storage -> lists side k ->
     (forall other, other ∈ present_sides spec storage -> url_of other = url_of side -> lists other k -> other = side) ->
     exists url store ss, url_of side = Ok url /\ registry !! registry_key url = Some store /\ serves store (ReqGet k) = Ok ss /\ store_of side ss)
  /\ (List.length (present_sides spec storage) = 2%nat -> forall side url store k ss, side ∈ present_sides spec storage -> url_of side = Ok url -> registry !! registry_key url = Some store ->
     serves store (ReqGet k) = Ok ss -> exists owner, owner ∈ present_sides spec storage /\ url_of owner = Ok url /\ store_of owner ss /\ covers owner k).
Proof.
  intros (groups & Hsides & Hg & Hlookup)%session_groups. split.
  - intros side k Hs Hk Hother. destruct (Hsides side Hs) as (url & group & Hu & Hin & Hmem). destruct (Hlookup url group Hin) as (store & Hstore & Hreg).
    exists url, store. unfold group_store in Hstore. destruct (1 <? _)%nat eqn:E1.
    + destruct (try_map _ group) as [routed|] eqn:Et; [|done]. injection Hstore as <-. apply routed_group in Et.
      destruct (list_elem_of_lookup_1 _ _ Hmem) as [i Hi]. destruct (Forall2_lookup_l _ _ _ _ _ Et Hi) as (r & Hr & _ & Ho & _).
      destruct (route_listed routed k r) as (owner & ss & Hroute & Hin' & Hko & ->); [by eapply list_elem_of_lookup_2|by apply Ho|].
      exists (rs_store owner). split_and!; [done..|]. destruct (list_elem_of_lookup_1 _ _ Hin') as [j Hj]. destruct (Forall2_lookup_r _ _ _ _ _ Et Hj) as (other & Hoj & Hb & Hoo & _).
      apply list_elem_of_lookup_2 in Hoj. destruct (Hg _ _ _ Hin Hoj) as [Hop Hou]. rewrite <- (Hother other Hop); [done|by rewrite Hou, Hu|by apply Hoo].
    + destruct group as [|first group]; [by apply elem_of_nil in Hmem|]. destruct (build_side_store first _ _) as [inner|] eqn:Eb; [|done]. injection Hstore as <-.
      exists inner. split_and!; [done..|]. assert (side = first) as -> by (eapply one_side_same; [exact E1|done|by eapply Hg; [exact Hin|left]]). by eapply side_store_of.
  - intros H2 side url store k ss Hs Hu Hreg Hserve. destruct (Hsides side Hs) as (url' & group & Hu' & Hin & Hmem). rewrite Hu in Hu'. injection Hu' as <-.
    destruct (Hlookup url group Hin) as (store' & Hstore & Hreg'). rewrite Hreg in Hreg'. injection Hreg' as <-. unfold group_store in Hstore. rewrite H2 in Hstore. cbn in Hstore.
    destruct (try_map _ group) as [routed|] eqn:Et; [|done]. injection Hstore as <-. apply routed_group in Et.
    destruct (route_owner _ _ _ Hserve) as (r & Hr & -> & Ho). destruct (list_elem_of_lookup_1 _ _ Hr) as [j Hj]. destruct (Forall2_lookup_r _ _ _ _ _ Et Hj) as (owner & Hoj & Hb & _ & Hc).
    apply list_elem_of_lookup_2 in Hoj. destruct (Hg _ _ _ Hin Hoj) as [Hop Hou]. exists owner. split_and!; [done..|by apply Hc].
Qed.
End Stores.

(** ** At work *)

(** A fact and a dimension table of one bucket, under one SAS token each. *)
Definition plain_entry (p : string) : FileEntry := {| path := p; size := 9; deletes := []; partition_values := ∅ |}.
Definition side_join : JoinSpec :=
  MkJoinSpec "s3://bucket/d" [plain_entry "s3://bucket/d/b.parquet"] [] [] Inner "F" "D" "TRUE" None [] [] (SInline (Adls "acct" (Sas "dimension"))).
Definition side_spec : ScanSpec unit :=
  MkScanSpec (MkCommon "s3://bucket/f" [] None None [] None None false [] [] (Some side_join) [] (SInline (Adls "acct" (Sas "fact"))) 1 1 1 tt 0 4 false)
    [plain_entry "s3://bucket/f/a.parquet"].
Definition side_storage : ResolvedScanStorage := MkResolvedStorage (Adls "acct" (Sas "fact")) (Some (Adls "acct" (Sas "dimension"))).
Definition side_session : result UdfError (RuntimeEnv * Registry) :=
  build_session_context (SU := bucket_urls) id (fun _ => "s3") (fun _ => "bucket") (fun _ => Some "bucket") (fun _ => Ok tt) (fun n _ => n) NoDisk side_spec side_storage 0.

Lemma each_side_reads_its_own_witness :
  exists env registry store ss, side_session = Ok (env, registry) /\ registry !! "s3://bucket" = Some store
    /\ serves store (ReqGet ["d"; "b.parquet"]) = Ok ss /\ exists options, store_config (ss_inner ss) = AzureConfig "s3://bucket" options (Sas "dimension").
Proof.
  destruct side_session as [[env registry]|] eqn:E; [|vm_compute in E; discriminate E]. exists env, registry.
  destruct (proj1 (each_side_reads_its_own (SU := bucket_urls) id (fun _ => "s3") (fun _ => "bucket") (fun _ => Some "bucket") (fun _ => Ok tt) (fun n _ => n) NoDisk side_spec side_storage 0 env registry E)
    (MkSide "dimension" [plain_entry "s3://bucket/d/b.parquet"] "s3://bucket/d" (Adls "acct" (Sas "dimension"))) ["d"; "b.parquet"]) as (url & store & ss & Hu & Hr & Hs & Hb).
  - right. by left.
  - exists "s3://bucket/d/b.parquet", (MkLocation "s3://bucket" ["d"; "b.parquet"]). split_and!; [by left|vm_compute; reflexivity|done].
  - intros other [->|[->|H%elem_of_nil]%elem_of_cons]%elem_of_cons _ (p & l & Hp & Hl & Hk); [|done|done].
    apply list_elem_of_singleton in Hp as ->. vm_compute in Hl. injection Hl as <-. discriminate Hk.
  - vm_compute in Hu. injection Hu as <-. exists store, ss. destruct Hb as (_ & url & Hu & Hb). vm_compute in Hu. injection Hu as <-.
    split_and!; [done|exact Hr|exact Hs|]. cbn [signs_as side_backend] in Hb. destruct (store_config (ss_inner ss)) as [|text options used]; [done|].
    destruct Hb as [-> ->]. by exists options.
Defined.
