(* ===== verification/Export.v ===== *)
(** crates/lakehouse-engine/src/export.rs: [EXPORT ... INTO SCRIPT]. The export hook
    answers a SELECT that spreads the source rows over writer invocations of the same
    script; a writer counts the rows of its group. What the database does with that SELECT
    is a class, [ExportDatabase]. *)

From stdpp Require Import base list strings numbers gmap.
From Stdlib Require Import Ascii String ZArith NArith Lia.
From S2P Require Import Prelude Text Json Serde ExasolRules Sharding DrivingSql.

Local Open Scope string_scope.

Definition EXPORT_SCRIPT_NAME : string := "LAKEHOUSE_EXPORT".
Definition CATALOG_CONNECTION : string := "CATALOG_CONNECTION".
Definition TABLE_NAME : string := "TABLE_NAME".
Definition WRITERS_PER_NODE : string := "WRITERS_PER_NODE".
Definition SINGLE_COMMIT : string := "SINGLE_COMMIT".

(** [ExportSpec] of the SDK. *)
Record ExportSpec := MkExportSpec {
  has_truncate : bool; has_replace : bool; created_by : option string; spec_connection_name : option string; connection_information : option string;
  parameters : list (string * string); source_column_names : list string;
}.

Definition refusal (message : string) : UdfError := User (EXPORT_SCRIPT_NAME ++ ": " ++ message).

(** ** The options *)

Inductive WriterLayout := SingleCommit | PerNode (writers : N).
Record ExportOptions := MkExportOptions { connection_name : string; writers : WriterLayout }.

Definition refuse_rewrite_clauses (spec : ExportSpec) : result UdfError unit :=
  let clauses := [(has_truncate spec, "TRUNCATE"); (has_replace spec, "REPLACE"); (bool_decide (is_Some (created_by spec)), "CREATED BY")] in
  match List.find fst clauses with
  | Some (_, clause) => Err (refusal (clause ++ " is not supported, because the export only appends rows; remove " ++ clause ++ " from the EXPORT statement"))
  | None => Ok tt
  end.

Definition refuse_at_clause (spec : ExportSpec) : result UdfError unit :=
  match spec_connection_name spec, connection_information spec with
  | None, None => Ok tt
  | _, _ => Err (refusal ("the AT clause is not supported; remove it and name the CONNECTION with " ++ CATALOG_CONNECTION ++ " = '<connection>' in the WITH options"))
  end.

Record WithOptions := MkWithOptions {
  o_catalog_connection : option string; o_table_name : option string; o_writers_per_node : option string; o_single_commit : option string;
}.

Definition set_option (options : WithOptions) (parameter : string * string) : result UdfError WithOptions :=
  let '(key, value) := parameter in
  let '(MkWithOptions c t w s) := options in
  if String.eqb key CATALOG_CONNECTION then Ok (MkWithOptions (Some value) t w s)
  else if String.eqb key TABLE_NAME then Ok (MkWithOptions c (Some value) w s)
  else if String.eqb key WRITERS_PER_NODE then Ok (MkWithOptions c t (Some value) s)
  else if String.eqb key SINGLE_COMMIT then Ok (MkWithOptions c t w (Some value))
  else Err (refusal ("unknown option " ++ key ++ "; the accepted options are " ++ CATALOG_CONNECTION ++ ", " ++ TABLE_NAME ++ ", " ++ WRITERS_PER_NODE ++ ", and " ++ SINGLE_COMMIT)).

Fixpoint collect_options (options : WithOptions) (parameters : list (string * string)) : result UdfError WithOptions :=
  match parameters with
  | [] => Ok options
  | parameter :: parameters => let? options := set_option options parameter in collect_options options parameters
  end.
Definition collect (parameters : list (string * string)) : result UdfError WithOptions := collect_options (MkWithOptions None None None None) parameters.

Definition options_connection_name (o : WithOptions) : result UdfError string :=
  ok_or (catalog_connection_name (o_catalog_connection o))
    (refusal ("option " ++ CATALOG_CONNECTION ++ " is required; set " ++ CATALOG_CONNECTION ++ " = '<connection>', naming the CONNECTION object the virtual schema uses")).

Definition table_name_form : string := "'<namespace>.<table>', a namespace of one or more '.'-separated levels and a table name, with no empty part".

Definition check_table_name (value : option string) : result UdfError unit :=
  match value with
  | None => Err (refusal ("option " ++ TABLE_NAME ++ " is required; set " ++ TABLE_NAME ++ " = " ++ table_name_form))
  | Some value =>
      let parts := split_char "." value in
      if (List.length parts <? 2)%nat || existsb (String.eqb "") parts
      then Err (refusal (TABLE_NAME ++ " = '" ++ value ++ "' is not of the form " ++ table_name_form))
      else Ok tt
  end.

Definition parse_writers_per_node (value : string) : result UdfError N :=
  match parse_whole_number (H := NonZeroUsize) value with
  | Ok n => Ok n
  | Err expected => Err (refusal (WRITERS_PER_NODE ++ " = '" ++ value ++ "' is not " ++ expected ++ ", for example " ++ WRITERS_PER_NODE ++ " = '4'"))
  end.

Definition parse_single_commit (value : string) : result UdfError bool :=
  ok_or (parse_boolean value) (refusal (SINGLE_COMMIT ++ " = '" ++ value ++ "' is not 'true' or 'false'")).

(** [Option::map(parse).transpose()?] *)
Definition parse_option {A} (parse : string -> result UdfError A) (o : option string) : result UdfError (option A) :=
  match o with None => Ok None | Some v => let? a := parse v in Ok (Some a) end.

Definition writer_layout (o : WithOptions) : result UdfError WriterLayout :=
  let? per_node := parse_option parse_writers_per_node (o_writers_per_node o) in
  let? single_commit := parse_option parse_single_commit (o_single_commit o) in
  match single_commit, per_node with
  | Some true, Some _ =>
      Err (refusal (WRITERS_PER_NODE ++ " cannot be combined with " ++ SINGLE_COMMIT ++ " = 'true', which runs one writer for the whole cluster; remove one of the two options"))
  | Some true, None => Ok SingleCommit
  | _, per_node => Ok (PerNode (default 1%N per_node))
  end.

Definition from_spec (spec : ExportSpec) : result UdfError ExportOptions :=
  let? _ := refuse_rewrite_clauses spec in
  let? _ := refuse_at_clause spec in
  let? options := collect (parameters spec) in
  let? name := options_connection_name options in
  let? _ := check_table_name (o_table_name options) in
  let? layout := writer_layout options in
  Ok (MkExportOptions name layout).

(** ** The database *)

(** The classes of [MOD(ROWNUM, groups)] over rows numbered from [k] on. *)
Fixpoint group_rows {A} (groups g k : N) (rows : list A) : list A :=
  match rows with
  | [] => []
  | r :: rows => if (k mod groups =? g)%N then r :: group_rows groups g (k + 1) rows else group_rows groups g (k + 1) rows
  end.
Definition group_keys (groups : N) : list N := map N.of_nat (seq 0 (N.to_nat groups)).
Definition spread {A} (groups : N) (rows : list A) : list (list A) := map (fun g => group_rows groups g 1 rows) (group_keys groups).
Definition occupied {A} (groups : list (list A)) : list (list A) := List.filter (fun g => match g with [] => false | _ => true end) groups.

(** The text after the first argument of a writer statement. *)
Definition grouped_tail (args : string) (groups : N) : string := args ++ ") FROM DUAL GROUP BY MOD(ROWNUM, " ++ show_N groups ++ ")".

(** What Exasol documents of such a statement over an export source. [export_groups sql rows]
    are the invocations of [script], each with its rows; a row carries the text of its first
    argument and the values of the others. For [SELECT script('text', args) FROM DUAL GROUP
    BY MOD(ROWNUM, G)] every source row has one number from 1 on, in an order of the
    database's choice, the invocations are the groups that hold a row, and each row carries
    the literal's text and the arguments' values on it. Nothing is known of any other
    statement. *)
Class ExportDatabase (script : string) (R V : Type) := {
  argument_values : string -> R -> list V;
  export_groups : string -> list R -> list (list (string * list V));
  group_by_rownum sql tail text args groups rows :
    sql = "SELECT " ++ script ++ "(" ++ tail -> (1 <= groups <= MAX_GROUP_COUNT)%N -> read_literal tail = Some (text, grouped_tail args groups) ->
    exists numbered, numbered ≡ₚ rows
      /\ export_groups sql rows ≡ₚ map (map (fun r => (text, argument_values args r))) (occupied (spread groups numbered));
}.

(** ** The writer's statement *)

Section Writer.
(** serde_json: the text of a document, and the document of a text. *)
Context (print : Json -> string) (parse : string -> option Json).

Definition writer_spec_render (connection : string) : string := print (json_object [("connection", JString connection)]).

Definition not_an_export_target : UdfError :=
  refusal (EXPORT_SCRIPT_NAME ++ " runs as the target of EXPORT ... INTO SCRIPT, not as a function in a query: its first argument is not the writer spec that the export generates").

(** A derived struct with [deny_unknown_fields]. *)
Definition writer_spec_from (j : Json) : option string :=
  fields ← struct_fields ["connection"] j;
  if forallb (fun kv => String.eqb kv.1 "connection") fields then required "connection" as_str fields else None.

(** The first argument of a call: unreadable, NULL or a text. *)
Definition writer_spec_read (argument : result string (option string)) : result UdfError string :=
  match argument with
  | Ok (Some text) => ok_or (j ← parse text; writer_spec_from j) not_an_export_target
  | _ => Err not_an_export_target
  end.

(** A call's context: its CONNECTIONs, script schema, user and nodes. *)
Record ExportContext := MkExportContext {
  has_connection : string -> result string unit; script_schema : string; current_user : option string; node_count : N;
}.

Definition require_connection_access (ctx : ExportContext) (connection : string) : result UdfError unit :=
  match has_connection ctx connection with
  | Ok _ => Ok tt
  | Err cause =>
      let script := script_schema ctx ++ "." ++ EXPORT_SCRIPT_NAME in
      let user := default "<user>" (current_user ctx) in
      Err (refusal ("user " ++ user ++ " cannot read CONNECTION " ++ connection ++ " in script " ++ script ++ " (" ++ cause ++ "); a DBA grants it with GRANT ACCESS ON CONNECTION "
        ++ connection ++ " FOR SCRIPT " ++ script ++ " TO " ++ user ++ ", or to a role that " ++ user ++ " holds"))
  end.

Definition writer_group_count (layout : WriterLayout) (nodes : N) : N :=
  match layout with SingleCommit => 1%N | PerNode per_node => group_count nodes per_node USIZE_MAX end.

Definition writer_select (schema writer_spec : string) (source_columns : list string) (layout : WriterLayout) (nodes : N) : string :=
  "SELECT " ++ exasol_quote_ident schema ++ "." ++ exasol_quote_ident EXPORT_SCRIPT_NAME ++ "(" ++ join ", " (sql_string_literal writer_spec :: source_columns)
  ++ ") FROM DUAL GROUP BY MOD(ROWNUM, " ++ show_N (writer_group_count layout nodes) ++ ")".

(** [spec] is the SDK's reading of the hook's JSON. *)
Definition generate_export_sql (ctx : ExportContext) (spec : result UdfError ExportSpec) : result UdfError string :=
  let? spec := spec in
  let? options := from_spec spec in
  let? _ := require_connection_access ctx (connection_name options) in
  Ok (writer_select (script_schema ctx) (writer_spec_render (connection_name options)) (source_column_names spec) (writers options) (node_count ctx)).

(** ** The writer *)

(** [ctx.next()] over the rows left of a group. *)
Fixpoint count_next {A} (rows : list A) (counted : N) : N := match rows with [] => counted | _ :: rows => count_next rows (counted + 1)%N end.

(** One writer over its group; each row carries its first argument. *)
Definition run_writer (ctx : ExportContext) (group : list (result string (option string))) : result UdfError N :=
  match group with
  | [] => Ok 0%N
  | first :: rest =>
      let? connection := writer_spec_read first in
      let? _ := require_connection_access ctx connection in
      Ok (count_next rest 1)
  end.

(** ** Every row reaches one writer *)

Lemma insert_one_group {A} (m : N) (r : A) (f : N -> list A) keys : NoDup keys -> m ∈ keys ->
  List.concat (map (fun g => if (m =? g)%N then r :: f g else f g) keys) ≡ₚ r :: List.concat (map f keys).
Proof.
  intros Hd Hm. induction keys as [|g keys IH]; [by apply elem_of_nil in Hm|]. apply NoDup_cons in Hd as [Hn Hd]. cbn [map List.concat].
  destruct (N.eqb_spec m g) as [->|Hne].
  - cbn. f_equiv. f_equiv. clear -Hn. induction keys as [|h keys IH]; [done|]. apply not_elem_of_cons in Hn as [Hgh Hn]. cbn. apply N.eqb_neq in Hgh as ->. by rewrite IH.
  - apply elem_of_cons in Hm as [->|Hm]; [done|]. rewrite IH by done. symmetry. apply Permutation_middle.
Qed.

Lemma key_range groups k : (0 < groups)%N -> (k mod groups)%N ∈ group_keys groups.
Proof.
  intros H. apply list_elem_of_fmap. exists (N.to_nat (k mod groups)). split; [by rewrite N2Nat.id|].
  apply elem_of_seq. assert (Hlt : (k mod groups < groups)%N) by (apply N.mod_lt; intros ->; by apply N.lt_irrefl in H). clear H. revert Hlt. generalize (k mod groups)%N. lia.
Qed.

Lemma keys_distinct groups : NoDup (group_keys groups).
Proof. apply (NoDup_fmap_2 N.of_nat), NoDup_seq. Qed.

Lemma spread_perm {A} groups (rows : list A) k : (0 < groups)%N -> List.concat (map (fun g => group_rows groups g k rows) (group_keys groups)) ≡ₚ rows.
Proof.
  intros Hg. revert k. induction rows as [|r rows IH]; intros k; cbn [group_rows].
  - induction (group_keys groups); [done|]. done.
  - rewrite (insert_one_group (k mod groups) r (fun g => group_rows groups g (k + 1) rows)) by auto using keys_distinct, key_range. by rewrite IH.
Qed.

Lemma count_next_length {A} (rows : list A) n : count_next rows n = (n + N.of_nat (List.length rows))%N.
Proof. revert n. induction rows as [|r rows IH]; intros n; cbn; [lia|]. rewrite IH. lia. Qed.

(** serde_json reads back the writer spec it prints. *)
Hypothesis spec_reads_back : forall connection, parse (writer_spec_render connection) = Some (json_object [("connection", JString connection)]).

Lemma occupied_concat {A} (groups : list (list A)) : List.concat (occupied groups) = List.concat groups.
Proof. induction groups as [|[|x g] groups IH]; [done|done|]. change (occupied ((x :: g) :: groups)) with ((x :: g) :: occupied groups). cbn [List.concat]. by rewrite IH. Qed.

Lemma occupied_length {A} (groups : list (list A)) : (List.length (occupied groups) <= List.length groups)%nat.
Proof. apply List.filter_length_le. Qed.

(** The source columns in the argument list. *)
Definition listed (columns : list string) : string := String.concat "" (map (fun c => ", " ++ c) columns).

Lemma join_listed x columns : join ", " (x :: columns) = x ++ listed columns.
Proof.
  unfold listed. revert x. induction columns as [|c columns IH]; intros x; [by rewrite string_app_nil_r|]. rewrite join_cons, IH by done. cbn [map].
  destruct columns; [by rewrite !string_app_nil_r|]. done.
Qed.

(** The statement as the database reads it. *)
Lemma writer_statement schema text columns layout nodes :
  exists tail, writer_select schema text columns layout nodes = "SELECT " ++ (exasol_quote_ident schema ++ "." ++ exasol_quote_ident EXPORT_SCRIPT_NAME) ++ "(" ++ tail
    /\ read_literal tail = Some (text, grouped_tail (listed columns) (writer_group_count layout nodes)).
Proof.
  exists (sql_string_literal text ++ grouped_tail (listed columns) (writer_group_count layout nodes)). split.
  - unfold writer_select, grouped_tail. rewrite join_listed, !string_app_assoc. done.
  - apply read_escaped. unfold grouped_tail, listed. destruct columns as [|c columns]; [done|]. cbn [map]. by destruct columns.
Qed.

(** C39. An accepted export hands every source row to exactly one writer. The statement
    calls the export script with, as the first argument the database reads, a spec from
    which the writer reads back the CONNECTION the statement named and may access, and
    then every source column in order. In any database that groups FROM DUAL GROUP BY
    MOD(ROWNUM, G) as Exasol documents, the writers' rows together are the source rows,
    each once, each with that spec and the values of all source columns; there are at most
    300 writers; and each returns the number of its rows, so that the counts add up to the
    rows of the source. *)
Theorem export_hands_each_row_to_one_writer ctx spec sql {R V}
    {DB : ExportDatabase (exasol_quote_ident (script_schema ctx) ++ "." ++ exasol_quote_ident EXPORT_SCRIPT_NAME) R V} (rows : list R) :
  generate_export_sql ctx (Ok spec) = Ok sql ->
  exists options text,
    from_spec spec = Ok options /\ has_connection ctx (connection_name options) = Ok tt
    /\ writer_spec_read (Ok (Some text)) = Ok (connection_name options)
    /\ let groups := export_groups sql rows in
       (N.of_nat (List.length groups) <= MAX_GROUP_COUNT)%N
       /\ List.concat groups ≡ₚ map (fun r => (text, argument_values (listed (source_column_names spec)) r)) rows
       /\ Forall (fun group => run_writer ctx (map (fun row => Ok (Some row.1)) group) = Ok (N.of_nat (List.length group))) groups.
Proof.
  unfold generate_export_sql. destruct (from_spec spec) as [options|] eqn:Ef; [|done]. cbn. unfold require_connection_access.
  destruct (has_connection ctx (connection_name options)) as [[]|] eqn:Ec; [|done]. cbn. intros [= <-].
  set (text := writer_spec_render (connection_name options)).
  assert (Hread : writer_spec_read (Ok (Some text)) = Ok (connection_name options)).
  { unfold writer_spec_read, text. rewrite spec_reads_back. done. }
  set (count := writer_group_count (writers options) (node_count ctx)).
  assert (Hrange : (1 <= count <= MAX_GROUP_COUNT)%N).
  { unfold count, writer_group_count. destruct (writers options); [unfold MAX_GROUP_COUNT; lia|]. apply group_count_range. }
  exists options, text. split; [done|]. split; [done|]. split; [done|].
  destruct (writer_statement (script_schema ctx) text (source_column_names spec) (writers options) (node_count ctx)) as (tail & Hsql & Htail).
  destruct (group_by_rownum _ _ _ _ _ rows Hsql Hrange Htail) as (numbered & Hn & Hg). fold count in Hg. cbv zeta. rewrite Hg. split_and!.
  - rewrite length_map. pose proof (occupied_length (spread count numbered)) as Hl. unfold spread in Hl at 2. rewrite length_map in Hl. unfold group_keys in Hl. rewrite length_map, length_seq in Hl. lia.
  - rewrite <- concat_map, occupied_concat. apply fmap_Permutation. rewrite <- Hn. apply spread_perm. lia.
  - apply Forall_map, Forall_forall. intros group Hin. rewrite length_map, map_map. cbn [fst]. destruct group as [|first more]; [done|]. cbn [map].
    unfold run_writer. rewrite Hread. cbn. unfold require_connection_access. rewrite Ec. cbn. rewrite count_next_length, length_map. f_equal. lia.
Qed.
End Writer.

(** ** At work *)

(** A printer of the writer's documents, marked so that they are recognised. *)
Definition tagged_print (j : Json) : string := match j with JObject [(_, JString s)] => String "c" s | _ => "" end.
Definition tagged_parse (text : string) : option Json := match text with String _ s => Some (json_object [("connection", JString s)]) | EmptyString => None end.
Definition sale_export : ExportSpec :=
  MkExportSpec false false None None None [("CATALOG_CONNECTION", "LAKE"); ("TABLE_NAME", "shop.sales"); ("WRITERS_PER_NODE", "2")] ["T.A"].
Definition sale_context : ExportContext := MkExportContext (fun _ => Ok tt) "S" None 2.

(** A database that numbers the rows as they come. It finds the statement's group count by
    trying each. *)
Definition reads_tail (rest : string) : option (string * N) :=
  head (omap (fun g => (fun args => (args, g)) <$> strip_suffix (grouped_tail "" g) rest) (map N.of_nat (seq 1 300))).
Definition counting_groups (script sql : string) (rows : list nat) : list (list (string * list nat)) :=
  default [] (tail ← strip_prefix ("SELECT " ++ script ++ "(") sql; '(text, rest) ← read_literal tail; '(args, g) ← reads_tail rest;
              Some (map (map (fun r => (text, [String.length args; r]))) (occupied (spread g rows)))).

Lemma string_app_inv_r a b suf : a ++ suf = b ++ suf -> a = b.
Proof.
  revert b. induction a as [|c a IH]; intros [|d b] E; [done|apply (f_equal String.length) in E; rewrite string_app_cons, string_app_nil_l in E; cbn in E; rewrite string_length_app in E; lia..|].
  rewrite !string_app_cons in E. injection E as -> E. by rewrite (IH b E).
Qed.

Lemma strip_suffix_app a suf : strip_suffix suf (a ++ suf) = Some a.
Proof.
  induction a as [|c a IH].
  - rewrite string_app_nil_l. destruct suf; cbn [strip_suffix]; [done|]. by rewrite String.eqb_refl.
  - rewrite string_app_cons. cbn [strip_suffix]. destruct (String.eqb_spec (String c (a ++ suf)) suf) as [E|]; [|by rewrite IH].
    apply (f_equal String.length) in E. cbn in E. rewrite string_length_app in E. lia.
Qed.

Lemma strip_suffix_spec suf s a : strip_suffix suf s = Some a -> s = a ++ suf.
Proof.
  revert a. induction s as [|c s IH]; intros a; cbn [strip_suffix].
  - destruct (String.eqb_spec "" suf) as [<-|]; [by intros [= <-]|done].
  - destruct (String.eqb_spec (String c s) suf) as [<-|]; [by intros [= <-]|]. destruct (strip_suffix suf s) as [b|]; [|done].
    intros [= <-]. by rewrite string_app_cons, <- (IH b eq_refl).
Qed.

Lemma last_space x y d e : string_forallb is_ascii_digit d = true -> string_forallb is_ascii_digit e = true ->
  x ++ String " " (d ++ ")") = y ++ String " " (e ++ ")") -> d = e.
Proof.
  assert (Hno : forall d y e, string_forallb is_ascii_digit d = true -> d ++ ")" <> y ++ String " " (e ++ ")")).
  { clear. induction d as [|c d IH]; intros y e Hd E; [destruct y as [|? [|]]; done|]. cbn in Hd. apply andb_prop in Hd as [Hc Hd].
    destruct y as [|c' y]; rewrite ?string_app_cons, ?string_app_nil_l in E; injection E as Ec E; [by rewrite Ec in Hc|by apply IH in E]. }
  intros Hd He. revert y. induction x as [|c x IH]; intros [|c' y] E; rewrite ?string_app_cons, ?string_app_nil_l in E.
  - injection E as E. by apply string_app_inv_r in E.
  - injection E as _ E. by apply Hno in E.
  - injection E as _ E. symmetry in E. by apply Hno in E.
  - injection E as _ E. by apply IH in E.
Qed.

Lemma reads_grouped_tail args g : (1 <= g <= MAX_GROUP_COUNT)%N -> reads_tail (grouped_tail args g) = Some (args, g).
Proof.
  intros Hg. unfold reads_tail.
  assert (Hsplit : forall args g, grouped_tail args g = args ++ grouped_tail "" g) by done.
  assert (Hone : forall g', is_Some (strip_suffix (grouped_tail "" g') (grouped_tail args g)) -> g' = g).
  { intros g' [a Ha%strip_suffix_spec]. unfold grouped_tail in Ha. rewrite !string_app_nil_l in Ha. apply show_N_inj.
    symmetry. apply (last_space (args ++ ") FROM DUAL GROUP BY MOD(ROWNUM,") (a ++ ") FROM DUAL GROUP BY MOD(ROWNUM,")); [apply show_N_digits..|].
    rewrite !string_app_assoc. exact Ha. }
  assert (Hin : g ∈ map N.of_nat (seq 1 300)).
  { apply list_elem_of_fmap. exists (N.to_nat g). split; [by rewrite N2Nat.id|]. apply elem_of_seq. unfold MAX_GROUP_COUNT in Hg. lia. }
  induction (map N.of_nat (seq 1 300)) as [|g' l IH]; [by apply elem_of_nil in Hin|]. cbn [omap list_omap].
  destruct (strip_suffix (grouped_tail "" g') (grouped_tail args g)) as [a|] eqn:Es; cbn [fmap option_fmap option_map head].
  - assert (g' = g) as -> by (apply Hone; by rewrite Es). rewrite (Hsplit args g), strip_suffix_app in Es. by injection Es as <-.
  - apply IH. apply elem_of_cons in Hin as [->|?]; [|done]. by rewrite (Hsplit args g'), strip_suffix_app in Es.
Qed.

Lemma counting_groups_law script tail text args g (rows : list nat) :
  (1 <= g <= MAX_GROUP_COUNT)%N -> read_literal tail = Some (text, grouped_tail args g) ->
  counting_groups script ("SELECT " ++ script ++ "(" ++ tail) rows = map (map (fun r => (text, [String.length args; r]))) (occupied (spread g rows)).
Proof.
  intros Hg Hr. unfold counting_groups.
  assert (E : strip_prefix ("SELECT " ++ script ++ "(") ("SELECT " ++ script ++ "(" ++ tail) = Some tail).
  { replace ("SELECT " ++ script ++ "(" ++ tail) with (("SELECT " ++ script ++ "(") ++ tail) by by rewrite !string_app_assoc. apply strip_prefix_app. }
  rewrite E. unfold mbind, option_bind. rewrite Hr, reads_grouped_tail by done. reflexivity.
Qed.

Definition counting_database (script : string) : ExportDatabase script nat nat.
Proof.
  refine {| argument_values args r := [String.length args; r]; export_groups := counting_groups script |}.
  intros sql tail text args groups rows -> Hg Hr. exists rows. split; [reflexivity|]. rewrite (counting_groups_law script tail text args groups rows Hg Hr). reflexivity.
Defined.

Lemma export_hands_each_row_to_one_writer_witness :
  exists sql, generate_export_sql tagged_print sale_context (Ok sale_export) = Ok sql
    /\ let groups := export_groups (ExportDatabase := counting_database (exasol_quote_ident "S" ++ "." ++ exasol_quote_ident EXPORT_SCRIPT_NAME)) sql [1; 2; 3; 4; 5; 6]%nat in
       (N.of_nat (List.length groups) <= MAX_GROUP_COUNT)%N
       /\ Forall (fun group => run_writer tagged_parse sale_context (map (fun row => Ok (Some row.1)) group) = Ok (N.of_nat (List.length group))) groups.
Proof.
  eexists. split; [vm_compute; reflexivity|].
  destruct (export_hands_each_row_to_one_writer tagged_print tagged_parse ltac:(done) sale_context sale_export _
    (DB := counting_database (exasol_quote_ident "S" ++ "." ++ exasol_quote_ident EXPORT_SCRIPT_NAME)) [1; 2; 3; 4; 5; 6]%nat eq_refl)
    as (options & text & _ & _ & _ & H1 & _ & H3).
  exact (conj H1 H3).
Defined.
