(* ===== verification/ScanSql.v ===== *)
(** The SQL a scan runs over its registered files: crates/lakehouse-engine/src/scan/
    sql_support.rs, the statement builders of raw_scan.rs and join_scan.rs, and the
    aliased relation of partial_agg.rs. A registered table is its schema. *)

From stdpp Require Import base list strings numbers gmap.
From Stdlib Require Import Ascii String NArith Lia.
From S2P Require Import Prelude ExasolType ArrowTypes TypeMapping ExasolRules Render RenderSafety ScanSpec BinaryFilter AggPlans CommonSpec Rendering.

Local Open Scope string_scope.

Notation quote_ident := exasol_quote_ident.

Definition NESTED_JSON_RENDER_UDF_NAME : string := "lakehouse_render_nested_json".
Definition SCAN_TARGET : string := "scan_target".
Definition JOIN_FACT_TABLE : string := "fact_scan".
Definition JOIN_DIM_TABLE : string := "dim_scan".

Section Sql.
Context {UC : UnicodeCase}.

(** ** sql_support.rs *)

Definition variable_binary (t : DataType) : bool := match t with TBinary | TLargeBinary | TBinaryView => true | _ => false end.

Definition alias_item (binary_as_string : bool) (f : Field) : string :=
  let column := quote_ident (field_name f) in
  let alias := to_uppercase (field_name f) in
  let label := replace_char sq_char "''" alias in
  if variable_binary (field_type f) && binary_as_string then
    BINARY_TEXT_UDF_NAME ++ "(" ++ column ++ ", '" ++ label ++ "') AS " ++ quote_ident alias
  else if is_binary (field_type f) then
    BINARY_HEX_UDF_NAME ++ "(" ++ column ++ ", '" ++ label ++ "') AS " ++ quote_ident alias ++ ", " ++ column ++ " AS "
    ++ quote_ident (raw_bytes_alias alias)
  else column ++ " AS " ++ quote_ident alias.

Definition build_alias_items (schema : list Field) (binary_as_string : bool) : list string := map (alias_item binary_as_string) schema.

Definition aliased_select (table_name : string) (schema : list Field) (binary_as_string : bool) : string :=
  "SELECT " ++ join ", " (build_alias_items schema binary_as_string) ++ " FROM " ++ table_name.

Definition render_column (column : ColumnRef) (data_type : option DataType) : string :=
  let name := quote_ident (to_uppercase (name column)) in
  let ident := match relation column with Some relation => quote_ident relation ++ "." ++ name | None => name end in
  match data_type with
  | Some dt =>
      if is_binary dt then ident
      else if needs_nested_json_rendering dt then NESTED_JSON_RENDER_UDF_NAME ++ "(" ++ ident ++ ")"
      else if needs_json_fallback dt then "CAST(" ++ ident ++ " AS VARCHAR)"
      else ident
  | None => ident
  end.

(** The name an item is given, when it is given one. *)
Definition item_label (i : nat) (item : ProjectionItem) : option string :=
  match item with
  | PExpr _ => Some ("_LH_PROJ_" ++ show_nat i)
  | PColumn column => match relation column with Some _ => Some (output_name column) | None => None end
  end.

Definition item_text (column_type : ColumnRef -> option DataType) (item : ProjectionItem) : string :=
  match item with PExpr expr => expr | PColumn column => render_column column (column_type column) end.

Definition render_item (column_type : ColumnRef -> option DataType) (i : nat) (item : ProjectionItem) : string :=
  match item_label i item with
  | Some label => item_text column_type item ++ " AS " ++ quote_ident label
  | None => item_text column_type item
  end.

Definition render_projection (items : list ProjectionItem) (column_type : ColumnRef -> option DataType) : string :=
  join ", " (imap (render_item column_type) items).

(** ** raw_scan.rs *)

(** [ctx.table(name)]: the schema of a registered table. *)
Context (table : string -> result string (list Field)).
Context {F : Type}.

Definition full_row (schema : list Field) : list ProjectionItem := map (fun f => PColumn (bare (to_uppercase (field_name f)))) schema.

Definition type_by_name (schema : list Field) (column : ColumnRef) : option DataType :=
  let lower := to_lowercase (name column) in
  field_type <$> List.find (fun f => String.eqb (to_lowercase (field_name f)) lower) schema.

Definition append_order_by (sql : string) (elements : list string) : string :=
  match elements with [] => sql | _ => sql ++ " ORDER BY " ++ join ", " elements end.

Definition append_limit (sql : string) (limit : option N) : string := match limit with Some n => sql ++ " LIMIT " ++ show_N n | None => sql end.

Definition build_scan_sql (table_name : string) (spec : ScanSpec F) : result UdfError string :=
  match table table_name with
  | Err e => Err (User ("cannot resolve registered table: " ++ e))
  | Ok schema =>
      let inner := aliased_select table_name schema (binary_as_string (common spec)) in
      let proj_items := match projection (common spec) with [] => full_row schema | items => items end in
      let select_clause := render_projection proj_items (type_by_name schema) in
      let sql := append_where ("SELECT " ++ select_clause ++ " FROM (" ++ inner ++ ")") (filter_sql (common spec)) in
      let sql := append_order_by sql (map render_order_by_element (order_by (common spec))) in
      Ok (append_limit sql (limit (common spec)))
  end.

(** ** join_scan.rs *)

Definition projected_columns (items : list ProjectionItem) : list ColumnRef :=
  omap (fun item => match item with PColumn column => Some column | PExpr _ => None end) items.

Definition ensure_join_columns_are_qualified (spec : ScanSpec F) (j : JoinSpec) : result UdfError unit :=
  match projection (common spec) with
  | [] => Err (User "join scan spec carries an empty projection; it must name at least one column")
  | items =>
      match List.find (fun c => match relation c with None => true | Some _ => false end)
              (projected_columns items ++ map sort_column (post_join_order_by j))%list with
      | Some column => Err (User ("join scan spec column " ++ name column ++ " carries no relation alias"))
      | None => Ok tt
      end
  end.

Definition relation_fields (alias : string) (schema : list Field) : list (ColumnRef * DataType) :=
  map (fun f => (qualified alias (to_uppercase (field_name f)), field_type f)) schema.

Definition combined_upper_fields (dim fact : string * list Field) : list (ColumnRef * DataType) :=
  (relation_fields dim.1 dim.2 ++ relation_fields fact.1 fact.2)%list.

Definition combined_type (combined : list (ColumnRef * DataType)) (column : ColumnRef) : option DataType :=
  let upper := MkColumnRef (relation column) (to_uppercase (name column)) in
  snd <$> List.find (fun kv => bool_decide (kv.1 = upper)) combined.

Definition render_join_sort_target (column : ColumnRef) (combined : list (ColumnRef * DataType)) : string :=
  let data_type := combined_type combined column in
  let emitted := render_column column data_type in
  match data_type with
  | Some (TFloat32 | TFloat64) => "CASE WHEN isnan(" ++ emitted ++ ") THEN NULL ELSE " ++ emitted ++ " END"
  | Some dt => if is_character (arrow_to_exasol_type dt) then "nullif(" ++ emitted ++ ", '')" else emitted
  | None => emitted
  end.

(** The source expects a join block here: [None] stands for its panic. *)
Definition build_join_sql (fact_table dim_table : string) (spec : ScanSpec F) : option (result UdfError string) :=
  match join_spec (common spec) with
  | None => None
  | Some j => Some (
      let? _ := ensure_join_columns_are_qualified spec j in
      let? fact_schema := match table fact_table with Ok s => Ok s | Err e => Err (User ("cannot resolve registered fact table: " ++ e)) end in
      let? dim_schema := match table dim_table with Ok s => Ok s | Err e => Err (User ("cannot resolve registered dimension table: " ++ e)) end in
      let fact_aliased := aliased_select fact_table fact_schema (binary_as_string (common spec)) in
      let dim_aliased := aliased_select dim_table dim_schema (binary_as_string (common spec)) in
      let combined := combined_upper_fields (dimension_alias j, dim_schema) (fact_alias j, fact_schema) in
      let select_clause := render_projection (projection (common spec)) (combined_type combined) in
      let sql := "SELECT " ++ select_clause ++ " FROM (" ++ dim_aliased ++ ") AS " ++ quote_ident (dimension_alias j)
        ++ " INNER JOIN (" ++ fact_aliased ++ ") AS " ++ quote_ident (fact_alias j) ++ " ON " ++ condition j in
      let sql := append_where sql (filter_sql (common spec)) in
      let sql := append_order_by sql
        (map (fun key => SortKey_render_ordered key (render_join_sort_target (sort_column key) combined)) (post_join_order_by j)) in
      Ok (append_limit sql (post_join_limit j)))
  end.

(** ** partial_agg.rs *)

Definition aliased_scan_target (spec : ScanSpec F) : result UdfError string :=
  match table SCAN_TARGET with
  | Err e => Err (User ("cannot resolve registered table: " ++ e))
  | Ok schema => Ok (aliased_select SCAN_TARGET schema (binary_as_string (common spec)))
  end.

Definition build_partial_sql (spec : ScanSpec F) (aggregates : list AggregatePlan) : result UdfError string :=
  let? aliased_table := aliased_scan_target spec in
  Ok match spec_group_keys (common spec) with
     | Some ((_ :: _) as group_keys) => build_grouped_partial_agg_sql group_keys aggregates aliased_table (filter_sql (common spec))
     | _ => build_partial_agg_sql_filtered aggregates aliased_table (filter_sql (common spec))
     end.

(** ** No name escapes its quotes *)

Lemma closed_exasol_ident s : sql_closed (quote_ident s).
Proof using Type. unfold exasol_quote_ident. closed. Qed.

Lemma lex_label s k : lex (InString, k) (replace_char sq_char "''" s) = Some (InString, k).
Proof using Type. apply lex_in_string. Qed.

(** The pieces of a statement that come from a name. *)
Ltac name_closed := match goal with |- context [quote_ident ?s] => let H := fresh in pose proof (closed_exasol_ident s) as H; generalize dependent (quote_ident s); intros end.

Lemma alias_item_closed b f : sql_closed (alias_item b f).
Proof using Type.
  unfold alias_item, BINARY_TEXT_UDF_NAME, BINARY_HEX_UDF_NAME. cbv zeta. repeat name_closed.
  destruct (_ && _); [|destruct (is_binary _)]; intros k; repeat (first [rewrite lex_label|progress lex_run]); done.
Qed.

Lemma aliased_select_closed t schema b : sql_closed t -> sql_closed (aliased_select t schema b).
Proof using Type.
  intros Ht. unfold aliased_select. assert (H : sql_closed (join ", " (build_alias_items schema b))).
  { apply closed_join; [closed|]. unfold build_alias_items. apply Forall_map, Forall_forall. intros f _. apply alias_item_closed. }
  generalize dependent (join ", " (build_alias_items schema b)). intros. closed.
Qed.

Lemma render_column_closed c t : sql_closed (render_column c t).
Proof using Type.
  unfold render_column, NESTED_JSON_RENDER_UDF_NAME. cbv zeta. destruct (relation c); repeat name_closed;
    (destruct t as [dt|]; [destruct (is_binary dt); [|destruct (needs_nested_json_rendering dt); [|destruct (needs_json_fallback dt)]]|]); closed.
Qed.

Definition item_closed (item : ProjectionItem) : Prop := match item with PExpr e => sql_closed e | PColumn _ => True end.

Lemma render_projection_closed items ct : Forall item_closed items -> sql_closed (render_projection items ct).
Proof using Type.
  intros Hi. apply closed_join; [closed|]. apply Forall_forall. intros s (i & item & -> & Hl)%elem_of_lookup_imap.
  rewrite Forall_lookup in Hi. specialize (Hi i item Hl). unfold render_item.
  assert (Ht : sql_closed (item_text ct item)) by (destruct item; [exact Hi|apply render_column_closed]).
  destruct (item_label i item); [|done]. name_closed. closed.
Qed.

Lemma append_where_closed sql f : sql_closed sql -> (forall t, f = Some t -> sql_closed t) -> sql_closed (append_where sql f).
Proof using Type. intros Hs Hf. destruct f as [t|]; cbn; [|done]. destruct (String.eqb t ""); [done|]. specialize (Hf t eq_refl). closed. Qed.

Lemma append_order_by_closed sql elements : sql_closed sql -> Forall sql_closed elements -> sql_closed (append_order_by sql elements).
Proof using Type.
  intros Hs He. unfold append_order_by. destruct elements as [|e l] eqn:E; [done|]. rewrite <- E in *.
  pose proof (closed_join ", " elements ltac:(closed) He). generalize dependent (join ", " elements). intros. closed.
Qed.

Lemma append_limit_closed sql n : sql_closed sql -> sql_closed (append_limit sql n).
Proof using Type. intros Hs. destruct n as [n|]; cbn; [|done]. pose proof (closed_show_N n). closed. Qed.

Lemma render_ordered_closed key e : sql_closed e -> sql_closed (SortKey_render_ordered key e).
Proof using Type. intros He. unfold SortKey_render_ordered, render_ordered. destruct (ascending key), (nulls_last key); closed. Qed.

Lemma sort_target_closed c combined : sql_closed (render_join_sort_target c combined).
Proof using Type.
  unfold render_join_sort_target. cbv zeta. pose proof (render_column_closed c (combined_type combined c)) as H.
  generalize dependent (render_column c (combined_type combined c)). intros e H. destruct (combined_type combined c) as [dt|]; [|done].
  destruct dt; try (destruct (is_character _)); closed.
Qed.

Lemma closed_quoted_name s : plain s = true -> sql_closed (quoted s).
Proof using Type.
  intros Hp. unfold quoted. intros k. rewrite !lex_app. cbn [lex lex_step lex_plain dq Ascii.eqb Bool.eqb sq_char dq_char].
  assert (H : lex (InIdent, k) s = Some (InIdent, k)).
  { clear -Hp. induction s as [|c s IH]; [done|]. cbn in Hp |- *. apply andb_prop in Hp as [Hc Hs]. unfold plain_char in Hc.
    apply negb_true_iff in Hc. rewrite !orb_false_iff in Hc. destruct Hc as [[[[[_ Hd] _] _] _] _]. fold dq_char in Hd. rewrite Hd. by apply IH. }
  rewrite lex_app, H. done.
Qed.

Definition plan_closed (p : AggregatePlan) : Prop := forall e, arg_expr p = Some e -> sql_closed e.

Lemma agg_arg_closed p : plan_closed p -> sql_closed (agg_arg_sql p).
Proof using Type. intros H. unfold agg_arg_sql. destruct (arg_expr p) as [e|] eqn:E; [by apply H|apply closed_exasol_ident]. Qed.

Lemma partial_items_closed p i : plan_closed p -> Forall sql_closed (partial_select_items p i).
Proof using Type.
  intros H%agg_arg_closed. unfold partial_select_items. apply Forall_map, Forall_forall. intros c _.
  assert (Hn : sql_closed (quoted (partial_column_name c i))).
  { apply closed_quoted_name. unfold partial_column_name. unfold plain. rewrite ?string_forallb_app.
    pose proof (plain_show_N (N.of_nat i)) as Hp. unfold plain in Hp. unfold show_nat. destruct c; cbn [string_forallb]; rewrite ?string_forallb_app, ?Hp; reflexivity. }
  generalize dependent (agg_arg_sql p). generalize dependent (quoted (partial_column_name c i)). intros q Hq a Ha. unfold partial_select_expr. destruct c; closed.
Qed.

(** What the statement splices in verbatim: the filter, the rendered expressions, the
    join condition, the aggregates' arguments and the group keys. *)
Record spliced_closed (spec : ScanSpec F) : Prop := {
  sc_filter : forall f, filter_sql (common spec) = Some f -> sql_closed f;
  sc_items : Forall item_closed (projection (common spec));
  sc_condition : forall j, join_spec (common spec) = Some j -> sql_closed (condition j);
  sc_plans : forall l, aggregates (common spec) = Some l -> Forall plan_closed l;
  sc_keys : forall l, spec_group_keys (common spec) = Some l -> Forall sql_closed l;
}.

Lemma build_scan_sql_closed spec t sql : spliced_closed spec -> sql_closed t -> build_scan_sql t spec = Ok sql -> sql_closed sql.
Proof using Type.
  intros Hs Ht. unfold build_scan_sql. destruct (table t) as [schema|]; [|done]. intros [= <-]. cbv zeta.
  apply append_limit_closed, append_order_by_closed.
  - apply append_where_closed; [|apply Hs].
    assert (Hp : sql_closed (render_projection match projection (common spec) with [] => full_row schema | items => items end (type_by_name schema))).
    { apply render_projection_closed. pose proof (sc_items _ Hs). destruct (projection (common spec)); [|done].
      unfold full_row. apply Forall_map, Forall_forall. done. }
    pose proof (aliased_select_closed t schema (binary_as_string (common spec)) Ht) as Ha.
    generalize dependent (render_projection match projection (common spec) with [] => full_row schema | items => items end (type_by_name schema)).
    generalize dependent (aliased_select t schema (binary_as_string (common spec))). intros. closed.
  - apply Forall_map, Forall_forall. intros key _. apply render_ordered_closed. fold (quote_ident (output_name (sort_column key))). apply closed_exasol_ident.
Qed.

Lemma build_join_sql_closed spec ft dt sql : spliced_closed spec -> sql_closed ft -> sql_closed dt -> build_join_sql ft dt spec = Some (Ok sql) -> sql_closed sql.
Proof using Type.
  intros Hs Hf Hd. unfold build_join_sql. destruct (join_spec (common spec)) as [j|] eqn:Ej; [|done].
  destruct (ensure_join_columns_are_qualified spec j); [|done]. destruct (table ft) as [fs|]; [|done]. destruct (table dt) as [ds|]; [|done].
  cbv zeta. intros [= <-]. apply append_limit_closed, append_order_by_closed.
  - apply append_where_closed; [|apply Hs]. pose proof (sc_condition _ Hs j Ej) as Hc.
    pose proof (render_projection_closed _ (combined_type (combined_upper_fields (dimension_alias j, ds) (fact_alias j, fs))) (sc_items _ Hs)) as Hp.
    pose proof (aliased_select_closed ft fs (binary_as_string (common spec)) Hf) as Hfa. pose proof (aliased_select_closed dt ds (binary_as_string (common spec)) Hd) as Hda.
    generalize dependent (render_projection (projection (common spec)) (combined_type (combined_upper_fields (dimension_alias j, ds) (fact_alias j, fs)))).
    generalize dependent (aliased_select ft fs (binary_as_string (common spec))). generalize dependent (aliased_select dt ds (binary_as_string (common spec))).
    generalize dependent (condition j). intros. repeat name_closed. closed.
  - apply Forall_map, Forall_forall. intros key _. apply render_ordered_closed, sort_target_closed.
Qed.

Lemma build_partial_sql_closed spec aggs sql : spliced_closed spec -> aggregates (common spec) = Some aggs -> build_partial_sql spec aggs = Ok sql -> sql_closed sql.
Proof using Type.
  intros Hs Ha. unfold build_partial_sql, aliased_scan_target. destruct (table SCAN_TARGET) as [schema|]; [|done]. intros [= <-].
  pose proof (aliased_select_closed SCAN_TARGET schema (binary_as_string (common spec)) ltac:(unfold SCAN_TARGET; closed)) as Ht.
  assert (Hi : Forall sql_closed (List.concat (imap (fun i plan => partial_select_items plan i) aggs))).
  { apply Forall_concat, Forall_forall. intros l (i & p & -> & Hp)%elem_of_lookup_imap. apply partial_items_closed.
    pose proof (sc_plans _ Hs aggs Ha) as Hp'. rewrite Forall_lookup in Hp'. by eapply Hp'. }
  assert (Hsel : forall keys, Forall sql_closed keys -> sql_closed (append_where ("SELECT "
    ++ join ", " (keys ++ List.concat (imap (fun i plan => partial_select_items plan i) aggs))%list ++ " FROM (" ++ aliased_select SCAN_TARGET schema (binary_as_string (common spec)) ++ ")") (filter_sql (common spec)))).
  { intros keys Hk. apply append_where_closed; [|apply Hs]. pose proof (closed_join ", " _ ltac:(closed) (Forall_app_2 _ _ _ Hk Hi)) as Hj.
    generalize dependent (aliased_select SCAN_TARGET schema (binary_as_string (common spec))).
    generalize dependent (join ", " (keys ++ List.concat (imap (fun i plan => partial_select_items plan i) aggs))%list). intros. closed. }
  destruct (spec_group_keys (common spec)) as [[|key keys]|] eqn:Ek; try (apply (Hsel []); constructor).
  pose proof (sc_keys _ Hs _ Ek) as Hk. pose proof (Hsel _ Hk) as Hw. pose proof (closed_join ", " _ ltac:(closed) Hk) as Hj.
  unfold build_grouped_partial_agg_sql. generalize dependent (join ", " (key :: keys)). intros. 
  match goal with |- sql_closed (?a ++ _) => generalize dependent a end. intros. closed.
Qed.

(** C30. No name reaches the scan's SQL unescaped: whatever the columns of the files, the
    relation aliases and the sort keys are called, the raw, the join and both aggregate
    statements are closed token sequences without comments, given that the texts of the
    spec that the statement takes over verbatim - the filter, the projected expressions,
    the join condition, the aggregates' arguments and the group keys - are. *)
Theorem scan_statements_closed spec : spliced_closed spec ->
  (forall sql, build_scan_sql SCAN_TARGET spec = Ok sql -> sql_closed sql)
  /\ (forall sql, build_join_sql JOIN_FACT_TABLE JOIN_DIM_TABLE spec = Some (Ok sql) -> sql_closed sql)
  /\ (forall aggs sql, aggregates (common spec) = Some aggs -> build_partial_sql spec aggs = Ok sql -> sql_closed sql).
Proof using Type.
  intros Hs. split_and!.
  - intros sql. apply build_scan_sql_closed; [done|]. unfold SCAN_TARGET. closed.
  - intros sql. apply build_join_sql_closed; [done| |]; unfold JOIN_FACT_TABLE, JOIN_DIM_TABLE; closed.
  - intros aggs sql. by apply build_partial_sql_closed.
Qed.

(** ** No two columns of a join's result share a name *)

Lemma output_name_delimited i n : output_name (qualified (relation_alias i) n) = "LHS_T" ++ show_nat i ++ String "_" n.
Proof using Type. unfold output_name, relation_alias. cbn [relation name qualified]. by rewrite string_app_assoc. Qed.

Definition of_leg (item : ProjectionItem) : Prop :=
  match item with PExpr _ => True | PColumn c => exists leg, relation c = Some (relation_alias leg) end.

(** The columns a join statement gives back are told apart by name, as DataFusion
    requires: an expression's positional name, a column's leg and name; two items have the
    same label only when they are the same column. *)
Theorem join_labels_distinct items i k a b label :
  Forall of_leg items -> items !! i = Some a -> items !! k = Some b ->
  item_label i a = Some label -> item_label k b = Some label ->
  i = k \/ exists c, a = PColumn c /\ b = PColumn c.
Proof using Type.
  intros Hof Ha Hb. rewrite Forall_lookup in Hof. pose proof (Hof _ _ Ha) as Ga. pose proof (Hof _ _ Hb) as Gb. clear Hof.
  destruct a as [ea|[ra na]], b as [eb|[rb nb]]; cbn [item_label of_leg relation] in *.
  - intros [= <-] [= E]. left. apply string_app_inv_l in E. unfold show_nat in E. apply show_N_inj in E. lia.
  - intros [= <-]. destruct Gb as [leg ->]. done.
  - destruct Ga as [leg ->]. intros [= <-]. done.
  - destruct Ga as [la ->], Gb as [lb ->]. intros [= <-] E. apply (inj Some) in E. right.
    pose proof (output_name_delimited lb nb) as Eb. pose proof (output_name_delimited la na) as Ea. unfold qualified in Ea, Eb. rewrite Ea, Eb in E.
    apply string_app_inv_l in E. unfold show_nat in E. apply show_N_delimited in E as [E1 E2]; [|done..].
    injection E2 as ->. assert (la = lb) as -> by lia. by eexists.
Qed.

End Sql.

(** ** Concrete statements *)

(** A file whose column names try to leave their quotes: a binary column named with a
    quote of each kind, and a nested one. *)
Definition odd_name : string := "a'" ++ dq ++ ") --".
Definition odd_schema : list Field :=
  [MkField odd_name TBinary true ∅; MkField "doc" (TList (MkField "item" TInt32 true ∅)) true ∅; MkField "n" TFloat64 true ∅].
Definition no_storage : ScanStorage := SConnection "C" false.
Definition odd_spec (j : option JoinSpec) (items : list ProjectionItem) : ScanSpec unit :=
  MkScanSpec (MkCommon "s3://b/t" items (Some (dq ++ "N" ++ dq ++ " > 1")) (Some 5%N) [MkSortKey (bare odd_name) true true] None None false [] [] j [] no_storage 1 1 1 tt 0 1 false) [].
Definition odd_join : JoinSpec :=
  MkJoinSpec "s3://b/d" [] [] [] Inner (relation_alias 0) (relation_alias 1) "TRUE" None [MkSortKey (qualified (relation_alias 0) "n") false false] [] no_storage.

Example alias_of_binary : @alias_item ascii_case false (MkField "b" TBinary true ∅)
  = "lakehouse_binary_hex(" ++ dq ++ "b" ++ dq ++ ", 'B') AS " ++ dq ++ "B" ++ dq ++ ", " ++ dq ++ "b" ++ dq ++ " AS " ++ dq ++ "_LH_BYTES_B" ++ dq.
Proof. reflexivity. Qed.

Lemma odd_spliced items : Forall item_closed items -> spliced_closed (odd_spec (Some odd_join) items).
Proof. intros Hi. split; cbn; [intros f [= <-]; closed|done|intros j [= <-]; cbn; closed|done|done]. Qed.

Lemma scan_statements_closed_witness :
  let items := [PColumn (qualified (relation_alias 0) "n"); PExpr "1 + 1"] in
  (exists sql, @build_scan_sql ascii_case (fun _ => Ok odd_schema) unit SCAN_TARGET (odd_spec (Some odd_join) items) = Ok sql /\ sql_closed sql)
  /\ exists sql, @build_join_sql ascii_case (fun _ => Ok odd_schema) unit JOIN_FACT_TABLE JOIN_DIM_TABLE (odd_spec (Some odd_join) items) = Some (Ok sql) /\ sql_closed sql.
Proof.
  intros items.
  destruct (@scan_statements_closed ascii_case (fun _ => Ok odd_schema) unit (odd_spec (Some odd_join) items)
    (odd_spliced items ltac:(repeat constructor; cbn; closed))) as (H1 & H2 & _).
  split; eexists; (split; [vm_compute; reflexivity|]); [apply H1|apply H2]; vm_compute; reflexivity.
Defined.

Lemma join_labels_distinct_witness :
  let a := PColumn (qualified (relation_alias 1) "1_X") in
  let b := PColumn (qualified (relation_alias 11) "X") in
  item_label 0 a <> item_label 1 b.
Proof.
  intros a b E. destruct (join_labels_distinct [a; b] 0 1 a b "LHS_T1_1_X" ltac:(repeat constructor; by eexists) eq_refl eq_refl eq_refl ltac:(rewrite <- E; reflexivity)) as [|(c & Ea & Eb)]; [done|].
  assert (Hab : a = b) by congruence. vm_compute in Hab. discriminate.
Defined.
