(* ===== verification/ScanTable.v ===== *)
(** The table a scan registers for its files: crates/lakehouse-engine/src/scan/
    scan_table.rs, the registration and Parquet options of raw_scan.rs and join_scan.rs,
    and the session options of scan/mod.rs. *)

From stdpp Require Import base list strings numbers gmap.
From Stdlib Require Import Ascii String ZArith NArith Lia Sorted.
From S2P Require Import Prelude Hex ArrowTypes CheckedDiv Redaction Storage ScanSpec ScanFiles CommonSpec SealedStorage ObjectLocation PartitionValues AccessPlan RoaringSets RowDeletes DeleteReads PartitionPredicate Emit StoreRouting ScanSql.
From S2P Require ColumnBinding.

Local Open Scope string_scope.
Local Open Scope Z_scope.

Notation Field := ArrowTypes.Field.
Notation FieldIdResolution := ColumnBinding.FieldIdResolution.

(** ** Read options *)

(** [TableParquetOptions] as far as the scan sets them. *)
Record ParquetOptions := MkOptions {
  coerce_int96 : option string;
  coerce_int96_tz : option string;
  max_in_list_size : N;
  pushdown_filters : bool;
}.

Definition INT96_COERCE_TIME_UNIT : string := "us".
Definition INT96_COERCE_TZ : string := "UTC".

(** [SessionConfig]; [None] leaves DataFusion's default. *)
Record SessionConfig := MkConfig {
  information_schema : bool;
  target_partitions : N;
  batch_size : N;
  parquet_pruning : bool;
  page_index_pruning : bool;
  session_pushdown_filters : bool;
  join_reordering : option bool;
  repartition_joins : option bool;
}.

Section Options.
(** DataFusion's defaults: the Parquet options, and the largest key set a hash join
    pushes into the scan. *)
Context (default_options : ParquetOptions) (inlist_pushdown_max : N).

Definition int96_coerced_parquet_format : ParquetOptions :=
  MkOptions (Some INT96_COERCE_TIME_UNIT) (Some INT96_COERCE_TZ) inlist_pushdown_max (pushdown_filters default_options).

Definition row_filter_pushdown_parquet_format : ParquetOptions :=
  let o := int96_coerced_parquet_format in MkOptions (coerce_int96 o) (coerce_int96_tz o) (max_in_list_size o) true.

Definition scan_table_parquet_format (resolution : FieldIdResolution) : ParquetOptions :=
  if bool_decide (ColumnBinding.nested_by_name resolution = ∅) then row_filter_pushdown_parquet_format else int96_coerced_parquet_format.

Definition renders_nested_json (logical_schema : list LogicalField) : bool :=
  existsb (fun f => match lf_nested f with Some _ => true | None => false end) logical_schema.

Definition scan_renders_nested_json {F} (spec : ScanSpec F) : bool :=
  renders_nested_json (logical_schema (common spec))
  || match join_spec (common spec) with Some j => renders_nested_json (j_logical_schema j) | None => false end.

Definition session_config_for_spec {F} (spec : ScanSpec F) : SessionConfig :=
  let config := MkConfig false (N.max (df_target_partitions (common spec)) 1) (N.max (df_batch_size (common spec)) 1) true true
    (negb (scan_renders_nested_json spec)) in
  match join_spec (common spec) with Some _ => config (Some false) (Some false) | None => config None None end.

(** The permits of the invocation's semaphore. *)
Definition delete_path_read_limiter {F} (spec : ScanSpec F) : N := N.max (s3_max_connections (common spec)) 1.

(** *** Row filters never reach a nested column *)

Lemma index_nested_empty schema : bool_decide (ColumnBinding.index_nested_members schema = ∅) = negb (renders_nested_json schema).
Proof using Type.
  unfold ColumnBinding.index_nested_members, renders_nested_json.
  enough (H : forall m : gmap string NestedMembers, bool_decide (fold_left (fun m lf => match lf_nested lf with Some n => <[lf_name lf := n]> m | None => m end) schema m = ∅)
    = bool_decide (m = ∅) && negb (existsb (fun f => match lf_nested f with Some _ => true | None => false end) schema)) by (by rewrite H).
  induction schema as [|lf schema IH]; intros m; cbn [fold_left existsb]; [by rewrite andb_true_r|]. rewrite IH.
  destruct (lf_nested lf) as [n|]; [|done]. rewrite (bool_decide_eq_false_2 (_ = ∅)) by apply fin_maps.insert_non_empty. by rewrite andb_false_r.
Qed.

(** The schemas a scan registers tables for. *)
Definition registered_schema {F} (spec : ScanSpec F) (schema : list LogicalField) : Prop :=
  schema = logical_schema (common spec) \/ exists j, join_spec (common spec) = Some j /\ schema = j_logical_schema j.

(** Row filters are pushed into exactly the tables they are sound for: DataFusion pushes
    when the session's or the table's flag says so, and a table with a nested column,
    whose rendered text no file column holds, has neither, while every other table has its
    own, whatever the other side of a join is. *)
Theorem row_filters_spare_nested {F} parse_f32 parse_f64 type_display (spec : ScanSpec F) schema mapping resolution :
  pushdown_filters default_options = false -> registered_schema spec schema ->
  ColumnBinding.for_logical_schema parse_f32 parse_f64 type_display schema mapping = Ok resolution ->
  session_pushdown_filters (session_config_for_spec spec) || pushdown_filters (scan_table_parquet_format resolution) = negb (renders_nested_json schema).
Proof using Type.
  intros Hdef Hreg Hres. unfold ColumnBinding.for_logical_schema in Hres. destruct (ColumnBinding.reconstruct_initial_defaults _ _ _ _ _); [|done]. injection Hres as <-.
  unfold scan_table_parquet_format. cbn [ColumnBinding.nested_by_name]. rewrite index_nested_empty.
  assert (Hs : session_pushdown_filters (session_config_for_spec spec) = negb (scan_renders_nested_json spec)) by (unfold session_config_for_spec; by destruct (join_spec (common spec))).
  rewrite Hs. destruct (renders_nested_json schema) eqn:En; cbn [negb]; [|by rewrite orb_true_r]. cbn. rewrite Hdef, orb_false_r.
  unfold scan_renders_nested_json. destruct Hreg as [->|(j & -> & ->)]; rewrite En; [done|by rewrite orb_true_r].
Qed.
End Options.

(** ** Where the positions come from

    What the provider needs of the delete reader: the positions of a shard, and that they
    are the deleted ones. *)
Class DeleteSource (S : Type) := {
  collect_deletes : ShardDeletes -> Z -> result Fault (gmap string S * Z);
  readable_shard : ShardDeletes -> Prop;
  deletes_row : ShardDeletes -> string -> Z -> Prop;
}.

Class DeleteSourceLaws (S : Type) {RB : Roaring S} {D : DeleteSource S} := {
  collected_exactly shard r m r' : readable_shard shard -> 0 <= r -> collect_deletes shard r = Ok (m, r') ->
    r' = r + map_total m /\ (forall uri x, in_set m uri x -> 0 <= x) /\ forall uri x, in_set m uri x <-> deletes_row shard uri x;
  no_mechanism_no_row shard uri x : Forall (fun entry => deletes entry = []) (sd_files shard) -> ~ deletes_row shard uri x;
}.

(** ** The provider *)

Record ParquetScanTable := MkScanTable {
  st_object_store_url : string;
  st_schema : PartitionedScanGroups;
  st_use_field_id_adapter : bool;
  st_field_id_resolution : FieldIdResolution;
  st_files : list FileEntry;
  st_table_root : string;
  st_secrets : list string;
  st_format : ParquetOptions;
  st_limiter : N;
}.

Record PartitionedFile := MkPartitioned {
  pf_location : list string;
  pf_size : Z;
  pf_values : list ScalarValue;
  pf_access : option (list RowGroupAccess);
}.

(** One file group's plan: what [FileScanConfigBuilder] is given. *)
Record FileScan := MkFileScan {
  fs_schema : PartitionedScanSchema;
  fs_files : list PartitionedFile;
  fs_projection : option (list nat);
  fs_limit : option N;
  fs_expr_adapter : option (FieldIdResolution * string);
  fs_format : ParquetOptions;
}.

Section Table.
Context {HX : Hex} {SO : ScalarOps} {S : Type} {RB : Roaring S} {Pool : RoaringSets.MemoryPool} {D : DeleteSource S}.
Context {U : Type} {SU : StoreUrls U}.
(** Of the session: whether a store is registered for a URL, and the rows of each row
    group of a data file's footer; the format's footer hint. *)
Context (registered_store : string -> result string unit) (fetch_metadata : list string -> Z -> result string (list Z)) (metadata_size_hint : option Z).

Definition new_scan_table (default_options : ParquetOptions) (inlist_pushdown_max : N) (object_store_url : string) (schema : PartitionedScanGroups)
    (use_field_id_adapter : bool) (resolution : FieldIdResolution) (files : list FileEntry) (table_root : string) (storage : StorageBackend) (limiter : N) : ParquetScanTable :=
  MkScanTable object_store_url schema use_field_id_adapter resolution files table_root (secret_values storage)
    (scan_table_parquet_format default_options inlist_pushdown_max resolution) limiter.

Section Files.
Context (t : ParquetScanTable).
Notation secrets := (st_secrets t).

(** A file's own group; an index out of range panics. *)
Definition group_schema (index : nat) : option PartitionedScanSchema := n ← group_of (st_schema t) index; groups (st_schema t) !! n.

Definition entry_values (index : nat) (entry : FileEntry) : result Fault (list ScalarValue) :=
  match group_schema index with
  | None => Err Panicked
  | Some schema => match partition_values_for schema entry with Ok v => Ok v | Err e => Err (Failed (User (redact e secrets))) end
  end.

Definition abs_path (entry : FileEntry) : string := reconstruct_abs_uri (path entry) (st_table_root t).

(** The files whose deletes need an access plan, with the positions. *)
Fixpoint build_targets (positions : gmap string S) (index : nat) (files : list (PartitionedFile * string)) : list (nat * PartitionedFile * S) :=
  match files with
  | [] => []
  | (file, abs) :: rest =>
      match positions !! abs with
      | Some set => (index, file, set) :: build_targets positions (Datatypes.S index) rest
      | None => build_targets positions (Datatypes.S index) rest
      end
  end.

Definition build_task (target : nat * PartitionedFile * S) : Z -> result Fault (nat * list RowGroupAccess * Z) := fun reserved =>
  let '(idx, file, set) := target in
  match fetch_metadata (pf_location file) (pf_size file) with
  | Err e => Err (Failed (User (redact ("failed to read data-file metadata for delete application: " ++ e) secrets)))
  | Ok num_rows =>
      match build_access_plan num_rows (rb_iter set) with
      | None => Err Panicked
      | Some plan => let? reserved := reserve secrets reserved (Z.of_nat (access_plan_bytes plan)) in Ok (idx, plan, reserved)
      end
  end.

Definition set_access (files : list PartitionedFile) (built : nat * list RowGroupAccess) : list PartitionedFile :=
  alter (fun f => MkPartitioned (pf_location f) (pf_size f) (pf_values f) (Some built.2)) built.1 files.

Definition is_empty_set (s : S) : bool := match rb_iter s with [] => true | _ => false end.

(** The files, and the bytes the provider keeps reserved. *)
Definition partitioned_files : result Fault (list PartitionedFile * Z) :=
  let? values := try_mapi entry_values 0 (st_files t) in
  let? _ := match registered_store (st_object_store_url t) with
            | Ok _ => Ok tt | Err e => Err (Failed (User (redact ("scan object store unavailable: " ++ e) secrets))) end in
  let abs_paths := map abs_path (st_files t) in
  let? metas := lift (try_map (fun entry => object_meta_for (U := U) (abs_path entry) (size entry)) (st_files t)) in
  let files := zip_with (fun meta v => MkPartitioned meta.1 meta.2 v None) metas values in
  if forallb (fun entry => match deletes entry with [] => true | _ => false end) (st_files t) then Ok (files, 0)
  else
    let? (positions, reserved) := collect_deletes (MkShardDeletes (st_files t) (st_table_root t) secrets metadata_size_hint) 0 in
    if bool_decide (positions = ∅) then Ok (files, 0)
    else
      let positions_bytes := reserved in
      let positions := filter (fun kv => is_empty_set kv.2 = false) positions in
      let? (built, reserved) := join_spawned (map build_task (build_targets positions 0 (zip files abs_paths))) reserved in
      let files := fold_left set_access built files in
      let? reserved := shrink reserved positions_bytes in
      Ok (files, reserved).

(** ** The scan *)

(** [files_by_group[group_of(index)].push(file)]. *)
Fixpoint files_by_group (index : nat) (files : list PartitionedFile) (by_group : list (list PartitionedFile)) : option (list (list PartitionedFile)) :=
  match files with
  | [] => Some by_group
  | file :: files =>
      n ← group_of (st_schema t) index;
      g ← by_group !! n;
      files_by_group (Datatypes.S index) files (<[n := (g ++ [file])%list]> by_group)
  end.

(** DataFusion builds a plan of a file scan, or fails. *)
Context (create_physical_plan : FileScan -> result string unit).

Definition group_scan (projection : option (list nat)) (limit : option N) (schema : PartitionedScanSchema) (files : list PartitionedFile) : result Fault FileScan :=
  match remap_projection schema projection with
  | None => Err Panicked
  | Some remapped =>
      let config := MkFileScan schema files remapped limit
        (if st_use_field_id_adapter t then Some (st_field_id_resolution t, st_table_root t) else None) (st_format t) in
      match create_physical_plan config with Ok _ => Ok config | Err e => Err (Failed (User e)) end
  end.

(** The plans of the union, one per file group. *)
Definition scan (projection : option (list nat)) (limit : option N) : result Fault (list FileScan) :=
  let? (files, _) := partitioned_files in
  match files_by_group 0 files (replicate (List.length (groups (st_schema t))) []) with
  | None => Err Panicked
  | Some by_group => try_map (fun '(schema, files) => group_scan projection limit schema files) (zip (groups (st_schema t)) by_group)
  end.

(** A filter is never the scan's alone: DataFusion keeps it above. *)
Inductive FilterPushDown := Unsupported | Inexact | Exact.
Definition supports_filters_pushdown {E} (filters : list E) : list FilterPushDown := replicate (List.length filters) Inexact.

(** ** Every file is read once, without its deleted rows *)

Lemma build_targets_spec positions index files i f set :
  (i, f, set) ∈ build_targets positions index files <-> exists k abs, i = (index + k)%nat /\ files !! k = Some (f, abs) /\ positions !! abs = Some set.
Proof using Type.
  revert index. induction files as [|[file abs] files IH]; intros index; cbn [build_targets].
  - split; [by intros ?%elem_of_nil|by intros (k & a & _ & H & _)].
  - assert (Hrest : (i, f, set) ∈ build_targets positions (Datatypes.S index) files <-> exists k abs, i = (index + Datatypes.S k)%nat /\ files !! k = Some (f, abs) /\ positions !! abs = Some set).
    { rewrite IH. split; intros (k & a & -> & H); exists k, a; (split; [lia|done]). }
    split.
    + intros H. assert (Hor : (i, f, set) ∈ build_targets positions (Datatypes.S index) files \/ exists s, positions !! abs = Some s /\ (i, f, set) = (index, file, s)).
      { destruct (positions !! abs) as [s|]; [|by left]. apply elem_of_cons in H as [H|H]; [right; by exists s|by left]. }
      destruct Hor as [(k & a & -> & Hf & Hp)%Hrest|(s & Hs & [= -> -> ->])]; [exists (Datatypes.S k), a; done|]. exists 0%nat, abs. by rewrite Nat.add_0_r.
    + intros (k & a & -> & Hf & Hp). destruct k as [|k]; cbn in Hf.
      * injection Hf as -> ->. rewrite Hp, Nat.add_0_r. left.
      * assert (Hin : ((index + Datatypes.S k)%nat, f, set) ∈ build_targets positions (Datatypes.S index) files) by (apply Hrest; by exists k, a). destruct (positions !! abs); [by right|done].
Qed.

Lemma build_targets_nodup positions index files : NoDup (map (fun target => target.1.1) (build_targets positions index files)).
Proof using Type.
  revert index. induction files as [|[file abs] files IH]; intros index; cbn [build_targets]; [constructor|].
  destruct (positions !! abs) as [set|]; [|apply IH]. cbn [map fst]. apply NoDup_cons. split; [|apply IH].
  intros ([[i f] s] & E & H)%list_elem_of_fmap. cbn in E. subst i. apply build_targets_spec in H as (k & a & Hk & _). lia.
Qed.

(** Setting the plans touches each file once. *)
Lemma set_access_lookup built files i f : NoDup (map fst built) -> files !! i = Some f ->
  fold_left set_access built files !! i
    = Some match (list_to_map built : gmap nat (list RowGroupAccess)) !! i with
           | Some plan => MkPartitioned (pf_location f) (pf_size f) (pf_values f) (Some plan)
           | None => f
           end.
Proof using Type.
  revert files f. induction built as [|[k plan] built IH]; intros files f Hn Hf; cbn [fold_left list_to_map foldr]; [by rewrite lookup_empty|].
  apply NoDup_cons in Hn as [Hk Hn]. unfold set_access at 2. cbn [fst snd]. destruct (decide (k = i)) as [->|Hne].
  - rewrite (IH _ (MkPartitioned (pf_location f) (pf_size f) (pf_values f) (Some plan)) Hn); [|by rewrite list_lookup_alter_eq, Hf].
    cbn. rewrite lookup_insert_eq. rewrite not_elem_of_list_to_map_1; [done|exact Hk].
  - rewrite (IH _ f Hn); [|by rewrite list_lookup_alter_ne]. cbn. by rewrite lookup_insert_ne.
Qed.

Lemma set_access_length built files : List.length (fold_left set_access built files) = List.length files.
Proof using Type. revert files. induction built as [|b built IH]; intros files; cbn [fold_left]; [done|]. rewrite IH. apply length_alter. Qed.

(** What a file of the scan gives of its rows. *)
Definition reads_undeleted (deleted : Z -> Prop) (file : PartitionedFile) : Prop :=
  match pf_access file with
  | None => forall x, ~ deleted x
  | Some plan => exists num_rows (dels : list Z), fetch_metadata (pf_location file) (pf_size file) = Ok num_rows /\ (forall x, x ∈ dels <-> deleted x)
      /\ List.length plan = List.length num_rows
      /\ List.concat (zip_with reads num_rows plan) = map (fun i => negb (bool_decide (i ∈ dels))) (seqZ 0 (total num_rows))
  end.

(** A footer's row counts are counts. *)
Definition counts_rows : Prop := forall location size num_rows, fetch_metadata location size = Ok num_rows -> Forall (fun n => 0 <= n) num_rows.

Lemma build_task_spec target r built r' : counts_rows -> (forall x, x ∈ rb_iter target.2 -> 0 <= x) -> RoaringLaws S ->
  build_task target r = Ok (built, r') ->
  built.1 = target.1.1 /\ exists num_rows, fetch_metadata (pf_location target.1.2) (pf_size target.1.2) = Ok num_rows
    /\ List.length built.2 = List.length num_rows
    /\ List.concat (zip_with reads num_rows built.2) = map (fun i => negb (bool_decide (i ∈ rb_iter target.2))) (seqZ 0 (total num_rows)).
Proof using Type.
  intros Hc Hnn HL. destruct target as [[idx file] set]. unfold build_task. cbn [fst snd] in *. destruct (fetch_metadata _ _) as [num_rows|] eqn:Em; [|done].
  destruct (access_plan_spec num_rows (rb_iter set)) as (plan & Hp & Hlen & Hreads); [apply rb_iter_sorted|by apply Forall_forall|by eapply Hc|].
  rewrite Hp. destruct (reserve _ _ _); [|done]. intros [= <- <-]. split; [done|]. by exists num_rows.
Qed.

Definition shard_of : ShardDeletes := MkShardDeletes (st_files t) (st_table_root t) secrets metadata_size_hint.

(** A file as the plan states it, before its deletes. *)
Definition states_entry (i : nat) (entry : FileEntry) (file : PartitionedFile) : Prop :=
  (exists l, parse_wire (U := U) (abs_path entry) = Ok l /\ pf_location file = key l) /\ pf_size file = Z.of_N (size entry) /\ entry_values i entry = Ok (pf_values file).

Lemma stated_files values metas :
  try_mapi entry_values 0 (st_files t) = Ok values -> try_map (fun entry => object_meta_for (U := U) (abs_path entry) (size entry)) (st_files t) = Ok metas ->
  let files := zip_with (fun meta v => MkPartitioned meta.1 meta.2 v None) metas values in
  List.length files = List.length (st_files t)
  /\ forall i entry, st_files t !! i = Some entry -> exists file, files !! i = Some file /\ states_entry i entry file /\ pf_access file = None.
Proof using Type.
  intros [Hlv Hv]%try_mapi_lookup Hm%try_map_Forall2. cbv zeta. pose proof (Forall2_length _ _ _ Hm) as Hlm. split; [rewrite length_zip_with; lia|].
  intros i entry Hi. destruct (Hv i entry Hi) as (v & Hvi & Ev). destruct (Forall2_lookup_l _ _ _ _ _ Hm Hi) as (meta & Hmi & Em).
  exists (MkPartitioned meta.1 meta.2 v None). split; [apply lookup_zip_with_Some; by exists meta, v|]. split; [|done].
  unfold object_meta_for in Em. destruct (parse_wire _) as [l|] eqn:El; [|done]. injection Em as <-. split_and!; [by exists l|done|done].
Qed.

Section Exact.
Context {RL : RoaringLaws S} {DL : DeleteSourceLaws S}.
Context (Hrows : counts_rows) (Hshard : readable_shard shard_of).

(** The targets' plans read what the positions leave. *)
Lemma built_spec positions files r built r' i f abs :
  (forall uri x, in_set positions uri x -> 0 <= x) -> 0 <= r ->
  join_spawned (map build_task (build_targets positions 0 files)) r = Ok (built, r') ->
  files !! i = Some (f, abs) ->
  match (list_to_map built : gmap nat (list RowGroupAccess)) !! i with
  | Some plan => exists set num_rows, positions !! abs = Some set /\ fetch_metadata (pf_location f) (pf_size f) = Ok num_rows
      /\ List.length plan = List.length num_rows
      /\ List.concat (zip_with reads num_rows plan) = map (fun i => negb (bool_decide (i ∈ rb_iter set))) (seqZ 0 (total num_rows))
  | None => positions !! abs = None
  end /\ NoDup (map fst built) /\ r <= r'.
Proof using Hrows RL.
  intros Hnn Hr Hj Hf. apply (join_spawned_spec (fun b : nat * list RowGroupAccess => Z.of_nat (access_plan_bytes b.2))) in Hj as [-> Hall]; [|done|intros b; apply Nat2Z.is_nonneg|].
  2:{ apply Forall_map, Forall_forall. intros [[idx file] set] _ r0 [k plan] r1 _. unfold build_task. destruct (fetch_metadata _ _) as [num_rows|]; [|done].
      destruct (build_access_plan _ _) as [plan'|]; [|done]. unfold reserve. destruct (pool_refuses _ _); [done|]. intros [= <- <- <-]. done. }
  apply Forall2_fmap_l in Hall.
  assert (Hpos : forall target x, target ∈ build_targets positions 0 files -> x ∈ rb_iter target.2 -> 0 <= x).
  { intros [[k g] set] x (? & a & _ & _ & Hp)%build_targets_spec Hx. apply (Hnn a). by exists set. }
  assert (Hpair : Forall2 (fun target b => b.1 = target.1.1 /\ exists num_rows, fetch_metadata (pf_location target.1.2) (pf_size target.1.2) = Ok num_rows
    /\ List.length b.2 = List.length num_rows
    /\ List.concat (zip_with reads num_rows b.2) = map (fun i => negb (bool_decide (i ∈ rb_iter target.2))) (seqZ 0 (total num_rows))) (build_targets positions 0 files) built).
  { eapply Forall2_same_length_lookup_2; [by eapply Forall2_length|]. intros k target b Ht Hb. destruct (Forall2_lookup_lr _ _ _ _ _ _ Hall Ht Hb) as (r0 & r1 & _ & E).
    eapply build_task_spec; [done| |done|exact E]. intros x. apply Hpos. by eapply list_elem_of_lookup_2. }
  assert (Hkeys : map fst built = map (fun target => target.1.1) (build_targets positions 0 files)).
  { clear -Hpair. induction Hpair as [|target b ts bs [E _] _ IH]; [done|]. cbn. by rewrite E, IH. }
  assert (Hn : NoDup (map fst built)) by (rewrite Hkeys; apply build_targets_nodup).
  split; [|split; [done|pose proof (sumZ_nonneg (fun b : nat * list RowGroupAccess => Z.of_nat (access_plan_bytes b.2)) built ltac:(intros b; apply Nat2Z.is_nonneg)); lia]].
  destruct (list_to_map built !! i) as [plan|] eqn:El.
  - apply elem_of_list_to_map_2 in El. destruct (proj1 (Forall2_members _ _ _ Hpair) _ El) as ([[k g] set] & Ht & E & num_rows & Hm & Hlen & Hr').
    cbn [fst snd] in *. subst k. apply build_targets_spec in Ht as (k & a & -> & Hk & Hp). cbn in Hf. rewrite Hk in Hf. injection Hf as <- <-. by exists set, num_rows.
  - destruct (positions !! abs) as [set|] eqn:Ep; [|done]. exfalso. apply not_elem_of_list_to_map_2 in El. apply El. change (i ∈ map fst built). rewrite Hkeys.
    apply list_elem_of_fmap. exists (i, f, set). split; [done|]. apply build_targets_spec. by exists i, abs.
Qed.

Lemma partitioned_files_spec files held : partitioned_files = Ok (files, held) ->
  List.length files = List.length (st_files t) /\ 0 <= held
  /\ forall i entry, st_files t !! i = Some entry -> exists file, files !! i = Some file /\ states_entry i entry file /\ reads_undeleted (deletes_row shard_of (abs_path entry)) file.
Proof using Hrows Hshard RL DL.
  unfold partitioned_files. destruct (try_mapi entry_values 0 (st_files t)) as [values|] eqn:Ev; [|done]. destruct (registered_store _); [|done].
  destruct (try_map _ (st_files t)) as [metas|] eqn:Em; cbn [lift]; [|done]. destruct (stated_files _ _ Ev Em) as [Hlen Hfiles]. cbv zeta in *.
  set (plain := zip_with (fun meta v => MkPartitioned meta.1 meta.2 v None) metas values) in *.
  destruct (forallb _ (st_files t)) eqn:Ed.
  { intros [= <- <-]. split; [done|]. split; [lia|]. intros i entry Hi. destruct (Hfiles i entry Hi) as (file & Hf & Hs & Ha). exists file. split_and!; [done|done|].
    unfold reads_undeleted. rewrite Ha. intros x. apply no_mechanism_no_row. apply Forall_forall. intros e He. rewrite forallb_forall in Ed.
    apply list_elem_of_In in He. specialize (Ed e He). by destruct (deletes e). }
  fold shard_of. destruct (collect_deletes shard_of 0) as [[positions reserved]|] eqn:Ec; [|done].
  destruct (collected_exactly _ _ _ _ Hshard (Z.le_refl 0) Ec) as (-> & Hnn & Hin). case_bool_decide as Ee.
  { intros [= <- <-]. split; [done|]. split; [lia|]. intros i entry Hi. destruct (Hfiles i entry Hi) as (file & Hf & Hs & Ha). exists file. split_and!; [done|done|].
    unfold reads_undeleted. rewrite Ha. intros x. rewrite <- Hin, Ee. intros (s & H & _). by rewrite lookup_empty in H. }
  set (kept := filter (fun kv => is_empty_set kv.2 = false) positions).
  assert (Hkept : forall uri x, in_set kept uri x <-> deletes_row shard_of uri x).
  { intros uri x. rewrite <- Hin. unfold in_set, kept. setoid_rewrite map_lookup_filter_Some. split; [intros (s & [H _] & Hx); by exists s|].
    intros (s & H & Hx). exists s. split; [|done]. split; [done|]. cbn. unfold is_empty_set. destruct (rb_iter s); [by apply elem_of_nil in Hx|done]. }
  destruct (join_spawned _ _) as [[built r']|] eqn:Ej; [|done]. destruct (shrink _ _) as [held'|] eqn:Es; [|done]. intros [= <- <-].
  assert (Hnk : forall uri x, in_set kept uri x -> 0 <= x) by (intros uri x; rewrite Hkept, <- Hin; apply Hnn).
  pose proof (map_total_nonneg positions) as Htot.
  assert (Hlook : forall i entry, st_files t !! i = Some entry -> exists f, plain !! i = Some f /\ states_entry i entry f /\ pf_access f = None /\ zip plain (map abs_path (st_files t)) !! i = Some (f, abs_path entry)).
  { intros i entry Hi. destruct (Hfiles i entry Hi) as (f & Hf & Hs & Ha). exists f. split_and!; [done..|]. apply lookup_zip_with_Some. exists f, (abs_path entry). split_and!; [done|done|]. by rewrite list_lookup_fmap, Hi. }
  split; [by rewrite set_access_length|]. split; [unfold shrink in Es; destruct (_ <=? _) eqn:El; [|done]; injection Es as <-; apply Z.leb_le in El; lia|].
  intros i entry Hi. destruct (Hlook i entry Hi) as (f & Hf & Hs & Ha & Hz).
  destruct (built_spec kept _ (0 + map_total positions) _ _ i f (abs_path entry) Hnk ltac:(lia) Ej Hz) as (Hb & Hn & _). rewrite (set_access_lookup built plain i f Hn Hf).
  eexists. split; [done|]. destruct (list_to_map built !! i) as [plan|]; [|split; [done|]].
  - destruct Hb as (set & num_rows & Hp & Hm & Hl & Hr). split; [done|]. unfold reads_undeleted. cbn [pf_access pf_location pf_size]. exists num_rows, (rb_iter set).
    split_and!; [done| |done|done]. intros x. rewrite <- Hkept. unfold in_set. rewrite Hp. split; [by exists set|by intros (s & [= <-] & Hx)].
  - unfold reads_undeleted. rewrite Ha. intros x. rewrite <- Hkept. intros (s & H & _). congruence.
Qed.

Lemma concat_push {A} (by_group : list (list A)) n g x : by_group !! n = Some g -> List.concat (<[n := (g ++ [x])%list]> by_group) ≡ₚ x :: List.concat by_group.
Proof using Type.
  intros Hn. pose proof (lookup_lt_Some _ _ _ Hn) as Hlt. rewrite insert_take_drop by done. rewrite <- (take_drop_middle by_group n g Hn) at 3.
  rewrite !List.concat_app. cbn [List.concat]. rewrite <- !app_assoc. cbn [app]. rewrite (app_assoc (List.concat _) g). rewrite <- Permutation_middle. by rewrite <- app_assoc.
Qed.

Lemma files_by_group_spec index files by_group out : files_by_group index files by_group = Some out ->
  List.length out = List.length by_group /\ List.concat out ≡ₚ (files ++ List.concat by_group)%list
  /\ (forall n g, by_group !! n = Some g -> exists g', out !! n = Some (g ++ g')%list)
  /\ forall k f, files !! k = Some f -> exists n g, group_of (st_schema t) (index + k) = Some n /\ out !! n = Some g /\ f ∈ g.
Proof using Type.
  revert index by_group. induction files as [|file files IH]; intros index by_group; cbn [files_by_group].
  - intros [= <-]. split_and!; [done|done| |done]. intros n g Hg. exists []. by rewrite app_nil_r.
  - destruct (group_of (st_schema t) index) as [n|] eqn:En; [|done]. cbn [mbind option_bind]. destruct (by_group !! n) as [g|] eqn:Eg; [|done]. cbn [mbind option_bind].
    intros (Hlen & Hperm & Hgrow & Hfiles)%IH. rewrite length_insert in Hlen. rewrite (concat_push _ _ _ _ Eg) in Hperm.
    assert (Hn : <[n := (g ++ [file])%list]> by_group !! n = Some (g ++ [file])%list) by (apply list_lookup_insert_eq; by eapply lookup_lt_Some).
    split_and!; [done|by rewrite Hperm, <- Permutation_middle| |].
    + intros n' g' Hg'. destruct (decide (n = n')) as [<-|Hne].
      * rewrite Eg in Hg'. injection Hg' as <-. destruct (Hgrow n _ Hn) as (g1 & H1). exists (file :: g1). by rewrite H1, <- app_assoc.
      * apply Hgrow. by rewrite list_lookup_insert_ne.
    + intros [|k] f; cbn.
      * intros [= <-]. rewrite Nat.add_0_r. destruct (Hgrow n _ Hn) as (g1 & H1). exists n, ((g ++ [file]) ++ g1)%list. split_and!; [done|done|]. rewrite !elem_of_app. left. right. by left.
      * intros Hf. rewrite <- Nat.add_succ_comm. by apply Hfiles.
Qed.

(** C7. Every file of the shard is scanned exactly once, as the plan states it: its group's
    plan has it under the file's own split of the columns and with the file's own partition
    values, carrying the statement's projection and limit, and reads of it exactly the rows
    no delete of the shard names. *)
Theorem scan_reads_undeleted_rows projection limit scans : scan projection limit = Ok scans ->
  exists files, List.concat (map fs_files scans) ≡ₚ files /\ List.length files = List.length (st_files t)
    /\ forall i entry, st_files t !! i = Some entry -> exists file sc, files !! i = Some file /\ sc ∈ scans /\ file ∈ fs_files sc
         /\ group_schema i = Some (fs_schema sc) /\ remap_projection (fs_schema sc) projection = Some (fs_projection sc) /\ fs_limit sc = limit
         /\ states_entry i entry file /\ reads_undeleted (deletes_row shard_of (abs_path entry)) file.
Proof using Hrows Hshard RL DL.
  unfold scan. destruct partitioned_files as [[files held]|] eqn:Ep; [|done]. destruct (partitioned_files_spec _ _ Ep) as (Hlen & _ & Hfiles).
  destruct (files_by_group 0 files _) as [by_group|] eqn:Eg; [|done]. apply files_by_group_spec in Eg as (Hbl & Hperm & _ & Hmem). rewrite length_replicate in Hbl.
  intros Hs%try_map_Forall2. assert (Hfs : map fs_files scans = by_group /\ map fs_schema scans = groups (st_schema t)).
  { clear -Hs Hbl. revert by_group Hbl scans Hs. induction (groups (st_schema t)) as [|g gs IH]; intros [|b bs] Hl scans Hs; cbn in Hl; try done; cbn [zip zip_with] in Hs; inversion Hs as [|? sc ? scs E Hs']; subst; [done|].
    apply IH in Hs' as [E1 E2]; [|lia]. unfold group_scan in E. destruct (remap_projection g projection); [|done]. destruct (create_physical_plan _); [|done]. injection E as <-. cbn [map fs_files fs_schema]. by rewrite E1, E2. }
  destruct Hfs as [Hfs Hsch]. exists files. split; [rewrite Hfs, Hperm; cbn; clear; induction (List.length _); cbn; by rewrite ?app_nil_r|]. split; [done|].
  intros i entry Hi. destruct (Hfiles i entry Hi) as (file & Hf & Hst & Hr). destruct (Hmem i file Hf) as (n & g & Hn & Hg & Hin). change (0 + i)%nat with i in Hn.
  rewrite <- Hfs, list_lookup_fmap in Hg. destruct (scans !! n) as [sc|] eqn:Esc; [|done]. injection Hg as <-.
  assert (Hgs : groups (st_schema t) !! n = Some (fs_schema sc)) by (by rewrite <- Hsch, list_lookup_fmap, Esc).
  destruct (Forall2_lookup_r _ _ _ _ _ Hs Esc) as ([sch fl] & _ & E). unfold group_scan in E. destruct (remap_projection sch projection) as [rp|] eqn:Er; [|done].
  destruct (create_physical_plan _); [|done]. injection E as <-. cbn [fs_schema fs_projection fs_limit] in *.
  exists file, (MkFileScan sch fl rp limit (if st_use_field_id_adapter t then Some (st_field_id_resolution t, st_table_root t) else None) (st_format t)).
  split_and!; [done|by eapply list_elem_of_lookup_2|done| |done|done|done|done]. unfold group_schema. rewrite Hn. exact Hgs.
Qed.
End Exact.
End Files.
End Table.

(** ** Registration *)

Section Register.
Context (default_options : ParquetOptions) (inlist_pushdown_max : N).
(** The store of a file's URL, the schema of a file's footer, and what the session says
    to a table's name. *)
Context (listing_store_key : string -> result string string) (infer_schema : string -> result DynError (list Field)) (register_table : string -> result string unit).
Context (resources_exhausted : DynError -> option string) (error_chain : DynError -> string) (display_f64 : SpecFloat.spec_float -> string).
Context (parse_f32 parse_f64 : string -> option Z) (type_display : DataType -> string).

Definition invalid_listing {A} (first_abs : string) (r : result string A) : result UdfError A :=
  match r with Ok a => Ok a | Err e => Err (User ("invalid listing URL '" ++ first_abs ++ "': " ++ e)) end.

Definition user_error (e : SdkError) : UdfError := User (error_message e).

Definition table_schema_of (first_abs : string) (logical_schema : list LogicalField) (secrets : list string) : result UdfError (list Field) :=
  match logical_schema with
  | _ :: _ => Ok (ColumnBinding.build_logical_arrow_schema logical_schema)
  | [] =>
      let? _ := invalid_listing first_abs (listing_store_key first_abs) in
      match infer_schema first_abs with
      | Ok schema => Ok schema
      | Err e => Err (user_error (classify_scan_error resources_exhausted error_chain display_f64 e secrets))
      end
  end.

Notation tables := (gmap string ParquetScanTable).

Definition register_file_list (session : tables) (table_name : string) (files : list FileEntry) (table_root : string) (logical_schema : list LogicalField)
    (name_mapping : list NameMappingEntry) (partition_columns : list string) (storage : StorageBackend) (limiter : N) : result UdfError tables :=
  match files with
  | [] => Err (User ("cannot register '" ++ table_name ++ "': the assigned file list is empty"))
  | first :: _ =>
      let first_abs := reconstruct_abs_uri (path first) table_root in
      let? _ := validate_uniform_object_store_files listing_store_key files table_root first_abs in
      let? object_store_url := invalid_listing first_abs (listing_store_key first_abs) in
      let? table_schema := table_schema_of first_abs logical_schema (secret_values storage) in
      let? resolution := match ColumnBinding.for_logical_schema parse_f32 parse_f64 type_display logical_schema name_mapping with Ok r => Ok r | Err e => Err (User e) end in
      let? schema := match split_groups table_schema partition_columns files with
                     | Ok g => Ok g | Err e => Err (User ("cannot register '" ++ table_name ++ "': " ++ e)) end in
      let table := new_scan_table default_options inlist_pushdown_max object_store_url schema
        (match logical_schema with [] => false | _ => true end) resolution files table_root storage limiter in
      match register_table table_name with
      | Ok _ => Ok (<[table_name := table]> session)
      | Err e => Err (User ("failed to register table: " ++ e))
      end
  end.

Section Spec.
Context {F : Type} (spec : ScanSpec F) (storage : ResolvedScanStorage).

Definition register_files (session : tables) (table_name : string) : result UdfError tables :=
  register_file_list session table_name (spec_files spec) (table_root (common spec)) (logical_schema (common spec)) (name_mapping (common spec))
    (partition_columns (common spec)) (rs_primary storage) (delete_path_read_limiter spec).

(** [None]: the source expects a join block. *)
Definition register_join_tables (session : tables) : option (result UdfError tables) :=
  match join_spec (common spec) with
  | None => None
  | Some j => Some (
      if bool_decide (is_Some (aggregates (common spec))) || bool_decide (is_Some (spec_group_keys (common spec))) then
        Err (User "join pushdown does not support aggregate or GROUP BY in the same scan spec")
      else
        match rs_join storage with
        | None => Err (User "the resolved scan storage carries no dimension-side backend for this join spec")
        | Some dimension_backend =>
            let limiter := delete_path_read_limiter spec in
            let? session := register_file_list session JOIN_FACT_TABLE (spec_files spec) (table_root (common spec)) (logical_schema (common spec))
              (name_mapping (common spec)) (partition_columns (common spec)) (rs_primary storage) limiter in
            register_file_list session JOIN_DIM_TABLE (j_files j) (j_table_root j) (j_logical_schema j) (j_name_mapping j) (j_partition_columns j) dimension_backend limiter
        end)
  end.

(** What a registered table holds. *)
Record registered_for (table : ParquetScanTable) (files : list FileEntry) (root : string) (backend : StorageBackend) (limiter : N) : Prop := {
  rf_files : st_files table = files;
  rf_root : st_table_root table = root;
  rf_secrets : st_secrets table = secret_values backend;
  rf_limiter : st_limiter table = limiter;
  rf_store : forall entry, entry ∈ files -> listing_store_key (reconstruct_abs_uri (path entry) root) = Ok (st_object_store_url table);
  rf_groups : forall i entry, files !! i = Some entry -> is_Some (group_schema table i);
}.

Lemma check_key_Ok expected abs kind : check_store_key listing_store_key expected abs kind = Ok tt -> listing_store_key abs = Ok expected.
Proof using Type.
  unfold check_store_key, store_key_of. destruct (listing_store_key abs) as [k|]; [|done]. by destruct (String.eqb_spec k expected) as [->|].
Qed.

Lemma register_file_list_spec session name files root schema mapping cols backend limiter session' :
  register_file_list session name files root schema mapping cols backend limiter = Ok session' ->
  exists table, session' = <[name := table]> session /\ registered_for table files root backend limiter.
Proof using Type.
  unfold register_file_list. destruct files as [|first rest] eqn:Ef; [done|]. rewrite <- Ef.
  destruct (validate_uniform_object_store_files _ _ _ _) as [[]|] eqn:Ev; [|done]. unfold invalid_listing. destruct (listing_store_key (reconstruct_abs_uri (path first) root)) as [url|] eqn:Eu; [|done].
  destruct (table_schema_of _ _ _) as [ts|]; [|done]. destruct (ColumnBinding.for_logical_schema _ _ _ _ _) as [res|]; [|done].
  destruct (split_groups ts cols files) as [g|] eqn:Eg; [|done]. destruct (register_table name); [|done]. intros [= <-]. eexists. split; [done|]. split; cbn; [done..| |].
  - intros entry He. unfold validate_uniform_object_store_files in Ev. unfold store_key_of in Ev at 1. rewrite Eu in Ev.
    destruct (try_map _ files) as [l|] eqn:Et; [|done]. destruct (try_map_elem _ _ _ _ Et He) as ([] & H & _). unfold check_entry_store in H.
    destruct (check_store_key _ _ _ "data file") as [[]|] eqn:Ec; [|done]. by eapply check_key_Ok.
  - intros i entry Hi. destruct (proj2 (split_groups_cover_files _ _ _ _ Eg) i entry Hi) as (n & Hn & sch & Hs & _). unfold group_schema. cbn. rewrite Hn. by exists sch.
Qed.

(** The two sides of a join register their own: the fact table holds the shard's files
    under the primary credential's secrets and the dimension the join's files under the
    dimension's, each with one store all its data files resolve to and a group for every
    file; both draw on the same permits, of which there is at least one; and a spec with
    aggregates is refused. *)
Theorem join_sides_register_their_own session session' : register_join_tables session = Some (Ok session') ->
  exists j dim fact_table dim_table, join_spec (common spec) = Some j /\ rs_join storage = Some dim /\ aggregates (common spec) = None
    /\ session' !! JOIN_FACT_TABLE = Some fact_table /\ session' !! JOIN_DIM_TABLE = Some dim_table
    /\ registered_for fact_table (spec_files spec) (table_root (common spec)) (rs_primary storage) (delete_path_read_limiter spec)
    /\ registered_for dim_table (j_files j) (j_table_root j) dim (delete_path_read_limiter spec) /\ (1 <= delete_path_read_limiter spec)%N.
Proof using Type.
  unfold register_join_tables. destruct (join_spec (common spec)) as [j|]; [|done]. destruct (_ || _) eqn:Ea; [done|]. destruct (rs_join storage) as [dim|]; [|done].
  destruct (register_file_list session JOIN_FACT_TABLE _ _ _ _ _ _ _) as [s1|] eqn:E1; [|done]. cbv zeta. intros H. assert (E2 := f_equal (fun o => match o with Some r => r | None => Err (User "") end) H). cbn beta iota in E2. clear H.
  apply register_file_list_spec in E1 as (ft & -> & Hf). apply register_file_list_spec in E2 as (dt & -> & Hd).
  exists j, dim, ft, dt. split_and!; [done|done| |by rewrite lookup_insert_ne, lookup_insert_eq|by rewrite lookup_insert_eq|done|done|unfold delete_path_read_limiter; lia].
  apply orb_false_iff in Ea as [Ea _]. apply bool_decide_eq_false in Ea. destruct (aggregates (common spec)); [|done]. exfalso. apply Ea. by eexists.
Qed.
End Spec.
End Register.

(** ** The delete reader keeps the provider's contract *)

Section Contract.
Context {S : Type} {RB : Roaring S} {Pool : RoaringSets.MemoryPool} {U : Type} {SU : StoreUrls U} {Descriptor Url : Type} `{!EqDecision Url}.
Context (try_new : DeletionVectors.DeletionVectorStorageType -> string -> option Z -> Z -> Z -> result string Descriptor).
Context (absolute_path : Descriptor -> Url -> result string (option Url)) (Url_parse : string -> result string Url) (Url_as_str : Url -> string).
Context (dv_read : Descriptor -> @DeletionVectors.bodies Url -> result string S).
Context (deserialize : list Byte.byte -> result string (list Z)) (from_sorted_iter : list Z -> result string S).
Context (get_range : list string -> Z -> Z -> result string (list Byte.byte)) (get : list string -> result string (list Byte.byte)).
Context {Footer : Type} (try_parse_sized : list Byte.byte -> Z -> ParseOutcome Footer) (arrow_metadata : Footer -> result string DeleteFileMeta).
Context (record_batches : Reader -> DeleteFileMeta -> list nat -> list nat -> result string (list RowDeletes.Field * (nat -> nat -> list (result string Batch)))).
Context (udf_display : UdfError -> string).
Context (object : list string -> option (list Byte.byte)) (file_rows : list Byte.byte -> list (list (option string * option Z))).

Definition reads_source : DeleteSource S := {|
  collect_deletes := collect_positions try_new absolute_path Url_parse Url_as_str dv_read deserialize from_sorted_iter get_range get
    try_parse_sized arrow_metadata record_batches udf_display;
  readable_shard := sizes_true object;
  deletes_row shard uri x := exists assigned, assigned_files (U := U) (sd_files shard) (sd_table_root shard) = Ok assigned
    /\ deleted try_new absolute_path Url_parse Url_as_str dv_read deserialize from_sorted_iter object file_rows shard assigned uri x;
|}.

Lemma reads_source_laws : RoaringLaws S -> store_laws get_range get object -> parquet_laws try_parse_sized arrow_metadata record_batches object file_rows ->
  decoder_laws dv_read deserialize from_sorted_iter -> DeleteSourceLaws S (D := reads_source).
Proof using Type.
  intros RL SL PL DL. split.
  - intros shard r m r' Hs Hr Hc.
    destruct (collect_positions_spec _ _ _ _ _ _ _ _ _ _ _ _ _ object file_rows SL PL DL shard r m r' Hs Hr Hc) as (-> & Hnn & assigned & Ha & Hin).
    split; [done|]. split; [done|]. intros uri x. rewrite Hin. split; [intros H; by exists assigned|]. intros (a' & Ha' & H). cbn in Ha'. rewrite Ha in Ha'. by injection Ha' as <-.
  - intros shard uri x Hno (assigned & _ & entry & d & [He Hd] & _). rewrite Forall_forall in Hno. rewrite (Hno entry He) in Hd. by apply elem_of_nil in Hd.
Qed.
End Contract.

(** ** At work *)

(** The world of [DeleteReads]: a file of two row groups, of whose nine rows a delete
    file and a deletion vector name three. *)
#[local] Instance world_source : DeleteSource (gset Z) :=
  reads_source (Pool := fixed_pool 1000) (SU := bucket_urls) (Descriptor := unit) (Url := string) (fun _ _ _ _ _ => Ok tt) (fun _ _ => Ok None) Ok id (fun _ _ => Err "none")
    (fun _ => Ok [7]) (fun l => Ok (list_to_set l)) world_range world_get world_parse (fun _ => Ok world_meta)
    (fun _ _ _ groups => Ok (world_fields, fun _ _ => world_batches groups)) (fun e => let '(User m) := e in m) world_objects (fun _ => world_rows).

#[local] Instance world_source_laws : DeleteSourceLaws (gset Z).
Proof. apply reads_source_laws; [apply gset_roaring_laws|exact world_store|exact world_parquet|exact world_decoders]. Qed.

Definition world_groups : PartitionedScanGroups := MkScanGroups [MkField "n" TInt64 true ∅] [MkScanSchema [MkField "n" TInt64 true ∅] [MkField "n" TInt64 true ∅] [] [0%nat]] [0%nat].
Definition world_table : ParquetScanTable :=
  MkScanTable "s3://bucket" world_groups false (ColumnBinding.MkFieldIdResolution [] ∅ ∅ ∅) (sd_files world_shard) "s3://bucket/t" [] (MkOptions None None 0 false) 1.
Definition world_footer (location : list string) (size : Z) : result string (list Z) := Ok [3; 6].
Definition world_scan : result Fault (list FileScan) :=
  scan (HX := plain_hex) (SO := plain_scalars) (Pool := fixed_pool 1000) (SU := bucket_urls) (fun _ => Ok tt) world_footer (Some 3) world_table (fun _ => Ok tt) None None.

Definition planned_access (scans : list FileScan) : list (option (list RowGroupAccess)) := map pf_access (List.concat (map fs_files scans)).

Example world_plan :
  match world_scan with Ok scans => planned_access scans | Err _ => [] end
  = [Some [ASelection [select 2; skip 1]; ASelection [select 1; skip 1; select 2; skip 1; select 1]]].
Proof. vm_compute. reflexivity. Qed.

Lemma scan_reads_undeleted_rows_witness :
  exists scans files, world_scan = Ok scans /\ planned_access scans <> [] /\ List.concat (map fs_files scans) ≡ₚ files /\ List.length files = 1%nat.
Proof.
  pose proof world_plan as Hp. destruct world_scan as [scans|] eqn:E; [|discriminate Hp].
  destruct (scan_reads_undeleted_rows (HX := plain_hex) (SO := plain_scalars) (Pool := fixed_pool 1000) (SU := bucket_urls) (RL := gset_roaring_laws) (DL := world_source_laws)
    (fun _ => Ok tt) world_footer (Some 3) world_table (fun _ => Ok tt) ltac:(intros l s n [= <-]; repeat constructor; lia) world_sizes None None scans E) as (files & H1 & H2 & _).
  exists scans, files. split; [done|]. split; [rewrite Hp; discriminate|]. split; [exact H1|exact H2].
Defined.

(** A join of two one-file sides. *)
Definition two_sides : option (result UdfError (gmap string ParquetScanTable)) :=
  register_join_tables (MkOptions None None 0 false) 0 (fun _ => Ok "s3://bucket") (fun _ => Ok [MkField "n" TInt64 true ∅]) (fun _ => Ok tt) (fun _ => None) (fun _ => "")
    (fun _ => "") (fun _ => None) (fun _ => None) (fun _ => "") side_spec side_storage ∅.

Lemma join_sides_register_their_own_witness :
  exists session dim_table, two_sides = Some (Ok session) /\ session !! JOIN_DIM_TABLE = Some dim_table /\ st_secrets dim_table = ["dimension"].
Proof.
  assert (Hok : match two_sides with Some (Ok _) => true | _ => false end = true) by (vm_compute; reflexivity).
  destruct two_sides as [[session|]|] eqn:E; try discriminate Hok. unfold two_sides in E.
  destruct (join_sides_register_their_own _ _ _ _ _ _ _ _ _ _ _ side_spec side_storage ∅ session E) as (j & dim & ft & dt & Hj & Hd & _ & _ & Hdt & _ & Hr & _).
  exists session, dt. split; [done|]. split; [exact Hdt|]. rewrite (rf_secrets _ _ _ _ _ _ Hr). injection Hd as <-. reflexivity.
Defined.

Lemma row_filters_spare_nested_witness :
  let schema := [MkLogicalField (Some 1) "doc" "utf8" true None (Some (NList None)) None] in
  let spec : ScanSpec unit := MkScanSpec (MkCommon "s3://b/t" [] None None [] None None false schema [] None [] (SConnection "C" false) 1 1 1 tt 0 1 false) [] in
  session_pushdown_filters (session_config_for_spec spec) = false.
Proof.
  intros schema spec.
  assert (Hres : ColumnBinding.for_logical_schema (fun _ => None) (fun _ => None) (fun _ => "") schema []
    = Ok (ColumnBinding.MkFieldIdResolution [] ∅ ∅ {["doc" := NList None]})) by (vm_compute; reflexivity).
  pose proof (row_filters_spare_nested (MkOptions None None 0 false) 0 (fun _ => None) (fun _ => None) (fun _ => "") spec schema [] _ eq_refl (or_introl eq_refl) Hres) as H.
  by apply orb_false_iff in H as [H _].
Defined.
