(* ===== verification/ScanRun.v ===== *)
(** One scan invocation: the drivers of crates/lakehouse-engine/src/scan/mod.rs,
    raw_scan.rs, join_scan.rs and partial_agg.rs, from the two input texts to the rows
    emitted, and the footer diagnostic of diagnostics.rs. DataFusion plans and runs a
    statement over the registered tables; logging has no effect on the rows. *)

From stdpp Require Import base list strings numbers gmap.
From Stdlib Require Import Ascii String ZArith NArith Lia SpecFloat.
From S2P Require Import Prelude ExasolType ArrowTypes CheckedDiv Redaction Storage ScanSpec ScanFiles CommonSpec SealedStorage PartitionValues AggPlans Emit StoreRouting ScanSql ScanTable.

Local Open Scope string_scope.

Notation tables := (gmap string ParquetScanTable).

(** ** diagnostics.rs *)

Inductive OpenerCoverage := EveryAssignedFile | MayStopEarly.

(** [recorded]: the footers cached while access plans were built; [hits]: the hits of the
    entries the metadata cache still has. *)
Definition footer_refetch_count (recorded : gset (list string)) (hits : gmap (list string) N) (coverage : OpenerCoverage) : N :=
  N.of_nat (List.length (List.filter (fun path =>
    match hits !! path with
    | Some n => (n =? 0)%N && match coverage with EveryAssignedFile => true | MayStopEarly => false end
    | None => true
    end) (elements recorded))).

Definition record_access_plan_cached_footer (recorded : gset (list string)) (path : list string) : gset (list string) := {[path]} ∪ recorded.
Definition reset_access_plan_cached_footers : gset (list string) := ∅.

(** ** Runtimes *)

Inductive RuntimeKind := CurrentThread | MultiThread (worker_threads : N).
Definition runtime_kind (threads : N) : RuntimeKind := if (threads <=? 1)%N then CurrentThread else MultiThread threads.

Section Run.
Context {UC : UnicodeCase} {Other : Type} {CH : Chrono} {F : Type}.
Notation array := (Array (Other := Other)).
Notation batch := (RecordBatch (Other := Other)).
(** Emission: Arrow's cast and batches, the database's answers, the clock, texts. *)
Context (f64_of_f32 : spec_float -> spec_float) (cell_display : forall t, native (Other := Other) t -> string)
  (cast_with_options : array -> DataType -> result string array) (type_debug : DataType -> string) (try_new : list Field -> list array -> result string batch)
  (resources_exhausted : DynError -> option string) (error_chain : DynError -> string) (display_f64 : spec_float -> string) (sdk_display : SdkError -> string)
  (takes_batch : batch -> result SdkError unit) (takes_row : list Value -> result SdkError unit)
  (show_decimal : Z -> Z -> string) (show_date : NaiveDate -> string) (show_datetime : NaiveDateTime -> string) (clock : nat -> N).
(** Registration. *)
Context (default_options : ParquetOptions) (inlist_pushdown_max : N)
  (listing_store_key : string -> result string string) (infer_schema : string -> result DynError (list Field)) (register_table : string -> result string unit)
  (parse_f32 parse_f64 : string -> option Z) (type_display : DataType -> string).
(** DataFusion: a statement's plan over the session's tables, its distinct rows, and its
    batches as a stream or all at once; the failure the session recorded. *)
Context {Plan : Type} (sql : tables -> string -> result string Plan) (distinct_plan : Plan -> result string Plan)
  (execute_stream : Plan -> result DynError (list (result DynError batch))) (collect : Plan -> result DynError (list batch))
  (recorded_failure : option string).

Notation ctx_t := (UdfContext (Other := Other) (CH := CH)).
Notation classify e secrets := (classify_scan_error resources_exhausted error_chain display_f64 e secrets).
Notation register_one := (register_files default_options inlist_pushdown_max listing_store_key infer_schema register_table resources_exhausted error_chain display_f64 parse_f32 parse_f64 type_display).
Notation register_both := (register_join_tables default_options inlist_pushdown_max listing_store_key infer_schema register_table resources_exhausted error_chain display_f64 parse_f32 parse_f64 type_display).

Definition to_sdk {A} (r : result UdfError A) : result SdkError A := match r with Ok a => Ok a | Err (User m) => Err (user m) end.

(** [ctx.table(name)]: a registered provider's schema, in declared order. *)
Definition session_table (session : tables) (name : string) : result string (list Field) :=
  match session !! name with Some t => Ok (groups_declared (st_schema t)) | None => Err ("table '" ++ name ++ "' not found") end.

Definition plan_sql (session : tables) (statement label : string) : result SdkError Plan :=
  match sql session statement with Ok p => Ok p | Err e => Err (user (label ++ ": " ++ e)) end.

(** ** raw_scan.rs *)

Definition RAW_SQL_ERROR : string := "DataFusion SQL error".

Definition emit_dataframe (ctx : ctx_t) (df : Plan) (storage : ResolvedScanStorage) (timers : PhaseTimers) : ctx_t * PhaseTimers * result SdkError unit :=
  let secrets := all_secret_values storage in
  match execute_stream df with
  | Err e => (ctx, timers, Err (classify e secrets))
  | Ok stream =>
      let '(ctx, timers, emitted) := emit_stream cast_with_options type_debug try_new resources_exhausted error_chain display_f64 takes_batch clock ctx stream secrets timers in
      (ctx, timers, let? _ := emitted in Ok tt)
  end.

Definition build_dataframe (spec : ScanSpec F) (storage : ResolvedScanStorage) : result SdkError Plan :=
  let? session := to_sdk (register_one spec storage ∅ SCAN_TARGET) in
  let? statement := to_sdk (build_scan_sql (session_table session) SCAN_TARGET spec) in
  let? df := plan_sql session statement RAW_SQL_ERROR in
  if distinct (common spec) then
    match distinct_plan df with Ok df => Ok df | Err e => Err (user ("DataFusion distinct error: " ++ e)) end
  else Ok df.

Definition run_raw_scan_with_session (ctx : ctx_t) (spec : ScanSpec F) (storage : ResolvedScanStorage) (timers : PhaseTimers) : ctx_t * PhaseTimers * result SdkError unit :=
  match build_dataframe spec storage with
  | Err e => (ctx, timers, Err e)
  | Ok df => emit_dataframe ctx df storage timers
  end.

(** ** join_scan.rs: [None] is the panic of a spec without a join block. *)

Definition build_join_dataframe (spec : ScanSpec F) (storage : ResolvedScanStorage) : option (result SdkError Plan) :=
  registered ← register_both spec storage ∅;
  match registered with
  | Err (User m) => Some (Err (user m))
  | Ok session =>
      statement ← build_join_sql (session_table session) JOIN_FACT_TABLE JOIN_DIM_TABLE spec;
      Some (let? statement := to_sdk statement in plan_sql session statement "join SQL error")
  end.

Definition run_join_scan_with_session (ctx : ctx_t) (spec : ScanSpec F) (storage : ResolvedScanStorage) (timers : PhaseTimers) : option (ctx_t * PhaseTimers * result SdkError unit) :=
  df ← build_join_dataframe spec storage;
  Some match df with
       | Err e => (ctx, timers, Err e)
       | Ok df => emit_dataframe ctx df storage timers
       end.

(** ** partial_agg.rs *)

Definition partial_plan (spec : ScanSpec F) (storage : ResolvedScanStorage) (aggregates : list AggregatePlan) (label : string) : result SdkError Plan :=
  let? session := to_sdk (register_one spec storage ∅ SCAN_TARGET) in
  let? statement := to_sdk (build_partial_sql (session_table session) spec aggregates) in
  plan_sql session statement label.

Definition run_grouped_partial_aggregate (ctx : ctx_t) (spec : ScanSpec F) (storage : ResolvedScanStorage) (group_keys : list string) (aggregates : list AggregatePlan) : ctx_t * result SdkError unit :=
  let secrets := all_secret_values storage in
  match partial_plan spec storage aggregates "grouped partial aggregate SQL error" with
  | Err e => (ctx, Err e)
  | Ok df =>
      match execute_stream df with
      | Err e => (ctx, Err (classify e secrets))
      | Ok stream =>
          match declared_output_columns ctx with
          | Err e => (ctx, Err e)
          | Ok declared => emit_grouped_stream f64_of_f32 cell_display cast_with_options type_debug resources_exhausted error_chain display_f64 takes_row show_decimal show_date show_datetime
              ctx stream secrets declared (List.length group_keys)
          end
      end
  end.

Definition run_partial_aggregate (ctx : ctx_t) (spec : ScanSpec F) (storage : ResolvedScanStorage) (aggregates : list AggregatePlan) : ctx_t * result SdkError unit :=
  match spec_group_keys (common spec) with
  | Some ((_ :: _) as group_keys) => run_grouped_partial_aggregate ctx spec storage group_keys aggregates
  | _ =>
      let secrets := all_secret_values storage in
      match partial_plan spec storage aggregates "partial aggregate SQL error" with
      | Err e => (ctx, Err e)
      | Ok df =>
          match collect df with
          | Err e => (ctx, Err (classify e secrets))
          | Ok batches =>
              match (let? declared := declared_output_columns ctx in partial_row f64_of_f32 cell_display cast_with_options type_debug aggregates batches declared) with
              | Err e => (ctx, Err e)
              | Ok row => emit takes_row ctx row
              end
          end
      end
  end.

(** ** scan/mod.rs *)

Definition opener_coverage (spec : ScanSpec F) : OpenerCoverage :=
  match limit (common spec), join_spec (common spec) with None, None => EveryAssignedFile | _, _ => MayStopEarly end.

Definition run_scan_dispatch (ctx : ctx_t) (spec : ScanSpec F) (storage : ResolvedScanStorage) : option (ctx_t * result SdkError unit) :=
  let timers := timers_start (clock 0) in
  result_ ←
    match join_spec (common spec), aggregates (common spec) with
    | Some _, _ => '(ctx, _, r) ← run_join_scan_with_session ctx spec storage timers; Some (ctx, r)
    | None, Some aggs => Some (run_partial_aggregate ctx spec storage aggs)
    | None, None => let '(ctx, _, r) := run_raw_scan_with_session ctx spec storage timers in Some (ctx, r)
    end;
  let '(ctx, r) := result_ in
  Some (ctx, match r with
             | Ok _ => Ok tt
             | Err e => Err (reframe_raised_failure sdk_display recorded_failure e (all_secret_values storage))
             end).

(** [build_session]: the stores of the session, or why there are none. *)
Definition run_scan_one (build_session : result UdfError (RuntimeEnv * Registry)) (ctx : ctx_t) (spec : ScanSpec F) (storage : ResolvedScanStorage) : option (ctx_t * result SdkError unit) :=
  let secrets := all_secret_values storage in
  match to_sdk build_session with
  | Err e => Some (ctx, Err (redact_scan_error e secrets))
  | Ok _ =>
      '(ctx, r) ← run_scan_dispatch ctx spec storage;
      Some (ctx, match r with Ok _ => Ok tt | Err e => Err (redact_scan_error e secrets) end)
  end.

(** [get_string] of the two inputs, and the parser of the parts. *)
Definition read_scan_spec (get_string : nat -> result SdkError (option string)) (from_parts_json : string -> string -> result string (ScanSpec F)) : result SdkError (ScanSpec F) :=
  let? common_json := (let? v := get_string 0%nat in ok_or v (user "scan common input is NULL")) in
  let? files_json := (let? v := get_string 1%nat in ok_or v (user "scan files input is NULL")) in
  match from_parts_json common_json files_json with Ok spec => Ok spec | Err e => Err (user e) end.

Definition run_scan (get_string : nat -> result SdkError (option string)) (from_parts_json : string -> string -> result string (ScanSpec F))
    (resolve : CommonScanSpec F -> result UdfError ResolvedScanStorage) (build_runtime : RuntimeKind -> result string unit)
    (build_session : ScanSpec F -> ResolvedScanStorage -> result UdfError (RuntimeEnv * Registry)) (ctx : ctx_t) : option (ctx_t * result SdkError unit) :=
  match (let? spec := read_scan_spec get_string from_parts_json in
         let? storage := to_sdk (resolve (common spec)) in
         match build_runtime (runtime_kind (df_threads_per_udf (common spec))) with Ok _ => Ok (spec, storage) | Err e => Err (user e) end) with
  | Err e => Some (ctx, Err e)
  | Ok (spec, storage) => run_scan_one (build_session spec storage) ctx spec storage
  end.

(** ** What an invocation hands over *)

Definition redacted (e : SdkError) (secrets : list string) : Prop := exists message, error_message e = redact_error_text message secrets.

Lemma emit_rows_only (ctx : ctx_t) row : emitted_batches (emit takes_row ctx row).1 = emitted_batches ctx
  /\ match (emit takes_row ctx row).2 with Ok _ => emitted_rows (emit takes_row ctx row).1 = (emitted_rows ctx ++ [row])%list | Err _ => emitted_rows (emit takes_row ctx row).1 = emitted_rows ctx end.
Proof using Type. unfold emit. by destruct (takes_row row). Qed.

Lemma emit_stream_batches_only stream secrets timers (ctx : ctx_t) :
  emitted_rows (emit_stream cast_with_options type_debug try_new resources_exhausted error_chain display_f64 takes_batch clock ctx stream secrets timers).1.1 = emitted_rows ctx.
Proof using Type.
  unfold emit_stream. destruct (declared_output_columns ctx) as [declared|]; [|done]. generalize (seal_startup timers (clock 0%nat)) as ts. generalize 1%nat as k. generalize 0%N as total.
  revert ctx. induction stream as [|fetched stream IH]; intros ctx total k ts; cbn [emit_loop]; [done|].
  assert (H1 : emitted_rows (emit_one_batch cast_with_options type_debug try_new resources_exhausted error_chain display_f64 takes_batch ctx fetched secrets declared).1 = emitted_rows ctx).
  { unfold emit_one_batch, emit_batch. destruct fetched; [|done]. destruct (coerce_batch_to_exa_types _ _ _ _ _); [|done]. by destruct (takes_batch _). }
  destruct (emit_one_batch _ _ _ _ _ _ _ _ _ _ _) as [ctx1 [rows|e]]; cbn [fst] in H1; [|done]. by rewrite IH.
Qed.

Lemma grouped_rows_only stream secrets declared n (ctx : ctx_t) :
  emitted_batches (emit_grouped_stream f64_of_f32 cell_display cast_with_options type_debug resources_exhausted error_chain display_f64 takes_row show_decimal show_date show_datetime ctx stream secrets declared n).1
  = emitted_batches ctx.
Proof using Type.
  revert ctx. induction stream as [|[b|e] stream IH]; intros ctx; cbn [emit_grouped_stream]; [done| |done].
  destruct (coerce_partial_agg_columns _ _ _ _ _) as [columns|]; [|done].
  assert (Hr : forall rows row (ctx : ctx_t), emitted_batches (emit_grouped_rows f64_of_f32 cell_display display_f64 takes_row show_decimal show_date show_datetime ctx columns n row rows).1 = emitted_batches ctx).
  { induction rows as [|rows IHr]; intros row c; cbn [emit_grouped_rows]; [done|]. destruct (grouped_row _ _ _ _ _ _ _ _ _) as [values|]; [|done].
    pose proof (proj1 (emit_rows_only c values)) as He. destruct (emit takes_row c values) as [c1 [|]]; cbn [fst] in He; [|done]. by rewrite IHr. }
  specialize (Hr (num_rows b) 0%nat ctx). destruct (emit_grouped_rows _ _ _ _ _ _ _ _ _ _ _ _) as [c1 [|]]; cbn [fst] in Hr; [|done]. by rewrite IH.
Qed.

(** What the shape of a spec allows an invocation to hand over. *)
Definition shaped (spec : ScanSpec F) (ctx ctx' : ctx_t) (r : result SdkError unit) : Prop :=
  match join_spec (common spec), aggregates (common spec) with
  | None, Some aggs =>
      emitted_batches ctx' = emitted_batches ctx
      /\ match spec_group_keys (common spec), r with
         | (None | Some []), Ok _ => exists declared batches row, declared_output_columns ctx = Ok declared
             /\ partial_row f64_of_f32 cell_display cast_with_options type_debug aggs batches declared = Ok row /\ emitted_rows ctx' = (emitted_rows ctx ++ [row])%list
         | (None | Some []), Err _ => emitted_rows ctx' = emitted_rows ctx
         | Some (_ :: _), _ => True
         end
  | _, _ => emitted_rows ctx' = emitted_rows ctx
  end.

Lemma emit_dataframe_rows (ctx : ctx_t) df storage timers : emitted_rows (emit_dataframe ctx df storage timers).1.1 = emitted_rows ctx.
Proof using Type.
  unfold emit_dataframe. destruct (execute_stream df) as [stream|]; [|done]. pose proof (emit_stream_batches_only stream (all_secret_values storage) timers ctx) as H.
  by destruct (emit_stream _ _ _ _ _ _ _ _ _ _ _ _) as [[c t] r].
Qed.

Lemma run_partial_shaped (ctx : ctx_t) (spec : ScanSpec F) storage aggs : join_spec (common spec) = None -> aggregates (common spec) = Some aggs ->
  shaped spec ctx (run_partial_aggregate ctx spec storage aggs).1 (run_partial_aggregate ctx spec storage aggs).2.
Proof using Type.
  intros Hj Ha. unfold shaped. rewrite Hj, Ha. unfold run_partial_aggregate.
  assert (Hsingle : forall label, let out := match partial_plan spec storage aggs label with
      | Err e => (ctx, Err e)
      | Ok df => match collect df with
          | Err e => (ctx, Err (classify e (all_secret_values storage)))
          | Ok batches => match (let? declared := declared_output_columns ctx in partial_row f64_of_f32 cell_display cast_with_options type_debug aggs batches declared) with
              | Err e => (ctx, Err e) | Ok row => emit takes_row ctx row end end end in
    emitted_batches out.1 = emitted_batches ctx /\ match out.2 with
      | Ok _ => exists declared batches row, declared_output_columns ctx = Ok declared
          /\ partial_row f64_of_f32 cell_display cast_with_options type_debug aggs batches declared = Ok row /\ emitted_rows out.1 = (emitted_rows ctx ++ [row])%list
      | Err _ => emitted_rows out.1 = emitted_rows ctx end).
  { intros label. cbv zeta. destruct (partial_plan spec storage aggs label) as [df|]; [|done]. destruct (collect df) as [batches|]; [|done].
    destruct (declared_output_columns ctx) as [declared|]; [|done]. destruct (partial_row _ _ _ _ aggs batches declared) as [row|] eqn:Er; [|done].
    destruct (emit_rows_only ctx row) as [H1 H2]. split; [done|]. destruct (emit takes_row ctx row) as [c [|]]; cbn [fst snd] in *; [|done]. by exists declared, batches, row. }
  destruct (spec_group_keys (common spec)) as [[|key keys]|]; [apply (Hsingle "partial aggregate SQL error")| |apply (Hsingle "partial aggregate SQL error")].
  split; [|done]. unfold run_grouped_partial_aggregate. destruct (partial_plan _ _ _ _) as [df|]; [|done]. destruct (execute_stream df) as [stream|]; [|done].
  destruct (declared_output_columns ctx) as [declared|]; [|done]. apply grouped_rows_only.
Qed.

End Run.

(** ** At work: COUNT over a shard whose statement gives no batch *)

Definition count_spec : ScanSpec unit :=
  MkScanSpec (MkCommon "s3://bucket/t" [] None None [] (Some [count_plan]) None false [] [] None [] (SConnection "C" false) 1 1 1 tt 0 1 false) [plain_entry "f"].
Definition count_storage : ResolvedScanStorage := MkResolvedStorage (Adls "acct" (Sas "token")) None.
Definition count_context : UdfContext (Other := unit) (CH := plain_chrono) := MkContext [Ok count_column] [] [].
Definition count_run (collected : result DynError (list RecordBatch)) : option (UdfContext * result SdkError unit) :=
  run_scan_one (UC := ascii_case) (CH := plain_chrono) id (fun _ _ => "") integer_cast (fun _ => "") plain_batch (fun _ => None) (fun _ => "403 for token") (fun _ => "") (fun e => error_message e)
    (fun _ => Ok tt) (fun _ => Ok tt) (fun _ _ => "") (fun _ => "") (fun _ => "") N.of_nat (MkOptions None None 0 false) 0 (fun _ => Ok "s3://bucket") (fun _ => Ok [MkField "n" TInt64 true ∅]) (fun _ => Ok tt)
    (fun _ => None) (fun _ => None) (fun _ => "") (fun _ _ => Ok tt) Ok (fun _ => Ok []) (fun _ => collected) None (Ok (MkRuntimeEnv (FairSpillPool 1) [], ∅)) count_context count_spec count_storage.

Example counted_none : count_run (Ok []) = Some (MkContext [Ok count_column] [] [[VNumeric 0 0]], Ok tt).
Proof. vm_compute. reflexivity. Qed.
Example unread_redacted : count_run (Err (EExecution "gone")) = Some (count_context, Err (user "scan failed: assigned data could not be read: 403 for [REDACTED]")).
Proof. vm_compute. reflexivity. Qed.

