(* ===== verification/ColumnReads.v ===== *)
(** The reading side of crates/lakehouse-engine/src/scan/field_id_projection.rs: how a
    data file's arrays and expressions are adapted to the table's columns once
    [ColumnBinding] has bound them. A nested value is reshaped to the declared members
    and rendered as JSON, and an expression over the table's columns is rewritten to one
    over the file's. DataFusion's default adapter and its tree traversals are a class
    with their documented laws. *)

From stdpp Require Import base list strings numbers gmap.
From Stdlib Require Import Ascii String ZArith NArith Lia.
From S2P Require Import Prelude Text Hex ArrowTypes TypeMapping ExasolRules ScanSpec ScanSql ColumnBinding Rendering.

Local Open Scope string_scope.

(** ** Nested members *)

Definition resolve_member (members : option NestedMembers) (physical : Field) (mapping : list NameMappingEntry) : NestedResolution :=
  match members with Some members => resolve_nested_field members physical mapping | None => verbatim physical end.

(** [f.with_name(n)] of a resolution's field. *)
Definition renamed (r : NestedResolution) (name : string) : NestedResolution := MkResolution (with_name (resolved_field r) name) (resolved_members r).

Definition resolve_slot (children : list Field) (mapping : list NameMappingEntry) (field : NestedField) (source : option nat) : option nat * NestedResolution :=
  (source,
   match source ≫= (fun index => children !! index) with
   | Some child => renamed (resolve_member (nested_members field) child (mapped mapping (field_name child))) (nested_name field)
   | None => verbatim (MkField (nested_name field) TNull true ∅)
   end).

Definition claim_struct_slots (children : list Field) (fields : list NestedField) (mapping : list NameMappingEntry) : list (option nat * NestedResolution) :=
  zip_with (resolve_slot children mapping) fields (claim_slots 0 children (map nested_keys fields) mapping (replicate (List.length fields) None)).

Lemma resolve_struct fields physical mapping children : field_type physical = TStruct children ->
  resolve_nested_field (NStruct fields) physical mapping =
    (let slots := claim_struct_slots children fields mapping in
     MkResolution (with_data_type physical (TStruct (map (fun s => resolved_field s.2) slots))) (RStruct slots)).
Proof.
  intros Ht. cbn [resolve_nested_field]. rewrite Ht. unfold claim_struct_slots. generalize (claim_slots 0 children (map nested_keys fields) mapping (replicate (List.length fields) None)).
  intros sources. match goal with |- context [RStruct (?go fields sources)] => assert (go fields sources = zip_with (resolve_slot children mapping) fields sources) as -> end; [|done].
  revert sources. induction fields as [|f fields IH]; intros [|source sources]; try done. cbn [zip_with]. rewrite <- IH. f_equal.
  unfold resolve_slot. f_equal. destruct (source ≫= _); [|done]. by destruct f.
Qed.

(** The members a struct's slots were claimed from are the file's. *)
Lemma claim_slots_valid children keys mapping n : forall index claimed, (index + List.length children = n)%nat ->
  (forall slot i, claimed !! slot = Some (Some i) -> (i < n)%nat) ->
  forall slot i, claim_slots index children keys mapping claimed !! slot = Some (Some i) -> (i < n)%nat.
Proof.
  induction children as [|c children IH]; intros index claimed Hn Hc slot i; cbn [claim_slots]; [by apply Hc|].
  apply IH; [cbn in Hn; lia|]. cbn in Hn. destruct (claim_logical _ _) as [s|]; [|done]. destruct (claimed !! s) as [[|]|] eqn:Es; [done| |done].
  intros slot' i'. rewrite list_lookup_insert_Some. intros [(_ & [= <-] & _)|[_ H]]; [lia|by eapply Hc].
Qed.

Lemma claim_slots_length children keys mapping : forall index claimed, List.length (claim_slots index children keys mapping claimed) = List.length claimed.
Proof.
  induction children as [|c children IH]; intros index claimed; cbn [claim_slots]; [done|]. rewrite IH.
  destruct (claim_logical _ _) as [s|]; [|done]. destruct (claimed !! s) as [[|]|]; [done|by rewrite length_insert|done].
Qed.

Section Nested.
Context {Other : Type}.
Notation array := (NArray (Other := Other)).
(** Arrow: whether a rebuilt array is accepted, an array of NULLs, a type's text. *)
Context (accepted : array -> result string unit) (new_null_array : DataType -> nat -> array) (type_display : DataType -> string).

Definition wrong_array {A} (expected : string) (a : array) : result string A :=
  Err ("nested resolution for a " ++ expected ++ " column was applied to a column of type " ++ type_display (narray_type a)).

Definition non_struct_entries {A} (t : DataType) : result string A :=
  Err ("nested resolution for a map column carries non-struct entries of type " ++ type_display t).

(** [source.column(index)] panics out of range. *)
Definition out_of_range {A} : result string A := Err "index out of bounds".

(** A list of any kind keeps its kind, its offsets and its NULLs. *)
Definition apply_to_list (apply_element : array -> result string array) (element : Field) (a : array) : result string array :=
  match a with
  | AList kind _ offsets len nulls values =>
      let? values := apply_element values in
      built accepted (AList kind element offsets len nulls values)
  | _ => wrong_array "list" a
  end.

Fixpoint apply (r : NestedResolution) (a : array) : result string array :=
  let '(MkResolution field members) := r in
  match members with
  | Verbatim => Ok a
  | RStruct slots =>
      match a with
      | AStruct _ columns len nulls =>
          let? columns := (fix go (slots : list (option nat * NestedResolution)) : result string (list array) :=
            match slots with
            | [] => Ok []
            | (source, resolution) :: slots =>
                let? column := match source with
                               | Some index => match columns !! index with Some c => apply resolution c | None => out_of_range end
                               | None => Ok (new_null_array (field_type (resolved_field resolution)) len)
                               end in
                let? rest := go slots in
                Ok (column :: rest)
            end) slots in
          built accepted (AStruct (map (fun s => resolved_field s.2) slots) columns len nulls)
      | _ => wrong_array "struct" a
      end
  | RElement element => apply_to_list (apply element) (resolved_field element) a
  | REntries key value =>
      match field_type field with
      | TMap entries sorted =>
          match a with
          | AMap _ _ _ _ offsets len keys values entry_nulls nulls =>
              match field_type entries with
              | TStruct fields =>
                  let? keys := apply key keys in
                  let? values := apply value values in
                  let? _ := accepted (AStruct fields [keys; values] (narray_len keys) entry_nulls) in
                  match fields with
                  | [k; v] => built accepted (AMap entries sorted k v offsets len keys values entry_nulls nulls)
                  | _ => out_of_range
                  end
              | other => non_struct_entries other
              end
          | _ => wrong_array "map" a
          end
      | other => non_struct_entries other
      end
  end.

(** One slot's column. *)
Definition slot_column (columns : list array) (len : nat) (slot : option nat * NestedResolution) : result string array :=
  match slot.1 with
  | Some index => match columns !! index with Some c => apply slot.2 c | None => out_of_range end
  | None => Ok (new_null_array (field_type (resolved_field slot.2)) len)
  end.

Lemma apply_struct field slots fields columns len nulls :
  apply (MkResolution field (RStruct slots)) (AStruct fields columns len nulls) =
    (let? columns := try_map (slot_column columns len) slots in built accepted (AStruct (map (fun s => resolved_field s.2) slots) columns len nulls)).
Proof.
  cbn [apply]. match goal with |- (let? columns := ?l in _) = _ => assert (l = try_map (slot_column columns len) slots) as -> end; [|done].
  induction slots as [|[source r] slots IH]; [done|]. cbn [try_map]. by rewrite <- IH.
Qed.

(** ** What the reshaped array is *)

(** An error is Arrow's own refusal of a rebuilt array. *)
Definition arrow_refused (e : string) : Prop := exists b, accepted b = Err e.

Definition applied (r : NestedResolution) (a : array) : Prop :=
  match apply r a with
  | Ok a' => narray_type a' = field_type (resolved_field r) /\ narray_wf a' /\ same_rows a a'
  | Err e => arrow_refused e
  end.

(** Arrow's array of NULLs has the type asked for. *)
Hypothesis nulls_typed : forall len, narray_type (new_null_array TNull len) = TNull /\ narray_wf (new_null_array TNull len).

Lemma field_type_with_name f n : field_type (with_name f n) = field_type f.
Proof. by destruct f. Qed.

Lemma field_type_with_data_type f t : field_type (with_data_type f t) = t.
Proof. by destruct f. Qed.

Lemma apply_renamed r n a : apply (renamed r n) a = apply r a.
Proof. destruct r as [f m]. unfold renamed. cbn [resolved_field resolved_members]. destruct m; try done. cbn [apply]. by rewrite field_type_with_name. Qed.

Lemma applied_renamed r n a : applied r a -> applied (renamed r n) a.
Proof. unfold applied. rewrite apply_renamed. unfold renamed. cbn [resolved_field]. by rewrite field_type_with_name. Qed.

Lemma applied_verbatim physical a : narray_wf a -> narray_type a = field_type physical -> applied (verbatim physical) a.
Proof. by intros Hwf Ht. Qed.

Lemma built_cases a : (built accepted a = Ok a) \/ (exists e, built accepted a = Err e /\ arrow_refused e).
Proof. unfold built, arrow_refused. destruct (accepted a) eqn:E; [by left|right]. eexists. split; [done|by exists a]. Qed.

Lemma wf_struct fields (columns : list array) len nulls : narray_wf (AStruct fields columns len nulls) <-> map field_type fields = map narray_type columns /\ Forall (narray_wf (Other := Other)) columns.
Proof.
  cbn [narray_wf]. apply and_iff_compat_l. induction columns as [|c columns IH]; [split; [by constructor|done]|]. rewrite Forall_cons, <- IH. done.
Qed.

(** Nested types are nested arrays. *)
Lemma struct_array (a : array) children : narray_wf a -> narray_type a = TStruct children -> exists columns len nulls, a = AStruct children columns len nulls.
Proof.
  intros Hwf Ht. destruct a as [t vs|t vs|[]|fields columns len nulls|]; cbn in Ht; try discriminate Ht.
  - subst t. discriminate Hwf.
  - subst t. discriminate Hwf.
  - injection Ht as ->. by eexists _, _, _.
Qed.

Lemma map_array (a : array) entries sorted : narray_wf a -> narray_type a = TMap entries sorted ->
  exists key value offsets len keys values entry_nulls nulls, a = AMap entries sorted key value offsets len keys values entry_nulls nulls.
Proof.
  intros Hwf Ht. destruct a as [t vs|t vs|[]| |]; cbn in Ht; try discriminate Ht.
  - subst t. discriminate Hwf.
  - subst t. discriminate Hwf.
  - injection Ht as -> ->. by repeat eexists.
Qed.

Lemma list_array (a : array) t : narray_wf a -> narray_type a = t ->
  match t with
  | TList element => exists offsets len nulls values, a = AList PlainList element offsets len nulls values
  | TLargeList element => exists offsets len nulls values, a = AList LargeListKind element offsets len nulls values
  | TFixedSizeList element size => exists offsets len nulls values, a = AList (FixedList size) element offsets len nulls values
  | _ => True
  end.
Proof.
  intros Hwf <-. destruct a as [t vs|t vs|[]| |]; cbn; try done; try by repeat eexists.
  - destruct t; try done; discriminate Hwf.
  - destruct t; try done; discriminate Hwf.
Qed.

Lemma applied_slots columns len slots :
  Forall (fun s => match s.1 with Some i => exists c, columns !! i = Some c /\ applied s.2 c | None => field_type (resolved_field s.2) = TNull end) slots ->
  match try_map (slot_column columns len) slots with
  | Ok out => map (fun s => field_type (resolved_field s.2)) slots = map narray_type out /\ Forall (narray_wf (Other := Other)) out
  | Err e => arrow_refused e
  end.
Proof.
  induction 1 as [|[source r] slots Hs _ IH]; [by split|]. cbn [try_map]. unfold slot_column at 1. cbn [fst snd] in *. destruct source as [i|].
  - destruct Hs as (c & -> & Ha). unfold applied in Ha. destruct (apply r c) as [c'|e]; [|done]. destruct Ha as (Ht & Hwf & _). cbn.
    destruct (try_map _ slots) as [out|]; [|done]. cbn. destruct IH as [IH Hf]. split; [by rewrite Ht, IH|by constructor].
  - cbn. destruct (try_map _ slots) as [out|]; [|done]. cbn. destruct IH as [IH Hf]. rewrite Hs. destruct (nulls_typed len) as [Ht Hw]. split; [by rewrite Ht, IH|by constructor].
Qed.

Lemma zip_slots (f : NestedField -> option nat -> option nat * NestedResolution) fields sources P :
  (forall field source, field ∈ fields -> source ∈ sources -> P (f field source)) -> Forall P (zip_with f fields sources).
Proof.
  revert sources. induction fields as [|x fields IH]; intros [|y sources] H; cbn; [constructor..|].
  constructor; [apply H; by left|]. apply IH. intros field source Hf Hs. apply H; by right.
Qed.

Lemma claimed_slots_applied fields children mapping (columns : list array) :
  Forall (fun f => forall m, nested_members f = Some m -> forall physical mapping a, narray_wf a -> narray_type a = field_type physical -> applied (resolve_nested_field m physical mapping) a) fields ->
  map field_type children = map narray_type columns -> Forall (narray_wf (Other := Other)) columns ->
  Forall (fun s => match s.1 with Some i => exists c, columns !! i = Some c /\ applied s.2 c | None => field_type (resolved_field s.2) = TNull end)
    (claim_struct_slots children fields mapping).
Proof.
  intros IH Ht Hwf. apply zip_slots. intros field source Hf Hs. unfold resolve_slot. cbn [fst snd]. destruct source as [i|]; [|done].
  apply list_elem_of_lookup in Hs as [slot Hs]. apply (claim_slots_valid _ _ _ (List.length children)) in Hs; [|done|].
  2: { intros s j Hr. apply lookup_replicate in Hr as [? _]. discriminate. }
  apply lookup_lt_is_Some in Hs as [child Hc]. cbn. rewrite Hc. cbn.
  assert (map field_type children !! i = Some (field_type child)) as Hi by by rewrite list_lookup_fmap, Hc.
  rewrite Ht, list_lookup_fmap in Hi. destruct (columns !! i) as [c|] eqn:Ec; [|done]. injection Hi as Hi. exists c. split; [done|]. apply applied_renamed.
  assert (narray_wf c) by (rewrite Forall_lookup in Hwf; by eapply Hwf). unfold resolve_member. destruct (nested_members field) as [m|] eqn:Em; [|by apply applied_verbatim].
  rewrite Forall_forall in IH. by apply (IH _ Hf m Em).
Qed.

Lemma applied_element kind element offsets len nulls (values : array) physical (wrap : Field -> DataType) r :
  (forall f, wrap f = narray_type (AList kind f offsets len nulls values)) -> applied r values ->
  applied (MkResolution (with_data_type physical (wrap (resolved_field r))) (RElement r)) (AList kind element offsets len nulls values).
Proof.
  intros Hw Ha. unfold applied in *. cbn [apply apply_to_list resolved_field]. destruct (apply r values) as [values'|]; [|done]. destruct Ha as (Ht & Hwf & _). cbn.
  destruct (built_cases (AList kind (resolved_field r) offsets len nulls values')) as [->|(e & -> & He)]; [|done].
  rewrite field_type_with_data_type, Hw. split_and!; [by destruct kind|by split|done].
Qed.

Lemma applied_map key value physical entries sorted k v offsets len (keys values : array) entry_nulls nulls k0 v0 :
  applied key keys -> applied value values -> resolved_field key = k -> resolved_field value = v ->
  applied (MkResolution (with_data_type physical (TMap (with_data_type entries (TStruct [k; v])) sorted)) (REntries key value))
    (AMap entries sorted k0 v0 offsets len keys values entry_nulls nulls).
Proof.
  intros Hk Hv <- <-. unfold applied in *. cbn [apply resolved_field]. rewrite !field_type_with_data_type. destruct (apply key keys) as [keys'|]; [|done]. cbn.
  destruct (apply value values) as [values'|]; [|done]. cbn. destruct Hk as (Hkt & Hkw & _), Hv as (Hvt & Hvw & _).
  destruct (accepted (AStruct _ _ _ _)) eqn:Ea; [|by eexists]. cbn.
  destruct (built_cases (AMap (with_data_type entries (TStruct [resolved_field key; resolved_field value])) sorted (resolved_field key) (resolved_field value) offsets len keys' values' entry_nulls nulls)) as [->|(e & -> & He)]; [|done].
  split_and!; [done| |done]. cbn [narray_wf]. by rewrite field_type_with_data_type.
Qed.

(** A file's nested array and its resolution, whatever the two trees look like. *)
Lemma apply_resolved members : forall physical mapping (a : array), narray_wf a -> narray_type a = field_type physical ->
  applied (resolve_nested_field members physical mapping) a.
Proof.
  induction members as [inner IH|fields IH|ko vo IHk IHv] using nested_members_ind'; intros physical mapping a Hwf Ht.
  - cbn [resolve_nested_field]. pose proof (list_array a _ Hwf Ht) as Hl.
    assert (forall element (values : array), narray_wf values -> field_type element = narray_type values -> applied (resolve_member inner element (mapped mapping "element")) values) as Hm.
    { intros element values Hw He. unfold resolve_member. destruct inner as [m|]; [by apply IH|by apply applied_verbatim]. }
    destruct (field_type physical) eqn:Ep; try (apply applied_verbatim; [done|by rewrite Ep]);
      destruct Hl as (offsets & len & nulls & values & ->); destruct Hwf as [He Hw].
    + apply (applied_element PlainList _ _ _ _ _ physical TList); [done|by apply Hm].
    + apply (applied_element (FixedList size) _ _ _ _ _ physical (fun f => TFixedSizeList f size)); [done|by apply Hm].
    + apply (applied_element LargeListKind _ _ _ _ _ physical TLargeList); [done|by apply Hm].
  - destruct (field_type physical) eqn:Ep; try (cbn [resolve_nested_field]; rewrite Ep; apply applied_verbatim; [done|by rewrite Ep]).
    rewrite (resolve_struct _ _ _ _ Ep). destruct (struct_array a _ Hwf Ht) as (columns & len & nulls & ->). apply wf_struct in Hwf as [Hty Hwf].
    cbv zeta. unfold applied. rewrite apply_struct. cbn [resolved_field]. rewrite field_type_with_data_type.
    pose proof (applied_slots columns len _ (claimed_slots_applied fields _ mapping columns IH Hty Hwf)) as Hs.
    destruct (try_map _ _) as [out|]; [|done]. cbn. destruct Hs as [Hs Hw].
    destruct (built_cases (AStruct (map (fun s => resolved_field s.2) (claim_struct_slots fields0 fields mapping)) out len nulls)) as [->|(e & -> & He)]; [|done].
    split_and!; [done| |done]. apply wf_struct. by rewrite map_map.
  - cbn [resolve_nested_field]. destruct (field_type physical) eqn:Ep; try (apply applied_verbatim; [done|by rewrite Ep]).
    destruct (map_array a _ _ Hwf Ht) as (key & value & offsets & len & keys & values & en & nulls & ->). destruct Hwf as (He & Hk & Hv & Hwk & Hwv). rewrite He.
    assert (forall o f (x : array) n, (forall m, o = Some m -> forall physical mapping a, narray_wf a -> narray_type a = field_type physical -> applied (resolve_nested_field m physical mapping) a) ->
      narray_wf x -> field_type f = narray_type x -> applied (resolve_member o f (mapped mapping n)) x) as Hm.
    { intros o f x n IH Hw Hf. unfold resolve_member. destruct o as [m|]; [by apply IH|by apply applied_verbatim]. }
    apply applied_map; [by apply Hm|by apply Hm|done|done].
Qed.

(** ** Declared names *)

(** The struct members of a type bear the declared names, in the declared order, at
    every depth the two trees share. *)
Fixpoint follows (members : NestedMembers) (t : DataType) : Prop :=
  let inner (o : option NestedMembers) (f : Field) : Prop := match o with Some m => follows m (field_type f) | None => True end in
  match members, t with
  | NStruct fields, TStruct children =>
      map field_name children = map nested_name fields
      /\ (fix all (fields : list NestedField) (children : list Field) : Prop :=
           match fields, children with
           | MkNestedField _ _ _ nested :: fields, child :: children => inner nested child /\ all fields children
           | _, _ => True
           end) fields children
  | NList element, (TList f | TLargeList f | TFixedSizeList f _) => inner element f
  | NMap key value, TMap entries _ => match field_type entries with TStruct [k; v] => inner key k /\ inner value v | _ => True end
  | _, _ => True
  end.

Lemma follows_null members : follows members TNull.
Proof. by destruct members. Qed.

Lemma resolve_slot_name children mapping field source : field_name (resolved_field (resolve_slot children mapping field source).2) = nested_name field.
Proof. unfold resolve_slot. cbn [snd]. destruct (source ≫= _); [apply field_name_with_name|done]. Qed.

Lemma resolved_follows members : forall physical mapping, follows members (field_type (resolved_field (resolve_nested_field members physical mapping))).
Proof.
  assert (forall o f mapping, (forall m, o = Some m -> forall physical mapping, follows m (field_type (resolved_field (resolve_nested_field m physical mapping)))) ->
    match o with Some m => follows m (field_type (resolved_field (resolve_member o f mapping))) | None => True end) as Hm.
  { intros [m|] f mapping IH; [by apply IH|done]. }
  induction members as [inner IH|fields IH|ko vo IHk IHv] using nested_members_ind'; intros physical mapping.
  - cbn [resolve_nested_field]. destruct (field_type physical) eqn:Ep; cbn [resolved_field verbatim]; rewrite ?field_type_with_data_type, ?Ep; try done; by apply Hm.
  - destruct (field_type physical) eqn:Ep; try (cbn [resolve_nested_field]; rewrite Ep; cbn [resolved_field verbatim]; by rewrite Ep).
    rewrite (resolve_struct _ _ _ _ Ep). cbn [resolved_field]. rewrite field_type_with_data_type. unfold claim_struct_slots.
    pose proof (claim_slots_length fields0 (map nested_keys fields) mapping 0 (replicate (List.length fields) None)) as Hl. rewrite length_replicate in Hl.
    generalize dependent (claim_slots 0 fields0 (map nested_keys fields) mapping (replicate (List.length fields) None)). intros sources Hl.
    cbn [follows]. clear Ep. revert sources Hl. induction IH as [|f fields Hf _ IHf]; intros [|source sources] Hl; try discriminate Hl; [done|].
    cbn [zip_with map]. injection Hl as Hl. destruct (IHf sources Hl) as [Hn Hall]. rewrite resolve_slot_name, Hn. split; [done|]. destruct f as [id name physical_name nested]. split; [|exact Hall].
    destruct nested as [m|]; [|done]. unfold resolve_slot. cbn [snd]. destruct (source ≫= _) as [child|]; [|by apply follows_null].
    unfold renamed. cbn [resolved_field]. rewrite field_type_with_name. cbn [nested_members resolve_member]. by apply Hf.
  - cbn [resolve_nested_field]. destruct (field_type physical) eqn:Ep; try (cbn [resolved_field verbatim]; by rewrite Ep).
    destruct (field_type entries) eqn:Ee; try (cbn [resolved_field verbatim follows]; rewrite Ep; cbn [follows]; by rewrite Ee).
    destruct fields as [|k [|v [|? ?]]]; try (cbn [resolved_field verbatim follows]; rewrite Ep; cbn [follows]; by rewrite Ee).
    cbn [resolved_field]. rewrite field_type_with_data_type. cbn [follows]. rewrite field_type_with_data_type.
    split; [by apply (Hm ko k (mapped mapping "key"))|by apply (Hm vo v (mapped mapping "value"))].
Qed.

(** C29. A nested column of a data file is read as the table declares it: at every depth the
    resolved struct members bear the declared names in the declared order, and the
    reshaped array has exactly the resolved type over the same rows - the same length,
    NULL in the same places. Nothing but Arrow's own validation of a rebuilt array can
    fail: a resolution is never applied to an array of the wrong kind. *)
Theorem nested_members_read_as_declared members physical mapping (a : array) :
  narray_wf a -> narray_type a = field_type physical ->
  follows members (field_type (resolved_field (resolve_nested_field members physical mapping)))
  /\ match apply (resolve_nested_field members physical mapping) a with
     | Ok read => narray_type read = field_type (resolved_field (resolve_nested_field members physical mapping)) /\ narray_wf read /\ same_rows a read
     | Err e => arrow_refused e
     end.
Proof. intros Hwf Ht. split; [apply resolved_follows|by apply apply_resolved]. Qed.
End Nested.

(** ** Expressions *)

Unset Elimination Schemes.
(** The nodes the adapter tells apart; [Op] stands for every other DataFusion node. *)
Inductive PhysicalExpr {Op : Type} : Type :=
| EColumn (name : string) (index : nat)
| ELiteral (value : ScalarValue)
| ECast (input : PhysicalExpr) (target : Field)
| ENode (op : Op) (args : list PhysicalExpr)
| ENestedJson (input : PhysicalExpr) (resolution : NestedResolution).
Set Elimination Schemes.
Arguments PhysicalExpr : clear implicits.

Section ExprInd.
Context {Op : Type} (P : PhysicalExpr Op -> Prop).
Hypothesis Hcolumn : forall name index, P (EColumn name index).
Hypothesis Hliteral : forall value, P (ELiteral value).
Hypothesis Hcast : forall input target, P input -> P (ECast input target).
Hypothesis Hnode : forall op args, Forall P args -> P (ENode op args).
Hypothesis Hnested : forall input resolution, P input -> P (ENestedJson input resolution).

Fixpoint PhysicalExpr_ind (e : PhysicalExpr Op) : P e :=
  match e with
  | EColumn name index => Hcolumn name index
  | ELiteral value => Hliteral value
  | ECast input target => Hcast input target (PhysicalExpr_ind input)
  | ENode op args => Hnode op args ((fix go (args : list (PhysicalExpr Op)) : Forall P args :=
      match args with [] => Forall_nil_2 P | e :: args => Forall_cons_2 P e args (PhysicalExpr_ind e) (go args) end) args)
  | ENestedJson input resolution => Hnested input resolution (PhysicalExpr_ind input)
  end.
End ExprInd.

Definition children {Op} (e : PhysicalExpr Op) : list (PhysicalExpr Op) :=
  match e with
  | EColumn _ _ | ELiteral _ => []
  | ECast input _ | ENestedJson input _ => [input]
  | ENode _ args => args
  end.

Definition with_new_children {Op} (e : PhysicalExpr Op) (args : list (PhysicalExpr Op)) : result string (PhysicalExpr Op) :=
  match e, args with
  | ENestedJson _ resolution, [child] => Ok (ENestedJson child resolution)
  | ENestedJson _ _, args =>
      Err (NESTED_JSON_RENDER_UDF_NAME ++ " renders exactly one column, so it takes exactly one child expression, but " ++ show_nat (List.length args) ++ " were given")
  | ECast _ target, [child] => Ok (ECast child target)
  | ENode op _, args => Ok (ENode op args)
  | e, _ => Ok e
  end.

(** DataFusion's tree traversals. [Jump] leaves out the children of the new node. *)
Inductive Recursion := Continue | Jump.

Class TreeNode (Op : Type) := {
  visit : (PhysicalExpr Op -> result string unit) -> PhysicalExpr Op -> result string unit;
  transform_down : (PhysicalExpr Op -> result string (PhysicalExpr Op * Recursion)) -> PhysicalExpr Op -> result string (PhysicalExpr Op);
}.

(** A rewrite that goes on only below the node it was given, or at a leaf. *)
Definition descends {Op} (f : PhysicalExpr Op -> result string (PhysicalExpr Op * Recursion)) : Prop :=
  forall e e', f e = Ok (e', Continue) -> e' = e \/ children e' = [].

Class TreeNodeLaws (Op : Type) {T : TreeNode Op} := {
  visit_pre_order : forall g e, visit g e = (let? _ := g e in let? _ := try_map (visit g) (children e) in Ok tt);
  transform_pre_order : forall f e, descends f ->
    transform_down f e =
      (let? step := f e in
       match step with
       | (e', Jump) => Ok e'
       | (e', Continue) => let? args := try_map (transform_down f) (children e') in with_new_children e' args
       end);
}.

(** The first field of a name, with its index. *)
Definition field_at (schema : list Field) (name : string) : option (nat * Field) := list_find (fun f => field_name f = name) schema.

(** What DataFusion's default adapter makes of an expression over the logical schema: it
    binds a column by name, casts it where the types differ, and reads a column the file
    lacks as NULL where it may be NULL. *)
Section Default.
Context {Op : Type} (can_cast : DataType -> DataType -> bool) (logical physical : list Field).

Definition default_binding (name : string) (lf : Field) (i : nat) (pf : Field) (out : PhysicalExpr Op) : Prop :=
  (out = EColumn name i /\ field_type lf = field_type pf)
  \/ (out = ECast (EColumn name i) lf /\ lf <> pf /\ can_cast (field_type pf) (field_type lf) = true).

Inductive adapted : PhysicalExpr Op -> PhysicalExpr Op -> Prop :=
| adapted_bound name index l lf i pf out :
    field_at logical name = Some (l, lf) -> field_at physical name = Some (i, pf) -> default_binding name lf i pf out -> adapted (EColumn name index) out
| adapted_absent name index l lf :
    field_at logical name = Some (l, lf) -> field_at physical name = None -> field_nullable lf = true -> adapted (EColumn name index) (ELiteral (SvNull (field_type lf)))
| adapted_literal value : adapted (ELiteral value) (ELiteral value)
| adapted_cast input input' target : adapted input input' -> adapted (ECast input target) (ECast input' target)
| adapted_node op args args' : Forall2 adapted args args' -> adapted (ENode op args) (ENode op args')
| adapted_nested input input' resolution : adapted input input' -> adapted (ENestedJson input resolution) (ENestedJson input' resolution).
End Default.

Class DefaultAdapter (Op : Type) := {
  default_create : list Field -> list Field -> result string (PhysicalExpr Op -> result string (PhysicalExpr Op));
  can_cast : DataType -> DataType -> bool;
}.

Class DefaultAdapterLaws (Op : Type) {D : DefaultAdapter Op} := {
  default_adapts : forall logical physical rw e e', default_create logical physical = Ok rw -> rw e = Ok e' -> adapted can_cast logical physical e e';
  default_total : forall logical physical rw e e', default_create logical physical = Ok rw -> adapted can_cast logical physical e e' -> exists out, rw e = Ok out;
}.

(** ** The adapter *)

Record FieldIdExprAdapterFactory := MkAdapterFactory { factory_resolution : FieldIdResolution; factory_table_root : string }.

Record FieldIdExprAdapter {Op : Type} := MkAdapter {
  inner : PhysicalExpr Op -> result string (PhysicalExpr Op);
  physical_file_schema : list Field;
  absent_default_by_index : gmap nat ScalarValue;
  refused_by_index : gmap nat RefusedRead;
  adapter_table_root : string;
  nested_by_index : gmap nat NestedResolution;
}.
Arguments FieldIdExprAdapter : clear implicits.

Section Adapter.
Context {UC : UnicodeCase} {Op : Type} {T : TreeNode Op} {D : DefaultAdapter Op}.
Context (type_display : DataType -> string).
Notation expr := (PhysicalExpr Op).

Definition refusal (refused : RefusedRead) (table_root : string) : string :=
  "cannot read column '" ++ read_name refused ++ "' of the table at '" ++ table_root ++ "': a data file stores it as " ++ type_display (read_physical refused)
  ++ ", which its declared type " ++ type_display (read_logical refused) ++ " does not admit, so it is refused rather than cast".

Definition create (factory : FieldIdExprAdapterFactory) (logical physical : list Field) : result string (FieldIdExprAdapter Op) :=
  let binding := bind_columns logical physical (factory_resolution factory) in
  let? _ := ensure_unambiguous binding (factory_table_root factory) in
  let nested := nested_columns binding in
  let delegate_physical := delegate_physical_schema binding nested in
  let delegate_logical := delegate_logical_schema logical delegate_physical nested in
  let? inner := default_create delegate_logical delegate_physical in
  Ok (MkAdapter Op inner physical (absent_defaults binding logical (factory_resolution factory)) (refused_columns binding logical) (factory_table_root factory) nested).

Definition refuse_column (ad : FieldIdExprAdapter Op) (e : expr) : result string unit :=
  match e with
  | EColumn _ index => match refused_by_index ad !! index with Some refused => Err (refusal refused (adapter_table_root ad)) | None => Ok tt end
  | _ => Ok tt
  end.

Definition fill_default (ad : FieldIdExprAdapter Op) (e : expr) : result string (expr * Recursion) :=
  match e with
  | EColumn _ index => match absent_default_by_index ad !! index with Some value => Ok (ELiteral value, Continue) | None => Ok (e, Continue) end
  | _ => Ok (e, Continue)
  end.

(** [physical_file_schema.field(index)] panics out of range. *)
Definition bind_back (ad : FieldIdExprAdapter Op) (e : expr) : result string (expr * Recursion) :=
  match e with
  | EColumn name index =>
      match physical_file_schema ad !! index with
      | None => out_of_range
      | Some field =>
          let bound := if String.eqb (field_name field) name then e else EColumn (field_name field) index in
          match nested_by_index ad !! index with
          | Some resolution => Ok (ENestedJson bound resolution, Jump)
          | None => Ok (bound, Continue)
          end
      end
  | _ => Ok (e, Continue)
  end.

Definition rewrite (ad : FieldIdExprAdapter Op) (e : expr) : result string expr :=
  let? _ := if bool_decide (refused_by_index ad = ∅) then Ok tt else visit (refuse_column ad) e in
  let? intercepted := transform_down (fill_default ad) e in
  let? rewritten := inner ad intercepted in
  transform_down (bind_back ad) rewritten.
End Adapter.

(** ** What an expression reads *)

(** The columns an expression reads, and whether it holds no rendering yet. *)
Fixpoint columns_of {Op} (e : PhysicalExpr Op) : list (string * nat) :=
  match e with
  | EColumn name index => [(name, index)]
  | ELiteral _ => []
  | ECast input _ | ENestedJson input _ => columns_of input
  | ENode _ args => (fix go (args : list (PhysicalExpr Op)) : list (string * nat) := match args with [] => [] | e :: args => (columns_of e ++ go args)%list end) args
  end.

Fixpoint plain {Op} (e : PhysicalExpr Op) : bool :=
  match e with
  | EColumn _ _ | ELiteral _ => true
  | ECast input _ => plain input
  | ENode _ args => forallb plain args
  | ENestedJson _ _ => false
  end.

Lemma columns_of_node {Op} (op : Op) args : columns_of (ENode op args) = List.concat (map columns_of args).
Proof. cbn [columns_of]. induction args as [|e args IH]; [done|]. cbn [map List.concat]. by rewrite <- IH. Qed.

(** A map built from the indices a list's elements answer at. *)
Lemma lookup_indexed {A B} (g : nat -> A -> option B) (xs : list A) i :
  (list_to_map (omap (fun '(i, x) => (fun y => (i, y)) <$> g i x) (imap pair xs)) : gmap nat B) !! i = xs !! i ≫= g i.
Proof.
  assert (forall n, (list_to_map (omap (fun '(i, x) => (fun y => (i, y)) <$> g i x) (imap (fun i x => (n + i, x)%nat) xs)) : gmap nat B) !! i
    = (if decide (n <= i)%nat then xs !! (i - n)%nat else None) ≫= g i) as H.
  { induction xs as [|x xs IH]; intros n.
    { cbn. rewrite lookup_empty. destruct (decide (n <= i)%nat); by rewrite ?lookup_nil. }
    cbn [imap]. rewrite Nat.add_0_r.
    assert (imap ((λ i0 x0, (n + i0, x0)%nat) ∘ S) xs = imap (λ i0 x0, (S n + i0, x0)%nat) xs) as -> by (apply imap_ext; intros j y _; cbn; f_equal; lia).
    specialize (IH (S n)). set (F := fun '(i, x) => (fun y => (i, y)) <$> g i x) in *.
    assert (forall z zs, omap F (z :: zs) = match F z with Some y => y :: omap F zs | None => omap F zs end) as -> by done.
    destruct (decide (i = n)) as [->|Hne].
    - rewrite decide_True by lia. rewrite Nat.sub_diag. unfold F at 1. change ((x :: xs) !! 0%nat ≫= g n) with (g n x). destruct (g n x); cbn [fmap option_fmap option_map]; [rewrite list_to_map_cons; by rewrite lookup_insert_eq|].
      rewrite IH, decide_False by lia. done.
    - assert ((if decide (n <= i)%nat then (x :: xs) !! (i - n)%nat else None) = (if decide (S n <= i)%nat then xs !! (i - S n)%nat else None)) as ->.
      { destruct (decide (S n <= i)%nat); [rewrite decide_True by lia; by replace (i - n)%nat with (S (i - S n)) by lia|].
        destruct (decide (n <= i)%nat); [lia|done]. }
      rewrite <- IH. unfold F at 1. destruct (g n x); cbn [fmap option_fmap option_map]; [rewrite list_to_map_cons; by rewrite lookup_insert_ne|done]. }
  specialize (H 0%nat). rewrite decide_True in H by lia. by rewrite Nat.sub_0_r in H.
Qed.

Section Evaluate.
Context {Op Other : Type} {HX : Hex}.
Notation array := (NArray (Other := Other)).
Notation expr := (PhysicalExpr Op).
(** Arrow and DataFusion: the validation of arrays, NULLs, casts, the JSON encoder, a
    literal as an array of a length, and the evaluation of every other node. *)
Context (accepted : array -> result string unit) (new_null_array : DataType -> nat -> array) (type_display : DataType -> string) (utf8_error : string -> string)
  (make_encoder : array -> result string (nat -> string)) (can_cast_to_utf8 : DataType -> bool) (cast_to_utf8 : array -> result string array)
  (cast : array -> DataType -> result string array) (literal : ScalarValue -> nat -> array) (evaluate_op : Op -> list array -> nat -> result string array).

(** [NestedJsonRenderExpr::evaluate], given its input's array. *)
Definition render_resolved (resolution : NestedResolution) (a : array) : result string array :=
  let? resolved := apply accepted new_null_array type_display resolution a in
  render_nested_column_as_json type_display utf8_error accepted make_encoder can_cast_to_utf8 cast_to_utf8 resolved.

Fixpoint evaluate (column : string -> nat -> result string array) (num_rows : nat) (e : expr) : result string array :=
  match e with
  | EColumn name index => column name index
  | ELiteral value => Ok (literal value num_rows)
  | ECast input target => let? a := evaluate column num_rows input in cast a (field_type target)
  | ENode op args => let? arrays := try_map (evaluate column num_rows) args in evaluate_op op arrays num_rows
  | ENestedJson input resolution => let? a := evaluate column num_rows input in render_resolved resolution a
  end.

(** The Parquet opener resolves a column by name against the file's own schema. *)
Definition file_column (physical : list Field) (batch : list array) (name : string) (_ : nat) : result string array :=
  match field_at physical name ≫= (fun '(i, _) => batch !! i) with
  | Some a => Ok a
  | None => Err ("Unable to get field named " ++ name)
  end.

Section Exact.
Context {UC : UnicodeCase} {T : TreeNode Op} {TL : TreeNodeLaws Op} {D : DefaultAdapter Op} {DL : DefaultAdapterLaws Op}.
Context (factory : FieldIdExprAdapterFactory) (logical physical : list Field).
Notation binding := (bind_columns logical physical (factory_resolution factory)).
Notation claims := ((claims_of logical physical (factory_resolution factory)).1).

(** The file column that claimed a table column. *)
Definition source_of (l : nat) : option nat := fst <$> list_find (fun claim => claim = Some l) claims.

(** The table's column [l] in a batch of the file: the claiming column, as JSON documents
    where the table declares members, else cast to the declared type; a column the file
    lacks is its initial default, or NULL. *)
Definition declared_column (batch : list array) (num_rows : nat) (name : string) (l : nat) : result string array :=
  match logical !! l with
  | None => out_of_range
  | Some lf =>
      match source_of l with
      | Some i =>
          match batch !! i with
          | None => out_of_range
          | Some a => match nested_columns binding !! i with Some resolution => render_resolved resolution a | None => cast a (field_type lf) end
          end
      | None => Ok (literal (default (SvNull (field_type lf)) (defaults (factory_resolution factory) !! field_name lf)) num_rows)
      end
  end.

(** An expression over the table's columns. *)
Definition scoped (e : expr) : Prop :=
  plain e = true /\ forall name l, (name, l) ∈ columns_of e -> exists lf, logical !! l = Some lf /\ field_name lf = name.

Hypothesis logical_names : NoDup (map field_name logical).
Hypothesis logical_unprefixed : Forall (fun f => starts_with UNBOUND_PREFIX (field_name f) = false) logical.
Hypothesis physical_names : NoDup (map field_name physical).
(** No two of the file's columns claim one table column. *)
Hypothesis claimed_once : forall i j l, claims !! i = Some (Some l) -> claims !! j = Some (Some l) -> i = j.

Lemma source_of_Some l i : source_of l = Some i <-> claims !! i = Some (Some l).
Proof.
  unfold source_of. split.
  - destruct (list_find _ claims) as [[j c]|] eqn:E; [|done]. cbn. intros [= <-]. apply list_find_Some in E as (Hj & -> & _). done.
  - intros H. destruct (list_find (fun claim => claim = Some l) claims) as [[j c]|] eqn:E; cbn.
    + apply list_find_Some in E as (Hj & -> & _). f_equal. by eapply claimed_once.
    + exfalso. apply list_find_None in E. rewrite Forall_lookup in E. by eapply E.
Qed.

(** The renamed column of a name is the one that claimed the table column of that name. *)
Lemma renamed_source l lf : logical !! l = Some lf ->
  field_at (renamed_physical binding) (field_name lf) =
    (i ← source_of l; (fun f => (i, f)) <$> renamed_physical binding !! i).
Proof.
  intros Hl. assert (forall i g, renamed_physical binding !! i = Some g -> field_name g = field_name lf <-> source_of l = Some i) as Hb.
  { intros i g Hg. rewrite source_of_Some, <- (renamed_columns_bind_claims logical physical (factory_resolution factory) i l lf) by done.
    split; [by exists g|]. intros (g' & Hg' & E). congruence. }
  unfold field_at. destruct (list_find _ _) as [[i g]|] eqn:E.
  - apply list_find_Some in E as (Hg & En & _). apply (Hb i g Hg) in En. rewrite En. cbn. by rewrite Hg.
  - destruct (source_of l) as [i|] eqn:Es; [|done]. cbn. destruct (renamed_physical binding !! i) as [g|] eqn:Eg; [|done]. exfalso.
    apply list_find_None in E. rewrite Forall_lookup in E. apply (E i g Eg). by apply (Hb i g Eg).
Qed.

Lemma source_physical l i : source_of l = Some i -> exists pf g, physical !! i = Some pf /\ renamed_physical binding !! i = Some g /\ field_type g = field_type pf.
Proof.
  intros Hs%source_of_Some. pose proof (claims_length logical physical (factory_resolution factory)) as Hlen. unfold bind_columns.
  destruct (claims_of logical physical (factory_resolution factory)) as [cs am]. cbn [fst renamed_physical] in *.
  assert (is_Some (physical !! i)) as [pf Hp]. { apply lookup_lt_is_Some. rewrite <- Hlen. by apply lookup_lt_is_Some_1; eexists. }
  rewrite lookup_zip_with, Hp. cbn. rewrite Hs. cbn. exists pf, (rename_column (logical_keys logical (factory_resolution factory)) pf (Some l)). split_and!; [done..|].
  unfold rename_column. destruct (_ ≫= _); [destruct (String.eqb _ _)|destruct (existsb _ _)]; by rewrite ?field_type_with_name.
Qed.

Lemma nested_at i : nested_columns binding !! i =
  (f ← renamed_physical binding !! i; r ← nested binding !! field_name f; if needs_nested_json_rendering (field_type (resolved_field r)) then Some r else None).
Proof.
  unfold nested_columns. rewrite <- (lookup_indexed (fun _ f => r ← nested binding !! field_name f; if needs_nested_json_rendering (field_type (resolved_field r)) then Some r else None)).
  f_equal. f_equal. apply list_omap_ext. apply Forall2_same_length_lookup_2; [done|].
  intros j [k f] [k' f'] H H'. rewrite H in H'. injection H' as <- <-. destruct (nested binding !! field_name f); [|done]. cbn. by destruct (needs_nested_json_rendering _).
Qed.

(** The delegate's schemas, by name. *)
Lemma delegate_physical_at l lf : logical !! l = Some lf ->
  field_at (delegate_physical_schema binding (nested_columns binding)) (field_name lf) =
    (i ← source_of l; (fun f => (i, match nested_columns binding !! i with Some r => with_data_type f (field_type (resolved_field r)) | None => f end)) <$> renamed_physical binding !! i).
Proof.
  intros Hl. pose proof (renamed_source l lf Hl) as Hr. unfold field_at, delegate_physical_schema in *.
  set (h := fun i f => match nested_columns binding !! i with Some r => with_data_type f (field_type (resolved_field r)) | None => f end).
  assert (forall i f, field_name (h i f) = field_name f) as Hn. { intros i f. unfold h. destruct (nested_columns binding !! i); [|done]. by destruct f. }
  assert (forall xs n, list_find (fun f => field_name f = field_name lf) (imap (fun i => h (n + i)%nat) xs)
    = (fun '(i, f) => (i, h (n + i)%nat f)) <$> list_find (fun f => field_name f = field_name lf) xs) as Hf.
  { induction xs as [|x xs IH]; intros n; [done|]. cbn [imap list_find]. rewrite Nat.add_0_r. destruct (decide (field_name x = field_name lf)) as [E|E].
    - rewrite decide_True by by rewrite Hn. cbn. by rewrite Nat.add_0_r.
    - rewrite decide_False by by rewrite Hn. rewrite (imap_ext _ (fun i => h (S n + i)%nat)) by (intros; cbn; f_equal; lia). rewrite IH.
      destruct (list_find _ xs) as [[i f]|]; [|done]. cbn. by rewrite Nat.add_succ_r. }
  rewrite (Hf _ 0%nat), Hr. destruct (source_of l) as [i|]; [|done]. cbn. by destruct (renamed_physical binding !! i).
Qed.

Lemma name_source l lf i g : logical !! l = Some lf -> renamed_physical binding !! i = Some g -> field_name g = field_name lf <-> source_of l = Some i.
Proof.
  intros Hl Hg. rewrite source_of_Some, <- (renamed_columns_bind_claims logical physical (factory_resolution factory) i l lf) by done.
  split; [by exists g|]. intros (g' & Hg' & E). congruence.
Qed.

Notation delegate_physical := (delegate_physical_schema binding (nested_columns binding)).

Lemma delegate_physical_lookup i : delegate_physical !! i =
  (fun f => match nested_columns binding !! i with Some r => with_data_type f (field_type (resolved_field r)) | None => f end) <$> renamed_physical binding !! i.
Proof. unfold delegate_physical_schema. by rewrite list_lookup_imap. Qed.

Lemma delegate_physical_name i f : delegate_physical !! i = Some f -> exists g, renamed_physical binding !! i = Some g /\ field_name f = field_name g.
Proof.
  rewrite delegate_physical_lookup. destruct (renamed_physical binding !! i) as [g|]; [|done]. intros [= <-]. exists g. split; [done|].
  destruct (nested_columns binding !! i); [by destruct g|done].
Qed.

Lemma substituted l lf : logical !! l = Some lf ->
  (list_to_map (omap (fun '(i, _) => (fun f => (field_name f, f)) <$> delegate_physical !! i) (map_to_list (nested_columns binding))) : gmap string Field) !! field_name lf =
    (i ← source_of l; _ ← nested_columns binding !! i; delegate_physical !! i).
Proof.
  intros Hl. set (entries := omap _ _). destruct (list_to_map entries !! field_name lf) as [f|] eqn:E.
  - apply elem_of_list_to_map_2, list_elem_of_omap in E as ([i r] & Hi & Hf). apply elem_of_map_to_list in Hi.
    destruct (delegate_physical !! i) as [f'|] eqn:Ef; [|done]. injection Hf as En <-.
    destruct (delegate_physical_name _ _ Ef) as (g & Hg & Eg). assert (source_of l = Some i) as -> by (apply (name_source l lf i g Hl Hg); congruence).
    cbn. by rewrite Hi, Ef.
  - destruct (source_of l) as [i|] eqn:Es; [|done]. cbn. destruct (nested_columns binding !! i) as [r|] eqn:Er; [|done]. cbn.
    destruct (delegate_physical !! i) as [f|] eqn:Ef; [|done]. exfalso. apply not_elem_of_list_to_map_2 in E. apply E.
    destruct (delegate_physical_name _ _ Ef) as (g & Hg & Eg). apply (name_source l lf i g Hl Hg) in Es. apply list_elem_of_fmap. exists (field_name f, f).
    split; [cbn; congruence|]. apply list_elem_of_omap. exists (i, r). split; [by apply elem_of_map_to_list|]. by rewrite Ef.
Qed.

(** A rendered column has the same field on both sides, every other one the declared. *)
Lemma delegate_logical_at l lf : logical !! l = Some lf ->
  field_at (delegate_logical_schema logical delegate_physical (nested_columns binding)) (field_name lf) =
    Some (l, default lf (i ← source_of l; _ ← nested_columns binding !! i; delegate_physical !! i)).
Proof.
  intros Hl. unfold field_at, delegate_logical_schema. apply list_find_Some. rewrite list_lookup_fmap, Hl. cbn [fmap option_fmap option_map]. rewrite (substituted l lf Hl).
  assert (forall l lf, logical !! l = Some lf -> field_name (default lf (i ← source_of l; _ ← nested_columns binding !! i; delegate_physical !! i)) = field_name lf) as Hn.
  { clear l lf Hl. intros l lf Hl. destruct (source_of l) as [i|] eqn:Es; [|done]. cbn. destruct (nested_columns binding !! i); [|done]. cbn.
    destruct (delegate_physical !! i) as [f|] eqn:Ef; [|done]. cbn. destruct (delegate_physical_name _ _ Ef) as (g & Hg & ->). by apply (name_source l lf i g Hl Hg). }
  split_and!; [done|by apply Hn|]. intros j y. rewrite list_lookup_fmap. destruct (logical !! j) as [f|] eqn:Ej; [|done]. intros [= <-] Hlt E.
  rewrite (substituted j f Ej), (Hn j f Ej) in E. enough (j = l) by lia.
  apply (NoDup_lookup (map field_name logical) j l (field_name lf)); [done|..]; rewrite list_lookup_fmap; [rewrite Ej|rewrite Hl]; cbn; congruence.
Qed.

Lemma absent_default_at l lf : logical !! l = Some lf ->
  absent_defaults binding logical (factory_resolution factory) !! l = (if source_of l then None else defaults (factory_resolution factory) !! field_name lf).
Proof.
  intros Hl. unfold absent_defaults.
  transitivity (logical !! l ≫= fun f => if bool_decide (field_name f ∈ bound_logical_names binding) then None else defaults (factory_resolution factory) !! field_name f).
  { rewrite <- (lookup_indexed (fun _ f => if bool_decide (field_name f ∈ bound_logical_names binding) then None else defaults (factory_resolution factory) !! field_name f)).
    f_equal. f_equal. apply list_omap_ext. apply Forall2_same_length_lookup_2; [done|]. intros j [k f] [k' f'] H H'. rewrite H in H'. injection H' as <- <-.
    by destruct (bool_decide _). }
  rewrite Hl. cbn. assert (field_name lf ∈ bound_logical_names binding <-> is_Some (source_of l)) as Hb; [|destruct (source_of l); [by rewrite bool_decide_true by by apply Hb|rewrite bool_decide_false; [done|]; intros [? ?]%Hb; done]].
  assert (bound_logical_names binding = list_to_set (List.filter (fun n => bool_decide (n ∈ (list_to_set (map field_name (renamed_physical binding)) : gset string))) (map field_name logical))) as ->.
  { unfold bind_columns. by destruct (claims_of _ _ _). }
  rewrite elem_of_list_to_set, list_elem_of_In, filter_In, bool_decide_eq_true, elem_of_list_to_set. split.
  - intros [_ Hin]. apply list_elem_of_fmap in Hin as (g & Eg & Hg). apply list_elem_of_lookup in Hg as [i Hg]. exists i. by apply (name_source l lf i g Hl Hg).
  - intros [i Hs]. split; [apply in_map_iff; exists lf; split; [done|]; apply list_elem_of_In; by eapply list_elem_of_lookup_2|].
    destruct (source_physical l i Hs) as (pf & g & _ & Hg & _). apply list_elem_of_fmap. exists g. split; [by symmetry; apply (name_source l lf i g Hl Hg)|by eapply list_elem_of_lookup_2].
Qed.

Lemma physical_by_name_at (b : ColumnBinding) name : physical_by_name b name = snd <$> field_at (renamed_physical b) name.
Proof.
  unfold physical_by_name, field_at. induction (renamed_physical b) as [|f fs IH]; [done|]. cbn [List.find list_find].
  destruct (String.eqb_spec (field_name f) name) as [E|E]; [by rewrite decide_True by done|]. rewrite decide_False by done. rewrite IH. by destruct (list_find _ fs) as [[]|].
Qed.

(** A column read without rendering is refused unless its declared type admits it. *)
Lemma refused_at l lf : logical !! l = Some lf ->
  refused_columns binding logical !! l =
    (i ← source_of l; pf ← physical !! i;
     if nested_columns binding !! i then None
     else if admits (field_type pf) (field_type lf) then None else Some (MkRefusedRead (field_name lf) (field_type lf) (field_type pf))).
Proof.
  intros Hl. unfold refused_columns. rewrite (lookup_indexed (fun _ f => refused_read binding f)), Hl. cbn. unfold refused_read. rewrite physical_by_name_at, (renamed_source l lf Hl).
  destruct (source_of l) as [i|] eqn:Es; cbn; [|by destruct (renders_json _ _)]. destruct (source_physical l i Es) as (pf & g & Hp & Hg & Ht). rewrite Hp, nested_at, Hg. cbn. rewrite Ht.
  apply (name_source l lf i g Hl Hg) in Es. rewrite Es. unfold renders_json. destruct (nested binding !! field_name lf) as [r|]; [|done]. cbn. by destruct (needs_nested_json_rendering _).
Qed.

(** ** The rewritten expression *)

Notation delegate_logical := (delegate_logical_schema logical delegate_physical (nested_columns binding)).

Context (ad : FieldIdExprAdapter Op).
Hypothesis created : create factory logical physical = Ok ad.

Lemma created_fields : physical_file_schema ad = physical /\ absent_default_by_index ad = absent_defaults binding logical (factory_resolution factory)
  /\ refused_by_index ad = refused_columns binding logical /\ adapter_table_root ad = factory_table_root factory /\ nested_by_index ad = nested_columns binding
  /\ default_create delegate_logical delegate_physical = Ok (inner ad).
Proof.
  unfold create in created. destruct (ensure_unambiguous _ _); [|done]. cbn in created. destruct (default_create _ _) as [rw|] eqn:E; [|done].
  cbn in created. injection created as <-. by split_and!.
Qed.

Lemma fill_descends : descends (fill_default ad).
Proof. intros [] e'; cbn; try (intros [= <-]; by left). destruct (_ !! index); intros [= <-]; [by right|by left]. Qed.

Lemma bind_descends : descends (bind_back ad).
Proof.
  intros [] e'; cbn; try (intros [= <-]; by left). destruct (_ !! index) as [f|]; [|done]. destruct (nested_by_index ad !! index); [done|].
  intros [= <-]. right. by destruct (String.eqb _ _).
Qed.

(** A rewrite that leaves a node alone rewrites its children. *)
Lemma transform_kept f (e : expr) : descends f -> f e = Ok (e, Continue) ->
  transform_down f e = (let? args := try_map (transform_down f) (children e) in with_new_children e args).
Proof. intros Hd He. rewrite transform_pre_order, He by done. done. Qed.

Lemma transform_args f (e e' : expr) : descends f -> f e = Ok (e, Continue) -> transform_down f e = Ok e' ->
  exists args, Forall2 (fun a b => transform_down f a = Ok b) (children e) args /\ with_new_children e args = Ok e'.
Proof.
  intros Hd He. rewrite (transform_kept f e Hd He). destruct (try_map _ _) as [args|] eqn:E; [|done]. cbn. intros H. exists args. split; [by apply try_map_Forall2|done].
Qed.

Lemma fill_column name l : transform_down (fill_default ad) (EColumn name l) =
  Ok (match absent_default_by_index ad !! l with Some value => ELiteral value | None => EColumn name l end).
Proof. rewrite transform_pre_order by apply fill_descends. cbn. by destruct (absent_default_by_index ad !! l). Qed.

Lemma bind_column name i field : physical_file_schema ad !! i = Some field ->
  transform_down (bind_back ad) (EColumn name i) =
    Ok (match nested_by_index ad !! i with Some r => ENestedJson (EColumn (field_name field) i) r | None => EColumn (field_name field) i end).
Proof.
  intros Hi. rewrite transform_pre_order by apply bind_descends. cbn. rewrite Hi. destruct (String.eqb_spec (field_name field) name) as [->|]; cbn; by destruct (nested_by_index ad !! i).
Qed.

Lemma bind_literal value e' : transform_down (bind_back ad) (ELiteral value) = Ok e' -> e' = ELiteral value.
Proof. rewrite transform_kept; [|apply bind_descends|done]. cbn. by intros [= <-]. Qed.

(** Arrow's cast to the type an array has is the identity. *)
Hypothesis cast_same : forall a, cast a (narray_type a) = Ok a.

Section Batch.
Context (batch : list array) (num_rows : nat).
Hypothesis batch_typed : Forall2 (fun f a => narray_type a = field_type f) physical batch.

Lemma file_column_at i pf : physical !! i = Some pf -> exists a, batch !! i = Some a /\ narray_type a = field_type pf /\ forall k, file_column physical batch (field_name pf) k = Ok a.
Proof.
  intros Hi. destruct (Forall2_lookup_l _ _ _ _ _ batch_typed Hi) as (a & Ha & Ht). exists a. split_and!; [done..|]. intros k. unfold file_column, field_at.
  assert (list_find (fun f => field_name f = field_name pf) physical = Some (i, pf)) as ->; [|cbn; by rewrite Ha].
  apply list_find_Some. split_and!; [done..|]. intros j y Hj Hlt E. enough (j = i) by lia.
  apply (NoDup_lookup (map field_name physical) j i (field_name pf)); [done|..]; rewrite list_lookup_fmap; [rewrite Hj|rewrite Hi]; cbn; congruence.
Qed.

Lemma column_reads name l lf e1 e2 e3 : logical !! l = Some lf -> field_name lf = name ->
  transform_down (fill_default ad) (EColumn name l) = Ok e1 -> adapted can_cast delegate_logical delegate_physical e1 e2 -> transform_down (bind_back ad) e2 = Ok e3 ->
  evaluate (file_column physical batch) num_rows e3 = declared_column batch num_rows name l.
Proof.
  intros Hl <- H1 H2 H3. destruct created_fields as (Ep & Ea & _ & _ & En & _). rewrite fill_column, Ea, (absent_default_at l lf Hl) in H1. injection H1 as <-.
  unfold declared_column. rewrite Hl. destruct (source_of l) as [i|] eqn:Es.
  - destruct (source_physical l i Es) as (pf & g & Hp & Hg & Ht). destruct (file_column_at i pf Hp) as (a & Ha & Hta & Hf). rewrite Ha.
    inversion H2 as [? ? l' lf' i' pf' out Hdl Hdp Hb|? ? ? ? Hdl Hdp _| | | |]; subst.
    2: { rewrite (delegate_physical_at l lf Hl), Es in Hdp. cbn in Hdp. by rewrite Hg in Hdp. }
    rewrite (delegate_logical_at l lf Hl), Es in Hdl. rewrite (delegate_physical_at l lf Hl), Es in Hdp. cbn in Hdl, Hdp. rewrite delegate_physical_lookup in Hdl. rewrite Hg in Hdl, Hdp. cbn in Hdl, Hdp.
    injection Hdp as <- <-. destruct (nested_columns binding !! i) as [r|] eqn:Er; cbn in Hdl; injection Hdl as <- <-.
    + destruct Hb as [[-> _]|(_ & Hne & _)]; [|done]. rewrite (bind_column _ i pf), En, Er in H3 by by rewrite Ep. injection H3 as <-. cbn [evaluate]. rewrite Hf. done.
    + unfold default_binding in Hb. rewrite Ht in Hb. destruct Hb as [[-> Hty]|(-> & _ & _)].
      * rewrite (bind_column _ i pf), En, Er in H3 by by rewrite Ep. injection H3 as <-. cbn [evaluate]. rewrite Hf, Hty, <- Hta. by rewrite cast_same.
      * apply transform_args in H3 as (args & Hargs & Hw); [|apply bind_descends|done]. cbn [children] in Hargs.
        apply Forall2_cons_inv_l in Hargs as (x & rest & Hx & Hnil & ->). apply Forall2_nil_inv_l in Hnil as ->.
        rewrite (bind_column _ i pf), En, Er in Hx by by rewrite Ep. injection Hx as <-. injection Hw as <-. cbn [evaluate]. by rewrite Hf.
  - destruct (defaults (factory_resolution factory) !! field_name lf) as [value|].
    + inversion H2; subst. by rewrite (bind_literal _ _ H3).
    + inversion H2 as [? ? l' lf' i' pf' out Hdl Hdp Hb|? ? ? ? Hdl Hdp _| | | |]; subst.
      * rewrite (delegate_physical_at l lf Hl), Es in Hdp. done.
      * rewrite (delegate_logical_at l lf Hl), Es in Hdl. injection Hdl as <- <-. by rewrite (bind_literal _ _ H3).
Qed.

Lemma expression_reads e : forall e1 e2 e3, scoped e ->
  transform_down (fill_default ad) e = Ok e1 -> adapted can_cast delegate_logical delegate_physical e1 e2 -> transform_down (bind_back ad) e2 = Ok e3 ->
  evaluate (file_column physical batch) num_rows e3 = evaluate (declared_column batch num_rows) num_rows e.
Proof.
  induction e as [name l|value|input target IH|op args IH|input r IH]; intros e1 e2 e3 [Hplain Hs] H1 H2 H3.
  - destruct (Hs name l) as (lf & Hl & En); [by left|]. by eapply column_reads.
  - rewrite transform_kept in H1; [|apply fill_descends|done]. injection H1 as <-. inversion H2; subst. by rewrite (bind_literal _ _ H3).
  - apply transform_args in H1 as (a1 & Ha1 & Hw1); [|apply fill_descends|done]. cbn [children] in Ha1.
    apply Forall2_cons_inv_l in Ha1 as (x & rest & Hx & Hnil & ->). apply Forall2_nil_inv_l in Hnil as ->. injection Hw1 as <-. inversion H2 as [| | |? input2 ? Hi2| |]; subst.
    apply transform_args in H3 as (a3 & Ha3 & Hw3); [|apply bind_descends|done]. cbn [children] in Ha3.
    apply Forall2_cons_inv_l in Ha3 as (y & rest & Hy & Hnil & ->). apply Forall2_nil_inv_l in Hnil as ->. injection Hw3 as <-.
    cbn [evaluate]. by rewrite (IH x input2 y (conj Hplain Hs) Hx Hi2 Hy).
  - apply transform_args in H1 as (a1 & Ha1 & Hw1); [|apply fill_descends|done]. injection Hw1 as <-. inversion H2 as [| | | |? ? a2 Ha2|]; subst.
    apply transform_args in H3 as (a3 & Ha3 & Hw3); [|apply bind_descends|done]. injection Hw3 as <-. cbn [children] in Ha1, Ha3. cbn [evaluate].
    match goal with |- (let? x := ?l in _) = (let? y := ?r in _) => assert (l = r) as ->; [|done] end.
    clear H2. cbn [plain] in Hplain. rewrite columns_of_node in Hs. revert Hplain Hs a1 Ha1 a2 Ha2 a3 Ha3. induction IH as [|e args IHe _ IHargs]; intros Hplain Hs a1 Ha1 a2 Ha2 a3 Ha3.
    + apply Forall2_nil_inv_l in Ha1 as ->. apply Forall2_nil_inv_l in Ha2 as ->. by apply Forall2_nil_inv_l in Ha3 as ->.
    + apply Forall2_cons_inv_l in Ha1 as (x1 & r1 & Hx1 & Hr1 & ->). apply Forall2_cons_inv_l in Ha2 as (x2 & r2 & Hx2 & Hr2 & ->). apply Forall2_cons_inv_l in Ha3 as (x3 & r3 & Hx3 & Hr3 & ->).
      cbn [forallb] in Hplain. apply andb_true_iff in Hplain as [Hp Hps]. cbn [map List.concat] in Hs. cbn [try_map].
      rewrite (IHe x1 x2 x3); [|split; [done|]; intros name l Hin; apply Hs, elem_of_app; by left|done..].
      rewrite (IHargs Hps (fun name l Hin => Hs name l (proj2 (elem_of_app _ _ _) (or_intror Hin))) r1 Hr1 r2 Hr2 r3 Hr3). done.
  - done.
Qed.
End Batch.

(** ** Which expressions a file answers *)

Lemma refusals_found e :
  match visit (refuse_column type_display ad) e with
  | Ok _ => forall name l, (name, l) ∈ columns_of e -> refused_by_index ad !! l = None
  | Err m => exists name l refused, (name, l) ∈ columns_of e /\ refused_by_index ad !! l = Some refused /\ m = refusal type_display refused (adapter_table_root ad)
  end.
Proof.
  induction e as [name l|value|input target IH|op args IH|input r IH]; rewrite visit_pre_order; cbn [refuse_column children try_map].
  - destruct (refused_by_index ad !! l) as [refused|] eqn:E; [exists name, l, refused; by split_and!; [left|..]|]. cbn. intros n k Hin. by apply list_elem_of_singleton in Hin as [= -> ->].
  - cbn. intros n l Hin. by apply elem_of_nil in Hin.
  - cbn. by destruct (visit _ input).
  - rewrite columns_of_node. cbn. induction IH as [|e args IHe _ IHargs]; cbn; [intros n l Hin; by apply elem_of_nil in Hin|].
    destruct (visit (refuse_column type_display ad) e) as [u|m]; cbn in *.
    + destruct (try_map _ args) as [us|m]; cbn in *; [intros n l [Hin|Hin]%elem_of_app; [by eapply IHe|by eapply IHargs]|].
      destruct IHargs as (n & l & refused & Hin & Hr). exists n, l, refused. split; [apply elem_of_app; by right|done].
    + destruct IHe as (n & l & refused & Hin & Hr). exists n, l, refused. split; [apply elem_of_app; by left|done].
  - cbn. by destruct (visit _ input).
Qed.

(** A column the file can answer: cast to its declared type where it is stored as
    another, and a default or NULL where the file lacks it. *)
Definition readable (column : string * nat) : bool :=
  match logical !! column.2 with
  | None => false
  | Some lf =>
      match source_of column.2 with
      | Some i =>
          match nested_columns binding !! i, physical !! i with
          | None, Some pf => bool_decide (field_type lf = field_type pf) || can_cast (field_type pf) (field_type lf)
          | _, _ => true
          end
      | None => bool_decide (is_Some (defaults (factory_resolution factory) !! field_name lf)) || field_nullable lf
      end
  end.

Definition answers (e : expr) : Prop :=
  exists e1, transform_down (fill_default ad) e = Ok e1 /\ (exists e2, adapted can_cast delegate_logical delegate_physical e1 e2)
    /\ forall e2, adapted can_cast delegate_logical delegate_physical e1 e2 -> exists e3, transform_down (bind_back ad) e2 = Ok e3.

Lemma literal_answers value : exists e3, transform_down (bind_back ad) (ELiteral value) = Ok e3.
Proof. rewrite transform_kept; [by eexists|apply bind_descends|done]. Qed.

Lemma column_answers name l lf : logical !! l = Some lf -> field_name lf = name -> readable (name, l) = true -> answers (EColumn name l).
Proof.
  intros Hl <- Hr. destruct created_fields as (Ep & Ea & _ & _ & En & _). unfold answers. eexists. split; [apply fill_column|]. rewrite Ea, (absent_default_at l lf Hl).
  unfold readable in Hr. cbn [snd] in Hr. rewrite Hl in Hr. destruct (source_of l) as [i|] eqn:Es.
  - destruct (source_physical l i Es) as (pf & g & Hp & Hg & Ht). rewrite Hp in Hr. split.
    + pose proof (delegate_logical_at l lf Hl) as Hdl. pose proof (delegate_physical_at l lf Hl) as Hdp. rewrite Es in Hdl, Hdp. cbn in Hdl, Hdp. rewrite delegate_physical_lookup in Hdl. rewrite Hg in Hdl, Hdp. cbn in Hdl, Hdp.
      destruct (nested_columns binding !! i) as [r|] eqn:Er; cbn in Hdl; [exists (EColumn (field_name lf) i); eapply adapted_bound; [done..|by left]|].
      destruct (decide (field_type lf = field_type g)) as [E|E]; [exists (EColumn (field_name lf) i); eapply adapted_bound; [done..|by left]|].
      exists (ECast (EColumn (field_name lf) i) lf). eapply adapted_bound; [done..|]. right. rewrite <- Ht in Hr. rewrite bool_decide_false in Hr by done. split_and!; [done|congruence|done].
    + intros e2 H2. inversion H2 as [? ? l' lf' i' pf' out Hdl Hdp Hb|? ? ? ? Hdl Hdp _| | | |]; subst; [|by eapply literal_answers].
      rewrite (delegate_physical_at l lf Hl), Es in Hdp. cbn in Hdp. rewrite Hg in Hdp. injection Hdp as <- _.
      assert (exists e3, transform_down (bind_back ad) (EColumn (field_name lf) i) = Ok e3) as [e3 He] by (eexists; apply (bind_column _ i pf); by rewrite Ep).
      destruct Hb as [[-> _]|(-> & _ & _)]; [by exists e3|]. rewrite transform_kept; [|apply bind_descends|done]. cbn. rewrite He. cbn. by eexists.
  - destruct (defaults (factory_resolution factory) !! field_name lf) as [value|] eqn:Ed.
    + split; [exists (ELiteral value); constructor|]. intros e2 H2. inversion H2; subst. apply literal_answers.
    + cbn in Hr. pose proof (delegate_logical_at l lf Hl) as Hdl. pose proof (delegate_physical_at l lf Hl) as Hdp. rewrite Es in Hdl, Hdp. cbn in Hdl, Hdp. split.
      * exists (ELiteral (SvNull (field_type lf))). by eapply adapted_absent.
      * intros e2 H2. inversion H2; subst; [congruence|apply literal_answers].
Qed.

Lemma args_answer (args : list expr) : Forall answers args ->
  exists a1, try_map (transform_down (fill_default ad)) args = Ok a1 /\ (exists a2, Forall2 (adapted can_cast delegate_logical delegate_physical) a1 a2)
    /\ forall a2, Forall2 (adapted can_cast delegate_logical delegate_physical) a1 a2 -> exists a3, try_map (transform_down (bind_back ad)) a2 = Ok a3.
Proof.
  induction 1 as [|e args (x1 & Hx1 & (x2 & Hx2) & Hx3) _ (a1 & Ha1 & (a2 & Ha2) & Ha3)].
  - exists []. split_and!; [done|exists []; constructor|]. intros a2 ->%Forall2_nil_inv_l. by exists [].
  - exists (x1 :: a1). cbn [try_map]. rewrite Hx1, Ha1. split_and!; [done|exists (x2 :: a2); by constructor|].
    intros b (y & b' & Hy & Hb & ->)%Forall2_cons_inv_l. cbn [try_map]. destruct (Hx3 y Hy) as [y3 ->], (Ha3 b' Hb) as [b3 ->]. cbn. by eexists.
Qed.

Lemma expression_answers e : scoped e -> forallb readable (columns_of e) = true -> answers e.
Proof.
  induction e as [name l|value|input target IH|op args IH|input r IH]; intros [Hplain Hs] Hr.
  - destruct (Hs name l) as (lf & Hl & En); [by left|]. cbn in Hr. rewrite andb_true_r in Hr. by eapply column_answers.
  - exists (ELiteral value). split; [rewrite transform_kept; [done|apply fill_descends|done]|]. split; [exists (ELiteral value); constructor|].
    intros e2 H2. inversion H2; subst. apply literal_answers.
  - destruct (IH (conj Hplain Hs) Hr) as (x1 & Hx1 & (x2 & Hx2) & Hx3). exists (ECast x1 target).
    split; [rewrite transform_kept; [|apply fill_descends|done]; cbn; by rewrite Hx1|]. split; [exists (ECast x2 target); by constructor|].
    intros e2 H2. inversion H2 as [| | |? y ? Hy| |]; subst. rewrite transform_kept; [|apply bind_descends|done]. cbn. destruct (Hx3 y Hy) as [y3 ->]. cbn. by eexists.
  - destruct (args_answer args) as (a1 & Ha1 & (a2 & Ha2) & Ha3).
    { cbn [plain] in Hplain. rewrite columns_of_node in Hs, Hr. clear -IH Hplain Hs Hr. induction IH as [|e args IHe _ IHargs]; [constructor|].
      cbn [forallb map List.concat] in *. apply andb_true_iff in Hplain as [Hp Hps]. rewrite forallb_app in Hr. apply andb_true_iff in Hr as [Hr Hrs]. constructor.
      - apply IHe; [|done]. split; [done|]. intros name l Hin. apply Hs, elem_of_app. by left.
      - apply IHargs; [done| |done]. intros name l Hin. apply Hs, elem_of_app. by right. }
    exists (ENode op a1). split; [rewrite transform_kept; [|apply fill_descends|done]; cbn; by rewrite Ha1|]. split; [exists (ENode op a2); by constructor|].
    intros e2 H2. inversion H2 as [| | | |? ? b Hb|]; subst. rewrite transform_kept; [|apply bind_descends|done]. cbn. destruct (Ha3 b Hb) as [b3 ->]. cbn. by eexists.
  - done.
Qed.

Lemma unanswered e : scoped e -> (answers e -> False) -> exists column, column ∈ columns_of e /\ readable column = false.
Proof. intros Hs Hn. destruct (forallb readable (columns_of e)) eqn:Er; [by destruct Hn; apply expression_answers|by apply forallb_false]. Qed.

Lemma refusal_stage e : (let? _ := if bool_decide (refused_by_index ad = ∅) then Ok tt else visit (refuse_column type_display ad) e in Ok tt) = visit (refuse_column type_display ad) e.
Proof.
  case_bool_decide as E; cbn; [|by destruct (visit _ e) as [[]|]]. pose proof (refusals_found e) as H. destruct (visit _ e) as [[]|m]; [done|].
  destruct H as (? & ? & ? & _ & H & _). rewrite E, lookup_empty in H. done.
Qed.

Lemma admitted_column e name l i : scoped e -> (forall name l, (name, l) ∈ columns_of e -> refused_by_index ad !! l = None) ->
  (name, l) ∈ columns_of e -> source_of l = Some i -> nested_columns binding !! i = None ->
  exists lf pf, logical !! l = Some lf /\ physical !! i = Some pf /\ admits (field_type pf) (field_type lf) = true.
Proof.
  intros Hs Hf Hc Hsrc Hn. destruct created_fields as (_ & _ & Eref & _). destruct (proj2 Hs name l Hc) as (lf & Hl & _). destruct (source_physical l i Hsrc) as (pf & g & Hp & _).
  exists lf, pf. split_and!; [done..|]. specialize (Hf name l Hc). rewrite Eref, (refused_at l lf Hl), Hsrc in Hf. cbn in Hf. rewrite Hp in Hf. cbn in Hf. rewrite Hn in Hf. by destruct (admits _ _).
Qed.

(** C8. An expression over the table's columns, pushed into the scan of one data file, reads
    exactly what the table declares. The rewritten expression, whose columns the reader
    resolves by name in the file's own schema, evaluates on every batch of the file to
    what the original does when each table column is the file column that claimed it -
    rendered as JSON documents where members are declared, else cast to the declared type
    - and a column the file lacks is its initial default or NULL; and a column it casts
    is stored as a type the declared one admits. It fails only where a column it reads is
    refused, and then with that column's refusal, or is one the file cannot answer. *)
Theorem file_expressions_exact e : scoped e ->
  match rewrite type_display ad e with
  | Ok e' =>
      (forall name l i, (name, l) ∈ columns_of e -> source_of l = Some i -> nested_columns binding !! i = None ->
         exists lf pf, logical !! l = Some lf /\ physical !! i = Some pf /\ admits (field_type pf) (field_type lf) = true)
      /\ forall batch num_rows, Forall2 (fun f a => narray_type a = field_type f) physical batch ->
           evaluate (file_column physical batch) num_rows e' = evaluate (declared_column batch num_rows) num_rows e
  | Err m =>
      (exists name l refused, (name, l) ∈ columns_of e /\ refused_columns binding logical !! l = Some refused /\ m = refusal type_display refused (factory_table_root factory))
      \/ exists column, column ∈ columns_of e /\ readable column = false
  end.
Proof.
  intros Hs. destruct created_fields as (_ & _ & Eref & Eroot & _ & Hin). unfold rewrite. pose proof (refusal_stage e) as Hst. pose proof (refusals_found e) as Hf.
  destruct (if bool_decide _ then _ else _) as [[]|m]; cbn in Hst |- *; rewrite <- Hst in Hf; [|left; by rewrite <- Eref, <- Eroot].
  destruct (transform_down (fill_default ad) e) as [e1|m1] eqn:E1; cbn.
  - destruct (inner ad e1) as [e2|m2] eqn:E2; cbn.
    + pose proof (default_adapts _ _ _ _ _ Hin E2) as H2. destruct (transform_down (bind_back ad) e2) as [e3|m3] eqn:E3.
      * split; [intros name l i; by apply admitted_column|]. intros batch n Hb. by eapply expression_reads.
      * right. apply unanswered; [done|]. intros (x & Hx & _ & H3). rewrite E1 in Hx. injection Hx as <-. destruct (H3 e2 H2) as [? H]. by rewrite E3 in H.
    + right. apply unanswered; [done|]. intros (x & Hx & (x2 & H2) & _). rewrite E1 in Hx. injection Hx as <-. destruct (default_total _ _ _ _ _ Hin H2) as [out H]. by rewrite E2 in H.
  - right. apply unanswered; [done|]. intros (x & Hx & _). by rewrite E1 in Hx.
Qed.
End Exact.
End Evaluate.

(** ** At work *)

Section Plain.
Context {Op : Type}.
Notation expr := (PhysicalExpr Op).

Fixpoint plain_visit (g : expr -> result string unit) (e : expr) : result string unit :=
  let? _ := g e in
  match e with
  | EColumn _ _ | ELiteral _ => Ok tt
  | ECast input _ | ENestedJson input _ => let? _ := plain_visit g input in Ok tt
  | ENode _ args => let? _ := try_map (plain_visit g) args in Ok tt
  end.

Fixpoint plain_transform (f : expr -> result string (expr * Recursion)) (e : expr) : result string expr :=
  let? step := f e in
  match step with
  | (e', Jump) => Ok e'
  | (e', Continue) =>
      match children e' with
      | [] => with_new_children e' []
      | _ =>
          match e with
          | EColumn _ _ | ELiteral _ => with_new_children e' []
          | ECast input _ | ENestedJson input _ => let? x := plain_transform f input in with_new_children e' [x]
          | ENode _ args => let? xs := try_map (plain_transform f) args in with_new_children e' xs
          end
      end
  end.

#[local] Instance plain_tree : TreeNode Op := {| visit := plain_visit; transform_down := plain_transform |}.

#[local] Instance plain_tree_laws : TreeNodeLaws Op.
Proof.
  constructor.
  - intros g e. cbn [visit plain_tree]. destruct e; cbn [plain_visit children try_map]; destruct (g _); try done; cbn; by destruct (plain_visit g _).
  - intros f e Hd. cbn [transform_down plain_tree]. destruct e; cbn [plain_transform]; destruct (f _) as [[e' []]|] eqn:Ef; try done; cbn;
      destruct (Hd _ _ Ef) as [->|Hc]; try (rewrite Hc; done); try done; cbn [children try_map]; try (by destruct (plain_transform f _)); by destruct args.
Qed.

Fixpoint plain_adapt (logical physical : list Field) (e : expr) : result string expr :=
  match e with
  | EColumn name _ =>
      match field_at logical name, field_at physical name with
      | Some (_, lf), Some (i, pf) => Ok (if decide (field_type lf = field_type pf) then EColumn name i else ECast (EColumn name i) lf)
      | Some (_, lf), None => if field_nullable lf then Ok (ELiteral (SvNull (field_type lf))) else Err "a required column is missing"
      | None, _ => Err "no such column"
      end
  | ELiteral value => Ok (ELiteral value)
  | ECast input target => let? x := plain_adapt logical physical input in Ok (ECast x target)
  | ENode op args => let? xs := try_map (plain_adapt logical physical) args in Ok (ENode op xs)
  | ENestedJson input r => let? x := plain_adapt logical physical input in Ok (ENestedJson x r)
  end.

#[local] Instance plain_default : DefaultAdapter Op := {| default_create := fun logical physical => Ok (plain_adapt logical physical); can_cast := fun _ _ => true |}.

#[local] Instance plain_default_laws : DefaultAdapterLaws Op.
Proof.
  constructor; cbn [default_create plain_default].
  - intros logical physical rw e e' [= <-]. revert e'. induction e as [name l|value|input target IH|op args IH|input r IH]; intros e'; cbn [plain_adapt].
    + destruct (field_at logical name) as [[k lf]|] eqn:El; [|done]. destruct (field_at physical name) as [[i pf]|] eqn:Ep.
      * intros [= <-]. eapply adapted_bound; [done..|]. destruct (decide _); [by left|]. right. split_and!; [done|congruence|done].
      * destruct (field_nullable lf) eqn:En; [|done]. intros [= <-]. by eapply adapted_absent.
    + intros [= <-]. constructor.
    + destruct (plain_adapt logical physical input); [|done]. intros [= <-]. constructor. by apply IH.
    + destruct (try_map _ args) as [xs|] eqn:E; [|done]. intros [= <-]. constructor. apply try_map_Forall2 in E. clear -IH E. induction E as [|a b args xs Hab _ IHx]; [constructor|].
      apply Forall_cons in IH as [IHa IH]. constructor; [by apply IHa|by apply IHx].
    + destruct (plain_adapt logical physical input); [|done]. intros [= <-]. constructor. by apply IH.
  - intros logical physical rw e e' [= <-]. revert e'. induction e as [name l|value|input target IH|op args IH|input r IH]; intros e' H; inversion H; subst; cbn [plain_adapt].
    + match goal with H1 : field_at logical name = _, H2 : field_at physical name = _ |- _ => rewrite H1, H2 end. by eexists.
    + match goal with H1 : field_at logical name = _, H2 : field_at physical name = _, H3 : field_nullable _ = _ |- _ => rewrite H1, H2, H3 end. by eexists.
    + by eexists.
    + destruct (IH _ ltac:(eassumption)) as [x ->]. by eexists.
    + enough (exists xs, try_map (plain_adapt logical physical) args = Ok xs) as [xs ->] by by eexists.
      match goal with H : Forall2 _ args _ |- _ => revert H end. clear -IH. intros H. induction H as [|a b args xs Hab _ IHx]; [by exists []|].
      apply Forall_cons in IH as [IHa IH]. cbn. destruct (IHa _ Hab) as [x ->], (IHx IH) as [ys ->]. by eexists.
    + destruct (IH _ ltac:(eassumption)) as [x ->]. by eexists.
Qed.
End Plain.

(** Column 1 was dropped, column 2 renamed to its name and column [Total] added since
    the file was written: [rating] reads the file's [score], and [Total] NULLs. *)
Definition old_file : list Field := [with_id "rating" 1; with_id "score" 2].
Definition old_factory : FieldIdExprAdapterFactory := MkAdapterFactory no_resolution "s3://bucket/t".
Definition both_columns : PhysicalExpr string := ENode "coalesce" [EColumn "Total" 1; EColumn "rating" 0].
Notation cells := (NArray (Other := Z)).
Definition first_value (op : string) (arrays : list cells) (n : nat) : result string cells :=
  match arrays with [AOther _ [None]; a] => Ok a | a :: _ => Ok a | [] => Err op end.
Definition same_type_cast (a : cells) (t : DataType) : result string cells := if decide (narray_type a = t) then Ok a else Err "no cast".
Definition null_literal (v : ScalarValue) (n : nat) : cells := AOther (scalar_type v) (replicate n None).
Definition old_batch : list cells := [AOther TInt64 [Some 1%Z]; AOther TInt64 [Some 5%Z]].

Definition old_adapter : result string (FieldIdExprAdapter string) := create (UC := ascii_case) (D := plain_default) old_factory readded_logical old_file.
Notation evaluated := (evaluate (HX := plain_hex) (Op := string) (Other := Z) (fun _ => Ok tt) (fun t n => AOther t (replicate n None)) (fun _ => "") (fun _ => "") (fun _ => Err "none")
  (fun _ => false) (fun _ => Err "none") same_type_cast null_literal first_value).

(** The table's columns of a batch of the old file. *)
Definition old_columns : list cells -> nat -> string -> nat -> result string cells :=
  declared_column (HX := plain_hex) (UC := ascii_case) (Other := Z) (fun _ => Ok tt) (fun t n => AOther t (replicate n None)) (fun _ => "") (fun _ => "") (fun _ => Err "none")
    (fun _ => false) (fun _ => Err "none") same_type_cast null_literal old_factory readded_logical old_file.

Example old_file_read :
  (let? ad := old_adapter in let? e := rewrite (T := plain_tree) (fun _ => "") ad both_columns in evaluated (file_column old_file old_batch) 1 e) = Ok (AOther TInt64 [Some 5%Z]).
Proof. vm_compute. reflexivity. Qed.

Lemma same_type_cast_same a : same_type_cast a (narray_type a) = Ok a.
Proof. unfold same_type_cast. by rewrite decide_True. Qed.

Lemma file_expressions_exact_witness :
  exists ad e, old_adapter = Ok ad /\ rewrite (T := plain_tree) (fun _ => "") ad both_columns = Ok e
    /\ evaluated (file_column old_file old_batch) 1 e = Ok (AOther TInt64 [Some 5%Z])
    /\ (forall i, source_of (UC := ascii_case) old_factory readded_logical old_file 0 = Some i -> i = 1%nat)
    /\ forall batch n, Forall2 (fun f a => narray_type a = field_type f) old_file batch -> evaluated (file_column old_file batch) n e = evaluated (old_columns batch n) n both_columns.
Proof.
  pose proof old_file_read as H. destruct old_adapter as [ad|] eqn:Ead; [|vm_compute in H; discriminate H]. cbn in H.
  destruct (rewrite (T := plain_tree) (fun _ => "") ad both_columns) as [e|] eqn:Ee; [|vm_compute in H; discriminate H]. cbn in H.
  exists ad, e. split_and!; [done..| |].
  - intros i Hi. vm_compute in Hi. congruence.
  - intros batch n Hb.
    pose proof (file_expressions_exact (HX := plain_hex) (UC := ascii_case) (T := plain_tree) (TL := plain_tree_laws) (D := plain_default) (DL := plain_default_laws) (Op := string) (Other := Z) (fun _ => Ok tt) (fun t n => AOther t (replicate n None)) (fun _ => "") (fun _ => "") (fun _ => Err "none")
      (fun _ => false) (fun _ => Err "none") same_type_cast null_literal first_value old_factory readded_logical old_file readded_names readded_prefixes
      ltac:(apply (bool_decide_eq_true_1 _); vm_compute; reflexivity)
      ltac:(intros [|[|i]] [|[|j]] l Hi Hj; vm_compute in Hi, Hj; congruence)
      ad Ead same_type_cast_same both_columns) as Ht.
    rewrite Ee in Ht. apply Ht; [|done].
    split; [reflexivity|]. intros name l Hin. apply list_elem_of_In in Hin. destruct Hin as [E|[E|[]]]; injection E as <- <-;
      [exists (MkField "Total" TInt64 true ∅)|exists (with_id "rating" 2)]; split; reflexivity.
Defined.

(** A file's struct whose members were renamed and reordered, one of them added since. *)
Definition old_members : NestedMembers := NStruct [MkNestedField (Some 7%Z) "b" None None; MkNestedField (Some 9%Z) "c" None None; MkNestedField (Some 6%Z) "a" None None].
Definition old_struct : Field := MkField "s" (TStruct [with_id "x" 6; with_id "y" 7]) true ∅.
Definition old_values : cells := AStruct [with_id "x" 6; with_id "y" 7] [AOther TInt64 [Some 1%Z]; AOther TInt64 [Some 2%Z]] 1 None.
Notation applied_to := (apply (Other := Z) (fun _ => Ok tt) (fun t n => AOther t (replicate n None)) (fun _ => "")).

Lemma nested_members_read_as_declared_witness :
  exists read, applied_to (resolve_nested_field old_members old_struct []) old_values = Ok read
    /\ read = AStruct [with_name (with_id "y" 7) "b"; MkField "c" TNull true ∅; with_name (with_id "x" 6) "a"]
                [AOther TInt64 [Some 2%Z]; AOther TNull [None]; AOther TInt64 [Some 1%Z]] 1 None
    /\ same_rows old_values read.
Proof.
  destruct (nested_members_read_as_declared (Other := Z) (fun _ => Ok tt) (fun t n => AOther t (replicate n None)) (fun _ => "") ltac:(done)
    old_members old_struct [] old_values) as [_ H]; [by vm_compute|reflexivity|].
  destruct (applied_to (resolve_nested_field old_members old_struct []) old_values) as [read|] eqn:E; [|vm_compute in E; discriminate E].
  exists read. split; [done|]. split; [|apply H]. vm_compute in E |- *. injection E as <-. reflexivity.
Defined.
